(* ===== verification/_CoqProject ===== *)
-Q . S2P
Prelude.v
CString.v
DList.v
KHeap.v
Kmalloc.v
PageAlloc.v
Pmm.v
Vmm.v
Aslr.v
Pipe.v
Sched.v
Signal.v
Elf.v
Ramfs.v
VfsCompat.v
Process.v
Socket.v
TcpIp.v
Iso9660.v
Vfs.v
VfsFiles.v
VfsSave.v
Dns.v
Syscall.v
SyscallFiles.v
SyscallExec.v
Exec.v
Printk.v
Spinlock.v
Libc.v
Stdio.v
Streams.v
Ext4.v
Ext4Alloc.v
Ext4Files.v
Ext4Correct.v
Ext4Mount.v
Ext4Dirs.v
Ext4Create.v
Apfs.v
Sandbox.v
