(* ===== verification/Prelude.v ===== *)
(** * OS8 kernel: verification library

    A model of the machine-independent core of the OS8 kernel (src/kernel/) and
    of its C library (src/libc/), and theorems about them.  Each file translates
    one C file or a part of one; its definitions carry the names of the C
    functions and types.

    ** The program and its parts

    The kernel hands out physical pages (mm/pmm.c), maps them into the kernel
    and into user address spaces (mm/vmm.c), and runs a heap on top
    (mm/kmalloc.c).  Tasks are scheduled, forked and signalled by sched/; the
    process manager (core/process.c) loads ELF programs (loader/elf.c) at
    randomised addresses (mm/aslr.c) from the RAM file system (fs/ramfs.c),
    which it reaches through a small compatibility layer (fs/vfs_compat.c).
    The virtual file system (fs/vfs.c) mounts file systems at paths and gives
    the rest of the kernel open files; discs are mounted by fs/iso9660.c, and
    fs/ext4.c reads and writes ext4 disks given to it as two functions.  User
    programs enter through the system calls (syscall/syscall.c), which keep the
    file descriptors and the user heap.
    Pipes (ipc/pipe.c) connect tasks.  The network stack (net/tcp_ip.c) sends
    and receives frames through a driver; sockets (net/socket.c) are a table of
    their own, and net/dns.c encodes and decodes DNS messages.  lib/string.c is
    used everywhere, and so are the spinlocks (sync/spinlock.c) and printk
    (core/printk.c), which formats messages and keeps the kernel log.  User
    programs are linked with the C library: strings, a heap over brk, number
    conversion, formatted input and output and FILE streams.

    ** Files

    - [Prelude]: integers of fixed width, alignment, byte strings, tactics.
    - [CString] (lib/string.c): memcpy, memmove, memset, memcmp and the string
      functions over a byte-addressed memory.
    - [DList]: doubly linked lists threaded through a table, used by the heap
      and the run queue.
    - [KHeap]: the class [KernelHeap], what the heap promises to its clients;
      [Kmalloc] implements it, and [Pipe], [Ramfs], [Vfs], [VfsCompat],
      [Process], [Socket], [TcpIp], [Syscall], [Iso9660] and [Ext4] are written
      and proved against the class only.  [framed] is the frame rule: a client
      verified for any heap can share it with the allocations of another.
    - [Kmalloc] (mm/kmalloc.c): block headers in a map from addresses, the
      address-ordered block list, split, merge, krealloc.
    - [PageAlloc]: the class of a page allocator; [Pmm] (mm/pmm.c: bitmap for
      the early mode, buddy lists) implements it, [Vmm] uses it.
    - [Vmm] (mm/vmm.c): four-level page tables in a map from (table, index) to
      entries, kernel and user mappings, ranges, address spaces, VMAs.  A
      translation ([pte_of]) is what the hardware walk finds, a page or a block:
      the kernel's own mappings are blocks of 1 GB.
    - [Aslr] (mm/aslr.c): the generator and the four offsets.
    - [Pipe] (ipc/pipe.c): the ring buffer, blocking reads and writes cut at
      the points where the code waits, the close of an end, which frees the pipe
      after the last one.
    - [Sched] (sched/sched.c and do_fork of sched/fork.c), [Signal]
      (sched/signal.c), [Exec] (do_execve of sched/fork.c over [Vfs], the page
      tables and the task table).
    - [Elf] (loader/elf.c).
    - [Ramfs] (fs/ramfs.c), [VfsCompat] (fs/vfs_compat.c).
    - [Vfs] (fs/vfs.c over ramfs, fs/fat32.c and the discs of [Iso9660]): mount
      table, path lookup, dentries, open files, every call; [VfsFiles] and
      [VfsSave] prove the calls by path, the file system below used on the
      framed heap.
    - [Process] (core/process.c, ARM64), the client of [Elf], [Aslr],
      [VfsCompat] and the heap.
    - [Socket] (net/socket.c), [TcpIp] (net/tcp_ip.c): packets as lists of
      bytes, the connection table with its buffers in the heap, the abstract
      connection [tcb] and its state machine [call_spec].
    - [Dns] (net/dns.c): names, queries, responses, the cache.
    - [Syscall] (syscall/syscall.c): descriptor table, user memory, the calls
      and the dispatcher, the client of [Vfs], [Sched] and [Elf];
      [SyscallFiles] proves the file calls against the abstract machine
      [astep], [SyscallExec] the execve call.
    - [Iso9660] (fs/iso9660.c, the mountable half): descriptors, directory
      records, the tree of nodes, reading.
    - [Printk] (core/printk.c): kvsnprintf and the ring of the kernel log.
    - [Spinlock] (sync/spinlock.c): the instructions of the four variants,
      interleaved over any number of processors; the exchange of the fallback
      is one instruction or two.
    - [Libc] (libc/src/string.c, stdlib.c and the signal sets of signal.c).
    - [Stdio] (formatted output and input of libc/src/stdio.c), [Streams] (its
      FILE streams, over the class [PosixIO] of the system calls).

    - [Ext4] (fs/ext4.c): every function of the driver, over the class
      [BlockDevice] of disks; [BlockLaws] is what a disk promises.
      [Ext4Alloc] proves the bitmaps and counters, [Ext4Files] the block map
      of a file and the invariant [fs_inv] of the disk, [Ext4Correct] reading
      and writing, with a disk in memory that implements the class, [Ext4Mount]
      mounting, [Ext4Dirs] directories as lists of entries, [Ext4Create] the
      creation of files.
    - [Apfs] (fs/apfs.c), over the same class of disks; [Sandbox]
      (sandbox/sandbox.c, the life of a context).

    ** How the code is represented

    A C integer is a [Z] wrapped to its width by [u8] ... [i64] wherever the C
    operation can leave its range.  A struct is a Record, an enum an Inductive
    type, an array a list or a map, a pointer an address or an index with
    [None] for NULL.  Functions pass the state explicitly; the result type
    [option] of a model is [None] exactly where the C code would dereference
    a dangling pointer, divide by zero, read outside a buffer or, for a loop
    with fuel, run on.  The memory of programs ([p_mem], [k_mem], [x_mem]) is a
    map from addresses that the kernel shares: a program image, a segment or a
    user buffer that meets the kernel's image or its heap ([kernel_memory],
    [kh_region]) gives [None] as well, since the code would then overwrite the
    structures that the model keeps elsewhere; the code does not prevent it, and
    runs at the ends of [Process], [Exec] and [Syscall] show it.  C error codes
    are ordinary results.  A critical section
    (spinlock, interrupts off) is one transition, which [Spinlock] justifies; a
    function that waits is cut in two at the wait.

    ** What the theorems show

    - Heap: any sequence of calls keeps the block list a partition of the heap
      and hands out disjoint blocks; the result of each call, contents
      preserved by krealloc.
    - Pages: no page is handed out twice, first fit, alloc/free round trip.
    - Paging: a mapping changes the one page it names, in the one address space
      it names; a failed range is undone; map/unmap round trip; creation and
      destruction of address spaces.
    - Pipes: bytes come out in order, exactly once, and the pipe is freed
      exactly when its last end is closed; progress; lifetime.
    - Scheduler and signals: invariant of the run queue under every call of
      sched.c and do_fork, wake-ups included (not under do_waitpid, which breaks
      it), unique pids, order of tasks after an exit, fork, kill; delivery of signals, SIGKILL; exec of
      a file copies its segments and keeps everything else.
    - ELF: the image in memory is the image of the file, bounds, relocation.
    - RAM file system: it refines a map from paths to files, for creation,
      removal, writing and reading.
    - Virtual file system: create, mkdir, unlink, rmdir and vfs_save_file by
      path implement the same map, with memory errors at every allocation; a
      saved file reads back; the mount table is consistent under mounts and
      unmounts of all three types on targets below 64 characters, and a path
      belongs to the longest mount above it.  These are
      about the RAM file system at "/" with no other mount on the path;
      saving is into an existing directory.
    - System calls: openat, read, write, lseek and close refine a machine over
      the map from paths to files, the descriptors and user memory (lseek from
      the start or the position); execve loads exactly the bytes of the file
      and leaves nothing open; brk and mmap never hand out memory twice; a
      console read delivers one line; the dispatcher.
    - Discs: a directory is parsed back record for record, a mount builds the
      tree on the disc or frees everything, as long as the tree is no deeper
      than the fuel, a file reads as its extent.
    - ext4: a block that is handed out was free, and freeing it restores the
      disk; a write keeps the disk consistent (no block in two places, counters
      right) and every other file as it is, whatever fails for the direct blocks
      and if nothing fails for the others, and what was written reads back;
      creating a file, if nothing fails, adds an empty inode and one entry to
      the listing of the directory; a mount of a disk with 1024-byte blocks
      reads all descriptors or frees what it took.  Truncation and the making of
      directories are modelled; a run shows that truncation breaks the
      invariant.
    - APFS: a mount notes the volumes of the container and frees everything or
      keeps what unmounting frees; the checksum is Fletcher's.  Sandbox: the
      three allocations of a context are made and given back together.
    - DNS: names round trip, decoding is the reading of compressed names of
      RFC 1035 and ends exactly when the pointers have no cycle, responses are
      parsed to the first address, queries are well formed, the cache.
    - Processes: table invariant under every call, bounded waiting under
      round-robin, kill_children (termination, work stack, the exact set that
      the parent_pid fields lead to, which is not that of the real children),
      creation, exit and kill with all their error paths.
    - Network: the TCP code refines an abstract connection, received bytes form
      a FIFO stream, a packet that is sent decodes to what was sent, the
      checksum is the Internet checksum, connect and the socket calls on all
      their error paths; the socket calls leak no heap block.
    - Randomisation and strings: bounds, functional behaviour.
    - Formatting: kvsnprintf writes the rendering of the parsed format cut to
      the buffer, and vsnprintf of the C library agrees with it on formats
      without a width; the kernel log is the last 65536 bytes printed.
    - Spinlocks: at most one processor holds the lock in every interleaving
      (in the fallback if the compiler's exchange is atomic), a free lock is taken within a bounded number of steps, interrupts stay off
      through an irqsave section and are restored as they were.
    - C library: disjoint heap blocks (sizes below 2^63), what malloc, calloc
      and realloc return, strtol, atexit
      order, printf/scanf round trip, every descriptor owned by one stream,
      fgets.

    Some theorems record where the code does something other than what its
    comments say; they are small concrete runs at the end of the files.

    ** Fuel

    Loops over a bounded array recurse on the bound.  The others take fuel that
    the definition computes from the state, and the theorems show that it
    suffices: a path walk gets the length of the path, the release of a chain
    of dentries their number plus one, list walks the number of entries plus
    one, kill_children 17 rounds (each process enters the work stack once), pipe
    writes count + 1, a string in user memory the number of mapped addresses
    plus one, the records of a directory its size plus one; reading and writing
    an ext4 file the number of bytes plus one, its directory blocks their size
    plus one.
    Decoding a DNS name gets a number of rounds as an argument; the length of
    the message is enough whenever any number is ([dns_decode_decided]).  The
    depth of the tree on a disc is an argument too, since the code does not
    bound it; a mount through [Vfs] follows 64 levels ([ISO_DEPTH]), eight times
    what the format allows.
    The scan of a dynamic section in [Elf] and everything that calls it takes
    the fuel as an argument, since the code has no bound there.

    ** Not modelled

    sandbox_execute recovers from faults by inline assembly whose effect
    depends on the registers the compiler chose.  The copying half of iso9660.c
    (iso9660_copy_to_ramfs) repeats the mountable half with the nodes of
    ramfs.c.  User programs are outside the kernel.
    storage_read_block is the parameter [disk] of [Iso9660] and a field of the
    state of [Vfs]: it ends in the registers of a drive.  The system call stubs of the C library are single
    instructions; the streams take them as [PosixIO].  Context switches and the
    exception vectors are assembly, below the level of the model.  Drivers,
    graphics, media, boot code: input and output.  A creation whose pid
    would exceed INT_MAX has no result; the numbers of inodes are taken not to
    overflow. *)

From Stdlib Require Export ZArith Lia Bool.
From Stdlib Require Import String Ascii.
From stdpp Require Export base list numbers gmap option.
Export String.StringSyntax.
Delimit Scope string_scope with string.
Export list_basics.list list_misc.list list_relations.list list_monad.list.

#[global] Open Scope Z_scope.

(** ** Machine integers

    A C integer of width [w] is a [Z]; every operation that can leave the
    range of its type is followed by the wrap of that type. *)

Definition u8 (x : Z) : Z := x `mod` 2 ^ 8.
Definition u16 (x : Z) : Z := x `mod` 2 ^ 16.
Definition u32 (x : Z) : Z := x `mod` 2 ^ 32.
Definition u64 (x : Z) : Z := x `mod` 2 ^ 64.

(** Conversion to a signed type: two's complement. *)
Definition i32 (x : Z) : Z := (x + 2 ^ 31) `mod` 2 ^ 32 - 2 ^ 31.
Definition i64 (x : Z) : Z := (x + 2 ^ 63) `mod` 2 ^ 64 - 2 ^ 63.

Definition is_u64 (x : Z) : Prop := 0 ≤ x < 2 ^ 64.
Definition is_u32 (x : Z) : Prop := 0 ≤ x < 2 ^ 32.
Definition is_byte (x : Z) : Prop := 0 ≤ x < 256.

Create HintDb kernel.

Lemma u64_small x : 0 ≤ x < 2 ^ 64 → u64 x = x.
Proof. intros; unfold u64; by apply Z.mod_small. Qed.

Lemma u32_small x : 0 ≤ x < 2 ^ 32 → u32 x = x.
Proof. intros; unfold u32; by apply Z.mod_small. Qed.

Lemma u8_small x : 0 ≤ x < 256 → u8 x = x.
Proof. intros; unfold u8; by apply Z.mod_small. Qed.

Lemma u64_bound x : 0 ≤ u64 x < 2 ^ 64.
Proof. apply Z.mod_pos_bound; lia. Qed.

Lemma i64_small x : - 2 ^ 63 ≤ x < 2 ^ 63 → i64 x = x.
Proof. intros; unfold i64; rewrite Z.mod_small; lia. Qed.

Lemma i32_small x : - 2 ^ 31 ≤ x < 2 ^ 31 → i32 x = x.
Proof. intros; unfold i32; rewrite Z.mod_small; lia. Qed.

(** ** Powers of two, masks and alignment *)

Lemma land_byte x : Z.land x 0xFF = x `mod` 256.
Proof. change 0xFF with (Z.ones 8). by rewrite Z.land_ones by lia. Qed.

(** Disjoint bits add up. *)
Lemma lor_shiftl a b k : 0 ≤ k → 0 ≤ a < 2 ^ k → 0 ≤ b → Z.lor a (Z.shiftl b k) = a + b * 2 ^ k.
Proof.
  intros Hk Ha Hb. rewrite <- Z.shiftl_mul_pow2 by lia.
  assert (Z.land a (Z.shiftl b k) = 0) as Hd.
  { apply Z.bits_inj'. intros n Hn. rewrite Z.land_spec, Z.bits_0.
    destruct (Z.ltb_spec n k).
    - by rewrite Z.shiftl_spec_low, andb_false_r.
    - destruct (Z.eq_dec a 0) as [->|]; [by rewrite Z.bits_0|].
      rewrite (Z.bits_above_log2 a n) by (try apply Z.lt_le_trans with k; try apply Z.log2_lt_pow2; lia). done. }
  rewrite Z.add_nocarry_lxor by done. symmetry. by apply Z.lxor_lor.
Qed.

(** [~(2^k - 1)] on an unbounded [Z]; the callers' values are in range, so
    the infinitely many high ones of the mask do not matter. *)
Lemma land_lnot_ones x k :
  0 ≤ k → Z.land x (Z.lnot (Z.ones k)) = x - x `mod` 2 ^ k.
Proof.
  intros Hk. rewrite <- Z.ldiff_land, Z.ldiff_ones_r by lia.
  rewrite Z.shiftl_mul_pow2, Z.shiftr_div_pow2 by lia.
  pose proof (Z.div_mod x (2 ^ k)). lia.
Qed.

Lemma land_low_mask x k : 0 ≤ k → Z.land x (2 ^ k - 1) = x `mod` 2 ^ k.
Proof.
  intros Hk. rewrite <- Z.land_ones by lia. by rewrite Z.ones_equiv.
Qed.

Lemma mod_sub_0 a b k : k ≠ 0 → a `mod` k = 0 → b `mod` k = 0 → (a - b) `mod` k = 0.
Proof.
  intros Hk Ha%Z.mod_divide Hb%Z.mod_divide; [|done..].
  apply Z.mod_divide; [done|]. by apply Z.divide_sub_r.
Qed.

Lemma mod_add_0 a b k : k ≠ 0 → a `mod` k = 0 → b `mod` k = 0 → (a + b) `mod` k = 0.
Proof.
  intros Hk Ha%Z.mod_divide Hb%Z.mod_divide; [|done..].
  apply Z.mod_divide; [done|]. by apply Z.divide_add_r.
Qed.

(** The macro [ALIGN(x, a)] and [ALIGN_DOWN(x, a)] of [types.h] at
    [a = 2^k], as the macros compute them. *)
Definition ALIGN (x a : Z) : Z := Z.land (x + a - 1) (Z.lnot (a - 1)).
Definition ALIGN_DOWN (x a : Z) : Z := Z.land x (Z.lnot (a - 1)).

Lemma ALIGN_DOWN_spec x k :
  0 ≤ k → ALIGN_DOWN x (2 ^ k) = x - x `mod` 2 ^ k.
Proof.
  intros. unfold ALIGN_DOWN.
  rewrite <- land_lnot_ones by lia. by rewrite Z.ones_equiv.
Qed.

Lemma ALIGN_spec x k :
  0 ≤ k →
  ALIGN x (2 ^ k) `mod` 2 ^ k = 0 ∧ x ≤ ALIGN x (2 ^ k) < x + 2 ^ k.
Proof.
  intros Hk. unfold ALIGN.
  assert (0 < 2 ^ k) as Hp by lia.
  assert (Z.land (x + 2 ^ k - 1) (Z.lnot (2 ^ k - 1))
          = (x + 2 ^ k - 1) - (x + 2 ^ k - 1) `mod` 2 ^ k) as ->.
  { rewrite <- land_lnot_ones by lia. by rewrite Z.ones_equiv. }
  pose proof (Z.mod_pos_bound (x + 2 ^ k - 1) (2 ^ k) Hp).
  split; [|lia].
  apply Z.mod_divide; [lia|].
  exists ((x + 2 ^ k - 1) `div` 2 ^ k).
  pose proof (Z.div_mod (x + 2 ^ k - 1) (2 ^ k)). lia.
Qed.

(** ** Lists of bytes

    A C string is the list of its bytes before the terminating NUL; [*p] is
    then [hd 0 p], which is the NUL at the end of the list, and [p++] is
    [tl p]. *)

Fixpoint bytes_of_string (s : string) : list Z :=
  match s with
  | EmptyString => []
  | String c s' => Z.of_N (N_of_ascii c) :: bytes_of_string s'
  end.

Definition nul_free (s : list Z) : Prop := Forall (λ c, c ≠ 0) s.

#[export] Instance nul_free_dec s : Decision (nul_free s).
Proof. unfold nul_free. apply _. Defined.

(** ** Generic lemmas on lists *)

Lemma take_snoc_lookup {A} (l : list A) i x :
  l !! i = Some x → take (S i) l = take i l ++ [x].
Proof. intros. by apply take_S_r. Qed.

Lemma NoDup_middle {A} (l1 l2 : list A) x :
  NoDup (l1 ++ x :: l2) ↔ (x ∉ l1 ++ l2) ∧ NoDup (l1 ++ l2).
Proof. rewrite <- Permutation_middle. apply NoDup_cons. Qed.

Lemma elem_split_NoDup {A} (l : list A) x :
  x ∈ l → NoDup l → ∃ l1 l2, l = l1 ++ x :: l2 ∧ (x ∉ l1) ∧ (x ∉ l2).
Proof.
  intros Hx Hnd. apply list_elem_of_split in Hx as (l1 & l2 & ->).
  apply NoDup_middle in Hnd as [Hnin _].
  exists l1, l2. set_solver.
Qed.

(** ** Tactics *)

(** Case analysis on the boolean comparisons of the code. *)
Ltac zbool :=
  repeat match goal with
    | H : (_ =? _) = true |- _ => apply Z.eqb_eq in H
    | H : (_ =? _) = false |- _ => apply Z.eqb_neq in H
    | H : (_ <? _) = true |- _ => apply Z.ltb_lt in H
    | H : (_ <? _) = false |- _ => apply Z.ltb_ge in H
    | H : (_ <=? _) = true |- _ => apply Z.leb_le in H
    | H : (_ <=? _) = false |- _ => apply Z.leb_gt in H
    | H : _ && _ = true |- _ => apply andb_true_iff in H as [? ?]
    | H : _ || _ = false |- _ => apply orb_false_iff in H as [? ?]
    | H : negb _ = true |- _ => apply negb_true_iff in H
    | H : negb _ = false |- _ => apply negb_false_iff in H
    end.

Ltac zcase :=
  match goal with
  | |- context [?a =? ?b] => destruct (Z.eqb_spec a b)
  | |- context [?a <? ?b] => destruct (Z.ltb_spec a b)
  | |- context [?a <=? ?b] => destruct (Z.leb_spec a b)
  end.

(** [lia] with division and modulo by a constant. *)
Ltac lia_mod := Z.div_mod_to_equations; lia.

#[export] Hint Resolve u64_bound : kernel.
