(* ===== verification/CString.v ===== *)
(** * kernel/lib/string.c: memory and string routines

    Memory is a finite map from addresses to bytes ([gmap Z Z], an address
    never written reads 0).  Each C loop is a [Fixpoint] on its counter;
    the loops that stop at a NUL take fuel and return [None] when it runs
    out, and the theorems give the fuel that is enough: one step per byte
    of the string and one for the NUL. *)

From S2P Require Import Prelude.

(** ** Byte memory *)

Definition load (m : gmap Z Z) (a : Z) : Z := default 0 (m !! a).
Definition store (m : gmap Z Z) (a v : Z) : gmap Z Z := <[a := u8 v]> m.

(** ** memcpy, memset, memmove, memcmp *)

Fixpoint copy_fwd (n : nat) (m : gmap Z Z) (d s : Z) : gmap Z Z :=
  match n with
  | O => m
  | S n' => copy_fwd n' (<[d := load m s]> m) (d + 1) (s + 1)
  end.

(** [d] and [s] point one past the bytes still to copy. *)
Fixpoint copy_bwd (n : nat) (m : gmap Z Z) (d s : Z) : gmap Z Z :=
  match n with
  | O => m
  | S n' => copy_bwd n' (<[d - 1 := load m (s - 1)]> m) (d - 1) (s - 1)
  end.

Fixpoint set_fwd (n : nat) (m : gmap Z Z) (p c : Z) : gmap Z Z :=
  match n with
  | O => m
  | S n' => set_fwd n' (store m p c) (p + 1) c
  end.

Definition memcpy (m : gmap Z Z) (dest src n : Z) : gmap Z Z :=
  copy_fwd (Z.to_nat n) m dest src.

Definition memset (m : gmap Z Z) (s c n : Z) : gmap Z Z :=
  set_fwd (Z.to_nat n) m s c.

Definition memmove (m : gmap Z Z) (dest src n : Z) : gmap Z Z :=
  if dest <? src then copy_fwd (Z.to_nat n) m dest src
  else copy_bwd (Z.to_nat n) m (dest + n) (src + n).

Fixpoint memcmp_loop (n : nat) (m : gmap Z Z) (p1 p2 : Z) : Z :=
  match n with
  | O => 0
  | S n' =>
      if negb (load m p1 =? load m p2) then load m p1 - load m p2
      else memcmp_loop n' m (p1 + 1) (p2 + 1)
  end.

Definition memcmp (m : gmap Z Z) (s1 s2 n : Z) : Z :=
  memcmp_loop (Z.to_nat n) m s1 s2.

(** ** strlen, strlcpy, strcmp, strncmp *)

Fixpoint strlen_loop (fuel : nat) (m : gmap Z Z) (s len : Z) : option Z :=
  match fuel with
  | O => None
  | S fuel' =>
      if load m (s + len) =? 0 then Some len
      else strlen_loop fuel' m s (len + 1)
  end.

Definition strlen (fuel : nat) (m : gmap Z Z) (s : Z) : option Z :=
  strlen_loop fuel m s 0.

Definition strlcpy (fuel : nat) (m : gmap Z Z) (dest src size : Z)
  : option (gmap Z Z * Z) :=
  src_len ← strlen fuel m src;
  if 0 <? size then
    let copy_len := if size <=? src_len then size - 1 else src_len in
    let m1 := memcpy m dest src copy_len in
    Some (store m1 (dest + copy_len) 0, src_len)
  else Some (m, src_len).

Fixpoint strcmp (fuel : nat) (m : gmap Z Z) (s1 s2 : Z) : option Z :=
  match fuel with
  | O => None
  | S fuel' =>
      if negb (load m s1 =? 0) && (load m s1 =? load m s2)
      then strcmp fuel' m (s1 + 1) (s2 + 1)
      else Some (load m s1 - load m s2)
  end.

(** [while (n-- && *s1 && *s1 == *s2)]: the loop leaves with [n] equal to
    [(size_t)-1] exactly when the counter was 0 at the test. *)
Fixpoint strncmp_loop (n : nat) (m : gmap Z Z) (s1 s2 : Z) : Z :=
  match n with
  | O => 0
  | S n' =>
      if negb (load m s1 =? 0) && (load m s1 =? load m s2)
      then strncmp_loop n' m (s1 + 1) (s2 + 1)
      else load m s1 - load m s2
  end.

Definition strncmp (m : gmap Z Z) (s1 s2 n : Z) : Z :=
  if n =? 0 then 0 else strncmp_loop (Z.to_nat n) m s1 s2.

(** ** What the routines promise *)

(** The bytes [l] are in memory from [a]. *)
Definition bytes_at (m : gmap Z Z) (a : Z) (l : list Z) : Prop :=
  ∀ i x, l !! i = Some x → load m (a + Z.of_nat i) = x.

(** A NUL-terminated string is in memory at [a]. *)
Definition cstr_at (m : gmap Z Z) (a : Z) (s : list Z) : Prop :=
  bytes_at m a (s ++ [0]) ∧ nul_free s.

Lemma load_insert m a v x :
  load (<[a := v]> m) x = if a =? x then v else load m x.
Proof.
  unfold load. rewrite lookup_insert.
  destruct (Z.eqb_spec a x); case_decide; done.
Qed.

Lemma load_store m a v x :
  load (store m a v) x = if a =? x then u8 v else load m x.
Proof. apply load_insert. Qed.

(** The forward copy is right when no destination byte is read after it was
    written: the destination starts at or below the source, or the two
    ranges do not overlap. *)
Lemma copy_fwd_spec n m d s a :
  (d ≤ s ∨ s + Z.of_nat n ≤ d) →
  load (copy_fwd n m d s) a =
    if (d <=? a) && (a <? d + Z.of_nat n) then load m (s + (a - d))
    else load m a.
Proof.
  revert m d s. induction n as [|n IH]; intros m d s Hds; cbn [copy_fwd].
  { destruct (Z.leb_spec d a), (Z.ltb_spec a (d + Z.of_nat 0)); cbn; lia || done. }
  rewrite IH by lia. rewrite !load_insert.
  destruct (Z.leb_spec (d + 1) a), (Z.ltb_spec a (d + 1 + Z.of_nat n)),
    (Z.leb_spec d a), (Z.ltb_spec a (d + Z.of_nat (S n)));
    cbn [andb]; try lia;
    repeat zcase; try lia; try done; try (f_equal; lia).
Qed.

Lemma copy_bwd_spec n m d s a :
  s ≤ d →
  load (copy_bwd n m d s) a =
    if (d - Z.of_nat n <=? a) && (a <? d) then load m (s + (a - d))
    else load m a.
Proof.
  revert m d s. induction n as [|n IH]; intros m d s Hds; cbn [copy_bwd].
  { destruct (Z.leb_spec (d - Z.of_nat 0) a), (Z.ltb_spec a d); cbn; lia || done. }
  rewrite IH by lia. rewrite !load_insert.
  destruct (Z.leb_spec (d - 1 - Z.of_nat n) a), (Z.ltb_spec a (d - 1)),
    (Z.leb_spec (d - Z.of_nat (S n)) a), (Z.ltb_spec a d);
    cbn [andb]; try lia;
    repeat zcase; try lia; try done; try (f_equal; lia).
Qed.

Lemma set_fwd_spec n m p c a :
  load (set_fwd n m p c) a =
    if (p <=? a) && (a <? p + Z.of_nat n) then u8 c else load m a.
Proof.
  revert m p. induction n as [|n IH]; intros m p; cbn [set_fwd].
  { destruct (Z.leb_spec p a), (Z.ltb_spec a (p + Z.of_nat 0)); cbn; lia || done. }
  rewrite IH, load_store.
  destruct (Z.leb_spec (p + 1) a), (Z.ltb_spec a (p + 1 + Z.of_nat n)),
    (Z.leb_spec p a), (Z.ltb_spec a (p + Z.of_nat (S n)));
    cbn [andb]; try lia; zcase; try lia; done.
Qed.

Lemma memcpy_load m dest src n a :
  0 ≤ n → (dest ≤ src ∨ src + n ≤ dest) →
  load (memcpy m dest src n) a =
    if (dest <=? a) && (a <? dest + n) then load m (src + (a - dest))
    else load m a.
Proof. intros Hn H. unfold memcpy. rewrite copy_fwd_spec by lia. by rewrite Z2Nat.id by lia. Qed.

(** Memmove copies [n] bytes from [src] to [dest] whatever the overlap of
    the two ranges: every destination byte gets the value its source byte
    had before the call, and no other byte of memory changes. *)
Theorem memmove_correct (m : gmap Z Z) (dest src n a : Z) (Hn : 0 ≤ n) :
  load (memmove m dest src n) a =
    if (dest <=? a) && (a <? dest + n) then load m (src + (a - dest))
    else load m a.
Proof.
  unfold memmove. zcase.
  - rewrite copy_fwd_spec by lia. by rewrite Z2Nat.id by lia.
  - rewrite copy_bwd_spec by lia. rewrite Z2Nat.id by lia.
    replace (dest + n - n) with dest by lia.
    by replace (src + n + (a - (dest + n))) with (src + (a - dest)) by lia.
Qed.

Lemma memmove_correct_witness :
  load (memmove (<[10 := 65]> (<[11 := 66]> (<[12 := 67]> ∅))) 11 10 3) 13 = 67.
Proof. rewrite memmove_correct; [reflexivity | lia]. Defined.

Lemma cstr_at_tail m a c s : cstr_at m a (c :: s) → cstr_at m (a + 1) s.
Proof.
  intros [Hb Hn]. split; [|by inversion Hn].
  intros i x Hi. rewrite <- (Hb (S i) x); [f_equal; lia | done].
Qed.

Lemma cstr_at_head m a s : cstr_at m a s → load m a = hd 0 s.
Proof.
  intros [Hb _]. rewrite <- (Z.add_0_r a).
  apply (Hb 0%nat). by destruct s.
Qed.

Lemma strlen_loop_spec s m a len fuel :
  cstr_at m (a + len) s → (length s < fuel)%nat →
  strlen_loop fuel m a len = Some (len + Z.of_nat (length s)).
Proof.
  revert len fuel. induction s as [|c s IH]; intros len fuel Hs Hf;
    (destruct fuel as [|fuel]; [cbn in Hf; lia|]); cbn [strlen_loop length].
  - rewrite (cstr_at_head _ _ _ Hs). cbn. f_equal; lia.
  - rewrite (cstr_at_head _ _ _ Hs). cbn [hd].
    assert (c ≠ 0) by (destruct Hs as [_ Hn]; by inversion Hn).
    zcase; [done|]. apply cstr_at_tail in Hs.
    rewrite IH; [f_equal; lia | by rewrite Z.add_assoc | cbn in Hf; lia].
Qed.

Lemma strlen_spec s m a fuel :
  cstr_at m a s → (length s < fuel)%nat →
  strlen fuel m a = Some (Z.of_nat (length s)).
Proof. intros. unfold strlen. by rewrite (strlen_loop_spec s) by (by rewrite ?Z.add_0_r). Qed.

(** Strlcpy into a buffer that does not overlap the source returns the
    length of the source, leaves in the buffer the longest prefix that fits
    with its NUL, and writes no byte outside the [size] bytes of the
    buffer. *)
Theorem strlcpy_correct (m : gmap Z Z) (dest src size : Z) (s : list Z) (fuel : nat)
  (Hsrc : cstr_at m src s) (Hfuel : (length s < fuel)%nat) (Hsize : 0 < size)
  (Hdisj : dest + size ≤ src ∨ src + Z.of_nat (length s) < dest) :
  ∃ m', strlcpy fuel m dest src size = Some (m', Z.of_nat (length s)) ∧
    cstr_at m' dest (take (Z.to_nat (size - 1)) s) ∧
    ∀ a, (a < dest ∨ dest + size ≤ a) → load m' a = load m a.
Proof.
  unfold strlcpy. rewrite (strlen_spec s) by done. cbn [mbind option_bind].
  zcase; [|lia]. eexists; split; [done|].
  set (k := if size <=? Z.of_nat (length s) then size - 1 else Z.of_nat (length s)).
  assert (Hk : 0 ≤ k ∧ k < size ∧ k ≤ Z.of_nat (length s) ∧
               take (Z.to_nat (size - 1)) s = take (Z.to_nat k) s ∧
               length (take (Z.to_nat k) s) = Z.to_nat k).
  { unfold k. zcase; repeat split; try lia; rewrite ?length_take; try lia.
    rewrite !take_ge by lia; done. }
  destruct Hk as (Hk0 & Hks & Hkl & -> & Hkt).
  destruct Hsrc as [Hb Hnf]. split; [split|].
  - intros i x Hi. rewrite load_store, memcpy_load by lia.
    apply lookup_app_Some in Hi as [Hi|[Hge Hi]].
    + pose proof (lookup_lt_Some _ _ _ Hi) as Hlt. rewrite Hkt in Hlt.
      apply lookup_take_Some in Hi as [Hi _].
      zcase; [lia|]. zcase; [|lia]. zcase; [|lia]. cbn [andb].
      replace (src + (dest + Z.of_nat i - dest)) with (src + Z.of_nat i) by lia.
      apply Hb. by apply lookup_app_l_Some.
    + rewrite Hkt in Hge, Hi.
      apply list_lookup_singleton_Some in Hi as [Hi <-].
      zcase; [done|lia].
  - by apply Forall_take.
  - intros a Ha. rewrite load_store, memcpy_load by lia.
    repeat zcase; cbn [andb]; lia || done.
Qed.

Definition demo_mem : gmap Z Z := <[100 := 72]> (<[101 := 105]> (<[102 := 33]> ∅)).

Lemma demo_mem_str : cstr_at demo_mem 100 [72; 105; 33].
Proof.
  split; [|repeat constructor; lia].
  intros [|[|[|[|i]]]] x Hi; cbn in Hi; simplify_eq; reflexivity.
Qed.

Lemma strlcpy_correct_witness :
  ∃ m', strlcpy 10 demo_mem 0 100 3 = Some (m', 3) ∧ cstr_at m' 0 [72; 105] ∧
    ∀ a, (a < 0 ∨ 0 + 3 ≤ a) → load m' a = load demo_mem a.
Proof.
  apply (strlcpy_correct demo_mem 0 100 3 [72; 105; 33] 10 demo_mem_str);
    cbn; lia.
Defined.

Lemma strcmp_spec s1 s2 m a1 a2 fuel :
  cstr_at m a1 s1 → cstr_at m a2 s2 → (length s1 < fuel)%nat →
  ∃ r, strcmp fuel m a1 a2 = Some r ∧ (r = 0 ↔ s1 = s2).
Proof.
  revert s2 a1 a2 fuel. induction s1 as [|c1 s1 IH];
    intros s2 a1 a2 fuel H1 H2 Hf; (destruct fuel as [|fuel]; [cbn in Hf; lia|]);
    cbn [strcmp]; rewrite (cstr_at_head _ _ _ H1), (cstr_at_head _ _ _ H2); cbn [hd].
  - cbn. eexists; split; [done|]. destruct s2 as [|c2 s2]; cbn; [split; [done|lia]|].
    destruct H2 as [_ H2]. inversion H2; subst. split; [lia|done].
  - assert (c1 ≠ 0) by (destruct H1 as [_ Hn]; by inversion Hn).
    zcase; [done|]. cbn [negb andb]. destruct s2 as [|c2 s2]; cbn [hd].
    + zcase; [lia|]. eexists; split; [done|]. split; [lia|done].
    + zcase.
      * subst. destruct (IH s2 (a1 + 1) (a2 + 1) fuel) as (r & -> & Hr);
          [by eapply cstr_at_tail..|cbn in Hf; lia|].
        eexists; split; [done|]. rewrite Hr. split; [by intros ->|by intros [= ->]].
      * eexists; split; [done|]. split; [lia|]. intros [= ? ?]. lia.
Qed.

Lemma strncmp_loop_spec n s1 s2 m a1 a2 :
  cstr_at m a1 s1 → cstr_at m a2 s2 →
  strncmp_loop n m a1 a2 = 0 ↔ take n s1 = take n s2.
Proof.
  revert s1 s2 a1 a2. induction n as [|n IH]; intros s1 s2 a1 a2 H1 H2; [done|].
  cbn [strncmp_loop]. rewrite (cstr_at_head _ _ _ H1), (cstr_at_head _ _ _ H2).
  pose proof (proj2 H1) as N1. pose proof (proj2 H2) as N2.
  destruct s1 as [|c1 s1], s2 as [|c2 s2]; cbn [hd take].
  - done.
  - inversion N2; subst. cbn. split; [lia|done].
  - inversion N1; subst. zcase; [done|]. cbn. split; [lia|done].
  - inversion N1; inversion N2; subst. zcase; [done|]. cbn [negb andb]. zcase.
    + subst. rewrite (IH s1 s2) by (by eapply cstr_at_tail).
      split; [by intros ->|by intros [= ->]].
    + split; [lia|]. intros [= ? ?]. lia.
Qed.

(** On two NUL-terminated strings strcmp returns, and returns 0 exactly
    when the strings are equal; strncmp returns 0 exactly when their first
    [n] bytes (up to the NUL) are equal. *)
Theorem strcmp_strncmp_zero (m : gmap Z Z) (a1 a2 n : Z) (s1 s2 : list Z) (fuel : nat)
  (H1 : cstr_at m a1 s1) (H2 : cstr_at m a2 s2) (Hf : (length s1 < fuel)%nat)
  (Hn : 0 ≤ n) :
  (∃ r, strcmp fuel m a1 a2 = Some r ∧ (r = 0 ↔ s1 = s2)) ∧
  (strncmp m a1 a2 n = 0 ↔ take (Z.to_nat n) s1 = take (Z.to_nat n) s2).
Proof.
  split; [by apply strcmp_spec|].
  unfold strncmp. zcase; [subst; done|]. by apply strncmp_loop_spec.
Qed.

Lemma strcmp_strncmp_zero_witness :
  (∃ r, strcmp 10 demo_mem 100 101 = Some r ∧ (r = 0 ↔ [72; 105; 33] = [105; 33])) ∧
  (strncmp demo_mem 100 101 2 = 0 ↔ take 2 [72; 105; 33] = take 2 [105; 33]).
Proof.
  apply (strcmp_strncmp_zero demo_mem 100 101 2 [72; 105; 33] [105; 33] 10);
    [exact demo_mem_str | exact (cstr_at_tail _ _ _ _ demo_mem_str) | cbn; lia | lia].
Defined.
