(* ===== verification/DList.v ===== *)
(** * Doubly linked lists

    The kernel keeps its heap free list and its run queue as doubly linked
    lists threaded through the elements.  [lk a] is the pair of the [prev]
    and [next] pointers of the element at [a] ([None] when there is no
    element there); a null pointer is [None]. *)

From S2P Require Import Prelude.

Section dlist.
Context {K : Type} `{!EqDecision K}.
Implicit Types (lk : K → option (option K * option K)) (l : list K).

(** The first element of [l], or the pointer that follows the segment. *)
Definition first_or l (nx : option K) : option K :=
  match l with [] => nx | a :: _ => Some a end.

(** The last element of [l], or the pointer that precedes the segment. *)
Fixpoint last_or l (pp : option K) : option K :=
  match l with [] => pp | a :: l' => last_or l' (Some a) end.

(** A segment: [pp] precedes it and [nx] follows it. *)
Fixpoint dseg lk (pp : option K) l (nx : option K) : Prop :=
  match l with
  | [] => True
  | a :: l' => lk a = Some (pp, first_or l' nx) ∧ dseg lk (Some a) l' nx
  end.

Lemma last_or_snoc l a pp : last_or (l ++ [a]) pp = Some a.
Proof. revert pp; induction l; cbn; auto. Qed.

Lemma first_or_app l1 l2 nx : first_or (l1 ++ l2) nx = first_or l1 (first_or l2 nx).
Proof. by destruct l1. Qed.

Lemma last_or_app l1 l2 pp : last_or (l1 ++ l2) pp = last_or l2 (last_or l1 pp).
Proof. revert pp; induction l1; cbn; auto. Qed.

Lemma last_or_in l pp b : last_or l pp = Some b → b ∈ l ∨ (l = [] ∧ pp = Some b).
Proof.
  revert pp. induction l as [|a l IH]; intros pp H; cbn in H; [by right|].
  left. destruct (IH _ H) as [?|[-> [= <-]]]; set_solver.
Qed.

Lemma first_or_in l nx b : first_or l nx = Some b → b ∈ l ∨ (l = [] ∧ nx = Some b).
Proof. destruct l; cbn; [by right|]. intros [= <-]. set_solver. Qed.

Lemma dseg_frame lk lk' pp l nx :
  (∀ b, b ∈ l → lk' b = lk b) → dseg lk pp l nx → dseg lk' pp l nx.
Proof.
  revert pp. induction l as [|a l IH]; intros pp Hf; cbn; [done|].
  intros [Ha Hl]. split; [rewrite Hf; [done|set_solver]|].
  apply IH; [set_solver|done].
Qed.

Lemma dseg_app lk pp l1 l2 nx :
  dseg lk pp (l1 ++ l2) nx ↔
  dseg lk pp l1 (first_or l2 nx) ∧ dseg lk (last_or l1 pp) l2 nx.
Proof.
  revert pp. induction l1 as [|a l1 IH]; intros pp; cbn; [tauto|].
  rewrite IH, first_or_app. tauto.
Qed.

Lemma dseg_lookup lk pp l nx a : dseg lk pp l nx → a ∈ l → is_Some (lk a).
Proof.
  revert pp. induction l as [|b l IH]; intros pp Hd Ha; [set_solver|].
  destruct Hd as [Hb Hd]. apply elem_of_cons in Ha as [->|Ha]; eauto.
Qed.

(** Redirecting the [next] pointer of the last element. *)
Lemma dseg_set_last lk lk' pp l x y :
  NoDup l → dseg lk pp l x →
  (∀ b, b ∈ l → last_or l None ≠ Some b → lk' b = lk b) →
  (∀ b p n, last_or l None = Some b → lk b = Some (p, n) → lk' b = Some (p, y)) →
  dseg lk' pp l y.
Proof.
  destruct l as [|a l _] using rev_ind; [done|].
  rewrite NoDup_app, last_or_snoc. intros (Hnd & Hdis & _) Hd Hf Hl.
  apply dseg_app in Hd as [Hd1 Hd2]. apply dseg_app. split.
  - eapply dseg_frame; [|exact Hd1]. intros b Hb.
    apply Hf; [set_solver|]. intros [= ->]. eapply Hdis; [done|set_solver].
  - pose proof Hd2 as [Ha _]. cbn. split; [by eapply Hl|done].
Qed.

(** Redirecting the [prev] pointer of the first element. *)
Lemma dseg_set_first lk lk' x y l nx :
  NoDup l → dseg lk x l nx →
  (∀ b, b ∈ l → first_or l None ≠ Some b → lk' b = lk b) →
  (∀ b p n, first_or l None = Some b → lk b = Some (p, n) → lk' b = Some (y, n)) →
  dseg lk' y l nx.
Proof.
  destruct l as [|a l]; [done|]. rewrite NoDup_cons. intros [Hna Hnd] [Ha Hd] Hf Hl.
  split; [by eapply Hl|]. eapply dseg_frame; [|exact Hd].
  intros b Hb. apply Hf; [set_solver|]. intros [= ->]. done.
Qed.

(** Redirecting both ends, where the segment may be a single element. *)
Lemma dseg_in_neighbours lk pp l1 a l2 nx :
  dseg lk pp (l1 ++ a :: l2) nx →
  dseg lk pp l1 (Some a) ∧ lk a = Some (last_or l1 pp, first_or l2 nx) ∧
  dseg lk (Some a) l2 nx.
Proof. rewrite dseg_app. cbn. tauto. Qed.

(** Unlinking [a]: its neighbours now point at each other. *)
Lemma dseg_unlink lk lk' l1 a l2 :
  NoDup (l1 ++ a :: l2) → dseg lk None (l1 ++ a :: l2) None →
  (∀ b, b ∈ l1 ++ l2 → last_or l1 None ≠ Some b → first_or l2 None ≠ Some b →
     lk' b = lk b) →
  (∀ b p n, last_or l1 None = Some b → lk b = Some (p, n) →
     lk' b = Some (p, first_or l2 None)) →
  (∀ b p n, first_or l2 None = Some b → lk b = Some (p, n) →
     lk' b = Some (last_or l1 None, n)) →
  dseg lk' None (l1 ++ l2) None.
Proof.
  intros Hnd Hd Hf Hl Hr.
  apply dseg_in_neighbours in Hd as (H1 & Ha & H2).
  apply NoDup_middle in Hnd as [Hna Hnd].
  apply NoDup_app in Hnd as (Hn1 & Hdis & Hn2).
  apply dseg_app. split.
  - eapply dseg_set_last; [done|exact H1| |exact Hl].
    intros b Hb Hbl. apply Hf; [set_solver|done|].
    intros Hfb. apply first_or_in in Hfb as [?|[_ ?]]; [|done].
    by eapply Hdis.
  - eapply dseg_set_first; [done|exact H2| |exact Hr].
    intros b Hb Hbl. apply Hf; [set_solver| |done].
    intros Hlb. apply last_or_in in Hlb as [?|[_ ?]]; [|done].
    by eapply Hdis.
Qed.

Lemma last_or_None l : last_or l None = None → l = [].
Proof. destruct l using rev_ind; [done|]. by rewrite last_or_snoc. Qed.

Lemma last_or_Some l x : ∃ y, last_or l (Some x) = Some y.
Proof. revert x. induction l; cbn; eauto. Qed.

(** Two elements of a segment with the same predecessor, or the same
    successor, are the same element. *)
Lemma dseg_functional lk pp l l' nx :
  first_or l nx = first_or l' nx → dseg lk pp l None → dseg lk pp l' None →
  nx = None → l = l'.
Proof.
  intros Hf Hl Hl' ->. revert pp l' Hf Hl Hl'.
  induction l as [|a l IH]; intros pp [|a' l'] Hf Hl Hl'; cbn in *; simplify_eq; [done|].
  destruct Hl as [Ha Hl], Hl' as [Ha' Hl']. rewrite Ha in Ha'. simplify_eq.
  f_equal. by eapply IH.
Qed.
End dlist.

#[export] Hint Resolve dseg_frame : kernel.
