(* ===== verification/KHeap.v ===== *)
(** * The kernel heap as its clients see it

    The file systems and the pipes allocate with kzalloc/kmalloc and release
    with kfree.  Their models are written against this interface: [kh_inv s m]
    says that the heap state [s] is well formed and that the allocations not
    yet freed are the domain of [m], which maps each pointer to the size that
    was requested.  [Kmalloc.kernel_heap] is the implementation. *)

From S2P Require Import Prelude.

Class KernelHeap (S : Type) := {
  kh_alloc : Z → Z → S → option (S * option Z);
  kh_free : option Z → S → option S;
  kh_max : Z;
  kh_inv : S → gmap Z Z → Prop;
  (** The bytes from the first of these addresses up to the second belong to
      the heap: the blocks, and the headers between them. *)
  kh_region : S → Z * Z;

  (** An allocation returns NULL, or a pointer that is not null and was not
      allocated before; sizes of zero or above the limit give NULL. *)
  kh_alloc_ok s m size flags :
    kh_inv s m → 0 ≤ size →
    ∃ s' r, kh_alloc size flags s = Some (s', r) ∧
      match r with
      | Some p => 0 < size ≤ kh_max ∧ 0 < p ∧ m !! p = None ∧ kh_inv s' (<[p := size]> m)
      | None => kh_inv s' m
      end;

  (** Freeing an allocated pointer returns and forgets that pointer only. *)
  kh_free_ok s m p n :
    kh_inv s m → m !! p = Some n →
    ∃ s', kh_free (Some p) s = Some s' ∧ kh_inv s' (delete p m);

  (** [kfree(NULL)] does nothing. *)
  kh_free_null s : kh_free None s = Some s;

  (** Allocated blocks do not overlap. *)
  kh_disjoint s m p q n k :
    kh_inv s m → p ≠ q → m !! p = Some n → m !! q = Some k →
    p + n ≤ q ∨ q + k ≤ p;

  (** Allocated blocks lie in the heap. *)
  kh_in_region s m p n :
    kh_inv s m → m !! p = Some n → fst (kh_region s) < p ∧ p + n ≤ snd (kh_region s);

  (** The heap stays where it is. *)
  kh_alloc_region s m size flags s' r :
    kh_inv s m → kh_alloc size flags s = Some (s', r) → kh_region s' = kh_region s;
  kh_free_region s p s' : kh_free p s = Some s' → kh_region s' = kh_region s
}.

(** ** Framing

    A client that shares the heap with others sees it through [framed K]: the
    same operations, with the allocations [K] of the others kept out of its
    own.  What is proved of a client for every heap holds for this one, so it
    holds in the presence of [K] and leaves [K] alone. *)

Section Frame.
Context {S : Type} `{!KernelHeap S}.

Lemma framed_alloc_ok (K : gmap Z Z) (s : S) (m : gmap Z Z) size flags :
  K ##ₘ m ∧ kh_inv s (K ∪ m) → 0 ≤ size →
  ∃ s' r, kh_alloc size flags s = Some (s', r) ∧
    match r with
    | Some p => 0 < size ≤ kh_max ∧ 0 < p ∧ m !! p = None ∧ K ##ₘ <[p := size]> m ∧ kh_inv s' (K ∪ <[p := size]> m)
    | None => K ##ₘ m ∧ kh_inv s' (K ∪ m)
    end.
Proof.
  intros [Hd Hi] Hs. destruct (kh_alloc_ok s (K ∪ m) size flags Hi Hs) as (s' & r & E & Hr). exists s', r. split; [done|].
  destruct r as [p|]; [|done]. destruct Hr as (H1 & H2 & H3 & H4). apply lookup_union_None in H3 as [HK Hm].
  split; [done|]. split; [done|]. split; [done|]. split; [by apply map_disjoint_insert_r|].
  by rewrite <- insert_union_r.
Qed.

Lemma framed_free_ok (K : gmap Z Z) (s : S) (m : gmap Z Z) p n :
  K ##ₘ m ∧ kh_inv s (K ∪ m) → m !! p = Some n →
  ∃ s', kh_free (Some p) s = Some s' ∧ K ##ₘ delete p m ∧ kh_inv s' (K ∪ delete p m).
Proof.
  intros [Hd Hi] Hm. assert ((K ∪ m) !! p = Some n) as Hu by (by apply lookup_union_Some_r).
  destruct (kh_free_ok s (K ∪ m) p n Hi Hu) as (s' & E & Hi'). exists s'. split; [done|].
  split; [by apply map_disjoint_delete_r|]. assert (K !! p = None) as HK by (by eapply map_disjoint_Some_r).
  rewrite delete_union, (delete_id K) in Hi' by done. done.
Qed.

#[refine] Definition framed (K : gmap Z Z) : KernelHeap S := {|
  kh_alloc := kh_alloc;
  kh_free := kh_free;
  kh_max := kh_max;
  kh_inv s m := K ##ₘ m ∧ kh_inv s (K ∪ m);
  kh_region := kh_region
|}.
Proof.
  - intros s m size flags. apply framed_alloc_ok.
  - intros s m p n. apply framed_free_ok.
  - apply kh_free_null.
  - intros s m p q n k [Hd Hi] Hne Hp Hq. by eapply (kh_disjoint _ _ _ _ _ _ Hi Hne); apply lookup_union_Some_r.
  - intros s m p n [Hd Hi] Hp. by eapply (kh_in_region _ _ _ _ Hi), lookup_union_Some_r.
  - intros s m size flags s' r [_ Hi]. by apply (kh_alloc_region _ _ _ _ _ _ Hi).
  - apply kh_free_region.
Defined.
End Frame.
