(* ===== verification/Kmalloc.v ===== *)
(** * kernel/mm/kmalloc.c: the kernel heap

    The heap is the byte range [heap_start, heap_end).  It is cut into blocks,
    each starting with a [block_header]; the free blocks are on a doubly
    linked free list.  [headers] holds the header stored at each address
    where one was written (a header that was merged away stays, with its
    magic cleared, as in the code), and [data] the bytes of the blocks.

    The functions run with [heap_lock] held and interrupts off, so each is
    one transition of the heap.  A read through a pointer at which no header
    was written is undefined in the code; the functions return [None] there
    (and when the fuel of a list walk is used up), and the theorems show
    that this does not happen on a well-formed heap. *)

From S2P Require Import Prelude CString DList KHeap.

(** ** Configuration *)

Definition HEAP_SIZE : Z := 128 * 1024 * 1024.
Definition MIN_ALLOC : Z := 32.
Definition MAX_ALLOC : Z := 32 * 1024 * 1024.
Definition HEAP_BASE : Z := 0x42000000.

Definition BLOCK_MAGIC_FREE : Z := 0xDEADBEEF.
Definition BLOCK_MAGIC_USED : Z := 0xCAFEBABE.
Definition BLOCK_FLAG_FREE : Z := 1.

Definition GFP_KERNEL : Z := 0.
Definition GFP_ZERO : Z := 2.

(** [sizeof(struct block_header)]: 8 + 4 + 4 + 4, 4 bytes of padding, 8 + 8. *)
Definition sizeof_block_header : Z := 40.

Record block_header := mk_bh {
  bh_size : Z;
  bh_magic : Z;
  bh_flags : Z;
  bh_owner : Z;
  bh_next : option Z;
  bh_prev : option Z
}.

Record heap := mk_heap {
  heap_start : Z;
  heap_end : Z;
  free_list : option Z;
  heap_total : Z;
  heap_used : Z;
  heap_initialized : bool;
  headers : gmap Z block_header;
  data : gmap Z Z
}.

(** Field updates, one per assignment of the code. *)
Definition set_size (v : Z) (b : block_header) :=
  mk_bh v (bh_magic b) (bh_flags b) (bh_owner b) (bh_next b) (bh_prev b).
Definition set_next (v : option Z) (b : block_header) :=
  mk_bh (bh_size b) (bh_magic b) (bh_flags b) (bh_owner b) v (bh_prev b).
Definition set_prev (v : option Z) (b : block_header) :=
  mk_bh (bh_size b) (bh_magic b) (bh_flags b) (bh_owner b) (bh_next b) v.
Definition set_magic_owner (mg ow : Z) (b : block_header) :=
  mk_bh (bh_size b) mg (bh_flags b) ow (bh_next b) (bh_prev b).

Definition with_headers (f : gmap Z block_header → gmap Z block_header) (h : heap) :=
  mk_heap (heap_start h) (heap_end h) (free_list h) (heap_total h) (heap_used h)
    (heap_initialized h) (f (headers h)) (data h).
Definition with_free_list (p : option Z) (h : heap) :=
  mk_heap (heap_start h) (heap_end h) p (heap_total h) (heap_used h)
    (heap_initialized h) (headers h) (data h).
Definition with_heap_used (u : Z) (h : heap) :=
  mk_heap (heap_start h) (heap_end h) (free_list h) (heap_total h) u
    (heap_initialized h) (headers h) (data h).
Definition with_data (d : gmap Z Z) (h : heap) :=
  mk_heap (heap_start h) (heap_end h) (free_list h) (heap_total h) (heap_used h)
    (heap_initialized h) (headers h) d.

(** [if (p) p->field = ...] *)
Definition alter_opt (f : block_header → block_header) (p : option Z)
  (H : gmap Z block_header) : gmap Z block_header :=
  match p with Some a => alter f a H | None => H end.

Definition align_up (val align : Z) : Z := ALIGN val align.
Definition block_data (block : Z) : Z := block + sizeof_block_header.
Definition data_to_block (ptr : Z) : Z := ptr - sizeof_block_header.

(** ** kmalloc_init *)

(** [base] is [x86_64_heap_storage] or [HEAP_BASE]. *)
Definition kmalloc_init (base : Z) (h : heap) : heap :=
  mk_heap base (base + HEAP_SIZE) (Some base) HEAP_SIZE 0 true
    (<[base := mk_bh HEAP_SIZE BLOCK_MAGIC_FREE BLOCK_FLAG_FREE 0 None None]> (headers h))
    (data h).

(** ** _kmalloc *)

Inductive fit :=
| FitCorrupted
| FitNone
| FitAt (block : Z) (b : block_header) (prev_free : option Z).

(** The first-fit loop. *)
Fixpoint find_fit (fuel : nat) (H : gmap Z block_header) (total_size : Z)
  (block prev_free : option Z) : option fit :=
  match fuel with
  | O => None
  | S fuel' =>
      match block with
      | None => Some FitNone
      | Some a =>
          b ← H !! a;
          if negb (bh_magic b =? BLOCK_MAGIC_FREE) then Some FitCorrupted
          else if total_size <=? bh_size b then Some (FitAt a b prev_free)
          else find_fit fuel' H total_size (bh_next b) (Some a)
      end
  end.

(** Split the block at [a] when the remainder can hold a header and the
    smallest payload. *)
Definition split_block (a total_size : Z) (b : block_header)
  (H : gmap Z block_header) : gmap Z block_header :=
  if total_size + sizeof_block_header + MIN_ALLOC <=? bh_size b then
    let new_block := a + total_size in
    let H1 := <[new_block := mk_bh (bh_size b - total_size) BLOCK_MAGIC_FREE
                               BLOCK_FLAG_FREE 0 (bh_next b) (Some a)]> H in
    let H2 := alter_opt (set_prev (Some new_block)) (bh_next b) H1 in
    alter (λ x, set_next (Some new_block) (set_size total_size x)) a H2
  else H.

(** Take the block at [a] off the free list and mark it used. *)
Definition take_block (a : Z) (prev_free : option Z) (h : heap) : option heap :=
  b ← headers h !! a;
  let h1 := match prev_free with
            | Some p => with_headers (alter (set_next (bh_next b)) p) h
            | None => with_free_list (bh_next b) h
            end in
  let h2 := with_headers (alter_opt (set_prev prev_free) (bh_next b)) h1 in
  let h3 := with_headers
              (alter (λ x, mk_bh (bh_size x) BLOCK_MAGIC_USED 0 0 None (bh_prev x)) a) h2 in
  Some (with_heap_used (u64 (heap_used h3 + bh_size b)) h3).

Definition _kmalloc (base : Z) (size flags : Z) (h0 : heap) : option (heap * option Z) :=
  let h := if heap_initialized h0 then h0 else kmalloc_init base h0 in
  if (size =? 0) || (MAX_ALLOC <? size) then Some (h, None)
  else
    let total_size := align_up (size + sizeof_block_header) MIN_ALLOC in
    r ← find_fit (S (base.size (headers h))) (headers h) total_size (free_list h) None;
    match r with
    | FitCorrupted | FitNone => Some (h, None)
    | FitAt a b prev_free =>
        h' ← take_block a prev_free (with_headers (split_block a total_size b) h);
        let ptr := block_data a in
        Some (if negb (Z.land flags GFP_ZERO =? 0)
              then with_data (memset (data h') ptr 0 size) h' else h',
              Some ptr)
    end.

Definition kzalloc (base size flags : Z) (h : heap) : option (heap * option Z) :=
  _kmalloc base size (Z.lor flags GFP_ZERO) h.

(** ** kfree *)

(** Merge the block at [a] with the block that follows it in memory when
    that block is free. *)
Definition coalesce_next (a : Z) (h : heap) : option heap :=
  b ← headers h !! a;
  let n := a + bh_size b in
  if n <? heap_end h then
    nb ← headers h !! n;
    if bh_magic nb =? BLOCK_MAGIC_FREE then
      let h1 := match bh_prev nb with
                | Some p => with_headers (alter (set_next (bh_next nb)) p) h
                | None => with_free_list (bh_next nb) h
                end in
      let h2 := with_headers (alter_opt (set_prev (bh_prev nb)) (bh_next nb)) h1 in
      let h3 := with_headers (alter (λ x, set_size (bh_size x + bh_size nb) x) a) h2 in
      Some (with_headers (alter (set_magic_owner 0 0) n) h3)
    else Some h
  else Some h.

Definition kfree_block_locked (a : Z) (h : heap) : option heap :=
  b ← headers h !! a;
  let h1 := with_heap_used (u64 (heap_used h - bh_size b)) h in
  let h2 := with_headers
              (alter (λ x, mk_bh (bh_size x) BLOCK_MAGIC_FREE BLOCK_FLAG_FREE 0
                             (free_list h) None) a) h1 in
  let h3 := with_headers (alter_opt (set_prev (Some a)) (free_list h)) h2 in
  coalesce_next a (with_free_list (Some a) h3).

Definition kfree (ptr : option Z) (h : heap) : option heap :=
  match ptr with
  | None => Some h
  | Some p =>
      let a := data_to_block p in
      b ← headers h !! a;
      if negb (bh_magic b =? BLOCK_MAGIC_USED) then Some h
      else kfree_block_locked a h
  end.

(** ** krealloc *)

Definition krealloc (base : Z) (ptr : option Z) (new_size flags : Z) (h : heap)
  : option (heap * option Z) :=
  match ptr with
  | None => _kmalloc base new_size flags h
  | Some p =>
      if new_size =? 0 then h' ← kfree (Some p) h; Some (h', None)
      else
        b ← headers h !! data_to_block p;
        let old_size := bh_size b - sizeof_block_header in
        if new_size <=? old_size then Some (h, Some p)
        else
          '(h1, r) ← _kmalloc base new_size flags h;
          match r with
          | None => Some (h1, None)
          | Some new_ptr =>
              let h2 := with_data (memcpy (data h1) new_ptr p old_size) h1 in
              h3 ← kfree (Some p) h2; Some (h3, Some new_ptr)
          end
  end.

(** ** Statistics: total, used and free bytes *)

Definition kmalloc_get_stats (h : heap) : Z * Z * Z :=
  (heap_total h, heap_used h, u64 (heap_total h - heap_used h)).

(** ** The heap invariant *)

(** What the links and the physical layout each see of a header. *)
Definition link (H : gmap Z block_header) (a : Z) : option (option Z * option Z) :=
  (λ b, (bh_prev b, bh_next b)) <$> H !! a.
Definition core (H : gmap Z block_header) (a : Z) : option (Z * Z) :=
  (λ b, (bh_size b, bh_magic b)) <$> H !! a.

(** The blocks [(address, size)] follow each other from [a] to [e]. *)
Fixpoint tiles (a e : Z) (bl : list (Z * Z)) : Prop :=
  match bl with
  | [] => a = e
  | (b, s) :: bl' => b = a ∧ 0 < s ∧ tiles (a + s) e bl'
  end.

Definition block_ok (H : gmap Z block_header) (fl : list Z) (blk : Z * Z) : Prop :=
  blk.2 `mod` 32 = 0 ∧ 64 ≤ blk.2 ∧
  core H blk.1 = Some (blk.2, if decide (blk.1 ∈ fl) then BLOCK_MAGIC_FREE
                              else BLOCK_MAGIC_USED).

(** Bytes of the blocks that are not free. *)
Fixpoint used_bytes (fl : list Z) (bl : list (Z * Z)) : Z :=
  match bl with
  | [] => 0
  | (a, s) :: bl' => (if decide (a ∈ fl) then 0 else s) + used_bytes fl bl'
  end.

(** [bl] lists the blocks in address order, [fl] the free list in its order. *)
Record heap_wf (h : heap) (bl : list (Z * Z)) (fl : list Z) : Prop := mk_wf {
  wf_init : heap_initialized h = true;
  wf_end : heap_end h = heap_start h + HEAP_SIZE;
  wf_start : 0 < heap_start h ∧ heap_start h `mod` 32 = 0 ∧ heap_end h < 2 ^ 64;
  wf_total : heap_total h = HEAP_SIZE;
  wf_tiles : tiles (heap_start h) (heap_end h) bl;
  wf_hdr : Forall (block_ok (headers h) fl) bl;
  wf_free : fl ⊆ bl.*1;
  wf_nodup : NoDup fl;
  wf_head : free_list h = first_or fl None;
  wf_links : dseg (link (headers h)) None fl None;
  wf_used : heap_used h = used_bytes fl bl
}.

(** The pointer [p] was returned by kmalloc, is not freed yet, and its block
    has [n] usable bytes. *)
Definition live (bl : list (Z * Z)) (fl : list Z) (p n : Z) : Prop :=
  (data_to_block p, n + sizeof_block_header) ∈ bl ∧ data_to_block p ∉ fl.

#[export] Instance live_dec bl fl p n : Decision (live bl fl p n).
Proof. unfold live. apply _. Defined.

(** *** Layout lemmas *)

Lemma tiles_le a e bl : tiles a e bl → a ≤ e.
Proof.
  revert a. induction bl as [|[b s] bl IH]; intros a; cbn; [lia|].
  intros (-> & ? & H%IH). lia.
Qed.

Lemma tiles_app a e bl1 bl2 :
  tiles a e (bl1 ++ bl2) ↔ ∃ m, tiles a m bl1 ∧ tiles m e bl2.
Proof.
  revert a. induction bl1 as [|[b s] bl1 IH]; intros a; cbn.
  - split; [intros; by exists a|by intros (? & -> & ?)].
  - rewrite IH. naive_solver.
Qed.

Lemma tiles_in a e bl b s : tiles a e bl → (b, s) ∈ bl → a ≤ b ∧ 0 < s ∧ b + s ≤ e.
Proof.
  intros Ht (l1 & l2 & ->)%list_elem_of_split.
  apply tiles_app in Ht as (m & H1%tiles_le & Hm & ? & H2%tiles_le). lia.
Qed.

Lemma tiles_disjoint a e bl b s b' s' :
  tiles a e bl → (b, s) ∈ bl → (b', s') ∈ bl →
  (b = b' ∧ s = s') ∨ b + s ≤ b' ∨ b' + s' ≤ b.
Proof.
  intros Ht (l1 & l2 & ->)%list_elem_of_split Hin.
  apply tiles_app in Ht as (m & H1 & -> & ? & H2).
  apply elem_of_app in Hin as [Hin|Hin].
  { apply (tiles_in _ _ _ _ _ H1) in Hin. lia. }
  apply elem_of_cons in Hin as [?|Hin]; [simplify_eq; lia|].
  apply (tiles_in _ _ _ _ _ H2) in Hin. lia.
Qed.

Lemma tiles_addr_eq a e bl b s s' :
  tiles a e bl → (b, s) ∈ bl → (b, s') ∈ bl → s = s'.
Proof.
  intros Ht Hs Hs'. pose proof (tiles_in _ _ _ _ _ Ht Hs).
  pose proof (tiles_in _ _ _ _ _ Ht Hs').
  destruct (tiles_disjoint _ _ _ _ _ _ _ Ht Hs Hs'); lia.
Qed.

Lemma elem_of_fst (bl : list (Z * Z)) a : a ∈ bl.*1 ↔ ∃ s, (a, s) ∈ bl.
Proof.
  rewrite list_elem_of_fmap. split.
  - intros ([x s] & -> & ?). by exists s.
  - intros [s ?]. by exists (a, s).
Qed.

Lemma tiles_split_notin a e l1 l2 b s :
  tiles a e (l1 ++ (b, s) :: l2) → (b ∉ l1.*1) ∧ (b ∉ l2.*1).
Proof.
  intros Ht. apply tiles_app in Ht as (m & H1 & -> & ? & H2).
  split; intros [s' Hin]%elem_of_fst.
  - apply (tiles_in _ _ _ _ _ H1) in Hin. lia.
  - apply (tiles_in _ _ _ _ _ H2) in Hin. lia.
Qed.

Lemma used_bytes_app fl l1 l2 :
  used_bytes fl (l1 ++ l2) = used_bytes fl l1 + used_bytes fl l2.
Proof. induction l1 as [|[a s] l1 IH]; cbn; lia. Qed.

(** Only the free-list membership of the blocks matters. *)
Lemma used_bytes_ext fl fl' bl :
  (∀ a, a ∈ bl.*1 → (a ∈ fl ↔ a ∈ fl')) → used_bytes fl bl = used_bytes fl' bl.
Proof.
  induction bl as [|[a s] bl IH]; intros Hx; cbn; [done|].
  rewrite IH by (intros; apply Hx; set_solver).
  assert (a ∈ fl ↔ a ∈ fl') by (apply Hx; set_solver).
  repeat case_decide; tauto || lia.
Qed.

Lemma used_bytes_bound a e fl bl : tiles a e bl → 0 ≤ used_bytes fl bl ≤ e - a.
Proof.
  revert a. induction bl as [|[b s] bl IH]; intros a; cbn; [lia|].
  intros (-> & ? & H%IH). case_decide; lia.
Qed.

Lemma block_ok_ext H H' fl fl' blk :
  core H' blk.1 = core H blk.1 → (blk.1 ∈ fl ↔ blk.1 ∈ fl') →
  block_ok H fl blk → block_ok H' fl' blk.
Proof.
  intros Hc Hf (? & ? & Hh). repeat split; [done..|]. rewrite Hc, Hh.
  do 2 f_equal. repeat case_decide; tauto.
Qed.

Lemma blocks_ok_ext H H' fl fl' bl :
  (∀ a, a ∈ bl.*1 → core H' a = core H a ∧ (a ∈ fl ↔ a ∈ fl')) →
  Forall (block_ok H fl) bl → Forall (block_ok H' fl') bl.
Proof.
  rewrite !Forall_forall. intros Hx Hb blk Hin.
  destruct (Hx blk.1) as [Hc Hf].
  { apply list_elem_of_fmap. by exists blk. }
  eapply block_ok_ext; eauto.
Qed.

(** *** Header updates as seen through [link] and [core] *)

Ltac hdr :=
  unfold link, core in *;
  repeat (rewrite lookup_alter || rewrite lookup_insert);
  repeat case_decide; subst;
  try match goal with |- context [?H !! ?x] => destruct (H !! x) eqn:? end;
  cbn in *; try congruence; try done.

Lemma core_alter_opt_prev v p H x : core (alter_opt (set_prev v) p H) x = core H x.
Proof. destruct p; cbn; hdr. Qed.

Lemma core_alter_opt_next v p H x : core (alter_opt (set_next v) p H) x = core H x.
Proof. destruct p; cbn; hdr. Qed.

Lemma link_alter_opt_prev v p H x :
  link (alter_opt (set_prev v) p H) x =
    if decide (p = Some x) then (λ l, (v, l.2)) <$> link H x else link H x.
Proof. destruct p; cbn; hdr. Qed.

Lemma link_alter_opt_next v p H x :
  link (alter_opt (set_next v) p H) x =
    if decide (p = Some x) then (λ l, (l.1, v)) <$> link H x else link H x.
Proof. destruct p; cbn; hdr. Qed.

Lemma link_alter_ne f a H x : a ≠ x → link (alter f a H) x = link H x.
Proof. intros. unfold link. by rewrite lookup_alter_ne. Qed.

Lemma core_alter_ne f a H x : a ≠ x → core (alter f a H) x = core H x.
Proof. intros. unfold core. by rewrite lookup_alter_ne. Qed.

(** The unlinking code of [_kmalloc] and of [kfree_block_locked]. *)
Definition unlinkH (prev next : option Z) (H : gmap Z block_header) :=
  alter_opt (set_prev prev) next (alter_opt (set_next next) prev H).

Lemma core_unlinkH p n H x : core (unlinkH p n H) x = core H x.
Proof. unfold unlinkH. by rewrite core_alter_opt_prev, core_alter_opt_next. Qed.

Lemma unlinkH_dseg H l1 a l2 :
  NoDup (l1 ++ a :: l2) → dseg (link H) None (l1 ++ a :: l2) None →
  dseg (link (unlinkH (last_or l1 None) (first_or l2 None) H)) None (l1 ++ l2) None.
Proof.
  intros Hnd Hd. pose proof Hnd as [_ Hnd']%NoDup_middle.
  apply NoDup_app in Hnd' as (_ & Hdis & _).
  assert (∀ b, last_or l1 None = Some b → first_or l2 None = Some b → False) as Hlf.
  { intros b [H1|[_ ?]]%last_or_in [H2|[_ ?]]%first_or_in; [by eapply Hdis|done..]. }
  unfold unlinkH.
  eapply dseg_unlink; [done|exact Hd|..].
  - intros b _ H1 H2. rewrite link_alter_opt_prev, link_alter_opt_next.
    by repeat case_decide.
  - intros b p n H1 H2. rewrite link_alter_opt_prev, link_alter_opt_next.
    rewrite decide_False by (intros ?; by eapply Hlf).
    rewrite decide_True by done. by rewrite H2.
  - intros b p n H1 H2. rewrite link_alter_opt_prev, link_alter_opt_next.
    rewrite decide_True by done.
    rewrite decide_False by (intros ?; by eapply Hlf). by rewrite H2.
Qed.

(** *** The operations preserve the invariant *)

Lemma heap_wf_core h bl fl a s :
  heap_wf h bl fl → (a, s) ∈ bl →
  s `mod` 32 = 0 ∧ 64 ≤ s ∧
  core (headers h) a = Some (s, if decide (a ∈ fl) then BLOCK_MAGIC_FREE
                                else BLOCK_MAGIC_USED).
Proof.
  intros Hwf Hin. destruct Hwf as [_ _ _ _ _ Hh _ _ _ _ _].
  rewrite Forall_forall in Hh. apply (Hh _ Hin).
Qed.

Lemma core_lookup H a s mg :
  core H a = Some (s, mg) → ∃ b, H !! a = Some b ∧ bh_size b = s ∧ bh_magic b = mg.
Proof. unfold core. destruct (H !! a) as [b|]; cbn; [|done]. intros [= <- <-]. eauto. Qed.

Lemma heap_wf_free_hdr h bl fl a :
  heap_wf h bl fl → a ∈ fl →
  ∃ s b, (a, s) ∈ bl ∧ headers h !! a = Some b ∧ bh_size b = s ∧
         bh_magic b = BLOCK_MAGIC_FREE.
Proof.
  intros Hwf Ha. pose proof (wf_free _ _ _ Hwf _ Ha) as [s Hs]%elem_of_fst.
  pose proof (heap_wf_core _ _ _ _ _ Hwf Hs) as (_ & _ & Hc).
  rewrite decide_True in Hc by done.
  apply core_lookup in Hc as (b & ? & ? & ?). eauto 6.
Qed.

(** The walk of the free list, from any point [l2] of it. *)
Lemma find_fit_spec h bl fl total l1 l2 fuel :
  heap_wf h bl fl → fl = l1 ++ l2 → (length l2 < fuel)%nat →
  (∃ a b l2' l2'', l2 = l2' ++ a :: l2'' ∧ headers h !! a = Some b ∧
     total ≤ bh_size b ∧
     find_fit fuel (headers h) total (first_or l2 None) (last_or l1 None) =
       Some (FitAt a b (last_or (l1 ++ l2') None))) ∨
  ((∀ a b, a ∈ l2 → headers h !! a = Some b → bh_size b < total) ∧
   find_fit fuel (headers h) total (first_or l2 None) (last_or l1 None) = Some FitNone).
Proof.
  intros Hwf. revert l1 fuel. induction l2 as [|a l2 IH]; intros l1 fuel Hfl Hf;
    (destruct fuel as [|fuel]; [cbn in Hf; lia|]); cbn [find_fit first_or].
  { right. split; [set_solver|done]. }
  destruct (heap_wf_free_hdr _ _ _ a Hwf) as (s & b & _ & Hb & _ & Hm); [set_solver|].
  rewrite Hb. cbn [mbind option_bind]. rewrite Hm, Z.eqb_refl. cbn [negb].
  zcase.
  { left. exists a, b, [], l2. rewrite app_nil_r. eauto. }
  assert (bh_next b = first_or l2 None) as ->.
  { pose proof (wf_links _ _ _ Hwf) as Hd. rewrite Hfl in Hd.
    apply dseg_in_neighbours in Hd as (_ & Hl & _).
    unfold link in Hl. rewrite Hb in Hl. cbn in Hl. congruence. }
  destruct (IH (l1 ++ [a]) fuel) as [(a' & b' & l2' & l2'' & -> & ? & ? & Hff)|[Hsm Hff]].
  { by rewrite <- app_assoc. }
  { cbn in Hf. lia. }
  - left. rewrite last_or_snoc in Hff. exists a', b', (a :: l2'), l2''.
    rewrite Hff. repeat split; [done..|]. by rewrite <- app_assoc.
  - right. rewrite last_or_snoc in Hff. split; [|done].
    intros a' b'. rewrite elem_of_cons. intros [->|?] ?; [simplify_eq; lia|eauto].
Qed.

Lemma fl_length_bound h bl fl :
  heap_wf h bl fl → (length fl < S (size (headers h)))%nat.
Proof.
  intros Hwf. apply Nat.lt_succ_r. rewrite <- size_dom.
  rewrite <- (size_list_to_set (C := gset Z) fl) by apply Hwf.
  apply subseteq_size. intros a Ha%elem_of_list_to_set.
  destruct (heap_wf_free_hdr _ _ _ a Hwf Ha) as (? & b & ? & ? & _).
  apply elem_of_dom. eauto.
Qed.

(** One block [a] changes its header and its free-list membership; the
    others keep both. *)
Lemma blocks_ok_update H H' fl fl' bl a s lo hi :
  tiles lo hi bl → (a, s) ∈ bl →
  (∀ x, x ≠ a → core H' x = core H x ∧ (x ∈ fl ↔ x ∈ fl')) →
  core H' a = Some (s, if decide (a ∈ fl') then BLOCK_MAGIC_FREE else BLOCK_MAGIC_USED) →
  Forall (block_ok H fl) bl → Forall (block_ok H' fl') bl.
Proof.
  intros Ht Hin Hx Ha. rewrite !Forall_forall. intros Hb [x t] Hxt.
  destruct (decide (x = a)) as [->|Hne].
  - pose proof (tiles_addr_eq _ _ _ _ _ _ Ht Hin Hxt) as <-.
    destruct (Hb _ Hin) as (? & ? & _). by repeat split.
  - eapply block_ok_ext; [apply (Hx x Hne)..|by apply Hb].
Qed.

Lemma used_bytes_toggle fl fl' bl a s lo hi :
  tiles lo hi bl → (a, s) ∈ bl → a ∈ fl → a ∉ fl' →
  (∀ x, x ≠ a → (x ∈ fl ↔ x ∈ fl')) →
  used_bytes fl' bl = used_bytes fl bl + s.
Proof.
  intros Ht (c1 & c2 & ->)%list_elem_of_split Ha Ha' Hx.
  destruct (tiles_split_notin _ _ _ _ _ _ Ht) as [Hc1 Hc2].
  rewrite !used_bytes_app. cbn. rewrite (decide_False (P := a ∈ fl')) by done.
  rewrite (decide_True (P := a ∈ fl)) by done.
  rewrite (used_bytes_ext fl fl' c1), (used_bytes_ext fl fl' c2);
    [lia|intros x ?; apply Hx; congruence..].
Qed.

Definition mark_used (b : block_header) : block_header :=
  mk_bh (bh_size b) BLOCK_MAGIC_USED 0 0 None (bh_prev b).

Lemma take_block_eq a prev h b :
  headers h !! a = Some b →
  take_block a prev h =
    Some (mk_heap (heap_start h) (heap_end h)
            (match prev with Some _ => free_list h | None => bh_next b end)
            (heap_total h) (u64 (heap_used h + bh_size b)) (heap_initialized h)
            (alter mark_used a (unlinkH prev (bh_next b) (headers h))) (data h)).
Proof. intros Hb. unfold take_block. rewrite Hb. by destruct prev. Qed.

Lemma core_mark_used H a s mg :
  core H a = Some (s, mg) → core (alter mark_used a H) a = Some (s, BLOCK_MAGIC_USED).
Proof. unfold core. rewrite lookup_alter_eq. destruct (H !! a); cbn; congruence. Qed.

(** Taking a block off the list and marking it used. *)
Lemma take_block_wf h bl l1 a l2 s :
  heap_wf h bl (l1 ++ a :: l2) → (a, s) ∈ bl →
  ∃ h', take_block a (last_or l1 None) h = Some h' ∧ heap_wf h' bl (l1 ++ l2) ∧
        data h' = data h ∧ heap_start h' = heap_start h.
Proof.
  intros Hwf Hin.
  destruct (heap_wf_free_hdr _ _ _ a Hwf) as (s' & b & Hin' & Hb & Hs & Hm); [set_solver|].
  pose proof (tiles_addr_eq _ _ _ _ _ _ (wf_tiles _ _ _ Hwf) Hin Hin') as <-.
  destruct (heap_wf_core _ _ _ _ _ Hwf Hin) as (_ & _ & Hca).
  destruct Hwf as [Hw1 Hw2 Hw3 Hw4 Hw5 Hw6 Hw7 Hnd Hw9 Hd Hw11].
  pose proof (unlinkH_dseg _ _ _ _ Hnd Hd) as Hd'.
  pose proof Hd as (_ & Hla & _)%dseg_in_neighbours.
  unfold link in Hla. rewrite Hb in Hla. injection Hla as Hprev Hnext.
  apply NoDup_middle in Hnd as [Hna Hnd].
  rewrite (take_block_eq _ _ _ _ Hb), Hnext. eexists; split; [done|]. split; [|done].
  pose proof (used_bytes_toggle (l1 ++ a :: l2) (l1 ++ l2) bl a s _ _ Hw5 Hin
    ltac:(set_solver) Hna ltac:(set_solver)) as Hused.
  pose proof (used_bytes_bound _ _ (l1 ++ l2) _ Hw5) as Hub.
  constructor; cbn; [done..| |set_solver|done| | |].
  - eapply blocks_ok_update; [exact Hw5|exact Hin| | |exact Hw6].
    + intros x Hx. rewrite core_alter_ne, core_unlinkH by done. set_solver.
    + rewrite decide_False by done. eapply core_mark_used.
      by rewrite core_unlinkH.
  - destruct (last_or l1 None) eqn:Hl.
    + rewrite Hw9, !first_or_app. by destruct l1.
    + by apply last_or_None in Hl as ->.
  - eapply dseg_frame; [|exact Hd']. intros x Hx. apply link_alter_ne. congruence.
  - rewrite Hs, Hw11, <- Hused. apply u64_small. lia.
Qed.

(** Splitting the free block at [a] of size [s] after [total] bytes. *)
Definition splitH (a total : Z) (b : block_header) (H : gmap Z block_header) :=
  alter (λ x, set_next (Some (a + total)) (set_size total x)) a
    (alter_opt (set_prev (Some (a + total))) (bh_next b)
      (<[a + total := mk_bh (bh_size b - total) BLOCK_MAGIC_FREE BLOCK_FLAG_FREE 0
                        (bh_next b) (Some a)]> H)).

Lemma core_splitH a total b H x :
  0 < total → H !! a = Some b →
  core (splitH a total b H) x =
    if decide (x = a) then Some (total, bh_magic b)
    else if decide (x = a + total) then Some (bh_size b - total, BLOCK_MAGIC_FREE)
    else core H x.
Proof.
  intros Ht Hb. unfold splitH. case_decide as Hx; [subst x|].
  - unfold core. rewrite lookup_alter_eq.
    assert (core (alter_opt (set_prev (Some (a + total))) (bh_next b)
      (<[a + total := mk_bh (bh_size b - total) BLOCK_MAGIC_FREE BLOCK_FLAG_FREE 0
                        (bh_next b) (Some a)]> H)) a = Some (bh_size b, bh_magic b)) as Hc.
    { rewrite core_alter_opt_prev. unfold core. rewrite lookup_insert_ne by lia. by rewrite Hb. }
    unfold core in Hc. destruct (alter_opt _ _ _ !! a); cbn in *; congruence.
  - rewrite core_alter_ne, core_alter_opt_prev by done. unfold core.
    rewrite lookup_insert. repeat case_decide; done || congruence.
Qed.

Lemma splitH_dseg a total b H l1 l2 :
  0 < total → H !! a = Some b → a + total ∉ l1 ++ a :: l2 →
  NoDup (l1 ++ a :: l2) → dseg (link H) None (l1 ++ a :: l2) None →
  dseg (link (splitH a total b H)) None (l1 ++ a :: (a + total) :: l2) None.
Proof.
  intros Ht Hb Hfresh Hnd Hd.
  apply dseg_in_neighbours in Hd as (Hd1 & Hla & Hd2).
  pose proof Hnd as [Hna Hnd']%NoDup_middle.
  apply NoDup_app in Hnd' as (_ & Hdis & Hnd2).
  assert (Hn : bh_next b = first_or l2 None ∧ bh_prev b = last_or l1 None).
  { unfold link in Hla. rewrite Hb in Hla. cbn in Hla. by simplify_eq. }
  destruct Hn as [Hn Hp].
  assert (Hl : ∀ x, x ≠ a → x ≠ a + total → link (splitH a total b H) x =
    if decide (first_or l2 None = Some x) then (λ l, (Some (a + total), l.2)) <$> link H x
    else link H x).
  { intros x Hxa Hxn. unfold splitH. rewrite link_alter_ne, link_alter_opt_prev, Hn by done.
    unfold link. by rewrite lookup_insert_ne by congruence. }
  assert (Hnf : first_or l2 None ≠ Some a ∧ first_or l2 None ≠ Some (a + total)).
  { split; intros [?|[_ ?]]%first_or_in; set_solver. }
  apply dseg_app. cbn [dseg first_or]. repeat split.
  - eapply dseg_frame; [|exact Hd1]. intros x Hx.
    rewrite Hl by set_solver. rewrite decide_False; [done|].
    intros [?|[_ ?]]%first_or_in; [by eapply Hdis|done].
  - assert (alter_opt (set_prev (Some (a + total))) (first_or l2 None)
      (<[a + total := mk_bh (bh_size b - total) BLOCK_MAGIC_FREE BLOCK_FLAG_FREE 0
                        (first_or l2 None) (Some a)]> H) !! a = Some b) as He.
    { destruct (first_or l2 None) as [x|] eqn:Hx; cbn.
      - rewrite lookup_alter_ne by (intros ->; by destruct Hnf).
        by rewrite lookup_insert_ne by lia.
      - by rewrite lookup_insert_ne by lia. }
    unfold link, splitH. rewrite lookup_alter_eq, Hn, He. cbn. by rewrite Hp.
  - unfold splitH. rewrite link_alter_ne, link_alter_opt_prev, Hn by lia.
    rewrite decide_False by apply Hnf. unfold link. by rewrite lookup_insert_eq.
  - eapply dseg_set_first; [done|exact Hd2|..].
    + intros x Hx Hxf. rewrite Hl by set_solver. by rewrite decide_False.
    + intros x p n Hxf Hxl.
      assert (x ∈ l2) by (by apply first_or_in in Hxf as [?|[_ ?]]).
      rewrite Hl by set_solver. rewrite decide_True by done. by rewrite Hxl.
Qed.

Lemma split_block_wf h c1 c2 l1 l2 a s b total :
  heap_wf h (c1 ++ (a, s) :: c2) (l1 ++ a :: l2) →
  headers h !! a = Some b → total `mod` 32 = 0 → 64 ≤ total ≤ s →
  ∃ t c2' l2', total ≤ t ∧ t < total + sizeof_block_header + MIN_ALLOC ∧
    heap_wf (with_headers (split_block a total b) h)
      (c1 ++ (a, t) :: c2') (l1 ++ a :: l2') ∧
    ((t = s ∧ c2' = c2 ∧ l2' = l2) ∨
     (t = total ∧ total < s ∧ c2' = (a + total, s - total) :: c2 ∧ l2' = (a + total) :: l2)).
Proof.
  intros Hwf Hb Hmod Ht.
  destruct (heap_wf_core _ _ _ a s Hwf) as (Hsm & Hs64 & Hca); [set_solver|].
  rewrite decide_True in Hca by set_solver.
  unfold core in Hca. rewrite Hb in Hca. cbn in Hca. injection Hca as Hbs Hbm.
  unfold split_block. rewrite Hbs. zcase; unfold sizeof_block_header, MIN_ALLOC in *;
    [|exists s, c2, l2; split; [lia|]; split; [lia|]; split; [by destruct h|by left]].
  exists total, ((a + total, s - total) :: c2), ((a + total) :: l2).
  split; [lia|]. split; [lia|]. split; [|right; by split_and!; [|lia|..]].
  replace (with_headers _ h) with (with_headers (splitH a total b) h)
    by (unfold splitH; by rewrite Hbs).
  destruct Hwf as [Hw1 Hw2 Hw3 Hw4 Hw5 Hw6 Hw7 Hnd Hw9 Hd Hw11].
  assert (Hnew : a + total ∉ (c1 ++ (a, s) :: c2).*1).
  { clear Hw6. intros [t Hin]%elem_of_fst.
    pose proof (tiles_in _ _ _ _ _ Hw5 Hin).
    destruct (tiles_disjoint _ _ _ _ _ a s Hw5 Hin); [set_solver|lia|lia]. }
  destruct (tiles_split_notin _ _ _ _ _ _ Hw5) as [Hc1 Hc2].
  apply tiles_app in Hw5 as (mid & Ht1 & -> & _ & Ht2).
  constructor; cbn; [done..| | | | |by rewrite Hw9, !first_or_app|by apply splitH_dseg; [lia|done|set_solver|..]|].
  - apply tiles_app. exists mid. split; [done|]. split; [done|]. split; [lia|].
    split; [done|]. split; [lia|]. by replace (mid + total + (s - total)) with (mid + s) by lia.
  - assert (Hext : ∀ c, (∀ x, x ∈ c.*1 → x ∈ (c1 ++ (mid, s) :: c2).*1 ∧ x ≠ mid) →
      Forall (block_ok (headers h) (l1 ++ mid :: l2)) c →
      Forall (block_ok (splitH mid total b (headers h)) (l1 ++ mid :: mid + total :: l2)) c).
    { intros c Hc. apply blocks_ok_ext. intros x [Hx1 Hx2]%Hc.
      rewrite core_splitH by (done || lia). rewrite !decide_False by congruence. set_solver. }
    apply Forall_app in Hw6 as [Hf1 [Hfa Hf2]%Forall_cons].
    apply Forall_app. split; [apply Hext; [set_solver|done]|].
    repeat (apply Forall_cons; split); [| |apply Hext; [set_solver|done]];
      (split; [cbn [fst snd]; auto using mod_sub_0 with lia|]; split; [cbn [fst snd]; lia|]); cbn [fst snd];
      rewrite core_splitH by (done || lia);
      rewrite (decide_True (P := _ ∈ l1 ++ _)) by set_solver.
    + rewrite decide_True by done. by rewrite Hbm.
    + rewrite decide_False by lia. rewrite decide_True by done. by rewrite Hbs.
  - rewrite fmap_app in Hw7 |- *. cbn in *. clear -Hw7. intros x. specialize (Hw7 x). set_solver.
  - rewrite (cons_middle mid), app_assoc. apply NoDup_middle.
    rewrite <- app_assoc. split; [|done]. intros Hin. by apply Hnew, Hw7.
  - rewrite Hw11, !used_bytes_app. cbn.
    rewrite !(decide_True (P := _ ∈ l1 ++ _)) by set_solver.
    rewrite (used_bytes_ext (l1 ++ mid :: l2) (l1 ++ mid :: mid + total :: l2) c1),
      (used_bytes_ext (l1 ++ mid :: l2) (l1 ++ mid :: mid + total :: l2) c2);
      [lia|set_solver..].
Qed.

(** *** Freeing: push the block on the list, then merge it with its
    physical successor *)

Definition mark_free (next : option Z) (b : block_header) : block_header :=
  mk_bh (bh_size b) BLOCK_MAGIC_FREE BLOCK_FLAG_FREE 0 next None.

Definition pushH (a : Z) (head : option Z) (H : gmap Z block_header) :=
  alter_opt (set_prev (Some a)) head (alter (mark_free head) a H).

Definition push_block (a s : Z) (h : heap) : heap :=
  mk_heap (heap_start h) (heap_end h) (Some a) (heap_total h) (u64 (heap_used h - s))
    (heap_initialized h) (pushH a (free_list h) (headers h)) (data h).

Lemma kfree_block_locked_eq a b h :
  headers h !! a = Some b →
  kfree_block_locked a h = coalesce_next a (push_block a (bh_size b) h).
Proof. intros Hb. unfold kfree_block_locked. by rewrite Hb. Qed.

Lemma push_block_wf h bl fl a s :
  heap_wf h bl fl → (a, s) ∈ bl → a ∉ fl → heap_wf (push_block a s h) bl (a :: fl).
Proof.
  intros Hwf Hin Ha. destruct (heap_wf_core _ _ _ _ _ Hwf Hin) as (_ & _ & Hca).
  destruct Hwf as [Hw1 Hw2 Hw3 Hw4 Hw5 Hw6 Hw7 Hnd Hw9 Hd Hw11].
  pose proof (used_bytes_toggle (a :: fl) fl bl a s _ _ Hw5 Hin
    ltac:(set_solver) Ha ltac:(set_solver)) as Hused.
  pose proof (used_bytes_bound _ _ (a :: fl) _ Hw5) as Hub.
  assert (Hne : first_or fl None ≠ Some a) by (intros [?|[_ ?]]%first_or_in; done).
  constructor; cbn; [done..| | |by constructor|done| |].
  - eapply blocks_ok_update; [exact Hw5|exact Hin| | |exact Hw6].
    + intros x Hx. unfold pushH. rewrite core_alter_opt_prev, core_alter_ne by done. set_solver.
    + rewrite decide_True by set_solver. unfold pushH. rewrite core_alter_opt_prev.
      unfold core in *. rewrite lookup_alter_eq. destruct (headers h !! a); cbn in *; congruence.
  - intros x [->|Hx]%elem_of_cons; [apply elem_of_fst; eauto|by apply Hw7].
  - rewrite Hw9. unfold pushH. split.
    + rewrite link_alter_opt_prev, decide_False by done. unfold link, core in *.
      rewrite lookup_alter_eq. by destruct (headers h !! a).
    + eapply dseg_set_first; [done|exact Hd|..].
      * intros x Hx Hxf. rewrite link_alter_opt_prev, decide_False by done.
        apply link_alter_ne. congruence.
      * intros x p n Hxf Hxl. rewrite link_alter_opt_prev, decide_True by done.
        rewrite link_alter_ne by congruence. by rewrite Hxl.
  - rewrite Hw11, Hused. replace (_ + s - s) with (used_bytes (a :: fl) bl) by lia.
    apply u64_small. lia.
Qed.

Definition mergeH (a n : Z) (nb : block_header) (H : gmap Z block_header) :=
  alter (set_magic_owner 0 0) n
    (alter (λ x, set_size (bh_size x + bh_size nb) x) a (unlinkH (bh_prev nb) (bh_next nb) H)).

Lemma core_mergeH a n nb H s mg x :
  a ≠ n → core H a = Some (s, mg) → x ≠ n →
  core (mergeH a n nb H) x =
    if decide (x = a) then Some (s + bh_size nb, mg) else core H x.
Proof.
  intros Han Ha Hx. unfold mergeH. rewrite core_alter_ne by done. case_decide; [subst|].
  - rewrite <- (core_unlinkH (bh_prev nb) (bh_next nb)) in Ha. unfold core in *.
    rewrite lookup_alter_eq. destruct (unlinkH _ _ _ !! a); cbn in *; congruence.
  - by rewrite core_alter_ne, core_unlinkH.
Qed.

Lemma merge_wf h c1 c2 a s n s' m1 m2 nb :
  heap_wf h (c1 ++ (a, s) :: (n, s') :: c2) (a :: m1 ++ n :: m2) →
  headers h !! n = Some nb →
  heap_wf (with_headers (mergeH a n nb) h) (c1 ++ (a, s + s') :: c2) (a :: m1 ++ m2).
Proof.
  intros Hwf Hnb.
  destruct (heap_wf_core _ _ _ n s' Hwf) as (Hm' & Hs' & Hcn); [set_solver|].
  destruct (heap_wf_core _ _ _ a s Hwf) as (Hm & Hs & Hca); [set_solver|].
  rewrite decide_True in Hca by set_solver.
  unfold core in Hcn. rewrite Hnb in Hcn. injection Hcn as Hnbs _.
  destruct Hwf as [Hw1 Hw2 Hw3 Hw4 Hw5 Hw6 Hw7 Hnd Hw9 Hd Hw11].
  pose proof (unlinkH_dseg _ (a :: m1) n m2 Hnd Hd) as Hd'.
  pose proof (proj1 (proj2 (dseg_in_neighbours _ _ (a :: m1) n m2 _ Hd))) as Hln.
  unfold link in Hln. rewrite Hnb in Hln. injection Hln as Hprev Hnext.
  destruct (tiles_split_notin _ _ c1 _ a s Hw5) as [Ha1 Ha2].
  rewrite (cons_middle (a, s)), app_assoc in Hw5.
  destruct (tiles_split_notin _ _ _ _ n s' Hw5) as [Hn1 Hn2].
  rewrite fmap_app in Hn1. cbn in Ha2, Hn1. rewrite <- app_assoc in Hw5.
  assert (Han : a ≠ n) by set_solver.
  pose proof (NoDup_middle (a :: m1) m2 n) as [Hnn _]. specialize (Hnn Hnd) as [Hnn Hnd'].
  assert (Hext : ∀ c, a ∉ c.*1 → n ∉ c.*1 →
    Forall (block_ok (headers h) (a :: m1 ++ n :: m2)) c →
    Forall (block_ok (mergeH a n nb (headers h)) (a :: m1 ++ m2)) c).
  { intros c Hac Hnc. apply blocks_ok_ext. intros x Hx.
    rewrite (core_mergeH _ _ _ _ _ _ _ Han Hca) by congruence.
    rewrite decide_False by congruence. set_solver. }
  constructor; cbn; [done..| | | |done|done| |].
  - apply tiles_app in Hw5 as (mid & Ht1 & -> & ? & -> & ? & Ht2).
    apply tiles_app. exists mid. split; [done|]. split; [done|]. split; [lia|].
    by rewrite Z.add_assoc.
  - apply Forall_app in Hw6 as [Hf1 [_ [_ Hf2]%Forall_cons]%Forall_cons].
    apply Forall_app. split; [apply Hext; set_solver|].
    apply Forall_cons. split; [|apply Hext; set_solver].
    split; [cbn [fst snd]; auto using mod_add_0 with lia|].
    split; [cbn [fst snd]; lia|]. cbn [fst snd].
    rewrite (core_mergeH _ _ _ _ _ _ _ Han Hca), !decide_True by set_solver.
    by rewrite Hnbs.
  - intros x Hx. rewrite fmap_app. cbn. assert (x ≠ n) by set_solver.
    assert (x ∈ a :: m1 ++ n :: m2) as Hx' by set_solver.
    apply Hw7 in Hx'. rewrite fmap_app in Hx'. set_solver.
  - change (dseg (link (mergeH a n nb (headers h))) None ((a :: m1) ++ m2) None).
    eapply dseg_frame; [|exact Hd']. intros x Hx.
    unfold mergeH. rewrite link_alter_ne by set_solver. rewrite Hprev, Hnext.
    destruct (decide (a = x)) as [->|?]; [|by rewrite link_alter_ne].
    unfold link. rewrite lookup_alter_eq. by destruct (unlinkH _ _ _ !! x).
  - rewrite Hw11, !used_bytes_app. cbn. rewrite !decide_True by set_solver.
    rewrite (used_bytes_ext (a :: m1 ++ n :: m2) (a :: m1 ++ m2) c1),
      (used_bytes_ext (a :: m1 ++ n :: m2) (a :: m1 ++ m2) c2); [lia|set_solver..].
Qed.

Lemma coalesce_next_wf h bl fl a s :
  heap_wf h bl (a :: fl) → (a, s) ∈ bl →
  ∃ h' bl' fl', coalesce_next a h = Some h' ∧ heap_wf h' bl' fl' ∧
    (∀ p k, live bl' fl' p k ↔ live bl (a :: fl) p k) ∧ data h' = data h.
Proof.
  intros Hwf Hin.
  destruct (heap_wf_free_hdr _ _ _ a Hwf) as (s0 & b & Hin0 & Hb & Hbs & _); [set_solver|].
  pose proof (tiles_addr_eq _ _ _ _ _ _ (wf_tiles _ _ _ Hwf) Hin Hin0) as <-.
  unfold coalesce_next. rewrite Hb. cbn [mbind option_bind]. rewrite Hbs. clear Hin0.
  zcase; [|by exists h, bl, (a :: fl)].
  apply list_elem_of_split in Hin as (c1 & c2 & ->).
  destruct c2 as [|[n s'] c2].
  { pose proof (wf_tiles _ _ _ Hwf) as (mid & _ & -> & _ & He)%tiles_app. cbn in He. lia. }
  assert (n = a + s) as ->.
  { by pose proof (wf_tiles _ _ _ Hwf) as (mid & _ & -> & _ & -> & _)%tiles_app. }
  destruct (heap_wf_core _ _ _ (a + s) s' Hwf) as (_ & _ & Hcn); [set_solver|].
  apply core_lookup in Hcn as (nb & Hnb & Hnbs & Hnm). rewrite Hnb. cbn [mbind option_bind].
  rewrite Hnm. case_decide as Hfree; cbn; [|by eauto 10].
  assert (a + s ≠ a) by (destruct (heap_wf_core _ _ _ a s Hwf) as (_ & ? & _); [set_solver|lia]).
  assert (a + s ∈ fl) as (m1 & m2 & ->)%list_elem_of_split by set_solver.
  assert (∃ p, bh_prev nb = Some p) as [p Hp].
  { pose proof (wf_links _ _ _ Hwf) as Hd.
    apply (dseg_in_neighbours _ _ (a :: m1)) in Hd as (_ & Hl & _).
    unfold link in Hl. rewrite Hnb in Hl. injection Hl as -> _. apply last_or_Some. }
  exists (with_headers (mergeH a (a + s) nb) h), (c1 ++ (a, s + s') :: c2), (a :: m1 ++ m2).
  split; [by unfold mergeH; rewrite Hp|]. split; [by apply merge_wf|]. split; [|done].
  destruct (tiles_split_notin _ _ c1 _ a s (wf_tiles _ _ _ Hwf)) as [Ha1 Ha2].
  pose proof (wf_tiles _ _ _ Hwf) as Ht. rewrite (cons_middle (a, s)), app_assoc in Ht.
  destruct (tiles_split_notin _ _ _ _ (a + s) s' Ht) as [Hn1 Hn2].
  rewrite fmap_app in Hn1. intros q k. unfold live.
  assert (∀ x t c, (x, t) ∈ c → x ∈ c.*1) as Hfst by (intros; apply elem_of_fst; eauto).
  assert (Hmem : ∀ x, x ∈ a :: m1 ++ (a + s) :: m2 ↔ x = a + s ∨ x ∈ a :: m1 ++ m2)
    by (clear; set_solver).
  rewrite Hmem, !elem_of_app, !(elem_of_cons (A := Z * Z)).
  split; intros [Hq Hqf].
  - assert (data_to_block q ≠ a + s).
    { intros E. rewrite E in Hq, Hqf. destruct Hq as [Hq|[[= ? ?]|Hq]]; [|lia|].
      - apply Hn1, elem_of_app. left. by eapply Hfst.
      - by eapply Hn2, Hfst. }
    split; [|tauto]. destruct Hq as [Hq|[[= Hq _]|Hq]]; [tauto| |tauto].
    destruct Hqf. rewrite Hq. apply elem_of_cons. by left.
  - split; [|tauto]. destruct Hq as [Hq|[[= Hq _]|[[= Hq _]|Hq]]]; [tauto| |tauto..].
    destruct Hqf. right. rewrite Hq. apply elem_of_cons. by left.
Qed.

(** ** What the allocator promises *)

Lemma kmalloc_init_wf base h :
  0 < base → base `mod` 32 = 0 → base + HEAP_SIZE < 2 ^ 64 →
  heap_wf (kmalloc_init base h) [(base, HEAP_SIZE)] [base].
Proof.
  intros Hb Hm He. constructor; cbn; try done; try lia.
  - apply Forall_singleton. split; [done|]. split; [done|]. cbn.
    unfold core. rewrite lookup_insert_eq, decide_True by set_solver. done.
  - apply NoDup_singleton.
  - split; [|done]. unfold link. by rewrite lookup_insert_eq.
  - by rewrite decide_True by set_solver.
Qed.

Lemma live_disjoint h bl fl p n q k :
  heap_wf h bl fl → live bl fl p n → live bl fl q k →
  (p = q ∧ n = k) ∨ p + n ≤ q ∨ q + k ≤ p.
Proof.
  intros Hwf [Hp _] [Hq _].
  pose proof (tiles_disjoint _ _ _ _ _ _ _ (wf_tiles _ _ _ Hwf) Hp Hq).
  unfold data_to_block, sizeof_block_header in *. lia.
Qed.

Lemma live_in_heap h bl fl p n :
  heap_wf h bl fl → live bl fl p n → heap_start h < p ∧ p + n ≤ heap_end h.
Proof.
  intros Hwf [Hp _]. pose proof (tiles_in _ _ _ _ _ (wf_tiles _ _ _ Hwf) Hp).
  unfold data_to_block, sizeof_block_header in *. lia.
Qed.

Lemma live_size h bl fl p n k :
  heap_wf h bl fl → live bl fl p n → live bl fl p k → n = k.
Proof.
  intros Hwf [Hp _] [Hk _].
  pose proof (tiles_addr_eq _ _ _ _ _ _ (wf_tiles _ _ _ Hwf) Hp Hk). lia.
Qed.

Lemma live_split_take h c1 c2 c2' l1 l2 l2' a s t total :
  heap_wf h (c1 ++ (a, s) :: c2) (l1 ++ a :: l2) → 0 < total →
  ((t = s ∧ c2' = c2 ∧ l2' = l2) ∨
   (t = total ∧ total < s ∧ c2' = (a + total, s - total) :: c2 ∧ l2' = (a + total) :: l2)) →
  ∀ q k, live (c1 ++ (a, t) :: c2') (l1 ++ l2') q k ↔
    (q = block_data a ∧ k = t - sizeof_block_header) ∨
    live (c1 ++ (a, s) :: c2) (l1 ++ a :: l2) q k.
Proof.
  intros Hwf Ht Hcase q k. unfold live, block_data, data_to_block.
  destruct (tiles_split_notin _ _ c1 _ a s (wf_tiles _ _ _ Hwf)) as [Ha1 Ha2].
  assert (Hnd := wf_nodup _ _ _ Hwf). apply NoDup_middle in Hnd as [Hna _].
  assert (Hin : ∀ c x, a ∉ c.*1 → (a, x) ∉ c)
    by (intros c x Hc Hx; apply Hc, elem_of_fst; eauto).
  assert (Hnew : ∀ x, x ∈ (c1 ++ (a, s) :: c2) → total < s → x.1 ≠ a + total).
  { intros [x z] Hx Hne Heq. cbn in Heq. subst x.
    pose proof (tiles_in _ _ _ _ _ (wf_tiles _ _ _ Hwf) Hx).
    destruct (tiles_disjoint _ _ _ _ _ a s (wf_tiles _ _ _ Hwf) Hx); [set_solver|lia..]. }
  destruct (decide (q - sizeof_block_header = a)) as [Hqa|Hqa].
  - rewrite Hqa. split.
    + intros [Hq _]. left. apply elem_of_app in Hq as [Hq|[[= ?]|Hq]%elem_of_cons];
        [by apply Hin in Hq|lia|].
      exfalso. destruct Hcase as [(_ & -> & _)|(_ & _ & -> & _)]; [by apply Hin in Hq|].
      apply elem_of_cons in Hq as [[= ?]|Hq]; [lia|by apply Hin in Hq].
    + intros [[-> ->]|[_ Hf]]; [|set_solver]. split; [set_solver by (f_equal; lia)|].
      destruct Hcase as [(_ & _ & ->)|(_ & _ & _ & ->)]; [done|].
      rewrite elem_of_app, elem_of_cons in *. intuition lia.
  - destruct Hcase as [(-> & -> & ->)|(-> & Hlt & -> & ->)];
      rewrite !elem_of_app, !elem_of_cons.
    + intuition (simplify_eq; try lia; auto).
    + specialize (Hnew (q - sizeof_block_header, k + sizeof_block_header)).
      rewrite elem_of_app, elem_of_cons in Hnew. cbn in Hnew.
      intuition (simplify_eq; try lia; auto).
Qed.

Lemma total_size_spec size :
  0 < size →
  let total := align_up (size + sizeof_block_header) MIN_ALLOC in
  total `mod` 32 = 0 ∧ 64 ≤ total ∧ size + sizeof_block_header ≤ total.
Proof.
  intros Hs total.
  destruct (ALIGN_spec (size + sizeof_block_header) 5) as [Hm Hb]; [lia|].
  change (ALIGN (size + sizeof_block_header) (2 ^ 5)) with total in Hm, Hb.
  change (2 ^ 5) with 32 in Hm. unfold sizeof_block_header in *.
  split; [done|]. split; [|lia]. clear -Hm Hb Hs. lia_mod.
Qed.

(** The bytes of the heap after an allocation: zeroed on request, otherwise
    untouched. *)
Definition data_after_alloc (flags p size : Z) (d d' : gmap Z Z) : Prop :=
  ∀ x, load d' x =
    if negb (Z.land flags GFP_ZERO =? 0) && (p <=? x) && (x <? p + size) then 0 else load d x.

Lemma kmalloc_spec base h bl fl size flags :
  heap_wf h bl fl → 0 < size ≤ MAX_ALLOC →
  (∃ h' bl' fl' p n,
     _kmalloc base size flags h = Some (h', Some p) ∧ heap_wf h' bl' fl' ∧
     size ≤ n ∧ (∀ q k, live bl' fl' q k ↔ (q = p ∧ k = n) ∨ live bl fl q k) ∧
     (∀ k, ¬ live bl fl p k) ∧ data_after_alloc flags p size (data h) (data h')) ∨
  (_kmalloc base size flags h = Some (h, None) ∧
   ∀ a s, a ∈ fl → (a, s) ∈ bl → s < align_up (size + sizeof_block_header) MIN_ALLOC).
Proof.
  intros Hwf Hsize. unfold _kmalloc. rewrite (wf_init _ _ _ Hwf).
  destruct (Z.eqb_spec size 0); [lia|]. destruct (Z.ltb_spec MAX_ALLOC size); [lia|].
  cbn [orb].
  pose proof (total_size_spec size ltac:(lia)) as (Htm & Ht64 & Hts).
  set (total := align_up (size + sizeof_block_header) MIN_ALLOC) in *.
  pose proof (fl_length_bound _ _ _ Hwf) as Hfuel.
  rewrite (wf_head _ _ _ Hwf).
  destruct (find_fit_spec h bl fl total [] fl _ Hwf eq_refl Hfuel)
    as [(a & b & l1 & l2 & -> & Hb & Hfit & Hff)|[Hsm Hff]]; cbn [last_or app] in Hff; rewrite Hff.
  2:{ right. split; [done|]. intros a s Ha Hin.
      destruct (heap_wf_free_hdr _ _ _ a Hwf Ha) as (s' & b & Hin' & Hb & <- & _).
      rewrite (tiles_addr_eq _ _ _ _ _ _ (wf_tiles _ _ _ Hwf) Hin Hin'). eauto. }
  left. cbn [mbind option_bind].
  destruct (heap_wf_free_hdr _ _ _ a Hwf) as (s & b' & Hin & Hb' & Hs & _); [set_solver|].
  rewrite Hb in Hb'. simplify_eq.
  apply list_elem_of_split in Hin as (c1 & c2 & ->).
  destruct (split_block_wf _ _ _ _ _ _ _ b' total Hwf Hb Htm) as
    (t & c2' & l2' & Htt & _ & Hwf' & Hcase); [lia|].
  destruct (take_block_wf _ _ _ _ _ t Hwf') as (h' & -> & Hwf'' & Hdata & _); [set_solver|].
  cbn [mbind option_bind].
  eexists _, _, _, _, (t - sizeof_block_header). split; [done|].
  split; [destruct (negb _); [|exact Hwf'']; destruct Hwf''; by constructor|].
  split; [lia|]. split; [eapply (live_split_take _ _ _ _ _ _ _ _ _ _ total); [exact Hwf|lia|exact Hcase]|].
  split.
  - intros k [_ Hk]. apply Hk. unfold block_data, data_to_block.
    replace (a + _ - _) with a by lia. set_solver.
  - intros x. cbn in Hdata. destruct (negb _); cbn [andb data with_data]; [|by rewrite Hdata].
    unfold memset. rewrite set_fwd_spec, Z2Nat.id, Hdata by lia.
    by destruct (_ && _).
Qed.

Lemma kfree_spec h bl fl p n :
  heap_wf h bl fl → live bl fl p n →
  ∃ h' bl' fl', kfree (Some p) h = Some h' ∧ heap_wf h' bl' fl' ∧
    (∀ q k, live bl' fl' q k ↔ q ≠ p ∧ live bl fl q k) ∧ data h' = data h.
Proof.
  intros Hwf [Hin Hnf]. unfold kfree.
  destruct (heap_wf_core _ _ _ _ _ Hwf Hin) as (_ & _ & Hc).
  rewrite decide_False in Hc by done.
  apply core_lookup in Hc as (b & Hb & Hs & Hm). rewrite Hb. cbn [mbind option_bind].
  rewrite Hm, Z.eqb_refl. cbn [negb]. rewrite (kfree_block_locked_eq _ _ _ Hb), Hs.
  pose proof (push_block_wf _ _ _ _ _ Hwf Hin Hnf) as Hwf'.
  destruct (coalesce_next_wf _ _ _ _ _ Hwf' Hin) as (h' & bl' & fl' & -> & Hwf'' & Hlive & Hd).
  exists h', bl', fl'. do 2 (split; [done|]). split; [|done].
  intros q k. rewrite Hlive. unfold live. rewrite elem_of_cons.
  assert (q = p ↔ data_to_block q = data_to_block p) by (unfold data_to_block; lia). tauto.
Qed.

(** On a well-formed heap a request of 1 byte to MAX_ALLOC bytes either
    returns a block of at least [size] bytes that was not live before, adds
    exactly that block to the live ones, leaves the bytes of the heap as
    they were (zeroed inside the block when GFP_ZERO is given) and keeps
    the heap well formed; or it returns NULL, changes nothing, and then no
    free block was large enough. *)
Theorem kmalloc_correct (base size flags : Z) (h : heap) (bl : list (Z * Z)) (fl : list Z)
  (Hwf : heap_wf h bl fl) (Hsize : 0 < size ≤ MAX_ALLOC) :
  (∃ h' bl' fl' p n,
     _kmalloc base size flags h = Some (h', Some p) ∧ heap_wf h' bl' fl' ∧
     size ≤ n ∧ (∀ q k, live bl' fl' q k ↔ (q = p ∧ k = n) ∨ live bl fl q k) ∧
     (∀ k, ¬ live bl fl p k) ∧ data_after_alloc flags p size (data h) (data h')) ∨
  (_kmalloc base size flags h = Some (h, None) ∧
   ∀ a s, a ∈ fl → (a, s) ∈ bl → s < align_up (size + sizeof_block_header) MIN_ALLOC).
Proof. by apply kmalloc_spec. Qed.

Definition raw_heap : heap := mk_heap 0 0 None 0 0 false ∅ ∅.
Definition boot_heap : heap := kmalloc_init HEAP_BASE raw_heap.

Lemma boot_heap_wf : heap_wf boot_heap [(HEAP_BASE, HEAP_SIZE)] [HEAP_BASE].
Proof. apply kmalloc_init_wf; done. Qed.

Lemma kmalloc_correct_witness :
  (∃ h' bl' fl' p n,
     _kmalloc HEAP_BASE 100 GFP_ZERO boot_heap = Some (h', Some p) ∧ heap_wf h' bl' fl' ∧
     100 ≤ n ∧ (∀ q k, live bl' fl' q k ↔ (q = p ∧ k = n) ∨
                        live [(HEAP_BASE, HEAP_SIZE)] [HEAP_BASE] q k) ∧
     (∀ k, ¬ live [(HEAP_BASE, HEAP_SIZE)] [HEAP_BASE] p k) ∧
     data_after_alloc GFP_ZERO p 100 (data boot_heap) (data h')) ∨
  (_kmalloc HEAP_BASE 100 GFP_ZERO boot_heap = Some (boot_heap, None) ∧
   ∀ a s, a ∈ [HEAP_BASE] → (a, s) ∈ [(HEAP_BASE, HEAP_SIZE)] →
     s < align_up (100 + sizeof_block_header) MIN_ALLOC).
Proof. apply (kmalloc_correct HEAP_BASE 100 GFP_ZERO); [exact boot_heap_wf | split; done]. Defined.

(** Freeing a live pointer succeeds, removes exactly that block from the
    live ones, keeps every byte of the heap, and keeps the heap well formed
    whether or not the block is merged with its successor. *)
Theorem kfree_correct (h : heap) (bl : list (Z * Z)) (fl : list Z) (p n : Z)
  (Hwf : heap_wf h bl fl) (Hlive : live bl fl p n) :
  ∃ h' bl' fl', kfree (Some p) h = Some h' ∧ heap_wf h' bl' fl' ∧
    (∀ q k, live bl' fl' q k ↔ q ≠ p ∧ live bl fl q k) ∧ data h' = data h.
Proof. by eapply kfree_spec. Qed.

(** A heap with one block of 160 bytes in use. *)
Definition one_block_heap : heap :=
  default raw_heap (fst <$> _kmalloc HEAP_BASE 100 0 boot_heap).
Definition one_block_layout : list (Z * Z) :=
  [(HEAP_BASE, 160); (HEAP_BASE + 160, HEAP_SIZE - 160)].

Lemma one_block_wf : heap_wf one_block_heap one_block_layout [HEAP_BASE + 160].
Proof.
  constructor; try reflexivity.
  - split; [|split]; reflexivity.
  - vm_compute. repeat split.
  - repeat (apply Forall_cons; split); [..|apply Forall_nil; exact I];
      (split; [reflexivity|]; split; [vm_compute; discriminate|reflexivity]).
  - unfold one_block_layout. cbn [fmap list_fmap fst]. set_solver.
  - apply NoDup_singleton.
  - vm_compute. repeat split.
Qed.

Lemma kfree_correct_witness :
  ∃ h' bl' fl', kfree (Some (HEAP_BASE + 40)) one_block_heap = Some h' ∧ heap_wf h' bl' fl' ∧
    (∀ q k, live bl' fl' q k ↔
       q ≠ HEAP_BASE + 40 ∧ live one_block_layout [HEAP_BASE + 160] q k) ∧
    data h' = data one_block_heap.
Proof.
  apply (kfree_correct _ _ _ _ 120 one_block_wf).
  apply (bool_decide_unpack _). vm_compute. exact I.
Defined.

(** ** The interface the rest of the kernel relies on *)

(** [m] maps the pointers that were returned and not freed to the requested
    sizes. *)
Definition heap_owns (h : heap) (m : gmap Z Z) : Prop :=
  ∃ bl fl, heap_wf h bl fl ∧
    (∀ p k, live bl fl p k → is_Some (m !! p)) ∧
    (∀ p n, m !! p = Some n → 0 < n ∧ ∃ k, n ≤ k ∧ live bl fl p k).

Lemma heap_owns_init base h :
  0 < base → base `mod` 32 = 0 → base + HEAP_SIZE < 2 ^ 64 →
  heap_owns (kmalloc_init base h) ∅.
Proof.
  intros. eexists _, _. split; [by apply kmalloc_init_wf|]. split; [|done].
  intros p k [Hin Hnf]. apply list_elem_of_singleton in Hin. simplify_eq. set_solver.
Qed.

Lemma heap_owns_alloc base h m size flags :
  heap_owns h m → 0 < size ≤ MAX_ALLOC →
  ∃ h' r, _kmalloc base size flags h = Some (h', r) ∧
    match r with
    | Some p => 0 < p ∧ m !! p = None ∧ heap_owns h' (<[p := size]> m)
    | None => heap_owns h' m
    end.
Proof.
  intros (bl & fl & Hwf & Hl & Hm) Hs.
  destruct (kmalloc_spec base h bl fl size flags Hwf Hs)
    as [(h' & bl' & fl' & p & n & Heq & Hwf' & Hn & Hlive & Hfresh & _)|[Heq _]].
  2:{ eexists _, _. split; [exact Heq|]. by exists bl, fl. }
  assert (Hp : live bl' fl' p n) by (apply Hlive; by left).
  eexists _, _. split; [exact Heq|]. cbn. split_and!.
  - pose proof (live_in_heap _ _ _ _ _ Hwf' Hp). pose proof (wf_start _ _ _ Hwf'). lia.
  - destruct (m !! p) as [k|] eqn:E; [|done]. apply Hm in E as (_ & k' & _ & Hk).
    by apply Hfresh in Hk.
  - exists bl', fl'. split; [done|]. split.
    + intros q k [[-> ->]|Hq]%Hlive; [by rewrite lookup_insert_eq|].
      rewrite lookup_insert_is_Some'. right. eauto.
    + intros q k [[-> ->]|[Hne Hq]]%lookup_insert_Some; [split; [lia|eauto]|].
      destruct (Hm _ _ Hq) as (? & k' & ? & ?). split; [done|].
      exists k'. split; [done|]. apply Hlive. by right.
Qed.

Lemma heap_owns_free h m p n :
  heap_owns h m → m !! p = Some n →
  ∃ h', kfree (Some p) h = Some h' ∧ heap_owns h' (delete p m).
Proof.
  intros (bl & fl & Hwf & Hl & Hm) Hp. destruct (Hm _ _ Hp) as (_ & k & _ & Hk).
  destruct (kfree_spec _ _ _ _ _ Hwf Hk) as (h' & bl' & fl' & Heq & Hwf' & Hlive & _).
  exists h'. split; [done|]. exists bl', fl'. split; [done|]. split.
  - intros q j [Hne Hq]%Hlive. rewrite lookup_delete_ne by done. eauto.
  - intros q j [Hne Hq]%lookup_delete_Some.
    destruct (Hm _ _ Hq) as (? & k' & ? & ?). split; [done|].
    exists k'. split; [done|]. by apply Hlive.
Qed.

Lemma heap_owns_disjoint h m p q n k :
  heap_owns h m → p ≠ q → m !! p = Some n → m !! q = Some k → p + n ≤ q ∨ q + k ≤ p.
Proof.
  intros (bl & fl & Hwf & Hl & Hm) Hne (? & n' & ? & Hp)%Hm (? & k' & ? & Hq)%Hm.
  destruct (live_disjoint _ _ _ _ _ _ _ Hwf Hp Hq); lia.
Qed.

Lemma heap_owns_in_heap h m p n : heap_owns h m → m !! p = Some n → heap_start h < p ∧ p + n ≤ heap_end h.
Proof.
  intros (bl & fl & Hwf & _ & Hm) (_ & k & ? & Hk)%Hm. pose proof (live_in_heap _ _ _ _ _ Hwf Hk). lia.
Qed.

(** Where the heap lies. *)
Definition region (h : heap) : Z * Z := (heap_start h, heap_end h).

Lemma kmalloc_region base h m size flags h' r :
  heap_owns h m → _kmalloc base size flags h = Some (h', r) → region h' = region h.
Proof.
  intros (bl & fl & Hwf & _). unfold _kmalloc. rewrite (wf_init _ _ _ Hwf). destruct (_ || _); [by intros [= <- _]|].
  intros (f & _ & E)%bind_Some. destruct f as [| |a b pf]; [by injection E as <- _..|].
  apply bind_Some in E as (h1 & E1 & E). apply bind_Some in E1 as (b1 & _ & [= <-]).
  injection E as <- _. destruct (negb _), pf; done.
Qed.

Lemma kfree_region p h h' : kfree p h = Some h' → region h' = region h.
Proof.
  unfold kfree, kfree_block_locked, coalesce_next. destruct p as [p|]; [|by intros [= <-]]. intros (b & _ & E)%bind_Some.
  destruct (negb _); [by injection E as <-|]. apply bind_Some in E as (b' & _ & E). apply bind_Some in E as (b2 & _ & E).
  destruct (_ <? _); [|by injection E as <-]. apply bind_Some in E as (nb & _ & E).
  destruct (_ =? _); injection E as <-; [|done]. by destruct (bh_prev nb).
Qed.

Lemma heap_owns_alloc_any base h m size flags :
  heap_owns h m → 0 ≤ size →
  ∃ h' r, _kmalloc base size flags h = Some (h', r) ∧
    match r with
    | Some p => 0 < size ≤ MAX_ALLOC ∧ 0 < p ∧ m !! p = None ∧ heap_owns h' (<[p := size]> m)
    | None => heap_owns h' m
    end.
Proof.
  intros Hm Hs. destruct (decide (0 < size ≤ MAX_ALLOC)) as [Hr|Hr].
  - destruct (heap_owns_alloc base h m size flags Hm Hr) as (h' & r & E & H).
    exists h', r. split; [done|]. by destruct r.
  - exists h, None. split; [|done]. unfold _kmalloc.
    destruct Hm as (bl & fl & Hwf & _). rewrite (wf_init _ _ _ Hwf).
    by assert ((size =? 0) || (MAX_ALLOC <? size) = true) as -> by lia.
Qed.

#[export] Instance kernel_heap : KernelHeap heap := {
  kh_alloc size flags h := _kmalloc HEAP_BASE size flags h;
  kh_free := kfree;
  kh_max := MAX_ALLOC;
  kh_inv := heap_owns;
  kh_region := region;
  kh_alloc_ok s m size flags := heap_owns_alloc_any HEAP_BASE s m size flags;
  kh_free_ok := heap_owns_free;
  kh_free_null s := eq_refl;
  kh_disjoint := heap_owns_disjoint;
  kh_in_region := heap_owns_in_heap;
  kh_alloc_region s m size flags s' r := kmalloc_region HEAP_BASE s m size flags s' r;
  kh_free_region s p s' := kfree_region p s s'
}.

(** The states of the heap under any sequence of kmalloc/kzalloc calls and of
    kfree calls on pointers that were returned and not freed yet; [m] is the
    set of these pointers with the sizes requested. *)
Inductive heap_run (base : Z) : heap → gmap Z Z → Prop :=
| run_init h0 : heap_run base (kmalloc_init base h0) ∅
| run_alloc h m h' p size flags :
    heap_run base h m → 0 < size ≤ MAX_ALLOC →
    _kmalloc base size flags h = Some (h', Some p) →
    heap_run base h' (<[p := size]> m)
| run_alloc_fail h m h' size flags :
    heap_run base h m → 0 < size ≤ MAX_ALLOC →
    _kmalloc base size flags h = Some (h', None) →
    heap_run base h' m
| run_free h m h' p n :
    heap_run base h m → m !! p = Some n → kfree (Some p) h = Some h' →
    heap_run base h' (delete p m).

Lemma heap_run_owns base h m :
  0 < base → base `mod` 32 = 0 → base + HEAP_SIZE < 2 ^ 64 →
  heap_run base h m → heap_owns h m.
Proof.
  intros H1 H2 H3. induction 1 as [h0|h m h' p size flags _ IH Hs Heq
    |h m h' size flags _ IH Hs Heq|h m h' p n _ IH Hp Heq].
  - by apply heap_owns_init.
  - destruct (heap_owns_alloc base _ _ size flags IH Hs) as (? & ? & E & Hr).
    rewrite Heq in E. simplify_eq. apply Hr.
  - destruct (heap_owns_alloc base _ _ size flags IH Hs) as (? & ? & E & Hr).
    rewrite Heq in E. by simplify_eq.
  - destruct (heap_owns_free _ _ _ _ IH Hp) as (? & E & Hr).
    rewrite Heq in E. by simplify_eq.
Qed.

(** C2: In every state the heap can reach by allocations and by frees of
    pointers handed out, the blocks still allocated lie inside the heap, do
    not overlap, the accounting [heap_used] is within the heap size, and the
    next allocation or free returns (no list walk runs on a corrupt list). *)
Theorem heap_run_safe (base : Z) (h : heap) (m : gmap Z Z)
  (Hb : 0 < base) (Ha : base `mod` 32 = 0) (He : base + HEAP_SIZE < 2 ^ 64)
  (Hrun : heap_run base h m) :
  (∀ p n, m !! p = Some n → heap_start h < p ∧ p + n ≤ heap_end h) ∧
  (∀ p q n k, p ≠ q → m !! p = Some n → m !! q = Some k → p + n ≤ q ∨ q + k ≤ p) ∧
  0 ≤ heap_used h ≤ HEAP_SIZE ∧
  (∀ size flags, 0 < size ≤ MAX_ALLOC → is_Some (_kmalloc base size flags h)) ∧
  (∀ p n, m !! p = Some n → is_Some (kfree (Some p) h)).
Proof.
  pose proof (heap_run_owns _ _ _ Hb Ha He Hrun) as Ho. split_and!.
  - intros p n Hp. by eapply heap_owns_in_heap.
  - intros. by eapply heap_owns_disjoint.
  - destruct Ho as (bl & fl & Hwf & _). rewrite (wf_used _ _ _ Hwf).
    apply (used_bytes_bound _ _ _ _ (wf_tiles _ _ _ Hwf)).
  - destruct Ho as (bl & fl & Hwf & _). rewrite (wf_used _ _ _ Hwf).
    pose proof (used_bytes_bound _ _ fl _ (wf_tiles _ _ _ Hwf)).
    pose proof (wf_end _ _ _ Hwf). lia.
  - intros size flags Hs.
    destruct (heap_owns_alloc base _ _ size flags Ho Hs) as (? & ? & -> & _). eauto.
  - intros p n Hp. destruct (heap_owns_free _ _ _ _ Ho Hp) as (? & -> & _). eauto.
Qed.

Lemma heap_run_safe_witness :
  0 ≤ heap_used one_block_heap ≤ HEAP_SIZE.
Proof.
  apply (heap_run_safe HEAP_BASE one_block_heap {[HEAP_BASE + 40 := 100]}); try done.
  apply (run_alloc HEAP_BASE boot_heap ∅ _ _ 100 0);
    [apply run_init | split; done | vm_compute; reflexivity].
Defined.

(** Krealloc of a live block to a larger size either fails without
    touching the heap's blocks, or returns a block of at least [new_size]
    bytes whose first bytes are the usable bytes of the old block, and the
    old block is then no longer live. *)
Theorem krealloc_grow (base : Z) (h : heap) (bl : list (Z * Z)) (fl : list Z)
  (p n new_size flags : Z)
  (Hwf : heap_wf h bl fl) (Hlive : live bl fl p n)
  (Hgrow : n < new_size ≤ MAX_ALLOC) :
  (krealloc base (Some p) new_size flags h = Some (h, None)) ∨
  ∃ h' bl' fl' q k, krealloc base (Some p) new_size flags h = Some (h', Some q) ∧
    heap_wf h' bl' fl' ∧ new_size ≤ k ∧
    (∀ r j, live bl' fl' r j ↔ (r = q ∧ j = k) ∨ (r ≠ p ∧ live bl fl r j)) ∧
    (∀ i, 0 ≤ i < n → load (data h') (q + i) = load (data h) (p + i)).
Proof.
  pose proof Hlive as [Hin Hnf].
  destruct (heap_wf_core _ _ _ _ _ Hwf Hin) as (_ & Hn64 & Hc).
  apply core_lookup in Hc as (b & Hb & Hs & _).
  unfold krealloc. unfold sizeof_block_header in *.
  destruct (Z.eqb_spec new_size 0); [lia|].
  rewrite Hb. cbn [mbind option_bind]. rewrite Hs.
  destruct (Z.leb_spec new_size (n + 40 - 40)); [lia|].
  destruct (kmalloc_spec base h bl fl new_size flags Hwf ltac:(lia))
    as [(h1 & bl1 & fl1 & q & k & -> & Hwf1 & Hk & Hlive1 & Hfresh & Hd)|[-> _]];
    [right|by left].
  cbn [mbind option_bind].
  assert (Hp1 : live bl1 fl1 p n) by (apply Hlive1; by right).
  assert (Hq1 : live bl1 fl1 q k) by (apply Hlive1; by left).
  assert (p ≠ q) by (intros ->; by eapply Hfresh).
  set (d2 := memcpy (data h1) q p (n + 40 - 40)).
  assert (Hwf2 : heap_wf (with_data d2 h1) bl1 fl1) by (destruct Hwf1; by constructor).
  destruct (kfree_spec _ _ _ _ _ Hwf2 Hp1) as (h3 & bl3 & fl3 & -> & Hwf3 & Hlive3 & Hd3).
  exists h3, bl3, fl3, q, k. do 3 (split; [done|]). split.
  - intros r j. rewrite Hlive3, Hlive1. naive_solver.
  - intros i Hi. rewrite Hd3. cbn. unfold d2.
    destruct (live_disjoint _ _ _ _ _ _ _ Hwf1 Hp1 Hq1) as [|Hdis]; [lia|].
    rewrite memcpy_load by lia.
    destruct (Z.leb_spec q (q + i)); [|lia].
    destruct (Z.ltb_spec (q + i) (q + (n + 40 - 40))); [|lia]. cbn [andb].
    rewrite Hd. replace (p + (q + i - q)) with (p + i) by lia.
    destruct (negb _); cbn [andb]; [|done].
    destruct (Z.leb_spec q (p + i)), (Z.ltb_spec (p + i) (q + new_size)); cbn [andb]; try done. lia.
Qed.

Lemma krealloc_grow_witness :
  (krealloc HEAP_BASE (Some (HEAP_BASE + 40)) 5000 0 one_block_heap = Some (one_block_heap, None)) ∨
  ∃ h' bl' fl' q k,
    krealloc HEAP_BASE (Some (HEAP_BASE + 40)) 5000 0 one_block_heap = Some (h', Some q) ∧
    heap_wf h' bl' fl' ∧ 5000 ≤ k ∧
    (∀ r j, live bl' fl' r j ↔ (r = q ∧ j = k) ∨
       (r ≠ HEAP_BASE + 40 ∧ live one_block_layout [HEAP_BASE + 160] r j)) ∧
    (∀ i, 0 ≤ i < 120 →
       load (data h') (q + i) = load (data one_block_heap) (HEAP_BASE + 40 + i)).
Proof.
  apply (krealloc_grow HEAP_BASE _ _ _ _ 120 5000 0 one_block_wf);
    [apply (bool_decide_unpack _); vm_compute; exact I | split; done].
Defined.
