(* ===== verification/PageAlloc.v ===== *)
(** * The physical page allocator as its clients see it

    The page-table code and the scheduler take single pages with
    pmm_alloc_page and give them back with pmm_free_page.  [pa_inv s P] says
    that the allocator state [s] is well formed and that the pages handed out
    and not yet given back are [P].  [Pmm.page_allocator] is the
    implementation. *)

From S2P Require Import Prelude.

Definition PAGE_SHIFT : Z := 12.
Definition PAGE_SIZE : Z := 4096.

Definition PHYS_TO_PFN (addr : Z) : Z := Z.shiftr addr PAGE_SHIFT.

Class PageAllocator (S : Type) := {
  pa_alloc : S → option (S * Z);
  pa_free : Z → S → option S;
  pa_inv : S → gset Z → Prop;

  (** [pmm_alloc_page] returns 0 and changes nothing, or hands out a page
      that was not handed out, aligned and within the 40-bit physical
      address space. *)
  pa_alloc_ok s P :
    pa_inv s P →
    ∃ s' p, pa_alloc s = Some (s', p) ∧
      ((p = 0 ∧ pa_inv s' P) ∨
       (0 < p < 2 ^ 40 ∧ p `mod` PAGE_SIZE = 0 ∧ (p ∉ P) ∧ pa_inv s' ({[p]} ∪ P)));

  (** [pmm_free_page] of a handed-out page takes back that page. *)
  pa_free_ok s P p :
    pa_inv s P → p ∈ P →
    ∃ s', pa_free p s = Some s' ∧ pa_inv s' (P ∖ {[p]})
}.
