(* ===== verification/Pmm.v ===== *)
(** * kernel/mm/pmm.c: the physical page allocator

    Pages are tracked by [early_bitmap] (one bit per page, 1 = used) while
    [early_mode] is set, and by buddy free lists otherwise.  The bitmap is a
    map from byte index to byte (absent = 0, the BSS value).  [page_array] is
    [None] while the pointer is NULL; a [struct page *] is the index of its
    element.  A write through a null [struct page *] is undefined in the
    code, and the functions return [None] there. *)

From S2P Require Import Prelude PageAlloc.

(** ** Constants *)

Definition MAX_ORDER : Z := 11.
Definition MEMORY_BASE : Z := 0x40000000.
Definition MEMORY_SIZE : Z := 256 * 1024 * 1024.
Definition EARLY_BITMAP_SIZE : Z := 64 * 1024 / 8.

Definition PAGE_FLAG_FREE : Z := 0.
Definition PAGE_FLAG_USED : Z := 1.

(** The fields [slab] and [refcount] are not used by this file. *)
Record page := mk_page {
  pg_flags : Z;
  pg_order : Z;
  pg_next : option Z
}.

Record pmm := mk_pmm {
  free_lists : gmap Z Z;
  page_array : option (gmap Z page);
  total_pages : Z;
  free_pages_count : Z;
  total_memory : Z;
  memory_start : Z;
  memory_end : Z;
  early_bitmap : gmap Z Z;
  early_mode : bool
}.

(** The static data before [pmm_init]. *)
Definition pmm_bss : pmm := mk_pmm ∅ None 0 0 0 0 0 ∅ true.

Definition with_bitmap (bm : gmap Z Z) (s : pmm) : pmm :=
  mk_pmm (free_lists s) (page_array s) (total_pages s) (free_pages_count s)
    (total_memory s) (memory_start s) (memory_end s) bm (early_mode s).
Definition with_count (n : Z) (s : pmm) : pmm :=
  mk_pmm (free_lists s) (page_array s) (total_pages s) n
    (total_memory s) (memory_start s) (memory_end s) (early_bitmap s) (early_mode s).
Definition with_lists (fl : gmap Z Z) (pa : gmap Z page) (s : pmm) : pmm :=
  mk_pmm fl (Some pa) (total_pages s) (free_pages_count s)
    (total_memory s) (memory_start s) (memory_end s) (early_bitmap s) (early_mode s).

(** ** Helper functions *)

Definition order_to_pages (order : Z) : Z := u64 (Z.shiftl 1 order).
Definition order_to_size (order : Z) : Z := u64 (order_to_pages order * PAGE_SIZE).

(** The loop ends at [MAX_ORDER]; the fuel in [size_to_order] is one more. *)
Fixpoint size_to_order_loop (fuel : nat) (pages order : Z) : Z :=
  match fuel with
  | O => order
  | S fuel' =>
      if (Z.shiftl 1 order <? pages) && (order <? MAX_ORDER)
      then size_to_order_loop fuel' pages (order + 1)
      else order
  end.

Definition size_to_order (size : Z) : Z :=
  let pages := u64 (size + PAGE_SIZE - 1) / PAGE_SIZE in
  size_to_order_loop 12 pages 0.

(** ** Early boot allocator *)

Definition bitmap_byte (bm : gmap Z Z) (i : Z) : Z := default 0 (bm !! i).

(** [early_bitmap[pfn / 8] |= (1 << (pfn % 8))] *)
Definition bitmap_set (pfn : Z) (bm : gmap Z Z) : gmap Z Z :=
  <[pfn / 8 := u8 (Z.lor (bitmap_byte bm (pfn / 8)) (Z.shiftl 1 (pfn `mod` 8)))]> bm.

(** [early_bitmap[pfn / 8] &= ~(1 << (pfn % 8))] *)
Definition bitmap_clear (pfn : Z) (bm : gmap Z Z) : gmap Z Z :=
  <[pfn / 8 := u8 (Z.land (bitmap_byte bm (pfn / 8)) (Z.lnot (Z.shiftl 1 (pfn `mod` 8))))]> bm.

(** [!(early_bitmap[pfn / 8] & (1 << (pfn % 8)))] *)
Definition bitmap_is_clear (pfn : Z) (bm : gmap Z Z) : bool :=
  Z.land (bitmap_byte bm (pfn / 8)) (Z.shiftl 1 (pfn `mod` 8)) =? 0.

Definition early_mark_used (addr : Z) (s : pmm) : pmm :=
  let pfn := PHYS_TO_PFN (u64 (addr - memory_start s)) in
  if pfn <? EARLY_BITMAP_SIZE * 8 then with_bitmap (bitmap_set pfn (early_bitmap s)) s
  else s.

Definition early_mark_free (addr : Z) (s : pmm) : pmm :=
  let pfn := PHYS_TO_PFN (u64 (addr - memory_start s)) in
  if pfn <? EARLY_BITMAP_SIZE * 8 then with_bitmap (bitmap_clear pfn (early_bitmap s)) s
  else s.

Definition early_is_free (addr : Z) (s : pmm) : bool :=
  let pfn := PHYS_TO_PFN (u64 (addr - memory_start s)) in
  if EARLY_BITMAP_SIZE * 8 <=? pfn then false
  else bitmap_is_clear pfn (early_bitmap s).

(** The inner loop of [early_alloc_page]: the first clear bit of the byte
    from bit [j] on. *)
Fixpoint first_clear_bit (n : nat) (b j : Z) : option Z :=
  match n with
  | O => None
  | S n' => if Z.land b (Z.shiftl 1 j) =? 0 then Some j else first_clear_bit n' b (j + 1)
  end.

(** The outer loop from byte [i] on, [n] bytes. *)
Fixpoint early_alloc_loop (n : nat) (i : Z) (s : pmm) : pmm * Z :=
  match n with
  | O => (s, 0)
  | S n' =>
      let b := bitmap_byte (early_bitmap s) i in
      if negb (b =? 0xFF) then
        match first_clear_bit 8 b 0 with
        | Some j =>
            (with_bitmap (<[i := u8 (Z.lor b (Z.shiftl 1 j))]> (early_bitmap s)) s,
             u64 (memory_start s + (i * 8 + j) * PAGE_SIZE))
        | None => early_alloc_loop n' (i + 1) s
        end
      else early_alloc_loop n' (i + 1) s
  end.

Definition early_alloc_page (s : pmm) : pmm * Z :=
  early_alloc_loop (Z.to_nat EARLY_BITMAP_SIZE) 0 s.

(** ** Buddy allocator *)

Definition pmm_page_to_phys (page : option Z) (s : pmm) : Z :=
  match page_array s, page with
  | Some _, Some index => u64 (memory_start s + index * PAGE_SIZE)
  | _, _ => 0
  end.

Definition pmm_phys_to_page (addr : Z) (s : pmm) : option Z :=
  match page_array s with
  | None => None
  | Some _ =>
      if (addr <? memory_start s) || (memory_end s <=? addr) then None
      else Some (PHYS_TO_PFN (addr - memory_start s))
  end.

Definition buddy_address (addr order : Z) : Z :=
  Z.lxor addr (u64 (Z.shiftl PAGE_SIZE order)).

Definition buddy_add_to_list (addr order : Z) (s : pmm) : option pmm :=
  pa ← page_array s;
  pg ← pmm_phys_to_page addr s;
  Some (with_lists (<[order := pg]> (free_lists s))
          (<[pg := mk_page PAGE_FLAG_FREE order (free_lists s !! order)]> pa) s).

Definition buddy_remove_from_list (order : Z) (s : pmm) : option (pmm * Z) :=
  match free_lists s !! order with
  | None => Some (s, 0)
  | Some pg =>
      pa ← page_array s;
      p ← pa !! pg;
      let fl := match pg_next p with
                | Some n => <[order := n]> (free_lists s)
                | None => delete order (free_lists s)
                end in
      let s' := with_lists fl (<[pg := mk_page PAGE_FLAG_USED (pg_order p) None]> pa) s in
      Some (s', pmm_page_to_phys (Some pg) s')
  end.

(** ** pmm_init *)

(** [for (addr = ...; addr < hi; addr += PAGE_SIZE) early_mark_used(addr)].
    Every iteration adds a page, so the fuel in [pmm_init], the number of
    pages of the range, is enough. *)
Fixpoint mark_range (fuel : nat) (addr hi : Z) (s : pmm) : pmm :=
  match fuel with
  | O => s
  | S fuel' =>
      if addr <? hi then mark_range fuel' (u64 (addr + PAGE_SIZE)) hi (early_mark_used addr s)
      else s
  end.

(** [for (i = 0; i < total_pages && i < EARLY_BITMAP_SIZE * 8; i++)] *)
Fixpoint count_clear (fuel : nat) (i total : Z) (bm : gmap Z Z) (acc : Z) : Z :=
  match fuel with
  | O => acc
  | S fuel' =>
      if (i <? total) && (i <? EARLY_BITMAP_SIZE * 8)
      then count_clear fuel' (i + 1) total bm
             (if bitmap_is_clear i bm then u64 (acc + 1) else acc)
      else acc
  end.

(** [kernel_start] and [kernel_end] are the linker symbols [__kernel_start]
    and [__kernel_end]. *)
Definition pmm_init (kernel_start kernel_end : Z) (s : pmm) : pmm * Z :=
  let s := mk_pmm ∅ (page_array s) (MEMORY_SIZE / PAGE_SIZE) (free_pages_count s)
             MEMORY_SIZE MEMORY_BASE (MEMORY_BASE + MEMORY_SIZE) (early_bitmap s)
             (early_mode s) in
  let lo := ALIGN_DOWN kernel_start PAGE_SIZE in
  let hi := u64 (ALIGN kernel_end PAGE_SIZE) in
  let s := mark_range (Z.to_nat ((hi - lo) / PAGE_SIZE)) lo hi s in
  (with_count (count_clear (Z.to_nat (EARLY_BITMAP_SIZE * 8)) 0 (total_pages s)
                 (early_bitmap s) 0) s, 0).

(** ** pmm_alloc_pages *)

(** The search for [count] free pages in a row: [found] pages of the current
    run, which begins at [start], have been seen before [addr]. *)
Fixpoint early_scan (fuel : nat) (addr start found count : Z) (s : pmm) : option Z :=
  match fuel with
  | O => None
  | S fuel' =>
      if addr <? memory_end s then
        if early_is_free addr s then
          let start := if found =? 0 then addr else start in
          let found := found + 1 in
          if found =? count then Some start
          else early_scan fuel' (addr + PAGE_SIZE) start found count s
        else early_scan fuel' (addr + PAGE_SIZE) start 0 count s
      else None
  end.

(** [for (i = 0; i < count; i++) early_mark_used(start + i * PAGE_SIZE)] *)
Fixpoint mark_used_pages (n : nat) (i start : Z) (s : pmm) : pmm :=
  match n with
  | O => s
  | S n' => mark_used_pages n' (i + 1) start (early_mark_used (u64 (start + i * PAGE_SIZE)) s)
  end.

(** [while (o > order)]: give back the upper halves of the block at [addr]. *)
Fixpoint buddy_split (fuel : nat) (addr o order : Z) (s : pmm) : option pmm :=
  match fuel with
  | O => Some s
  | S fuel' =>
      if order <? o then
        s' ← buddy_add_to_list (buddy_address addr (o - 1)) (o - 1) s;
        buddy_split fuel' addr (o - 1) order s'
      else Some s
  end.

(** [for (o = order; o <= MAX_ORDER; o++)] *)
Fixpoint buddy_alloc (fuel : nat) (o order : Z) (s : pmm) : option (pmm * Z) :=
  match fuel with
  | O => Some (s, 0)
  | S fuel' =>
      if o <=? MAX_ORDER then
        r ← buddy_remove_from_list o s;
        let '(s', addr) := r in
        if negb (addr =? 0) then
          s'' ← buddy_split 12 addr o order s';
          Some (with_count (u64 (free_pages_count s'' - order_to_pages order)) s'', addr)
        else buddy_alloc fuel' (o + 1) order s'
      else Some (s, 0)
  end.

Definition pmm_alloc_pages (order : Z) (s : pmm) : option (pmm * Z) :=
  if MAX_ORDER <? order then Some (s, 0)
  else if early_mode s then
    let count := order_to_pages order in
    match early_scan (Z.to_nat ((memory_end s - memory_start s) / PAGE_SIZE + 1))
            (memory_start s) 0 0 count s with
    | Some start =>
        let s := mark_used_pages (Z.to_nat count) 0 start s in
        Some (with_count (u64 (free_pages_count s - count)) s, start)
    | None => Some (s, 0)
    end
  else buddy_alloc 13 order order s.

Definition pmm_alloc_page (s : pmm) : option (pmm * Z) := pmm_alloc_pages 0 s.

(** ** pmm_free_pages *)

(** [for (i = 0; i < count; i++) early_mark_free(addr + i * PAGE_SIZE)] *)
Fixpoint mark_free_pages (n : nat) (i addr : Z) (s : pmm) : pmm :=
  match n with
  | O => s
  | S n' => mark_free_pages n' (i + 1) addr (early_mark_free (u64 (addr + i * PAGE_SIZE)) s)
  end.

(** The merge loop [while (order < MAX_ORDER)]; it changes no page. *)
Fixpoint buddy_merge (fuel : nat) (addr order : Z) (s : pmm) : option (Z * Z) :=
  match fuel with
  | O => Some (addr, order)
  | S fuel' =>
      if order <? MAX_ORDER then
        let buddy := buddy_address addr order in
        match pmm_phys_to_page buddy s with
        | None => Some (addr, order)
        | Some pg =>
            pa ← page_array s;
            p ← pa !! pg;
            if (pg_flags p =? PAGE_FLAG_FREE) && (pg_order p =? order)
            then buddy_merge fuel' (if buddy <? addr then buddy else addr) (order + 1) s
            else Some (addr, order)
        end
      else Some (addr, order)
  end.

Definition pmm_free_pages (addr order : Z) (s : pmm) : option pmm :=
  if (addr =? 0) || (MAX_ORDER <? order) then Some s
  else if early_mode s then
    let count := order_to_pages order in
    let s := mark_free_pages (Z.to_nat count) 0 addr s in
    Some (with_count (u64 (free_pages_count s + count)) s)
  else
    r ← buddy_merge 12 addr order s;
    let '(addr, order) := r in
    s' ← buddy_add_to_list addr order s;
    Some (with_count (u64 (free_pages_count s' + order_to_pages order)) s').

Definition pmm_free_page (addr : Z) (s : pmm) : option pmm := pmm_free_pages addr 0 s.

Definition pmm_get_free_memory (s : pmm) : Z := u64 (free_pages_count s * PAGE_SIZE).
Definition pmm_get_total_memory (s : pmm) : Z := total_memory s.

(** ** The bitmap as a predicate on page numbers *)

Definition NPAGES : Z := EARLY_BITMAP_SIZE * 8.

Definition page_addr (p : Z) : Z := MEMORY_BASE + p * PAGE_SIZE.

Definition used_bit (bm : gmap Z Z) (p : Z) : bool :=
  Z.testbit (bitmap_byte bm (p / 8)) (p `mod` 8).

Lemma bitmap_is_clear_spec p bm : bitmap_is_clear p bm = negb (used_bit bm p).
Proof.
  unfold bitmap_is_clear, used_bit.
  assert (0 ≤ p `mod` 8 < 8) by (apply Z.mod_pos_bound; lia).
  rewrite Z.shiftl_1_l.
  destruct (Z.testbit (bitmap_byte bm (p / 8)) (p `mod` 8)) eqn:E; cbn [negb].
  - apply Z.eqb_neq. intros H0.
    apply (f_equal (λ z, Z.testbit z (p `mod` 8))) in H0.
    rewrite Z.land_spec, Z.pow2_bits_true, E, Z.bits_0 in H0 by lia. done.
  - apply Z.eqb_eq. apply Z.bits_inj'. intros k Hk.
    rewrite Z.land_spec, Z.bits_0.
    destruct (decide (k = p `mod` 8)) as [->|]; [by rewrite E|].
    rewrite Z.pow2_bits_false by lia. apply andb_false_r.
Qed.

Lemma used_bit_byte bm p b q :
  used_bit (<[p / 8 := b]> bm) q =
  if decide (q / 8 = p / 8) then Z.testbit b (q `mod` 8) else used_bit bm q.
Proof.
  unfold used_bit, bitmap_byte. rewrite lookup_insert.
  case_decide as H; case_decide; naive_solver.
Qed.

Lemma div_mod_8_eq p q : q / 8 = p / 8 → q `mod` 8 = p `mod` 8 → q = p.
Proof. intros. pose proof (Z.div_mod p 8). pose proof (Z.div_mod q 8). lia. Qed.

Lemma used_bit_set p q bm :
  used_bit (bitmap_set p bm) q = bool_decide (q = p) || used_bit bm q.
Proof.
  unfold bitmap_set. rewrite used_bit_byte.
  assert (0 ≤ p `mod` 8 < 8) by (apply Z.mod_pos_bound; lia).
  assert (0 ≤ q `mod` 8 < 8) by (apply Z.mod_pos_bound; lia).
  case_decide as E; [|case_bool_decide; [by subst|done]].
  unfold u8. rewrite Z.mod_pow2_bits_low, Z.lor_spec, Z.shiftl_1_l by lia.
  unfold used_bit. rewrite E. case_bool_decide as Eq.
  - subst q. rewrite Z.pow2_bits_true by lia. apply orb_true_r.
  - rewrite Z.pow2_bits_false; [apply orb_false_r|].
    intros H'. by apply Eq, div_mod_8_eq.
Qed.

Lemma used_bit_clear p q bm :
  used_bit (bitmap_clear p bm) q = negb (bool_decide (q = p)) && used_bit bm q.
Proof.
  unfold bitmap_clear. rewrite used_bit_byte.
  assert (0 ≤ p `mod` 8 < 8) by (apply Z.mod_pos_bound; lia).
  assert (0 ≤ q `mod` 8 < 8) by (apply Z.mod_pos_bound; lia).
  case_decide as E; [|case_bool_decide; [by subst|done]].
  unfold u8. rewrite Z.mod_pow2_bits_low, Z.land_spec, Z.lnot_spec, Z.shiftl_1_l by lia.
  unfold used_bit. rewrite E. case_bool_decide as Eq.
  - subst q. rewrite Z.pow2_bits_true by lia. apply andb_false_r.
  - rewrite Z.pow2_bits_false; [apply andb_true_r|].
    intros H'. by apply Eq, div_mod_8_eq.
Qed.

(** ** Runs of pages *)

(** All pages of [p, p + n) have the given status. *)
Definition run_is (st : bool) (bm : gmap Z Z) (p n : Z) : Prop :=
  ∀ q, p ≤ q < p + n → used_bit bm q = st.

Definition in_run (p n q : Z) : bool := (p <=? q) && (q <? p + n).

Fixpoint set_run (n : nat) (p : Z) (bm : gmap Z Z) : gmap Z Z :=
  match n with O => bm | S n' => set_run n' (p + 1) (bitmap_set p bm) end.
Fixpoint clear_run (n : nat) (p : Z) (bm : gmap Z Z) : gmap Z Z :=
  match n with O => bm | S n' => clear_run n' (p + 1) (bitmap_clear p bm) end.

Lemma in_run_S n p q : in_run p (Z.of_nat (S n)) q = bool_decide (q = p) || in_run (p + 1) (Z.of_nat n) q.
Proof.
  unfold in_run. case_bool_decide; repeat zcase; cbn; lia || done.
Qed.

Lemma used_bit_set_run n p q bm :
  used_bit (set_run n p bm) q = in_run p (Z.of_nat n) q || used_bit bm q.
Proof.
  revert p bm. induction n as [|n IH]; intros p bm; cbn [set_run].
  - unfold in_run. repeat zcase; lia || done.
  - rewrite IH, used_bit_set, in_run_S.
    destruct (bool_decide _), (in_run _ _ _), (used_bit _ _); done.
Qed.

Lemma used_bit_clear_run n p q bm :
  used_bit (clear_run n p bm) q = negb (in_run p (Z.of_nat n) q) && used_bit bm q.
Proof.
  revert p bm. induction n as [|n IH]; intros p bm; cbn [clear_run].
  - unfold in_run. repeat zcase; lia || done.
  - rewrite IH, used_bit_clear, in_run_S.
    destruct (bool_decide _), (in_run _ _ _), (used_bit _ _); done.
Qed.

(** ** The number of clear bits *)

Fixpoint clear_upto (n : nat) (bm : gmap Z Z) : Z :=
  match n with
  | O => 0
  | S n' => clear_upto n' bm + (if used_bit bm (Z.of_nat n') then 0 else 1)
  end.

Lemma clear_upto_bound n bm : 0 ≤ clear_upto n bm ≤ Z.of_nat n.
Proof. induction n; cbn [clear_upto]; [lia|]. case_match; lia. Qed.

Lemma clear_upto_ext n bm bm' :
  (∀ q, 0 ≤ q < Z.of_nat n → used_bit bm' q = used_bit bm q) →
  clear_upto n bm' = clear_upto n bm.
Proof.
  induction n as [|n IH]; intros Hq; cbn [clear_upto]; [done|].
  rewrite IH by (intros; apply Hq; lia). by rewrite Hq by lia.
Qed.

(** One page changes its status from clear to used. *)
Lemma clear_upto_flip n bm bm' p :
  0 ≤ p < Z.of_nat n → used_bit bm p = false → used_bit bm' p = true →
  (∀ q, q ≠ p → used_bit bm' q = used_bit bm q) →
  clear_upto n bm' = clear_upto n bm - 1.
Proof.
  intros Hp H0 H1 Hq. induction n as [|n IH]; [lia|]; cbn [clear_upto].
  destruct (decide (p = Z.of_nat n)) as [->|].
  - rewrite H0, H1, (clear_upto_ext n bm bm') by (intros; apply Hq; lia). lia.
  - rewrite IH, Hq by lia. lia.
Qed.

Lemma clear_upto_set_run m n p bm :
  0 ≤ p → p + Z.of_nat n ≤ Z.of_nat m → run_is false bm p (Z.of_nat n) →
  clear_upto m (set_run n p bm) = clear_upto m bm - Z.of_nat n.
Proof.
  revert p bm. induction n as [|n IH]; intros p bm Hp Hm Hr; cbn [set_run]; [lia|].
  rewrite IH; [|lia|lia|].
  - rewrite (clear_upto_flip m bm (bitmap_set p bm) p); [lia|lia|apply Hr; lia| |].
    + by rewrite used_bit_set, bool_decide_true.
    + intros q Hq. by rewrite used_bit_set, bool_decide_false.
  - intros q Hq. rewrite used_bit_set, bool_decide_false by lia. apply Hr; lia.
Qed.

Lemma clear_upto_clear_run m n p bm :
  0 ≤ p → p + Z.of_nat n ≤ Z.of_nat m → run_is true bm p (Z.of_nat n) →
  clear_upto m (clear_run n p bm) = clear_upto m bm + Z.of_nat n.
Proof.
  revert p bm. induction n as [|n IH]; intros p bm Hp Hm Hr; cbn [clear_run]; [lia|].
  rewrite IH; [|lia|lia|].
  - rewrite (clear_upto_flip m (bitmap_clear p bm) bm p); [lia|lia| |apply Hr; lia|].
    + by rewrite used_bit_clear, bool_decide_true.
    + intros q Hq. by rewrite used_bit_clear, bool_decide_false.
  - intros q Hq. rewrite used_bit_clear, bool_decide_false by lia. apply Hr; lia.
Qed.

Lemma count_clear_spec fuel n bm :
  Z.of_nat (n + fuel) ≤ NPAGES →
  count_clear fuel (Z.of_nat n) NPAGES bm (clear_upto n bm) = clear_upto (n + fuel) bm.
Proof.
  revert n. induction fuel as [|fuel IH]; intros n Hn; cbn [count_clear].
  - by rewrite Nat.add_0_r.
  - change (EARLY_BITMAP_SIZE * 8) with NPAGES.
    destruct (Z.ltb_spec (Z.of_nat n) NPAGES); [|lia]. cbn [andb].
    rewrite bitmap_is_clear_spec.
    replace (if negb (used_bit bm (Z.of_nat n)) then u64 (clear_upto n bm + 1)
             else clear_upto n bm) with (clear_upto (S n) bm).
    + replace (Z.of_nat n + 1) with (Z.of_nat (S n)) by lia.
      rewrite IH by lia. f_equal; lia.
    + pose proof (clear_upto_bound n bm). change NPAGES with 65536 in *.
      cbn [clear_upto]. destruct (used_bit bm (Z.of_nat n)); cbn [negb]; [lia|].
      rewrite u64_small; lia.
Qed.

Lemma count_clear_all fuel bm :
  Z.of_nat fuel = NPAGES → count_clear fuel 0 NPAGES bm 0 = clear_upto fuel bm.
Proof. intros Hf. apply (count_clear_spec fuel 0 bm). cbn [Nat.add]. lia. Qed.

(** ** The state after [pmm_init]: the memory range and the accounting *)

Record pmm_wf (s : pmm) : Prop := {
  wf_early : early_mode s = true;
  wf_start : memory_start s = MEMORY_BASE;
  wf_end : memory_end s = MEMORY_BASE + MEMORY_SIZE;
  wf_count : free_pages_count s = clear_upto (Z.to_nat NPAGES) (early_bitmap s)
}.

Lemma pfn_of_page p : 0 ≤ p < NPAGES → PHYS_TO_PFN (u64 (page_addr p - MEMORY_BASE)) = p.
Proof.
  change NPAGES with 65536. intros Hp. unfold page_addr, PHYS_TO_PFN, PAGE_SIZE, PAGE_SHIFT.
  rewrite u64_small by lia. rewrite Z.shiftr_div_pow2 by lia.
  replace (MEMORY_BASE + p * 4096 - MEMORY_BASE) with (p * 2 ^ 12) by lia.
  by rewrite Z.div_mul by lia.
Qed.

Lemma early_mark_used_page p s :
  memory_start s = MEMORY_BASE → 0 ≤ p < NPAGES →
  early_mark_used (page_addr p) s = with_bitmap (bitmap_set p (early_bitmap s)) s.
Proof.
  intros Hs Hp. unfold early_mark_used. rewrite Hs, pfn_of_page by done.
  change (EARLY_BITMAP_SIZE * 8) with NPAGES. by destruct (Z.ltb_spec p NPAGES); [|lia].
Qed.

Lemma early_mark_free_page p s :
  memory_start s = MEMORY_BASE → 0 ≤ p < NPAGES →
  early_mark_free (page_addr p) s = with_bitmap (bitmap_clear p (early_bitmap s)) s.
Proof.
  intros Hs Hp. unfold early_mark_free. rewrite Hs, pfn_of_page by done.
  change (EARLY_BITMAP_SIZE * 8) with NPAGES. by destruct (Z.ltb_spec p NPAGES); [|lia].
Qed.

Lemma early_is_free_page p s :
  memory_start s = MEMORY_BASE → 0 ≤ p < NPAGES →
  early_is_free (page_addr p) s = negb (used_bit (early_bitmap s) p).
Proof.
  intros Hs Hp. unfold early_is_free. rewrite Hs, pfn_of_page by done.
  change (EARLY_BITMAP_SIZE * 8) with NPAGES.
  destruct (Z.leb_spec NPAGES p); [lia|]. apply bitmap_is_clear_spec.
Qed.

Lemma with_bitmap_twice a b s : with_bitmap a (with_bitmap b s) = with_bitmap a s.
Proof. done. Qed.

Lemma with_bitmap_id s : with_bitmap (early_bitmap s) s = s.
Proof. by destruct s. Qed.

Lemma page_addr_step p i : page_addr p + i * PAGE_SIZE = page_addr (p + i).
Proof. unfold page_addr. lia. Qed.

Lemma page_addr_sub p q : page_addr p - page_addr q = (p - q) * PAGE_SIZE.
Proof. unfold page_addr. lia. Qed.

Lemma page_addr_u64 p : 0 ≤ p < NPAGES → u64 (page_addr p) = page_addr p.
Proof.
  change NPAGES with 65536. intros. unfold page_addr, MEMORY_BASE, PAGE_SIZE.
  apply u64_small; lia.
Qed.

Lemma mark_used_pages_spec n p i s :
  memory_start s = MEMORY_BASE → 0 ≤ p + i → p + i + Z.of_nat n ≤ NPAGES →
  mark_used_pages n i (page_addr p) s = with_bitmap (set_run n (p + i) (early_bitmap s)) s.
Proof.
  revert i s. induction n as [|n IH]; intros i s Hs H0 Hn; cbn [mark_used_pages set_run].
  - by rewrite with_bitmap_id.
  - rewrite page_addr_step, page_addr_u64, early_mark_used_page by (done || lia).
    rewrite IH by (done || lia). rewrite with_bitmap_twice. f_equal. f_equal; lia.
Qed.

Lemma mark_free_pages_spec n p i s :
  memory_start s = MEMORY_BASE → 0 ≤ p + i → p + i + Z.of_nat n ≤ NPAGES →
  mark_free_pages n i (page_addr p) s = with_bitmap (clear_run n (p + i) (early_bitmap s)) s.
Proof.
  revert i s. induction n as [|n IH]; intros i s Hs H0 Hn; cbn [mark_free_pages clear_run].
  - by rewrite with_bitmap_id.
  - rewrite page_addr_step, page_addr_u64, early_mark_free_page by (done || lia).
    rewrite IH by (done || lia). rewrite with_bitmap_twice. f_equal. f_equal; lia.
Qed.

Lemma order_to_pages_pow order : 0 ≤ order ≤ MAX_ORDER → order_to_pages order = 2 ^ order.
Proof.
  unfold MAX_ORDER, order_to_pages. intros. rewrite Z.shiftl_1_l. apply u64_small.
  split; [lia|]. apply Z.pow_lt_mono_r; lia.
Qed.

(** ** The search *)

(** No run of [n] free pages lies below page [a]. *)
Definition no_run (bm : gmap Z Z) (n a : Z) : Prop :=
  ∀ q, 0 ≤ q → q + n ≤ a → ¬ run_is false bm q n.

(** What the search knows when it has looked at the pages below [a]: the
    [found] pages before [a] are free, the page before them is not. *)
Record scan_inv (bm : gmap Z Z) (n a start found : Z) : Prop := {
  si_found : 0 ≤ found < n ∧ found ≤ a;
  si_start : 0 < found → start = page_addr (a - found);
  si_run : run_is false bm (a - found) found;
  si_max : 0 < a - found → used_bit bm (a - found - 1) = true;
  si_none : no_run bm n a
}.

Lemma scan_inv_init bm n : 0 < n → scan_inv bm n 0 0 0.
Proof. split; try lia; [intros q; lia|intros q ? ? _; lia]. Qed.

Lemma scan_inv_used bm n a st f :
  scan_inv bm n a st f → used_bit bm a = true → scan_inv bm n (a + 1) st 0.
Proof.
  intros [Hf Hst Hr Hm Hn] Hu. split; try lia.
  - intros q; lia.
  - intros _. by replace (a + 1 - 0 - 1) with a by lia.
  - intros q H0 Hq Hrun. destruct (decide (q + n ≤ a)); [by eapply Hn|].
    rewrite (Hrun a) in Hu by lia. done.
Qed.

Lemma scan_inv_free bm n a st f :
  scan_inv bm n a st f → used_bit bm a = false → f + 1 ≠ n →
  scan_inv bm n (a + 1) (if f =? 0 then page_addr a else st) (f + 1).
Proof.
  intros [Hf Hst Hr Hm Hn] Hu Hne. split; try lia.
  - intros _. replace (a + 1 - (f + 1)) with (a - f) by lia. zcase; [|apply Hst; lia].
    f_equal; lia.
  - intros q Hq. destruct (decide (q = a)) as [->|]; [done|]. apply Hr; lia.
  - intros Ha. replace (a + 1 - (f + 1) - 1) with (a - f - 1) by lia. apply Hm; lia.
  - intros q H0 Hq Hrun. destruct (decide (q + n ≤ a)); [by eapply Hn|].
    assert (used_bit bm (a - f - 1) = true) as Hx by (apply Hm; lia).
    rewrite (Hrun (a - f - 1)) in Hx by lia. done.
Qed.

(** The lowest run of [n] free pages, if there is one. *)
Definition lowest_run (bm : gmap Z Z) (n p : Z) : Prop :=
  0 ≤ p ∧ p + n ≤ NPAGES ∧ run_is false bm p n ∧ ∀ q, 0 ≤ q < p → ¬ run_is false bm q n.

Lemma early_scan_spec fuel a st f n s :
  memory_start s = MEMORY_BASE → memory_end s = MEMORY_BASE + MEMORY_SIZE →
  0 ≤ a ≤ NPAGES → NPAGES - a < Z.of_nat fuel →
  scan_inv (early_bitmap s) n a st f →
  match early_scan fuel (page_addr a) st f n s with
  | Some start => ∃ p, start = page_addr p ∧ lowest_run (early_bitmap s) n p
  | None => no_run (early_bitmap s) n NPAGES
  end.
Proof.
  intros Hs He. revert a st f.
  induction fuel as [|fuel IH]; intros a st f Ha Hf Hi; [lia|]. cbn [early_scan].
  assert (page_addr a + PAGE_SIZE = page_addr (a + 1)) as Hstep by (unfold page_addr; lia).
  rewrite He, Hstep. unfold page_addr at 1. change NPAGES with 65536 in *.
  unfold MEMORY_SIZE, PAGE_SIZE.
  destruct (Z.ltb_spec (MEMORY_BASE + a * 4096) (MEMORY_BASE + 256 * 1024 * 1024)).
  2: { replace 65536 with a by lia. apply Hi. }
  rewrite early_is_free_page by (done || (change NPAGES with 65536; lia)).
  destruct (used_bit (early_bitmap s) a) eqn:Hu; cbn [negb].
  - apply IH; [lia..|]. by eapply scan_inv_used.
  - destruct (Z.eqb_spec (f + 1) n) as [Hn|Hn].
    2: { apply IH; [lia..|]. by apply scan_inv_free. }
    destruct Hi as [Hf' Hst Hr Hm Hno]. exists (a - f). split.
    { zcase; [|apply Hst; lia]. f_equal; lia. }
    split; [lia|]. split; [change NPAGES with 65536; lia|]. split.
    + intros q Hq. destruct (decide (q = a)) as [->|]; [done|]. apply Hr; lia.
    + intros q Hq. apply Hno; lia.
Qed.

Definition scan_fuel (s : pmm) : nat :=
  Z.to_nat ((memory_end s - memory_start s) / PAGE_SIZE + 1).

Lemma early_scan_from_start n s :
  pmm_wf s → 0 < n →
  match early_scan (scan_fuel s) (memory_start s) 0 0 n s with
  | Some start => ∃ p, start = page_addr p ∧ lowest_run (early_bitmap s) n p
  | None => no_run (early_bitmap s) n NPAGES
  end.
Proof.
  intros [_ Hs He _] Hn.
  replace (early_scan (scan_fuel s) (memory_start s)) with
    (early_scan (scan_fuel s) (page_addr 0)) by (f_equal; by rewrite Hs).
  apply early_scan_spec; [done|done|change NPAGES with 65536; lia| |by apply scan_inv_init].
  unfold scan_fuel. rewrite Hs, He. vm_compute. done.
Qed.

(** ** What the operations do, on the bitmap *)

Lemma alloc_pages_early order s :
  pmm_wf s → 0 ≤ order ≤ MAX_ORDER →
  (∃ p s', pmm_alloc_pages order s = Some (s', page_addr p) ∧
     lowest_run (early_bitmap s) (2 ^ order) p ∧ pmm_wf s' ∧
     free_pages_count s' = free_pages_count s - 2 ^ order ∧
     ∀ q, used_bit (early_bitmap s') q = in_run p (2 ^ order) q || used_bit (early_bitmap s) q) ∨
  (pmm_alloc_pages order s = Some (s, 0) ∧ no_run (early_bitmap s) (2 ^ order) NPAGES).
Proof.
  intros Hwf Ho. assert (0 < 2 ^ order) as Hpos by lia.
  pose proof (early_scan_from_start _ _ Hwf Hpos) as Hscan.
  unfold pmm_alloc_pages. rewrite (wf_early _ Hwf), order_to_pages_pow by done.
  destruct (Z.ltb_spec MAX_ORDER order); [lia|]. fold (scan_fuel s).
  destruct (early_scan _ _ _ _ _ _) as [start|]; [|by right].
  destruct Hscan as (p & -> & Hlow). pose proof Hlow as (H0 & Hp & Hrun & _). left.
  rewrite mark_used_pages_spec by (try apply Hwf; lia). rewrite Z.add_0_r.
  assert (clear_upto (Z.to_nat NPAGES) (set_run (Z.to_nat (2 ^ order)) p (early_bitmap s))
          = clear_upto (Z.to_nat NPAGES) (early_bitmap s) - 2 ^ order) as Hc.
  { rewrite clear_upto_set_run; [lia|done|lia|]. by rewrite Z2Nat.id by lia. }
  pose proof (clear_upto_bound (Z.to_nat NPAGES)
    (set_run (Z.to_nat (2 ^ order)) p (early_bitmap s))).
  pose proof (clear_upto_bound (Z.to_nat NPAGES) (early_bitmap s)).
  assert (u64 (free_pages_count s - 2 ^ order) = free_pages_count s - 2 ^ order) as Hu.
  { rewrite (wf_count _ Hwf) in *. change NPAGES with 65536 in *. apply u64_small. lia. }
  do 2 eexists. split; [reflexivity|]. split; [done|]. split; [|split].
  - destruct Hwf as [He Hs Hend Hcnt]. split; [exact He|exact Hs|exact Hend|].
    cbn [free_pages_count early_bitmap with_count with_bitmap]. rewrite Hu, Hc. lia.
  - exact Hu.
  - intros q. cbn [early_bitmap with_count with_bitmap].
    rewrite used_bit_set_run. by rewrite Z2Nat.id by lia.
Qed.

Lemma free_pages_early order p s :
  pmm_wf s → 0 ≤ order ≤ MAX_ORDER → 0 ≤ p → p + 2 ^ order ≤ NPAGES →
  run_is true (early_bitmap s) p (2 ^ order) →
  ∃ s', pmm_free_pages (page_addr p) order s = Some s' ∧ pmm_wf s' ∧
    free_pages_count s' = free_pages_count s + 2 ^ order ∧
    ∀ q, used_bit (early_bitmap s') q = negb (in_run p (2 ^ order) q) && used_bit (early_bitmap s) q.
Proof.
  intros Hwf Ho H0 Hp Hrun. assert (0 < 2 ^ order) as Hpos by lia.
  unfold pmm_free_pages. rewrite (wf_early _ Hwf), order_to_pages_pow by done.
  destruct (Z.eqb_spec (page_addr p) 0); [unfold page_addr, MEMORY_BASE, PAGE_SIZE in *; lia|].
  destruct (Z.ltb_spec MAX_ORDER order); [lia|]. cbn [orb].
  rewrite mark_free_pages_spec by (try apply Hwf; lia). rewrite Z.add_0_r.
  assert (clear_upto (Z.to_nat NPAGES) (clear_run (Z.to_nat (2 ^ order)) p (early_bitmap s))
          = clear_upto (Z.to_nat NPAGES) (early_bitmap s) + 2 ^ order) as Hc.
  { rewrite clear_upto_clear_run; [lia|done|lia|]. by rewrite Z2Nat.id by lia. }
  pose proof (clear_upto_bound (Z.to_nat NPAGES)
    (clear_run (Z.to_nat (2 ^ order)) p (early_bitmap s))).
  pose proof (clear_upto_bound (Z.to_nat NPAGES) (early_bitmap s)).
  assert (u64 (free_pages_count s + 2 ^ order) = free_pages_count s + 2 ^ order) as Hu.
  { rewrite (wf_count _ Hwf) in *. change NPAGES with 65536 in *. apply u64_small. lia. }
  eexists. split; [reflexivity|]. split; [|split].
  - destruct Hwf as [He Hs Hend Hcnt]. split; [exact He|exact Hs|exact Hend|].
    cbn [free_pages_count early_bitmap with_count with_bitmap]. rewrite Hu, Hc. lia.
  - exact Hu.
  - intros q. cbn [early_bitmap with_count with_bitmap].
    rewrite used_bit_clear_run. by rewrite Z2Nat.id by lia.
Qed.

(** ** Initialisation *)

Lemma mark_range_spec n p s :
  memory_start s = MEMORY_BASE → 0 ≤ p → p + Z.of_nat n ≤ NPAGES →
  mark_range n (page_addr p) (page_addr (p + Z.of_nat n)) s =
  with_bitmap (set_run n p (early_bitmap s)) s.
Proof.
  revert p s. induction n as [|n IH]; intros p s Hs H0 Hp; cbn [mark_range set_run].
  { by rewrite with_bitmap_id. }
  destruct (Z.ltb_spec (page_addr p) (page_addr (p + Z.of_nat (S n))));
    [|unfold page_addr, PAGE_SIZE in *; lia].
  replace (page_addr p + PAGE_SIZE) with (page_addr (p + 1)) by (unfold page_addr; lia).
  assert (u64 (page_addr (p + 1)) = page_addr (p + 1)) as ->.
  { change NPAGES with 65536 in *. unfold page_addr, PAGE_SIZE, MEMORY_BASE.
    apply u64_small; lia. }
  replace (p + Z.of_nat (S n)) with (p + 1 + Z.of_nat n) by lia.
  rewrite early_mark_used_page by (done || lia).
  rewrite IH by (done || lia). done.
Qed.

(** The first and the last-but-one page of the kernel image. *)
Definition kernel_first (kernel_start : Z) : Z := (kernel_start - MEMORY_BASE) / PAGE_SIZE.
Definition kernel_limit (kernel_end : Z) : Z :=
  (kernel_end - MEMORY_BASE + PAGE_SIZE - 1) / PAGE_SIZE.

Lemma kernel_pages_aligned ks ke :
  MEMORY_BASE ≤ ks < ke → ke ≤ MEMORY_BASE + MEMORY_SIZE →
  ALIGN_DOWN ks PAGE_SIZE = page_addr (kernel_first ks) ∧
  u64 (ALIGN ke PAGE_SIZE) = page_addr (kernel_limit ke) ∧
  0 ≤ kernel_first ks < kernel_limit ke ∧ kernel_limit ke ≤ NPAGES.
Proof.
  intros Hk He. change PAGE_SIZE with (2 ^ 12) at 1 2.
  pose proof (ALIGN_spec ke 12) as [Hm Hb]; [lia|].
  rewrite ALIGN_DOWN_spec by lia.
  unfold kernel_first, kernel_limit, page_addr, PAGE_SIZE, MEMORY_BASE, MEMORY_SIZE in *.
  change NPAGES with 65536. change (2 ^ 12) with 4096 in *.
  rewrite u64_small by lia. lia_mod.
Qed.

Lemma pmm_init_spec ks ke :
  MEMORY_BASE ≤ ks < ke → ke ≤ MEMORY_BASE + MEMORY_SIZE →
  ∃ s, pmm_init ks ke pmm_bss = (s, 0) ∧ pmm_wf s ∧
    (∀ q, used_bit (early_bitmap s) q =
       in_run (kernel_first ks) (kernel_limit ke - kernel_first ks) q) ∧
    total_memory s = MEMORY_SIZE.
Proof.
  intros Hk He. destruct (kernel_pages_aligned ks ke Hk He) as (Hlo & Hhi & Hr & Hl).
  unfold pmm_init. rewrite Hlo, Hhi.
  set (n := Z.to_nat (kernel_limit ke - kernel_first ks)).
  assert (Z.of_nat n = kernel_limit ke - kernel_first ks) as Hn by (unfold n; lia).
  assert ((page_addr (kernel_limit ke) - page_addr (kernel_first ks)) / PAGE_SIZE
          = kernel_limit ke - kernel_first ks) as ->.
  { rewrite page_addr_sub. by apply Z.div_mul. }
  fold n. clearbody n. assert (kernel_limit ke = kernel_first ks + Z.of_nat n) as -> by lia.
  rewrite mark_range_spec by (done || lia).
  eexists. split; [reflexivity|]. split; [|split].
  - split; [exact eq_refl|exact eq_refl|exact eq_refl|].
    cbn [free_pages_count early_bitmap with_count with_bitmap total_pages pmm_bss].
    change (MEMORY_SIZE / PAGE_SIZE) with NPAGES.
    fold NPAGES. apply count_clear_all, Z2Nat.id. discriminate.
  - intros q. cbn [early_bitmap with_count with_bitmap pmm_bss].
    rewrite used_bit_set_run. replace (used_bit ∅ q) with false.
    + rewrite orb_false_r. f_equal. lia.
    + unfold used_bit, bitmap_byte. rewrite lookup_empty. by rewrite Z.bits_0.
  - done.
Qed.

(** ** Allocation and release *)

(** Two states with the same accounting and the same bits: the maps can still
    differ in bytes that are 0 and absent. *)
Definition pmm_equiv (s t : pmm) : Prop :=
  (∀ q, used_bit (early_bitmap s) q = used_bit (early_bitmap t) q) ∧
  free_pages_count s = free_pages_count t ∧
  memory_start s = memory_start t ∧ memory_end s = memory_end t ∧
  early_mode s = early_mode t.

#[export] Instance pmm_equiv_equivalence : Equivalence pmm_equiv.
Proof.
  unfold pmm_equiv. split.
  - done.
  - intros s t (? & ? & ? & ? & ?). done.
  - intros s t u (Hst & ? & ? & ? & ?) (Htu & ? & ? & ? & ?).
    split; [intros q; by rewrite Hst, Htu|]. repeat split; congruence.
Qed.

Lemma order_run_bound order p :
  0 ≤ order → in_run p (2 ^ order) p = true.
Proof. intros. unfold in_run. repeat zcase; try done; lia. Qed.

(** Pmm_alloc_pages, in the mode the kernel runs in, is first fit: it
    returns the lowest run of 2^order free pages, marks exactly these pages,
    charges them to the free count and keeps the accounting exact; it returns
    0 (changing nothing) only when no such run exists. *)
Theorem pmm_alloc_first_fit order s :
  pmm_wf s → 0 ≤ order ≤ MAX_ORDER →
  (∃ p s', pmm_alloc_pages order s = Some (s', page_addr p) ∧
     lowest_run (early_bitmap s) (2 ^ order) p ∧ pmm_wf s' ∧
     free_pages_count s' = free_pages_count s - 2 ^ order ∧
     ∀ q, used_bit (early_bitmap s') q = in_run p (2 ^ order) q || used_bit (early_bitmap s) q) ∨
  (pmm_alloc_pages order s = Some (s, 0) ∧ no_run (early_bitmap s) (2 ^ order) NPAGES).
Proof. apply alloc_pages_early. Qed.

(** Giving back what pmm_alloc_pages returned restores the bitmap and the
    free count, whatever the order. *)
Theorem pmm_alloc_free_roundtrip order s s' a :
  pmm_wf s → 0 ≤ order ≤ MAX_ORDER → pmm_alloc_pages order s = Some (s', a) → a ≠ 0 →
  ∃ s'', pmm_free_pages a order s' = Some s'' ∧ pmm_equiv s'' s.
Proof.
  intros Hwf Ho E Ha.
  destruct (alloc_pages_early _ _ Hwf Ho) as [(p & t & E' & (H0 & Hp & Hfree & _) & Hwf' & Hc & Hb)|[E' _]];
    rewrite E' in E; simplify_eq.
  destruct (free_pages_early order p s' Hwf' Ho H0 Hp) as (s'' & Ef & Hwf'' & Hc' & Hb').
  { intros q Hq. rewrite Hb. unfold in_run. repeat zcase; cbn; done || lia. }
  exists s''. split; [done|]. split.
  - intros q. rewrite Hb', Hb. destruct (in_run p (2 ^ order) q) eqn:Eq; cbn; [|done].
    symmetry. apply Hfree. unfold in_run in Eq. zbool. lia.
  - destruct Hwf, Hwf''. repeat split; (congruence || lia).
Qed.

(** ** The blocks handed out *)

Definition block_bytes (order : Z) : Z := 2 ^ order * PAGE_SIZE.

Definition owned_pages (own : gmap Z Z) : Z := map_fold (λ _ o acc, 2 ^ o + acc) 0 own.

Record pmm_owns (k0 k1 : Z) (s : pmm) (own : gmap Z Z) : Prop := {
  po_wf : pmm_wf s;
  po_kernel : run_is true (early_bitmap s) k0 (k1 - k0);
  po_block a o : own !! a = Some o →
    0 ≤ o ≤ MAX_ORDER ∧ ∃ p, a = page_addr p ∧ 0 ≤ p ∧ p + 2 ^ o ≤ NPAGES ∧
    run_is true (early_bitmap s) p (2 ^ o) ∧ (p + 2 ^ o ≤ k0 ∨ k1 ≤ p);
  po_disjoint a b o k : a ≠ b → own !! a = Some o → own !! b = Some k →
    a + block_bytes o ≤ b ∨ b + block_bytes k ≤ a;
  po_count : free_pages_count s + owned_pages own = NPAGES - (k1 - k0)
}.

Lemma owned_pages_insert own a o :
  own !! a = None → owned_pages (<[a := o]> own) = 2 ^ o + owned_pages own.
Proof. intros. unfold owned_pages. rewrite map_fold_insert_L; [done|intros; lia|done]. Qed.

Lemma owned_pages_delete own a o :
  own !! a = Some o → owned_pages own = 2 ^ o + owned_pages (delete a own).
Proof. intros. unfold owned_pages. rewrite (map_fold_delete_L _ _ a o); [done|intros; lia|done]. Qed.

(** A free run meets no run that is in use. *)
Lemma runs_disjoint bm p n q m :
  0 < n → 0 < m → run_is false bm p n → run_is true bm q m → p + n ≤ q ∨ q + m ≤ p.
Proof.
  intros Hn Hm Hf Hu. destruct (decide (p + n ≤ q)); [by left|].
  destruct (decide (q + m ≤ p)); [by right|].
  pose proof (Hf (p `max` q)) as A. pose proof (Hu (p `max` q)) as B.
  rewrite A in B by lia. discriminate B; lia.
Qed.

Lemma pmm_owns_alloc k0 k1 s own order :
  pmm_owns k0 k1 s own → k0 < k1 → 0 ≤ order ≤ MAX_ORDER →
  ∃ s' a, pmm_alloc_pages order s = Some (s', a) ∧
    ((a = 0 ∧ s' = s) ∨
     (a ≠ 0 ∧ own !! a = None ∧ pmm_owns k0 k1 s' (<[a := order]> own))).
Proof.
  intros [Hwf Hk Hb Hd Hcnt] Hk01 Ho.
  destruct (alloc_pages_early _ _ Hwf Ho)
    as [(p & s' & E & (H0 & Hp & Hfree & _) & Hwf' & Hc & Hbit)|[E _]]; [|by eauto 10].
  assert (0 < 2 ^ order) as Hpos by lia.
  assert (∀ q m, run_is true (early_bitmap s) q m → run_is true (early_bitmap s') q m) as Hmono.
  { intros q m Hr x Hx. by rewrite Hbit, Hr, orb_true_r. }
  assert (∀ b k, own !! b = Some k → page_addr p + block_bytes order ≤ b ∨ b + block_bytes k ≤ page_addr p) as Hsep.
  { intros b k Hbk. destruct (Hb _ _ Hbk) as (Hk' & q & -> & Hq0 & Hq1 & Hq & _).
    assert (0 < 2 ^ k) by lia. unfold page_addr, block_bytes, PAGE_SIZE.
    destruct (runs_disjoint _ _ _ _ _ Hpos ltac:(done) Hfree Hq); lia. }
  assert (own !! page_addr p = None) as Hfresh.
  { destruct (own !! page_addr p) as [k|] eqn:Ek; [|done]. destruct (Hb _ _ Ek) as (? & _).
    destruct (Hsep _ _ Ek); unfold block_bytes, PAGE_SIZE in *; lia. }
  exists s', (page_addr p). split; [done|]. right.
  split; [unfold page_addr, MEMORY_BASE, PAGE_SIZE; lia|]. split; [done|]. split.
  - done.
  - by apply Hmono.
  - intros a o. rewrite lookup_insert. case_decide as Ea.
    + intros [= <-]. subst a. split; [done|]. exists p. repeat split; try done.
      * intros q Hq. rewrite Hbit. unfold in_run. repeat zcase; cbn; done || lia.
      * destruct (runs_disjoint _ _ _ k0 (k1 - k0) Hpos ltac:(lia) Hfree Hk); lia.
    + intros Hao. destruct (Hb _ _ Hao) as (? & q & ? & ? & ? & ? & ?).
      split; [done|]. exists q. auto 10.
  - intros a b o k Hab. rewrite !lookup_insert. do 2 case_decide; simplify_eq; intros; simplify_eq.
    + by apply Hsep.
    + destruct (Hsep _ _ ltac:(eassumption)); lia.
    + by eapply Hd.
  - rewrite owned_pages_insert by done. lia.
Qed.

Lemma pmm_owns_free k0 k1 s own a o :
  pmm_owns k0 k1 s own → own !! a = Some o →
  ∃ s', pmm_free_pages a o s = Some s' ∧ pmm_owns k0 k1 s' (delete a own).
Proof.
  intros [Hwf Hk Hb Hd Hcnt] Ha.
  destruct (Hb _ _ Ha) as (Ho & p & -> & H0 & Hp & Hrun & Hpk).
  assert (0 < 2 ^ o) as Hpos by lia.
  destruct (free_pages_early o p s Hwf Ho H0 Hp Hrun) as (s' & E & Hwf' & Hc & Hbit).
  assert (∀ q m, run_is true (early_bitmap s) q m → p + 2 ^ o ≤ q ∨ q + m ≤ p →
                 run_is true (early_bitmap s') q m) as Hkeep.
  { intros q m Hr Hsep x Hx. rewrite Hbit, Hr by done.
    unfold in_run. repeat zcase; cbn; done || lia. }
  exists s'. split; [done|]. split.
  - done.
  - apply Hkeep; [done|lia].
  - intros b k. rewrite lookup_delete_Some. intros [Hne Hbk].
    destruct (Hb _ _ Hbk) as (Hk' & q & -> & ? & ? & Hq & ?).
    split; [done|]. exists q. repeat split; try done. apply Hkeep; [done|].
    destruct (Hd _ _ _ _ Hne Ha Hbk); unfold page_addr, block_bytes, PAGE_SIZE in *; lia.
  - intros b c o' k Hbc. rewrite !lookup_delete_Some. intros [_ ?] [_ ?]. by eapply Hd.
  - pose proof (owned_pages_delete _ _ _ Ha). lia.
Qed.

(** ** Runs of the allocator *)

Inductive pmm_run (ks ke : Z) : pmm → gmap Z Z → Prop :=
| pmm_run_init s : pmm_init ks ke pmm_bss = (s, 0) → pmm_run ks ke s ∅
| pmm_run_alloc s own s' a order :
    pmm_run ks ke s own → 0 ≤ order ≤ MAX_ORDER →
    pmm_alloc_pages order s = Some (s', a) → a ≠ 0 →
    pmm_run ks ke s' (<[a := order]> own)
| pmm_run_fail s own s' order :
    pmm_run ks ke s own → 0 ≤ order ≤ MAX_ORDER →
    pmm_alloc_pages order s = Some (s', 0) → pmm_run ks ke s' own
| pmm_run_free s own s' a order :
    pmm_run ks ke s own → own !! a = Some order →
    pmm_free_pages a order s = Some s' → pmm_run ks ke s' (delete a own).

Lemma clear_upto_in_run n bm k0 k1 :
  0 ≤ k0 ≤ k1 → k1 ≤ Z.of_nat n → (∀ q, used_bit bm q = in_run k0 (k1 - k0) q) →
  clear_upto n bm = Z.of_nat n - (k1 - k0).
Proof.
  intros Hk Hn Hbit.
  assert (∀ m : nat, clear_upto m bm =
    Z.of_nat m - (Z.min (Z.of_nat m) k1 - Z.min (Z.of_nat m) k0)) as H; [|rewrite H; lia].
  induction m as [|m IH]; cbn [clear_upto]; [lia|].
  rewrite IH, Hbit. unfold in_run.
  destruct (Z.leb_spec k0 (Z.of_nat m)), (Z.ltb_spec (Z.of_nat m) (k0 + (k1 - k0))); cbn; lia.
Qed.

Lemma pmm_run_owns ks ke s own :
  MEMORY_BASE ≤ ks < ke → ke ≤ MEMORY_BASE + MEMORY_SIZE → pmm_run ks ke s own →
  pmm_owns (kernel_first ks) (kernel_limit ke) s own.
Proof.
  intros Hk He Hrun. destruct (kernel_pages_aligned ks ke Hk He) as (_ & _ & Hr & Hl).
  induction Hrun as [s E|s own s' a order _ IH Ho E Ha|s own s' order _ IH Ho E|s own s' a order _ IH Ha E].
  - destruct (pmm_init_spec ks ke Hk He) as (s0 & E0 & Hwf & Hb & _).
    rewrite E0 in E. simplify_eq. split; [done| |done|done|].
    + intros q Hq. rewrite Hb. unfold in_run. repeat zcase; cbn; done || lia.
    + assert (Z.of_nat (Z.to_nat NPAGES) = NPAGES) as HN by (apply Z2Nat.id; discriminate).
      pose proof (wf_count _ Hwf) as Hc. revert HN Hc. generalize (Z.to_nat NPAGES).
      intros n HN Hc. rewrite (clear_upto_in_run n _ (kernel_first ks) (kernel_limit ke)) in Hc
        by (exact Hb || lia).
      change (owned_pages ∅) with 0. lia.
  - destruct (pmm_owns_alloc _ _ _ _ order IH ltac:(lia) Ho) as (? & ? & E' & Hor).
    rewrite E' in E. simplify_eq. destruct Hor as [[-> _]|(_ & _ & ?)]; done.
  - destruct (pmm_owns_alloc _ _ _ _ order IH ltac:(lia) Ho) as (? & ? & E' & Hor).
    rewrite E' in E. simplify_eq. destruct Hor as [[_ ->]|(? & _ & ?)]; done.
  - destruct (pmm_owns_free _ _ _ _ _ _ IH Ha) as (? & E' & ?). rewrite E' in E. by simplify_eq.
Qed.

(** C8: from boot on, under any sequence of pmm_alloc_pages calls and of
    pmm_free_pages calls on blocks that were returned and not yet freed, the
    blocks are inside memory, do not overlap each other or the kernel image,
    the free count is exactly the memory minus the kernel and the blocks, and
    the next call of either kind returns. *)
Theorem pmm_run_safe ks ke s own :
  MEMORY_BASE ≤ ks < ke → ke ≤ MEMORY_BASE + MEMORY_SIZE → pmm_run ks ke s own →
  (∀ a o, own !! a = Some o →
     MEMORY_BASE ≤ a ∧ a + block_bytes o ≤ MEMORY_BASE + MEMORY_SIZE ∧
     (a + block_bytes o ≤ ks ∨ ke ≤ a)) ∧
  (∀ a b o k, a ≠ b → own !! a = Some o → own !! b = Some k →
     a + block_bytes o ≤ b ∨ b + block_bytes k ≤ a) ∧
  free_pages_count s + owned_pages own = NPAGES - (kernel_limit ke - kernel_first ks) ∧
  (∀ order, 0 ≤ order ≤ MAX_ORDER → is_Some (pmm_alloc_pages order s)) ∧
  (∀ a o, own !! a = Some o → is_Some (pmm_free_pages a o s)).
Proof.
  intros Hk He Hrun. pose proof (pmm_run_owns _ _ _ _ Hk He Hrun) as Hown.
  destruct (kernel_pages_aligned ks ke Hk He) as (_ & _ & Hr & Hl).
  repeat split.
  - destruct (po_block _ _ _ _ Hown _ _ H) as (_ & p & -> & ? & _).
    unfold page_addr, PAGE_SIZE; lia.
  - destruct (po_block _ _ _ _ Hown _ _ H) as (_ & p & -> & ? & Hp & _).
    change NPAGES with 65536 in *. unfold page_addr, block_bytes, PAGE_SIZE, MEMORY_SIZE; lia.
  - destruct (po_block _ _ _ _ Hown _ _ H) as (_ & p & -> & ? & Hp & _ & Hpk).
    unfold page_addr, block_bytes, kernel_first, kernel_limit, PAGE_SIZE, MEMORY_BASE in *.
    destruct Hpk; [left|right]; lia_mod.
  - apply Hown.
  - apply Hown.
  - intros order Ho. destruct (pmm_owns_alloc _ _ _ _ order Hown ltac:(lia) Ho) as (? & ? & -> & _).
    by eexists.
  - intros a o Ha. destruct (pmm_owns_free _ _ _ _ _ _ Hown Ha) as (? & -> & _). by eexists.
Qed.

(** ** The interface *)

Definition pages_out (s : pmm) (P : gset Z) : Prop :=
  pmm_wf s ∧ ∀ a, a ∈ P → ∃ p, a = page_addr p ∧ 0 ≤ p < NPAGES ∧ used_bit (early_bitmap s) p = true.

Lemma pages_out_alloc s P :
  pages_out s P →
  ∃ s' p, pmm_alloc_page s = Some (s', p) ∧
    ((p = 0 ∧ pages_out s' P) ∨
     (0 < p < 2 ^ 40 ∧ p `mod` PAGE_SIZE = 0 ∧ (p ∉ P) ∧ pages_out s' ({[p]} ∪ P))).
Proof.
  intros [Hwf HP]. unfold pmm_alloc_page.
  destruct (alloc_pages_early 0 s Hwf ltac:(done))
    as [(p & s' & E & (H0 & Hp & Hfree & _) & Hwf' & _ & Hbit)|[E _]].
  2: { exists s, 0. split; [done|]. left. by split. }
  change (2 ^ 0) with 1 in *. change NPAGES with 65536 in *.
  exists s', (page_addr p). split; [done|]. right.
  split; [unfold page_addr, MEMORY_BASE, PAGE_SIZE; lia|]. split; [|split].
  - unfold page_addr, PAGE_SIZE. rewrite Z.mod_add by lia. done.
  - intros Hin. destruct (HP _ Hin) as (q & Eq & Hq & Hu).
    assert (q = p) as -> by (unfold page_addr, PAGE_SIZE in Eq; lia).
    by rewrite Hfree in Hu by lia.
  - split; [done|]. intros a [->%elem_of_singleton|Ha]%elem_of_union.
    + exists p. split; [done|]. split; [change NPAGES with 65536; lia|].
      rewrite Hbit. unfold in_run. repeat zcase; cbn; done || lia.
    + destruct (HP _ Ha) as (q & -> & Hq & Hu). exists q. by rewrite Hbit, Hu, orb_true_r.
Qed.

Lemma pages_out_free s P p :
  pages_out s P → p ∈ P →
  ∃ s', pmm_free_page p s = Some s' ∧ pages_out s' (P ∖ {[p]}).
Proof.
  intros [Hwf HP] Hin. destruct (HP _ Hin) as (q & -> & Hq & Hu).
  destruct (free_pages_early 0 q s Hwf ltac:(done) ltac:(lia) ltac:(change (2 ^ 0) with 1; lia))
    as (s' & E & Hwf' & _ & Hbit).
  { intros x Hx. change (2 ^ 0) with 1 in Hx. by replace x with q by lia. }
  exists s'. split; [done|]. split; [done|].
  intros a [Ha Hne]%elem_of_difference. destruct (HP _ Ha) as (r & -> & Hr & Hur).
  exists r. split; [done|]. split; [done|]. rewrite Hbit, Hur, andb_true_r.
  change (2 ^ 0) with 1. unfold in_run.
  destruct (decide (r = q)) as [->|]; [set_solver|]. repeat zcase; cbn; done || lia.
Qed.

(** Blocks of several pages do not disturb the single pages handed out. *)
Lemma pages_out_alloc_pages order s P :
  pages_out s P → 0 ≤ order ≤ MAX_ORDER →
  ∃ s' a, pmm_alloc_pages order s = Some (s', a) ∧ pages_out s' P.
Proof.
  intros [Hwf HP] Ho.
  destruct (alloc_pages_early order s Hwf Ho) as [(p & s' & E & _ & Hwf' & _ & Hbit)|[E _]].
  - exists s', (page_addr p). split; [done|]. split; [done|]. intros a Ha.
    destruct (HP a Ha) as (q & -> & Hq & Hu). exists q. by rewrite Hbit, Hu, orb_true_r.
  - exists s, 0. split; [done|]. by split.
Qed.

#[export] Instance page_allocator : PageAllocator pmm := {
  pa_alloc := pmm_alloc_page;
  pa_free := pmm_free_page;
  pa_inv := pages_out;
  pa_alloc_ok := pages_out_alloc;
  pa_free_ok := pages_out_free
}.

(** ** Concrete runs *)

(** A kernel image of 1.5 MB loaded 512 KB above the start of memory. *)
Definition boot_pmm : pmm := fst (pmm_init 0x40080000 0x40200000 pmm_bss).

Lemma boot_pmm_eq : pmm_init 0x40080000 0x40200000 pmm_bss = (boot_pmm, 0).
Proof.
  destruct (pmm_init_spec 0x40080000 0x40200000) as (s & E & _); [done|done|].
  unfold boot_pmm. by rewrite E.
Qed.

Lemma boot_pmm_wf : pmm_wf boot_pmm.
Proof.
  destruct (pmm_init_spec 0x40080000 0x40200000) as (s & E & Hwf & _); [done|done|].
  unfold boot_pmm. by rewrite E.
Qed.

(** The state after allocating four pages. *)
Definition boot_pmm4 : pmm := fst (default (pmm_bss, 0) (pmm_alloc_pages 2 boot_pmm)).

Lemma boot_pmm4_eq : pmm_alloc_pages 2 boot_pmm = Some (boot_pmm4, MEMORY_BASE).
Proof. vm_compute. reflexivity. Qed.

Lemma pmm_alloc_first_fit_witness :
  (∃ p s', pmm_alloc_pages 9 boot_pmm = Some (s', page_addr p) ∧
     lowest_run (early_bitmap boot_pmm) (2 ^ 9) p ∧ pmm_wf s' ∧
     free_pages_count s' = free_pages_count boot_pmm - 2 ^ 9 ∧
     ∀ q, used_bit (early_bitmap s') q = in_run p (2 ^ 9) q || used_bit (early_bitmap boot_pmm) q) ∨
  (pmm_alloc_pages 9 boot_pmm = Some (boot_pmm, 0) ∧
   no_run (early_bitmap boot_pmm) (2 ^ 9) NPAGES).
Proof. apply (pmm_alloc_first_fit 9 boot_pmm); [apply boot_pmm_wf|done]. Defined.

Lemma pmm_alloc_free_roundtrip_witness :
  ∃ s'', pmm_free_pages MEMORY_BASE 2 boot_pmm4 = Some s'' ∧ pmm_equiv s'' boot_pmm.
Proof.
  apply (pmm_alloc_free_roundtrip 2 boot_pmm boot_pmm4 MEMORY_BASE);
    [apply boot_pmm_wf|done|apply boot_pmm4_eq|done].
Defined.

Lemma boot_pmm4_run : pmm_run 0x40080000 0x40200000 boot_pmm4 {[MEMORY_BASE := 2]}.
Proof.
  eapply pmm_run_alloc; [apply pmm_run_init, boot_pmm_eq|done|apply boot_pmm4_eq|done].
Qed.

Lemma pmm_run_safe_witness :
  free_pages_count boot_pmm4 + owned_pages {[MEMORY_BASE := 2]}
  = NPAGES - (kernel_limit 0x40200000 - kernel_first 0x40080000).
Proof.
  apply (pmm_run_safe 0x40080000 0x40200000 boot_pmm4 {[MEMORY_BASE := 2]});
    [done|done|apply boot_pmm4_run].
Defined.

(** The buddy lists, which the kernel never switches to, are not safe: the
    merge in pmm_free_pages leaves the merged buddy on its free list.  After
    the two halves of a block are freed, the whole block and then its first
    page are both handed out, at the same address. *)
Definition buddy_state : pmm :=
  mk_pmm ∅ (Some (list_to_map ((λ i, (i, mk_page PAGE_FLAG_USED 0 None)) <$> seqZ 0 8)))
    8 0 (8 * PAGE_SIZE) MEMORY_BASE (MEMORY_BASE + 8 * PAGE_SIZE) ∅ false.

Lemma buddy_merge_double_allocation :
  ∃ s1 s2 s3 s4,
    pmm_free_pages (page_addr 0) 0 buddy_state = Some s1 ∧
    pmm_free_pages (page_addr 1) 0 s1 = Some s2 ∧
    pmm_alloc_pages 1 s2 = Some (s3, page_addr 0) ∧
    pmm_alloc_pages 0 s3 = Some (s4, page_addr 0).
Proof. do 4 eexists. repeat split; vm_compute; reflexivity. Qed.
