(* ===== verification/Vmm.v ===== *)
(** * kernel/mm/vmm.c: page tables and address spaces

    The model is of the page-table code, which is shared by the
    architectures and active on ARM64.  A page table is the 512 words of a
    page; [tables] maps the address of a table and an index to the word
    stored there (absent = 0).  Table pointers are page aligned (they come
    out of pte_to_phys, which masks the low bits, or from the static aligned
    arrays), so two different pairs are two different words.

    The physical allocator is used through [PageAllocator]; the addresses of
    the static arrays [kernel_pgd] and [early_tables] are chosen by the
    linker and are parameters.  A [struct mm_struct *] and a [struct vm_area *]
    are indices into the static pools.  Writing the system registers and
    flushing the TLB have no effect on this state. *)

From S2P Require Import Prelude PageAlloc Pmm.

(** ** Constants (mm/vmm.h) *)

Definition VMM_ENTRIES : Z := 512.
Definition VMM_LEVEL0_SHIFT : Z := 39.
Definition VMM_LEVEL1_SHIFT : Z := 30.
Definition VMM_LEVEL2_SHIFT : Z := 21.
Definition VMM_LEVEL3_SHIFT : Z := 12.

Definition PTE_VALID : Z := Z.shiftl 1 0.
Definition PTE_TABLE : Z := Z.shiftl 1 1.
Definition PTE_BLOCK : Z := Z.shiftl 0 1.
Definition PTE_PAGE : Z := Z.shiftl 1 1.
Definition PTE_USER : Z := Z.shiftl 1 6.
Definition PTE_RDONLY : Z := Z.shiftl 1 7.
Definition PTE_ACCESSED : Z := Z.shiftl 1 10.
Definition PTE_ATTR_NORMAL : Z := Z.shiftl 0 2.
Definition PTE_ATTR_DEVICE : Z := Z.shiftl 1 2.
Definition PTE_SH_NONE : Z := Z.shiftl 0 8.
Definition PTE_SH_INNER : Z := Z.shiftl 3 8.
Definition PTE_UXN : Z := Z.shiftl 1 54.
Definition PTE_PXN : Z := Z.shiftl 1 53.
Definition PTE_ADDR_MASK : Z := 0x0000FFFFFFFFF000.

Definition VM_READ : Z := 1.
Definition VM_WRITE : Z := 2.
Definition VM_EXEC : Z := 4.
Definition VM_USER : Z := 8.
Definition VM_DEVICE : Z := 32.

Definition USER_VMA_END : Z := 0x0000800000000000.

(** [flags & bit] as a condition. *)
Definition has (flags bit : Z) : bool := negb (Z.land flags bit =? 0).

(** ** Helper functions *)

(** The callers pass a level of 0..3. *)
Definition pte_index (vaddr level : Z) : Z :=
  if level =? 0 then Z.land (Z.shiftr vaddr VMM_LEVEL0_SHIFT) (VMM_ENTRIES - 1)
  else if level =? 1 then Z.land (Z.shiftr vaddr VMM_LEVEL1_SHIFT) (VMM_ENTRIES - 1)
  else if level =? 2 then Z.land (Z.shiftr vaddr VMM_LEVEL2_SHIFT) (VMM_ENTRIES - 1)
  else if level =? 3 then Z.land (Z.shiftr vaddr VMM_LEVEL3_SHIFT) (VMM_ENTRIES - 1)
  else -1.

Definition pte_is_valid (pte : Z) : bool := has pte PTE_VALID.

Definition pte_is_table (pte : Z) : bool :=
  Z.land pte (Z.lor PTE_VALID PTE_TABLE) =? Z.lor PTE_VALID PTE_TABLE.

Definition pte_to_phys (pte : Z) : Z := Z.land pte PTE_ADDR_MASK.

Definition phys_to_pte (paddr flags : Z) : Z := Z.lor (Z.land paddr PTE_ADDR_MASK) flags.

Definition vm_flags_to_pte (flags : Z) : Z :=
  let pte_flags := Z.lor (Z.lor PTE_VALID PTE_TABLE) PTE_ACCESSED in
  let pte_flags :=
    if has flags VM_DEVICE then Z.lor pte_flags (Z.lor PTE_ATTR_DEVICE PTE_SH_NONE)
    else Z.lor pte_flags (Z.lor PTE_ATTR_NORMAL PTE_SH_INNER) in
  let pte_flags := if has flags VM_USER then Z.lor pte_flags PTE_USER else pte_flags in
  let pte_flags := if negb (has flags VM_WRITE) then Z.lor pte_flags PTE_RDONLY else pte_flags in
  if negb (has flags VM_EXEC) then
    if has flags VM_USER then Z.lor pte_flags PTE_UXN else Z.lor pte_flags PTE_PXN
  else pte_flags.

(** ** State *)

Record vm_area := mk_vma {
  vma_start : Z;
  vma_end : Z;
  vma_flags : Z;
  vma_next : option Z
}.

(** The segment bounds of the structure are not used by this file. *)
Record mm_struct := mk_mm {
  mm_pgd : option Z;
  mm_vma_list : option Z;
  mm_total_vm : Z;
  mm_users : Z
}.

Record vmm (S : Type) := mk_vmm {
  tables : gmap (Z * Z) Z;
  early_table_index : Z;
  pages : S;
  mm_pool : gmap Z mm_struct;
  mm_index : Z;
  vma_pool : gmap Z vm_area;
  vma_index : Z
}.
Arguments mk_vmm {S}.
Arguments tables {S}.
Arguments early_table_index {S}.
Arguments pages {S}.
Arguments mm_pool {S}.
Arguments mm_index {S}.
Arguments vma_pool {S}.
Arguments vma_index {S}.

Definition EARLY_TABLES_COUNT : Z := 4.

(** [table[i]] *)
Definition entry (tm : gmap (Z * Z) Z) (t i : Z) : Z := default 0 (tm !! (t, i)).

(** [for (i = lo; i < lo + n; i++) table[i] = f(i)] *)
Fixpoint fill_entries (n : nat) (t i : Z) (f : Z → Z) (tm : gmap (Z * Z) Z) : gmap (Z * Z) Z :=
  match n with
  | O => tm
  | S n' => fill_entries n' t (i + 1) f (<[(t, i) := f i]> tm)
  end.

(** The 1 GB block entries of vmm_init: device memory and RAM. *)
Definition dev_block (a : Z) : Z :=
  Z.lor (Z.lor (Z.lor (Z.lor (Z.lor (Z.land a PTE_ADDR_MASK)
    PTE_VALID) PTE_BLOCK) PTE_ATTR_DEVICE) PTE_SH_NONE) PTE_ACCESSED.
Definition ram_block (a : Z) : Z :=
  Z.lor (Z.lor (Z.lor (Z.lor (Z.lor (Z.land a PTE_ADDR_MASK)
    PTE_VALID) PTE_BLOCK) PTE_ATTR_NORMAL) PTE_SH_INNER) PTE_ACCESSED.

Section Vmm.
Context {S : Type} `{!PageAllocator S}.
Context (kernel_pgd early_tables : Z).

Implicit Types s : vmm S.

Definition with_tables (tm : gmap (Z * Z) Z) s : vmm S :=
  mk_vmm tm (early_table_index s) (pages s) (mm_pool s) (mm_index s) (vma_pool s) (vma_index s).
Definition with_early (i : Z) s : vmm S :=
  mk_vmm (tables s) i (pages s) (mm_pool s) (mm_index s) (vma_pool s) (vma_index s).
Definition with_pages (p : S) s : vmm S :=
  mk_vmm (tables s) (early_table_index s) p (mm_pool s) (mm_index s) (vma_pool s) (vma_index s).
Definition with_mm (mp : gmap Z mm_struct) (mi : Z) s : vmm S :=
  mk_vmm (tables s) (early_table_index s) (pages s) mp mi (vma_pool s) (vma_index s).
Definition with_vma (vp : gmap Z vm_area) (vi : Z) s : vmm S :=
  mk_vmm (tables s) (early_table_index s) (pages s) (mm_pool s) (mm_index s) vp vi.

(** [&early_tables[i]] *)
Definition early_table (i : Z) : Z := early_tables + i * PAGE_SIZE.

Definition alloc_page_table s : option (vmm S * option Z) :=
  if early_table_index s <? EARLY_TABLES_COUNT then
    let table := early_table (early_table_index s) in
    let s := with_early (early_table_index s + 1) s in
    Some (with_tables (fill_entries 512 table 0 (λ _, 0) (tables s)) s, Some table)
  else
    r ← pa_alloc (pages s);
    let '(ps, paddr) := r in
    let s := with_pages ps s in
    if paddr =? 0 then Some (s, None)
    else Some (with_tables (fill_entries 512 paddr 0 (λ _, 0) (tables s)) s, Some paddr).

(** [walk_loop n level table]: the iterations of the loop of walk_page_table
    from [level] on, [n] of them. *)
Fixpoint walk_loop (n : nat) (level table vaddr : Z) (allocate : bool) s
  : option (vmm S * option Z) :=
  match n with
  | O => Some (s, Some table)
  | Datatypes.S n' =>
      let idx := pte_index vaddr level in
      let pte := entry (tables s) table idx in
      if negb (pte_is_valid pte) then
        if negb allocate then Some (s, None)
        else
          r ← alloc_page_table s;
          match r with
          | (s, None) => Some (s, None)
          | (s, Some new_table) =>
              let s := with_tables (<[(table, idx) :=
                         phys_to_pte new_table (Z.lor PTE_VALID PTE_TABLE)]> (tables s)) s in
              walk_loop n' (level + 1) new_table vaddr allocate s
          end
      else if pte_is_table pte then walk_loop n' (level + 1) (pte_to_phys pte) vaddr allocate s
      else Some (s, None)
  end.

Definition walk_page_table (pgd vaddr : Z) (allocate : bool) s : option (vmm S * option Z) :=
  walk_loop 3 0 pgd vaddr allocate s.

(** ** vmm_init (ARM64) *)

Definition vmm_init s : option (vmm S * Z) :=
  let idx0 := pte_index 0 0 in
  r ← alloc_page_table s;
  match r with
  | (s, None) => Some (s, -1)
  | (s, Some l1_table) =>
      let tm := <[(kernel_pgd, idx0) :=
                  phys_to_pte l1_table (Z.lor PTE_VALID PTE_TABLE)]> (tables s) in
      let tm := <[(l1_table, 0) := dev_block 0x00000000]> tm in
      let tm := <[(l1_table, 1) := ram_block 0x40000000]> tm in
      let tm := <[(l1_table, 256) := dev_block 0x4000000000]> tm in
      Some (with_tables tm s, 0)
  end.

(** ** Kernel mappings *)

Definition vmm_map_page (vaddr paddr flags : Z) s : option (vmm S * Z) :=
  r ← walk_page_table kernel_pgd vaddr true s;
  match r with
  | (s, None) => Some (s, -1)
  | (s, Some pte_table) =>
      let idx := pte_index vaddr 3 in
      if pte_is_valid (entry (tables s) pte_table idx) then Some (s, -1)
      else
        let pte_flags := vm_flags_to_pte flags in
        Some (with_tables (<[(pte_table, idx) := phys_to_pte paddr pte_flags]> (tables s)) s, 0)
  end.

Definition vmm_unmap_page (vaddr : Z) s : option (vmm S * Z) :=
  r ← walk_page_table kernel_pgd vaddr false s;
  match r with
  | (s, None) => Some (s, -1)
  | (s, Some pte_table) =>
      let idx := pte_index vaddr 3 in
      if negb (pte_is_valid (entry (tables s) pte_table idx)) then Some (s, -1)
      else Some (with_tables (<[(pte_table, idx) := 0]> (tables s)) s, 0)
  end.

(** [for (offset = ...; offset < size; offset += PAGE_SIZE)]; every iteration
    adds a page, so the fuel of the callers, the number of pages, is enough. *)
Fixpoint unmap_loop (fuel : nat) (vaddr offset size : Z) s : option (vmm S) :=
  match fuel with
  | O => Some s
  | Datatypes.S fuel' =>
      if offset <? size then
        r ← vmm_unmap_page (u64 (vaddr + offset)) s;
        unmap_loop fuel' vaddr (u64 (offset + PAGE_SIZE)) size (fst r)
      else Some s
  end.

Definition vmm_unmap_range (vaddr size : Z) s : option (vmm S * Z) :=
  let vaddr := ALIGN_DOWN vaddr PAGE_SIZE in
  let size := u64 (ALIGN size PAGE_SIZE) in
  s ← unmap_loop (Z.to_nat (size / PAGE_SIZE)) vaddr 0 size s;
  Some (s, 0).

Fixpoint map_loop (fuel : nat) (vaddr paddr offset size flags : Z) s : option (vmm S * Z) :=
  match fuel with
  | O => Some (s, 0)
  | Datatypes.S fuel' =>
      if offset <? size then
        r ← vmm_map_page (u64 (vaddr + offset)) (u64 (paddr + offset)) flags s;
        let '(s, ret) := r in
        if ret <? 0 then
          r ← vmm_unmap_range vaddr offset s;
          Some (fst r, ret)
        else map_loop fuel' vaddr paddr (u64 (offset + PAGE_SIZE)) size flags s
      else Some (s, 0)
  end.

Definition vmm_map_range (vaddr paddr size flags : Z) s : option (vmm S * Z) :=
  let vaddr := ALIGN_DOWN vaddr PAGE_SIZE in
  let paddr := ALIGN_DOWN paddr PAGE_SIZE in
  let size := u64 (ALIGN size PAGE_SIZE) in
  map_loop (Z.to_nat (size / PAGE_SIZE)) vaddr paddr 0 size flags s.

Definition vmm_virt_to_phys (vaddr : Z) s : option (vmm S * Z) :=
  r ← walk_page_table kernel_pgd vaddr false s;
  match r with
  | (s, None) => Some (s, 0)
  | (s, Some pte_table) =>
      let idx := pte_index vaddr 3 in
      let pte := entry (tables s) pte_table idx in
      if negb (pte_is_valid pte) then Some (s, 0)
      else Some (s, Z.lor (pte_to_phys pte) (Z.land vaddr (PAGE_SIZE - 1)))
  end.

(** ** Address spaces *)

Definition vmm_create_address_space s : option (vmm S * option Z) :=
  if 64 <=? mm_index s then Some (s, None)
  else
    let mm := mm_index s in
    let old := default (mk_mm None None 0 0) (mm_pool s !! mm) in
    let s := with_mm (mm_pool s) (mm_index s + 1) s in
    r ← alloc_page_table s;
    match r with
    | (s, None) =>
        Some (with_mm (<[mm := mk_mm None (mm_vma_list old) (mm_total_vm old) (mm_users old)]>
                         (mm_pool s)) (mm_index s) s, None)
    | (s, Some pgd) =>
        let s := with_mm (<[mm := mk_mm (Some pgd) None 0 1]> (mm_pool s)) (mm_index s) s in
        let tm := tables s in
        Some (with_tables (fill_entries 256 pgd 256 (λ i, entry tm kernel_pgd i) tm) s, Some mm)
    end.

(** The walk over the VMAs of vmm_destroy_address_space, which frees nothing;
    [None] when a pointer leads outside the pool or the fuel is used up. *)
Fixpoint vma_walk (fuel : nat) (vma : option Z) s : option unit :=
  match fuel with
  | O => None
  | Datatypes.S fuel' =>
      match vma with
      | None => Some ()
      | Some v => a ← vma_pool s !! v; vma_walk fuel' (vma_next a) s
      end
  end.

Definition vmm_destroy_address_space (mm : option Z) s : option (vmm S) :=
  match mm with
  | None => Some s
  | Some m =>
      a ← mm_pool s !! m;
      _ ← vma_walk 257 (mm_vma_list a) s;
      let s := match mm_pgd a with
               | Some pgd => with_tables (fill_entries 256 pgd 0 (λ _, 0) (tables s)) s
               | None => s
               end in
      Some (with_mm (<[m := mk_mm None None (mm_total_vm a) (mm_users a)]> (mm_pool s))
              (mm_index s) s)
  end.

(** One of the three blocks "Walk/create" of vmm_map_user_page: the table
    below [t] at [idx], created when the entry is not valid; an entry that is
    valid is taken to be a table. *)
Definition user_step (t idx : Z) s : option (vmm S * option Z) :=
  if negb (has (entry (tables s) t idx) PTE_VALID) then
    r ← alloc_page_table s;
    match r with
    | (s, None) => Some (s, None)
    | (s, Some l) =>
        let e := Z.lor (Z.lor (Z.land l PTE_ADDR_MASK) PTE_VALID) PTE_TABLE in
        let s := with_tables (<[(t, idx) := e]> (tables s)) s in
        Some (s, Some (Z.land (entry (tables s) t idx) PTE_ADDR_MASK))
    end
  else Some (s, Some (Z.land (entry (tables s) t idx) PTE_ADDR_MASK)).

Definition user_pte_flags (flags : Z) : Z :=
  let f := Z.lor (Z.lor (Z.lor (Z.lor (Z.lor PTE_VALID PTE_PAGE) PTE_USER) PTE_ATTR_NORMAL)
             PTE_SH_INNER) PTE_ACCESSED in
  let f := if negb (has flags VM_WRITE) then Z.lor f PTE_RDONLY else f in
  let f := if negb (has flags VM_EXEC) then Z.lor f PTE_UXN else f in
  Z.lor f PTE_PXN.

Definition vmm_map_user_page (mm : option Z) (vaddr paddr flags : Z) s : option (vmm S * Z) :=
  match mm with
  | None => Some (s, -1)
  | Some m =>
      a ← mm_pool s !! m;
      match mm_pgd a with
      | None => Some (s, -1)
      | Some l0 =>
          if USER_VMA_END <=? vaddr then Some (s, -1)
          else
            let l0_idx := Z.land (Z.shiftr vaddr VMM_LEVEL0_SHIFT) (VMM_ENTRIES - 1) in
            let l1_idx := Z.land (Z.shiftr vaddr VMM_LEVEL1_SHIFT) (VMM_ENTRIES - 1) in
            let l2_idx := Z.land (Z.shiftr vaddr VMM_LEVEL2_SHIFT) (VMM_ENTRIES - 1) in
            let l3_idx := Z.land (Z.shiftr vaddr VMM_LEVEL3_SHIFT) (VMM_ENTRIES - 1) in
            r1 ← user_step l0 l0_idx s;
            match r1 with
            | (s, None) => Some (s, -1)
            | (s, Some l1) =>
                r2 ← user_step l1 l1_idx s;
                match r2 with
                | (s, None) => Some (s, -1)
                | (s, Some l2) =>
                    r3 ← user_step l2 l2_idx s;
                    match r3 with
                    | (s, None) => Some (s, -1)
                    | (s, Some l3) =>
                        let e := Z.lor (Z.land paddr PTE_ADDR_MASK) (user_pte_flags flags) in
                        Some (with_tables (<[(l3, l3_idx) := e]> (tables s)) s, 0)
                    end
                end
            end
      end
  end.

Definition vmm_add_vma (mm : option Z) (start end_ flags : Z) s : option (vmm S * Z) :=
  match mm with
  | None => Some (s, -1)
  | Some m =>
      if 256 <=? vma_index s then Some (s, -1)
      else
        let vma := vma_index s in
        a ← mm_pool s !! m;
        let s := with_vma (<[vma := mk_vma start end_ flags (mm_vma_list a)]> (vma_pool s))
                   (vma + 1) s in
        let a := mk_mm (mm_pgd a) (Some vma) (u64 (mm_total_vm a + u64 (end_ - start))) (mm_users a) in
        Some (with_mm (<[m := a]> (mm_pool s)) (mm_index s) s, 0)
  end.

Fixpoint find_vma_loop (fuel : nat) (vma : option Z) (addr : Z) s : option (option Z) :=
  match fuel with
  | O => None
  | Datatypes.S fuel' =>
      match vma with
      | None => Some None
      | Some v =>
          a ← vma_pool s !! v;
          if (vma_start a <=? addr) && (addr <? vma_end a) then Some (Some v)
          else find_vma_loop fuel' (vma_next a) addr s
      end
  end.

(** The outer option is a failed read or exhausted fuel, the inner one NULL. *)
Definition vmm_find_vma (mm : option Z) (addr : Z) s : option (option Z) :=
  match mm with
  | None => Some None
  | Some m => a ← mm_pool s !! m; find_vma_loop 257 (mm_vma_list a) addr s
  end.

Fixpoint map_user_loop (fuel : nat) (mm : option Z) (addr end_ flags : Z) s
  : option (vmm S * Z) :=
  match fuel with
  | O => Some (s, 0)
  | Datatypes.S fuel' =>
      if addr <? end_ then
        r ← pa_alloc (pages s);
        let '(ps, paddr) := r in
        let s := with_pages ps s in
        if paddr =? 0 then Some (s, -1)
        else
          r ← vmm_map_user_page mm addr paddr flags s;
          let '(s, ret) := r in
          if negb (ret =? 0) then
            ps ← pa_free paddr (pages s);
            Some (with_pages ps s, ret)
          else map_user_loop fuel' mm (u64 (addr + PAGE_SIZE)) end_ flags s
      else Some (s, 0)
  end.

Definition vmm_map_user_range (mm : option Z) (vaddr size flags : Z) s : option (vmm S * Z) :=
  match mm with
  | None => Some (s, -1)
  | Some _ =>
      let end_ := Z.land (u64 (vaddr + size + PAGE_SIZE - 1)) (Z.lnot (PAGE_SIZE - 1)) in
      let vaddr := Z.land vaddr (Z.lnot (PAGE_SIZE - 1)) in
      r ← vmm_add_vma mm vaddr end_ flags s;
      map_user_loop (Z.to_nat ((end_ - vaddr) / PAGE_SIZE)) mm vaddr end_ flags (fst r)
  end.

(** ** Translation *)

(** The level-3 table that walk_page_table, not allocating, ends at: [n] levels
    below [t], through table entries only. *)
Fixpoint walk_ro (n : nat) (level : Z) (tm : gmap (Z * Z) Z) (t vaddr : Z) : option Z :=
  match n with
  | O => Some t
  | Datatypes.S n' =>
      let e := entry tm t (pte_index vaddr level) in
      if pte_is_table e then walk_ro n' (level + 1) tm (pte_to_phys e) vaddr else None
  end.

(** The walk of the hardware from table [t] at [level], [n] levels above the
    last: the level and the entry that translate [vaddr].  An entry that is
    valid and no table is a block at levels 1 and 2 (1 GB and 2 MB); at level 0
    there are no blocks.  At level 3 the code takes every valid entry for a
    page, and writes no other. *)
Fixpoint pte_from (n : nat) (level : Z) (tm : gmap (Z * Z) Z) (t vaddr : Z) : option (Z * Z) :=
  let e := entry tm t (pte_index vaddr level) in
  match n with
  | O => if pte_is_valid e then Some (level, e) else None
  | Datatypes.S n' =>
      if pte_is_table e then pte_from n' (level + 1) tm (pte_to_phys e) vaddr
      else if pte_is_valid e && (0 <? level) then Some (level, e) else None
  end.

Definition pte_of (tm : gmap (Z * Z) Z) (pgd vaddr : Z) : option (Z * Z) := pte_from 3 0 tm pgd vaddr.
#[global] Arguments pte_of : simpl never.

(** A page entry, and the translation with the page entries taken out. *)
Definition page_entry (e : Z) : option (Z * Z) := if pte_is_valid e then Some (3, e) else None.
Definition unpaged (o : option (Z * Z)) : option (Z * Z) :=
  match o with Some (level, e) => if level =? 3 then None else o | None => None end.

(** The four indices of an address, from level [level] on. *)
Fixpoint indices (n : nat) (level vaddr : Z) : list Z :=
  match n with
  | O => []
  | Datatypes.S n' => pte_index vaddr level :: indices n' (level + 1) vaddr
  end.
Definition vpath (vaddr : Z) : list Z := indices 4 0 vaddr.

(** ** Entries *)

Lemma has_bit x k : 0 ≤ k → has x (Z.shiftl 1 k) = Z.testbit x k.
Proof.
  intros Hk. unfold has. rewrite Z.shiftl_1_l.
  destruct (Z.testbit x k) eqn:E.
  - apply negb_true_iff, Z.eqb_neq. intros H0.
    apply (f_equal (λ z, Z.testbit z k)) in H0.
    rewrite Z.land_spec, Z.pow2_bits_true, E, Z.bits_0 in H0 by lia. done.
  - apply negb_false_iff, Z.eqb_eq, Z.bits_inj'. intros j Hj.
    rewrite Z.land_spec, Z.bits_0. destruct (decide (j = k)) as [->|]; [by rewrite E|].
    rewrite Z.pow2_bits_false by lia. apply andb_false_r.
Qed.

Lemma pte_is_valid_bit e : pte_is_valid e = Z.testbit e 0.
Proof. by apply has_bit. Qed.

Lemma pte_is_table_bit e : pte_is_table e = Z.testbit e 0 && Z.testbit e 1.
Proof.
  unfold pte_is_table. change (Z.lor PTE_VALID PTE_TABLE) with (Z.ones 2).
  destruct (Z.testbit e 0 && Z.testbit e 1) eqn:E.
  - apply andb_true_iff in E as [E0 E1]. apply Z.eqb_eq, Z.bits_inj'. intros j Hj.
    rewrite Z.land_spec. destruct (decide (j < 2)).
    + rewrite Z.ones_spec_low by lia. assert (j = 0 ∨ j = 1) as [->| ->] by lia; by rewrite ?E0, ?E1.
    + rewrite Z.ones_spec_high by lia. apply andb_false_r.
  - apply Z.eqb_neq. intros Heq.
    assert (Z.testbit (Z.land e (Z.ones 2)) 0 = true) as A by (by rewrite Heq).
    assert (Z.testbit (Z.land e (Z.ones 2)) 1 = true) as B by (by rewrite Heq).
    rewrite Z.land_spec in A, B. apply andb_true_iff in A as [A _], B as [B _].
    by rewrite A, B in E.
Qed.

Lemma table_is_valid e : pte_is_table e = true → pte_is_valid e = true.
Proof. rewrite pte_is_table_bit, pte_is_valid_bit. by intros [? _]%andb_true_iff. Qed.

Lemma addr_mask_shift : PTE_ADDR_MASK = Z.shiftl (Z.ones 36) 12.
Proof. reflexivity. Qed.

Lemma addr_mask_page p : 0 ≤ p < 2 ^ 48 → p `mod` PAGE_SIZE = 0 → Z.land p PTE_ADDR_MASK = p.
Proof.
  intros Hp Hm. assert (p = Z.shiftl (p / 4096) 12) as E.
  { rewrite Z.shiftl_mul_pow2 by lia. change (2 ^ 12) with 4096.
    unfold PAGE_SIZE in Hm. lia_mod. }
  rewrite E, addr_mask_shift, <- Z.shiftl_land, Z.land_ones by lia.
  f_equal. apply Z.mod_small. split; [apply Z.div_pos; lia|].
  apply Z.div_lt_upper_bound; lia.
Qed.

(** Flags that do not touch the address bits. *)
Lemma pte_to_phys_flags p f :
  Z.land f PTE_ADDR_MASK = 0 → pte_to_phys (phys_to_pte p f) = Z.land p PTE_ADDR_MASK.
Proof.
  intros Hf. unfold pte_to_phys, phys_to_pte.
  rewrite Z.land_lor_distr_l, Hf, Z.lor_0_r, <- Z.land_assoc. by rewrite Z.land_diag.
Qed.

Lemma phys_to_pte_bit p f k : 0 ≤ k < 12 → Z.testbit (phys_to_pte p f) k = Z.testbit f k.
Proof.
  intros Hk. unfold phys_to_pte. rewrite Z.lor_spec, Z.land_spec, addr_mask_shift.
  rewrite (Z.shiftl_spec_low (Z.ones 36)) by lia. by rewrite andb_false_r.
Qed.

Definition table_pte (t : Z) : Z := phys_to_pte t (Z.lor PTE_VALID PTE_TABLE).

Lemma table_pte_is_table t : pte_is_table (table_pte t) = true.
Proof. unfold table_pte. by rewrite pte_is_table_bit, !phys_to_pte_bit by lia. Qed.

Lemma table_pte_phys t :
  0 ≤ t < 2 ^ 48 → t `mod` PAGE_SIZE = 0 → pte_to_phys (table_pte t) = t.
Proof. intros. unfold table_pte. rewrite pte_to_phys_flags by done. by apply addr_mask_page. Qed.

Lemma vm_flags_valid flags :
  Z.testbit (vm_flags_to_pte flags) 0 = true ∧ Z.land (vm_flags_to_pte flags) PTE_ADDR_MASK = 0.
Proof.
  unfold vm_flags_to_pte.
  destruct (has flags VM_DEVICE), (has flags VM_USER), (has flags VM_WRITE), (has flags VM_EXEC);
    by vm_compute.
Qed.

Lemma user_flags_valid flags :
  Z.testbit (user_pte_flags flags) 0 = true ∧ Z.land (user_pte_flags flags) PTE_ADDR_MASK = 0.
Proof.
  unfold user_pte_flags. destruct (has flags VM_WRITE), (has flags VM_EXEC); by vm_compute.
Qed.

Lemma invalid_zero : pte_is_valid 0 = false.
Proof. done. Qed.

Lemma entry_insert tm t i v t' i' :
  entry (<[(t, i) := v]> tm) t' i' = if decide (t' = t ∧ i' = i) then v else entry tm t' i'.
Proof.
  unfold entry. rewrite lookup_insert. do 2 case_decide; naive_solver.
Qed.

Lemma entry_fill n t lo f tm t' i' :
  entry (fill_entries n t lo f tm) t' i' =
  if decide (t' = t ∧ lo ≤ i' < lo + Z.of_nat n) then f i' else entry tm t' i'.
Proof.
  revert lo tm. induction n as [|n IH]; intros lo tm; cbn [fill_entries].
  - rewrite decide_False by lia. done.
  - rewrite IH, entry_insert.
    destruct (decide (t' = t)) as [->|Hne]; [|by rewrite !decide_False by tauto].
    destruct (decide (i' = lo)) as [->|Hi].
    + rewrite decide_False, !decide_True by lia. done.
    + rewrite (decide_False (P := t = t ∧ i' = lo)) by tauto.
      repeat case_decide; done || (exfalso; lia).
Qed.

Lemma pte_index_range va level : 0 ≤ level ≤ 3 → 0 ≤ pte_index va level < 512.
Proof.
  intros Hl. assert (∀ x, 0 ≤ Z.land x (VMM_ENTRIES - 1) < 512) as H.
  { intros x. change (VMM_ENTRIES - 1) with (2 ^ 9 - 1). rewrite land_low_mask by lia.
    apply Z.mod_pos_bound. lia. }
  unfold pte_index. repeat zcase; try apply H. lia.
Qed.

(** ** The tables form a tree

    Every table in use has a place: the address space it belongs to (the
    address of the root, or 0 below the upper half of a root, which address
    spaces share) and the indices that lead to it. *)

Definition table_addr (t : Z) : Prop := 0 < t < 2 ^ 48 ∧ t `mod` PAGE_SIZE = 0.

Definition child_space (sp : Z) (path : list Z) (i : Z) : Z :=
  match path with [] => if 256 <=? i then 0 else sp | _ => sp end.

Record tree (tm : gmap (Z * Z) Z) (role : gmap Z (Z * list Z)) (roots : gset Z) : Prop := {
  tr_root r : r ∈ roots → role !! r = Some (r, []);
  tr_child t sp path i :
    role !! t = Some (sp, path) → (length path < 3)%nat → 0 ≤ i < 512 →
    pte_is_table (entry tm t i) = true →
    role !! pte_to_phys (entry tm t i) = Some (child_space sp path i, path ++ [i]);
  tr_user t sp path i :
    role !! t = Some (sp, path) → (length path < 3)%nat → 0 ≤ i < 512 →
    sp ≠ 0 → sp ≠ kernel_pgd → child_space sp path i = sp →
    pte_is_valid (entry tm t i) = true → pte_is_table (entry tm t i) = true
}.

(** The hardware reaches the table that walk_page_table reaches, or stops at a
    block above it. *)
Lemma pte_from_walk n level tm t va :
  level + Z.of_nat n = 3 →
  match walk_ro n level tm t va with
  | Some l3 => pte_from n level tm t va = page_entry (entry tm l3 (pte_index va 3))
  | None => unpaged (pte_from n level tm t va) = pte_from n level tm t va
  end.
Proof.
  revert level t. induction n as [|n IH]; intros level t Hl; cbn [walk_ro pte_from].
  - assert (level = 3) as -> by lia. done.
  - destruct (pte_is_table _); [apply IH; lia|]. destruct (_ && _); [|done].
    cbn. destruct (Z.eqb_spec level 3); [lia|done].
Qed.

Lemma pte_of_walk tm r va l3 :
  walk_ro 3 0 tm r va = Some l3 → pte_of tm r va = page_entry (entry tm l3 (pte_index va 3)).
Proof. intros E. pose proof (pte_from_walk 3 0 tm r va eq_refl) as H. by rewrite E in H. Qed.

Lemma pte_of_no_walk tm r va : walk_ro 3 0 tm r va = None → unpaged (pte_of tm r va) = pte_of tm r va.
Proof. intros E. pose proof (pte_from_walk 3 0 tm r va eq_refl) as H. by rewrite E in H. Qed.

(** The address space in which [va] is looked up from the root [r]. *)
Definition va_space (r va : Z) : Z := child_space r [] (pte_index va 0).

Lemma walk_ro_place n tm role roots t sp path va t' :
  tree tm role roots → role !! t = Some (sp, path) → (length path + n = 3)%nat →
  walk_ro n (Z.of_nat (length path)) tm t va = Some t' →
  ∃ sp', role !! t' = Some (sp', path ++ indices n (Z.of_nat (length path)) va) ∧
         sp' = match n with
               | O => sp
               | _ => child_space sp path (pte_index va (Z.of_nat (length path)))
               end.
Proof.
  intros Htr. revert t sp path. induction n as [|n IH]; intros t sp path Ht Hlen Hw;
    cbn [walk_ro indices] in *.
  - simplify_eq. rewrite app_nil_r. eauto.
  - destruct (pte_is_table _) eqn:Et; [|done].
    set (i := pte_index va (Z.of_nat (length path))) in *.
    assert (0 ≤ i < 512) by (apply pte_index_range; lia).
    pose proof (tr_child _ _ _ Htr _ _ _ i Ht ltac:(lia) ltac:(done) Et) as Hc.
    destruct (IH _ _ (path ++ [i]) Hc) as (sp' & Hr & Hs).
    + rewrite length_app. cbn. lia.
    + rewrite length_app. cbn. by replace (Z.of_nat (length path + 1)) with (Z.of_nat (length path) + 1) by lia.
    + exists sp'. rewrite length_app in Hr. cbn in Hr.
      replace (Z.of_nat (length path + 1)) with (Z.of_nat (length path) + 1) in Hr by lia.
      rewrite <- app_assoc in Hr. split; [done|]. rewrite Hs.
      destruct n; [done|]. unfold child_space at 1. destruct (path ++ [i]) eqn:E; [|done].
      by destruct path.
Qed.

Lemma walk_root_place tm role roots r va t :
  tree tm role roots → r ∈ roots → walk_ro 3 0 tm r va = Some t →
  role !! t = Some (va_space r va, indices 3 0 va).
Proof.
  intros Htr Hr Hw. pose proof (tr_root _ _ _ Htr _ Hr) as Hp.
  destruct (walk_ro_place 3 tm role roots r r [] va t Htr Hp eq_refl Hw) as (sp & H & ->).
  done.
Qed.

(** *** Changing the tables *)

Lemma pte_from_ext n level tm tm' role roots t sp path va :
  tree tm role roots → role !! t = Some (sp, path) → (length path + n = 3)%nat →
  level = Z.of_nat (length path) →
  (∀ u i sp' path', role !! u = Some (sp', path') → (length path ≤ length path')%nat →
     entry tm' u i = entry tm u i) →
  pte_from n level tm' t va = pte_from n level tm t va.
Proof.
  intros Htr Ht Hlen -> Hext. revert t sp path Ht Hlen Hext.
  induction n as [|n IH]; intros t sp path Ht Hlen Hext; cbn [pte_from]; erewrite !Hext by eauto; [done|].
  destruct (pte_is_table _) eqn:Et; [|done].
  assert (0 ≤ pte_index va (Z.of_nat (length path)) < 512) by (apply pte_index_range; lia).
  pose proof (tr_child _ _ _ Htr _ _ _ _ Ht ltac:(lia) ltac:(done) Et) as Hc.
  specialize (IH _ _ _ Hc). rewrite length_app in IH. cbn in IH.
  replace (Z.of_nat (length path) + 1) with (Z.of_nat (length path + 1)) by lia.
  apply IH; [lia|]. intros u i sp' path' Hu Hl. eapply Hext; [done|lia].
Qed.

Lemma pte_of_ext tm tm' role roots r va :
  tree tm role roots → r ∈ roots → (∀ u i, is_Some (role !! u) → entry tm' u i = entry tm u i) →
  pte_of tm' r va = pte_of tm r va.
Proof.
  intros Htr Hr Hext.
  eapply (pte_from_ext 3 0 tm tm' role roots r r []); [done|by apply (tr_root _ _ _ Htr)|done|done|].
  eauto.
Qed.

Lemma tree_ext tm tm' role roots :
  tree tm role roots → (∀ u i, is_Some (role !! u) → entry tm' u i = entry tm u i) →
  tree tm' role roots.
Proof.
  intros Htr Hext. split.
  - apply Htr.
  - intros t sp path i Ht. rewrite Hext by eauto. by eapply tr_child.
  - intros t sp path i Ht. rewrite Hext by eauto. by eapply tr_user.
Qed.

(** A zeroed table translates nothing. *)
Lemma pte_from_zero n level tm t va :
  0 ≤ level → level + Z.of_nat n = 3 →
  (∀ i, 0 ≤ i < 512 → entry tm t i = 0) → pte_from n level tm t va = None.
Proof.
  intros Hl Hn Hz. destruct n as [|n]; cbn [pte_from].
  - by rewrite Hz by (apply pte_index_range; lia).
  - by rewrite Hz by (apply pte_index_range; lia).
Qed.

Lemma pte_from_step n level tm t va :
  pte_from (Datatypes.S n) level tm t va =
  let e := entry tm t (pte_index va level) in
  if pte_is_table e then pte_from n (level + 1) tm (pte_to_phys e) va
  else if pte_is_valid e && (0 <? level) then Some (level, e) else None.
Proof. done. Qed.

Section install.
Context (tm : gmap (Z * Z) Z) (role : gmap Z (Z * list Z)) (roots : gset Z).
Context (t new i sp : Z) (path : list Z).
Context (Htr : tree tm role roots) (Ht : role !! t = Some (sp, path))
  (Hlen : (length path < 3)%nat) (Hi : 0 ≤ i < 512)
  (Hinv : pte_is_valid (entry tm t i) = false)
  (Hnew : role !! new = None) (Hz : ∀ j, 0 ≤ j < 512 → entry tm new j = 0)
  (Hta : table_addr new).

Let tm' := <[(t, i) := table_pte new]> tm.
Let role' := <[new := (child_space sp path i, path ++ [i])]> role.

Lemma install_entry u j : is_Some (role !! u) → entry tm' u j = if decide (u = t ∧ j = i) then table_pte new else entry tm u j.
Proof. intros. apply entry_insert. Qed.

Lemma install_new_zero j : 0 ≤ j < 512 → entry tm' new j = 0.
Proof.
  intros Hj. unfold tm'. rewrite entry_insert, decide_False; [by apply Hz|].
  intros [E _]. congruence.
Qed.

Lemma install_tree : tree tm' role' roots.
Proof.
  assert (pte_to_phys (table_pte new) = new) as Hph.
  { destruct Hta as [[? ?] ?]. apply table_pte_phys; [lia|done]. }
  split.
  - intros r Hr. pose proof (tr_root _ _ _ Htr _ Hr). unfold role'.
    rewrite lookup_insert_ne by congruence. done.
  - intros u sp' path' j. unfold role' at 1. rewrite lookup_insert. case_decide as E.
    + intros [= <- <-] _ Hj. rewrite <- E, install_new_zero by done. done.
    + intros Hu Hl Hj. rewrite install_entry by eauto. case_decide as Eq.
      * destruct Eq as [-> ->]. rewrite Ht in Hu. simplify_eq. intros _. rewrite Hph.
        unfold role'. by rewrite lookup_insert_eq.
      * intros Het. unfold role'. pose proof (tr_child _ _ _ Htr _ _ _ _ Hu Hl Hj Het) as Hc.
        rewrite lookup_insert_ne by congruence. done.
  - intros u sp' path' j. unfold role'. rewrite lookup_insert. case_decide as E.
    + intros [= <- <-] _ Hj _ _ _. rewrite <- E, install_new_zero by done. done.
    + intros Hu Hl Hj. rewrite install_entry by eauto. case_decide as Eq.
      * intros. apply table_pte_is_table.
      * by eapply tr_user.
Qed.

Lemma install_pte_from n u sp' path' va :
  role !! u = Some (sp', path') → (length path' + n = 3)%nat →
  pte_from n (Z.of_nat (length path')) tm' u va = pte_from n (Z.of_nat (length path')) tm u va.
Proof.
  revert u sp' path'. induction n as [|n IH]; intros u sp' path' Hu Hl.
  - cbn [pte_from]. rewrite install_entry by eauto. rewrite decide_False; [done|].
    intros [-> _]. rewrite Ht in Hu. simplify_eq. lia.
  - rewrite !pte_from_step. cbn zeta. rewrite install_entry by eauto.
    set (j := pte_index va (Z.of_nat (length path'))).
    assert (0 ≤ j < 512) by (apply pte_index_range; lia).
    case_decide as Eq.
    + destruct Eq as [-> ->]. rewrite table_pte_is_table.
      destruct Hta as [[? ?] ?]. rewrite table_pte_phys by (done || lia).
      rewrite pte_from_zero; [|lia|lia|intros; by apply install_new_zero].
      destruct (pte_is_table (entry tm t i)) eqn:E; [apply table_is_valid in E; congruence|by rewrite Hinv].
    + destruct (pte_is_table (entry tm u j)) eqn:E; [|done].
      pose proof (tr_child _ _ _ Htr _ _ _ j Hu ltac:(lia) ltac:(done) E) as Hc.
      specialize (IH _ _ _ Hc). rewrite length_app in IH. cbn in IH.
      replace (Z.of_nat (length path') + 1) with (Z.of_nat (length path' + 1)) by lia.
      apply IH. lia.
Qed.

Lemma install_pte_of r va : r ∈ roots → pte_of tm' r va = pte_of tm r va.
Proof.
  intros Hr. apply (install_pte_from 3 r r []); [|done]. by apply (tr_root _ _ _ Htr).
Qed.
End install.

(** Writing a page entry changes the translation of that page only. *)
Lemma leaf_tree tm role roots t i v sp path :
  tree tm role roots → role !! t = Some (sp, path) → length path = 3%nat →
  tree (<[(t, i) := v]> tm) role roots.
Proof.
  intros Htr Ht Hl. split.
  - apply Htr.
  - intros u sp' path' j Hu Hl' Hj. rewrite entry_insert, decide_False; [by eapply tr_child|].
    intros [-> _]. rewrite Ht in Hu. simplify_eq. lia.
  - intros u sp' path' j Hu Hl' Hj. rewrite entry_insert, decide_False; [by eapply tr_user|].
    intros [-> _]. rewrite Ht in Hu. simplify_eq. lia.
Qed.

Lemma leaf_pte_from n tm role roots t i v sp path u sp' path' va :
  tree tm role roots → role !! t = Some (sp, path) → length path = 3%nat →
  role !! u = Some (sp', path') → (length path' + n = 3)%nat →
  pte_from n (Z.of_nat (length path')) (<[(t, i) := v]> tm) u va =
  if decide (walk_ro n (Z.of_nat (length path')) tm u va = Some t ∧ pte_index va 3 = i) then page_entry v
  else pte_from n (Z.of_nat (length path')) tm u va.
Proof.
  intros Htr Ht Hl. revert u sp' path'. induction n as [|n IH]; intros u sp' path' Hu Hl'; cbn [walk_ro pte_from].
  - rewrite entry_insert. assert (Z.of_nat (length path') = 3) as -> by lia.
    destruct (decide (u = t ∧ pte_index va 3 = i)) as [[-> E]|Hne].
    + by rewrite decide_True.
    + rewrite decide_False; [done|]. intros [[= ->] E]. by apply Hne.
  - rewrite entry_insert, decide_False.
    2: { intros [-> _]. rewrite Ht in Hu. simplify_eq. lia. }
    destruct (pte_is_table _) eqn:E; [|rewrite decide_False; [done|by intros [? _]]].
    assert (0 ≤ pte_index va (Z.of_nat (length path')) < 512) by (apply pte_index_range; lia).
    pose proof (tr_child _ _ _ Htr _ _ _ _ Hu ltac:(lia) ltac:(done) E) as Hc.
    specialize (IH _ _ _ Hc). rewrite length_app in IH. cbn in IH.
    replace (Z.of_nat (length path') + 1) with (Z.of_nat (length path' + 1)) by lia.
    apply IH. lia.
Qed.

Lemma leaf_pte_of tm role roots r0 va0 t v r va :
  tree tm role roots → r0 ∈ roots → walk_ro 3 0 tm r0 va0 = Some t → r ∈ roots →
  pte_of (<[(t, pte_index va0 3) := v]> tm) r va =
  if decide (va_space r va = va_space r0 va0 ∧ vpath va = vpath va0)
  then (if decide (walk_ro 3 0 tm r va = Some t) then page_entry v else pte_of tm r va)
  else pte_of tm r va.
Proof.
  intros Htr Hr0 Hw0 Hr. pose proof (walk_root_place _ _ _ _ _ _ Htr Hr0 Hw0) as Ht. unfold pte_of.
  rewrite (leaf_pte_from 3 tm role roots t _ v _ _ r r [] va Htr Ht eq_refl (tr_root _ _ _ Htr _ Hr) eq_refl).
  change (Z.of_nat (length (@nil Z))) with 0.
  destruct (decide (va_space r va = va_space r0 va0 ∧ vpath va = vpath va0)) as [[Hs Hp]|Hne].
  - unfold vpath in Hp. cbn [indices] in Hp. injection Hp as _ _ _ H3. change (0 + 1 + 1 + 1) with 3 in H3.
    destruct (decide (walk_ro 3 0 tm r va = Some t)) as [Hw|Hn].
    + by rewrite decide_True.
    + rewrite decide_False by tauto. done.
  - rewrite decide_False; [done|]. intros [Hw H3]. pose proof (walk_root_place _ _ _ _ _ _ Htr Hr Hw) as Hl3.
    rewrite Ht in Hl3. apply Hne. unfold vpath. cbn [indices] in Hl3 |- *. simplify_eq.
    change (0 + 1 + 1 + 1) with 3. split; [done|]. congruence.
Qed.

Lemma walk_ro_same n level tm t va va' :
  indices n level va = indices n level va' → walk_ro n level tm t va = walk_ro n level tm t va'.
Proof.
  revert level t. induction n as [|n IH]; intros level t; cbn [indices walk_ro]; [done|].
  intros [= -> H]. destruct (pte_is_table _); auto.
Qed.

#[local] Opaque fill_entries.

(** ** The invariant *)

(** [P] are the pages handed out (the static tables count as such: they lie
    in the kernel image), [role] the places of the tables in use. *)
Record tinv s (P : gset Z) (roots : gset Z) (role : gmap Z (Z * list Z)) : Prop := {
  ti_tree : tree (tables s) role roots;
  ti_kernel : kernel_pgd ∈ roots;
  ti_pages : pa_inv (pages s) P;
  ti_dom t : is_Some (role !! t) → t ∈ P ∧ table_addr t;
  ti_index : 0 ≤ early_table_index s;
  ti_early i : 0 ≤ i < EARLY_TABLES_COUNT → early_table i ∈ P ∧ table_addr (early_table i);
  ti_unused i : early_table_index s ≤ i < EARLY_TABLES_COUNT → role !! early_table i = None
}.

(** What the table operations leave alone. *)
Definition same_spaces s s' : Prop :=
  mm_pool s' = mm_pool s ∧ mm_index s' = mm_index s ∧
  vma_pool s' = vma_pool s ∧ vma_index s' = vma_index s.

Definition same_ptes s s' (roots : gset Z) : Prop :=
  ∀ r va, r ∈ roots → pte_of (tables s') r va = pte_of (tables s) r va.

(** Installed tables stay installed. *)
Definition keeps_tables s s' (role : gmap Z (Z * list Z)) : Prop :=
  ∀ u j, is_Some (role !! u) → pte_is_table (entry (tables s) u j) = true →
    entry (tables s') u j = entry (tables s) u j.

Lemma keeps_tables_trans s1 s2 s3 role role' :
  role ⊆ role' → keeps_tables s1 s2 role → keeps_tables s2 s3 role' → keeps_tables s1 s3 role.
Proof.
  intros Hsub A B u j Hu Ht. pose proof (A u j Hu Ht) as HA.
  rewrite B; [done| |by rewrite HA].
  destruct Hu as [x Hx]. exists x. by eapply lookup_weaken.
Qed.

Lemma same_spaces_trans s1 s2 s3 : same_spaces s1 s2 → same_spaces s2 s3 → same_spaces s1 s3.
Proof. unfold same_spaces. intuition congruence. Qed.

Lemma same_ptes_trans s1 s2 s3 roots :
  same_ptes s1 s2 roots → same_ptes s2 s3 roots → same_ptes s1 s3 roots.
Proof. intros A B r va Hr. rewrite B by done. by apply A. Qed.

Lemma tinv_root s P roots role r : tinv s P roots role → r ∈ roots → r ∈ P ∧ table_addr r.
Proof.
  intros Ht Hr. apply (ti_dom _ _ _ _ Ht). exists (r, []). by apply (tr_root _ _ _ (ti_tree _ _ _ _ Ht)).
Qed.

Lemma early_table_inj i j : early_table i = early_table j → i = j.
Proof. unfold early_table, PAGE_SIZE. lia. Qed.

(** A new table is zeroed, and is no table in use. *)
Lemma alloc_page_table_ok s P roots role :
  tinv s P roots role →
  ∃ s' r, alloc_page_table s = Some (s', r) ∧ same_spaces s s' ∧ same_ptes s s' roots ∧
    keeps_tables s s' role ∧
    match r with
    | None => tinv s' P roots role
    | Some t =>
        ∃ P', tinv s' P' roots role ∧ P ⊆ P' ∧ role !! t = None ∧ t ∈ P' ∧ table_addr t ∧
          (∀ j, 0 ≤ j < 512 → entry (tables s') t j = 0) ∧
          (∀ u j, u ≠ t → entry (tables s') u j = entry (tables s) u j) ∧
          (∀ i, early_table_index s' ≤ i < EARLY_TABLES_COUNT → early_table i ≠ t)
    end.
Proof.
  intros Hinv. pose proof Hinv as [Htr Hk Hp Hd Hi He Hu]. unfold alloc_page_table.
  assert (∀ t, role !! t = None → ∀ u j, is_Some (role !! u) →
    entry (fill_entries 512 t 0 (λ _, 0) (tables s)) u j = entry (tables s) u j) as Hframe.
  { intros t Hn u j Hsome. rewrite entry_fill, decide_False; [done|]. intros [-> _].
    rewrite Hn in Hsome. by destruct Hsome. }
  destruct (Z.ltb_spec (early_table_index s) EARLY_TABLES_COUNT) as [Hlt|Hge].
  - assert (role !! early_table (early_table_index s) = None) as Hn by (apply Hu; lia).
    destruct (He (early_table_index s) ltac:(lia)) as [HeP Hea].
    do 2 eexists. split; [reflexivity|]. split; [done|]. split.
    { intros r va Hr. eapply pte_of_ext; [exact Htr|done|]. by apply Hframe. }
    split; [intros u j Hsome _; by apply Hframe|].
    exists P. split; [split; cbn; try assumption|].
    + eapply tree_ext; [exact Htr|]. by apply Hframe.
    + lia.
    + intros i Hr. apply Hu. lia.
    + split; [done|]. split; [done|]. split; [done|]. split; [done|]. split; [|split].
      * intros j Hj. cbn. rewrite entry_fill, decide_True by lia. done.
      * intros u j Hne. cbn. rewrite entry_fill, decide_False by tauto. done.
      * intros i Hr Heq%early_table_inj. cbn in Hr. lia.
  - destruct (pa_alloc_ok _ _ Hp) as (ps & p & E & Hor). rewrite E. cbn [mbind option_bind].
    destruct Hor as [[-> Hp']|(Hpr & Hpm & HpP & Hp')].
    + cbn. do 2 eexists. do 4 (split; [done|]). by split.
    + destruct (Z.eqb_spec p 0); [lia|].
      assert (role !! p = None) as Hn.
      { destruct (role !! p) eqn:Er; [|done]. destruct (Hd p) as [? _]; [by eauto|done]. }
      assert (table_addr p) as Hta by (split; [lia|done]).
      do 2 eexists. split; [reflexivity|]. split; [done|]. split.
      { intros r va Hr. eapply pte_of_ext; [exact Htr|done|]. by apply Hframe. }
      split; [intros u j Hsome _; by apply Hframe|].
      exists ({[p]} ∪ P). split; [split; cbn; try assumption|].
      * eapply tree_ext; [exact Htr|]. by apply Hframe.
      * intros t Ht. destruct (Hd t Ht). split; [apply elem_of_union; by right|done].
      * intros i Hr. destruct (He i Hr). split; [apply elem_of_union; by right|done].
      * split; [apply union_subseteq_r|]. split; [done|].
        split; [apply elem_of_union; left; by apply elem_of_singleton|]. split; [done|].
        split; [|split].
        -- intros j Hj. cbn. rewrite entry_fill, decide_True by lia. done.
        -- intros u j Hne. cbn. rewrite entry_fill, decide_False by tauto. done.
        -- intros i Hr Heq. cbn in Hr. lia.
Qed.

(** Allocating a table and installing it at an invalid entry of [t]. *)
Lemma install_ok s P roots role t i sp path :
  tinv s P roots role → role !! t = Some (sp, path) → (length path < 3)%nat → 0 ≤ i < 512 →
  pte_is_valid (entry (tables s) t i) = false →
  ∃ s' r, alloc_page_table s = Some (s', r) ∧ same_spaces s s' ∧ same_ptes s s' roots ∧
    keeps_tables s s' role ∧
    match r with
    | None => tinv s' P roots role
    | Some new =>
        let s'' := with_tables (<[(t, i) := table_pte new]> (tables s')) s' in
        ∃ P' role', tinv s'' P' roots role' ∧ P ⊆ P' ∧ role ⊆ role' ∧ table_addr new ∧
          role' !! new = Some (child_space sp path i, path ++ [i]) ∧
          same_ptes s s'' roots ∧ keeps_tables s s'' role ∧
          (∀ j, 0 ≤ j < 512 → entry (tables s'') new j = 0)
    end.
Proof.
  intros Hinv Ht Hl Hi Hv.
  destruct (alloc_page_table_ok _ _ _ _ Hinv) as (s' & [new|] & E & Hss & Hsp & Hkeep & Hr);
    exists s'; [|exists None; by eauto 10]. exists (Some new). do 4 (split; [done|]).
  destruct Hr as (P' & Hinv' & HPP & Hn & HnP & Hta & Hz & Hother & Hearly).
  assert (t ≠ new) as Htn by congruence.
  assert (pte_is_valid (entry (tables s') t i) = false) as Hv' by (by rewrite Hother).
  pose proof (ti_tree _ _ _ _ Hinv') as Htr'.
  exists P', (<[new := (child_space sp path i, path ++ [i])]> role).
  split; [split; cbn|].
  - by apply (install_tree (tables s') role roots t new i sp path).
  - apply Hinv'.
  - apply Hinv'.
  - intros u. rewrite lookup_insert. case_decide as Eu; [by subst|]. apply Hinv'.
  - apply Hinv'.
  - apply Hinv'.
  - intros k Hk. rewrite lookup_insert_ne by (intros Heq; by eapply Hearly). by apply Hinv'.
  - split; [done|]. split; [by apply insert_subseteq|]. split; [done|].
    split; [by rewrite lookup_insert_eq|]. split.
    + intros r va Hr. cbn. rewrite (install_pte_of _ role roots t new i sp path) by done. by apply Hsp.
    + split.
      { intros u j Hu Htu. cbn. rewrite entry_insert, decide_False; [by apply Hkeep|].
        intros [-> ->]. apply table_is_valid in Htu. congruence. }
      intros j Hj. cbn. rewrite entry_insert, decide_False by naive_solver. by apply Hz.
Qed.

(** The allocating walk ends at the level-3 table, creating the missing
    tables, or fails; it changes no translation. *)
Lemma walk_loop_alloc n s P roots role t sp path va :
  tinv s P roots role → role !! t = Some (sp, path) → (length path + n = 3)%nat →
  ∃ s' r, walk_loop n (Z.of_nat (length path)) t va true s = Some (s', r) ∧
    same_spaces s s' ∧ same_ptes s s' roots ∧ keeps_tables s s' role ∧
    ∃ P' role', tinv s' P' roots role' ∧ P ⊆ P' ∧ role ⊆ role' ∧
      (∀ l3, r = Some l3 → walk_ro n (Z.of_nat (length path)) (tables s') t va = Some l3).
Proof.
  revert s P role t sp path. induction n as [|n IH]; intros s P role t sp path Hinv Ht Hlen.
  { cbn [walk_loop]. do 2 eexists. do 4 (split; [done|]).
    exists P, role. do 3 (split; [done|]). cbn [walk_ro]. done. }
  cbn [walk_loop]. cbn zeta. set (i := pte_index va (Z.of_nat (length path))).
  assert (0 ≤ i < 512) as Hi by (apply pte_index_range; lia).
  assert (Z.of_nat (length path) + 1 = Z.of_nat (length (path ++ [i]))) as Hlv.
  { rewrite length_app. cbn. lia. }
  assert ((length (path ++ [i]) + n = 3)%nat) as Hlen' by (rewrite length_app; cbn; lia).
  destruct (pte_is_valid (entry (tables s) t i)) eqn:Ev; cbn [negb].
  - destruct (pte_is_table (entry (tables s) t i)) eqn:Et.
    + pose proof (tr_child _ _ _ (ti_tree _ _ _ _ Hinv) _ _ _ i Ht ltac:(lia) Hi Et) as Hc.
      destruct (IH s P role _ _ _ Hinv Hc Hlen')
        as (s' & r & E & ? & ? & Hkeep & P' & role' & Hi' & ? & ? & Hw).
      rewrite Hlv, E. exists s', r. do 4 (split; [done|]). exists P', role'. do 3 (split; [done|]).
      assert (entry (tables s') t i = entry (tables s) t i) as Hk' by (apply Hkeep; eauto).
      intros l3 Hl3. cbn [walk_ro]. cbn zeta. fold i. rewrite Hk'. rewrite Et, Hlv. by apply Hw.
    + exists s, None. do 4 (split; [done|]). exists P, role. by do 3 (split; [done|]).
  - destruct (install_ok s P roots role t i sp path Hinv Ht ltac:(lia) Hi Ev)
      as (s1 & r1 & E1 & Hss1 & Hsp1 & Hk1 & Hr1). rewrite E1. cbn [mbind option_bind].
    destruct r1 as [new|].
    2: { exists s1, None. do 4 (split; [done|]). exists P, role. by do 3 (split; [done|]). }
    destruct Hr1 as (P1 & role1 & Hinv1 & HP1 & Hrole1 & Hta & Hnew & Hsp1' & Hk1' & _).
    rewrite Hlv. fold (table_pte new).
    destruct (IH _ P1 role1 new _ _ Hinv1 Hnew Hlen')
      as (s' & r & E & Hss & Hsp & Hkeep & P' & role' & Hi' & ? & ? & Hw).
    exists s', r. split; [done|]. split; [by eapply same_spaces_trans|].
    split; [by eapply same_ptes_trans|]. split; [by eapply keeps_tables_trans|].
    exists P', role'. split; [done|]. split; [by etrans|]. split; [by etrans|].
    assert (entry (tables s') t i = table_pte new) as Hk'.
    { rewrite Hkeep; cbn; rewrite ?entry_insert, ?decide_True by done; [done| |].
      - exists (sp, path). by eapply lookup_weaken.
      - apply table_pte_is_table. }
    intros l3 Hl3. cbn [walk_ro]. cbn zeta. fold i. rewrite Hk', table_pte_is_table.
    destruct Hta as [[? ?] ?]. rewrite table_pte_phys by (done || lia). rewrite Hlv. by apply Hw.
Qed.

(** The read-only walk is the walk of the hardware. *)
Lemma walk_loop_ro n level t va s :
  walk_loop n level t va false s = Some (s, walk_ro n level (tables s) t va).
Proof.
  revert level t. induction n as [|n IH]; intros level t; cbn [walk_loop walk_ro]; [done|].
  cbn zeta. destruct (pte_is_table (entry _ _ _)) eqn:Et.
  - rewrite (table_is_valid _ Et). cbn [negb]. apply IH.
  - by destruct (pte_is_valid _).
Qed.

Lemma tinv_leaf s P roots role r va l3 v :
  tinv s P roots role → r ∈ roots → walk_ro 3 0 (tables s) r va = Some l3 →
  tinv (with_tables (<[(l3, pte_index va 3) := v]> (tables s)) s) P roots role.
Proof.
  intros Hinv Hr Hw. pose proof (walk_root_place _ _ _ _ _ _ (ti_tree _ _ _ _ Hinv) Hr Hw) as Hl3.
  pose proof Hinv as [Htr ? ? ? ? ? ?]. split; cbn; try assumption. by eapply leaf_tree.
Qed.

(** Two addresses of the same page. *)
Definition same_page (va va' : Z) : Prop := vpath va = vpath va'.

Lemma pte_of_same tm r va va' : same_page va va' → pte_of tm r va = pte_of tm r va'.
Proof.
  intros Hs. unfold same_page, vpath in Hs. cbn [indices] in Hs. injection Hs as H0 H1 H2 H3.
  change (0 + 1 + 1 + 1) with 3 in H3. unfold pte_of. cbn [pte_from].
  change (0 + 1) with 1 in *. change (1 + 1) with 2 in *. change (2 + 1) with 3. by rewrite H0, H1, H2, H3.
Qed.

Lemma leaf_pte_other s P roots role r0 va0 l3 v r va :
  tinv s P roots role → r0 ∈ roots → walk_ro 3 0 (tables s) r0 va0 = Some l3 → r ∈ roots →
  (¬ same_page va va0 ∨ va_space r va ≠ va_space r0 va0) →
  pte_of (<[(l3, pte_index va0 3) := v]> (tables s)) r va = pte_of (tables s) r va.
Proof.
  intros Hinv Hr0 Hw Hr Hne. rewrite (leaf_pte_of _ role roots r0 va0 l3 v r va) by (done || apply Hinv).
  rewrite decide_False; [done|]. unfold same_page in Hne. tauto.
Qed.

(** ** Address-space bookkeeping *)

Record minv s (roots : gset Z) : Prop := {
  mi_pgd m a p : mm_pool s !! m = Some a → mm_pgd a = Some p → p ∈ roots ∧ p ≠ kernel_pgd;
  mi_inj m m' a a' p : mm_pool s !! m = Some a → mm_pool s !! m' = Some a' →
    mm_pgd a = Some p → mm_pgd a' = Some p → m = m';
  mi_index m : is_Some (mm_pool s !! m) → 0 ≤ m < mm_index s;
  mi_count : 0 ≤ mm_index s ∧ 0 ≤ vma_index s ≤ 256;
  mi_list m a v : mm_pool s !! m = Some a → mm_vma_list a = Some v → 0 ≤ v < vma_index s;
  mi_vma v : 0 ≤ v < vma_index s → is_Some (vma_pool s !! v);
  mi_next v x w : vma_pool s !! v = Some x → vma_next x = Some w → 0 ≤ w < v
}.

Lemma minv_same s s' roots : same_spaces s s' → minv s roots → minv s' roots.
Proof.
  intros (E1 & E2 & E3 & E4) [H1 H2 H3 H4 H5 H6 H7].
  split; rewrite ?E1, ?E2, ?E3, ?E4; assumption.
Qed.

(** The invariant of the component. *)
Definition vmm_inv s (P roots : gset Z) : Prop :=
  ∃ role, tinv s P roots role ∧ minv s roots.

(** The reference count of an address space is not part of the invariant. *)
Lemma vmm_inv_users s P roots m a u :
  vmm_inv s P roots → mm_pool s !! m = Some a →
  vmm_inv (with_mm (<[m := mk_mm (mm_pgd a) (mm_vma_list a) (mm_total_vm a) u]> (mm_pool s))
             (mm_index s) s) P roots.
Proof.
  intros (role & Ht & [H1 H2 H3 H4 H5 H6 H7]) Ha. exists role. split; [by destruct Ht|].
  split; cbn [mm_pool with_mm mm_index vma_pool vma_index]; try assumption.
  - intros m' a' p. rewrite lookup_insert. case_decide; [|by apply H1]. intros [= <-]. cbn. by eapply H1.
  - intros m1 m2 a1 a2 p. rewrite !lookup_insert. do 2 case_decide; subst; try done.
    + intros [= <-] Ha2 Hp1 Hp2. by eapply H2.
    + intros Ha1 [= <-] Hp1 Hp2. by eapply H2.
    + by eapply H2.
  - intros m'. rewrite lookup_insert. case_decide; [|apply H3]. intros _. apply H3. subst. by eexists.
  - intros m' a' v. rewrite lookup_insert. case_decide; [|by apply H5]. intros [= <-]. cbn. by eapply H5.
Qed.

(** From [s] to [s'] the translation of the page of [va] from the root [r]
    becomes [v], and no other translation changes. *)
Definition pte_set s s' (roots : gset Z) (r va : Z) (v : option (Z * Z)) : Prop :=
  (∀ va', same_page va' va → pte_of (tables s') r va' = v) ∧
  (∀ r' va', r' ∈ roots → (¬ same_page va' va ∨ va_space r' va' ≠ va_space r va) →
     pte_of (tables s') r' va' = pte_of (tables s) r' va').

Lemma pte_set_before s s1 s' roots r va v :
  same_ptes s s1 roots → pte_set s1 s' roots r va v → pte_set s s' roots r va v.
Proof.
  intros Hs [A B]. split; [done|]. intros r' va' Hr Hne. rewrite B by done. by apply Hs.
Qed.

Lemma leaf_pte_set s P roots role r va l3 v :
  tinv s P roots role → r ∈ roots → walk_ro 3 0 (tables s) r va = Some l3 →
  pte_set s (with_tables (<[(l3, pte_index va 3) := v]> (tables s)) s) roots r va (page_entry v).
Proof.
  intros Hinv Hr Hw. split; cbn [tables with_tables].
  - intros va' Hsame. rewrite (leaf_pte_of _ role roots r va l3 v r va') by (done || apply Hinv).
    unfold same_page, vpath in Hsame. rewrite decide_True.
    + rewrite decide_True; [done|]. rewrite <- Hw. apply walk_ro_same.
      cbn [indices] in *. congruence.
    + split; [|done]. unfold va_space. f_equal. cbn [indices] in Hsame. congruence.
  - intros r' va' Hr' Hne. by apply (leaf_pte_other s P roots role r).
Qed.

Lemma map_page_ok s P roots va pa fl :
  vmm_inv s P roots →
  ∃ s' ret P', vmm_map_page va pa fl s = Some (s', ret) ∧ vmm_inv s' P' roots ∧ P ⊆ P' ∧
    ((ret = 0 ∧ pte_of (tables s) kernel_pgd va = None ∧
      pte_set s s' roots kernel_pgd va (Some (3, phys_to_pte pa (vm_flags_to_pte fl)))) ∨
     (ret = -1 ∧ same_ptes s s' roots)).
Proof.
  intros (role & Hinv & Hm). unfold vmm_map_page, walk_page_table.
  pose proof (ti_kernel _ _ _ _ Hinv) as Hk.
  pose proof (tr_root _ _ _ (ti_tree _ _ _ _ Hinv) _ Hk) as Hkr.
  destruct (walk_loop_alloc 3 s P roots role kernel_pgd _ _ va Hinv Hkr eq_refl)
    as (s1 & r & E & Hss & Hsp & _ & P' & role' & Hinv' & HP & _ & Hw).
  change (Z.of_nat (length (@nil Z))) with 0 in *. rewrite E. cbn [mbind option_bind].
  pose proof (minv_same _ _ _ Hss Hm) as Hm'.
  destruct r as [l3|].
  2: { exists s1, (-1), P'. do 3 (split; [done || by exists role'|]). by right. }
  specialize (Hw l3 eq_refl).
  destruct (pte_is_valid (entry (tables s1) l3 (pte_index va 3))) eqn:Ev.
  { exists s1, (-1), P'. do 3 (split; [done || by exists role'|]). by right. }
  do 2 eexists. exists P'. split; [reflexivity|]. split; [|split; [done|]].
  - exists role'. split; [by eapply tinv_leaf|]. by apply (minv_same s1).
  - left. split; [done|]. split.
    + rewrite <- Hsp by done. rewrite (pte_of_walk _ _ _ _ Hw). unfold page_entry. by rewrite Ev.
    + eapply pte_set_before; [done|].
      pose proof (leaf_pte_set s1 P' roots role' kernel_pgd va l3
                    (phys_to_pte pa (vm_flags_to_pte fl)) Hinv' Hk Hw) as Hset.
      unfold page_entry in Hset. rewrite pte_is_valid_bit, phys_to_pte_bit in Hset by lia.
      by rewrite (proj1 (vm_flags_valid fl)) in Hset.
Qed.

Lemma unmap_page_ok s P roots va :
  vmm_inv s P roots →
  ∃ s' ret, vmm_unmap_page va s = Some (s', ret) ∧ vmm_inv s' P roots ∧
    ((ret = 0 ∧ (∃ e, pte_of (tables s) kernel_pgd va = Some (3, e)) ∧
      pte_set s s' roots kernel_pgd va None) ∨
     (ret = -1 ∧ s' = s ∧ unpaged (pte_of (tables s) kernel_pgd va) = pte_of (tables s) kernel_pgd va)).
Proof.
  intros (role & Hinv & Hm). unfold vmm_unmap_page, walk_page_table.
  rewrite walk_loop_ro. cbn [mbind option_bind].
  destruct (walk_ro 3 0 (tables s) kernel_pgd va) as [l3|] eqn:Ew.
  2: { exists s, (-1). split; [done|]. split; [by exists role|]. right. do 2 (split; [done|]). by apply pte_of_no_walk. }
  rewrite (pte_of_walk _ _ _ _ Ew). unfold page_entry.
  destruct (pte_is_valid (entry (tables s) l3 (pte_index va 3))) eqn:Ev; cbn [negb].
  2: { exists s, (-1). split; [done|]. split; [by exists role|]. by right. }
  do 2 eexists. split; [reflexivity|]. split.
  - exists role. split; [eapply tinv_leaf; [done|apply Hinv|done]|]. by apply (minv_same s).
  - left. split; [done|]. split; [by eexists|].
    apply (leaf_pte_set s P roots role kernel_pgd va l3 0 Hinv (ti_kernel _ _ _ _ Hinv) Ew).
Qed.

(** vmm_virt_to_phys knows pages only: for an address in a block it returns 0. *)
Lemma virt_to_phys_eq s va :
  vmm_virt_to_phys va s =
  Some (s, match pte_of (tables s) kernel_pgd va with
           | Some (level, pte) =>
               if level =? 3 then Z.lor (pte_to_phys pte) (Z.land va (PAGE_SIZE - 1)) else 0
           | None => 0
           end).
Proof.
  unfold vmm_virt_to_phys, walk_page_table. rewrite walk_loop_ro. cbn [mbind option_bind].
  destruct (walk_ro _ _ _ _ _) as [l3|] eqn:Ew.
  - rewrite (pte_of_walk _ _ _ _ Ew). unfold page_entry. cbn zeta. by destruct (pte_is_valid _).
  - pose proof (pte_of_no_walk _ _ _ Ew) as H. destruct (pte_of _ _ _) as [[level e]|]; [|done].
    cbn in H. by destruct (level =? 3).
Qed.

Lemma page_frame_offset f va :
  f `mod` PAGE_SIZE = 0 → Z.lor f (Z.land va (PAGE_SIZE - 1)) = f + va `mod` PAGE_SIZE.
Proof.
  intros Hf. change (PAGE_SIZE - 1) with (2 ^ 12 - 1). rewrite land_low_mask by lia.
  change (2 ^ 12) with PAGE_SIZE.
  rewrite <- Z.add_lor_land.
  assert (Z.land f (va `mod` PAGE_SIZE) = 0) as ->; [|lia].
  apply Z.bits_inj'. intros k Hk. rewrite Z.land_spec, Z.bits_0.
  change PAGE_SIZE with (2 ^ 12) in *. destruct (decide (k < 12)).
  - assert (Z.testbit f k = false) as ->; [|done].
    rewrite <- (Z.mod_pow2_bits_low f 12) by lia. rewrite Hf. apply Z.bits_0.
  - rewrite (Z.mod_pow2_bits_high va) by lia. apply andb_false_r.
Qed.

(** ** Pages of an address range *)

Lemma pte_index_div va level :
  0 ≤ level ≤ 3 → pte_index va level = (va / 2 ^ 12 / 512 ^ (3 - level)) `mod` 512.
Proof.
  intros Hl. assert (level = 0 ∨ level = 1 ∨ level = 2 ∨ level = 3) as H by lia.
  unfold pte_index, VMM_LEVEL0_SHIFT, VMM_LEVEL1_SHIFT, VMM_LEVEL2_SHIFT, VMM_LEVEL3_SHIFT.
  change (VMM_ENTRIES - 1) with (2 ^ 9 - 1).
  destruct H as [->|[->|[->| ->]]]; cbn [Z.eqb Pos.eqb];
    rewrite land_low_mask, Z.shiftr_div_pow2 by lia;
    rewrite Z.div_div by lia; reflexivity.
Qed.

Lemma same_frame_same_page va va' : va / PAGE_SIZE = va' / PAGE_SIZE → same_page va va'.
Proof.
  intros H. unfold same_page, vpath. cbn [indices]. rewrite !pte_index_div by lia.
  change (2 ^ 12) with PAGE_SIZE. by rewrite H.
Qed.

Lemma same_page_frame va va' :
  same_page va va' → (va / PAGE_SIZE) `mod` 2 ^ 36 = (va' / PAGE_SIZE) `mod` 2 ^ 36.
Proof.
  intros H. unfold same_page, vpath in H. cbn [indices] in H.
  rewrite !pte_index_div in H by lia. change (2 ^ 12) with PAGE_SIZE in H.
  cbn [Z.add Pos.add Z.sub Z.opp Pos.succ Z.pos_sub Pos.pred_double] in H. injection H as H0 H1 H2 H3.
  assert (∀ x, x `mod` 2 ^ 36 = (x / 512 ^ 0) `mod` 512 +
    512 * ((x / 512 ^ 1) `mod` 512 + 512 * ((x / 512 ^ 2) `mod` 512 + 512 * ((x / 512 ^ 3) `mod` 512)))) as Hx.
  { intros x. change (2 ^ 36) with (512 * (512 * (512 * 512))).
    rewrite !Z.rem_mul_r by lia. rewrite !Z.div_div by lia.
    change (512 ^ 0) with 1. rewrite Z.div_1_r. reflexivity. }
  rewrite !Hx. f_equal; [exact H3|]. f_equal. f_equal; [exact H2|]. f_equal.
  f_equal; [exact H1|]. f_equal. exact H0.
Qed.

Lemma range_pages_differ v i j :
  v `mod` PAGE_SIZE = 0 → 0 ≤ i < 2 ^ 36 → 0 ≤ j < 2 ^ 36 →
  same_page (v + i * PAGE_SIZE) (v + j * PAGE_SIZE) → i = j.
Proof.
  intros Hv Hi Hj H%same_page_frame. rewrite !Z.div_add in H by done.
  assert ((i - j) `mod` 2 ^ 36 = 0) as Hd.
  { replace (i - j) with ((v / PAGE_SIZE + i) - (v / PAGE_SIZE + j)) by lia.
    rewrite Zminus_mod, H, Z.sub_diag. done. }
  apply Z.mod_divide in Hd; [|lia]. destruct Hd as [k Hk]. lia.
Qed.

Definition in_pages (v k n va : Z) : Prop := ∃ i, k ≤ i < n ∧ same_page va (v + i * PAGE_SIZE).

(** The user halves of the other address spaces. *)
Definition user_same s s' (roots : gset Z) : Prop :=
  ∀ r va, r ∈ roots → r ≠ kernel_pgd → pte_index va 0 < 256 →
    pte_of (tables s') r va = pte_of (tables s) r va.

Lemma same_ptes_user s s' roots : same_ptes s s' roots → user_same s s' roots.
Proof. intros H r va Hr _ _. by apply H. Qed.

Lemma user_same_trans s1 s2 s3 roots :
  user_same s1 s2 roots → user_same s2 s3 roots → user_same s1 s3 roots.
Proof. intros A B r va Hr Hk Hi. rewrite B by done. by apply A. Qed.

Lemma pte_set_user s s' P roots va v :
  vmm_inv s P roots → pte_set s s' roots kernel_pgd va v → user_same s s' roots.
Proof.
  intros (role & Hinv & _) [_ Hother] r va' Hr Hk Hi. apply Hother; [done|]. right.
  destruct (tinv_root _ _ _ _ _ Hinv Hr) as [_ [[? ?] _]].
  unfold va_space, child_space. destruct (Z.leb_spec 256 (pte_index va' 0)); [lia|].
  destruct (Z.leb_spec 256 (pte_index va 0)); [lia|done].
Qed.

Lemma unmap_loop_ok n k fuel v s P roots :
  vmm_inv s P roots → v `mod` PAGE_SIZE = 0 → 0 ≤ v → 0 ≤ k ≤ n → n ≤ 2 ^ 36 →
  v + n * PAGE_SIZE ≤ 2 ^ 64 → Z.of_nat fuel = n - k →
  ∃ s', unmap_loop fuel v (k * PAGE_SIZE) (n * PAGE_SIZE) s = Some s' ∧
    vmm_inv s' P roots ∧ user_same s s' roots ∧
    (∀ va, in_pages v k n va → pte_of (tables s') kernel_pgd va = unpaged (pte_of (tables s) kernel_pgd va)) ∧
    (∀ va, ¬ in_pages v k n va → pte_of (tables s') kernel_pgd va = pte_of (tables s) kernel_pgd va).
Proof.
  intros Hinv Hv Hv0 Hk Hn Hw. revert k s Hinv Hk. induction fuel as [|fuel IH]; intros k s Hinv Hk Hf.
  - exists s. cbn [unmap_loop]. do 3 (split; [done|]). split; [|done].
    intros va (i & Hi & _). lia.
  - cbn [unmap_loop]. destruct (Z.ltb_spec (k * PAGE_SIZE) (n * PAGE_SIZE)); [|unfold PAGE_SIZE in *; lia].
    rewrite !u64_small by (unfold PAGE_SIZE in *; lia).
    destruct (unmap_page_ok s P roots (v + k * PAGE_SIZE) Hinv) as (s1 & ret & E & Hinv1 & Hor).
    rewrite E. cbn [mbind option_bind fst].
    replace (k * PAGE_SIZE + PAGE_SIZE) with ((k + 1) * PAGE_SIZE) by lia.
    destruct (IH (k + 1) s1 Hinv1 ltac:(lia) ltac:(lia)) as (s' & E' & Hinv' & Hu & Hin & Hout).
    assert (user_same s s1 roots ∧
      (∀ va, same_page va (v + k * PAGE_SIZE) →
         pte_of (tables s1) kernel_pgd va = unpaged (pte_of (tables s) kernel_pgd va)) ∧
      (∀ va, ¬ same_page va (v + k * PAGE_SIZE) →
         pte_of (tables s1) kernel_pgd va = pte_of (tables s) kernel_pgd va)) as (Hu1 & Hin1 & Hout1).
    { destruct Hor as [(-> & [e He] & Hset)|(-> & -> & Hnone)].
      - split; [by eapply pte_set_user|].
        split; [intros va Hs; rewrite (proj1 Hset va Hs), (pte_of_same (tables s) _ _ _ Hs), He; done|].
        intros va Hne. apply Hset; [|by left]. destruct Hinv as (? & Ht & _). apply Ht.
      - split; [done|]. split; [|done]. intros va Hs. by rewrite (pte_of_same _ _ _ _ Hs). }
    exists s'. split; [done|]. split; [done|]. split; [by eapply user_same_trans|]. split.
    + intros va (i & Hi & Hs). destruct (decide (i = k)) as [->|].
      * rewrite Hout; [by apply Hin1|]. intros (j & Hj & Hs').
        assert (k = j); [|lia]. apply (range_pages_differ v); [done|lia|lia|].
        unfold same_page in *. congruence.
      * rewrite Hin by (exists i; split; [lia|done]). f_equal. apply Hout1. intros Hs'.
        assert (i = k); [|lia]. apply (range_pages_differ v); [done|lia|lia|]. unfold same_page in *. congruence.
    + intros va Hne. rewrite Hout, Hout1; [done| |].
      * intros Hs. apply Hne. exists k. split; [lia|done].
      * intros (i & Hi & Hs). apply Hne. exists i. split; [lia|done].
Qed.

Lemma page_align_down v : v `mod` PAGE_SIZE = 0 → ALIGN_DOWN v PAGE_SIZE = v.
Proof. change PAGE_SIZE with (2 ^ 12). intros. rewrite ALIGN_DOWN_spec by lia. lia. Qed.

Lemma page_align_size n :
  0 ≤ n ≤ 2 ^ 36 → u64 (ALIGN (n * PAGE_SIZE) PAGE_SIZE) = n * PAGE_SIZE.
Proof.
  intros Hn. change PAGE_SIZE with (2 ^ 12).
  destruct (ALIGN_spec (n * 2 ^ 12) 12) as [Hm Hb]; [lia|].
  assert (ALIGN (n * 2 ^ 12) (2 ^ 12) = n * 2 ^ 12) as ->.
  { change (2 ^ 12) with 4096 in *. lia_mod. }
  apply u64_small. lia.
Qed.

Lemma unmap_range_ok n v s P roots :
  vmm_inv s P roots → v `mod` PAGE_SIZE = 0 → 0 ≤ v → 0 ≤ n ≤ 2 ^ 36 →
  v + n * PAGE_SIZE ≤ 2 ^ 64 →
  ∃ s', vmm_unmap_range v (n * PAGE_SIZE) s = Some (s', 0) ∧
    vmm_inv s' P roots ∧ user_same s s' roots ∧
    (∀ va, in_pages v 0 n va → pte_of (tables s') kernel_pgd va = unpaged (pte_of (tables s) kernel_pgd va)) ∧
    (∀ va, ¬ in_pages v 0 n va → pte_of (tables s') kernel_pgd va = pte_of (tables s) kernel_pgd va).
Proof.
  intros Hinv Hv Hv0 Hn Hw. unfold vmm_unmap_range.
  rewrite (page_align_down v), (page_align_size n) by (done || lia).
  rewrite Z.div_mul by done.
  destruct (unmap_loop_ok n 0 (Z.to_nat n) v s P roots) as (s' & E & H); try done; try lia.
  change (0 * PAGE_SIZE) with 0 in E. rewrite E. exists s'. done.
Qed.

(** The first [k] pages of a range are mapped in [s], were not in [s0], and
    nothing else changed. *)
Record mapped_upto s0 s (roots : gset Z) (v pa fl k : Z) : Prop := {
  mu_user : user_same s0 s roots;
  mu_fresh va : in_pages v 0 k va → pte_of (tables s0) kernel_pgd va = None;
  mu_mapped i va : 0 ≤ i < k → same_page va (v + i * PAGE_SIZE) →
    pte_of (tables s) kernel_pgd va = Some (3, phys_to_pte (pa + i * PAGE_SIZE) (vm_flags_to_pte fl));
  mu_other va : ¬ in_pages v 0 k va →
    pte_of (tables s) kernel_pgd va = pte_of (tables s0) kernel_pgd va
}.

Lemma mapped_upto_step s0 s s1 P roots v pa fl k :
  vmm_inv s P roots → v `mod` PAGE_SIZE = 0 → 0 ≤ k < 2 ^ 36 →
  mapped_upto s0 s roots v pa fl k →
  pte_of (tables s) kernel_pgd (v + k * PAGE_SIZE) = None →
  pte_set s s1 roots kernel_pgd (v + k * PAGE_SIZE)
    (Some (3, phys_to_pte (pa + k * PAGE_SIZE) (vm_flags_to_pte fl))) →
  mapped_upto s0 s1 roots v pa fl (k + 1).
Proof.
  intros Hinv Hv Hk [Hu Hf Hm Ho] Hnone Hset.
  assert (kernel_pgd ∈ roots) as Hkr by (destruct Hinv as (? & Ht & _); apply Ht).
  assert (∀ va i, 0 ≤ i < k → same_page va (v + i * PAGE_SIZE) → ¬ same_page va (v + k * PAGE_SIZE)) as Hdiff.
  { intros va i Hi Hs Hs'. assert (i = k); [|lia].
    apply (range_pages_differ v); [done|lia|lia|]. unfold same_page in *. congruence. }
  split.
  - eapply user_same_trans; [done|]. by eapply pte_set_user.
  - intros va (i & Hi & Hs). destruct (decide (i = k)) as [->|].
    + rewrite <- Ho, (pte_of_same _ _ _ _ Hs); [done|].
      intros (j & Hj & Hs'). by eapply Hdiff.
    + apply Hf. exists i. split; [lia|done].
  - intros i va Hi Hs. destruct (decide (i = k)) as [->|]; [by apply Hset|].
    rewrite (proj2 Hset); [apply Hm; [lia|done]|done|].
    left. apply (Hdiff va i); [lia|done].
  - intros va Hne. rewrite (proj2 Hset), Ho; [done| |done|].
    + intros (i & Hi & Hs). apply Hne. exists i. split; [lia|done].
    + left. intros Hs. apply Hne. exists k. split; [lia|done].
Qed.

(** Undoing the first [k] pages restores every translation. *)
Lemma mapped_upto_undo s0 s s' roots v pa fl k :
  mapped_upto s0 s roots v pa fl k → user_same s s' roots →
  (∀ va, in_pages v 0 k va → pte_of (tables s') kernel_pgd va = unpaged (pte_of (tables s) kernel_pgd va)) →
  (∀ va, ¬ in_pages v 0 k va → pte_of (tables s') kernel_pgd va = pte_of (tables s) kernel_pgd va) →
  (∀ va, Decision (in_pages v 0 k va)) →
  mapped_upto s0 s' roots v pa fl 0.
Proof.
  intros [Hu Hf Hm Ho] Hu' Hin Hout Hdec. split.
  - by eapply user_same_trans.
  - intros va (i & Hi & _). lia.
  - intros i va Hi. lia.
  - intros va _. destruct (Hdec va) as [H|H].
    + rewrite Hin, Hf by done. destruct H as (i & Hi & Hs). by rewrite (Hm i va Hi Hs).
    + by rewrite Hout, Ho.
Qed.

#[local] Instance in_pages_dec v k n va : Decision (in_pages v k n va).
Proof.
  destruct (decide (Exists (λ i, vpath va = vpath (v + i * PAGE_SIZE)) (seqZ k (n - k)))) as [H|H].
  - left. apply Exists_exists in H as (i & Hi%elem_of_seqZ & H). exists i. split; [lia|done].
  - right. intros (i & Hi & Hs). apply H, Exists_exists. exists i. split; [apply elem_of_seqZ; lia|done].
Defined.

Lemma map_loop_ok s0 n fuel k v pa fl s P roots :
  vmm_inv s P roots → mapped_upto s0 s roots v pa fl k →
  v `mod` PAGE_SIZE = 0 → 0 ≤ v → 0 ≤ pa → 0 ≤ k ≤ n → n ≤ 2 ^ 36 →
  v + n * PAGE_SIZE ≤ 2 ^ 64 → pa + n * PAGE_SIZE ≤ 2 ^ 64 → Z.of_nat fuel = n - k →
  ∃ s' ret P', map_loop fuel v pa (k * PAGE_SIZE) (n * PAGE_SIZE) fl s = Some (s', ret) ∧
    vmm_inv s' P' roots ∧ P ⊆ P' ∧
    ((ret = 0 ∧ mapped_upto s0 s' roots v pa fl n) ∨
     (ret = -1 ∧ mapped_upto s0 s' roots v pa fl 0)).
Proof.
  intros Hinv Hmu Hv Hv0 Hpa Hk Hn Hw Hpw. revert k s P Hinv Hmu Hk.
  induction fuel as [|fuel IH]; intros k s P Hinv Hmu Hk Hf.
  { exists s, 0, P. do 3 (split; [done|]). left. by replace n with k by lia. }
  cbn [map_loop]. destruct (Z.ltb_spec (k * PAGE_SIZE) (n * PAGE_SIZE)); [|unfold PAGE_SIZE in *; lia].
  rewrite !u64_small by (unfold PAGE_SIZE in *; lia).
  destruct (map_page_ok s P roots (v + k * PAGE_SIZE) (pa + k * PAGE_SIZE) fl Hinv)
    as (s1 & ret & P1 & E & Hinv1 & HP1 & Hor).
  rewrite E. cbn [mbind option_bind].
  destruct Hor as [(-> & Hnone & Hset)|(-> & Hsame)]; cbn [Z.ltb Z.compare].
  - replace (k * PAGE_SIZE + PAGE_SIZE) with ((k + 1) * PAGE_SIZE) by lia.
    destruct (IH (k + 1) s1 P1) as (s' & ret & P' & E' & Hinv' & HP' & Hor); try done; try lia.
    { eapply mapped_upto_step; [exact Hinv|done|lia|done|done|done]. }
    exists s', ret, P'. split; [done|]. split; [done|]. split; [by etrans|done].
  - destruct (unmap_range_ok k v s1 P1 roots Hinv1 Hv Hv0 ltac:(lia) ltac:(unfold PAGE_SIZE in *; lia))
      as (s' & E' & Hinv' & Hu & Hin & Hout).
    rewrite E'. cbn [mbind option_bind fst]. exists s', (-1), P1. do 3 (split; [done|]). right. split; [done|].
    assert (kernel_pgd ∈ roots) as Hkr by (destruct Hinv as (? & Ht & _); apply Ht).
    eapply (mapped_upto_undo s0 s1); [|done..|apply _].
    destruct Hmu as [Hu0 Hf0 Hm0 Ho0]. split.
    + eapply user_same_trans; [done|]. by apply same_ptes_user.
    + done.
    + intros. rewrite Hsame by done. by apply Hm0.
    + intros. rewrite Hsame by done. by apply Ho0.
Qed.

(** ** User mappings *)

Lemma user_entry_table_pte l :
  Z.lor (Z.lor (Z.land l PTE_ADDR_MASK) PTE_VALID) PTE_TABLE = table_pte l.
Proof. unfold table_pte, phys_to_pte. by rewrite <- Z.lor_assoc. Qed.

Lemma user_step_ok s P roots role t i sp path :
  tinv s P roots role → role !! t = Some (sp, path) → (length path < 3)%nat → 0 ≤ i < 512 →
  sp ≠ 0 → sp ≠ kernel_pgd → child_space sp path i = sp →
  ∃ s' r, user_step t i s = Some (s', r) ∧
    same_spaces s s' ∧ same_ptes s s' roots ∧ keeps_tables s s' role ∧
    ∃ P' role', tinv s' P' roots role' ∧ P ⊆ P' ∧ role ⊆ role' ∧
      (∀ t', r = Some t' → role' !! t' = Some (sp, path ++ [i]) ∧
         pte_is_table (entry (tables s') t i) = true ∧ pte_to_phys (entry (tables s') t i) = t').
Proof.
  intros Hinv Ht Hl Hi H0 Hk Hcs. unfold user_step. fold (pte_is_valid (entry (tables s) t i)).
  destruct (pte_is_valid (entry (tables s) t i)) eqn:Ev; cbn [negb].
  - pose proof (tr_user _ _ _ (ti_tree _ _ _ _ Hinv) _ _ _ _ Ht Hl Hi H0 Hk Hcs Ev) as Et.
    pose proof (tr_child _ _ _ (ti_tree _ _ _ _ Hinv) _ _ _ _ Ht Hl Hi Et) as Hc. rewrite Hcs in Hc.
    do 2 eexists. do 4 (split; [done|]). exists P, role. do 3 (split; [done|]).
    by intros t' [= <-].
  - destruct (install_ok s P roots role t i sp path Hinv Ht Hl Hi Ev)
      as (s1 & r1 & E1 & Hss1 & Hsp1 & Hk1 & Hr1). rewrite E1. cbn [mbind option_bind].
    destruct r1 as [new|].
    2: { exists s1, None. do 4 (split; [done|]). exists P, role. by do 3 (split; [done|]). }
    rewrite user_entry_table_pte. cbn [tables with_tables].
    rewrite entry_insert, decide_True by done.
    destruct Hr1 as (P1 & role1 & Hinv1 & HP1 & Hrole1 & Hta & Hnew & Hsp1' & Hk1' & _).
    fold (pte_to_phys (table_pte new)). pose proof Hta as [[? ?] ?].
    rewrite table_pte_phys by (done || lia).
    do 2 eexists. split; [reflexivity|]. do 3 (split; [done|]).
    exists P1, role1. do 3 (split; [done|]). intros t' [= <-]. rewrite Hcs in Hnew.
    cbn [tables with_tables]. rewrite entry_insert, decide_True by done.
    split; [done|]. split; [apply table_pte_is_table|]. apply table_pte_phys; [lia|done].
Qed.

Lemma user_index va : 0 ≤ va < USER_VMA_END → 0 ≤ pte_index va 0 < 256.
Proof.
  unfold USER_VMA_END. intros Hva. rewrite pte_index_div by lia.
  assert (0 ≤ va / 2 ^ 12 / 512 ^ (3 - 0) < 256) as H.
  { rewrite Z.div_div by lia. change (2 ^ 12 * 512 ^ (3 - 0)) with 0x8000000000. lia_mod. }
  rewrite Z.mod_small; lia.
Qed.

Lemma user_va_space r va : 0 ≤ va < USER_VMA_END → va_space r va = r.
Proof.
  intros Hva%user_index. unfold va_space, child_space.
  destruct (Z.leb_spec 256 (pte_index va 0)); [lia|done].
Qed.

Lemma table_kept s s' role u j sp path t' :
  role !! u = Some (sp, path) → keeps_tables s s' role →
  pte_is_table (entry (tables s) u j) = true → pte_to_phys (entry (tables s) u j) = t' →
  pte_is_table (entry (tables s') u j) = true ∧ pte_to_phys (entry (tables s') u j) = t'.
Proof. intros Hu Hk Ht Hp. rewrite Hk by eauto. done. Qed.

Lemma map_user_page_ok s P roots m a pgd va pa fl :
  vmm_inv s P roots → mm_pool s !! m = Some a → mm_pgd a = Some pgd → 0 ≤ va →
  ∃ s' ret P', vmm_map_user_page (Some m) va pa fl s = Some (s', ret) ∧
    vmm_inv s' P' roots ∧ P ⊆ P' ∧ same_spaces s s' ∧
    ((ret = 0 ∧ va < USER_VMA_END ∧
      pte_set s s' roots pgd va (Some (3, phys_to_pte pa (user_pte_flags fl)))) ∨
     (ret = -1 ∧ same_ptes s s' roots)).
Proof.
  intros (role & Hinv & Hm) Ha Hpgd Hva. unfold vmm_map_user_page. rewrite Ha. cbn [mbind option_bind].
  rewrite Hpgd. destruct (Z.leb_spec USER_VMA_END va).
  { exists s, (-1), P. split; [done|]. split; [by exists role|]. do 2 (split; [done|]). by right. }
  destruct (mi_pgd _ _ Hm _ _ _ Ha Hpgd) as [Hroot Hnk].
  destruct (tinv_root _ _ _ _ _ Hinv Hroot) as [_ [[Hpos _] _]].
  assert (pgd ≠ 0) as Hn0 by lia.
  pose proof (user_index va ltac:(lia)) as Hi0.
  pose proof (pte_index_range va 1 ltac:(lia)) as Hi1.
  pose proof (pte_index_range va 2 ltac:(lia)) as Hi2.
  fold (pte_index va 0) (pte_index va 1) (pte_index va 2) (pte_index va 3). cbn zeta.
  change (Z.land (Z.shiftr va VMM_LEVEL0_SHIFT) (VMM_ENTRIES - 1)) with (pte_index va 0).
  change (Z.land (Z.shiftr va VMM_LEVEL1_SHIFT) (VMM_ENTRIES - 1)) with (pte_index va 1).
  change (Z.land (Z.shiftr va VMM_LEVEL2_SHIFT) (VMM_ENTRIES - 1)) with (pte_index va 2).
  change (Z.land (Z.shiftr va VMM_LEVEL3_SHIFT) (VMM_ENTRIES - 1)) with (pte_index va 3).
  assert (child_space pgd [] (pte_index va 0) = pgd) as Hcs.
  { cbn [child_space]. destruct (Z.leb_spec 256 (pte_index va 0)); [lia|done]. }
  pose proof (tr_root _ _ _ (ti_tree _ _ _ _ Hinv) _ Hroot) as Hr0.
  destruct (user_step_ok s P roots role pgd (pte_index va 0) pgd [] Hinv Hr0
    ltac:(cbn; lia) ltac:(lia) Hn0 Hnk Hcs)
    as (s1 & r1 & E1 & Hss1 & Hsp1 & Hk1 & P1 & role1 & Hinv1 & HP1 & Hro1 & Hr1).
  rewrite E1. cbn [mbind option_bind].
  destruct r1 as [l1|].
  2: { exists s1, (-1), P1. split; [done|]. split; [exists role1; split; [done|by apply (minv_same s)]|].
       do 2 (split; [done|]). by right. }
  destruct (Hr1 l1 eq_refl) as (Hl1 & Ht1 & Hp1). cbn [app] in Hl1.
  destruct (user_step_ok s1 P1 roots role1 l1 (pte_index va 1) pgd [pte_index va 0] Hinv1 Hl1
    ltac:(cbn; lia) ltac:(lia) Hn0 Hnk eq_refl)
    as (s2 & r2 & E2 & Hss2 & Hsp2 & Hk2 & P2 & role2 & Hinv2 & HP2 & Hro2 & Hr2).
  rewrite E2. cbn [mbind option_bind].
  pose proof (same_spaces_trans _ _ _ Hss1 Hss2) as Hss12.
  pose proof (same_ptes_trans _ _ _ _ Hsp1 Hsp2) as Hsp12.
  destruct r2 as [l2|].
  2: { exists s2, (-1), P2. split; [done|]. split; [exists role2; split; [done|by apply (minv_same s)]|].
       split; [by etrans|]. split; [done|]. by right. }
  destruct (Hr2 l2 eq_refl) as (Hl2 & Ht2 & Hp2). cbn [app] in Hl2.
  destruct (user_step_ok s2 P2 roots role2 l2 (pte_index va 2) pgd [pte_index va 0; pte_index va 1]
    Hinv2 Hl2 ltac:(cbn; lia) ltac:(lia) Hn0 Hnk eq_refl)
    as (s3 & r3 & E3 & Hss3 & Hsp3 & Hk3 & P3 & role3 & Hinv3 & HP3 & Hro3 & Hr3).
  rewrite E3. cbn [mbind option_bind].
  pose proof (same_spaces_trans _ _ _ Hss12 Hss3) as Hss.
  pose proof (same_ptes_trans _ _ _ _ Hsp12 Hsp3) as Hsp.
  assert (minv s3 roots) as Hm3 by (by apply (minv_same s)).
  assert (P ⊆ P3) as HP by (by do 2 etrans).
  destruct r3 as [l3|].
  2: { exists s3, (-1), P3. split; [done|]. split; [by exists role3|]. do 2 (split; [done|]). by right. }
  destruct (Hr3 l3 eq_refl) as (Hl3 & Ht3 & Hp3).
  assert (walk_ro 3 0 (tables s3) pgd va = Some l3) as Hw.
  { assert (role2 !! pgd = Some (pgd, [])) as Hr02 
      by exact (lookup_weaken _ _ _ _ (lookup_weaken _ _ _ _ Hr0 Hro1) Hro2).
    destruct (table_kept s1 s2 role1 pgd (pte_index va 0) pgd [] l1 (lookup_weaken _ _ _ _ Hr0 Hro1) Hk2 Ht1 Hp1) as [Ha1 Hb1].
    destruct (table_kept s2 s3 role2 pgd (pte_index va 0) pgd [] l1 Hr02 Hk3 Ha1 Hb1) as [Ha2 Hb2].
    destruct (table_kept s2 s3 role2 l1 (pte_index va 1) pgd [pte_index va 0] l2 (lookup_weaken _ _ _ _ Hl1 Hro2) Hk3 Ht2 Hp2) as [Ha3 Hb3].
    cbn [walk_ro]. cbn zeta. rewrite Ha2, Hb2. change (0 + 1) with 1. rewrite Ha3, Hb3.
    change (1 + 1) with 2. by rewrite Ht3, Hp3. }
  do 2 eexists. exists P3. split; [reflexivity|]. split; [|split; [done|split; [done|]]].
  - exists role3. split; [by eapply tinv_leaf|]. by apply (minv_same s3).
  - left. split; [done|]. split; [done|]. eapply pte_set_before; [done|].
    pose proof (leaf_pte_set s3 P3 roots role3 pgd va l3
                  (phys_to_pte pa (user_pte_flags fl)) Hinv3 Hroot Hw) as Hset.
    unfold page_entry in Hset. rewrite pte_is_valid_bit, phys_to_pte_bit in Hset by lia.
    by rewrite (proj1 (user_flags_valid fl)) in Hset.
Qed.

(** ** Creating and destroying address spaces *)

(** The state at boot: the static arrays are zero. *)
Definition vmm_boot (ps : S) : vmm S := mk_vmm ∅ 0 ps ∅ 0 ∅ 0.

Record static_tables (P : gset Z) : Prop := {
  st_pgd : kernel_pgd ∈ P ∧ table_addr kernel_pgd;
  st_early i : 0 ≤ i < EARLY_TABLES_COUNT → early_table i ∈ P ∧ table_addr (early_table i);
  st_apart i : 0 ≤ i < EARLY_TABLES_COUNT → early_table i ≠ kernel_pgd
}.

Lemma vmm_boot_inv ps P :
  pa_inv ps P → static_tables P → vmm_inv (vmm_boot ps) P {[kernel_pgd]}.
Proof.
  intros Hp [Hk He Ha]. exists {[kernel_pgd := (kernel_pgd, [])]}. split.
  - split; cbn; try done.
    + split.
      * intros r ->%elem_of_singleton. by rewrite lookup_singleton_eq.
      * intros t sp path i _ _ _. unfold entry. by rewrite lookup_empty.
      * intros t sp path i _ _ _ _ _ _. unfold entry. by rewrite lookup_empty.
    + by apply elem_of_singleton.
    + intros t [x [<- _]%lookup_singleton_Some]. done.
    + intros i Hi. apply lookup_singleton_ne. intros E. by eapply Ha.
  - split; cbn; try done; try lia; try (intros; by rewrite lookup_empty in * ).
Qed.

(** *** The kernel's own map *)

(** A block written into a table of the kernel. *)
Lemma tinv_block s P roots role t path i v :
  tinv s P roots role → role !! t = Some (kernel_pgd, path) → pte_is_table v = false →
  tinv (with_tables (<[(t, i) := v]> (tables s)) s) P roots role.
Proof.
  intros [Htr ? ? ? ? ? ?] Ht Hv. split; cbn; try assumption. split.
  - apply Htr.
  - intros u sp path' j Hu Hl Hj. rewrite entry_insert. case_decide; [congruence|by eapply tr_child].
  - intros u sp path' j Hu Hl Hj. rewrite entry_insert. case_decide as E; [|by eapply tr_user].
    destruct E as [-> _]. congruence.
Qed.

(** What vmm_init maps in the first 512 GB, by the index of the gigabyte. *)
Definition init_block (i : Z) : option (Z * Z) :=
  if i =? 0 then Some (1, dev_block 0x00000000)
  else if i =? 1 then Some (1, ram_block 0x40000000)
  else if i =? 256 then Some (1, dev_block 0x4000000000)
  else None.

Lemma init_entry tm l j :
  (∀ i, 0 ≤ i < 512 → entry tm l i = 0) → 0 ≤ j < 512 →
  entry (<[(l, 256) := dev_block 0x4000000000]> (<[(l, 1) := ram_block 0x40000000]>
    (<[(l, 0) := dev_block 0x00000000]> tm))) l j = default 0 (snd <$> init_block j).
Proof.
  intros Hz Hj. rewrite !entry_insert, Hz by done. unfold init_block.
  repeat case_decide; destruct (Z.eqb_spec j 0), (Z.eqb_spec j 1), (Z.eqb_spec j 256); done || (exfalso; lia).
Qed.

Lemma init_pte_from tm l va :
  entry tm l (pte_index va 1) = default 0 (snd <$> init_block (pte_index va 1)) →
  pte_from 2 1 tm l va = init_block (pte_index va 1).
Proof. intros E. rewrite pte_from_step. cbn zeta. rewrite E. unfold init_block. by repeat case_match. Qed.

(** vmm_init maps the device memory and the RAM of the machine by blocks, in
    the kernel's space, and keeps the invariant; out of memory it fails and
    changes no translation. *)
Lemma vmm_init_ok s P roots :
  vmm_inv s P roots → pte_is_valid (entry (tables s) kernel_pgd 0) = false →
  ∃ s' ret P', vmm_init s = Some (s', ret) ∧ vmm_inv s' P' roots ∧ P ⊆ P' ∧
    ((ret = -1 ∧ same_ptes s s' roots) ∨
     (ret = 0 ∧ ∀ va, pte_index va 0 = 0 → pte_of (tables s') kernel_pgd va = init_block (pte_index va 1))).
Proof.
  intros (role & Hinv & Hm) Hv. unfold vmm_init. change (pte_index 0 0) with 0.
  pose proof (tr_root _ _ _ (ti_tree _ _ _ _ Hinv) _ (ti_kernel _ _ _ _ Hinv)) as Hk.
  destruct (install_ok s P roots role kernel_pgd 0 kernel_pgd [] Hinv Hk ltac:(cbn; lia) ltac:(lia) Hv)
    as (s1 & r & E & Hss & Hsp & _ & Hr).
  rewrite E. cbn [mbind option_bind]. pose proof (minv_same _ _ _ Hss Hm) as Hm1.
  destruct r as [l1|]; [|exists s1, (-1), P; do 3 (split; [done || by exists role|]); by left].
  destruct Hr as (P' & role' & Hinv' & HP & Hrole & Hta & Hl1 & _ & _ & Hz). cbn in Hl1.
  assert (kernel_pgd ≠ l1) as Hne by (intros <-; pose proof (lookup_weaken _ _ _ _ Hk Hrole); congruence).
  do 2 eexists. exists P'. split; [reflexivity|]. split; [|split; [done|right; split; [done|]]].
  - exists role'. split; [|by apply (minv_same s1)].
    by apply (tinv_block (with_tables _ _) _ _ _ l1 [0]);
      [apply (tinv_block (with_tables _ _) _ _ _ l1 [0]); [apply (tinv_block (with_tables _ s1) _ _ _ l1 [0])|..]|..].
  - intros va Hi. unfold pte_of. rewrite pte_from_step. cbn zeta. rewrite Hi.
    cbn [tables with_tables]. rewrite !entry_insert, !(decide_False (P := kernel_pgd = l1 ∧ _)) by tauto.
    rewrite decide_True by done. fold (table_pte l1). rewrite table_pte_is_table.
    destruct Hta as [[? ?] ?]. rewrite table_pte_phys by (done || lia).
    apply init_pte_from, init_entry; [exact Hz|]. apply pte_index_range. lia.
Qed.

Lemma new_root_tree tm tm' role roots new :
  tree tm role roots → kernel_pgd ∈ roots → role !! new = None →
  (∀ u j, u ≠ new → entry tm' u j = entry tm u j) →
  (∀ j, 0 ≤ j < 512 → entry tm' new j = if 256 <=? j then entry tm kernel_pgd j else 0) →
  new ≠ 0 → tree tm' (<[new := (new, [])]> role) ({[new]} ∪ roots).
Proof.
  intros Htr Hk Hn Hother Hnew H0.
  pose proof (tr_root _ _ _ Htr _ Hk) as Hkr.
  split.
  - intros r [->%elem_of_singleton|Hr]%elem_of_union; [by rewrite lookup_insert_eq|].
    rewrite lookup_insert_ne; [by apply Htr|]. intros ->. pose proof (tr_root _ _ _ Htr _ Hr). congruence.
  - intros t sp path i. rewrite lookup_insert. case_decide as E.
    + intros [= <- <-] _ Hi. subst t. rewrite Hnew by done. cbn [child_space app].
      destruct (Z.leb_spec 256 i) as [Hh|]; [|done]. intros Ht.
      pose proof (tr_child _ _ _ Htr _ _ _ i Hkr ltac:(cbn; lia) Hi Ht) as Hc. cbn [child_space app] in Hc.
      destruct (Z.leb_spec 256 i); [|lia]. rewrite lookup_insert_ne by congruence. done.
    + intros Hu Hl Hi. rewrite Hother by congruence. intros Ht.
      pose proof (tr_child _ _ _ Htr _ _ _ i Hu Hl Hi Ht) as Hc.
      rewrite lookup_insert_ne by congruence. done.
  - intros t sp path i. rewrite lookup_insert. case_decide as E.
    + intros [= <- <-] _ Hi _ _. subst t. rewrite Hnew by done. cbn [child_space].
      destruct (Z.leb_spec 256 i) as [Hh|]; [congruence|done].
    + intros Hu Hl Hi. rewrite Hother by congruence. by eapply tr_user.
Qed.

Lemma pte_of_upper tm tm' role roots r va :
  tree tm role roots → kernel_pgd ∈ roots → (∀ u i, is_Some (role !! u) → entry tm' u i = entry tm u i) →
  entry tm' r (pte_index va 0) = entry tm kernel_pgd (pte_index va 0) →
  pte_of tm' r va = pte_of tm kernel_pgd va.
Proof.
  intros Htr Hk Hext He. unfold pte_of. rewrite !pte_from_step. cbn zeta. rewrite He.
  destruct (pte_is_table _) eqn:Et; [|done].
  pose proof (pte_index_range va 0 ltac:(lia)) as Hi.
  pose proof (tr_child _ _ _ Htr _ _ _ _ (tr_root _ _ _ Htr _ Hk) ltac:(cbn; lia) Hi Et) as Hc.
  eapply (pte_from_ext 2 (0 + 1)); [done|done|done|done|eauto].
Qed.

(** The pool after a new space was created, or its creation failed. *)
Lemma new_mm_minv s roots m new s' :
  minv s roots → m = mm_index s → (new ∉ roots) → new ≠ kernel_pgd →
  mm_pool s' = <[m := mk_mm (Some new) None 0 1]> (mm_pool s) → mm_index s' = m + 1 →
  vma_pool s' = vma_pool s → vma_index s' = vma_index s →
  minv s' ({[new]} ∪ roots).
Proof.
  intros [H1 H2 H3 H4 H5 H6 H7] -> Hnr Hnk E1 E2 E3 E4.
  split; rewrite ?E1, ?E2, ?E3, ?E4; try assumption; try lia.
  - intros m a p. rewrite lookup_insert. case_decide.
    + intros [= <-] [= <-]. split; [apply elem_of_union; left; by apply elem_of_singleton|done].
    + intros Ha Hp. destruct (H1 _ _ _ Ha Hp). split; [apply elem_of_union; by right|done].
  - intros m m' a a' p. rewrite !lookup_insert. do 2 case_decide; try congruence.
    + intros [= <-] Ha' [= <-] Hp'. by destruct (H1 _ _ _ Ha' Hp').
    + intros Ha [= <-] Hp [= <-]. by destruct (H1 _ _ _ Ha Hp).
    + by eapply H2.
  - intros m. rewrite lookup_insert. case_decide; [lia|]. intros Hs%H3. lia.
  - intros m a v. rewrite lookup_insert. case_decide; [by intros [= <-]|]. by eapply H5.
Qed.

Lemma failed_mm_minv s roots m l t u s' :
  minv s roots → m = mm_index s → (∀ v, l = Some v → 0 ≤ v < vma_index s) →
  mm_pool s' = <[m := mk_mm None l t u]> (mm_pool s) → mm_index s' = m + 1 →
  vma_pool s' = vma_pool s → vma_index s' = vma_index s → minv s' roots.
Proof.
  intros [H1 H2 H3 H4 H5 H6 H7] -> Hl E1 E2 E3 E4.
  split; rewrite ?E1, ?E2, ?E3, ?E4; try assumption; try lia.
  - intros m a p. rewrite lookup_insert. case_decide; [by intros [= <-]|]. by eapply H1.
  - intros m m' a a' p. rewrite !lookup_insert. do 2 case_decide; try (by intros; simplify_eq).
    by eapply H2.
  - intros m. rewrite lookup_insert. case_decide; [lia|]. intros Hs%H3. lia.
  - intros m a v. rewrite lookup_insert. case_decide; [by intros [= <-]; apply Hl|]. by eapply H5.
Qed.

Lemma create_address_space_ok s P roots :
  vmm_inv s P roots →
  ∃ s' r P', vmm_create_address_space s = Some (s', r) ∧ P ⊆ P' ∧ same_ptes s s' roots ∧
    match r with
    | None => vmm_inv s' P' roots
    | Some m => ∃ a pgd, mm_pool s' !! m = Some a ∧ mm_pool s !! m = None ∧ mm_pgd a = Some pgd ∧
        (pgd ∉ roots) ∧ vmm_inv s' P' ({[pgd]} ∪ roots) ∧
        ∀ va, pte_of (tables s') pgd va =
              if pte_index va 0 <? 256 then None else pte_of (tables s) kernel_pgd va
    end.
Proof.
  intros (role & Hinv & Hm). unfold vmm_create_address_space.
  destruct (Z.leb_spec 64 (mm_index s)).
  { exists s, None, P. do 3 (split; [done|]). by exists role. }
  set (m := mm_index s). set (old := default _ _).
  set (s0 := with_mm (mm_pool s) (m + 1) s).
  assert (mm_pool s !! m = None) as Hfree.
  { destruct (mm_pool s !! m) eqn:E; [|done]. pose proof (mi_index _ _ Hm m ltac:(by eauto)). lia. }
  assert (tinv s0 P roots role) as Hinv0 by (destruct Hinv; by split).
  destruct (alloc_page_table_ok s0 P roots role Hinv0) as (s1 & r & E & (M1 & M2 & M3 & M4) & Hsp & _ & Hr).
  rewrite E. cbn [mbind option_bind]. destruct r as [new|].
  - destruct Hr as (P' & Hinv1 & HP & Hn & HnP & Hta & Hz & Hother & Hearly).
    do 2 eexists. exists P'. split; [reflexivity|]. split; [done|].
    cbn [tables with_tables with_mm mm_pool]. set (tm' := fill_entries _ _ _ _ _).
    assert (∀ u j, u ≠ new → entry tm' u j = entry (tables s1) u j) as Hoth.
    { intros u j Hu. unfold tm'. rewrite entry_fill, decide_False by tauto. done. }
    assert (∀ j, 0 ≤ j < 512 → entry tm' new j =
      if 256 <=? j then entry (tables s1) kernel_pgd j else 0) as Hnw.
    { intros j Hj. unfold tm'. rewrite entry_fill.
      destruct (Z.leb_spec 256 j); [by rewrite decide_True by lia|].
      rewrite decide_False by lia. by apply Hz. }
    assert (∀ u j, is_Some (role !! u) → entry tm' u j = entry (tables s1) u j) as Hrole.
    { intros u j [x Hx]. apply Hoth. congruence. }
    pose proof (ti_tree _ _ _ _ Hinv1) as Htr. pose proof (ti_kernel _ _ _ _ Hinv1) as Hk.
    assert (new ≠ 0) as Hn0 by (destruct Hta as [[? ?] _]; lia).
    assert (new ∉ roots) as Hnr.
    { intros Hin. pose proof (tr_root _ _ _ Htr _ Hin). congruence. }
    split.
    { intros r va Hr. etrans; [by eapply pte_of_ext|exact (Hsp r va Hr)]. }
    exists (mk_mm (Some new) None 0 1), new. split; [by rewrite lookup_insert_eq|].
    split; [done|]. split; [done|]. split; [done|]. split.
    + exists (<[new := (new, [])]> role). split.
      * destruct Hinv1 as [? ? ? Hd ? ? Hu].
        split; cbn [tables with_tables with_mm early_table_index pages]; try assumption.
        -- by apply (new_root_tree (tables s1)).
        -- apply elem_of_union; by right.
        -- intros t. rewrite lookup_insert. case_decide; [by subst|]. apply Hd.
        -- intros i Hi. rewrite lookup_insert_ne; [by apply Hu|]. intros Heq. by eapply Hearly.
      * apply (new_mm_minv s roots m new); try done; [congruence|].
        cbn [mm_pool with_tables with_mm]. by rewrite M1.
    + intros va. pose proof (pte_index_range va 0 ltac:(lia)) as Hi.
      destruct (Z.ltb_spec (pte_index va 0) 256).
      * unfold pte_of. rewrite pte_from_step. cbn zeta. rewrite Hnw by done.
        destruct (Z.leb_spec 256 (pte_index va 0)); [lia|done].
      * etrans; [|exact (Hsp kernel_pgd va Hk)]. eapply pte_of_upper; [done|done|done|].
        rewrite Hnw by done. destruct (Z.leb_spec 256 (pte_index va 0)); [done|lia].
  - do 2 eexists. exists P. split; [reflexivity|]. split; [done|]. split; [done|].
    exists role. split; [destruct Hr; by split|]. 
    apply (failed_mm_minv s roots m (mm_vma_list old) (mm_total_vm old) (mm_users old) _ Hm);
      try done.
    + unfold old. by rewrite Hfree.
    + cbn [mm_pool with_mm]. by rewrite M1.
Qed.

(** The pool only grows. *)
Lemma create_pool_grows s s' r x :
  vmm_create_address_space s = Some (s', r) → is_Some (mm_pool s !! x) → is_Some (mm_pool s' !! x).
Proof.
  unfold vmm_create_address_space, alloc_page_table. destruct (Z.leb_spec 64 (mm_index s)).
  { by intros [= <- <-]. }
  intros E Hx. destruct (Z.ltb_spec (early_table_index (with_mm (mm_pool s) (mm_index s + 1) s)) EARLY_TABLES_COUNT).
  - cbn [mbind option_bind] in E. injection E as <- _. cbn [mm_pool with_tables with_mm].
    rewrite lookup_insert. case_decide; [by eexists|done].
  - apply bind_Some in E as ([s1 r1] & E1 & E). apply bind_Some in E1 as ([ps p] & _ & E1).
    destruct (p =? 0); injection E1 as <- <-; injection E as <- _; cbn [mm_pool with_tables with_mm with_pages];
      rewrite lookup_insert; (case_decide; [by eexists|done]).
Qed.

(** A new address space has no user mapping, shares the kernel's upper
    half, and its creation changes no translation of the other spaces; when
    the pool or the memory is exhausted NULL is returned and nothing changes. *)
Theorem vmm_create_address_space_correct s P roots :
  vmm_inv s P roots →
  ∃ s' r P', vmm_create_address_space s = Some (s', r) ∧ P ⊆ P' ∧ same_ptes s s' roots ∧
    match r with
    | None => vmm_inv s' P' roots
    | Some m => ∃ a pgd, mm_pool s' !! m = Some a ∧ mm_pool s !! m = None ∧ mm_pgd a = Some pgd ∧
        (pgd ∉ roots) ∧ vmm_inv s' P' ({[pgd]} ∪ roots) ∧
        ∀ va, pte_of (tables s') pgd va =
              if pte_index va 0 <? 256 then None else pte_of (tables s) kernel_pgd va
    end.
Proof. apply create_address_space_ok. Qed.

(** ** VM areas *)

(** The VMAs of a list, from the pointer [p] on. *)
Fixpoint vma_chain s (p : option Z) (l : list Z) : Prop :=
  match l with
  | [] => p = None
  | v :: l' => p = Some v ∧ ∃ x, vma_pool s !! v = Some x ∧ vma_chain s (vma_next x) l'
  end.

Lemma vma_chain_exists s roots (k : nat) p :
  minv s roots → Z.of_nat k ≤ vma_index s → (∀ v, p = Some v → 0 ≤ v < Z.of_nat k) →
  ∃ l, vma_chain s p l ∧ (length l ≤ k)%nat.
Proof.
  intros Hm. revert p. induction k as [k IH] using lt_wf_ind. intros p Hk Hp.
  destruct p as [v|]; [|by exists []; split; [|cbn; lia]].
  specialize (Hp v eq_refl). destruct (mi_vma _ _ Hm v ltac:(lia)) as [x Hx].
  destruct (IH (Z.to_nat v) ltac:(lia) (vma_next x) ltac:(lia)) as (l & Hl & Hlen).
  { intros w Hw. pose proof (mi_next _ _ Hm _ _ _ Hx Hw). lia. }
  exists (v :: l). split; [|cbn; lia]. split; [done|]. by exists x.
Qed.

Definition vma_contains s (addr v : Z) : bool :=
  match vma_pool s !! v with
  | Some x => (vma_start x <=? addr) && (addr <? vma_end x)
  | None => false
  end.

Lemma find_vma_loop_spec fuel p l addr s :
  vma_chain s p l → (length l < fuel)%nat →
  find_vma_loop fuel p addr s = Some (head (filter (λ v, vma_contains s addr v = true) l)).
Proof.
  revert p l. induction fuel as [|fuel IH]; intros p l Hc Hl; [lia|].
  destruct l as [|v l]; cbn in Hc; [by subst|].
  destruct Hc as (-> & x & Hx & Hc). cbn [find_vma_loop]. rewrite Hx. cbn [mbind option_bind].
  assert (vma_contains s addr v = (vma_start x <=? addr) && (addr <? vma_end x)) as Hvc.
  { unfold vma_contains. by rewrite Hx. }
  rewrite filter_cons. destruct ((vma_start x <=? addr) && (addr <? vma_end x)).
  - by rewrite decide_True by done.
  - rewrite decide_False by congruence. apply IH; [done|cbn in Hl; lia].
Qed.

Lemma vma_walk_ok fuel p l s :
  vma_chain s p l → (length l < fuel)%nat → vma_walk fuel p s = Some ().
Proof.
  revert p l. induction fuel as [|fuel IH]; intros p l Hc Hl; [lia|].
  destruct l as [|v l]; cbn in Hc; [by subst|].
  destruct Hc as (-> & x & Hx & Hc). cbn [vma_walk]. rewrite Hx. cbn [mbind option_bind].
  eapply IH; [done|cbn in Hl; lia].
Qed.

(** The list of an address space, which the fuel of the walks covers. *)
Lemma mm_chain s roots m a :
  minv s roots → mm_pool s !! m = Some a →
  ∃ l, vma_chain s (mm_vma_list a) l ∧ Z.of_nat (length l) ≤ vma_index s.
Proof.
  intros Hm Ha. pose proof (mi_count _ _ Hm).
  destruct (vma_chain_exists s roots (Z.to_nat (vma_index s)) (mm_vma_list a) Hm) as (l & Hl & Hlen).
  - lia.
  - intros v Hv. pose proof (mi_list _ _ Hm _ _ _ Ha Hv). lia.
  - exists l. split; [done|lia].
Qed.

Lemma vma_chain_frame s s' p l v x :
  vma_pool s' = <[v := x]> (vma_pool s) → (v ∉ l) → vma_chain s p l → vma_chain s' p l.
Proof.
  intros E. revert p. induction l as [|w l IH]; intros p Hv Hc; cbn in *; [done|].
  destruct Hc as (-> & y & Hy & Hc). split; [done|]. exists y.
  apply not_elem_of_cons in Hv as [Hvw Hv].
  split; [rewrite E, lookup_insert_ne by done; done|]. by apply IH.
Qed.

Lemma vma_chain_bound s roots p l v :
  minv s roots → (∀ w, p = Some w → 0 ≤ w < vma_index s) → vma_chain s p l → v ∈ l → v < vma_index s.
Proof.
  intros Hm. revert p. induction l as [|w l IH]; intros p Hp Hc Hv; [by apply elem_of_nil in Hv|].
  destruct Hc as (-> & x & Hx & Hc). specialize (Hp w eq_refl).
  apply elem_of_cons in Hv as [->|Hv]; [lia|]. apply (IH (vma_next x)); [|done|done].
  intros u Hu. pose proof (mi_next _ _ Hm _ _ _ Hx Hu). lia.
Qed.

Lemma add_vma_minv s roots m a s' start end_ flags t :
  minv s roots → mm_pool s !! m = Some a → vma_index s < 256 →
  mm_pool s' = <[m := mk_mm (mm_pgd a) (Some (vma_index s)) t (mm_users a)]> (mm_pool s) →
  mm_index s' = mm_index s →
  vma_pool s' = <[vma_index s := mk_vma start end_ flags (mm_vma_list a)]> (vma_pool s) →
  vma_index s' = vma_index s + 1 → minv s' roots.
Proof.
  intros [H1 H2 H3 H4 H5 H6 H7] Ha Hlt E1 E2 E3 E4.
  split; rewrite ?E1, ?E2, ?E3, ?E4; try assumption; try lia.
  - intros m' a' p. rewrite lookup_insert. case_decide; [|by apply H1].
    intros [= <-]. cbn. by eapply H1.
  - intros m1 m2 a1 a2 p. rewrite !lookup_insert. do 2 case_decide; subst; try done.
    + intros [= <-] Ha2 Hp1 Hp2. by eapply H2.
    + intros Ha1 [= <-] Hp1 Hp2. by eapply H2.
    + by eapply H2.
  - intros m'. rewrite lookup_insert. case_decide; [|apply H3]. intros _. apply H3. subst. by eexists.
  - intros m' a' v. rewrite lookup_insert. case_decide.
    + intros [= <-] [= <-]. lia.
    + intros Ha' Hv. pose proof (H5 _ _ _ Ha' Hv). lia.
  - intros v Hv. rewrite lookup_insert. case_decide; [by eexists|]. apply H6. lia.
  - intros v x w. rewrite lookup_insert. case_decide.
    + intros [= <-]. cbn. intros Hw. pose proof (H5 _ _ _ Ha Hw). lia.
    + by apply H7.
Qed.

Lemma find_vma_loop_step fuel v x addr s :
  vma_pool s !! v = Some x →
  find_vma_loop (Datatypes.S fuel) (Some v) addr s =
  if (vma_start x <=? addr) && (addr <? vma_end x) then Some (Some v)
  else find_vma_loop fuel (vma_next x) addr s.
Proof. intros Hx. cbn [find_vma_loop]. by rewrite Hx. Qed.

Lemma find_vma_loop_frame fuel s s' p l v x addr :
  vma_pool s' = <[v := x]> (vma_pool s) → (v ∉ l) → vma_chain s p l →
  find_vma_loop fuel p addr s' = find_vma_loop fuel p addr s.
Proof.
  intros E. revert p l. induction fuel as [|fuel IH]; intros p l Hv Hc; [done|].
  destruct l as [|w l]; cbn in Hc; [by subst|].
  destruct Hc as (-> & y & Hy & Hc). apply not_elem_of_cons in Hv as [Hvw Hv].
  rewrite (find_vma_loop_step _ _ y _ s) by done.
  rewrite (find_vma_loop_step _ _ y _ s') by (by rewrite E, lookup_insert_ne).
  by rewrite (IH _ l).
Qed.

(** A VMA that was added is found by the lookup of every address it
    contains, before the VMAs added earlier; the lookups of other addresses
    are unchanged.  The lookup always terminates: the lists are acyclic and
    shorter than the pool. *)
Theorem vmm_add_find_vma s P roots m a start end_ flags addr :
  vmm_inv s P roots → mm_pool s !! m = Some a → vma_index s < 256 →
  ∃ s', vmm_add_vma (Some m) start end_ flags s = Some (s', 0) ∧ vmm_inv s' P roots ∧
    is_Some (vmm_find_vma (Some m) addr s) ∧
    vmm_find_vma (Some m) addr s' =
    if (start <=? addr) && (addr <? end_) then Some (Some (vma_index s))
    else vmm_find_vma (Some m) addr s.
Proof.
  intros (role & Hinv & Hm) Ha Hlt. unfold vmm_add_vma, vmm_find_vma.
  destruct (Z.leb_spec 256 (vma_index s)); [lia|]. rewrite Ha. cbn [mbind option_bind].
  eexists. split; [reflexivity|]. set (s' := with_mm _ _ _).
  destruct (mm_chain _ _ _ _ Hm Ha) as (l & Hl & Hlen).
  assert (vma_index s ∉ l) as Hni.
  { intros Hin. enough (vma_index s < vma_index s) by lia.
    apply (vma_chain_bound s roots (mm_vma_list a) l); [done| |done|done].
    intros w Hw. by eapply (mi_list _ _ Hm). }
  assert (vma_chain s' (mm_vma_list a) l) as Hl' by (by eapply vma_chain_frame).
  split; [|split].
  - exists role. split; [destruct Hinv; by split|]. by eapply add_vma_minv.
  - rewrite (find_vma_loop_spec _ _ l) by (done || lia). by eexists.
  - assert (∃ t u, mm_pool s' !! m = Some (mk_mm (mm_pgd a) (Some (vma_index s)) t u)) as (t & u & Hmm).
    { do 2 eexists. unfold s'. cbn [mm_pool with_mm with_vma]. by rewrite lookup_insert_eq. }
    rewrite Hmm. cbn [mbind option_bind mm_vma_list].
    assert (vma_pool s' !! vma_index s = Some (mk_vma start end_ flags (mm_vma_list a))) as Hv.
    { unfold s'. cbn [vma_pool with_mm with_vma]. by rewrite lookup_insert_eq. }
    rewrite (find_vma_loop_step 256 _ _ _ _ Hv). cbn [vma_start vma_end vma_next].
    destruct ((start <=? addr) && (addr <? end_)); [done|].
    rewrite (find_vma_loop_frame 256 s s' _ l _ _ addr eq_refl Hni Hl).
    rewrite !(find_vma_loop_spec _ _ l) by (done || lia). done.
Qed.

(** ** Correctness of the kernel mappings *)

(** The value vmm_virt_to_phys returns. *)
Definition phys_of s (va : Z) : option Z := snd <$> vmm_virt_to_phys va s.

Lemma phys_of_pte s s' va :
  pte_of (tables s') kernel_pgd va = pte_of (tables s) kernel_pgd va → phys_of s' va = phys_of s va.
Proof. intros E. unfold phys_of. rewrite !virt_to_phys_eq, E. done. Qed.

Lemma phys_of_mapped s va pa f :
  Z.land f PTE_ADDR_MASK = 0 → pte_of (tables s) kernel_pgd va = Some (3, phys_to_pte pa f) →
  phys_of s va = Some (Z.land pa PTE_ADDR_MASK + va `mod` PAGE_SIZE).
Proof.
  intros Hf Hp. unfold phys_of. rewrite virt_to_phys_eq, Hp. cbn [fmap option_fmap option_map snd Z.eqb Pos.eqb]. f_equal.
  rewrite pte_to_phys_flags by done. apply page_frame_offset.
  change PAGE_SIZE with (2 ^ 12). rewrite <- land_low_mask, <- Z.land_assoc by lia.
  change (Z.land PTE_ADDR_MASK (2 ^ 12 - 1)) with 0. apply Z.land_0_r.
Qed.

Lemma kernel_in_roots s P roots : vmm_inv s P roots → kernel_pgd ∈ roots.
Proof. intros (? & Ht & _). apply Ht. Qed.

(** Vmm_map_page either maps the page (every address of the page then
    translates to the same offset of the physical page) or fails; in both
    cases no other page changes its translation, and neither do the user
    pages of other address spaces.  It does not map a page twice. *)
Theorem vmm_map_page_correct s P roots va pa fl :
  vmm_inv s P roots →
  ∃ s' ret P', vmm_map_page va pa fl s = Some (s', ret) ∧ vmm_inv s' P' roots ∧ P ⊆ P' ∧
    user_same s s' roots ∧
    ((ret = 0 ∧ phys_of s va = Some 0 ∧
      (∀ va', same_page va' va →
         phys_of s' va' = Some (Z.land pa PTE_ADDR_MASK + va' `mod` PAGE_SIZE)) ∧
      (∀ va', ¬ same_page va' va → phys_of s' va' = phys_of s va')) ∨
     (ret = -1 ∧ ∀ va', phys_of s' va' = phys_of s va')).
Proof.
  intros Hinv. pose proof (kernel_in_roots _ _ _ Hinv) as Hk.
  destruct (map_page_ok s P roots va pa fl Hinv) as (s' & ret & P' & E & Hinv' & HP & Hor).
  exists s', ret, P'. do 3 (split; [done|]).
  destruct Hor as [(-> & Hn & Hset)|(-> & Hsame)].
  - split; [by eapply pte_set_user|]. left. split; [done|]. split; [|split].
    + unfold phys_of. by rewrite virt_to_phys_eq, Hn.
    + intros va' Hs. eapply phys_of_mapped; [apply (vm_flags_valid fl)|by apply Hset].
    + intros va' Hs. apply phys_of_pte, Hset; [done|by left].
  - split; [by apply same_ptes_user|]. right. split; [done|].
    intros va'. apply phys_of_pte. by apply Hsame.
Qed.

(** Unmapping a page that was just mapped succeeds and restores every
    translation; a second unmapping fails and changes nothing. *)
Theorem vmm_map_unmap_roundtrip s P roots va pa fl s1 :
  vmm_inv s P roots → vmm_map_page va pa fl s = Some (s1, 0) →
  ∃ s2, vmm_unmap_page va s1 = Some (s2, 0) ∧ (∀ va', phys_of s2 va' = phys_of s va') ∧
    user_same s s2 roots ∧ vmm_unmap_page va s2 = Some (s2, -1).
Proof.
  intros Hinv E1. pose proof (kernel_in_roots _ _ _ Hinv) as Hk.
  destruct (map_page_ok s P roots va pa fl Hinv) as (s1' & ret & P' & E & Hinv1 & _ & Hor).
  rewrite E1 in E. simplify_eq.
  destruct Hor as [(_ & Hn & Hset)|(? & _)]; [|done].
  destruct (unmap_page_ok s1' P' roots va Hinv1) as (s2 & ret & E2 & Hinv2 & Hor2).
  destruct Hor2 as [(-> & _ & Hset2)|(_ & _ & Hno)].
  2: { by rewrite (proj1 Hset va eq_refl) in Hno. }
  exists s2. split; [done|]. split; [|split].
  - intros va'. apply phys_of_pte. destruct (decide (vpath va' = vpath va)) as [Hs|Hs].
    + rewrite (proj1 Hset2) by done. symmetry. by rewrite (pte_of_same _ _ _ _ Hs).
    + rewrite (proj2 Hset2), (proj2 Hset) by (done || by left). done.
  - eapply user_same_trans; [by eapply pte_set_user|]. by eapply pte_set_user.
  - destruct (unmap_page_ok s2 P' roots va Hinv2) as (s3 & ret & E3 & _ & Hor3).
    destruct Hor3 as [(_ & [e Hx] & _)|(-> & -> & _)]; [|done].
    rewrite (proj1 Hset2 va eq_refl) in Hx. done.
Qed.

(** Vmm_map_range is all or nothing: when it succeeds every page of the
    range is mapped to the corresponding physical page, when it fails (memory
    exhausted, or a page of the range already mapped) every translation is as
    before; pages outside the range never change. *)
Theorem vmm_map_range_atomic s P roots v pa n fl :
  vmm_inv s P roots → v `mod` PAGE_SIZE = 0 → pa `mod` PAGE_SIZE = 0 → 0 ≤ v → 0 ≤ pa →
  0 ≤ n ≤ 2 ^ 36 → v + n * PAGE_SIZE ≤ 2 ^ 64 → pa + n * PAGE_SIZE ≤ 2 ^ 64 →
  ∃ s' ret P', vmm_map_range v pa (n * PAGE_SIZE) fl s = Some (s', ret) ∧
    vmm_inv s' P' roots ∧ user_same s s' roots ∧
    ((ret = 0 ∧
      (∀ i va, 0 ≤ i < n → same_page va (v + i * PAGE_SIZE) →
         phys_of s va = Some 0 ∧
         phys_of s' va = Some (Z.land (pa + i * PAGE_SIZE) PTE_ADDR_MASK + va `mod` PAGE_SIZE)) ∧
      (∀ va, ¬ in_pages v 0 n va → phys_of s' va = phys_of s va)) ∨
     (ret = -1 ∧ ∀ va, phys_of s' va = phys_of s va)).
Proof.
  intros Hinv Hv Hpa Hv0 Hpa0 Hn Hw Hpw. unfold vmm_map_range.
  rewrite (page_align_down v), (page_align_down pa), (page_align_size n) by (done || lia).
  rewrite Z.div_mul by done.
  assert (mapped_upto s s roots v pa fl 0) as Hmu.
  { split; [done| | |done]; [intros va (i & Hi & _)|intros i va Hi]; lia. }
  destruct (map_loop_ok s n (Z.to_nat n) 0 v pa fl s P roots)
    as (s' & ret & P' & E & Hinv' & _ & Hor); try done; try lia.
  change (0 * PAGE_SIZE) with 0 in E. rewrite E. exists s', ret, P'. do 2 (split; [done|]).
  destruct Hor as [(-> & [Hu Hf Hm Ho])|(-> & [Hu Hf Hm Ho])]; (split; [done|]); [left|right].
  - split; [done|]. split.
    + intros i va Hi Hs. split.
      * unfold phys_of. by rewrite virt_to_phys_eq, Hf by (exists i; done).
      * eapply phys_of_mapped; [apply (vm_flags_valid fl)|by apply Hm].
    + intros va Hne. by apply phys_of_pte, Ho.
  - split; [done|]. intros va. apply phys_of_pte, Ho. intros (i & Hi & _). lia.
Qed.

(** C7: mapping a user page changes that page of that address space only:
    all translations of the kernel and of every other address space, pages and
    blocks alike, and the other pages of this one, stay; a kernel address is
    refused. *)
Theorem vmm_map_user_page_isolated s P roots m a pgd va pa fl :
  vmm_inv s P roots → mm_pool s !! m = Some a → mm_pgd a = Some pgd → 0 ≤ va →
  ∃ s' ret P', vmm_map_user_page (Some m) va pa fl s = Some (s', ret) ∧
    vmm_inv s' P' roots ∧
    (USER_VMA_END ≤ va → ret = -1) ∧
    (∀ r va', r ∈ roots → r ≠ pgd → pte_of (tables s') r va' = pte_of (tables s) r va') ∧
    (∀ va', ¬ same_page va' va → pte_of (tables s') pgd va' = pte_of (tables s) pgd va') ∧
    pte_of (tables s') pgd va =
      if ret =? 0 then Some (3, phys_to_pte pa (user_pte_flags fl)) else pte_of (tables s) pgd va.
Proof.
  intros Hinv Ha Hpgd Hva.
  destruct (map_user_page_ok s P roots m a pgd va pa fl Hinv Ha Hpgd Hva)
    as (s' & ret & P' & E & Hinv' & _ & _ & Hor).
  exists s', ret, P'. do 2 (split; [done|]).
  destruct Hinv as (role & Ht & Hm). destruct (mi_pgd _ _ Hm _ _ _ Ha Hpgd) as [Hroot _].
  destruct Hor as [(-> & Hlt & Hset)|(-> & Hsame)].
  - split; [lia|]. split; [|split].
    + intros r va' Hr Hne. apply Hset; [done|]. right. rewrite (user_va_space pgd) by lia.
      destruct (tinv_root _ _ _ _ _ Ht Hroot) as [_ [[? _] _]].
      unfold va_space, child_space. zcase; [lia|done].
    + intros va' Hne. apply Hset; [done|by left].
    + cbn. by apply Hset.
  - split; [done|]. split; [|split]; intros; by apply Hsame.
Qed.

(** *** Destroying an address space *)

Lemma clear_root_tree tm tm' role roots pgd :
  tree tm role roots → role !! pgd = Some (pgd, []) →
  (∀ u j, u ≠ pgd → entry tm' u j = entry tm u j) →
  (∀ j, 0 ≤ j < 512 → entry tm' pgd j = if 256 <=? j then entry tm pgd j else 0) →
  tree tm' role roots.
Proof.
  intros Htr Hp Hother Hpgd. split.
  - apply Htr.
  - intros t sp path i Ht Hl Hi. destruct (decide (t = pgd)) as [->|Hne].
    + rewrite Hpgd by done. destruct (Z.leb_spec 256 i); [|done]. by eapply tr_child.
    + rewrite Hother by done. by eapply tr_child.
  - intros t sp path i Ht Hl Hi. destruct (decide (t = pgd)) as [->|Hne].
    + rewrite Hpgd by done. destruct (Z.leb_spec 256 i); [|done]. by eapply tr_user.
    + rewrite Hother by done. by eapply tr_user.
Qed.

Lemma clear_root_pte tm tm' role roots pgd r va :
  tree tm role roots → pgd ∈ roots → r ∈ roots →
  (∀ u j, u ≠ pgd → entry tm' u j = entry tm u j) →
  (∀ j, 0 ≤ j < 512 → entry tm' pgd j = if 256 <=? j then entry tm pgd j else 0) →
  pte_of tm' r va =
  if bool_decide (r = pgd) && (pte_index va 0 <? 256) then None else pte_of tm r va.
Proof.
  intros Htr Hp Hr Hother Hpgd. pose proof (pte_index_range va 0 ltac:(lia)) as Hi.
  unfold pte_of. rewrite !pte_from_step. cbn zeta.
  assert (pte_is_table (entry tm r (pte_index va 0)) = true →
    pte_from 2 (0 + 1) tm' (pte_to_phys (entry tm r (pte_index va 0))) va =
    pte_from 2 (0 + 1) tm (pte_to_phys (entry tm r (pte_index va 0))) va) as Hbelow.
  { intros Et. pose proof (tr_child _ _ _ Htr _ _ _ _ (tr_root _ _ _ Htr _ Hr) ltac:(cbn; lia) Hi Et) as Hc.
    eapply (pte_from_ext 2 (0 + 1)); [done|done|done|done|].
    intros u i sp' path' Hu Hl. apply Hother. intros ->.
    rewrite (tr_root _ _ _ Htr _ Hp) in Hu. simplify_eq. cbn in Hl. lia. }
  case_bool_decide as Er; cbn [andb].
  - subst r. rewrite Hpgd by done.
    destruct (Z.ltb_spec (pte_index va 0) 256), (Z.leb_spec 256 (pte_index va 0)); try lia; [done|].
    destruct (pte_is_table _) eqn:Et; auto.
  - rewrite Hother by done. destruct (pte_is_table _) eqn:Et; auto.
Qed.

(** Destroying an address space removes all its user mappings and
    detaches its root, and changes no translation of any other space. *)
Theorem vmm_destroy_address_space_correct s P roots m a pgd :
  vmm_inv s P roots → mm_pool s !! m = Some a → mm_pgd a = Some pgd →
  ∃ s', vmm_destroy_address_space (Some m) s = Some s' ∧ vmm_inv s' P roots ∧
    (mm_pool s' !! m ≫= mm_pgd) = None ∧
    (∀ va, pte_index va 0 < 256 → pte_of (tables s') pgd va = None) ∧
    (∀ r va, r ∈ roots → r ≠ pgd → pte_of (tables s') r va = pte_of (tables s) r va).
Proof.
  intros (role & Hinv & Hm) Ha Hpgd. unfold vmm_destroy_address_space. rewrite Ha. cbn [mbind option_bind].
  destruct (mm_chain _ _ _ _ Hm Ha) as (l & Hl & Hlen). pose proof (mi_count _ _ Hm) as [_ Hc].
  rewrite (vma_walk_ok 257 _ l) by (done || lia). cbn [mbind option_bind]. rewrite Hpgd.
  destruct (mi_pgd _ _ Hm _ _ _ Ha Hpgd) as [Hroot _].
  pose proof (ti_tree _ _ _ _ Hinv) as Htr. pose proof (tr_root _ _ _ Htr _ Hroot) as Hrole.
  eexists. split; [reflexivity|].
  cbn [tables with_tables with_mm mm_pool]. set (tm' := fill_entries _ _ _ _ _).
  assert (∀ u j, u ≠ pgd → entry tm' u j = entry (tables s) u j) as Hother.
  { intros u j Hu. unfold tm'. rewrite entry_fill, decide_False by tauto. done. }
  assert (∀ j, 0 ≤ j < 512 → entry tm' pgd j = if 256 <=? j then entry (tables s) pgd j else 0) as Hp.
  { intros j Hj. unfold tm'. rewrite entry_fill.
    destruct (Z.leb_spec 256 j); [by rewrite decide_False by lia|by rewrite decide_True by lia]. }
  split; [|split; [|split]].
  - exists role. split.
    + destruct Hinv. split; cbn [tables with_tables with_mm early_table_index pages]; try assumption.
      by apply (clear_root_tree (tables s) _ _ _ pgd).
    + destruct Hm as [H1 H2 H3 H4 H5 H6 H7].
      split; cbn [mm_pool with_tables with_mm mm_index vma_pool vma_index]; try assumption.
      * intros m' a' p. rewrite lookup_insert. case_decide; [by intros [= <-]|by apply H1].
      * intros m1 m2 a1 a2 p. rewrite !lookup_insert. do 2 case_decide; try (by intros; simplify_eq).
        by eapply H2.
      * intros m'. rewrite lookup_insert. case_decide; [|apply H3]. intros _. apply H3. subst. by eexists.
      * intros m' a' v. rewrite lookup_insert. case_decide; [by intros [= <-]|by apply H5].
  - by rewrite lookup_insert_eq.
  - intros va Hi. rewrite (clear_root_pte (tables s) _ role roots pgd) by done.
    rewrite bool_decide_true by done. destruct (Z.ltb_spec (pte_index va 0) 256); [done|lia].
  - intros r va Hr Hne. rewrite (clear_root_pte (tables s) _ role roots pgd) by done.
    by rewrite bool_decide_false.
Qed.

(** *** Mapping a user range *)

Record user_mapped s0 s (P0 P roots : gset Z) (pgd v fl : Z) (fs : list Z) : Prop := {
  um_frames : NoDup fs;
  um_fresh f : f ∈ fs → (f ∉ P0) ∧ f ∈ P;
  um_mapped i f va : fs !! i = Some f → same_page va (v + Z.of_nat i * PAGE_SIZE) →
    pte_of (tables s) pgd va = Some (3, phys_to_pte f (user_pte_flags fl));
  um_same va : ¬ in_pages v 0 (Z.of_nat (length fs)) va →
    pte_of (tables s) pgd va = pte_of (tables s0) pgd va;
  um_other r va : r ∈ roots → r ≠ pgd → pte_of (tables s) r va = pte_of (tables s0) r va
}.

Lemma vmm_inv_pages s P P' roots ps :
  vmm_inv s P roots → pa_inv ps P' → P ⊆ P' → vmm_inv (with_pages ps s) P' roots.
Proof.
  intros (role & [? ? ? Hd ? He ?] & [H1 H2 H3 H4 H5 H6 H7]) Hp HP. exists role.
  split; split; cbn [tables early_table_index pages mm_pool mm_index vma_pool vma_index with_pages];
    try assumption.
  - intros t Ht. destruct (Hd t Ht). auto.
  - intros i Hi. destruct (He i Hi). auto.
Qed.

Lemma user_mapped_step s0 s s1 P0 P P1 roots pgd v fl fs p :
  P0 ⊆ P → P ⊆ P1 → (p ∉ P) → p ∈ P1 → pgd ∈ roots → pgd ≠ 0 →
  v `mod` PAGE_SIZE = 0 → Z.of_nat (length fs) < 2 ^ 36 →
  0 ≤ v + Z.of_nat (length fs) * PAGE_SIZE < USER_VMA_END →
  user_mapped s0 s P0 P roots pgd v fl fs →
  pte_set s s1 roots pgd (v + Z.of_nat (length fs) * PAGE_SIZE)
    (Some (3, phys_to_pte p (user_pte_flags fl))) →
  user_mapped s0 s1 P0 P1 roots pgd v fl (fs ++ [p]).
Proof.
  intros HP0 HP1 Hp Hp1 Hroot Hn0 Hv Hlen Hrange [Hnd Hfr Hmap Hsame Hoth] Hset.
  assert (∀ i va, (i < length fs)%nat → same_page va (v + Z.of_nat i * PAGE_SIZE) →
    ¬ same_page va (v + Z.of_nat (length fs) * PAGE_SIZE)) as Hdiff.
  { intros i va Hi Hs Hs'. assert (Z.of_nat i = Z.of_nat (length fs)); [|lia].
    apply (range_pages_differ v); [done|lia|lia|]. unfold same_page in *. congruence. }
  split.
  - apply NoDup_app. split; [done|]. split; [|apply NoDup_singleton].
    intros x Hx ->%list_elem_of_singleton. by apply Hfr in Hx as [_ ?].
  - intros f [Hf| ->%list_elem_of_singleton]%elem_of_app.
    + destruct (Hfr f Hf). auto.
    + auto.
  - intros i f va Hi Hs. apply lookup_app_Some in Hi as [Hi|[Hge Hi]].
    + pose proof (lookup_lt_Some _ _ _ Hi).
      rewrite (proj2 Hset); [by eapply Hmap|done|]. left. by eapply Hdiff.
    + apply list_lookup_singleton_Some in Hi as [? ->].
      replace i with (length fs) in Hs by lia. by apply Hset.
  - intros va Hne. rewrite length_app in Hne. cbn in Hne. rewrite (proj2 Hset), Hsame; [done| |done|].
    + intros (i & Hi & Hs). apply Hne. exists i. split; [lia|done].
    + left. intros Hs. apply Hne. exists (Z.of_nat (length fs)). split; [lia|done].
  - intros r va Hr Hne. rewrite (proj2 Hset); [by apply Hoth|done|]. right.
    rewrite (user_va_space pgd) by done. unfold va_space, child_space. zcase; [done|done].
Qed.

Lemma map_user_loop_ok s0 P0 n fuel s P roots m pgd v fl fs :
  vmm_inv s P roots → P0 ⊆ P → (mm_pool s !! m ≫= mm_pgd) = Some pgd →
  user_mapped s0 s P0 P roots pgd v fl fs →
  v `mod` PAGE_SIZE = 0 → 0 ≤ v → v + n * PAGE_SIZE ≤ USER_VMA_END →
  Z.of_nat fuel = n - Z.of_nat (length fs) →
  ∃ s' ret, map_user_loop fuel (Some m) (v + Z.of_nat (length fs) * PAGE_SIZE) (v + n * PAGE_SIZE) fl s
      = Some (s', ret) ∧
    (∀ r va, r ∈ roots → r ≠ pgd → pte_of (tables s') r va = pte_of (tables s0) r va) ∧
    (ret = 0 → ∃ fs' P', vmm_inv s' P' roots ∧ Z.of_nat (length fs') = n ∧
       user_mapped s0 s' P0 P' roots pgd v fl fs').
Proof.
  intros Hinv HP0 Hm Hum Hv Hv0 Hend. unfold USER_VMA_END in Hend.
  revert s P fs Hinv HP0 Hm Hum. induction fuel as [|fuel IH]; intros s P fs Hinv HP0 Hm Hum Hf.
  { exists s, 0. split; [done|]. split; [apply Hum|]. intros _. exists fs, P. split; [done|]. split; [lia|done]. }
  cbn [map_user_loop]. set (k := Z.of_nat (length fs)) in *.
  destruct (Z.ltb_spec (v + k * PAGE_SIZE) (v + n * PAGE_SIZE)); [|unfold PAGE_SIZE in *; lia].
  assert (pa_inv (pages s) P) as Hpa by (destruct Hinv as (? & Ht & _); apply Ht).
  destruct (pa_alloc_ok _ _ Hpa) as (ps & p & E & Hor). rewrite E. cbn [mbind option_bind].
  destruct Hor as [[-> Hp']|(Hpr & Hpm & HpP & Hp')].
  { do 2 eexists. split; [reflexivity|]. split; [apply Hum|done]. }
  destruct (Z.eqb_spec p 0); [lia|].
  pose proof (vmm_inv_pages s P ({[p]} ∪ P) roots ps Hinv Hp' ltac:(apply union_subseteq_r)) as Hinv1.
  apply bind_Some in Hm as (a & Ha & Hpgd).
  destruct (map_user_page_ok (with_pages ps s) _ roots m a pgd (v + k * PAGE_SIZE) p fl Hinv1 Ha Hpgd)
    as (s1 & ret & P1 & E1 & Hinv1' & HP1 & (Hmm & _) & Hor); [unfold PAGE_SIZE; lia|].
  rewrite E1. cbn [mbind option_bind].
  assert (p ∈ P1) as HpP1 by (apply HP1, elem_of_union; left; by apply elem_of_singleton).
  assert (P ⊆ P1) as HPP1 by (etrans; [|done]; apply union_subseteq_r).
  destruct Hor as [(-> & Hlt & Hset)|(-> & Hsame)]; cbn [Z.eqb negb].
  - rewrite u64_small by (unfold PAGE_SIZE, USER_VMA_END in *; lia).
    assert (user_mapped s0 s1 P0 P1 roots pgd v fl (fs ++ [p])) as Hum1.
    { destruct Hinv as (role & Ht & Hmi). destruct (mi_pgd _ _ Hmi _ _ _ Ha Hpgd) as [Hroot _].
      destruct (tinv_root _ _ _ _ _ Ht Hroot) as [_ [[? _] _]].
      eapply (user_mapped_step s0 s s1 P0 P P1); try done; unfold PAGE_SIZE, USER_VMA_END in *; lia. }
    destruct (IH s1 P1 (fs ++ [p]) Hinv1') as (s' & ret & E' & Ho & Hok); try done.
    { by etrans. }
    { rewrite Hmm. cbn [mm_pool with_pages]. by rewrite Ha. }
    { rewrite length_app. cbn. lia. }
    replace (v + k * PAGE_SIZE + PAGE_SIZE) with (v + Z.of_nat (length (fs ++ [p])) * PAGE_SIZE)
      by (rewrite length_app; cbn; lia).
    exists s', ret. done.
  - assert (pa_inv (pages s1) P1) as Hpa1 by (destruct Hinv1' as (? & Ht & _); apply Ht).
    destruct (pa_free_ok _ _ _ Hpa1 HpP1) as (ps' & Ef & _). rewrite Ef. cbn [mbind option_bind].
    do 2 eexists. split; [reflexivity|]. split; [|done].
    intros r va Hr Hne. etrans; [exact (Hsame r va Hr)|]. by apply Hum.
Qed.

(** When vmm_map_user_range succeeds, every page that the range touches
    is mapped to a page of its own, taken from the free memory (distinct from
    each other and from all pages in use), the other pages of the space keep
    their translation; the other address spaces never change. *)
Theorem vmm_map_user_range_fresh s P roots m a pgd vaddr size fl :
  vmm_inv s P roots → mm_pool s !! m = Some a → mm_pgd a = Some pgd →
  0 ≤ vaddr → 0 ≤ size → vaddr + size + PAGE_SIZE ≤ USER_VMA_END →
  ∃ s' ret, vmm_map_user_range (Some m) vaddr size fl s = Some (s', ret) ∧
    (∀ r va, r ∈ roots → r ≠ pgd → pte_of (tables s') r va = pte_of (tables s) r va) ∧
    (ret = 0 → ∃ fs P', vmm_inv s' P' roots ∧
       Z.of_nat (length fs) = (vaddr `mod` PAGE_SIZE + size + PAGE_SIZE - 1) / PAGE_SIZE ∧
       user_mapped s s' P P' roots pgd (vaddr - vaddr `mod` PAGE_SIZE) fl fs).
Proof.
  intros Hinv Ha Hpgd Hv Hs Hend. unfold vmm_map_user_range.
  set (v := vaddr - vaddr `mod` PAGE_SIZE).
  set (n := (vaddr `mod` PAGE_SIZE + size + PAGE_SIZE - 1) / PAGE_SIZE).
  assert (Z.land vaddr (Z.lnot (PAGE_SIZE - 1)) = v) as ->.
  { apply (ALIGN_DOWN_spec vaddr 12). lia. }
  assert (Z.land (u64 (vaddr + size + PAGE_SIZE - 1)) (Z.lnot (PAGE_SIZE - 1)) = v + n * PAGE_SIZE) as ->.
  { unfold USER_VMA_END in Hend. rewrite u64_small by (unfold PAGE_SIZE in *; lia).
    etrans; [apply (ALIGN_DOWN_spec _ 12); lia|]. unfold v, n. change (2 ^ 12) with 4096.
    unfold PAGE_SIZE. lia_mod. }
  replace (v + n * PAGE_SIZE - v) with (n * PAGE_SIZE) by lia. rewrite Z.div_mul by done.
  assert (0 ≤ n ∧ v `mod` PAGE_SIZE = 0 ∧ 0 ≤ v ∧ v + n * PAGE_SIZE ≤ USER_VMA_END) as (Hn & Hvm & Hv0 & He).
  { unfold v, n, PAGE_SIZE, USER_VMA_END in *. lia_mod. }
  assert (∃ s1 r, vmm_add_vma (Some m) v (v + n * PAGE_SIZE) fl s = Some (s1, r) ∧
    vmm_inv s1 P roots ∧ tables s1 = tables s ∧ (mm_pool s1 !! m ≫= mm_pgd) = Some pgd)
    as (s1 & r & E & Hinv1 & Htab & Hm1).
  { unfold vmm_add_vma. destruct (Z.leb_spec 256 (vma_index s)).
    - do 2 eexists. split; [reflexivity|]. split; [done|]. split; [done|]. by rewrite Ha.
    - rewrite Ha. cbn [mbind option_bind]. do 2 eexists. split; [reflexivity|].
      destruct Hinv as (role & Ht & Hmi). split; [|split; [done|]].
      + exists role. split; [destruct Ht; by split|]. by eapply (add_vma_minv s roots m a).
      + cbn [mm_pool with_mm with_vma]. by rewrite lookup_insert_eq. }
  rewrite E. cbn [mbind option_bind fst].
  assert (user_mapped s s1 P P roots pgd v fl []) as Hum.
  { split; rewrite ?Htab; try done; [apply NoDup_nil_2|]. by intros f Hf%elem_of_nil. }
  destruct (map_user_loop_ok s P n (Z.to_nat n) s1 P roots m pgd v fl []) as (s' & ret & El & Ho & Hok);
    try done; [cbn; lia|].
  cbn [length] in El. change (Z.of_nat 0 * PAGE_SIZE) with 0 in El. rewrite Z.add_0_r in El.
  exists s', ret. split; [done|]. split; [done|]. intros Hr.
  destruct (Hok Hr) as (fs & P' & ? & ? & ?). exists fs, P'. done.
Qed.
End Vmm.

(** ** A concrete machine

    The allocator after boot, with the static tables in the kernel image. *)

Definition demo_pgd : Z := 0x40080000.
Definition demo_early : Z := 0x40081000.
Definition demo_static : gset Z :=
  list_to_set [0x40080000; 0x40081000; 0x40082000; 0x40083000; 0x40084000].
Definition demo_vmm : vmm pmm := vmm_boot boot_pmm.

Lemma demo_pages : pages_out boot_pmm demo_static.
Proof.
  split; [apply boot_pmm_wf|]. intros a Ha%elem_of_list_to_set.
  assert (Forall (λ a, ∃ p, a = page_addr p ∧ 0 ≤ p < NPAGES ∧ used_bit (early_bitmap boot_pmm) p = true)
    [0x40080000; 0x40081000; 0x40082000; 0x40083000; 0x40084000]) as Hall.
  { repeat apply Forall_cons_2; [exists 128|exists 129|exists 130|exists 131|exists 132|apply Forall_nil_2];
      (split; [reflexivity|split; [done|vm_compute; reflexivity]]). }
  by apply (proj1 (Forall_forall _ _) Hall).
Qed.

Lemma demo_inv : vmm_inv demo_pgd demo_early demo_vmm demo_static {[demo_pgd]}.
Proof.
  apply vmm_boot_inv; [apply demo_pages|].
  assert (∀ i, 0 ≤ i < EARLY_TABLES_COUNT → i = 0 ∨ i = 1 ∨ i = 2 ∨ i = 3) as Hcase.
  { unfold EARLY_TABLES_COUNT. lia. }
  split.
  - split; [by apply (bool_decide_unpack _); vm_compute|done].
  - intros i Hi. destruct (Hcase i Hi) as [->|[->|[->| ->]]];
      (split; [by apply (bool_decide_unpack _); vm_compute|done]).
  - intros i Hi. destruct (Hcase i Hi) as [->|[->|[->| ->]]]; done.
Qed.

Lemma vmm_map_page_correct_witness :
  ∃ s' ret P', vmm_map_page demo_pgd demo_early 0x10000000 0x40100000 VM_WRITE demo_vmm = Some (s', ret) ∧
    vmm_inv demo_pgd demo_early s' P' {[demo_pgd]} ∧ demo_static ⊆ P' ∧
    user_same demo_pgd demo_vmm s' {[demo_pgd]} ∧
    ((ret = 0 ∧ phys_of demo_pgd demo_early demo_vmm 0x10000000 = Some 0 ∧
      (∀ va', same_page va' 0x10000000 →
         phys_of demo_pgd demo_early s' va' =
           Some (Z.land 0x40100000 PTE_ADDR_MASK + va' `mod` PAGE_SIZE)) ∧
      (∀ va', ¬ same_page va' 0x10000000 →
         phys_of demo_pgd demo_early s' va' = phys_of demo_pgd demo_early demo_vmm va')) ∨
     (ret = -1 ∧ ∀ va', phys_of demo_pgd demo_early s' va' = phys_of demo_pgd demo_early demo_vmm va')).
Proof.
  apply (vmm_map_page_correct demo_pgd demo_early demo_vmm demo_static {[demo_pgd]}). apply demo_inv.
Defined.

(** The state after mapping one page. *)
Definition demo_mapped : vmm pmm :=
  fst (default (demo_vmm, 0)
    (vmm_map_page demo_pgd demo_early 0x10000000 0x40100000 VM_WRITE demo_vmm)).

Lemma demo_mapped_eq :
  vmm_map_page demo_pgd demo_early 0x10000000 0x40100000 VM_WRITE demo_vmm = Some (demo_mapped, 0).
Proof.
  assert (snd <$> vmm_map_page demo_pgd demo_early 0x10000000 0x40100000 VM_WRITE demo_vmm = Some 0)
    as H by (vm_compute; reflexivity).
  unfold demo_mapped. destruct (vmm_map_page _ _ _ _ _ _) as [[s r]|]; [|done].
  cbn in *. by simplify_eq.
Qed.

Lemma vmm_map_unmap_roundtrip_witness :
  ∃ s2, vmm_unmap_page demo_pgd demo_early 0x10000000 demo_mapped = Some (s2, 0) ∧
    (∀ va', phys_of demo_pgd demo_early s2 va' = phys_of demo_pgd demo_early demo_vmm va') ∧
    user_same demo_pgd demo_vmm s2 {[demo_pgd]} ∧
    vmm_unmap_page demo_pgd demo_early 0x10000000 s2 = Some (s2, -1).
Proof.
  apply (vmm_map_unmap_roundtrip demo_pgd demo_early demo_vmm demo_static {[demo_pgd]}
           0x10000000 0x40100000 VM_WRITE); [apply demo_inv|apply demo_mapped_eq].
Defined.

Lemma vmm_map_range_atomic_witness :
  ∃ s' ret P', vmm_map_range demo_pgd demo_early 0x10000000 0x40100000 (3 * PAGE_SIZE) VM_WRITE demo_vmm
      = Some (s', ret) ∧
    vmm_inv demo_pgd demo_early s' P' {[demo_pgd]} ∧ user_same demo_pgd demo_vmm s' {[demo_pgd]} ∧
    ((ret = 0 ∧
      (∀ i va, 0 ≤ i < 3 → same_page va (0x10000000 + i * PAGE_SIZE) →
         phys_of demo_pgd demo_early demo_vmm va = Some 0 ∧
         phys_of demo_pgd demo_early s' va =
           Some (Z.land (0x40100000 + i * PAGE_SIZE) PTE_ADDR_MASK + va `mod` PAGE_SIZE)) ∧
      (∀ va, ¬ in_pages 0x10000000 0 3 va →
         phys_of demo_pgd demo_early s' va = phys_of demo_pgd demo_early demo_vmm va)) ∨
     (ret = -1 ∧ ∀ va, phys_of demo_pgd demo_early s' va = phys_of demo_pgd demo_early demo_vmm va)).
Proof.
  apply (vmm_map_range_atomic demo_pgd demo_early demo_vmm demo_static {[demo_pgd]} 0x10000000 0x40100000 3);
    [apply demo_inv|done..].
Defined.

(** An address space created on the machine above. *)
Definition demo_space : vmm pmm :=
  fst (default (demo_vmm, None) (vmm_create_address_space demo_pgd demo_early demo_vmm)).

Lemma demo_space_inv :
  ∃ P a, vmm_inv demo_pgd demo_early demo_space P ({[demo_early]} ∪ {[demo_pgd]}) ∧
    mm_pool demo_space !! 0 = Some a ∧ mm_pgd a = Some demo_early.
Proof.
  destruct (create_address_space_ok demo_pgd demo_early _ _ _ demo_inv) as (s' & r & P' & E & _ & _ & Hr).
  assert ((snd <$> vmm_create_address_space demo_pgd demo_early demo_vmm) = Some (Some 0)) as H0
    by (vm_compute; reflexivity).
  assert ((mm_pool demo_space !! 0 ≫= mm_pgd) = Some demo_early) as H1 by (vm_compute; reflexivity).
  unfold demo_space in *. rewrite E in *. cbn [id fst snd default from_option fmap option_fmap option_map] in *.
  injection H0 as ->. destruct Hr as (a & pgd & Ha & _ & Hpgd & _ & Hinv & _).
  rewrite Ha in H1. cbn in H1. rewrite Hpgd in H1. simplify_eq. eauto.
Qed.

Lemma vmm_create_address_space_correct_witness :
  ∃ s' r P', vmm_create_address_space demo_pgd demo_early demo_vmm = Some (s', r) ∧
    demo_static ⊆ P' ∧ same_ptes demo_vmm s' {[demo_pgd]} ∧
    match r with
    | None => vmm_inv demo_pgd demo_early s' P' {[demo_pgd]}
    | Some m => ∃ a pgd, mm_pool s' !! m = Some a ∧ mm_pool demo_vmm !! m = None ∧ mm_pgd a = Some pgd ∧
        (pgd ∉ ({[demo_pgd]} : gset Z)) ∧ vmm_inv demo_pgd demo_early s' P' ({[pgd]} ∪ {[demo_pgd]}) ∧
        ∀ va, pte_of (tables s') pgd va =
              if pte_index va 0 <? 256 then None else pte_of (tables demo_vmm) demo_pgd va
    end.
Proof.
  apply (vmm_create_address_space_correct demo_pgd demo_early demo_vmm demo_static {[demo_pgd]}).
  apply demo_inv.
Defined.

Lemma vmm_map_user_range_fresh_witness :
  ∃ s' ret, vmm_map_user_range demo_early (Some 0) 0x400123 0x2000 VM_WRITE demo_space = Some (s', ret) ∧
    ∀ va', pte_of (tables s') demo_pgd va' = pte_of (tables demo_space) demo_pgd va'.
Proof.
  destruct demo_space_inv as (P & a & Hinv & Ha & Hpgd).
  destruct (vmm_map_user_range_fresh demo_pgd demo_early demo_space P _ 0 a demo_early
    0x400123 0x2000 VM_WRITE Hinv Ha Hpgd ltac:(lia) ltac:(lia) ltac:(done)) as (s' & ret & E & Ho & _).
  exists s', ret. split; [exact E|]. intros va'. apply Ho; [|done].
  apply elem_of_union; right; by apply elem_of_singleton.
Defined.

Lemma vmm_destroy_address_space_correct_witness :
  ∃ s', vmm_destroy_address_space (Some 0) demo_space = Some s' ∧
    (mm_pool s' !! 0 ≫= mm_pgd) = None.
Proof.
  destruct demo_space_inv as (P & a & Hinv & Ha & Hpgd).
  destruct (vmm_destroy_address_space_correct demo_pgd demo_early demo_space P _ 0 a demo_early
    Hinv Ha Hpgd) as (s' & E & _ & Hm & _).
  exists s'. split; [exact E|exact Hm].
Defined.

Lemma vmm_add_find_vma_witness :
  ∃ s', vmm_add_vma (Some 0) 0x1000 0x3000 VM_READ demo_space = Some (s', 0) ∧
    vmm_find_vma (Some 0) 0x2000 s' = Some (Some 0).
Proof.
  destruct demo_space_inv as (P & a & Hinv & Ha & Hpgd).
  destruct (vmm_add_find_vma demo_pgd demo_early demo_space P _ 0 a 0x1000 0x3000 VM_READ 0x2000
    Hinv Ha ltac:(vm_compute; reflexivity)) as (s' & E & _ & _ & Hf).
  exists s'. split; [exact E|]. rewrite Hf. vm_compute. reflexivity.
Defined.

(** ** The machine after vmm_init

    vmm_init identity-maps the first two gigabytes with block entries below
    entry 0 of the root. *)
Definition demo_init : vmm pmm := fst (default (demo_vmm, 0) (vmm_init demo_pgd demo_early demo_vmm)).

Lemma demo_init_inv : ∃ P, vmm_inv demo_pgd demo_early demo_init P {[demo_pgd]}.
Proof.
  destruct (vmm_init_ok demo_pgd demo_early demo_vmm demo_static {[demo_pgd]} demo_inv) as (s' & ret & P & E & H & _).
  - vm_compute. reflexivity.
  - exists P. unfold demo_init. rewrite E. exact H.
Qed.

Definition demo_init_space : vmm pmm :=
  fst (default (demo_vmm, None) (vmm_create_address_space demo_pgd demo_early demo_init)).

Lemma demo_init_space_inv :
  ∃ P a, vmm_inv demo_pgd demo_early demo_init_space P ({[demo_early + PAGE_SIZE]} ∪ {[demo_pgd]}) ∧
    mm_pool demo_init_space !! 0 = Some a ∧ mm_pgd a = Some (demo_early + PAGE_SIZE).
Proof.
  destruct demo_init_inv as [P0 Hinv0].
  destruct (create_address_space_ok demo_pgd demo_early _ _ _ Hinv0) as (s' & r & P' & E & _ & _ & Hr).
  assert ((snd <$> vmm_create_address_space demo_pgd demo_early demo_init) = Some (Some 0)) as H0
    by (vm_compute; reflexivity).
  assert ((mm_pool demo_init_space !! 0 ≫= mm_pgd) = Some (demo_early + PAGE_SIZE)) as H1 by (vm_compute; reflexivity).
  unfold demo_init_space in *. rewrite E in *. cbn [id fst snd default from_option fmap option_fmap option_map] in *.
  injection H0 as ->. destruct Hr as (a & pgd & Ha & _ & Hpgd & _ & Hinv & _).
  rewrite Ha in H1. cbn [mbind option_bind] in H1. rewrite Hpgd in H1. injection H1 as ->. eauto.
Qed.

(** A user page mapped next to the kernel's blocks: the block that maps the
    kernel stays, and the page is mapped. *)
Lemma vmm_map_user_page_isolated_witness :
  ∃ s', vmm_map_user_page demo_early (Some 0) 0x400000 0x40300000 VM_WRITE demo_init_space = Some (s', 0) ∧
    pte_of (tables s') demo_pgd 0x40080000 = Some (1, ram_block 0x40000000) ∧
    pte_of (tables s') (demo_early + PAGE_SIZE) 0x400000 = Some (3, phys_to_pte 0x40300000 (user_pte_flags VM_WRITE)).
Proof.
  destruct demo_init_space_inv as (P & a & Hinv & Ha & Hpgd).
  destruct (vmm_map_user_page_isolated demo_pgd demo_early demo_init_space P _ 0 a (demo_early + PAGE_SIZE)
    0x400000 0x40300000 VM_WRITE Hinv Ha Hpgd ltac:(lia)) as (s' & ret & P' & E & _ & _ & Ho & _ & Hp).
  assert (snd <$> vmm_map_user_page demo_early (Some 0) 0x400000 0x40300000 VM_WRITE demo_init_space = Some 0) as Hret
    by (vm_compute; reflexivity).
  rewrite E in Hret. apply (inj Some) in Hret. cbn [snd] in Hret. subst ret.
  exists s'. split; [exact E|]. split; [|exact Hp].
  rewrite Ho; [vm_compute; reflexivity|apply elem_of_union; right; by apply elem_of_singleton|done].
Defined.

(** Two consequences of the blocks: vmm_virt_to_phys returns 0 for the kernel's
    own addresses, which are mapped, because the walk gives up at a block; and
    an address space created afterwards, which copies the upper half of the
    root only, maps nothing of the kernel. *)
Lemma block_mapping_not_translated :
  (snd <$> vmm_init demo_pgd demo_early demo_vmm) = Some 0 ∧
  pte_of (tables demo_init) demo_pgd 0x40080000 = Some (1, ram_block 0x40000000) ∧
  phys_of demo_pgd demo_early demo_init 0x40080000 = Some 0.
Proof. vm_compute. done. Qed.

Lemma new_space_maps_no_kernel_page :
  (mm_pool demo_init_space !! 0 ≫= mm_pgd) = Some (demo_early + PAGE_SIZE) ∧
  forallb (λ i, negb (pte_is_valid (entry (tables demo_init_space) (demo_early + PAGE_SIZE) i)))
    (seqZ 0 512) = true.
Proof. vm_compute. done. Qed.
