(* ===== verification/Aslr.v ===== *)
(** * kernel/mm/aslr.c: address-space randomisation

    A 64-bit linear congruential generator, seeded from the timer counters.
    The readings of the counters are arguments (ARM64: CNTPCT and CNTVCT,
    read twice by aslr_init). *)

From S2P Require Import Prelude.

Definition LCG_MULTIPLIER : Z := 6364136223846793005.
Definition LCG_INCREMENT : Z := 1442695040888963407.

Definition ASLR_STACK_BITS : Z := 12.
Definition ASLR_HEAP_BITS : Z := 12.
Definition ASLR_MMAP_BITS : Z := 16.
Definition ASLR_EXEC_BITS : Z := 16.

Record aslr := mk_aslr { aslr_seed : Z; aslr_initialized : bool }.

(** The counter readings an initialisation takes. *)
Record counters := mk_counters { cntpct1 : Z; cntvct1 : Z; cntpct2 : Z; cntvct2 : Z }.

Definition get_hardware_entropy (cntpct cntvct : Z) : Z :=
  Z.lxor (Z.lxor cntpct (u64 (Z.shiftl cntvct 13))) (Z.shiftr cntvct 7).

Definition next_random (a : aslr) : aslr * Z :=
  let seed := u64 (aslr_seed a * LCG_MULTIPLIER + LCG_INCREMENT) in
  (mk_aslr seed (aslr_initialized a), seed).

(** [for (i = 0; i < n; i++) next_random()] *)
Fixpoint warm_up (n : nat) (a : aslr) : aslr :=
  match n with O => a | S n' => warm_up n' (fst (next_random a)) end.

Definition aslr_init (c : counters) (a : aslr) : aslr :=
  let entropy1 := get_hardware_entropy (cntpct1 c) (cntvct1 c) in
  let entropy2 := get_hardware_entropy (cntpct2 c) (cntvct2 c) in
  let seed := Z.lxor (Z.lxor entropy1 (u64 (Z.shiftl entropy2 13))) (Z.shiftr entropy2 7) in
  let a := warm_up 8 (mk_aslr seed (aslr_initialized a)) in
  mk_aslr (aslr_seed a) true.

Definition aslr_random (c : counters) (a : aslr) : aslr * Z :=
  let a := if negb (aslr_initialized a) then aslr_init c a else a in
  next_random a.

Definition aslr_stack_offset (c : counters) (a : aslr) : aslr * Z :=
  let '(a, random) := aslr_random c a in
  (a, u64 (Z.shiftl (Z.land random (Z.shiftl 1 ASLR_STACK_BITS - 1)) 12)).

Definition aslr_heap_offset (c : counters) (a : aslr) : aslr * Z :=
  let '(a, random) := aslr_random c a in
  (a, u64 (Z.shiftl (Z.land random (Z.shiftl 1 ASLR_HEAP_BITS - 1)) 12)).

Definition aslr_exec_offset (c : counters) (a : aslr) : aslr * Z :=
  let '(a, random) := aslr_random c a in
  (a, u64 (Z.shiftl (Z.land random (Z.shiftl 1 ASLR_EXEC_BITS - 1)) 16)).

Definition aslr_mmap_offset (c : counters) (a : aslr) : aslr * Z :=
  let '(a, random) := aslr_random c a in
  (a, u64 (Z.shiftl (Z.land random (Z.shiftl 1 ASLR_MMAP_BITS - 1)) 12)).

(** ** Bounds *)

Lemma masked_offset r bits shift :
  0 ≤ bits → 0 ≤ shift → bits + shift ≤ 64 →
  u64 (Z.shiftl (Z.land r (Z.shiftl 1 bits - 1)) shift) = r `mod` 2 ^ bits * 2 ^ shift.
Proof.
  intros Hb Hs Hbs. rewrite Z.shiftl_1_l, land_low_mask, Z.shiftl_mul_pow2 by lia.
  assert (0 ≤ r `mod` 2 ^ bits < 2 ^ bits) by (apply Z.mod_pos_bound; lia).
  apply u64_small. split; [lia|].
  apply Z.lt_le_trans with (2 ^ bits * 2 ^ shift); [apply Z.mul_lt_mono_pos_r; lia|].
  rewrite <- Z.pow_add_r by lia. apply Z.pow_le_mono_r; lia.
Qed.

(** [off] is a multiple of 2^shift below 2^(bits + shift). *)
Definition offset_ok (bits shift off : Z) : Prop :=
  0 ≤ off < 2 ^ (bits + shift) ∧ off `mod` 2 ^ shift = 0.

Lemma offset_ok_masked r bits shift :
  0 ≤ bits → 0 ≤ shift → offset_ok bits shift (r `mod` 2 ^ bits * 2 ^ shift).
Proof.
  intros Hb Hs. assert (0 ≤ r `mod` 2 ^ bits < 2 ^ bits) by (apply Z.mod_pos_bound; lia).
  split; [|by apply Z.mod_mul; lia]. rewrite Z.pow_add_r by lia.
  split; [lia|]. apply Z.mul_lt_mono_pos_r; lia.
Qed.

(** Whatever the counters read and whether or not the generator was
    initialised, the stack and heap offsets are page aligned and below 16 MB,
    the mmap offset is page aligned and below 256 MB, and the executable
    offset is 64 KB aligned and below 4 GB. *)
Theorem aslr_offsets_bounded c a :
  offset_ok 12 12 (snd (aslr_stack_offset c a)) ∧ offset_ok 12 12 (snd (aslr_heap_offset c a)) ∧
  offset_ok 16 12 (snd (aslr_mmap_offset c a)) ∧ offset_ok 16 16 (snd (aslr_exec_offset c a)).
Proof.
  unfold aslr_stack_offset, aslr_heap_offset, aslr_mmap_offset, aslr_exec_offset.
  destruct (aslr_random c a) as [a' r]. cbn [snd].
  unfold ASLR_STACK_BITS, ASLR_HEAP_BITS, ASLR_MMAP_BITS, ASLR_EXEC_BITS.
  rewrite !masked_offset by lia. repeat split; apply offset_ok_masked; lia.
Qed.
