(* ===== verification/Pipe.v ===== *)
(** * kernel/ipc/pipe.c: pipes

    A pipe is a ring buffer of PIPE_SIZE bytes shared by readers and writers.
    Every access happens between pipe_lock and pipe_unlock; the functions are
    therefore cut at the points where they release the lock, and each piece
    is one transition of the pipe:
    - [read_enter] and [read_resume]: pipe_read from its entry, or from the
      pipe_lock inside its wait loop, to the next pipe_unlock;
    - [write_enter] and [write_resume]: the same for pipe_write, which goes on
      after [written] bytes.
    A piece ends with the result of the call or in the wait loop.  The heap is
    used through [KernelHeap]. *)

From S2P Require Import Prelude KHeap Kmalloc.

Definition PIPE_SIZE : Z := 4096.
Definition EIO : Z := 5.
Definition ENOMEM : Z := 12.
Definition EPIPE : Z := 32.
Definition O_RDONLY : Z := 0.
Definition O_WRONLY : Z := 1.

(** [p_data] is the memory [buffer] points to: index to byte. *)
Record pipe := mk_pipe {
  p_buffer : option Z;
  p_data : gmap Z Z;
  p_read_pos : Z;
  p_write_pos : Z;
  p_count : Z;
  p_readers : Z;
  p_writers : Z
}.

Definition buf_byte (d : gmap Z Z) (i : Z) : Z := default 0 (d !! i).

(** ** pipe_read *)

Inductive read_step :=
| RWait (p : pipe)
| RDone (p : pipe) (bytes : list Z) (ret : Z).

(** The copy loop: [n] bytes from position [pos]; the bytes and the position
    after them. *)
Fixpoint read_loop (n : nat) (d : gmap Z Z) (pos : Z) : list Z * Z :=
  match n with
  | O => ([], pos)
  | S n' =>
      let '(l, pos') := read_loop n' d ((pos + 1) `mod` PIPE_SIZE) in
      (buf_byte d pos :: l, pos')
  end.

Definition read_resume (count : Z) (p : pipe) : read_step :=
  if (p_count p =? 0) && (0 <? p_writers p) then RWait p
  else
    let to_read := if count <? p_count p then count else p_count p in
    let '(bytes, pos) := read_loop (Z.to_nat to_read) (p_data p) (p_read_pos p) in
    RDone (mk_pipe (p_buffer p) (p_data p) pos (p_write_pos p) (p_count p - to_read)
             (p_readers p) (p_writers p)) bytes to_read.

Definition read_enter (count : Z) (p : pipe) : read_step :=
  if (p_writers p =? 0) && (p_count p =? 0) then RDone p [] 0
  else read_resume count p.

(** ** pipe_write *)

Inductive write_step :=
| WWait (p : pipe) (written : Z)
| WDone (p : pipe) (ret : Z).

(** The copy loop: the bytes of [l] to position [pos] on. *)
Fixpoint write_loop (l : list Z) (d : gmap Z Z) (pos : Z) : gmap Z Z * Z :=
  match l with
  | [] => (d, pos)
  | b :: l' => write_loop l' (<[pos := b]> d) ((pos + 1) `mod` PIPE_SIZE)
  end.

(** [buf[written]], ..., [buf[written + n - 1]] *)
Definition buf_slice (buf : list Z) (written n : Z) : list Z :=
  take (Z.to_nat n) (drop (Z.to_nat written) buf).

(** The loop [while (written < count)]; an iteration that does not wait writes
    at least one byte, so [count + 1] iterations are enough. *)
Fixpoint write_chunks (fuel : nat) (buf : list Z) (count written : Z) (p : pipe) : option write_step :=
  match fuel with
  | O => None
  | S fuel' =>
      if written <? count then
        if (PIPE_SIZE <=? p_count p) && (0 <? p_readers p) then Some (WWait p written)
        else if p_readers p =? 0 then
          Some (WDone p (if 0 <? written then written else - EPIPE))
        else
          let space := u64 (PIPE_SIZE - p_count p) in
          let to_write := if count - written <? space then count - written else space in
          let '(d, pos) := write_loop (buf_slice buf written to_write) (p_data p) (p_write_pos p) in
          let p := mk_pipe (p_buffer p) d (p_read_pos p) pos (p_count p + to_write)
                     (p_readers p) (p_writers p) in
          write_chunks fuel' buf count (written + to_write) p
      else Some (WDone p written)
  end.

Definition write_resume (buf : list Z) (count written : Z) (p : pipe) : option write_step :=
  write_chunks (S (Z.to_nat count)) buf count written p.

Definition write_enter (buf : list Z) (count : Z) (p : pipe) : option write_step :=
  if p_readers p =? 0 then Some (WDone p (- EPIPE))
  else write_resume buf count 0 p.

(** ** Files, creation and release *)

Inductive pipe_ops := pipe_read_ops | pipe_write_ops.

Record file := mk_file {
  f_op : option pipe_ops;
  f_flags : Z;
  f_private_data : option Z;
  f_count : Z
}.

Definition sizeof_pipe : Z := 48.
Definition sizeof_file : Z := 48.

Section Heap.
Context {S : Type} `{!KernelHeap S}.

(** The heap, and the pipes and files allocated in it, by address. *)
Record world := mk_world {
  w_heap : S;
  w_pipes : gmap Z pipe;
  w_files : gmap Z file
}.

Definition alloc_file (h : S) : option (S * option Z) := kh_alloc sizeof_file GFP_ZERO h.

Definition do_pipe (w : world) : option (world * (Z * option (Z * Z))) :=
  r ← kh_alloc sizeof_pipe GFP_ZERO (w_heap w);
  match r with
  | (h, None) => Some (mk_world h (w_pipes w) (w_files w), (- ENOMEM, None))
  | (h, Some p) =>
      r ← kh_alloc PIPE_SIZE GFP_KERNEL h;
      match r with
      | (h, None) =>
          h ← kh_free (Some p) h;
          Some (mk_world h (w_pipes w) (w_files w), (- ENOMEM, None))
      | (h, Some b) =>
          let pi := mk_pipe (Some b) ∅ 0 0 0 1 1 in
          r ← alloc_file h; let '(h, rf) := r in
          r ← alloc_file h; let '(h, wf) := r in
          match rf, wf with
          | Some rf, Some wf =>
              let fs := <[wf := mk_file (Some pipe_write_ops) O_WRONLY (Some p) 1]>
                          (<[rf := mk_file (Some pipe_read_ops) O_RDONLY (Some p) 1]> (w_files w)) in
              Some (mk_world h (<[p := pi]> (w_pipes w)) fs, (0, Some (rf, wf)))
          | _, _ =>
              h ← kh_free rf h;
              h ← kh_free wf h;
              h ← kh_free (Some b) h;
              h ← kh_free (Some p) h;
              Some (mk_world h (w_pipes w) (w_files w), (- ENOMEM, None))
          end
      end
  end.

(** Both release functions after the decrement: free the pipe when the last
    end is gone. *)
Definition release_tail (p : Z) (pi : pipe) (w : world) : option world :=
  if (p_readers pi =? 0) && (p_writers pi =? 0) then
    h ← kh_free (p_buffer pi) (w_heap w);
    h ← kh_free (Some p) h;
    Some (mk_world h (delete p (w_pipes w)) (w_files w))
  else Some (mk_world (w_heap w) (<[p := pi]> (w_pipes w)) (w_files w)).

Definition pipe_release_read (f : file) (w : world) : option (world * Z) :=
  match f_private_data f with
  | None => Some (w, 0)
  | Some p =>
      pi ← w_pipes w !! p;
      let pi := mk_pipe (p_buffer pi) (p_data pi) (p_read_pos pi) (p_write_pos pi) (p_count pi)
                  (p_readers pi - 1) (p_writers pi) in
      w ← release_tail p pi w;
      Some (w, 0)
  end.

Definition pipe_release_write (f : file) (w : world) : option (world * Z) :=
  match f_private_data f with
  | None => Some (w, 0)
  | Some p =>
      pi ← w_pipes w !! p;
      let pi := mk_pipe (p_buffer pi) (p_data pi) (p_read_pos pi) (p_write_pos pi) (p_count pi)
                  (p_readers pi) (p_writers pi - 1) in
      w ← release_tail p pi w;
      Some (w, 0)
  end.

(** pipe_read and pipe_write reject a file without a pipe; otherwise they
    run their first piece on the pipe of the file. *)
Definition pipe_read (f : file) (count : Z) (w : world) : option (read_step + Z) :=
  match f_private_data f with
  | None => Some (inr (- EIO))
  | Some p => pi ← w_pipes w !! p; Some (inl (read_enter count pi))
  end.

Definition pipe_write (f : file) (buf : list Z) (count : Z) (w : world) : option (write_step + Z) :=
  match f_private_data f with
  | None => Some (inr (- EIO))
  | Some p => pi ← w_pipes w !! p; r ← write_enter buf count pi; Some (inl r)
  end.
End Heap.

(** ** The bytes in the pipe *)

Record pipe_wf (p : pipe) : Prop := {
  pw_read : 0 ≤ p_read_pos p < PIPE_SIZE;
  pw_count : 0 ≤ p_count p ≤ PIPE_SIZE;
  pw_write : p_write_pos p = (p_read_pos p + p_count p) `mod` PIPE_SIZE;
  pw_ends : 0 ≤ p_readers p ∧ 0 ≤ p_writers p
}.

(** [n] bytes of the ring from [pos] on. *)
Definition ring (d : gmap Z Z) (pos n : Z) : list Z :=
  (λ i, buf_byte d ((pos + i) `mod` PIPE_SIZE)) <$> seqZ 0 n.

Definition contents (p : pipe) : list Z := ring (p_data p) (p_read_pos p) (p_count p).

Lemma ring_length d pos n : length (ring d pos n) = Z.to_nat n.
Proof. unfold ring. by rewrite length_fmap, length_seqZ. Qed.

Lemma ring_lookup d pos n i :
  0 ≤ i < n → ring d pos n !! Z.to_nat i = Some (buf_byte d ((pos + i) `mod` PIPE_SIZE)).
Proof.
  intros Hi. unfold ring. rewrite list_lookup_fmap, (lookup_seqZ_lt 0 n) by lia. cbn.
  do 3 f_equal. lia.
Qed.

Lemma ring_app d pos n m :
  0 ≤ n → 0 ≤ m → 0 ≤ pos < PIPE_SIZE →
  ring d pos (n + m) = ring d pos n ++ ring d ((pos + n) `mod` PIPE_SIZE) m.
Proof.
  intros Hn Hm Hp. unfold ring. rewrite seqZ_app, fmap_app by lia. f_equal.
  replace (0 + n) with (n + 0) by lia. rewrite <- fmap_add_seqZ, <- list_fmap_compose.
  apply list_fmap_ext. intros i x Hx. cbn [compose]. f_equal. rewrite Zplus_mod_idemp_l. f_equal. lia.
Qed.

Lemma read_loop_ring n d pos :
  0 ≤ pos < PIPE_SIZE →
  read_loop n d pos = (ring d pos (Z.of_nat n), (pos + Z.of_nat n) `mod` PIPE_SIZE).
Proof.
  revert pos. induction n as [|n IH]; intros pos Hp; cbn [read_loop].
  - rewrite Z.add_0_r, Z.mod_small by lia. done.
  - rewrite IH by (apply Z.mod_pos_bound; done).
    replace (Z.of_nat (S n)) with (1 + Z.of_nat n) by lia.
    rewrite ring_app by lia. f_equal.
    + unfold ring at 2. change (seqZ 0 1) with [0]. cbn [fmap list_fmap app].
      rewrite Z.add_0_r, (Z.mod_small pos) by lia. done.
    + rewrite Zplus_mod_idemp_l. f_equal. lia.
Qed.

Lemma write_loop_pos l d pos :
  0 ≤ pos < PIPE_SIZE → snd (write_loop l d pos) = (pos + Z.of_nat (length l)) `mod` PIPE_SIZE.
Proof.
  revert d pos. induction l as [|b l IH]; intros d pos Hp; cbn [write_loop length].
  - cbn. by rewrite Z.add_0_r, Z.mod_small.
  - rewrite IH by (apply Z.mod_pos_bound; done). rewrite Zplus_mod_idemp_l. f_equal. lia.
Qed.

Lemma write_loop_byte l d pos x :
  0 ≤ pos < PIPE_SIZE → 0 ≤ x < PIPE_SIZE → Z.of_nat (length l) ≤ PIPE_SIZE →
  buf_byte (fst (write_loop l d pos)) x =
  default (buf_byte d x) (l !! Z.to_nat ((x - pos) `mod` PIPE_SIZE)).
Proof.
  revert d pos. induction l as [|b l IH]; intros d pos Hp Hx Hl; cbn [write_loop]; [done|].
  cbn [length] in Hl. rewrite IH by (try (apply Z.mod_pos_bound; done); lia).
  destruct (decide (x = pos)) as [->|Hne].
  - rewrite Z.sub_diag. cbn.
    assert ((pos - (pos + 1) `mod` PIPE_SIZE) `mod` PIPE_SIZE = PIPE_SIZE - 1) as ->.
    { unfold PIPE_SIZE in *. lia_mod. }
    rewrite lookup_ge_None_2 by lia. unfold buf_byte. cbn. by rewrite lookup_insert_eq.
  - assert ((x - pos) `mod` PIPE_SIZE = (x - (pos + 1) `mod` PIPE_SIZE) `mod` PIPE_SIZE + 1) as ->.
    { unfold PIPE_SIZE in *. lia_mod. }
    assert (0 ≤ (x - (pos + 1) `mod` PIPE_SIZE) `mod` PIPE_SIZE) by (apply Z.mod_pos_bound; done).
    rewrite Z2Nat.inj_add by lia. rewrite Nat.add_1_r. cbn [lookup list_lookup].
    f_equal. unfold buf_byte. by rewrite lookup_insert_ne.
Qed.

(** Appending to the ring. *)
Lemma write_loop_ring l d rp n :
  0 ≤ rp < PIPE_SIZE → 0 ≤ n → n + Z.of_nat (length l) ≤ PIPE_SIZE →
  ring (fst (write_loop l d ((rp + n) `mod` PIPE_SIZE))) rp (n + Z.of_nat (length l))
  = ring d rp n ++ l.
Proof.
  intros Hrp Hn Hl. set (wp := (rp + n) `mod` PIPE_SIZE).
  assert (0 ≤ wp < PIPE_SIZE) as Hwp by (apply Z.mod_pos_bound; done).
  apply list_eq. intros k. destruct (decide (Z.of_nat k < n + Z.of_nat (length l))) as [Hk|Hk].
  2: { rewrite !lookup_ge_None_2; [done|rewrite length_app, ring_length; lia|rewrite ring_length; lia]. }
  rewrite <- (Nat2Z.id k) at 1. rewrite ring_lookup by lia.
  assert (0 ≤ (rp + Z.of_nat k) `mod` PIPE_SIZE < PIPE_SIZE) as Hx by (apply Z.mod_pos_bound; done).
  rewrite write_loop_byte by lia.
  destruct (decide (Z.of_nat k < n)) as [Hkn|Hkn].
  - assert (((rp + Z.of_nat k) `mod` PIPE_SIZE - wp) `mod` PIPE_SIZE = Z.of_nat k - n + PIPE_SIZE) as ->.
    { unfold wp, PIPE_SIZE in *. lia_mod. }
    rewrite (lookup_ge_None_2 l) by lia. rewrite lookup_app_l by (rewrite ring_length; lia).
    rewrite <- (Nat2Z.id k) at 2. by rewrite ring_lookup by lia.
  - assert (((rp + Z.of_nat k) `mod` PIPE_SIZE - wp) `mod` PIPE_SIZE = Z.of_nat k - n) as ->.
    { unfold wp, PIPE_SIZE in *. lia_mod. }
    rewrite lookup_app_r by (rewrite ring_length; lia). rewrite ring_length.
    replace (Z.to_nat (Z.of_nat k - n)) with (k - Z.to_nat n)%nat by lia.
    destruct (l !! (k - Z.to_nat n)%nat) eqn:E; [done|].
    apply lookup_ge_None_1 in E. lia.
Qed.

(** ** What a piece of pipe_read does *)

Lemma read_resume_spec count p :
  pipe_wf p → 0 ≤ count →
  match read_resume count p with
  | RWait p' => p' = p ∧ contents p = [] ∧ 0 < p_writers p
  | RDone p' bytes ret =>
      pipe_wf p' ∧ contents p = bytes ++ contents p' ∧ ret = Z.of_nat (length bytes) ∧
      ret = Z.min count (p_count p) ∧
      p_readers p' = p_readers p ∧ p_writers p' = p_writers p ∧ p_buffer p' = p_buffer p
  end.
Proof.
  intros [Hr Hc Hw He] Hcount. unfold read_resume.
  destruct (Z.eqb_spec (p_count p) 0) as [H0|H0], (Z.ltb_spec 0 (p_writers p)); cbn [andb].
  1: { split; [done|]. unfold contents. by rewrite H0. }
  all: set (n := if count <? p_count p then count else p_count p);
    assert (n = Z.min count (p_count p)) as Hn by (unfold n; zcase; lia);
    rewrite read_loop_ring by done; rewrite Z2Nat.id by lia.
  all: assert (0 ≤ (p_read_pos p + n) `mod` PIPE_SIZE < PIPE_SIZE) by (apply Z.mod_pos_bound; done).
  all: split; [split; cbn; try done; try lia;
    rewrite Hw, Zplus_mod_idemp_l; f_equal; lia|].
  all: split; [unfold contents; cbn; rewrite <- ring_app by lia; f_equal; lia|].
  all: rewrite ring_length; split; [lia|done].
Qed.

Lemma read_enter_spec count p :
  pipe_wf p → 0 ≤ count →
  match read_enter count p with
  | RWait p' => p' = p ∧ contents p = [] ∧ 0 < p_writers p
  | RDone p' bytes ret =>
      pipe_wf p' ∧ contents p = bytes ++ contents p' ∧ ret = Z.of_nat (length bytes) ∧
      ret = Z.min count (p_count p) ∧
      p_readers p' = p_readers p ∧ p_writers p' = p_writers p ∧ p_buffer p' = p_buffer p
  end.
Proof.
  intros Hwf Hc. unfold read_enter.
  destruct (Z.eqb_spec (p_writers p) 0), (Z.eqb_spec (p_count p) 0) as [H0|]; cbn [andb];
    try by apply read_resume_spec.
  split; [done|]. split; [done|]. split; [done|]. split; [rewrite H0; lia|done].
Qed.

(** ** What a piece of pipe_write does *)

Lemma buf_slice_app buf a n m :
  0 ≤ a → 0 ≤ n → 0 ≤ m → buf_slice buf a (n + m) = buf_slice buf a n ++ buf_slice buf (a + n) m.
Proof.
  intros Ha Hn Hm. unfold buf_slice. rewrite !Z2Nat.inj_add by lia.
  rewrite <- drop_drop. by rewrite take_take_drop.
Qed.

Lemma buf_slice_length buf a n :
  0 ≤ a → 0 ≤ n → a + n ≤ Z.of_nat (length buf) → Z.of_nat (length (buf_slice buf a n)) = n.
Proof. intros. unfold buf_slice. rewrite length_take, length_drop. lia. Qed.

Definition write_result (p : pipe) (buf : list Z) (count written : Z) (r : write_step) : Prop :=
  let post p' w :=
    pipe_wf p' ∧ written ≤ w ≤ count ∧
    contents p' = contents p ++ buf_slice buf written (w - written) ∧
    p_readers p' = p_readers p ∧ p_writers p' = p_writers p ∧ p_buffer p' = p_buffer p in
  match r with
  | WWait p' w => post p' w ∧ w < count ∧ p_count p' = PIPE_SIZE ∧ 0 < p_readers p
  | WDone p' ret =>
      (ret = count ∧ post p' count) ∨
      (p_readers p = 0 ∧ p' = p ∧ ret = if 0 <? written then written else - EPIPE)
  end.

Lemma write_chunks_spec fuel buf count written p :
  pipe_wf p → 0 ≤ written ≤ count → Z.of_nat (length buf) = count →
  count - written < Z.of_nat fuel →
  ∃ r, write_chunks fuel buf count written p = Some r ∧ write_result p buf count written r.
Proof.
  revert written p. induction fuel as [|fuel IH]; intros written p Hwf Hw Hb Hf; [lia|].
  cbn [write_chunks]. pose proof Hwf as [Hr Hc Hwp He].
  destruct (Z.ltb_spec written count) as [Hlt|Hge].
  2: { eexists. split; [reflexivity|]. left. split; [lia|]. split; [done|].
       split; [lia|]. replace (count - written) with 0 by lia.
       unfold buf_slice. cbn. by rewrite app_nil_r. }
  destruct (Z.leb_spec PIPE_SIZE (p_count p)), (Z.ltb_spec 0 (p_readers p)); cbn [andb].
  1: { eexists. split; [reflexivity|]. split; [|lia]. split; [done|]. split; [lia|].
       rewrite Z.sub_diag. unfold buf_slice. cbn. by rewrite app_nil_r. }
  all: destruct (Z.eqb_spec (p_readers p) 0) as [Hz|Hz]; try lia.
  1,3: eexists; split; [reflexivity|]; by right.
  rewrite u64_small by (unfold PIPE_SIZE in *; lia).
  set (n := if count - written <? PIPE_SIZE - p_count p then count - written else PIPE_SIZE - p_count p).
  assert (0 < n ∧ n ≤ count - written ∧ p_count p + n ≤ PIPE_SIZE) as (Hn0 & Hn1 & Hn2)
    by (unfold n; zcase; lia).
  assert (Z.of_nat (length (buf_slice buf written n)) = n) as Hlen by (apply buf_slice_length; lia).
  destruct (write_loop _ _ _) as [d pos] eqn:Ewl.
  set (p1 := mk_pipe _ _ _ _ _ _ _).
  assert (contents p1 = contents p ++ buf_slice buf written n) as Hcont.
  { unfold contents, p1. cbn. rewrite Hwp in Ewl.
    pose proof (write_loop_ring (buf_slice buf written n) (p_data p) (p_read_pos p) (p_count p)) as Hring.
    rewrite Ewl, Hlen in Hring. apply Hring; lia. }
  assert (pipe_wf p1) as Hwf1.
  { split; cbn; try done; try lia.
    pose proof (write_loop_pos (buf_slice buf written n) (p_data p) (p_write_pos p)) as Hpos.
    rewrite Ewl, Hlen in Hpos. cbn in Hpos. rewrite Hpos, Hwp.
    - rewrite Zplus_mod_idemp_l. f_equal. lia.
    - rewrite Hwp. apply Z.mod_pos_bound. done. }
  destruct (IH (written + n) p1 Hwf1 ltac:(lia) Hb ltac:(lia)) as (r & E & Hres).
  exists r. split; [done|]. unfold write_result in *. cbn [p_readers p_writers p_buffer p1] in Hres.
  assert (∀ w, written + n ≤ w →
    buf_slice buf written (w - written) = buf_slice buf written n ++ buf_slice buf (written + n) (w - (written + n))) as Hsl.
  { intros w Hw'. rewrite <- buf_slice_app by lia. f_equal. lia. }
  destruct r as [p' w|p' ret].
  - destruct Hres as ((Hwf' & Hw' & Hc' & ? & ? & ?) & ? & ? & ?).
    split; [|done]. split; [done|]. split; [lia|]. split; [|done].
    rewrite Hc', Hcont, <- app_assoc, Hsl by lia. done.
  - destruct Hres as [(-> & Hwf' & Hw' & Hc' & ? & ? & ?)|(? & _)]; [|lia].
    left. split; [done|]. split; [done|]. split; [lia|]. split; [|done].
    rewrite Hc', Hcont, <- app_assoc, Hsl by lia. done.
Qed.

(** ** Threads sharing a pipe

    A thread is about to call, waits inside, or has returned from pipe_read or
    pipe_write; a step runs one piece of one thread, or closes an end.
    [sent] records the bytes put into the pipe with the writer they came from,
    [received] the bytes the readers got, [sy_freed] the addresses given to
    kfree.  The close of the last end frees the buffer and the pipe; from then
    on the pipe is no memory of its own and no piece of a call is a step: a
    call still waiting inside would go on with freed memory. *)

Inductive thread :=
| Reading (count : Z) (entered : bool)
| ReadDone (bytes : list Z) (ret : Z)
| Writing (buf : list Z) (written : Z) (entered : bool)
| WriteDone (buf : list Z) (ret : Z).

Record system := mk_system {
  sy_addr : Z;
  sy_pipe : pipe;
  sy_freed : list Z;
  sy_threads : gmap nat thread;
  sent : list (nat * Z);
  received : list Z
}.

Definition run_read (count : Z) (entered : bool) (p : pipe) : read_step :=
  if entered then read_resume count p else read_enter count p.

Definition run_write (buf : list Z) (written : Z) (entered : bool) (p : pipe) : option write_step :=
  if entered then write_resume buf (Z.of_nat (length buf)) written p
  else write_enter buf (Z.of_nat (length buf)) p.

(** The bytes a write call has put into the pipe when it returned [ret]. *)
Definition accepted (ret : Z) : Z := if ret <? 0 then 0 else ret.

Definition tag (i : nat) (l : list Z) : list (nat * Z) := (λ b, (i, b)) <$> l.

Definition with_ends (r w : Z) (p : pipe) : pipe :=
  mk_pipe (p_buffer p) (p_data p) (p_read_pos p) (p_write_pos p) (p_count p) r w.

(** A piece of thread [i], or of a new one, that leaves the pipe [p]. *)
Definition piece (s : system) (p : pipe) (i : nat) (t : thread) (out : list (nat * Z)) (got : list Z) : system :=
  mk_system (sy_addr s) p (sy_freed s) (<[i := t]> (sy_threads s)) (sent s ++ out) (received s ++ got).

(** An end is closed, [r] readers and [w] writers are left. *)
Definition close_end (r w : Z) (s : system) : system :=
  mk_system (sy_addr s) (with_ends r w (sy_pipe s))
    (if (r =? 0) && (w =? 0) then sy_freed s ++ option_list (p_buffer (sy_pipe s)) ++ [sy_addr s] else sy_freed s)
    (sy_threads s) (sent s) (received s).

Inductive sys_step : system → system → Prop :=
| step_read_wait s i count e p :
    sy_freed s = [] → sy_threads s !! i = Some (Reading count e) → run_read count e (sy_pipe s) = RWait p →
    sys_step s (piece s p i (Reading count true) [] [])
| step_read_done s i count e p bytes ret :
    sy_freed s = [] → sy_threads s !! i = Some (Reading count e) → run_read count e (sy_pipe s) = RDone p bytes ret →
    sys_step s (piece s p i (ReadDone bytes ret) [] bytes)
| step_write_wait s i buf w e p w' :
    sy_freed s = [] → sy_threads s !! i = Some (Writing buf w e) → run_write buf w e (sy_pipe s) = Some (WWait p w') →
    sys_step s (piece s p i (Writing buf w' true) (tag i (buf_slice buf w (w' - w))) [])
| step_write_done s i buf w e p ret :
    sy_freed s = [] → sy_threads s !! i = Some (Writing buf w e) → run_write buf w e (sy_pipe s) = Some (WDone p ret) →
    sys_step s (piece s p i (WriteDone buf ret) (tag i (buf_slice buf w (accepted ret - w))) [])
| step_close_read s :
    0 < p_readers (sy_pipe s) → sys_step s (close_end (p_readers (sy_pipe s) - 1) (p_writers (sy_pipe s)) s)
| step_close_write s :
    0 < p_writers (sy_pipe s) → sys_step s (close_end (p_readers (sy_pipe s)) (p_writers (sy_pipe s) - 1) s)
| step_call_read s i count :
    sy_threads s !! i = None → 0 ≤ count → sys_step s (piece s (sy_pipe s) i (Reading count false) [] [])
| step_call_write s i buf :
    sy_threads s !! i = None → sys_step s (piece s (sy_pipe s) i (Writing buf 0 false) [] []).

(** The pipe as do_pipe creates it, and nobody using it yet. *)
Definition fresh_pipe (b : Z) : pipe := mk_pipe (Some b) ∅ 0 0 0 1 1.
Definition fresh_system (p b : Z) : system := mk_system p (fresh_pipe b) [] ∅ [] [].

(** The bytes of [sent] that came from the writer [i]. *)
Definition from_writer (i : nat) (l : list (nat * Z)) : list Z :=
  (filter (λ x, x.1 = i) l).*2.

(** How far a writer has got. *)
Definition progress (t : thread) : option (list Z * Z) :=
  match t with
  | Writing buf w _ => Some (buf, w)
  | WriteDone buf ret => Some (buf, accepted ret)
  | _ => None
  end.

(** What has been freed: the buffer and the pipe when no end is open. *)
Definition freed_blocks (p b : Z) (pi : pipe) : list Z :=
  if (p_readers pi =? 0) && (p_writers pi =? 0) then [b; p] else [].

Record sys_inv (p b : Z) (s : system) : Prop := {
  sv_addr : sy_addr s = p ∧ p_buffer (sy_pipe s) = Some b;
  sv_freed : sy_freed s = freed_blocks p b (sy_pipe s);
  sv_wf : pipe_wf (sy_pipe s);
  sv_fifo : (sent s).*2 = received s ++ contents (sy_pipe s);
  sv_threads i t : sy_threads s !! i = Some t →
    match t with
    | Reading count _ => 0 ≤ count
    | Writing buf w e => 0 ≤ w ≤ Z.of_nat (length buf) ∧ (e = false → w = 0)
    | _ => True
    end;
  sv_writers i t buf w : sy_threads s !! i = Some t → progress t = Some (buf, w) →
    from_writer i (sent s) = take (Z.to_nat w) buf;
  sv_none i : sy_threads s !! i = None → from_writer i (sent s) = []
}.

Lemma from_writer_tag i j l : from_writer i (tag j l) = if decide (i = j) then l else [].
Proof.
  unfold from_writer. induction l as [|b l IH]; [by case_decide|].
  change (tag j (b :: l)) with ((j, b) :: tag j l). rewrite filter_cons. cbn [fst].
  destruct (decide (i = j)) as [->|Hne].
  - rewrite decide_True by done. cbn [fmap list_fmap snd]. f_equal. exact IH.
  - rewrite decide_False by congruence. exact IH.
Qed.

Lemma from_writer_app i l1 l2 : from_writer i (l1 ++ l2) = from_writer i l1 ++ from_writer i l2.
Proof. unfold from_writer. by rewrite filter_app, fmap_app. Qed.

Lemma tag_snd i l : (tag i l).*2 = l.
Proof. unfold tag. rewrite <- list_fmap_compose. apply list_fmap_id. Qed.

Lemma take_slice buf w w' :
  0 ≤ w ≤ w' → take (Z.to_nat w) buf ++ buf_slice buf w (w' - w) = take (Z.to_nat w') buf.
Proof.
  intros Hw. unfold buf_slice. rewrite take_take_drop. f_equal. lia.
Qed.

(** Appending a slice to what a writer has sent. *)
Lemma sv_writers_step p b s i buf w w' t' :
  sys_inv p b s → (∃ e, sy_threads s !! i = Some (Writing buf w e)) → 0 ≤ w ≤ w' →
  progress t' = Some (buf, w') →
  ∀ j t l v, <[i := t']> (sy_threads s) !! j = Some t → progress t = Some (l, v) →
    from_writer j (sent s ++ tag i (buf_slice buf w (w' - w))) = take (Z.to_nat v) l.
Proof.
  intros Hinv [e Hi] Hw Hp j t l v Hj Hpt. rewrite from_writer_app, from_writer_tag.
  apply lookup_insert_Some in Hj as [[-> <-]|[Hne Hj]].
  - rewrite Hp in Hpt. simplify_eq. rewrite decide_True by done.
    rewrite (sv_writers _ _ _ Hinv _ _ _ _ Hi eq_refl). by apply take_slice.
  - rewrite decide_False, app_nil_r by congruence. by eapply sv_writers.
Qed.

Lemma sv_none_step p b s i l t' :
  sys_inv p b s → ∀ j, <[i := t']> (sy_threads s) !! j = None → from_writer j (sent s ++ tag i l) = [].
Proof.
  intros Hinv j [Hj Hne]%lookup_insert_None. rewrite from_writer_app, from_writer_tag.
  rewrite decide_False by congruence. by rewrite (sv_none _ _ _ Hinv).
Qed.

Lemma run_read_spec count e p :
  pipe_wf p → 0 ≤ count →
  match run_read count e p with
  | RWait p' => p' = p ∧ contents p = [] ∧ 0 < p_writers p
  | RDone p' bytes ret =>
      pipe_wf p' ∧ contents p = bytes ++ contents p' ∧ ret = Z.of_nat (length bytes) ∧
      ret = Z.min count (p_count p) ∧
      p_readers p' = p_readers p ∧ p_writers p' = p_writers p ∧ p_buffer p' = p_buffer p
  end.
Proof. intros. destruct e; [by apply read_resume_spec|by apply read_enter_spec]. Qed.

Lemma run_write_spec buf w e p :
  pipe_wf p → 0 ≤ w ≤ Z.of_nat (length buf) → (e = false → w = 0) →
  ∃ r, run_write buf w e p = Some r ∧ write_result p buf (Z.of_nat (length buf)) w r.
Proof.
  intros Hwf Hw He. unfold run_write, write_enter, write_resume.
  destruct e; [apply write_chunks_spec; try done; lia|]. rewrite (He eq_refl) in *.
  destruct (Z.eqb_spec (p_readers p) 0).
  - eexists. split; [reflexivity|]. right. done.
  - apply write_chunks_spec; try done; lia.
Qed.

(** Both ways a write call can return: all bytes, or cut short. *)
Lemma write_done_accepted p buf w p' ret :
  pipe_wf p → 0 ≤ w ≤ Z.of_nat (length buf) →
  write_result p buf (Z.of_nat (length buf)) w (WDone p' ret) →
  pipe_wf p' ∧ w ≤ accepted ret ≤ Z.of_nat (length buf) ∧
  contents p' = contents p ++ buf_slice buf w (accepted ret - w) ∧
  p_readers p' = p_readers p ∧ p_writers p' = p_writers p ∧ p_buffer p' = p_buffer p.
Proof.
  intros Hwf Hw [(-> & Hwf' & Hle & Hc & Hends)|(H0 & -> & ->)]; unfold accepted.
  - destruct (Z.ltb_spec (Z.of_nat (length buf)) 0); [lia|]. done.
  - split; [done|]. assert ((if (if 0 <? w then w else - EPIPE) <? 0 then 0 else if 0 <? w then w else - EPIPE) = w) as ->.
    { unfold EPIPE. destruct (Z.ltb_spec 0 w); [|change (0 = w); lia]. destruct (Z.ltb_spec w 0); lia. }
    split; [lia|]. rewrite Z.sub_diag. unfold buf_slice. cbn. split; [by rewrite app_nil_r|done].
Qed.

(** A thread that has put nothing into the pipe moves on. *)
Lemma sv_other_step p b s i t' :
  sys_inv p b s → (∀ buf w, progress t' = Some (buf, w) → w = 0 ∧ sy_threads s !! i = None) →
  ∀ j t l v, <[i := t']> (sy_threads s) !! j = Some t → progress t = Some (l, v) →
    from_writer j (sent s) = take (Z.to_nat v) l.
Proof.
  intros Hinv Ht j t l v [[<- <-]|[_ Hj]]%lookup_insert_Some Hp; [|by eapply sv_writers].
  destruct (Ht _ _ Hp) as [-> Hn]. by rewrite (sv_none _ _ _ Hinv).
Qed.

(** One piece of a thread: the ends and the buffer stay, what it puts in and
    takes out accounts for the contents. *)
Lemma piece_inv p b s pi i t out got :
  sys_inv p b s → pipe_wf pi → p_readers pi = p_readers (sy_pipe s) → p_writers pi = p_writers (sy_pipe s) →
  p_buffer pi = p_buffer (sy_pipe s) → contents (sy_pipe s) ++ out.*2 = got ++ contents pi →
  match t with
  | Reading count _ => 0 ≤ count
  | Writing buf w e => 0 ≤ w ≤ Z.of_nat (length buf) ∧ (e = false → w = 0)
  | _ => True
  end →
  (∀ j t' l v, <[i := t]> (sy_threads s) !! j = Some t' → progress t' = Some (l, v) →
     from_writer j (sent s ++ out) = take (Z.to_nat v) l) →
  (∀ j, <[i := t]> (sy_threads s) !! j = None → from_writer j (sent s ++ out) = []) →
  sys_inv p b (piece s pi i t out got).
Proof.
  intros [[Ha Hb] Hfr Hwf Hfifo Hth _ _] Hwf' Hr Hw Hbuf Hc Ht Hwr Hno. split; cbn; try done.
  - by rewrite Hbuf.
  - unfold freed_blocks. by rewrite Hr, Hw.
  - rewrite fmap_app, Hfifo, <- !app_assoc. by rewrite Hc.
  - intros j t' [[-> <-]|[_ Hj]]%lookup_insert_Some; [done|by eapply Hth].
Qed.

Lemma close_end_inv p b s r w :
  sys_inv p b s → 0 ≤ r → 0 ≤ w → 0 < p_readers (sy_pipe s) ∨ 0 < p_writers (sy_pipe s) → sys_inv p b (close_end r w s).
Proof.
  intros [[Ha Hb] Hfr Hwf Hfifo Hth Hwr Hno] Hr Hw Hopen. destruct Hwf as [? ? ? ?].
  assert (sy_freed s = []) as E.
  { rewrite Hfr. unfold freed_blocks. destruct (Z.eqb_spec (p_readers (sy_pipe s)) 0), (Z.eqb_spec (p_writers (sy_pipe s)) 0); try done; lia. }
  split; cbn; try done. unfold freed_blocks. cbn. rewrite E, Ha, Hb. by destruct (_ && _).
Qed.

Lemma sys_step_inv p b s s' : sys_inv p b s → sys_step s s' → sys_inv p b s'.
Proof.
  intros Hinv Hstep. pose proof Hinv as [_ _ Hwf _ Hth Hwr Hno].
  destruct Hstep as [s i count e pi _ Hi Er|s i count e pi bytes ret _ Hi Er|s i buf w e pi w' _ Hi Er
    |s i buf w e pi ret _ Hi Er|s Hr|s Hw|s i count Hi Hc|s i buf Hi].
  - pose proof (Hth _ _ Hi) as Hc. pose proof (run_read_spec count e _ Hwf Hc) as Hs. rewrite Er in Hs.
    destruct Hs as (-> & _ & _). apply piece_inv; rewrite ?app_nil_r; try done.
    + by apply (sv_other_step p b).
    + intros j [Hj _]%lookup_insert_None. by apply Hno.
  - pose proof (Hth _ _ Hi) as Hc. pose proof (run_read_spec count e _ Hwf Hc) as Hs. rewrite Er in Hs.
    destruct Hs as (Hwf' & Hcont & _ & _ & ? & ? & ?). apply piece_inv; rewrite ?app_nil_r; try done.
    + by apply (sv_other_step p b).
    + intros j [Hj _]%lookup_insert_None. by apply Hno.
  - destruct (Hth _ _ Hi) as [Hw He]. destruct (run_write_spec buf w e _ Hwf Hw He) as (r & E & Hres).
    rewrite E in Er. simplify_eq. destruct Hres as ((Hwf' & Hle & Hcont & ? & ? & ?) & _).
    apply piece_inv; try done.
    + by rewrite tag_snd.
    + split; [lia|done].
    + eapply sv_writers_step; [done|by eauto|lia|done].
    + by apply (sv_none_step p b).
  - destruct (Hth _ _ Hi) as [Hw He]. destruct (run_write_spec buf w e _ Hwf Hw He) as (r & E & Hres).
    rewrite E in Er. simplify_eq. destruct (write_done_accepted _ _ _ _ _ Hwf Hw Hres) as (Hwf' & Hle & Hcont & ? & ? & ?).
    apply piece_inv; try done.
    + by rewrite tag_snd.
    + eapply sv_writers_step; [done|by eauto|lia|done].
    + by apply (sv_none_step p b).
  - apply close_end_inv; try done; [lia|apply Hwf|by left].
  - apply close_end_inv; try done; [apply Hwf|lia|by right].
  - apply piece_inv; rewrite ?app_nil_r; try done.
    + by apply (sv_other_step p b).
    + intros j [Hj _]%lookup_insert_None. by apply Hno.
  - apply piece_inv; rewrite ?app_nil_r; try done.
    + split; [lia|done].
    + apply (sv_other_step p b); [done|]. by intros ? ? [= _ <-].
    + intros j [Hj _]%lookup_insert_None. by apply Hno.
Qed.

Lemma fresh_inv p b : sys_inv p b (fresh_system p b).
Proof. by split. Qed.

Lemma sys_reach_inv p b s : rtc sys_step (fresh_system p b) s → sys_inv p b s.
Proof.
  generalize (fresh_inv p b). generalize (fresh_system p b) as s0. intros s0 H0 Hs.
  induction Hs as [|s1 s2 s3 Hstep _ IH]; [done|]. apply IH. by eapply sys_step_inv.
Qed.

(** C32: a pipe is a first-in first-out channel under every interleaving of
    any number of readers and writers that come, wait, return and close their
    ends: the bytes received, followed by the bytes in the ring, are exactly
    the bytes sent; the bytes sent by each writer are a prefix of its buffer,
    as long as it was told; the ring never overflows.  The buffer and the pipe
    are freed when the last end is closed, once, and not before; calls that
    still wait then make no further step in the model, the code would let them
    go on in freed memory ([freed_while_waiting]). *)
Theorem pipe_fifo p b s :
  rtc sys_step (fresh_system p b) s →
  (sent s).*2 = received s ++ contents (sy_pipe s) ∧
  0 ≤ p_count (sy_pipe s) ≤ PIPE_SIZE ∧
  (∀ i buf w e, sy_threads s !! i = Some (Writing buf w e) →
     from_writer i (sent s) = take (Z.to_nat w) buf) ∧
  (∀ i buf ret, sy_threads s !! i = Some (WriteDone buf ret) → 0 ≤ ret →
     from_writer i (sent s) = take (Z.to_nat ret) buf) ∧
  (∀ i buf ret, sy_threads s !! i = Some (WriteDone buf ret) → ret < 0 →
     from_writer i (sent s) = []) ∧
  sy_freed s = freed_blocks p b (sy_pipe s).
Proof.
  intros Hr. destruct (sys_reach_inv p b s Hr) as [_ Hfr Hwf Hfifo _ Hwr _].
  split; [done|]. split; [apply Hwf|]. split; [|split; [|split; [|done]]].
  - intros i buf w e Hi. by eapply Hwr.
  - intros i buf ret Hi Hret. rewrite (Hwr i _ buf (accepted ret) Hi eq_refl).
    unfold accepted. zcase; [lia|done].
  - intros i buf ret Hi Hret. rewrite (Hwr i _ buf (accepted ret) Hi eq_refl).
    unfold accepted. zcase; [done|lia].
Qed.

(** Readers and writers do not block each other: a reader waits only when
    the pipe is empty and has a writer, a writer waits only when the pipe is
    full and has a reader, so whenever one waits the other, with at least one
    byte to transfer, moves at least one byte. *)
Theorem pipe_progress p count buf w :
  pipe_wf p → 0 < count → 0 ≤ w < Z.of_nat (length buf) → 0 < p_readers p →
  (∀ p', read_resume count p = RWait p' →
     ∃ r, write_resume buf (Z.of_nat (length buf)) w p = Some r ∧
       match r with WWait _ w' => w < w' | WDone _ ret => ret = Z.of_nat (length buf) end) ∧
  (∀ p' w', write_resume buf (Z.of_nat (length buf)) w p = Some (WWait p' w') →
     ∃ p'' bytes ret, read_resume count p' = RDone p'' bytes ret ∧ 0 < ret).
Proof.
  intros Hwf Hc Hw Hr.
  destruct (write_chunks_spec (S (length buf)) buf (Z.of_nat (length buf)) w p Hwf
    ltac:(lia) eq_refl ltac:(lia)) as (r & E & Hres).
  unfold write_resume. rewrite Nat2Z.id, E. split.
  - intros p' Hwait. pose proof (read_resume_spec count p Hwf ltac:(lia)) as Hrd. rewrite Hwait in Hrd.
    destruct Hrd as (-> & Hempty & _). exists r. split; [done|]. destruct r as [p' w'|p' ret].
    + destruct Hres as ((Hwf' & Hle & Hcont & _) & _ & Hfull & _).
      destruct (decide (w' = w)) as [->|]; [|lia].
      apply (f_equal length) in Hcont. rewrite Hempty in Hcont. unfold contents in Hcont.
      rewrite ring_length, Hfull, Z.sub_diag in Hcont. change (Z.to_nat PIPE_SIZE = 0%nat) in Hcont.
      unfold PIPE_SIZE in Hcont. lia.
    + destruct Hres as [[-> _]|[? _]]; [done|lia].
  - intros p' w' [= ->]. destruct Hres as ((Hwf' & _) & _ & Hfull & _).
    pose proof (read_resume_spec count p' Hwf' ltac:(lia)) as Hrd.
    destruct (read_resume count p') as [p''|p'' bytes ret].
    + destruct Hrd as (_ & Hempty & _). apply (f_equal length) in Hempty. unfold contents in Hempty.
      rewrite ring_length, Hfull in Hempty. change (Z.to_nat PIPE_SIZE = 0%nat) in Hempty.
      unfold PIPE_SIZE in Hempty. lia.
    + exists p'', bytes, ret. split; [done|]. destruct Hrd as (_ & _ & _ & -> & _).
      rewrite Hfull. unfold PIPE_SIZE. lia.
Qed.

(** A system with one writer of 5 bytes; then both ends are closed. *)
Definition demo_buf : list Z := [104; 101; 108; 108; 111].
Definition demo_pipe : pipe :=
  match write_enter demo_buf 5 (fresh_pipe 16) with Some (WDone p _) => p | _ => fresh_pipe 16 end.
Definition demo_mid : system := piece (fresh_system 8 16) (fresh_pipe 16) 0 (Writing demo_buf 0 false) [] [].
Definition demo_written : system :=
  piece demo_mid demo_pipe 0 (WriteDone demo_buf 5) (tag 0 (buf_slice demo_buf 0 (accepted 5 - 0))) [].
Definition demo_system : system := close_end 0 0 (close_end 0 1 demo_written).

Lemma demo_system_reach : rtc sys_step (fresh_system 8 16) demo_system.
Proof.
  apply (rtc_l sys_step _ demo_mid); [exact (step_call_write (fresh_system 8 16) 0%nat demo_buf eq_refl)|].
  apply (rtc_l sys_step _ demo_written).
  { apply (step_write_done demo_mid 0%nat demo_buf 0 false demo_pipe 5); vm_compute; reflexivity. }
  apply (rtc_l sys_step _ (close_end 0 1 demo_written)); [apply (step_close_read demo_written); vm_compute; reflexivity|].
  apply rtc_once. apply (step_close_write (close_end 0 1 demo_written)). vm_compute. reflexivity.
Qed.

Lemma pipe_fifo_witness :
  (sent demo_system).*2 = received demo_system ++ contents (sy_pipe demo_system) ∧
  from_writer 0 (sent demo_system) = take 5 demo_buf ∧ sy_freed demo_system = [16; 8].
Proof.
  destruct (pipe_fifo 8 16 demo_system demo_system_reach) as (Hf & _ & _ & Hd & _ & Hfr).
  split; [exact Hf|]. split; [apply (Hd 0%nat demo_buf 5); [vm_compute; reflexivity|lia]|].
  rewrite Hfr. vm_compute. reflexivity.
Defined.

(** A reader waits, and both ends are closed: its pipe is freed under it. *)
Definition demo_asked : system := piece (fresh_system 8 16) (fresh_pipe 16) 0 (Reading 3 false) [] [].
Definition demo_waiting : system := piece demo_asked (fresh_pipe 16) 0 (Reading 3 true) [] [].

Lemma freed_while_waiting :
  ∃ s, rtc sys_step (fresh_system 8 16) s ∧ sy_threads s !! 0%nat = Some (Reading 3 true) ∧ sy_freed s = [16; 8].
Proof.
  exists (close_end 0 0 (close_end 0 1 demo_waiting)). split; [|split; vm_compute; reflexivity].
  apply (rtc_l sys_step _ demo_asked); [apply (step_call_read (fresh_system 8 16) 0%nat 3 eq_refl); lia|].
  apply (rtc_l sys_step _ demo_waiting); [apply (step_read_wait demo_asked 0%nat 3 false (fresh_pipe 16)); vm_compute; reflexivity|].
  apply (rtc_l sys_step _ (close_end 0 1 demo_waiting)); [apply (step_close_read demo_waiting); vm_compute; reflexivity|].
  apply rtc_once. apply (step_close_write (close_end 0 1 demo_waiting)). vm_compute. reflexivity.
Qed.

Lemma pipe_progress_witness :
  ∃ r, write_resume demo_buf 5 0 (fresh_pipe 16) = Some r ∧
    match r with WWait _ w' => 0 < w' | WDone _ ret => ret = 5 end.
Proof.
  destruct (pipe_progress (fresh_pipe 16) 3 demo_buf 0 (sv_wf _ _ _ (fresh_inv 8 16)) ltac:(done)
    ltac:(done) ltac:(done)) as [Hp _].
  apply (Hp (fresh_pipe 16)). reflexivity.
Defined.

(** ** Creation and release leak nothing *)

Section Lifetime.
Context {S : Type} `{!KernelHeap S}.

Lemma free_new (h : S) m x n :
  kh_inv h (<[x := n]> m) → m !! x = None →
  ∃ h', kh_free (Some x) h = Some h' ∧ kh_inv h' m.
Proof.
  intros Hh Hx. destruct (kh_free_ok _ _ x n Hh) as (h' & E & H'); [by rewrite lookup_insert_eq|].
  rewrite delete_insert_id in H' by done. eauto.
Qed.

Lemma do_pipe_ok (w : world (S := S)) m :
  kh_inv (w_heap w) m →
  ∃ w' ret ends, do_pipe w = Some (w', (ret, ends)) ∧
    match ends with
    | None => ret = - ENOMEM ∧ kh_inv (w_heap w') m ∧ w_pipes w' = w_pipes w ∧ w_files w' = w_files w
    | Some (rf, wf) => ret = 0 ∧ ∃ p b,
        kh_inv (w_heap w') (<[wf := sizeof_file]> (<[rf := sizeof_file]>
          (<[b := PIPE_SIZE]> (<[p := sizeof_pipe]> m)))) ∧
        NoDup [p; b; rf; wf] ∧ (∀ x, x ∈ [p; b; rf; wf] → m !! x = None) ∧
        w_pipes w' = <[p := fresh_pipe b]> (w_pipes w) ∧
        w_files w' !! rf = Some (mk_file (Some pipe_read_ops) O_RDONLY (Some p) 1) ∧
        w_files w' !! wf = Some (mk_file (Some pipe_write_ops) O_WRONLY (Some p) 1)
    end.
Proof.
  intros Hm. unfold do_pipe, alloc_file.
  destruct (kh_alloc_ok _ _ sizeof_pipe GFP_ZERO Hm ltac:(done)) as (h1 & r1 & -> & H1).
  cbn [mbind option_bind]. destruct r1 as [p|]; [|do 3 eexists; split; [reflexivity|done]].
  destruct H1 as (_ & _ & Hp & H1).
  destruct (kh_alloc_ok _ _ PIPE_SIZE GFP_KERNEL H1 ltac:(done)) as (h2 & r2 & -> & H2).
  cbn [mbind option_bind]. destruct r2 as [b|].
  2: { destruct (free_new _ _ _ _ H2 Hp) as (h3 & -> & H3).
       cbn [mbind option_bind]. do 3 eexists. split; [reflexivity|done]. }
  destruct H2 as (_ & _ & Hb & H2). pose proof Hb as [Hbm Hpb]%lookup_insert_None.
  set (m2 := <[b := PIPE_SIZE]> (<[p := sizeof_pipe]> m)) in *.
  assert (∀ h, kh_inv h m2 → ∃ h', (h ← kh_free (Some b) h; kh_free (Some p) h) = Some h' ∧ kh_inv h' m) as Hundo.
  { intros h Hh. destruct (free_new _ _ _ _ Hh Hb) as (h' & -> & H'). cbn. by apply (free_new _ _ _ _ H'). }
  destruct (kh_alloc_ok _ _ sizeof_file GFP_ZERO H2 ltac:(done)) as (h3 & rf & -> & H3).
  cbn [mbind option_bind].
  destruct rf as [rf|].
  - destruct H3 as (_ & _ & Hrf & H3).
    destruct (kh_alloc_ok _ _ sizeof_file GFP_ZERO H3 ltac:(done)) as (h4 & wf & -> & H4).
    cbn [mbind option_bind]. destruct wf as [wf|].
    + destruct H4 as (_ & _ & Hwf & H4). do 3 eexists. split; [reflexivity|]. split; [done|].
      pose proof Hrf as [[Hrm Hrp]%lookup_insert_None Hrb]%lookup_insert_None.
      pose proof Hwf as [[[Hwm Hwp]%lookup_insert_None Hwb]%lookup_insert_None Hwr]%lookup_insert_None.
      exists p, b. split; [exact H4|]. split; [|split; [|split; [done|split]]].
      * repeat (apply NoDup_cons_2; [rewrite ?not_elem_of_cons; repeat split; try done; by apply not_elem_of_nil|]).
        apply NoDup_nil_2.
      * intros x Hx. rewrite !elem_of_cons, elem_of_nil in Hx.
        destruct Hx as [->|[->|[->|[->|[]]]]]; done.
      * cbn. rewrite lookup_insert_ne by done. by rewrite lookup_insert_eq.
      * cbn. by rewrite lookup_insert_eq.
    + destruct (free_new _ _ _ _ H4 Hrf) as (h5 & -> & H5). cbn [mbind option_bind].
      rewrite kh_free_null. cbn [mbind option_bind]. destruct (Hundo _ H5) as (h6 & E6 & H6).
      apply bind_Some in E6 as (h5' & -> & E6). cbn [mbind option_bind]. rewrite E6. cbn [mbind option_bind].
      do 3 eexists. split; [reflexivity|done].
  - destruct (kh_alloc_ok _ _ sizeof_file GFP_ZERO H3 ltac:(done)) as (h4 & wf & -> & H4).
    cbn [mbind option_bind]. rewrite kh_free_null. cbn [mbind option_bind].
    assert (∃ h5, kh_free wf h4 = Some h5 ∧ kh_inv h5 m2) as (h5 & -> & H5).
    { destruct wf as [wf|]; [|rewrite kh_free_null; eauto].
      destruct H4 as (_ & _ & Hwf & H4). by apply (free_new _ _ _ _ H4). }
    cbn [mbind option_bind]. destruct (Hundo _ H5) as (h6 & E6 & H6).
    apply bind_Some in E6 as (h5' & -> & E6). cbn [mbind option_bind]. rewrite E6. cbn [mbind option_bind].
    do 3 eexists. split; [reflexivity|done].
Qed.

(** Do_pipe either returns two files that share a fresh pipe, with four
    new heap blocks, or returns -ENOMEM with the heap holding exactly what it
    held before; releasing both ends, in either order, gives back the pipe and
    its buffer and nothing else. *)
Theorem pipe_lifetime (w : world (S := S)) m :
  kh_inv (w_heap w) m →
  ∃ w' ret ends, do_pipe w = Some (w', (ret, ends)) ∧
    match ends with
    | None => ret = - ENOMEM ∧ kh_inv (w_heap w') m ∧ w_pipes w' = w_pipes w ∧ w_files w' = w_files w
    | Some (rf, wf) => ret = 0 ∧ ∃ fr fw,
        w_files w' !! rf = Some fr ∧ w_files w' !! wf = Some fw ∧
        let m' := <[wf := sizeof_file]> (<[rf := sizeof_file]> m) in
        (∃ w1 w2, pipe_release_read fr w' = Some (w1, 0) ∧ pipe_release_write fw w1 = Some (w2, 0) ∧
           kh_inv (w_heap w2) m') ∧
        (∃ w1 w2, pipe_release_write fw w' = Some (w1, 0) ∧ pipe_release_read fr w1 = Some (w2, 0) ∧
           kh_inv (w_heap w2) m')
    end.
Proof.
  intros Hm. destruct (do_pipe_ok w m Hm) as (w' & ret & ends & E & Hends).
  exists w', ret, ends. split; [done|]. destruct ends as [[rf wf]|]; [|done].
  destruct Hends as (-> & p & b & Hinv & Hnd & Hfresh & Hpipes & Hrf & Hwf). split; [done|].
  do 2 eexists. split; [done|]. split; [done|]. cbn zeta.
  assert (∃ h, (h ← kh_free (Some b) (w_heap w'); kh_free (Some p) h) = Some h ∧
    kh_inv h (<[wf := sizeof_file]> (<[rf := sizeof_file]> m))) as (h2 & Eh & Hh).
  { apply NoDup_cons in Hnd as [Hp Hnd]. apply NoDup_cons in Hnd as [Hb _].
    rewrite !not_elem_of_cons in Hp. rewrite !not_elem_of_cons in Hb. destruct Hp as (? & ? & ? & _), Hb as (? & ? & _).
    destruct (kh_free_ok _ _ b PIPE_SIZE Hinv) as (h1 & E1 & Hh1).
    { rewrite !lookup_insert_ne by done. by rewrite lookup_insert_eq. }
    rewrite E1. cbn [mbind option_bind].
    rewrite !(delete_insert_ne _ b), delete_insert_id in Hh1 by (done || (rewrite lookup_insert_ne by done; apply Hfresh; set_solver)).
    destruct (kh_free_ok _ _ p sizeof_pipe Hh1) as (h2 & E2 & Hh2).
    { rewrite !lookup_insert_ne by done. by rewrite lookup_insert_eq. }
    rewrite !(delete_insert_ne _ p), delete_insert_id in Hh2 by (done || (apply Hfresh; set_solver)).
    eauto. }
  apply bind_Some in Eh as (h1 & E1 & E2).
  assert (w_pipes w' !! p = Some (fresh_pipe b)) as Hpi by (rewrite Hpipes; by rewrite lookup_insert_eq).
  assert (∀ pi ps, p_buffer pi = Some b → p_readers pi = 0 → p_writers pi = 0 →
    release_tail p pi (mk_world (w_heap w') ps (w_files w')) =
    Some (mk_world h2 (delete p ps) (w_files w'))) as Htail.
  { intros pi ps Eb Er Ew. unfold release_tail. rewrite Er, Ew, Eb. cbn [Z.eqb andb w_heap].
    rewrite E1. cbn [mbind option_bind]. by rewrite E2. }
  unfold pipe_release_read, pipe_release_write. cbn [f_private_data]. rewrite Hpi. cbn [mbind option_bind].
  split; do 2 eexists; (split; [reflexivity|]); cbn [w_pipes]; rewrite lookup_insert_eq;
    cbn [mbind option_bind]; rewrite Htail by done; (split; [reflexivity|exact Hh]).
Qed.
End Lifetime.

Lemma pipe_lifetime_witness :
  ∃ w' ret ends, do_pipe (mk_world boot_heap ∅ ∅) = Some (w', (ret, ends)) ∧
    match ends with
    | None => ret = - ENOMEM
    | Some _ => ret = 0
    end.
Proof.
  destruct (pipe_lifetime (mk_world boot_heap ∅ ∅) ∅) as (w' & ret & ends & E & H).
  - apply heap_owns_init; done.
  - exists w', ret, ends. split; [exact E|]. destruct ends as [[rf wf]|]; exact (proj1 H).
Defined.
