(* ===== verification/Sched.v ===== *)
(** * kernel/sched/sched.c and the fork half of kernel/sched/fork.c

    A [struct task_struct *] is an index: [INIT] for the static [init_task],
    0..255 for the elements of [task_pool].  The run queue is a doubly linked
    list threaded through the tasks ([DList]).  The timing fields and the
    child lists of the task structure are not used by this code and are left
    out.  cpu_switch_to is assembly: for this state a switch is the change of
    [current]; what the code does after it is done when the task runs again.

    The functions return [None] where the code would write through a null
    pointer. *)

From S2P Require Import Prelude DList PageAlloc Pmm Vmm.

Definition MAX_TASKS : Z := 256.
Definition INIT : Z := -1.
Definition PRIO_DEFAULT : Z := 0.
Definition TASK_COMM_LEN : Z := 16.
Definition KERNEL_STACK_SIZE : Z := 16 * 1024.

Definition PF_KTHREAD : Z := 1.
Definition PF_EXITING : Z := 2.
Definition PF_IDLE : Z := 4.
Definition PF_THREAD : Z := 32.
Definition CLONE_VM : Z := 256.
Definition CLONE_THREAD : Z := 65536.

Inductive task_state :=
| TASK_RUNNING
| TASK_INTERRUPTIBLE
| TASK_UNINTERRUPTIBLE
| TASK_STOPPED
| TASK_ZOMBIE
| TASK_DEAD.

#[export] Instance task_state_eq : EqDecision task_state.
Proof. solve_decision. Defined.

(** The callee-saved registers the creation code sets. *)
Record cpu_context := mk_ctx { ctx_x19 : Z; ctx_sp : Z; ctx_pc : Z }.

(** The fields that are set when a task is created. *)
Record task_info := mk_info {
  ti_prio : Z;
  ti_static_prio : Z;
  ti_nice : Z;
  ti_pid : Z;
  ti_tgid : Z;
  ti_uid : Z;
  ti_gid : Z;
  ti_comm : list Z;
  ti_cpu_context : cpu_context;
  ti_stack : Z;
  ti_stack_size : Z;
  ti_parent : option Z
}.

Record task := mk_task {
  t_state : task_state;
  t_next : option Z;
  t_prev : option Z;
  t_info : task_info;
  t_mm : option Z;
  t_active_mm : option Z;
  t_exit_code : Z;
  t_signals : option Z;
  t_pending_signals : Z;
  t_flags : Z
}.

Definition zero_info : task_info := mk_info 0 0 0 0 0 0 0 [] (mk_ctx 0 0 0) 0 0 None.
Definition zero_task : task := mk_task TASK_RUNNING None None zero_info None None 0 None 0 0.

Definition t_pid (t : task) : Z := ti_pid (t_info t).

Record sched := mk_sched {
  rq_current : Z;
  rq_idle : Z;
  rq_head : option Z;
  rq_tail : option Z;
  rq_nr_running : Z;
  rq_clock : Z;
  tasks : gmap Z task;
  task_pool_index : Z;
  next_pid : Z;
  vm : vmm pmm
}.

(** Field updates. *)
Definition set_state (v : task_state) (t : task) : task :=
  mk_task v (t_next t) (t_prev t) (t_info t) (t_mm t) (t_active_mm t) (t_exit_code t)
    (t_signals t) (t_pending_signals t) (t_flags t).
Definition set_links (p n : option Z) (t : task) : task :=
  mk_task (t_state t) n p (t_info t) (t_mm t) (t_active_mm t) (t_exit_code t)
    (t_signals t) (t_pending_signals t) (t_flags t).
Definition set_info (i : task_info) (t : task) : task :=
  mk_task (t_state t) (t_next t) (t_prev t) i (t_mm t) (t_active_mm t) (t_exit_code t)
    (t_signals t) (t_pending_signals t) (t_flags t).
Definition set_mm (m a : option Z) (t : task) : task :=
  mk_task (t_state t) (t_next t) (t_prev t) (t_info t) m a (t_exit_code t)
    (t_signals t) (t_pending_signals t) (t_flags t).
Definition set_exit (code : Z) (t : task) : task :=
  mk_task (t_state t) (t_next t) (t_prev t) (t_info t) (t_mm t) (t_active_mm t) code
    (t_signals t) (t_pending_signals t) (t_flags t).
Definition set_signals (sg : option Z) (t : task) : task :=
  mk_task (t_state t) (t_next t) (t_prev t) (t_info t) (t_mm t) (t_active_mm t) (t_exit_code t)
    sg (t_pending_signals t) (t_flags t).
Definition set_flags (pend fl : Z) (t : task) : task :=
  mk_task (t_state t) (t_next t) (t_prev t) (t_info t) (t_mm t) (t_active_mm t) (t_exit_code t)
    (t_signals t) pend fl.

Definition with_rq (cur : Z) (hd tl : option Z) (nr : Z) (s : sched) : sched :=
  mk_sched cur (rq_idle s) hd tl nr (rq_clock s) (tasks s) (task_pool_index s) (next_pid s) (vm s).
Definition with_tasks (ts : gmap Z task) (s : sched) : sched :=
  mk_sched (rq_current s) (rq_idle s) (rq_head s) (rq_tail s) (rq_nr_running s) (rq_clock s)
    ts (task_pool_index s) (next_pid s) (vm s).
Definition with_pool (pi np : Z) (s : sched) : sched :=
  mk_sched (rq_current s) (rq_idle s) (rq_head s) (rq_tail s) (rq_nr_running s) (rq_clock s)
    (tasks s) pi np (vm s).
Definition with_vm (v : vmm pmm) (s : sched) : sched :=
  mk_sched (rq_current s) (rq_idle s) (rq_head s) (rq_tail s) (rq_nr_running s) (rq_clock s)
    (tasks s) (task_pool_index s) (next_pid s) v.

(** [*task]; the pool is a static zeroed array. *)
Definition task_at (s : sched) (i : Z) : task := default zero_task (tasks s !! i).

(** [task->field = ...] *)
Definition upd (i : Z) (f : task → task) (s : sched) : sched :=
  with_tasks (<[i := f (task_at s i)]> (tasks s)) s.

Definition init_task : task :=
  mk_task TASK_RUNNING None None
    (mk_info PRIO_DEFAULT PRIO_DEFAULT 0 0 0 0 0 (bytes_of_string "swapper"%string) (mk_ctx 0 0 0) 0 0 None)
    None None 0 None 0 (Z.lor PF_KTHREAD PF_IDLE).

(** ** Helper functions *)

Definition alloc_task (s : sched) : sched * option Z :=
  if MAX_TASKS <=? task_pool_index s then (s, None)
  else
    let task := task_pool_index s in
    let s := with_pool (task_pool_index s + 1) (next_pid s) s in
    (with_tasks (<[task := zero_task]> (tasks s)) s, Some task).

Fixpoint stack_order (fuel : nat) (size order : Z) : Z :=
  match fuel with
  | O => order
  | S fuel' =>
      if (Z.shiftl PAGE_SIZE order <? size) && (order <? 10)
      then stack_order fuel' size (order + 1) else order
  end.

Definition alloc_stack (size : Z) (s : sched) : option (sched * Z) :=
  let order := stack_order 11 size 0 in
  r ← pmm_alloc_pages order (pages (vm s));
  let '(ps, paddr) := r in
  Some (with_vm (with_pages ps (vm s)) s, paddr).

Definition enqueue_task (t : Z) (s : sched) : option sched :=
  let s := upd t (set_state TASK_RUNNING) s in
  match rq_head s with
  | None =>
      let s := upd t (set_links None None) s in
      Some (with_rq (rq_current s) (Some t) (Some t) (u32 (rq_nr_running s + 1)) s)
  | Some _ =>
      tl ← rq_tail s;
      let s := upd t (set_links (Some tl) None) s in
      let s := upd tl (λ x, set_links (t_prev x) (Some t) x) s in
      Some (with_rq (rq_current s) (rq_head s) (Some t) (u32 (rq_nr_running s + 1)) s)
  end.

Definition dequeue_task (t : Z) (s : sched) : sched :=
  let s := match t_prev (task_at s t) with
           | Some p => upd p (λ x, set_links (t_prev x) (t_next (task_at s t)) x) s
           | None => with_rq (rq_current s) (t_next (task_at s t)) (rq_tail s) (rq_nr_running s) s
           end in
  let s := match t_next (task_at s t) with
           | Some n => upd n (λ x, set_links (t_prev (task_at s t)) (t_next x) x) s
           | None => with_rq (rq_current s) (rq_head s) (t_prev (task_at s t)) (rq_nr_running s) s
           end in
  let s := upd t (set_links None None) s in
  if 0 <? rq_nr_running s
  then with_rq (rq_current s) (rq_head s) (rq_tail s) (rq_nr_running s - 1) s else s.

Definition pick_next_task (s : sched) : Z :=
  match rq_head s with Some next => next | None => rq_idle s end.

(** ** Public functions *)

Definition sched_init (s : sched) : sched :=
  mk_sched INIT INIT None None 0 0 (tasks s) (task_pool_index s) (next_pid s) (vm s).

(** The address-space switch is a register write. *)
Definition context_switch (prev next : Z) (s : sched) : sched :=
  let m := t_mm (task_at s next) in
  let act := match m with Some _ => m | None => t_active_mm (task_at s prev) end in
  upd next (set_mm m act) s.

Definition schedule (s : sched) : option sched :=
  let prev := rq_current s in
  let next := pick_next_task s in
  if next =? prev then Some s
  else
    s ← (if bool_decide (t_state (task_at s prev) = TASK_RUNNING) && negb (prev =? rq_idle s)
         then enqueue_task prev (dequeue_task prev s) else Some s);
    let s := with_rq next (rq_head s) (rq_tail s) (rq_nr_running s) s in
    Some (context_switch prev next s).

Definition wake_up_process (task : option Z) (s : sched) : option (sched * Z) :=
  match task with
  | None => Some (s, 0)
  | Some t =>
      if bool_decide (t_state (task_at s t) = TASK_RUNNING) then Some (s, 0)
      else
        s ← enqueue_task t (upd t (set_state TASK_RUNNING) s);
        Some (s, 1)
  end.

(** [task->comm[i] = "task"[i < 4 ? i : 0]] for the first 15 characters. *)
Definition default_comm : list Z :=
  (λ i, nth (Z.to_nat (if i <? 4 then i else 0)) (bytes_of_string "task"%string) 0)
    <$> seqZ 0 (TASK_COMM_LEN - 1).

Definition create_task (entry arg flags : Z) (s : sched) : option (sched * option Z) :=
  match alloc_task s with
  | (s, None) => Some (s, None)
  | (s, Some task) =>
      r ← alloc_stack KERNEL_STACK_SIZE s;
      let '(s, stack) := r in
      if stack =? 0 then Some (s, None)
      else
        let pid := next_pid s in
        let s := with_pool (task_pool_index s) (i32 (next_pid s + 1)) s in
        let info := mk_info PRIO_DEFAULT PRIO_DEFAULT 0 pid pid 0 0 default_comm
                      (mk_ctx arg (u64 (stack + KERNEL_STACK_SIZE)) entry) stack KERNEL_STACK_SIZE
                      (Some (rq_current s)) in
        let s := upd task (λ x, set_flags (t_pending_signals x) flags
                                  (set_info info (set_state TASK_RUNNING x))) s in
        s ← enqueue_task task s;
        Some (s, Some task)
  end.

Definition exit_task (code : Z) (s : sched) : option sched :=
  let current := rq_current s in
  let s := upd current (λ x, set_flags (t_pending_signals x) (Z.lor (t_flags x) PF_EXITING)
                               (set_state TASK_ZOMBIE (set_exit code x))) s in
  schedule (dequeue_task current s).

(** [task->mm->users.counter++] *)
Definition mm_get (m : option Z) (s : sched) : option sched :=
  match m with
  | None => Some s
  | Some m =>
      a ← mm_pool (vm s) !! m;
      let a := mk_mm (mm_pgd a) (mm_vma_list a) (mm_total_vm a) (i32 (mm_users a + 1)) in
      Some (with_vm (with_mm (<[m := a]> (mm_pool (vm s))) (mm_index (vm s)) (vm s)) s)
  end.

(** [stack] is 0 for NULL.  The name is cut to six characters. *)
Definition create_thread (entry arg stack clone_flags : Z) (s : sched) : option (sched * Z) :=
  let parent := rq_current s in
  match alloc_task s with
  | (s, None) => Some (s, -1)
  | (s, Some task) =>
      let par := task_at s parent in
      let pi := t_info par in
      let pid := next_pid s in
      let s := with_pool (task_pool_index s) (i32 (next_pid s + 1)) s in
      let tgid := if has clone_flags CLONE_THREAD then ti_tgid pi else pid in
      let info stk size ctx :=
        mk_info (ti_prio pi) (ti_static_prio pi) (ti_nice pi) pid tgid (ti_uid pi) (ti_gid pi)
          (take (Z.to_nat (TASK_COMM_LEN - 10)) (ti_comm pi)) ctx stk size (Some parent) in
      let s := upd task (λ x, set_mm (t_mm par) (t_active_mm par)
                                (set_flags (t_pending_signals x) PF_THREAD
                                   (set_info (info 0 0 (mk_ctx 0 0 0)) (set_state TASK_RUNNING x)))) s in
      s ← (if has clone_flags CLONE_VM then mm_get (t_mm par) s else Some s);
      if negb (stack =? 0) then
        let s := upd task (set_info (info stack 0 (mk_ctx arg stack entry))) s in
        s ← enqueue_task task s;
        Some (s, pid)
      else
        r ← alloc_stack KERNEL_STACK_SIZE s;
        let '(s, stk) := r in
        if stk =? 0 then Some (s, -1)
        else
          let s := upd task (set_info (info stk KERNEL_STACK_SIZE
                                  (mk_ctx arg (u64 (stk + KERNEL_STACK_SIZE)) entry))) s in
          s ← enqueue_task task s;
          Some (s, pid)
  end.

(** [for (i = 0; i < task_pool_index; i++)], [n] iterations from [i]. *)
Fixpoint find_pid (n : nat) (i pid : Z) (s : sched) : option Z :=
  match n with
  | O => None
  | S n' =>
      if (t_pid (task_at s i) =? pid) && negb (bool_decide (t_state (task_at s i) = TASK_DEAD))
      then Some i else find_pid n' (i + 1) pid s
  end.

Definition get_task_by_pid (pid : Z) (s : sched) : option Z :=
  if t_pid (task_at s INIT) =? pid then Some INIT
  else find_pid (Z.to_nat (task_pool_index s)) 0 pid s.

Definition sched_kill_task (pid : Z) (s : sched) : option (sched * Z) :=
  match get_task_by_pid pid s with
  | None => Some (s, -3)
  | Some t =>
      if (t_pid (task_at s t) =? 0) || has (t_flags (task_at s t)) PF_IDLE then Some (s, -1)
      else
        let s := upd t (λ x, set_flags (Z.lor (t_pending_signals x) (Z.shiftl 1 9))
                               (Z.lor (t_flags x) PF_EXITING) x) s in
        let st := t_state (task_at s t) in
        s ← (if bool_decide (st = TASK_INTERRUPTIBLE) || bool_decide (st = TASK_UNINTERRUPTIBLE)
             then enqueue_task t (upd t (set_state TASK_RUNNING) s) else Some s);
        Some (s, 0)
  end.

Definition get_current (s : sched) : Z := rq_current s.

(** ** fork.c: do_fork *)

Section Fork.
Context (kernel_pgd early_tables : Z).

Definition copy_mm (child parent : Z) (s : sched) : option (sched * Z) :=
  match t_mm (task_at s parent) with
  | None => Some (upd child (set_mm None (t_active_mm (task_at s parent))) s, 0)
  | Some _ =>
      r ← vmm_create_address_space kernel_pgd early_tables (vm s);
      let '(v, m) := r in
      let s := with_vm v s in
      match m with
      | None => Some (upd child (λ x, set_mm None (t_active_mm x) x) s, -1)
      | Some m => Some (upd child (set_mm (Some m) (Some m)) s, 0)
      end
  end.

Definition copy_thread (child parent : Z) (s : sched) : sched :=
  let c := ti_cpu_context (t_info (task_at s parent)) in
  upd child (λ x, let i := t_info x in
    set_info (mk_info (ti_prio i) (ti_static_prio i) (ti_nice i) (ti_pid i) (ti_tgid i) (ti_uid i)
                (ti_gid i) (ti_comm i) c (ti_stack i) (ti_stack_size i) (ti_parent i)) x) s.

(** [fork_entry] is the address of the function of that name. *)
Definition do_fork (fork_entry flags : Z) (s : sched) : option (sched * Z) :=
  let current_task := get_current s in
  r ← create_task fork_entry 0 (u32 flags) s;
  match r with
  | (s, None) => Some (s, -1)
  | (s, Some child) =>
      r ← copy_mm child current_task s;
      let '(s, ret) := r in
      if ret <? 0 then Some (s, -1)
      else
        let s := copy_thread child current_task s in
        let cur := t_info (task_at s current_task) in
        let s := upd child (λ x, let i := t_info x in
          set_state TASK_RUNNING
            (set_info (mk_info (ti_prio i) (ti_static_prio i) (ti_nice i) (ti_pid i) (ti_tgid i)
                         (ti_uid cur) (ti_gid cur) (ti_comm i) (ti_cpu_context i) (ti_stack i)
                         (ti_stack_size i) (Some current_task)) x)) s in
        Some (s, t_pid (task_at s child))
  end.
End Fork.

(** ** The run queue *)

Lemma task_at_upd s i f j :
  task_at (upd i f s) j = if decide (j = i) then f (task_at s i) else task_at s j.
Proof.
  unfold upd, task_at. cbn [tasks with_tasks]. rewrite lookup_insert.
  repeat case_decide; congruence || done.
Qed.

Lemma task_at_rq c h tl n s i : task_at (with_rq c h tl n s) i = task_at s i.
Proof. done. Qed.

(** Read the tasks through the updates. *)
Ltac task_simpl := repeat (rewrite task_at_rq || rewrite task_at_upd).

(** The links of a task, and everything but its links. *)
Definition lk (s : sched) (i : Z) : option (option Z * option Z) :=
  Some (t_prev (task_at s i), t_next (task_at s i)).
Definition core (t : task) : task := set_links None None t.

Record rq_wf (s : sched) (l : list Z) : Prop := {
  rw_head : rq_head s = first_or l None;
  rw_tail : rq_tail s = last_or l None;
  rw_links : dseg (lk s) None l None;
  rw_nodup : NoDup l;
  rw_range t : t ∈ l → 0 ≤ t < task_pool_index s;
  rw_pool : 0 ≤ task_pool_index s ≤ MAX_TASKS;
  rw_count : rq_nr_running s = Z.of_nat (length l)
}.

(** Everything of the scheduler but the queue. *)
Definition same_rest (s s' : sched) : Prop :=
  rq_current s' = rq_current s ∧ rq_idle s' = rq_idle s ∧
  task_pool_index s' = task_pool_index s ∧ next_pid s' = next_pid s ∧ vm s' = vm s.

Lemma queue_length s l : rq_wf s l → Z.of_nat (length l) ≤ MAX_TASKS.
Proof.
  intros Hwf. assert (l ⊆+ seqZ 0 (task_pool_index s)) as Hsub.
  { apply NoDup_submseteq; [apply Hwf|]. intros t Ht. apply elem_of_seqZ.
    destruct (rw_range _ _ Hwf t Ht). lia. }
  apply submseteq_length in Hsub. rewrite length_seqZ in Hsub.
  pose proof (rw_pool _ _ Hwf). lia.
Qed.

Lemma enqueue_ok s l t :
  rq_wf s l → (t ∉ l) → 0 ≤ t < task_pool_index s → (length l < 256)%nat →
  ∃ s', enqueue_task t s = Some s' ∧ rq_wf s' (l ++ [t]) ∧ same_rest s s' ∧
    ∀ i, core (task_at s' i) = core (if decide (i = t) then set_state TASK_RUNNING (task_at s t)
                                     else task_at s i).
Proof.
  intros [Hh Ht Hl Hn Hr Hp Hc] Hnin Hrange Hlen. unfold enqueue_task.
  assert (rq_head (upd t (set_state TASK_RUNNING) s) = rq_head s) as -> by done. rewrite Hh.
  destruct l as [|a l'] eqn:El; cbn [first_or].
  - eexists. split; [reflexivity|]. split; [|split; [done|]].
    + split; cbn [rq_head rq_tail rq_nr_running with_rq upd with_tasks task_pool_index app]; try done.
      * split; [|done]. unfold lk. task_simpl. rewrite decide_True by done. done.
      * apply NoDup_singleton.
      * intros x ->%list_elem_of_singleton. done.
      * rewrite Hc. done.
    + intros i. task_simpl. rewrite (decide_True (P := t = t)) by done. by case_decide.
  - rewrite <- El in *. assert (rq_tail (upd t (set_state TASK_RUNNING) s) = last_or l None) as -> by done.
    destruct (last_or l None) as [tl|] eqn:Elast; [|apply last_or_None in Elast; by subst].
    assert (tl ∈ l) as Htl by (apply last_or_in in Elast as [?|[? ?]]; [done|congruence]).
    assert (tl ≠ t) as Hne by congruence. cbn [mbind option_bind].
    eexists. split; [reflexivity|]. split; [|split; [done|]].
    + split; cbn [rq_head rq_tail rq_nr_running with_rq upd with_tasks task_pool_index]; try done.
      * rewrite Hh, El. done.
      * by rewrite last_or_snoc.
      * apply dseg_app. split.
        -- eapply dseg_set_last; [done|exact Hl| |].
           ++ intros b Hb Hbl. unfold lk. task_simpl. rewrite decide_False by congruence.
              rewrite !(decide_False (P := b = t)) by congruence. done.
           ++ intros b p n Hb Hlkb. rewrite Hb in Elast. simplify_eq. unfold lk in *. simplify_eq.
              cbn [first_or]. task_simpl. rewrite decide_True by done.
              rewrite !(decide_False (P := tl = t)) by done. done.
        -- rewrite Elast. cbn [dseg first_or]. split; [|done]. unfold lk. task_simpl.
           rewrite decide_False by done. rewrite !decide_True by done. done.
      * apply NoDup_app. split; [done|]. split; [|apply NoDup_singleton].
        intros x Hx ->%list_elem_of_singleton. done.
      * intros x [Hx| ->%list_elem_of_singleton]%elem_of_app; [by apply Hr|done].
      * rewrite Hc, length_app. cbn [length]. rewrite u32_small by lia. lia.
    + intros i. task_simpl. repeat case_decide; subst; done.
Qed.

(** Unlinking a task between [p] and [n]. *)
Lemma dequeue_task_effect s t p n :
  t_prev (task_at s t) = p → t_next (task_at s t) = n → p ≠ Some t → n ≠ Some t →
  let s' := dequeue_task t s in
  rq_head s' = match p with Some _ => rq_head s | None => n end ∧
  rq_tail s' = match n with Some _ => rq_tail s | None => p end ∧
  rq_nr_running s' = (if 0 <? rq_nr_running s then rq_nr_running s - 1 else rq_nr_running s) ∧
  same_rest s s' ∧
  (∀ b, b ≠ t → task_at s' b =
     set_links (if decide (Some b = n) then p else t_prev (task_at s b))
       (if decide (Some b = p) then n else t_next (task_at s b)) (task_at s b)) ∧
  task_at s' t = core (task_at s t).
Proof.
  intros Hp Hn Hpt Hnt. cbn zeta. unfold dequeue_task. rewrite Hp, Hn.
  destruct p as [p|], n as [n|]; task_simpl;
    rewrite ?(decide_False (P := t = p)) by congruence; rewrite ?Hp, ?Hn;
    destruct (0 <? rq_nr_running _) eqn:Enr; cbn in Enr; rewrite ?Enr.
  all: split; [done|]; split; [done|]; split; [done|]; split; [done|].
  all: split; [intros b Hb|]; task_simpl;
    repeat (case_decide; subst; simplify_eq; try done); cbn; unfold core, set_links; cbn;
    rewrite ?Hp, ?Hn; try (by destruct (task_at s t)); try (by destruct (task_at s b)); try done.
  all: try (destruct (task_at s n) eqn:En; cbn; done).
Qed.

Lemma dequeue_ok s l1 t l2 :
  rq_wf s (l1 ++ t :: l2) →
  rq_wf (dequeue_task t s) (l1 ++ l2) ∧ same_rest s (dequeue_task t s) ∧
  ∀ i, core (task_at (dequeue_task t s) i) = core (task_at s i).
Proof.
  intros [Hh Htl Hl Hn Hr Hp Hc].
  pose proof (dseg_in_neighbours _ _ _ _ _ _ Hl) as (_ & Ht & _).
  pose proof Hn as [Hnin Hnd]%NoDup_middle.
  unfold lk in Ht. injection Ht as Hprev Hnext.
  destruct (dequeue_task_effect s t _ _ Hprev Hnext) as (Eh & Et & Ec & Hrest & Hother & Hself).
  { intros Hb. apply last_or_in in Hb as [?|[_ ?]]; [|done]. apply Hnin, elem_of_app. by left. }
  { intros Hb. apply first_or_in in Hb as [?|[_ ?]]; [|done]. apply Hnin, elem_of_app. by right. }
  split; [|split; [done|]].
  - assert (∀ b, b ∈ l1 ++ l2 → b ≠ t) as Hbt by (intros b Hb ->; done).
    split.
    + rewrite Eh, Hh. destruct l1 as [|a l1]; cbn [last_or app first_or]; [done|].
      by destruct (last_or_Some l1 a) as [y ->].
    + rewrite Et, Htl, !last_or_app. destruct l2 as [|a l2]; cbn [first_or last_or]; done.
    + eapply dseg_unlink; [exact Hn|exact Hl| | |].
      * intros b Hb H1 H2. unfold lk. rewrite Hother by auto.
        rewrite !decide_False by congruence. by destruct (task_at s b).
      * intros b p n Hb Hlkb. unfold lk in *. simplify_eq.
        assert (b ∈ l1) as Hin by (apply last_or_in in Hb as [?|[_ ?]]; done).
        rewrite Hother by (apply Hbt, elem_of_app; by left).
        rewrite Hb, (decide_True (P := Some b = Some b)) by done. rewrite decide_False; [done|].
        intros Hf. symmetry in Hf. apply first_or_in in Hf as [Hf|[_ ?]]; [|done].
        apply NoDup_app in Hnd as (_ & Hdis & _). by eapply Hdis.
      * intros b p n Hb Hlkb. unfold lk in *. simplify_eq.
        assert (b ∈ l2) as Hin by (apply first_or_in in Hb as [?|[_ ?]]; done).
        rewrite Hother by (apply Hbt, elem_of_app; by right).
        rewrite Hb, (decide_True (P := Some b = Some b)) by done. rewrite decide_False; [done|].
        intros Hf. symmetry in Hf. apply last_or_in in Hf as [Hf|[_ ?]]; [|done].
        apply NoDup_app in Hnd as (_ & Hdis & _). by eapply Hdis.
    + done.
    + destruct Hrest as (_ & _ & -> & _). intros b Hb. apply Hr.
      apply elem_of_app in Hb as [?|?]; apply elem_of_app; [by left|right; by apply elem_of_cons; right].
    + by destruct Hrest as (_ & _ & -> & _).
    + rewrite Ec, Hc, !length_app. cbn [length]. destruct (Z.ltb_spec 0 (Z.of_nat (length l1 + S (length l2)))); lia.
  - intros i. destruct (decide (i = t)) as [->|Hi]; [by rewrite Hself|by rewrite Hother].
Qed.

(** ** The invariant of the scheduler *)

Section Inv.
Context (kernel_pgd early_tables : Z).

(** [l] is the run queue, of runnable tasks (a thread whose stack could not
    be allocated is runnable and not queued); the current task is its head, or
    the idle task.  Process ids are unique and increase. *)
Record sched_inv (s : sched) (l : list Z) : Prop := {
  sc_rq : rq_wf s l;
  sc_idle : rq_idle s = INIT ∧ t_state (task_at s INIT) = TASK_RUNNING ∧
            t_pid (task_at s INIT) = 0 ∧ has (t_flags (task_at s INIT)) PF_IDLE = true;
  sc_current : rq_current s = INIT ∨ ∃ l', l = rq_current s :: l';
  sc_running t : t ∈ l → t_state (task_at s t) = TASK_RUNNING;
  sc_next : 1 ≤ next_pid s ≤ task_pool_index s + 1;
  sc_pid i : 0 ≤ i < task_pool_index s → 0 ≤ t_pid (task_at s i) < next_pid s;
  sc_order i j : 0 ≤ i < j → j < task_pool_index s →
    t_pid (task_at s i) ≠ 0 → t_pid (task_at s j) ≠ 0 →
    t_pid (task_at s i) < t_pid (task_at s j);
  sc_queued t : t ∈ l → t_pid (task_at s t) ≠ 0;
  sc_mm i m : t_mm (task_at s i) = Some m → is_Some (mm_pool (vm s) !! m);
  sc_vm : ∃ P roots, vmm_inv kernel_pgd early_tables (vm s) P roots
}.

(** What the invariant reads of a task besides its links. *)
Lemma core_eq t u :
  core t = core u →
  t_state t = t_state u ∧ t_info t = t_info u ∧ t_mm t = t_mm u ∧ t_flags t = t_flags u.
Proof. destruct t, u. unfold core, set_links. cbn. intros [= -> -> -> -> -> -> -> ->]. done. Qed.

Lemma core_pid t u : core t = core u → t_pid t = t_pid u.
Proof. intros (_ & H & _)%core_eq. unfold t_pid. by rewrite H. Qed.

Lemma queue_room s l t : rq_wf s l → (t ∉ l) → 0 ≤ t < task_pool_index s → (length l < 256)%nat.
Proof.
  intros Hwf Hn Ht. assert (t :: l ⊆+ seqZ 0 (task_pool_index s)) as Hsub.
  { apply NoDup_submseteq; [apply NoDup_cons; split; [done|apply Hwf]|].
    intros x [->|Hx]%elem_of_cons; apply elem_of_seqZ; [lia|].
    destruct (rw_range _ _ Hwf x Hx). lia. }
  apply submseteq_length in Hsub. rewrite length_seqZ in Hsub. cbn in Hsub.
  pose proof (rw_pool _ _ Hwf). unfold MAX_TASKS in *. lia.
Qed.

Lemma inv_enqueue s l t :
  sched_inv s l → (t ∉ l) → 0 ≤ t < task_pool_index s → t_pid (task_at s t) ≠ 0 →
  ∃ s', enqueue_task t s = Some s' ∧ sched_inv s' (l ++ [t]) ∧ same_rest s s' ∧
    ∀ i, core (task_at s' i) = core (if decide (i = t) then set_state TASK_RUNNING (task_at s t)
                                     else task_at s i).
Proof.
  intros [Hrq Hid Hcur Hrun Hnx Hpid Hord Hq Hmm Hvm] Hn Ht Hp0.
  destruct (enqueue_ok s l t Hrq Hn Ht (queue_room _ _ _ Hrq Hn Ht)) as (s' & E & Hwf & Hrest & Hcore).
  exists s'. split; [done|]. split; [|done]. pose proof Hrest as (Ec & Ei & Ep & En & Ev).
  assert (∀ i, t_pid (task_at s' i) = t_pid (task_at s i)) as Hpids.
  { intros i. rewrite (core_pid _ _ (Hcore i)). case_decide; by subst. }
  assert (∀ i, t_mm (task_at s' i) = t_mm (task_at s i)) as Hmms.
  { intros i. destruct (core_eq _ _ (Hcore i)) as (_ & _ & -> & _). case_decide; by subst. }
  split.
  - done.
  - rewrite Ei, Hpids. destruct Hid as (? & ? & ? & ?).
    destruct (core_eq _ _ (Hcore INIT)) as (-> & _ & _ & ->). case_decide; subst; done.
  - rewrite Ec. destruct Hcur as [?|[l' Hl']]; [by left|right]. rewrite Hl'. eexists. done.
  - intros x Hx. destruct (core_eq _ _ (Hcore x)) as (-> & _). case_decide; [done|].
    apply Hrun. apply elem_of_app in Hx as [?|Hx]; [done|]. by apply list_elem_of_singleton in Hx.
  - by rewrite En, Ep.
  - intros i. rewrite Ep, En, Hpids. apply Hpid.
  - intros i j. rewrite Ep, !Hpids. apply Hord.
  - intros x Hx. rewrite Hpids. apply elem_of_app in Hx as [?| ->%list_elem_of_singleton]; [by apply Hq|done].
  - intros i m. rewrite Hmms, Ev. apply Hmm.
  - by rewrite Ev.
Qed.

(** A task is added to the pool, or an unqueued one is changed. *)
Lemma inv_pool s l s2 t :
  sched_inv s l → (t ∉ l) → 0 ≤ t →
  rq_current s2 = rq_current s → rq_idle s2 = rq_idle s → rq_head s2 = rq_head s →
  rq_tail s2 = rq_tail s → rq_nr_running s2 = rq_nr_running s →
  (∀ i, i ≠ t → task_at s2 i = task_at s i) →
  t = task_pool_index s → task_pool_index s2 = t + 1 → t < MAX_TASKS →
  ((t_pid (task_at s2 t) = 0 ∧ next_pid s2 = next_pid s) ∨
   (t_pid (task_at s2 t) = next_pid s ∧ next_pid s2 = next_pid s + 1)) →
  (∀ m, t_mm (task_at s2 t) = Some m → is_Some (mm_pool (vm s2) !! m)) →
  (∀ m, is_Some (mm_pool (vm s) !! m) → is_Some (mm_pool (vm s2) !! m)) →
  (∃ P roots, vmm_inv kernel_pgd early_tables (vm s2) P roots) →
  sched_inv s2 l.
Proof.
  intros [[Hh Htl Hl Hnd Hr Hp Hc] Hid Hcur Hrun Hnx Hpid Hord Hq Hmm Hvm]
    Hn Ht0 Ec Ei Eh Et Enr Hoth Htp Ep Hmax Hnew Hmm2 Hmms Hvm2.
  assert (∀ x, x ∈ l → task_at s2 x = task_at s x) as Hin by (intros x Hx; apply Hoth; congruence).
  assert (task_at s2 INIT = task_at s INIT) as Hinit by (apply Hoth; unfold INIT; lia).
  split.
  - split; rewrite ?Eh, ?Et, ?Enr, ?Ep; try done; try lia.
    + eapply dseg_frame; [|exact Hl]. intros b Hb. unfold lk. by rewrite Hin.
    + intros x Hx. destruct (Hr x Hx). lia.
  - by rewrite Ei, Hinit.
  - by rewrite Ec.
  - intros x Hx. rewrite Hin by done. by apply Hrun.
  - destruct Hnew as [[_ ->]|[_ ->]]; lia.
  - intros i Hi. destruct (decide (i = t)) as [->|Hne].
    + destruct Hnew as [[-> ->]|[-> ->]]; lia.
    + rewrite Hoth by done. pose proof (Hpid i ltac:(lia)). destruct Hnew as [[_ ->]|[_ ->]]; lia.
  - intros i j Hij Hj. destruct (decide (j = t)) as [->|Hne].
    + rewrite (Hoth i) by lia. pose proof (Hpid i ltac:(lia)). intros _ Hz. destruct Hnew as [[? _]|[-> _]]; lia.
    + rewrite !Hoth by lia. apply Hord; lia.
  - intros x Hx. rewrite Hin by done. by apply Hq.
  - intros i m. destruct (decide (i = t)) as [->|Hne]; [apply Hmm2|]. rewrite Hoth by done.
    intros H%Hmm. by apply Hmms.
  - done.
Qed.

(** Changing fields other than the links, the state and the pid. *)
Lemma inv_upd s l t f :
  sched_inv s l →
  (let x := task_at s t in
   t_prev (f x) = t_prev x ∧ t_next (f x) = t_next x ∧ t_state (f x) = t_state x ∧
   t_pid (f x) = t_pid x ∧ (∀ m, t_mm (f x) = Some m → is_Some (mm_pool (vm s) !! m)) ∧
   (has (t_flags x) PF_IDLE = true → has (t_flags (f x)) PF_IDLE = true)) →
  sched_inv (upd t f s) l.
Proof.
  intros [[Hh Htl Hl Hnd Hr Hp Hc] Hid Hcur Hrun Hnx Hpid Hord Hq Hmm Hvm] Hf.
  assert (∀ i, let x := task_at (upd t f s) i in let y := task_at s i in
    t_prev x = t_prev y ∧ t_next x = t_next y ∧ t_state x = t_state y ∧ t_pid x = t_pid y ∧
    (∀ m, t_mm x = Some m → is_Some (mm_pool (vm s) !! m)) ∧
    (has (t_flags y) PF_IDLE = true → has (t_flags x) PF_IDLE = true)) as Hsame.
  { intros i. cbn zeta. rewrite task_at_upd. case_decide; [subst; apply Hf|].
    do 4 (split; [done|]). split; [|done]. intros m. apply Hmm. }
  split.
  - split; try done. eapply dseg_frame; [|exact Hl]. intros b Hb. unfold lk.
    by destruct (Hsame b) as (-> & -> & _).
  - destruct (Hsame INIT) as (_ & _ & -> & -> & _ & Hfl). destruct Hid as (? & ? & ? & ?). auto.
  - done.
  - intros x Hx. destruct (Hsame x) as (_ & _ & -> & _). by apply Hrun.
  - done.
  - intros i. destruct (Hsame i) as (_ & _ & _ & -> & _). apply Hpid.
  - intros i j. destruct (Hsame i) as (_ & _ & _ & -> & _), (Hsame j) as (_ & _ & _ & -> & _). apply Hord.
  - intros x. destruct (Hsame x) as (_ & _ & _ & -> & _). apply Hq.
  - intros i m. destruct (Hsame i) as (_ & _ & _ & _ & Hm & _). apply Hm.
  - done.
Qed.

Lemma alloc_stack_ok s l :
  sched_inv s l →
  ∃ v stack, alloc_stack KERNEL_STACK_SIZE s = Some (with_vm v s, stack) ∧
    mm_pool v = mm_pool (vm s) ∧ ∃ P roots, vmm_inv kernel_pgd early_tables v P roots.
Proof.
  intros Hinv. destruct (sc_vm _ _ Hinv) as (P & roots & Hv). unfold alloc_stack.
  change (stack_order 11 KERNEL_STACK_SIZE 0) with 2.
  assert (pa_inv (pages (vm s)) P) as Hp by (destruct Hv as (? & Ht & _); apply Ht).
  destruct (pages_out_alloc_pages 2 _ _ Hp ltac:(done)) as (ps & a & E & Hp'). rewrite E. cbn.
  do 2 eexists. split; [reflexivity|]. split; [done|]. exists P, roots. by apply (vmm_inv_pages _ _ _ P).
Qed.

Lemma inv_vm s l v :
  sched_inv s l → (∀ m, is_Some (mm_pool (vm s) !! m) → is_Some (mm_pool v !! m)) →
  (∃ P roots, vmm_inv kernel_pgd early_tables v P roots) → sched_inv (with_vm v s) l.
Proof.
  intros [[Hh Htl Hl Hnd Hr Hp Hc] Hid Hcur Hrun Hnx Hpid Hord Hq Hmm Hvm] Hm Hv.
  split; try done. intros i m Hi. apply Hm. by apply (Hmm i).
Qed.

Lemma new_not_queued s l : sched_inv s l → task_pool_index s ∉ l.
Proof. intros Hinv Hin. destruct (rw_range _ _ (sc_rq _ _ Hinv) _ Hin). lia. Qed.

Lemma next_pid_i32 s l :
  sched_inv s l → task_pool_index s < MAX_TASKS → i32 (next_pid s + 1) = next_pid s + 1.
Proof.
  intros Hinv Hm. pose proof (sc_next _ _ Hinv). unfold MAX_TASKS in *. apply i32_small. lia.
Qed.

(** What creating a task or thread leaves of the others. *)
Definition others_same (s s' : sched) (t : Z) : Prop :=
  rq_current s' = rq_current s ∧ ∀ i, i ≠ t → core (task_at s' i) = core (task_at s i).

Lemma create_task_ok entry arg flags s l :
  sched_inv s l →
  ∃ s' r, create_task entry arg flags s = Some (s', r) ∧
    others_same s s' (task_pool_index s) ∧
    match r with
    | None => sched_inv s' l
    | Some t => t = task_pool_index s ∧ sched_inv s' (l ++ [t]) ∧
        t_pid (task_at s' t) = next_pid s ∧ t_mm (task_at s' t) = None ∧
        ctx_pc (ti_cpu_context (t_info (task_at s' t))) = entry
    end.
Proof.
  intros Hinv. unfold create_task, alloc_task.
  destruct (Z.leb_spec MAX_TASKS (task_pool_index s)); [by exists s, None|].
  set (t := task_pool_index s). set (s1 := with_tasks _ _).
  pose proof (rw_pool _ _ (sc_rq _ _ Hinv)) as Hpool.
  pose proof (new_not_queued _ _ Hinv) as Hnq. fold t in Hnq.
  assert (∀ i, i ≠ t → task_at s1 i = task_at s i) as Hoth1.
  { intros i Hi. unfold s1, task_at. cbn. by rewrite lookup_insert_ne. }
  assert (task_at s1 t = zero_task) as Hz by (unfold s1, task_at; cbn; by rewrite lookup_insert_eq).
  assert (sched_inv s1 l) as Hinv1.
  { eapply (inv_pool s l s1 t); try done; try (unfold t; lia); rewrite ?Hz; try done; [by left|apply (sc_vm _ _ Hinv)]. }
  destruct (alloc_stack_ok s1 l Hinv1) as (v & stack & -> & Hmp & Hv). cbn [mbind option_bind].
  destruct (Z.eqb_spec stack 0).
  { do 2 eexists. split; [reflexivity|]. split; [split; [done|intros i Hi; cbn; by rewrite <- (Hoth1 i)]|].
    apply inv_vm; [done| |done]. intros m. by rewrite Hmp. }
  set (s2 := with_pool _ _ _). set (s3 := upd t _ s2).
  assert (∀ i, i ≠ t → task_at s3 i = task_at s i) as Hoth3.
  { intros i Hi. unfold s3. rewrite task_at_upd, decide_False by done. by apply Hoth1. }
  assert (t_pid (task_at s3 t) = next_pid s ∧ t_mm (task_at s3 t) = None) as [Hpid3 Hmm3].
  { unfold s3. rewrite task_at_upd, decide_True by done. cbn. split; [done|].
    change (task_at s2 t) with (task_at s1 t). by rewrite Hz. }
  assert (sched_inv s3 l) as Hinv3.
  { eapply (inv_pool s l s3 t); try done; try (unfold t; lia).
    - right. split; [done|]. unfold s3, s2. cbn. by eapply next_pid_i32.
    - intros m. by rewrite Hmm3.
    - intros m. unfold s3, s2. cbn. by rewrite Hmp. }
  destruct (inv_enqueue s3 l t Hinv3 Hnq) as (s4 & E4 & Hinv4 & (Hc4 & _) & Hcore4).
  { unfold s3, s2, s1. cbn. unfold t. lia. }
  { rewrite Hpid3. pose proof (sc_next _ _ Hinv). lia. }
  rewrite E4. cbn [mbind option_bind]. do 2 eexists. split; [reflexivity|]. split.
  - split; [by rewrite Hc4|]. intros i Hi. rewrite Hcore4, decide_False by done. by rewrite Hoth3.
  - specialize (Hcore4 t). rewrite decide_True in Hcore4 by done.
    split; [done|]. split; [done|]. rewrite (core_pid _ _ Hcore4).
    destruct (core_eq _ _ Hcore4) as (_ & -> & -> & _). split; [done|]. split; [done|].
    unfold s3. rewrite task_at_upd, decide_True by done. done.
Qed.

(** *** exit and schedule *)

Lemma schedule_head s l : sched_inv s l → rq_current s ≠ INIT → schedule s = Some s.
Proof.
  intros Hinv Hc. destruct (sc_current _ _ Hinv) as [?|[l' Hl]]; [done|].
  unfold schedule, pick_next_task. rewrite (rw_head _ _ (sc_rq _ _ Hinv)), Hl. cbn.
  by rewrite Z.eqb_refl.
Qed.

(** After a switch to the head (or to idle). *)
Lemma schedule_switch s l prev :
  rq_wf s l → rq_current s = prev → rq_idle s = INIT →
  (t_state (task_at s prev) ≠ TASK_RUNNING ∨ prev = INIT) →
  (∀ l', l ≠ prev :: l') →
  ∃ s', schedule s = Some s' ∧ rq_wf s' l ∧ rq_current s' = default INIT (head l) ∧
    rq_idle s' = rq_idle s ∧ task_pool_index s' = task_pool_index s ∧ next_pid s' = next_pid s ∧
    vm s' = vm s ∧
    ∀ i, t_state (task_at s' i) = t_state (task_at s i) ∧ t_info (task_at s' i) = t_info (task_at s i) ∧
         t_mm (task_at s' i) = t_mm (task_at s i) ∧ t_flags (task_at s' i) = t_flags (task_at s i) ∧
         t_exit_code (task_at s' i) = t_exit_code (task_at s i).
Proof.
  intros Hwf Hc Hi Hst Hnot. unfold schedule, pick_next_task. rewrite (rw_head _ _ Hwf), Hc, Hi.
  assert ((match first_or l None with Some next => next | None => INIT end) = default INIT (head l)) as ->
    by (by destruct l).
  destruct (Z.eqb_spec (default INIT (head l)) prev) as [Heq|Hne].
  { exists s. split; [done|]. split; [done|]. split; [by rewrite Hc|]. done. }
  assert (bool_decide (t_state (task_at s prev) = TASK_RUNNING) && negb (prev =? INIT) = false) as ->.
  { destruct Hst as [Hst| ->]; [by rewrite bool_decide_false|]. by rewrite Z.eqb_refl, andb_false_r. }
  cbn [mbind option_bind]. eexists. split; [reflexivity|]. unfold context_switch.
  set (s1 := with_rq _ _ _ _ s). set (f := set_mm _ _).
  assert (∀ i, lk (upd (default INIT (head l)) f s1) i = lk s i) as Hlk.
  { intros i. unfold lk. rewrite task_at_upd. case_decide; by subst. }
  split; [|split; [done|]].
  - destruct Hwf as [Hh Htl Hl Hnd Hr Hp Hcn]. split; try done. eapply dseg_frame; [|exact Hl]. done.
  - do 4 (split; [done|]). intros i. rewrite task_at_upd. case_decide; [|done].
    subst i. cbn. done.
Qed.

Lemma exit_task_ok code s l' :
  sched_inv s (rq_current s :: l') → rq_current s ≠ INIT →
  ∃ s', exit_task code s = Some s' ∧ sched_inv s' l' ∧
    rq_current s' = default INIT (head l') ∧
    t_state (task_at s' (rq_current s)) = TASK_ZOMBIE ∧
    t_exit_code (task_at s' (rq_current s)) = code ∧
    ∀ i, i ≠ rq_current s → t_state (task_at s' i) = t_state (task_at s i).
Proof.
  intros Hinv Hc. set (c := rq_current s) in *. unfold exit_task. fold c. set (s1 := upd c _ s).
  pose proof Hinv as [Hrq Hid Hcur Hrun Hnx Hpid Hord Hq Hmm Hvm].
  assert (rq_wf s1 ([] ++ c :: l')) as Hwf1.
  { destruct Hrq as [Hh Htl Hl Hnd Hr Hp Hcn]. split; try done. eapply dseg_frame; [|exact Hl].
    intros b Hb. unfold lk, s1. rewrite task_at_upd. case_decide; by subst. }
  destruct (dequeue_ok s1 [] c l' Hwf1) as (Hwf2 & (Ec & Ei & Ep & En & Ev) & Hcore). cbn [app] in Hwf2.
  set (s2 := dequeue_task c s1) in *.
  assert (∀ i, t_state (task_at s2 i) = (if decide (i = c) then TASK_ZOMBIE else t_state (task_at s i)) ∧
    t_info (task_at s2 i) = t_info (task_at s i) ∧ t_mm (task_at s2 i) = t_mm (task_at s i) ∧
    (i ≠ c → t_flags (task_at s2 i) = t_flags (task_at s i))) as H2.
  { intros i. destruct (core_eq _ _ (Hcore i)) as (-> & -> & -> & ->). unfold s1. rewrite task_at_upd.
    case_decide; subst; done. }
  assert (t_exit_code (task_at s2 c) = code) as Hcode.
  { assert (t_exit_code (core (task_at s2 c)) = t_exit_code (core (task_at s1 c))) as He by (by rewrite Hcore).
    cbn in He. rewrite He. unfold s1. rewrite task_at_upd, decide_True by done. done. }
  pose proof (rw_nodup _ _ Hrq) as Hnd. apply NoDup_cons in Hnd as [Hnin _].
  destruct (schedule_switch s2 l' c Hwf2) as (s3 & E3 & Hwf3 & Hc3 & Hi3 & Hp3 & Hn3 & Hv3 & H3).
  { by rewrite Ec. }
  { rewrite Ei. apply Hid. }
  { left. destruct (H2 c) as [-> _]. by rewrite decide_True. }
  { intros l'' ->. apply Hnin. by apply elem_of_cons; left. }
  assert (∀ i, t_pid (task_at s3 i) = t_pid (task_at s i)) as Hpids.
  { intros i. unfold t_pid. destruct (H3 i) as (_ & -> & _). by destruct (H2 i) as (_ & -> & _). }
  exists s3. split; [done|]. split; [|split; [done|split; [|split]]].
  - split.
    + done.
    + rewrite Hi3, Ei, Hpids. destruct (H3 INIT) as (-> & _ & _ & -> & _).
      destruct (H2 INIT) as (-> & _ & _ & ->); [|done]. rewrite decide_False by done. done.
    + rewrite Hc3. destruct l' as [|a l'']; [by left|right]. cbn. by eexists.
    + intros t Ht. destruct (H3 t) as (-> & _). destruct (H2 t) as (-> & _).
      rewrite decide_False by congruence. apply Hrun. by apply elem_of_cons; right.
    + rewrite Hn3, Hp3, En, Ep. done.
    + intros i. rewrite Hp3, Ep, Hn3, En, Hpids. apply Hpid.
    + intros i j. rewrite Hp3, Ep, !Hpids. apply Hord.
    + intros t Ht. rewrite Hpids. apply Hq. by apply elem_of_cons; right.
    + intros i m. destruct (H3 i) as (_ & _ & -> & _). destruct (H2 i) as (_ & _ & -> & _).
      rewrite Hv3, Ev. apply Hmm.
    + by rewrite Hv3, Ev.
  - destruct (H3 c) as (-> & _). destruct (H2 c) as (-> & _). by rewrite decide_True.
  - destruct (H3 c) as (_ & _ & _ & _ & ->). done.
  - intros i Hi. destruct (H3 i) as (-> & _). destruct (H2 i) as (-> & _). by rewrite decide_False.
Qed.

Lemma schedule_ok s l :
  sched_inv s l →
  ∃ s', schedule s = Some s' ∧ sched_inv s' l ∧
    rq_current s' = if decide (rq_current s = INIT) then default INIT (head l) else rq_current s.
Proof.
  intros Hinv. destruct (decide (rq_current s = INIT)) as [Hc|Hc].
  2: { exists s. split; [by eapply schedule_head|]. done. }
  pose proof Hinv as [Hrq Hid Hcur Hrun Hnx Hpid Hord Hq Hmm Hvm].
  destruct (schedule_switch s l INIT Hrq Hc) as (s' & E & Hwf & Hc' & Hi & Hp & Hn & Hv & H3).
  { apply Hid. }
  { by right. }
  { intros l' ->. destruct (rw_range _ _ Hrq INIT) as [? _]; [by apply elem_of_cons; left|]. unfold INIT in *. lia. }
  assert (∀ i, t_pid (task_at s' i) = t_pid (task_at s i)) as Hpids.
  { intros i. unfold t_pid. by destruct (H3 i) as (_ & -> & _). }
  exists s'. split; [done|]. split; [|done]. split.
  - done.
  - rewrite Hi, Hpids. by destruct (H3 INIT) as (-> & _ & _ & -> & _).
  - rewrite Hc'. destruct l; [by left|right]. cbn. by eexists.
  - intros t Ht. destruct (H3 t) as (-> & _). by apply Hrun.
  - by rewrite Hn, Hp.
  - intros i. rewrite Hp, Hn, Hpids. apply Hpid.
  - intros i j. rewrite Hp, !Hpids. apply Hord.
  - intros t. rewrite Hpids. apply Hq.
  - intros i m. destruct (H3 i) as (_ & _ & -> & _). rewrite Hv. apply Hmm.
  - by rewrite Hv.
Qed.

Lemma mm_get_ok s l m :
  sched_inv s l → (∀ x, m = Some x → is_Some (mm_pool (vm s) !! x)) →
  ∃ s', mm_get m s = Some s' ∧ sched_inv s' l ∧
    (∀ i, task_at s' i = task_at s i) ∧ rq_current s' = rq_current s ∧
    task_pool_index s' = task_pool_index s ∧ next_pid s' = next_pid s ∧
    (∀ x, is_Some (mm_pool (vm s) !! x) → is_Some (mm_pool (vm s') !! x)).
Proof.
  intros Hinv Hm. unfold mm_get. destruct m as [m|]; [|by exists s].
  destruct (Hm m eq_refl) as [a Ha]. rewrite Ha. cbn [mbind option_bind].
  assert (∀ x, is_Some (mm_pool (vm s) !! x) → ∀ v, is_Some (<[m := v]> (mm_pool (vm s)) !! x)) as Hins.
  { intros x Hx v. rewrite lookup_insert. case_decide; [by eexists|done]. }
  eexists. split; [reflexivity|]. split; [|do 4 (split; [done|]); intros x Hx; by apply Hins].
  apply inv_vm; [done|intros x Hx; by apply Hins|].
  destruct (sc_vm _ _ Hinv) as (P & roots & Hv). exists P, roots. by apply vmm_inv_users.
Qed.

(** An unqueued task of the pool is changed, its pid kept. *)
Lemma inv_upd_unqueued s l t f :
  sched_inv s l → (t ∉ l) → 0 ≤ t < task_pool_index s →
  (∀ x, t_pid (f x) = t_pid x ∧ t_mm (f x) = t_mm x) → sched_inv (upd t f s) l.
Proof.
  intros [[Hh Htl Hl Hnd Hr Hp Hc] Hid Hcur Hrun Hnx Hpid Hord Hq Hmm Hvm] Hn Ht Hf.
  assert (∀ i, t_pid (task_at (upd t f s) i) = t_pid (task_at s i)) as Hpids.
  { intros i. rewrite task_at_upd. case_decide; [subst; apply Hf|done]. }
  assert (∀ x, x ∈ l → task_at (upd t f s) x = task_at s x) as Hin.
  { intros x Hx. rewrite task_at_upd, decide_False by congruence. done. }
  split; try done.
  - split; try done. eapply dseg_frame; [|exact Hl]. intros b Hb. unfold lk. by rewrite Hin.
  - rewrite task_at_upd, decide_False by (unfold INIT; lia). done.
  - intros x Hx. rewrite Hin by done. by apply Hrun.
  - intros i. rewrite Hpids. apply Hpid.
  - intros i j. rewrite !Hpids. apply Hord.
  - intros x. rewrite Hpids. apply Hq.
  - intros i m. rewrite task_at_upd. case_decide; [subst|apply Hmm].
    destruct (Hf (task_at s t)) as [_ ->]. apply Hmm.
Qed.

Lemma create_thread_ok entry arg stack flags s l :
  sched_inv s l →
  ∃ s' r, create_thread entry arg stack flags s = Some (s', r) ∧
    (r = -1 ∧ sched_inv s' l ∨
     r = next_pid s ∧ sched_inv s' (l ++ [task_pool_index s]) ∧
       t_pid (task_at s' (task_pool_index s)) = r ∧
       t_mm (task_at s' (task_pool_index s)) = t_mm (task_at s (rq_current s))) ∧
    others_same s s' (task_pool_index s).
Proof.
  intros Hinv. unfold create_thread, alloc_task.
  destruct (Z.leb_spec MAX_TASKS (task_pool_index s)).
  { exists s, (-1). split; [done|]. split; [by left|done]. }
  set (t := task_pool_index s). set (s1 := with_tasks _ _).
  pose proof (rw_pool _ _ (sc_rq _ _ Hinv)) as Hpool.
  pose proof (new_not_queued _ _ Hinv) as Hnq. fold t in Hnq.
  assert (rq_current s ≠ t) as Hct.
  { destruct (sc_current _ _ Hinv) as [->|[l' Hl]]; [unfold t, INIT; lia|].
    intros Heq. apply Hnq. rewrite Hl. apply elem_of_cons. by left. }
  assert (∀ i, i ≠ t → task_at s1 i = task_at s i) as Hoth1.
  { intros i Hi. unfold s1, task_at. cbn. by rewrite lookup_insert_ne. }
  rewrite (Hoth1 (rq_current s)) by done. set (par := task_at s (rq_current s)).
  set (pid := next_pid s1). assert (pid = next_pid s) as Hpid by done.
  set (tgid := if has flags CLONE_THREAD then _ else _).
  set (s2 := upd t _ (with_pool _ _ s1)).
  assert (∀ i, i ≠ t → task_at s2 i = task_at s i) as Hoth2.
  { intros i Hi. unfold s2. rewrite task_at_upd, decide_False by done. by apply Hoth1. }
  assert (t_pid (task_at s2 t) = pid ∧ t_mm (task_at s2 t) = t_mm par) as [Hp2 Hm2].
  { unfold s2. rewrite task_at_upd, decide_True by done. done. }
  assert (∀ m, t_mm par = Some m → is_Some (mm_pool (vm s) !! m)) as Hparmm by (intros m; apply (sc_mm _ _ Hinv)).
  assert (sched_inv s2 l) as Hinv2.
  { eapply (inv_pool s l s2 t); try done; try (unfold t; lia).
    - right. split; [done|]. unfold s2. cbn. by eapply next_pid_i32.
    - intros m. rewrite Hm2. apply Hparmm.
    - apply (sc_vm _ _ Hinv). }
  assert (∃ s3, (if has flags CLONE_VM then mm_get (t_mm par) s2 else Some s2) = Some s3 ∧ sched_inv s3 l ∧
    (∀ i, task_at s3 i = task_at s2 i) ∧ rq_current s3 = rq_current s ∧
    task_pool_index s3 = t + 1) as (s3 & -> & Hinv3 & Ht3 & Hc3 & Hp3).
  { destruct (has flags CLONE_VM); [|by exists s2].
    destruct (mm_get_ok s2 l (t_mm par) Hinv2 Hparmm) as (s3 & E3 & ? & ? & ? & ? & _). exists s3. done. }
  cbn [mbind option_bind].
  (* the end of both stack branches *)
  assert (∀ s4 f, sched_inv s4 l → (∀ i, task_at s4 i = task_at s3 i) → rq_current s4 = rq_current s3 →
    task_pool_index s4 = t + 1 → (∀ x, t_pid (f x) = pid ∧ t_mm (f x) = t_mm x) →
    ∃ s5, enqueue_task t (upd t f s4) = Some s5 ∧ sched_inv s5 (l ++ [t]) ∧
      t_pid (task_at s5 t) = pid ∧ t_mm (task_at s5 t) = t_mm par ∧ others_same s s5 t) as Hfin.
  { intros s4 f Hinv4 Ht4 Hc4 Hp4 Hf.
    assert (sched_inv (upd t (λ x, if t_pid x =? pid then f x else x) s4) l) as Hinv5.
    { apply inv_upd_unqueued; try done; [unfold t in *; lia|].
      intros x. destruct (Z.eqb_spec (t_pid x) pid) as [<-|]; [|done]. apply Hf. }
    assert (upd t (λ x, if t_pid x =? pid then f x else x) s4 = upd t f s4) as Hupd.
    { unfold upd. rewrite Ht4, Ht3, Hp2, Z.eqb_refl. done. }
    rewrite Hupd in Hinv5.
    assert (t_pid (task_at (upd t f s4) t) = pid) as Hp5.
    { rewrite task_at_upd, decide_True by done. apply Hf. }
    destruct (inv_enqueue (upd t f s4) l t Hinv5 Hnq) as (s5 & E5 & Hinv6 & (Hc5 & _) & Hcore5).
    { cbn. rewrite Hp4. lia. }
    { rewrite Hp5, Hpid. pose proof (sc_next _ _ Hinv). lia. }
    exists s5. split; [done|]. split; [done|].
    pose proof (Hcore5 t) as Hct5. rewrite decide_True in Hct5 by done.
    split; [by rewrite (core_pid _ _ Hct5)|]. split.
    - destruct (core_eq _ _ Hct5) as (_ & _ & -> & _). cbn. rewrite task_at_upd, decide_True by done.
      destruct (Hf (task_at s4 t)) as [_ ->]. by rewrite Ht4, Ht3.
    - split; [rewrite Hc5; cbn; by rewrite Hc4, Hc3|]. intros i Hi. rewrite Hcore5, decide_False by done.
      rewrite task_at_upd, decide_False by done. by rewrite Ht4, Ht3, Hoth2. }
  destruct (Z.eqb_spec stack 0) as [Hs0|Hs0]; cbn [negb].
  - destruct (alloc_stack_ok s3 l Hinv3) as (v & stk & -> & Hmp & Hv). cbn [mbind option_bind].
    assert (sched_inv (with_vm v s3) l) as Hinv4.
    { apply inv_vm; [done| |done]. intros m. by rewrite Hmp. }
    destruct (Z.eqb_spec stk 0).
    { do 2 eexists. split; [reflexivity|]. split; [by left|]. split; [done|].
      intros i Hi. change (task_at (with_vm v s3) i) with (task_at s3 i). by rewrite Ht3, Hoth2. }
    edestruct (Hfin (with_vm v s3)) as (s5 & E5 & ? & ? & ? & ?); [done|done|done|done| |].
    2: { rewrite E5. cbn [mbind option_bind]. do 2 eexists. split; [reflexivity|]. split; [right; done|done]. }
    done.
  - edestruct (Hfin s3) as (s5 & E5 & ? & ? & ? & ?); [done|done|done|done| |].
    2: { rewrite E5. cbn [mbind option_bind]. do 2 eexists. split; [reflexivity|]. split; [right; done|done]. }
    done.
Qed.

(** *** kill, fork *)

Lemma find_pid_some n i pid s j :
  find_pid n i pid s = Some j →
  i ≤ j < i + Z.of_nat n ∧ t_pid (task_at s j) = pid ∧ t_state (task_at s j) ≠ TASK_DEAD.
Proof.
  revert i. induction n as [|n IH]; intros i; cbn [find_pid]; [done|].
  destruct (Z.eqb_spec (t_pid (task_at s i)) pid); cbn [andb].
  - case_bool_decide; cbn [negb].
    + intros H'%IH. lia || (destruct H' as (? & ? & ?); split; [lia|done]).
    + intros [= <-]. split; [lia|done].
  - intros H'%IH. destruct H' as (? & ? & ?). split; [lia|done].
Qed.

Lemma find_pid_none n i pid s j :
  find_pid n i pid s = None → i ≤ j < i + Z.of_nat n → t_pid (task_at s j) = pid →
  t_state (task_at s j) = TASK_DEAD.
Proof.
  revert i. induction n as [|n IH]; intros i; cbn [find_pid]; [lia|].
  destruct (Z.eqb_spec (t_pid (task_at s i)) pid) as [Hp|Hp]; cbn [andb].
  - case_bool_decide as Hd; cbn [negb]; [|done]. intros Hf Hj Hpj.
    destruct (decide (j = i)) as [->|]; [done|]. apply (IH (i + 1) Hf); [lia|done].
  - intros Hf Hj Hpj. destruct (decide (j = i)) as [->|]; [congruence|]. apply (IH (i + 1) Hf); [lia|done].
Qed.

Lemma queued_or_not s l t : sched_inv s l → t_state (task_at s t) ≠ TASK_RUNNING → t ∉ l.
Proof. intros Hinv Hs Hin. by apply Hs, (sc_running _ _ Hinv). Qed.

Lemma get_task_by_pid_spec s l pid :
  sched_inv s l →
  match get_task_by_pid pid s with
  | Some t => t_pid (task_at s t) = pid ∧
      ((t = INIT ∧ pid = 0) ∨ (0 ≤ t < task_pool_index s ∧ pid ≠ 0 ∧ t_state (task_at s t) ≠ TASK_DEAD))
  | None => pid ≠ 0 ∧ ∀ t, 0 ≤ t < task_pool_index s → t_pid (task_at s t) = pid →
      t_state (task_at s t) = TASK_DEAD
  end.
Proof.
  intros Hinv. unfold get_task_by_pid. pose proof (sc_idle _ _ Hinv) as (_ & _ & Hp0 & _).
  destruct (Z.eqb_spec (t_pid (task_at s INIT)) pid) as [Hp|Hp].
  { split; [done|]. left. split; [done|]. congruence. }
  destruct (find_pid _ _ _ _) as [t|] eqn:E.
  - apply find_pid_some in E as (Ht & Hpt & Hd). split; [done|]. right. split; [lia|]. split; [congruence|done].
  - split; [congruence|]. intros t Ht Hpt. eapply find_pid_none; [done|lia|done].
Qed.

(** A set bit stays set. *)
Lemma has_lor x b c : has x b = true → has (Z.lor x c) b = true.
Proof.
  unfold has. rewrite !negb_true_iff, !Z.eqb_neq. intros H0 H1. apply H0.
  rewrite Z.land_lor_distr_l in H1. by apply Z.lor_eq_0_l in H1.
Qed.

Lemma wake_up_ok s l t :
  sched_inv s l → 0 ≤ t < task_pool_index s → t_pid (task_at s t) ≠ 0 →
  ∃ s' r, wake_up_process (Some t) s = Some (s', r) ∧
    if bool_decide (t_state (task_at s t) = TASK_RUNNING) then r = 0 ∧ s' = s
    else r = 1 ∧ sched_inv s' (l ++ [t]) ∧ same_rest s s' ∧
         ∀ i, core (task_at s' i) = core (if decide (i = t) then set_state TASK_RUNNING (task_at s t)
                                          else task_at s i).
Proof.
  intros Hinv Ht Hp. unfold wake_up_process. case_bool_decide as Hst; [by do 2 eexists|].
  pose proof (queued_or_not _ _ _ Hinv Hst) as Hn.
  assert (sched_inv (upd t (set_state TASK_RUNNING) s) l) as Hinv1 by (by apply inv_upd_unqueued).
  destruct (inv_enqueue _ l t Hinv1 Hn Ht) as (s' & E & Hinv' & Hrest & Hcore).
  { rewrite task_at_upd, decide_True by done. done. }
  rewrite E. cbn [mbind option_bind]. do 2 eexists. split; [reflexivity|].
  split; [done|]. split; [done|]. split; [done|].
  intros i. rewrite Hcore, !task_at_upd. rewrite (decide_True (P := t = t)) by done. by case_decide.
Qed.

Lemma kill_ok s l pid :
  sched_inv s l →
  ∃ s' r, sched_kill_task pid s = Some (s', r) ∧
    match get_task_by_pid pid s with
    | None => r = -3 ∧ s' = s
    | Some t =>
        if pid =? 0 then r = -1 ∧ s' = s
        else if has (t_flags (task_at s t)) PF_IDLE then r = -1 ∧ s' = s
        else r = 0 ∧ (∃ l', sched_inv s' (l ++ l')) ∧
             Z.testbit (t_pending_signals (task_at s' t)) 9 = true
    end.
Proof.
  intros Hinv. unfold sched_kill_task. pose proof (get_task_by_pid_spec s l pid Hinv) as Hg.
  destruct (get_task_by_pid pid s) as [t|]; [|by do 2 eexists]. destruct Hg as (Hp & Hor). rewrite Hp.
  destruct (Z.eqb_spec pid 0); cbn [orb]; [by do 2 eexists|].
  destruct (has (t_flags (task_at s t)) PF_IDLE) eqn:Eid; [by do 2 eexists|].
  destruct Hor as [[_ ?]|(Ht & _ & _)]; [done|].
  set (s1 := upd t _ s).
  assert (sched_inv s1 l) as Hinv1.
  { apply inv_upd; [done|]. cbn. do 4 (split; [done|]). split; [intros m; apply (sc_mm _ _ Hinv)|apply has_lor]. }
  assert (Z.testbit (t_pending_signals (task_at s1 t)) 9 = true) as Hbit.
  { unfold s1. rewrite task_at_upd, decide_True by done. cbn [set_flags t_pending_signals].
    rewrite Z.lor_spec. apply orb_true_iff. by right. }
  destruct (_ || _) eqn:Eb.
  - assert (t_state (task_at s1 t) ≠ TASK_RUNNING) as Hst.
    { intros Hst. rewrite Hst in Eb. done. }
    pose proof (queued_or_not _ _ _ Hinv1 Hst) as Hn.
    assert (sched_inv (upd t (set_state TASK_RUNNING) s1) l) as Hinv2 by (by apply inv_upd_unqueued).
    destruct (inv_enqueue _ l t Hinv2 Hn Ht) as (s' & E & Hinv' & _ & Hcore).
    { rewrite task_at_upd, decide_True by done. cbn.
      unfold s1. rewrite task_at_upd, decide_True by done. cbn. unfold t_pid in Hp. cbn. by rewrite <- Hp in *. }
    rewrite E. cbn [mbind option_bind]. do 2 eexists. split; [reflexivity|]. split; [done|]. split; [by exists [t]|].
    assert (t_pending_signals (core (task_at s' t)) = t_pending_signals (task_at s1 t)) as He.
    { rewrite Hcore, decide_True by done. cbn. rewrite task_at_upd, decide_True by done. done. }
    cbn in He. by rewrite He.
  - cbn [mbind option_bind]. do 2 eexists. split; [reflexivity|]. split; [done|]. split; [|done].
    exists []. by rewrite app_nil_r.
Qed.

Lemma fork_ok fork_entry flags s l :
  sched_inv s l →
  ∃ s' r, do_fork kernel_pgd early_tables fork_entry flags s = Some (s', r) ∧
    rq_current s' = rq_current s ∧
    ((r = -1 ∧ ∃ l', sched_inv s' (l ++ l')) ∨
     (r = next_pid s ∧ sched_inv s' (l ++ [task_pool_index s]) ∧
      let child := task_at s' (task_pool_index s) in
      let parent := task_at s (rq_current s) in
      t_pid child = r ∧ ti_uid (t_info child) = ti_uid (t_info parent) ∧
      ti_gid (t_info child) = ti_gid (t_info parent) ∧ ti_parent (t_info child) = Some (rq_current s) ∧
      (t_mm parent = None → t_mm child = None) ∧
      (∀ m, t_mm parent = Some m → t_mm child ≠ None ∧ t_mm child ≠ Some m))).
Proof.
  intros Hinv. unfold do_fork, get_current.
  destruct (create_task_ok fork_entry 0 (u32 flags) s l Hinv) as (s1 & r & -> & [Hc1 Ho1] & Hr).
  cbn [mbind option_bind]. destruct r as [t|].
  2: { do 2 eexists. split; [reflexivity|]. split; [done|]. left. split; [done|]. exists []. by rewrite app_nil_r. }
  destruct Hr as (-> & Hinv1 & Hpid & Hmm1 & _). set (t := task_pool_index s) in *.
  assert (rq_current s ≠ t) as Hct.
  { pose proof (new_not_queued _ _ Hinv) as Hnq. pose proof (rw_pool _ _ (sc_rq _ _ Hinv)).
    destruct (sc_current _ _ Hinv) as [->|[l' Hl]]; [unfold t, INIT; lia|].
    intros Heq. apply Hnq. rewrite Hl. apply elem_of_cons. by left. }
  destruct (core_eq _ _ (Ho1 _ Hct)) as (_ & Hpi & Hpm & _).
  (* the final updates of the child, from any state reached after copy_mm *)
  assert (∀ s2 cm, sched_inv s2 (l ++ [t]) → rq_current s2 = rq_current s →
    (∀ i, i ≠ t → task_at s2 i = task_at s1 i) → t_pid (task_at s2 t) = next_pid s → t_mm (task_at s2 t) = cm →
    let s3 := copy_thread t (rq_current s) s2 in
    let cur := t_info (task_at s3 (rq_current s)) in
    ∃ s4, upd t (λ x, let i := t_info x in
          set_state TASK_RUNNING
            (set_info (mk_info (ti_prio i) (ti_static_prio i) (ti_nice i) (ti_pid i) (ti_tgid i)
                         (ti_uid cur) (ti_gid cur) (ti_comm i) (ti_cpu_context i) (ti_stack i)
                         (ti_stack_size i) (Some (rq_current s))) x)) s3 = s4 ∧
      rq_current s4 = rq_current s ∧ sched_inv s4 (l ++ [t]) ∧ t_pid (task_at s4 t) = next_pid s ∧
      ti_uid (t_info (task_at s4 t)) = ti_uid (t_info (task_at s (rq_current s))) ∧
      ti_gid (t_info (task_at s4 t)) = ti_gid (t_info (task_at s (rq_current s))) ∧
      ti_parent (t_info (task_at s4 t)) = Some (rq_current s) ∧ t_mm (task_at s4 t) = cm) as Hfin.
  { intros s2 cm Hinv2 Hc2 Ho2 Hp2 Hm2. cbn zeta. eexists. split; [reflexivity|]. unfold copy_thread.
    split; [done|].
    assert (t_state (task_at s2 t) = TASK_RUNNING) as Hrun2.
    { apply (sc_running _ _ Hinv2), elem_of_app. right. by apply list_elem_of_singleton. }
    assert (sched_inv (upd t (λ x, let i := t_info x in
      set_info (mk_info (ti_prio i) (ti_static_prio i) (ti_nice i) (ti_pid i) (ti_tgid i) (ti_uid i)
        (ti_gid i) (ti_comm i) (ti_cpu_context (t_info (task_at s2 (rq_current s)))) (ti_stack i)
        (ti_stack_size i) (ti_parent i)) x) s2) (l ++ [t])) as Hinv3.
    { apply inv_upd; [done|]. cbn. do 4 (split; [done|]). split; [apply (sc_mm _ _ Hinv2)|done]. }
    split; [|split; [|split; [|split; [|split]]]].
    - apply inv_upd; [done|]. rewrite !task_at_upd, !decide_True by done. cbn.
      do 4 (split; [done|]). split; [intros m Hm; by apply (sc_mm _ _ Hinv2 t)|done].
    - rewrite !task_at_upd, !decide_True by done. cbn. done.
    - rewrite !task_at_upd. rewrite !(decide_True (P := t = t)) by done. rewrite !(decide_False (P := rq_current s = t)) by done.
      cbn. rewrite Ho2 by done. by rewrite Hpi.
    - rewrite !task_at_upd. rewrite !(decide_True (P := t = t)) by done. rewrite !(decide_False (P := rq_current s = t)) by done.
      cbn. rewrite Ho2 by done. by rewrite Hpi.
    - rewrite !task_at_upd, !decide_True by done. done.
    - rewrite !task_at_upd, !decide_True by done. done. }
  unfold copy_mm. rewrite Hpm. destruct (t_mm (task_at s (rq_current s))) as [pm|] eqn:Epm.
  - destruct (sc_vm _ _ Hinv1) as (P & roots & Hv1).
    destruct (create_address_space_ok kernel_pgd early_tables _ _ _ Hv1) as (v & r & P' & Ev & _ & _ & Hr).
    rewrite Ev. cbn [mbind option_bind].
    assert (∀ x, is_Some (mm_pool (vm s1) !! x) → is_Some (mm_pool v !! x)) as Hgrow.
    { intros x. by eapply create_pool_grows. }
    destruct r as [m|].
    + destruct Hr as (a & pgd & Ha & Hfree & _ & _ & Hv & _). cbn [mbind option_bind Z.ltb Z.compare].
      assert (sched_inv (with_vm v s1) (l ++ [t])) as Hinv2 by (apply inv_vm; eauto).
      destruct (Hfin (upd t (set_mm (Some m) (Some m)) (with_vm v s1)) (Some m))
        as (s4 & E4 & Hc4 & Hinv4 & Hp4 & ? & ? & ? & Hm4).
      * apply inv_upd; [done|]. cbn. do 4 (split; [done|]). split; [intros x [= <-]; by eexists|done].
      * done.
      * intros i Hi. rewrite task_at_upd, decide_False by done. done.
      * rewrite task_at_upd, decide_True by done. done.
      * rewrite task_at_upd, decide_True by done. done.
      * cbn zeta in E4. rewrite E4. do 2 eexists. split; [reflexivity|]. split; [done|]. right.
        split; [done|]. split; [done|]. cbn zeta. do 4 (split; [done|]). rewrite Hm4. split; [done|].
        intros x [= <-]. split; [done|]. intros [= ->].
        destruct (sc_mm _ _ Hinv (rq_current s) pm Epm) as [a' Ha'].
        assert (is_Some (mm_pool (vm s1) !! pm)) as [? Hs]; [|congruence].
        apply (sc_mm _ _ Hinv1 (rq_current s)). by rewrite Hpm.
    + cbn [mbind option_bind]. change (-1 <? 0) with true. cbn iota.
      do 2 eexists. split; [reflexivity|]. split; [done|]. left. split; [done|]. exists [t].
      assert (sched_inv (with_vm v s1) (l ++ [t])) as Hinv2 by (apply inv_vm; eauto).
      apply inv_upd; [done|]. cbn. do 4 (split; [done|]). split; [done|done].
  - cbn [mbind option_bind Z.ltb Z.compare].
    destruct (Hfin (upd t (set_mm None (t_active_mm (task_at s1 (rq_current s)))) s1) None)
      as (s4 & E4 & Hc4 & Hinv4 & Hp4 & ? & ? & ? & Hm4).
    + apply inv_upd; [done|]. cbn. done.
    + done.
    + intros i Hi. rewrite task_at_upd, decide_False by done. done.
    + rewrite task_at_upd, decide_True by done. done.
    + rewrite task_at_upd, decide_True by done. done.
    + cbn zeta in E4. rewrite E4. do 2 eexists. split; [reflexivity|]. split; [done|]. right.
      split; [done|]. split; [done|]. cbn zeta. do 4 (split; [done|]). by rewrite Hm4.
Qed.

(** ** Runs of the scheduler *)

Definition sched_boot (v : vmm pmm) : sched :=
  sched_init (mk_sched INIT INIT None None 0 0 {[INIT := init_task]} 0 1 v).

Lemma sched_boot_inv v P roots :
  vmm_inv kernel_pgd early_tables v P roots → sched_inv (sched_boot v) [].
Proof.
  intros Hv. assert (∀ i, i ≠ INIT → task_at (sched_boot v) i = zero_task) as Hz.
  { intros i Hi. unfold task_at, sched_boot, sched_init. cbn [tasks]. by rewrite lookup_singleton_ne. }
  split; try done.
  - split; try done; [apply NoDup_nil_2|]. by intros t Ht%elem_of_nil.
  - by left.
  - by intros t Ht%elem_of_nil.
  - cbn. intros i Hi. lia.
  - cbn. intros i j ? ?. lia.
  - by intros t Ht%elem_of_nil.
  - intros i m. destruct (decide (i = INIT)) as [->|Hi]; [done|]. by rewrite Hz.
  - by exists P, roots.
Qed.

(** A pointer wake_up_process may get: NULL, the idle task, or a task that has
    been given a pid. *)
Definition wakeable (task : option Z) (s : sched) : Prop :=
  match task with
  | None => True
  | Some t => t = INIT ∨ (0 ≤ t < task_pool_index s ∧ t_pid (task_at s t) ≠ 0)
  end.

(** The calls the kernel makes; exit_task is called by a task, not by the idle
    loop.  do_waitpid, which puts the current task to sleep while it stays in
    the queue, is not among them ([wake_queued_task_makes_cycle]). *)
Inductive sched_run (v : vmm pmm) : sched → Prop :=
| run_boot : sched_run v (sched_boot v)
| run_create s entry arg flags s' r :
    sched_run v s → create_task entry arg flags s = Some (s', r) → sched_run v s'
| run_thread s entry arg stack flags s' r :
    sched_run v s → create_thread entry arg stack flags s = Some (s', r) → sched_run v s'
| run_fork s fe flags s' r :
    sched_run v s → do_fork kernel_pgd early_tables fe flags s = Some (s', r) → sched_run v s'
| run_schedule s s' : sched_run v s → schedule s = Some s' → sched_run v s'
| run_exit s code s' :
    sched_run v s → rq_current s ≠ INIT → exit_task code s = Some s' → sched_run v s'
| run_kill s pid s' r : sched_run v s → sched_kill_task pid s = Some (s', r) → sched_run v s'
| run_wake s task s' r :
    sched_run v s → wakeable task s → wake_up_process task s = Some (s', r) → sched_run v s'.

Lemma wake_inv s l task :
  sched_inv s l → wakeable task s → ∃ s' r, wake_up_process task s = Some (s', r) ∧ ∃ l', sched_inv s' l'.
Proof.
  intros Hinv Hw. destruct task as [t|]; [|by eauto 6]. destruct Hw as [->|[Ht Hp]].
  - unfold wake_up_process. rewrite bool_decide_eq_true_2 by apply Hinv. eauto 6.
  - destruct (wake_up_ok s l t Hinv Ht Hp) as (s' & r & E & Hr). exists s', r. split; [done|].
    case_bool_decide; [destruct Hr as [_ ->]; eauto|]. destruct Hr as (_ & ? & _). eauto.
Qed.

(** Two tasks with the same pid are the same task. *)
Lemma pid_inj s l i j :
  sched_inv s l → 0 ≤ i < task_pool_index s → 0 ≤ j < task_pool_index s →
  t_pid (task_at s i) ≠ 0 → t_pid (task_at s i) = t_pid (task_at s j) → i = j.
Proof.
  intros Hinv Hi Hj Hp E. destruct (Z.lt_trichotomy i j) as [?|[?|?]]; [|done|].
  - pose proof (sc_order _ _ Hinv i j). lia.
  - pose proof (sc_order _ _ Hinv j i). lia.
Qed.

Lemma kill_inv s l pid s' r :
  sched_inv s l → sched_kill_task pid s = Some (s', r) → ∃ l', sched_inv s' l'.
Proof.
  intros Hinv E. destruct (kill_ok s l pid Hinv) as (s1 & r1 & E1 & Hk). rewrite E1 in E. simplify_eq.
  destruct (get_task_by_pid pid s) as [t|]; [|destruct Hk as [_ ->]; eauto].
  repeat case_match; destruct Hk as [_ Hk]; subst; eauto. destruct Hk as [[l' ?] _]. eauto.
Qed.

Lemma current_head s l : sched_inv s l → rq_current s ≠ INIT → ∃ l', l = rq_current s :: l'.
Proof. intros Hinv Hc. by destruct (sc_current _ _ Hinv). Qed.

Lemma sched_run_inv v s P roots :
  vmm_inv kernel_pgd early_tables v P roots → sched_run v s → ∃ l, sched_inv s l.
Proof.
  intros Hv Hr. induction Hr as [|s entry arg flags s' r _ [l IH] E|s entry arg stack flags s' r _ [l IH] E
    |s fe flags s' r _ [l IH] E|s s' _ [l IH] E|s code s' _ [l IH] Hc E|s pid s' r _ [l IH] E|s task s' r _ [l IH] Hw E].
  - exists []. by eapply sched_boot_inv.
  - destruct (create_task_ok entry arg flags s l IH) as (s1 & r1 & E1 & _ & H1). rewrite E1 in E. simplify_eq.
    destruct r as [t|]; [destruct H1 as (_ & ? & _)|]; eauto.
  - destruct (create_thread_ok entry arg stack flags s l IH) as (s1 & r1 & E1 & H1 & _). rewrite E1 in E. simplify_eq.
    destruct H1 as [[_ ?]|(_ & ? & _)]; eauto.
  - destruct (fork_ok fe flags s l IH) as (s1 & r1 & E1 & _ & H1). rewrite E1 in E. simplify_eq.
    destruct H1 as [[_ [? ?]]|(_ & ? & _)]; eauto.
  - destruct (schedule_ok s l IH) as (s1 & E1 & ? & _). rewrite E1 in E. simplify_eq. eauto.
  - destruct (current_head _ _ IH Hc) as [l' ->].
    destruct (exit_task_ok code s l' IH Hc) as (s1 & E1 & ? & _). rewrite E1 in E. simplify_eq. eauto.
  - by eapply kill_inv.
  - destruct (wake_inv s l task IH Hw) as (s1 & r1 & E1 & ?). rewrite E1 in E. by simplify_eq.
Qed.

(** C9: from boot on, under any sequence of task and thread creations, forks,
    scheduler calls, exits of a task other than the idle one, kills, and
    wake-ups of the idle task or of any task that has been given a pid, the run
    queue stays a proper doubly linked list of distinct runnable tasks whose
    length is nr_running, the current task is its head or the idle task, no two
    tasks have the same process id, and the next such call of any kind returns
    (no null pointer is followed).  Runnable tasks outside the queue are not
    excluded: a thread whose stack cannot be allocated is one.  Do_waitpid,
    which lets a queued task sleep so that a wake-up closes the queue to a
    cycle ([wake_queued_task_makes_cycle]), is not part of the sequences. *)
Theorem sched_run_safe v s P roots :
  vmm_inv kernel_pgd early_tables v P roots → sched_run v s →
  ∃ l, rq_wf s l ∧ (∀ t, t ∈ l → t_state (task_at s t) = TASK_RUNNING) ∧
    (rq_current s = INIT ∨ head l = Some (rq_current s)) ∧
    (∀ i j, 0 ≤ i < task_pool_index s → 0 ≤ j < task_pool_index s → t_pid (task_at s i) ≠ 0 →
       t_pid (task_at s i) = t_pid (task_at s j) → i = j) ∧
    (∀ entry arg flags, is_Some (create_task entry arg flags s)) ∧
    (∀ entry arg stack flags, is_Some (create_thread entry arg stack flags s)) ∧
    (∀ fe flags, is_Some (do_fork kernel_pgd early_tables fe flags s)) ∧
    is_Some (schedule s) ∧
    (∀ code, rq_current s ≠ INIT → is_Some (exit_task code s)) ∧
    (∀ pid, is_Some (sched_kill_task pid s)) ∧
    (∀ task, wakeable task s → is_Some (wake_up_process task s)).
Proof.
  intros Hv Hr. destruct (sched_run_inv v s P roots Hv Hr) as [l Hinv]. exists l.
  split; [apply Hinv|]. split; [apply Hinv|]. split.
  { destruct (sc_current _ _ Hinv) as [?|[l' ->]]; [by left|by right]. }
  split; [intros i j; by apply (pid_inj s l)|]. repeat split.
  - intros. destruct (create_task_ok entry arg flags s l Hinv) as (? & ? & -> & _). by eexists.
  - intros. destruct (create_thread_ok entry arg stack flags s l Hinv) as (? & ? & -> & _). by eexists.
  - intros. destruct (fork_ok fe flags s l Hinv) as (? & ? & -> & _). by eexists.
  - destruct (schedule_ok s l Hinv) as (? & -> & _). by eexists.
  - intros code Hc. destruct (current_head _ _ Hinv Hc) as [l' ->].
    destruct (exit_task_ok code s l' Hinv Hc) as (? & -> & _). by eexists.
  - intros pid. destruct (kill_ok s l pid Hinv) as (? & ? & -> & _). by eexists.
  - intros task Hw. destruct (wake_inv s l task Hinv Hw) as (? & ? & -> & _). by eexists.
Qed.

(** When the current task exits it becomes a zombie with its exit code,
    leaves the queue, and the next task in queue order (or the idle task)
    becomes current; no other task changes its state: tasks run to completion
    in the order they became runnable. *)
Theorem exit_task_fifo code s l :
  sched_inv s (rq_current s :: l) → rq_current s ≠ INIT →
  ∃ s', exit_task code s = Some s' ∧ sched_inv s' l ∧
    rq_current s' = default INIT (head l) ∧
    t_state (task_at s' (rq_current s)) = TASK_ZOMBIE ∧
    t_exit_code (task_at s' (rq_current s)) = code ∧
    ∀ i, i ≠ rq_current s → t_state (task_at s' i) = t_state (task_at s i).
Proof. apply exit_task_ok. Qed.

(** Schedule switches from the idle task to the head of the queue; a task
    that is running keeps the processor, however many others are runnable. *)
Theorem schedule_keeps_current s l :
  sched_inv s l →
  (rq_current s = INIT → ∃ s', schedule s = Some s' ∧ sched_inv s' l ∧
     rq_current s' = default INIT (head l)) ∧
  (rq_current s ≠ INIT → schedule s = Some s).
Proof.
  intros Hinv. split.
  - intros Hc. destruct (schedule_ok s l Hinv) as (s' & E & Hi & Hcur). exists s'.
    rewrite decide_True in Hcur by done. done.
  - intros Hc. by eapply schedule_head.
Qed.

(** Waking a sleeping task appends it to the run queue and makes it
    runnable; waking a running one changes nothing. *)
Theorem wake_up_process_correct s l t :
  sched_inv s l → 0 ≤ t < task_pool_index s → t_pid (task_at s t) ≠ 0 →
  ∃ s' r, wake_up_process (Some t) s = Some (s', r) ∧
    if bool_decide (t_state (task_at s t) = TASK_RUNNING) then r = 0 ∧ s' = s
    else r = 1 ∧ sched_inv s' (l ++ [t]) ∧ same_rest s s' ∧
         ∀ i, core (task_at s' i) = core (if decide (i = t) then set_state TASK_RUNNING (task_at s t)
                                          else task_at s i).
Proof. apply wake_up_ok. Qed.

(** Get_task_by_pid finds the task with a pid if there is a live one, and
    at most one task has it; sched_kill_task returns -3 when there is none, -1
    for the init task, and otherwise marks exactly that task with SIGKILL. *)
Theorem kill_by_pid_correct s l pid t u :
  sched_inv s l → 0 < pid →
  0 ≤ t < task_pool_index s → t_pid (task_at s t) = pid → t_state (task_at s t) ≠ TASK_DEAD →
  has (t_flags (task_at s t)) PF_IDLE = false →
  0 ≤ u < task_pool_index s → t_pid (task_at s u) = pid →
  u = t ∧ get_task_by_pid pid s = Some t ∧
  ∃ s', sched_kill_task pid s = Some (s', 0) ∧ (∃ l', sched_inv s' (l ++ l')) ∧
    Z.testbit (t_pending_signals (task_at s' t)) 9 = true.
Proof.
  intros Hinv Hpos Ht Hp Hd Hfl Hu Hpu.
  assert (∀ x, 0 ≤ x < task_pool_index s → t_pid (task_at s x) = pid → x = t) as Huniq.
  { intros x Hx Hpx. apply (pid_inj s l x t Hinv Hx Ht); lia. }
  split; [by apply Huniq|].
  pose proof (get_task_by_pid_spec s l pid Hinv) as Hg. pose proof (kill_ok s l pid Hinv) as Hk.
  destruct (get_task_by_pid pid s) as [x|]; [|destruct Hg as [_ Hg]; by apply Hg in Hp].
  destruct Hg as (Hpx & [[_ ?]|(Hx & _)]); [lia|]. rewrite (Huniq x Hx Hpx) in *.
  split; [done|]. destruct Hk as (s' & r & E & Hk).
  destruct (Z.eqb_spec pid 0); [lia|]. rewrite Hfl in Hk. destruct Hk as (-> & ? & ?). eauto.
Qed.

(** Do_fork creates a runnable child with a fresh pid, the parent's user
    and group, and, when the parent has an address space, a new one of its
    own; the parent stays current. *)
Theorem do_fork_correct fork_entry flags s l :
  sched_inv s l →
  ∃ s' r, do_fork kernel_pgd early_tables fork_entry flags s = Some (s', r) ∧
    rq_current s' = rq_current s ∧
    ((r = -1 ∧ ∃ l', sched_inv s' (l ++ l')) ∨
     (r = next_pid s ∧ sched_inv s' (l ++ [task_pool_index s]) ∧
      let child := task_at s' (task_pool_index s) in
      let parent := task_at s (rq_current s) in
      t_pid child = r ∧ ti_uid (t_info child) = ti_uid (t_info parent) ∧
      ti_gid (t_info child) = ti_gid (t_info parent) ∧ ti_parent (t_info child) = Some (rq_current s) ∧
      (t_mm parent = None → t_mm child = None) ∧
      (∀ m, t_mm parent = Some m → t_mm child ≠ None ∧ t_mm child ≠ Some m))).
Proof. apply fork_ok. Qed.
End Inv.

(** ** A concrete run: two tasks, the first running *)

Definition demo_sched1 : sched :=
  fst (default (sched_boot demo_vmm, None) (create_task 0x1000 0 0 (sched_boot demo_vmm))).
Definition demo_sched2 : sched :=
  fst (default (demo_sched1, None) (create_task 0x2000 0 0 demo_sched1)).
Definition demo_sched : sched := default demo_sched2 (schedule demo_sched2).

Lemma bind_fst_default {A B} (o : option (A * B)) d r :
  (snd <$> o) = Some r → o = Some (fst (default d o), r).
Proof. destruct o as [[a b]|]; cbn; [|done]. by intros [= <-]. Qed.

Lemma Some_pair_inj {A B} (a c : A) (b d : B) : Some (a, b) = Some (c, d) → c = a ∧ d = b.
Proof. by intros [= -> ->]. Qed.

Lemma demo_sched1_eq : create_task 0x1000 0 0 (sched_boot demo_vmm) = Some (demo_sched1, Some 0).
Proof. apply bind_fst_default. vm_compute. reflexivity. Qed.
Lemma demo_sched2_eq : create_task 0x2000 0 0 demo_sched1 = Some (demo_sched2, Some 1).
Proof. apply bind_fst_default. vm_compute. reflexivity. Qed.
Lemma demo_sched_eq : schedule demo_sched2 = Some demo_sched.
Proof.
  unfold demo_sched. assert (bool_decide (is_Some (schedule demo_sched2)) = true) as H by (vm_compute; reflexivity).
  apply bool_decide_eq_true in H as [s ->]. done.
Qed.

Lemma demo_sched_run : sched_run demo_pgd demo_early demo_vmm demo_sched.
Proof.
  eapply run_schedule; [|exact demo_sched_eq].
  eapply run_create; [|exact demo_sched2_eq].
  eapply run_create; [|exact demo_sched1_eq]. constructor.
Qed.

Lemma demo_sched_inv : sched_inv demo_pgd demo_early demo_sched [0; 1].
Proof.
  pose proof (sched_boot_inv demo_pgd demo_early _ _ _ demo_inv) as H0.
  destruct (create_task_ok demo_pgd demo_early 0x1000 0 0 _ _ H0) as (s1 & r1 & E1 & _ & H1).
  rewrite demo_sched1_eq in E1. apply Some_pair_inj in E1 as [-> ->]. destruct H1 as (_ & H1 & _).
  destruct (create_task_ok demo_pgd demo_early 0x2000 0 0 _ _ H1) as (s2 & r2 & E2 & _ & H2).
  rewrite demo_sched2_eq in E2. apply Some_pair_inj in E2 as [-> ->]. destruct H2 as (_ & H2 & _).
  destruct (schedule_ok demo_pgd demo_early _ _ H2) as (s3 & E3 & H3 & _).
  rewrite demo_sched_eq in E3. apply (inj Some) in E3. rewrite E3. exact H3.
Qed.

(** The first task exits and is woken: it goes to the end of the queue. *)
Definition demo_exited : sched := default demo_sched (exit_task 7 demo_sched).
Definition demo_woken : sched := fst (default (demo_exited, 0) (wake_up_process (Some 0) demo_exited)).

Lemma default_Some {A} (o : option A) d : bool_decide (is_Some o) = true → o = Some (default d o).
Proof. intros [x ->]%bool_decide_eq_true. done. Qed.

Lemma demo_woken_run : sched_run demo_pgd demo_early demo_vmm demo_woken.
Proof.
  assert (exit_task 7 demo_sched = Some demo_exited) as E1 by (apply default_Some; vm_compute; reflexivity).
  assert (wake_up_process (Some 0) demo_exited = Some (demo_woken, 1)) as E2
    by (apply bind_fst_default; vm_compute; reflexivity).
  apply (run_wake _ _ _ demo_exited (Some 0) _ 1); [|right|exact E2].
  - eapply run_exit; [exact demo_sched_run|vm_compute; discriminate|exact E1].
  - vm_compute. repeat split; discriminate.
Qed.

Lemma sched_run_safe_witness :
  ∃ l, rq_wf demo_woken l ∧ (∀ t, t ∈ l → t_state (task_at demo_woken t) = TASK_RUNNING) ∧
    is_Some (schedule demo_woken) ∧ rq_nr_running demo_woken = 2 ∧ rq_current demo_woken = 1.
Proof.
  destruct (sched_run_safe demo_pgd demo_early demo_vmm demo_woken _ _ demo_inv demo_woken_run)
    as (l & H1 & H2 & _ & _ & _ & _ & _ & H3 & _).
  exists l. split; [exact H1|]. split; [exact H2|]. split; [exact H3|]. split; vm_compute; reflexivity.
Defined.

Lemma exit_task_fifo_witness :
  ∃ s', exit_task 7 demo_sched = Some s' ∧ rq_current s' = 1 ∧ t_state (task_at s' 0) = TASK_ZOMBIE.
Proof.
  assert (rq_current demo_sched = 0) as Hc by (vm_compute; reflexivity).
  destruct (exit_task_fifo demo_pgd demo_early 7 demo_sched [1]) as (s' & E & _ & H1 & H2 & _).
  - rewrite Hc. exact demo_sched_inv.
  - rewrite Hc. done.
  - exists s'. rewrite Hc in H2. split; [exact E|]. split; [exact H1|exact H2].
Defined.

Lemma schedule_keeps_current_witness : schedule demo_sched = Some demo_sched.
Proof.
  apply (schedule_keeps_current demo_pgd demo_early demo_sched [0; 1] demo_sched_inv).
  vm_compute. discriminate.
Defined.

Lemma wake_up_process_correct_witness :
  ∃ s' r, wake_up_process (Some 1) demo_sched = Some (s', r) ∧ r = 0.
Proof.
  destruct (wake_up_process_correct demo_pgd demo_early demo_sched [0; 1] 1 demo_sched_inv)
    as (s' & r & E & H).
  - vm_compute. split; [discriminate|reflexivity].
  - vm_compute. discriminate.
  - exists s', r. split; [exact E|].
    assert (bool_decide (t_state (task_at demo_sched 1) = TASK_RUNNING) = true) as Hb by (vm_compute; reflexivity).
    rewrite Hb in H. exact (proj1 H).
Defined.

Lemma kill_by_pid_correct_witness :
  get_task_by_pid 2 demo_sched = Some 1 ∧ ∃ s', sched_kill_task 2 demo_sched = Some (s', 0).
Proof.
  destruct (kill_by_pid_correct demo_pgd demo_early demo_sched [0; 1] 2 1 1 demo_sched_inv)
    as (_ & Hg & s' & E & _).
  - lia.
  - vm_compute. split; [discriminate|reflexivity].
  - vm_compute. reflexivity.
  - vm_compute. discriminate.
  - vm_compute. reflexivity.
  - vm_compute. split; [discriminate|reflexivity].
  - vm_compute. reflexivity.
  - split; [exact Hg|]. exists s'. exact E.
Defined.

Lemma do_fork_correct_witness :
  ∃ s' r, do_fork demo_pgd demo_early 0x3000 0 demo_sched = Some (s', r) ∧
    rq_current s' = rq_current demo_sched.
Proof.
  destruct (do_fork_correct demo_pgd demo_early 0x3000 0 demo_sched [0; 1] demo_sched_inv)
    as (s' & r & E & H & _).
  exists s', r. split; [exact E|exact H].
Defined.

(** A task that sleeps without leaving the queue, as do_waitpid makes it, is
    queued twice when it is woken: its [next] pointer then leads to itself. *)
Definition demo_waiting : sched := upd 0 (set_state TASK_INTERRUPTIBLE) demo_sched1.

Lemma wake_queued_task_makes_cycle :
  rq_head demo_waiting = Some 0 ∧
  (r ← wake_up_process (Some 0) demo_waiting; t_next (task_at (fst r) 0)) = Some 0 ∧
  (r ← wake_up_process (Some 0) demo_waiting; Some (rq_nr_running (fst r))) = Some 2.
Proof. vm_compute. done. Qed.

(** do_fork gives the child the saved registers of its parent, the stack
    pointer included, although create_task allocated a stack of its own. *)
Lemma fork_child_on_parent_stack :
  (r ← do_fork demo_pgd demo_early 0x3000 0 demo_sched;
   let s := fst r in
   Some (bool_decide (ctx_sp (ti_cpu_context (t_info (task_at s 2))) =
                      ctx_sp (ti_cpu_context (t_info (task_at s 0)))),
         bool_decide (ti_stack (t_info (task_at s 2)) = ti_stack (t_info (task_at s 0)))))
  = Some (true, false).
Proof. vm_compute. reflexivity. Qed.
