(* ===== verification/Signal.v ===== *)
(** * kernel/sched/signal.c

    The state is the scheduler's, and the pool of signal structures, which
    tasks point to by index.  A handler installed by sigaction is code outside
    this file: it is the argument [handler], a function of the handler's
    address, the signal number and the state. *)

From S2P Require Import Prelude DList PageAlloc Pmm Vmm Sched.

Definition SIGKILL : Z := 9.
Definition SIGCHLD : Z := 17.
Definition SIGCONT : Z := 18.
Definition SIGSTOP : Z := 19.
Definition SIGTSTP : Z := 20.
Definition SIGTTIN : Z := 21.
Definition SIGTTOU : Z := 22.
Definition SIGURG : Z := 23.
Definition SIGWINCH : Z := 28.
Definition NSIG : Z := 32.
Definition SIG_DFL : Z := 0.
Definition SIG_IGN : Z := 1.
Definition SIG_POOL : Z := 64.

Record sigaction := mk_sigaction {
  sa_handler : Z;
  sa_mask : Z;
  sa_flags : Z;
  sa_restorer : Z
}.

Record signal_struct := mk_signals {
  sig_pending : Z;
  sig_blocked : Z;
  sig_actions : list sigaction
}.

Record sigstate := mk_sigstate {
  sg_sched : sched;
  sig_pool : gmap Z signal_struct;
  sig_pool_idx : Z
}.

Definition no_action : sigaction := mk_sigaction 0 0 0 0.
(** An element of the static, zeroed pool. *)
Definition zero_signals : signal_struct := mk_signals 0 0 (replicate (Z.to_nat NSIG) no_action).

Definition signals_at (s : sigstate) (g : Z) : signal_struct := default zero_signals (sig_pool s !! g).
Definition with_sched (c : sched) (s : sigstate) : sigstate := mk_sigstate c (sig_pool s) (sig_pool_idx s).
Definition put_signals (g : Z) (x : signal_struct) (s : sigstate) : sigstate :=
  mk_sigstate (sg_sched s) (<[g := x]> (sig_pool s)) (sig_pool_idx s).

Definition set_pending (p : Z) (x : signal_struct) : signal_struct :=
  mk_signals p (sig_blocked x) (sig_actions x).
Definition set_blocked (b : Z) (x : signal_struct) : signal_struct :=
  mk_signals (sig_pending x) b (sig_actions x).
Definition action_of (x : signal_struct) (sig : Z) : sigaction :=
  nth (Z.to_nat sig) (sig_actions x) no_action.

(** [task->signals] *)
Definition task_signals (s : sigstate) (t : Z) : option Z := t_signals (task_at (sg_sched s) t).

(** [set &= ~(1UL << sig)] on a 64-bit set *)
Definition clear_bit (x sig : Z) : Z := Z.ldiff x (Z.shiftl 1 sig).

(** ** Initialisation and sending *)

(** The restorer is not reset. *)
Definition reset_signals (x : signal_struct) : signal_struct :=
  mk_signals 0 0 ((λ a, mk_sigaction SIG_DFL 0 0 (sa_restorer a)) <$> sig_actions x).

Definition signal_init (task : Z) (s : sigstate) : sigstate :=
  match task_signals s task with
  | Some g => put_signals g (reset_signals (signals_at s g)) s
  | None =>
      if sig_pool_idx s <? SIG_POOL then
        let g := sig_pool_idx s in
        let s := mk_sigstate (upd task (set_signals (Some g)) (sg_sched s)) (sig_pool s) (g + 1) in
        put_signals g (reset_signals (signals_at s g)) s
      else s
  end.

Definition kill_task (task : option Z) (sig : Z) (s : sigstate) : option (sigstate * Z) :=
  if (sig <? 0) || (NSIG <=? sig) then Some (s, -1)
  else
    match task with
    | None => Some (s, -1)
    | Some t =>
        match task_signals s t with
        | None => Some (s, -1)
        | Some g =>
            let x := signals_at s g in
            let s := put_signals g (set_pending (Z.lor (sig_pending x) (Z.shiftl 1 sig)) x) s in
            c ← (if bool_decide (t_state (task_at (sg_sched s) t) = TASK_INTERRUPTIBLE)
                 then r ← wake_up_process (Some t) (sg_sched s); Some (fst r)
                 else Some (sg_sched s));
            Some (with_sched c s, 0)
        end
    end.

(** ** Delivery *)

(** How the handling of one signal leaves the task: it goes on, it has given
    up the processor inside schedule (and goes on when it runs again), or it
    has exited. *)
Inductive outcome :=
| Continues (s : sigstate)
| Switched (s : sigstate)
| Exited (s : sigstate).

Definition sig_default_term (sig : Z) (s : sigstate) : option outcome :=
  c ← exit_task sig (sg_sched s);
  Some (Exited (with_sched c s)).

Definition sig_default_ignore (sig : Z) (s : sigstate) : option outcome := Some (Continues s).

Definition sig_default_stop (sig : Z) (s : sigstate) : option outcome :=
  let task := get_current (sg_sched s) in
  c ← schedule (upd task (set_state TASK_STOPPED) (sg_sched s));
  Some (if rq_current c =? task then Continues (with_sched c s) else Switched (with_sched c s)).

Definition sig_default_cont (sig : Z) (s : sigstate) : option outcome :=
  let task := get_current (sg_sched s) in
  Some (Continues (with_sched (upd task (set_state TASK_RUNNING) (sg_sched s)) s)).

Definition in_list (sig : Z) (l : list Z) : bool := existsb (Z.eqb sig) l.

Section Delivery.
Context (handler : Z → Z → sigstate → sigstate).

Definition dispose (a : sigaction) (sig : Z) (s : sigstate) : option outcome :=
  if sa_handler a =? SIG_IGN then sig_default_ignore sig s
  else if sa_handler a =? SIG_DFL then
    if in_list sig [SIGCHLD; SIGURG; SIGWINCH] then sig_default_ignore sig s
    else if sig =? SIGCONT then sig_default_cont sig s
    else if in_list sig [SIGSTOP; SIGTSTP; SIGTTIN; SIGTTOU] then sig_default_stop sig s
    else sig_default_term sig s
  else Some (Continues (handler (sa_handler a) sig s)).

(** The loop over the signals, [n] iterations from [sig]; it ends early when
    the task exits, and is cut where the task gives up the processor: the
    second component is then the signal to go on with. *)
Fixpoint signal_loop (n : nat) (sig pending task : Z) (s : sigstate) : option (outcome * Z) :=
  match n with
  | O => Some (Continues s, sig)
  | S n' =>
      if negb (Z.testbit pending sig) then signal_loop n' (sig + 1) pending task s
      else
        g ← task_signals s task;
        let x := signals_at s g in
        let s := put_signals g (set_pending (clear_bit (sig_pending x) sig) x) s in
        o ← dispose (action_of (signals_at s g) sig) sig s;
        match o with
        | Continues s => signal_loop n' (sig + 1) pending task s
        | Switched s => Some (Switched s, sig + 1)
        | Exited s => Some (Exited s, sig + 1)
        end
  end.

Definition do_signal (task : option Z) (s : sigstate) : option (outcome * Z) :=
  match task with
  | None => Some (Continues s, NSIG)
  | Some t =>
      match task_signals s t with
      | None => Some (Continues s, NSIG)
      | Some g =>
          let x := signals_at s g in
          let pending := Z.ldiff (sig_pending x) (sig_blocked x) in
          if pending =? 0 then Some (Continues s, NSIG)
          else signal_loop (Z.to_nat (NSIG - 1)) 1 pending t s
      end
  end.
End Delivery.

(** ** System calls *)

(** [*oldset] is the second result when the pointer is not null. *)
Definition sigprocmask (how : Z) (set : option Z) (want_old : bool) (s : sigstate)
  : sigstate * option Z * Z :=
  match task_signals s (get_current (sg_sched s)) with
  | None => (s, None, -1)
  | Some g =>
      let x := signals_at s g in
      let old := if want_old then Some (sig_blocked x) else None in
      let new :=
        match set with
        | None => Some (sig_blocked x)
        | Some m =>
            if how =? 0 then Some (Z.lor (sig_blocked x) m)
            else if how =? 1 then Some (Z.ldiff (sig_blocked x) m)
            else if how =? 2 then Some m
            else None
        end in
      match new with
      | None => (s, old, -1)
      | Some b =>
          let b := Z.ldiff b (Z.lor (Z.shiftl 1 SIGKILL) (Z.shiftl 1 SIGSTOP)) in
          (put_signals g (set_blocked b x) s, old, 0)
      end
  end.

Definition sigaction_syscall (sig : Z) (act : option sigaction) (want_old : bool) (s : sigstate)
  : sigstate * option sigaction * Z :=
  if (sig <? 1) || (NSIG <=? sig) then (s, None, -1)
  else if (sig =? SIGKILL) || (sig =? SIGSTOP) then (s, None, -1)
  else
    match task_signals s (get_current (sg_sched s)) with
    | None => (s, None, -1)
    | Some g =>
        let x := signals_at s g in
        let old := if want_old then Some (action_of x sig) else None in
        let s :=
          match act with
          | None => s
          | Some a =>
              put_signals g (mk_signals (sig_pending x) (sig_blocked x)
                               (<[Z.to_nat sig := a]> (sig_actions x))) s
          end in
        (s, old, 0)
    end.

(** The status is written before the caller sleeps; the call returns [pid]
    when the caller runs again. *)
Definition do_waitpid (pid : Z) (want_status : bool) (options : Z) (s : sigstate)
  : option (sigstate * option Z * Z) :=
  let current := get_current (sg_sched s) in
  let status := if want_status then Some 0 else None in
  c ← schedule (upd current (set_state TASK_INTERRUPTIBLE) (sg_sched s));
  Some (with_sched c s, status, pid).

(** ** Invariant *)

(** SIGKILL and SIGSTOP are never blocked and keep their default action. *)
Record signals_ok (x : signal_struct) : Prop := {
  so_kill : Z.testbit (sig_blocked x) SIGKILL = false;
  so_stop : Z.testbit (sig_blocked x) SIGSTOP = false;
  so_length : length (sig_actions x) = Z.to_nat NSIG;
  so_kill_dfl : sa_handler (action_of x SIGKILL) = SIG_DFL;
  so_stop_dfl : sa_handler (action_of x SIGSTOP) = SIG_DFL
}.

(** The structures handed out are those below the pool index, and no two
    tasks share one. *)
Record sig_inv (s : sigstate) : Prop := {
  si_pool : 0 ≤ sig_pool_idx s ≤ SIG_POOL;
  si_range t g : task_signals s t = Some g → 0 ≤ g < sig_pool_idx s;
  si_inj t u g : task_signals s t = Some g → task_signals s u = Some g → t = u;
  si_ok g : signals_ok (signals_at s g)
}.

Lemma signals_at_put s g x h :
  signals_at (put_signals g x s) h = if decide (h = g) then x else signals_at s h.
Proof.
  unfold signals_at, put_signals. cbn [sig_pool]. rewrite lookup_insert.
  repeat case_decide; congruence || done.
Qed.

Lemma task_signals_put s g x t : task_signals (put_signals g x s) t = task_signals s t.
Proof. done. Qed.

Lemma reset_ok x : length (sig_actions x) = Z.to_nat NSIG → signals_ok (reset_signals x).
Proof.
  intros Hl. split; try done; [by cbn; rewrite length_fmap|..].
  all: unfold action_of, reset_signals; cbn [sig_actions].
  all: rewrite nth_lookup, list_lookup_fmap; by destruct (sig_actions x !! _).
Qed.

Lemma put_inv g x s : sig_inv s → signals_ok x → sig_inv (put_signals g x s).
Proof.
  intros [Hp Hr Hi Ho] Hx. split; try done. intros h. rewrite signals_at_put. by case_decide.
Qed.

Lemma pending_ok p x : signals_ok x → signals_ok (set_pending p x).
Proof. by intros [? ? ? ? ?]. Qed.

(** The scheduler state may change as long as the pointers stay. *)
Lemma sched_change_inv c s :
  sig_inv s → (∀ t, t_signals (task_at c t) = task_signals s t) → sig_inv (with_sched c s).
Proof.
  intros [Hp Hr Hi Ho] Hs. split; try done.
  - intros t g. unfold task_signals. cbn. rewrite Hs. apply Hr.
  - intros t u g. unfold task_signals. cbn. rewrite !Hs. apply Hi.
Qed.

Lemma signal_init_inv t s : sig_inv s → sig_inv (signal_init t s).
Proof.
  intros Hinv. unfold signal_init. destruct (task_signals s t) as [g|] eqn:Et.
  { apply put_inv; [done|]. apply reset_ok, Hinv. }
  destruct (Z.ltb_spec (sig_pool_idx s) SIG_POOL); [|done].
  apply put_inv; [|apply reset_ok, Hinv]. destruct Hinv as [Hp Hr Hi Ho].
  assert (∀ u, task_signals (mk_sigstate (upd t (set_signals (Some (sig_pool_idx s))) (sg_sched s))
                  (sig_pool s) (sig_pool_idx s + 1)) u
               = if decide (u = t) then Some (sig_pool_idx s) else task_signals s u) as Hts.
  { intros u. unfold task_signals. cbn [sg_sched]. rewrite task_at_upd. by case_decide; subst. }
  split; cbn [sig_pool_idx].
  - lia.
  - intros u g. rewrite Hts. case_decide; [intros [= <-]; lia|]. intros ?%Hr. lia.
  - intros u v g. rewrite !Hts. repeat case_decide; subst; try done.
    + intros [= <-] ?%Hr. lia.
    + intros ?%Hr [= <-]. lia.
    + apply Hi.
  - apply Ho.
Qed.

Lemma sigprocmask_inv how m w s : sig_inv s → sig_inv (sigprocmask how m w s).1.1.
Proof.
  intros Hinv. unfold sigprocmask. destruct (task_signals s _) as [g|]; [|done].
  assert (∀ b, sig_inv (put_signals g (set_blocked (Z.ldiff b (Z.lor (Z.shiftl 1 SIGKILL)
    (Z.shiftl 1 SIGSTOP))) (signals_at s g)) s)) as Hb.
  { intros b. apply put_inv; [done|]. destruct (si_ok _ Hinv g). split; try done; cbn [sig_blocked set_blocked].
    all: rewrite Z.ldiff_spec; vm_compute (Z.testbit (Z.lor _ _) _); apply andb_false_r. }
  repeat case_match; simplify_eq/=; done || apply Hb.
Qed.

Lemma sigaction_inv sig a w s : sig_inv s → sig_inv (sigaction_syscall sig a w s).1.1.
Proof.
  intros Hinv. unfold sigaction_syscall.
  destruct ((sig <? 1) || (NSIG <=? sig)) eqn:Er; [done|]. destruct ((sig =? SIGKILL) || _) eqn:Ek; [done|].
  destruct (task_signals s _) as [g|]; [|done]. destruct a as [a|]; [|done]. cbn [fst].
  apply put_inv; [done|]. zbool. destruct (si_ok _ Hinv g) as [? ? Hl Hk Hs].
  assert (∀ k, 0 ≤ k → k ≠ sig → nth (Z.to_nat k) (<[Z.to_nat sig:=a]> (sig_actions (signals_at s g))) no_action
    = nth (Z.to_nat k) (sig_actions (signals_at s g)) no_action) as Hnth.
  { intros k ? ?. rewrite !nth_lookup, list_lookup_insert_ne by lia. done. }
  split; try done; unfold action_of; cbn [sig_actions].
  - by rewrite length_insert.
  - rewrite Hnth; [done|done|congruence].
  - rewrite Hnth; [done|done|congruence].
Qed.

(** ** Sequences of calls *)

Section Inv.
Context (kernel_pgd early_tables : Z).
Local Abbreviation sched_inv := (Sched.sched_inv kernel_pgd early_tables).

(** The calls of this interface a task makes, other than do_signal itself. *)
Inductive sig_step (s : sigstate) : sigstate → Prop :=
| step_init t : sig_step s (signal_init t s)
| step_kill t sig s' r :
    0 ≤ t < task_pool_index (sg_sched s) → t_pid (task_at (sg_sched s) t) ≠ 0 →
    kill_task (Some t) sig s = Some (s', r) → sig_step s s'
| step_mask how m w : sig_step s (sigprocmask how m w s).1.1
| step_action sig a w : sig_step s (sigaction_syscall sig a w s).1.1.

(** What such a call keeps: the current task, the queue up to tasks appended
    to it, and the pointers to signal structures. *)
Definition keeps (s : sigstate) (l : list Z) (s' : sigstate) : Prop :=
  sig_inv s' ∧ (∃ l', sched_inv (sg_sched s') (l ++ l')) ∧
  rq_current (sg_sched s') = rq_current (sg_sched s) ∧
  ∀ t g, task_signals s t = Some g → task_signals s' t = Some g.

Lemma keeps_pool s l s' :
  sig_inv s' → sched_inv (sg_sched s') l → sg_sched s' = sg_sched s → keeps s l s'.
Proof.
  intros Hs Hc E. split; [done|]. split; [exists []; by rewrite app_nil_r|].
  unfold task_signals. rewrite E. done.
Qed.

Lemma signal_init_keeps t s l :
  sig_inv s → sched_inv (sg_sched s) l → keeps s l (signal_init t s).
Proof.
  intros Hs Hc. pose proof (signal_init_inv t s Hs) as Hs'. unfold signal_init in *.
  destruct (task_signals s t) as [g|] eqn:Et; [by apply keeps_pool|].
  destruct (_ <? _); [|by apply keeps_pool]. cbn zeta in *.
  split; [done|]. split; [|split; [done|]].
  - exists []. rewrite app_nil_r. cbn [sg_sched put_signals]. apply inv_upd; [done|].
    cbn. do 4 (split; [done|]). split; [|done]. apply (sc_mm _ _ _ _ Hc).
  - intros u g. unfold task_signals. cbn [sg_sched put_signals]. rewrite task_at_upd.
    case_decide; [subst|done]. unfold task_signals in Et. by rewrite Et.
Qed.

Lemma wake_signals t s l c r :
  sched_inv s l → 0 ≤ t < task_pool_index s → t_pid (task_at s t) ≠ 0 →
  wake_up_process (Some t) s = Some (c, r) →
  (∃ l', sched_inv c (l ++ l')) ∧ rq_current c = rq_current s ∧
  ∀ i, t_signals (task_at c i) = t_signals (task_at s i).
Proof.
  intros Hc Ht Hp E. destruct (wake_up_ok _ _ s l t Hc Ht Hp) as (c' & r' & E' & H).
  rewrite E in E'. simplify_eq. case_bool_decide.
  - destruct H as [_ ->]. split; [exists []; by rewrite app_nil_r|done].
  - destruct H as (_ & Hi & (-> & _) & Hcore). split; [eauto|]. split; [done|].
    intros i. pose proof (f_equal t_signals (Hcore i)) as Hi'. cbn in Hi'. rewrite Hi'. by case_decide; subst.
Qed.

Lemma kill_keeps t sig s l s' r :
  sig_inv s → sched_inv (sg_sched s) l →
  0 ≤ t < task_pool_index (sg_sched s) → t_pid (task_at (sg_sched s) t) ≠ 0 →
  kill_task (Some t) sig s = Some (s', r) → keeps s l s'.
Proof.
  intros Hs Hc Ht Hp. unfold kill_task. destruct ((_ || _)); [intros [= <- <-]; by apply keeps_pool|].
  destruct (task_signals s t) as [g|]; [|intros [= <- <-]; by apply keeps_pool].
  set (s1 := put_signals _ _ _).
  assert (sig_inv s1) as Hs1 by (apply put_inv; [done|]; apply pending_ok, Hs).
  case_bool_decide; cbn [mbind option_bind].
  2: { intros [= <- <-]. by apply keeps_pool. }
  destruct (wake_up_process _ _) as [[c r']|] eqn:E; [|done]. intros [= <- <-].
  destruct (wake_signals t (sg_sched s) l c r' Hc Ht Hp E) as (Hl & Hcur & Hsig).
  split; [by apply sched_change_inv|]. split; [done|]. split; [done|].
  intros u h. unfold task_signals. cbn [sg_sched with_sched]. by rewrite Hsig.
Qed.

Lemma put_sched_fst how m w s : sg_sched (sigprocmask how m w s).1.1 = sg_sched s.
Proof. unfold sigprocmask. repeat case_match; simplify_eq/=; done. Qed.

Lemma action_sched_fst sig a w s : sg_sched (sigaction_syscall sig a w s).1.1 = sg_sched s.
Proof. unfold sigaction_syscall. repeat case_match; simplify_eq/=; done. Qed.

Lemma step_keeps s l s' :
  sig_inv s → sched_inv (sg_sched s) l → sig_step s s' → keeps s l s'.
Proof.
  intros Hs Hc [t|t sig s2 r Ht Hp E|how m w|sig a w].
  - by apply signal_init_keeps.
  - by eapply kill_keeps.
  - apply keeps_pool; [by apply sigprocmask_inv| |apply put_sched_fst]. by rewrite put_sched_fst.
  - apply keeps_pool; [by apply sigaction_inv| |apply action_sched_fst]. by rewrite action_sched_fst.
Qed.

Lemma steps_keep s l s' :
  rtc sig_step s s' → sig_inv s → sched_inv (sg_sched s) l → keeps s l s'.
Proof.
  intros Hr. revert l. induction Hr as [s|s s1 s2 Hst _ IH]; intros l Hs Hc; [by apply keeps_pool|].
  destruct (step_keeps s l s1 Hs Hc Hst) as (Hs1 & (l1 & Hc1) & Hcur1 & Hp1).
  destruct (IH _ Hs1 Hc1) as (Hs2 & (l2 & Hc2) & Hcur2 & Hp2).
  split; [done|]. split; [exists (l1 ++ l2); by rewrite app_assoc|]. split; [congruence|]. eauto.
Qed.

(** ** SIGKILL *)

Context (handler : Z → Z → sigstate → sigstate).

Lemma low_default_terminates a sig s :
  1 ≤ sig ≤ SIGKILL → sa_handler a = SIG_DFL → dispose handler a sig s = sig_default_term sig s.
Proof.
  intros Hs Ha. unfold dispose. rewrite Ha. cbn [Z.eqb SIG_DFL SIG_IGN Pos.eqb].
  assert (sig = 1 ∨ sig = 2 ∨ sig = 3 ∨ sig = 4 ∨ sig = 5 ∨ sig = 6 ∨ sig = 7 ∨ sig = 8 ∨ sig = 9)
    as Hc by (unfold SIGKILL in *; lia).
  by repeat destruct Hc as [->|Hc]; [..|subst].
Qed.

Lemma kill_loop t pending n sig s l g :
  (∀ a k s, rtc sig_step s (handler a k s)) →
  sig_inv s → sched_inv (sg_sched s) (t :: l) → rq_current (sg_sched s) = t → t ≠ INIT →
  task_signals s t = Some g → Z.testbit pending SIGKILL = true →
  1 ≤ sig ≤ SIGKILL → (Z.to_nat (SIGKILL + 1 - sig) ≤ n)%nat →
  ∃ s' k, signal_loop handler n sig pending t s = Some (Exited s', k + 1) ∧ 1 ≤ k ≤ SIGKILL ∧
    t_state (task_at (sg_sched s') t) = TASK_ZOMBIE ∧
    t_exit_code (task_at (sg_sched s') t) = k ∧ ∃ l', sched_inv (sg_sched s') (l ++ l').
Proof.
  intros Hh Hs Hc Hcur Ht Hg Hk. revert sig s l Hs Hc Hcur Hg.
  induction n as [|n IH]; intros sig s l Hs Hc Hcur Hg Hsig Hn; [unfold SIGKILL in *; lia|].
  cbn [signal_loop]. destruct (Z.testbit pending sig) eqn:Eb; cbn [negb].
  2: { apply IH; try done; [|lia]. destruct (decide (sig = SIGKILL)); [congruence|lia]. }
  rewrite Hg. cbn [mbind option_bind]. set (s1 := put_signals _ _ s).
  assert (sig_inv s1) as Hs1 by (apply put_inv; [done|]; apply pending_ok, Hs).
  set (a := action_of _ _). destruct (decide (sa_handler a = SIG_DFL)) as [Ha|Ha].
  - rewrite low_default_terminates by done. unfold sig_default_term.
    subst t. destruct (exit_task_ok _ _ sig (sg_sched s) l Hc Ht) as (c & E & Hi & _ & Hz & Hcode & _).
    change (sg_sched s1) with (sg_sched s). rewrite E. cbn [mbind option_bind].
    exists (with_sched c s1), sig. repeat split; try lia; try done. exists []. by rewrite app_nil_r.
  - assert (sig ≠ SIGKILL) as Hne.
    { intros ->. apply Ha. unfold a. apply (so_kill_dfl _ (si_ok _ Hs1 g)). }
    assert (∃ s2, dispose handler a sig s1 = Some (Continues s2) ∧ rtc sig_step s1 s2) as (s2 & Ed & Hr).
    { unfold dispose. destruct (sa_handler a =? SIG_IGN); [by eexists|].
      destruct (Z.eqb_spec (sa_handler a) SIG_DFL); [done|]. eexists. split; [reflexivity|]. apply Hh. }
    rewrite Ed. cbn [mbind option_bind].
    destruct (steps_keep s1 (t :: l) s2 Hr Hs1 Hc) as (Hs2 & (l2 & Hc2) & Hcur2 & Hp2).
    destruct (IH (sig + 1) s2 (l ++ l2)) as (s3 & k & E3 & Hk3 & Hz & Hcode & (l3 & Hl3)); try done; try lia.
    { by rewrite Hcur2. }
    { by apply Hp2. }
    rewrite E3. exists s3, k. repeat split; try lia; try done. exists (l2 ++ l3). by rewrite app_assoc.
Qed.

(** SIGKILL cannot be blocked, caught or ignored: when it is pending for
    the running task, do_signal ends that task, which becomes a zombie whose
    exit code is SIGKILL or a lower fatal signal delivered first, whatever
    masks and actions the task has set before and whatever its handlers do
    with the signal calls. *)
Theorem sigkill_terminates s l g :
  (∀ a k s, rtc sig_step s (handler a k s)) →
  sig_inv s → sched_inv (sg_sched s) l →
  let t := rq_current (sg_sched s) in
  t ≠ INIT → task_signals s t = Some g → Z.testbit (sig_pending (signals_at s g)) SIGKILL = true →
  ∃ s' k, do_signal handler (Some t) s = Some (Exited s', k + 1) ∧ 1 ≤ k ≤ SIGKILL ∧
    t_state (task_at (sg_sched s') t) = TASK_ZOMBIE ∧ t_exit_code (task_at (sg_sched s') t) = k ∧
    ∃ l', sched_inv (sg_sched s') (tail l ++ l').
Proof.
  intros Hh Hs Hc t Ht Hg Hk. unfold do_signal. rewrite Hg.
  destruct (current_head _ _ _ _ Hc Ht) as [l1 ->]. cbn [tail].
  set (p := Z.ldiff _ _).
  assert (Z.testbit p SIGKILL = true) as Hp.
  { unfold p. rewrite Z.ldiff_spec, Hk, (so_kill _ (si_ok _ Hs g)). done. }
  destruct (Z.eqb_spec p 0) as [H0|_]; [rewrite H0 in Hp; by rewrite Z.bits_0 in Hp|].
  eapply kill_loop; try done; vm_compute; lia || (split; discriminate).
Qed.
End Inv.

(** ** Delivery of the signals that do not end or stop the task *)

Section Quiet.
Context (handler : Z → Z → sigstate → sigstate).

(** The handlers do not touch the signal structures. *)
Hypothesis handler_quiet : ∀ a k s,
  sig_pool (handler a k s) = sig_pool s ∧ ∀ t, task_signals (handler a k s) t = task_signals s t.

Definition deliverable (pending : Z) : list Z :=
  filter (λ sig, Z.testbit pending sig = true) (seqZ 1 (NSIG - 1)).

Definition harmless (x : signal_struct) (sig : Z) : Prop :=
  sa_handler (action_of x sig) ≠ SIG_DFL ∨ sig = SIGCHLD ∨ sig = SIGURG ∨ sig = SIGWINCH.

(** One signal: it stops being pending, and its handler, if any, is called. *)
Definition handle_one (g : Z) (s : sigstate) (sig : Z) : sigstate :=
  let x := signals_at s g in
  let s1 := put_signals g (set_pending (clear_bit (sig_pending x) sig) x) s in
  let h := sa_handler (action_of x sig) in
  if (h =? SIG_DFL) || (h =? SIG_IGN) then s1 else handler h sig s1.

Lemma handle_one_signals g s sig :
  signals_at (handle_one g s sig) g
  = set_pending (clear_bit (sig_pending (signals_at s g)) sig) (signals_at s g) ∧
  (∀ t, task_signals (handle_one g s sig) t = task_signals s t).
Proof.
  unfold handle_one. set (s1 := put_signals _ _ _).
  assert (signals_at s1 g = set_pending (clear_bit (sig_pending (signals_at s g)) sig) (signals_at s g)) as H1.
  { unfold s1. by rewrite signals_at_put, decide_True. }
  destruct (_ || _); [done|].
  destruct (handler_quiet (sa_handler (action_of (signals_at s g) sig)) sig s1) as [Hp Ht].
  split; [|intros t; by rewrite Ht]. unfold signals_at at 1. rewrite Hp. exact H1.
Qed.

Lemma dispose_harmless x sig s :
  harmless x sig →
  dispose handler (action_of x sig) sig s =
  Some (Continues (if (sa_handler (action_of x sig) =? SIG_DFL) || (sa_handler (action_of x sig) =? SIG_IGN)
                   then s else handler (sa_handler (action_of x sig)) sig s)).
Proof.
  intros Hh. unfold dispose. destruct (Z.eqb_spec (sa_handler (action_of x sig)) SIG_IGN) as [->|_]; [done|].
  rewrite orb_false_r. destruct (Z.eqb_spec (sa_handler (action_of x sig)) SIG_DFL); [|done].
  destruct Hh as [?|[->|[->| ->]]]; done.
Qed.

Lemma quiet_loop n sig pending t s g :
  task_signals s t = Some g →
  (∀ k, sig ≤ k < sig + Z.of_nat n → Z.testbit pending k = true → harmless (signals_at s g) k) →
  signal_loop handler n sig pending t s =
  Some (Continues (foldl (handle_one g) s (filter (λ k, Z.testbit pending k = true) (seqZ sig (Z.of_nat n)))),
        sig + Z.of_nat n).
Proof.
  revert sig s. induction n as [|n IH]; intros sig s Hg Hh; cbn [signal_loop].
  { by rewrite Z.add_0_r. }
  rewrite seqZ_cons by lia. replace (Z.pred (Z.of_nat (S n))) with (Z.of_nat n) by lia.
  replace (sig + Z.of_nat (S n)) with (Z.succ sig + Z.of_nat n) by lia. fold (Z.succ sig).
  destruct (Z.testbit pending sig) eqn:Eb; cbn [negb].
  2: { rewrite filter_cons_False by congruence. apply IH; [done|]. intros k ? ?. apply Hh; [lia|done]. }
  rewrite filter_cons_True by done. cbn [foldl]. rewrite Hg. cbn [mbind option_bind].
  assert (∀ p, action_of (signals_at (put_signals g (set_pending p (signals_at s g)) s) g) sig
               = action_of (signals_at s g) sig) as Hact.
  { intros p. by rewrite signals_at_put, decide_True. }
  rewrite Hact, dispose_harmless by (apply Hh; [lia|done]). cbn [mbind option_bind].
  destruct (handle_one_signals g s sig) as [H1 H2]. apply IH; [by rewrite <- Hg, <- H2|].
  intros k Hk Hb. fold (handle_one g s sig). rewrite H1. apply Hh; [lia|done].
Qed.

Lemma foldl_pending l s g :
  ∃ p, signals_at (foldl (handle_one g) s l) g = set_pending p (signals_at s g) ∧
    ∀ k, 0 ≤ k → Z.testbit p k = Z.testbit (sig_pending (signals_at s g)) k && negb (bool_decide (k ∈ l)).
Proof.
  revert s. induction l as [|sig l IH]; intros s; cbn [foldl].
  { exists (sig_pending (signals_at s g)). split; [by destruct (signals_at s g)|].
    intros k _. rewrite bool_decide_false by (by intros ?%elem_of_nil). by rewrite andb_true_r. }
  destruct (IH (handle_one g s sig)) as (p & E & Hp). destruct (handle_one_signals g s sig) as [H1 _].
  exists p. rewrite E, H1. split; [done|]. intros k Hk. rewrite (Hp k Hk), H1. cbn [sig_pending set_pending].
  unfold clear_bit. rewrite Z.ldiff_spec, Z.shiftl_spec by done.
  assert (Z.testbit 1 (k - sig) = bool_decide (k = sig)) as ->.
  { case_bool_decide; [subst; by rewrite Z.sub_diag|].
    destruct (Z.lt_trichotomy (k - sig) 0) as [?|[?|?]]; [by rewrite Z.testbit_neg_r|lia|].
    by apply (Z.bits_above_log2 1); [|cbn; lia]. }
  rewrite (bool_decide_ext _ _ (elem_of_cons l k sig)), bool_decide_or, negb_orb. by rewrite andb_assoc.
Qed.

(** When every unblocked pending signal of a task is ignored or has a
    handler, do_signal calls the handlers of exactly those signals, once each
    and in increasing order, and returns; afterwards the signals 1 to 31 that
    are pending are those that were pending and blocked, and the mask and the
    actions are as before. *)
Theorem do_signal_delivers t s g :
  task_signals s t = Some g →
  let x := signals_at s g in
  let p := Z.ldiff (sig_pending x) (sig_blocked x) in
  (∀ k, k ∈ deliverable p → harmless x k) →
  ∃ s', do_signal handler (Some t) s = Some (Continues s', NSIG) ∧
    s' = foldl (handle_one g) s (deliverable p) ∧
    sig_blocked (signals_at s' g) = sig_blocked x ∧ sig_actions (signals_at s' g) = sig_actions x ∧
    ∀ k, 1 ≤ k < NSIG →
      Z.testbit (sig_pending (signals_at s' g)) k =
      Z.testbit (sig_pending x) k && Z.testbit (sig_blocked x) k.
Proof.
  intros Hg x p Hh. exists (foldl (handle_one g) s (deliverable p)).
  destruct (foldl_pending (deliverable p) s g) as (q & E & Hq).
  rewrite E. split; [|split; [done|]].
  - unfold do_signal. rewrite Hg. fold x p. destruct (Z.eqb_spec p 0) as [->|_]; [done|].
    rewrite (quiet_loop _ _ _ _ _ g Hg); [done|]. intros k Hk Hb. apply Hh.
    apply list_elem_of_filter. split; [done|]. apply elem_of_seqZ. unfold NSIG in *. lia.
  - split; [done|]. split; [done|]. intros k Hk. cbn [sig_pending set_pending]. rewrite Hq by lia. fold x.
    assert (bool_decide (k ∈ deliverable p) = Z.testbit p k) as ->.
    { apply eq_bool_prop_intro. rewrite bool_decide_spec. unfold deliverable. rewrite list_elem_of_filter, elem_of_seqZ.
      destruct (Z.testbit p k); cbn; [|split; [by intros [? _]|done]].
      split; [done|]. intros _. split; [done|]. unfold NSIG in *. lia. }
    unfold p. rewrite Z.ldiff_spec. by destruct (Z.testbit (sig_pending x) k), (Z.testbit (sig_blocked x) k).
Qed.
End Quiet.

(** ** What the stop and wait paths do to the running task *)

Section Stop.
Context (kernel_pgd early_tables : Z).
Local Abbreviation sched_inv := (Sched.sched_inv kernel_pgd early_tables).

(** The running task is still the queue head when its state is changed, so
    schedule picks it again. *)
Lemma schedule_after_state_change st s l :
  sched_inv s l → rq_current s ≠ INIT →
  schedule (upd (rq_current s) (set_state st) s) = Some (upd (rq_current s) (set_state st) s).
Proof.
  intros Hc Ht. destruct (current_head _ _ _ _ Hc Ht) as [l' Hl].
  unfold schedule, pick_next_task. cbn [rq_head rq_current upd with_tasks].
  rewrite (rw_head _ _ (sc_rq _ _ _ _ Hc)), Hl. cbn [first_or]. by rewrite Z.eqb_refl.
Qed.

(** The default action of SIGSTOP marks the running task as stopped and goes
    on running it. *)
Lemma stop_keeps_running sig s l :
  sched_inv (sg_sched s) l → rq_current (sg_sched s) ≠ INIT →
  ∃ s', sig_default_stop sig s = Some (Continues s') ∧
    rq_current (sg_sched s') = rq_current (sg_sched s) ∧
    t_state (task_at (sg_sched s') (rq_current (sg_sched s))) = TASK_STOPPED.
Proof.
  intros Hc Ht. unfold sig_default_stop, get_current.
  rewrite (schedule_after_state_change TASK_STOPPED _ _ Hc Ht). cbn [mbind option_bind].
  cbn [rq_current upd with_tasks]. rewrite Z.eqb_refl. eexists. split; [reflexivity|]. split; [done|].
  cbn [sg_sched with_sched]. rewrite task_at_upd, decide_True; done.
Qed.

(** do_waitpid returns without any other task having run. *)
Lemma waitpid_does_not_wait pid options s l :
  sched_inv (sg_sched s) l → rq_current (sg_sched s) ≠ INIT →
  ∃ s', do_waitpid pid true options s = Some (s', Some 0, pid) ∧
    rq_current (sg_sched s') = rq_current (sg_sched s) ∧
    t_state (task_at (sg_sched s') (rq_current (sg_sched s))) = TASK_INTERRUPTIBLE.
Proof.
  intros Hc Ht. unfold do_waitpid, get_current.
  rewrite (schedule_after_state_change TASK_INTERRUPTIBLE _ _ Hc Ht). cbn [mbind option_bind].
  eexists. split; [reflexivity|]. split; [done|].
  cbn [sg_sched with_sched]. rewrite task_at_upd, decide_True; done.
Qed.
End Stop.

(** ** A concrete run *)

Definition demo_signals0 : sigstate := mk_sigstate demo_sched ∅ 0.
Definition demo_signals : sigstate := signal_init 0 demo_signals0.

Lemma demo_no_signals t : t_signals (task_at demo_sched t) = None.
Proof.
  destruct (decide (t ∈ [INIT; 0; 1])) as [Ht|Ht].
  - repeat (apply elem_of_cons in Ht as [->|Ht]; [vm_compute; reflexivity|]). by apply elem_of_nil in Ht.
  - unfold task_at. assert (tasks demo_sched !! t = None) as ->; [|done].
    assert (dom (tasks demo_sched) =@{gset Z} {[INIT; 0; 1]}) as Hd by (apply (bool_decide_unpack _); vm_compute; exact I).
    apply not_elem_of_dom. rewrite Hd. intros H. apply Ht.
    rewrite !elem_of_union, !elem_of_singleton in H. rewrite !elem_of_cons. tauto.
Qed.

Lemma fresh_signals_inv c :
  (∀ t, t_signals (task_at c t) = None) → sig_inv (mk_sigstate c ∅ 0).
Proof.
  intros Hc. split.
  - cbn. unfold SIG_POOL. lia.
  - intros t g. unfold task_signals. cbn [sg_sched]. by rewrite Hc.
  - intros t u g. unfold task_signals. cbn [sg_sched]. by rewrite Hc.
  - intros g. unfold signals_at. cbn [sig_pool]. rewrite lookup_empty. by split.
Qed.

Lemma demo_signals0_inv : sig_inv demo_signals0.
Proof. exact (fresh_signals_inv demo_sched demo_no_signals). Qed.

Lemma signal_init_sched kp et t c l :
  sched_inv kp et c l → t_signals (task_at c t) = None →
  sched_inv kp et (sg_sched (signal_init t (mk_sigstate c ∅ 0))) l ∧
  rq_current (sg_sched (signal_init t (mk_sigstate c ∅ 0))) = rq_current c.
Proof.
  intros Hc Ht. unfold signal_init, task_signals. cbn [sg_sched]. rewrite Ht. cbn [sig_pool_idx].
  split; [|done]. change (0 <? SIG_POOL) with true. cbn [sg_sched put_signals].
  apply inv_upd; [exact Hc|]. do 4 (split; [reflexivity|]). split; [|intros H; exact H].
  apply (sc_mm _ _ _ _ Hc).
Qed.

Lemma demo_signals_sched :
  sched_inv demo_pgd demo_early (sg_sched demo_signals) [0; 1] ∧ rq_current (sg_sched demo_signals) = 0.
Proof.
  destruct (signal_init_sched demo_pgd demo_early 0 demo_sched [0; 1] demo_sched_inv (demo_no_signals 0))
    as [H1 _].
  split; [exact H1|vm_compute; reflexivity].
Qed.

(** SIGHUP is ignored and SIGKILL pending. *)
Definition demo_killed : sigstate :=
  put_signals 0 (mk_signals (Z.lor (Z.shiftl 1 1) (Z.shiftl 1 SIGKILL)) 0
    (<[1%nat := mk_sigaction SIG_IGN 0 0 0]> (sig_actions (signals_at demo_signals 0)))) demo_signals.

Lemma demo_killed_inv : sig_inv demo_killed.
Proof.
  apply put_inv; [apply signal_init_inv, demo_signals0_inv|]. split; vm_compute; reflexivity.
Qed.

Lemma sigkill_terminates_witness :
  ∃ s' k, do_signal (λ _ _ s, s) (Some 0) demo_killed = Some (Exited s', k + 1) ∧
    t_state (task_at (sg_sched s') 0) = TASK_ZOMBIE.
Proof.
  destruct demo_signals_sched as [Hc Hcur].
  destruct (sigkill_terminates demo_pgd demo_early (λ _ _ s, s) demo_killed [0; 1] 0)
    as (s' & k & E & _ & Hz & _).
  - intros a k s. constructor.
  - exact demo_killed_inv.
  - exact Hc.
  - change (rq_current (sg_sched demo_signals) ≠ INIT). rewrite Hcur. discriminate.
  - vm_compute. reflexivity.
  - vm_compute. reflexivity.
  - change (rq_current (sg_sched demo_killed)) with (rq_current (sg_sched demo_signals)) in *.
    rewrite Hcur in E, Hz. exists s', k. split; [exact E|exact Hz].
Defined.

(** SIGUSR1 and SIGUSR2 have a handler, SIGUSR2 is blocked, SIGCHLD is left to
    its default. *)
Definition demo_pending : sigstate :=
  put_signals 0 (mk_signals (Z.lor (Z.shiftl 1 10) (Z.lor (Z.shiftl 1 12) (Z.shiftl 1 17))) (Z.shiftl 1 12)
    (<[10%nat := mk_sigaction 0x5000 0 0 0]> (<[12%nat := mk_sigaction 0x5000 0 0 0]>
       (sig_actions (signals_at demo_signals 0))))) demo_signals.

Lemma do_signal_delivers_witness :
  ∃ s', do_signal (λ _ _ s, s) (Some 0) demo_pending = Some (Continues s', NSIG) ∧
    Z.testbit (sig_pending (signals_at s' 0)) 10 = false ∧
    Z.testbit (sig_pending (signals_at s' 0)) 12 = true.
Proof.
  destruct (do_signal_delivers (λ _ _ s, s) (λ _ _ s, conj eq_refl (λ t, eq_refl)) 0 demo_pending 0)
    as (s' & E & _ & _ & _ & Hp).
  - vm_compute. reflexivity.
  - intros k Hk. assert (deliverable (Z.ldiff (sig_pending (signals_at demo_pending 0))
      (sig_blocked (signals_at demo_pending 0))) = [10; 17]) as Hd by (vm_compute; reflexivity).
    rewrite Hd in Hk. apply elem_of_cons in Hk as [->|Hk].
    + left. vm_compute. discriminate.
    + right. left. by apply list_elem_of_singleton in Hk.
  - exists s'. split; [exact E|].
    assert (1 ≤ 10 < NSIG) as H10 by (unfold NSIG; lia). assert (1 ≤ 12 < NSIG) as H12 by (unfold NSIG; lia).
    split; [etransitivity; [exact (Hp 10 H10)|]|etransitivity; [exact (Hp 12 H12)|]]; vm_compute; reflexivity.
Defined.

(** sched_kill_task records the SIGKILL in a field that do_signal does not
    read: the killed task goes on. *)
Lemma sched_kill_not_delivered :
  (r ← sched_kill_task 1 (sg_sched demo_signals);
   let s := with_sched (fst r) demo_signals in
   o ← do_signal (λ _ _ s, s) (Some 0) s;
   match fst o with
   | Continues s' => Some (snd r, t_pending_signals (task_at (sg_sched s') 0), t_state (task_at (sg_sched s') 0))
   | _ => None
   end) = Some (0, Z.shiftl 1 SIGKILL, TASK_RUNNING).
Proof. vm_compute. reflexivity. Qed.
