(* ===== verification/Elf.v ===== *)
(** * kernel/loader/elf.c

    The file is a list of bytes; [rd n off data] is the little-endian read of
    [n] bytes at an offset, [None] outside the buffer, where the code would
    read past it.  Memory is a map from addresses to bytes; an address without
    entry reads as 0, and every address can be written, as in the kernel's
    identity mapping.  The functions return [None] for a read outside the
    file, a division by zero, or fuel that runs out. *)

From S2P Require Import Prelude.

(** ** Memory and little-endian numbers *)

Abbreviation mem := (gmap Z Z).

Definition peek (m : mem) (a : Z) : Z := default 0 (m !! a).

Fixpoint le (l : list Z) : Z :=
  match l with
  | [] => 0
  | b :: l' => b + 256 * le l'
  end.

(** The [n] low bytes of a number. *)
Fixpoint le_bytes (n : nat) (x : Z) : list Z :=
  match n with
  | O => []
  | S n' => x `mod` 256 :: le_bytes n' (x / 256)
  end.

Definition rd (n : nat) (off : Z) (data : list Z) : option Z :=
  if (0 <=? off) && (off + Z.of_nat n <=? Z.of_nat (length data))
  then Some (le (take n (drop (Z.to_nat off) data))) else None.

Definition peeks (n : nat) (a : Z) (m : mem) : Z :=
  le ((λ i, peek m (u64 (a + i))) <$> seqZ 0 (Z.of_nat n)).

(** ** Constants *)

Definition EHDR_SIZE : Z := 64.
Definition RELA_SIZE : Z := 24.
Definition ELFCLASS64 : Z := 2.
Definition ELFDATA2LSB : Z := 1.
Definition EM_AARCH64 : Z := 183.
Definition ET_EXEC : Z := 2.
Definition ET_DYN : Z := 3.
Definition PT_LOAD : Z := 1.
Definition PT_DYNAMIC : Z := 2.
Definition DT_NULL : Z := 0.
Definition DT_RELA : Z := 7.
Definition DT_RELASZ : Z := 8.
Definition DT_RELAENT : Z := 9.
Definition R_AARCH64_RELATIVE : Z := 0x403.

Record elf_load_info := mk_info {
  info_entry : Z;
  info_load_base : Z;
  info_load_size : Z
}.

(** ** Copying *)

(** [while (n--) *d++ = *s++;], the source given by its bytes. *)
Fixpoint elf_memcpy (dest : Z) (src : list Z) (m : mem) : mem :=
  match src with
  | [] => m
  | b :: src' => elf_memcpy (u64 (dest + 1)) src' (<[dest := b]> m)
  end.

Fixpoint elf_memset (n : nat) (p c : Z) (m : mem) : mem :=
  match n with
  | O => m
  | S n' => elf_memset n' (u64 (p + 1)) c (<[p := u8 c]> m)
  end.

(** ** The memory of the kernel

    A program's memory is told apart from the memory in which the kernel keeps
    its own data; the models of the callers stop ([None]) at an access of the
    code to the ranges [K] of the latter, because what follows is then not
    determined by the program's memory. *)

(** No byte of the [n] bytes at [a] is the kernel's, and they do not wrap
    around the end of the address space. *)
Definition apart (K : list (Z * Z)) (a n : Z) : bool :=
  (n <=? 0) || ((a + n <=? 2 ^ 64) && forallb (λ '(lo, hi), (hi <=? a) || (a + n <=? lo)) K).

(** The bytes that make the difference between two memories are none of the
    kernel's. *)
Definition image_apart (K : list (Z * Z)) (m m' : mem) : bool :=
  bool_decide (map_Forall (λ a x, m !! a = Some x ∨ apart K a 1 = true) m').

Lemma apart_le K a n k : apart K a n = true → k ≤ n → apart K a k = true.
Proof.
  unfold apart. intros H Hk. destruct (Z.leb_spec k 0); [done|]. destruct (Z.leb_spec n 0); [lia|]. cbn [orb] in *.
  apply andb_true_iff in H as [Hend Hall]. apply andb_true_iff. split; [lia|].
  rewrite forallb_forall in Hall |- *. intros [lo hi] Hin. specialize (Hall _ Hin). cbn in Hall |- *. lia.
Qed.

Lemma apart_inside K a n b : apart K a n = true → a ≤ b < a + n → apart K b 1 = true.
Proof.
  unfold apart. intros H Hb. destruct (Z.leb_spec 1 0); [lia|]. destruct (Z.leb_spec n 0); [lia|]. cbn [orb] in *.
  apply andb_true_iff in H as [Hend Hall]. apply andb_true_iff. split; [lia|].
  rewrite forallb_forall in Hall |- *. intros [lo hi] Hin. specialize (Hall _ Hin). cbn in Hall |- *. lia.
Qed.

(** ** Header *)

Definition e_ident (i : Z) (data : list Z) : option Z := rd 1 i data.
Definition e_type (data : list Z) : option Z := rd 2 16 data.
Definition e_machine (data : list Z) : option Z := rd 2 18 data.
Definition e_entry (data : list Z) : option Z := rd 8 24 data.
Definition e_phoff (data : list Z) : option Z := rd 8 32 data.
Definition e_phentsize (data : list Z) : option Z := rd 2 54 data.
Definition e_phnum (data : list Z) : option Z := rd 2 56 data.

Definition elf_validate (data : list Z) (size : Z) : option Z :=
  if size <? EHDR_SIZE then Some (-1)
  else
    m0 ← e_ident 0 data; m1 ← e_ident 1 data; m2 ← e_ident 2 data; m3 ← e_ident 3 data;
    if negb (m0 =? 0x7F) || negb (m1 =? 69) || negb (m2 =? 76) || negb (m3 =? 70) then Some (-2)
    else
      c ← e_ident 4 data;
      if negb (c =? ELFCLASS64) then Some (-3)
      else
        d ← e_ident 5 data;
        if negb (d =? ELFDATA2LSB) then Some (-4)
        else
          mc ← e_machine data;
          if negb (mc =? EM_AARCH64) then Some (-5)
          else
            t ← e_type data;
            if negb (t =? ET_EXEC) && negb (t =? ET_DYN) then Some (-6) else Some 0.

Definition elf_entry (data : list Z) : option Z := e_entry data.

(** [base + ehdr->e_phoff + i * ehdr->e_phentsize], as an offset from [base];
    the product is an [int]. *)
Definition phdr_off (phoff phentsize i : Z) : Z := u64 (phoff + i32 (i * phentsize)).

Definition p_type (off : Z) (data : list Z) : option Z := rd 4 off data.
Definition p_offset (off : Z) (data : list Z) : option Z := rd 8 (off + 8) data.
Definition p_vaddr (off : Z) (data : list Z) : option Z := rd 8 (off + 16) data.
Definition p_filesz (off : Z) (data : list Z) : option Z := rd 8 (off + 32) data.
Definition p_memsz (off : Z) (data : list Z) : option Z := rd 8 (off + 40) data.

(** The loop of elf_calc_size, [n] iterations from [i]. *)
Fixpoint calc_bounds (n : nat) (i phoff phentsize : Z) (data : list Z) (min_addr max_addr : Z)
  : option (Z * Z) :=
  match n with
  | O => Some (min_addr, max_addr)
  | S n' =>
      let off := phdr_off phoff phentsize i in
      ty ← p_type off data;
      if negb (ty =? PT_LOAD) then calc_bounds n' (i + 1) phoff phentsize data min_addr max_addr
      else
        va ← p_vaddr off data; msz ← p_memsz off data;
        let min_addr := if va <? min_addr then va else min_addr in
        let e := u64 (va + msz) in
        let max_addr := if max_addr <? e then e else max_addr in
        calc_bounds n' (i + 1) phoff phentsize data min_addr max_addr
  end.

Definition elf_calc_size (data : list Z) (size : Z) : option Z :=
  valid ← elf_validate data size;
  if negb (valid =? 0) then Some 0
  else
    phnum ← e_phnum data; phoff ← e_phoff data; phentsize ← e_phentsize data;
    r ← calc_bounds (Z.to_nat phnum) 0 phoff phentsize data (2 ^ 64 - 1) 0;
    let '(min_addr, max_addr) := r in
    if max_addr <=? min_addr then Some 0 else Some (max_addr - min_addr).

(** ** Relocations *)

Definition d_tag (dyn : Z) (m : mem) : Z := i64 (peeks 8 dyn m).
Definition d_val (dyn : Z) (m : mem) : Z := peeks 8 (u64 (dyn + 8)) m.

(** The scan of the dynamic section; the result is the three values found. *)
Fixpoint scan_dynamic (fuel : nat) (dyn : Z) (m : mem) (rela_addr rela_size rela_ent : Z)
  : option (Z * Z * Z) :=
  match fuel with
  | O => None
  | S fuel' =>
      let tag := d_tag dyn m in
      if tag =? DT_NULL then Some (rela_addr, rela_size, rela_ent)
      else
        let v := d_val dyn m in
        scan_dynamic fuel' (u64 (dyn + 16)) m
          (if tag =? DT_RELA then v else rela_addr)
          (if tag =? DT_RELASZ then v else rela_size)
          (if tag =? DT_RELAENT then v else rela_ent)
  end.

Definition poke64 (a x : Z) (m : mem) : mem := elf_memcpy a (le_bytes 8 x) m.

(** The loop over [rela[i]], [n] iterations from [i]. *)
Fixpoint relocate (n : nat) (i load_base rela : Z) (m : mem) : mem :=
  match n with
  | O => m
  | S n' =>
      let r := u64 (rela + RELA_SIZE * i) in
      let offset := peeks 8 r m in
      let type := Z.land (peeks 8 (u64 (r + 8)) m) 0xFFFFFFFF in
      let addend := i64 (peeks 8 (u64 (r + 16)) m) in
      let m := if type =? R_AARCH64_RELATIVE
               then poke64 (u64 (load_base + offset)) (u64 (load_base + addend)) m else m in
      relocate n' (i + 1) load_base rela m
  end.

Definition elf_process_relocations (fuel : nat) (load_base dynamic : Z) (m : mem) : option mem :=
  r ← scan_dynamic fuel dynamic m 0 0 RELA_SIZE;
  let '(rela_addr, rela_size, rela_ent) := r in
  if (rela_addr =? 0) || (rela_size =? 0) then Some m
  else if rela_ent =? 0 then None
  else
    let rela := u64 (load_base + rela_addr) in
    let num_relas := i32 (rela_size / rela_ent) in
    Some (relocate (Z.to_nat num_relas) 0 load_base rela m).

(** ** Loading *)

(** The bytes of the file a segment is copied from. *)
Definition file_bytes (off n : Z) (data : list Z) : option (list Z) :=
  if (0 <=? off) && (off + n <=? Z.of_nat (length data))
  then Some (take (Z.to_nat n) (drop (Z.to_nat off) data)) else None.

(** The loop over the program headers, [n] iterations from [i]; the second
    result is [None] where the code returns -1. *)
Fixpoint load_segments (n : nat) (i : Z) (data : list Z) (size phoff phentsize load_base : Z)
    (is_pie : bool) (total_size : Z) (dynamic : option Z) (m : mem)
  : option (mem * option (Z * option Z)) :=
  match n with
  | O => Some (m, Some (total_size, dynamic))
  | S n' =>
      if size <? u64 (phoff + i32 ((i + 1) * phentsize)) then Some (m, None)
      else
        let off := phdr_off phoff phentsize i in
        ty ← p_type off data;
        if ty =? PT_DYNAMIC then
          va ← p_vaddr off data;
          load_segments n' (i + 1) data size phoff phentsize load_base is_pie total_size
            (Some (u64 (load_base + va))) m
        else if negb (ty =? PT_LOAD) then
          load_segments n' (i + 1) data size phoff phentsize load_base is_pie total_size dynamic m
        else
          po ← p_offset off data; fsz ← p_filesz off data;
          if (size <? po) || (size - po <? fsz) then Some (m, None)
          else
            va ← p_vaddr off data; msz ← p_memsz off data;
            let dest := if is_pie then u64 (load_base + va) else va in
            src ← file_bytes po fsz data;
            let m := if 0 <? fsz then elf_memcpy dest src m else m in
            let m := if fsz <? msz
                     then elf_memset (Z.to_nat (msz - fsz)) (u64 (dest + fsz)) 0 m else m in
            let seg_end := u64 (va + msz) in
            let total_size := if total_size <? seg_end then seg_end else total_size in
            load_segments n' (i + 1) data size phoff phentsize load_base is_pie total_size dynamic m
  end.

(** A null dynamic pointer counts as none.  The dump of the first instructions
    only reads. *)
Definition elf_load_at (fuel : nat) (data : list Z) (size load_base : Z) (m : mem)
  : option (mem * option elf_load_info) :=
  valid ← elf_validate data size;
  if negb (valid =? 0) then Some (m, None)
  else
    ty ← e_type data; phnum ← e_phnum data; phoff ← e_phoff data; phentsize ← e_phentsize data;
    let is_pie := ty =? ET_DYN in
    r ← load_segments (Z.to_nat phnum) 0 data size phoff phentsize load_base is_pie 0 None m;
    match r with
    | (m, None) => Some (m, None)
    | (m, Some (total_size, dynamic)) =>
        m ← match dynamic with
            | Some d => if is_pie && negb (d =? 0) then elf_process_relocations fuel load_base d m else Some m
            | None => Some m
            end;
        ent ← e_entry data;
        let entry := if is_pie then u64 (load_base + ent) else ent in
        Some (m, Some (mk_info entry load_base total_size))
    end.

(** ** Reading and writing bytes *)

Lemma rd_some n off data :
  0 ≤ off → off + Z.of_nat n ≤ Z.of_nat (length data) →
  rd n off data = Some (le (take n (drop (Z.to_nat off) data))).
Proof.
  intros H1 H2. unfold rd. destruct (Z.leb_spec 0 off), (Z.leb_spec (off + Z.of_nat n) (Z.of_nat (length data))); lia || done.
Qed.

Lemma rd_in n off data x :
  rd n off data = Some x → 0 ≤ off ∧ off + Z.of_nat n ≤ Z.of_nat (length data).
Proof. unfold rd. destruct (_ && _) eqn:E; [|done]. zbool. done. Qed.

Lemma le_bound l : Forall is_byte l → 0 ≤ le l < 256 ^ Z.of_nat (length l).
Proof.
  unfold is_byte. induction 1 as [|b l Hb _ IH]; cbn [le length]; [done|].
  rewrite Nat2Z.inj_succ, Z.pow_succ_r by lia. lia.
Qed.

Lemma rd_bound n off data x :
  Forall is_byte data → rd n off data = Some x → 0 ≤ x < 256 ^ Z.of_nat n.
Proof.
  intros Hd H. destruct (rd_in _ _ _ _ H) as [? ?]. rewrite rd_some in H by lia. injection H as <-.
  replace n with (length (take n (drop (Z.to_nat off) data))) at 3.
  - apply le_bound, Forall_take, Forall_drop, Hd.
  - rewrite length_take, length_drop. lia.
Qed.

Lemma peek_memcpy src dest m a :
  0 ≤ dest → dest + Z.of_nat (length src) ≤ 2 ^ 64 →
  peek (elf_memcpy dest src m) a =
  if decide (dest ≤ a < dest + Z.of_nat (length src)) then nth (Z.to_nat (a - dest)) src 0 else peek m a.
Proof.
  revert dest m. induction src as [|b src IH]; intros dest m H0 Hd; cbn [elf_memcpy length] in *.
  { rewrite decide_False by lia. done. }
  assert (peek (<[dest:=b]> m) a = if decide (a = dest) then b else peek m a) as Hp.
  { unfold peek. rewrite lookup_insert. repeat case_decide; congruence || done. }
  destruct src as [|c src].
  { cbn [elf_memcpy]. rewrite Hp. cbn [length]. repeat case_decide; try lia; try done.
    subst. by rewrite Z.sub_diag. }
  rewrite u64_small by (cbn [length] in Hd; lia). rewrite IH by (cbn [length] in *; lia).
  rewrite Hp. cbn [length] in *. repeat case_decide; try lia; try done.
  - subst. by rewrite Z.sub_diag.
  - replace (Z.to_nat (a - dest)) with (S (Z.to_nat (a - (dest + 1)))) by lia. done.
Qed.

Lemma memset_memcpy n p c m : elf_memset n p c m = elf_memcpy p (replicate n (u8 c)) m.
Proof. revert p m. induction n as [|n IH]; intros p m; cbn; [done|apply IH]. Qed.

Lemma peek_memset n p c m a :
  0 ≤ p → p + Z.of_nat n ≤ 2 ^ 64 →
  peek (elf_memset n p c m) a = if decide (p ≤ a < p + Z.of_nat n) then u8 c else peek m a.
Proof.
  intros H0 Hp. rewrite memset_memcpy, peek_memcpy by (rewrite ?length_replicate; lia).
  rewrite length_replicate. case_decide; [|done]. rewrite nth_lookup, lookup_replicate_2 by lia. done.
Qed.

Lemma le_bytes_length n x : length (le_bytes n x) = n.
Proof. revert x. induction n; intros; cbn; congruence. Qed.

Lemma le_le_bytes n x : 0 ≤ x < 256 ^ Z.of_nat n → le (le_bytes n x) = x.
Proof.
  revert x. induction n as [|n IH]; intros x Hx; cbn [le_bytes le].
  { change (256 ^ Z.of_nat 0) with 1 in Hx. lia. }
  rewrite Nat2Z.inj_succ, Z.pow_succ_r in Hx by lia. rewrite IH.
  - pose proof (Z.div_mod x 256). lia.
  - split; [apply Z.div_pos; lia|]. apply Z.div_lt_upper_bound; lia.
Qed.

Lemma take_memcpy n src dest m :
  0 ≤ dest → dest + Z.of_nat (length src) ≤ 2 ^ 64 → n = length src →
  (λ i, peek (elf_memcpy dest src m) (u64 (dest + i))) <$> seqZ 0 (Z.of_nat n) = src.
Proof.
  intros H0 Hd ->. apply list_eq. intros i. rewrite list_lookup_fmap.
  destruct (decide (i < length src)%nat) as [Hi|Hi].
  - rewrite lookup_seqZ_lt by lia. cbn. rewrite u64_small by lia.
    rewrite peek_memcpy, decide_True by lia. replace (Z.to_nat (dest + (0 + Z.of_nat i) - dest)) with i by lia.
    rewrite nth_lookup. destruct (lookup_lt_is_Some_2 src i Hi) as [x ->]. done.
  - rewrite lookup_seqZ_ge by lia. cbn. symmetry. apply lookup_ge_None. lia.
Qed.

(** A stored word reads back, and a word elsewhere is not changed. *)
Lemma peeks_poke64 a x m : 0 ≤ a → a + 8 ≤ 2 ^ 64 → 0 ≤ x < 2 ^ 64 → peeks 8 a (poke64 a x m) = x.
Proof.
  intros Ha Ha' Hx. unfold peeks, poke64. rewrite take_memcpy.
  - apply le_le_bytes. done.
  - done.
  - by rewrite le_bytes_length.
  - by rewrite le_bytes_length.
Qed.

Lemma peek_poke64 a x m b :
  0 ≤ a → a + 8 ≤ 2 ^ 64 → ¬ (a ≤ b < a + 8) → peek (poke64 a x m) b = peek m b.
Proof.
  intros. unfold poke64. rewrite peek_memcpy by (rewrite ?le_bytes_length; lia).
  rewrite le_bytes_length, decide_False by lia. done.
Qed.

Lemma peeks_ext n a m m' :
  (∀ i, 0 ≤ i < Z.of_nat n → peek m (u64 (a + i)) = peek m' (u64 (a + i))) → peeks n a m = peeks n a m'.
Proof.
  intros H. unfold peeks. f_equal. apply list_fmap_ext. intros k i Hi.
  apply lookup_seqZ in Hi. apply H. lia.
Qed.

(** ** Reads stay inside the file *)

Lemma i32_product i phentsize size :
  0 ≤ i * phentsize ≤ size → size < 2 ^ 30 → i32 (i * phentsize) = i * phentsize.
Proof. intros. apply i32_small. lia. Qed.

Section Reads.
Context (data : list Z) (size phoff phentsize load_base : Z) (is_pie : bool).
Hypothesis size_data : Z.of_nat (length data) = size.
Hypothesis size_small : size < 2 ^ 30.
Hypothesis data_bytes : Forall is_byte data.
Hypothesis phoff_small : 0 ≤ phoff < 2 ^ 63.
Hypothesis phentsize_range : 56 ≤ phentsize < 2 ^ 16.

(** When the check of header [i] passes, the header lies in the file. *)
Lemma header_in_file i :
  0 ≤ i → i * phentsize ≤ size → ¬ size < u64 (phoff + i32 ((i + 1) * phentsize)) →
  phdr_off phoff phentsize i = phoff + i * phentsize ∧ phoff + (i + 1) * phentsize ≤ size.
Proof.
  intros Hi Hs Hc. assert (0 ≤ i * phentsize) by nia.
  assert ((i + 1) * phentsize = i * phentsize + phentsize) as Heq by lia.
  rewrite i32_small in Hc by lia. rewrite u64_small in Hc by lia.
  unfold phdr_off. rewrite (i32_product _ _ size) by lia. rewrite u64_small by lia. lia.
Qed.

Lemma load_segments_reads n i total dynamic m :
  0 ≤ i → i * phentsize ≤ size →
  is_Some (load_segments n i data size phoff phentsize load_base is_pie total dynamic m).
Proof.
  revert i total dynamic m. induction n as [|n IH]; intros i total dynamic m Hi Hs; cbn [load_segments]; [by eexists|].
  destruct (Z.ltb_spec size (u64 (phoff + i32 ((i + 1) * phentsize)))) as [?|Hc]; [by eexists|].
  destruct (header_in_file i Hi Hs ltac:(lia)) as [-> Hin]. unfold p_type, p_vaddr, p_offset, p_filesz, p_memsz.
  assert (0 ≤ i * phentsize) by nia.
  rewrite !rd_some by lia. cbn [mbind option_bind].
  destruct (_ =? PT_DYNAMIC); [apply IH; lia|]. destruct (negb _); [apply IH; lia|].
  set (po := le (take 8 (drop (Z.to_nat (_ + 8)) data))). set (fsz := le (take 8 (drop (Z.to_nat (_ + 32)) data))).
  assert (0 ≤ po) by (apply le_bound, Forall_take, Forall_drop, data_bytes).
  destruct (Z.ltb_spec size po), (Z.ltb_spec (size - po) fsz); cbn [orb]; try by eexists.
  unfold file_bytes. destruct (Z.leb_spec 0 po); [|lia].
  destruct (Z.leb_spec (po + fsz) (Z.of_nat (length data))); [|lia]. cbn [andb mbind option_bind]. apply IH; lia.
Qed.
End Reads.

Lemma validate_some data : is_Some (elf_validate data (Z.of_nat (length data))).
Proof.
  unfold elf_validate. destruct (Z.ltb_spec (Z.of_nat (length data)) EHDR_SIZE) as [?|Hs]; [by eexists|].
  unfold EHDR_SIZE in Hs. unfold e_ident, e_machine, e_type.
  rewrite !rd_some by lia. cbn [mbind option_bind]. repeat case_match; eauto.
Qed.

Lemma validate_size data size : elf_validate data size = Some 0 → EHDR_SIZE ≤ size.
Proof. unfold elf_validate. destruct (Z.ltb_spec size EHDR_SIZE); [done|lia]. Qed.

(** Whatever the contents of the file, loading it reads nothing outside
    the buffer, as long as the header size is that of a program header and the
    table offset does not wrap around: it returns, with an error or with the
    loaded image, unless the relocation of a PIE image fails. *)
Theorem elf_load_at_in_bounds fuel data load_base m :
  Forall is_byte data → Z.of_nat (length data) < 2 ^ 30 →
  (∀ x, e_phoff data = Some x → x < 2 ^ 63) → (∀ x, e_phentsize data = Some x → 56 ≤ x) →
  is_Some (elf_load_at fuel data (Z.of_nat (length data)) load_base m) ∨
  (e_type data = Some ET_DYN ∧ ∃ d m', elf_process_relocations fuel load_base d m' = None).
Proof.
  intros Hb Hs Ho He. unfold elf_load_at. destruct (validate_some data) as [v Ev]. rewrite Ev. cbn [mbind option_bind].
  destruct (Z.eqb_spec v 0) as [->|]; cbn [negb]; [|left; by eexists].
  pose proof (validate_size _ _ Ev) as Hsz. unfold EHDR_SIZE in Hsz.
  destruct (e_type data) as [ty|] eqn:Et; [|unfold e_type in Et; by rewrite rd_some in Et by lia].
  destruct (e_phnum data) as [pn|] eqn:Epn; [|unfold e_phnum in Epn; by rewrite rd_some in Epn by lia].
  destruct (e_phoff data) as [po|] eqn:Epo; [|unfold e_phoff in Epo; by rewrite rd_some in Epo by lia].
  destruct (e_phentsize data) as [ps|] eqn:Eps; [|unfold e_phentsize in Eps; by rewrite rd_some in Eps by lia].
  destruct (e_entry data) as [en|] eqn:Een; [|unfold e_entry in Een; by rewrite rd_some in Een by lia].
  cbn [mbind option_bind].
  pose proof (rd_bound _ _ _ _ Hb Epo). pose proof (rd_bound _ _ _ _ Hb Eps) as Hps. cbn in Hps.
  pose proof (Ho _ eq_refl). pose proof (He _ eq_refl).
  destruct (load_segments_reads data (Z.of_nat (length data)) po ps load_base (ty =? ET_DYN) eq_refl Hs Hb
    ltac:(lia) ltac:(lia) (Z.to_nat pn) 0 0 None m) as [[m1 [[tot dyn]|]] ->]; [lia|lia| |left; by eexists].
  cbn [mbind option_bind]. destruct dyn as [d|]; [|left; by eexists].
  destruct (Z.eqb_spec ty ET_DYN) as [->|]; cbn [andb]; [|left; by eexists].
  destruct (negb _); [|left; by eexists].
  destruct (elf_process_relocations fuel load_base d m1) eqn:Er; [left; by eexists|]. right. eauto.
Qed.

(** ** The loaded image *)

(** The fields of a program header the loader uses. *)
Record phdr := mk_phdr {
  ph_type : Z;
  ph_offset : Z;
  ph_vaddr : Z;
  ph_filesz : Z;
  ph_memsz : Z
}.

Definition read_phdr (off : Z) (data : list Z) : option phdr :=
  ty ← p_type off data; po ← p_offset off data; va ← p_vaddr off data;
  fsz ← p_filesz off data; msz ← p_memsz off data;
  Some (mk_phdr ty po va fsz msz).

(** The program headers [i .. i + n - 1] of a table. *)
Fixpoint read_phdrs (n : nat) (i phoff phentsize : Z) (data : list Z) : option (list phdr) :=
  match n with
  | O => Some []
  | S n' =>
      h ← read_phdr (phoff + i * phentsize) data;
      hs ← read_phdrs n' (i + 1) phoff phentsize data;
      Some (h :: hs)
  end.

Section Image.
Context (data : list Z) (load_base : Z) (is_pie : bool).

Definition seg_dest (h : phdr) : Z := if is_pie then load_base + ph_vaddr h else ph_vaddr h.

(** A segment that lies in the file and in the address space. *)
Record seg_ok (h : phdr) : Prop := {
  sg_file : 0 ≤ ph_offset h ∧ ph_offset h + ph_filesz h ≤ Z.of_nat (length data);
  sg_size : 0 ≤ ph_filesz h ≤ ph_memsz h;
  sg_end : 0 ≤ ph_vaddr h ∧ ph_vaddr h + ph_memsz h < 2 ^ 64;
  sg_dest : 0 ≤ seg_dest h ∧ seg_dest h + ph_memsz h < 2 ^ 64
}.

Definition seg_byte (h : phdr) (k : Z) : Z :=
  if decide (k < ph_filesz h) then nth (Z.to_nat (ph_offset h + k)) data 0 else 0.

Definition in_seg (h : phdr) (a : Z) : Prop := seg_dest h ≤ a < seg_dest h + ph_memsz h.

#[local] Instance in_seg_dec h a : Decision (in_seg h a).
Proof. unfold in_seg. apply _. Defined.

Definition load_one (m : mem) (h : phdr) : mem :=
  if ph_type h =? PT_LOAD then
    let m := if 0 <? ph_filesz h
             then elf_memcpy (seg_dest h) (take (Z.to_nat (ph_filesz h)) (drop (Z.to_nat (ph_offset h)) data)) m
             else m in
    if ph_filesz h <? ph_memsz h
    then elf_memset (Z.to_nat (ph_memsz h - ph_filesz h)) (seg_dest h + ph_filesz h) 0 m else m
  else m.

Lemma peek_load_one m h a :
  ph_type h = PT_LOAD → seg_ok h →
  peek (load_one m h) a = if decide (in_seg h a) then seg_byte h (a - seg_dest h) else peek m a.
Proof.
  intros Hty [Hf Hs _ Hd]. unfold load_one. rewrite Hty, Z.eqb_refl. unfold in_seg.
  set (src := take _ _). assert (Z.of_nat (length src) = ph_filesz h) as Hl.
  { unfold src. rewrite length_take, length_drop. lia. }
  set (m1 := if 0 <? ph_filesz h then _ else m).
  assert (peek m1 a = if decide (seg_dest h ≤ a < seg_dest h + ph_filesz h)
                      then seg_byte h (a - seg_dest h) else peek m a) as H1.
  { unfold m1. destruct (Z.ltb_spec 0 (ph_filesz h)); [|by rewrite decide_False by lia].
    rewrite peek_memcpy, Hl by lia. case_decide; [|done]. unfold seg_byte. rewrite decide_True by lia.
    unfold src. rewrite !nth_lookup, lookup_take_lt, lookup_drop by lia. do 2 f_equal. lia. }
  destruct (Z.ltb_spec (ph_filesz h) (ph_memsz h)).
  - rewrite peek_memset by lia. rewrite H1. repeat case_decide; try lia; try done.
    unfold seg_byte. by rewrite decide_False by lia.
  - rewrite H1. repeat case_decide; try lia; done.
Qed.

Lemma load_one_other m h : ph_type h ≠ PT_LOAD → load_one m h = m.
Proof. intros H. unfold load_one. by rewrite (proj2 (Z.eqb_neq _ _) H). Qed.

(** Segments loaded later do not disturb earlier ones they do not overlap. *)
Definition disjoint_segs (hs : list phdr) : Prop :=
  ∀ i j h h' a, hs !! i = Some h → hs !! j = Some h' → i ≠ j →
    ph_type h = PT_LOAD → ph_type h' = PT_LOAD → in_seg h a → ¬ in_seg h' a.

Lemma peek_outside hs m a :
  Forall (λ h, ph_type h = PT_LOAD → seg_ok h ∧ ¬ in_seg h a) hs → peek (foldl load_one m hs) a = peek m a.
Proof.
  intros H. revert m. induction H as [|h hs Hh _ IH]; intros m; cbn [foldl]; [done|]. rewrite IH.
  destruct (decide (ph_type h = PT_LOAD)) as [Ht|Ht]; [|by rewrite load_one_other].
  destruct (Hh Ht). rewrite peek_load_one by done. by rewrite decide_False.
Qed.

Lemma peek_image hs m i h k :
  Forall (λ h, ph_type h = PT_LOAD → seg_ok h) hs → disjoint_segs hs →
  hs !! i = Some h → ph_type h = PT_LOAD → 0 ≤ k < ph_memsz h →
  peek (foldl load_one m hs) (seg_dest h + k) = seg_byte h k.
Proof.
  intros Hok Hdis Hi Ht Hk. apply list_elem_of_split_length in Hi as (l1 & l2 & -> & ->).
  rewrite foldl_app. cbn [foldl]. rewrite Forall_app, Forall_cons in Hok. destruct Hok as (_ & Hh & H2).
  rewrite peek_outside.
  - rewrite peek_load_one by auto. rewrite decide_True by (unfold in_seg; lia). f_equal. lia.
  - rewrite Forall_forall in H2 |- *. intros h' Hin Ht'. split; [by apply H2|].
    apply list_elem_of_lookup in Hin as [j Hj].
    apply (Hdis (length l1) (length l1 + S j)%nat h h' (seg_dest h + k)); try done.
    + by rewrite list_lookup_middle.
    + rewrite lookup_app_r by lia. by replace (length l1 + S j - length l1)%nat with (S j) by lia.
    + lia.
    + unfold in_seg. lia.
Qed.

(** The end of the highest segment. *)
Definition image_size (total : Z) (hs : list phdr) : Z :=
  foldl (λ t h, if ph_type h =? PT_LOAD then Z.max t (ph_vaddr h + ph_memsz h) else t) total hs.

Definition is_dynamic (h : phdr) : Prop := ph_type h = PT_DYNAMIC.

Lemma read_phdr_fields off h :
  read_phdr off data = Some h →
  p_type off data = Some (ph_type h) ∧ p_offset off data = Some (ph_offset h) ∧
  p_vaddr off data = Some (ph_vaddr h) ∧ p_filesz off data = Some (ph_filesz h) ∧
  p_memsz off data = Some (ph_memsz h).
Proof.
  unfold read_phdr. destruct (p_type off data), (p_offset off data), (p_vaddr off data),
    (p_filesz off data), (p_memsz off data); try done. cbn. by intros [= <-].
Qed.

Lemma load_segments_image size phoff phentsize n i hs total m :
  Z.of_nat (length data) = size → size < 2 ^ 30 → 0 ≤ phoff → 0 ≤ phentsize < 2 ^ 16 → 0 ≤ i →
  phoff + (i + Z.of_nat n) * phentsize ≤ size →
  read_phdrs n i phoff phentsize data = Some hs →
  Forall (λ h, ph_type h = PT_LOAD → seg_ok h) hs → (∀ h, h ∈ hs → ph_type h ≠ PT_DYNAMIC) →
  (is_pie = true → 0 ≤ load_base) →
  load_segments n i data size phoff phentsize load_base is_pie total None m =
  Some (foldl load_one m hs, Some (image_size total hs, None)).
Proof.
  intros Hsz Hsm Ho He. revert i hs total m.
  induction n as [|n IH]; intros i hs total m Hi Htab Hr Hok Hnd Hb; cbn [load_segments read_phdrs] in *.
  { injection Hr as <-. done. }
  destruct (read_phdr _ data) as [h|] eqn:Eh; [|done]. destruct (read_phdrs _ _ _ _ _) as [hs'|] eqn:Ehs; [|done].
  cbn [mbind option_bind] in Hr. injection Hr as <-. apply Forall_cons in Hok as [Hh Hok].
  assert (0 ≤ i * phentsize ∧ 0 ≤ Z.of_nat n * phentsize) as [Hi0 Hn0] by nia.
  assert ((i + 1) * phentsize = i * phentsize + phentsize) as E1 by lia.
  assert ((i + Z.of_nat (S n)) * phentsize = i * phentsize + phentsize + Z.of_nat n * phentsize) as E2 by lia.
  rewrite E1, i32_small by lia. rewrite u64_small by lia.
  destruct (Z.ltb_spec size (phoff + (i * phentsize + phentsize))); [lia|].
  unfold phdr_off. rewrite i32_small by lia. rewrite u64_small by lia.
  destruct (read_phdr_fields _ _ Eh) as (-> & -> & -> & -> & ->). cbn [mbind option_bind].
  assert (∀ total m, load_segments n (i + 1) data size phoff phentsize load_base is_pie total None m =
    Some (foldl load_one m hs', Some (image_size total hs', None))) as IH'.
  { intros. apply IH; try done; try lia. intros x Hx. apply Hnd. by apply elem_of_cons; right. }
  assert (ph_type h ≠ PT_DYNAMIC) as Hd by (apply Hnd; by apply elem_of_cons; left).
  rewrite (proj2 (Z.eqb_neq _ _) Hd). unfold image_size. cbn [foldl].
  destruct (Z.eqb_spec (ph_type h) PT_LOAD) as [Ht|Ht]; cbn [negb].
  2: { rewrite IH'. by rewrite load_one_other. }
  destruct (Hh Ht) as [Hf Hs Hend Hdest].
  destruct (Z.ltb_spec size (ph_offset h)); [lia|]. destruct (Z.ltb_spec (size - ph_offset h) (ph_filesz h)); [lia|].
  cbn [orb]. unfold file_bytes. destruct (Z.leb_spec 0 (ph_offset h)); [|lia].
  destruct (Z.leb_spec (ph_offset h + ph_filesz h) (Z.of_nat (length data))); [|lia]. cbn [andb mbind option_bind].
  assert ((if is_pie then u64 (load_base + ph_vaddr h) else ph_vaddr h) = seg_dest h) as ->.
  { unfold seg_dest in *. destruct is_pie; [|done]. apply u64_small. lia. }
  rewrite (u64_small (seg_dest h + ph_filesz h)) by lia. rewrite (u64_small (ph_vaddr h + ph_memsz h)) by lia.
  rewrite IH'. unfold image_size, load_one. rewrite Ht, Z.eqb_refl. do 4 f_equal.
  f_equal. destruct (Z.ltb_spec total (ph_vaddr h + ph_memsz h)); lia.
Qed.
End Image.

(** C21: loading an executable without a PT_DYNAMIC segment (so that nothing is
    relocated), whose program headers and segments lie in the file and whose
    PT_LOAD segments do not overlap in memory, puts at every address of a
    segment the byte of the file, or zero in its uninitialised part, and
    changes no other byte of memory; the reported entry point and size are
    those of the image. *)
Theorem elf_load_at_image fuel data load_base m ty phnum phoff phentsize ent hs :
  let size := Z.of_nat (length data) in
  let is_pie := ty =? ET_DYN in
  elf_validate data size = Some 0 → size < 2 ^ 30 → Forall is_byte data →
  e_type data = Some ty → e_phnum data = Some phnum → e_phoff data = Some phoff →
  e_phentsize data = Some phentsize → e_entry data = Some ent →
  phoff + phnum * phentsize ≤ size →
  read_phdrs (Z.to_nat phnum) 0 phoff phentsize data = Some hs →
  (∀ h, h ∈ hs → ph_type h = PT_LOAD → seg_ok data load_base is_pie h) →
  (∀ h, h ∈ hs → ph_type h ≠ PT_DYNAMIC) → 0 ≤ load_base → disjoint_segs load_base is_pie hs →
  ∃ m', elf_load_at fuel data size load_base m =
      Some (m', Some (mk_info (if is_pie then u64 (load_base + ent) else ent) load_base (image_size 0 hs))) ∧
    (∀ h k, h ∈ hs → ph_type h = PT_LOAD → 0 ≤ k < ph_memsz h →
       peek m' (seg_dest load_base is_pie h + k) =
       if decide (k < ph_filesz h) then nth (Z.to_nat (ph_offset h + k)) data 0 else 0) ∧
    (∀ a, (∀ h, h ∈ hs → ph_type h = PT_LOAD → ¬ in_seg load_base is_pie h a) → peek m' a = peek m a).
Proof.
  intros size is_pie Hv Hs Hb Et Epn Epo Eps Een Htab Hr Hok Hnd Hbase Hdis.
  pose proof (rd_bound _ _ _ _ Hb Epn) as Hpn. pose proof (rd_bound _ _ _ _ Hb Epo) as Hpo.
  pose proof (rd_bound _ _ _ _ Hb Eps) as Hps. cbn in Hps.
  assert (Forall (λ h, ph_type h = PT_LOAD → seg_ok data load_base is_pie h) hs) as Hok' by (by apply Forall_forall).
  exists (foldl (load_one data load_base is_pie) m hs). split; [|split].
  - unfold elf_load_at. rewrite Hv. cbn [mbind option_bind Z.eqb negb]. rewrite Et, Epn, Epo, Eps. cbn [mbind option_bind].
    rewrite (load_segments_image data load_base (ty =? ET_DYN) size phoff phentsize _ 0 hs 0 m); try done; try lia.
    cbn [mbind option_bind]. rewrite Een. done.
  - intros h k Hh Ht Hk. apply list_elem_of_lookup in Hh as [i Hi]. by apply (peek_image _ _ _ _ _ i).
  - intros a Ha. apply peek_outside. apply Forall_forall. intros h Hh Ht. split; [by apply Hok|by apply Ha].
Qed.

(** ** Relocations *)

Record rela := mk_rela { r_offset : Z; r_info : Z; r_addend : Z }.

Definition rela_at (m : mem) (tab k : Z) : rela :=
  let r := u64 (tab + RELA_SIZE * k) in
  mk_rela (peeks 8 r m) (peeks 8 (u64 (r + 8)) m) (i64 (peeks 8 (u64 (r + 16)) m)).

Definition is_relative (r : rela) : Prop := Z.land (r_info r) 0xFFFFFFFF = R_AARCH64_RELATIVE.

Section Relocate.
Context (load_base tab : Z).

Definition target (r : rela) : Z := u64 (load_base + r_offset r).
Definition hits (r : rela) (a : Z) : Prop := target r ≤ a < target r + 8.

(** The relocations [lo .. hi - 1] patch words that overlap neither each
    other nor the table. *)
Record relocs_ok (m : mem) (lo hi : Z) : Prop := {
  ro_target k : lo ≤ k < hi → is_relative (rela_at m tab k) → target (rela_at m tab k) + 8 ≤ 2 ^ 64;
  ro_table k a : lo ≤ k < hi → is_relative (rela_at m tab k) →
    tab ≤ a < tab + RELA_SIZE * hi → ¬ hits (rela_at m tab k) a;
  ro_disjoint j k a : lo ≤ j < hi → lo ≤ k < hi → j ≠ k →
    is_relative (rela_at m tab j) → is_relative (rela_at m tab k) →
    hits (rela_at m tab j) a → ¬ hits (rela_at m tab k) a
}.

Lemma rela_at_frame m m' k hi :
  0 ≤ tab → tab + RELA_SIZE * hi ≤ 2 ^ 64 → 0 ≤ k < hi →
  (∀ a, tab ≤ a < tab + RELA_SIZE * hi → peek m' a = peek m a) → rela_at m' tab k = rela_at m tab k.
Proof.
  unfold RELA_SIZE. intros H0 Ht Hk Hf. unfold rela_at, RELA_SIZE. rewrite (u64_small (tab + 24 * k)) by lia.
  rewrite !(u64_small (_ + 8)), !(u64_small (_ + 16)) by lia.
  assert (∀ a, tab ≤ a → a + 8 ≤ tab + 24 * hi → peeks 8 a m' = peeks 8 a m) as Hp.
  { intros a ? ?. apply peeks_ext. intros i Hi. rewrite u64_small by lia. apply Hf. lia. }
  by rewrite !Hp by lia.
Qed.

Definition apply_rela (r : rela) (m : mem) : mem :=
  if Z.land (r_info r) 0xFFFFFFFF =? R_AARCH64_RELATIVE
  then poke64 (target r) (u64 (load_base + r_addend r)) m else m.

Lemma relocate_step n i m :
  relocate (S n) i load_base tab m = relocate n (i + 1) load_base tab (apply_rela (rela_at m tab i) m).
Proof. reflexivity. Qed.

Lemma relocate_correct n i m :
  let hi := i + Z.of_nat n in
  0 ≤ tab → tab + RELA_SIZE * hi ≤ 2 ^ 64 → 0 ≤ i → relocs_ok m i hi →
  (∀ k, i ≤ k < hi → is_relative (rela_at m tab k) →
     peeks 8 (target (rela_at m tab k)) (relocate n i load_base tab m)
     = u64 (load_base + r_addend (rela_at m tab k))) ∧
  (∀ a, (∀ k, i ≤ k < hi → is_relative (rela_at m tab k) → ¬ hits (rela_at m tab k) a) →
     peek (relocate n i load_base tab m) a = peek m a).
Proof.
  revert i m. induction n as [|n IH]; intros i m hi H0 Ht Hi Hok; [split; [lia|done]|].
  assert (hi = i + Z.of_nat (S n)) as Ehi by done. clearbody hi.
  rewrite relocate_step. set (r := rela_at m tab i) in *. set (m1 := apply_rela r m).
  assert (∀ a, ¬ (is_relative r ∧ hits r a) → peek m1 a = peek m a) as Hm1.
  { intros a Ha. unfold m1, apply_rela. destruct (Z.eqb_spec (Z.land (r_info r) 0xFFFFFFFF) R_AARCH64_RELATIVE) as [Hr|]; [|done].
    pose proof (ro_target _ _ _ Hok i ltac:(lia) Hr). apply peek_poke64; [apply u64_bound|done|].
    intros Hh. by apply Ha. }
  assert (∀ k, i < k < hi → rela_at m1 tab k = rela_at m tab k) as Hsame.
  { intros k Hk. apply (rela_at_frame _ _ _ hi); try lia. intros a Ha. apply Hm1. intros [Hr Hh].
    by apply (ro_table _ _ _ Hok i a ltac:(lia) Hr Ha). }
  destruct (IH (i + 1) m1) as [IH1 IH2]; try lia.
  { split.
    - intros k Hk. rewrite Hsame by lia. apply Hok. lia.
    - intros k a Hk. rewrite Hsame by lia. replace (i + 1 + Z.of_nat n) with hi by lia. apply Hok. lia.
    - intros j k a Hj Hk. rewrite !Hsame by lia. apply Hok; lia. }
  split.
  - intros k Hk Hr. destruct (decide (k = i)) as [->|Hne].
    2: { rewrite <- (Hsame k) in * by lia. apply IH1; [lia|done]. }
    fold r in Hr |- *. transitivity (peeks 8 (target r) m1).
    + pose proof (ro_target _ _ _ Hok i ltac:(lia) Hr). pose proof (u64_bound (load_base + r_offset r)).
      apply peeks_ext. intros j Hj. fold r in H. unfold target in *. rewrite u64_small by lia.
      apply IH2. intros k Hk'. rewrite Hsame by lia. intros Hr'. apply (ro_disjoint _ _ _ Hok i k); try lia; try done.
      unfold hits. fold r. unfold target. lia.
    + unfold m1, apply_rela. rewrite (proj2 (Z.eqb_eq _ _) Hr). apply peeks_poke64; [apply u64_bound| |apply u64_bound].
      by apply (ro_target _ _ _ Hok i ltac:(lia)).
  - intros a Ha. rewrite IH2.
    + apply Hm1. intros [Hr Hh]. by apply (Ha i ltac:(lia)).
    + intros k Hk. rewrite Hsame by lia. apply Ha. lia.
Qed.
End Relocate.

(** The dynamic section at [d]: entries up to the first DT_NULL. *)
Fixpoint dyn_entries (m : mem) (d : Z) (ds : list (Z * Z)) : Prop :=
  match ds with
  | [] => d_tag d m = DT_NULL
  | (t, v) :: ds' => d_tag d m = t ∧ d_val d m = v ∧ t ≠ DT_NULL ∧ dyn_entries m (u64 (d + 16)) ds'
  end.

(** The last value with tag [t]. *)
Fixpoint dyn_find (t dflt : Z) (ds : list (Z * Z)) : Z :=
  match ds with
  | [] => dflt
  | (t', v) :: ds' => dyn_find t (if t' =? t then v else dflt) ds'
  end.

Lemma scan_dynamic_ok fuel d m ds a s e :
  dyn_entries m d ds → (length ds < fuel)%nat →
  scan_dynamic fuel d m a s e = Some (dyn_find DT_RELA a ds, dyn_find DT_RELASZ s ds, dyn_find DT_RELAENT e ds).
Proof.
  revert d ds a s e. induction fuel as [|fuel IH]; intros d ds a s e Hd Hf; [lia|].
  cbn [scan_dynamic]. destruct ds as [|[t v] ds]; cbn [dyn_entries dyn_find length] in *.
  - by rewrite Hd.
  - destruct Hd as (-> & -> & Ht & Hd). rewrite (proj2 (Z.eqb_neq _ _) Ht). apply IH; [done|lia].
Qed.

(** Relocating a PIE image whose dynamic section ends, and whose
    relocations patch separate words outside the table, returns; every word
    named by a relative relocation then holds the load base plus the addend,
    and no other byte of memory has changed. *)
Theorem elf_relocations_correct fuel load_base dynamic m ds rela_addr rela_size rela_ent :
  dyn_entries m dynamic ds → (length ds < fuel)%nat →
  rela_addr = dyn_find DT_RELA 0 ds → rela_size = dyn_find DT_RELASZ 0 ds →
  rela_ent = dyn_find DT_RELAENT RELA_SIZE ds →
  rela_addr ≠ 0 → rela_size ≠ 0 → rela_ent ≠ 0 →
  let tab := u64 (load_base + rela_addr) in
  let n := rela_size / rela_ent in
  0 ≤ n < 2 ^ 31 → tab + RELA_SIZE * n ≤ 2 ^ 64 → relocs_ok load_base tab m 0 n →
  ∃ m', elf_process_relocations fuel load_base dynamic m = Some m' ∧
    (∀ k, 0 ≤ k < n → is_relative (rela_at m tab k) →
       peeks 8 (target load_base (rela_at m tab k)) m' = u64 (load_base + r_addend (rela_at m tab k))) ∧
    (∀ a, (∀ k, 0 ≤ k < n → is_relative (rela_at m tab k) → ¬ hits load_base (rela_at m tab k) a) →
       peek m' a = peek m a).
Proof.
  intros Hd Hf Ea Es Ee Ha Hs He tab n Hn Ht Hok. unfold elf_process_relocations.
  rewrite (scan_dynamic_ok _ _ _ _ _ _ _ Hd Hf), <- Ea, <- Es, <- Ee. cbn [mbind option_bind].
  rewrite (proj2 (Z.eqb_neq _ _) Ha), (proj2 (Z.eqb_neq _ _) Hs), (proj2 (Z.eqb_neq _ _) He). cbn [orb].
  fold tab n. rewrite i32_small by lia. eexists. split; [reflexivity|].
  destruct (relocate_correct load_base tab (Z.to_nat n) 0 m) as [H1 H2]; try rewrite Z2Nat.id by lia; try done.
  - apply u64_bound.
  - rewrite Z2Nat.id in H1, H2 by lia. done.
Qed.

(** ** Concrete files *)

Definition demo_ehdr (ty phoff phnum : Z) : list Z :=
  [0x7F; 69; 76; 70; 2; 1] ++ replicate 10 0 ++ le_bytes 2 ty ++ le_bytes 2 EM_AARCH64 ++ le_bytes 4 1 ++
  le_bytes 8 0x10000 ++ le_bytes 8 phoff ++ le_bytes 8 0 ++ le_bytes 4 0 ++ le_bytes 2 64 ++
  le_bytes 2 56 ++ le_bytes 2 phnum ++ le_bytes 6 0.

Definition demo_phdr (ty off va fsz msz : Z) : list Z :=
  le_bytes 4 ty ++ le_bytes 4 5 ++ le_bytes 8 off ++ le_bytes 8 va ++ le_bytes 8 va ++
  le_bytes 8 fsz ++ le_bytes 8 msz ++ le_bytes 8 8.

(** Four bytes of code and four of uninitialised data at 0x10000. *)
Definition demo_elf : list Z := demo_ehdr ET_EXEC 64 1 ++ demo_phdr PT_LOAD 120 0x10000 4 8 ++ [1; 2; 3; 4].

Lemma demo_elf_bytes : Forall is_byte demo_elf.
Proof. unfold is_byte. apply (bool_decide_unpack _). vm_compute. exact I. Qed.

Lemma elf_load_at_in_bounds_witness :
  is_Some (elf_load_at 0 demo_elf (Z.of_nat (length demo_elf)) 0 ∅).
Proof.
  destruct (elf_load_at_in_bounds 0 demo_elf 0 ∅ demo_elf_bytes) as [H|[H _]].
  - vm_compute. reflexivity.
  - intros x H. assert (e_phoff demo_elf = Some 64) as E by (vm_compute; reflexivity).
    rewrite E in H. injection H as <-. lia.
  - intros x H. assert (e_phentsize demo_elf = Some 56) as E by (vm_compute; reflexivity).
    rewrite E in H. injection H as <-. lia.
  - exact H.
  - exfalso. assert (e_type demo_elf = Some ET_EXEC) as E by (vm_compute; reflexivity). rewrite E in H. discriminate H.
Defined.

Lemma elf_load_at_image_witness :
  ∃ m', elf_load_at 0 demo_elf (Z.of_nat (length demo_elf)) 0 ∅ = Some (m', Some (mk_info 0x10000 0 0x10008)) ∧
    peek m' 0x10002 = 3 ∧ peek m' 0x10006 = 0.
Proof.
  destruct (elf_load_at_image 0 demo_elf 0 ∅ ET_EXEC 1 64 56 0x10000 [mk_phdr PT_LOAD 120 0x10000 4 8])
    as (m' & E & Hb & _).
  - vm_compute. reflexivity.
  - vm_compute. reflexivity.
  - exact demo_elf_bytes.
  - vm_compute. reflexivity.
  - vm_compute. reflexivity.
  - vm_compute. reflexivity.
  - vm_compute. reflexivity.
  - vm_compute. reflexivity.
  - vm_compute. discriminate.
  - vm_compute. reflexivity.
  - intros h Hh _. apply list_elem_of_singleton in Hh as ->. split; vm_compute; split; (discriminate || reflexivity).
  - intros h Hh. apply list_elem_of_singleton in Hh as ->. discriminate.
  - lia.
  - intros i j h h' a Hi Hj Hij. apply lookup_lt_Some in Hi, Hj. cbn in Hi, Hj. lia.
  - exists m'. split; [exact E|].
    pose proof (Hb _ 2 (list_elem_of_here _ _) eq_refl ltac:(cbn; lia)) as H2.
    pose proof (Hb _ 6 (list_elem_of_here _ _) eq_refl ltac:(cbn; lia)) as H6. split; [exact H2|exact H6].
Defined.

(** An image at 0x1000: the dynamic section at 0x1100 names one relative
    relocation at 0x1200, of the word at 0x1300. *)
Definition demo_pie : mem :=
  poke64 0x1100 DT_RELA (poke64 0x1108 0x200 (poke64 0x1110 DT_RELASZ (poke64 0x1118 24
  (poke64 0x1200 0x300 (poke64 0x1208 R_AARCH64_RELATIVE (poke64 0x1210 0x10 ∅)))))).

Lemma elf_relocations_correct_witness :
  ∃ m', elf_process_relocations 3 0x1000 0x1100 demo_pie = Some m' ∧ peeks 8 0x1300 m' = 0x1010.
Proof.
  assert (rela_at demo_pie 0x1200 0 = mk_rela 0x300 R_AARCH64_RELATIVE 0x10) as Hr by (vm_compute; reflexivity).
  assert (∀ k, 0 ≤ k < 1 → k = 0) as H0 by (intros; lia).
  destruct (elf_relocations_correct 3 0x1000 0x1100 demo_pie [(DT_RELA, 0x200); (DT_RELASZ, 24)] 0x200 24 24)
    as (m' & E & H1 & _).
  - vm_compute. repeat split; discriminate.
  - cbn. lia.
  - reflexivity.
  - reflexivity.
  - reflexivity.
  - discriminate.
  - discriminate.
  - discriminate.
  - vm_compute. split; [discriminate|reflexivity].
  - vm_compute. discriminate.
  - change (u64 (0x1000 + 0x200)) with 0x1200. change (24 / 24) with 1. split.
    + intros k ->%H0. rewrite Hr. vm_compute. discriminate.
    + intros k a ->%H0. rewrite Hr. intros _. unfold hits, target, RELA_SIZE. cbn [r_offset].
      change (u64 (0x1000 + 0x300)) with 0x1300. lia.
    + intros j k a ->%H0 ->%H0 Hne. exfalso. apply Hne. reflexivity.
  - exists m'. split; [exact E|]. change (u64 (0x1000 + 0x200)) with 0x1200 in H1.
    pose proof (H1 0 ltac:(vm_compute; split; [discriminate|reflexivity])) as H2. rewrite Hr in H2. apply H2. reflexivity.
Defined.

(** The table offset is added without a check for wrap-around: the header
    passes the bound check and is read from before the buffer. *)
Lemma phoff_wrap_reads_outside :
  let data := demo_ehdr ET_EXEC (2 ^ 64 - 56) 1 in
  elf_validate data (Z.of_nat (length data)) = Some 0 ∧
  elf_load_at 0 data (Z.of_nat (length data)) 0 ∅ = None.
Proof. vm_compute. done. Qed.

(** elf_calc_size, which process_create calls first, has no bound check: a
    file that ends after its header makes it read past the buffer. *)
Lemma calc_size_reads_outside :
  let data := demo_ehdr ET_EXEC 64 1 in
  elf_validate data (Z.of_nat (length data)) = Some 0 ∧
  elf_calc_size data (Z.of_nat (length data)) = None.
Proof. vm_compute. done. Qed.
