(* ===== verification/Ramfs.v ===== *)
(** * kernel/fs/ramfs.c

    A [struct ramfs_inode *] is its heap address, the key of [inodes]; a data
    buffer is the key of [bufs], with the bytes of the whole allocation; the
    VFS inodes the operations create are in [vinodes].  The heap is behind the
    interface [KernelHeap].  A dentry only carries a name in and a VFS inode
    out: the operations take the name and return the inode pointer they store
    in [d_inode].

    The functions return [None] where the code would follow a pointer to a
    freed object, index outside a buffer, keep uninitialised bytes, or loop on a cyclic sibling list
    (the fuel of a traversal is the number of inodes plus one). *)

From S2P Require Import Prelude KHeap Kmalloc.

Definition RAMFS_MAX_NAME : Z := 255.
Definition RAMFS_BLOCK_SIZE : Z := 4096.
Definition PARENT_PATH_SIZE : Z := 256.
Definition sizeof_ramfs_inode : Z := 328.
Definition sizeof_inode : Z := 152.
Definition sizeof_dentry : Z := 304.
Definition sizeof_super_block : Z := 88.

Definition ENOENT : Z := 2.
Definition EIO : Z := 5.
Definition ENOMEM : Z := 12.
Definition EEXIST : Z := 17.
Definition ENOTDIR : Z := 20.
Definition EISDIR : Z := 21.
Definition EINVAL : Z := 22.
Definition ENOTEMPTY : Z := 39.

Definition S_IFMT : Z := 0xF000.
Definition S_IFREG : Z := 0x8000.
Definition S_IFDIR : Z := 0x4000.
Definition S_ISDIR (m : Z) : bool := Z.land m S_IFMT =? S_IFDIR.
Definition SLASH : Z := 47.

Record ramfs_inode := mk_ram {
  r_ino : Z;
  r_mode : Z;
  r_size : Z;
  r_data : option Z;
  r_capacity : Z;
  r_parent : option Z;
  r_children : option Z;
  r_sibling : option Z;
  r_name : list Z
}.

(** A VFS inode; [v_dir] stands for the choice between the two tables of file
    operations. *)
Record inode := mk_inode {
  v_ino : Z;
  v_mode : Z;
  v_size : Z;
  v_dir : bool;
  v_private : option Z
}.

Record ramfs (H : Type) := mk_fs {
  fs_root : option Z;
  fs_next_ino : Z;
  fs_inode_count : Z;
  inodes : gmap Z ramfs_inode;
  bufs : gmap Z (list Z);
  vinodes : gmap Z inode;
  fs_heap : H
}.
Arguments mk_fs {H}.
Arguments fs_root {H}.
Arguments fs_next_ino {H}.
Arguments fs_inode_count {H}.
Arguments inodes {H}.
Arguments bufs {H}.
Arguments vinodes {H}.
Arguments fs_heap {H}.

(** Field updates. *)
Definition set_data (size : Z) (d : option Z) (cap : Z) (x : ramfs_inode) : ramfs_inode :=
  mk_ram (r_ino x) (r_mode x) size d cap (r_parent x) (r_children x) (r_sibling x) (r_name x).
Definition set_links (p c b : option Z) (x : ramfs_inode) : ramfs_inode :=
  mk_ram (r_ino x) (r_mode x) (r_size x) (r_data x) (r_capacity x) p c b (r_name x).
Definition set_name (n : list Z) (x : ramfs_inode) : ramfs_inode :=
  mk_ram (r_ino x) (r_mode x) (r_size x) (r_data x) (r_capacity x) (r_parent x) (r_children x) (r_sibling x) n.

(** ** Strings *)

(** The comparison of two names, both loops at once. *)
Fixpoint name_eq (a b : list Z) : bool :=
  match a, b with
  | [], [] => true
  | x :: a', y :: b' => (x =? y) && name_eq a' b'
  | _, _ => false
  end.

(** [while ( *p == '/') p++;] *)
Fixpoint skip_slashes (p : list Z) : list Z :=
  match p with
  | c :: p' => if c =? SLASH then skip_slashes p' else p
  | [] => []
  end.

(** [while ( *path && *path != '/' && i < n) component[i++] = *path++;] *)
Fixpoint take_component (n : nat) (path : list Z) : list Z * list Z :=
  match n, path with
  | S n', c :: path' =>
      if c =? SLASH then ([], path)
      else let '(comp, rest) := take_component n' path' in (c :: comp, rest)
  | _, _ => ([], path)
  end.

(** The position of the last slash. *)
Fixpoint last_slash (i : Z) (p : list Z) (acc : option Z) : option Z :=
  match p with
  | [] => acc
  | c :: p' => last_slash (i + 1) p' (if c =? SLASH then Some i else acc)
  end.

(** The two output strings, or -EINVAL. *)
Definition ramfs_split_path (path : list Z) (parent_size name_size : Z) : (list Z * list Z) + Z :=
  let start := skip_slashes path in
  match start with
  | [] => inr (- EINVAL)
  | _ =>
      match last_slash 0 start None with
      | None => inl ([], take (Z.to_nat (name_size - 1)) start)
      | Some parent_len =>
          let copy_len := if parent_len <? parent_size - 1 then parent_len else parent_size - 1 in
          let name := take (Z.to_nat (name_size - 1)) (drop (Z.to_nat (parent_len + 1)) start) in
          match name with
          | [] => inr (- EINVAL)
          | _ => inl (take (Z.to_nat copy_len) start, name)
          end
      end
  end.

Section Ops.
Context {H : Type} `{!KernelHeap H}.
Implicit Types s : ramfs H.

Definition with_inodes (m : gmap Z ramfs_inode) (s : ramfs H) : ramfs H :=
  mk_fs (fs_root s) (fs_next_ino s) (fs_inode_count s) m (bufs s) (vinodes s) (fs_heap s).
Definition with_heap (h : H) (s : ramfs H) : ramfs H :=
  mk_fs (fs_root s) (fs_next_ino s) (fs_inode_count s) (inodes s) (bufs s) (vinodes s) h.
Definition with_bufs (b : gmap Z (list Z)) (s : ramfs H) : ramfs H :=
  mk_fs (fs_root s) (fs_next_ino s) (fs_inode_count s) (inodes s) b (vinodes s) (fs_heap s).
Definition with_vinodes (v : gmap Z inode) (s : ramfs H) : ramfs H :=
  mk_fs (fs_root s) (fs_next_ino s) (fs_inode_count s) (inodes s) (bufs s) v (fs_heap s).

(** [p->field = ...] *)
Definition upd (p : Z) (f : ramfs_inode → ramfs_inode) (s : ramfs H) : ramfs H :=
  with_inodes (alter f p (inodes s)) s.

(** ** Inodes *)

Definition ramfs_alloc_inode (mode : Z) (name : list Z) (s : ramfs H) : option (ramfs H * option Z) :=
  r ← kh_alloc sizeof_ramfs_inode GFP_ZERO (fs_heap s);
  match r with
  | (h, None) => Some (with_heap h s, None)
  | (h, Some p) =>
      let x := mk_ram (fs_next_ino s) mode 0 None 0 None None None (take (Z.to_nat RAMFS_MAX_NAME) name) in
      Some (mk_fs (fs_root s) (u64 (fs_next_ino s + 1)) (u64 (fs_inode_count s + 1)) (<[p := x]> (inodes s))
              (bufs s) (vinodes s) h, Some p)
  end.

Definition ramfs_free_inode (p : option Z) (s : ramfs H) : option (ramfs H) :=
  match p with
  | None => Some s
  | Some p =>
      x ← inodes s !! p;
      h ← kh_free (r_data x) (fs_heap s);
      let b := match r_data x with Some d => delete d (bufs s) | None => bufs s end in
      h ← kh_free (Some p) h;
      Some (mk_fs (fs_root s) (fs_next_ino s) (u64 (fs_inode_count s - 1)) (delete p (inodes s)) b (vinodes s) h)
  end.

(** The walk along the siblings. *)
Fixpoint find_child (fuel : nat) (child : option Z) (name : list Z) (s : ramfs H) : option (option Z) :=
  match fuel with
  | O => None
  | S fuel' =>
      match child with
      | None => Some None
      | Some c =>
          x ← inodes s !! c;
          if name_eq (r_name x) name then Some (Some c) else find_child fuel' (r_sibling x) name s
      end
  end.

Definition fuel_of (s : ramfs H) : nat := S (size (inodes s)).

Definition ramfs_lookup_child (dir : Z) (name : list Z) (s : ramfs H) : option (option Z) :=
  d ← inodes s !! dir;
  if negb (S_ISDIR (r_mode d)) then Some None
  else find_child (fuel_of s) (r_children d) name s.

Definition ramfs_add_child (dir child : Z) (s : ramfs H) : option (ramfs H * Z) :=
  d ← inodes s !! dir;
  if negb (S_ISDIR (r_mode d)) then Some (s, - ENOTDIR)
  else
    let s := upd child (λ x, set_links (Some dir) (r_children x) (r_children d) x) s in
    let s := upd dir (λ x, set_links (r_parent x) (Some child) (r_sibling x) x) s in
    Some (s, 0).

(** ** File operations *)

(** The bytes read, the new position and the return value. *)
Definition ramfs_read (private_data : option Z) (count pos : Z) (s : ramfs H) : option (list Z * Z * Z) :=
  match private_data with
  | None => Some ([], pos, 0)
  | Some p =>
      x ← inodes s !! p;
      match r_data x with
      | None => Some ([], pos, 0)
      | Some d =>
          if i64 (r_size x) <=? pos then Some ([], pos, 0)
          else
            let available := u64 (r_size x - pos) in
            let to_read := if count <? available then count else available in
            b ← bufs s !! d;
            if (0 <=? pos) && (pos + to_read <=? Z.of_nat (length b))
            then Some (take (Z.to_nat to_read) (drop (Z.to_nat pos) b), i64 (pos + to_read), to_read)
            else None
      end
  end.

(** [for (i = 0; i < n; i++) l[off + i] = src[i];], [None] out of range. *)
Definition put_bytes (off : Z) (src l : list Z) : option (list Z) :=
  if (0 <=? off) && (off + Z.of_nat (length src) <=? Z.of_nat (length l))
  then Some (take (Z.to_nat off) l ++ src ++ drop (Z.to_nat off + length src) l) else None.

(** The growth of the buffer; [None] in the result is -ENOMEM. *)
Definition grow (p : Z) (x : ramfs_inode) (new_size : Z) (s : ramfs H) : option (ramfs H * option ramfs_inode) :=
  let new_cap := Z.land (u64 (new_size + RAMFS_BLOCK_SIZE - 1)) (Z.lnot (RAMFS_BLOCK_SIZE - 1)) in
  r ← kh_alloc new_cap GFP_KERNEL (fs_heap s);
  match r with
  | (h, None) => Some (with_heap h s, None)
  | (h, Some d) =>
      '(old, h, b) ← match r_data x with
                     | Some d0 =>
                         l ← bufs s !! d0;
                         if Z.of_nat (length l) <? r_size x then None
                         else h ← kh_free (Some d0) h;
                              Some (take (Z.to_nat (r_size x)) l, h, delete d0 (bufs s))
                     | None => if r_size x =? 0 then Some ([], h, bufs s) else None
                     end;
      if new_cap <? r_size x then None
      else
        let l := old ++ replicate (Z.to_nat (new_cap - r_size x)) 0 in
        let x := set_data (r_size x) (Some d) new_cap x in
        Some (upd p (λ _, x) (with_bufs (<[d := l]> b) (with_heap h s)), Some x)
  end.

(** [vino] is [file->f_dentry->d_inode], when both pointers are set.  The
    result is the new position and the return value. *)
Definition ramfs_write (private_data vino : option Z) (buf : list Z) (pos : Z) (s : ramfs H)
  : option (ramfs H * Z * Z) :=
  match private_data with
  | None => Some (s, pos, - EIO)
  | Some p =>
      x ← inodes s !! p;
      let count := Z.of_nat (length buf) in
      let new_size := u64 (pos + count) in
      r ← (if r_capacity x <? new_size then grow p x new_size s else Some (s, Some x));
      match r with
      | (s, None) => Some (s, pos, - ENOMEM)
      | (s, Some x) =>
          let l0 := match r_data x with Some d => default [] (bufs s !! d) | None => [] end in
          l1 ← (if r_size x <? u64 pos
                then put_bytes (r_size x) (replicate (Z.to_nat (u64 pos - r_size x)) 0) l0 else Some l0);
          l2 ← (match buf with [] => Some l1 | _ => put_bytes pos buf l1 end);
          let s := match r_data x with Some d => with_bufs (<[d := l2]> (bufs s)) s | None => s end in
          let pos := i64 (pos + count) in
          let size := if i64 (r_size x) <? pos then pos else r_size x in
          let s := upd p (set_data size (r_data x) (r_capacity x)) s in
          let s := match vino with
                   | Some v => with_vinodes (alter (λ i, mk_inode (v_ino i) (v_mode i) size (v_dir i) (v_private i)) v
                                               (vinodes s)) s
                   | None => s
                   end in
          Some (s, pos, count)
      end
  end.

(** The entries a directory lists: name, inode number and type of each call of
    [filldir]. *)
Fixpoint list_children (fuel : nat) (child : option Z) (s : ramfs H) : option (list (list Z * Z * Z)) :=
  match fuel with
  | O => None
  | S fuel' =>
      match child with
      | None => Some []
      | Some c =>
          x ← inodes s !! c;
          l ← list_children fuel' (r_sibling x) s;
          Some ((r_name x, r_ino x, Z.shiftr (r_mode x) 12) :: l)
      end
  end.

Definition ramfs_readdir (private_data : option Z) (s : ramfs H) : option (list (list Z * Z * Z) * Z) :=
  match private_data with
  | None => Some ([], - ENOTDIR)
  | Some p =>
      x ← inodes s !! p;
      if negb (S_ISDIR (r_mode x)) then Some ([], - ENOTDIR)
      else
        up ← match r_parent x with Some q => r_ino <$> inodes s !! q | None => Some (r_ino x) end;
        l ← list_children (fuel_of s) (r_children x) s;
        let dt := Z.shiftr S_IFDIR 12 in
        Some (([46], r_ino x, dt) :: ([46; 46], up, dt) :: l, 0)
  end.

(** ** Inode operations *)

(** The VFS inode made for a ramfs inode. *)
Definition new_inode (ram : ramfs_inode) (p size : Z) (dir : bool) (s : ramfs H) : option (ramfs H * option Z) :=
  r ← kh_alloc sizeof_inode GFP_ZERO (fs_heap s);
  match r with
  | (h, None) => Some (with_heap h s, None)
  | (h, Some v) =>
      let i := mk_inode (r_ino ram) (r_mode ram) size dir (Some p) in
      Some (with_vinodes (<[v := i]> (vinodes s)) (with_heap h s), Some v)
  end.

(** The result is the [d_inode] of the dentry. *)
Definition ramfs_lookup (dir : Z) (d_name : list Z) (s : ramfs H) : option (ramfs H * option Z) :=
  v ← vinodes s !! dir;
  ram_dir ← v_private v;
  c ← ramfs_lookup_child ram_dir d_name s;
  match c with
  | None => Some (s, None)
  | Some c => x ← inodes s !! c; new_inode x c (r_size x) (S_ISDIR (r_mode x)) s
  end.

(** ramfs_create and ramfs_mkdir differ in the type bits and in the table of
    file operations. *)
Definition make_node (type mode : Z) (isdir : bool) (dir : Z) (d_name : list Z) (s : ramfs H)
  : option (ramfs H * Z * option Z) :=
  v ← vinodes s !! dir;
  match v_private v, d_name with
  | None, _ | _, [] => Some (s, - EINVAL, None)
  | Some ram_dir, _ =>
      e ← ramfs_lookup_child ram_dir d_name s;
      match e with
      | Some _ => Some (s, - EEXIST, None)
      | None =>
          r ← ramfs_alloc_inode (Z.lor type mode) d_name s;
          match r with
          | (s, None) => Some (s, - ENOMEM, None)
          | (s, Some f) =>
              r ← ramfs_add_child ram_dir f s;
              let '(s, ret) := r in
              if negb (ret =? 0) then s ← ramfs_free_inode (Some f) s; Some (s, - ENOTDIR, None)
              else
                x ← inodes s !! f;
                r ← new_inode x f 0 isdir s;
                match r with
                | (s, None) => Some (s, - ENOMEM, None)
                | (s, Some i) => Some (s, 0, Some i)
                end
          end
      end
  end.

Definition ramfs_create (dir : Z) (d_name : list Z) (mode : Z) (s : ramfs H) :=
  make_node S_IFREG mode false dir d_name s.
Definition ramfs_mkdir (dir : Z) (d_name : list Z) (mode : Z) (s : ramfs H) :=
  make_node S_IFDIR mode true dir d_name s.

(** The element whose sibling is [target], from [curr] on. *)
Fixpoint find_prev (fuel : nat) (curr : option Z) (target : Z) (s : ramfs H) : option (option Z) :=
  match fuel with
  | O => None
  | S fuel' =>
      match curr with
      | None => Some None
      | Some c =>
          x ← inodes s !! c;
          if bool_decide (r_sibling x = Some target) then Some (Some c)
          else find_prev fuel' (r_sibling x) target s
      end
  end.

(** Taking [target] out of the children of [dir]. *)
Definition unlink_child (dir target : Z) (s : ramfs H) : option (ramfs H) :=
  d ← inodes s !! dir;
  t ← inodes s !! target;
  if bool_decide (r_children d = Some target)
  then Some (upd dir (λ x, set_links (r_parent x) (r_sibling t) (r_sibling x) x) s)
  else
    c ← find_prev (fuel_of s) (r_children d) target s;
    match c with
    | None => Some s
    | Some c => Some (upd c (λ x, set_links (r_parent x) (r_children x) (r_sibling t) x) s)
    end.

Definition ramfs_rename (old_dir old_inode new_dir : Z) (new_name : list Z) (s : ramfs H)
  : option (ramfs H * Z) :=
  ov ← vinodes s !! old_dir; nv ← vinodes s !! new_dir; tv ← vinodes s !! old_inode;
  match v_private tv with
  | None => Some (s, - ENOENT)
  | Some target =>
      new_ram_dir ← v_private nv;
      e ← ramfs_lookup_child new_ram_dir new_name s;
      match e with
      | Some _ => Some (s, - EEXIST)
      | None =>
          old_ram_dir ← v_private ov;
          s ← unlink_child old_ram_dir target s;
          d ← inodes s !! new_ram_dir;
          let s := upd target (λ x, set_links (if old_ram_dir =? new_ram_dir then r_parent x else Some new_ram_dir)
                                      (r_children x) (r_children d) x) s in
          let s := upd new_ram_dir (λ x, set_links (r_parent x) (Some target) (r_sibling x) x) s in
          let s := upd target (set_name (take (Z.to_nat RAMFS_MAX_NAME) new_name)) s in
          Some (s, 0)
      end
  end.

Definition ramfs_unlink (dir : Z) (d_name : list Z) (s : ramfs H) : option (ramfs H * Z) :=
  v ← vinodes s !! dir;
  ram_dir ← v_private v;
  t ← ramfs_lookup_child ram_dir d_name s;
  match t with
  | None => Some (s, - ENOENT)
  | Some target =>
      x ← inodes s !! target;
      if S_ISDIR (r_mode x) then Some (s, - EISDIR)
      else
        s ← unlink_child ram_dir target s;
        s ← ramfs_free_inode (Some target) s;
        Some (s, 0)
  end.

Definition ramfs_rmdir (dir : Z) (d_name : list Z) (s : ramfs H) : option (ramfs H * Z) :=
  v ← vinodes s !! dir;
  ram_dir ← v_private v;
  t ← ramfs_lookup_child ram_dir d_name s;
  match t with
  | None => Some (s, - ENOENT)
  | Some target =>
      x ← inodes s !! target;
      if negb (S_ISDIR (r_mode x)) then Some (s, - ENOTDIR)
      else if bool_decide (r_children x ≠ None) then Some (s, - ENOTEMPTY)
      else
        s ← unlink_child ram_dir target s;
        s ← ramfs_free_inode (Some target) s;
        Some (s, 0)
  end.

(** ** Mounting *)

(** The static VFS inode of the root. *)
Definition ROOT_VINODE : Z := -1.

Definition ramfs_mount (s : ramfs H) : option (ramfs H * bool) :=
  let s := mk_fs (fs_root s) 1 0 (inodes s) (bufs s) (vinodes s) (fs_heap s) in
  let mode := Z.lor S_IFDIR 0x1ED in
  r ← ramfs_alloc_inode mode [] s;
  let '(s, root) := r in
  let s := mk_fs root (fs_next_ino s) (fs_inode_count s) (inodes s) (bufs s) (vinodes s) (fs_heap s) in
  match root with
  | None => Some (s, false)
  | Some p =>
      x ← inodes s !! p;
      Some (with_vinodes (<[ROOT_VINODE := mk_inode (r_ino x) mode 0 true (Some p)]> (vinodes s)) s, true)
  end.

(** ** Paths *)

(** The walk over the components of a path. *)
Fixpoint walk_path (fuel : nat) (current : Z) (path : list Z) (s : ramfs H) : option (option Z) :=
  match fuel with
  | O => None
  | S fuel' =>
      match path with
      | [] => Some (Some current)
      | _ =>
          let '(component, rest) := take_component (Z.to_nat RAMFS_MAX_NAME) path in
          c ← ramfs_lookup_child current component s;
          match c with
          | None => Some None
          | Some c => walk_path fuel' c (skip_slashes rest) s
          end
      end
  end.

Definition ramfs_lookup_inode_path (path : list Z) (s : ramfs H) : option (option Z) :=
  match fs_root s with
  | None => Some None
  | Some root => let p := skip_slashes path in walk_path (S (length p)) root p s
  end.

Definition ramfs_get_parent_dir (path : list Z) (s : ramfs H) : option (option (Z * list Z)) :=
  match ramfs_split_path path PARENT_PATH_SIZE (RAMFS_MAX_NAME + 1) with
  | inr _ => Some None
  | inl ([], filename) => Some ((λ r, (r, filename)) <$> fs_root s)
  | inl (parent_path, filename) =>
      d ← ramfs_lookup_inode_path parent_path s;
      match d with
      | None => Some None
      | Some dir =>
          x ← inodes s !! dir;
          Some (if S_ISDIR (r_mode x) then Some (dir, filename) else None)
      end
  end.

(** The allocation of the contents of a new file; [false] is -ENOMEM after the
    inode has been released. *)
Definition fill_content (f : Z) (data : list Z) (s : ramfs H) : option (ramfs H * bool) :=
  let len := Z.of_nat (length data) in
  r ← kh_alloc len GFP_KERNEL (fs_heap s);
  match r with
  | (h, None) => s ← ramfs_free_inode (Some f) (with_heap h s); Some (s, false)
  | (h, Some d) =>
      Some (upd f (set_data len (Some d) len) (with_bufs (<[d := data]> (bufs s)) (with_heap h s)), true)
  end.

Definition link_new (parent f : Z) (s : ramfs H) : option (ramfs H * Z) :=
  r ← ramfs_add_child parent f s;
  let '(s, ret) := r in
  if negb (ret =? 0) then s ← ramfs_free_inode (Some f) s; Some (s, - ENOTDIR)
  else Some (s, 0).

(** The end of ramfs_create_file. *)
Definition install_file (parent : Z) (filename : list Z) (mode : Z) (content : option (list Z)) (s : ramfs H)
  : option (ramfs H * Z) :=
  r ← ramfs_alloc_inode (Z.lor S_IFREG mode) filename s;
  match r with
  | (s, None) => Some (s, - ENOMEM)
  | (s, Some f) =>
      r ← (match content with
           | None => Some (s, true)
           | Some data => fill_content f data s
           end);
      let '(s, ok) := (r : ramfs H * bool) in
      if ok then link_new parent f s else Some (s, - ENOMEM)
  end.

Definition ramfs_create_file (path : list Z) (mode : Z) (content : option (list Z)) (s : ramfs H)
  : option (ramfs H * Z) :=
  match fs_root s with
  | None => Some (s, - ENOENT)
  | Some _ =>
      pd ← ramfs_get_parent_dir path s;
      match pd with
      | None => Some (s, - ENOENT)
      | Some (parent, filename) =>
          e ← ramfs_lookup_child parent filename s;
          match e with
          | Some _ => Some (s, - EEXIST)
          | None =>
              install_file parent filename mode content s
          end
      end
  end.

Definition ramfs_truncate_file (inode_private : option Z) (s : ramfs H) : option (ramfs H * Z) :=
  match inode_private with
  | None => Some (s, - EINVAL)
  | Some p =>
      x ← inodes s !! p;
      if S_ISDIR (r_mode x) then Some (s, - EINVAL)
      else Some (upd p (set_data 0 (r_data x) (r_capacity x)) s, 0)
  end.

(** The inode is allocated before the name is checked. *)
Definition ramfs_create_file_bytes (path : list Z) (mode : Z) (data : option (list Z)) (s : ramfs H)
  : option (ramfs H * Z) :=
  match fs_root s with
  | None => Some (s, - ENOENT)
  | Some _ =>
      pd ← ramfs_get_parent_dir path s;
      match pd with
      | None => Some (s, - ENOENT)
      | Some (parent, filename) =>
          r ← ramfs_alloc_inode (Z.lor S_IFREG mode) filename s;
          match r with
          | (s, None) => Some (s, - ENOMEM)
          | (s, Some f) =>
              e ← ramfs_lookup_child parent filename s;
              match e with
              | Some _ => s ← ramfs_free_inode (Some f) s; Some (s, - EEXIST)
              | None =>
                  r ← (match data with
                       | Some ((_ :: _) as l) => fill_content f l s
                       | _ => Some (s, true)
                       end);
                  let '(s, ok) := (r : ramfs H * bool) in
                  if ok then link_new parent f s else Some (s, - ENOMEM)
              end
          end
      end
  end.

Definition ramfs_create_dir (path : list Z) (mode : Z) (s : ramfs H) : option (ramfs H * Z) :=
  match fs_root s with
  | None => Some (s, - ENOENT)
  | Some root =>
      match ramfs_split_path path PARENT_PATH_SIZE (RAMFS_MAX_NAME + 1) with
      | inr _ => Some (s, - EINVAL)
      | inl (parent_path, dirname) =>
          pd ← match parent_path with
               | [] => Some (Some root)
               | _ =>
                   d ← ramfs_lookup_inode_path parent_path s;
                   match d with
                   | None => Some None
                   | Some dir => x ← inodes s !! dir; Some (if S_ISDIR (r_mode x) then Some dir else None)
                   end
               end;
          match pd with
          | None => Some (s, - ENOENT)
          | Some parent =>
              e ← ramfs_lookup_child parent dirname s;
              match e with
              | Some c => x ← inodes s !! c; Some (s, if S_ISDIR (r_mode x) then 0 else - EEXIST)
              | None =>
                  r ← ramfs_alloc_inode (Z.lor S_IFDIR mode) dirname s;
                  match r with
                  | (s, None) => Some (s, - ENOMEM)
                  | (s, Some d) => r ← ramfs_add_child parent d s; Some (fst r, 0)
                  end
              end
          end
      end
  end.

(** Size, directory flag and inode pointer; [None] is the result -1. *)
Definition ramfs_lookup_path_info (path : list Z) (s : ramfs H) : option (option (Z * bool * option Z)) :=
  match fs_root s with
  | None => Some None
  | Some root =>
      let path := match path with c :: p => if c =? SLASH then p else path | [] => [] end in
      match path with
      | [] => Some (Some (0, true, None))
      | _ =>
          c ← walk_path (S (length path)) root path s;
          match c with
          | None => Some None
          | Some c => x ← inodes s !! c; Some (Some (r_size x, S_ISDIR (r_mode x), Some c))
          end
      end
  end.
End Ops.

(** ** The tree *)

(** The siblings from [o] on are [l]. *)
Fixpoint chain (m : gmap Z ramfs_inode) (o : option Z) (l : list Z) : Prop :=
  match l with
  | [] => o = None
  | c :: l' => o = Some c ∧ ∃ x, m !! c = Some x ∧ chain m (r_sibling x) l'
  end.

Definition name_ok (n : list Z) : Prop :=
  n ≠ [] ∧ Forall (λ c, c ≠ SLASH) n ∧ Z.of_nat (length n) ≤ RAMFS_MAX_NAME.

(** An allocation that backs the contents of a file. *)
Definition data_ok (b : gmap Z (list Z)) (M : gmap Z Z) (x : ramfs_inode) : Prop :=
  match r_data x with
  | None => r_size x = 0 ∧ r_capacity x = 0
  | Some d => ∃ l, b !! d = Some l ∧ Z.of_nat (length l) = r_capacity x ∧
                   0 ≤ r_size x ≤ r_capacity x ∧ r_capacity x < 2 ^ 62 ∧ M !! d = Some (r_capacity x)
  end.

Section Tree.
Context {H : Type} `{!KernelHeap H}.
Implicit Types s : ramfs H.

(** [C p] is the list of the children of [p]; [M] is what the heap has given
    out. *)
Record fs_wf (s : ramfs H) (C : Z → list Z) (M : gmap Z Z) : Prop := {
  wf_root : ∃ r x, fs_root s = Some r ∧ inodes s !! r = Some x ∧ S_ISDIR (r_mode x) = true ∧ r_parent x = None;
  wf_chain p x : inodes s !! p = Some x → chain (inodes s) (r_children x) (C p);
  wf_nodup p : NoDup (C p);
  wf_child p c : c ∈ C p →
    is_Some (inodes s !! p) ∧ ∃ y, inodes s !! c = Some y ∧ r_parent y = Some p ∧ name_ok (r_name y);
  wf_leaf p x : inodes s !! p = Some x → S_ISDIR (r_mode x) = false → C p = [];
  wf_names p a b x y : a ∈ C p → b ∈ C p → inodes s !! a = Some x → inodes s !! b = Some y →
    r_name x = r_name y → a = b;
  wf_inode p x : inodes s !! p = Some x → M !! p = Some sizeof_ramfs_inode ∧ data_ok (bufs s) M x;
  wf_data p q x y d : inodes s !! p = Some x → r_data x = Some d →
    inodes s !! d = None ∧ (inodes s !! q = Some y → r_data y = Some d → p = q);
  wf_heap : kh_inv (fs_heap s) M
}.

Lemma name_eq_spec a b : name_eq a b = bool_decide (a = b).
Proof.
  revert b. induction a as [|x a IH]; intros [|y b]; cbn [name_eq]; try done.
  rewrite IH. destruct (Z.eqb_spec x y) as [->|Hne]; cbn [andb].
  - apply bool_decide_ext. split; [by intros ->|by intros [= ->]].
  - symmetry. apply bool_decide_eq_false. by intros [= -> ->].
Qed.

Lemma chain_in m o l c : chain m o l → c ∈ l → is_Some (m !! c).
Proof.
  revert o. induction l as [|a l IH]; intros o Hc Hin; [by apply elem_of_nil in Hin|].
  destruct Hc as (_ & x & Hx & Hc). apply elem_of_cons in Hin as [->|Hin]; eauto.
Qed.

Lemma chain_frame m m' o l :
  (∀ c x, c ∈ l → m !! c = Some x → ∃ x', m' !! c = Some x' ∧ r_sibling x' = r_sibling x) →
  chain m o l → chain m' o l.
Proof.
  revert o. induction l as [|a l IH]; intros o Hf; cbn; [done|].
  intros (Ho & x & Hx & Hc). split; [done|].
  destruct (Hf a x) as (x' & Hx' & Hs); [by apply elem_of_cons; left|done|].
  exists x'. split; [done|]. rewrite Hs. apply IH; [|done]. intros c y Hin. apply Hf. by apply elem_of_cons; right.
Qed.

Lemma children_fit s C M p : fs_wf s C M → (length (C p) < fuel_of s)%nat.
Proof.
  intros Hwf. assert (C p ⊆+ elements (dom (inodes s) : gset Z)) as Hsub.
  { apply NoDup_submseteq; [apply Hwf|]. intros c Hc. apply elem_of_elements, elem_of_dom.
    destruct (wf_child _ _ _ Hwf p c Hc) as (_ & y & -> & _). by eexists. }
  apply submseteq_length in Hsub. unfold fuel_of.
  rewrite <- (size_dom (D := gset Z)). apply Nat.lt_succ_r. exact Hsub.
Qed.

Lemma find_child_spec s o l name fuel :
  chain (inodes s) o l → (length l < fuel)%nat →
  ∃ r, find_child fuel o name s = Some r ∧
    match r with
    | Some c => c ∈ l ∧ ∃ x, inodes s !! c = Some x ∧ r_name x = name
    | None => ∀ c x, c ∈ l → inodes s !! c = Some x → r_name x ≠ name
    end.
Proof.
  revert o l. induction fuel as [|fuel IH]; intros o l Hc Hf; [lia|]. cbn [find_child].
  destruct l as [|a l]; cbn in Hc.
  - rewrite Hc. exists None. split; [done|]. by intros c x Hin%elem_of_nil.
  - destruct Hc as (-> & x & Hx & Hc). rewrite Hx. cbn [mbind option_bind]. rewrite name_eq_spec.
    case_bool_decide as Hn.
    + exists (Some a). split; [done|]. split; [by apply elem_of_cons; left|]. eauto.
    + cbn [length] in Hf. destruct (IH _ _ Hc ltac:(lia)) as (r & E & Hr). exists r. split; [done|].
      destruct r as [c|].
      * destruct Hr as [? ?]. split; [by apply elem_of_cons; right|done].
      * intros c y [->|Hin]%elem_of_cons Hy; [congruence|by eapply Hr].
Qed.

(** The entry called [n] of the directory [p]. *)
Definition look (s : ramfs H) (p : Z) (n : list Z) : option Z := default None (ramfs_lookup_child p n s).

(** The children of [p] by name. *)
Definition child_of (s : ramfs H) (C : Z → list Z) (p : Z) (n : list Z) (c : Z) : Prop :=
  c ∈ C p ∧ ∃ x, inodes s !! c = Some x ∧ r_name x = n.

Lemma lookup_child_spec s C M p n :
  fs_wf s C M → is_Some (inodes s !! p) →
  ramfs_lookup_child p n s = Some (look s p n) ∧ ∀ c, look s p n = Some c ↔ child_of s C p n c.
Proof.
  intros Hwf [x Hx]. unfold look, ramfs_lookup_child. rewrite Hx. cbn [mbind option_bind].
  destruct (S_ISDIR (r_mode x)) eqn:Ed; cbn [negb].
  - destruct (find_child_spec s _ _ n (fuel_of s) (wf_chain _ _ _ Hwf p x Hx) (children_fit _ _ _ p Hwf)) as (r & E & Hr).
    rewrite E. split; [done|]. cbn. intros c. destruct r as [c'|].
    + destruct Hr as (Hin & y & Hy & Hn). split.
      * intros [= <-]. split; [done|]. eauto.
      * intros (Hin' & y' & Hy' & Hn'). f_equal. eapply (wf_names _ _ _ Hwf p); eauto. congruence.
    + split; [done|]. intros (Hin & y & Hy & Hn). by apply Hr in Hy.
  - split; [done|]. cbn. intros c. split; [done|]. intros [Hin _].
    by rewrite (wf_leaf _ _ _ Hwf p x Hx Ed) in Hin; apply elem_of_nil in Hin.
Qed.

Lemma look_in s C M p n c : fs_wf s C M → look s p n = Some c → is_Some (inodes s !! p) ∧ is_Some (inodes s !! c).
Proof.
  intros Hwf E. assert (is_Some (inodes s !! p)) as Hp.
  { unfold look, ramfs_lookup_child in E. destruct (inodes s !! p); [by eexists|done]. }
  split; [done|]. apply (lookup_child_spec s C M p n Hwf Hp) in E as (_ & x & -> & _). by eexists.
Qed.

Lemma look_parent s C M p n c x :
  fs_wf s C M → look s p n = Some c → inodes s !! c = Some x → r_parent x = Some p ∧ r_name x = n.
Proof.
  intros Hwf E Hx. destruct (look_in _ _ _ _ _ _ Hwf E) as [Hp _].
  apply (lookup_child_spec s C M p n Hwf Hp) in E as (Hin & y & Hy & Hn).
  destruct (wf_child _ _ _ Hwf p c Hin) as (_ & z & Hz & Hpar & _). rewrite Hx in Hy, Hz. by simplify_eq.
Qed.

(** ** Paths *)

(** The path of the names [ns], without and with the leading slash. *)
Fixpoint join (ns : list (list Z)) : list Z :=
  match ns with
  | [] => []
  | n :: ns' => n ++ match ns' with [] => [] | _ => SLASH :: join ns' end
  end.
Definition path_of (ns : list (list Z)) : list Z := SLASH :: join ns.

Lemma take_component_ok k n rest :
  Forall (λ c, c ≠ SLASH) n → (length n ≤ k)%nat → (rest = [] ∨ ∃ r, rest = SLASH :: r) →
  take_component k (n ++ rest) = (n, rest).
Proof.
  intros Hn. revert k. induction Hn as [|c n Hc _ IH]; intros k Hk Hr.
  - destruct Hr as [->|[r ->]]; by destruct k.
  - destruct k as [|k]; cbn in Hk; [lia|]. cbn [take_component app].
    rewrite (proj2 (Z.eqb_neq _ _) Hc). by rewrite IH by (lia || done).
Qed.

Lemma skip_join ns rest : Forall name_ok ns → ns ≠ [] → skip_slashes (join ns ++ rest) = join ns ++ rest.
Proof.
  intros H0 Hne. destruct H0 as [|n ns (Hn & Hs & _) _]; [done|]. destruct Hs as [|c n Hc _]; [done|].
  cbn. by rewrite (proj2 (Z.eqb_neq _ _) Hc).
Qed.

Lemma skip_join_all ns : Forall name_ok ns → skip_slashes (join ns) = join ns.
Proof.
  intros H0. destruct ns as [|n ns]; [done|]. rewrite <- (app_nil_r (join (n :: ns))). by apply skip_join.
Qed.

Lemma join_length ns : Forall name_ok ns → (length ns ≤ length (join ns))%nat.
Proof.
  induction 1 as [|n ns (Hn & _) _ IH]; [done|]. cbn [join length]. rewrite length_app.
  destruct n; [done|]. destruct ns; cbn [length] in *; lia.
Qed.

Lemma join_cons_ne n ns : name_ok n → ∃ c l, join (n :: ns) = c :: l.
Proof. intros (Hn & _). destruct n as [|c n]; [done|]. cbn. eauto. Qed.

Lemma join_snoc ns n : ns ≠ [] → join (ns ++ [n]) = join ns ++ SLASH :: n.
Proof.
  induction ns as [|m ns IH]; [done|]. intros _. destruct ns as [|m' ns].
  - cbn. by rewrite !app_nil_r.
  - change (join ((m :: m' :: ns) ++ [n])) with (m ++ SLASH :: join ((m' :: ns) ++ [n])).
    rewrite IH by done. change (join (m :: m' :: ns)) with (m ++ SLASH :: join (m' :: ns)).
    by rewrite <- app_assoc.
Qed.

Lemma last_slash_none i n acc : Forall (λ c, c ≠ SLASH) n → last_slash i n acc = acc.
Proof.
  intros Hn. revert i acc. induction Hn as [|c n Hc _ IH]; intros i acc; cbn; [done|].
  rewrite (proj2 (Z.eqb_neq _ _) Hc). apply IH.
Qed.

Lemma last_slash_app i a n acc :
  Forall (λ c, c ≠ SLASH) n → last_slash i (a ++ SLASH :: n) acc = Some (i + Z.of_nat (length a)).
Proof.
  intros Hn. revert i acc. induction a as [|c a IH]; intros i acc; cbn [app last_slash length].
  - rewrite Z.eqb_refl, last_slash_none by done. f_equal. lia.
  - rewrite IH. f_equal. lia.
Qed.

Lemma split_path_ok ns n :
  Forall name_ok ns → name_ok n → Z.of_nat (length (join ns)) < PARENT_PATH_SIZE →
  ramfs_split_path (path_of (ns ++ [n])) PARENT_PATH_SIZE (RAMFS_MAX_NAME + 1) = inl (join ns, n).
Proof.
  intros Hns Hn Hlen. unfold ramfs_split_path, path_of. cbn [skip_slashes]. rewrite Z.eqb_refl.
  rewrite skip_join_all by (apply Forall_app; split; [done|by constructor]).
  pose proof Hn as (Hne & Hs & Hl). unfold RAMFS_MAX_NAME, PARENT_PATH_SIZE in *.
  assert (take (Z.to_nat (255 + 1 - 1)) n = n) as Htn by (apply take_ge; lia).
  destruct (decide (ns = [])) as [->|Hnn].
  - cbn [app join]. rewrite app_nil_r. destruct n as [|c n]; [done|]. rewrite last_slash_none by done. by rewrite Htn.
  - rewrite join_snoc by done. destruct (join ns ++ SLASH :: n) as [|c l] eqn:E.
    { by apply app_eq_nil in E as [_ ?]. }
    rewrite <- E. rewrite last_slash_app by done. rewrite Z.add_0_l.
    assert (drop (Z.to_nat (Z.of_nat (length (join ns)) + 1)) (join ns ++ SLASH :: n) = n) as ->.
    { replace (Z.to_nat (Z.of_nat (length (join ns)) + 1)) with (S (length (join ns))) by lia.
      rewrite drop_app_ge by lia. by replace (S (length (join ns)) - length (join ns))%nat with 1%nat by lia. }
    rewrite Htn. destruct n as [|c' n']; [done|].
    assert ((if Z.of_nat (length (join ns)) <? 256 - 1 then Z.of_nat (length (join ns)) else 256 - 1)
            = Z.of_nat (length (join ns))) as ->.
    { destruct (Z.ltb_spec (Z.of_nat (length (join ns))) (256 - 1)); lia. }
    by rewrite Nat2Z.id, take_app_length.
Qed.

(** The node reached from [p] by the names [ns]. *)
Definition resolve (s : ramfs H) (p : Z) (ns : list (list Z)) : option Z :=
  foldl (λ o n, o ≫= λ q, look s q n) (Some p) ns.

Lemma resolve_snoc s p ns n : resolve s p (ns ++ [n]) = resolve s p ns ≫= λ q, look s q n.
Proof. unfold resolve. by rewrite foldl_app. Qed.

Lemma resolve_from_None s ns : foldl (λ o n, o ≫= λ q, look s q n) None ns = None.
Proof. by induction ns. Qed.

Lemma resolve_cons s p n ns : resolve s p (n :: ns) = look s p n ≫= λ q, resolve s q ns.
Proof. unfold resolve. cbn. destruct (look s p n); [done|]. apply resolve_from_None. Qed.

Lemma resolve_in s C M p ns c :
  fs_wf s C M → is_Some (inodes s !! p) → resolve s p ns = Some c → is_Some (inodes s !! c).
Proof.
  intros Hwf Hp. destruct ns as [|n ns] using rev_ind.
  - by intros [= <-].
  - rewrite resolve_snoc. destruct (resolve s p ns) as [q|]; [|done]. cbn. intros E.
    by destruct (look_in _ _ _ _ _ _ Hwf E).
Qed.

(** A node has one path. *)
Lemma resolve_inj s C M r ns ms c :
  fs_wf s C M → fs_root s = Some r → resolve s r ns = Some c → resolve s r ms = Some c → ns = ms.
Proof.
  intros Hwf Hr. destruct (wf_root _ _ _ Hwf) as (r' & rx & Er & Hrx & _ & Hrp). rewrite Hr in Er. simplify_eq.
  assert (∀ p n, look s p n ≠ Some r') as Hnr.
  { intros p n E. destruct (look_parent _ _ _ _ _ _ _ Hwf E Hrx) as [? _]. congruence. }
  revert ms c. induction ns as [|n ns IH] using rev_ind; intros ms c.
  - intros [= <-]. destruct ms as [|m ms _] using rev_ind; [done|]. rewrite resolve_snoc.
    destruct (resolve s r' ms) as [q|]; [|done]. cbn. intros E. by apply Hnr in E.
  - destruct ms as [|m ms _] using rev_ind.
    + rewrite resolve_snoc. destruct (resolve s r' ns) as [q|]; [|done]. cbn. intros E [= <-]. by apply Hnr in E.
    + rewrite !resolve_snoc. destruct (resolve s r' ns) as [q|] eqn:Eq; [|done].
      destruct (resolve s r' ms) as [q'|] eqn:Eq'; [|done]. cbn. intros E E'.
      destruct (look_in _ _ _ _ _ _ Hwf E) as [_ [x Hx]].
      destruct (look_parent _ _ _ _ _ _ _ Hwf E Hx) as [? <-], (look_parent _ _ _ _ _ _ _ Hwf E' Hx) as [? <-].
      assert (q' = q) as -> by congruence. by rewrite (IH ms q).
Qed.

Lemma walk_join s C M fuel p ns :
  fs_wf s C M → is_Some (inodes s !! p) → Forall name_ok ns → (length ns < fuel)%nat →
  walk_path fuel p (join ns) s = Some (resolve s p ns).
Proof.
  intros Hwf Hp Hns. revert p ns Hp Hns. induction fuel as [|fuel IH]; intros p ns Hp Hns Hf; [lia|].
  destruct Hns as [|n ns Hn Hns]; [done|]. cbn [walk_path].
  destruct (join_cons_ne n ns Hn) as (c0 & l0 & E). rewrite E, <- E. cbn [join].
  rewrite take_component_ok.
  2: { apply Hn. }
  2: { destruct Hn as (_ & _ & Hl). unfold RAMFS_MAX_NAME in *. lia. }
  2: { destruct ns; [by left|right; eauto]. }
  destruct (lookup_child_spec s C M p n Hwf Hp) as [-> _]. cbn [mbind option_bind]. rewrite resolve_cons.
  destruct (look s p n) as [c|] eqn:El; [|done]. cbn [mbind option_bind].
  destruct (look_in _ _ _ _ _ _ Hwf El) as [_ Hc]. cbn [length] in Hf.
  rewrite <- (IH c ns) by (done || lia). f_equal. destruct ns as [|m ns]; [done|].
  cbn [skip_slashes]. rewrite Z.eqb_refl. by apply skip_join_all.
Qed.

Lemma lookup_path_resolve s C M r ns :
  fs_wf s C M → fs_root s = Some r → Forall name_ok ns →
  ramfs_lookup_inode_path (join ns) s = Some (resolve s r ns).
Proof.
  intros Hwf Hr Hns. unfold ramfs_lookup_inode_path. rewrite Hr, skip_join_all by done.
  destruct (wf_root _ _ _ Hwf) as (r' & x & Er & Hx & _). rewrite Hr in Er. simplify_eq.
  eapply walk_join; [done|by eexists|done|]. pose proof (join_length ns Hns). lia.
Qed.

Lemma path_info_resolve s C M r ns :
  fs_wf s C M → fs_root s = Some r → Forall name_ok ns → ns ≠ [] →
  ramfs_lookup_path_info (path_of ns) s =
  Some (resolve s r ns ≫= λ c, x ← inodes s !! c; Some (r_size x, S_ISDIR (r_mode x), Some c)).
Proof.
  intros Hwf Hr Hns Hne. unfold ramfs_lookup_path_info, path_of. rewrite Hr, Z.eqb_refl.
  destruct (wf_root _ _ _ Hwf) as (r' & x & Er & Hx & _). rewrite Hr in Er. simplify_eq.
  destruct ns as [|n ns]; [done|]. destruct (join_cons_ne n ns) as (c0 & l0 & E); [by inversion Hns|].
  rewrite E, <- E. erewrite walk_join; [|done|by eexists|done|pose proof (join_length _ Hns); lia].
  cbn [mbind option_bind]. destruct (resolve s r' (n :: ns)) as [c|] eqn:Ec; [|done]. cbn [mbind option_bind].
  destruct (resolve_in _ _ _ _ _ _ Hwf ltac:(by eexists) Ec) as [y ->]. done.
Qed.

(** What a path names: a directory, or a file and its contents. *)
Definition contents (s : ramfs H) (x : ramfs_inode) : list Z :=
  match r_data x with Some d => take (Z.to_nat (r_size x)) (default [] (bufs s !! d)) | None => [] end.

Definition file_at (s : ramfs H) (ns : list (list Z)) : option (bool * list Z) :=
  match ramfs_lookup_path_info (path_of ns) s with
  | Some (Some (_, isdir, Some c)) => (λ x, (isdir, contents s x)) <$> inodes s !! c
  | Some (Some (_, isdir, None)) => Some (isdir, [])
  | _ => None
  end.

Lemma file_at_resolve s C M r ns :
  fs_wf s C M → fs_root s = Some r → Forall name_ok ns → ns ≠ [] →
  file_at s ns = resolve s r ns ≫= λ c, x ← inodes s !! c; Some (S_ISDIR (r_mode x), contents s x).
Proof.
  intros Hwf Hr Hns Hne. unfold file_at. erewrite path_info_resolve by done.
  destruct (resolve s r ns) as [c|]; [|done]. cbn [mbind option_bind].
  destruct (inodes s !! c) as [x|] eqn:Ex; [|done]. cbn [mbind option_bind]. by rewrite Ex.
Qed.

Lemma get_parent_ok s C M r ns n d x :
  fs_wf s C M → fs_root s = Some r → Forall name_ok ns → name_ok n →
  Z.of_nat (length (join ns)) < PARENT_PATH_SIZE →
  resolve s r ns = Some d → inodes s !! d = Some x → S_ISDIR (r_mode x) = true →
  ramfs_get_parent_dir (path_of (ns ++ [n])) s = Some (Some (d, n)).
Proof.
  intros Hwf Hr Hns Hn Hl Hd Hx Hdir. unfold ramfs_get_parent_dir. rewrite split_path_ok by done.
  destruct ns as [|m ns].
  - cbn [join]. rewrite Hr. cbn. unfold resolve in Hd. cbn in Hd. congruence.
  - destruct (join_cons_ne m ns) as (c0 & l0 & E); [by inversion Hns|]. rewrite E, <- E.
    rewrite (lookup_path_resolve _ _ _ _ _ Hwf Hr Hns), Hd. cbn [mbind option_bind]. rewrite Hx. cbn [mbind option_bind].
    by rewrite Hdir.
Qed.

(** ** The effect of the operations *)

Lemma look_ext s s' C C' M M' p n :
  fs_wf s C M → fs_wf s' C' M' → is_Some (inodes s !! p) → is_Some (inodes s' !! p) →
  (∀ c, child_of s C p n c ↔ child_of s' C' p n c) → look s p n = look s' p n.
Proof.
  intros H1 H2 Hp Hp' Hc. apply option_eq. intros c.
  rewrite (proj2 (lookup_child_spec s C M p n H1 Hp)), (proj2 (lookup_child_spec s' C' M' p n H2 Hp')). apply Hc.
Qed.

Lemma look_same_inodes s s' p n : inodes s' = inodes s → look s' p n = look s p n.
Proof.
  intros Hin. assert (∀ fuel o, find_child fuel o n s' = find_child fuel o n s) as Hf.
  { induction fuel as [|fuel IH]; intros o; cbn; [done|]. destruct o as [c|]; [|done]. rewrite Hin.
    destruct (inodes s !! c) as [x|]; cbn; [|done]. by rewrite IH. }
  unfold look, ramfs_lookup_child, fuel_of. rewrite Hin.
  destruct (inodes s !! p) as [x|]; [|done]. cbn [mbind option_bind]. by rewrite Hf.
Qed.

(** An inode that no directory lists. *)
Definition orphan (s : ramfs H) (C : Z → list Z) (f : Z) : Prop :=
  is_Some (inodes s !! f) ∧ (∀ q, f ∉ C q) ∧ fs_root s ≠ Some f ∧ C f = [].

Lemma no_children s C M p : fs_wf s C M → inodes s !! p = None → C p = [].
Proof.
  intros Hwf Hp. destruct (C p) as [|c l] eqn:E; [done|].
  destruct (wf_child _ _ _ Hwf p c) as ([x Hx] & _); [rewrite E; by apply elem_of_cons; left|]. congruence.
Qed.

Lemma data_ok_fresh b M x p n : data_ok b M x → M !! p = None → data_ok b (<[p := n]> M) x.
Proof.
  unfold data_ok. destruct (r_data x) as [d|]; [|done]. intros (l & Hb & Hl & Hs & Hc & HM) Hp.
  exists l. do 4 (split; [done|]). rewrite lookup_insert_ne by congruence. done.
Qed.

(** The heap alone changes. *)
Lemma wf_with_heap s C M h : fs_wf s C M → kh_inv h M → fs_wf (with_heap h s) C M.
Proof. intros [H1 H2 H3 H4 H5 H6 H7 H8 H9] Hh. by split. Qed.

Lemma fresh_pointer s C M p : fs_wf s C M → M !! p = None →
  inodes s !! p = None ∧ ∀ q x, inodes s !! q = Some x → r_data x ≠ Some p.
Proof.
  intros Hwf HM. split.
  - destruct (inodes s !! p) as [x|] eqn:E; [|done]. destruct (wf_inode _ _ _ Hwf p x E). congruence.
  - intros q x Hx Hd. destruct (wf_inode _ _ _ Hwf q x Hx) as [_ Hok]. unfold data_ok in Hok. rewrite Hd in Hok.
    destruct Hok as (_ & _ & _ & _ & _ & ?). congruence.
Qed.

Lemma alloc_inode_ok s C M mode name :
  fs_wf s C M →
  ∃ s' r, ramfs_alloc_inode mode name s = Some (s', r) ∧ fs_root s' = fs_root s ∧ bufs s' = bufs s ∧
    vinodes s' = vinodes s ∧
    match r with
    | None => fs_wf s' C M ∧ inodes s' = inodes s
    | Some p =>
        let x := mk_ram (fs_next_ino s) mode 0 None 0 None None None (take (Z.to_nat RAMFS_MAX_NAME) name) in
        M !! p = None ∧ inodes s !! p = None ∧ inodes s' = <[p := x]> (inodes s) ∧
        fs_wf s' C (<[p := sizeof_ramfs_inode]> M) ∧ orphan s' C p
    end.
Proof.
  intros Hwf. unfold ramfs_alloc_inode.
  destruct (kh_alloc_ok (fs_heap s) M sizeof_ramfs_inode GFP_ZERO (wf_heap _ _ _ Hwf) ltac:(done)) as (h & r & -> & Hr).
  cbn [mbind option_bind]. destruct r as [p|].
  2: { do 2 eexists. split; [reflexivity|]. do 3 (split; [done|]). split; [by apply wf_with_heap|done]. }
  destruct Hr as (_ & _ & HM & Hh). destruct (fresh_pointer _ _ _ _ Hwf HM) as [Hp Hd].
  do 2 eexists. split; [reflexivity|]. do 3 (split; [done|]). cbn zeta. split; [done|]. split; [done|]. split; [done|].
  set (x := mk_ram _ _ _ _ _ _ _ _ _). set (s' := mk_fs _ _ _ _ _ _ _).
  assert (∀ q y, q ≠ p → inodes s' !! q = Some y ↔ inodes s !! q = Some y) as Hold.
  { intros q y Hq. unfold s'. cbn [inodes]. by rewrite lookup_insert_ne by done. }
  assert (inodes s' !! p = Some x) as Hpx by (unfold s'; cbn [inodes]; by rewrite lookup_insert_eq).
  assert (∀ q, p ∉ C q) as Hpc.
  { intros q Hin. destruct (wf_child _ _ _ Hwf q p Hin) as (_ & y & ? & _). congruence. }
  assert (∀ q c, c ∈ C q → c ≠ p) as Hcp by (intros q c Hin ->; by apply (Hpc q)).
  assert (C p = []) as HCp by (by eapply no_children).
  split.
  - split.
    + destruct (wf_root _ _ _ Hwf) as (r & y & Hr & Hy & ?). exists r, y. split; [done|].
      split; [|done]. apply Hold; [congruence|done].
    + intros q y Hy. destruct (decide (q = p)) as [->|Hq].
      * rewrite Hpx in Hy. injection Hy as <-. by rewrite HCp.
      * apply Hold in Hy; [|done]. eapply chain_frame; [|by eapply wf_chain]. intros c z Hin Hz.
        exists z. split; [|done]. apply Hold; [by eapply Hcp|done].
    + apply Hwf.
    + intros q c Hin. destruct (wf_child _ _ _ Hwf q c Hin) as ([z Hz] & y & Hy & ?). split.
      * exists z. apply Hold; [congruence|done].
      * exists y. split; [apply Hold; [by eapply Hcp|done]|done].
    + intros q y Hy Hdir. destruct (decide (q = p)) as [->|Hq]; [done|]. apply Hold in Hy; [|done]. by eapply wf_leaf.
    + intros q a b y z Ha Hb Hy Hz. apply Hold in Hy; [|by eapply Hcp]. apply Hold in Hz; [|by eapply Hcp].
      by eapply (wf_names _ _ _ Hwf).
    + intros q y Hy. destruct (decide (q = p)) as [->|Hq].
      * rewrite Hpx in Hy. injection Hy as <-. by rewrite lookup_insert_eq.
      * apply Hold in Hy; [|done]. rewrite lookup_insert_ne by done. destruct (wf_inode _ _ _ Hwf q y Hy).
        split; [done|]. by apply data_ok_fresh.
    + intros q q' y z d Hy Hyd. assert (q ≠ p) as Hq by (intros ->; rewrite Hpx in Hy; by injection Hy as <-).
      apply Hold in Hy; [|done]. destruct (wf_data _ _ _ Hwf q q' y z d Hy Hyd) as [Hn Hu]. split.
      * unfold s'. cbn [inodes]. rewrite lookup_insert_ne; [done|]. intros ->. by apply (Hd q y).
      * intros Hz Hzd. assert (q' ≠ p) as Hq' by (intros ->; rewrite Hpx in Hz; by injection Hz as <-).
        apply Hold in Hz; [|done]. by apply Hu.
    + done.
  - split; [by eexists|]. split; [done|]. split; [|done]. intros Hr.
    destruct (wf_root _ _ _ Hwf) as (r & y & Hr' & Hy & ?). cbn in Hr. congruence.
Qed.

(** Changing the contents of one inode. *)
Lemma wf_set_data s s' C M M' f x size d cap :
  fs_wf s C M → inodes s !! f = Some x → fs_root s' = fs_root s →
  inodes s' = <[f := set_data size d cap x]> (inodes s) → kh_inv (fs_heap s') M' →
  (∀ q y, inodes s !! q = Some y → M' !! q = Some sizeof_ramfs_inode) →
  (∀ q y, q ≠ f → inodes s !! q = Some y → data_ok (bufs s') M' y) →
  data_ok (bufs s') M' (set_data size d cap x) →
  (∀ e, d = Some e → inodes s !! e = None ∧ ∀ q y, q ≠ f → inodes s !! q = Some y → r_data y ≠ Some e) →
  fs_wf s' C M' ∧ ∀ p n, is_Some (inodes s !! p) → look s' p n = look s p n.
Proof.
  intros Hwf Hx Hroot Hin Hheap HM Hother Hnew Hd.
  assert (∀ q y', inodes s' !! q = Some y' → ∃ y, inodes s !! q = Some y ∧
    y' = if decide (q = f) then set_data size d cap y else y) as Hback.
  { intros q y'. rewrite Hin, lookup_insert. repeat case_decide; try congruence; subst; [|eauto].
    intros [= <-]. eauto. }
  assert (∀ q y, inodes s !! q = Some y →
    inodes s' !! q = Some (if decide (q = f) then set_data size d cap y else y)) as Hfwd.
  { intros q y Hy. rewrite Hin, lookup_insert. repeat case_decide; try congruence; subst; try done; congruence. }
  assert (∀ q, is_Some (inodes s !! q) ↔ is_Some (inodes s' !! q)) as Hdom.
  { intros q. split; intros [y Hy]; [apply Hfwd in Hy; eauto|apply Hback in Hy as (? & ? & _); eauto]. }
  assert (fs_wf s' C M') as Hwf'.
  { split.
    - destruct (wf_root _ _ _ Hwf) as (r & y & Hr & Hy & ? & ?). exists r.
      eexists. split; [congruence|]. split; [by apply Hfwd|]. by case_decide.
    - intros q y' (y & Hy & ->)%Hback. assert (chain (inodes s') (r_children y) (C q)) as Hc.
      { eapply chain_frame; [|by eapply wf_chain]. intros c z _ Hz. eexists. split; [by apply Hfwd|].
        by case_decide. }
      by case_decide.
    - apply Hwf.
    - intros q c Hc. destruct (wf_child _ _ _ Hwf q c Hc) as (Hq & y & Hy & ? & ?). split; [by apply Hdom|].
      eexists. split; [by apply Hfwd|]. by case_decide.
    - intros q y' (y & Hy & ->)%Hback Hdir. apply (wf_leaf _ _ _ Hwf q y Hy). by case_decide.
    - intros q a b y' z' Ha Hb (y & Hy & ->)%Hback (z & Hz & ->)%Hback Hn.
      apply (wf_names _ _ _ Hwf q a b y z); try done. by repeat case_decide.
    - intros q y' (y & Hy & ->)%Hback. split; [by eapply HM|]. case_decide; [|by eapply Hother].
      subst q. rewrite Hx in Hy. by injection Hy as <-.
    - intros q q' y' z' e (y & Hy & ->)%Hback Hye.
      assert (∀ q y, inodes s !! q = Some y →
        r_data (if decide (q = f) then set_data size d cap y else y) = Some e →
        (q = f ∧ d = Some e) ∨ (q ≠ f ∧ r_data y = Some e)) as Hcase.
      { intros q0 y0 _. destruct (decide (q0 = f)); cbn; intros Hd'; [left|right]; (split; [assumption|exact Hd']). }
      split.
      + destruct (inodes s' !! e) as [w|] eqn:Ew; [|done]. exfalso. apply Hback in Ew as (w' & Hw' & _).
        destruct (Hcase q y Hy Hye) as [[_ He]|[_ He]]; [destruct (Hd e He); congruence|].
        destruct (wf_data _ _ _ Hwf q q y y e Hy He). congruence.
      + intros (z & Hz & ->)%Hback Hze.
        destruct (Hcase q y Hy Hye) as [[-> He]|[Hq He]], (Hcase q' z Hz Hze) as [[-> He']|[Hq' He']]; try done.
        * exfalso. destruct (Hd e He) as [_ Hno]. by apply (Hno q' z).
        * exfalso. destruct (Hd e He') as [_ Hno]. by apply (Hno q y).
        * by apply (wf_data _ _ _ Hwf q q' y z e Hy He).
    - done. }
  split; [done|]. intros p n Hp. symmetry. eapply look_ext; [done|done|done|by apply Hdom|].
  intros c. unfold child_of. apply and_iff_compat_l. split; intros (y & Hy & Hn).
  - eexists. split; [by apply Hfwd|]. by case_decide.
  - apply Hback in Hy as (z & Hz & ->). exists z. split; [done|]. by case_decide.
Qed.

(** Releasing an inode that no directory lists. *)
Definition freed (x : ramfs_inode) (p : Z) (M : gmap Z Z) : gmap Z Z :=
  delete p (match r_data x with Some d => delete d M | None => M end).

Lemma free_inode_ok s C M f x :
  fs_wf s C M → orphan s C f → inodes s !! f = Some x →
  ∃ s', ramfs_free_inode (Some f) s = Some s' ∧ fs_wf s' C (freed x f M) ∧ fs_root s' = fs_root s ∧
    inodes s' = delete f (inodes s) ∧ vinodes s' = vinodes s ∧
    (∀ p n, is_Some (inodes s !! p) → p ≠ f → look s' p n = look s p n) ∧
    ∀ q y, q ≠ f → inodes s !! q = Some y → contents s' y = contents s y.
Proof.
  intros Hwf (_ & Hno & Hroot & HC) Hx. unfold ramfs_free_inode. rewrite Hx. cbn [mbind option_bind].
  pose proof (wf_inode _ _ _ Hwf f x Hx) as [HMf Hdata].
  assert (∃ h, kh_free (r_data x) (fs_heap s) = Some h ∧
    kh_inv h (match r_data x with Some d => delete d M | None => M end)) as (h & -> & Hh).
  { unfold data_ok in Hdata. destruct (r_data x) as [d|].
    - destruct Hdata as (l & _ & _ & _ & _ & HMd). by apply (kh_free_ok _ _ _ _ (wf_heap _ _ _ Hwf) HMd).
    - exists (fs_heap s). split; [apply kh_free_null|apply Hwf]. }
  cbn [mbind option_bind].
  assert ((match r_data x with Some d => delete d M | None => M end) !! f = Some sizeof_ramfs_inode) as HMf'.
  { destruct (r_data x) as [d|] eqn:Ed; [|done]. rewrite lookup_delete_ne; [done|]. intros ->.
    destruct (wf_data _ _ _ Hwf f f x x f Hx Ed). congruence. }
  destruct (kh_free_ok _ _ _ _ Hh HMf') as (h' & -> & Hh'). cbn [mbind option_bind].
  eexists. split; [reflexivity|]. set (s' := mk_fs _ _ _ _ _ _ _).
  assert (∀ q y, inodes s' !! q = Some y ↔ q ≠ f ∧ inodes s !! q = Some y) as Hin.
  { intros q y. unfold s'. cbn [inodes]. rewrite lookup_delete_Some. naive_solver. }
  assert (∀ q c, c ∈ C q → c ≠ f) as Hcf by (intros q c Hc ->; by apply (Hno q)).
  assert (∀ q y, q ≠ f → inodes s !! q = Some y → ∀ d, r_data x = Some d → r_data y ≠ Some d ∧ q ≠ d) as Hsep.
  { intros q y Hq Hy d Hd. destruct (wf_data _ _ _ Hwf f q x y d Hx Hd) as [H1 H2]. split.
    - intros Hyd. by apply Hq; symmetry; apply H2.
    - intros ->. congruence. }
  assert (fs_wf s' C (freed x f M)) as Hwf'.
  { split.
    - destruct (wf_root _ _ _ Hwf) as (r & y & Hr & Hy & ?). exists r, y. split; [done|].
      split; [apply Hin; split; [congruence|done]|done].
    - intros q y [Hq Hy]%Hin. eapply chain_frame; [|by eapply wf_chain]. intros c z Hc Hz.
      exists z. split; [apply Hin; split; [by eapply Hcf|done]|done].
    - apply Hwf.
    - intros q c Hc. destruct (wf_child _ _ _ Hwf q c Hc) as ([z Hz] & y & Hy & ?).
      assert (q ≠ f) as Hq by (intros ->; rewrite HC in Hc; by apply elem_of_nil in Hc). split.
      + exists z. by apply Hin.
      + exists y. split; [apply Hin; split; [by eapply Hcf|done]|done].
    - intros q y [_ Hy]%Hin. by apply (wf_leaf _ _ _ Hwf).
    - intros q a b y z Ha Hb [_ Hy]%Hin [_ Hz]%Hin. by apply (wf_names _ _ _ Hwf q).
    - intros q y [Hq Hy]%Hin. destruct (wf_inode _ _ _ Hwf q y Hy) as [H1 H2]. unfold freed. split.
      + rewrite lookup_delete_ne by done. destruct (r_data x) as [d|] eqn:Ed; [|done].
        rewrite lookup_delete_ne; [done|]. intros ->. by apply (Hsep q y Hq Hy q).
      + unfold data_ok in *. destruct (r_data y) as [e|] eqn:Ee; [|done].
        destruct H2 as (l & Hb & ? & ? & ? & HMe). exists l.
        assert (e ≠ f) as Hef by (intros ->; destruct (wf_data _ _ _ Hwf q q y y f Hy Ee); congruence).
        split; [|do 3 (split; [done|])].
        * unfold s'. cbn [bufs]. destruct (r_data x) as [d|] eqn:Ed; [|done].
          rewrite lookup_delete_ne; [done|]. intros ->. by destruct (Hsep q y Hq Hy e ltac:(first [exact Ed|reflexivity])).
        * rewrite lookup_delete_ne by done. destruct (r_data x) as [d|] eqn:Ed; [|done].
          rewrite lookup_delete_ne; [done|]. intros ->. by destruct (Hsep q y Hq Hy e ltac:(first [exact Ed|reflexivity])).
    - intros q q' y z d [Hq Hy]%Hin Hyd. destruct (wf_data _ _ _ Hwf q q' y z d Hy Hyd) as [H1 H2]. split.
      + unfold s'. cbn [inodes]. destruct (decide (d = f)) as [->|]; [apply lookup_delete_eq|].
        by rewrite lookup_delete_ne.
      + intros [_ Hz]%Hin. by apply H2.
    - done. }
  split; [done|]. split; [done|]. split; [done|]. split; [done|]. split.
  - intros p n [y Hy] Hp. symmetry. eapply look_ext; [done|done|by eexists|exists y; by apply Hin|].
    intros c. unfold child_of. split; intros (Hc & z & Hz & Hn); (split; [done|]); exists z; (split; [|done]).
    + apply Hin. split; [by eapply Hcf|done].
    + by apply Hin in Hz as [_ ?].
  - intros q y Hq Hy. unfold contents. destruct (r_data y) as [e|] eqn:Ee; [|done]. unfold s'. cbn [bufs].
    destruct (r_data x) as [d|] eqn:Ed; [|done]. rewrite lookup_delete_ne; [done|].
    intros ->. by destruct (Hsep q y Hq Hy e ltac:(first [exact Ed|reflexivity])).
Qed.

(** Two versions of an inode that differ in its links at most. *)
Definition same_core (x y : ramfs_inode) : Prop :=
  r_mode x = r_mode y ∧ r_size x = r_size y ∧ r_data x = r_data y ∧ r_capacity x = r_capacity y ∧
  r_name x = r_name y.

Definition relinked (s s' : ramfs H) : Prop :=
  fs_root s' = fs_root s ∧ bufs s' = bufs s ∧ vinodes s' = vinodes s ∧ fs_heap s' = fs_heap s ∧
  (∀ q y, inodes s !! q = Some y → ∃ y', inodes s' !! q = Some y' ∧ same_core y y') ∧
  (∀ q y', inodes s' !! q = Some y' → ∃ y, inodes s !! q = Some y ∧ same_core y y').

Lemma wf_relink s s' C C' M :
  fs_wf s C M → relinked s s' →
  (∀ r x, fs_root s = Some r → inodes s' !! r = Some x → r_parent x = None) →
  (∀ p x, inodes s' !! p = Some x → chain (inodes s') (r_children x) (C' p)) →
  (∀ p, NoDup (C' p)) →
  (∀ p c, c ∈ C' p → is_Some (inodes s !! p) ∧
     ∃ y, inodes s' !! c = Some y ∧ r_parent y = Some p ∧ name_ok (r_name y)) →
  (∀ p x, inodes s !! p = Some x → S_ISDIR (r_mode x) = false → C' p = []) →
  (∀ p a b x y, a ∈ C' p → b ∈ C' p → inodes s !! a = Some x → inodes s !! b = Some y →
     r_name x = r_name y → a = b) →
  fs_wf s' C' M.
Proof.
  intros Hwf (Hr & Hb & Hv & Hh & Hf & Hk) Hroot Hch Hnd Hc Hl Hn. split.
  - destruct (wf_root _ _ _ Hwf) as (r & x & Er & Hx & Hd & Hp). destruct (Hf r x Hx) as (x' & Hx' & Hm & _).
    exists r, x'. split; [congruence|]. split; [done|]. split; [by rewrite <- Hm|]. by apply (Hroot r).
  - done.
  - done.
  - intros p c Hin. destruct (Hc p c Hin) as ([x Hx] & ?). split; [|done]. destruct (Hf p x Hx) as (x' & ? & _). eauto.
  - intros p x' Hx'. destruct (Hk p x' Hx') as (x & Hx & Hm & _). rewrite <- Hm. by apply Hl.
  - intros p a b x' y' Ha Hb' (x & Hx & _ & _ & _ & _ & <-)%Hk (y & Hy & _ & _ & _ & _ & <-)%Hk. by apply (Hn p).
  - intros p x' (x & Hx & Hm & Hs & Hd & Hcap & Hname)%Hk. destruct (wf_inode _ _ _ Hwf p x Hx) as [HM Hok].
    split; [done|]. unfold data_ok in *. rewrite Hb, <- Hd, <- Hs, <- Hcap. done.
  - intros p q x' y' d (x & Hx & _ & _ & Hd & _)%Hk. rewrite <- Hd. intros Hxd. split.
    + destruct (inodes s' !! d) as [z'|] eqn:Ez; [|done]. apply Hk in Ez as (z & Hz & _).
      destruct (wf_data _ _ _ Hwf p p x x d Hx Hxd). congruence.
    + intros (y & Hy & _ & _ & Hyd & _)%Hk. rewrite <- Hyd. by apply (wf_data _ _ _ Hwf p q x y d).
  - rewrite Hh. apply Hwf.
Qed.

Lemma relinked_dom s s' q : relinked s s' → is_Some (inodes s !! q) ↔ is_Some (inodes s' !! q).
Proof.
  intros (_ & _ & _ & _ & Hf & Hk). split; intros [y Hy]; [destruct (Hf q y Hy) as (? & ? & _)|destruct (Hk q y Hy) as (? & ? & _)]; eauto.
Qed.

Lemma relinked_child s s' C' p n c : relinked s s' →
  child_of s' C' p n c ↔ c ∈ C' p ∧ ∃ x, inodes s !! c = Some x ∧ r_name x = n.
Proof.
  intros (_ & _ & _ & _ & Hf & Hk). unfold child_of. apply and_iff_compat_l. split; intros (x & Hx & Hn).
  - destruct (Hk c x Hx) as (y & Hy & _ & _ & _ & _ & Hc). exists y. split; [done|congruence].
  - destruct (Hf c x Hx) as (y & Hy & _ & _ & _ & _ & Hc). exists y. split; [done|congruence].
Qed.

Definition with_children (C : Z → list Z) (d : Z) (l : list Z) : Z → list Z :=
  λ q, if decide (q = d) then l else C q.

Lemma add_child_ok s C M d f xd xf :
  fs_wf s C M → inodes s !! d = Some xd → S_ISDIR (r_mode xd) = true →
  orphan s C f → inodes s !! f = Some xf → f ≠ d → name_ok (r_name xf) → look s d (r_name xf) = None →
  ∃ s', ramfs_add_child d f s = Some (s', 0) ∧ fs_wf s' (with_children C d (f :: C d)) M ∧ relinked s s' ∧
    ∀ q n, is_Some (inodes s !! q) →
      look s' q n = if decide (q = d ∧ n = r_name xf) then Some f else look s q n.
Proof.
  intros Hwf Hd Hdir (_ & Hno & Hroot & HCf) Hf Hfd Hname Hnew. unfold ramfs_add_child. rewrite Hd.
  cbn [mbind option_bind]. rewrite Hdir. cbn [negb]. eexists. split; [reflexivity|].
  set (s' := upd d _ (upd f _ s)). set (C' := with_children C d (f :: C d)).
  assert (∀ q, inodes s' !! q =
    (λ x, if decide (q = d) then set_links (r_parent x) (Some f) (r_sibling x) x
          else if decide (q = f) then set_links (Some d) (r_children x) (r_children xd) x else x) <$> inodes s !! q) as Hin.
  { intros q. unfold s', upd, with_inodes. cbn [inodes].
    rewrite !lookup_alter. repeat case_decide; subst; try congruence; by destruct (inodes s !! q). }
  assert (relinked s s') as Hrel.
  { do 4 (split; [done|]). split.
    - intros q y Hy. rewrite Hin, Hy. eexists. split; [reflexivity|]. by repeat case_decide.
    - intros q y'. rewrite Hin. destruct (inodes s !! q) as [y|]; [|done]. intros [= <-]. exists y.
      split; [done|]. by repeat case_decide. }
  assert (∀ (l : list Z) (o : option Z), f ∉ l → chain (inodes s) o l → chain (inodes s') o l) as Hchain.
  { intros l o Hfl Hc. eapply chain_frame; [|exact Hc]. intros c x Hcl Hx. rewrite Hin, Hx.
    eexists. split; [reflexivity|]. repeat case_decide; subst; done. }
  assert (fs_wf s' C' M) as Hwf'.
  { eapply wf_relink; [exact Hwf|exact Hrel| | | | | |].
    - intros r x Hr. rewrite Hin. destruct (inodes s !! r) as [y|] eqn:Ey; [|done]. cbn. intros [= <-].
      destruct (wf_root _ _ _ Hwf) as (r' & z & Er & Hz & _ & Hp). repeat case_decide; subst; cbn; congruence.
    - intros p x'. rewrite Hin. destruct (inodes s !! p) as [x|] eqn:Ex; [|done]. cbn. intros [= <-].
      unfold C', with_children. destruct (decide (p = d)) as [->|Hp].
      + cbn. split; [done|]. eexists. split; [rewrite Hin, Hf; cbn; rewrite decide_False, decide_True by done; done|].
        cbn. rewrite Hd in Ex. injection Ex as <-. apply Hchain; [apply Hno|by eapply wf_chain].
      + apply Hchain; [apply Hno|]. case_decide; cbn; by eapply wf_chain.
    - intros p. unfold C', with_children. case_decide; [|apply Hwf]. apply NoDup_cons. split; [apply Hno|apply Hwf].
    - intros p c. unfold C', with_children. intros Hc.
      assert ((p = d ∧ c = f) ∨ c ∈ C p) as [[-> ->]|Hc'].
      { case_decide; [subst|by right]. apply elem_of_cons in Hc as [->|?]; [by left|by right]. }
      + split; [by eexists|]. rewrite Hin, Hf. cbn. rewrite decide_False, decide_True by done. by eexists.
      + destruct (wf_child _ _ _ Hwf p c Hc') as (Hp & y & Hy & Hpar & ?). split; [done|].
        rewrite Hin, Hy. assert (c ≠ f) by (intros ->; by apply (Hno p)). eexists. split; [reflexivity|].
        repeat case_decide; try done.
    - intros p x Hx Hfile. unfold C', with_children. case_decide; [subst; congruence|]. by eapply wf_leaf.
    - intros p a b x y Ha Hb Hx Hy Hxy. unfold C', with_children in Ha, Hb.
      destruct (decide (p = d)) as [->|Hp]; [|by apply (wf_names _ _ _ Hwf p a b x y)].
      assert (∀ c z, c ∈ C d → inodes s !! c = Some z → r_name z ≠ r_name xf) as Hfresh.
      { intros c z Hc Hz Heq. assert (look s d (r_name xf) = Some c) as Hl; [|congruence].
        apply (lookup_child_spec s C M d _ Hwf ltac:(by eexists)). split; [done|]. eauto. }
      apply elem_of_cons in Ha as [->|Ha], Hb as [->|Hb]; try done.
      + rewrite Hf in Hx. injection Hx as <-. by destruct (Hfresh b y Hb Hy).
      + rewrite Hf in Hy. injection Hy as <-. by destruct (Hfresh a x Ha Hx).
      + by apply (wf_names _ _ _ Hwf d a b x y). }
  split; [done|]. split; [done|]. intros q n Hq. apply option_eq. intros c.
  rewrite (proj2 (lookup_child_spec s' C' M q n Hwf' ltac:(by apply (relinked_dom s s'))) c).
  rewrite (relinked_child s s' C' q n c Hrel). unfold C', with_children.
  pose proof (proj2 (lookup_child_spec s C M q n Hwf Hq) c) as Hold. unfold child_of in Hold.
  destruct (decide (q = d ∧ n = r_name xf)) as [[-> ->]|Hne].
  - rewrite decide_True by done. split.
    + intros (Hc & x & Hx & Hn). apply elem_of_cons in Hc as [->|Hc]; [done|]. exfalso.
      assert (look s d (r_name xf) = Some c) by (apply Hold; eauto). congruence.
    + intros [= <-]. split; [by apply elem_of_cons; left|]. eauto.
  - rewrite Hold. case_decide as Hqd; [subst q|done]. split; intros (Hc & x & Hx & Hn).
    + apply elem_of_cons in Hc as [->|Hc]; [|eauto]. rewrite Hf in Hx. injection Hx as <-. exfalso. by apply Hne.
    + split; [by apply elem_of_cons; right|]. eauto.
Qed.

Lemma chain_app_inv m o l1 c l2 :
  chain m o (l1 ++ c :: l2) → ∃ x, m !! c = Some x ∧ chain m (r_sibling x) l2 ∧ (l1 = [] → o = Some c).
Proof.
  revert o. induction l1 as [|a l1 IH]; intros o; cbn.
  - intros (-> & x & Hx & Hc). eauto.
  - intros (_ & x & Hx & Hc). destruct (IH _ Hc) as (y & ? & ? & _). exists y. done.
Qed.

Lemma find_prev_spec s o a b t l2 fuel :
  chain (inodes s) o (a ++ b :: t :: l2) → NoDup (a ++ b :: t :: l2) → (length a < fuel)%nat →
  find_prev fuel o t s = Some (Some b).
Proof.
  revert o fuel. induction a as [|c a IH]; intros o fuel Hc Hnd Hf; (destruct fuel as [|fuel]; [cbn in Hf; lia|]).
  - destruct Hc as (-> & x & Hx & Hs & _). cbn [find_prev]. rewrite Hx. cbn [mbind option_bind].
    by rewrite bool_decide_true.
  - destruct Hc as (-> & x & Hx & Hc). cbn [find_prev]. rewrite Hx. cbn [mbind option_bind].
    rewrite <- app_comm_cons in Hnd. apply NoDup_cons in Hnd as [_ Hnd].
    rewrite bool_decide_false; [apply IH; cbn in Hf; try lia; done|].
    intros Hs. destruct a as [|c' a]; cbn in Hc; destruct Hc as (Hs' & _); rewrite Hs in Hs'; injection Hs' as <-.
    + cbn in Hnd. apply NoDup_cons in Hnd as [Hnd _]. apply Hnd. by apply elem_of_cons; left.
    + cbn in Hnd. apply NoDup_cons in Hnd as [Hnd _]. apply Hnd. rewrite elem_of_app, !elem_of_cons. auto.
Qed.

Lemma chain_splice m m' o a b t l2 xt :
  chain m o (a ++ b :: t :: l2) → NoDup (a ++ b :: t :: l2) → m !! t = Some xt →
  (∀ q, m' !! q = (λ x, if decide (q = b) then set_links (r_parent x) (r_children x) (r_sibling xt) x else x) <$> m !! q) →
  chain m' o (a ++ b :: l2).
Proof.
  intros Hc Hnd Ht Hm. assert (∀ l o, b ∉ l → chain m o l → chain m' o l) as Hframe.
  { intros l o' Hb. apply chain_frame. intros c x Hcl Hx. exists x. rewrite Hm, Hx. cbn.
    by rewrite decide_False by congruence. }
  revert o Hc. induction a as [|c a IH]; intros o Hc; cbn in *.
  - destruct Hc as (-> & x & Hx & _ & y & Hy & Hc). split; [done|].
    eexists. rewrite Hm, Hx. cbn. split; [reflexivity|]. rewrite decide_True by done. cbn.
    rewrite Ht in Hy. injection Hy as <-. apply Hframe; [|done].
    apply NoDup_cons in Hnd as [Hnd _]. intros ?. apply Hnd. by apply elem_of_cons; right.
  - destruct Hc as (-> & x & Hx & Hc). apply NoDup_cons in Hnd as [Hn Hnd]. split; [done|].
    assert (c ≠ b) by (intros ->; apply Hn; rewrite elem_of_app, !elem_of_cons; auto).
    exists x. rewrite Hm, Hx. cbn. rewrite decide_False by done. split; [done|]. by apply IH.
Qed.

Lemma unlink_child_ok s C M d t l1 l2 xt :
  fs_wf s C M → C d = l1 ++ t :: l2 → inodes s !! t = Some xt →
  ∃ s', unlink_child d t s = Some s' ∧ fs_wf s' (with_children C d (l1 ++ l2)) M ∧ relinked s s' ∧
    (∀ q, t ∉ with_children C d (l1 ++ l2) q) ∧
    ∀ q n, is_Some (inodes s !! q) →
      look s' q n = if decide (q = d ∧ n = r_name xt) then None else look s q n.
Proof.
  intros Hwf HC Ht. pose proof (wf_nodup _ _ _ Hwf d) as Hnd. rewrite HC in Hnd.
  assert (t ∈ C d) as Htd by (rewrite HC, elem_of_app, elem_of_cons; auto).
  destruct (wf_child _ _ _ Hwf d t Htd) as ([xd Hd] & xt' & Ht' & Hpar & _).
  rewrite Ht in Ht'. injection Ht' as <-.
  pose proof (wf_chain _ _ _ Hwf d xd Hd) as Hchain. rewrite HC in Hchain.
  set (C' := with_children C d (l1 ++ l2)).
  assert (∀ q, t ∉ C' q) as Hgone.
  { intros q. unfold C', with_children. case_decide as Hq.
    - apply NoDup_middle in Hnd as [? _]. done.
    - intros Hin. destruct (wf_child _ _ _ Hwf q t Hin) as (_ & y & Hy & Hp & _). congruence. }
  assert (∀ q c, c ∈ C' q → c ∈ C q) as Hsub.
  { intros q c. unfold C', with_children. case_decide; [subst|done]. rewrite HC, !elem_of_app, elem_of_cons. tauto. }
  assert (∃ s', unlink_child d t s = Some s' ∧ relinked s s' ∧
    (∀ q x x', inodes s !! q = Some x → inodes s' !! q = Some x' → r_parent x' = r_parent x) ∧
    (∀ p x, inodes s' !! p = Some x → chain (inodes s') (r_children x) (C' p)))
    as (s' & E & Hrel & Hpars & Hch).
  { unfold unlink_child. rewrite Hd, Ht. cbn [mbind option_bind].
    destruct l1 as [|b l1 _] using rev_ind.
    - cbn [app] in Hchain. destruct Hchain as (Hc0 & y & Hy & Hc). rewrite Ht in Hy. injection Hy as <-.
      rewrite bool_decide_true by done. eexists. split; [reflexivity|]. set (s' := upd _ _ _).
      assert (∀ q, inodes s' !! q =
        (λ x, if decide (q = d) then set_links (r_parent x) (r_sibling xt) (r_sibling x) x else x) <$> inodes s !! q) as Hin.
      { intros q. unfold s', upd, with_inodes. cbn [inodes]. rewrite lookup_alter.
        repeat case_decide; subst; try congruence; by destruct (inodes s !! q). }
      split; [|split].
      + do 4 (split; [done|]). split.
        * intros q y Hy. rewrite Hin, Hy. eexists. split; [reflexivity|]. by case_decide.
        * intros q y'. rewrite Hin. destruct (inodes s !! q) as [y|]; [|done]. intros [= <-]. exists y. split; [done|]. by case_decide.
      + intros q x x' Hx. rewrite Hin, Hx. intros [= <-]. by case_decide.
      + intros p x'. rewrite Hin. destruct (inodes s !! p) as [x|] eqn:Ex; [|done]. cbn. intros [= <-].
        assert (∀ o l, chain (inodes s) o l → chain (inodes s') o l) as Hf.
        { intros o l. apply chain_frame. intros c z _ Hz. rewrite Hin, Hz. eexists. split; [reflexivity|]. by case_decide. }
        apply Hf. unfold C', with_children. case_decide; [done|]. by eapply wf_chain.
    - rewrite <- app_assoc in Hchain, Hnd. cbn in Hchain, Hnd.
      assert (r_children xd ≠ Some t) as Hne.
      { intros Heq. destruct l1 as [|c l1]; cbn in Hchain, Hnd; destruct Hchain as (Heq' & _); rewrite Heq in Heq'; injection Heq' as <-.
        - apply NoDup_cons in Hnd as [Hnd _]. apply Hnd. by apply elem_of_cons; left.
        - apply NoDup_cons in Hnd as [Hnd _]. apply Hnd. rewrite elem_of_app, !elem_of_cons. auto. }
      rewrite bool_decide_false by done.
      rewrite (find_prev_spec s _ l1 b t l2); [|done|done|].
      2: { pose proof (children_fit s C M d Hwf) as Hfit. rewrite HC, !length_app in Hfit. cbn in Hfit. lia. }
      cbn [mbind option_bind]. eexists. split; [reflexivity|]. set (s' := upd _ _ _).
      assert (∀ q, inodes s' !! q =
        (λ x, if decide (q = b) then set_links (r_parent x) (r_children x) (r_sibling xt) x else x) <$> inodes s !! q) as Hin.
      { intros q. unfold s', upd, with_inodes. cbn [inodes]. rewrite lookup_alter.
        repeat case_decide; subst; try congruence; by destruct (inodes s !! q). }
      split; [|split].
      + do 4 (split; [done|]). split.
        * intros q y Hy. rewrite Hin, Hy. eexists. split; [reflexivity|]. by case_decide.
        * intros q y'. rewrite Hin. destruct (inodes s !! q) as [y|]; [|done]. intros [= <-]. exists y. split; [done|]. by case_decide.
      + intros q x x' Hx. rewrite Hin, Hx. intros [= <-]. by case_decide.
      + intros p x'. rewrite Hin. destruct (inodes s !! p) as [x|] eqn:Ex; [|done]. cbn. intros [= <-].
        assert (chain (inodes s') (r_children x) (C' p)) as Hgoal.
        { unfold C', with_children. case_decide as Hp.
          - subst p. rewrite Hd in Ex. injection Ex as <-. rewrite <- app_assoc. cbn.
            by eapply chain_splice.
          - eapply chain_frame; [|by eapply wf_chain]. intros c z Hc Hz. rewrite Hin, Hz. eexists. split; [reflexivity|].
            rewrite decide_False; [done|]. intros ->. destruct (wf_child _ _ _ Hwf p b Hc) as (_ & w & Hw & Hwp & _).
            destruct (wf_child _ _ _ Hwf d b) as (_ & w' & Hw' & Hwp' & _).
            { rewrite HC, !elem_of_app, elem_of_cons. auto. }
            congruence. }
        by case_decide. }
  assert (fs_wf s' C' M) as Hwf'.
  { eapply wf_relink; [exact Hwf|exact Hrel| |exact Hch| | | |].
    - intros r x' Hr Hx'. destruct (wf_root _ _ _ Hwf) as (r' & x & Hr' & Hx & _ & Hp).
      rewrite Hr in Hr'. injection Hr' as <-. by rewrite (Hpars r x x').
    - intros p. unfold C', with_children. case_decide; [|apply Hwf]. by apply NoDup_middle in Hnd as [_ ?].
    - intros p c Hc%Hsub. destruct (wf_child _ _ _ Hwf p c Hc) as (Hp & y & Hy & Hyp & Hok). split; [done|].
      destruct Hrel as (_ & _ & _ & _ & Hf & _). destruct (Hf c y Hy) as (y' & Hy' & _ & _ & _ & _ & Hn).
      exists y'. split; [done|]. split; [by rewrite (Hpars c y y')|by rewrite <- Hn].
    - intros p x Hx Hfile. pose proof (wf_leaf _ _ _ Hwf p x Hx Hfile) as Hl. unfold C', with_children.
      case_decide; [|done]. subst p. rewrite Hl in HC. by destruct l1.
    - intros p a b x y Ha%Hsub Hb%Hsub. by apply (wf_names _ _ _ Hwf p). }
  exists s'. split; [done|]. split; [done|]. split; [done|]. split; [done|].
  intros q n Hq. apply option_eq. intros c.
  rewrite (proj2 (lookup_child_spec s' C' M q n Hwf' ltac:(by apply (relinked_dom s s'))) c).
  rewrite (relinked_child s s' C' q n c Hrel).
  pose proof (proj2 (lookup_child_spec s C M q n Hwf Hq) c) as Hold. unfold child_of in Hold.
  destruct (decide (q = d ∧ n = r_name xt)) as [[-> ->]|Hne].
  - split; [|done]. intros (Hc & x & Hx & Hn). exfalso. apply (Hgone d).
    by rewrite <- (wf_names _ _ _ Hwf d c t x xt (Hsub _ _ Hc) Htd Hx Ht Hn).
  - rewrite Hold. split; intros (Hc & x & Hx & Hn); [eauto|]. split; [|eauto].
    unfold C', with_children. case_decide as Hqd; [subst q|done]. rewrite HC, elem_of_app, elem_of_cons in Hc.
    rewrite elem_of_app. destruct Hc as [?|[->|?]]; auto. exfalso. apply Hne. split; [done|congruence].
Qed.

(** ** Edits of the tree seen through paths *)

Lemma resolve_insert s s' C M r d f n ns :
  fs_wf s C M → fs_root s = Some r → resolve s r ns = Some d → look s d n = None →
  (∀ q m, is_Some (inodes s !! q) → look s' q m = if decide (q = d ∧ m = n) then Some f else look s q m) →
  (∀ m, look s' f m = None) →
  ∀ ms, resolve s' r ms = if decide (ms = ns ++ [n]) then Some f else resolve s r ms.
Proof.
  intros Hwf Hr Hd Hn Hl Hf ms. assert (is_Some (inodes s !! r)) as Hrin.
  { destruct (wf_root _ _ _ Hwf) as (r' & x & Hr' & Hx & _). rewrite Hr in Hr'. injection Hr' as <-. eauto. }
  induction ms as [|m l IH] using rev_ind.
  { rewrite decide_False; [done|]. by destruct ns. }
  rewrite !resolve_snoc, IH. destruct (decide (l = ns ++ [n])) as [->|Hl'].
  - cbn. rewrite Hf, decide_False.
    + rewrite resolve_snoc, Hd. cbn. by rewrite Hn.
    + intros H0%(f_equal length). rewrite !length_app in H0. cbn in H0. lia.
  - destruct (resolve s r l) as [q|] eqn:Eq; cbn.
    + rewrite Hl by (by eapply resolve_in). destruct (decide (q = d ∧ m = n)) as [[-> ->]|Hqm].
      * rewrite decide_True; [done|]. by rewrite (resolve_inj _ _ _ _ _ _ _ Hwf Hr Eq Hd).
      * rewrite decide_False; [done|]. intros [-> ->]%app_inj_tail. apply Hqm. split; [congruence|done].
    + rewrite decide_False; [done|]. intros [-> ->]%app_inj_tail. congruence.
Qed.

Lemma resolve_delete s s' C M r d t n ns :
  fs_wf s C M → fs_root s = Some r → resolve s r ns = Some d → look s d n = Some t →
  (∀ m, look s t m = None) →
  (∀ q m, is_Some (inodes s !! q) → q ≠ t → look s' q m = if decide (q = d ∧ m = n) then None else look s q m) →
  ∀ ms, resolve s' r ms = if decide (ms = ns ++ [n]) then None else resolve s r ms.
Proof.
  intros Hwf Hr Hd Hn Ht Hl ms. assert (is_Some (inodes s !! r)) as Hrin.
  { destruct (wf_root _ _ _ Hwf) as (r' & x & Hr' & Hx & _). rewrite Hr in Hr'. injection Hr' as <-. eauto. }
  assert (resolve s r (ns ++ [n]) = Some t) as Hrt by (by rewrite resolve_snoc, Hd).
  induction ms as [|m l IH] using rev_ind.
  { rewrite decide_False; [done|]. by destruct ns. }
  rewrite !resolve_snoc, IH. destruct (decide (l = ns ++ [n])) as [->|Hl'].
  - cbn. rewrite Hrt. cbn. rewrite Ht. by case_decide.
  - destruct (resolve s r l) as [q|] eqn:Eq; cbn; [|by case_decide].
    assert (q ≠ t) as Hqt by (intros ->; apply Hl'; by eapply resolve_inj).
    rewrite Hl by (done || by eapply resolve_in). destruct (decide (q = d ∧ m = n)) as [[-> ->]|Hqm].
    + rewrite decide_True; [done|]. by rewrite (resolve_inj _ _ _ _ _ _ _ Hwf Hr Eq Hd).
    + rewrite decide_False; [done|]. intros [-> ->]%app_inj_tail. apply Hqm. split; [congruence|done].
Qed.

(** The file [c] is the same in both states. *)
Definition keeps_file (s s' : ramfs H) (c : Z) : Prop :=
  ∀ x, inodes s !! c = Some x →
    ∃ x', inodes s' !! c = Some x' ∧ r_mode x' = r_mode x ∧ r_name x' = r_name x ∧ contents s' x' = contents s x.

Lemma file_at_ext s s' C C' M M' r ns :
  fs_wf s C M → fs_wf s' C' M' → fs_root s = Some r → fs_root s' = Some r → Forall name_ok ns →
  resolve s' r ns = resolve s r ns → (∀ c, resolve s r ns = Some c → keeps_file s s' c) →
  file_at s' ns = file_at s ns.
Proof.
  intros Hwf Hwf' Hr Hr' Hns Hres Hk. destruct (decide (ns = [])) as [->|Hne].
  { unfold file_at, ramfs_lookup_path_info. by rewrite Hr, Hr'. }
  rewrite (file_at_resolve s C M r), (file_at_resolve s' C' M' r) by done. rewrite Hres.
  destruct (resolve s r ns) as [c|] eqn:Ec; [|done]. cbn [mbind option_bind].
  destruct (resolve_in _ _ _ _ _ _ Hwf ltac:(destruct (wf_root _ _ _ Hwf) as (? & ? & ? & ? & _); simplify_eq; eauto) Ec) as [x Hx].
  destruct (Hk c eq_refl x Hx) as (x' & Hx' & Hm & _ & Hc). rewrite Hx, Hx'. cbn. by rewrite Hm, Hc.
Qed.

Lemma relinked_keeps s s' c : relinked s s' → keeps_file s s' c.
Proof.
  intros (_ & Hb & _ & _ & Hf & _) x Hx. destruct (Hf c x Hx) as (x' & Hx' & Hm & Hs & Hd & _ & Hn).
  exists x'. split; [done|]. split; [done|]. split; [done|]. unfold contents. by rewrite Hb, <- Hd, <- Hs.
Qed.

Lemma keeps_file_trans s1 s2 s3 c : keeps_file s1 s2 c → keeps_file s2 s3 c → keeps_file s1 s3 c.
Proof.
  intros H1 H2 x Hx. destruct (H1 x Hx) as (y & Hy & ? & ? & ?). destruct (H2 y Hy) as (z & Hz & ? & ? & ?).
  exists z. split; [done|]. split; [congruence|]. split; congruence.
Qed.

Lemma keeps_file_insert s s' f x c :
  inodes s !! f = None → inodes s' = <[f := x]> (inodes s) → bufs s' = bufs s → keeps_file s s' c.
Proof.
  intros Hf Hin Hb y Hy. exists y. rewrite Hin, lookup_insert_ne by congruence. unfold contents. by rewrite Hb.
Qed.

Lemma fill_content_ok s C M f xf data :
  fs_wf s C M → orphan s C f → inodes s !! f = Some xf → r_data xf = None → Z.of_nat (length data) < 2 ^ 62 →
  ∃ s' ok, fill_content f data s = Some (s', ok) ∧ fs_root s' = fs_root s ∧ vinodes s' = vinodes s ∧
    (∃ M', fs_wf s' C M') ∧ (∀ c, c ≠ f → keeps_file s s' c) ∧
    (∀ p n, is_Some (inodes s !! p) → p ≠ f ∨ ok = true → look s' p n = look s p n) ∧
    if (ok : bool)
    then ∃ d, inodes s' = <[f := set_data (Z.of_nat (length data)) (Some d) (Z.of_nat (length data)) xf]> (inodes s) ∧
      contents s' (set_data (Z.of_nat (length data)) (Some d) (Z.of_nat (length data)) xf) = data ∧ data ≠ []
    else inodes s' = delete f (inodes s).
Proof.
  intros Hwf Horph Hf Hnone Hlen. unfold fill_content.
  destruct (kh_alloc_ok (fs_heap s) M (Z.of_nat (length data)) GFP_KERNEL (wf_heap _ _ _ Hwf) ltac:(lia)) as (h & r & -> & Hr).
  cbn [mbind option_bind]. destruct r as [d|].
  - destruct Hr as (Hpos & _ & HM & Hh). destruct (fresh_pointer _ _ _ _ Hwf HM) as [Hdi Hdd].
    do 2 eexists. split; [reflexivity|]. set (s' := upd f _ _).
    set (x' := set_data (Z.of_nat (length data)) (Some d) (Z.of_nat (length data)) xf).
    assert (inodes s' = <[f := x']> (inodes s)) as Hin.
    { unfold s', upd, with_inodes, with_bufs, with_heap. cbn [inodes]. apply map_eq. intros q.
      rewrite lookup_alter, lookup_insert. repeat case_decide; try congruence; try done. subst. by rewrite Hf. }
    destruct (wf_set_data s s' C M (<[d := Z.of_nat (length data)]> M) f xf (Z.of_nat (length data)) (Some d) (Z.of_nat (length data))) as [Hwf' Hlook]; try done.
    + intros q y Hy. rewrite lookup_insert_ne; [by apply (wf_inode _ _ _ Hwf q y)|]. congruence.
    + intros q y Hq Hy. destruct (wf_inode _ _ _ Hwf q y Hy) as [_ Hok]. apply data_ok_fresh; [|done].
      unfold data_ok, s' in *. cbn [bufs upd with_inodes with_bufs]. destruct (r_data y) as [e|] eqn:Ee; [|done].
      destruct Hok as (l & Hb & ?). exists l. rewrite lookup_insert_ne; [done|]. intros ->. by apply (Hdd q y Hy).
    + unfold data_ok, s'. cbn. exists data. rewrite !lookup_insert_eq. split; [done|]. split; [done|]. split; [lia|]. split; [exact Hlen|done].
    + intros e [= <-]. split; [done|]. intros q y _ Hy. by apply (Hdd q y).
    + split; [done|]. split; [done|]. split; [by eexists|]. split; [|split; [auto|]].
      * intros c Hc y Hy. exists y. rewrite Hin, lookup_insert_ne by congruence. split; [done|]. split; [done|].
        split; [done|]. unfold contents, s'. cbn [bufs upd with_inodes with_bufs].
        destruct (r_data y) as [e|] eqn:Ee; [|done]. rewrite lookup_insert_ne; [done|]. intros ->. by apply (Hdd c y Hy).
      * exists d. split; [done|]. split; [|intros Hn; rewrite Hn in Hpos; cbn in Hpos; lia]. unfold contents, s'. cbn. rewrite lookup_insert_eq. cbn.
        by rewrite Nat2Z.id, take_ge.
  - destruct (free_inode_ok (with_heap h s) C M f xf) as (s' & E & Hwf' & Hroot & Hin & Hv & Hlook & Hcon).
    { by apply wf_with_heap. }
    { done. }
    { done. }
    rewrite E. cbn [mbind option_bind]. do 2 eexists. split; [reflexivity|]. split; [done|]. split; [done|].
    split; [by eexists|]. split; [|split; [|done]].
    + intros c Hc y Hy. exists y. rewrite Hin. cbn [inodes with_heap]. rewrite lookup_delete_ne by done.
      split; [done|]. split; [done|]. split; [done|]. by rewrite (Hcon c y Hc Hy).
    + intros p n Hp [Hpf|?]; [|done]. rewrite Hlook by done. by apply look_same_inodes.
Qed.

(** ** The file system as a map from paths *)

Lemma type_bits mode : 0 ≤ mode < 4096 → Z.land mode S_IFMT = 0.
Proof.
  intros Hm. rewrite <- (Z.mod_small mode (2 ^ 12)) by lia. rewrite <- Z.land_ones by lia.
  rewrite <- Z.land_assoc. change (Z.land (Z.ones 12) S_IFMT) with 0. apply Z.land_0_r.
Qed.

Lemma reg_not_dir mode : 0 ≤ mode < 4096 → S_ISDIR (Z.lor S_IFREG mode) = false.
Proof. intros Hm. unfold S_ISDIR. rewrite Z.land_lor_distr_l, (type_bits mode) by done. done. Qed.

Lemma dir_is_dir mode : 0 ≤ mode < 4096 → S_ISDIR (Z.lor S_IFDIR mode) = true.
Proof. intros Hm. unfold S_ISDIR. rewrite Z.land_lor_distr_l, (type_bits mode) by done. done. Qed.

Lemma root_in s C M r : fs_wf s C M → fs_root s = Some r → ∃ x, inodes s !! r = Some x ∧ S_ISDIR (r_mode x) = true.
Proof. intros Hwf Hr. destruct (wf_root _ _ _ Hwf) as (r' & x & Hr' & Hx & ? & _). simplify_eq. eauto. Qed.

Lemma file_at_dir s C M r ns c :
  fs_wf s C M → fs_root s = Some r → Forall name_ok ns → file_at s ns = Some (true, c) →
  ∃ d x, resolve s r ns = Some d ∧ inodes s !! d = Some x ∧ S_ISDIR (r_mode x) = true.
Proof.
  intros Hwf Hr Hns Hf. destruct (decide (ns = [])) as [->|Hne].
  { destruct (root_in _ _ _ _ Hwf Hr) as (x & ? & ?). by exists r, x. }
  rewrite (file_at_resolve s C M r) in Hf by done. destruct (resolve s r ns) as [d|]; [|done]. cbn in Hf.
  destruct (inodes s !! d) as [x|] eqn:Ex; [|done]. injection Hf as ? _. by exists d, x.
Qed.

Lemma file_at_look s C M r ns n d :
  fs_wf s C M → fs_root s = Some r → Forall name_ok ns → name_ok n → resolve s r ns = Some d →
  file_at s (ns ++ [n]) = look s d n ≫= λ c, x ← inodes s !! c; Some (S_ISDIR (r_mode x), contents s x).
Proof.
  intros Hwf Hr Hns Hn Hd. rewrite (file_at_resolve s C M r), resolve_snoc, Hd; try done; [|by destruct ns].
  apply Forall_app. split; [done|]. by constructor.
Qed.

Lemma file_at_none s C M r ns n d :
  fs_wf s C M → fs_root s = Some r → Forall name_ok ns → name_ok n → resolve s r ns = Some d →
  file_at s (ns ++ [n]) = None → look s d n = None.
Proof.
  intros Hwf Hr Hns Hn Hd. rewrite (file_at_look s C M r ns n d) by done.
  destruct (look s d n) as [c|] eqn:El; [|done]. destruct (look_in _ _ _ _ _ _ Hwf El) as [_ [x Hx]]. cbn. by rewrite Hx.
Qed.

(** What the installation of a new file does to the tree. *)
Lemma install_file_ok s C M d xd n mode content :
  fs_wf s C M → inodes s !! d = Some xd → S_ISDIR (r_mode xd) = true → name_ok n → look s d n = None →
  0 ≤ mode < 4096 → Z.of_nat (length (default [] content)) < 2 ^ 62 →
  ∃ s' ret C' M', install_file d n mode content s = Some (s', ret) ∧ fs_wf s' C' M' ∧
    fs_root s' = fs_root s ∧ vinodes s' = vinodes s ∧ (∀ c, is_Some (inodes s !! c) → keeps_file s s' c) ∧
    ((ret = - ENOMEM ∧ ∀ q m, is_Some (inodes s !! q) → look s' q m = look s q m) ∨
     (ret = 0 ∧ ∃ f x, inodes s !! f = None ∧ inodes s' !! f = Some x ∧ S_ISDIR (r_mode x) = false ∧
        contents s' x = default [] content ∧ (∀ m, look s' f m = None) ∧
        ∀ q m, is_Some (inodes s !! q) → look s' q m = if decide (q = d ∧ m = n) then Some f else look s q m)).
Proof.
  intros Hwf Hd Hdir Hn Hnew Hmode Hlen. unfold install_file.
  destruct (alloc_inode_ok s C M (Z.lor S_IFREG mode) n Hwf) as (s1 & r1 & -> & Hr1 & Hb1 & Hv1 & H1).
  cbn [mbind option_bind]. destruct r1 as [f|].
  2: { destruct H1 as [Hwf1 Hin1]. exists s1, (- ENOMEM), C, M. repeat (split; [done|]). split.
       - intros c _ x Hx. exists x. unfold contents. by rewrite Hin1, Hb1.
       - left. split; [done|]. intros q m _. by apply look_same_inodes. }
  cbn zeta in H1. destruct H1 as (HM & Hf & Hin1 & Hwf1 & Horph).
  assert (take (Z.to_nat RAMFS_MAX_NAME) n = n) as Etake.
  { destruct Hn as (_ & _ & Hl). unfold RAMFS_MAX_NAME in *. apply take_ge. lia. }
  rewrite Etake in Hin1. set (xf := mk_ram _ _ _ _ _ _ _ _ n) in *.
  assert (inodes s1 !! f = Some xf) as Hf1 by (rewrite Hin1; apply lookup_insert_eq).
  assert (∀ c, is_Some (inodes s !! c) → c ≠ f ∧ is_Some (inodes s1 !! c)) as Hold.
  { intros c [x Hx]. split; [congruence|]. rewrite Hin1, lookup_insert_ne by congruence. eauto. }
  assert (∀ q m, is_Some (inodes s !! q) → look s1 q m = look s q m) as Hlook1.
  { intros q m Hq. eapply look_ext; [exact Hwf1|exact Hwf|by apply Hold|done|]. intros c. unfold child_of.
    split; intros (Hc & x & Hx & Hm); (split; [done|]); exists x; (split; [|done]).
    - rewrite Hin1, lookup_insert_ne in Hx; [done|]. intros <-. by apply (proj1 (proj2 Horph) q).
    - rewrite Hin1, lookup_insert_ne; [done|]. congruence. }
  assert (∀ c, is_Some (inodes s !! c) → keeps_file s s1 c) as Hk1 by (intros c _; by eapply keeps_file_insert).
  (* the contents *)
  assert (∃ s2 ok M2, (match content with None => Some (s1, true) | Some data => fill_content f data s1 end) = Some (s2, ok) ∧
    fs_wf s2 C M2 ∧ fs_root s2 = fs_root s1 ∧ vinodes s2 = vinodes s1 ∧ (∀ c, c ≠ f → keeps_file s1 s2 c) ∧
    (∀ q m, is_Some (inodes s1 !! q) → q ≠ f → look s2 q m = look s1 q m) ∧
    if (ok : bool) then orphan s2 C f ∧ ∃ x2, inodes s2 !! f = Some x2 ∧ r_name x2 = n ∧
       r_mode x2 = Z.lor S_IFREG mode ∧ contents s2 x2 = default [] content ∧
       (∀ c, c ≠ f → inodes s2 !! c = inodes s1 !! c) else True)
    as (s2 & ok & M2 & -> & Hwf2 & Hr2 & Hv2 & Hk2 & Hlook2 & H2).
  { destruct content as [data|].
    - destruct (fill_content_ok s1 C _ f xf data Hwf1 Horph Hf1 eq_refl Hlen)
        as (s2 & ok & E & Hr2 & Hv2 & [M2 Hwf2] & Hk2 & Hl2 & H2).
      exists s2, ok, M2. repeat (split; [done|]). split; [intros; apply Hl2; auto|].
      destruct ok; [|done]. destruct H2 as (e & Hin2 & Hc2 & _). split.
      + destruct Horph as (_ & ? & ? & ?). split; [|by rewrite Hr2].
        rewrite Hin2, lookup_insert_eq. by eexists.
      + eexists. rewrite Hin2, lookup_insert_eq. split; [reflexivity|]. split; [done|]. split; [done|].
        split; [done|]. intros c Hc. by rewrite lookup_insert_ne.
    - exists s1, true, (<[f:=sizeof_ramfs_inode]> M). split; [done|]. split; [done|]. split; [done|]. split; [done|].
      split; [intros c _ x Hx; by exists x|]. split; [done|]. split; [done|]. by exists xf. }
  cbn [mbind option_bind]. destruct ok.
  2: { exists s2, (- ENOMEM), C, M2. split; [done|]. split; [done|]. split; [congruence|]. split; [congruence|]. split.
       - intros c Hc. eapply keeps_file_trans; [by apply Hk1|]. apply Hk2. by apply Hold.
       - left. split; [done|]. intros q m Hq. rewrite Hlook2 by (by apply Hold). by apply Hlook1. }
  destruct H2 as (Horph2 & x2 & Hf2 & Hname2 & Hmode2 & Hc2 & Hsame2).
  assert (d ≠ f) as Hdf by (apply Hold; eauto).
  assert (inodes s2 !! d = Some xd) as Hd2.
  { rewrite Hsame2 by done. rewrite Hin1, lookup_insert_ne by done. done. }
  destruct (add_child_ok s2 C M2 d f xd x2) as (s3 & E3 & Hwf3 & Hrel3 & Hlook3); try done.
  { by rewrite Hname2. }
  { rewrite Hname2, Hlook2 by (by apply Hold; eauto). by rewrite Hlook1 by eauto. }
  unfold link_new. rewrite E3. cbn [mbind option_bind Z.eqb negb].
  exists s3, 0, (with_children C d (f :: C d)), M2. destruct Hrel3 as (Hr3 & Hb3 & Hv3 & Hh3 & Hf3 & Hg3).
  assert (relinked s2 s3) as Hrel3 by done.
  split; [done|]. split; [done|]. split; [congruence|]. split; [congruence|]. split.
  { intros c Hc. eapply keeps_file_trans; [by apply Hk1|]. eapply keeps_file_trans; [apply Hk2; by apply Hold|].
    by apply relinked_keeps. }
  right. split; [done|]. destruct (relinked_keeps s2 s3 f Hrel3 x2 Hf2) as (x3 & Hx3 & Hm3 & _ & Hcon3).
  exists f, x3. split; [done|]. split; [done|]. split; [rewrite Hm3, Hmode2; by apply reg_not_dir|].
  split; [congruence|]. rewrite Hname2 in Hlook3. split.
  - intros m. rewrite Hlook3 by eauto. rewrite decide_False by (intros [? _]; congruence).
    destruct (look s2 f m) as [c|] eqn:El; [|done].
    apply (proj2 (lookup_child_spec s2 C M2 f m Hwf2 ltac:(eauto)) c) in El as [Hc _].
    destruct Horph2 as (_ & _ & _ & HC). rewrite HC in Hc. by apply elem_of_nil in Hc.
  - intros q m Hq. rewrite Hlook3.
    + case_decide; [done|]. rewrite Hlook2 by (by apply Hold). by apply Hlook1.
    + rewrite Hsame2 by (by apply Hold). by apply Hold.
Qed.

Lemma create_file_ok s C M ns n mode content c :
  fs_wf s C M → Forall name_ok ns → name_ok n → Z.of_nat (length (join ns)) < PARENT_PATH_SIZE →
  0 ≤ mode < 4096 → Z.of_nat (length (default [] content)) < 2 ^ 62 → file_at s ns = Some (true, c) →
  ∃ s' ret, ramfs_create_file (path_of (ns ++ [n])) mode content s = Some (s', ret) ∧
    (∃ C' M', fs_wf s' C' M') ∧
    match file_at s (ns ++ [n]) with
    | Some _ => ret = - EEXIST ∧ s' = s
    | None =>
        (ret = - ENOMEM ∧ ∀ ms, Forall name_ok ms → file_at s' ms = file_at s ms) ∨
        (ret = 0 ∧ ∀ ms, Forall name_ok ms →
           file_at s' ms = if decide (ms = ns ++ [n]) then Some (false, default [] content) else file_at s ms)
    end.
Proof.
  intros Hwf Hns Hn Hlen Hmode Hcl Hdir. destruct (wf_root _ _ _ Hwf) as (r & rx & Hr & Hrx & _).
  destruct (file_at_dir s C M r ns c Hwf Hr Hns Hdir) as (d & xd & Hd & Hxd & Hxdir).
  unfold ramfs_create_file. rewrite Hr, (get_parent_ok s C M r ns n d xd) by done. cbn [mbind option_bind].
  destruct (lookup_child_spec s C M d n Hwf ltac:(eauto)) as [-> _]. cbn [mbind option_bind].
  rewrite (file_at_look s C M r ns n d) by done. destruct (look s d n) as [e|] eqn:El.
  { destruct (look_in _ _ _ _ _ _ Hwf El) as [_ [x Hx]]. exists s, (- EEXIST). split; [done|]. split; [eauto|].
    cbn. by rewrite Hx. }
  destruct (install_file_ok s C M d xd n mode content Hwf Hxd Hxdir Hn El Hmode Hcl)
    as (s' & ret & C' & M' & E & Hwf' & Hr' & _ & Hk & Hcase).
  exists s', ret. split; [done|]. split; [eauto|]. cbn [mbind option_bind]. rewrite Hr in Hr'.
  assert (∀ ms q, resolve s r ms = Some q → is_Some (inodes s !! q)) as Hin.
  { intros ms q. apply (resolve_in s C M r ms q Hwf). eauto. }
  destruct Hcase as [[-> Hl]|(-> & f & x & Hf & Hx & Hxf & Hxc & Hlf & Hl)]; [left|right]; (split; [done|]); intros ms Hms.
  - apply (file_at_ext s s' C C' M M' r); try done; [|intros q Hq; apply Hk; by apply (Hin ms)].
    clear Hms. induction ms as [|m l IH] using rev_ind; [done|]. rewrite !resolve_snoc, IH.
    destruct (resolve s r l) as [q|] eqn:Eq; [|done]. cbn. apply Hl. by apply (Hin l).
  - pose proof (resolve_insert s s' C M r d f n ns Hwf Hr Hd El Hl Hlf ms) as Hres. case_decide as Hms'.
    + subst ms. rewrite (file_at_resolve s' C' M' r), Hres by (done || by destruct ns). cbn. rewrite Hx. cbn.
      by rewrite Hxf, Hxc.
    + apply (file_at_ext s s' C C' M M' r); try done. intros q Hq. apply Hk. by apply (Hin ms).
Qed.

(** C6: creating a file in an existing directory under a new name adds exactly
    that path, with the given contents, to the map from paths to files that
    the file system implements, or fails with -ENOMEM and changes no path;
    the tree stays well formed.  Creating a name that exists fails with
    -EEXIST and changes nothing. *)
Theorem ramfs_create_file_refines s C M ns n mode content c :
  fs_wf s C M → Forall name_ok ns → name_ok n → Z.of_nat (length (join ns)) < PARENT_PATH_SIZE →
  0 ≤ mode < 4096 → Z.of_nat (length (default [] content)) < 2 ^ 62 → file_at s ns = Some (true, c) →
  ∃ s' ret, ramfs_create_file (path_of (ns ++ [n])) mode content s = Some (s', ret) ∧
    (∃ C' M', fs_wf s' C' M') ∧
    match file_at s (ns ++ [n]) with
    | Some _ => ret = - EEXIST ∧ s' = s
    | None =>
        (ret = - ENOMEM ∧ ∀ ms, Forall name_ok ms → file_at s' ms = file_at s ms) ∨
        (ret = 0 ∧ ∀ ms, Forall name_ok ms →
           file_at s' ms = if decide (ms = ns ++ [n]) then Some (false, default [] content) else file_at s ms)
    end.
Proof. apply create_file_ok. Qed.

(** ** Reading and writing *)

(** [buf] written at [pos] over [old]; a gap is filled with zeros. *)
Definition splice (pos : Z) (buf old : list Z) : list Z :=
  take (Z.to_nat pos) old ++ replicate (Z.to_nat pos - length old) 0 ++ buf ++ drop (Z.to_nat pos + length buf) old.

Lemma put_bytes_ok off src l :
  0 ≤ off → off + Z.of_nat (length src) ≤ Z.of_nat (length l) →
  put_bytes off src l = Some (take (Z.to_nat off) l ++ src ++ drop (Z.to_nat off + length src) l).
Proof.
  intros H0 Hl. unfold put_bytes. destruct (Z.leb_spec 0 off); [|lia].
  by destruct (Z.leb_spec (off + Z.of_nat (length src)) (Z.of_nat (length l))); [|lia].
Qed.

(** The two loops of ramfs_write on a buffer that is large enough. *)
Lemma write_loops l size pos buf :
  let count := Z.of_nat (length buf) in
  0 ≤ size ≤ Z.of_nat (length l) → 0 ≤ pos → pos + count ≤ Z.of_nat (length l) →
  ∃ l1 l2, (if size <? pos then put_bytes size (replicate (Z.to_nat (pos - size)) 0) l else Some l) = Some l1 ∧
    (match buf with [] => Some l1 | _ => put_bytes pos buf l1 end) = Some l2 ∧
    length l2 = length l ∧
    take (Z.to_nat (Z.max size (pos + count))) l2 = splice pos buf (take (Z.to_nat size) l).
Proof.
  intros count Hs Hp Hc. set (gap := replicate (Z.to_nat (pos - size)) 0).
  assert (∃ l1, (if size <? pos then put_bytes size gap l else Some l) = Some l1 ∧ length l1 = length l ∧
    take (Z.to_nat pos) l1 = take (Z.to_nat pos) (take (Z.to_nat size) l) ++ replicate (Z.to_nat pos - Z.to_nat size) 0 ∧
    drop (Z.to_nat (Z.max size pos)) l1 = drop (Z.to_nat (Z.max size pos)) l ∧ (pos ≤ size → l1 = l))
    as (l1 & -> & Hl1 & Htake & Hdrop & Heq).
  { destruct (Z.ltb_spec size pos) as [Hlt|Hge].
    - assert (length gap = Z.to_nat (pos - size)) as Hg by (unfold gap; by rewrite length_replicate).
      rewrite put_bytes_ok by lia. eexists. split; [reflexivity|].
      assert (length (take (Z.to_nat size) l) = Z.to_nat size) as Ht by (rewrite length_take; lia).
      split; [rewrite !length_app, length_drop; lia|]. rewrite Z.max_r by lia. split; [|split; [|lia]].
      + rewrite app_assoc, take_app_le by (rewrite length_app; lia). rewrite take_ge by (rewrite length_app; lia).
        rewrite take_take. replace (Z.to_nat pos `min` Z.to_nat size)%nat with (Z.to_nat size) by lia.
        unfold gap. do 2 f_equal. lia.
      + rewrite app_assoc, drop_app_ge by (rewrite length_app; lia). rewrite length_app, drop_drop. f_equal. lia.
    - eexists. split; [reflexivity|]. split; [done|]. rewrite Z.max_l by lia. split; [|done].
      rewrite take_take. replace (Z.to_nat pos `min` Z.to_nat size)%nat with (Z.to_nat pos) by lia.
      replace (Z.to_nat pos - Z.to_nat size)%nat with 0%nat by lia. by rewrite app_nil_r. }
  assert ((match buf with [] => Some l1 | _ => put_bytes pos buf l1 end)
    = Some (take (Z.to_nat pos) l1 ++ buf ++ drop (Z.to_nat pos + length buf) l1)) as Hput.
  { destruct buf as [|b buf]; [|apply put_bytes_ok; lia]. cbn. by rewrite Nat.add_0_r, take_drop. }
  exists l1. eexists. split; [done|]. split; [exact Hput|].
  assert (length (take (Z.to_nat pos) l1) = Z.to_nat pos) as Ht by (rewrite length_take; lia).
  split; [rewrite !length_app, length_drop; lia|]. unfold splice.
  assert (length (take (Z.to_nat size) l) = Z.to_nat size) as Hts by (rewrite length_take; lia). rewrite Hts.
  rewrite app_assoc, (app_assoc (take (Z.to_nat pos) (take _ l))), <- Htake, app_assoc.
  assert (length (take (Z.to_nat pos) l1 ++ buf) = (Z.to_nat pos + length buf)%nat) as Hlen by (rewrite length_app; lia).
  destruct (Z.le_gt_cases size (pos + count)) as [Hle|Hgt].
  - rewrite Z.max_r by lia. replace (Z.to_nat (pos + count)) with (Z.to_nat pos + length buf)%nat by lia.
    rewrite <- Hlen at 1. rewrite take_app_length. rewrite (drop_ge (take _ l)) by lia. by rewrite app_nil_r.
  - rewrite Z.max_l by lia. rewrite take_app_ge by lia. rewrite Hlen. f_equal. rewrite Heq by lia.
    rewrite take_drop_commute. do 2 f_equal. lia.
Qed.

Lemma align_cap n : 0 ≤ n < 2 ^ 61 →
  let cap := Z.land (u64 (n + RAMFS_BLOCK_SIZE - 1)) (Z.lnot (RAMFS_BLOCK_SIZE - 1)) in n ≤ cap < 2 ^ 62.
Proof.
  intros Hn. unfold RAMFS_BLOCK_SIZE. rewrite u64_small by lia.
  pose proof (ALIGN_spec n 12 ltac:(lia)) as [_ H0]. unfold ALIGN in H0. change (2 ^ 12) with 4096 in H0. lia.
Qed.

Lemma grow_ok s C M p x new_size :
  fs_wf s C M → inodes s !! p = Some x → 0 ≤ r_capacity x < new_size → new_size < 2 ^ 61 →
  ∃ s' r, grow p x new_size s = Some (s', r) ∧ (∃ M', fs_wf s' C M') ∧ fs_root s' = fs_root s ∧
    vinodes s' = vinodes s ∧ (∀ q m, is_Some (inodes s !! q) → look s' q m = look s q m) ∧
    (∀ q, keeps_file s s' q) ∧
    match r with
    | None => inodes s' = inodes s
    | Some x' => inodes s' !! p = Some x' ∧ (∀ q, q ≠ p → inodes s' !! q = inodes s !! q) ∧
        r_size x' = r_size x ∧ new_size ≤ r_capacity x' ∧ r_mode x' = r_mode x
    end.
Proof.
  intros Hwf Hx Hcap Hns. unfold grow. set (cap := Z.land _ _).
  pose proof (align_cap new_size ltac:(lia)) as Hc. fold cap in Hc. cbn zeta in Hc.
  destruct (kh_alloc_ok (fs_heap s) M cap GFP_KERNEL (wf_heap _ _ _ Hwf) ltac:(lia)) as (h & r & -> & Hr).
  cbn [mbind option_bind]. destruct r as [d|].
  2: { do 2 eexists. split; [reflexivity|]. split; [exists M; by apply wf_with_heap|]. split; [done|]. split; [done|].
       split; [intros; by apply look_same_inodes|]. split; [|done]. intros q y Hy. by exists y. }
  destruct Hr as (_ & _ & HM & Hh). destruct (fresh_pointer _ _ _ _ Hwf HM) as [Hdi Hdd].
  pose proof (wf_inode _ _ _ Hwf p x Hx) as [HMp Hdata].
  assert (0 ≤ r_size x ≤ r_capacity x) as Hsz.
  { unfold data_ok in Hdata. destruct (r_data x); [|lia]. destruct Hdata as (? & _ & _ & ? & _). done. }
  assert (∃ old h2 b2 M2, (match r_data x with
      | Some d0 => l ← bufs s !! d0; if Z.of_nat (length l) <? r_size x then None
                   else h ← kh_free (Some d0) h; Some (take (Z.to_nat (r_size x)) l, h, delete d0 (bufs s))
      | None => if r_size x =? 0 then Some ([], h, bufs s) else None end) = Some (old, h2, b2) ∧
      old = contents s x ∧ kh_inv h2 M2 ∧ M2 !! d = Some cap ∧ Z.of_nat (length old) = r_size x ∧
      (∀ q y, inodes s !! q = Some y → M2 !! q = Some sizeof_ramfs_inode) ∧
      (∀ q y, q ≠ p → inodes s !! q = Some y → data_ok (<[d := old ++ replicate (Z.to_nat (cap - r_size x)) 0]> b2) M2 y ∧
         ∀ e, r_data y = Some e → b2 !! e = bufs s !! e ∧ e ≠ d))
    as (old & h2 & b2 & M2 & -> & Hold & Hh2 & HMd & Holen & HMi & Hother).
  { assert (∀ q y, inodes s !! q = Some y → <[d := cap]> M !! q = Some sizeof_ramfs_inode) as HMi.
    { intros q y Hy. rewrite lookup_insert_ne by congruence. by apply (wf_inode _ _ _ Hwf q y). }
    assert (∀ q y b l, inodes s !! q = Some y → (∀ e, r_data y = Some e → b !! e = bufs s !! e) →
      data_ok (<[d := l]> b) (<[d := cap]> M) y) as Hdok.
    { intros q y b l Hy Hb. apply data_ok_fresh; [|done]. destruct (wf_inode _ _ _ Hwf q y Hy) as [_ Hok].
      unfold data_ok in *. destruct (r_data y) as [e|] eqn:Ee; [|done]. destruct Hok as (l' & Hl' & ?).
      exists l'. rewrite lookup_insert_ne by (intros ->; by apply (Hdd q y Hy)). by rewrite Hb. }
    unfold data_ok in Hdata. unfold contents. destruct (r_data x) as [d0|] eqn:Ed0.
    - destruct Hdata as (l & Hl & Hll & Hs & _ & HM0). rewrite Hl. cbn [mbind option_bind].
      destruct (Z.ltb_spec (Z.of_nat (length l)) (r_size x)); [lia|].
      assert (d0 ≠ d) as Hd0 by congruence.
      destruct (kh_free_ok h (<[d:=cap]> M) d0 (r_capacity x) Hh) as (h2 & E2 & Hh2); [by rewrite lookup_insert_ne|].
      rewrite E2. cbn [mbind option_bind]. do 4 eexists. split; [reflexivity|]. split; [done|]. split; [exact Hh2|].
      split; [rewrite lookup_delete_ne by done; apply lookup_insert_eq|]. split; [rewrite length_take; lia|]. split.
      + intros q y Hy. rewrite lookup_delete_ne; [by eapply HMi|]. intros ->.
        destruct (wf_data _ _ _ Hwf p p x x q Hx Ed0). congruence.
      + intros q y Hq Hy. assert (∀ e, r_data y = Some e → e ≠ d0) as Hne.
        { intros e He ->. apply Hq. symmetry. by apply (wf_data _ _ _ Hwf p q x y d0 Hx Ed0). }
        split.
        * specialize (Hdok q y (delete d0 (bufs s)) (take (Z.to_nat (r_size x)) l ++ replicate (Z.to_nat (cap - r_size x)) 0) Hy).
          unfold data_ok in *. destruct (r_data y) as [e|] eqn:Ee; [|by apply Hdok].
          destruct Hdok as (l' & ? & ? & ? & ? & HMe).
          { intros e' [= <-]. rewrite lookup_delete_ne; [done|]. intros ->. by apply (Hne e). }
          exists l'. do 4 (split; [done|]). rewrite lookup_delete_ne; [done|]. intros ->. by apply (Hne e).
        * intros e He. rewrite lookup_delete_ne by (intros ->; by apply (Hne e)). split; [done|].
          intros ->. by apply (Hdd q y Hy).
    - destruct Hdata as [Hs0 _]. rewrite Hs0. cbn [Z.eqb]. do 4 eexists. split; [reflexivity|]. split; [done|].
      split; [exact Hh|]. split; [apply lookup_insert_eq|]. split; [done|]. split; [done|].
      intros q y Hq Hy. split; [by apply (Hdok q)|]. intros e He. split; [done|]. intros ->. by apply (Hdd q y Hy). }
  cbn [mbind option_bind]. destruct (Z.ltb_spec cap (r_size x)); [lia|].
  do 2 eexists. split; [reflexivity|]. set (x' := set_data _ (Some d) cap x). set (s' := upd p _ _).
  set (l' := old ++ replicate (Z.to_nat (cap - r_size x)) 0) in *.
  assert (inodes s' = <[p := x']> (inodes s)) as Hin.
  { unfold s', upd, with_inodes, with_bufs, with_heap. cbn [inodes]. apply map_eq. intros q.
    rewrite lookup_alter, lookup_insert. repeat case_decide; try congruence; try done. subst. by rewrite Hx. }
  destruct (wf_set_data s s' C M M2 p x (r_size x) (Some d) cap) as [Hwf' Hlook]; try done.
  { intros q y Hq Hy. by apply (Hother q y Hq Hy). }
  { unfold data_ok, s'. cbn [r_data set_data bufs upd with_inodes with_bufs r_size r_capacity]. exists l'.
    rewrite lookup_insert_eq. split; [done|]. unfold l'. rewrite length_app, length_replicate. split; [lia|]. split; [lia|]. split; [lia|done]. }
  { intros e [= <-]. split; [done|]. intros q y _ Hy. by apply (Hdd q y). }
  split; [eauto|]. split; [done|]. split; [done|]. split; [done|]. split.
  - intros q y Hy. destruct (decide (q = p)) as [->|Hq].
    + rewrite Hx in Hy. injection Hy as <-. exists x'. rewrite Hin, lookup_insert_eq. split; [done|]. split; [done|].
      split; [done|]. rewrite <- Hold. unfold contents, s'. cbn. rewrite lookup_insert_eq. cbn. unfold l'.
      rewrite take_app_le by lia. apply take_ge. lia.
    + exists y. rewrite Hin, lookup_insert_ne by done. split; [done|]. split; [done|]. split; [done|].
      unfold contents, s'. cbn [bufs upd with_inodes with_bufs]. destruct (r_data y) as [e|] eqn:Ee; [|done].
      destruct (proj2 (Hother q y Hq Hy) e Ee) as [He Hne]. by rewrite lookup_insert_ne, He by done.
  - rewrite Hin, lookup_insert_eq. split; [done|]. split; [|split; [done|split; [cbn; lia|done]]].
    intros q Hq. by rewrite lookup_insert_ne.
Qed.

(** The state after a write to the inode [p]. *)
Lemma write_ok s C M p x vino buf pos :
  fs_wf s C M → inodes s !! p = Some x → 0 ≤ pos → pos + Z.of_nat (length buf) < 2 ^ 61 →
  ∃ s' pos' ret, ramfs_write (Some p) vino buf pos s = Some (s', pos', ret) ∧ (∃ M', fs_wf s' C M') ∧
    fs_root s' = fs_root s ∧ (∀ q m, is_Some (inodes s !! q) → look s' q m = look s q m) ∧
    (∀ q, q ≠ p → keeps_file s s' q) ∧
    ((ret = - ENOMEM ∧ pos' = pos ∧ keeps_file s s' p) ∨
     (ret = Z.of_nat (length buf) ∧ pos' = pos + ret ∧
      ∃ x', inodes s' !! p = Some x' ∧ r_mode x' = r_mode x ∧ contents s' x' = splice pos buf (contents s x))).
Proof.
  intros Hwf Hx Hpos Hend. unfold ramfs_write. rewrite Hx. cbn [mbind option_bind]. set (count := Z.of_nat (length buf)) in *.
  rewrite (u64_small (pos + count)) by lia.
  assert (0 ≤ r_capacity x) as Hcap0.
  { destruct (wf_inode _ _ _ Hwf p x Hx) as [_ Hok]. unfold data_ok in Hok.
    destruct (r_data x); [destruct Hok as (? & _ & ? & ? & _)|destruct Hok as [_ ?]]; lia. }
  assert (∃ s1 r1 M1, (if r_capacity x <? pos + count then grow p x (pos + count) s else Some (s, Some x)) = Some (s1, r1) ∧
    fs_wf s1 C M1 ∧ fs_root s1 = fs_root s ∧ (∀ q m, is_Some (inodes s !! q) → look s1 q m = look s q m) ∧
    (∀ q, keeps_file s s1 q) ∧ (∀ q, is_Some (inodes s !! q) → is_Some (inodes s1 !! q)) ∧
    match r1 with Some x1 => inodes s1 !! p = Some x1 ∧ pos + count ≤ r_capacity x1 ∧ r_mode x1 = r_mode x | None => True end)
    as (s1 & r1 & M1 & -> & Hwf1 & Hr1 & Hl1 & Hk1 & Hd1 & H1).
  { destruct (Z.ltb_spec (r_capacity x) (pos + count)).
    - destruct (grow_ok s C M p x (pos + count) Hwf Hx) as (s1 & r1 & E & [M1 Hwf1] & Hr1 & _ & Hl1 & Hk1 & H1); [lia|lia|].
      exists s1, r1, M1. do 5 (split; [done|]). split.
      + intros q [y Hy]. destruct (Hk1 q y Hy) as (y' & ? & _). eauto.
      + destruct r1; [|done]. destruct H1 as (? & _ & _ & ? & ?). done.
    - exists s, (Some x), M. split; [done|]. split; [done|]. split; [done|]. split; [done|].
      split; [intros q y Hy; by exists y|]. done. }
  cbn [mbind option_bind]. destruct r1 as [x1|].
  2: { do 3 eexists. split; [reflexivity|]. split; [eauto|]. split; [done|]. split; [done|]. split; [auto|]. left. auto. }
  destruct H1 as (Hx1 & Hc1 & Hm1). destruct (Hk1 p x Hx) as (x1' & Hx1' & _ & _ & Hcon1).
  rewrite Hx1 in Hx1'. injection Hx1' as <-. pose proof (wf_inode _ _ _ Hwf1 p x1 Hx1) as [HMp Hdata].
  rewrite (u64_small pos) by lia.
  set (l0 := match r_data x1 with Some d => default [] (bufs s1 !! d) | None => [] end).
  assert (Z.of_nat (length l0) = r_capacity x1 ∧ 0 ≤ r_size x1 ≤ r_capacity x1 ∧ r_capacity x1 < 2 ^ 62 ∧
    contents s1 x1 = take (Z.to_nat (r_size x1)) l0) as (Hl0 & Hs1 & Hcap & Hc0).
  { unfold data_ok, contents, l0 in *. destruct (r_data x1) as [d|].
    - destruct Hdata as (l & Hl & Hll & Hs & Hc & _). rewrite Hl. cbn. done.
    - destruct Hdata as [Hs Hc]. rewrite Hs, Hc. cbn. done. }
  destruct (write_loops l0 (r_size x1) pos buf) as (l1 & l2 & -> & Hput & Hlen2 & Htake); [lia|lia|fold count; lia|].
  cbn [mbind option_bind]. rewrite Hput. cbn [mbind option_bind].
  rewrite (i64_small (pos + count)), (i64_small (r_size x1)) by lia.
  assert ((if r_size x1 <? pos + count then pos + count else r_size x1) = Z.max (r_size x1) (pos + count)) as ->.
  { destruct (Z.ltb_spec (r_size x1) (pos + count)); lia. }
  set (size := Z.max (r_size x1) (pos + count)). do 3 eexists. split; [reflexivity|].
  set (s2 := match r_data x1 with Some d => with_bufs (<[d := l2]> (bufs s1)) s1 | None => s1 end).
  set (s3 := upd p (set_data size (r_data x1) (r_capacity x1)) s2). set (s4 := match vino with Some _ => _ | None => s3 end).
  assert (inodes s4 = <[p := set_data size (r_data x1) (r_capacity x1) x1]> (inodes s1)) as Hin.
  { assert (inodes s2 = inodes s1) as E2 by (unfold s2; by destruct (r_data x1)).
    assert (inodes s4 = inodes s3) as -> by (unfold s4; by destruct vino). unfold s3, upd, with_inodes. cbn [inodes].
    rewrite E2. apply map_eq. intros q. rewrite lookup_alter, lookup_insert.
    repeat case_decide; try congruence; try done. subst. by rewrite Hx1. }
  assert (fs_root s4 = fs_root s1 ∧ fs_heap s4 = fs_heap s1 ∧
    bufs s4 = match r_data x1 with Some d => <[d := l2]> (bufs s1) | None => bufs s1 end) as (Hr4 & Hh4 & Hb4).
  { unfold s4, s3, s2. by destruct vino, (r_data x1). }
  assert (∀ q y e, q ≠ p → inodes s1 !! q = Some y → r_data y = Some e → bufs s4 !! e = bufs s1 !! e) as Hbo.
  { intros q y e Hq Hy He. rewrite Hb4. destruct (r_data x1) as [d|] eqn:Ed; [|done].
    rewrite lookup_insert_ne; [done|]. intros ->. apply Hq. symmetry. by apply (wf_data _ _ _ Hwf1 p q x1 y e Hx1 Ed). }
  destruct (wf_set_data s1 s4 C M1 M1 p x1 size (r_data x1) (r_capacity x1)) as [Hwf4 Hlook4]; try done.
  { rewrite Hh4. apply Hwf1. }
  { intros q y Hy. by apply (wf_inode _ _ _ Hwf1 q y). }
  { intros q y Hq Hy. destruct (wf_inode _ _ _ Hwf1 q y Hy) as [_ Hok]. unfold data_ok in *.
    destruct (r_data y) as [e|] eqn:Ee; [|done]. by rewrite (Hbo q y e Hq Hy Ee). }
  { unfold data_ok in *. cbn [r_data set_data r_size r_capacity]. rewrite Hb4. destruct (r_data x1) as [d|] eqn:Ed.
    - destruct Hdata as (l & Hl & Hll & Hs & Hc & HM). exists l2. rewrite lookup_insert_eq. split; [done|].
      rewrite Hlen2. split; [done|]. split; [unfold size; lia|]. done.
    - destruct Hdata as [Hs Hc]. split; [|done]. unfold size. lia. }
  { intros e He. destruct (wf_data _ _ _ Hwf1 p p x1 x1 e Hx1 He) as [? _]. split; [done|].
    intros q y Hq Hy Hye. apply Hq. symmetry. by apply (wf_data _ _ _ Hwf1 p q x1 y e Hx1 He). }
  split; [eauto|]. split; [congruence|]. split; [intros q m Hq; rewrite Hlook4 by auto; by apply Hl1|]. split.
  - intros q Hq. eapply keeps_file_trans; [by apply Hk1|]. intros y Hy. exists y.
    rewrite Hin, lookup_insert_ne by done. split; [done|]. split; [done|]. split; [done|].
    unfold contents. destruct (r_data y) as [e|] eqn:Ee; [|done]. by rewrite (Hbo q y e Hq Hy Ee).
  - right. split; [done|]. split; [done|]. eexists. rewrite Hin, lookup_insert_eq. split; [reflexivity|]. split; [done|].
    rewrite <- Hcon1, Hc0, <- Htake. fold count size. unfold contents. cbn [r_data set_data r_size]. rewrite Hb4.
    destruct (r_data x1) as [d|] eqn:Ed; [by rewrite lookup_insert_eq|].
    unfold l0 in Hlen2. cbn in Hlen2. destruct l2; [|done]. by rewrite take_nil.
Qed.

Lemma resolve_same s s' C M r ms :
  fs_wf s C M → fs_root s = Some r → (∀ q m, is_Some (inodes s !! q) → look s' q m = look s q m) →
  resolve s' r ms = resolve s r ms.
Proof.
  intros Hwf Hr Hl. induction ms as [|m l IH] using rev_ind; [done|]. rewrite !resolve_snoc, IH.
  destruct (resolve s r l) as [q|] eqn:Eq; [|done]. cbn. apply Hl. eapply resolve_in; [done| |done].
  destruct (root_in _ _ _ _ Hwf Hr) as (x & ? & _). eauto.
Qed.

(** Reading a file from a position. *)
Lemma read_contents s C M p x count pos :
  fs_wf s C M → inodes s !! p = Some x → 0 ≤ count → 0 ≤ pos < 2 ^ 62 →
  let bytes := take (Z.to_nat count) (drop (Z.to_nat pos) (contents s x)) in
  ramfs_read (Some p) count pos s = Some (bytes, pos + Z.of_nat (length bytes), Z.of_nat (length bytes)).
Proof.
  intros Hwf Hx Hc Hp. unfold ramfs_read. rewrite Hx. cbn [mbind option_bind].
  destruct (wf_inode _ _ _ Hwf p x Hx) as [_ Hok]. unfold data_ok in Hok. unfold contents.
  destruct (r_data x) as [d|].
  2: { rewrite drop_nil, take_nil. cbn. by rewrite Z.add_0_r. }
  destruct Hok as (l & Hl & Hll & Hs & Hcap & _). rewrite Hl. cbn [mbind option_bind default].
  rewrite i64_small by lia. destruct (Z.leb_spec (r_size x) pos) as [Hge|Hlt].
  { cbn zeta. rewrite drop_ge by (cbn; rewrite length_take; lia). rewrite take_nil. cbn. by rewrite Z.add_0_r. }
  rewrite (u64_small (r_size x - pos)) by lia. set (n := if count <? r_size x - pos then count else r_size x - pos).
  assert (n = Z.min count (r_size x - pos)) as Hn by (unfold n; destruct (Z.ltb_spec count (r_size x - pos)); lia).
  destruct (Z.leb_spec 0 pos); [|lia]. destruct (Z.leb_spec (pos + n) (Z.of_nat (length l))); [|lia]. cbn [andb id].
  assert (take (Z.to_nat count) (drop (Z.to_nat pos) (take (Z.to_nat (r_size x)) l)) = take (Z.to_nat n) (drop (Z.to_nat pos) l)) as ->.
  { replace (Z.to_nat (r_size x)) with (Z.to_nat pos + Z.to_nat (r_size x - pos))%nat by lia.
    rewrite <- take_drop_commute, take_take. f_equal. lia. }
  rewrite length_take, length_drop. rewrite i64_small by lia. do 3 f_equal; lia.
Qed.

(** A write to the file a path names replaces the bytes at the position,
    fills a gap with zeros, keeps the rest of the file and every other file,
    and reading the same range gives the bytes back; when the buffer cannot
    grow the write fails with -ENOMEM and no file has changed. *)
Theorem ramfs_write_read s C M ns p size old vino buf pos :
  fs_wf s C M → Forall name_ok ns → ns ≠ [] →
  ramfs_lookup_path_info (path_of ns) s = Some (Some (size, false, Some p)) → file_at s ns = Some (false, old) →
  0 ≤ pos → pos + Z.of_nat (length buf) < 2 ^ 61 →
  ∃ s' pos' ret, ramfs_write (Some p) vino buf pos s = Some (s', pos', ret) ∧ (∃ C' M', fs_wf s' C' M') ∧
    ((ret = - ENOMEM ∧ ∀ ms, Forall name_ok ms → file_at s' ms = file_at s ms) ∨
     (ret = Z.of_nat (length buf) ∧ pos' = pos + ret ∧
      (∀ ms, Forall name_ok ms →
         file_at s' ms = if decide (ms = ns) then Some (false, splice pos buf old) else file_at s ms) ∧
      ramfs_read (Some p) ret pos s' = Some (buf, pos', ret))).
Proof.
  intros Hwf Hns Hne Hinfo Hold Hpos Hend. destruct (wf_root _ _ _ Hwf) as (r & rx & Hr & _).
  rewrite (path_info_resolve s C M r ns Hwf Hr Hns Hne) in Hinfo. rewrite (file_at_resolve s C M r ns) in Hold by done.
  destruct (resolve s r ns) as [q|] eqn:Eq; [|done]. cbn [mbind option_bind] in Hinfo, Hold.
  destruct (inodes s !! q) as [x|] eqn:Ex; [|done]. cbn [mbind option_bind] in Hinfo, Hold.
  injection Hinfo as _ Hdir <-. injection Hold as _ <-.
  destruct (write_ok s C M q x vino buf pos Hwf Ex Hpos Hend)
    as (s' & pos' & ret & E & [M' Hwf'] & Hr' & Hl & Hk & Hcase).
  exists s', pos', ret. split; [done|]. split; [eauto|]. rewrite Hr in Hr'.
  pose proof (λ ms, resolve_same s s' C M r ms Hwf Hr Hl) as Hres.
  destruct Hcase as [(-> & _ & Hkp)|(-> & -> & x' & Hx' & Hm & Hc)]; [left|right].
  - split; [done|]. intros ms Hms. apply (file_at_ext s s' C C M M' r); try done. intros c _.
    destruct (decide (c = q)) as [->|]; [done|]. by apply Hk.
  - split; [done|]. split; [done|]. split.
    + intros ms Hms. case_decide as Hd.
      * subst ms. rewrite (file_at_resolve s' C M' r ns) by done. rewrite Hres, Eq. cbn. rewrite Hx'. cbn.
        by rewrite Hm, Hdir, Hc.
      * apply (file_at_ext s s' C C M M' r); try done. intros c Hcr. apply Hk. intros ->. apply Hd.
        exact (resolve_inj s C M r ms ns q Hwf Hr Hcr Eq).
    + rewrite (read_contents s' C M' q x') by (done || lia). rewrite Hc. unfold splice.
      rewrite app_assoc, drop_app_ge by (rewrite length_app, length_take, length_replicate; lia).
      rewrite length_app, length_take, length_replicate.
      replace (Z.to_nat pos - (Z.to_nat pos `min` length (contents s x) + (Z.to_nat pos - length (contents s x))))%nat with 0%nat by lia.
      rewrite drop_0, Nat2Z.id, take_app_length. done.
Qed.

(** Taking a leaf out of the tree. *)
Lemma remove_leaf_ok s C M r ns n d t xt :
  fs_wf s C M → fs_root s = Some r → Forall name_ok ns → name_ok n → resolve s r ns = Some d →
  look s d n = Some t → inodes s !! t = Some xt → C t = [] →
  ∃ s' C', (s1 ← unlink_child d t s; ramfs_free_inode (Some t) s1) = Some s' ∧ fs_wf s' C' (freed xt t M) ∧
    ∀ ms, Forall name_ok ms → file_at s' ms = if decide (ms = ns ++ [n]) then None else file_at s ms.
Proof.
  intros Hwf Hr Hns Hn Hd Hl Ht HC. destruct (look_in _ _ _ _ _ _ Hwf Hl) as [Hdin _].
  pose proof (proj1 (proj2 (lookup_child_spec s C M d n Hwf Hdin) t) Hl) as (Hin & y & Hy & Hname).
  rewrite Ht in Hy. injection Hy as <-.
  destruct (root_in _ _ _ _ Hwf Hr) as (rx & Hrx & _). assert (is_Some (inodes s !! r)) as Hrin by eauto.
  assert (∀ p m, look s p m ≠ Some r) as Hnr.
  { intros p m E. destruct (wf_root _ _ _ Hwf) as (r' & z & Hr' & Hz & _ & Hzp). assert (r' = r) as -> by congruence.
    destruct (look_parent _ _ _ _ _ _ _ Hwf E Hz). congruence. }
  assert (t ≠ r) as Htr by (intros ->; by apply (Hnr d n)).
  assert (∀ m, look s t m = None) as Hleaf.
  { intros m. destruct (look s t m) as [c|] eqn:E; [|done].
    apply (proj2 (lookup_child_spec s C M t m Hwf ltac:(eauto)) c) in E as [Hc _]. rewrite HC in Hc. by apply elem_of_nil in Hc. }
  assert (d ≠ t) as Hdt by (intros ->; by rewrite Hleaf in Hl).
  apply list_elem_of_split in Hin as (l1 & l2 & HCd).
  destruct (unlink_child_ok s C M d t l1 l2 xt Hwf HCd Ht) as (s1 & -> & Hwf1 & Hrel & Hgone & Hlook1).
  cbn [mbind option_bind]. set (C' := with_children C d (l1 ++ l2)) in *.
  destruct Hrel as (Hr1 & Hb1 & Hv1 & Hh1 & Hf1 & Hg1). assert (relinked s s1) as Hrel by done.
  destruct (Hf1 t xt Ht) as (xt1 & Ht1 & Hm1 & Hs1 & Hd1 & Hcap1 & Hn1).
  destruct (free_inode_ok s1 C' M t xt1 Hwf1) as (s2 & -> & Hwf2 & Hr2 & Hin2 & _ & Hlook2 & Hcon2); [|done|].
  { split; [eauto|]. split; [done|]. split; [congruence|]. unfold C', with_children. by rewrite decide_False. }
  exists s2, C'. split; [done|].
  assert (freed xt1 t M = freed xt t M) as Hfreed by (unfold freed; by rewrite Hd1). rewrite Hfreed in Hwf2.
  split; [done|]. intros ms Hms.
  pose proof (resolve_delete s s2 C M r d t n ns Hwf Hr Hd Hl Hleaf) as Hres.
  assert (resolve s2 r ms = if decide (ms = ns ++ [n]) then None else resolve s r ms) as Hres2.
  { apply Hres. intros q m Hq Hqt. rewrite Hlook2 by (done || by apply (relinked_dom s s1)).
    rewrite Hlook1 by done. by rewrite Hname. }
  case_decide as Hd2.
  - subst ms. rewrite (file_at_resolve s2 C' _ r), Hres2 by (done || congruence || by destruct ns). done.
  - apply (file_at_ext s s2 C C' M (freed xt t M) r); try done; [congruence|]. intros c Hc.
    assert (c ≠ t) as Hct.
    { intros ->. apply Hd2. apply (resolve_inj s C M r ms (ns ++ [n]) t Hwf Hr Hc). by rewrite resolve_snoc, Hd. }
    eapply keeps_file_trans; [by apply relinked_keeps|]. intros z Hz. exists z. rewrite Hin2, lookup_delete_ne by done.
    split; [done|]. split; [done|]. split; [done|]. by apply (Hcon2 c).
Qed.

(** Unlink removes a file and rmdir an empty directory: exactly that path
    disappears from the map from paths to files, and its inode and its data
    block are given back to the heap; every other case is refused with the
    matching error (-ENOENT, -EISDIR, -ENOTDIR, -ENOTEMPTY) and changes
    nothing. *)
Theorem ramfs_remove_refines s C M ns n c dv v d :
  fs_wf s C M → Forall name_ok ns → name_ok n → file_at s ns = Some (true, c) →
  vinodes s !! dv = Some v → v_private v = Some d → ramfs_lookup_inode_path (join ns) s = Some (Some d) →
  let removed s' := ∃ C' M', fs_wf s' C' M' ∧ (∃ t x, look s d n = Some t ∧ inodes s !! t = Some x ∧ M' = freed x t M) ∧
    ∀ ms, Forall name_ok ms → file_at s' ms = if decide (ms = ns ++ [n]) then None else file_at s ms in
  (∃ s' ret, ramfs_unlink dv n s = Some (s', ret) ∧
     match file_at s (ns ++ [n]) with
     | None => ret = - ENOENT ∧ s' = s
     | Some (true, _) => ret = - EISDIR ∧ s' = s
     | Some (false, _) => ret = 0 ∧ removed s'
     end) ∧
  (∃ s' ret, ramfs_rmdir dv n s = Some (s', ret) ∧
     match file_at s (ns ++ [n]) with
     | None => ret = - ENOENT ∧ s' = s
     | Some (false, _) => ret = - ENOTDIR ∧ s' = s
     | Some (true, _) =>
         (ret = 0 ∧ removed s' ∧ ∀ m, name_ok m → file_at s (ns ++ [n; m]) = None) ∨
         (ret = - ENOTEMPTY ∧ s' = s ∧ ∃ m, name_ok m ∧ file_at s (ns ++ [n; m]) ≠ None)
     end).
Proof.
  intros Hwf Hns Hn Hdir Hv Hpriv Hpath removed. destruct (wf_root _ _ _ Hwf) as (r & rx & Hr & Hrx & _).
  rewrite (lookup_path_resolve s C M r ns) in Hpath by done. injection Hpath as Hd.
  assert (is_Some (inodes s !! d)) as Hdin by (eapply resolve_in; [done| |done]; eauto).
  unfold ramfs_unlink, ramfs_rmdir. rewrite Hv. cbn [mbind option_bind]. rewrite Hpriv. cbn [mbind option_bind].
  destruct (lookup_child_spec s C M d n Hwf Hdin) as [-> _]. cbn [mbind option_bind].
  rewrite (file_at_look s C M r ns n d) by done. destruct (look s d n) as [t|] eqn:El.
  2: { split; do 2 eexists; (split; [reflexivity|]); done. }
  destruct (look_in _ _ _ _ _ _ Hwf El) as [_ [x Hx]]. cbn [mbind option_bind]. rewrite Hx. cbn [mbind option_bind].
  assert (C t = [] → ∃ s', (s1 ← unlink_child d t s; ramfs_free_inode (Some t) s1) = Some s' ∧ removed s') as Hrem.
  { intros HC. destruct (remove_leaf_ok s C M r ns n d t x Hwf Hr Hns Hn Hd El Hx HC) as (s' & C' & E & Hwf' & Hf).
    exists s'. split; [done|]. exists C', (freed x t M). split; [done|]. split; [eauto|done]. }
  assert (∀ m, name_ok m → file_at s (ns ++ [n; m]) = look s t m ≫= λ c, x ← inodes s !! c; Some (S_ISDIR (r_mode x), contents s x)) as Hsub.
  { intros m Hm. change [n; m] with ([n] ++ [m]). rewrite app_assoc. apply (file_at_look s C M r (ns ++ [n]) m t); try done.
    - apply Forall_app. split; [done|]. by constructor.
    - by rewrite resolve_snoc, Hd. }
  destruct (S_ISDIR (r_mode x)) eqn:Edir; cbn [negb]; (split; [|]).
  - do 2 eexists. split; [reflexivity|]. done.
  - pose proof (wf_chain _ _ _ Hwf t x Hx) as Hch. destruct (C t) as [|c' l'] eqn:EC.
    + rewrite Hch. rewrite bool_decide_false by (intros H0; by apply H0).
      destruct (Hrem eq_refl) as (s' & E & Hs'). destruct (unlink_child d t s) as [s1|]; [|done]. cbn [mbind option_bind] in *.
      rewrite E. cbn [mbind option_bind]. do 2 eexists. split; [reflexivity|]. left. split; [done|]. split; [done|].
      intros m Hm. rewrite Hsub by done. destruct (look s t m) as [e|] eqn:E'; [|done].
      apply (proj2 (lookup_child_spec s C M t m Hwf ltac:(eauto)) e) in E' as [Hc _]. rewrite EC in Hc. by apply elem_of_nil in Hc.
    + destruct Hch as (Hc & y & Hy & _). rewrite bool_decide_true by congruence.
      do 2 eexists. split; [reflexivity|]. right. split; [done|]. split; [done|].
      assert (c' ∈ C t) as Hc' by (rewrite EC; by apply elem_of_cons; left).
      destruct (wf_child _ _ _ Hwf t c' Hc') as (_ & y' & Hy' & _ & Hok). rewrite Hy in Hy'. injection Hy' as <-.
      exists (r_name y). split; [done|]. rewrite Hsub by done.
      assert (look s t (r_name y) = Some c') as ->.
      { apply (proj2 (lookup_child_spec s C M t (r_name y) Hwf ltac:(eauto)) c'). split; [done|]. eauto. }
      cbn. by rewrite Hy.
  - destruct (Hrem (wf_leaf _ _ _ Hwf t x Hx Edir)) as (s' & E & Hs').
    destruct (unlink_child d t s) as [s1|]; [|done]. cbn [mbind option_bind] in *. rewrite E. cbn [mbind option_bind].
    do 2 eexists. split; [reflexivity|]. done.
  - do 2 eexists. split; [reflexivity|]. done.
Qed.

(** ** Mounting *)

Lemma mount_ok h M :
  kh_inv h M →
  ∃ s' ok, ramfs_mount (mk_fs None 0 0 ∅ ∅ ∅ h) = Some (s', ok) ∧
    if (ok : bool)
    then ∃ p, fs_wf s' (λ _, []) (<[p := sizeof_ramfs_inode]> M) ∧ fs_root s' = Some p ∧
           vinodes s' = {[ROOT_VINODE := mk_inode 1 (Z.lor S_IFDIR 0x1ED) 0 true (Some p)]}
    else kh_inv (fs_heap s') M.
Proof.
  intros Hh. unfold ramfs_mount, ramfs_alloc_inode. cbn [fs_heap].
  destruct (kh_alloc_ok h M sizeof_ramfs_inode GFP_ZERO Hh ltac:(done)) as (h' & r & -> & Hr).
  cbn [mbind option_bind]. destruct r as [p|]; [|do 2 eexists; by split].
  destruct Hr as (_ & _ & HM & Hh'). cbn [mbind option_bind inodes]. rewrite lookup_insert_eq. cbn [mbind option_bind].
  do 2 eexists. split; [reflexivity|]. exists p. split; [|done].
  assert (∀ q (x y : ramfs_inode), <[p := x]> (∅ : gmap Z ramfs_inode) !! q = Some y → q = p ∧ y = x) as Hone.
  { intros q x y. rewrite lookup_insert. case_decide; [by intros [= <-]|done]. }
  split; cbn [fs_root inodes bufs fs_heap with_vinodes].
  - eexists p, _. split; [done|]. rewrite lookup_insert_eq. split; [reflexivity|]. done.
  - intros q x [-> ->]%Hone. done.
  - intros q. apply NoDup_nil_2.
  - by intros q c Hc%elem_of_nil.
  - done.
  - by intros q a b x y Ha%elem_of_nil.
  - intros q x [-> ->]%Hone. by rewrite lookup_insert_eq.
  - intros q q' x y d [-> ->]%Hone. done.
  - done.
Qed.
End Tree.

(** ** A concrete file system over the kernel heap *)

Definition demo_fs0 : ramfs heap :=
  fst (default (mk_fs None 0 0 ∅ ∅ ∅ boot_heap, false) (ramfs_mount (mk_fs None 0 0 ∅ ∅ ∅ boot_heap))).
Definition demo_name : list Z := bytes_of_string "motd"%string.
Definition demo_content : list Z := bytes_of_string "hello"%string.
Definition demo_fs : ramfs heap :=
  fst (default (demo_fs0, 0) (ramfs_create_file (path_of [demo_name]) 0x1A4 (Some demo_content) demo_fs0)).
Definition demo_dir : ramfs heap :=
  fst (default (demo_fs0, 0) (ramfs_create_dir (path_of [demo_name]) 0x1ED demo_fs0)).

Lemma demo_name_ok : name_ok demo_name.
Proof. split; [done|]. split; [|vm_compute; discriminate]. apply (bool_decide_unpack _). vm_compute. exact I. Qed.

Lemma demo_names_ok : Forall name_ok [demo_name].
Proof. constructor; [exact demo_name_ok|constructor]. Qed.

Lemma demo_fs0_wf : ∃ M, fs_wf demo_fs0 (λ _, []) M.
Proof.
  destruct (mount_ok boot_heap ∅) as (s' & ok & E & H); [by apply heap_owns_init|].
  assert (ok = true) as Hok.
  { assert (snd <$> ramfs_mount (mk_fs None 0 0 ∅ ∅ ∅ boot_heap) = Some true) as E' by (vm_compute; reflexivity).
    rewrite E in E'. by injection E'. }
  unfold demo_fs0. rewrite E. rewrite Hok in H. destruct H as (p & Hwf & _). cbn. eauto.
Qed.

Lemma demo_fs_wf : ∃ C M, fs_wf demo_fs C M.
Proof.
  destruct demo_fs0_wf as [M Hwf].
  destruct (create_file_ok demo_fs0 (λ _, []) M [] demo_name 0x1A4 (Some demo_content) [] Hwf)
    as (s' & ret & E & (C' & M' & Hwf') & _).
  - constructor.
  - exact demo_name_ok.
  - done.
  - done.
  - vm_compute. reflexivity.
  - vm_compute. reflexivity.
  - exists C', M'. unfold demo_fs. change ([] ++ [demo_name]) with [demo_name] in E. rewrite E. exact Hwf'.
Qed.

Lemma ramfs_create_file_refines_witness :
  ∃ s' ret, ramfs_create_file (path_of [demo_name]) 0x1A4 (Some demo_content) demo_fs0 = Some (s', ret) ∧
    (ret = - ENOMEM ∨ ret = 0 ∧ file_at s' [demo_name] = Some (false, demo_content)).
Proof.
  destruct demo_fs0_wf as [M Hwf].
  destruct (ramfs_create_file_refines demo_fs0 (λ _, []) M [] demo_name 0x1A4 (Some demo_content) [] Hwf)
    as (s' & ret & E & _ & H).
  - constructor.
  - exact demo_name_ok.
  - done.
  - done.
  - vm_compute. reflexivity.
  - vm_compute. reflexivity.
  - exists s', ret. split; [exact E|].
    assert (file_at demo_fs0 ([] ++ [demo_name]) = None) as Hn by (vm_compute; reflexivity).
    rewrite Hn in H. destruct H as [[H _]|[H1 H2]]; [left; exact H|right]. split; [exact H1|].
    rewrite (H2 [demo_name] demo_names_ok). rewrite decide_True by reflexivity. reflexivity.
Defined.

Definition demo_file : Z := Eval vm_compute in default 0 (look demo_fs (default 0 (fs_root demo_fs)) demo_name).

Lemma ramfs_write_read_witness :
  ∃ s' pos' ret, ramfs_write (Some demo_file) None demo_content 2 demo_fs = Some (s', pos', ret) ∧
    (ret = - ENOMEM ∨
     ret = 5 ∧ ramfs_read (Some demo_file) ret 2 s' = Some (demo_content, pos', ret)).
Proof.
  destruct demo_fs_wf as (C & M & Hwf).
  destruct (ramfs_write_read demo_fs C M [demo_name] demo_file 5 demo_content None demo_content 2 Hwf)
    as (s' & pos' & ret & E & _ & H).
  - exact demo_names_ok.
  - discriminate.
  - vm_compute. reflexivity.
  - vm_compute. reflexivity.
  - lia.
  - vm_compute. reflexivity.
  - exists s', pos', ret. split; [exact E|]. destruct H as [[H _]|(H1 & _ & _ & H3)]; [left; exact H|right].
    split; [exact H1|exact H3].
Defined.

Lemma ramfs_remove_refines_witness :
  ∃ s', ramfs_unlink ROOT_VINODE demo_name demo_fs = Some (s', 0) ∧ file_at s' [demo_name] = None.
Proof.
  destruct demo_fs_wf as (C & M & Hwf).
  destruct (ramfs_remove_refines demo_fs C M [] demo_name [] ROOT_VINODE
    (mk_inode 1 (Z.lor S_IFDIR 0x1ED) 0 true (fs_root demo_fs)) (default 0 (fs_root demo_fs)) Hwf) as [Hu _].
  - constructor.
  - exact demo_name_ok.
  - vm_compute. reflexivity.
  - vm_compute. reflexivity.
  - vm_compute. reflexivity.
  - vm_compute. reflexivity.
  - destruct Hu as (s' & ret & E & H).
    assert (file_at demo_fs ([] ++ [demo_name]) = Some (false, demo_content)) as Hf by (vm_compute; reflexivity).
    rewrite Hf in H. destruct H as (Hret & C' & M' & _ & _ & Hall). exists s'. rewrite Hret in E. split; [exact E|].
    rewrite (Hall [demo_name] demo_names_ok). rewrite decide_True by reflexivity. reflexivity.
Defined.

(** An open file keeps a pointer to the ramfs inode; after an unlink the next
    read follows it into freed memory. *)
Lemma read_after_unlink :
  (r ← ramfs_unlink ROOT_VINODE demo_name demo_fs; ramfs_read (Some demo_file) 1 0 (fst r)) = None.
Proof. vm_compute. reflexivity. Qed.

(** An empty file cannot be created with empty contents: the allocation of no
    bytes fails. *)
Lemma create_empty_content_fails :
  snd <$> ramfs_create_file (path_of [demo_name]) 0x1A4 (Some []) demo_fs0 = Some (- ENOMEM).
Proof. vm_compute. reflexivity. Qed.

Definition demo_moved : option (ramfs heap * Z * Z) :=
  '(s, v) ← ramfs_lookup ROOT_VINODE demo_name demo_dir;
  match v with
  | Some v =>
      '(s, ret) ← ramfs_rename ROOT_VINODE v v [120] s;
      i ← vinodes s !! v;
      p ← v_private i;
      Some (s, ret, p)
  | None => None
  end.

(** Moving a directory into itself succeeds and makes it its own child: it can
    no longer be reached. *)
Lemma rename_into_itself :
  ('(s, ret, p) ← demo_moved;
   Some (ret, bool_decide (r_children <$> inodes s !! p = Some (Some p)), file_at s [demo_name]))
  = Some (0, true, None).
Proof. vm_compute. reflexivity. Qed.
