(* ===== verification/VfsCompat.v ===== *)
(** * kernel/fs/vfs_compat.c

    A pool of 32 nodes that name files of the RAM file system; a
    [vfs_node_t *] is an index of the pool.  The deletion and renaming calls
    forward to fs/vfs.c and are not modelled here. *)

From S2P Require Import Prelude KHeap Kmalloc Ramfs.

Definition MAX_VFS_NODES : nat := 32.
Definition NODE_NAME_SIZE : Z := 256.
Definition CWD_SIZE : Z := 256.

Record vfs_node := mk_node {
  n_name : list Z;
  n_size : Z;
  n_is_dir : bool;
  n_internal : option Z
}.
Definition empty_node : vfs_node := mk_node [] 0 false None.

Record compat (H : Type) := mk_compat {
  node_pool : list vfs_node;
  node_used : list bool;
  cwd : list Z;
  c_fs : ramfs H
}.
Arguments mk_compat {H}.
Arguments node_pool {H}.
Arguments node_used {H}.
Arguments cwd {H}.
Arguments c_fs {H}.

(** The static data at boot, over a file system. *)
Definition compat_init {H} (fs : ramfs H) : compat H :=
  mk_compat (replicate MAX_VFS_NODES empty_node) (replicate MAX_VFS_NODES false) [SLASH] fs.

(** [strcpy_safe(dst, src, max)]: at most [max - 1] characters, a [size_t]. *)
Definition strcpy_safe (src : list Z) (max : Z) : list Z := take (Z.to_nat (u64 (max - 1))) src.

(** The first unused slot, from slot [i] on. *)
Fixpoint first_unused (i : nat) (used : list bool) : option nat :=
  match used with
  | [] => None
  | true :: used' => first_unused (S i) used'
  | false :: _ => Some i
  end.

Section Ops.
Context {H : Type} `{!KernelHeap H}.

Definition with_fs (fs : ramfs H) (c : compat H) : compat H :=
  mk_compat (node_pool c) (node_used c) (cwd c) fs.

Definition alloc_node (c : compat H) : compat H * option nat :=
  match first_unused 0 (node_used c) with
  | None => (c, None)
  | Some i =>
      (mk_compat (<[i := empty_node]> (node_pool c)) (<[i := true]> (node_used c)) (cwd c) (c_fs c), Some i)
  end.

Definition free_node (i : nat) (c : compat H) : compat H :=
  mk_compat (node_pool c) (<[i := false]> (node_used c)) (cwd c) (c_fs c).

Definition set_node (i : nat) (x : vfs_node) (c : compat H) : compat H :=
  mk_compat (<[i := x]> (node_pool c)) (node_used c) (cwd c) (c_fs c).

Definition vfs_lookup (path : list Z) (c : compat H) : option (compat H * option nat) :=
  match path with
  | [] => Some (c, None)
  | _ =>
      match alloc_node c with
      | (c, None) => Some (c, None)
      | (c, Some i) =>
          let name := strcpy_safe path NODE_NAME_SIZE in
          if bool_decide (path = [SLASH]) then Some (set_node i (mk_node name 0 true None) c, Some i)
          else
            r ← ramfs_lookup_path_info path (c_fs c);
            match r with
            | Some (size, isdir, data) => Some (set_node i (mk_node name size isdir data) c, Some i)
            | None => Some (free_node i (set_node i (mk_node name 0 false None) c), None)
            end
      end
  end.

Definition vfs_open_handle (path : list Z) (c : compat H) : option (compat H * option nat) := vfs_lookup path c.

Definition vfs_close_handle (node : option nat) (c : compat H) : compat H :=
  match node with Some i => free_node i c | None => c end.

(** The bytes stored in the buffer and the return value; [size] is a
    [size_t]. *)
Definition vfs_read_compat (node : option nat) (size offset : Z) (c : compat H) : option (list Z * Z) :=
  match node with
  | None => Some ([], -1)
  | Some i =>
      n ← node_pool c !! i;
      match n_internal n with
      | Some p =>
          if 0 <? n_size n then
            x ← inodes (c_fs c) !! p;
            match r_data x with
            | Some d =>
                let avail := if offset <? r_size x then r_size x - offset else 0 in
                let to_read := if size <? avail then size else avail in
                b ← bufs (c_fs c) !! d;
                if (0 =? to_read) || (offset + to_read <=? Z.of_nat (length b))
                then Some (take (Z.to_nat to_read) (drop (Z.to_nat offset) b), i32 to_read)
                else None
            | None => Some ([], 0)
            end
          else Some ([], 0)
      | None => Some ([], 0)
      end
  end.

Definition vfs_write_compat : Z := 0.

Definition vfs_is_dir (node : option nat) (c : compat H) : option bool :=
  match node with
  | Some i => n_is_dir <$> node_pool c !! i
  | None => Some false
  end.

(** The node handed back for a new file or directory. *)
Definition named_node (path : list Z) (isdir : bool) (c : compat H) : compat H * option nat :=
  match alloc_node c with
  | (c, None) => (c, None)
  | (c, Some i) => (set_node i (mk_node (strcpy_safe path NODE_NAME_SIZE) 0 isdir None) c, Some i)
  end.

Definition vfs_create_compat (path : list Z) (c : compat H) : option (compat H * option nat) :=
  match path with
  | [] => Some (c, None)
  | _ =>
      r ← ramfs_create_file path 0x1A4 None (c_fs c);
      let '(fs, ret) := r in
      if negb (ret =? 0) then Some (with_fs fs c, None) else Some (named_node path false (with_fs fs c))
  end.

Definition vfs_mkdir_compat (path : list Z) (c : compat H) : option (compat H * option nat) :=
  match path with
  | [] => Some (c, None)
  | _ =>
      r ← ramfs_create_dir path 0x1ED (c_fs c);
      let '(fs, ret) := r in
      if negb (ret =? 0) then Some (with_fs fs c, None) else Some (named_node path true (with_fs fs c))
  end.

Definition vfs_delete_recursive (path : list Z) : Z := -1.
Definition vfs_readdir_compat : Z := -1.

Definition vfs_set_cwd (path : list Z) (c : compat H) : compat H * Z :=
  (mk_compat (node_pool c) (node_used c) (strcpy_safe path CWD_SIZE) (c_fs c), 0).

(** The string stored in the caller's buffer of [size] bytes. *)
Definition vfs_get_cwd_path (size : Z) (c : compat H) : list Z * Z := (strcpy_safe (cwd c) size, 0).
End Ops.

(** ** Lemmas *)

Record compat_ok {H : Type} `{!KernelHeap H} (c : compat H) : Prop := {
  co_pool : length (node_pool c) = MAX_VFS_NODES;
  co_used : length (node_used c) = MAX_VFS_NODES
}.

Definition free_nodes {H} (c : compat H) : nat := length (filter (λ b, b = false) (node_used c)).

Lemma first_unused_spec i used :
  match first_unused i used with
  | Some k => ∃ j, k = (i + j)%nat ∧ used !! j = Some false ∧ ∀ j', (j' < j)%nat → used !! j' = Some true
  | None => ∀ j b, used !! j = Some b → b = true
  end.
Proof.
  revert i. induction used as [|[] used IH]; intros i; cbn; [done| |].
  - specialize (IH (S i)). destruct (first_unused (S i) used) as [k|].
    + destruct IH as (j & -> & Hj & Hall). exists (S j). split; [lia|]. split; [done|].
      intros [|j'] Hj'; [done|]. apply Hall. lia.
    + intros [|j] b; cbn; [congruence|apply IH].
  - exists 0%nat. split; [lia|]. split; [done|]. lia.
Qed.

Lemma free_insert (used : list bool) i :
  used !! i = Some false →
  length (filter (λ b, b = false) used) = S (length (filter (λ b, b = false) (<[i := true]> used))).
Proof.
  revert i. induction used as [|b used IH]; intros [|i] Hi; try done.
  - injection Hi as ->. done.
  - change (<[S i := true]> (b :: used)) with (b :: <[i := true]> used). rewrite !filter_cons.
    specialize (IH i Hi). destruct (decide (b = false)); cbn [length]; lia.
Qed.

Lemma free_insert_false (used : list bool) i :
  used !! i = Some false →
  length (filter (λ b, b = false) (<[i := false]> (<[i := true]> used))) = length (filter (λ b, b = false) used).
Proof. intros Hi. rewrite list_insert_insert_eq, list_insert_id by done. done. Qed.

Section Props.
Context {H : Type} `{!KernelHeap H}.

Lemma alloc_node_ok (c : compat H) :
  compat_ok c →
  match alloc_node c with
  | (c', Some i) => compat_ok c' ∧ c_fs c' = c_fs c ∧ node_pool c' !! i = Some empty_node ∧ (i < MAX_VFS_NODES)%nat ∧
      free_nodes c = S (free_nodes c') ∧ node_used c !! i = Some false ∧ node_used c' = <[i := true]> (node_used c)
  | (c', None) => c' = c ∧ free_nodes c = 0%nat
  end.
Proof.
  intros [Hp Hu]. unfold alloc_node. pose proof (first_unused_spec 0 (node_used c)) as Hf.
  destruct (first_unused 0 (node_used c)) as [k|].
  - destruct Hf as (j & -> & Hj & _). cbn [Nat.add]. pose proof (lookup_lt_Some _ _ _ Hj) as Hlt.
    split; [split; cbn; by rewrite length_insert|]. split; [done|]. cbn [node_pool].
    split; [apply list_lookup_insert_eq; lia|]. split; [lia|]. split; [by apply free_insert|]. done.
  - split; [done|]. unfold free_nodes. apply length_zero_iff_nil. destruct (filter _ (node_used c)) as [|b l] eqn:E; [done|].
    assert (b ∈ filter (λ b, b = false) (node_used c)) as Hb by (rewrite E; by apply elem_of_cons; left).
    apply list_elem_of_filter in Hb as [-> Hb]. apply list_elem_of_lookup in Hb as [j Hj]. by apply Hf in Hj.
Qed.

(** What a lookup of a path does: it takes a node for an existing file or
    directory, and none otherwise. *)
Lemma vfs_lookup_ok (c : compat H) C M ns :
  compat_ok c → fs_wf (c_fs c) C M → Forall name_ok ns → ns ≠ [] →
  ∃ c' r, vfs_lookup (path_of ns) c = Some (c', r) ∧ compat_ok c' ∧ c_fs c' = c_fs c ∧
    match r with
    | Some i => (i < MAX_VFS_NODES)%nat ∧ free_nodes c = S (free_nodes c') ∧
        ∃ x p, node_pool c' !! i = Some (mk_node (strcpy_safe (path_of ns) NODE_NAME_SIZE) (r_size x) (S_ISDIR (r_mode x)) (Some p)) ∧
               inodes (c_fs c) !! p = Some x ∧ file_at (c_fs c) ns = Some (S_ISDIR (r_mode x), contents (c_fs c) x)
    | None => free_nodes c' = free_nodes c ∧ (free_nodes c = 0%nat ∨ file_at (c_fs c) ns = None)
    end.
Proof.
  intros Hok Hwf Hns Hne. unfold vfs_lookup. destruct (wf_root _ _ _ Hwf) as (r & rx & Hr & _).
  pose proof (alloc_node_ok c Hok) as Ha.
  assert (path_of ns ≠ [SLASH]) as Hpath.
  { intros [= Hj]. destruct ns as [|n ns]; [done|]. destruct (join_cons_ne n ns) as (a & l & E); [by inversion Hns|]. congruence. }
  destruct (path_of ns) as [|ch rest] eqn:Ep; [done|]. rewrite <- Ep in *.
  destruct (alloc_node c) as [c1 [i|]].
  2: { destruct Ha as [-> Hz]. exists c, None. repeat (split; [done|]). auto. }
  destruct Ha as (Hok1 & Hfs & Hpool & Hi & Hfree & Hun & Hused). rewrite bool_decide_false by done. rewrite Hfs.
  rewrite (path_info_resolve (c_fs c) C M r ns) by done. cbn [mbind option_bind].
  rewrite (file_at_resolve (c_fs c) C M r ns) by done.
  destruct Hok1 as [Hp1 Hu1]. destruct (resolve (c_fs c) r ns) as [p|] eqn:Er; cbn [mbind option_bind].
  - destruct (inodes (c_fs c) !! p) as [x|] eqn:Ex; cbn [mbind option_bind].
    + do 2 eexists. split; [reflexivity|]. split; [split; [cbn; by rewrite length_insert|done]|]. split; [done|].
      split; [done|]. split; [done|]. exists x, p. split; [|done]. apply list_lookup_insert_eq. lia.
    + exfalso. destruct (resolve_in (c_fs c) C M r ns p Hwf) as [y Hy]; [|done|congruence].
      destruct (root_in _ _ _ _ Hwf Hr) as (z & ? & _). eauto.
  - do 2 eexists. split; [reflexivity|]. split; [split; cbn; by rewrite length_insert|]. split; [done|].
    split; [|by right]. unfold free_nodes. cbn [node_used free_node set_node]. rewrite Hused. by apply free_insert_false.
Qed.

(** A whole file is read through its node. *)
Lemma vfs_read_ok (c : compat H) C M i n p x :
  fs_wf (c_fs c) C M → node_pool c !! i = Some n → n_internal n = Some p → n_size n = r_size x → 0 < r_size x →
  inodes (c_fs c) !! p = Some x →
  vfs_read_compat (Some i) (r_size x) 0 c = Some (contents (c_fs c) x, i32 (r_size x)).
Proof.
  intros Hwf Hn Hp Hs Hpos Hx. unfold vfs_read_compat. rewrite Hn. cbn [mbind option_bind]. rewrite Hp, Hs.
  destruct (Z.ltb_spec 0 (r_size x)); [|lia]. rewrite Hx. cbn [mbind option_bind].
  destruct (wf_inode _ _ _ Hwf p x Hx) as [_ Hok]. unfold data_ok in Hok. unfold contents.
  destruct (r_data x) as [d|]; [|lia]. destruct Hok as (l & Hl & Hll & Hsz & _). rewrite Hl. cbn [mbind option_bind].
  destruct (Z.ltb_spec 0 (r_size x)); [|lia]. rewrite Z.sub_0_r, Z.ltb_irrefl. destruct (Z.leb_spec (0 + r_size x) (Z.of_nat (length l))); [|lia].
  rewrite orb_true_r. done.
Qed.

Lemma path_info_size (f : ramfs H) C M path size isdir data :
  fs_wf f C M → ramfs_lookup_path_info path f = Some (Some (size, isdir, data)) → 0 ≤ size.
Proof.
  intros Hwf. unfold ramfs_lookup_path_info. destruct (fs_root f) as [r|]; [|done].
  destruct (match path with [] => [] | c :: p => if c =? SLASH then p else path end) as [|c p]; [by intros [= <- _ _]|].
  destruct (walk_path _ r (c :: p) f) as [[q|]|]; cbn [mbind option_bind]; [|done..].
  destruct (inodes f !! q) as [x|] eqn:Ex; cbn [mbind option_bind]; [|done]. intros [= <- _ _].
  destruct (wf_inode _ _ _ Hwf q x Ex) as [_ Hd]. unfold data_ok in Hd. destruct (r_data x); [|lia].
  destruct Hd as (? & _ & _ & ? & _). lia.
Qed.

(** Any lookup keeps the pool and the files as they are, but for the node it
    returns. *)
Lemma vfs_lookup_any (c : compat H) C M path c' r :
  compat_ok c → fs_wf (c_fs c) C M → vfs_lookup path c = Some (c', r) →
  compat_ok c' ∧ c_fs c' = c_fs c ∧
  match r with Some i => ∃ n, node_pool c' !! i = Some n ∧ 0 ≤ n_size n | None => True end.
Proof.
  intros Hok Hwf. unfold vfs_lookup. destruct path as [|ch path]; [by intros [= <- <-]|].
  pose proof (alloc_node_ok c Hok) as Ha. destruct (alloc_node c) as [c1 [i|]].
  2: { destruct Ha as [-> _]. by intros [= <- <-]. }
  destruct Ha as ([Hp1 Hu1] & Hfs & _ & Hi & _).
  assert (∀ n, compat_ok (set_node i n c1) ∧ node_pool (set_node i n c1) !! i = Some n) as Hset.
  { intros n. split; [split; [cbn; by rewrite length_insert|done]|]. apply list_lookup_insert_eq. lia. }
  case_bool_decide; [intros [= <- <-]|].
  { split; [apply Hset|]. split; [done|]. eexists. split; [apply Hset|done]. }
  rewrite Hfs. destruct (ramfs_lookup_path_info (ch :: path) (c_fs c)) as [[[[size isdir] data]|]|] eqn:Ei; cbn [mbind option_bind];
    [intros [= <- <-]|intros [= <- <-]|done].
  - split; [apply Hset|]. split; [done|]. eexists. split; [apply Hset|]. cbn [n_size]. by eapply path_info_size.
  - split; [|done]. destruct (Hset (mk_node (strcpy_safe (ch :: path) NODE_NAME_SIZE) 0 false None)) as [[? ?] _].
    split; [done|]. cbn. by rewrite length_insert.
Qed.
End Props.
