(* ===== verification/Process.v ===== *)
(** * kernel/core/process.c, ARM64

    The table of 16 processes, their creation from ELF files of the RAM file
    system, the round-robin scheduler and its timer path, and termination.
    Every function runs with the interrupts off or the table locked where the
    table is inconsistent, and is one transition here.

    [cpu] is what switch_context saves and restores: a switch stores it in the
    old context and loads the new one.  What a function does after the switch
    that leaves it (re-enabling interrupts, a sanity message) changes no state;
    the wait loop of process_exec_args is split at that point.  [None] is a
    read outside the ELF file, a dangling pointer, a program loaded over the
    kernel's own memory, an overflow of the pid counter, or fuel that runs
    out. *)

From Stdlib Require Import ZifyNat.
From S2P Require Import Prelude KHeap Kmalloc Aslr Elf Ramfs VfsCompat.

Definition MAX_PROCESSES : nat := 16.
Definition PROCESS_NAME_MAX : Z := 32.
Definition PROCESS_STACK_SIZE : Z := 0x100000.
Definition PROGRAM_LOAD_BASE : Z := 0x44000000.
Definition PROCESS_TIME_SLICE_TICKS : Z := 20.
Definition INT_MAX : Z := 2 ^ 31 - 1.
Definition ALIGN_64K (x : Z) : Z := Z.land (u64 (x + 0xFFFF)) (Z.lnot 0xFFFF).

Inductive proc_state :=
  PROC_STATE_FREE | PROC_STATE_READY | PROC_STATE_RUNNING | PROC_STATE_BLOCKED | PROC_STATE_ZOMBIE.

#[export] Instance proc_state_eq_dec : EqDecision proc_state.
Proof. solve_decision. Defined.

(** The value of a state as an [int]. *)
Definition state_int (st : proc_state) : Z :=
  match st with
  | PROC_STATE_FREE => 0 | PROC_STATE_READY => 1 | PROC_STATE_RUNNING => 2 | PROC_STATE_BLOCKED => 3
  | PROC_STATE_ZOMBIE => 4
  end.

Record cpu_context := mk_ctx { cx_x : list Z; cx_sp : Z; cx_pc : Z; cx_pstate : Z }.
Definition zero_ctx : cpu_context := mk_ctx (replicate 31 0) 0 0 0.

Record process := mk_proc {
  pid : Z;
  name : list Z;
  state : proc_state;
  load_base : Z;
  load_size : Z;
  stack_base : option Z;
  stack_size : Z;
  entry : Z;
  context : cpu_context;
  exit_status : Z;
  parent_pid : Z
}.
Definition empty_proc : process := mk_proc 0 [] PROC_STATE_FREE 0 0 None 0 0 zero_ctx 0 0.

Definition set_state (st : proc_state) (x : process) : process :=
  mk_proc (pid x) (name x) st (load_base x) (load_size x) (stack_base x) (stack_size x) (entry x) (context x)
    (exit_status x) (parent_pid x).
Definition set_context (c : cpu_context) (x : process) : process :=
  mk_proc (pid x) (name x) (state x) (load_base x) (load_size x) (stack_base x) (stack_size x) (entry x) c
    (exit_status x) (parent_pid x).
Definition set_exit_status (n : Z) (x : process) : process :=
  mk_proc (pid x) (name x) (state x) (load_base x) (load_size x) (stack_base x) (stack_size x) (entry x) (context x)
    n (parent_pid x).
(** [free(stack_base); stack_base = NULL; state = PROC_STATE_FREE; pid = 0] *)
Definition killed (x : process) : process :=
  mk_proc 0 (name x) PROC_STATE_FREE (load_base x) (load_size x) None (stack_size x) (entry x) (context x)
    (exit_status x) (parent_pid x).

Record procs (H : Type) := mk_procs {
  proc_table : list process;
  current_pid : Z;
  current_process : option nat;
  next_pid : Z;
  preempt_ticks : Z;
  kernel_context : cpu_context;
  program_base : Z;
  next_load_addr : Z;
  cpu : cpu_context;
  p_compat : compat H;
  p_mem : mem;
  p_aslr : aslr
}.
Arguments mk_procs {H}.
Arguments proc_table {H}.
Arguments current_pid {H}.
Arguments current_process {H}.
Arguments next_pid {H}.
Arguments preempt_ticks {H}.
Arguments kernel_context {H}.
Arguments program_base {H}.
Arguments next_load_addr {H}.
Arguments cpu {H}.
Arguments p_compat {H}.
Arguments p_mem {H}.
Arguments p_aslr {H}.

Section Ops.
Context {H : Type} `{!KernelHeap H}.
Implicit Types s : procs H.

Definition with_table (t : list process) (s : procs H) : procs H :=
  mk_procs t (current_pid s) (current_process s) (next_pid s) (preempt_ticks s) (kernel_context s) (program_base s)
    (next_load_addr s) (cpu s) (p_compat s) (p_mem s) (p_aslr s).
Definition with_current (c : Z) (p : option nat) (s : procs H) : procs H :=
  mk_procs (proc_table s) c p (next_pid s) (preempt_ticks s) (kernel_context s) (program_base s)
    (next_load_addr s) (cpu s) (p_compat s) (p_mem s) (p_aslr s).
Definition with_next_pid (n : Z) (s : procs H) : procs H :=
  mk_procs (proc_table s) (current_pid s) (current_process s) n (preempt_ticks s) (kernel_context s) (program_base s)
    (next_load_addr s) (cpu s) (p_compat s) (p_mem s) (p_aslr s).
Definition with_ticks (n : Z) (s : procs H) : procs H :=
  mk_procs (proc_table s) (current_pid s) (current_process s) (next_pid s) n (kernel_context s) (program_base s)
    (next_load_addr s) (cpu s) (p_compat s) (p_mem s) (p_aslr s).
Definition with_kernel_context (c : cpu_context) (s : procs H) : procs H :=
  mk_procs (proc_table s) (current_pid s) (current_process s) (next_pid s) (preempt_ticks s) c (program_base s)
    (next_load_addr s) (cpu s) (p_compat s) (p_mem s) (p_aslr s).
Definition with_next_load (a : Z) (s : procs H) : procs H :=
  mk_procs (proc_table s) (current_pid s) (current_process s) (next_pid s) (preempt_ticks s) (kernel_context s)
    (program_base s) a (cpu s) (p_compat s) (p_mem s) (p_aslr s).
Definition with_cpu (c : cpu_context) (s : procs H) : procs H :=
  mk_procs (proc_table s) (current_pid s) (current_process s) (next_pid s) (preempt_ticks s) (kernel_context s)
    (program_base s) (next_load_addr s) c (p_compat s) (p_mem s) (p_aslr s).
Definition with_compat (c : compat H) (s : procs H) : procs H :=
  mk_procs (proc_table s) (current_pid s) (current_process s) (next_pid s) (preempt_ticks s) (kernel_context s)
    (program_base s) (next_load_addr s) (cpu s) c (p_mem s) (p_aslr s).
Definition with_mem (m : mem) (s : procs H) : procs H :=
  mk_procs (proc_table s) (current_pid s) (current_process s) (next_pid s) (preempt_ticks s) (kernel_context s)
    (program_base s) (next_load_addr s) (cpu s) (p_compat s) m (p_aslr s).
Definition with_aslr (a : aslr) (s : procs H) : procs H :=
  mk_procs (proc_table s) (current_pid s) (current_process s) (next_pid s) (preempt_ticks s) (kernel_context s)
    (program_base s) (next_load_addr s) (cpu s) (p_compat s) (p_mem s) a.

(** The heap is the one the file system allocates from. *)
Definition proc_heap s : H := fs_heap (c_fs (p_compat s)).
Definition fs_with_heap (h : H) (f : ramfs H) : ramfs H :=
  mk_fs (fs_root f) (fs_next_ino f) (fs_inode_count f) (inodes f) (bufs f) (vinodes f) h.
Definition with_heap (h : H) s : procs H :=
  with_compat (with_fs (fs_with_heap h (c_fs (p_compat s))) (p_compat s)) s.

Definition malloc (size : Z) s : option (procs H * option Z) :=
  r ← kh_alloc size 0 (proc_heap s);
  let '(h, p) := (r : H * option Z) in Some (with_heap h s, p).
Definition free (p : option Z) s : option (procs H) :=
  h ← kh_free p (proc_heap s); Some (with_heap h s).

Definition update (i : nat) (f : process → process) s : procs H := with_table (alter f i (proc_table s)) s.

(** [switch_context]: where the old context is stored depends on who ran. *)
Definition switch_to_process (old : option nat) (next : nat) s : option (procs H) :=
  let s1 := match old with
            | Some o => update o (set_context (cpu s)) s
            | None => with_kernel_context (cpu s) s
            end in
  x ← proc_table s1 !! next;
  Some (with_cpu (context x) s1).
Definition switch_to_kernel (old : nat) s : procs H :=
  let s := update old (set_context (cpu s)) s in with_cpu (kernel_context s) s.

Definition process_init s : procs H :=
  let t := (λ x, mk_proc 0 (name x) PROC_STATE_FREE (load_base x) (load_size x) (stack_base x) (stack_size x) (entry x)
                   zero_ctx (exit_status x) (parent_pid x)) <$> proc_table s in
  let base := ALIGN_64K PROGRAM_LOAD_BASE in
  mk_procs t (-1) None 1 (preempt_ticks s) (kernel_context s) base base (cpu s) (p_compat s) (p_mem s) (p_aslr s).

(** The first slot that satisfies a test, from [i] on. *)
Fixpoint find_slot (f : process → bool) (i : nat) (t : list process) : option nat :=
  match t with
  | [] => None
  | x :: t' => if f x then Some i else find_slot f (S i) t'
  end.

Definition is_free (x : process) : bool := bool_decide (state x = PROC_STATE_FREE).
Definition is_ready (x : process) : bool := bool_decide (state x = PROC_STATE_READY).

Definition find_free_slot_unlocked s : option nat := find_slot is_free 0 (proc_table s).

Definition cleared (st : proc_state) (p : Z) : process := mk_proc p [] st 0 0 None 0 0 zero_ctx 0 (-1).

Definition release_reserved_slot_unlocked (slot : nat) s : procs H :=
  update slot (λ _, cleared PROC_STATE_FREE 0) s.

Definition process_get_current s : option nat := if current_pid s <? 0 then None else Some (Z.to_nat (current_pid s)).

Definition process_get (p : Z) s : option nat :=
  find_slot (λ x, (pid x =? p) && negb (is_free x)) 0 (proc_table s).

Definition process_count_ready s : Z :=
  foldl (λ n x, if is_ready x || bool_decide (state x = PROC_STATE_RUNNING) then n + 1 else n) 0 (proc_table s).

(** The name and the state written for the caller, and the return value. *)
Definition process_get_info (index name_size : Z) s : option (option (list Z * Z) * Z) :=
  if (index <? 0) || (Z.of_nat MAX_PROCESSES <=? index) then Some (None, 0)
  else
    x ← proc_table s !! Z.to_nat index;
    if is_free x then Some (None, 0)
    else
      let len := Z.of_nat (length (name x)) in
      let len := if name_size <=? len then name_size - 1 else len in
      let shown := if 0 <? name_size then take (Z.to_nat len) (name x) else [] in
      Some (Some (shown, state_int (state x)), 1).

(** ** Creation *)

(** [kapi] and [wrapper] are the addresses of the kernel interface and of
    process_entry_wrapper. *)
Definition initial_context (stack_top wrapper entry kapi argc argv : Z) : cpu_context :=
  mk_ctx (<[22%nat := argv]> (<[21%nat := u64 argc]> (<[20%nat := kapi]> (<[19%nat := entry]> (replicate 31 0)))))
    stack_top wrapper 0x3c5.

(** From the point where the image is in memory: the process structure, its
    stack and its first context. *)
Definition finish_create (kapi wrapper : Z) (slot : nat) (path : list Z) (argc argv load_addr : Z)
    (info : elf_load_info) s : option (procs H * Z) :=
  let s := with_next_load (ALIGN_64K (u64 (load_addr + info_load_size info + 0x10000))) s in
  let s := update slot (λ x, mk_proc (pid x) (take (Z.to_nat (PROCESS_NAME_MAX - 1)) path) (state x)
                               (info_load_base info) (info_load_size info) (stack_base x) PROCESS_STACK_SIZE
                               (info_entry info) (context x) 0 (current_pid s)) s in
  r ← malloc PROCESS_STACK_SIZE s;
  let '(s, sb) := (r : procs H * option Z) in
  match sb with
  | None => Some (release_reserved_slot_unlocked slot s, -1)
  | Some b =>
      let stack_top := Z.land (u64 (b + PROCESS_STACK_SIZE)) (Z.lnot 0xF) in
      let s := update slot (λ x, mk_proc (pid x) (name x) PROC_STATE_READY (load_base x) (load_size x) (Some b)
                                   (stack_size x) (entry x)
                                   (initial_context stack_top wrapper (entry x) kapi argc argv)
                                   (exit_status x) (parent_pid x)) s in
      x ← proc_table s !! slot;
      Some (s, pid x)
  end.

(** What a program must not be loaded over: the kernel's image, which is a
    parameter, and its heap, with the stacks of the processes and the buffer
    the file was read into. *)
Definition kernel_memory (image : list (Z * Z)) s : list (Z * Z) := kh_region (proc_heap s) :: image.

(** From the point where the file has been read into the buffer [buf].  There
    is no check that the program lies outside the memory of the kernel: [None]
    when it does not. *)
Definition load_image (kapi wrapper : Z) (image : list (Z * Z)) (fuel : nat) (c : counters) (slot : nat) (path : list Z) (argc argv : Z)
    (buf : Z) (data : list Z) (size : Z) s : option (procs H * Z) :=
  prog_size ← elf_calc_size data size;
  if prog_size =? 0 then
    s ← free (Some buf) s; Some (release_reserved_slot_unlocked slot s, -1)
  else
    let '(a, aslr_offset) := aslr_exec_offset c (p_aslr s) in
    let s := with_aslr a s in
    let load_addr := ALIGN_64K (u64 (next_load_addr s + aslr_offset)) in
    r ← elf_load_at fuel data size load_addr (p_mem s);
    let '(m, o) := (r : mem * option elf_load_info) in
    if negb (image_apart (kernel_memory image s) (p_mem s) m) then None
    else
    let s := with_mem m s in
    s ← free (Some buf) s;
    match o with
    | None => Some (release_reserved_slot_unlocked slot s, -1)
    | Some info => finish_create kapi wrapper slot path argc argv load_addr info s
    end.

(** From the point where the slot is reserved. *)
Definition read_image (kapi wrapper : Z) (image : list (Z * Z)) (fuel : nat) (c : counters) (slot : nat) (path : list Z) (argc argv : Z) s
  : option (procs H * Z) :=
  let fail s := Some (release_reserved_slot_unlocked slot s, -1) in
  r ← vfs_lookup path (p_compat s);
  let '(cc, node) := (r : compat H * option nat) in
  let s := with_compat cc s in
  match node with
  | None => fail s
  | Some i =>
      isdir ← vfs_is_dir (Some i) cc;
      if (isdir : bool) then fail s
      else
        n ← node_pool cc !! i;
        let size := n_size n in
        if size =? 0 then fail s
        else
          r ← malloc size s;
          let '(s, data) := (r : procs H * option Z) in
          match data with
          | None => fail s
          | Some buf =>
              b ← vfs_read_compat (Some i) size 0 (p_compat s);
              let '(bytes, ret) := (b : list Z * Z) in
              if negb (ret =? i32 size) then s ← free (Some buf) s; fail s
              else load_image kapi wrapper image fuel c slot path argc argv buf bytes size s
          end
  end.

(** [next_pid++] is undefined when the number is the largest [int]. *)
Definition process_create (kapi wrapper : Z) (image : list (Z * Z)) (fuel : nat) (c : counters) (path : list Z) (argc argv : Z) s
  : option (procs H * Z) :=
  match find_free_slot_unlocked s with
  | None => Some (s, -1)
  | Some slot =>
      let pid := next_pid s in
      if INT_MAX <=? pid then None
      else
      let s := with_next_pid (pid + 1) s in
      read_image kapi wrapper image fuel c slot path argc argv (update slot (λ _, cleared PROC_STATE_BLOCKED pid) s)
  end.

Definition process_start (p : Z) s : procs H * Z :=
  match process_get p s with
  | None => (s, -1)
  | Some i => (update i (set_state PROC_STATE_READY) s, 0)
  end.

(** ** Termination *)

(** One slot of the scan for children of [parent]; the work stack has its top
    first. *)
Definition kill_slot (parent : Z) (r : list Z * procs H) (i : nat) : option (list Z * procs H) :=
  let '(stack, s) := r in
  x ← proc_table s !! i;
  if negb (is_free x) && (parent_pid x =? parent) then
    let stack := if (length stack <? MAX_PROCESSES)%nat then pid x :: stack else stack in
    if Z.of_nat i =? current_pid s then Some (stack, s)
    else
      s ← match stack_base x with Some b => free (Some b) s | None => Some s end;
      Some (stack, update i killed s)
  else Some (stack, s).

Fixpoint kill_scan (parent : Z) (slots : list nat) (r : list Z * procs H) : option (list Z * procs H) :=
  match slots with
  | [] => Some r
  | i :: slots' => r ← kill_slot parent r i; kill_scan parent slots' r
  end.

Fixpoint kill_loop (fuel : nat) (r : list Z * procs H) : option (procs H) :=
  match r with
  | ([], s) => Some s
  | (q :: stack, s) =>
      match fuel with
      | O => None
      | S fuel' => r ← kill_scan q (seq 0 MAX_PROCESSES) (stack, s); kill_loop fuel' r
      end
  end.

(** 17 rounds suffice: every process enters the stack at most once. *)
Definition kill_children (parent : Z) s : option (procs H) := kill_loop (S MAX_PROCESSES) ([parent], s).

(** The result tells whether the function left by the context switch; it hangs
    when the kernel context is void, and returns when there is no process. *)
Inductive exit_result := ExitNoProcess | ExitHang | ExitSwitched.

Definition process_exit (status : Z) s : option (procs H * exit_result) :=
  if current_pid s <? 0 then Some (s, ExitNoProcess)
  else
    let slot := Z.to_nat (current_pid s) in
    x ← proc_table s !! slot;
    s ← kill_children (pid x) s;
    let s := update slot (λ x, set_state PROC_STATE_FREE (set_exit_status status x)) s in
    let s := with_current (-1) None s in
    if (cx_pc (kernel_context s) =? 0) || (cx_sp (kernel_context s) =? 0) then Some (s, ExitHang)
    else Some (switch_to_kernel slot s, ExitSwitched).

Definition process_kill (p : Z) s : option (procs H * Z) :=
  if p <=? 0 then Some (s, -1)
  else
    match process_get p s with
    | None => Some (s, -1)
    | Some slot =>
        if Z.of_nat slot =? current_pid s then Some (s, -1)
        else
          s ← kill_children p s;
          x ← proc_table s !! slot;
          s ← match stack_base x with Some b => free (Some b) s | None => Some s end;
          Some (update slot killed s, 0)
    end.

(** ** Scheduling *)

(** The [n] slots from [idx] on, wrapping around. *)
Fixpoint pick (f : process → bool) (n idx : nat) (t : list process) : option nat :=
  match n with
  | O => None
  | S n' =>
      let k := (idx `mod` MAX_PROCESSES)%nat in
      match t !! k with
      | Some x => if f x then Some k else pick f n' (S idx) t
      | None => None
      end
  end.

Definition start_slot s : nat := if current_pid s <? 0 then 0 else S (Z.to_nat (current_pid s)).

(** Hand the processor to slot [next]. *)
Definition dispatch (next : nat) s : option (procs H) :=
  let old := process_get_current s in
  let s := match old with
           | Some o => update o (λ x, if bool_decide (state x = PROC_STATE_RUNNING) then set_state PROC_STATE_READY x else x) s
           | None => s
           end in
  let s := update next (set_state PROC_STATE_RUNNING) s in
  let s := with_current (Z.of_nat next) (Some next) s in
  switch_to_process old next s.

Definition process_schedule s : option (procs H) :=
  let old := process_get_current s in
  match pick is_ready MAX_PROCESSES (start_slot s) (proc_table s) with
  | None =>
      match old with
      | Some o =>
          x ← proc_table s !! o;
          if bool_decide (state x = PROC_STATE_RUNNING) then Some s
          else Some (switch_to_kernel o (with_current (-1) None s))
      | None => Some s
      end
  | Some next =>
      if bool_decide (old = Some next) then
        x ← proc_table s !! next;
        if bool_decide (state x = PROC_STATE_RUNNING) then Some s
        else Some (update next (set_state PROC_STATE_RUNNING) s)
      else dispatch next s
  end.

Definition process_yield s : option (procs H) :=
  let s := match process_get_current s with
           | Some o => update o (set_state PROC_STATE_READY) s
           | None => s
           end in
  process_schedule s.

(** process_exec_args up to its wait loop, the slot it waits for being the
    result; the loop calls process_schedule until [exec_finished] gives the
    exit status. *)
Definition process_exec_start (kapi wrapper : Z) (image : list (Z * Z)) (fuel : nat) (c : counters) (path : list Z) (argc argv : Z) s
  : option (procs H * (Z + nat)) :=
  r ← process_create kapi wrapper image fuel c path argc argv s;
  let '(s, p) := (r : procs H * Z) in
  if p <? 0 then Some (s, inl p)
  else
    let '(s, _) := process_start p s in
    match find_slot (λ x, pid x =? p) 0 (proc_table s) with
    | None => Some (s, inl (-1))
    | Some slot => Some (s, inr slot)
    end.

Definition exec_finished (slot : nat) s : option (option Z) :=
  x ← proc_table s !! slot;
  Some (if bool_decide (state x = PROC_STATE_FREE) || bool_decide (state x = PROC_STATE_ZOMBIE)
        then Some (exit_status x) else None).

(** process_exec passes the path as its only argument; [argv] is the address
    of that one-element array. *)
Definition process_exec (kapi wrapper : Z) (image : list (Z * Z)) (fuel : nat) (c : counters) (path : list Z) (argv : Z) s :=
  process_exec_start kapi wrapper image fuel c path 1 argv s.

Definition process_preempt_quantum_expired s : procs H * bool :=
  let ticks := u32 (preempt_ticks s + 1) in
  if ticks <? PROCESS_TIME_SLICE_TICKS then (with_ticks ticks s, false) else (with_ticks 0 s, true).

Definition has_context (x : process) : bool := negb (cx_sp (context x) =? 0) && negb (cx_pc (context x) =? 0).

Definition process_pick_next_ready s : option nat :=
  pick (λ x, is_ready x && has_context x) MAX_PROCESSES (start_slot s) (proc_table s).

(** The checks both interrupt paths make: the slot to switch to. *)
Definition irq_next s : option nat :=
  let ready_count := process_count_ready s in
  if (0 <=? current_pid s) && (ready_count <=? 1) then None
  else if (current_pid s <? 0) && (ready_count =? 0) then None
  else
    match process_pick_next_ready s with
    | Some next => if Z.of_nat next =? current_pid s then None else Some next
    | None => None
    end.

(** The assembly saves and restores the registers, so only the table and the
    current process change. *)
Definition process_schedule_from_irq s : procs H :=
  match process_preempt_quantum_expired s with
  | (s, false) => s
  | (s, true) =>
      match irq_next s with
      | None => s
      | Some next =>
          let s := match process_get_current s with
                   | Some o => update o (λ x, if bool_decide (state x = PROC_STATE_RUNNING) then set_state PROC_STATE_READY x else x) s
                   | None => s
                   end in
          with_current (Z.of_nat next) (Some next) (update next (set_state PROC_STATE_RUNNING) s)
      end
  end.

Definition process_preempt_from_irq s : option (procs H) :=
  match process_preempt_quantum_expired s with
  | (s, false) => Some s
  | (s, true) =>
      match irq_next s with
      | None => Some s
      | Some next => dispatch next s
      end
  end.

Definition process_run_kernel_slice s : option (procs H * Z) :=
  if 0 <=? current_pid s then Some (s, 0)
  else if process_count_ready s <=? 0 then Some (s, 0)
  else s ← process_schedule s; Some (s, 1).
End Ops.

Ltac psimpl :=
  cbn [proc_table current_pid current_process next_pid preempt_ticks kernel_context program_base next_load_addr cpu
       p_compat p_mem p_aslr with_table with_current with_next_pid with_ticks with_kernel_context with_next_load
       with_cpu with_compat with_mem with_aslr with_heap update].

(** ** Memory that does not belong to the file system *)

Section Foreign.
Context {H : Type} `{!KernelHeap H}.
Implicit Types f : ramfs H.

Definition foreign f (b : Z) : Prop :=
  inodes f !! b = None ∧ ∀ p x, inodes f !! p = Some x → r_data x ≠ Some b.

Lemma fresh_foreign f C M b : fs_wf f C M → M !! b = None → foreign f b.
Proof.
  intros Hwf HM. split.
  - destruct (inodes f !! b) as [x|] eqn:E; [|done]. destruct (wf_inode _ _ _ Hwf b x E) as [? _]. congruence.
  - intros p x Hx Hd. destruct (wf_inode _ _ _ Hwf p x Hx) as [_ Hok]. unfold data_ok in Hok. rewrite Hd in Hok.
    destruct Hok as (? & _ & _ & _ & _ & ?). congruence.
Qed.

(** The tree does not depend on the rest of the heap. *)
Lemma fs_wf_heap f C M h M' :
  fs_wf f C M → kh_inv h M' → (∀ b, M' !! b ≠ M !! b → M !! b = None ∨ foreign f b) →
  fs_wf (fs_with_heap h f) C M'.
Proof.
  intros Hwf Hh Hsame.
  assert (∀ b n, M !! b = Some n → ¬ foreign f b → M' !! b = Some n) as Hkeep.
  { intros b n Hb Hf. destruct (decide (M' !! b = M !! b)) as [->|Hne]; [done|].
    destruct (Hsame b Hne) as [?|?]; [congruence|done]. }
  destruct Hwf as [Hr Hc Hnd Hch Hl Hn Hi Hd Hhp]. split; try done.
  intros p x Hx. destruct (Hi p x Hx) as [Hp Hok]. split.
  - apply Hkeep; [done|]. intros [E _]. cbn in Hx. congruence.
  - unfold data_ok in *. cbn [bufs fs_with_heap]. destruct (r_data x) as [d|] eqn:Ed; [|done].
    destruct Hok as (l & ? & ? & ? & ? & HM). exists l. repeat (split; [done|]). apply Hkeep; [done|].
    intros [_ Hf]. by apply (Hf p x).
Qed.

Lemma malloc_ok f C M size :
  fs_wf f C M → 0 ≤ size →
  ∃ h r, kh_alloc size 0 (fs_heap f) = Some (h, r) ∧
    match r with
    | Some b => 0 < b ∧ M !! b = None ∧ foreign f b ∧ fs_wf (fs_with_heap h f) C (<[b := size]> M)
    | None => fs_wf (fs_with_heap h f) C M
    end.
Proof.
  intros Hwf Hs. destruct (kh_alloc_ok (fs_heap f) M size 0 (wf_heap _ _ _ Hwf) Hs) as (h & r & -> & Hr).
  exists h, r. split; [done|]. destruct r as [b|].
  - destruct Hr as (_ & Hb & HM & Hh). split; [done|]. split; [done|]. split; [by eapply fresh_foreign|].
    apply (fs_wf_heap _ _ _ _ _ Hwf Hh). intros b' Hne. left. destruct (decide (b' = b)) as [->|]; [done|].
    rewrite lookup_insert_ne in Hne; done.
  - apply (fs_wf_heap _ _ _ _ _ Hwf Hr). done.
Qed.

Lemma free_ok f C M b n :
  fs_wf f C M → M !! b = Some n → foreign f b →
  ∃ h, kh_free (Some b) (fs_heap f) = Some h ∧ fs_wf (fs_with_heap h f) C (delete b M).
Proof.
  intros Hwf HM Hf. destruct (kh_free_ok (fs_heap f) M b n (wf_heap _ _ _ Hwf) HM) as (h & -> & Hh).
  exists h. split; [done|]. apply (fs_wf_heap _ _ _ _ _ Hwf Hh). intros b' Hne. right.
  destruct (decide (b' = b)) as [->|]; [done|]. rewrite lookup_delete_ne in Hne; done.
Qed.

Lemma foreign_with_heap f h b : foreign (fs_with_heap h f) b ↔ foreign f b.
Proof. done. Qed.
End Foreign.

(** ** The invariant *)

Section Invariant.
Context {H : Type} `{!KernelHeap H}.
Implicit Types s : procs H.

Definition used (x : process) : Prop := state x ≠ PROC_STATE_FREE.

Definition runnable (x : process) : Prop := state x = PROC_STATE_READY ∨ state x = PROC_STATE_RUNNING.

Lemma runnable_used x : runnable x → used x.
Proof. unfold runnable, used. intros [-> | ->]; done. Qed.

(** A process's pid is above its slot and above its parent's slot; only the
    current process is running. *)
Record proc_wf s (C : Z → list Z) (M : gmap Z Z) : Prop := {
  pw_fs : fs_wf (c_fs (p_compat s)) C M;
  pw_compat : compat_ok (p_compat s);
  pw_len : length (proc_table s) = MAX_PROCESSES;
  pw_next : 1 ≤ next_pid s ≤ INT_MAX;
  pw_pid i x : proc_table s !! i = Some x → used x → Z.of_nat i < pid x < next_pid s ∧ parent_pid x < pid x;
  pw_uniq i j x y : proc_table s !! i = Some x → proc_table s !! j = Some y → used x → used y → pid x = pid y → i = j;
  pw_stack i x b : proc_table s !! i = Some x → used x → stack_base x = Some b →
    M !! b = Some PROCESS_STACK_SIZE ∧ foreign (c_fs (p_compat s)) b;
  pw_stacks i j x y b : proc_table s !! i = Some x → proc_table s !! j = Some y → used x → used y →
    stack_base x = Some b → stack_base y = Some b → i = j;
  pw_running i x : proc_table s !! i = Some x → state x = PROC_STATE_RUNNING → current_pid s = Z.of_nat i;
  pw_current : (current_pid s = -1 ∧ current_process s = None) ∨
    ∃ k x, current_pid s = Z.of_nat k ∧ current_process s = Some k ∧ proc_table s !! k = Some x ∧ runnable x
}.

Lemma is_free_spec x : is_free x = false ↔ used x.
Proof. unfold is_free. by rewrite bool_decide_eq_false. Qed.

Lemma find_slot_spec f k t :
  match find_slot f k t with
  | Some j => ∃ i x, j = (k + i)%nat ∧ t !! i = Some x ∧ f x = true ∧
                     ∀ i' y, (i' < i)%nat → t !! i' = Some y → f y = false
  | None => ∀ i x, t !! i = Some x → f x = false
  end.
Proof.
  revert k. induction t as [|x t IH]; intros k; cbn [find_slot]; [done|].
  destruct (f x) eqn:E.
  - exists 0%nat, x. split; [lia|]. split; [done|]. split; [done|]. lia.
  - specialize (IH (S k)). destruct (find_slot f (S k) t) as [j|].
    + destruct IH as (i & y & -> & Hi & Hf & Hall). exists (S i), y. split; [lia|]. split; [done|]. split; [done|].
      intros [|i'] z Hlt Hz; [cbn in Hz; congruence|]. apply (Hall i'); [lia|done].
    + intros [|i] y Hy; cbn in Hy; [congruence|by apply (IH i)].
Qed.

(** ** Killing the descendants of a process *)

Definition child (q : Z) (x : process) : Prop := used x ∧ parent_pid x = q.
#[global] Instance child_dec q x : Decision (child q x).
Proof. unfold child, used. apply _. Defined.

(** The processes whose parent is in [P]. *)
Definition kids (P : list Z) (t : list process) : list process := filter (λ x, used x ∧ parent_pid x ∈ P) t.

Definition kill_if (dead : nat → process → bool) (i : nat) (x : process) : process :=
  if dead i x then killed x else x.

(** [M'] is [M] without the stacks of the dead slots. *)
Definition frees (dead : nat → process → bool) (t : list process) (M M' : gmap Z Z) : Prop :=
  (∀ a i x, t !! i = Some x → dead i x = true → stack_base x = Some a → M' !! a = None) ∧
  (∀ a, (∀ i x, t !! i = Some x → dead i x = true → stack_base x ≠ Some a) → M' !! a = M !! a).

(** [s] is [s0] after the slots [dead] were killed. *)
Definition after_kill s0 (C : Z → list Z) (M : gmap Z Z) (dead : nat → process → bool) s : Prop :=
  ∃ h M', s = with_heap h (with_table (imap (kill_if dead) (proc_table s0)) s0) ∧
          frees dead (proc_table s0) M M' ∧ fs_wf (fs_with_heap h (c_fs (p_compat s0))) C M'.

Lemma after_kill_ext s0 C M d d' s :
  (∀ i x, proc_table s0 !! i = Some x → d i x = d' i x) → after_kill s0 C M d s → after_kill s0 C M d' s.
Proof.
  intros Hd (h & M' & -> & [Hf1 Hf2] & Hwf). exists h, M'. split; [|split; [split|done]].
  - f_equal. f_equal. apply imap_ext. intros i x Hx. unfold kill_if. by rewrite (Hd i x).
  - intros a i x Hx Hdead. apply (Hf1 a i x); [done|]. by rewrite (Hd i x).
  - intros a Ha. apply Hf2. intros i x Hx Hdead. apply (Ha i x Hx). by rewrite <- (Hd i x).
Qed.

Lemma kill_one s0 C M dead s i x :
  proc_wf s0 C M → after_kill s0 C M dead s → (∀ j y, dead j y = true → used y) →
  proc_table s0 !! i = Some x → used x → dead i x = false →
  ∃ s', match stack_base x with Some b => free (Some b) s | None => Some s end = Some s' ∧
        after_kill s0 C M (λ j y, dead j y || (j =? i)%nat) (update i killed s').
Proof.
  intros Hwf (h & M' & -> & [Hf1 Hf2] & Hfs) Hused Hx Hux Hd.
  assert (alter killed i (imap (kill_if dead) (proc_table s0)) =
          imap (kill_if (λ j y, dead j y || (j =? i)%nat)) (proc_table s0)) as Halter.
  { apply list_eq. intros j. destruct (decide (i = j)) as [<-|Hne].
    - rewrite list_lookup_alter_eq, !list_lookup_imap, Hx. cbn. unfold kill_if. by rewrite Hd, Nat.eqb_refl.
    - rewrite list_lookup_alter_ne, !list_lookup_imap by done. destruct (proc_table s0 !! j) as [y|]; cbn; [|done].
      unfold kill_if. destruct (Nat.eqb_spec j i); [congruence|]. by rewrite orb_false_r. }
  destruct (stack_base x) as [b|] eqn:Eb.
  - destruct (pw_stack _ _ _ Hwf i x b Hx Hux Eb) as [HM Hfor].
    assert (M' !! b = Some PROCESS_STACK_SIZE) as HM'.
    { rewrite Hf2; [done|]. intros j y Hy Hdy Ey.
      assert (j = i) as -> by (apply (pw_stacks _ _ _ Hwf j i y x b); eauto). congruence. }
    destruct (free_ok _ _ _ b _ Hfs HM' Hfor) as (h' & Hfree & Hfs'). unfold free, proc_heap.
    cbn [p_compat with_heap with_compat c_fs with_fs fs_heap fs_with_heap] in *. rewrite Hfree. cbn [mbind option_bind]. eexists. split; [reflexivity|]. exists h', (delete b M').
    split; [unfold update, with_heap; cbn; by rewrite Halter|]. split; [|done]. split.
    + intros a j y Hy Hdy Ea. destruct (decide (a = b)) as [->|Hne]; [apply lookup_delete_eq|].
      rewrite lookup_delete_ne by done. destruct (Nat.eqb_spec j i) as [->|]; [congruence|].
      rewrite orb_false_r in Hdy. eauto.
    + intros a Ha. rewrite lookup_delete_ne.
      * apply Hf2. intros j y Hy Hdy. apply (Ha j y Hy). by rewrite Hdy.
      * intros ->. apply (Ha i x Hx); [by rewrite Nat.eqb_refl, orb_true_r|done].
  - cbn [mbind option_bind]. eexists. split; [reflexivity|]. exists h, M'.
    split; [unfold update, with_heap; cbn; by rewrite Halter|]. split; [|done]. split.
    + intros a j y Hy Hdy Ea. destruct (Nat.eqb_spec j i) as [->|]; [congruence|].
      rewrite orb_false_r in Hdy. eauto.
    + intros a Ha. apply Hf2. intros j y Hy Hdy. apply (Ha j y Hy). by rewrite Hdy.
Qed.

(** The slots killed once the parents in [P] have been scanned, and the slots
    below [k] for the parent [q] too. *)
Definition dead_of s0 (P : list Z) (q : Z) (k : nat) (i : nat) (x : process) : bool :=
  bool_decide (used x) && negb (Z.of_nat i =? current_pid s0) &&
  (bool_decide (parent_pid x ∈ P) || ((parent_pid x =? q) && (i <? k)%nat)).

Lemma dead_used s0 P q k i x : dead_of s0 P q k i x = true → used x.
Proof. unfold dead_of. intros Hd. destruct (decide (used x)); [done|]. by rewrite bool_decide_false in Hd. Qed.

Lemma dead_of_S s0 P q k i x :
  dead_of s0 P q (S k) i x =
  dead_of s0 P q k i x || ((i =? k)%nat && bool_decide (child q x) && negb (Z.of_nat i =? current_pid s0)).
Proof.
  assert (bool_decide (child q x) = bool_decide (used x) && (parent_pid x =? q)) as ->.
  { unfold child. destruct (Z.eqb_spec (parent_pid x) q); [rewrite andb_true_r; apply bool_decide_ext; naive_solver|].
    rewrite andb_false_r. apply bool_decide_eq_false. naive_solver. }
  unfold dead_of.
  assert ((i <? S k)%nat = (i <? k)%nat || (i =? k)%nat) as ->.
  { destruct (Nat.ltb_spec i k), (Nat.eqb_spec i k), (Nat.ltb_spec i (S k)); try done; lia. }
  destruct (bool_decide (used x)), (Z.of_nat i =? current_pid s0), (bool_decide (parent_pid x ∈ P)),
    (parent_pid x =? q), (i <? k)%nat, (i =? k)%nat; done.
Qed.

Definition pushed (q : Z) (t : list process) : list Z := reverse (pid <$> filter (child q) t).

Lemma pushed_snoc q t x : pushed q (t ++ [x]) = (if decide (child q x) then [pid x] else []) ++ pushed q t.
Proof.
  unfold pushed. rewrite filter_app, fmap_app, reverse_app. f_equal. cbn. by destruct (decide (child q x)).
Qed.

(** One slot of the scan. *)
Lemma kill_slot_ok s0 C M P q k s W x :
  proc_wf s0 C M → q ∉ P → proc_table s0 !! k = Some x →
  (length (pushed q (take (S k) (proc_table s0)) ++ W) ≤ MAX_PROCESSES)%nat →
  after_kill s0 C M (dead_of s0 P q k) s →
  ∃ s', kill_slot q (pushed q (take k (proc_table s0)) ++ W, s) k = Some (pushed q (take (S k) (proc_table s0)) ++ W, s') ∧
        after_kill s0 C M (dead_of s0 P q (S k)) s'.
Proof.
  intros Hwf Hq Hx Hlen Hs. pose proof Hs as (h & M' & Es & _). unfold kill_slot.
  assert (proc_table s !! k = Some (kill_if (dead_of s0 P q k) k x)) as ->.
  { rewrite Es. cbn. by rewrite list_lookup_imap, Hx. }
  cbn [mbind option_bind]. rewrite (take_S_r _ _ _ Hx), pushed_snoc in *.
  assert (current_pid s = current_pid s0) as -> by by rewrite Es.
  destruct (decide (child q x)) as [[Hu Hp]|Hnc].
  - assert (dead_of s0 P q k k x = false) as Hd.
    { unfold dead_of. rewrite (bool_decide_false (parent_pid x ∈ P)) by congruence. rewrite Nat.ltb_irrefl.
      rewrite andb_false_r, orb_false_r. apply andb_false_r. }
    unfold kill_if. rewrite Hd. rewrite (proj2 (is_free_spec x) Hu), Hp, Z.eqb_refl. cbn [negb andb].
    rewrite <- app_assoc in Hlen. cbn [app length] in Hlen.
    destruct (Nat.ltb_spec (length (pushed q (take k (proc_table s0)) ++ W)) MAX_PROCESSES) as [_|]; [|lia].
    destruct (Z.eqb_spec (Z.of_nat k) (current_pid s0)) as [Hc|Hc].
    + eexists. split; [reflexivity|]. apply (after_kill_ext _ _ _ (dead_of s0 P q k)); [|done].
      intros i y Hy. rewrite dead_of_S. destruct (Nat.eqb_spec i k) as [->|]; [|by rewrite orb_false_r].
      rewrite Hc, Z.eqb_refl. by rewrite andb_false_r, orb_false_r.
    + destruct (kill_one s0 C M _ s k x Hwf Hs) as (s' & -> & Hafter); [by intros j y; apply dead_used|done..|].
      cbn [mbind option_bind]. eexists. split; [reflexivity|].
      eapply after_kill_ext, Hafter. intros i y Hy. rewrite dead_of_S. cbn beta.
      destruct (Nat.eqb_spec i k) as [->|]; [|done].
      assert (y = x) as -> by congruence. rewrite (bool_decide_true (child q x)) by done.
      destruct (Z.eqb_spec (Z.of_nat k) (current_pid s0)); [done|]. by rewrite !orb_true_r.
  - cbn [app]. eexists. split.
    + destruct (dead_of s0 P q k k x) eqn:Hd; unfold kill_if; rewrite Hd; cbn [is_free killed state].
      * reflexivity.
      * assert (negb (is_free x) && (parent_pid x =? q) = false) as ->; [|reflexivity].
        destruct (Z.eqb_spec (parent_pid x) q) as [Hp|]; [|apply andb_false_r]. rewrite andb_true_r, negb_false_iff.
        destruct (is_free x) eqn:Ef; [done|]. apply is_free_spec in Ef. destruct Hnc. by split.
    + apply (after_kill_ext _ _ _ (dead_of s0 P q k)); [|done]. intros i y Hy. rewrite dead_of_S.
      destruct (Nat.eqb_spec i k) as [->|]; [|by rewrite orb_false_r].
      assert (y = x) as -> by congruence. rewrite (bool_decide_false (child q x)) by done. by rewrite orb_false_r.
Qed.

Lemma kill_scan_ok s0 C M P q W n k s :
  proc_wf s0 C M → q ∉ P → (k + n = MAX_PROCESSES)%nat →
  (length (pushed q (proc_table s0) ++ W) ≤ MAX_PROCESSES)%nat →
  after_kill s0 C M (dead_of s0 P q k) s →
  ∃ s', kill_scan q (seq k n) (pushed q (take k (proc_table s0)) ++ W, s) = Some (pushed q (proc_table s0) ++ W, s') ∧
        after_kill s0 C M (dead_of s0 P q MAX_PROCESSES) s'.
Proof.
  intros Hwf Hq. revert k s. induction n as [|n IH]; intros k s Hk Hlen Hs; cbn [seq kill_scan].
  - exists s. replace k with MAX_PROCESSES in * by lia. rewrite take_ge by (rewrite (pw_len _ _ _ Hwf); done). done.
  - destruct (lookup_lt_is_Some_2 (proc_table s0) k) as [x Hx]; [rewrite (pw_len _ _ _ Hwf); lia|].
    destruct (kill_slot_ok s0 C M P q k s W x Hwf Hq Hx) as (s' & -> & Hs'); [|done|].
    + etransitivity; [|exact Hlen]. rewrite !length_app. apply Nat.add_le_mono_r. unfold pushed.
      rewrite !length_reverse, !length_fmap. rewrite <- (take_drop (S k) (proc_table s0)) at 2.
      rewrite filter_app, length_app. lia.
    + cbn [mbind option_bind]. apply (IH (S k) s'); [lia|done..].
Qed.

Lemma kids_cons q P t : q ∉ P → kids (q :: P) t ≡ₚ filter (child q) t ++ kids P t.
Proof.
  intros Hq. unfold kids. induction t as [|x t IH]; [done|]. rewrite !filter_cons.
  destruct (decide (child q x)) as [[Hu Hp]|Hc].
  - rewrite decide_True by (split; [done|apply elem_of_cons; by left]). rewrite decide_False by (intros [_ ?]; congruence).
    cbn [app]. by constructor.
  - destruct (decide (used x ∧ parent_pid x ∈ P)) as [[Hu Hp]|Hn].
    + rewrite decide_True by (split; [done|apply elem_of_cons; by right]). rewrite IH. apply Permutation_middle.
    + rewrite decide_False; [done|]. intros [Hu [Hp|Hp]%elem_of_cons]; [by destruct Hc|by destruct Hn].
Qed.

Lemma kids_length P t : (length (kids P t) ≤ length t)%nat.
Proof. apply length_filter. Qed.

Lemma NoDup_pids s C M : proc_wf s C M → NoDup (pid <$> filter used (proc_table s)).
Proof.
  intros Hwf. pose proof (pw_uniq _ _ _ Hwf) as Hu. clear Hwf. induction (proc_table s) as [|x t IH]; [constructor|].
  assert (NoDup (pid <$> filter used t)) as IH'.
  { apply IH. intros i j a b Hi Hj Ha Hb E. assert (S i = S j) by (apply (Hu (S i) (S j) a b); done). lia. }
  rewrite filter_cons. destruct (decide (used x)) as [Hx|]; [|done]. cbn. constructor; [|done].
  intros (y & E & Hy)%list_elem_of_fmap. apply list_elem_of_filter in Hy as [Hy Hin].
  apply list_elem_of_lookup in Hin as [j Hj]. assert (0%nat = S j) by (apply (Hu 0%nat (S j) x y); done). done.
Qed.

Lemma NoDup_kids s C M P : proc_wf s C M → NoDup (pid <$> kids P (proc_table s)).
Proof.
  intros Hwf. pose proof (NoDup_pids s C M Hwf) as Hnd. clear Hwf. unfold kids.
  induction (proc_table s) as [|x t IH]; [done|]. rewrite !filter_cons in *.
  destruct (decide (used x)) as [Hx|Hx].
  - cbn in Hnd. inversion_clear Hnd. case_decide; [|by apply IH]. cbn. constructor; [|by apply IH].
    intros (y & E & Hy)%list_elem_of_fmap. apply list_elem_of_filter in Hy as [[Hy _] Hin].
    destruct H0. apply list_elem_of_fmap. exists y. split; [done|]. by apply list_elem_of_filter.
  - rewrite decide_False by naive_solver. by apply IH.
Qed.

(** The scanned parents [P] and the work stack [W] hold [p] and the pids of the
    children of scanned parents, each once. *)
Definition work_inv s0 (p : Z) (P W : list Z) : Prop :=
  P ++ W ≡ₚ p :: (pid <$> kids P (proc_table s0)) ∧ (∀ z, z ∈ P ++ W → p ≤ z).

Lemma work_nodup s0 C M p P W : proc_wf s0 C M → work_inv s0 p P W → NoDup (P ++ W).
Proof.
  intros Hwf [Hperm Hge]. rewrite Hperm. constructor; [|by eapply NoDup_kids].
  intros (y & -> & Hy)%list_elem_of_fmap. apply list_elem_of_filter in Hy as [[Hu Hp] Hin].
  apply list_elem_of_lookup in Hin as [j Hj]. destruct (pw_pid _ _ _ Hwf j y Hj Hu) as [_ Hlt].
  assert (pid y ≤ parent_pid y) by (apply Hge, elem_of_app; by left). lia.
Qed.

Lemma work_length s0 C M p P W : proc_wf s0 C M → work_inv s0 p P W → (length P + length W ≤ S MAX_PROCESSES)%nat.
Proof.
  intros Hwf [Hperm _]. apply Permutation_length in Hperm. rewrite length_app in Hperm. rewrite Hperm. cbn [length].
  rewrite length_fmap. pose proof (kids_length P (proc_table s0)). rewrite (pw_len _ _ _ Hwf) in *. lia.
Qed.

Lemma work_step s0 C M p P q W :
  proc_wf s0 C M → work_inv s0 p P (q :: W) → work_inv s0 p (q :: P) (pushed q (proc_table s0) ++ W).
Proof.
  intros Hwf Hw. pose proof (work_nodup _ _ _ _ _ _ Hwf Hw) as Hnd. destruct Hw as [Hperm Hge].
  assert (q ∉ P) as Hq.
  { intros Hin. apply NoDup_app in Hnd as (_ & Hdisj & _). apply (Hdisj q Hin), elem_of_cons. by left. }
  assert ((q :: P) ++ pushed q (proc_table s0) ++ W ≡ₚ (pid <$> filter (child q) (proc_table s0)) ++ P ++ q :: W) as Hp.
  { unfold pushed. rewrite (reverse_Permutation (pid <$> _)). cbn [app].
    rewrite !app_assoc, <- Permutation_middle. constructor. apply Permutation_app_tail, Permutation_app_comm. }
  split.
  - rewrite Hp, Hperm, (kids_cons q P) by done. rewrite fmap_app. apply symmetry, Permutation_middle.
  - intros z Hz. rewrite Hp, elem_of_app in Hz. destruct Hz as [Hz|Hz]; [|by apply Hge].
    apply list_elem_of_fmap in Hz as (y & -> & Hy). apply list_elem_of_filter in Hy as [[Hu Hpar] Hin].
    apply list_elem_of_lookup in Hin as [j Hj]. destruct (pw_pid _ _ _ Hwf j y Hj Hu) as [_ Hlt].
    assert (p ≤ q) by (apply Hge, elem_of_app; right; apply elem_of_cons; by left). lia.
Qed.

Lemma kill_loop_ok s0 C M p fuel P W s :
  proc_wf s0 C M → work_inv s0 p P W → (S MAX_PROCESSES ≤ fuel + length P)%nat →
  after_kill s0 C M (dead_of s0 P 0 0) s →
  ∃ s' P', kill_loop fuel (W, s) = Some s' ∧ work_inv s0 p P' [] ∧ after_kill s0 C M (dead_of s0 P' 0 0) s'.
Proof.
  intros Hwf. revert P W s. induction fuel as [|fuel IH]; intros P W s Hw Hf Hs.
  - destruct W as [|q W]; [by exists s, P|]. pose proof (work_length _ _ _ _ _ _ Hwf Hw). cbn [length] in *. lia.
  - destruct W as [|q W]; [by exists s, P|]. cbn [kill_loop].
    pose proof (work_nodup _ _ _ _ _ _ Hwf Hw) as Hnd. pose proof (work_step _ _ _ _ _ _ _ Hwf Hw) as Hw'.
    assert (q ∉ P) as Hq.
    { intros Hin. apply NoDup_app in Hnd as (_ & Hdisj & _). apply (Hdisj q Hin), elem_of_cons. by left. }
    destruct (kill_scan_ok s0 C M P q W MAX_PROCESSES 0 s Hwf Hq eq_refl) as (s' & Hscan & Hs').
    + pose proof (work_length _ _ _ _ _ _ Hwf Hw'). cbn [length] in *. lia.
    + apply (after_kill_ext _ _ _ (dead_of s0 P 0 0)); [|done]. intros i x _. unfold dead_of. by rewrite !andb_false_r.
    + rewrite take_0 in Hscan. change (pushed q [] ++ W) with W in Hscan. rewrite Hscan. cbn [mbind option_bind].
      apply (IH (q :: P)); [done|cbn [length]; lia|]. apply (after_kill_ext _ _ _ (dead_of s0 P q MAX_PROCESSES)); [|done].
      intros i x Hx. unfold dead_of. apply lookup_lt_Some in Hx. rewrite (pw_len _ _ _ Hwf) in Hx.
      rewrite (proj2 (Nat.ltb_lt i MAX_PROCESSES) Hx). f_equal. rewrite andb_false_r, orb_false_r, andb_true_r.
      destruct (Z.eqb_spec (parent_pid x) q) as [->|Hne].
      * rewrite orb_true_r. symmetry. apply bool_decide_eq_true, elem_of_cons. by left.
      * rewrite orb_false_r. apply bool_decide_ext. rewrite elem_of_cons. naive_solver.
Qed.

(** Slot [i] holds a child of [p], or a child of a descendant. *)
Inductive descendant (t : list process) (p : Z) : nat → Prop :=
| desc_child i x : t !! i = Some x → child p x → descendant t p i
| desc_step i j x y : descendant t p j → t !! j = Some y → t !! i = Some x → child (pid y) x → descendant t p i.

Lemma work_done s0 C M p P i x :
  proc_wf s0 C M → work_inv s0 p P [] → proc_table s0 !! i = Some x →
  (used x ∧ parent_pid x ∈ P) ↔ descendant (proc_table s0) p i.
Proof.
  intros Hwf [Hperm _] Hx. rewrite app_nil_r in Hperm. split.
  - intros [Hu Hp]. destruct (pw_pid _ _ _ Hwf i x Hx Hu) as [Hpos _].
    revert i x Hx Hu Hp Hpos.
    enough (∀ n i x, proc_table s0 !! i = Some x → used x → parent_pid x ∈ P → 0 ≤ pid x < Z.of_nat n →
              descendant (proc_table s0) p i) as Hall.
    { intros i x Hx Hu Hp Hpos. apply (Hall (Z.to_nat (pid x + 1)) i x); [done..|lia]. }
    induction n as [|n IH]; intros i x Hx Hu Hp Hn; [lia|].
    rewrite Hperm in Hp. apply elem_of_cons in Hp as [Hp|Hp]; [by eapply desc_child|].
    apply list_elem_of_fmap in Hp as (y & Hpy & Hy). apply list_elem_of_filter in Hy as [[Huy Hpary] Hin].
    apply list_elem_of_lookup in Hin as [j Hj].
    destruct (pw_pid _ _ _ Hwf i x Hx Hu) as [_ Hlt]. destruct (pw_pid _ _ _ Hwf j y Hj Huy) as [Hgt _].
    apply (desc_step _ _ i j x y); [|done|done|by split]. apply (IH j y); [done..|lia].
  - intros Hd. revert x Hx. induction Hd as [i x' Hx' [Hu Hp]|i j x' y Hd IH Hy Hx' [Hu Hp]]; intros x Hx.
    + assert (x' = x) as -> by congruence. split; [done|]. rewrite Hp, Hperm. apply elem_of_cons. by left.
    + assert (x' = x) as -> by congruence. split; [done|]. rewrite Hp, Hperm. apply elem_of_cons. right.
      apply list_elem_of_fmap. exists y. split; [done|]. apply list_elem_of_filter. split; [by apply IH|].
      apply list_elem_of_lookup. by exists j.
Qed.

Lemma after_kill_refl s C M dead : proc_wf s C M → (∀ i x, dead i x = false) → after_kill s C M dead s.
Proof.
  intros Hwf Hno. exists (proc_heap s), M. split; [|split].
  - assert (imap (kill_if dead) (proc_table s) = proc_table s) as ->.
    { apply list_eq. intros i. rewrite list_lookup_imap. destruct (proc_table s !! i) as [x|]; [|done]. cbn.
      unfold kill_if. by rewrite Hno. }
    by destruct s as [? ? ? ? ? ? ? ? ? [? ? ? []] ? ?].
  - split; [intros a i x _; by rewrite Hno|done].
  - pose proof (pw_fs _ _ _ Hwf) as Hfs. apply (fs_wf_heap _ _ _ _ _ Hfs); [apply Hfs|done].
Qed.

Lemma descendant_pid s C M p i x :
  proc_wf s C M → descendant (proc_table s) p i → proc_table s !! i = Some x → p < pid x ∧ used x.
Proof.
  intros Hwf Hd. revert x. induction Hd as [i x' Hx' [Hu Hp]|i j x' y Hd IH Hy Hx' [Hu Hp]]; intros x Hx;
    assert (x' = x) as -> by congruence; destruct (pw_pid _ _ _ Hwf i x Hx Hu) as [_ ?]; (split; [|done]); [lia|].
  destruct (IH y Hy). lia.
Qed.

(** A slot that changed by a kill is free. *)
Lemma kill_if_used dead i x : used (kill_if dead i x) → dead i x = false ∧ kill_if dead i x = x.
Proof. unfold kill_if. destruct (dead i x); [by intros []|done]. Qed.

Lemma after_kill_wf s0 C M dead s :
  proc_wf s0 C M → (∀ i x, proc_table s0 !! i = Some x → dead i x = true → used x ∧ Z.of_nat i ≠ current_pid s0) →
  after_kill s0 C M dead s →
  ∃ M', proc_wf s C M' ∧ frees dead (proc_table s0) M M'.
Proof.
  intros Hwf Hdead (h & M' & -> & Hfrees & Hfs). exists M'. split; [|done].
  assert (∀ i x, imap (kill_if dead) (proc_table s0) !! i = Some x → used x → proc_table s0 !! i = Some x ∧ dead i x = false) as Hinv.
  { intros i x Hx Hu. rewrite list_lookup_imap in Hx. destruct (proc_table s0 !! i) as [y|]; [|done].
    injection Hx as <-. destruct (kill_if_used dead i y Hu) as [Hd E]. by rewrite E. }
  assert (∀ i x, imap (kill_if dead) (proc_table s0) !! i = Some x → state x = PROC_STATE_RUNNING → used x) as Hrun.
  { intros i x _ E. unfold used. by rewrite E. }
  destruct Hwf as [Hf Hc Hl Hn Hpid Huniq Hst Hsts Hr Hcur].
  split; cbn [proc_table p_compat with_heap with_compat with_table c_fs with_fs current_pid current_process next_pid]; try done.
  - by destruct Hc.
  - by rewrite length_imap.
  - intros i x Hx Hu. destruct (Hinv i x Hx Hu). by apply Hpid.
  - intros i j x y Hx Hy Hux Huy. destruct (Hinv i x Hx Hux), (Hinv j y Hy Huy). eauto.
  - intros i x b Hx Hu Hb. destruct (Hinv i x Hx Hu) as [Hx0 Hd]. destruct (Hst i x b Hx0 Hu Hb) as [HM Hfor].
    split; [|done]. destruct Hfrees as [_ Hkeep]. rewrite Hkeep; [done|]. intros j y Hy Hdy Hby.
    destruct (Hdead j y Hy Hdy) as [Huy _]. assert (j = i) as -> by eauto. congruence.
  - intros i j x y b Hx Hy Hux Huy. destruct (Hinv i x Hx Hux), (Hinv j y Hy Huy). eauto.
  - intros i x Hx E. destruct (Hinv i x Hx (Hrun i x Hx E)). eauto.
  - destruct Hcur as [?|(k & x & Hk & Hp & Hx & Hu)]; [by left|]. right. exists k, x. repeat (split; [done|]). split; [|done].
    rewrite list_lookup_imap, Hx. cbn. unfold kill_if. destruct (dead k x) eqn:E; [|done].
    destruct (Hdead k x Hx E) as [_ []]. done.
Qed.

(** Nothing but the table and the heap changed. *)
Definition same_kernel s s' : Prop :=
  current_pid s' = current_pid s ∧ next_pid s' = next_pid s ∧ kernel_context s' = kernel_context s ∧ cpu s' = cpu s ∧
  p_mem s' = p_mem s ∧ node_used (p_compat s') = node_used (p_compat s).

Lemma kill_children_ok s C M p :
  proc_wf s C M →
  ∃ s' M' dead, kill_children p s = Some s' ∧ proc_wf s' C M' ∧ same_kernel s s' ∧
    proc_table s' = imap (kill_if dead) (proc_table s) ∧ frees dead (proc_table s) M M' ∧
    ∀ i x, proc_table s !! i = Some x →
      dead i x = true ↔ descendant (proc_table s) p i ∧ Z.of_nat i ≠ current_pid s.
Proof.
  intros Hwf. unfold kill_children.
  destruct (kill_loop_ok s C M p (S MAX_PROCESSES) [] [p] s Hwf) as (s' & P & -> & Hw & Hs').
  - split; [|by intros z [->|[]%elem_of_nil]%elem_of_cons]. cbn [app]. f_equiv. unfold kids.
    induction (proc_table s) as [|x t IH]; [done|]. rewrite filter_cons, decide_False; [done|].
    intros [_ []%elem_of_nil].
  - cbn [length]. lia.
  - assert (∀ i x, dead_of s [] 0 0 i x = false) as Hno.
    { intros i x. unfold dead_of. rewrite (bool_decide_false (parent_pid x ∈ [])) by apply not_elem_of_nil. by rewrite !andb_false_r. }
    by apply after_kill_refl.
  - assert (∀ i x, dead_of s P 0 0 i x = true ↔ (used x ∧ parent_pid x ∈ P) ∧ Z.of_nat i ≠ current_pid s) as Hd.
    { intros i x. unfold dead_of. rewrite andb_false_r, orb_false_r, !andb_true_iff, !bool_decide_eq_true, negb_true_iff, Z.eqb_neq.
      naive_solver. }
    destruct (after_kill_wf s C M (dead_of s P 0 0) s' Hwf) as (M' & Hwf' & Hf); [intros i x _ E; apply Hd in E; naive_solver|done|].
    exists s', M', (dead_of s P 0 0). split; [done|]. split; [done|]. destruct Hs' as (h & M'' & -> & _).
    split; [done|]. split; [done|]. split; [done|]. intros i x Hx. rewrite Hd.
    by rewrite (work_done s C M p P i x Hwf Hw Hx).
Qed.

(** C19: kill_children terminates without overrunning its 16-entry work stack
    and without a double free.  It clears exactly the slots that the parent_pid
    fields of the table lead to from the given number, other than the calling
    process, and returns exactly their stacks; every other slot, the current
    process and the rest of the heap stay as they are, and the process table
    stays consistent.  (The field holds the slot number of the creator where
    kill_children compares pids, so that these are not the processes that the
    one with the given pid created: [own_child_is_not_child].) *)
Theorem kill_children_correct s C M p :
  proc_wf s C M →
  ∃ s' M', kill_children p s = Some s' ∧ proc_wf s' C M' ∧ current_pid s' = current_pid s ∧
    (∀ i x, proc_table s !! i = Some x → descendant (proc_table s) p i → Z.of_nat i ≠ current_pid s →
       proc_table s' !! i = Some (killed x) ∧ ∀ b, stack_base x = Some b → M' !! b = None) ∧
    (∀ i x, proc_table s !! i = Some x → ¬ descendant (proc_table s) p i ∨ Z.of_nat i = current_pid s →
       proc_table s' !! i = Some x) ∧
    (∀ b, (∀ i x, proc_table s !! i = Some x → descendant (proc_table s) p i → Z.of_nat i ≠ current_pid s →
             stack_base x ≠ Some b) → M' !! b = M !! b).
Proof.
  intros Hwf. destruct (kill_children_ok s C M p Hwf) as (s' & M' & dead & -> & Hwf' & Hsame & Ht & [Hf1 Hf2] & Hd).
  exists s', M'. split; [done|]. split; [done|]. split; [apply Hsame|]. rewrite Ht.
  split; [|split].
  - intros i x Hx Hdesc Hne. assert (dead i x = true) as E by (apply (Hd i x Hx); done). split; [|by intros b; apply (Hf1 b i x)].
    rewrite list_lookup_imap, Hx. cbn. unfold kill_if. by rewrite E.
  - intros i x Hx Hor. rewrite list_lookup_imap, Hx. cbn. unfold kill_if. destruct (dead i x) eqn:E; [|done].
    apply (Hd i x Hx) in E. tauto.
  - intros b Hb. apply Hf2. intros i x Hx E. apply (Hd i x Hx) in E as [? ?]. by apply (Hb i x).
Qed.

(** ** Scheduling *)

Lemma pick_spec f n idx t :
  length t = MAX_PROCESSES →
  match pick f n idx t with
  | Some k => ∃ d x, (d < n)%nat ∧ k = ((idx + d) `mod` MAX_PROCESSES)%nat ∧ t !! k = Some x ∧ f x = true ∧
      ∀ d' y, (d' < d)%nat → t !! ((idx + d') `mod` MAX_PROCESSES)%nat = Some y → f y = false
  | None => ∀ d y, (d < n)%nat → t !! ((idx + d) `mod` MAX_PROCESSES)%nat = Some y → f y = false
  end.
Proof.
  intros Hl. revert idx. induction n as [|n IH]; intros idx; cbn [pick]; [lia|].
  assert (idx `mod` MAX_PROCESSES < MAX_PROCESSES)%nat as Hlt by (apply Nat.mod_upper_bound; done).
  destruct (lookup_lt_is_Some_2 t (idx `mod` MAX_PROCESSES)) as [x Hx]; [lia|]. rewrite Hx.
  destruct (f x) eqn:Ef.
  - exists 0%nat, x. rewrite Nat.add_0_r. split; [lia|]. repeat (split; [done|]). lia.
  - specialize (IH (S idx)). destruct (pick f n (S idx) t) as [k|].
    + destruct IH as (d & y & Hd & Hk & Hy & Hf & Hall). exists (S d), y. rewrite Nat.add_succ_r.
      split; [lia|]. repeat (split; [done|]). intros [|d'] z Hd' Hz.
      * rewrite Nat.add_0_r in Hz. congruence.
      * rewrite Nat.add_succ_r in Hz. apply (Hall d'); [lia|done].
    + intros [|d] z Hd Hz; [rewrite Nat.add_0_r in Hz; congruence|]. rewrite Nat.add_succ_r in Hz. apply (IH d); [lia|done].
Qed.

(** A new table whose used slots keep their pid, parent and stack. *)
Lemma wf_retable s C M s' :
  proc_wf s C M → p_compat s' = p_compat s → next_pid s' = next_pid s → length (proc_table s') = MAX_PROCESSES →
  (∀ i y, proc_table s' !! i = Some y → used y →
     ∃ x, proc_table s !! i = Some x ∧ used x ∧ pid y = pid x ∧ parent_pid y = parent_pid x ∧ stack_base y = stack_base x) →
  (∀ i y, proc_table s' !! i = Some y → state y = PROC_STATE_RUNNING → current_pid s' = Z.of_nat i) →
  ((current_pid s' = -1 ∧ current_process s' = None) ∨
    ∃ k x, current_pid s' = Z.of_nat k ∧ current_process s' = Some k ∧ proc_table s' !! k = Some x ∧ runnable x) →
  proc_wf s' C M.
Proof.
  intros [Hf Hc Hl Hn Hpid Huniq Hst Hsts Hr Hcur] Ec Hnext Hlen Hold Hrun Hcur'.
  split; rewrite ?Ec; try done.
  - lia.
  - intros i y Hy Hu. destruct (Hold i y Hy Hu) as (x & Hx & Hux & -> & -> & _). specialize (Hpid i x Hx Hux). lia.
  - intros i j y z Hy Hz Huy Huz E. destruct (Hold i y Hy Huy) as (x & Hx & Hux & Ep & _).
    destruct (Hold j z Hz Huz) as (x' & Hx' & Hux' & Ep' & _). apply (Huniq i j x x'); congruence.
  - intros i y b Hy Hu Hb. destruct (Hold i y Hy Hu) as (x & Hx & Hux & _ & _ & Es). apply (Hst i x); congruence.
  - intros i j y z b Hy Hz Huy Huz Hb Hb'. destruct (Hold i y Hy Huy) as (x & Hx & Hux & _ & _ & Es).
    destruct (Hold j z Hz Huz) as (x' & Hx' & Hux' & _ & _ & Es'). apply (Hsts i j x x' b); congruence.
Qed.

(** An update of one slot, seen slot by slot. *)
Lemma lookup_update i f s j y :
  proc_table (update i f s) !! j = Some y →
  ∃ x, proc_table s !! j = Some x ∧ y = (if decide (i = j) then f x else x).
Proof.
  cbn. intros Hy. destruct (decide (i = j)) as [<-|Hne].
  - rewrite list_lookup_alter_eq in Hy. destruct (proc_table s !! i) as [x|]; [|done]. injection Hy as <-. by exists x.
  - rewrite list_lookup_alter_ne in Hy by done. by exists y.
Qed.

Definition demoted (x : process) : process :=
  if bool_decide (state x = PROC_STATE_RUNNING) then set_state PROC_STATE_READY x else x.

Lemma demoted_state x : state (demoted x) ≠ PROC_STATE_RUNNING ∧ (runnable x → state (demoted x) = PROC_STATE_READY).
Proof.
  unfold demoted, runnable. case_bool_decide as E; [done|]. split; [done|]. intros [?|?]; done.
Qed.

(** The same process in another state of the scheduler. *)
Definition same_proc (x y : process) : Prop :=
  pid y = pid x ∧ parent_pid y = parent_pid x ∧ stack_base y = stack_base x ∧ load_base y = load_base x ∧
  load_size y = load_size x ∧ entry y = entry x ∧ name y = name x ∧ exit_status y = exit_status x.

(** What handing the processor to slot [next] does. *)
Definition dispatched s (next : nat) (x : process) s' : Prop :=
  current_pid s' = Z.of_nat next ∧ cpu s' = context x ∧
  proc_table s' !! next = Some (set_state PROC_STATE_RUNNING x) ∧
  (∀ o y, current_pid s = Z.of_nat o → proc_table s !! o = Some y →
     proc_table s' !! o = Some (set_context (cpu s) (demoted y)) ∧ kernel_context s' = kernel_context s) ∧
  (current_pid s = -1 → kernel_context s' = cpu s) ∧
  (∀ i y, i ≠ next → Z.of_nat i ≠ current_pid s → proc_table s !! i = Some y → proc_table s' !! i = Some y).

Lemma dispatch_from_kernel s C M next x :
  proc_wf s C M → proc_table s !! next = Some x → used x → current_pid s = -1 →
  ∃ s', dispatch next s = Some s' ∧ proc_wf s' C M ∧ dispatched s next x s'.
Proof.
  intros Hwf Hx Hu Hc. unfold dispatch, process_get_current, switch_to_process.
  rewrite Hc. cbn [Z.ltb Z.compare]. psimpl.
  rewrite list_lookup_alter_eq, Hx. cbn [fmap option_fmap option_map mbind option_bind].
  eexists. split; [reflexivity|]. split.
  - apply (wf_retable s C M); psimpl; try done.
    + rewrite length_alter. apply Hwf.
    + intros i y Hy Huy. apply (lookup_update next (set_state PROC_STATE_RUNNING) s) in Hy as (x' & Hx' & ->).
      exists x'. destruct (decide (next = i)) as [->|]; [|done]. assert (x' = x) as -> by congruence. done.
    + intros i y Hy Hr. apply (lookup_update next (set_state PROC_STATE_RUNNING) s) in Hy as (x' & Hx' & ->).
      destruct (decide (next = i)) as [->|]; [done|]. apply (pw_running _ _ _ Hwf) in Hx'; [lia|done].
    + right. exists next, (set_state PROC_STATE_RUNNING x). repeat (split; [done|]). split; [|by right].
      by rewrite list_lookup_alter_eq, Hx.
  - split; [done|]. split; [done|]. psimpl. split; [by rewrite list_lookup_alter_eq, Hx|]. split; [intros o y Ho; lia|].
    split; [done|]. intros i y Hi _ Hy. by rewrite list_lookup_alter_ne.
Qed.

Lemma dispatch_from_process s C M next x o xo :
  proc_wf s C M → proc_table s !! next = Some x → used x → current_pid s = Z.of_nat o →
  proc_table s !! o = Some xo → runnable xo → o ≠ next →
  ∃ s', dispatch next s = Some s' ∧ proc_wf s' C M ∧ dispatched s next x s'.
Proof.
  intros Hwf Hx Hu Hc Hxo Hro Hon. unfold dispatch, process_get_current, switch_to_process.
  rewrite Hc. destruct (Z.ltb_spec (Z.of_nat o) 0); [lia|]. rewrite Nat2Z.id. psimpl.
  change (λ x, if bool_decide (state x = PROC_STATE_RUNNING) then _ else x) with demoted.
  set (t := alter (set_context (cpu s)) o (alter (set_state PROC_STATE_RUNNING) next (alter demoted o (proc_table s)))).
  assert (t !! next = Some (set_state PROC_STATE_RUNNING x)) as Htn.
  { unfold t. rewrite list_lookup_alter_ne, list_lookup_alter_eq, list_lookup_alter_ne, Hx by done. done. }
  assert (t !! o = Some (set_context (cpu s) (demoted xo))) as Hto.
  { unfold t. rewrite list_lookup_alter_eq, list_lookup_alter_ne, list_lookup_alter_eq, Hxo by done. done. }
  assert (∀ i, i ≠ next → i ≠ o → t !! i = proc_table s !! i) as Hti.
  { intros i Hi Hio. unfold t. by rewrite !list_lookup_alter_ne by done. }
  rewrite Htn. cbn [mbind option_bind]. eexists. split; [reflexivity|].
  destruct (demoted_state xo) as [Hnr Hready]. split.
  - apply (wf_retable s C M); psimpl; fold t; try done.
    + unfold t. rewrite !length_alter. apply Hwf.
    + intros i y Hy Huy. destruct (decide (i = next)) as [->|Hi]; [|destruct (decide (i = o)) as [->|Hio]].
      * exists x. rewrite Htn in Hy. by injection Hy as <-.
      * exists xo. rewrite Hto in Hy. injection Hy as <-. split; [done|]. split; [by apply runnable_used|].
        unfold demoted. by destruct (bool_decide _).
      * exists y. by rewrite <- Hti.
    + intros i y Hy Hr. destruct (decide (i = next)) as [->|Hi]; [done|]. exfalso. destruct (decide (i = o)) as [->|Hio].
      * rewrite Hto in Hy. by injection Hy as <-.
      * rewrite Hti in Hy by done. apply (pw_running _ _ _ Hwf) in Hy; [lia|done].
    + right. exists next, (set_state PROC_STATE_RUNNING x). repeat (split; [done|]). by right.
  - split; [done|]. split; [done|]. psimpl. fold t. split; [done|]. split; [|split; [lia|]].
    + intros o' y Ho Hy. assert (o' = o) as -> by lia. split; [|done]. rewrite Hto. congruence.
    + intros i y Hi Hio Hy. rewrite Hti; [done..|lia].
Qed.

Lemma dispatch_ok s C M next x :
  proc_wf s C M → proc_table s !! next = Some x → used x → current_pid s ≠ Z.of_nat next →
  ∃ s', dispatch next s = Some s' ∧ proc_wf s' C M ∧ dispatched s next x s'.
Proof.
  intros Hwf Hx Hu Hne. destruct (pw_current _ _ _ Hwf) as [[Hc _]|(o & xo & Hc & _ & Hxo & Hro)].
  - by apply dispatch_from_kernel.
  - apply (dispatch_from_process s C M next x o xo); try done. congruence.
Qed.

(** How many slots the search passes before it gets from [a] to [j]. *)
Definition dist (a j : nat) : nat := ((j + MAX_PROCESSES - a `mod` MAX_PROCESSES) `mod` MAX_PROCESSES)%nat.

Lemma dist_spec a j : (j < MAX_PROCESSES → (a + dist a j) `mod` MAX_PROCESSES = j ∧ dist a j < MAX_PROCESSES)%nat.
Proof. unfold dist, MAX_PROCESSES. intros. split; zify; Z.to_euclidean_division_equations; lia. Qed.

Lemma dist_next a d j :
  (j < MAX_PROCESSES → d < dist a j → dist (S ((a + d) `mod` MAX_PROCESSES)) j < dist a j)%nat.
Proof. unfold dist, MAX_PROCESSES. intros. zify; Z.to_euclidean_division_equations; lia. Qed.

Lemma dist_self a d j :
  (j < MAX_PROCESSES → a < MAX_PROCESSES → j ≠ a → d ≤ dist (S a) j → (S a + d) `mod` MAX_PROCESSES ≠ a)%nat.
Proof. unfold dist, MAX_PROCESSES. intros. zify; Z.to_euclidean_division_equations; lia. Qed.

(** The search stops at or before [j] when [j] qualifies. *)
Lemma pick_progress f s C M j x :
  proc_wf s C M → proc_table s !! j = Some x → f x = true → current_pid s ≠ Z.of_nat j →
  ∃ k y, pick f MAX_PROCESSES (start_slot s) (proc_table s) = Some k ∧ proc_table s !! k = Some y ∧ f y = true ∧
    current_pid s ≠ Z.of_nat k ∧ (k = j ∨ (dist (S k) j < dist (start_slot s) j)%nat).
Proof.
  intros Hwf Hx Hf Hne. pose proof (pick_spec f MAX_PROCESSES (start_slot s) (proc_table s) (pw_len _ _ _ Hwf)) as Hp.
  assert (j < MAX_PROCESSES)%nat as Hj by (apply lookup_lt_Some in Hx; rewrite (pw_len _ _ _ Hwf) in Hx; done).
  destruct (dist_spec (start_slot s) j Hj) as [Hd Hdlt].
  destruct (pick f MAX_PROCESSES (start_slot s) (proc_table s)) as [k|].
  2: { rewrite <- Hd in Hx. rewrite (Hp _ _ Hdlt Hx) in Hf. done. }
  destruct Hp as (d & y & Hdn & Hk & Hy & Hfy & Hall). exists k, y. split; [done|]. split; [done|]. split; [done|].
  assert (d ≤ dist (start_slot s) j)%nat as Hle.
  { destruct (Nat.le_gt_cases d (dist (start_slot s) j)) as [|Hgt]; [done|]. rewrite <- Hd in Hx.
    rewrite (Hall _ _ Hgt Hx) in Hf. done. }
  split.
  - destruct (pw_current _ _ _ Hwf) as [[Hc _]|(o & xo & Hc & _ & Hxo & _)]; [lia|]. intros Hck.
    assert (o = k) as -> by lia. apply lookup_lt_Some in Hxo. rewrite (pw_len _ _ _ Hwf) in Hxo.
    unfold start_slot in Hk, Hle. rewrite Hck in Hk, Hle. destruct (Z.ltb_spec (Z.of_nat k) 0) as [|_]; [lia|].
    rewrite Nat2Z.id in Hk, Hle. apply (dist_self k d j); [done|done|congruence|done|congruence].
  - destruct (decide (d = dist (start_slot s) j)) as [->|]; [left; congruence|]. right. rewrite Hk.
    apply dist_next; [done|lia].
Qed.

Definition waiting (j : nat) s : Prop :=
  ∃ x, proc_table s !! j = Some x ∧ state x = PROC_STATE_READY ∧ has_context x = true ∧ current_pid s ≠ Z.of_nat j.

Lemma start_after s k : current_pid s = Z.of_nat k → start_slot s = S k.
Proof. intros E. unfold start_slot. rewrite E. destruct (Z.ltb_spec (Z.of_nat k) 0); [lia|]. by rewrite Nat2Z.id. Qed.

Lemma get_current_ne s C M k : proc_wf s C M → current_pid s ≠ Z.of_nat k → process_get_current s ≠ Some k.
Proof.
  intros Hwf Hne. unfold process_get_current. destruct (Z.ltb_spec (current_pid s) 0); [done|].
  intros [= E]. apply Hne. lia.
Qed.

Lemma schedule_progress s C M j :
  proc_wf s C M → waiting j s →
  ∃ s' k, process_schedule s = Some s' ∧ proc_wf s' C M ∧ current_pid s' = Z.of_nat k ∧
    (k = j ∨ (dist (S k) j < dist (start_slot s) j)%nat).
Proof.
  intros Hwf (x & Hx & Hr & _ & Hne).
  destruct (pick_progress is_ready s C M j x Hwf Hx) as (k & y & Hpick & Hy & Hry & Hck & Hk); [by apply bool_decide_eq_true|done|].
  apply bool_decide_eq_true in Hry. unfold process_schedule. rewrite Hpick.
  rewrite bool_decide_false by by eapply get_current_ne.
  destruct (dispatch_ok s C M k y Hwf Hy) as (s' & -> & Hwf' & Hc & _); [unfold used; congruence|done|].
  by exists s', k.
Qed.

(** Marking the current process ready. *)
Lemma ready_current_ok s C M o :
  proc_wf s C M → current_pid s = Z.of_nat o → proc_wf (update o (set_state PROC_STATE_READY) s) C M.
Proof.
  intros Hwf Ho. pose proof (pw_current _ _ _ Hwf) as Hcur. destruct Hcur as [[Hc _]|(k & xk & Hc & Hcp & Hxk & Hrk)]; [lia|].
  assert (k = o) as -> by lia. apply (wf_retable s C M); try done.
  - psimpl. rewrite length_alter. apply Hwf.
  - intros i y (x & Hx & ->)%lookup_update Hu. exists x. destruct (decide (o = i)) as [->|]; [|done].
    assert (x = xk) as -> by congruence. split; [done|]. split; [by apply runnable_used|done].
  - intros i y (x & Hx & ->)%lookup_update Hu. destruct (decide (o = i)) as [->|]; [done|]. by apply (pw_running _ _ _ Hwf i x).
  - right. exists o, (set_state PROC_STATE_READY xk). split; [done|]. split; [done|]. split; [|by left]. psimpl.
    by rewrite list_lookup_alter_eq, Hxk.
Qed.

Lemma yield_progress s C M j :
  proc_wf s C M → waiting j s →
  ∃ s' k, process_yield s = Some s' ∧ proc_wf s' C M ∧ current_pid s' = Z.of_nat k ∧
    (k = j ∨ (dist (S k) j < dist (start_slot s) j)%nat).
Proof.
  intros Hwf Hw. unfold process_yield, process_get_current.
  destruct (pw_current _ _ _ Hwf) as [[Hc _]|(o & xo & Hc & _ & _)]; rewrite Hc.
  - cbn [Z.ltb Z.compare]. by apply schedule_progress.
  - destruct (Z.ltb_spec (Z.of_nat o) 0); [lia|]. rewrite Nat2Z.id.
    apply (schedule_progress (update o (set_state PROC_STATE_READY) s)); [by apply ready_current_ok|].
    destruct Hw as (x & Hx & Hr & Hctx & Hne). exists x. split; [|done]. psimpl. rewrite list_lookup_alter_ne; [done|]. congruence.
Qed.

#[global] Instance runnable_dec x : Decision (runnable x).
Proof. unfold runnable. apply _. Defined.

Lemma count_ready_length s : process_count_ready s = Z.of_nat (length (filter runnable (proc_table s))).
Proof.
  unfold process_count_ready.
  enough (∀ t n, foldl (λ n x, if is_ready x || bool_decide (state x = PROC_STATE_RUNNING) then n + 1 else n) n t =
                 n + Z.of_nat (length (filter runnable t))) as -> by lia.
  induction t as [|x t IH]; intros n; cbn [foldl]; [rewrite filter_nil; cbn; lia|]. rewrite IH, filter_cons.
  unfold is_ready, runnable. rewrite <- bool_decide_or. destruct (decide _) as [Hd|Hd].
  - rewrite bool_decide_true by done. cbn [length]. lia.
  - rewrite bool_decide_false by done. lia.
Qed.

Lemma length_filter_one {A} (P : A → Prop) `{∀ x, Decision (P x)} (t : list A) i x :
  t !! i = Some x → P x → (1 ≤ length (filter P t))%nat.
Proof.
  intros Hi HP. assert (x ∈ filter P t) as Hin by (apply list_elem_of_filter; split; [done|by apply list_elem_of_lookup; exists i]).
  destruct (filter P t); [by apply elem_of_nil in Hin|cbn; lia].
Qed.

Lemma length_filter_two {A} (P : A → Prop) `{∀ x, Decision (P x)} (t : list A) i j x y :
  i ≠ j → t !! i = Some x → t !! j = Some y → P x → P y → (2 ≤ length (filter P t))%nat.
Proof.
  revert i j. induction t as [|z t IH]; intros [|i] [|j] Hij Hi Hj HP HQ; try done; cbn in Hi, Hj; rewrite filter_cons.
  - injection Hi as ->. rewrite decide_True by done. pose proof (length_filter_one P t j y Hj HQ). cbn. lia.
  - injection Hj as ->. rewrite decide_True by done. pose proof (length_filter_one P t i x Hi HP). cbn. lia.
  - assert (i ≠ j) as Hij' by congruence. pose proof (IH i j Hij' Hi Hj HP HQ). destruct (decide (P z)); cbn; lia.
Qed.

Lemma irq_next_progress s C M j :
  proc_wf s C M → waiting j s →
  ∃ k y, irq_next s = Some k ∧ proc_table s !! k = Some y ∧ state y = PROC_STATE_READY ∧ current_pid s ≠ Z.of_nat k ∧
    (k = j ∨ (dist (S k) j < dist (start_slot s) j)%nat).
Proof.
  intros Hwf (x & Hx & Hr & Hctx & Hne). unfold irq_next, process_pick_next_ready. rewrite count_ready_length.
  assert (runnable x) as Hrx by by left.
  pose proof (length_filter_one runnable (proc_table s) j x Hx Hrx) as Hone.
  assert ((0 <=? current_pid s) && (Z.of_nat (length (filter runnable (proc_table s))) <=? 1) = false) as ->.
  { destruct (pw_current _ _ _ Hwf) as [[-> _]|(o & xo & Hc & _ & Hxo & Hro)]; [done|].
    assert (o ≠ j) as Hoj by congruence. pose proof (length_filter_two runnable _ o j xo x Hoj Hxo Hx Hro Hrx).
    destruct (Z.leb_spec (Z.of_nat (length (filter runnable (proc_table s)))) 1); [lia|]. apply andb_false_r. }
  destruct (Z.eqb_spec (Z.of_nat (length (filter runnable (proc_table s)))) 0) as [|_]; [lia|]. rewrite andb_false_r.
  destruct (pick_progress (λ x, is_ready x && has_context x) s C M j x Hwf Hx) as (k & y & -> & Hy & Hry & Hck & Hk);
    [rewrite Hctx, andb_true_r; by apply bool_decide_eq_true|done|].
  apply andb_true_iff in Hry as [Hry _]. apply bool_decide_eq_true in Hry.
  destruct (Z.eqb_spec (Z.of_nat k) (current_pid s)); [lia|]. by exists k, y.
Qed.

Lemma quantum_ok s C M : proc_wf s C M → proc_wf (fst (process_preempt_quantum_expired s)) C M.
Proof. intros [? [] ? ? ? ? ? ? ? ?]. unfold process_preempt_quantum_expired. destruct (_ <? _); by split. Qed.

(** Every way the processor can change hands without a process ending. *)
Inductive turn : procs H → procs H → Prop :=
| turn_yield s s' : process_yield s = Some s' → turn s s'
| turn_schedule s s' : process_schedule s = Some s' → turn s s'
| turn_irq s : preempt_ticks s = PROCESS_TIME_SLICE_TICKS - 1 → turn s (process_schedule_from_irq s)
| turn_preempt s s' :
    preempt_ticks s = PROCESS_TIME_SLICE_TICKS - 1 → process_preempt_from_irq s = Some s' → turn s s'.

Lemma turn_progress s C M j s' :
  proc_wf s C M → waiting j s → turn s s' →
  ∃ k, current_pid s' = Z.of_nat k ∧ (k = j ∨ (dist (S k) j < dist (start_slot s) j)%nat).
Proof.
  intros Hwf Hw Ht.
  assert (preempt_ticks s = PROCESS_TIME_SLICE_TICKS - 1 →
          process_preempt_quantum_expired s = (with_ticks 0 s, true)) as Hq.
  { intros E. unfold process_preempt_quantum_expired. by rewrite E. }
  destruct Ht as [s s' Hy|s s' Hy|s Hticks|s s' Hticks Hy].
  - destruct (yield_progress s C M j Hwf Hw) as (t & k & Ht & _ & Hc & Hk). exists k. assert (s' = t) as -> by congruence. done.
  - destruct (schedule_progress s C M j Hwf Hw) as (t & k & Ht & _ & Hc & Hk). exists k. assert (s' = t) as -> by congruence. done.
  - unfold process_schedule_from_irq. pose proof (quantum_ok s C M Hwf) as Hwf0. rewrite Hq in * by done. cbn [fst] in Hwf0.
    destruct (irq_next_progress (with_ticks 0 s) C M j Hwf0 Hw) as (k & y & -> & _ & _ & _ & Hk). by exists k.
  - unfold process_preempt_from_irq in Hy. pose proof (quantum_ok s C M Hwf) as Hwf0. rewrite Hq in * by done. cbn [fst] in Hwf0.
    destruct (irq_next_progress (with_ticks 0 s) C M j Hwf0 Hw) as (k & y & E & Hk & Hr & Hc & Hprog). rewrite E in Hy.
    destruct (dispatch_ok (with_ticks 0 s) C M k y Hwf0 Hk) as (t & Ht & _ & Hct & _); [unfold used; congruence|done|].
    exists k. assert (s' = t) as -> by congruence. done.
Qed.

(** [n] turns during which slot [j] is ready and never gets the processor.
    Before each turn the running process may do anything to the kernel state
    that leaves slot [j] ready. *)
Inductive passed_over (j : nat) : nat → procs H → Prop :=
| po_start s : passed_over j 0 s
| po_turn n s t C M s' :
    passed_over j n s → current_pid t = current_pid s → proc_wf t C M → waiting j t → turn t s' →
    current_pid s' ≠ Z.of_nat j → passed_over j (S n) s'.

(** C20: bounded waiting.  However processes yield, are preempted by the timer
    or start others, a ready process is passed over at most 15 times in a row:
    the round-robin search gives it the processor at the 16th turn at the
    latest.  And yielding always succeeds: there is a next process, and the
    table stays consistent. *)
Theorem ready_process_runs j :
  (∀ n s, passed_over j n s → (n < MAX_PROCESSES)%nat) ∧
  (∀ s C M, proc_wf s C M → waiting j s → ∃ s' k, process_yield s = Some s' ∧ proc_wf s' C M ∧ current_pid s' = Z.of_nat k).
Proof.
  split; [|intros s C M Hwf Hw; destruct (yield_progress s C M j Hwf Hw) as (s' & k & ? & ? & ? & _); eauto].
  intros n s Hp.
  assert (n = 0 ∨ ∃ k, current_pid s = Z.of_nat k ∧ n + dist (S k) j < MAX_PROCESSES)%nat as [->|(k & _ & ?)].
  - induction Hp as [s|n s t C M s' Hp IH Hc Hwf Hw Ht Hne]; [by left|]. right.
    destruct (turn_progress t C M j s' Hwf Hw Ht) as (k & Hk & Hor). exists k. split; [done|].
    destruct Hor as [->|Hlt]; [done|].
    assert (j < MAX_PROCESSES)%nat as Hj.
    { destruct Hw as (x & Hx & _). apply lookup_lt_Some in Hx. by rewrite (pw_len _ _ _ Hwf) in Hx. }
    destruct (dist_spec (start_slot t) j Hj) as [_ Hd]. destruct IH as [->|(k0 & Hk0 & Hlt0)]; [lia|].
    rewrite (start_after t k0) in Hlt by congruence. lia.
  - unfold MAX_PROCESSES. lia.
  - lia.
Qed.

(** ** The other operations keep the invariant *)

Lemma schedule_wf s C M : proc_wf s C M → ∃ s', process_schedule s = Some s' ∧ proc_wf s' C M.
Proof.
  intros Hwf. unfold process_schedule, process_get_current.
  pose proof (pick_spec is_ready MAX_PROCESSES (start_slot s) (proc_table s) (pw_len _ _ _ Hwf)) as Hp.
  destruct (pick is_ready MAX_PROCESSES (start_slot s) (proc_table s)) as [k|].
  - destruct Hp as (_ & y & _ & _ & Hy & Hr & _). apply bool_decide_eq_true in Hr. case_bool_decide as E.
    + destruct (Z.ltb_spec (current_pid s) 0); [done|]. injection E as E. rewrite Hy. cbn [mbind option_bind].
      rewrite bool_decide_false by congruence. eexists. split; [reflexivity|].
      destruct (pw_current _ _ _ Hwf) as [[? _]|(o & xo & Hc & Hcp & Hxo & _)]; [lia|]. assert (o = k) as -> by lia.
      apply (wf_retable s C M); psimpl; try done.
      * rewrite length_alter. apply Hwf.
      * intros i z (x & Hx & ->)%(lookup_update k (set_state PROC_STATE_RUNNING) s) Hu. exists x.
        destruct (decide (k = i)) as [->|]; [|done]. assert (x = y) as -> by congruence. unfold used. rewrite Hr. done.
      * intros i z (x & Hx & ->)%(lookup_update k (set_state PROC_STATE_RUNNING) s) Hu.
        destruct (decide (k = i)) as [->|]; [done|]. by apply (pw_running _ _ _ Hwf i x).
      * right. exists k, (set_state PROC_STATE_RUNNING y). repeat (split; [done|]). split; [|by right].
        by rewrite list_lookup_alter_eq, Hy.
    + destruct (dispatch_ok s C M k y Hwf Hy) as (s' & ? & ? & _); [unfold used; congruence| |by exists s'].
      intros Hc. rewrite Hc in E. destruct (Z.ltb_spec (Z.of_nat k) 0); [lia|]. rewrite Nat2Z.id in E. done.
  - destruct (pw_current _ _ _ Hwf) as [[Hc _]|(o & xo & Hc & Hcp & Hxo & Hro)]; rewrite Hc; [by exists s|].
    destruct (Z.ltb_spec (Z.of_nat o) 0) as [|_]; [lia|]. rewrite Nat2Z.id, Hxo. cbn [mbind option_bind].
    destruct Hro as [Hro|Hro]; [|rewrite bool_decide_true by done; by exists s].
    exfalso. apply lookup_lt_Some in Hxo as Ho. rewrite (pw_len _ _ _ Hwf) in Ho.
    destruct (dist_spec (start_slot s) o Ho) as [Hd Hdlt]. rewrite <- Hd in Hxo. specialize (Hp _ _ Hdlt Hxo).
    unfold is_ready in Hp. rewrite bool_decide_eq_false in Hp. done.
Qed.

Lemma yield_ok s C M : proc_wf s C M → ∃ s', process_yield s = Some s' ∧ proc_wf s' C M.
Proof.
  intros Hwf. unfold process_yield, process_get_current.
  destruct (pw_current _ _ _ Hwf) as [[Hc _]|(o & xo & Hc & _ & _)]; rewrite Hc; [by apply schedule_wf|].
  destruct (Z.ltb_spec (Z.of_nat o) 0); [lia|]. rewrite Nat2Z.id. by apply schedule_wf, ready_current_ok.
Qed.

Lemma process_get_spec p s :
  match process_get p s with
  | Some i => ∃ x, proc_table s !! i = Some x ∧ used x ∧ pid x = p
  | None => ∀ i x, proc_table s !! i = Some x → used x → pid x ≠ p
  end.
Proof.
  unfold process_get. pose proof (find_slot_spec (λ x, (pid x =? p) && negb (is_free x)) 0 (proc_table s)) as Hf.
  destruct (find_slot _ 0 (proc_table s)) as [j|].
  - destruct Hf as (i & x & -> & Hx & Ht & _). cbn [Nat.add]. exists x. split; [done|].
    apply andb_true_iff in Ht as [Hp%Z.eqb_eq Hu%negb_true_iff]. split; [by apply is_free_spec|done].
  - intros i x Hx Hu Hp. apply Hf in Hx. apply (is_free_spec x) in Hu. rewrite Hp, Z.eqb_refl, Hu in Hx. done.
Qed.

Lemma start_ok s C M p : proc_wf s C M → proc_wf (fst (process_start p s)) C M.
Proof.
  intros Hwf. unfold process_start. pose proof (process_get_spec p s) as Hg.
  destruct (process_get p s) as [i|]; [|done]. destruct Hg as (x & Hx & Hu & _). cbn [fst].
  apply (wf_retable s C M); psimpl; try done.
  - rewrite length_alter. apply Hwf.
  - intros j y (z & Hz & ->)%(lookup_update i (set_state PROC_STATE_READY) s) Huy. exists z.
    destruct (decide (i = j)) as [->|]; [|done]. assert (z = x) as -> by congruence. done.
  - intros j y (z & Hz & ->)%(lookup_update i (set_state PROC_STATE_READY) s) Huy.
    destruct (decide (i = j)) as [->|]; [done|]. by apply (pw_running _ _ _ Hwf j z).
  - destruct (pw_current _ _ _ Hwf) as [?|(k & y & Hk & Hp & Hy & Hry)]; [by left|]. right.
    destruct (decide (i = k)) as [->|].
    + exists k, (set_state PROC_STATE_READY y). repeat (split; [done|]). split; [|by left]. by rewrite list_lookup_alter_eq, Hy.
    + exists k, y. repeat (split; [done|]). split; [|done]. by rewrite list_lookup_alter_ne.
Qed.

Lemma quantum_ok' s C M s' b : proc_wf s C M → process_preempt_quantum_expired s = (s', b) → proc_wf s' C M.
Proof. intros Hwf E. pose proof (quantum_ok s C M Hwf) as Hq. by rewrite E in Hq. Qed.

Lemma irq_next_spec s C M k :
  proc_wf s C M → irq_next s = Some k →
  ∃ y, proc_table s !! k = Some y ∧ state y = PROC_STATE_READY ∧ current_pid s ≠ Z.of_nat k.
Proof.
  intros Hwf. unfold irq_next, process_pick_next_ready. destruct (_ && _); [done|]. destruct (_ && _); [done|].
  pose proof (pick_spec (λ x, is_ready x && has_context x) MAX_PROCESSES (start_slot s) _ (pw_len _ _ _ Hwf)) as Hp.
  destruct (pick _ _ _ _) as [i|]; [|done]. destruct (Z.eqb_spec (Z.of_nat i) (current_pid s)); [done|]. intros [= ->].
  destruct Hp as (_ & y & _ & _ & Hy & Hr & _). exists y. split; [done|].
  apply andb_true_iff in Hr as [Hr%bool_decide_eq_true _]. done.
Qed.

Lemma preempt_ok s C M : proc_wf s C M → ∃ s', process_preempt_from_irq s = Some s' ∧ proc_wf s' C M.
Proof.
  intros Hwf. unfold process_preempt_from_irq. destruct (process_preempt_quantum_expired s) as [s1 b] eqn:Eq.
  pose proof (quantum_ok' _ _ _ _ _ Hwf Eq) as Hwf1. destruct b; [|by exists s1].
  destruct (irq_next s1) as [k|] eqn:Ek; [|by exists s1].
  destruct (irq_next_spec s1 C M k Hwf1 Ek) as (y & Hy & Hr & Hne).
  destruct (dispatch_ok s1 C M k y Hwf1 Hy) as (s' & ? & ? & _); [unfold used; congruence|done|by exists s'].
Qed.

(** The ARM64 path does what the x86 path does, except for the registers. *)
Lemma irq_table s :
  process_schedule_from_irq s =
  match process_preempt_quantum_expired s with
  | (s, true) =>
      match irq_next s with
      | Some next =>
          with_current (Z.of_nat next) (Some next) (update next (set_state PROC_STATE_RUNNING)
            (match process_get_current s with Some o => update o demoted s | None => s end))
      | None => s
      end
  | (s, false) => s
  end.
Proof. unfold process_schedule_from_irq. destruct (process_preempt_quantum_expired s) as [s1 []]; [|done]. by destruct (irq_next s1). Qed.

Lemma switch_to_process_back old next s s' C M :
  switch_to_process old next s = Some s' → proc_wf s' C M → proc_wf s C M.
Proof.
  intros Hsw Hwf. unfold switch_to_process in Hsw.
  assert (p_compat s = p_compat s' ∧ next_pid s' = next_pid s ∧ current_pid s' = current_pid s ∧
          current_process s' = current_process s ∧
          proc_table s' = match old with Some o => alter (set_context (cpu s)) o (proc_table s) | None => proc_table s end)
    as (Ec & En & Ep & Epp & Et).
  { destruct old as [o|]; destruct (_ !! next) as [x|]; cbn [mbind option_bind] in Hsw; try done; by injection Hsw as <-. }
  assert (∀ i y, proc_table s !! i = Some y → ∃ x, proc_table s' !! i = Some x ∧ state x = state y ∧ same_proc y x) as Hfwd.
  { intros i y Hy. rewrite Et. destruct old as [o|]; [|by exists y]. destruct (decide (o = i)) as [->|].
    - exists (set_context (cpu s) y). by rewrite list_lookup_alter_eq, Hy.
    - exists y. by rewrite list_lookup_alter_ne. }
  apply (wf_retable s' C M); [done|done|lia|..].
  - pose proof (pw_len _ _ _ Hwf) as Hl. rewrite Et in Hl. destruct old; [by rewrite length_alter in Hl|done].
  - intros i y Hy Hu. destruct (Hfwd i y Hy) as (x & Hx & Hst & Hp & Hpar & Hsb & _). exists x. unfold used in *. rewrite Hst. done.
  - intros i y Hy Hr. destruct (Hfwd i y Hy) as (x & Hx & Hst & _). rewrite <- Ep. apply (pw_running _ _ _ Hwf i x); congruence.
  - rewrite <- Ep, <- Epp. destruct (pw_current _ _ _ Hwf) as [?|(k & x & Hk & Hcp & Hx & Hr)]; [by left|]. right.
    destruct (proc_table s !! k) as [y|] eqn:Ey.
    + exists k, y. repeat (split; [done|]). destruct (Hfwd k y Ey) as (x' & Hx' & Hst & _). unfold runnable in *.
      by rewrite <- Hst; assert (x' = x) as -> by congruence.
    + exfalso. apply lookup_ge_None in Ey. apply lookup_lt_Some in Hx. rewrite Et in Hx.
      destruct old; [rewrite length_alter in Hx|]; lia.
Qed.

Lemma irq_ok s C M : proc_wf s C M → proc_wf (process_schedule_from_irq s) C M.
Proof.
  intros Hwf. rewrite irq_table. destruct (process_preempt_quantum_expired s) as [s1 b] eqn:Eq.
  pose proof (quantum_ok' _ _ _ _ _ Hwf Eq) as Hwf1. destruct b; [|done].
  destruct (irq_next s1) as [k|] eqn:Ek; [|done].
  destruct (irq_next_spec s1 C M k Hwf1 Ek) as (y & Hy & Hr & Hne).
  destruct (dispatch_ok s1 C M k y Hwf1 Hy) as (s' & Hd & Hwf' & _); [unfold used; congruence|done|].
  apply (switch_to_process_back (process_get_current s1) k _ s' C M); [|done]. exact Hd.
Qed.

Lemma kernel_slice_ok s C M : proc_wf s C M → ∃ s' r, process_run_kernel_slice s = Some (s', r) ∧ proc_wf s' C M.
Proof.
  intros Hwf. unfold process_run_kernel_slice. destruct (0 <=? current_pid s); [by exists s, 0|].
  destruct (process_count_ready s <=? 0); [by exists s, 0|].
  destruct (schedule_wf s C M Hwf) as (s' & -> & Hwf'). cbn [mbind option_bind]. by exists s', 1.
Qed.

(** Taking the current process off the table. *)
Lemma leave_ok s C M o st :
  proc_wf s C M → current_pid s = Z.of_nat o →
  proc_wf (with_current (-1) None (update o (λ x, set_state PROC_STATE_FREE (set_exit_status st x)) s)) C M.
Proof.
  intros Hwf Ho. set (f := λ x, set_state PROC_STATE_FREE (set_exit_status st x)).
  apply (wf_retable s C M); psimpl; try done.
  - rewrite length_alter. apply Hwf.
  - intros i y (x & Hx & ->)%(lookup_update o f s) Hu. exists x. destruct (decide (o = i)) as [->|]; [by destruct Hu|done].
  - intros i y (x & Hx & ->)%(lookup_update o f s) Hr. destruct (decide (o = i)) as [->|]; [done|].
    apply (pw_running _ _ _ Hwf) in Hx; [lia|done].
  - by left.
Qed.

Lemma save_context_ok s C M o c : proc_wf s C M → proc_wf (with_cpu c (update o (set_context (cpu s)) s)) C M.
Proof.
  intros Hwf. apply (wf_retable s C M); psimpl; try done.
  - rewrite length_alter. apply Hwf.
  - intros i y (x & Hx & ->)%(lookup_update o (set_context (cpu s)) s) Hu. exists x. by destruct (decide (o = i)).
  - intros i y (x & Hx & ->)%(lookup_update o (set_context (cpu s)) s) Hr. apply (pw_running _ _ _ Hwf i x Hx). by destruct (decide (o = i)).
  - destruct (pw_current _ _ _ Hwf) as [?|(k & x & Hk & Hcp & Hx & Hr)]; [by left|]. right.
    destruct (decide (o = k)) as [->|].
    + exists k, (set_context (cpu s) x). by rewrite list_lookup_alter_eq, Hx.
    + exists k, x. by rewrite list_lookup_alter_ne.
Qed.

(** [t'] is [t] with the slots in [D] killed. *)
Definition kills (t t' : list process) (D : nat → Prop) : Prop :=
  (∀ i x, t !! i = Some x → D i → t' !! i = Some (killed x)) ∧ (∀ i x, t !! i = Some x → ¬ D i → t' !! i = Some x).

Lemma kills_imap dead t (D : nat → Prop) :
  (∀ i x, t !! i = Some x → dead i x = true ↔ D i) → kills t (imap (kill_if dead) t) D.
Proof.
  intros Hd. split; intros i x Hx HD; rewrite list_lookup_imap, Hx; cbn; unfold kill_if.
  - by rewrite (proj2 (Hd i x Hx) HD).
  - destruct (dead i x) eqn:E; [|done]. by apply (Hd i x Hx) in E.
Qed.

Lemma kill_rest s C M p :
  proc_wf s C M →
  ∃ s' M', kill_children p s = Some s' ∧ proc_wf s' C M' ∧ same_kernel s s' ∧
    kills (proc_table s) (proc_table s') (λ i, descendant (proc_table s) p i ∧ Z.of_nat i ≠ current_pid s).
Proof.
  intros Hwf. destruct (kill_children_ok s C M p Hwf) as (s' & M' & dead & ? & ? & ? & Ht & _ & Hd).
  exists s', M'. repeat (split; [done|]). rewrite Ht. by apply kills_imap.
Qed.

(** A process that exits leaves its status in its slot, where the waiting
    process_exec_args finds it, frees the slot, kills its descendants and no
    other process, and hands the processor back to the kernel with the
    registers the kernel saved. *)
Theorem process_exit_correct s C M status k x :
  proc_wf s C M → current_pid s = Z.of_nat k → proc_table s !! k = Some x →
  cx_pc (kernel_context s) ≠ 0 → cx_sp (kernel_context s) ≠ 0 →
  ∃ s' M', process_exit status s = Some (s', ExitSwitched) ∧ proc_wf s' C M' ∧ current_pid s' = -1 ∧
    cpu s' = kernel_context s ∧ exec_finished k s' = Some (Some status) ∧
    (∀ i y, i ≠ k → proc_table s !! i = Some y →
       (descendant (proc_table s) (pid x) i → proc_table s' !! i = Some (killed y)) ∧
       (¬ descendant (proc_table s) (pid x) i → proc_table s' !! i = Some y)).
Proof.
  intros Hwf Hk Hx Hpc Hsp. destruct (kill_rest s C M (pid x) Hwf) as (s1 & M1 & Hkill & Hwf1 & (Ecur & _ & Ekc & _) & Hkeep).
  unfold process_exit. rewrite Hk. destruct (Z.ltb_spec (Z.of_nat k) 0); [lia|]. rewrite Nat2Z.id, Hx.
  cbn [mbind option_bind]. rewrite Hkill. cbn [mbind option_bind]. psimpl. rewrite Ekc.
  destruct (Z.eqb_spec (cx_pc (kernel_context s)) 0); [done|]. destruct (Z.eqb_spec (cx_sp (kernel_context s)) 0); [done|].
  cbn [orb]. do 2 eexists. split; [reflexivity|].
  assert (proc_table s1 !! k = Some x) as Hx1 by (apply (proj2 Hkeep); [done|]; naive_solver).
  split; [apply save_context_ok, leave_ok; [exact Hwf1|congruence]|]. split; [done|]. split; [exact Ekc|]. split.
  - unfold exec_finished, switch_to_kernel. psimpl. rewrite !list_lookup_alter_eq, Hx1. done.
  - intros i y Hi Hy. unfold switch_to_kernel. psimpl. rewrite !list_lookup_alter_ne by done.
    split; intros Hd; [apply (proj1 Hkeep)|apply (proj2 Hkeep)]; try done; [split; [done|]|naive_solver]. rewrite Hk. lia.
Qed.

Lemma exit_ok s C M st : proc_wf s C M → ∃ s' r M', process_exit st s = Some (s', r) ∧ proc_wf s' C M'.
Proof.
  intros Hwf. unfold process_exit. destruct (pw_current _ _ _ Hwf) as [[Hc _]|(k & x & Hc & _ & Hx & _)]; rewrite Hc.
  { exists s, ExitNoProcess, M. done. }
  destruct (Z.ltb_spec (Z.of_nat k) 0); [lia|]. rewrite Nat2Z.id, Hx. cbn [mbind option_bind].
  destruct (kill_rest s C M (pid x) Hwf) as (s1 & M1 & -> & Hwf1 & (Ecur & _) & _). cbn [mbind option_bind].
  assert (current_pid s1 = Z.of_nat k) as Hc1 by congruence. pose proof (leave_ok s1 C M1 k st Hwf1 Hc1) as Hwf2.
  destruct (_ || _); do 3 eexists; (split; [reflexivity|]); [exact Hwf2|]. by apply save_context_ok.
Qed.

Lemma kill_cases s C M p :
  proc_wf s C M →
  ∃ s' r M', process_kill p s = Some (s', r) ∧ proc_wf s' C M' ∧
    match process_get p s with
    | Some slot =>
        if (0 <? p) && negb (Z.of_nat slot =? current_pid s) then
          r = 0 ∧ current_pid s' = current_pid s ∧
          kills (proc_table s) (proc_table s')
            (λ i, i = slot ∨ descendant (proc_table s) p i ∧ Z.of_nat i ≠ current_pid s)
        else r = -1 ∧ s' = s
    | None => r = -1 ∧ s' = s
    end.
Proof.
  intros Hwf. unfold process_kill. pose proof (process_get_spec p s) as Hg. rewrite Z.leb_antisym.
  destruct (0 <? p) eqn:E0; cbn [negb andb].
  2: { exists s, (-1), M. split; [done|]. split; [done|]. by destruct (process_get p s). }
  destruct (process_get p s) as [slot|]; [|by exists s, (-1), M].
  destruct Hg as (x & Hx & Hu & Hp). destruct (Z.eqb_spec (Z.of_nat slot) (current_pid s)) as [|Hne]; cbn [negb]; [by exists s, (-1), M|].
  destruct (kill_rest s C M p Hwf) as (s1 & M1 & -> & Hwf1 & (Ecur & _) & Hkeep). cbn [mbind option_bind].
  assert (proc_table s1 !! slot = Some x) as Hx1.
  { apply (proj2 Hkeep); [done|]. intros [Hd _]. destruct (descendant_pid s C M p slot x Hwf Hd Hx). lia. }
  rewrite Hx1. cbn [mbind option_bind].
  destruct (kill_one s1 C M1 (λ _ _, false) s1 slot x Hwf1) as (s2 & -> & Hafter); try done; [by apply after_kill_refl|].
  cbn [orb mbind option_bind] in *.
  destruct (after_kill_wf s1 C M1 (λ j _, (j =? slot)%nat) (update slot killed s2) Hwf1) as (M2 & Hwf2 & _); [|done|].
  { intros j y Hy E%Nat.eqb_eq. subst j. assert (y = x) as -> by congruence. split; [done|]. by rewrite Ecur. }
  exists (update slot killed s2), 0, M2. split; [done|]. split; [done|]. split; [done|].
  destruct Hafter as (h & M' & E & _). rewrite E. psimpl. split; [done|].
  assert (kills (proc_table s1) (imap (kill_if (λ j _, (j =? slot)%nat)) (proc_table s1)) (λ i, i = slot)) as [Ha Hb].
  { apply kills_imap. intros i y _. apply Nat.eqb_eq. }
  destruct Hkeep as [Hk1 Hk2]. split.
  - intros i y Hy HD. destruct (decide (i = slot)) as [->|Hi].
    + assert (y = x) as -> by congruence. by apply Ha.
    + apply Hb; [|done]. apply Hk1; naive_solver.
  - intros i y Hy HD. apply Hb; [|naive_solver]. apply Hk2; naive_solver.
Qed.

(** Process_kill ends a process and its descendants and nothing else, and
    returns 0; it refuses a pid that is not positive, that names no process or
    that names the caller, returning -1 with nothing changed.  In each case
    the table stays consistent. *)
Theorem process_kill_correct s C M p :
  proc_wf s C M →
  ∃ s' r M', process_kill p s = Some (s', r) ∧ proc_wf s' C M' ∧
    match process_get p s with
    | Some slot =>
        if (0 <? p) && negb (Z.of_nat slot =? current_pid s) then
          r = 0 ∧ current_pid s' = current_pid s ∧
          kills (proc_table s) (proc_table s')
            (λ i, i = slot ∨ descendant (proc_table s) p i ∧ Z.of_nat i ≠ current_pid s)
        else r = -1 ∧ s' = s
    | None => r = -1 ∧ s' = s
    end.
Proof. apply kill_cases. Qed.

(** ** Creation *)

Lemma wf_heap_change s C M h M' :
  proc_wf s C M → fs_wf (fs_with_heap h (c_fs (p_compat s))) C M' →
  (∀ i x b, proc_table s !! i = Some x → used x → stack_base x = Some b → M' !! b = M !! b) →
  proc_wf (with_heap h s) C M'.
Proof.
  intros [Hf [? ?] Hl Hn Hpid Huniq Hst Hsts Hr Hcur] Hfs Hkeep. split; try done.
  intros i x b Hx Hu Hb. destruct (Hst i x b Hx Hu Hb) as [HM Hfor]. split; [|done]. rewrite (Hkeep i x b); done.
Qed.

Lemma malloc_wf s C M size :
  proc_wf s C M → 0 ≤ size →
  ∃ h r, malloc size s = Some (with_heap h s, r) ∧ kh_region h = kh_region (proc_heap s) ∧
    match r with
    | Some b => M !! b = None ∧ foreign (c_fs (p_compat s)) b ∧ proc_wf (with_heap h s) C (<[b := size]> M)
    | None => proc_wf (with_heap h s) C M
    end.
Proof.
  intros Hwf Hs. destruct (malloc_ok _ C M size (pw_fs _ _ _ Hwf) Hs) as (h & r & E & Hr). exists h, r.
  unfold malloc, proc_heap. rewrite E. split; [done|].
  split; [exact (kh_alloc_region _ _ _ _ _ _ (wf_heap _ _ _ (pw_fs _ _ _ Hwf)) E)|]. destruct r as [b|].
  - destruct Hr as (_ & HM & Hfor & Hfs). split; [done|]. split; [done|]. apply (wf_heap_change s C M); [done..|].
    intros i x b' Hx Hu Hb. destruct (pw_stack _ _ _ Hwf i x b' Hx Hu Hb). apply lookup_insert_ne. congruence.
  - by apply (wf_heap_change s C M).
Qed.

Lemma free_wf s C M b n :
  proc_wf s C (<[b := n]> M) → M !! b = None → foreign (c_fs (p_compat s)) b →
  (∀ i x, proc_table s !! i = Some x → used x → stack_base x ≠ Some b) →
  ∃ h, free (Some b) s = Some (with_heap h s) ∧ proc_wf (with_heap h s) C M.
Proof.
  intros Hwf HM Hfor Hno. destruct (free_ok _ C _ b n (pw_fs _ _ _ Hwf)) as (h & E & Hfs); [apply lookup_insert_eq|done|].
  exists h. unfold free, proc_heap. rewrite E. split; [done|]. rewrite delete_insert_id in Hfs by done.
  apply (wf_heap_change s C (<[b := n]> M)); [done..|]. intros i x b' Hx Hu Hb. symmetry. apply lookup_insert_ne.
  intros ->. by apply (Hno i x Hx Hu).
Qed.

Lemma reserve_ok s C M slot :
  proc_wf s C M → next_pid s < INT_MAX → find_free_slot_unlocked s = Some slot →
  (slot < MAX_PROCESSES)%nat ∧ current_pid s ≠ Z.of_nat slot ∧
  (∃ x, proc_table s !! slot = Some x ∧ state x = PROC_STATE_FREE) ∧
  proc_wf (update slot (λ _, cleared PROC_STATE_BLOCKED (next_pid s)) (with_next_pid (next_pid s + 1) s)) C M.
Proof.
  intros Hwf Hmax Hfind. unfold find_free_slot_unlocked in Hfind. pose proof (find_slot_spec is_free 0 (proc_table s)) as Hf.
  rewrite Hfind in Hf. destruct Hf as (i & x & -> & Hx & Hfree & Hall). cbn [Nat.add] in *.
  apply bool_decide_eq_true in Hfree. pose proof (lookup_lt_Some _ _ _ Hx) as Hlt. rewrite (pw_len _ _ _ Hwf) in Hlt.
  assert (current_pid s ≠ Z.of_nat i) as Hne.
  { intros E. destruct (pw_current _ _ _ Hwf) as [[? _]|(k & y & Hk & _ & Hy & Hr)]; [lia|]. assert (k = i) as -> by lia.
    apply runnable_used in Hr. assert (y = x) as -> by congruence. done. }
  assert (Z.of_nat i < next_pid s) as Hpid.
  { destruct i as [|i]; [pose proof (pw_next _ _ _ Hwf); lia|].
    destruct (lookup_lt_is_Some_2 (proc_table s) i) as [y Hy]; [rewrite (pw_len _ _ _ Hwf); lia|].
    assert (used y) as Hu by (apply is_free_spec, (Hall i y); [lia|done]). pose proof (pw_pid _ _ _ Hwf i y Hy Hu). lia. }
  split; [done|]. split; [done|]. split; [by exists x|].
  set (c := cleared PROC_STATE_BLOCKED (next_pid s)). set (s1 := with_next_pid (next_pid s + 1) s).
  assert (∀ j y, proc_table (update i (λ _, c) s1) !! j = Some y →
            (j = i ∧ y = c) ∨ (j ≠ i ∧ proc_table s !! j = Some y)) as Hcase.
  { intros j y (z & Hz & ->)%lookup_update. destruct (decide (i = j)); [left; done|right; by split]. }
  destruct Hwf as [Hfs Hc Hl Hn Hp Huniq Hst Hsts Hr Hcur]. split; try done; cbn [next_pid update with_table s1 with_next_pid].
  - psimpl. by rewrite length_alter.
  - lia.
  - intros j y [[-> ->]|[Hj Hy]]%Hcase Hu; [cbn; lia|]. specialize (Hp j y Hy Hu). lia.
  - intros j k y z [[-> ->]|[Hj Hy]]%Hcase [[-> ->]|[Hk Hz]]%Hcase Huy Huz E; cbn in E; [done| | |by apply (Huniq j k y z)].
    + specialize (Hp k z Hz Huz). lia.
    + specialize (Hp j y Hy Huy). lia.
  - intros j y b [[-> ->]|[Hj Hy]]%Hcase Hu Hb; [done|]. by apply (Hst j y).
  - intros j k y z b [[-> ->]|[Hj Hy]]%Hcase [[-> ->]|[Hk Hz]]%Hcase Huy Huz Hb Hb'; try done. by apply (Hsts j k y z b).
  - intros j y [[-> ->]|[Hj Hy]]%Hcase Hrun; [done|]. by apply (Hr j y).
  - destruct Hcur as [?|(k & y & Hk & Hcp & Hy & Hry)]; [by left|]. right. exists k, y. psimpl. repeat (split; [done|]).
    split; [|done]. rewrite list_lookup_alter_ne; [done|]. congruence.
Qed.

(** Freeing a slot other than the current one. *)
Lemma release_ok s C M slot :
  proc_wf s C M → current_pid s ≠ Z.of_nat slot → proc_wf (release_reserved_slot_unlocked slot s) C M.
Proof.
  intros Hwf Hne. apply (wf_retable s C M); psimpl; try done.
  - unfold release_reserved_slot_unlocked. psimpl. rewrite length_alter. apply Hwf.
  - intros i y (x & Hx & ->)%lookup_update Hu. exists x. destruct (decide (slot = i)) as [->|]; [by destruct Hu|done].
  - intros i y (x & Hx & ->)%lookup_update Hu. destruct (decide (slot = i)) as [->|]; [done|]. by apply (pw_running _ _ _ Hwf i x).
  - destruct (pw_current _ _ _ Hwf) as [?|(k & y & Hk & Hcp & Hy & Hry)]; [by left|]. right. exists k, y.
    repeat (split; [done|]). split; [|done]. unfold release_reserved_slot_unlocked. psimpl. rewrite list_lookup_alter_ne; [done|]. congruence.
Qed.

(** Filling in a reserved slot. *)
Lemma occupy_ok s C M slot p y b s' :
  proc_wf s C M → proc_table s !! slot = Some (cleared PROC_STATE_BLOCKED p) → current_pid s ≠ Z.of_nat slot →
  next_pid s = p + 1 →
  M !! b = Some PROCESS_STACK_SIZE → foreign (c_fs (p_compat s)) b →
  (∀ i x, proc_table s !! i = Some x → used x → stack_base x ≠ Some b) →
  pid y = p → parent_pid y = current_pid s → state y = PROC_STATE_READY → stack_base y = Some b →
  p_compat s' = p_compat s → next_pid s' = next_pid s → current_pid s' = current_pid s →
  current_process s' = current_process s → proc_table s' = <[slot := y]> (proc_table s) →
  proc_wf s' C M.
Proof.
  intros Hwf Hslot Hne Hnext HM Hfor Hno Ep Epar Est Eb Ec En Ecur Ecp Et.
  assert (used (cleared PROC_STATE_BLOCKED p)) as Huc by done.
  pose proof (lookup_lt_Some _ _ _ Hslot) as Hlt.
  assert (∀ j z, proc_table s' !! j = Some z → (j = slot ∧ z = y) ∨ (j ≠ slot ∧ proc_table s !! j = Some z)) as Hcase.
  { intros j z Hz. rewrite Et in Hz. apply list_lookup_insert_Some in Hz as [(-> & -> & _)|[? ?]]; [by left|by right]. }
  assert (∀ k, current_pid s = Z.of_nat k → Z.of_nat k < p) as Hcurlt.
  { intros k Hk. destruct (pw_current _ _ _ Hwf) as [[? _]|(k' & z & Hk' & _ & Hz & Hrz)]; [lia|]. assert (k' = k) as -> by lia.
    apply runnable_used in Hrz. destruct (pw_pid _ _ _ Hwf k z Hz Hrz) as [? _]. destruct (pw_pid _ _ _ Hwf slot _ Hslot Huc) as [[? ?] _].
    cbn in *. assert (pid z ≠ p); [|lia]. intros E. assert (k = slot) by (apply (pw_uniq _ _ _ Hwf k slot z (cleared PROC_STATE_BLOCKED p)); done).
    congruence. }
  destruct Hwf as [Hfs Hc Hl Hn Hp Huniq Hst Hsts Hr Hcur]. split; rewrite ?Ec, ?En, ?Ecur, ?Ecp; try done.
  - by rewrite Et, length_insert.
  - intros j z [[-> ->]|[Hj Hz]]%Hcase Hu; [|by apply Hp]. destruct (Hp slot _ Hslot Huc) as [Hb _]. cbn in Hb.
    rewrite Ep, Epar. split; [done|]. destruct Hcur as [[-> _]|(k & z & Hk & _)]; [lia|]. rewrite Hk. by apply Hcurlt.
  - intros j k u v [[-> ->]|[Hj Hu]]%Hcase [[-> ->]|[Hk Hv]]%Hcase Huu Huv E; [done| | |by apply (Huniq j k u v)].
    + by apply (Huniq slot k (cleared PROC_STATE_BLOCKED p) v); try done; rewrite <- E.
    + by apply (Huniq j slot u (cleared PROC_STATE_BLOCKED p)); try done; rewrite E.
  - intros j z b' [[-> ->]|[Hj Hz]]%Hcase Hu Hb; [|by apply (Hst j z)]. assert (b' = b) as -> by congruence. done.
  - intros j k u v b' [[-> ->]|[Hj Hu]]%Hcase [[-> ->]|[Hk Hv]]%Hcase Huu Huv E E'; [done| | |by apply (Hsts j k u v b')].
    + exfalso. apply (Hno k v Hv Huv). congruence.
    + exfalso. apply (Hno j u Hu Huu). congruence.
  - intros j z [[-> ->]|[Hj Hz]]%Hcase Hrun; [congruence|]. by apply (Hr j z).
  - destruct Hcur as [?|(k & z & Hk & Hcp & Hz & Hrz)]; [by left|]. right. exists k, z. repeat (split; [done|]).
    split; [|done]. rewrite Et, list_lookup_insert_ne; [done|]. congruence.
Qed.

Definition created_proc (kapi wrapper p : Z) (path : list Z) (argc argv : Z) (info : elf_load_info) (b cur : Z) : process :=
  mk_proc p (take (Z.to_nat (PROCESS_NAME_MAX - 1)) path) PROC_STATE_READY (info_load_base info) (info_load_size info)
    (Some b) PROCESS_STACK_SIZE (info_entry info)
    (initial_context (Z.land (u64 (b + PROCESS_STACK_SIZE)) (Z.lnot 0xF)) wrapper (info_entry info) kapi argc argv) 0 cur.

(** Nothing but slot [slot], the memory and the allocators changed. *)
Definition elsewhere (slot : nat) s s' : Prop :=
  (∀ i, i ≠ slot → proc_table s' !! i = proc_table s !! i) ∧ current_pid s' = current_pid s ∧
  next_pid s' = next_pid s ∧ kernel_context s' = kernel_context s ∧ cpu s' = cpu s ∧
  node_used (p_compat s') = node_used (p_compat s) ∧ inodes (c_fs (p_compat s')) = inodes (c_fs (p_compat s)).

Lemma elsewhere_trans slot s1 s2 s3 : elsewhere slot s1 s2 → elsewhere slot s2 s3 → elsewhere slot s1 s3.
Proof.
  intros (Ht & ? & ? & ? & ? & ? & ?) (Ht' & ? & ? & ? & ? & ? & ?). split; [|repeat split; congruence].
  intros i Hi. by rewrite Ht', Ht.
Qed.

Lemma elsewhere_update slot f s : elsewhere slot s (update slot f s).
Proof. split; [|done]. intros i Hi. psimpl. by apply list_lookup_alter_ne. Qed.

Definition gave_up (slot : nat) s C M s' (r : Z) : Prop :=
  r = -1 ∧ elsewhere slot s s' ∧ proc_wf s' C M ∧ proc_table s' !! slot = Some (cleared PROC_STATE_FREE 0).

Lemma gave_up_intro slot s C M s' x :
  proc_wf s' C M → current_pid s' ≠ Z.of_nat slot → elsewhere slot s s' → proc_table s' !! slot = Some x →
  gave_up slot s C M (release_reserved_slot_unlocked slot s') (-1).
Proof.
  intros Hwf Hne He Hx. split; [done|]. split; [eapply elsewhere_trans; [exact He|apply elsewhere_update]|].
  split; [by apply release_ok|]. unfold release_reserved_slot_unlocked. psimpl. by rewrite list_lookup_alter_eq, Hx.
Qed.

Section Create.
Context (kapi wrapper : Z) (image : list (Z * Z)).

Lemma finish_create_ok s C M slot p path argc argv load_addr info :
  proc_wf s C M → proc_table s !! slot = Some (cleared PROC_STATE_BLOCKED p) → current_pid s ≠ Z.of_nat slot →
  next_pid s = p + 1 →
  ∃ s' r, finish_create kapi wrapper slot path argc argv load_addr info s = Some (s', r) ∧
    (gave_up slot s C M s' r ∨
     r = p ∧ elsewhere slot s s' ∧ p_mem s' = p_mem s ∧
     next_load_addr s' = ALIGN_64K (u64 (load_addr + info_load_size info + 0x10000)) ∧
     ∃ b, M !! b = None ∧ proc_wf s' C (<[b := PROCESS_STACK_SIZE]> M) ∧
          proc_table s' !! slot = Some (created_proc kapi wrapper p path argc argv info b (current_pid s))).
Proof.
  intros Hwf Hslot Hne Hnext. unfold finish_create. psimpl.
  set (s0 := with_next_load _ s).
  match goal with |- context [update slot ?g s0] => set (f := g) end.
  assert (proc_wf s0 C M) as Hwf0 by by destruct Hwf as [? [] ? ? ? ? ? ? ? ?].
  destruct (malloc_wf s0 C M PROCESS_STACK_SIZE Hwf0 ltac:(done)) as (h & r & Hm & _ & Hr).
  assert (malloc PROCESS_STACK_SIZE (update slot f s0) = Some (with_heap h (update slot f s0), r)) as ->.
  { unfold malloc in Hm |- *. change (proc_heap (update slot f s0)) with (proc_heap s0).
    destruct (kh_alloc _ _ _) as [[h' r']|]; cbn [mbind option_bind] in *; [|done]. by injection Hm as <- <-. }
  cbn [mbind option_bind]. assert (proc_table (update slot f s0) !! slot = Some (f (cleared PROC_STATE_BLOCKED p))) as Hf.
  { psimpl. by change (proc_table s0) with (proc_table s); rewrite list_lookup_alter_eq, Hslot. }
  destruct r as [b|].
  - destruct Hr as (HM & Hfor & Hwf1). psimpl. rewrite list_lookup_alter_eq.
    change (alter f slot (proc_table s0)) with (proc_table (update slot f s0)). rewrite Hf.
    cbn [fmap option_fmap option_map mbind option_bind pid]. do 2 eexists. split; [reflexivity|]. right. split; [done|].
    split; [|split; [done|split; [done|]]].
    { eapply elsewhere_trans; [|apply elsewhere_update]. split; [|done]. intros i Hi. psimpl. by apply list_lookup_alter_ne. }
    exists b. split; [done|]. split; [|psimpl; change (proc_table s0) with (proc_table s); by rewrite !list_lookup_alter_eq, Hslot].
    apply (occupy_ok (with_heap h s0) C _ slot p (created_proc kapi wrapper p path argc argv info b (current_pid s)) b); try done.
    + apply lookup_insert_eq.
    + intros i x Hx Hu Hb. destruct (pw_stack _ _ _ Hwf i x b Hx Hu Hb). congruence.
    + psimpl. change (proc_table s0) with (proc_table s). apply list_eq. intros i. destruct (decide (slot = i)) as [<-|Hi].
      * rewrite !list_lookup_alter_eq, Hslot, list_lookup_insert_eq by by eapply lookup_lt_Some. done.
      * by rewrite !list_lookup_alter_ne, list_lookup_insert_ne.
  - do 2 eexists. split; [reflexivity|]. left.
    assert (release_reserved_slot_unlocked slot (with_heap h (update slot f s0)) =
            release_reserved_slot_unlocked slot (with_heap h s0)) as ->.
    { transitivity (with_table (alter (λ _, cleared PROC_STATE_FREE 0) slot (alter f slot (proc_table s0))) (with_heap h s0)); [done|].
      by rewrite list_alter_alter_eq. }
    eapply gave_up_intro; [exact Hr|done|by split|exact Hslot].
Qed.

(** Where the next program goes. *)
Definition exec_addr (c : counters) s : Z := ALIGN_64K (u64 (next_load_addr s + snd (aslr_exec_offset c (p_aslr s)))).

(** The outcome of a successful creation: slot, memory, pid. *)
Definition created (slot : nat) s (C : Z → list Z) (M : gmap Z Z) s' (r p : Z) (path : list Z) (argc argv : Z)
    (m : mem) (info : elf_load_info) : Prop :=
  r = p ∧ elsewhere slot s s' ∧ p_mem s' = m ∧
  ∃ b, M !! b = None ∧ proc_wf s' C (<[b := PROCESS_STACK_SIZE]> M) ∧
       proc_table s' !! slot = Some (created_proc kapi wrapper p path argc argv info b (current_pid s)).

Lemma load_image_ok fuel c slot path argc argv s C M p buf data size n :
  proc_wf s C (<[buf := size]> M) → M !! buf = None → foreign (c_fs (p_compat s)) buf →
  proc_table s !! slot = Some (cleared PROC_STATE_BLOCKED p) → current_pid s ≠ Z.of_nat slot → next_pid s = p + 1 →
  (∀ i x, proc_table s !! i = Some x → used x → stack_base x ≠ Some buf) →
  elf_calc_size data size = Some n →
  (n ≠ 0 → ∃ mo, elf_load_at fuel data size (exec_addr c s) (p_mem s) = Some mo ∧
     image_apart (kernel_memory image s) (p_mem s) (fst mo) = true) →
  ∃ s' r, load_image kapi wrapper image fuel c slot path argc argv buf data size s = Some (s', r) ∧
    (gave_up slot s C M s' r ∨
     n ≠ 0 ∧ ∃ m info, elf_load_at fuel data size (exec_addr c s) (p_mem s) = Some (m, Some info) ∧
                       created slot s C M s' r p path argc argv m info).
Proof.
  intros Hwf HM Hfor Hslot Hne Hnext Hno Hsize Hload. unfold load_image. rewrite Hsize. cbn [mbind option_bind].
  destruct (Z.eqb_spec n 0) as [->|Hn].
  { destruct (free_wf s C M buf size Hwf HM Hfor Hno) as (h & -> & Hwf'). cbn [mbind option_bind].
    do 2 eexists. split; [reflexivity|]. left. by eapply gave_up_intro. }
  destruct (Hload Hn) as ([m o] & Ho & Hap). unfold exec_addr in *. destruct (aslr_exec_offset c (p_aslr s)) as [a off]. cbn [snd] in *.
  psimpl. rewrite Ho. cbn [mbind option_bind].
  change (image_apart (kernel_memory image s) (p_mem s) m = true) in Hap.
  change (kernel_memory image (with_aslr a s)) with (kernel_memory image s). rewrite Hap. cbn [negb].
  set (s1 := with_mem m (with_aslr a s)).
  assert (proc_wf s1 C (<[buf := size]> M)) as Hwf1 by by destruct Hwf as [? [] ? ? ? ? ? ? ? ?].
  destruct (free_wf s1 C M buf size Hwf1 HM Hfor Hno) as (h & -> & Hwf2). cbn [mbind option_bind].
  destruct o as [info|].
  2: { do 2 eexists. split; [reflexivity|]. left. by eapply gave_up_intro. }
  destruct (finish_create_ok (with_heap h s1) C M slot p path argc argv (ALIGN_64K (u64 (next_load_addr s + off))) info Hwf2 Hslot Hne Hnext)
    as (s' & r & E & Hout). exists s', r. split; [exact E|]. destruct Hout as [Hg|(-> & He & Hm & _ & b & Hb & Hwf3 & Ht)].
  - left. destruct Hg as (? & He & ? & ?). split; [done|]. split; [|done]. by eapply elsewhere_trans; [|exact He].
  - right. split; [done|]. exists m, info. split; [done|]. split; [done|]. split; [by eapply elsewhere_trans; [|exact He]|].
    split; [done|]. by exists b.
Qed.

Lemma wf_lookup s C M path cc node :
  proc_wf s C M → vfs_lookup path (p_compat s) = Some (cc, node) →
  proc_wf (with_compat cc s) C M ∧ match node with Some i => ∃ n, node_pool cc !! i = Some n ∧ 0 ≤ n_size n | None => True end.
Proof.
  intros Hwf E. destruct (vfs_lookup_any _ C M path cc node (pw_compat _ _ _ Hwf) (pw_fs _ _ _ Hwf) E) as (Hok & Hfs & Hn).
  split; [|done]. destruct Hwf as [? ? ? ? ? ? ? ? ? ?]. by split; psimpl; rewrite ?Hfs.
Qed.

Lemma read_image_ok fuel c slot path argc argv s C M p s' r :
  proc_wf s C M → proc_table s !! slot = Some (cleared PROC_STATE_BLOCKED p) → current_pid s ≠ Z.of_nat slot →
  next_pid s = p + 1 → read_image kapi wrapper image fuel c slot path argc argv s = Some (s', r) →
  ∃ cc, gave_up slot (with_compat cc s) C M s' r ∨
        ∃ m info, created slot (with_compat cc s) C M s' r p path argc argv m info.
Proof.
  intros Hwf Hslot Hne Hnext. unfold read_image.
  destruct (vfs_lookup path (p_compat s)) as [[cc node]|] eqn:El; cbn [mbind option_bind]; [|done].
  destruct (wf_lookup s C M path cc node Hwf El) as [Hwf1 Hnode]. set (s1 := with_compat cc s) in *.
  assert (∀ s'', proc_wf s'' C M → elsewhere slot s1 s'' → proc_table s'' !! slot = proc_table s !! slot →
            gave_up slot s1 C M (release_reserved_slot_unlocked slot s'') (-1)) as Hfail.
  { intros s'' Hwf'' He Ht. eapply gave_up_intro; [done| |done|by rewrite Ht]. destruct He as (_ & -> & _). done. }
  intros Hrun. exists cc. destruct node as [i|]; [|left; injection Hrun as <- <-; by apply Hfail].
  destruct Hnode as (nd & Hnd & Hpos). unfold vfs_is_dir in Hrun. rewrite Hnd in Hrun.
  cbn [fmap option_fmap option_map mbind option_bind] in Hrun.
  destruct (n_is_dir nd); [left; injection Hrun as <- <-; by apply Hfail|].
  destruct (n_size nd =? 0); [left; injection Hrun as <- <-; by apply Hfail|].
  destruct (malloc_wf s1 C M (n_size nd) Hwf1 Hpos) as (h & [buf|] & Hm & _ & Hr); rewrite Hm in Hrun; cbn [mbind option_bind] in Hrun;
    [|left; injection Hrun as <- <-; by apply Hfail]. destruct Hr as (HM & Hfor & Hwf2).
  assert (∀ j x, proc_table (with_heap h s1) !! j = Some x → used x → stack_base x ≠ Some buf) as Hno.
  { intros j x Hx Hu Hb. destruct (pw_stack _ _ _ Hwf j x buf Hx Hu Hb). congruence. }
  destruct (vfs_read_compat _ _ _ _) as [[bytes ret]|]; cbn [mbind option_bind] in Hrun; [|done].
  destruct (negb (ret =? i32 (n_size nd))).
  { destruct (free_wf (with_heap h s1) C M buf (n_size nd) Hwf2 HM Hfor Hno) as (h' & Hfr & Hwf3). rewrite Hfr in Hrun.
    cbn [mbind option_bind] in Hrun. left. injection Hrun as <- <-. by apply Hfail. }
  destruct (elf_calc_size bytes (n_size nd)) as [n|] eqn:En; [|unfold load_image in Hrun; by rewrite En in Hrun].
  destruct (load_image_ok fuel c slot path argc argv (with_heap h s1) C M p buf bytes (n_size nd) n) as (s2 & r2 & E & Hout); try done.
  { intros Hn0. unfold load_image in Hrun. rewrite En in Hrun. cbn [mbind option_bind] in Hrun. destruct (Z.eqb_spec n 0); [done|].
    unfold exec_addr. destruct (aslr_exec_offset c (p_aslr (with_heap h s1))) as [a off]. cbn [snd].
    destruct (elf_load_at _ _ _ _ _) as [[m o]|]; [|done]. cbn [mbind option_bind] in Hrun. exists (m, o). split; [done|].
    change (kernel_memory image (with_aslr a (with_heap h s1))) with (kernel_memory image (with_heap h s1)) in Hrun.
    change (p_mem (with_aslr a (with_heap h s1))) with (p_mem (with_heap h s1)) in Hrun. cbn [fst]. by destruct (image_apart _ _ _). }
  rewrite E in Hrun. injection Hrun as <- <-. destruct Hout as [Hg|(_ & m & info & _ & Hc)]; [left; exact Hg|right; exists m, info; exact Hc].
Qed.

Lemma create_cases fuel c path argc argv s C M s' r :
  proc_wf s C M → process_create kapi wrapper image fuel c path argc argv s = Some (s', r) →
  (∃ M', proc_wf s' C M') ∧ current_pid s' = current_pid s ∧
  ((r = -1 ∧ s' = s) ∨
   ∃ slot x, proc_table s !! slot = Some x ∧ state x = PROC_STATE_FREE ∧
     (∀ i, i ≠ slot → proc_table s' !! i = proc_table s !! i) ∧ next_pid s' = next_pid s + 1 ∧
     ((r = -1 ∧ proc_wf s' C M ∧ proc_table s' !! slot = Some (cleared PROC_STATE_FREE 0)) ∨
      (r = next_pid s ∧ ∃ b y, M !! b = None ∧ proc_wf s' C (<[b := PROCESS_STACK_SIZE]> M) ∧
         proc_table s' !! slot = Some y ∧ state y = PROC_STATE_READY ∧ pid y = r ∧ stack_base y = Some b ∧
         parent_pid y = current_pid s))).
Proof.
  intros Hwf. unfold process_create. destruct (find_free_slot_unlocked s) as [slot|] eqn:Ef.
  2: { intros [= <- <-]. split; [by exists M|]. split; [done|]. by left. }
  destruct (Z.leb_spec INT_MAX (next_pid s)) as [|Hmax]; [done|].
  destruct (reserve_ok s C M slot Hwf Hmax Ef) as (Hlt & Hne & (x & Hx & Hfree) & Hwf1).
  set (s1 := update slot (λ _, cleared PROC_STATE_BLOCKED (next_pid s)) (with_next_pid (next_pid s + 1) s)) in *.
  assert (proc_table s1 !! slot = Some (cleared PROC_STATE_BLOCKED (next_pid s))) as Hslot.
  { unfold s1. psimpl. by rewrite list_lookup_alter_eq, Hx. }
  assert (∀ i, i ≠ slot → proc_table s1 !! i = proc_table s !! i) as Hother.
  { intros i Hi. unfold s1. psimpl. by rewrite list_lookup_alter_ne. }
  intros Hrun. destruct (read_image_ok fuel c slot path argc argv s1 C M (next_pid s) s' r Hwf1 Hslot Hne eq_refl Hrun) as (cc & Hout).
  destruct Hout as [(-> & (Ht & Ecur & En & _) & Hwf' & Hs')|(m & info & -> & (Ht & Ecur & En & _) & _ & b & HM & Hwf' & Hs')].
  - split; [by exists M|]. split; [done|]. right. exists slot, x. split; [done|]. split; [done|].
    split; [intros i Hi; by rewrite Ht, <- Hother|]. split; [done|]. by left.
  - split; [by eexists|]. split; [done|]. right. exists slot, x. split; [done|]. split; [done|].
    split; [intros i Hi; by rewrite Ht, <- Hother|]. split; [done|]. right. split; [done|]. exists b. eexists.
    split; [done|]. split; [done|]. split; [exact Hs'|]. done.
Qed.

(** Process_create never corrupts the table or leaks heap memory on an
    error.  Whatever the path and the file, when it returns -1 the slot it had
    reserved is free again, every other slot is unchanged, and exactly the
    allocations made before the call remain; otherwise it returns the next
    pid, and the only new allocation is the stack of the new process, which is
    ready to run in a slot that was free.  The table stays consistent. *)
Theorem process_create_safe fuel c path argc argv s C M s' r :
  proc_wf s C M → process_create kapi wrapper image fuel c path argc argv s = Some (s', r) →
  (∃ M', proc_wf s' C M') ∧ current_pid s' = current_pid s ∧
  ((r = -1 ∧ s' = s) ∨
   ∃ slot x, proc_table s !! slot = Some x ∧ state x = PROC_STATE_FREE ∧
     (∀ i, i ≠ slot → proc_table s' !! i = proc_table s !! i) ∧ next_pid s' = next_pid s + 1 ∧
     ((r = -1 ∧ proc_wf s' C M ∧ proc_table s' !! slot = Some (cleared PROC_STATE_FREE 0)) ∨
      (r = next_pid s ∧ ∃ b y, M !! b = None ∧ proc_wf s' C (<[b := PROCESS_STACK_SIZE]> M) ∧
         proc_table s' !! slot = Some y ∧ state y = PROC_STATE_READY ∧ pid y = r ∧ stack_base y = Some b ∧
         parent_pid y = current_pid s))).
Proof. apply create_cases. Qed.

Lemma contents_length (fs : ramfs H) C M p x :
  fs_wf fs C M → inodes fs !! p = Some x → Z.of_nat (length (contents fs x)) = r_size x.
Proof.
  intros Hwf Hx. destruct (wf_inode _ _ _ Hwf p x Hx) as [_ Hok]. unfold data_ok in Hok. unfold contents.
  destruct (r_data x) as [d|]; [|destruct Hok as [-> _]; done]. destruct Hok as (l & Hl & Hll & Hsz & _). rewrite Hl. cbn [default mbind option_bind].
  rewrite length_take. cbn [id]. unfold id. lia.
Qed.

(** Reading a file that exists. *)
Lemma read_image_file fuel c slot ns argc argv s C M p data n mo :
  proc_wf s C M → proc_table s !! slot = Some (cleared PROC_STATE_BLOCKED p) → current_pid s ≠ Z.of_nat slot →
  next_pid s = p + 1 → Forall name_ok ns → ns ≠ [] → (0 < free_nodes (p_compat s))%nat →
  file_at (c_fs (p_compat s)) ns = Some (false, data) → data ≠ [] →
  elf_calc_size data (Z.of_nat (length data)) = Some n → n ≠ 0 →
  elf_load_at fuel data (Z.of_nat (length data)) (exec_addr c s) (p_mem s) = Some mo →
  image_apart (kernel_memory image s) (p_mem s) (fst mo) = true →
  ∃ s' r cc, read_image kapi wrapper image fuel c slot (path_of ns) argc argv s = Some (s', r) ∧
    (gave_up slot (with_compat cc s) C M s' r ∨
     ∃ m info, mo = (m, Some info) ∧ created slot (with_compat cc s) C M s' r p (path_of ns) argc argv m info).
Proof.
  intros Hwf Hslot Hne Hnext Hns Hnil Hfree Hfile Hdata Hsize Hn Hload Hap. unfold read_image.
  destruct (vfs_lookup_ok (p_compat s) C M ns (pw_compat _ _ _ Hwf) (pw_fs _ _ _ Hwf) Hns Hnil) as (cc & r & El & Hok & Hfs & Hr).
  destruct (wf_lookup s C M _ cc _ Hwf El) as [Hwf1 _].
  assert (∀ s'', proc_wf s'' C M → elsewhere slot (with_compat cc s) s'' → proc_table s'' !! slot = proc_table s !! slot →
            gave_up slot (with_compat cc s) C M (release_reserved_slot_unlocked slot s'') (-1)) as Hfail.
  { intros s'' Hwf'' He Ht. eapply gave_up_intro; [done| |done|by rewrite Ht]. destruct He as (_ & -> & _). done. }
  rewrite El. cbn [mbind option_bind]. destruct r as [i|]; [|do 2 eexists; exists cc; split; [reflexivity|]; left; by apply Hfail].
  destruct Hr as (Hi & _ & x & q & Hpool & Hx & Hf).
  rewrite Hfile in Hf. injection Hf as Hdir Hcont. unfold vfs_is_dir. rewrite Hpool. cbn [fmap option_fmap option_map mbind option_bind n_is_dir n_size].
  rewrite <- Hdir. pose proof (contents_length _ C M q x (pw_fs _ _ _ Hwf) Hx) as Hlen. rewrite <- Hcont in Hlen.
  assert (0 < r_size x) as Hpos by (destruct data; [done|cbn in Hlen; lia]).
  destruct (Z.eqb_spec (r_size x) 0) as [|_]; [lia|].
  destruct (malloc_wf (with_compat cc s) C M (r_size x) Hwf1) as (h & [buf|] & -> & Hreg & Hm); [lia| |];
    cbn [mbind option_bind]; [|do 2 eexists; exists cc; split; [reflexivity|]; left; by apply Hfail].
  destruct Hm as (HM & Hfor & Hwf2). pose proof (pw_fs _ _ _ Hwf2) as Hfs2.
  rewrite (vfs_read_ok (p_compat (with_heap h (with_compat cc s))) C _ i _ q x Hfs2 Hpool eq_refl eq_refl Hpos)
    by (cbn; by rewrite Hfs).
  cbn [mbind option_bind]. rewrite Z.eqb_refl. cbn [negb].
  assert (contents (c_fs (p_compat (with_heap h (with_compat cc s)))) x = data) as ->.
  { rewrite Hcont. unfold contents. cbn. by rewrite Hfs. }
  rewrite <- Hlen in *.
  destruct (load_image_ok fuel c slot (path_of ns) argc argv (with_heap h (with_compat cc s)) C M p buf data (Z.of_nat (length data)) n)
    as (s' & r & -> & Hout); try done.
  - intros j y Hy Hu Hb. destruct (pw_stack _ _ _ Hwf j y buf Hy Hu Hb). congruence.
  - intros _. exists mo. split; [exact Hload|].
    assert (kernel_memory image (with_heap h (with_compat cc s)) = kernel_memory image s) as ->; [|exact Hap].
    unfold kernel_memory. f_equal. unfold proc_heap in *. cbn in *. by rewrite Hreg, Hfs.
  - exists s', r, cc. split; [done|]. destruct Hout as [Hg|(_ & m & info & E & Hc)]; [left; exact Hg|right].
    exists m, info. split; [|exact Hc]. change (elf_load_at fuel data (Z.of_nat (length data)) (exec_addr c s) (p_mem s) = Some (m, Some info)) in E.
    congruence.
Qed.

(** Creating a process from a valid program works: with a free slot and a
    free node, and unless memory runs out, the new process gets the next pid
    and the first free slot, its image is what the ELF loader puts at the
    randomised load address, its entry, arguments and kernel interface are in
    the registers the entry wrapper reads, it starts on its own freshly
    allocated stack, and no other process changes. *)
Theorem process_create_loads fuel c ns argc argv s C M slot data n m info :
  proc_wf s C M → find_free_slot_unlocked s = Some slot → Forall name_ok ns → ns ≠ [] →
  (0 < free_nodes (p_compat s))%nat → file_at (c_fs (p_compat s)) ns = Some (false, data) → data ≠ [] →
  elf_calc_size data (Z.of_nat (length data)) = Some n → n ≠ 0 →
  elf_load_at fuel data (Z.of_nat (length data)) (exec_addr c s) (p_mem s) = Some (m, Some info) →
  image_apart (kernel_memory image s) (p_mem s) m = true → next_pid s < INT_MAX →
  ∃ s' r, process_create kapi wrapper image fuel c (path_of ns) argc argv s = Some (s', r) ∧
    (∀ i, i ≠ slot → proc_table s' !! i = proc_table s !! i) ∧ next_pid s' = next_pid s + 1 ∧
    (r = -1 ∧ proc_wf s' C M ∧ proc_table s' !! slot = Some (cleared PROC_STATE_FREE 0) ∨
     r = next_pid s ∧ p_mem s' = m ∧
     ∃ b, M !! b = None ∧ proc_wf s' C (<[b := PROCESS_STACK_SIZE]> M) ∧
       proc_table s' !! slot = Some (created_proc kapi wrapper r (path_of ns) argc argv info b (current_pid s))).
Proof.
  intros Hwf Hfind Hns Hnil Hfree Hfile Hdata Hsize Hn Hload Hap Hmax. unfold process_create. rewrite Hfind.
  destruct (Z.leb_spec INT_MAX (next_pid s)) as [|_]; [lia|].
  destruct (reserve_ok s C M slot Hwf Hmax Hfind) as (Hlt & Hne & (x & Hx & _) & Hwf1).
  set (s1 := update slot (λ _, cleared PROC_STATE_BLOCKED (next_pid s)) (with_next_pid (next_pid s + 1) s)) in *.
  assert (proc_table s1 !! slot = Some (cleared PROC_STATE_BLOCKED (next_pid s))) as Hslot.
  { unfold s1. psimpl. by rewrite list_lookup_alter_eq, Hx. }
  assert (∀ i, i ≠ slot → proc_table s1 !! i = proc_table s !! i) as Hother.
  { intros i Hi. unfold s1. psimpl. by rewrite list_lookup_alter_ne. }
  destruct (read_image_file fuel c slot ns argc argv s1 C M (next_pid s) data n (m, Some info) Hwf1 Hslot Hne eq_refl Hns Hnil
              Hfree Hfile Hdata Hsize Hn Hload Hap) as (s' & r & cc & -> & Hout).
  exists s', r. split; [done|].
  destruct Hout as [(-> & (Ht & _ & En & _) & Hwf' & Hs')|(m' & info' & E & -> & (Ht & _ & En & _) & Hm & b & HM & Hwf' & Hs')].
  - split; [intros i Hi; by rewrite Ht, <- Hother|]. split; [done|]. by left.
  - injection E as <- <-. split; [intros i Hi; by rewrite Ht, <- Hother|]. split; [done|]. right. split; [done|]. split; [done|].
    by exists b.
Qed.

(** ** All operations together *)

Inductive proc_op :=
| OpCreate (c : counters) (path : list Z) (argc argv : Z)
| OpStart (p : Z) | OpExit (status : Z) | OpYield | OpSchedule | OpIrq | OpPreempt | OpSlice | OpKill (p : Z).

Definition proc_step (fuel : nat) (op : proc_op) s : option (procs H) :=
  match op with
  | OpCreate c path argc argv => fst <$> process_create kapi wrapper image fuel c path argc argv s
  | OpStart p => Some (fst (process_start p s))
  | OpExit status => fst <$> process_exit status s
  | OpYield => process_yield s
  | OpSchedule => process_schedule s
  | OpIrq => Some (process_schedule_from_irq s)
  | OpPreempt => process_preempt_from_irq s
  | OpSlice => fst <$> process_run_kernel_slice s
  | OpKill p => fst <$> process_kill p s
  end.

Fixpoint proc_run (fuel : nat) (ops : list proc_op) s : option (procs H) :=
  match ops with
  | [] => Some s
  | op :: ops => s ← proc_step fuel op s; proc_run fuel ops s
  end.

Definition creates (op : proc_op) : Prop := match op with OpCreate _ _ _ _ => True | _ => False end.

Lemma kill_wf s C M p : proc_wf s C M → ∃ s' r M', process_kill p s = Some (s', r) ∧ proc_wf s' C M'.
Proof. intros Hwf. destruct (kill_cases s C M p Hwf) as (s' & r & M' & ? & ? & _). eauto. Qed.

Lemma step_total fuel op s C M : proc_wf s C M → ¬ creates op → ∃ s' M', proc_step fuel op s = Some s' ∧ proc_wf s' C M'.
Proof.
  intros Hwf Hop. destruct op as [c path argc argv|p|st| | | | | |p]; cbn [proc_step]; [done|..].
  - exists (fst (process_start p s)), M. split; [done|]. by apply start_ok.
  - destruct (exit_ok s C M st Hwf) as (s' & r & M' & -> & ?). by exists s', M'.
  - destruct (yield_ok s C M Hwf) as (s' & -> & ?). by exists s', M.
  - destruct (schedule_wf s C M Hwf) as (s' & -> & ?). by exists s', M.
  - exists (process_schedule_from_irq s), M. split; [done|]. by apply irq_ok.
  - destruct (preempt_ok s C M Hwf) as (s' & -> & ?). by exists s', M.
  - destruct (kernel_slice_ok s C M Hwf) as (s' & r & -> & ?). by exists s', M.
  - destruct (kill_wf s C M p Hwf) as (s' & r & M' & -> & ?). by exists s', M'.
Qed.

Lemma step_wf fuel op s C M s' : proc_wf s C M → proc_step fuel op s = Some s' → ∃ M', proc_wf s' C M'.
Proof.
  intros Hwf Hs. destruct op as [c path argc argv|p|st| | | | | |p].
  1: { cbn in Hs. destruct (process_create _ _ _ _ _ _ _ _) as [[t r]|] eqn:E; [|done]. injection Hs as <-.
       by destruct (create_cases _ _ _ _ _ _ _ _ _ _ Hwf E) as [? _]. }
  all: match type of Hs with proc_step _ ?op _ = _ => destruct (step_total fuel op s C M Hwf) as (t & M' & E & ?); [by intros []|] end.
  all: exists M'; rewrite E in Hs; injection Hs as <-; done.
Qed.

Lemma run_wf fuel ops s C M s' : proc_wf s C M → proc_run fuel ops s = Some s' → ∃ M', proc_wf s' C M'.
Proof.
  revert s M. induction ops as [|op ops IH]; intros s M Hwf; cbn [proc_run]; [intros [= <-]; eauto|].
  destruct (proc_step fuel op s) as [t|] eqn:E; cbn [mbind option_bind]; [|done]. intros Hr.
  destruct (step_wf fuel op s C M t Hwf E) as [M' Hwf']. by apply (IH t M').
Qed.

Lemma init_ok s C M :
  fs_wf (c_fs (p_compat s)) C M → compat_ok (p_compat s) → length (proc_table s) = MAX_PROCESSES →
  proc_wf (process_init s) C M.
Proof.
  intros Hfs Hc Hl.
  assert (∀ i x, proc_table (process_init s) !! i = Some x → state x = PROC_STATE_FREE) as Hfree.
  { intros i x Hx. cbn in Hx. rewrite list_lookup_fmap in Hx. destruct (proc_table s !! i); [|done]. by injection Hx as <-. }
  split; try done; unfold used.
  - cbn. by rewrite length_fmap.
  - intros i x Hx []. by eapply Hfree.
  - intros i j x y Hx _ []. by eapply Hfree.
  - intros i x b Hx []. by eapply Hfree.
  - intros i j x y b Hx _ []. by eapply Hfree.
  - intros i x Hx E. rewrite (Hfree i x Hx) in E. done.
  - by left.
Qed.

End Create.
End Invariant.

(** ** A concrete kernel with three processes

    The program is started by the kernel in slot 0; it starts a second one
    (slot 1), and that one a third (slot 2). *)

(** The kernel image of the ARM64 build; the heap follows it. *)
Definition demo_image : list (Z * Z) := [(0x40200000, HEAP_BASE)].
Definition demo_counters : counters := mk_counters 1 2 3 4.
Definition demo_exec_fs : ramfs Kmalloc.heap :=
  fst (default (demo_fs0, 0) (ramfs_create_file_bytes (path_of [demo_name]) 0x1ED (Some demo_elf) demo_fs0)).
Definition demo_kernel_ctx : cpu_context := mk_ctx (replicate 31 7) 0x5f000000 0x40001000 0x3c5.
Definition demo_raw : procs Kmalloc.heap :=
  mk_procs (replicate MAX_PROCESSES empty_proc) 0 None 0 0 zero_ctx 0 0 demo_kernel_ctx (compat_init demo_exec_fs) ∅
    (mk_aslr 5 true).
Definition demo_boot : procs Kmalloc.heap := process_init demo_raw.
Definition demo_create : proc_op := OpCreate demo_counters (path_of [demo_name]) 1 0x1000.
Definition demo_ops : list proc_op := [demo_create; OpSchedule; demo_create; OpYield; demo_create].
Definition demo_three : procs Kmalloc.heap := default demo_boot (proc_run 0x2000 0x3000 demo_image 0 demo_ops demo_boot).

Lemma demo_exec_wf : ∃ C M, fs_wf demo_exec_fs C M.
Proof.
  destruct demo_fs0_wf as [M Hwf].
  destruct (create_file_ok demo_fs0 (λ _, []) M [] demo_name 0x1ED (Some demo_elf) [] Hwf)
    as (s' & ret & E & (C' & M' & Hwf') & _).
  - constructor.
  - exact demo_name_ok.
  - done.
  - done.
  - vm_compute. reflexivity.
  - vm_compute. reflexivity.
  - exists C', M'. change ([] ++ [demo_name]) with [demo_name] in E.
    assert (ramfs_create_file_bytes (path_of [demo_name]) 0x1ED (Some demo_elf) demo_fs0 =
            ramfs_create_file (path_of [demo_name]) 0x1ED (Some demo_elf) demo_fs0) as Eq by (vm_compute; reflexivity).
    unfold demo_exec_fs. rewrite Eq, E. exact Hwf'.
Qed.

Lemma compat_init_ok {H} `{!KernelHeap H} (f : ramfs H) : compat_ok (compat_init f).
Proof. split; apply length_replicate. Qed.

Lemma demo_boot_wf : ∃ C M, proc_wf demo_boot C M.
Proof.
  destruct demo_exec_wf as (C & M & Hwf). exists C, M. apply init_ok; [exact Hwf|apply compat_init_ok|apply length_replicate].
Qed.

Lemma demo_three_runs : proc_run 0x2000 0x3000 demo_image 0 demo_ops demo_boot = Some demo_three.
Proof.
  assert (bool_decide (is_Some (proc_run 0x2000 0x3000 demo_image 0 demo_ops demo_boot)) = true) as E by (vm_compute; reflexivity).
  apply bool_decide_eq_true in E as [t Ht]. unfold demo_three. by rewrite Ht.
Qed.

Lemma demo_three_wf : ∃ C M, proc_wf demo_three C M.
Proof.
  destruct demo_boot_wf as (C & M & Hwf). destruct (run_wf _ _ _ _ _ _ C M _ Hwf demo_three_runs) as [M' ?]. eauto.
Qed.

Definition summary (s : procs Kmalloc.heap) : list (Z * Z * Z) :=
  (λ x, (pid x, state_int (state x), parent_pid x)) <$> take 4 (proc_table s).

Lemma demo_three_summary :
  summary demo_three = [(1, 1, -1); (2, 2, 0); (3, 1, 1); (0, 0, 0)] ∧ current_pid demo_three = 1.
Proof. vm_compute. done. Qed.

Lemma lookup_of (s : procs Kmalloc.heap) i (P : process → bool) :
  match proc_table s !! i with Some x => P x | None => false end = true → ∃ x, proc_table s !! i = Some x ∧ P x = true.
Proof. destruct (proc_table s !! i) as [x|]; [by exists x|done]. Qed.

(** Slot 2 of the demo holds a child of pid 1, as the table records it. *)
Lemma demo_slot2 : ∃ x, proc_table demo_three !! 2%nat = Some x ∧ child 1 x.
Proof.
  destruct (lookup_of demo_three 2 (λ x, bool_decide (child 1 x))) as (x & Hx & Hc); [vm_compute; reflexivity|].
  exists x. split; [exact Hx|]. by apply bool_decide_eq_true in Hc.
Qed.

Lemma demo_current : current_pid demo_three = 1.
Proof. vm_compute. reflexivity. Qed.

Lemma kill_children_correct_witness :
  ∃ s' x, kill_children 1 demo_three = Some s' ∧ proc_table s' !! 2%nat = Some (killed x).
Proof.
  destruct demo_three_wf as (C & M & Hwf). destruct demo_slot2 as (x & Hx & Hc).
  destruct (kill_children_correct demo_three C M 1 Hwf) as (s' & M' & E & _ & _ & Hk & _).
  destruct (Hk 2%nat x Hx) as [Ht _].
  - exact (desc_child _ _ _ _ Hx Hc).
  - rewrite demo_current. discriminate.
  - exists s', x. split; [exact E|exact Ht].
Defined.

Lemma waiting_of (s : procs Kmalloc.heap) j :
  match proc_table s !! j with
  | Some x => is_ready x && has_context x && negb (current_pid s =? Z.of_nat j)
  | None => false
  end = true → waiting j s.
Proof.
  destruct (proc_table s !! j) as [x|] eqn:E; [|done]. intros [[Hr Hc]%andb_true_iff Hn]%andb_true_iff.
  exists x. split; [done|]. split; [by apply bool_decide_eq_true in Hr|]. split; [done|]. by apply negb_true_iff, Z.eqb_neq in Hn.
Qed.

Lemma demo_waiting : waiting 0 demo_three.
Proof. apply waiting_of. vm_compute. reflexivity. Qed.

(** In the demo, slot 0 is passed over once: the next turn is slot 2's. *)
Lemma ready_process_runs_witness : ∃ s n, passed_over 0 n s ∧ (0 < n)%nat ∧ (n < MAX_PROCESSES)%nat.
Proof.
  destruct demo_three_wf as (C & M & Hwf). pose proof (proj1 (ready_process_runs (H := Kmalloc.heap) 0)) as Hbound.
  destruct (process_yield demo_three) as [s'|] eqn:E.
  - assert (current_pid s' = 2) as Hc.
    { assert (current_pid <$> process_yield demo_three = Some 2) as E2 by (vm_compute; reflexivity).
      rewrite E in E2. exact (Some_inj _ _ E2). }
    assert (passed_over 0 1 s') as Hp.
    { apply (po_turn 0 0 demo_three demo_three C M s'); [constructor|reflexivity|exact Hwf|exact demo_waiting|by apply turn_yield|].
      rewrite Hc. discriminate. }
    exists s', 1%nat. split; [exact Hp|]. split; [lia|]. exact (Hbound 1%nat s' Hp).
  - exfalso. assert (current_pid <$> process_yield demo_three = Some 2) as E2 by (vm_compute; reflexivity).
    rewrite E in E2. discriminate E2.
Defined.

Lemma process_exit_correct_witness :
  ∃ s', process_exit 42 demo_three = Some (s', ExitSwitched) ∧ exec_finished 1 s' = Some (Some 42).
Proof.
  destruct demo_three_wf as (C & M & Hwf).
  destruct (lookup_of demo_three 1 (λ _, true)) as (x & Hx & _); [vm_compute; reflexivity|].
  destruct (process_exit_correct demo_three C M 42 1%nat x Hwf) as (s' & M' & E & _ & _ & _ & Hf & _).
  - exact demo_current.
  - exact Hx.
  - assert ((cx_pc (kernel_context demo_three) =? 0) = false) as Hz by (vm_compute; reflexivity). by apply Z.eqb_neq.
  - assert ((cx_sp (kernel_context demo_three) =? 0) = false) as Hz by (vm_compute; reflexivity). by apply Z.eqb_neq.
  - exists s'. split; [exact E|exact Hf].
Defined.

Lemma process_kill_correct_witness :
  ∃ s' x, process_kill 3 demo_three = Some (s', 0) ∧ proc_table s' !! 2%nat = Some (killed x).
Proof.
  destruct demo_three_wf as (C & M & Hwf).
  destruct (process_kill_correct demo_three C M 3 Hwf) as (s' & r & M' & E & _ & Hcase).
  assert (process_get 3 demo_three = Some 2%nat) as Hg by (vm_compute; reflexivity). rewrite Hg, demo_current in Hcase.
  destruct Hcase as (Hr & _ & [Hk _]). destruct demo_slot2 as (x & Hx & _). exists s', x. split.
  - rewrite E, Hr. reflexivity.
  - apply (Hk 2%nat x Hx). left. reflexivity.
Defined.

Lemma process_create_safe_witness :
  ∃ s' r, process_create 0x2000 0x3000 demo_image 0 demo_counters (path_of [demo_name]) 1 0x1000 demo_boot = Some (s', r) ∧ r = 1 ∧
    ∃ C M, proc_wf s' C M.
Proof.
  destruct demo_boot_wf as (C & M & Hwf).
  assert (snd <$> process_create 0x2000 0x3000 demo_image 0 demo_counters (path_of [demo_name]) 1 0x1000 demo_boot = Some 1) as E2
    by (vm_compute; reflexivity).
  destruct (process_create 0x2000 0x3000 demo_image 0 demo_counters (path_of [demo_name]) 1 0x1000 demo_boot) as [[s' r]|] eqn:E;
    [|discriminate E2].
  destruct (process_create_safe 0x2000 0x3000 demo_image 0 demo_counters (path_of [demo_name]) 1 0x1000 demo_boot C M s' r Hwf E) as [[M' Hwf'] _].
  exists s', r. split; [reflexivity|]. split; [exact (Some_inj _ _ E2)|]. exists C, M'. exact Hwf'.
Defined.

Lemma process_create_loads_witness :
  ∃ s' r, process_create 0x2000 0x3000 demo_image 0 demo_counters (path_of [demo_name]) 1 0x1000 demo_boot = Some (s', r) ∧
    next_pid s' = 2.
Proof.
  destruct demo_boot_wf as (C & M & Hwf).
  destruct (elf_load_at 0 demo_elf (Z.of_nat (length demo_elf)) (exec_addr demo_counters demo_boot) (p_mem demo_boot))
    as [[m [info|]]|] eqn:El.
  2, 3: exfalso; assert (match elf_load_at 0 demo_elf (Z.of_nat (length demo_elf)) (exec_addr demo_counters demo_boot) (p_mem demo_boot)
           with Some (_, Some _) => true | _ => false end = true) as E2 by (vm_compute; reflexivity); rewrite El in E2; discriminate E2.
  destruct (process_create_loads 0x2000 0x3000 demo_image 0 demo_counters [demo_name] 1 0x1000 demo_boot C M 0%nat demo_elf 8 m info Hwf)
    as (s' & r & E & _ & Hn & _).
  - vm_compute. reflexivity.
  - exact demo_names_ok.
  - discriminate.
  - vm_compute. lia.
  - vm_compute. reflexivity.
  - discriminate.
  - vm_compute. reflexivity.
  - discriminate.
  - exact El.
  - assert (match elf_load_at 0 demo_elf (Z.of_nat (length demo_elf)) (exec_addr demo_counters demo_boot) (p_mem demo_boot)
       with Some (m', _) => image_apart (kernel_memory demo_image demo_boot) (p_mem demo_boot) m' | None => false end = true) as E2
      by (vm_compute; reflexivity). rewrite El in E2. exact E2.
  - vm_compute. reflexivity.
  - exists s', r. split; [exact E|]. rewrite Hn. vm_compute. reflexivity.
Defined.


(** ** What the model shows of the code *)

(** The parent of a process is recorded as a slot number, but kill_children
    takes a pid: killing pid 1 (slot 0) ends pid 3, a child of slot 1, and
    leaves the real child of slot 0, pid 2, alive. *)
Lemma kill_takes_wrong_children :
  ((λ r, (summary (fst r), snd r)) <$> process_kill 1 demo_three) =
  Some ([(0, 0, -1); (2, 2, 0); (0, 0, 1); (0, 0, 0)], 0).
Proof. vm_compute. reflexivity. Qed.

(** No process is ever killed as the child of the process that created it:
    the pid of the creator is not its slot number. *)
Lemma own_child_is_not_child {H} `{!KernelHeap H} (s : procs H) C M i j x y :
  proc_wf s C M → proc_table s !! i = Some x → used x → proc_table s !! j = Some y → parent_pid y = Z.of_nat i →
  ¬ child (pid x) y.
Proof. intros Hwf Hx Hu Hy Hp [_ E]. destruct (pw_pid _ _ _ Hwf i x Hx Hu) as [? _]. lia. Qed.

(** process_create never closes the node it opened: after 32 creations the
    pool is empty and every further lookup fails, as in the demo each of the
    three creations has taken one node. *)
Lemma create_leaks_nodes : free_nodes (p_compat demo_boot) = 32%nat ∧ free_nodes (p_compat demo_three) = 29%nat.
Proof. vm_compute. done. Qed.

(** An exiting process keeps its stack allocated; the next process in the slot
    forgets it. *)
Lemma exit_leaks_stack :
  (r ← process_exit 0 demo_three; x ← proc_table (fst r) !! 1%nat;
   Some (bool_decide (state x = PROC_STATE_FREE), bool_decide (stack_base x = None))) = Some (true, false).
Proof. vm_compute. reflexivity. Qed.

(** PROGRAM_LOAD_BASE lies in the kernel heap of the ARM64 build, which is
    [0x42000000, 0x4A000000), although the comment says that programs load
    after the heap.  With a small random offset a position-independent program
    is copied over the heap, here to 0x44050000. *)
Definition demo_pie_elf : list Z := demo_ehdr ET_DYN 64 1 ++ demo_phdr PT_LOAD 120 0 4 8 ++ [1; 2; 3; 4].
Definition demo_pie_boot : procs Kmalloc.heap :=
  process_init (mk_procs (replicate MAX_PROCESSES empty_proc) 0 None 0 0 zero_ctx 0 0 demo_kernel_ctx
    (compat_init (fst (default (demo_fs0, 0) (ramfs_create_file_bytes (path_of [demo_name]) 0x1ED (Some demo_pie_elf) demo_fs0)))) ∅
    (mk_aslr 6990 true)).

Lemma program_loaded_over_heap :
  kh_region (proc_heap demo_pie_boot) = (0x42000000, 0x4A000000) ∧ exec_addr demo_counters demo_pie_boot = 0x44050000 ∧
  (r ← elf_load_at 0 demo_pie_elf 124 0x44050000 ∅; fst r !! 0x44050002) = Some 3 ∧
  process_create 0x2000 0x3000 demo_image 0 demo_counters (path_of [demo_name]) 1 0x1000 demo_pie_boot = None.
Proof. vm_compute. done. Qed.
