(* ===== verification/Socket.v ===== *)
(** * kernel/net/socket.c: byte order and the socket table

    A [struct socket *] is the address the heap returned; the table of 256
    descriptors holds addresses or NULL, and [socks] maps the addresses of the
    live sockets to their contents.  A [struct sockaddr_storage] is its 128
    bytes; the caller's address is the list of the bytes behind its pointer.
    [None] is an access outside an object. *)

From Stdlib Require Import ZifyNat.
From S2P Require Import Prelude KHeap Kmalloc.

(** ** Byte order *)

Definition htons (hostshort : Z) : Z :=
  Z.lor (Z.land (Z.shiftr hostshort 8) 0xFF) (Z.shiftl (Z.land hostshort 0xFF) 8).
Definition ntohs (netshort : Z) : Z := htons netshort.

Definition htonl (hostlong : Z) : Z :=
  u32 (Z.lor (Z.lor (Z.lor (Z.land (Z.shiftr hostlong 24) 0xFF) (Z.land (Z.shiftr hostlong 8) 0xFF00))
         (Z.shiftl (Z.land hostlong 0xFF00) 8)) (Z.shiftl (Z.land hostlong 0xFF) 24)).
Definition ntohl (netlong : Z) : Z := htonl netlong.

(** ** Sockets *)

Definition MAX_SOCKETS : nat := 256.
Definition AF_INET : Z := 2.
Definition AF_INET6 : Z := 10.
Definition SOCK_STREAM : Z := 1.
Definition SOCK_DGRAM : Z := 2.
Definition SOCK_RAW : Z := 3.
Definition SS_UNCONNECTED : Z := 1.
Definition SS_CONNECTED : Z := 3.
Definition EBADF : Z := 9.
Definition EAGAIN : Z := 11.
Definition ENOMEM : Z := 12.
Definition EINVAL : Z := 22.
Definition EMFILE : Z := 24.
Definition ESOCKTNOSUPPORT : Z := 94.
Definition EOPNOTSUPP : Z := 95.
Definition EAFNOSUPPORT : Z := 97.
Definition ENOTCONN : Z := 107.
Definition sizeof_sockaddr : Z := 16.
Definition sizeof_storage : nat := 128.
Definition sizeof_socket : Z := 280.

Record socket := mk_socket {
  so_type : Z;
  so_protocol : Z;
  so_state : Z;
  local_addr : list Z;
  remote_addr : list Z
}.

Record sockets (H : Type) := mk_sockets {
  socket_table : list (option Z);
  next_sockfd : Z;
  socks : gmap Z socket;
  so_heap : H
}.
Arguments mk_sockets {H}.
Arguments socket_table {H}.
Arguments next_sockfd {H}.
Arguments socks {H}.
Arguments so_heap {H}.

Section Ops.
Context {H : Type} `{!KernelHeap H}.
Implicit Types s : sockets H.

Definition net_init s : sockets H := mk_sockets (replicate MAX_SOCKETS None) (next_sockfd s) (socks s) (so_heap s).

(** The first free descriptor in [fd], [fd + 1], ... ([n] of them, wrapping). *)
Fixpoint find_fd (n : nat) (i : Z) s : option Z :=
  match n with
  | O => None
  | S n' =>
      let fd := (next_sockfd s + i) `mod` Z.of_nat MAX_SOCKETS in
      match socket_table s !! Z.to_nat fd with
      | Some None => Some fd
      | _ => find_fd n' (i + 1) s
      end
  end.

Definition alloc_sockfd s : sockets H * Z :=
  match find_fd MAX_SOCKETS 0 s with
  | Some fd => (mk_sockets (socket_table s) (fd + 1) (socks s) (so_heap s), fd)
  | None => (s, - EMFILE)
  end.

(** The zeroed storage with the family in its first two bytes. *)
Definition storage_of (family : Z) : list Z := [family `mod` 256; family / 256] ++ replicate (sizeof_storage - 2) 0.

Definition socket_create (family type protocol : Z) s : option (sockets H * Z) :=
  if negb (family =? AF_INET) && negb (family =? AF_INET6) then Some (s, - EAFNOSUPPORT)
  else if negb (type =? SOCK_STREAM) && negb (type =? SOCK_DGRAM) && negb (type =? SOCK_RAW) then
    Some (s, - ESOCKTNOSUPPORT)
  else
    let '(s, fd) := alloc_sockfd s in
    if fd <? 0 then Some (s, fd)
    else
      r ← kh_alloc sizeof_socket GFP_ZERO (so_heap s);
      match r with
      | (h, None) => Some (mk_sockets (socket_table s) (next_sockfd s) (socks s) h, - ENOMEM)
      | (h, Some p) =>
          let x := mk_socket type protocol SS_UNCONNECTED (storage_of family) (storage_of family) in
          Some (mk_sockets (<[Z.to_nat fd := Some p]> (socket_table s)) (next_sockfd s) (<[p := x]> (socks s)) h, fd)
      end.

(** [sockfd < 0 || sockfd >= MAX_SOCKETS || !socket_table[sockfd]] *)
Definition get_socket (sockfd : Z) s : option Z :=
  if (sockfd <? 0) || (Z.of_nat MAX_SOCKETS <=? sockfd) then None
  else match socket_table s !! Z.to_nat sockfd with Some (Some p) => Some p | _ => None end.

(** The first [min(addrlen, 128)] bytes of the storage replaced. *)
Definition copy_addr (addr : list Z) (addrlen : Z) (dst : list Z) : option (list Z) :=
  let n := Z.to_nat (Z.min addrlen (Z.of_nat sizeof_storage)) in
  if (n <=? length addr)%nat then Some (take n addr ++ drop n dst) else None.

Definition update_socket (p : Z) (f : socket → option socket) s : option (sockets H) :=
  x ← socks s !! p;
  y ← f x;
  Some (mk_sockets (socket_table s) (next_sockfd s) (<[p := y]> (socks s)) (so_heap s)).

Definition socket_bind (sockfd : Z) (addr : option (list Z)) (addrlen : Z) s : option (sockets H * Z) :=
  match get_socket sockfd s with
  | None => Some (s, - EBADF)
  | Some p =>
      match addr with
      | None => Some (s, - EINVAL)
      | Some a =>
          if addrlen <? sizeof_sockaddr then Some (s, - EINVAL)
          else
            s ← update_socket p (λ x, l ← copy_addr a addrlen (local_addr x);
                                 Some (mk_socket (so_type x) (so_protocol x) (so_state x) l (remote_addr x))) s;
            Some (s, 0)
      end
  end.

Definition socket_listen (sockfd backlog : Z) s : option (sockets H * Z) :=
  match get_socket sockfd s with
  | None => Some (s, - EBADF)
  | Some p =>
      x ← socks s !! p;
      if negb (so_type x =? SOCK_STREAM) then Some (s, - EOPNOTSUPP)
      else
        s ← update_socket p (λ x, Some (mk_socket (so_type x) (so_protocol x) SS_UNCONNECTED (local_addr x) (remote_addr x))) s;
        Some (s, 0)
  end.

Definition socket_accept (sockfd : Z) s : Z := match get_socket sockfd s with None => - EBADF | Some _ => - EAGAIN end.

Definition socket_connect (sockfd : Z) (addr : option (list Z)) (addrlen : Z) s : option (sockets H * Z) :=
  match get_socket sockfd s with
  | None => Some (s, - EBADF)
  | Some p =>
      match addr with
      | None => Some (s, - EINVAL)
      | Some a =>
          if addrlen <? sizeof_sockaddr then Some (s, - EINVAL)
          else
            s ← update_socket p (λ x, l ← copy_addr a addrlen (remote_addr x);
                                 Some (mk_socket (so_type x) (so_protocol x) SS_CONNECTED (local_addr x) l)) s;
            Some (s, 0)
      end
  end.

(** The checks of socket_send and socket_recv; [buf] tells whether the buffer
    pointer is not null, [done] is the result when they pass. *)
Definition transfer (sockfd : Z) (buf : bool) (done : Z) s : option Z :=
  match get_socket sockfd s with
  | None => Some (- EBADF)
  | Some p =>
      if negb buf then Some (- EINVAL)
      else
        x ← socks s !! p;
        Some (if negb (so_state x =? SS_CONNECTED) && (so_type x =? SOCK_STREAM) then - ENOTCONN else done)
  end.
Definition socket_send (sockfd : Z) (buf : bool) (len : Z) s : option Z := transfer sockfd buf (i64 len) s.
Definition socket_recv (sockfd : Z) (buf : bool) (len : Z) s : option Z := transfer sockfd buf 0 s.

Definition socket_close (sockfd : Z) s : option (sockets H * Z) :=
  match get_socket sockfd s with
  | None => Some (s, - EBADF)
  | Some p =>
      h ← kh_free (Some p) (so_heap s);
      Some (mk_sockets (<[Z.to_nat sockfd := None]> (socket_table s)) (next_sockfd s) (delete p (socks s)) h, 0)
  end.
End Ops.

(** ** Byte order *)

(** Swapping the two bytes of a 16-bit number. *)
Lemma htons_bytes a b : 0 ≤ a < 256 → 0 ≤ b < 256 → htons (a + 256 * b) = b + 256 * a.
Proof.
  intros Ha Hb. unfold htons. rewrite Z.shiftr_div_pow2, !land_byte by lia. change (2 ^ 8) with 256.
  replace (((a + 256 * b) / 256) `mod` 256) with b by lia_mod.
  replace ((a + 256 * b) `mod` 256) with a by lia_mod.
  rewrite lor_shiftl by lia. lia.
Qed.

Lemma htons_bound x : 0 ≤ x < 2 ^ 16 → 0 ≤ htons x < 2 ^ 16.
Proof.
  intros Hx. replace x with (x `mod` 256 + 256 * (x / 256)) by lia_mod.
  rewrite htons_bytes by lia_mod. lia_mod.
Qed.

Lemma htonl_bytes a b c d :
  0 ≤ a < 256 → 0 ≤ b < 256 → 0 ≤ c < 256 → 0 ≤ d < 256 →
  htonl (a + 256 * (b + 256 * (c + 256 * d))) = d + 256 * (c + 256 * (b + 256 * a)).
Proof.
  intros Ha Hb Hc Hd. unfold htonl. set (x := a + 256 * (b + 256 * (c + 256 * d))).
  assert (Z.land (Z.shiftr x 24) 0xFF = d) as ->.
  { rewrite Z.shiftr_div_pow2, land_byte by lia. change (2 ^ 24) with 16777216. unfold x. lia_mod. }
  assert (∀ y, Z.land y 0xFF00 = Z.shiftl ((y / 256) `mod` 256) 8) as Hmid.
  { intros y. change 0xFF00 with (Z.shiftl 0xFF 8). rewrite <- land_byte.
    change 256 with (2 ^ 8). rewrite <- Z.shiftr_div_pow2 by lia. apply Z.bits_inj'. intros n Hn.
    rewrite Z.land_spec. destruct (Z.ltb_spec n 8).
    - by rewrite !Z.shiftl_spec_low, andb_false_r.
    - rewrite !Z.shiftl_spec_high, Z.land_spec, Z.shiftr_spec by lia. by replace (n - 8 + 8) with n by lia. }
  rewrite !Hmid.
  assert ((Z.shiftr x 8 / 256) `mod` 256 = c) as ->.
  { rewrite Z.shiftr_div_pow2 by lia. change (2 ^ 8) with 256. unfold x. lia_mod. }
  assert ((x / 256) `mod` 256 = b) as -> by (unfold x; lia_mod).
  assert (Z.land x 0xFF = a) as -> by (rewrite land_byte; unfold x; lia_mod).
  rewrite Z.shiftl_shiftl by lia. change (8 + 8) with 16.
  rewrite (lor_shiftl d c 8) by lia. change (2 ^ 8) with 256.
  rewrite (lor_shiftl (d + c * 256) b 16) by lia. change (2 ^ 16) with 65536.
  rewrite (lor_shiftl (d + c * 256 + b * 65536) a 24) by lia. change (2 ^ 24) with 16777216.
  unfold u32. rewrite Z.mod_small by lia. lia.
Qed.

(** Both conversions undo themselves. *)
Lemma ntohs_htons x : 0 ≤ x < 2 ^ 16 → ntohs (htons x) = x.
Proof.
  intros Hx. unfold ntohs. replace x with (x `mod` 256 + 256 * (x / 256)) at 1 by lia_mod.
  rewrite !htons_bytes by lia_mod. lia_mod.
Qed.

Lemma ntohl_htonl x : 0 ≤ x < 2 ^ 32 → ntohl (htonl x) = x.
Proof.
  intros Hx. unfold ntohl.
  set (a := x `mod` 256). set (b := (x / 256) `mod` 256). set (c := (x / 65536) `mod` 256). set (d := x / 16777216).
  assert (0 ≤ a < 256 ∧ 0 ≤ b < 256 ∧ 0 ≤ c < 256 ∧ 0 ≤ d < 256) as (Ha & Hb & Hc & Hd) by (unfold a, b, c, d; lia_mod).
  assert (x = a + 256 * (b + 256 * (c + 256 * d))) as E.
  { unfold a, b, c, d. change 65536 with (256 * 256). change 16777216 with (256 * 256 * 256).
    rewrite <- !Z.div_div by lia. lia_mod. }
  rewrite E. rewrite !htonl_bytes; done.
Qed.

(** ** The descriptor table *)

Section Props.
Context {H : Type} `{!KernelHeap H}.
Implicit Types s : sockets H.

Definition socket_ok (x : socket) : Prop := length (local_addr x) = sizeof_storage ∧ length (remote_addr x) = sizeof_storage.

(** Every open descriptor has a socket of its own, every socket a descriptor;
    [M] is what the heap has given out. *)
Record sock_wf s (M : gmap Z Z) : Prop := {
  sw_len : length (socket_table s) = MAX_SOCKETS;
  sw_next : 0 ≤ next_sockfd s ≤ Z.of_nat MAX_SOCKETS;
  sw_live fd p : socket_table s !! fd = Some (Some p) → ∃ x, socks s !! p = Some x ∧ socket_ok x;
  sw_inj fd fd' p : socket_table s !! fd = Some (Some p) → socket_table s !! fd' = Some (Some p) → fd = fd';
  sw_all p x : socks s !! p = Some x → ∃ fd, socket_table s !! fd = Some (Some p);
  sw_owned p x : socks s !! p = Some x → M !! p = Some sizeof_socket;
  sw_heap : kh_inv (so_heap s) M
}.

(** The blocks given out by the heap that are not sockets, by address. *)
Definition other_block s (M : gmap Z Z) (p : Z) : option Z :=
  match socks s !! p with Some _ => None | None => M !! p end.

Definition others_owned s M s' M' : Prop := ∀ p, other_block s' M' p = other_block s M p.

(** A socket that enters with its block, or leaves with it. *)
Lemma other_block_insert s M s' p x n :
  M !! p = None → socks s !! p = None → socks s' = <[p := x]> (socks s) → others_owned s M s' (<[p := n]> M).
Proof.
  intros HM Hp Hs q. unfold other_block. rewrite Hs. destruct (decide (p = q)) as [<-|].
  - by rewrite lookup_insert_eq, Hp, HM.
  - by rewrite !lookup_insert_ne by done.
Qed.

Lemma other_block_delete s M s' p x :
  socks s !! p = Some x → socks s' = delete p (socks s) → others_owned s M s' (delete p M).
Proof.
  intros Hp Hs q. unfold other_block. rewrite Hs. destruct (decide (p = q)) as [<-|].
  - by rewrite !lookup_delete_eq, Hp.
  - by rewrite !lookup_delete_ne by done.
Qed.

Lemma other_block_update s M s' p x y :
  socks s !! p = Some x → socks s' = <[p := y]> (socks s) → others_owned s M s' M.
Proof.
  intros Hp Hs q. unfold other_block. rewrite Hs. destruct (decide (p = q)) as [<-|].
  - by rewrite lookup_insert_eq, Hp.
  - by rewrite lookup_insert_ne by done.
Qed.

Lemma find_fd_spec n i s :
  length (socket_table s) = MAX_SOCKETS →
  match find_fd n i s with
  | Some fd => 0 ≤ fd < Z.of_nat MAX_SOCKETS ∧ socket_table s !! Z.to_nat fd = Some None
  | None => ∀ k, 0 ≤ k < Z.of_nat n →
      socket_table s !! Z.to_nat ((next_sockfd s + i + k) `mod` Z.of_nat MAX_SOCKETS) ≠ Some None
  end.
Proof.
  intros Hl. revert i. induction n as [|n IH]; intros i; cbn [find_fd]; [lia|].
  set (fd := (next_sockfd s + i) `mod` Z.of_nat MAX_SOCKETS).
  assert (0 ≤ fd < Z.of_nat MAX_SOCKETS) as Hfd by (apply Z.mod_pos_bound; done).
  destruct (socket_table s !! Z.to_nat fd) as [[p|]|] eqn:E; [|by split|].
  all: specialize (IH (i + 1)); destruct (find_fd n (i + 1) s) as [fd'|]; [done|].
  all: intros k Hk; destruct (decide (k = 0)) as [->|]; [rewrite Z.add_0_r; fold fd; congruence|].
  all: replace (next_sockfd s + i + k) with (next_sockfd s + (i + 1) + (k - 1)) by lia; apply IH; lia.
Qed.

Definition fd_free s (fd : nat) : Prop := socket_table s !! fd = Some None.

(** A descriptor is found whenever one is free. *)
Lemma alloc_sockfd_spec s M :
  sock_wf s M →
  match alloc_sockfd s with
  | (s', fd) =>
      (0 ≤ fd < Z.of_nat MAX_SOCKETS ∧ fd_free s (Z.to_nat fd) ∧ sock_wf s' M ∧ socket_table s' = socket_table s ∧ socks s' = socks s) ∨
      (fd = - EMFILE ∧ s' = s ∧ ∀ i, ¬ fd_free s i)
  end.
Proof.
  intros Hwf. unfold alloc_sockfd. pose proof (find_fd_spec MAX_SOCKETS 0 s (sw_len _ _ Hwf)) as Hf.
  destruct (find_fd MAX_SOCKETS 0 s) as [fd|].
  - left. destruct Hf as [Hb Hfree]. split; [done|]. split; [done|]. split; [|done].
    destruct Hwf. split; try done. cbn. lia.
  - right. split; [done|]. split; [done|]. intros i Hi. pose proof (lookup_lt_Some _ _ _ Hi) as Hlt. rewrite (sw_len _ _ Hwf) in Hlt.
    assert (∃ k, 0 ≤ k < Z.of_nat MAX_SOCKETS ∧ (next_sockfd s + 0 + k) `mod` Z.of_nat MAX_SOCKETS = Z.of_nat i) as (k & Hk & E).
    { exists ((Z.of_nat i - next_sockfd s) `mod` Z.of_nat MAX_SOCKETS). split; [apply Z.mod_pos_bound; done|].
      rewrite Z.add_0_r, Zplus_mod_idemp_r. replace (next_sockfd s + (Z.of_nat i - next_sockfd s)) with (Z.of_nat i) by lia.
      apply Z.mod_small. lia. }
    specialize (Hf k Hk). rewrite E, Nat2Z.id in Hf. done.
Qed.

(** A live socket, changed in place. *)
Lemma update_ok s M p x f y :
  sock_wf s M → socks s !! p = Some x → f x = Some y → socket_ok y →
  ∃ s', update_socket p f s = Some s' ∧ sock_wf s' M ∧ socks s' = <[p := y]> (socks s) ∧ socket_table s' = socket_table s.
Proof.
  intros Hwf Hx Hf Hy. unfold update_socket. rewrite Hx. cbn [mbind option_bind]. rewrite Hf. cbn [mbind option_bind].
  eexists. split; [reflexivity|]. split; [|done]. destruct Hwf as [? ? Hlive ? Hall Hown ?].
  split; cbn [socket_table next_sockfd socks so_heap]; try done.
  - intros fd q Hq. destruct (decide (p = q)) as [->|]; [exists y; by rewrite lookup_insert_eq|].
    rewrite lookup_insert_ne by done. eauto.
  - intros q z Hz. destruct (decide (p = q)) as [->|]; [eauto|]. rewrite lookup_insert_ne in Hz by done. eauto.
  - intros q z Hz. destruct (decide (p = q)) as [->|]; [eauto|]. rewrite lookup_insert_ne in Hz by done. eauto.
Qed.

Lemma copy_addr_ok a n l :
  length l = sizeof_storage → n ≤ Z.of_nat (length a) → 0 ≤ n → ∃ l', copy_addr a n l = Some l' ∧ length l' = sizeof_storage.
Proof.
  intros Hl Hn Hpos. unfold copy_addr. set (k := Z.to_nat (Z.min n (Z.of_nat sizeof_storage))).
  destruct (Nat.leb_spec k (length a)) as [Hk|]; [|lia]. eexists. split; [reflexivity|].
  rewrite length_app, length_take, length_drop. lia.
Qed.

Lemma get_socket_live s M fd p :
  sock_wf s M → get_socket fd s = Some p →
  0 ≤ fd < Z.of_nat MAX_SOCKETS ∧ socket_table s !! Z.to_nat fd = Some (Some p) ∧ ∃ x, socks s !! p = Some x ∧ socket_ok x.
Proof.
  intros Hwf. unfold get_socket. destruct (_ || _) eqn:E; [done|]. apply orb_false_iff in E as [E1%Z.ltb_ge E2%Z.leb_gt].
  destruct (socket_table s !! Z.to_nat fd) as [[q|]|] eqn:Et; [|done..]. intros [= ->]. split; [done|]. split; [done|].
  by apply (sw_live _ _ Hwf (Z.to_nat fd)).
Qed.

(** The socket behind a descriptor. *)
Definition socket_at s (fd : Z) : option socket := p ← get_socket fd s; socks s !! p.

(** Every descriptor but [fd] is as it was. *)
Definition others_kept (fd : Z) s s' : Prop := ∀ fd', fd' ≠ fd → socket_at s' fd' = socket_at s fd'.

Lemma socket_at_table s M fd fd' o p m h n :
  sock_wf s M → 0 ≤ fd < Z.of_nat MAX_SOCKETS → fd' ≠ fd →
  (∀ q, 0 ≤ fd' → socket_table s !! Z.to_nat fd' = Some (Some q) → m !! q = socks s !! q) → p = Z.to_nat fd →
  socket_at (mk_sockets (<[p := o]> (socket_table s)) n m h) fd' = socket_at s fd'.
Proof.
  intros Hwf Hfd Hne Hm ->. unfold socket_at, get_socket. cbn [socket_table socks].
  destruct (_ || _) eqn:E; [done|]. apply orb_false_iff in E as [E1%Z.ltb_ge E2%Z.leb_gt].
  rewrite list_lookup_insert_ne by lia. destruct (socket_table s !! Z.to_nat fd') as [[q|]|] eqn:Eq; [|done..].
  cbn [mbind option_bind]. by apply Hm.
Qed.

Lemma create_ok family type protocol s M :
  sock_wf s M →
  ∃ s' r M', socket_create family type protocol s = Some (s', r) ∧ sock_wf s' M' ∧ others_owned s M s' M' ∧ others_kept r s s' ∧
    (0 ≤ r → socket_at s r = None ∧
       socket_at s' r = Some (mk_socket type protocol SS_UNCONNECTED (storage_of family) (storage_of family))).
Proof.
  intros Hwf. unfold socket_create.
  destruct (_ && _); [exists s, (- EAFNOSUPPORT), M; repeat (split; [done|]); done|].
  destruct (_ && _); [exists s, (- ESOCKTNOSUPPORT), M; repeat (split; [done|]); done|].
  pose proof (alloc_sockfd_spec s M Hwf) as Ha. destruct (alloc_sockfd s) as [s1 fd].
  destruct Ha as [(Hfd & Hfree & Hwf1 & Ht & Hs)|(-> & -> & _)].
  2: { exists s, (- EMFILE), M. repeat (split; [done|]). done. }
  destruct (Z.ltb_spec fd 0) as [|_]; [lia|].
  assert (∀ fd', socket_at s1 fd' = socket_at s fd') as Hsame.
  { intros fd'. unfold socket_at, get_socket. by rewrite Ht, Hs. }
  destruct (kh_alloc_ok (so_heap s1) M sizeof_socket GFP_ZERO (sw_heap _ _ Hwf1) ltac:(done)) as (h & r & -> & Hr).
  cbn [mbind option_bind]. destruct r as [p|].
  - destruct Hr as (_ & _ & HM & Hh). do 3 eexists. split; [reflexivity|].
    assert (socks s1 !! p = None) as Hp.
    { destruct (socks s1 !! p) as [x|] eqn:E; [|done]. apply (sw_owned _ _ Hwf1) in E. congruence. }
    split; [|split; [rewrite Hs in Hp; eapply (other_block_insert s M); [done..|cbn; by rewrite Hs]|split]].
    + destruct Hwf1 as [Hl Hn Hlive Hinj Hall Hown _]. unfold fd_free in Hfree. rewrite <- Ht in Hfree.
      split; cbn [socket_table next_sockfd socks so_heap]; try done.
      * by rewrite length_insert.
      * intros fd' q Hq. apply list_lookup_insert_Some in Hq as [(<- & [= ->] & _)|[Hne Hq]].
        -- eexists. rewrite lookup_insert_eq. split; [done|]. by split.
        -- assert (p ≠ q) by (intros ->; destruct (Hlive _ _ Hq) as (x & ? & _); congruence).
           rewrite lookup_insert_ne by done. eauto.
      * intros i j q Hi Hj. apply list_lookup_insert_Some in Hi as [(<- & [= ->] & _)|[Hne Hi]];
          apply list_lookup_insert_Some in Hj as [(<- & Hq & _)|[Hne' Hj]]; try done; [| |eauto].
        -- destruct (Hlive _ _ Hj) as (x & ? & _). congruence.
        -- injection Hq as <-. destruct (Hlive _ _ Hi) as (x & ? & _). congruence.
      * intros q x Hx. destruct (decide (p = q)) as [<-|].
        -- exists (Z.to_nat fd). apply list_lookup_insert_eq. by eapply lookup_lt_Some.
        -- rewrite lookup_insert_ne in Hx by done. destruct (Hall q x Hx) as [i Hi]. exists i.
           rewrite list_lookup_insert_ne; [done|]. intros <-. congruence.
      * intros q x Hx. destruct (decide (p = q)) as [<-|]; [by rewrite lookup_insert_eq|].
        rewrite lookup_insert_ne in Hx by done. rewrite lookup_insert_ne by done. eauto.
    + intros fd' Hne. rewrite <- Hsame. apply (socket_at_table s1 M fd); try done. intros q _ Hq. apply lookup_insert_ne.
      intros <-. destruct (sw_live _ _ Hwf1 _ _ Hq) as (x & ? & _). congruence.
    + intros _. unfold socket_at, get_socket. cbn [socket_table socks].
      destruct (Z.ltb_spec fd 0) as [|_]; [lia|]. destruct (Z.leb_spec (Z.of_nat MAX_SOCKETS) fd) as [|_]; [lia|]. cbn [orb].
      unfold fd_free in Hfree. rewrite Hfree. split; [done|]. rewrite Ht, list_lookup_insert_eq by by eapply lookup_lt_Some.
      cbn [mbind option_bind]. apply lookup_insert_eq.
  - exists (mk_sockets (socket_table s1) (next_sockfd s1) (socks s1) h), (- ENOMEM), M. split; [done|].
    split; [by destruct Hwf1|]. split; [intros q; unfold other_block; cbn; by rewrite Hs|].
    split; [intros fd' _; apply Hsame|done].
Qed.

Lemma close_ok fd s M :
  sock_wf s M →
  ∃ s' r M', socket_close fd s = Some (s', r) ∧ sock_wf s' M' ∧ others_owned s M s' M' ∧ others_kept fd s s' ∧ socket_at s' fd = None ∧
    r = match socket_at s fd with Some _ => 0 | None => - EBADF end.
Proof.
  intros Hwf. unfold socket_close. destruct (get_socket fd s) as [p|] eqn:Eg.
  2: { exists s, (- EBADF), M. repeat (split; [done|]). unfold socket_at. by rewrite Eg. }
  destruct (get_socket_live s M fd p Hwf Eg) as (Hfd & Ht & x & Hx & _).
  destruct (kh_free_ok (so_heap s) M p sizeof_socket (sw_heap _ _ Hwf) (sw_owned _ _ Hwf p x Hx)) as (h & -> & Hh).
  cbn [mbind option_bind]. do 3 eexists. split; [reflexivity|].
  split; [|split; [by apply (other_block_delete _ _ _ p x)|split; [|split]]].
  - destruct Hwf as [Hl Hn Hlive Hinj Hall Hown _]. split; cbn [socket_table next_sockfd socks so_heap]; try done.
    + by rewrite length_insert.
    + intros i q Hq. apply list_lookup_insert_Some in Hq as [(_ & [=] & _)|[Hne Hq]].
      rewrite lookup_delete_ne; [eauto|]. intros ->. by apply Hne, (Hinj (Z.to_nat fd) i q).
    + intros i j q Hi Hj. apply list_lookup_insert_Some in Hi as [(_ & [=] & _)|[_ Hi]].
      apply list_lookup_insert_Some in Hj as [(_ & [=] & _)|[_ Hj]]. eauto.
    + intros q z Hz. destruct (decide (p = q)) as [->|]; [by rewrite lookup_delete_eq in Hz|].
      rewrite lookup_delete_ne in Hz by done. destruct (Hall q z Hz) as [i Hi]. exists i.
      rewrite list_lookup_insert_ne; [done|]. intros <-. congruence.
    + intros q z Hz. destruct (decide (p = q)) as [->|]; [by rewrite lookup_delete_eq in Hz|].
      rewrite lookup_delete_ne in Hz by done. rewrite lookup_delete_ne by done. eauto.
  - intros fd' Hne. apply (socket_at_table s M fd); try done. intros q Hpos Hq. apply lookup_delete_ne. intros <-.
    pose proof (sw_inj _ _ Hwf _ _ _ Ht Hq). lia.
  - unfold socket_at, get_socket. cbn [socket_table].
    destruct (_ || _); [done|]. by rewrite list_lookup_insert_eq by by eapply lookup_lt_Some.
  - unfold socket_at. rewrite Eg. cbn [mbind option_bind]. by rewrite Hx.
Qed.

(** ** Any sequence of calls *)

Inductive sock_op :=
| SCreate (family type protocol : Z)
| SBind (fd : Z) (addr : option (list Z)) (len : Z)
| SListen (fd backlog : Z)
| SAccept (fd : Z)
| SConnect (fd : Z) (addr : option (list Z)) (len : Z)
| SSend (fd : Z) (buf : bool) (len : Z)
| SRecv (fd : Z) (buf : bool) (len : Z)
| SClose (fd : Z).

Definition sock_step (op : sock_op) s : option (sockets H * Z) :=
  match op with
  | SCreate family type protocol => socket_create family type protocol s
  | SBind fd addr len => socket_bind fd addr len s
  | SListen fd backlog => socket_listen fd backlog s
  | SAccept fd => Some (s, socket_accept fd s)
  | SConnect fd addr len => socket_connect fd addr len s
  | SSend fd buf len => r ← socket_send fd buf len s; Some (s, r)
  | SRecv fd buf len => r ← socket_recv fd buf len s; Some (s, r)
  | SClose fd => socket_close fd s
  end.

(** The caller's address is as long as it says. *)
Definition op_ok (op : sock_op) : Prop :=
  match op with
  | SBind _ (Some a) len | SConnect _ (Some a) len => len ≤ Z.of_nat (length a)
  | _ => True
  end.

(** The descriptor a call is about. *)
Definition op_fd (op : sock_op) (ret : Z) : Z :=
  match op with
  | SCreate _ _ _ => ret
  | SBind fd _ _ | SListen fd _ | SAccept fd | SConnect fd _ _ | SSend fd _ _ | SRecv fd _ _ | SClose fd => fd
  end.

Lemma updated_kept s M fd p x f s' :
  sock_wf s M → get_socket fd s = Some p → socks s !! p = Some x → socks s' = <[p := f]> (socks s) →
  socket_table s' = socket_table s → others_kept fd s s'.
Proof.
  intros Hwf Hg Hx Hs Ht fd' Hne. unfold socket_at, get_socket. rewrite Ht. destruct (_ || _) eqn:E; [done|].
  apply orb_false_iff in E as [E1%Z.ltb_ge E2%Z.leb_gt].
  destruct (socket_table s !! Z.to_nat fd') as [[q|]|] eqn:Eq; [|done..]. cbn [mbind option_bind]. rewrite Hs.
  apply lookup_insert_ne. intros <-. destruct (get_socket_live s M fd p Hwf Hg) as (? & Htab & _).
  pose proof (sw_inj _ _ Hwf _ _ _ Htab Eq). lia.
Qed.

(** One call on an open descriptor that rewrites its socket. *)
Lemma rewrite_step s M fd p x f y :
  sock_wf s M → get_socket fd s = Some p → socks s !! p = Some x → f x = Some y → socket_ok y →
  ∃ s' r, (s1 ← update_socket p f s; Some (s1, 0)) = Some (s', r) ∧ sock_wf s' M ∧ others_owned s M s' M ∧ others_kept fd s s'.
Proof.
  intros Hwf Hg Hx Hf Hy. destruct (update_ok s M p x f y Hwf Hx Hf Hy) as (s' & -> & Hwf' & Hs & Ht).
  exists s', 0. split; [done|]. split; [done|]. split; [by apply (other_block_update _ _ _ p x y)|].
  by apply (updated_kept s M fd p x y s').
Qed.

Lemma addr_step s M fd p x a len g :
  sock_wf s M → get_socket fd s = Some p → socks s !! p = Some x → sizeof_sockaddr ≤ len → len ≤ Z.of_nat (length a) →
  (∀ l, length l = sizeof_storage → socket_ok (g x l)) →
  ∀ dst, length (dst x) = sizeof_storage →
  ∃ s' r, (s1 ← update_socket p (λ x, l ← copy_addr a len (dst x); Some (g x l)) s; Some (s1, 0)) = Some (s', r) ∧
          sock_wf s' M ∧ others_owned s M s' M ∧ others_kept fd s s'.
Proof.
  intros Hwf Hg Hx Hlo Hlen Hok dst Hdst.
  destruct (copy_addr_ok a len (dst x) Hdst Hlen) as (l & El & Hl); [unfold sizeof_sockaddr in *; lia|].
  apply (rewrite_step s M fd p x _ (g x l) Hwf Hg Hx); [|by apply Hok]. rewrite El. done.
Qed.

Lemma transfer_some s M fd buf d : sock_wf s M → is_Some (transfer fd buf d s).
Proof.
  intros Hwf. unfold transfer. destruct (get_socket fd s) as [p|] eqn:E; [|eauto]. destruct (negb buf); [eauto|].
  destruct (get_socket_live s M fd p Hwf E) as (_ & _ & x & -> & _). cbn. eauto.
Qed.

Lemma sock_step_ok op s M :
  sock_wf s M → op_ok op →
  ∃ s' r M', sock_step op s = Some (s', r) ∧ sock_wf s' M' ∧ others_owned s M s' M' ∧ others_kept (op_fd op r) s s'.
Proof.
  intros Hwf Hop.
  assert (∀ r, ∃ s' r' M', Some (s, r) = Some (s', r') ∧ sock_wf s' M' ∧ others_owned s M s' M' ∧
    others_kept (op_fd op r') s s') as Hsame.
  { intros r. exists s, r, M. done. }
  destruct op as [family type protocol|fd addr len|fd backlog|fd|fd addr len|fd buf len|fd buf len|fd]; cbn [sock_step op_fd] in *.
  - destruct (create_ok family type protocol s M Hwf) as (s' & r & M' & ? & ? & ? & ? & _). eauto 7.
  - unfold socket_bind. destruct (get_socket fd s) as [p|] eqn:Eg; [|apply Hsame]. destruct addr as [a|]; [|apply Hsame].
    destruct (Z.ltb_spec len sizeof_sockaddr); [apply Hsame|].
    destruct (get_socket_live s M fd p Hwf Eg) as (_ & _ & x & Hx & Hl & Hr).
    destruct (addr_step s M fd p x a len (λ x l, mk_socket (so_type x) (so_protocol x) (so_state x) l (remote_addr x))
                Hwf Eg Hx ltac:(done) Hop ltac:(by split) local_addr Hl) as (s' & r & ? & ? & ? & ?). eauto 7.
  - unfold socket_listen. destruct (get_socket fd s) as [p|] eqn:Eg; [|apply Hsame].
    destruct (get_socket_live s M fd p Hwf Eg) as (_ & _ & x & Hx & Hl & Hr). rewrite Hx. cbn [mbind option_bind].
    destruct (negb _); [apply Hsame|].
    destruct (rewrite_step s M fd p x (λ x, Some (mk_socket (so_type x) (so_protocol x) SS_UNCONNECTED (local_addr x) (remote_addr x)))
                (mk_socket (so_type x) (so_protocol x) SS_UNCONNECTED (local_addr x) (remote_addr x))
                Hwf Eg Hx eq_refl ltac:(by split)) as (s' & r & ? & ? & ? & ?). eauto 7.
  - apply Hsame.
  - unfold socket_connect. destruct (get_socket fd s) as [p|] eqn:Eg; [|apply Hsame]. destruct addr as [a|]; [|apply Hsame].
    destruct (Z.ltb_spec len sizeof_sockaddr); [apply Hsame|].
    destruct (get_socket_live s M fd p Hwf Eg) as (_ & _ & x & Hx & Hl & Hr).
    destruct (addr_step s M fd p x a len (λ x l, mk_socket (so_type x) (so_protocol x) SS_CONNECTED (local_addr x) l)
                Hwf Eg Hx ltac:(done) Hop ltac:(by split) remote_addr Hr) as (s' & r & ? & ? & ? & ?). eauto 7.
  - destruct (transfer_some s M fd buf (i64 len) Hwf) as [r E]. unfold socket_send. rewrite E. apply Hsame.
  - destruct (transfer_some s M fd buf 0 Hwf) as [r E]. unfold socket_recv. rewrite E. apply Hsame.
  - destruct (close_ok fd s M Hwf) as (s' & r & M' & ? & ? & ? & ? & _). eauto 7.
Qed.

Fixpoint sock_run (ops : list sock_op) s : option (sockets H * list Z) :=
  match ops with
  | [] => Some (s, [])
  | op :: ops =>
      r ← sock_step op s; let '(s, ret) := (r : sockets H * Z) in
      r ← sock_run ops s; let '(s, rets) := (r : sockets H * list Z) in Some (s, ret :: rets)
  end.

(** C39: no sequence of socket calls (create, bind, listen, accept, connect,
    send, recv and close), on any descriptors, open or not, uses a freed
    socket or frees one twice, provided the address buffers are as long as the
    caller says.  Every open descriptor keeps a socket of its own, and every
    live socket the heap block it was given; nothing leaks: the other blocks
    the heap has given out are those it had given out before, so that the
    heap holds one block more for each socket still open and gets back the
    block of each socket closed.  A call changes no descriptor but the one it
    names or returns; a created descriptor was closed before, and after a
    close the descriptor is not open. *)
Theorem socket_calls_safe ops s M :
  sock_wf s M → Forall op_ok ops →
  ∃ s' rets M', sock_run ops s = Some (s', rets) ∧ sock_wf s' M' ∧ others_owned s M s' M' ∧ length rets = length ops ∧
    (∀ fd, fd ∉ zip_with op_fd ops rets → socket_at s' fd = socket_at s fd) ∧
    (∀ family type protocol, ∃ s'' r, sock_step (SCreate family type protocol) s' = Some (s'', r) ∧
       (0 ≤ r → socket_at s' r = None ∧ is_Some (socket_at s'' r))) ∧
    (∀ fd, ∃ s'' r, sock_step (SClose fd) s' = Some (s'', r) ∧ socket_at s'' fd = None).
Proof.
  revert s M. induction ops as [|op ops IH]; intros s M Hwf Hops; cbn [sock_run].
  - exists s, [], M. repeat (split; [done|]). split.
    + intros family type protocol. destruct (create_ok family type protocol s M Hwf) as (s'' & r & _ & E & _ & _ & _ & Hr).
      exists s'', r. split; [done|]. intros Hpos. destruct (Hr Hpos) as [? ->]. eauto.
    + intros fd. destruct (close_ok fd s M Hwf) as (s'' & r & _ & E & _ & _ & _ & Hr & _). eauto.
  - inversion_clear Hops as [|? ? Hop Hrest]. destruct (sock_step_ok op s M Hwf Hop) as (s1 & r & M1 & -> & Hwf1 & Hb & Hk).
    cbn [mbind option_bind]. destruct (IH s1 M1 Hwf1 Hrest) as (s' & rets & M' & -> & Hwf' & Hb' & Hlen & Hfd & Hc & Hcl).
    cbn [mbind option_bind]. exists s', (r :: rets), M'. split; [done|]. split; [done|].
    split; [intros q; by rewrite Hb', Hb|]. split; [cbn; lia|]. split; [|by split].
    intros fd Hin. cbn [zip_with] in Hin. apply not_elem_of_cons in Hin as [Hne Hin]. rewrite (Hfd fd Hin). by apply Hk.
Qed.

Lemma init_sockets_ok s M : kh_inv (so_heap s) M → socks s = ∅ → 0 ≤ next_sockfd s ≤ Z.of_nat MAX_SOCKETS → sock_wf (net_init s) M.
Proof.
  intros Hh Hs Hn. assert (∀ fd p, socket_table (net_init s) !! fd ≠ Some (Some p)) as Hno.
  { intros fd p Hp. unfold net_init in Hp. cbn [socket_table] in Hp. apply lookup_replicate in Hp as [[=] _]. }
  split; try done.
  - intros fd p Hp. by apply Hno in Hp.
  - intros fd fd' p Hp. by apply Hno in Hp.
  - intros p x Hx. cbn in Hx. by rewrite Hs in Hx.
  - intros p x Hx. cbn in Hx. by rewrite Hs in Hx.
Qed.
End Props.

(** ** A run *)

Definition demo_sockets : sockets heap := net_init (mk_sockets [] 0 ∅ boot_heap).
Definition demo_sock_ops : list sock_op :=
  [SCreate AF_INET SOCK_STREAM 0; SAccept 0; SSend 0 true 5; SConnect 0 (Some (replicate 16 1)) 16; SSend 0 true 5; SClose 0; SClose 0].
Definition demo_sock_rets : list Z := [0; - EAGAIN; - ENOTCONN; 0; 5; 0; - EBADF].

(** After the last close the heap has given out nothing. *)
Lemma socket_calls_safe_witness :
  ∃ s' rets M', sock_run demo_sock_ops demo_sockets = Some (s', rets) ∧ sock_wf s' M' ∧ rets = demo_sock_rets ∧ M' = ∅.
Proof.
  destruct (socket_calls_safe demo_sock_ops demo_sockets ∅) as (s' & rets & M' & E & Hwf & Hb & _).
  - apply init_sockets_ok; [by apply heap_owns_init|done|done].
  - repeat constructor. vm_compute. discriminate.
  - exists s', rets, M'. split; [exact E|]. split; [exact Hwf|].
    assert ((λ r, (snd r, socks (fst r))) <$> sock_run demo_sock_ops demo_sockets = Some (demo_sock_rets, ∅)) as E2
      by (vm_compute; reflexivity).
    rewrite E in E2. apply (inj Some) in E2. injection E2 as E2 Es. split; [exact E2|].
    apply map_eq. intros p. specialize (Hb p). unfold other_block in Hb. rewrite Es in Hb. exact Hb.
Defined.
