(* ===== verification/TcpIp.v ===== *)
(** * kernel/net/tcp_ip.c

    A packet is the list of its bytes; a header field is read at its offset
    with the little-endian [rd] of the ELF loader, since the machine is
    little-endian, and [None] is a read outside the frame.  [n_out] collects
    what is handed to the driver of interface 0 (the driver itself is not part
    of this file; [if_send] says whether one is registered).  A buffer of a
    connection is the part of it that has been written; [None] is also an
    access beyond its capacity or through a null pointer. *)

From Stdlib Require Import ZifyNat.
From S2P Require Import Prelude KHeap Kmalloc Elf Socket.

Definition ETH_ALEN : nat := 6.
Definition ETH_HLEN : nat := 14.
Definition ETH_P_IP : Z := 0x0800.
Definition ETH_P_ARP : Z := 0x0806.
Definition IP_PROTO_ICMP : Z := 1.
Definition IP_PROTO_TCP : Z := 6.
Definition IP_PROTO_UDP : Z := 17.
Definition TCP_FIN : Z := 0x01.
Definition TCP_SYN : Z := 0x02.
Definition TCP_RST : Z := 0x04.
Definition TCP_PSH : Z := 0x08.
Definition TCP_ACK : Z := 0x10.
Definition ARP_CACHE_SIZE : nat := 64.
Definition MAX_INTERFACES : Z := 4.
Definition MAX_TCP_CONNECTIONS : nat := 256.
Definition TCP_BUF : Z := 65536.
Definition sizeof_ip_hdr : Z := 20.
Definition sizeof_tcp_hdr : Z := 20.
Definition sizeof_udp_hdr : Z := 8.
Definition sizeof_icmp_hdr : Z := 8.
Definition sizeof_arp_hdr : Z := 28.

(** A bit test of a C condition. *)
Definition flag (x m : Z) : bool := negb (Z.land x m =? 0).

Inductive tcp_state :=
| TCP_CLOSED | TCP_LISTEN | TCP_SYN_SENT | TCP_SYN_RECEIVED | TCP_ESTABLISHED | TCP_FIN_WAIT_1
| TCP_FIN_WAIT_2 | TCP_CLOSE_WAIT | TCP_CLOSING | TCP_LAST_ACK | TCP_TIME_WAIT.

#[export] Instance tcp_state_eq_dec : EqDecision tcp_state.
Proof. solve_decision. Defined.

Record arp_entry := mk_arp { a_ip : Z; a_mac : list Z; a_timestamp : Z; a_valid : bool }.

Record net_interface := mk_if {
  if_name : list Z;
  if_mac : list Z;
  if_ip : Z;
  if_netmask : Z;
  if_gateway : Z;
  if_up : bool;
  rx_packets : Z;
  tx_packets : Z;
  rx_bytes : Z;
  tx_bytes : Z;
  if_send : bool
}.

Record tcp_connection := mk_conn {
  local_ip : Z;
  local_port : Z;
  remote_ip : Z;
  remote_port : Z;
  tc_state : tcp_state;
  tc_seq : Z;
  tc_ack : Z;
  recv_wnd : Z;
  send_wnd : Z;
  recv_buf : option Z;
  recv_len : Z;
  recv_capacity : Z;
  send_buf : option Z;
  send_len : Z;
  send_capacity : Z;
  in_use : bool
}.

Record net (H : Type) := mk_net {
  arp_cache : list arp_entry;
  interfaces : list net_interface;
  num_interfaces : Z;
  tcp_connections : list tcp_connection;
  next_ephemeral_port : Z;
  tcp_isn_counter : Z;
  n_bufs : gmap Z (list Z);
  n_heap : H;
  n_out : list (list Z)
}.
Arguments mk_net {H}.
Arguments arp_cache {H}.
Arguments interfaces {H}.
Arguments num_interfaces {H}.
Arguments tcp_connections {H}.
Arguments next_ephemeral_port {H}.
Arguments tcp_isn_counter {H}.
Arguments n_bufs {H}.
Arguments n_heap {H}.
Arguments n_out {H}.

Definition set_tstate (st : tcp_state) (c : tcp_connection) : tcp_connection :=
  mk_conn (local_ip c) (local_port c) (remote_ip c) (remote_port c) st (tc_seq c) (tc_ack c) (recv_wnd c) (send_wnd c)
    (recv_buf c) (recv_len c) (recv_capacity c) (send_buf c) (send_len c) (send_capacity c) (in_use c).
Definition set_seq (x : Z) (c : tcp_connection) : tcp_connection :=
  mk_conn (local_ip c) (local_port c) (remote_ip c) (remote_port c) (tc_state c) x (tc_ack c) (recv_wnd c) (send_wnd c)
    (recv_buf c) (recv_len c) (recv_capacity c) (send_buf c) (send_len c) (send_capacity c) (in_use c).
Definition set_ack (x : Z) (c : tcp_connection) : tcp_connection :=
  mk_conn (local_ip c) (local_port c) (remote_ip c) (remote_port c) (tc_state c) (tc_seq c) x (recv_wnd c) (send_wnd c)
    (recv_buf c) (recv_len c) (recv_capacity c) (send_buf c) (send_len c) (send_capacity c) (in_use c).
Definition set_recv_len (x : Z) (c : tcp_connection) : tcp_connection :=
  mk_conn (local_ip c) (local_port c) (remote_ip c) (remote_port c) (tc_state c) (tc_seq c) (tc_ack c) (recv_wnd c) (send_wnd c)
    (recv_buf c) x (recv_capacity c) (send_buf c) (send_len c) (send_capacity c) (in_use c).
Definition set_send_len (x : Z) (c : tcp_connection) : tcp_connection :=
  mk_conn (local_ip c) (local_port c) (remote_ip c) (remote_port c) (tc_state c) (tc_seq c) (tc_ack c) (recv_wnd c) (send_wnd c)
    (recv_buf c) (recv_len c) (recv_capacity c) (send_buf c) x (send_capacity c) (in_use c).
Definition set_in_use (b : bool) (c : tcp_connection) : tcp_connection :=
  mk_conn (local_ip c) (local_port c) (remote_ip c) (remote_port c) (tc_state c) (tc_seq c) (tc_ack c) (recv_wnd c) (send_wnd c)
    (recv_buf c) (recv_len c) (recv_capacity c) (send_buf c) (send_len c) (send_capacity c) b.

(** ** Checksums *)

(** The 16-bit words of the data, added up in a [uint32_t]. *)
Fixpoint sum_words (l : list Z) (sum : Z) : Z :=
  match l with
  | a :: b :: l' => sum_words l' (u32 (sum + (a + 256 * b)))
  | [a] => u32 (sum + a)
  | [] => sum
  end.

(** [while (sum >> 16) sum = (sum & 0xFFFF) + (sum >> 16);] *)
Fixpoint fold_sum (fuel : nat) (sum : Z) : option Z :=
  if Z.shiftr sum 16 =? 0 then Some sum
  else
    match fuel with
    | O => None
    | S fuel' => fold_sum fuel' (u32 (Z.land sum 0xFFFF + Z.shiftr sum 16))
    end.

Definition checksum (data : list Z) : option Z :=
  sum ← fold_sum 2 (sum_words data 0); Some (u16 (Z.lnot sum)).

Definition tcp_checksum (src_ip dst_ip : Z) (tcp : list Z) (tcp_len : Z) : option Z :=
  let sum := u32 (0 + Z.land (Z.shiftr src_ip 16) 0xFFFF) in
  let sum := u32 (sum + Z.land src_ip 0xFFFF) in
  let sum := u32 (sum + Z.land (Z.shiftr dst_ip 16) 0xFFFF) in
  let sum := u32 (sum + Z.land dst_ip 0xFFFF) in
  let sum := u32 (sum + htons IP_PROTO_TCP) in
  let sum := u32 (sum + htons (u16 tcp_len)) in
  sum ← fold_sum 2 (sum_words tcp sum); Some (u16 (Z.lnot sum)).

(** ** Headers *)

Definition w16 (v : Z) : list Z := le_bytes 2 v.
Definition w32 (v : Z) : list Z := le_bytes 4 v.

Definition eth_hdr (dest src : list Z) (type : Z) : list Z := dest ++ src ++ w16 (htons type).

Definition arp_hdr (opcode : Z) (sender_mac : list Z) (sender_ip : Z) (target_mac : list Z) (target_ip : Z) : list Z :=
  w16 (htons 1) ++ w16 (htons ETH_P_IP) ++ [Z.of_nat ETH_ALEN; 4] ++ w16 (htons opcode) ++ sender_mac ++ w32 sender_ip ++
  target_mac ++ w32 target_ip.

(** The IP header, its checksum field given. *)
Definition ip_hdr (total_len id flags_frag protocol checksum src_ip dst_ip : Z) : list Z :=
  [0x45; 0] ++ w16 (htons (u16 total_len)) ++ w16 (htons id) ++ w16 flags_frag ++ [64; protocol] ++ w16 checksum ++
  w32 src_ip ++ w32 dst_ip.

(** The checksum field is set to 0, computed over and stored. *)
Definition ip_packet (total_len id flags_frag protocol src_ip dst_ip : Z) : option (list Z) :=
  c ← checksum (ip_hdr total_len id flags_frag protocol 0 src_ip dst_ip);
  Some (ip_hdr total_len id flags_frag protocol c src_ip dst_ip).

Definition icmp_hdr (type code checksum id seq : Z) : list Z := [type; code] ++ w16 checksum ++ w16 (htons id) ++ w16 (htons seq).

Definition udp_hdr (src_port dst_port length : Z) : list Z :=
  w16 (htons src_port) ++ w16 (htons dst_port) ++ w16 (htons (u16 length)) ++ w16 0.

Definition tcp_hdr (src_port dst_port seq ack flags window checksum : Z) : list Z :=
  w16 (htons src_port) ++ w16 (htons dst_port) ++ w32 (htonl seq) ++ w32 (htonl ack) ++
  [Z.shiftl (sizeof_tcp_hdr / 4) 4; flags] ++ w16 (htons (u16 window)) ++ w16 checksum ++ w16 0.

(** The TCP header and payload with the checksum stored. *)
Definition tcp_packet (src_ip dst_ip src_port dst_port seq ack flags window : Z) (data : list Z) : option (list Z) :=
  let tcp c := tcp_hdr src_port dst_port seq ack flags window c ++ data in
  c ← tcp_checksum src_ip dst_ip (tcp 0) (sizeof_tcp_hdr + Z.of_nat (length data));
  Some (tcp c).

Section Ops.
Context {H : Type} `{!KernelHeap H}.
Implicit Types s : net H.

Definition with_heap (h : H) s : net H :=
  mk_net (arp_cache s) (interfaces s) (num_interfaces s) (tcp_connections s) (next_ephemeral_port s) (tcp_isn_counter s)
    (n_bufs s) h (n_out s).
Definition with_bufs (b : gmap Z (list Z)) s : net H :=
  mk_net (arp_cache s) (interfaces s) (num_interfaces s) (tcp_connections s) (next_ephemeral_port s) (tcp_isn_counter s)
    b (n_heap s) (n_out s).
Definition with_conns (cs : list tcp_connection) s : net H :=
  mk_net (arp_cache s) (interfaces s) (num_interfaces s) cs (next_ephemeral_port s) (tcp_isn_counter s)
    (n_bufs s) (n_heap s) (n_out s).
Definition with_arp (c : list arp_entry) s : net H :=
  mk_net c (interfaces s) (num_interfaces s) (tcp_connections s) (next_ephemeral_port s) (tcp_isn_counter s)
    (n_bufs s) (n_heap s) (n_out s).
Definition with_ifs (i : list net_interface) (n : Z) s : net H :=
  mk_net (arp_cache s) i n (tcp_connections s) (next_ephemeral_port s) (tcp_isn_counter s) (n_bufs s) (n_heap s) (n_out s).
Definition with_ports (port isn : Z) s : net H :=
  mk_net (arp_cache s) (interfaces s) (num_interfaces s) (tcp_connections s) port isn (n_bufs s) (n_heap s) (n_out s).
Definition with_out (o : list (list Z)) s : net H :=
  mk_net (arp_cache s) (interfaces s) (num_interfaces s) (tcp_connections s) (next_ephemeral_port s) (tcp_isn_counter s)
    (n_bufs s) (n_heap s) o.

Definition upd_conn (i : nat) (f : tcp_connection → tcp_connection) s : net H :=
  with_conns (alter f i (tcp_connections s)) s.

(** [iface->send(...)] on interface [i]; [count] tells whether the code counts
    the packet. *)
Definition transmit (i : nat) (count : bool) (packet : list Z) s : option (net H) :=
  x ← interfaces s !! i;
  if if_send x then
    let x' := mk_if (if_name x) (if_mac x) (if_ip x) (if_netmask x) (if_gateway x) (if_up x) (rx_packets x)
                (u64 (tx_packets x + 1)) (rx_bytes x) (u64 (tx_bytes x + Z.of_nat (length packet))) (if_send x) in
    let s := with_out (n_out s ++ [packet]) s in
    Some (if count then with_ifs (<[i := x']> (interfaces s)) (num_interfaces s) s else s)
  else Some s.

(** ** ARP *)

Definition arp_lookup (ip : Z) s : option arp_entry := find (λ e, a_valid e && (a_ip e =? ip)) (arp_cache s).

(** The slot arp_add takes: the first invalid one, else the first with the
    smallest time stamp. *)
Fixpoint arp_slot (i : nat) (l : list arp_entry) (oldest : nat) (oldest_time : Z) : nat :=
  match l with
  | [] => oldest
  | e :: l' =>
      if negb (a_valid e) then i
      else if a_timestamp e <? oldest_time then arp_slot (S i) l' i (a_timestamp e)
      else arp_slot (S i) l' oldest oldest_time
  end.

Definition arp_add (ip : Z) (mac : list Z) s : net H :=
  with_arp (<[arp_slot 0 (arp_cache s) 0 (2 ^ 64 - 1) := mk_arp ip mac 0 true]> (arp_cache s)) s.

(** The sender and the target of an ARP packet, from its bytes. *)
Definition mac_at (off : nat) (l : list Z) : option (list Z) :=
  if (off + ETH_ALEN <=? length l)%nat then Some (take ETH_ALEN (drop off l)) else None.

Definition arp_handle (i : nat) (arp : list Z) s : option (net H) :=
  x ← interfaces s !! i;
  op ← rd 2 6 arp;
  let opcode := ntohs op in
  if opcode =? 1 then
    target_ip ← rd 4 24 arp;
    if target_ip =? if_ip x then
      sender_mac ← mac_at 8 arp; sender_ip ← rd 4 14 arp;
      transmit i false (eth_hdr sender_mac (if_mac x) ETH_P_ARP ++ arp_hdr 2 (if_mac x) (if_ip x) sender_mac sender_ip) s
    else Some s
  else if opcode =? 2 then
    sender_mac ← mac_at 8 arp; sender_ip ← rd 4 14 arp;
    Some (arp_add sender_ip sender_mac s)
  else Some s.

Definition arp_send_request (target_ip : Z) s : option (net H * Z) :=
  if num_interfaces s =? 0 then Some (s, -1)
  else
    x ← interfaces s !! 0%nat;
    s ← transmit 0 true (eth_hdr (replicate ETH_ALEN 0xFF) (if_mac x) ETH_P_ARP ++
                         arp_hdr 1 (if_mac x) (if_ip x) (replicate ETH_ALEN 0) target_ip) s;
    Some (s, 0).

(** ** Sending *)

(** The packet is built in a fresh block of the heap and freed after the
    driver has it. *)
Definition send_via_heap (packet : list Z) s : option (net H * bool) :=
  r ← kh_alloc (Z.of_nat (length packet)) GFP_KERNEL (n_heap s);
  match r with
  | (h, None) => Some (with_heap h s, false)
  | (h, Some p) =>
      s ← transmit 0 true packet (with_heap h s);
      h ← kh_free (Some p) (n_heap s);
      Some (with_heap h s, true)
  end.

(** [garbage] is what the fresh block holds where the destination address is:
    the code does not set it. *)
Definition icmp_send_echo (garbage : list Z) (dest_ip id seq : Z) s : option (net H * Z) :=
  if num_interfaces s =? 0 then Some (s, -1)
  else
    x ← interfaces s !! 0%nat;
    ip ← ip_packet (sizeof_ip_hdr + sizeof_icmp_hdr) 1 0 IP_PROTO_ICMP (if_ip x) dest_ip;
    c ← checksum (icmp_hdr 8 0 0 id seq);
    r ← send_via_heap (eth_hdr garbage (if_mac x) ETH_P_IP ++ ip ++ icmp_hdr 8 0 c id seq) s;
    let '(s, ok) := (r : net H * bool) in Some (s, if ok then 0 else -1).

Definition udp_send (garbage : list Z) (dest_ip src_port dest_port : Z) (data : list Z) s : option (net H * Z) :=
  if num_interfaces s =? 0 then Some (s, -1)
  else
    x ← interfaces s !! 0%nat;
    let len := Z.of_nat (length data) in
    ip ← ip_packet (sizeof_ip_hdr + sizeof_udp_hdr + len) 1 0 IP_PROTO_UDP (if_ip x) dest_ip;
    r ← send_via_heap (eth_hdr garbage (if_mac x) ETH_P_IP ++ ip ++ udp_hdr src_port dest_port (sizeof_udp_hdr + len) ++ data) s;
    let '(s, ok) := (r : net H * bool) in Some (s, if ok then i32 len else -1).

Definition tcp_send_packet (i : nat) (flags : Z) (data : list Z) s : option (net H * Z) :=
  if num_interfaces s =? 0 then Some (s, -1)
  else
    x ← interfaces s !! 0%nat;
    c ← tcp_connections s !! i;
    let tcp_len := sizeof_tcp_hdr + Z.of_nat (length data) in
    ip ← ip_packet (sizeof_ip_hdr + tcp_len) (Z.land (tc_seq c) 0xFFFF) (htons 0x4000) IP_PROTO_TCP (local_ip c) (remote_ip c);
    tcp ← tcp_packet (local_ip c) (remote_ip c) (local_port c) (remote_port c) (tc_seq c) (tc_ack c) flags (recv_wnd c) data;
    r ← send_via_heap (eth_hdr (replicate ETH_ALEN 0xFF) (if_mac x) ETH_P_IP ++ ip ++ tcp) s;
    let '(s, ok) := (r : net H * bool) in Some (s, if ok then 0 else -1).

(** ** TCP connections *)

(** [kmalloc(TCP_BUF)]; a failure leaves a null pointer. *)
Definition new_buffer s : option (net H * option Z) :=
  r ← kh_alloc TCP_BUF GFP_KERNEL (n_heap s);
  match r with
  | (h, None) => Some (with_heap h s, None)
  | (h, Some p) => Some (with_bufs (<[p := []]> (n_bufs s)) (with_heap h s), Some p)
  end.

Fixpoint first_conn (f : tcp_connection → bool) (i : nat) (l : list tcp_connection) : option nat :=
  match l with
  | [] => None
  | c :: l' => if f c then Some i else first_conn f (S i) l'
  end.

Definition tcp_alloc_connection s : option (net H * option nat) :=
  match first_conn (λ c, negb (in_use c)) 0 (tcp_connections s) with
  | None => Some (s, None)
  | Some i =>
      r ← new_buffer s; let '(s, rb) := (r : net H * option Z) in
      r ← new_buffer s; let '(s, sb) := (r : net H * option Z) in
      Some (upd_conn i (λ c, mk_conn (local_ip c) (local_port c) (remote_ip c) (remote_port c) TCP_CLOSED (tc_seq c)
                               (tc_ack c) 65535 65535 rb 0 TCP_BUF sb 0 TCP_BUF true) s, Some i)
  end.

Definition free_buffer (p : option Z) s : option (net H) :=
  match p with
  | None => Some s
  | Some b => h ← kh_free (Some b) (n_heap s); Some (with_bufs (delete b (n_bufs s)) (with_heap h s))
  end.

Definition tcp_free_connection (i : nat) s : option (net H) :=
  c ← tcp_connections s !! i;
  s ← free_buffer (recv_buf c) s;
  s ← free_buffer (send_buf c) s;
  Some (upd_conn i (set_in_use false) s).

Definition tcp_generate_isn s : net H * Z :=
  let x := u32 (tcp_isn_counter s * 1103515245 + 12345) in (with_ports (next_ephemeral_port s) x s, x).

Definition tcp_connect (dest_ip dest_port : Z) s : option (net H * Z) :=
  r ← tcp_alloc_connection s;
  match r with
  | (s, None) => Some (s, -1)
  | (s, Some i) =>
      if num_interfaces s =? 0 then s ← tcp_free_connection i s; Some (s, -1)
      else
        x ← interfaces s !! 0%nat;
        let port := next_ephemeral_port s in
        let next := u16 (port + 1) in
        let next := if 65000 <? next then 49152 else next in
        let '(s, isn) := tcp_generate_isn (with_ports next (tcp_isn_counter s) s) in
        let s := upd_conn i (λ c, mk_conn (if_ip x) port dest_ip dest_port TCP_SYN_SENT isn 0 (recv_wnd c) (send_wnd c)
                                    (recv_buf c) (recv_len c) (recv_capacity c) (send_buf c) (send_len c) (send_capacity c)
                                    (in_use c)) s in
        r ← tcp_send_packet i TCP_SYN [] s;
        let '(s, ret) := (r : net H * Z) in
        if ret <? 0 then s ← tcp_free_connection i s; Some (s, -1)
        else Some (upd_conn i (λ c, set_seq (u32 (tc_seq c + 1)) c) s, Z.of_nat i)
  end.

(** [buf[pos] = x] in a buffer of [TCP_BUF] bytes. *)
Definition put (pos x : Z) (l : list Z) : option (list Z) :=
  if (0 <=? pos) && (pos <? TCP_BUF) then
    if pos <? Z.of_nat (length l) then Some (<[Z.to_nat pos := x]> l)
    else if pos =? Z.of_nat (length l) then Some (l ++ [x]) else None
  else None.

(** [n] bytes copied from [avail] to the buffer at [pos]. *)
Fixpoint copy_in (n pos : Z) (avail l : list Z) : option (list Z) :=
  if n <=? 0 then Some l
  else
    match avail with
    | [] => None
    | x :: avail' => l ← put pos x l; copy_in (n - 1) (pos + 1) avail' l
    end.

(** Appending [n] bytes of [avail] to a connection's buffer. *)
Definition append_to (buf : option Z) (n pos : Z) (avail : list Z) s : option (net H) :=
  if n <=? 0 then Some s
  else
    p ← buf;
    l ← n_bufs s !! p;
    l ← copy_in n pos avail l;
    Some (with_bufs (<[p := l]> (n_bufs s)) s).

Definition tcp_send (i : nat) (data : list Z) s : option (net H * Z) :=
  c ← tcp_connections s !! i;
  if negb (bool_decide (tc_state c = TCP_ESTABLISHED)) then Some (s, -1)
  else
    let len := Z.of_nat (length data) in
    if send_capacity c <? u64 (send_len c + len) then Some (s, -1)
    else
      s ← append_to (send_buf c) len (send_len c) data s;
      let s := upd_conn i (set_send_len (send_len c + len)) s in
      r ← tcp_send_packet i (Z.lor TCP_PSH TCP_ACK) data s;
      let '(s, ret) := (r : net H * Z) in
      if ret =? 0 then Some (upd_conn i (λ c, set_seq (u32 (tc_seq c + len)) c) s, i32 len) else Some (s, -1).

(** The bytes copied out and the return value; the rest of the buffer moves to
    its front. *)
Definition tcp_recv (i : nat) (len : Z) s : option (net H * list Z * Z) :=
  c ← tcp_connections s !! i;
  if recv_len c =? 0 then Some (s, [], 0)
  else
    let to_copy := if len <? recv_len c then len else recv_len c in
    p ← recv_buf c;
    l ← n_bufs s !! p;
    if Z.of_nat (length l) <? recv_len c then None
    else
      let n := Z.to_nat to_copy in
      let live := take (Z.to_nat (recv_len c)) l in
      let moved := drop n live in
      let l' := moved ++ drop (length moved) l in
      Some (upd_conn i (set_recv_len (recv_len c - to_copy)) (with_bufs (<[p := l']> (n_bufs s)) s), take n live, i32 to_copy).

Definition tcp_close (conn : option nat) s : option (net H * Z) :=
  match conn with
  | None => Some (s, -1)
  | Some i =>
      c ← tcp_connections s !! i;
      if negb (in_use c) then Some (s, -1)
      else
        match tc_state c with
        | TCP_ESTABLISHED | TCP_CLOSE_WAIT =>
            let st := if bool_decide (tc_state c = TCP_ESTABLISHED) then TCP_FIN_WAIT_1 else TCP_LAST_ACK in
            let s := upd_conn i (set_tstate st) s in
            r ← tcp_send_packet i (Z.lor TCP_FIN TCP_ACK) [] s;
            Some (upd_conn i (λ c, set_seq (u32 (tc_seq c + 1)) c) (fst r), 0)
        | TCP_SYN_SENT | TCP_LISTEN => s ← tcp_free_connection i s; Some (s, 0)
        | _ => Some (s, 0)
        end
  end.

Definition tcp_find_connection (r_ip r_port l_ip l_port : Z) s : option nat :=
  first_conn (λ c, in_use c && (remote_ip c =? r_ip) && (remote_port c =? r_port) && (local_ip c =? l_ip) &&
                   (local_port c =? l_port)) 0 (tcp_connections s).

(** Sending an acknowledgement, whatever its result. *)
Definition send_ack (i : nat) s : option (net H) := r ← tcp_send_packet i TCP_ACK [] s; Some (fst r).

(** The state machine, for a segment that belongs to connection [i]: [data] is
    what the frame holds after the TCP header. *)
Definition tcp_input (i : nat) (flags seq : Z) (data : list Z) (data_len : Z) s : option (net H) :=
  c ← tcp_connections s !! i;
  match tc_state c with
  | TCP_SYN_SENT =>
      if Z.land flags (Z.lor TCP_SYN TCP_ACK) =? Z.lor TCP_SYN TCP_ACK then
        send_ack i (upd_conn i (λ c, set_tstate TCP_ESTABLISHED (set_ack (u32 (seq + 1)) c)) s)
      else if flag flags TCP_RST then tcp_free_connection i (upd_conn i (set_tstate TCP_CLOSED) s)
      else Some s
  | TCP_ESTABLISHED =>
      if flag flags TCP_FIN then
        send_ack i (upd_conn i (λ c, set_tstate TCP_CLOSE_WAIT (set_ack (u32 (seq + data_len + 1)) c)) s)
      else if 0 <? data_len then
        if u64 (recv_len c + data_len) <=? recv_capacity c then
          s ← append_to (recv_buf c) data_len (recv_len c) data s;
          send_ack i (upd_conn i (λ c, set_ack (u32 (seq + data_len)) (set_recv_len (recv_len c + data_len) c)) s)
        else Some s
      else Some s
  | TCP_FIN_WAIT_1 =>
      let st := if flag flags TCP_ACK then TCP_FIN_WAIT_2 else TCP_FIN_WAIT_1 in
      let s := upd_conn i (set_tstate st) s in
      if flag flags TCP_FIN then
        s ← send_ack i (upd_conn i (set_ack (u32 (seq + 1))) s);
        Some (upd_conn i (set_tstate (if bool_decide (st = TCP_FIN_WAIT_2) then TCP_TIME_WAIT else TCP_CLOSING)) s)
      else Some s
  | TCP_FIN_WAIT_2 =>
      if flag flags TCP_FIN then
        s ← send_ack i (upd_conn i (set_ack (u32 (seq + 1))) s);
        Some (upd_conn i (set_tstate TCP_TIME_WAIT) s)
      else Some s
  | TCP_CLOSING => Some (if flag flags TCP_ACK then upd_conn i (set_tstate TCP_TIME_WAIT) s else s)
  | TCP_LAST_ACK =>
      if flag flags TCP_ACK then tcp_free_connection i (upd_conn i (set_tstate TCP_CLOSED) s) else Some s
  | TCP_TIME_WAIT => tcp_free_connection i s
  | _ => Some s
  end.

(** [tcp] is the frame from the TCP header on, [tcp_len] the length the IP
    header gives. *)
Definition tcp_handle_segment (src_ip dst_ip : Z) (tcp : list Z) (tcp_len : Z) s : option (net H) :=
  sp ← rd 2 0 tcp; dp ← rd 2 2 tcp; sq ← rd 4 4 tcp; _ ← rd 4 8 tcp; flags ← rd 1 13 tcp;
  match tcp_find_connection src_ip (ntohs sp) dst_ip (ntohs dp) s with
  | None => Some s
  | Some i =>
      off ← rd 1 12 tcp;
      let header_len := Z.land (Z.shiftr off 4) 0xF * 4 in
      tcp_input i flags (ntohl sq) (drop (Z.to_nat header_len) tcp) (u64 (tcp_len - header_len)) s
  end.

(** ** Receiving *)

Definition ip_handle (ip : list Z) (len : Z) s : option (net H) :=
  v ← rd 1 0 ip;
  if negb (Z.shiftr v 4 =? 4) then Some s
  else
    tl ← rd 2 2 ip;
    let ip_hlen := Z.land v 0xF * 4 in
    let total_len := ntohs tl in
    if len <? total_len then Some s
    else
      let payload := drop (Z.to_nat ip_hlen) ip in
      let payload_len := u64 (total_len - ip_hlen) in
      protocol ← rd 1 9 ip;
      if protocol =? IP_PROTO_ICMP then
        ty ← rd 1 0 payload;
        if ty =? 0 then _ ← rd 2 6 payload; Some s else Some s
      else if protocol =? IP_PROTO_TCP then
        src ← rd 4 12 ip; dst ← rd 4 16 ip;
        tcp_handle_segment src dst payload payload_len s
      else Some s.

Definition net_rx (i : nat) (data : list Z) s : option (net H) :=
  let len := Z.of_nat (length data) in
  if len <? Z.of_nat ETH_HLEN then Some s
  else
    ty ← rd 2 12 data;
    let type := ntohs ty in
    x ← interfaces s !! i;
    let x' := mk_if (if_name x) (if_mac x) (if_ip x) (if_netmask x) (if_gateway x) (if_up x) (u64 (rx_packets x + 1))
                (tx_packets x) (u64 (rx_bytes x + len)) (tx_bytes x) (if_send x) in
    let s := with_ifs (<[i := x']> (interfaces s)) (num_interfaces s) s in
    let payload := drop ETH_HLEN data in
    let payload_len := len - Z.of_nat ETH_HLEN in
    if type =? ETH_P_ARP then
      if sizeof_arp_hdr <=? payload_len then arp_handle i payload s else Some s
    else if type =? ETH_P_IP then
      if sizeof_ip_hdr <=? payload_len then ip_handle payload payload_len s else Some s
    else Some s.

(** ** Initialisation *)

Definition lo_name : list Z := [108; 111].

(** [lo] is the first unused interface; what else the slot holds is kept. *)
Definition tcpip_init s : option (net H) :=
  x ← interfaces s !! Z.to_nat (num_interfaces s);
  let lo := mk_if lo_name (if_mac x) 0x7F000001 0xFF000000 0 true (rx_packets x) (tx_packets x) (rx_bytes x) (tx_bytes x)
              (if_send x) in
  let s := with_arp ((λ e, mk_arp (a_ip e) (a_mac e) (a_timestamp e) false) <$> arp_cache s) s in
  let s := with_conns (set_in_use false <$> tcp_connections s) s in
  Some (with_ifs (<[Z.to_nat (num_interfaces s) := lo]> (interfaces s)) (num_interfaces s + 1) s).

Definition net_add_interface (name mac : list Z) (ip netmask gateway : Z) s : net H * option nat :=
  if MAX_INTERFACES <=? num_interfaces s then (s, None)
  else
    let i := Z.to_nat (num_interfaces s) in
    let x := mk_if (take 15 name) mac ip netmask gateway true 0 0 0 0 false in
    (with_ifs (<[i := x]> (interfaces s)) (num_interfaces s + 1) s, Some i).

(** A driver sets [iface->send] on the interface it has added. *)
Definition net_get_primary_interface_info s : option net_interface :=
  if num_interfaces s =? 0 then None
  else
    match find (λ x, negb (bool_decide (if_name x = lo_name))) (take (Z.to_nat (num_interfaces s)) (interfaces s)) with
    | Some x => Some x
    | None => interfaces s !! 0%nat
    end.
End Ops.


(** ** Checksums: the ones' complement sum *)

Fixpoint words (l : list Z) : list Z :=
  match l with
  | a :: b :: l' => (a + 256 * b) :: words l'
  | [a] => [a]
  | [] => []
  end.

(** Addition with end-around carry, on 16 bits. *)
Definition add1 (x y : Z) : Z := if x + y <? 65536 then x + y else x + y - 65535.
Definition ones_sum (l : list Z) : Z := foldr add1 0 (words l).

Definition total (l : list Z) : Z := foldr Z.add 0 (words l).

(** The 16-bit numbers of one residue modulo 65535, zero kept apart. *)
Definition folds_to (x r : Z) : Prop := 0 ≤ r < 65536 ∧ r `mod` 65535 = x `mod` 65535 ∧ (r = 0 ↔ x = 0).

Lemma folds_to_unique x r r' : folds_to x r → folds_to x r' → r = r'.
Proof.
  intros ([H1 H2] & Hm & Hz) ([H1' H2'] & Hm' & Hz'). rewrite <- Hm in Hm'.
  destruct (decide (r = 65535)) as [->|]; destruct (decide (r' = 65535)) as [->|]; [done| | |].
  - rewrite Z.mod_same, (Z.mod_small r') in Hm' by lia. assert (x = 0) by (apply Hz'; lia). apply Hz in H. lia.
  - rewrite Z.mod_same, (Z.mod_small r) in Hm' by lia. assert (x = 0) by (apply Hz; lia). apply Hz' in H. lia.
  - rewrite !Z.mod_small in Hm' by lia. lia.
Qed.

Lemma fold_once x : 0 ≤ x < 2 ^ 32 → Z.shiftr x 16 ≠ 0 →
  u32 (Z.land x 0xFFFF + Z.shiftr x 16) = x - 65535 * (x / 65536) ∧ 1 ≤ x / 65536.
Proof.
  intros Hx Hs. rewrite Z.shiftr_div_pow2 in * by lia. assert (Z.land x 0xFFFF = x `mod` 2 ^ 16) as -> by (change 0xFFFF with (Z.ones 16); by rewrite Z.land_ones by lia).
  change (2 ^ 16) with 65536 in *. unfold u32. split; [rewrite Z.mod_small; lia_mod|lia_mod].
Qed.

Lemma fold_sum_spec x : 0 ≤ x < 2 ^ 32 → ∃ r, fold_sum 2 x = Some r ∧ folds_to x r.
Proof.
  assert (∀ x, Z.shiftr x 16 = x / 65536) as Hsh by (intros; rewrite Z.shiftr_div_pow2 by lia; done).
  assert (∀ y, 0 ≤ y → Z.shiftr y 16 = 0 → y < 65536) as Hsmall by (intros y Hy E; rewrite Hsh in E; lia_mod).
  assert (∀ y, 1 ≤ y / 65536 → 0 ≤ y → (y - 65535 * (y / 65536)) `mod` 65535 = y `mod` 65535 ∧ 0 < y - 65535 * (y / 65536)) as Hmod.
  { intros y Hy Hp. split; [|lia_mod]. replace (y - 65535 * (y / 65536)) with (y + - (y / 65536) * 65535) by lia. apply Z.mod_add; lia. }
  intros Hx. cbn [fold_sum]. destruct (Z.eqb_spec (Z.shiftr x 16) 0) as [E|E].
  { exists x. split; [done|]. split; [specialize (Hsmall x); lia|done]. }
  destruct (fold_once x Hx E) as [-> Hge]. set (y := x - 65535 * (x / 65536)).
  destruct (Hmod x Hge ltac:(lia)) as [Hmy Hpy]. fold y in Hmy, Hpy.
  assert (y < 2 * 65535 + 1) as Hy by (unfold y; lia_mod).
  destruct (Z.eqb_spec (Z.shiftr y 16) 0) as [E'|E'].
  { exists y. split; [done|]. split; [specialize (Hsmall y); lia|]. split; [done|lia]. }
  destruct (fold_once y ltac:(lia) E') as [-> Hgey]. destruct (Hmod y Hgey ltac:(lia)) as [Hmz Hpz].
  set (z := y - 65535 * (y / 65536)) in *. assert (z < 65536) as Hz by (unfold z; lia_mod).
  destruct (Z.eqb_spec (Z.shiftr z 16) 0) as [_|E'']; [|rewrite Hsh in E''; lia_mod].
  exists z. split; [done|]. split; [lia|]. split; [congruence|lia].
Qed.

Lemma byte_pairs (P : list Z → Prop) :
  P [] → (∀ a, P [a]) → (∀ a b l, P l → P (a :: b :: l)) → ∀ l, P l.
Proof.
  intros H0 H1 H2. enough (∀ l, P l ∧ ∀ a, P (a :: l)) as Hall by (intros l; apply Hall).
  induction l as [|b l [IH1 IH2]]; [by split|]. split; [apply IH2|]. intros a. by apply H2.
Qed.

Lemma total_bound l : Forall is_byte l → 0 ≤ total l ≤ 65535 * (Z.of_nat (length l) / 2 + 1).
Proof.
  induction l as [|a|a b l IH] using byte_pairs; intros Hl.
  - done.
  - inversion_clear Hl as [|? ? Ha _]. unfold is_byte in *. cbn. lia.
  - inversion_clear Hl as [|? ? Ha Hl']. inversion_clear Hl' as [|? ? Hb Hl]. specialize (IH Hl). unfold is_byte in *.
    change (total (a :: b :: l)) with (a + 256 * b + total l). cbn [length]. rewrite !Nat2Z.inj_succ. lia_mod.
Qed.

Lemma sum_words_total l sum :
  Forall is_byte l → 0 ≤ sum → sum + total l < 2 ^ 32 → sum_words l sum = sum + total l.
Proof.
  revert sum. induction l as [|a|a b l IH] using byte_pairs; intros sum Hl Hs Hb; cbn [sum_words].
  - cbn. lia.
  - inversion_clear Hl as [|? ? Ha _]. unfold is_byte, total in *. cbn [words foldr] in *. unfold u32. rewrite Z.mod_small; lia.
  - inversion_clear Hl as [|? ? Ha Hl']. inversion_clear Hl' as [|? ? Hby Hl]. unfold is_byte in *.
    change (total (a :: b :: l)) with (a + 256 * b + total l) in *. pose proof (total_bound l Hl) as [Ht _].
    unfold u32. rewrite Z.mod_small by lia. rewrite IH by (done || lia). lia.
Qed.

Lemma total_app a b : (length a `mod` 2 = 0)%nat → total (a ++ b) = total a + total b.
Proof.
  induction a as [|x|x y l IH] using byte_pairs; intros He.
  - done.
  - done.
  - change (total ((x :: y :: l) ++ b)) with (x + 256 * y + total (l ++ b)). change (total (x :: y :: l)) with (x + 256 * y + total l).
    rewrite IH; [lia|]. cbn [length] in He. lia_mod.
Qed.

Lemma ones_sum_spec l : Forall is_byte l → folds_to (total l) (ones_sum l).
Proof.
  intros Hl. pose proof (total_bound l Hl) as Hb. unfold ones_sum, total in *. clear Hb.
  assert (Forall (λ w, 0 ≤ w < 65536) (words l)) as Hw.
  { induction l as [|a|a b l IH] using byte_pairs; cbn [words]; [constructor| |].
    - inversion_clear Hl as [|? ? Ha _]. unfold is_byte in *. constructor; [lia|constructor].
    - inversion_clear Hl as [|? ? Ha Hl']. inversion_clear Hl' as [|? ? Hb Hl]. unfold is_byte in *. constructor; [lia|by apply IH]. }
  clear Hl. induction Hw as [|w ws Hw Hws ([IH1 IH2] & IHm & IHz)]; [done|]. cbn [foldr].
  assert (0 ≤ foldr Z.add 0 ws) as Hpos.
  { clear IH1 IH2 IHm IHz. induction Hws; cbn; lia. }
  set (r := foldr add1 0 ws) in *. set (t := foldr Z.add 0 ws) in *. unfold add1.
  assert ((w + r) `mod` 65535 = (w + t) `mod` 65535) as E by (rewrite Z.add_mod, IHm, <- Z.add_mod by lia; done).
  destruct (Z.ltb_spec (w + r) 65536).
  - split; [lia|]. split; [done|]. lia.
  - split; [lia|]. split; [|lia]. rewrite <- E, <- (Z.mod_add (w + r - 65535) 1 65535) by lia.
    f_equal. lia.
Qed.

Lemma u16_lnot r : 0 ≤ r < 65536 → u16 (Z.lnot r) = 65535 - r.
Proof. intros Hr. unfold u16, Z.lnot. change (2 ^ 16) with 65536. replace (Z.pred (- r)) with (65535 - r + (-1) * 65536) by lia. rewrite Z.mod_add, Z.mod_small; lia. Qed.

Definition short (l : list Z) : Prop := Z.of_nat (length l) ≤ 65535.

Lemma checksum_folds l :
  Forall is_byte l → short l → ∃ r, checksum l = Some (65535 - r) ∧ folds_to (total l) r.
Proof.
  intros Hl Hs. unfold short in Hs. pose proof (total_bound l Hl) as Hb.
  assert (total l < 2 ^ 32) as Hlt by lia_mod.
  unfold checksum. rewrite sum_words_total by (done || lia). rewrite Z.add_0_l.
  destruct (fold_sum_spec (total l)) as (r & -> & Hr); [lia|]. cbn [mbind option_bind]. exists r. split; [|done].
  destruct Hr as [? _]. by rewrite u16_lnot.
Qed.

(** C38: the checksum routine computes the Internet checksum, the complement of
    the ones' complement sum of the 16-bit words, for any data an IP packet
    can hold; its folding loop ends after at most two rounds. *)
Theorem checksum_correct l :
  Forall is_byte l → short l → checksum l = Some (65535 - ones_sum l).
Proof.
  intros Hl Hs. destruct (checksum_folds l Hl Hs) as (r & -> & Hr). do 2 f_equal.
  by eapply folds_to_unique, ones_sum_spec.
Qed.

(** ** A stored checksum verifies *)

Lemma le_bytes_ok n x : Forall is_byte (le_bytes n x).
Proof.
  revert x. induction n as [|n IH]; intros x; cbn [le_bytes]; constructor; [|apply IH]. unfold is_byte. apply Z.mod_pos_bound. lia.
Qed.

Lemma total_w16 c : 0 ≤ c < 65536 → total (w16 c) = c.
Proof. intros Hc. unfold total, w16. cbn [le_bytes words foldr]. lia_mod. Qed.

(** The checksum of [x] stored into a zero field makes the sum fold to all
    ones. *)
Lemma stored_folds x r : 0 ≤ x → folds_to x r → folds_to (x + (65535 - r)) 65535.
Proof.
  intros Hx ([H1 H2] & Hm & Hz). split; [lia|]. split; [|lia]. rewrite Z.mod_same by lia.
  replace (x + (65535 - r)) with ((x - r) + 1 * 65535) by lia. rewrite Z.mod_add by lia. symmetry.
  rewrite Zminus_mod, Hm, Z.sub_diag. done.
Qed.

Lemma total_field a b c :
  (length a `mod` 2 = 0)%nat → 0 ≤ c < 65536 → total (a ++ w16 c ++ b) = total (a ++ w16 0 ++ b) + c.
Proof.
  intros Ha Hc. rewrite !total_app by done.
  rewrite !total_w16 by lia. lia.
Qed.

Lemma checksum_verifies a b :
  Forall is_byte a → Forall is_byte b → (length a `mod` 2 = 0)%nat → short (a ++ w16 0 ++ b) →
  ∃ c, checksum (a ++ w16 0 ++ b) = Some c ∧ checksum (a ++ w16 c ++ b) = Some 0.
Proof.
  intros Ha Hb He Hs.
  assert (∀ c, Forall is_byte (a ++ w16 c ++ b)) as Hbytes by (intros c; rewrite !Forall_app; split; [done|]; split; [apply le_bytes_ok|done]).
  assert (∀ c, short (a ++ w16 c ++ b)) as Hshort.
  { intros c. unfold short, w16 in *. rewrite !length_app, !le_bytes_length in *. lia. }
  destruct (checksum_folds _ (Hbytes 0) Hs) as (r & -> & Hr). exists (65535 - r). split; [done|].
  destruct (checksum_folds _ (Hbytes (65535 - r)) (Hshort _)) as (r' & -> & Hr'). pose proof Hr as [Hrb _].
  rewrite total_field in Hr' by (done || lia). apply (folds_to_unique _ 65535) in Hr'; [by subst r'|].
  apply stored_folds; [|done]. apply total_bound. apply Hbytes.
Qed.

Definition pseudo (src_ip dst_ip tcp_len : Z) : Z :=
  src_ip / 65536 + src_ip `mod` 65536 + dst_ip / 65536 + dst_ip `mod` 65536 + htons IP_PROTO_TCP + htons tcp_len.

Lemma land_ffff x : Z.land x 0xFFFF = x `mod` 65536.
Proof. change 0xFFFF with (Z.ones 16). by rewrite Z.land_ones by lia. Qed.

Lemma tcp_checksum_folds src dst tcp len :
  is_u32 src → is_u32 dst → 0 ≤ len < 65536 → Forall is_byte tcp → short tcp →
  0 ≤ pseudo src dst len ∧ ∃ r, tcp_checksum src dst tcp len = Some (65535 - r) ∧ folds_to (pseudo src dst len + total tcp) r.
Proof.
  unfold is_u32. intros Hsrc Hdst Hlen Ht Hs. pose proof (htons_bound len ltac:(lia)) as Hh.
  assert (htons IP_PROTO_TCP = 1536) as E6 by done. pose proof (total_bound tcp Ht) as Hb. unfold short in Hs.
  assert (∀ x, 0 ≤ x < 2 ^ 32 → (Z.shiftr x 16) `mod` 65536 = x / 65536) as Hsh.
  { intros x Hx. rewrite Z.shiftr_div_pow2 by lia. change (2 ^ 16) with 65536. rewrite Z.mod_small; [done|lia_mod]. }
  assert (0 ≤ pseudo src dst len ≤ 6 * 65536) as Hp by (unfold pseudo; rewrite E6; lia_mod).
  split; [lia|]. unfold tcp_checksum. rewrite !land_ffff, !Hsh, E6 by done.
  assert (u16 len = len) as -> by (unfold u16; apply Z.mod_small; lia).
  rewrite (u32_small (0 + src / 65536)) by lia_mod.
  rewrite (u32_small (0 + src / 65536 + src `mod` 65536)) by lia_mod.
  rewrite (u32_small (0 + src / 65536 + src `mod` 65536 + dst / 65536)) by lia_mod.
  rewrite (u32_small (0 + src / 65536 + src `mod` 65536 + dst / 65536 + dst `mod` 65536)) by lia_mod.
  rewrite (u32_small (0 + src / 65536 + src `mod` 65536 + dst / 65536 + dst `mod` 65536 + 1536)) by lia_mod.
  rewrite (u32_small (0 + src / 65536 + src `mod` 65536 + dst / 65536 + dst `mod` 65536 + 1536 + htons len)) by lia_mod.
  replace (0 + src / 65536 + src `mod` 65536 + dst / 65536 + dst `mod` 65536 + 1536 + htons len) with (pseudo src dst len)
    by (unfold pseudo; rewrite E6; lia).
  assert (pseudo src dst len + total tcp < 2 ^ 32) as Hlt by lia_mod.
  rewrite sum_words_total by (done || lia).
  destruct (fold_sum_spec (pseudo src dst len + total tcp)) as (r & -> & Hr); [lia|]. cbn [mbind option_bind]. exists r. split; [|done].
  destruct Hr as [? _]. by rewrite u16_lnot.
Qed.

Lemma tcp_checksum_verifies src dst a b len :
  is_u32 src → is_u32 dst → 0 ≤ len < 65536 → Forall is_byte a → Forall is_byte b → (length a `mod` 2 = 0)%nat →
  short (a ++ w16 0 ++ b) →
  ∃ c, tcp_checksum src dst (a ++ w16 0 ++ b) len = Some c ∧ tcp_checksum src dst (a ++ w16 c ++ b) len = Some 0.
Proof.
  intros Hsrc Hdst Hlen Ha Hb He Hs.
  assert (∀ c, Forall is_byte (a ++ w16 c ++ b)) as Hbytes by (intros c; rewrite !Forall_app; split; [done|]; split; [apply le_bytes_ok|done]).
  assert (∀ c, short (a ++ w16 c ++ b)) as Hshort.
  { intros c. unfold short, w16 in *. rewrite !length_app, !le_bytes_length in *. lia. }
  destruct (tcp_checksum_folds src dst _ len Hsrc Hdst Hlen (Hbytes 0) Hs) as (Hp & r & -> & Hr). exists (65535 - r). split; [done|].
  destruct (tcp_checksum_folds src dst _ len Hsrc Hdst Hlen (Hbytes (65535 - r)) (Hshort _)) as (_ & r' & -> & Hr'). pose proof Hr as [Hrb _].
  rewrite total_field, Z.add_assoc in Hr' by (done || lia). apply (folds_to_unique _ 65535) in Hr'; [by subst r'|].
  apply stored_folds; [|done]. pose proof (total_bound _ (Hbytes 0)). lia.
Qed.

(** ** Reading the fields of a header *)

Lemma rd_peel n off a b : Z.of_nat (length a) ≤ off → rd n off (a ++ b) = rd n (off - Z.of_nat (length a)) b.
Proof.
  intros Ho. unfold rd. rewrite length_app, Nat2Z.inj_add.
  destruct (Z.leb_spec 0 off), (Z.leb_spec 0 (off - Z.of_nat (length a))); try lia.
  destruct (Z.leb_spec (off + Z.of_nat n) (Z.of_nat (length a) + Z.of_nat (length b))),
    (Z.leb_spec (off - Z.of_nat (length a) + Z.of_nat n) (Z.of_nat (length b))); try lia; cbn [andb]; [|done].
  rewrite drop_app_ge by lia. by replace (Z.to_nat off - length a)%nat with (Z.to_nat (off - Z.of_nat (length a))) by lia.
Qed.

Lemma rd_here n v b : 0 ≤ v < 256 ^ Z.of_nat n → rd n 0 (le_bytes n v ++ b) = Some v.
Proof.
  intros Hv. rewrite rd_some by (rewrite ?length_app, ?le_bytes_length; lia). rewrite drop_0.
  rewrite take_app_le by (rewrite le_bytes_length; lia). rewrite take_ge by (rewrite le_bytes_length; lia). by rewrite le_le_bytes.
Qed.

Lemma rd_byte v b : rd 1 0 (v :: b) = Some v.
Proof. rewrite rd_some by (cbn [length]; lia). change (Some (v + 256 * 0) = Some v). f_equal. lia. Qed.

Lemma rd_byte1 a v b : rd 1 1 (a :: v :: b) = Some v.
Proof. change (a :: v :: b) with ([a] ++ v :: b). rewrite rd_peel by (cbn [length]; lia). apply rd_byte. Qed.

(** Skip the fields before the one at the given offset, then read it. *)
Ltac get_field :=
  unfold w16, w32;
  repeat (rewrite rd_peel by (rewrite ?le_bytes_length; cbn [length]; lia); rewrite ?le_bytes_length; cbn [length];
          match goal with |- rd _ ?o _ = _ => let o' := eval vm_compute in o in change o with o' end);
  first [apply rd_byte | apply rd_byte1 | apply rd_here].

Lemma ip_packet_ok tl id fr proto src dst :
  0 ≤ tl < 65536 → is_byte proto → is_u32 src → is_u32 dst →
  ∃ ip, ip_packet tl id fr proto src dst = Some ip ∧ length ip = 20%nat ∧ checksum ip = Some 0 ∧
    ∀ rest, rd 1 0 (ip ++ rest) = Some 0x45 ∧ rd 2 2 (ip ++ rest) = Some (htons tl) ∧ rd 1 9 (ip ++ rest) = Some proto ∧
            rd 4 12 (ip ++ rest) = Some src ∧ rd 4 16 (ip ++ rest) = Some dst.
Proof.
  intros Htl Hp Hsrc Hdst. unfold ip_packet.
  assert (u16 tl = tl) as Eu by (unfold u16; apply Z.mod_small; lia). pose proof (htons_bound tl ltac:(lia)) as Hh.
  set (a := [0x45; 0] ++ w16 (htons (u16 tl)) ++ w16 (htons id) ++ w16 fr ++ [64; proto]).
  set (b := w32 src ++ w32 dst).
  assert (∀ c, ip_hdr tl id fr proto c src dst = a ++ w16 c ++ b) as Ehdr.
  { intros c. unfold ip_hdr, a, b. by rewrite <- !app_assoc. }
  assert (Forall is_byte a ∧ Forall is_byte b) as [Ha Hb].
  { unfold a, b. rewrite !Forall_app. repeat split; try apply le_bytes_ok; repeat constructor; unfold is_byte in *; lia. }
  assert (length a = 10%nat ∧ length b = 8%nat) as [La Lb] by done.
  destruct (checksum_verifies a b Ha Hb) as (c & E1 & E2); [by rewrite La| |].
  { unfold short. rewrite !length_app, La, Lb. unfold w16. rewrite le_bytes_length. lia. }
  rewrite !Ehdr, E1. cbn [mbind option_bind]. rewrite Ehdr. eexists. split; [reflexivity|]. split; [done|]. split; [done|].
  intros rest. unfold a, b. rewrite Eu, <- !app_assoc. repeat split; get_field; unfold is_u32 in *; lia.
Qed.

Lemma tcp_packet_ok src dst sp dp seq ack flags wnd data :
  is_u32 src → is_u32 dst → 0 ≤ sp < 65536 → 0 ≤ dp < 65536 → is_u32 seq → is_u32 ack → is_byte flags → Forall is_byte data →
  20 + Z.of_nat (length data) < 65536 →
  ∃ tcp, tcp_packet src dst sp dp seq ack flags wnd data = Some tcp ∧ length tcp = (20 + length data)%nat ∧ drop 20 tcp = data ∧
    tcp_checksum src dst tcp (Z.of_nat (length tcp)) = Some 0 ∧
    rd 2 0 tcp = Some (htons sp) ∧ rd 2 2 tcp = Some (htons dp) ∧ rd 4 4 tcp = Some (htonl seq) ∧ rd 4 8 tcp = Some (htonl ack) ∧
    rd 1 12 tcp = Some 0x50 ∧ rd 1 13 tcp = Some flags.
Proof.
  intros Hsrc Hdst Hsp Hdp Hseq Hack Hfl Hdata Hlen. unfold tcp_packet.
  pose proof (htons_bound sp ltac:(lia)) as Hh1. pose proof (htons_bound dp ltac:(lia)) as Hh2.
  assert (∀ x, 0 ≤ htonl x < 2 ^ 32) as Hl by (intros x; unfold htonl, u32; apply Z.mod_pos_bound; lia).
  set (a := w16 (htons sp) ++ w16 (htons dp) ++ w32 (htonl seq) ++ w32 (htonl ack) ++ [0x50; flags] ++ w16 (htons (u16 wnd))).
  set (b := w16 0 ++ data).
  assert (∀ c, tcp_hdr sp dp seq ack flags wnd c ++ data = a ++ w16 c ++ b) as Ehdr.
  { intros c. unfold tcp_hdr, a, b. change (Z.shiftl (sizeof_tcp_hdr / 4) 4) with 0x50. by rewrite <- !app_assoc. }
  assert (Forall is_byte a ∧ Forall is_byte b) as [Ha Hb].
  { unfold a, b. rewrite !Forall_app. repeat split; try apply le_bytes_ok; try done. repeat constructor; unfold is_byte in *; lia. }
  assert (length a = 16%nat) as La by done.
  assert (length b = (2 + length data)%nat) as Lb by (unfold b, w16; by rewrite length_app, le_bytes_length).
  assert (∀ c, length (a ++ w16 c ++ b) = (20 + length data)%nat) as Ltot.
  { intros c. rewrite !length_app, La, Lb. unfold w16. rewrite le_bytes_length. lia. }
  destruct (tcp_checksum_verifies src dst a b (sizeof_tcp_hdr + Z.of_nat (length data)) Hsrc Hdst) as (c & E1 & E2); try done.
  { unfold sizeof_tcp_hdr. lia. }
  { unfold short. rewrite Ltot. lia. }
  rewrite Ehdr, E1. cbn [mbind option_bind]. rewrite Ehdr. eexists. split; [reflexivity|]. split; [apply Ltot|]. split.
  { unfold a, b, w16, w32. done. }
  split. { rewrite Ltot, Nat2Z.inj_add. exact E2. }
  unfold a, b. rewrite <- !app_assoc. repeat split; get_field; try done; unfold is_u32 in *; try lia; apply Hl.
Qed.

Section Wire.
Context {H : Type} `{!KernelHeap H}.
Implicit Types s : net H.

Record conn_ranges (c : tcp_connection) : Prop := {
  cr_lip : is_u32 (local_ip c);
  cr_rip : is_u32 (remote_ip c);
  cr_lport : 0 ≤ local_port c < 65536;
  cr_rport : 0 ≤ remote_port c < 65536;
  cr_seq : is_u32 (tc_seq c);
  cr_ack : is_u32 (tc_ack c)
}.

(** The packet of a connection. *)
Definition wire (x : net_interface) (c : tcp_connection) (flags : Z) (data : list Z) : option (list Z) :=
  ip ← ip_packet (sizeof_ip_hdr + (sizeof_tcp_hdr + Z.of_nat (length data))) (Z.land (tc_seq c) 0xFFFF) (htons 0x4000) IP_PROTO_TCP
         (local_ip c) (remote_ip c);
  tcp ← tcp_packet (local_ip c) (remote_ip c) (local_port c) (remote_port c) (tc_seq c) (tc_ack c) flags (recv_wnd c) data;
  Some (eth_hdr (replicate ETH_ALEN 0xFF) (if_mac x) ETH_P_IP ++ ip ++ tcp).

(** The counters of interface [k] after a frame of [n] bytes. *)
Definition counted (k : nat) (x : net_interface) (n : Z) s : net H :=
  with_ifs (<[k := mk_if (if_name x) (if_mac x) (if_ip x) (if_netmask x) (if_gateway x) (if_up x) (u64 (rx_packets x + 1))
                     (tx_packets x) (u64 (rx_bytes x + n)) (tx_bytes x) (if_send x)]> (interfaces s)) (num_interfaces s) s.

Lemma wire_decodes x c flags data :
  conn_ranges c → is_byte flags → Forall is_byte data → 40 + Z.of_nat (length data) < 65536 → length (if_mac x) = ETH_ALEN →
  ∃ p, wire x c flags data = Some p ∧ length p = (54 + length data)%nat ∧
    checksum (take 20 (drop 14 p)) = Some 0 ∧
    tcp_checksum (local_ip c) (remote_ip c) (drop 34 p) (Z.of_nat (length p) - 34) = Some 0 ∧
    ∀ s k y, interfaces s !! k = Some y →
      net_rx k p s =
      match tcp_find_connection (local_ip c) (local_port c) (remote_ip c) (remote_port c) s with
      | None => Some (counted k y (Z.of_nat (length p)) s)
      | Some j => tcp_input j flags (tc_seq c) data (Z.of_nat (length data)) (counted k y (Z.of_nat (length p)) s)
      end.
Proof.
  intros [Hlip Hrip Hlp Hrp Hsq Hak] Hfl Hdata Hlen Hmac. unfold wire.
  destruct (ip_packet_ok (sizeof_ip_hdr + (sizeof_tcp_hdr + Z.of_nat (length data))) (Z.land (tc_seq c) 0xFFFF) (htons 0x4000) IP_PROTO_TCP
    (local_ip c) (remote_ip c)) as (ip & -> & Lip & Cip & Hip); try done; [unfold sizeof_ip_hdr, sizeof_tcp_hdr; lia|].
  destruct (tcp_packet_ok (local_ip c) (remote_ip c) (local_port c) (remote_port c) (tc_seq c) (tc_ack c) flags (recv_wnd c) data)
    as (tcp & -> & Ltcp & Dtcp & Ctcp & F1 & F2 & F3 & F4 & F5 & F6); try done; [lia|].
  cbn [mbind option_bind]. eexists. split; [reflexivity|]. set (eth := eth_hdr _ _ _).
  assert (length eth = 14%nat) as Leth by (unfold eth, eth_hdr; rewrite !length_app, Hmac; done).
  assert (length (eth ++ ip ++ tcp) = (54 + length data)%nat) as Ltot by (rewrite !length_app, Leth, Lip, Ltcp; lia).
  assert (drop 14 (eth ++ ip ++ tcp) = ip ++ tcp) as D14 by (rewrite <- Leth; apply drop_app_length).
  split; [done|]. split; [by rewrite D14, <- Lip, take_app_length|]. split.
  { change 34%nat with (14 + 20)%nat. rewrite <- drop_drop, D14, <- Lip, drop_app_length, Ltot.
    rewrite <- Ctcp. f_equal. rewrite Ltcp. lia. }
  intros s k y Hy. unfold net_rx. destruct (Z.ltb_spec (Z.of_nat (length (eth ++ ip ++ tcp))) (Z.of_nat ETH_HLEN)); [unfold ETH_HLEN in *; lia|].
  assert (rd 2 12 (eth ++ ip ++ tcp) = Some (htons ETH_P_IP)) as ->.
  { unfold eth, eth_hdr. rewrite <- !app_assoc. unfold w16. rewrite rd_peel by (rewrite length_replicate; done).
    rewrite rd_peel by (rewrite length_replicate, Hmac; done). rewrite length_replicate, Hmac. by apply rd_here. }
  cbn [mbind option_bind]. rewrite Hy. cbn [mbind option_bind]. change (ntohs (htons ETH_P_IP)) with ETH_P_IP.
  change (ETH_P_IP =? ETH_P_ARP) with false. cbn iota. rewrite Z.eqb_refl.
  destruct (Z.leb_spec sizeof_ip_hdr (Z.of_nat (length (eth ++ ip ++ tcp)) - Z.of_nat ETH_HLEN)); [|unfold sizeof_ip_hdr, ETH_HLEN in *; lia].
  fold (counted k y (Z.of_nat (length (eth ++ ip ++ tcp))) s). change ETH_HLEN with 14%nat. rewrite D14.
  unfold ip_handle. destruct (Hip tcp) as (-> & -> & -> & -> & ->). cbn [mbind option_bind].
  change (negb (Z.shiftr 0x45 4 =? 4)) with false. cbn iota. rewrite ntohs_htons by (unfold sizeof_ip_hdr, sizeof_tcp_hdr; lia).
  destruct (Z.ltb_spec (Z.of_nat (length (eth ++ ip ++ tcp)) - Z.of_nat 14) (sizeof_ip_hdr + (sizeof_tcp_hdr + Z.of_nat (length data))));
    [unfold sizeof_ip_hdr, sizeof_tcp_hdr in *; lia|].
  change (IP_PROTO_TCP =? IP_PROTO_ICMP) with false. cbn iota. rewrite Z.eqb_refl.
  change (Z.to_nat (Z.land 0x45 0xF * 4)) with 20%nat. rewrite <- Lip at 1. rewrite drop_app_length.
  unfold tcp_handle_segment. rewrite F1, F2, F3, F4, F5, F6. cbn [mbind option_bind].
  rewrite !ntohs_htons, ntohl_htonl by (done || lia).
  change (tcp_find_connection (local_ip c) (local_port c) (remote_ip c) (remote_port c) (counted k y (Z.of_nat (length (eth ++ ip ++ tcp))) s))
    with (tcp_find_connection (local_ip c) (local_port c) (remote_ip c) (remote_port c) s).
  destruct (tcp_find_connection _ _ _ _ s) as [j|]; [|done].
  change (Z.to_nat (Z.land (Z.shiftr 0x50 4) 0xF * 4)) with 20%nat. rewrite Dtcp. f_equal.
  change (Z.land 0x45 0xF * 4) with 20. change (Z.land (Z.shiftr 0x50 4) 0xF * 4) with 20.
  unfold sizeof_ip_hdr, sizeof_tcp_hdr. rewrite (u64_small (20 + (20 + Z.of_nat (length data)) - 20)) by lia. rewrite u64_small; lia.
Qed.
End Wire.

(** ** The invariant of the connection table *)

Definition buf_of (b : bool) (c : tcp_connection) : option Z := if b then recv_buf c else send_buf c.
Definition len_of (b : bool) (c : tcp_connection) : Z := if b then recv_len c else send_len c.

(** The buffers of a connection: allocated, long enough for what they hold,
    and two different ones. *)
Record conn_ok (B : gmap Z (list Z)) (M : gmap Z Z) (c : tcp_connection) : Prop := {
  ck_caps : recv_capacity c = TCP_BUF ∧ send_capacity c = TCP_BUF;
  ck_len b : 0 ≤ len_of b c ≤ TCP_BUF;
  ck_buf b p : buf_of b c = Some p →
    M !! p = Some TCP_BUF ∧ ∃ l, B !! p = Some l ∧ len_of b c ≤ Z.of_nat (length l) ≤ TCP_BUF;
  ck_null b : buf_of b c = None → len_of b c = 0;
  ck_two p : recv_buf c = Some p → send_buf c ≠ Some p
}.

Section Table.
Context {H : Type} `{!KernelHeap H}.
Implicit Types s : net H.

Record net_wf s (M : gmap Z Z) : Prop := {
  nw_len : length (tcp_connections s) = MAX_TCP_CONNECTIONS;
  nw_if : num_interfaces s = 0 ∨ is_Some (interfaces s !! 0%nat);
  nw_heap : kh_inv (n_heap s) M;
  nw_conn i c : tcp_connections s !! i = Some c → in_use c = true → conn_ok (n_bufs s) M c;
  nw_inj i j c d b b' p : tcp_connections s !! i = Some c → tcp_connections s !! j = Some d → in_use c = true → in_use d = true →
    buf_of b c = Some p → buf_of b' d = Some p → i = j
}.

(** What sending may change: the heap (and back), the counters and the output. *)
Record quiet s s' : Prop := {
  q_conns : tcp_connections s' = tcp_connections s;
  q_bufs : n_bufs s' = n_bufs s;
  q_num : num_interfaces s' = num_interfaces s;
  q_if : is_Some (interfaces s !! 0%nat) → is_Some (interfaces s' !! 0%nat)
}.

Lemma quiet_refl s : quiet s s.
Proof. done. Qed.

Lemma quiet_wf s s' M : net_wf s M → quiet s s' → kh_inv (n_heap s') M → net_wf s' M.
Proof.
  intros [Hl Hi Hh Hc Hj] [Ec Eb En Ei] Hh'. split; rewrite ?Ec, ?Eb, ?En; try done. destruct Hi; auto.
Qed.

Lemma send_via_heap_ok p s M :
  kh_inv (n_heap s) M → is_Some (interfaces s !! 0%nat) →
  ∃ s' ok, send_via_heap p s = Some (s', ok) ∧ quiet s s' ∧ kh_inv (n_heap s') M ∧
    n_out s' = n_out s ++ (match interfaces s !! 0%nat with Some x => if ok && if_send x then [p] else [] | None => [] end).
Proof.
  intros Hh [x Hx]. unfold send_via_heap.
  destruct (kh_alloc_ok (n_heap s) M (Z.of_nat (length p)) GFP_KERNEL Hh) as (h & r & -> & Hr); [lia|]. cbn [mbind option_bind].
  rewrite Hx. destruct r as [b|].
  - destruct Hr as (_ & _ & HM & Hh1). unfold transmit. cbn [interfaces with_heap]. rewrite Hx. cbn [mbind option_bind].
    destruct (kh_free_ok h (<[b := Z.of_nat (length p)]> M) b (Z.of_nat (length p)) Hh1 (lookup_insert_eq _ _ _)) as (h' & Ef & Hh2).
    rewrite delete_insert_id in Hh2 by done.
    destruct (if_send x); cbn [mbind option_bind]; cbn [n_heap with_heap with_ifs with_out]; rewrite Ef; cbn [mbind option_bind].
    + do 2 eexists. split; [reflexivity|]. split; [|done]. split; try done. intros _. cbn. apply list_lookup_insert_is_Some. auto.
    + do 2 eexists. split; [reflexivity|]. split; [done|]. split; [done|]. cbn. by rewrite app_nil_r.
  - do 2 eexists. split; [reflexivity|]. split; [done|]. split; [done|]. cbn. by rewrite app_nil_r.
Qed.

Lemma sum_words_range l sum : 0 ≤ sum < 2 ^ 32 → 0 ≤ sum_words l sum < 2 ^ 32.
Proof.
  assert (∀ x, 0 ≤ u32 x < 2 ^ 32) as Hu by (intros x; unfold u32; apply Z.mod_pos_bound; lia).
  revert sum. induction l as [|a|a b l IH] using byte_pairs; intros sum Hs; cbn [sum_words]; auto.
Qed.

Lemma checksum_some l : is_Some (checksum l).
Proof.
  unfold checksum. destruct (fold_sum_spec (sum_words l 0)) as (r & -> & _); [apply sum_words_range; lia|]. cbn. eauto.
Qed.

Lemma tcp_checksum_some src dst l n : is_Some (tcp_checksum src dst l n).
Proof.
  unfold tcp_checksum. match goal with |- context [sum_words l (u32 ?x)] => set (y := x) end.
  destruct (fold_sum_spec (sum_words l (u32 y))) as (r & -> & _); [|cbn; eauto].
  apply sum_words_range. unfold u32. apply Z.mod_pos_bound. lia.
Qed.

Lemma wire_some x c flags data : is_Some (wire x c flags data).
Proof.
  unfold wire, ip_packet, tcp_packet. match goal with |- context [checksum ?l] => destruct (checksum_some l) as [k ->] end.
  cbn [mbind option_bind]. match goal with |- context [tcp_checksum ?a ?b ?l ?n] => destruct (tcp_checksum_some a b l n) as [k' ->] end.
  cbn. eauto.
Qed.

Lemma tcp_send_packet_wire i flags data s :
  tcp_send_packet i flags data s =
  if num_interfaces s =? 0 then Some (s, -1)
  else
    x ← interfaces s !! 0%nat; c ← tcp_connections s !! i; p ← wire x c flags data; r ← send_via_heap p s;
    let '(s, ok) := (r : net H * bool) in Some (s, if ok then 0 else -1).
Proof.
  unfold tcp_send_packet, wire. generalize ip_packet, tcp_packet, eth_hdr. intros ipp tcpp eth.
  destruct (num_interfaces s =? 0); [done|]. destruct (interfaces s !! 0%nat) as [x|]; [|done].
  destruct (tcp_connections s !! i) as [c|]; [|done]. cbn [mbind option_bind].
  destruct (ipp _ _ _ _ _ _) as [ip|]; [|done]. cbn [mbind option_bind].
  by destruct (tcpp _ _ _ _ _ _ _ _ _) as [tcp|].
Qed.

Lemma tcp_send_packet_ok i c flags data s M :
  net_wf s M → tcp_connections s !! i = Some c →
  ∃ s' r, tcp_send_packet i flags data s = Some (s', r) ∧ quiet s s' ∧ net_wf s' M ∧ (r = 0 ∨ r = -1) ∧
    (r = 0 → ∃ x p, interfaces s !! 0%nat = Some x ∧ wire x c flags data = Some p ∧
                    n_out s' = n_out s ++ (if if_send x then [p] else [])).
Proof.
  intros Hwf Hc. rewrite tcp_send_packet_wire. pose proof (λ x, wire_some x c flags data) as Hw. revert Hw. generalize wire. intros wire' Hw. destruct (Z.eqb_spec (num_interfaces s) 0).
  { exists s, (-1). split; [done|]. split; [done|]. split; [done|]. split; [by right|]. done. }
  destruct (nw_if _ _ Hwf) as [|[x Hx]]; [done|]. rewrite Hx, Hc. cbn [mbind option_bind].
  destruct (Hw x) as [p Hp]. rewrite Hp. cbn [mbind option_bind].
  destruct (send_via_heap_ok p s M (nw_heap _ _ Hwf)) as (s' & ok & -> & Hq & Hh & Ho); [eauto|]. cbn [mbind option_bind].
  exists s', (if ok then 0 else -1). split; [done|]. split; [done|]. split; [by eapply quiet_wf|]. split; [destruct ok; auto|].
  destruct ok; [|done]. intros _. exists x, p. split; [done|]. split; [done|]. rewrite Ho, Hx. done.
Qed.
(** ** What a connection is to its user *)

(** The abstract connection: its end points, its state, its sequence numbers,
    the bytes received and not yet read, and the bytes accepted for sending. *)
Record tcb := mk_tcb { t_ends : Z * Z * Z * Z; t_state : tcp_state; t_seq : Z; t_ack : Z; t_unread : list Z; t_sent : list Z }.

Definition held (B : gmap Z (list Z)) (p : option Z) (n : Z) : list Z :=
  match p with Some b => take (Z.to_nat n) (default [] (B !! b)) | None => [] end.

Definition tcb_of (B : gmap Z (list Z)) (c : tcp_connection) : tcb :=
  mk_tcb (local_ip c, local_port c, remote_ip c, remote_port c) (tc_state c) (tc_seq c) (tc_ack c)
    (held B (recv_buf c) (recv_len c)) (held B (send_buf c) (send_len c)).

Definition abs s (i : nat) : option tcb :=
  c ← tcp_connections s !! i; if in_use c then Some (tcb_of (n_bufs s) c) else None.

(** Only the connections other than [i] are untouched. *)
Definition others (i : nat) s s' : Prop := ∀ j, j ≠ i → abs s' j = abs s j.

Lemma conn_ok_same B B' M M' c :
  conn_ok B M c → (∀ b p, buf_of b c = Some p → B' !! p = B !! p ∧ M' !! p = M !! p) → conn_ok B' M' c.
Proof.
  intros [H1 H2 H3 H4 H5] Hs. split; try done. intros b p Hp. destruct (Hs b p Hp) as [-> ->]. by apply H3.
Qed.

Lemma tcb_of_same B B' c : (∀ b p, buf_of b c = Some p → B' !! p = B !! p) → tcb_of B' c = tcb_of B c.
Proof.
  intros Hs. unfold tcb_of, held. pose proof (Hs true) as Hr. pose proof (Hs false) as Hf. cbn in Hr, Hf.
  f_equal; [destruct (recv_buf c)|destruct (send_buf c)]; try done; [by rewrite Hr|by rewrite Hf].
Qed.

(** Every operation changes one connection, its buffers and the heap. *)
Lemma conn_change s s' M M' i c c' :
  net_wf s M → tcp_connections s !! i = Some c →
  tcp_connections s' = <[i := c']> (tcp_connections s) → num_interfaces s' = num_interfaces s →
  (is_Some (interfaces s !! 0%nat) → is_Some (interfaces s' !! 0%nat)) → kh_inv (n_heap s') M' →
  (∀ p, is_Some (M !! p) → (in_use c = true → ∀ b, buf_of b c ≠ Some p) → n_bufs s' !! p = n_bufs s !! p ∧ M' !! p = M !! p) →
  (in_use c' = true → conn_ok (n_bufs s') M' c' ∧
     ∀ b p, buf_of b c' = Some p → M !! p = None ∨ in_use c = true ∧ ∃ b', buf_of b' c = Some p) →
  net_wf s' M' ∧ others i s s' ∧ abs s' i = (if in_use c' then Some (tcb_of (n_bufs s') c') else None).
Proof.
  intros Hwf Hc Ec En Ei Hh Hsame Hnew. pose proof (lookup_lt_Some _ _ _ Hc) as Hlt.
  assert (∀ j d, j ≠ i → tcp_connections s !! j = Some d → in_use d = true →
    ∀ b p, buf_of b d = Some p → n_bufs s' !! p = n_bufs s !! p ∧ M' !! p = M !! p) as Hoth.
  { intros j d Hj Hd Hu b p Hp. destruct (ck_buf _ _ _ (nw_conn _ _ Hwf j d Hd Hu) b p Hp) as [HM _].
    apply Hsame; [eauto|]. intros Hu' b' Hp'. apply Hj. by eapply (nw_inj _ _ Hwf). }
  split; [|split].
  - split.
    + rewrite Ec, length_insert. apply Hwf.
    + rewrite En. destruct (nw_if _ _ Hwf); auto.
    + done.
    + intros j d Hd Hu. rewrite Ec in Hd. apply list_lookup_insert_Some in Hd as [(<- & <- & _)|[Hj Hd]]; [by apply Hnew|].
      eapply conn_ok_same; [by eapply (nw_conn _ _ Hwf)|]. eapply Hoth; eauto.
    + assert (∀ j d b b' p, j ≠ i → tcp_connections s !! j = Some d → in_use d = true → in_use c' = true →
        buf_of b d = Some p → buf_of b' c' = Some p → False) as Hfresh.
      { intros j d b b' p Hj Hd Hu Hu' Hp Hp'. destruct (ck_buf _ _ _ (nw_conn _ _ Hwf j d Hd Hu) b p Hp) as [HM _].
        destruct (Hnew Hu') as [_ Hn]. destruct (Hn _ _ Hp') as [|(Huc & b'' & Hp'')]; [congruence|]. apply Hj. by eapply (nw_inj _ _ Hwf). }
      intros j k d e b b' p Hd He Hud Hue Hp Hp'. rewrite Ec in Hd, He.
      apply list_lookup_insert_Some in Hd as [(<- & <- & _)|[Hj Hd]]; apply list_lookup_insert_Some in He as [(<- & <- & _)|[Hk He]].
      * done.
      * exfalso. eapply (Hfresh k e b' b p); eauto.
      * exfalso. eapply (Hfresh j d b b' p); eauto.
      * by eapply (nw_inj _ _ Hwf).
  - intros j Hj. unfold abs. rewrite Ec, list_lookup_insert_ne by done. destruct (tcp_connections s !! j) as [d|] eqn:Hd; [|done].
    cbn [mbind option_bind]. destruct (in_use d) eqn:Hu; [|done]. f_equal. apply tcb_of_same. intros b p Hp. by eapply Hoth.
  - unfold abs. rewrite Ec, list_lookup_insert_eq by done. done.
Qed.

Lemma alter_as_insert {A} (f : A → A) (l : list A) i x : l !! i = Some x → alter f i l = <[i := f x]> l.
Proof.
  intros Hx. apply list_eq. intros j. destruct (decide (i = j)) as [<-|Hj].
  - rewrite list_lookup_alter_eq, Hx, list_lookup_insert_eq; [done|]. by eapply lookup_lt_Some.
  - by rewrite list_lookup_alter_ne, list_lookup_insert_ne.
Qed.

(** A change of the fields other than the buffers. *)
Lemma upd_conn_ok i c f s M :
  net_wf s M → tcp_connections s !! i = Some c → in_use c = true →
  in_use (f c) = true → (∀ b, buf_of b (f c) = buf_of b c) → conn_ok (n_bufs s) M (f c) →
  net_wf (upd_conn i f s) M ∧ others i s (upd_conn i f s) ∧ abs (upd_conn i f s) i = Some (tcb_of (n_bufs s) (f c)) ∧
  tcp_connections (upd_conn i f s) !! i = Some (f c).
Proof.
  intros Hwf Hc Hu Hu' Hb Hok. pose proof (lookup_lt_Some _ _ _ Hc) as Hlt.
  destruct (conn_change s (upd_conn i f s) M M i c (f c) Hwf Hc) as (W & O & A); try done.
  - cbn. by apply alter_as_insert.
  - apply Hwf.
  - intros _. split; [done|]. intros b p Hp. right. split; [done|]. exists b. by rewrite <- Hb.
  - rewrite Hu' in A. split; [done|]. split; [done|]. split; [exact A|]. cbn. by rewrite list_lookup_alter_eq, Hc.
Qed.

Lemma quiet_abs s s' i : quiet s s' → abs s' i = abs s i.
Proof. intros [Ec Eb _ _]. unfold abs. by rewrite Ec, Eb. Qed.

Lemma others_trans i s1 s2 s3 : others i s1 s2 → others i s2 s3 → others i s1 s3.
Proof. intros H1 H2 j Hj. by rewrite H2, H1. Qed.

Lemma quiet_others i s s' : quiet s s' → others i s s'.
Proof. intros Hq j _. by apply quiet_abs. Qed.

(** ** Buffers *)

Lemma put_ok pos x l :
  0 ≤ pos < TCP_BUF → pos ≤ Z.of_nat (length l) ≤ TCP_BUF →
  ∃ l', put pos x l = Some l' ∧ take (Z.to_nat pos + 1) l' = take (Z.to_nat pos) l ++ [x] ∧ pos + 1 ≤ Z.of_nat (length l') ≤ TCP_BUF.
Proof.
  intros Hp Hl. unfold put. destruct (Z.leb_spec 0 pos), (Z.ltb_spec pos TCP_BUF); try lia. cbn [andb].
  destruct (Z.ltb_spec pos (Z.of_nat (length l))).
  - eexists. split; [reflexivity|]. rewrite length_insert. split; [|lia].
    rewrite Nat.add_1_r. erewrite take_S_r by (apply list_lookup_insert_eq; lia). by rewrite take_insert_ge by lia.
  - destruct (Z.eqb_spec pos (Z.of_nat (length l))); [|lia]. eexists. split; [reflexivity|].
    split; [|rewrite length_app; cbn; lia]. rewrite take_ge by (rewrite length_app; cbn; lia). by rewrite take_ge by lia.
Qed.

Lemma copy_in_ok n pos avail l :
  0 ≤ n ≤ Z.of_nat (length avail) → 0 ≤ pos → pos + n ≤ TCP_BUF → pos ≤ Z.of_nat (length l) ≤ TCP_BUF →
  ∃ l', copy_in n pos avail l = Some l' ∧
    take (Z.to_nat (pos + n)) l' = take (Z.to_nat pos) l ++ take (Z.to_nat n) avail ∧ pos + n ≤ Z.of_nat (length l') ≤ TCP_BUF.
Proof.
  revert n pos l. induction avail as [|x avail IH]; intros n pos l Hn Hp Hcap Hl; cbn [copy_in]; destruct (Z.leb_spec n 0).
  1, 3: assert (n = 0) as -> by lia; eexists; split; [reflexivity|]; rewrite Z.add_0_r, app_nil_r; split; [done|lia].
  { cbn in Hn. lia. }
  cbn [length] in Hn. destruct (put_ok pos x l) as (l1 & -> & T1 & L1); [lia..|]. cbn [mbind option_bind].
  destruct (IH (n - 1) (pos + 1) l1) as (l' & -> & T & L); [lia..|]. eexists. split; [reflexivity|]. split; [|lia].
  replace (pos + n) with (pos + 1 + (n - 1)) by lia. rewrite T. replace (Z.to_nat (pos + 1)) with (Z.to_nat pos + 1)%nat by lia.
  rewrite T1, <- app_assoc. f_equal. replace (Z.to_nat n) with (S (Z.to_nat (n - 1))) by lia. done.
Qed.

Definition set_len (b : bool) (x : Z) (c : tcp_connection) : tcp_connection := if b then set_recv_len x c else set_send_len x c.

Definition add_data (b : bool) (data : list Z) (t : tcb) : tcb :=
  mk_tcb (t_ends t) (t_state t) (t_seq t) (t_ack t) (if b then t_unread t ++ data else t_unread t)
    (if b then t_sent t else t_sent t ++ data).

(** The connection's buffer is replaced and its length set. *)
Lemma set_buffer_ok b i c p l n s M :
  net_wf s M → tcp_connections s !! i = Some c → in_use c = true → buf_of b c = Some p →
  0 ≤ n ≤ Z.of_nat (length l) → Z.of_nat (length l) ≤ TCP_BUF →
  let s' := upd_conn i (set_len b n) (with_bufs (<[p := l]> (n_bufs s)) s) in
  net_wf s' M ∧ others i s s' ∧ tcp_connections s' !! i = Some (set_len b n c) ∧
  abs s' i = Some (tcb_of (<[p := l]> (n_bufs s)) (set_len b n c)).
Proof.
  intros Hwf Hc Hu Hp Hn Hl s'. pose proof (nw_conn _ _ Hwf i c Hc Hu) as [Kc Kl Kb Kn K2].
  assert (∀ b', buf_of b' (set_len b n c) = buf_of b' c) as Eb by (intros []; by destruct b).
  assert (∀ b', len_of b' (set_len b n c) = if bool_decide (b = b') then n else len_of b' c) as El by (intros []; by destruct b).
  assert (in_use (set_len b n c) = true) as Eu by (by destruct b).
  assert (∀ b', buf_of b' c = Some p → b' = b) as Hone.
  { intros b' Hp'. destruct b, b'; try done; exfalso; cbn in Hp, Hp'; by eapply K2. }
  destruct (conn_change s s' M M i c (set_len b n c) Hwf Hc) as (W & O & A); try done.
  - cbn. by apply alter_as_insert.
  - apply Hwf.
  - intros q _ Hq. split; [|done]. cbn. apply lookup_insert_ne. intros <-. by eapply Hq.
  - intros _. split; [|intros b' q Hq; right; split; [done|]; exists b'; by rewrite <- Eb].
    split.
    + by destruct b.
    + intros b'. rewrite El. case_bool_decide; [lia|apply Kl].
    + intros b' q Hq. rewrite Eb in Hq. destruct (Kb b' q Hq) as (HM & l0 & HB & Hl0). split; [done|].
      rewrite El. cbn. destruct (decide (q = p)) as [->|Hne].
      * rewrite (Hone b' Hq), bool_decide_eq_true_2 by done. exists l. split; [apply lookup_insert_eq|lia].
      * exists l0. rewrite lookup_insert_ne by done. split; [done|]. case_bool_decide as Hbb; [|done].
        exfalso. apply Hne. subst b'. congruence.
    + intros b' Hnone. rewrite Eb in Hnone. rewrite El. case_bool_decide as Hbb; [|by apply Kn]. subst b'. congruence.
    + intros q. specialize (K2 q). by destruct b.
  - rewrite Eu in A. split; [done|]. split; [done|]. split; [|exact A]. cbn. by rewrite list_lookup_alter_eq, Hc.
Qed.

(** Appending to one of the buffers. *)
Lemma append_ok b i c p n avail s M :
  net_wf s M → tcp_connections s !! i = Some c → in_use c = true → buf_of b c = Some p →
  0 < n ≤ Z.of_nat (length avail) → len_of b c + n ≤ TCP_BUF →
  ∃ s1, append_to (buf_of b c) n (len_of b c) avail s = Some s1 ∧
    let s' := upd_conn i (set_len b (len_of b c + n)) s1 in
    net_wf s' M ∧ others i s s' ∧ tcp_connections s' !! i = Some (set_len b (len_of b c + n) c) ∧
    abs s' i = Some (add_data b (take (Z.to_nat n) avail) (tcb_of (n_bufs s) c)).
Proof.
  intros Hwf Hc Hu Hp Hn Hcap. pose proof (nw_conn _ _ Hwf i c Hc Hu) as [Kc Kl Kb Kn K2]. destruct (Kb b p Hp) as (HM & l & HB & Hl).
  unfold append_to. destruct (Z.leb_spec n 0); [lia|]. rewrite Hp. cbn [mbind option_bind]. rewrite HB. cbn [mbind option_bind].
  specialize (Kl b). destruct (copy_in_ok n (len_of b c) avail l) as (l' & -> & T & L); [lia..|]. cbn [mbind option_bind].
  eexists. split; [reflexivity|]. destruct (set_buffer_ok b i c p l' (len_of b c + n) s M Hwf Hc Hu Hp) as (W & O & C & A); [lia..|].
  split; [done|]. split; [done|]. split; [done|]. etransitivity; [exact A|]. f_equal.
  assert (∀ q, q ≠ p → held (<[p := l']> (n_bufs s)) (Some q) = held (n_bufs s) (Some q)) as Hne.
  { intros q Hq. unfold held. by rewrite lookup_insert_ne. }
  assert (held (<[p := l']> (n_bufs s)) (Some p) (len_of b c + n) = held (n_bufs s) (Some p) (len_of b c) ++ take (Z.to_nat n) avail) as Hnew.
  { unfold held. rewrite lookup_insert_eq, HB. exact T. }
  destruct b; cbn in Hp, Hnew |- *; unfold tcb_of, add_data; cbn; rewrite Hp; f_equal; try exact Hnew.
  - destruct (send_buf c) as [q|] eqn:Eq; [|done]. rewrite Hne; [done|]. intros ->. by eapply K2.
  - destruct (recv_buf c) as [q|] eqn:Eq; [|done]. rewrite Hne; [done|]. intros ->. by eapply K2.
Qed.

Definition undo (p : option Z) {A} (m : gmap Z A) : gmap Z A := match p with Some b => delete b m | None => m end.

Lemma free_buffer_ok p s M :
  kh_inv (n_heap s) M → (∀ b, p = Some b → is_Some (M !! b)) →
  ∃ h, free_buffer p s = Some (with_bufs (undo p (n_bufs s)) (with_heap h s)) ∧ kh_inv h (undo p M).
Proof.
  intros Hh Hp. destruct p as [b|]; cbn [free_buffer undo].
  - destruct (Hp b eq_refl) as [n Hn]. destruct (kh_free_ok _ _ _ _ Hh Hn) as (h & -> & Hh'). cbn [mbind option_bind]. eauto.
  - exists (n_heap s). split; [by destruct s|done].
Qed.

(** The allocations left when connection [c] is freed. *)
Definition freed (c : tcp_connection) (M : gmap Z Z) : gmap Z Z := undo (send_buf c) (undo (recv_buf c) M).

Lemma undo_ne {A} p (m : gmap Z A) q : p ≠ Some q → undo p m !! q = m !! q.
Proof. intros Hp. destruct p as [b|]; [|done]. cbn. apply lookup_delete_ne. congruence. Qed.

Lemma tcp_free_ok i c s M :
  net_wf s M → tcp_connections s !! i = Some c → in_use c = true →
  ∃ s', tcp_free_connection i s = Some s' ∧ net_wf s' (freed c M) ∧ others i s s' ∧ abs s' i = None ∧
    interfaces s' = interfaces s ∧ n_out s' = n_out s.
Proof.
  intros Hwf Hc Hu. pose proof (nw_conn _ _ Hwf i c Hc Hu) as [Kc Kl Kb Kn K2].
  assert (∀ b p, buf_of b c = Some p → is_Some (M !! p)) as HM by (intros b p Hp; destruct (Kb b p Hp); eauto).
  unfold tcp_free_connection. rewrite Hc. cbn [mbind option_bind].
  destruct (free_buffer_ok (recv_buf c) s M) as (h & -> & Hh); [apply Hwf|apply (HM true)|]. cbn [mbind option_bind].
  edestruct (free_buffer_ok (send_buf c) (with_bufs (undo (recv_buf c) (n_bufs s)) (with_heap h s)) (undo (recv_buf c) M)) as (h' & -> & Hh');
    [done| |cbn [mbind option_bind]].
  { intros b Hb. rewrite undo_ne; [by apply (HM false)|]. intros Hr. by eapply K2. }
  eexists. split; [reflexivity|]. match goal with |- net_wf ?x _ ∧ _ => set (s' := x) end.
  destruct (conn_change s s' M (freed c M) i c (set_in_use false c) Hwf Hc) as (W & O & A); try done.
  - cbn. by apply alter_as_insert.
  - intros q _ Hq. specialize (Hq Hu). pose proof (Hq true) as Hr. pose proof (Hq false) as Hs. cbn in Hr, Hs. cbn.
    unfold freed. by rewrite !undo_ne.
Qed.

Lemma new_buffer_ok s M :
  kh_inv (n_heap s) M →
  ∃ h r, new_buffer s = Some (with_bufs (match r with Some p => <[p := []]> (n_bufs s) | None => n_bufs s end) (with_heap h s), r) ∧
    match r with Some p => M !! p = None ∧ kh_inv h (<[p := TCP_BUF]> M) | None => kh_inv h M end.
Proof.
  intros Hh. unfold new_buffer. destruct (kh_alloc_ok _ _ TCP_BUF GFP_KERNEL Hh) as (h & r & -> & Hr); [done|]. cbn [mbind option_bind].
  exists h, r. destruct r as [p|]; [split; [done|tauto]|]. split; [by destruct s|done].
Qed.

Definition grown {A} (p : option Z) (x : A) (m : gmap Z A) : gmap Z A := match p with Some b => <[b := x]> m | None => m end.

Lemma grown_ne {A} p (x : A) (m : gmap Z A) q : p ≠ Some q → grown p x m !! q = m !! q.
Proof. intros Hp. destruct p as [b|]; [|done]. cbn. apply lookup_insert_ne. congruence. Qed.

Lemma first_conn_some f k l j :
  first_conn f k l = Some j → ∃ c, (k ≤ j)%nat ∧ l !! (j - k)%nat = Some c ∧ f c = true.
Proof.
  revert k. induction l as [|c l IH]; intros k; cbn [first_conn]; [done|]. destruct (f c) eqn:E.
  - intros [= <-]. exists c. by rewrite Nat.sub_diag.
  - intros Hj. destruct (IH _ Hj) as (d & Hle & Hd & Hf). exists d. split; [lia|]. split; [|done].
    replace (j - k)%nat with (S (j - S k)) by lia. done.
Qed.

Lemma first_conn_none f k l c i : first_conn f k l = None → l !! i = Some c → f c = false.
Proof.
  revert k i. induction l as [|d l IH]; intros k i; cbn [first_conn]; [done|]. destruct (f d) eqn:E; [done|]. intros Hn.
  destruct i as [|i]; [intros [= <-]; done|]. cbn. by apply (IH (S k)).
Qed.

(** A fresh connection in slot [i], or a full table. *)
Lemma tcp_alloc_ok s M :
  net_wf s M →
  (tcp_alloc_connection s = Some (s, None) ∧ ∀ i, i < MAX_TCP_CONNECTIONS → is_Some (abs s i))%nat ∨
  ∃ s' i c M', tcp_alloc_connection s = Some (s', Some i) ∧ abs s i = None ∧ net_wf s' M' ∧ others i s s' ∧
    tcp_connections s' !! i = Some c ∧ in_use c = true ∧ recv_len c = 0 ∧ send_len c = 0 ∧ freed c M' = M ∧
    interfaces s' = interfaces s ∧ num_interfaces s' = num_interfaces s ∧ n_out s' = n_out s ∧
    next_ephemeral_port s' = next_ephemeral_port s ∧ tcp_isn_counter s' = tcp_isn_counter s.
Proof.
  intros Hwf. unfold tcp_alloc_connection. destruct (first_conn _ 0 _) as [i|] eqn:Hi.
  2:{ left. split; [done|]. intros i Hlt. unfold abs. rewrite <- (nw_len _ _ Hwf) in Hlt. apply lookup_lt_is_Some in Hlt as [c Hc].
      rewrite Hc. cbn [mbind option_bind]. pose proof (first_conn_none _ _ _ _ _ Hi Hc) as Hf. cbn in Hf. destruct (in_use c); [eauto|done]. }
  right. destruct (first_conn_some _ _ _ _ Hi) as (c0 & _ & Hc0 & Hf). rewrite Nat.sub_0_r in Hc0. apply negb_true_iff in Hf.
  destruct (new_buffer_ok s M (nw_heap _ _ Hwf)) as (h & r & -> & Hr). cbn [mbind option_bind].
  assert (kh_inv h (grown r TCP_BUF M)) as Hh by (destruct r; tauto).
  edestruct (new_buffer_ok (with_bufs (grown r [] (n_bufs s)) (with_heap h s)) _ Hh) as (h2 & r2 & E2 & Hr2). unfold grown in E2 at 1.
  rewrite E2. cbn [mbind option_bind]. fold (grown r (@nil Z) (n_bufs s)).
  assert (kh_inv h2 (grown r2 TCP_BUF (grown r TCP_BUF M))) as Hh2 by (destruct r2; tauto).
  match goal with |- context [upd_conn i ?f _] => set (c := f c0) end.
  assert (∀ p, r = Some p → M !! p = None) as Hr' by (intros p ->; tauto).
  assert (∀ p, r2 = Some p → r ≠ Some p ∧ M !! p = None) as Hr2'.
  { intros p ->. destruct Hr2 as [Hn _]. assert (r ≠ Some p) as Hne; [|by rewrite grown_ne in Hn]. intros ->. cbn in Hn.
    by rewrite lookup_insert_eq in Hn. }
  do 4 eexists. split; [reflexivity|]. match goal with |- _ ∧ net_wf ?x _ ∧ _ => set (s' := x) end.
  split; [unfold abs; by rewrite Hc0; cbn; rewrite Hf|].
  assert (n_bufs s' = grown r2 [] (grown r [] (n_bufs s))) as EB by done.
  destruct (conn_change s s' M (grown r2 TCP_BUF (grown r TCP_BUF M)) i c0 c Hwf Hc0) as (W & O & A); try done.
  - cbn. by rewrite (alter_as_insert _ _ _ c0 Hc0).
  - intros q [n Hq] _. rewrite EB. assert (r ≠ Some q ∧ r2 ≠ Some q) as [? ?]; [|by rewrite !grown_ne].
    split; intros E; [apply Hr' in E|apply Hr2' in E as [_ E]]; congruence.
  - intros _. rewrite EB. split; [|intros [] p Hp; left; cbn in Hp; [by apply Hr'|by apply Hr2']].
    split; try done.
    + intros []; cbn; unfold TCP_BUF; lia.
    + intros [] p Hp; cbn in Hp; subst.
      * assert (r2 ≠ Some p) by (intros ->; destruct (Hr2' p eq_refl) as [Hx _]; done). rewrite !(grown_ne r2) by done. cbn.
        rewrite !lookup_insert_eq. split; [done|]. exists []. split; [done|]. cbn. unfold TCP_BUF. lia.
      * cbn. rewrite !lookup_insert_eq. split; [done|]. exists []. split; [done|]. cbn. unfold TCP_BUF. lia.
    + intros []; done.
    + intros p Hp Hs. cbn in Hp, Hs. subst. by destruct (Hr2' p eq_refl).
  - split; [done|]. split; [done|]. split; [cbn; rewrite list_lookup_alter_eq, Hc0; reflexivity|].
    split; [done|]. split; [done|]. split; [done|]. split; [|done].
    unfold freed. cbn. destruct r2 as [p2|], r as [p1|]; cbn; [| | |done].
    + destruct (Hr2' p2 eq_refl) as [Hne HM]. rewrite delete_insert_ne by congruence.
      by rewrite (delete_insert_id M p1), delete_insert_id by auto.
    + destruct (Hr2' p2 eq_refl). by rewrite delete_insert_id.
    + rewrite delete_insert_id by by apply Hr'. done.
Qed.

(** ** The calls on a connection and what they do to it *)

Definition moved (st : tcp_state) (t : tcb) : tcb := mk_tcb (t_ends t) st (t_seq t) (t_ack t) (t_unread t) (t_sent t).
Definition acked (a : Z) (t : tcb) : tcb := mk_tcb (t_ends t) (t_state t) (t_seq t) (u32 a) (t_unread t) (t_sent t).
Definition advanced (n : Z) (t : tcb) : tcb := mk_tcb (t_ends t) (t_state t) (u32 (t_seq t + n)) (t_ack t) (t_unread t) (t_sent t).

(** The payload the connection takes from a segment. *)
Definition accepted (flags : Z) (data : list Z) (t : tcb) : list Z :=
  if bool_decide (t_state t = TCP_ESTABLISHED) && negb (flag flags TCP_FIN) &&
     (Z.of_nat (length (t_unread t)) + Z.of_nat (length data) <=? TCP_BUF)
  then data else [].

(** The state machine: [None] is a connection that is gone. *)
Definition segment_spec (flags seq : Z) (data : list Z) (t : tcb) : option tcb :=
  let fin := flag flags TCP_FIN in
  let ack := flag flags TCP_ACK in
  match t_state t with
  | TCP_SYN_SENT =>
      if flag flags TCP_SYN && ack then Some (moved TCP_ESTABLISHED (acked (seq + 1) t))
      else if flag flags TCP_RST then None else Some t
  | TCP_ESTABLISHED =>
      if fin then Some (moved TCP_CLOSE_WAIT (acked (seq + Z.of_nat (length data) + 1) t))
      else match accepted flags data t with
           | [] => Some t
           | l => Some (acked (seq + Z.of_nat (length l)) (add_data true l t))
           end
  | TCP_FIN_WAIT_1 =>
      if fin then Some (moved (if ack then TCP_TIME_WAIT else TCP_CLOSING) (acked (seq + 1) t))
      else Some (if ack then moved TCP_FIN_WAIT_2 t else t)
  | TCP_FIN_WAIT_2 => Some (if fin then moved TCP_TIME_WAIT (acked (seq + 1) t) else t)
  | TCP_CLOSING => Some (if ack then moved TCP_TIME_WAIT t else t)
  | TCP_LAST_ACK => if ack then None else Some t
  | TCP_TIME_WAIT => None
  | TCP_CLOSED | TCP_LISTEN | TCP_SYN_RECEIVED | TCP_CLOSE_WAIT => Some t
  end.

Definition close_spec (t : tcb) : option tcb :=
  match t_state t with
  | TCP_ESTABLISHED => Some (advanced 1 (moved TCP_FIN_WAIT_1 t))
  | TCP_CLOSE_WAIT => Some (advanced 1 (moved TCP_LAST_ACK t))
  | TCP_SYN_SENT | TCP_LISTEN => None
  | _ => Some t
  end.

Inductive tcp_call := CSegment (flags seq : Z) (data : list Z) (len : Z) | CSend (data : list Z) | CRecv (len : Z) | CClose.

Definition run_call (i : nat) (call : tcp_call) s : option (net H * list Z * Z) :=
  match call with
  | CSegment flags seq data len => s' ← tcp_input i flags seq data len s; Some (s', [], 0)
  | CSend data => r ← tcp_send i data s; Some (fst r, [], snd r)
  | CRecv len => tcp_recv i len s
  | CClose => r ← tcp_close (Some i) s; Some (fst r, [], snd r)
  end.

(** What a call may do: the connection after it, the bytes delivered and the
    result. *)
Definition call_spec (call : tcp_call) (t : tcb) (t' : option tcb) (out : list Z) (r : Z) : Prop :=
  match call with
  | CSegment flags seq data len => t' = segment_spec flags seq (take (Z.to_nat len) data) t ∧ out = [] ∧ r = 0
  | CSend data =>
      let n := Z.of_nat (length data) in
      out = [] ∧
      if bool_decide (t_state t = TCP_ESTABLISHED) && (Z.of_nat (length (t_sent t)) + n <=? TCP_BUF)
      then r = n ∧ t' = Some (advanced n (add_data false data t)) ∨ r = -1 ∧ t' = Some (add_data false data t)
      else r = -1 ∧ t' = Some t
  | CRecv len =>
      let n := Z.to_nat len in
      out = take n (t_unread t) ∧ r = Z.of_nat (length out) ∧
      t' = Some (mk_tcb (t_ends t) (t_state t) (t_seq t) (t_ack t) (drop n (t_unread t)) (t_sent t))
  | CClose => t' = close_spec t ∧ out = [] ∧ r = 0
  end.

(** The arguments are what the C types allow, a segment's length is within the
    frame, and the buffers the call needs were allocated. *)
Definition call_ok (call : tcp_call) (c : tcp_connection) : Prop :=
  match call with
  | CSegment _ _ data len => 0 ≤ len ≤ Z.of_nat (length data) ∧ len < 2 ^ 16 ∧ recv_buf c ≠ None
  | CSend data => Z.of_nat (length data) < 2 ^ 32 ∧ send_buf c ≠ None
  | CRecv len => 0 ≤ len
  | CClose => True
  end.

(** The fields the buffers do not depend on are changed. *)
Definition same_bufs (c c' : tcp_connection) : Prop :=
  in_use c' = in_use c ∧ recv_capacity c' = recv_capacity c ∧ send_capacity c' = send_capacity c ∧
  (∀ b, buf_of b c' = buf_of b c) ∧ ∀ b, len_of b c' = len_of b c.

Lemma conn_ok_scalar B M c c' : same_bufs c c' → conn_ok B M c → conn_ok B M c'.
Proof.
  intros (_ & E1 & E2 & E3 & E4) [H1 H2 H3 H4 H5]. split; rewrite ?E1, ?E2.
  - done.
  - intros b. by rewrite E4.
  - intros b p. rewrite E3, E4. apply H3.
  - intros b. rewrite E3, E4. apply H4.
  - intros p. pose proof (E3 true) as Er. pose proof (E3 false) as Es. cbn in Er, Es. rewrite Er, Es. apply H5.
Qed.

(** [steps i c' s s'] : the connection in slot [i] is now [c'], its buffers
    and the other connections are as they were. *)
Record steps (i : nat) (c' : tcp_connection) s M s' : Prop := {
  st_wf : net_wf s' M;
  st_others : others i s s';
  st_conn : tcp_connections s' !! i = Some c';
  st_bufs : n_bufs s' = n_bufs s
}.

Lemma scalar_ok i c f s M :
  net_wf s M → tcp_connections s !! i = Some c → in_use c = true → same_bufs c (f c) → steps i (f c) s M (upd_conn i f s).
Proof.
  intros Hwf Hc Hu Hs. pose proof Hs as (E0 & _ & _ & E3 & _).
  destruct (upd_conn_ok i c f s M Hwf Hc Hu) as (W & O & A & C); [by rewrite E0|done| |by split].
  eapply conn_ok_scalar; [done|]. by eapply (nw_conn _ _ Hwf).
Qed.

Lemma steps_trans i c1 c2 s1 s2 s3 M : steps i c1 s1 M s2 → steps i c2 s2 M s3 → steps i c2 s1 M s3.
Proof. intros [W O C B] [W' O' C' B']. split; [done|by eapply others_trans|done|congruence]. Qed.

Lemma packet_steps i c flags data s M :
  net_wf s M → tcp_connections s !! i = Some c →
  ∃ s' r, tcp_send_packet i flags data s = Some (s', r) ∧ steps i c s M s' ∧ (r = 0 ∨ r = -1).
Proof.
  intros Hwf Hc. destruct (tcp_send_packet_ok i c flags data s M Hwf Hc) as (s' & r & E & Hq & W & Hr & _). exists s', r.
  split; [done|]. split; [|done]. split; [done|by apply quiet_others| |by apply Hq]. by rewrite (q_conns _ _ Hq).
Qed.

Lemma upd_ack_ok i c f s M :
  net_wf s M → tcp_connections s !! i = Some c → in_use c = true → same_bufs c (f c) →
  ∃ s', send_ack i (upd_conn i f s) = Some s' ∧ steps i (f c) s M s'.
Proof.
  intros Hwf Hc Hu Hs. pose proof (scalar_ok i c f s M Hwf Hc Hu Hs) as S1.
  destruct (packet_steps i (f c) TCP_ACK [] _ M (st_wf _ _ _ _ _ S1) (st_conn _ _ _ _ _ S1)) as (s' & r & E & S2 & _).
  unfold send_ack. rewrite E. exists s'. split; [done|]. by eapply steps_trans.
Qed.

Lemma steps_abs i c s M s' : steps i c s M s' → in_use c = true → abs s' i = Some (tcb_of (n_bufs s) c).
Proof. intros [W O C B] Hu. unfold abs. rewrite C. cbn [mbind option_bind]. by rewrite Hu, B. Qed.

Lemma land_pow2 x k : 0 ≤ k → Z.land x (2 ^ k) = if Z.testbit x k then 2 ^ k else 0.
Proof.
  intros Hk. apply Z.bits_inj'. intros n Hn. rewrite Z.land_spec, Z.pow2_bits_eqb by done.
  destruct (Z.eqb_spec k n) as [<-|Hne]; destruct (Z.testbit x k) eqn:E; rewrite ?E, ?andb_false_r, ?Z.bits_0, ?Z.pow2_bits_eqb by done.
  - by rewrite Z.eqb_refl.
  - done.
  - by destruct (Z.eqb_spec k n).
  - done.
Qed.

Lemma syn_ack_flags x : (Z.land x (Z.lor TCP_SYN TCP_ACK) =? Z.lor TCP_SYN TCP_ACK) = flag x TCP_SYN && flag x TCP_ACK.
Proof.
  unfold flag. rewrite Z.land_lor_distr_r. change TCP_SYN with (2 ^ 1). change TCP_ACK with (2 ^ 4). rewrite !land_pow2 by done.
  by destruct (Z.testbit x 1), (Z.testbit x 4).
Qed.

Lemma held_length B M c b : conn_ok B M c → Z.of_nat (length (held B (buf_of b c) (len_of b c))) = len_of b c.
Proof.
  intros [_ Kl Kb Kn _]. unfold held. destruct (buf_of b c) as [p|] eqn:E; [|by rewrite (Kn b E)].
  destruct (Kb b p E) as (_ & l & -> & Hl). cbn. rewrite length_take. specialize (Kl b). lia.
Qed.

Lemma data_segment_ok i c flags seq data len s M :
  net_wf s M → tcp_connections s !! i = Some c → in_use c = true → call_ok (CSegment flags seq data len) c →
  tc_state c = TCP_ESTABLISHED → flag flags TCP_FIN = false →
  ∃ s', tcp_input i flags seq data len s = Some s' ∧ net_wf s' M ∧ others i s s' ∧
    abs s' i = segment_spec flags seq (take (Z.to_nat len) data) (tcb_of (n_bufs s) c).
Proof.
  intros Hwf Hc Hu ([Hl0 Hl1] & Hl2 & Hbuf) Est Efin. pose proof (nw_conn _ _ Hwf i c Hc Hu) as Hok.
  pose proof (held_length _ _ _ true Hok) as Hheld. cbn in Hheld. pose proof (ck_len _ _ _ Hok true) as Hrl. cbn in Hrl.
  assert (Z.of_nat (length (take (Z.to_nat len) data)) = len) as Hlen by (rewrite length_take; lia).
  unfold tcp_input. rewrite Hc. cbn [mbind option_bind]. rewrite Est, Efin.
  unfold segment_spec. cbn [t_state tcb_of]. rewrite Est, Efin. unfold accepted. cbn [t_state tcb_of t_unread].
  rewrite Est, Efin, bool_decide_eq_true_2, Hheld, Hlen by done. cbn [andb negb].
  assert (abs s i = Some (tcb_of (n_bufs s) c)) as Habs by (unfold abs; rewrite Hc; cbn; by rewrite Hu).
  destruct (Z.ltb_spec 0 len).
  2:{ exists s. split; [done|]. split; [done|]. split; [done|]. assert (len = 0) as -> by lia. rewrite take_0. rewrite Habs. by destruct (_ <=? _). }
  destruct (ck_caps _ _ _ Hok) as [-> _]. unfold TCP_BUF in *. rewrite (u64_small (recv_len c + len)) by lia. destruct (Z.leb_spec (recv_len c + len) 65536).
  2:{ exists s. done. }
  destruct (recv_buf c) as [p|] eqn:Ep; [|done].
  destruct (append_ok true i c p len data s M Hwf Hc Hu) as (s1 & E1 & W & O & C & A); [done|lia|cbn; unfold TCP_BUF; lia|].
  cbn [buf_of len_of] in E1, W, O, C, A. change (set_len true (recv_len c + len)) with (set_recv_len (recv_len c + len)) in *. rewrite Ep in E1. rewrite E1. cbn [mbind option_bind].
  destruct (upd_ack_ok i (set_recv_len (recv_len c + len) c) (set_ack (u32 (seq + len))) _ M W C) as (s' & E & S'); [done|done|].
  assert (upd_conn i (set_ack (u32 (seq + len))) (upd_conn i (set_recv_len (recv_len c + len)) s1) =
    upd_conn i (λ c0, set_ack (u32 (seq + len)) (set_recv_len (recv_len c0 + len) c0)) s1) as Eupd.
  { assert (tcp_connections s1 !! i = Some c) as C1.
    { unfold append_to in E1. destruct (Z.leb_spec len 0); [lia|]. cbn [mbind option_bind] in E1. destruct (n_bufs s !! p); [|done].
      cbn [mbind option_bind] in E1. destruct (copy_in _ _ _ _); [|done]. injection E1 as <-. done. }
    unfold upd_conn, with_conns. cbn. f_equal. rewrite !(alter_as_insert _ _ _ _ C1).
    rewrite (alter_as_insert _ _ _ (set_recv_len (recv_len c + len) c)) by (apply list_lookup_insert_eq; by eapply lookup_lt_Some).
    by rewrite list_insert_insert_eq. }
  rewrite Eupd in E. rewrite E. exists s'. split; [done|]. destruct S' as [W' O' C' B']. split; [done|].
  split; [by eapply others_trans|]. unfold abs in *. rewrite C in A. cbn in A. rewrite Hu in A. rewrite C'. cbn [mbind option_bind in_use set_ack set_recv_len]. rewrite Hu, B'.
  destruct (take (Z.to_nat len) data) as [|x l] eqn:Et; [cbn in Hlen; lia|]. rewrite Hlen. f_equal.
  injection A as Au As. unfold tcb_of, acked, add_data. cbn. f_equal; [|done]. rewrite Ep in Au |- *. exact Au.
Qed.

(** A connection whose scalar fields change, then is freed. *)
Lemma upd_free_ok i c f s M :
  net_wf s M → tcp_connections s !! i = Some c → in_use c = true → same_bufs c (f c) →
  ∃ s' M', tcp_free_connection i (upd_conn i f s) = Some s' ∧ net_wf s' M' ∧ others i s s' ∧ abs s' i = None.
Proof.
  intros Hwf Hc Hu Hs. destruct (scalar_ok i c f s M Hwf Hc Hu Hs) as [W O C B]. pose proof Hs as [E _].
  destruct (tcp_free_ok i (f c) _ M W C) as (s' & E' & W' & O' & A & _); [by rewrite E|]. exists s', (freed (f c) M).
  split; [done|]. split; [done|]. split; [by eapply others_trans|done].
Qed.

Lemma segment_ok i c flags seq data len s M :
  net_wf s M → tcp_connections s !! i = Some c → in_use c = true → call_ok (CSegment flags seq data len) c →
  ∃ s' M', tcp_input i flags seq data len s = Some s' ∧ net_wf s' M' ∧ others i s s' ∧
    abs s' i = segment_spec flags seq (take (Z.to_nat len) data) (tcb_of (n_bufs s) c).
Proof.
  intros Hwf Hc Hu Hcall.
  assert (abs s i = Some (tcb_of (n_bufs s) c)) as Habs by (unfold abs; rewrite Hc; cbn [mbind option_bind]; by rewrite Hu).
  destruct (decide (tc_state c = TCP_ESTABLISHED ∧ flag flags TCP_FIN = false)) as [[Est Efin]|Hnd].
  { destruct (data_segment_ok i c flags seq data len s M Hwf Hc Hu Hcall Est Efin) as (s' & E). eauto. }
  assert (∀ f t, same_bufs c (f c) → tcb_of (n_bufs s) (f c) = t →
    ∃ s' M', send_ack i (upd_conn i f s) = Some s' ∧ net_wf s' M' ∧ others i s s' ∧ abs s' i = Some t) as Hack.
  { intros f t Hs <-. destruct (upd_ack_ok i c f s M Hwf Hc Hu Hs) as (s' & E & S'). exists s', M. split; [done|].
    split; [apply S'|]. split; [apply S'|]. eapply steps_abs; [exact S'|]. destruct Hs as [-> _]. done. }
  assert (∀ f t, same_bufs c (f c) → tcb_of (n_bufs s) (f c) = t →
    ∃ s' M', Some (upd_conn i f s) = Some s' ∧ net_wf s' M' ∧ others i s s' ∧ abs s' i = Some t) as Hset.
  { intros f t Hs <-. pose proof (scalar_ok i c f s M Hwf Hc Hu Hs) as S'. eexists _, M. split; [done|].
    split; [apply S'|]. split; [apply S'|]. eapply steps_abs; [exact S'|]. destruct Hs as [-> _]. done. }
  assert (∃ s' M', Some s = Some s' ∧ net_wf s' M' ∧ others i s s' ∧ abs s' i = Some (tcb_of (n_bufs s) c)) as Hstay by (exists s, M; done).
  assert (∀ st1 st2, ∃ s' M', (s ← send_ack i (upd_conn i (set_ack (u32 (seq + 1))) (upd_conn i (set_tstate st1) s));
      Some (upd_conn i (set_tstate st2) s)) = Some s' ∧ net_wf s' M' ∧ others i s s' ∧
      abs s' i = Some (moved st2 (acked (seq + 1) (tcb_of (n_bufs s) c)))) as Hfin.
  { intros st1 st2. pose proof (scalar_ok i c (set_tstate st1) s M Hwf Hc Hu ltac:(done)) as S1.
    destruct (upd_ack_ok i _ (set_ack (u32 (seq + 1))) _ M (st_wf _ _ _ _ _ S1) (st_conn _ _ _ _ _ S1) Hu ltac:(done)) as (s2 & -> & S2).
    cbn [mbind option_bind].
    pose proof (scalar_ok i _ (set_tstate st2) s2 M (st_wf _ _ _ _ _ S2) (st_conn _ _ _ _ _ S2) Hu ltac:(done)) as S3.
    pose proof (steps_trans _ _ _ _ _ _ _ S1 (steps_trans _ _ _ _ _ _ _ S2 S3)) as S'. eexists _, M. split; [reflexivity|].
    split; [apply S'|]. split; [apply S'|]. by rewrite (steps_abs _ _ _ _ _ S' Hu). }
  assert (upd_conn i (set_tstate (tc_state c)) s = s) as Eid.
  { unfold upd_conn. rewrite (alter_as_insert _ _ _ _ Hc). assert (set_tstate (tc_state c) c = c) as -> by (by destruct c).
    rewrite list_insert_id by done. by destruct s. }
  unfold tcp_input. rewrite Hc. cbn [mbind option_bind]. unfold segment_spec. cbn [t_state tcb_of].
  assert (Z.of_nat (length (take (Z.to_nat len) data)) = len) as Hlen by (rewrite length_take; destruct Hcall; lia).
  destruct (tc_state c) eqn:Est; try exact Hstay.
  - rewrite syn_ack_flags. destruct (_ && _); [by apply Hack|]. destruct (flag flags TCP_RST); [|exact Hstay].
    by apply (upd_free_ok i c (set_tstate TCP_CLOSED) s M).
  - destruct (flag flags TCP_FIN) eqn:Efin; [|tauto]. rewrite Hlen. by apply Hack.
  - destruct (flag flags TCP_ACK), (flag flags TCP_FIN); cbn [bool_decide]; [apply Hfin|by apply Hset|apply Hfin|].
    rewrite Eid. exact Hstay.
  - destruct (flag flags TCP_FIN); [|exact Hstay]. specialize (Hfin TCP_FIN_WAIT_2 TCP_TIME_WAIT). rewrite Eid in Hfin. exact Hfin.
  - destruct (flag flags TCP_ACK); [by apply Hset|exact Hstay].
  - destruct (flag flags TCP_ACK); [|exact Hstay]. by apply (upd_free_ok i c (set_tstate TCP_CLOSED) s M).
  - destruct (tcp_free_ok i c s M Hwf Hc Hu) as (s' & E & W & O & A & _). eauto 10.
Qed.

Lemma advance_ok i c n s M :
  net_wf s M → tcp_connections s !! i = Some c → in_use c = true →
  let s' := upd_conn i (λ c, set_seq (u32 (tc_seq c + n)) c) s in
  net_wf s' M ∧ others i s s' ∧ abs s' i = Some (advanced n (tcb_of (n_bufs s) c)).
Proof.
  intros Hwf Hc Hu s'. pose proof (scalar_ok i c (λ c, set_seq (u32 (tc_seq c + n)) c) s M Hwf Hc Hu ltac:(done)) as S'.
  split; [apply S'|]. split; [apply S'|]. exact (steps_abs _ _ _ _ _ S' Hu).
Qed.

(** The tail of a send: a packet, then the sequence number is advanced. *)
Lemma packet_advance_ok i c flags data n s M t :
  net_wf s M → tcp_connections s !! i = Some c → in_use c = true → abs s i = Some t →
  ∃ s1 r, tcp_send_packet i flags data s = Some (s1, r) ∧ (r = 0 ∨ r = -1) ∧
    net_wf s1 M ∧ others i s s1 ∧ abs s1 i = Some t ∧
    let s2 := upd_conn i (λ c, set_seq (u32 (tc_seq c + n)) c) s1 in
    net_wf s2 M ∧ others i s s2 ∧ abs s2 i = Some (advanced n t).
Proof.
  intros Hwf Hc Hu Ha. destruct (packet_steps i c flags data s M Hwf Hc) as (s1 & r & E & S1 & Hr). exists s1, r.
  split; [done|]. split; [done|]. pose proof S1 as [W O C B]. split; [done|]. split; [done|].
  assert (abs s1 i = Some t) as A1.
  { rewrite (steps_abs _ _ _ _ _ S1 Hu), <- Ha. unfold abs. rewrite Hc. cbn [mbind option_bind]. by rewrite Hu. }
  split; [done|]. destruct (advance_ok i c n s1 M W C Hu) as (W2 & O2 & A2). split; [done|]. split; [by eapply others_trans|].
  etransitivity; [exact A2|]. do 2 f_equal. rewrite (steps_abs _ _ _ _ _ S1 Hu) in A1. rewrite B. congruence.
Qed.

Lemma send_ok i c data s M :
  net_wf s M → tcp_connections s !! i = Some c → in_use c = true → call_ok (CSend data) c →
  ∃ s' r, tcp_send i data s = Some (s', r) ∧ net_wf s' M ∧ others i s s' ∧
    call_spec (CSend data) (tcb_of (n_bufs s) c) (abs s' i) [] r.
Proof.
  intros Hwf Hc Hu [Hlen Hbuf]. pose proof (nw_conn _ _ Hwf i c Hc Hu) as Hok.
  pose proof (held_length _ _ _ false Hok) as Hheld. cbn in Hheld. pose proof (ck_len _ _ _ Hok false) as Hsl. cbn in Hsl.
  assert (abs s i = Some (tcb_of (n_bufs s) c)) as Habs by (unfold abs; rewrite Hc; cbn [mbind option_bind]; by rewrite Hu).
  unfold tcp_send. rewrite Hc. cbn [mbind option_bind call_spec t_state t_sent tcb_of]. rewrite Hheld.
  destruct (decide (tc_state c = TCP_ESTABLISHED)) as [Est|Est].
  2:{ rewrite bool_decide_eq_false_2 by done. cbn [negb andb]. exists s, (-1). rewrite Habs. done. }
  rewrite bool_decide_eq_true_2 by done. cbn [negb andb]. destruct (ck_caps _ _ _ Hok) as [_ ->].
  set (n := Z.of_nat (length data)) in *. rewrite (u64_small (send_len c + n)) by (unfold TCP_BUF in *; lia).
  rewrite (Z.ltb_antisym (send_len c + n) TCP_BUF). destruct (Z.leb_spec (send_len c + n) TCP_BUF) as [Hfit|Hfit]; cbn [negb].
  2:{ exists s, (-1). rewrite Habs. done. }
  destruct (send_buf c) as [p|] eqn:Ep; [|done].
  assert (∃ s1, append_to (Some p) n (send_len c) data s = Some s1 ∧
    let s' := upd_conn i (set_send_len (send_len c + n)) s1 in
    net_wf s' M ∧ others i s s' ∧ (∃ c', tcp_connections s' !! i = Some c' ∧ in_use c' = true) ∧
    abs s' i = Some (add_data false data (tcb_of (n_bufs s) c))) as (s1 & -> & W & O & (c' & C & Hu') & A).
  { destruct (decide (n = 0)) as [E0|E0].
    - rewrite E0. exists s. split; [done|]. rewrite Z.add_0_r.
      assert (upd_conn i (set_send_len (send_len c)) s = s) as ->.
      { unfold upd_conn. rewrite (alter_as_insert _ _ _ _ Hc), list_insert_id; [by destruct s|]. rewrite Hc. by destruct c. }
      split; [done|]. split; [done|]. split; [eauto|]. rewrite Habs. f_equal. unfold add_data.
      destruct data; [|unfold n in *; cbn in *; lia]. by rewrite app_nil_r.
    - destruct (append_ok false i c p n data s M Hwf Hc Hu Ep) as (s1 & E1 & W & O & C & A); [unfold n in *; lia|done|].
      cbn [buf_of len_of] in E1. rewrite Ep in E1. exists s1. split; [done|].
      replace (Z.to_nat n) with (length data) in A by (unfold n; lia). rewrite firstn_all in A. split; [done|]. split; [done|]. split; [eauto|done]. }
  cbn [mbind option_bind].
  destruct (packet_advance_ok i c' (Z.lor TCP_PSH TCP_ACK) data n _ M _ W C Hu' A) as (s2 & r & -> & Hr & W2 & O2 & A2 & W3 & O3 & A3).
  cbn [mbind option_bind]. destruct Hr as [-> | ->]; cbn [Z.eqb].
  - eexists _, (i32 n). split; [reflexivity|]. split; [done|]. split; [by eapply others_trans|]. split; [done|]. left.
    split; [apply i32_small; unfold TCP_BUF, n in *; lia|done].
  - exists s2, (-1). split; [done|]. split; [done|]. split; [by eapply others_trans|]. split; [done|]. by right.
Qed.

Lemma recv_ok i c len s M :
  net_wf s M → tcp_connections s !! i = Some c → in_use c = true → 0 ≤ len →
  ∃ s' out r, tcp_recv i len s = Some (s', out, r) ∧ net_wf s' M ∧ others i s s' ∧
    call_spec (CRecv len) (tcb_of (n_bufs s) c) (abs s' i) out r.
Proof.
  intros Hwf Hc Hu Hlen. pose proof (nw_conn _ _ Hwf i c Hc Hu) as Hok. pose proof (held_length _ _ _ true Hok) as Hheld. cbn in Hheld.
  pose proof Hok as [_ Kl Kb Kn K2]. specialize (Kl true). specialize (Kn true). cbn in Kl, Kn. unfold TCP_BUF in Kl.
  unfold tcp_recv. rewrite Hc. cbn [mbind option_bind call_spec t_ends t_state t_seq t_ack t_unread t_sent tcb_of].
  destruct (Z.eqb_spec (recv_len c) 0) as [E0|E0].
  { assert (held (n_bufs s) (recv_buf c) (recv_len c) = []) as Eh by (apply nil_length_inv; lia).
    exists s, [], 0. split; [done|]. split; [done|]. split; [done|]. rewrite Eh, take_nil, drop_nil. split; [done|]. split; [done|].
    unfold abs. rewrite Hc. cbn [mbind option_bind]. rewrite Hu. unfold tcb_of. by rewrite Eh. }
  destruct (recv_buf c) as [p|] eqn:Ep; [|by specialize (Kn eq_refl)]. cbn [mbind option_bind].
  destruct (Kb true p Ep) as (HM & l & HB & Hl). cbn in Hl. unfold TCP_BUF in Hl. rewrite HB. cbn [mbind option_bind].
  destruct (Z.ltb_spec (Z.of_nat (length l)) (recv_len c)); [lia|].
  set (n := if len <? recv_len c then len else recv_len c). set (live := take (Z.to_nat (recv_len c)) l).
  assert (0 ≤ n ≤ recv_len c) as Hn by (unfold n; destruct (Z.ltb_spec len (recv_len c)); lia).
  assert (Z.of_nat (length live) = recv_len c) as Hlive by (unfold live; rewrite length_take; lia).
  assert (held (n_bufs s) (Some p) (recv_len c) = live) as Eh by (unfold held; by rewrite HB). rewrite Eh.
  assert (take (Z.to_nat len) live = take (Z.to_nat n) live ∧ drop (Z.to_nat len) live = drop (Z.to_nat n) live) as [-> ->].
  { unfold n. destruct (Z.ltb_spec len (recv_len c)); [done|]. rewrite !take_ge, !drop_ge by lia. done. }
  set (mvd := drop (Z.to_nat n) live).
  assert (Z.of_nat (length mvd) = recv_len c - n) as Hmvd by (unfold mvd; rewrite length_drop; lia).
  destruct (set_buffer_ok true i c p (mvd ++ drop (length mvd) l) (recv_len c - n) s M Hwf Hc Hu Ep) as (W & O & C & A);
    [rewrite length_app, length_drop; unfold TCP_BUF; lia..|].
  eexists _, (take (Z.to_nat n) live), (i32 n). split; [reflexivity|]. split; [exact W|]. split; [exact O|].
  split; [done|]. split; [rewrite i32_small, length_take by lia; lia|]. etransitivity; [exact A|]. f_equal.
  unfold tcb_of. cbn. rewrite Ep. f_equal.
  - unfold held. rewrite lookup_insert_eq. cbn. replace (Z.to_nat (recv_len c - n)) with (length mvd) by lia. apply take_app_length.
  - destruct (send_buf c) as [q|] eqn:Eq; [|done]. unfold held. rewrite lookup_insert_ne; [done|]. intros <-. by eapply K2.
Qed.

Lemma tcp_close_ok i c s M :
  net_wf s M → tcp_connections s !! i = Some c → in_use c = true →
  ∃ s' M', tcp_close (Some i) s = Some (s', 0) ∧ net_wf s' M' ∧ others i s s' ∧ abs s' i = close_spec (tcb_of (n_bufs s) c).
Proof.
  intros Hwf Hc Hu. unfold tcp_close. rewrite Hc. cbn [mbind option_bind]. rewrite Hu. cbn [negb]. unfold close_spec. cbn [t_state tcb_of].
  assert (abs s i = Some (tcb_of (n_bufs s) c)) as Habs by (unfold abs; rewrite Hc; cbn [mbind option_bind]; by rewrite Hu).
  assert (∃ s' M', Some (s, 0) = Some (s', 0) ∧ net_wf s' M' ∧ others i s s' ∧ abs s' i = Some (tcb_of (n_bufs s) c)) as Hstay by (exists s, M; done).
  assert (∃ s' M', (s ← tcp_free_connection i s; Some (s, 0)) = Some (s', 0) ∧ net_wf s' M' ∧ others i s s' ∧ abs s' i = None) as Hfree.
  { destruct (tcp_free_ok i c s M Hwf Hc Hu) as (s' & -> & W & O & A & _). cbn. eauto 10. }
  assert (∀ st, ∃ s' M',
    (r ← tcp_send_packet i (Z.lor TCP_FIN TCP_ACK) [] (upd_conn i (set_tstate st) s);
     Some (upd_conn i (λ c, set_seq (u32 (tc_seq c + 1)) c) (fst r), 0)) = Some (s', 0) ∧ net_wf s' M' ∧ others i s s' ∧
    abs s' i = Some (advanced 1 (moved st (tcb_of (n_bufs s) c)))) as Hfin.
  { intros st. pose proof (scalar_ok i c (set_tstate st) s M Hwf Hc Hu ltac:(done)) as S1.
    destruct (packet_advance_ok i _ (Z.lor TCP_FIN TCP_ACK) [] 1 _ M _ (st_wf _ _ _ _ _ S1) (st_conn _ _ _ _ _ S1) Hu
      (steps_abs _ _ _ _ _ S1 Hu)) as (s2 & r & -> & Hr & W2 & O2 & A2 & W3 & O3 & A3).
    cbn [mbind option_bind fst]. eexists _, M. split; [reflexivity|]. split; [done|].
    split; [eapply others_trans; [apply S1|done]|]. done. }
  destruct (tc_state c) eqn:Est; try exact Hstay; try exact Hfree; apply Hfin.
Qed.

Lemma run_call_ok i call c s M :
  net_wf s M → tcp_connections s !! i = Some c → in_use c = true → call_ok call c →
  ∃ s' out r M', run_call i call s = Some (s', out, r) ∧ net_wf s' M' ∧ others i s s' ∧
    call_spec call (tcb_of (n_bufs s) c) (abs s' i) out r.
Proof.
  intros Hwf Hc Hu Hcall. destruct call as [flags seq data len|data|len|]; cbn [run_call].
  - destruct (segment_ok i c flags seq data len s M Hwf Hc Hu Hcall) as (s' & M' & -> & W & O & A). cbn [mbind option_bind].
    exists s', [], 0, M'. done.
  - destruct (send_ok i c data s M Hwf Hc Hu Hcall) as (s' & r & -> & W & O & A). cbn [mbind option_bind fst snd]. exists s', [], r, M. done.
  - destruct (recv_ok i c len s M Hwf Hc Hu Hcall) as (s' & out & r & -> & W & O & A). exists s', out, r, M. done.
  - destruct (tcp_close_ok i c s M Hwf Hc Hu) as (s' & M' & -> & W & O & A). cbn [mbind option_bind fst snd]. exists s', [], 0, M'. done.
Qed.

(** C15: every call on an open connection (an incoming segment as
    tcp_handle_segment decodes it, send, receive, close) whose arguments
    satisfy [call_ok] is defined: the length of a segment's data is not
    negative, not beyond the frame and below 2^16, a send is shorter than 2^32,
    and the buffer that a segment or a send writes to has been allocated.  The
    call keeps the connection table well formed, leaves the other connections
    as they were, and on its own connection does what the abstract TCP state
    machine says: state, sequence numbers, the bytes waiting to be read and the
    bytes accepted for sending.  Where [call_ok] fails the call need not be
    defined ([short_segment_overruns], [null_buffer_written]). *)
Theorem tcp_calls_refine i call c s M :
  net_wf s M → tcp_connections s !! i = Some c → in_use c = true → call_ok call c →
  ∃ s' out r M', run_call i call s = Some (s', out, r) ∧ net_wf s' M' ∧ others i s s' ∧
    call_spec call (tcb_of (n_bufs s) c) (abs s' i) out r.
Proof.
  apply run_call_ok.
Qed.

(** The connection that a successful connect opens. *)
Definition opened (x : net_interface) (dest_ip dest_port : Z) s : tcb :=
  mk_tcb (if_ip x, next_ephemeral_port s, dest_ip, dest_port) TCP_SYN_SENT
    (u32 (u32 (tcp_isn_counter s * 1103515245 + 12345) + 1)) 0 [] [].

(** C37: tcp_connect fails without a trace (no slot taken, nothing leaked), or
    opens a slot that was free, leaving the others alone: the connection is in
    SYN_SENT with empty buffers, one past a fresh initial sequence number.  A
    SYN packet from this connection is handed to the driver of the first
    interface if that has a send function; if it has none nothing is sent and
    tcp_connect succeeds all the same ([connect_sends_nothing]). *)
Theorem tcp_connect_correct dest_ip dest_port s M :
  net_wf s M →
  ∃ s' r M', tcp_connect dest_ip dest_port s = Some (s', r) ∧ net_wf s' M' ∧
    (r = -1 ∧ M' = M ∧ (∀ j, abs s' j = abs s j) ∨
     ∃ i x c p, r = Z.of_nat i ∧ abs s i = None ∧ others i s s' ∧ interfaces s !! 0%nat = Some x ∧
       abs s' i = Some (opened x dest_ip dest_port s) ∧
       t_ends (opened x dest_ip dest_port s) = (local_ip c, local_port c, remote_ip c, remote_port c) ∧
       t_seq (opened x dest_ip dest_port s) = u32 (tc_seq c + 1) ∧
       wire x c TCP_SYN [] = Some p ∧ n_out s' = n_out s ++ (if if_send x then [p] else [])).
Proof.
  intros Hwf. unfold tcp_connect.
  destruct (tcp_alloc_ok s M Hwf) as [[-> _]|(s1 & i & c & M1 & -> & Hfree & W1 & O1 & C1 & Hu & Hrl & Hsl & HM & Ei & En & Eo & Ep & Eisn)]; cbn [mbind option_bind].
  { exists s, (-1), M. split; [done|]. split; [done|]. by left. }
  assert (∀ c' s2, steps i c' s1 M1 s2 → same_bufs c c' →
    ∃ s', (s ← tcp_free_connection i s2; Some (s, -1)) = Some (s', -1) ∧ net_wf s' M ∧ ∀ j, abs s' j = abs s j) as Hundo.
  { intros c' s2 [W O C B] Hs. destruct (tcp_free_ok i c' s2 M1 W C) as (s' & -> & W' & O' & A' & _); [destruct Hs as [-> _]; done|].
    exists s'. split; [done|]. assert (freed c' M1 = M) as <-.
    { rewrite <- HM. destruct Hs as (_ & _ & _ & Hb & _). unfold freed. pose proof (Hb true) as Er. pose proof (Hb false) as Es. cbn in Er, Es. by rewrite Er, Es. }
    split; [done|]. intros j. destruct (decide (j = i)) as [->|Hj]; [congruence|]. by rewrite O', O, O1. }
  destruct (Z.eqb_spec (num_interfaces s1) 0) as [E0|E0].
  { destruct (Hundo c s1) as (s' & E' & W' & A'); [by split|done|]. exists s', (-1), M. split; [done|]. split; [done|]. by left. }
  destruct (nw_if _ _ W1) as [|[x Hx]]; [done|]. rewrite Hx. cbn [mbind option_bind tcp_generate_isn].
  match goal with |- context [upd_conn i ?f (with_ports ?a ?b ?y)] => set (f0 := f); set (s2 := with_ports a b y) end.
  assert (quiet s1 s2) as Hq by (split; done). pose proof (quiet_wf _ _ _ W1 Hq (nw_heap _ _ W1)) as W2.
  pose proof (scalar_ok i c f0 s2 M1 W2 C1 Hu ltac:(done)) as S3. set (s3 := upd_conn i f0 s2) in *.
  destruct (tcp_send_packet_ok i (f0 c) TCP_SYN [] s3 M1 (st_wf _ _ _ _ _ S3) (st_conn _ _ _ _ _ S3)) as (s4 & r & -> & Hq4 & W4 & Hr & Hout).
  cbn [mbind option_bind]. assert (steps i (f0 c) s1 M1 s4) as S4.
  { destruct S3 as [W O C B]. split; [done| | |]; [|by rewrite (q_conns _ _ Hq4)|by rewrite (q_bufs _ _ Hq4)].
    eapply others_trans; [|by apply quiet_others]. eapply others_trans; [by apply quiet_others|done]. }
  destruct Hr as [-> | ->]; cbn [Z.ltb Z.compare].
  2:{ destruct (Hundo (f0 c) s4 S4 ltac:(done)) as (s' & -> & W' & A'). exists s', (-1), M. split; [done|]. split; [done|]. by left. }
  destruct (advance_ok i (f0 c) 1 s4 M1 W4 (st_conn _ _ _ _ _ S4) Hu) as (W5 & O5 & A5).
  destruct (Hout eq_refl) as (x' & p & Hx' & Hp & Ho). assert (x' = x) as -> by (cbn in Hx'; congruence).
  eexists _, _, M1. split; [reflexivity|]. split; [done|]. right. exists i, x, (f0 c), p. split; [done|]. split; [done|].
  split. { eapply others_trans; [exact O1|]. eapply others_trans; [apply S4|exact O5]. }
  split; [congruence|]. split.
  { etransitivity; [exact A5|]. f_equal. unfold advanced, opened, tcb_of. cbn. rewrite Ep, Eisn, Hrl, Hsl. unfold held.
    by destruct (recv_buf c), (send_buf c). }
  split; [cbn; by rewrite Ep|]. split; [cbn; by rewrite Eisn|]. split; [exact Hp|]. cbn. rewrite Ho. cbn. by rewrite Eo.
Qed.

(** ** The byte stream *)

(** What connection [i] takes in by a call on connection [j]. *)
Definition taken (i j : nat) (call : tcp_call) s : list Z :=
  match call, abs s i with
  | CSegment flags _ data len, Some t => if decide (j = i) then accepted flags (take (Z.to_nat len) data) t else []
  | _, _ => []
  end.

(** Calls on any connections: the bytes connection [i] takes in, and the bytes
    its user reads. *)
Inductive trace (i : nat) : net H → list Z → list Z → net H → Prop :=
| trace_nil s : trace i s [] [] s
| trace_step j call c s s1 out r acc del s' :
    tcp_connections s !! j = Some c → in_use c = true → call_ok call c → run_call j call s = Some (s1, out, r) →
    trace i s1 acc del s' → trace i s (taken i j call s ++ acc) ((if decide (j = i) then out else []) ++ del) s'.

Lemma accepted_fits flags data t :
  Z.of_nat (length (t_unread t)) ≤ TCP_BUF → Z.of_nat (length (t_unread t ++ accepted flags data t)) ≤ TCP_BUF.
Proof.
  intros Ht. unfold accepted. rewrite length_app. destruct (_ && _) eqn:E; [|cbn; lia].
  apply andb_true_iff in E as [_ E]. apply Z.leb_le in E. lia.
Qed.

Lemma call_spec_stream call t t' out r :
  call_spec call t (Some t') out r →
  t_unread t ++ match call with CSegment flags _ data len => accepted flags (take (Z.to_nat len) data) t | _ => [] end = out ++ t_unread t'.
Proof.
  destruct call as [flags seq data len|data|len|]; cbn [call_spec].
  - intros (E & -> & _). cbn. unfold segment_spec in E. unfold accepted in *.
    destruct (t_state t) eqn:Est; repeat case_match; simplify_eq; rewrite ?app_nil_r; try done.
  - intros [-> E]. rewrite app_nil_r. destruct (_ && _); naive_solver.
  - intros (-> & _ & [= ->]). cbn. by rewrite app_nil_r, take_drop.
  - intros (E & -> & _). rewrite app_nil_r. unfold close_spec in E. destruct (t_state t); naive_solver.
Qed.

Lemma trace_gone i s acc del s' M : net_wf s M → abs s i = None → trace i s acc del s' → acc = [] ∧ del = [] ∧ abs s' i = None.
Proof.
  intros Hwf Hn Htr. revert M Hwf Hn. induction Htr as [s|j call c s s1 out r acc del s' Hc Hu Hcall Hrun Htr IH]; intros M Hwf Hn; [done|].
  assert (j ≠ i) as Hj by (intros ->; unfold abs in Hn; rewrite Hc in Hn; cbn in Hn; by rewrite Hu in Hn).
  destruct (run_call_ok j call c s M Hwf Hc Hu Hcall) as (s2 & out2 & r2 & M' & E & W & O & _). rewrite Hrun in E. simplify_eq.
  destruct (IH M' W) as (-> & -> & A); [by rewrite O|]. rewrite !app_nil_r. rewrite decide_False by done. split; [|done].
  unfold taken. rewrite Hn. by destruct call.
Qed.

(** C16: the received bytes form a stream: over any sequence of calls on any
    connections, what was waiting in connection [i] followed by the payloads
    it accepted since is what its user has read, in order and without loss or
    duplication, followed by what is still waiting, which never exceeds the
    64 KB buffer. *)
Theorem tcp_stream_fifo i s acc del s' t M :
  net_wf s M → abs s i = Some t → trace i s acc del s' →
  ∃ rest, t_unread t ++ acc = del ++ rest ∧ Z.of_nat (length rest) ≤ TCP_BUF ∧
    match abs s' i with Some t' => t_unread t' = rest | None => True end.
Proof.
  intros Hwf Ht Htr. revert t M Hwf Ht.
  assert (∀ s t M, net_wf s M → abs s i = Some t → Z.of_nat (length (t_unread t)) ≤ TCP_BUF) as Hbound.
  { clear. intros s t M Hwf Ht. unfold abs in Ht. destruct (tcp_connections s !! i) as [c|] eqn:Hc; [|done]. cbn in Ht.
    destruct (in_use c) eqn:Hu; [|done]. injection Ht as <-. pose proof (nw_conn _ _ Hwf i c Hc Hu) as Hok.
    pose proof (held_length _ _ _ true Hok) as Hh. pose proof (ck_len _ _ _ Hok true). cbn in *. lia. }
  induction Htr as [s|j call c s s1 out r acc del s' Hc Hu Hcall Hrun Htr IH]; intros t M Hwf Ht.
  { exists (t_unread t). rewrite app_nil_r, Ht. split; [done|]. split; [by eapply Hbound|done]. }
  destruct (run_call_ok j call c s M Hwf Hc Hu Hcall) as (s2 & out2 & r2 & M' & E & W & O & Hspec). rewrite Hrun in E. simplify_eq.
  unfold taken. rewrite Ht. destruct (decide (j = i)) as [->|Hj].
  2:{ destruct (IH t M' W) as (rest & E' & Hl & Hm); [by rewrite O|]. exists rest. split; [|done]. by destruct call. }
  assert (t = tcb_of (n_bufs s) c) as -> by (unfold abs in Ht; rewrite Hc in Ht; cbn in Ht; rewrite Hu in Ht; congruence).
  destruct (abs s2 i) as [t1|] eqn:A1.
  - destruct (IH t1 M' W eq_refl) as (rest & E' & Hl & Hm). exists rest. split; [|done].
    rewrite <- app_assoc, <- E', !app_assoc. f_equal. exact (call_spec_stream _ _ _ _ _ Hspec).
  - destruct (trace_gone i s2 acc del s' M' W A1 Htr) as (-> & -> & ->). specialize (Hbound s _ M Hwf Ht).
    destruct call as [flags seq data len|data|len|]; cbn [call_spec] in Hspec; cbn [app]; rewrite ?app_nil_r.
    + destruct Hspec as (_ & -> & _). eexists. split; [reflexivity|]. split; [by apply accepted_fits|done].
    + destruct Hspec as [-> _]. eexists. split; [reflexivity|done].
    + by destruct Hspec as (_ & _ & [=]).
    + destruct Hspec as (_ & -> & _). eexists. split; [reflexivity|done].
Qed.

(** ** From one machine to the other *)

Lemma counted_wf k y n s M : net_wf s M → interfaces s !! k = Some y → net_wf (counted k y n s) M ∧ ∀ j, abs (counted k y n s) j = abs s j.
Proof.
  intros Hwf Hy. split; [|done]. apply (quiet_wf s); [done| |apply Hwf]. split; try done. cbn. apply list_lookup_insert_is_Some.
Qed.

Lemma find_in_use a b c d s j : tcp_find_connection a b c d s = Some j → ∃ k, tcp_connections s !! j = Some k ∧ in_use k = true.
Proof.
  intros Hf. destruct (first_conn_some _ _ _ _ Hf) as (k & _ & Hk & Hb). rewrite Nat.sub_0_r in Hk. exists k. split; [done|].
  by repeat apply andb_true_iff in Hb as [Hb _].
Qed.

(** A data packet of [c] at a machine whose connection [j] it belongs to. *)
Lemma packet_arrives x c data p s M k y j c2 :
  wire x c (Z.lor TCP_PSH TCP_ACK) data = Some p → conn_ranges c → Forall is_byte data → length (if_mac x) = ETH_ALEN →
  0 < Z.of_nat (length data) → 40 + Z.of_nat (length data) < 65536 →
  net_wf s M → interfaces s !! k = Some y →
  tcp_find_connection (local_ip c) (local_port c) (remote_ip c) (remote_port c) s = Some j → tcp_connections s !! j = Some c2 →
  tc_state c2 = TCP_ESTABLISHED → recv_buf c2 ≠ None → recv_len c2 + Z.of_nat (length data) ≤ TCP_BUF →
  ∃ s', net_rx k p s = Some s' ∧ net_wf s' M ∧ others j s s' ∧
    abs s' j = Some (acked (tc_seq c + Z.of_nat (length data)) (add_data true data (tcb_of (n_bufs s) c2))).
Proof.
  intros Hp Hr Hb Hmac Hpos Hlen Hwf Hy Hf Hc2 Est Hbuf Hroom. destruct (find_in_use _ _ _ _ _ _ Hf) as (k' & Hk' & Hu).
  assert (k' = c2) as -> by congruence.
  destruct (wire_decodes x c (Z.lor TCP_PSH TCP_ACK) data Hr ltac:(done) Hb Hlen Hmac) as (p' & Hp' & _ & _ & _ & Hrx).
  assert (p' = p) as -> by congruence. rewrite (Hrx s k y Hy), Hf. clear Hp Hp' Hrx.
  destruct (counted_wf k y (Z.of_nat (length p)) s M Hwf Hy) as [W1 A1].
  destruct (data_segment_ok j c2 (Z.lor TCP_PSH TCP_ACK) (tc_seq c) data (Z.of_nat (length data)) _ M W1 Hc2 Hu) as (s' & -> & W & O & A);
    [by split; [lia|split; [lia|]]|done|done|].
  exists s'. split; [done|]. split; [done|]. split; [intros i Hi; rewrite O by done; apply A1|]. rewrite A.
  unfold segment_spec. cbn [t_state tcb_of]. rewrite Est. change (flag (Z.lor TCP_PSH TCP_ACK) TCP_FIN) with false. cbn iota.
  rewrite Nat2Z.id, firstn_all. unfold accepted. cbn [t_state tcb_of t_unread]. rewrite Est, bool_decide_eq_true_2 by done.
  change (flag (Z.lor TCP_PSH TCP_ACK) TCP_FIN) with false. cbn [negb andb].
  pose proof (held_length _ _ _ true (nw_conn _ _ Hwf j c2 Hc2 Hu)) as Hh. cbn in Hh.
  change (n_bufs (counted k y (Z.of_nat (length p)) s)) with (n_bufs s). rewrite Hh.
  destruct (Z.leb_spec (recv_len c2 + Z.of_nat (length data)) TCP_BUF); [|lia].
  destruct data as [|z l]; [cbn in Hpos; lia|done].
Qed.

Lemma wire_send_len x n c flags data : wire x (set_send_len n c) flags data = wire x c flags data.
Proof. unfold wire. cbn [set_send_len local_ip local_port remote_ip remote_port tc_seq tc_ack recv_wnd]. reflexivity. Qed.

(** What a successful [tcp_send] hands to the driver. *)
Lemma tcp_send_output i c x data s M :
  net_wf s M → tcp_connections s !! i = Some c → in_use c = true → send_buf c ≠ None → tc_state c = TCP_ESTABLISHED →
  0 < Z.of_nat (length data) → send_len c + Z.of_nat (length data) ≤ TCP_BUF →
  num_interfaces s ≠ 0 → interfaces s !! 0%nat = Some x → if_send x = true →
  ∃ s' r, tcp_send i data s = Some (s', r) ∧
    (r = -1 ∨ r = Z.of_nat (length data) ∧ ∃ p, wire x c (Z.lor TCP_PSH TCP_ACK) data = Some p ∧ n_out s' = n_out s ++ [p]).
Proof.
  intros Hwf Hc Hu Hbuf Est Hpos Hroom Hn Hx Hsend. pose proof (nw_conn _ _ Hwf i c Hc Hu) as Hok.
  pose proof (ck_len _ _ _ Hok false) as Hsl. cbn in Hsl. unfold tcp_send. rewrite Hc. cbn [mbind option_bind].
  rewrite bool_decide_eq_true_2 by done. cbn [negb]. destruct (ck_caps _ _ _ Hok) as [_ ->]. set (n := Z.of_nat (length data)) in *.
  rewrite u64_small by (unfold TCP_BUF in *; lia). destruct (Z.ltb_spec TCP_BUF (send_len c + n)); [lia|].
  destruct (send_buf c) as [p|] eqn:Ep; [|done].
  destruct (append_ok false i c p n data s M Hwf Hc Hu Ep) as (s1 & E1 & W & O & C & A); [unfold n in *; lia|done|].
  cbn [buf_of len_of] in *. rewrite Ep in E1. rewrite E1. cbn [mbind option_bind].
  assert (interfaces s1 = interfaces s ∧ n_out s1 = n_out s) as [Ei Eo].
  { unfold append_to in E1. destruct (Z.leb_spec n 0); [lia|]. cbn [mbind option_bind] in E1. destruct (n_bufs s !! p); [|done].
    cbn [mbind option_bind] in E1. destruct (copy_in _ _ _ _); [|done]. by injection E1 as <-. }
  change (set_len false (send_len c + n)) with (set_send_len (send_len c + n)) in *.
  destruct (tcp_send_packet_ok i _ (Z.lor TCP_PSH TCP_ACK) data _ M W C) as (s2 & r & -> & _ & _ & Hr & Hout). cbn [mbind option_bind].
  destruct Hr as [-> | ->]; cbn [Z.eqb]; [|by exists s2, (-1); auto].
  eexists _, (i32 n). split; [reflexivity|]. right. split; [apply i32_small; unfold TCP_BUF, n in *; lia|].
  destruct (Hout eq_refl) as (x' & q & Hx' & Hq & Ho). cbn [interfaces upd_conn with_conns n_out] in Hx', Ho. rewrite Ei in Hx'.
  assert (x' = x) as -> by congruence. rewrite Hsend, Eo in Ho. exists q. by rewrite wire_send_len in Hq.
Qed.

End Table.


(** ** Two machines with an open connection *)

Definition blank_conn : tcp_connection := mk_conn 0 0 0 0 TCP_CLOSED 0 0 0 0 None 0 0 None 0 0 false.
Definition blank_if : net_interface := mk_if [] (replicate ETH_ALEN 0) 0 0 0 false 0 0 0 0 false.
Definition eth0 (ip : Z) : net_interface := mk_if [101; 116; 104; 48] [82; 84; 0; 18; 52; 86] ip 0xFFFFFF00 0x0A000202 true 0 0 0 0 true.
Definition demo_net (ip : Z) : net heap :=
  mk_net (replicate ARP_CACHE_SIZE (mk_arp 0 (replicate ETH_ALEN 0) 0 false)) [eth0 ip; blank_if; blank_if; blank_if] 1
    (replicate MAX_TCP_CONNECTIONS blank_conn) 49152 12345 ∅ boot_heap [].

Lemma demo_net_ok ip : net_wf (demo_net ip) ∅.
Proof.
  split.
  - apply length_replicate.
  - right. by exists (eth0 ip).
  - by apply heap_owns_init.
  - intros i c Hc. cbn [tcp_connections demo_net] in Hc. apply lookup_replicate in Hc as [-> _]. done.
  - intros i j c d b b' p Hc. cbn [tcp_connections demo_net] in Hc. apply lookup_replicate in Hc as [-> _]. done.
Qed.

Definition established (lip lport rip rport : Z) (c : tcp_connection) : tcp_connection :=
  mk_conn lip lport rip rport TCP_ESTABLISHED 1000 2000 (recv_wnd c) (send_wnd c) (recv_buf c) (recv_len c) (recv_capacity c)
    (send_buf c) (send_len c) (send_capacity c) (in_use c).

Definition demo_host (lip lport rip rport : Z) : net heap :=
  match tcp_alloc_connection (demo_net lip) with
  | Some (s, Some i) => upd_conn i (established lip lport rip rport) s
  | _ => demo_net lip
  end.

Lemma demo_host_ok lip lport rip rport :
  ∃ c M, net_wf (demo_host lip lport rip rport) M ∧ in_use c = true ∧
    tcp_connections (demo_host lip lport rip rport) !! 0%nat = Some (established lip lport rip rport c) ∧
    recv_len c = 0 ∧ send_len c = 0 ∧ recv_buf c ≠ None ∧ send_buf c ≠ None ∧ num_interfaces (demo_host lip lport rip rport) = 1 ∧
    interfaces (demo_host lip lport rip rport) !! 0%nat = Some (eth0 lip).
Proof.
  assert ((λ r : net heap * option nat, (snd r, c ← tcp_connections (fst r) !! 0%nat; Some (bool_decide (is_Some (recv_buf c)), bool_decide (is_Some (send_buf c)))))
    <$> tcp_alloc_connection (demo_net lip) = Some (Some 0%nat, Some (true, true))) as Hrun by (vm_compute; reflexivity).
  unfold demo_host.
  destruct (tcp_alloc_ok (demo_net lip) ∅ (demo_net_ok lip)) as [[E _]|(s1 & i & c & M1 & E & _ & W & _ & C & Hu & Hr & Hs & _ & Ei & En & _)];
    rewrite E in Hrun |- *; cbn in Hrun; [done|]. injection Hrun as -> Hb. rewrite C in Hb. cbn in Hb. injection Hb as Hb1 Hb2.
  apply bool_decide_eq_true in Hb1. apply bool_decide_eq_true in Hb2.
  pose proof (scalar_ok 0 c (established lip lport rip rport) s1 M1 W C Hu ltac:(done)) as [W' O' C' B'].
  exists c, M1. split; [done|]. split; [done|]. split; [done|]. split; [done|]. split; [done|].
  split; [by destruct Hb1 as [? ->]|]. split; [by destruct Hb2 as [? ->]|]. split; [exact En|]. cbn. by rewrite Ei.
Qed.

Definition host_a : net heap := demo_host 0x0A00020F 49152 0x0A000202 80.
Definition host_b : net heap := demo_host 0x0A000202 80 0x0A00020F 49152.

(** An established connection of [demo_host] and its view. *)
Lemma demo_view lip lport rip rport c :
  tcp_connections (demo_host lip lport rip rport) !! 0%nat = Some (established lip lport rip rport c) → in_use c = true →
  recv_len c = 0 → send_len c = 0 →
  tcb_of (n_bufs (demo_host lip lport rip rport)) (established lip lport rip rport c) =
    mk_tcb (lip, lport, rip, rport) TCP_ESTABLISHED 1000 2000 [] [] ∧
  abs (demo_host lip lport rip rport) 0 = Some (mk_tcb (lip, lport, rip, rport) TCP_ESTABLISHED 1000 2000 [] []).
Proof.
  intros C Hu Hr Hs. set (s := demo_host lip lport rip rport) in *.
  assert (tcb_of (n_bufs s) (established lip lport rip rport c) = mk_tcb (lip, lport, rip, rport) TCP_ESTABLISHED 1000 2000 [] []) as E.
  { unfold tcb_of. cbn [established local_ip local_port remote_ip remote_port tc_state tc_seq tc_ack recv_buf recv_len send_buf send_len].
    rewrite Hr, Hs. unfold held. by destruct (recv_buf c), (send_buf c). }
  split; [done|]. unfold abs. rewrite C. cbn [mbind option_bind]. change (in_use (established lip lport rip rport c)) with (in_use c).
  by rewrite Hu, E.
Qed.

Lemma checksum_correct_witness : checksum [0x45; 0; 0; 40] = Some (65535 - ones_sum [0x45; 0; 0; 40]).
Proof. apply checksum_correct; [|unfold short; cbn; lia]. repeat constructor; unfold is_byte; lia. Defined.

Lemma tcp_calls_refine_witness :
  ∃ s' out r M', run_call 0 (CSegment (Z.lor TCP_PSH TCP_ACK) 2000 [104; 105] 2) host_a = Some (s', out, r) ∧ net_wf s' M' ∧
    t_unread <$> abs s' 0 = Some [104; 105] ∧ t_ack <$> abs s' 0 = Some 2002.
Proof.
  destruct (demo_host_ok 0x0A00020F 49152 0x0A000202 80) as (c & M & W & Hu & C & Hr & Hs & Hb1 & Hb2 & _). fold host_a in W, C.
  destruct (tcp_calls_refine 0 (CSegment (Z.lor TCP_PSH TCP_ACK) 2000 [104; 105] 2) _ host_a M W C Hu) as (s' & out & r & M' & E & W' & O & Hspec).
  { split; [cbn; lia|]. split; [lia|exact Hb1]. }
  exists s', out, r, M'. split; [exact E|]. split; [exact W'|]. destruct Hspec as [-> _].
  destruct (demo_view _ _ _ _ _ C Hu Hr Hs) as [Et _]. fold host_a in Et. rewrite Et. split; vm_compute; reflexivity.
Defined.

Lemma tcp_connect_correct_witness :
  ∃ s' M', tcp_connect 0x0A000202 80 (demo_net 0x0A00020F) = Some (s', 0) ∧ net_wf s' M' ∧ t_state <$> abs s' 0 = Some TCP_SYN_SENT.
Proof.
  destruct (tcp_connect_correct 0x0A000202 80 (demo_net 0x0A00020F) ∅ (demo_net_ok _)) as (s' & r & M' & E & W & Hres).
  assert (snd <$> tcp_connect 0x0A000202 80 (demo_net 0x0A00020F) = Some 0) as E0 by (vm_compute; reflexivity).
  rewrite E in E0. apply (inj Some) in E0. cbn [snd] in E0. subst r. exists s', M'. split; [exact E|]. split; [exact W|].
  destruct Hres as [[? _]|(i & x & c & p & Hi & _ & _ & _ & A & _)]; [done|]. assert (i = 0%nat) as -> by lia. rewrite A. reflexivity.
Defined.

Lemma tcp_stream_fifo_witness :
  ∃ s' rest, trace 0 host_a [97; 98; 99] [97; 98] s' ∧ [97; 98; 99] = [97; 98] ++ rest.
Proof.
  destruct (demo_host_ok 0x0A00020F 49152 0x0A000202 80) as (c & M & W & Hu & C & Hr & Hs & Hb1 & Hb2 & _). fold host_a in W, C.
  destruct (demo_view _ _ _ _ _ C Hu Hr Hs) as [Et Ea]. fold host_a in Et, Ea.
  set (call := CSegment (Z.lor TCP_PSH TCP_ACK) 2000 [97; 98; 99] 3).
  assert (call_ok call (established 0x0A00020F 49152 0x0A000202 80 c)) as Hok1 by (split; [cbn; lia|]; split; [lia|exact Hb1]).
  destruct (run_call_ok 0 call _ host_a M W C Hu Hok1) as (s1 & out & r & M1 & E1 & W1 & _ & Hspec). rewrite Et in Hspec.
  assert (abs s1 0 = Some (mk_tcb (0x0A00020F, 49152, 0x0A000202, 80) TCP_ESTABLISHED 1000 2003 [97; 98; 99] [])) as A1 by (destruct Hspec as [-> _]; vm_compute; reflexivity).
  clear Hspec. unfold abs in A1. destruct (tcp_connections s1 !! 0%nat) as [c1|] eqn:C1; [|done]. cbn [mbind option_bind] in A1.
  destruct (in_use c1) eqn:Hu1; [|done]. apply (inj Some) in A1.
  destruct (run_call_ok 0 (CRecv 2) c1 s1 M1 W1 C1 Hu1 ltac:(done)) as (s2 & out2 & r2 & M2 & E2 & W2 & _ & Hspec2). rewrite A1 in Hspec2.
  assert (out2 = [97; 98]) as -> by (destruct Hspec2 as [-> _]; reflexivity).
  assert (trace 0 host_a [97; 98; 99] [97; 98] s2) as Htr.
  { assert (out = []) as ->.
    { cbn [run_call call] in E1. destruct (tcp_input _ _ _ _ _ _); [|done]. cbn [mbind option_bind] in E1. congruence. }
    pose proof (trace_step 0 0 (CRecv 2) c1 s1 s2 _ r2 [] [] s2 C1 Hu1 ltac:(done) E2 (trace_nil 0 s2)) as T2.
    pose proof (trace_step 0 0 call _ host_a s1 [] r _ _ s2 C Hu Hok1 E1 T2) as T1.
    unfold taken in T1. rewrite Ea in T1. exact T1. }
  destruct (tcp_stream_fifo 0 host_a [97; 98; 99] [97; 98] s2 _ M W Ea Htr) as (rest & Hrest & _). exists s2, rest. split; [exact Htr|exact Hrest].
Defined.


(** ** What the code does not do *)

(** A segment is appended whatever its sequence number: a retransmission is
    delivered twice. *)
Lemma retransmission_delivered_twice data seq t :
  t_state t = TCP_ESTABLISHED → data ≠ [] → Z.of_nat (length (t_unread t)) + 2 * Z.of_nat (length data) ≤ TCP_BUF →
  t_unread <$> (segment_spec TCP_ACK seq data t ≫= segment_spec TCP_ACK seq data) = Some (t_unread t ++ data ++ data).
Proof.
  intros Est Hne Hroom.
  assert (∀ t, t_state t = TCP_ESTABLISHED → Z.of_nat (length (t_unread t)) + Z.of_nat (length data) ≤ TCP_BUF →
    segment_spec TCP_ACK seq data t = Some (acked (seq + Z.of_nat (length data)) (add_data true data t))) as Hone.
  { clear t Est Hroom. intros t Est Hroom. unfold segment_spec, accepted. rewrite Est, bool_decide_eq_true_2 by done.
    change (flag TCP_ACK TCP_FIN) with false. cbn [andb negb].
    destruct (Z.leb_spec (Z.of_nat (length (t_unread t)) + Z.of_nat (length data)) TCP_BUF); [|lia]. by destruct data. }
  rewrite Hone by (done || lia). cbn [mbind option_bind]. rewrite Hone; [|done|cbn; rewrite length_app; lia].
  cbn. by rewrite <- app_assoc.
Qed.

(** The data of a FIN segment is acknowledged and dropped. *)
Lemma fin_data_acknowledged_unread data seq t :
  t_state t = TCP_ESTABLISHED →
  ∃ t', segment_spec (Z.lor TCP_FIN TCP_ACK) seq data t = Some t' ∧ t_unread t' = t_unread t ∧
    t_ack t' = u32 (seq + Z.of_nat (length data) + 1).
Proof. intros Est. unfold segment_spec. rewrite Est. eexists. split; [reflexivity|done]. Qed.

(** No call removes anything from the send buffer, so a connection that has
    sent 64 KB can send nothing more. *)
Lemma send_buffer_never_drains call t t' out r : call_spec call t (Some t') out r → ∃ l, t_sent t' = t_sent t ++ l.
Proof.
  assert (∃ l, t_sent t = t_sent t ++ l) as Hnil by (exists []; by rewrite app_nil_r).
  destruct call as [flags seq data len|data|len|]; cbn [call_spec].
  - intros (E & _ & _). unfold segment_spec in E. destruct (t_state t) eqn:Est; repeat case_match; simplify_eq; try done.
  - intros [_ E]. destruct (_ && _); [destruct E as [[_ [= ->]]|[_ [= ->]]]|destruct E as [_ [= ->]]; done]; cbn; by exists data.
  - intros (_ & _ & [= ->]). done.
  - intros (E & _ & _). unfold close_spec in E. destruct (t_state t); simplify_eq; done.
Qed.

(** A segment whose header length exceeds it: the length of the data wraps
    around, the check of the buffer's capacity passes once the buffer holds
    enough, and the copy runs out of the frame. *)
Lemma copy_in_overrun n pos avail l : Z.of_nat (length avail) < n → copy_in n pos avail l = None.
Proof.
  revert n pos l. induction avail as [|x avail IH]; intros n pos l Hn; cbn [copy_in length] in *; destruct (Z.leb_spec n 0); try lia; [done|].
  destruct (put pos x l) as [l'|]; [|done]. cbn [mbind option_bind]. apply IH. lia.
Qed.

Lemma short_segment_overruns {H} `{!KernelHeap H} (s : net H) M i c seq data tcp_len header_len :
  net_wf s M → tcp_connections s !! i = Some c → in_use c = true → tc_state c = TCP_ESTABLISHED →
  0 ≤ tcp_len < header_len → header_len ≤ 60 → header_len - tcp_len ≤ recv_len c → Z.of_nat (length data) < 2 ^ 63 →
  tcp_input i TCP_ACK seq data (u64 (tcp_len - header_len)) s = None.
Proof.
  intros Hwf Hc Hu Est Ht Hh Hr Hd. pose proof (nw_conn _ _ Hwf i c Hc Hu) as Hok. pose proof (ck_len _ _ _ Hok true) as Hrl. cbn in Hrl.
  unfold TCP_BUF in Hrl. assert (u64 (tcp_len - header_len) = 2 ^ 64 + tcp_len - header_len) as ->.
  { unfold u64. rewrite <- (Z.mod_add _ 1) by lia. rewrite Z.mod_small; lia. }
  unfold tcp_input. rewrite Hc. cbn [mbind option_bind]. rewrite Est. change (flag TCP_ACK TCP_FIN) with false. cbn iota.
  destruct (Z.ltb_spec 0 (2 ^ 64 + tcp_len - header_len)); [|lia].
  assert (u64 (recv_len c + (2 ^ 64 + tcp_len - header_len)) = recv_len c + tcp_len - header_len) as ->.
  { unfold u64. rewrite <- (Z.mod_add _ (-1)) by lia. rewrite Z.mod_small; lia. }
  destruct (ck_caps _ _ _ Hok) as [-> _]. unfold TCP_BUF. destruct (Z.leb_spec (recv_len c + tcp_len - header_len) 65536); [|lia].
  unfold append_to. destruct (Z.leb_spec (2 ^ 64 + tcp_len - header_len) 0); [lia|].
  destruct (recv_buf c) as [p|]; [|done]. cbn [mbind option_bind]. destruct (n_bufs s !! p) as [l|]; [|done]. cbn [mbind option_bind].
  rewrite copy_in_overrun by lia. done.
Qed.

(** kmalloc's failure is not noticed: data for a connection without a buffer
    is written through the null pointer. *)
Lemma null_buffer_written {H} `{!KernelHeap H} (s : net H) M i c seq data :
  net_wf s M → tcp_connections s !! i = Some c → in_use c = true → tc_state c = TCP_ESTABLISHED → recv_buf c = None →
  0 < Z.of_nat (length data) ≤ TCP_BUF →
  tcp_input i TCP_ACK seq data (Z.of_nat (length data)) s = None.
Proof.
  intros Hwf Hc Hu Est Hb Hd. pose proof (nw_conn _ _ Hwf i c Hc Hu) as Hok. pose proof (ck_null _ _ _ Hok true Hb) as Hrl. cbn in Hrl.
  unfold tcp_input. rewrite Hc. cbn [mbind option_bind]. rewrite Est. change (flag TCP_ACK TCP_FIN) with false. cbn iota.
  destruct (Z.ltb_spec 0 (Z.of_nat (length data))); [|lia]. destruct (ck_caps _ _ _ Hok) as [-> _]. unfold TCP_BUF in *. rewrite Hrl, u64_small by lia.
  destruct (Z.leb_spec (0 + Z.of_nat (length data)) 65536); [|lia]. unfold append_to. rewrite Hb.
  destruct (Z.leb_spec (Z.of_nat (length data)) 0); [lia|done].
Qed.

(** The ARP cache keeps the old address of a machine that announces a new
    one. *)
Lemma arp_keeps_stale_address :
  let s := arp_add 1 (replicate ETH_ALEN 2) (arp_add 1 (replicate ETH_ALEN 1) (demo_net 0x0A00020F)) in
  a_mac <$> arp_lookup 1 s = Some (replicate ETH_ALEN 1).
Proof. vm_compute. reflexivity. Qed.

(** After tcpip_init interface 0 is the loopback, which has no driver, and
    everything is sent there: a connect over a second interface with a driver
    reports success without sending. *)
Definition booted : option (net heap) :=
  s ← tcpip_init (mk_net (arp_cache (demo_net 0)) (replicate 4 blank_if) 0 (tcp_connections (demo_net 0)) 49152 12345 ∅ boot_heap []);
  let '(s, r) := net_add_interface [101; 116; 104; 48] [82; 84; 0; 18; 52; 86] 0x0A00020F 0xFFFFFF00 0x0A000202 s in
  match r with
  | Some i => Some (with_ifs (<[i := eth0 0x0A00020F]> (interfaces s)) (num_interfaces s) s)
  | None => None
  end.

Lemma connect_sends_nothing :
  (s ← booted; r ← tcp_connect 0x0A000202 80 s; Some (n_out (fst r), snd r)) = Some ([], 0).
Proof. vm_compute. reflexivity. Qed.

(** A send of 65500 bytes fits the send buffer, but its packet is 65540 bytes
    long, and the header says 4. *)
Lemma long_send_length_wraps id flags_frag protocol src dst :
  65500 ≤ TCP_BUF ∧
  ip_packet (sizeof_ip_hdr + (sizeof_tcp_hdr + 65500)) id flags_frag protocol src dst = ip_packet 4 id flags_frag protocol src dst.
Proof. split; [done|]. unfold ip_packet. by change (htons (sizeof_ip_hdr + (sizeof_tcp_hdr + 65500))) with (htons 4). Qed.
