(* ===== verification/Iso9660.v ===== *)
(** * kernel/fs/iso9660.c, the mountable tree

    The volume descriptors, the directory records, the tree of nodes that a
    mount builds from them, and reading files from it.

    The disk is a parameter: [disk index lba] is the block that
    storage_read_block delivers, [None] when it reports an error.  A node
    belongs to its parent alone and its [parent] field is never read, so a node
    is modelled by its fields, the address that kmalloc gave it and the list of
    its children in the order of [next_sibling]; a function that changes a node
    returns the new one.  [data] stays NULL.  process_yield is left out. *)

From S2P Require Import Prelude KHeap Kmalloc Ramfs.

Definition ISO_BLOCK_SIZE : Z := 2048.
Definition ISO_NAME_MAX : nat := 255.
Definition sizeof_iso_node : Z := 304.

Inductive iso9660_node := mk_node (addr : Z) (name : list Z) (disk_index extent size : Z) (is_dir : bool) (children : list iso9660_node).
Definition n_addr (n : iso9660_node) : Z := let '(mk_node a _ _ _ _ _ _) := n in a.
Definition n_name (n : iso9660_node) : list Z := let '(mk_node _ x _ _ _ _ _) := n in x.
Definition n_disk_index (n : iso9660_node) : Z := let '(mk_node _ _ x _ _ _ _) := n in x.
Definition n_extent (n : iso9660_node) : Z := let '(mk_node _ _ _ x _ _ _) := n in x.
Definition n_size (n : iso9660_node) : Z := let '(mk_node _ _ _ _ x _ _) := n in x.
Definition n_is_dir (n : iso9660_node) : bool := let '(mk_node _ _ _ _ _ x _) := n in x.
Definition n_children (n : iso9660_node) : list iso9660_node := let '(mk_node _ _ _ _ _ _ x) := n in x.

Record iso_volume_info := mk_volume {
  primary_root_extent : Z;
  primary_root_size : Z;
  joliet_root_extent : Z;
  joliet_root_size : Z;
  has_primary : bool;
  has_joliet : bool
}.

(** ** Blocks *)

Definition byte_at (d : list Z) (off : Z) : option Z := if 0 <=? off then d !! Z.to_nat off else None.

Definition iso_le32 (d : list Z) (off : Z) : option Z :=
  b0 ← byte_at d off; b1 ← byte_at d (off + 1); b2 ← byte_at d (off + 2); b3 ← byte_at d (off + 3);
  Some (Z.lor (Z.lor (Z.lor b0 (Z.shiftl b1 8)) (Z.shiftl b2 16)) (Z.shiftl b3 24)).

Definition iso_is_joliet_descriptor (desc : list Z) : option bool :=
  b0 ← byte_at desc 0; b88 ← byte_at desc 88; b89 ← byte_at desc 89; b90 ← byte_at desc 90;
  Some ((b0 =? 2) && (b88 =? 0x25) && (b89 =? 0x2F) && ((b90 =? 0x40) || (b90 =? 0x43) || (b90 =? 0x45))).

(** ** Names *)

(** The characters of [char] arrays that are used as strings end at a zero. *)
Fixpoint cstr (l : list Z) : list Z :=
  match l with [] => [] | c :: l' => if c =? 0 then [] else c :: cstr l' end.

(** [room] is [max - 1 - idx]. *)
Fixpoint trim_joliet (room : nat) (src : list Z) : list Z :=
  match room, src with
  | S room', hi :: lo :: src' =>
      if (hi =? 0) && (lo =? 59) then []
      else if (hi =? 0) && negb (lo =? 0) then lo :: trim_joliet room' src'
      else if (hi =? 0) && (lo =? 0) then []
      else 95 :: trim_joliet room' src'
  | _, _ => []
  end.
Fixpoint trim_plain (room : nat) (src : list Z) : list Z :=
  match room, src with
  | S room', c :: src' => if c =? 59 then [] else c :: trim_plain room' src'
  | _, _ => []
  end.
Definition drop_dot (l : list Z) : list Z :=
  match last l with Some c => if c =? 46 then take (pred (length l)) l else l | None => l end.

(** The string that is left in [dst]; [max] is [NAME_MAX + 1]. *)
Definition iso_trim_name (src : list Z) (joliet : bool) : list Z :=
  match src with
  | [0] => []
  | [1] => [46; 46]
  | _ => cstr (drop_dot (if joliet then trim_joliet ISO_NAME_MAX src else trim_plain ISO_NAME_MAX src))
  end.

(** Entries for the directory itself and its parent are left out. *)
Definition visible (name : list Z) : bool :=
  match name with [] | [46] | [46; 46] => false | _ => true end.

(** ** Directory records *)

Inductive item := IDone | ISkip (pos : Z) | IRecord (name : list Z) (is_dir : bool) (extent size pos : Z).

Definition next_block (pos : Z) : Z := u32 ((pos / ISO_BLOCK_SIZE + 1) * ISO_BLOCK_SIZE).

(** One round of [while (pos < size)]; [None] is a read outside the data. *)
Definition dir_item (data : list Z) (size total_size : Z) (joliet : bool) (pos : Z) : option item :=
  if pos <? size then
    record_len ← byte_at data pos;
    if record_len =? 0 then Some (ISkip (next_block pos))
    else if record_len <? 34 then Some (ISkip (next_block pos))
    else if total_size <? u32 (pos + record_len) then Some IDone
    else
      name_len ← byte_at data (pos + 32);
      if record_len <? 33 + name_len then Some (ISkip (next_block pos))
      else
        child_extent ← iso_le32 data (pos + 2);
        child_size ← iso_le32 data (pos + 10);
        flags ← byte_at data (pos + 25);
        Some (IRecord (iso_trim_name (take (Z.to_nat name_len) (drop (Z.to_nat (pos + 33)) data)) joliet)
                (negb (Z.land flags 2 =? 0)) child_extent child_size (u32 (pos + record_len)))
  else Some IDone.

Definition sector_count (size : Z) : Z := u32 (size + ISO_BLOCK_SIZE - 1) / ISO_BLOCK_SIZE.

Section Mount.
Context {H : Type} `{!KernelHeap H}.
Variable disk : Z → Z → option (list Z).
Implicit Types (h : H) (n : iso9660_node).

Definition km (size : Z) h : option (H * option Z) := kh_alloc size GFP_KERNEL h.
Definition kfr (p : Z) h : option H := kh_free (Some p) h.

(** ** The volume descriptors *)

(** The loop over the blocks from [lba]; the result, the information collected
    so far and whether a primary descriptor was seen. *)
Fixpoint volume_loop (k : nat) (disk_index lba : Z) (saw : bool) (info : iso_volume_info) : option (Z * iso_volume_info) :=
  match k with
  | O => Some (if saw then 0 else -1, info)
  | S k' =>
      match disk disk_index lba with
      | None => Some (-1, info)
      | Some desc =>
          b0 ← byte_at desc 0;
          if negb (bool_decide (take 5 (drop 1 desc) = [67; 68; 48; 48; 49])) then Some (-1, info)
          else
            extent ← iso_le32 desc 158; size ← iso_le32 desc 166;
            isj ← iso_is_joliet_descriptor desc;
            let joliet : bool := isj in
            if (b0 =? 1) && negb saw then
              volume_loop k' disk_index (lba + 1) true (mk_volume extent size (joliet_root_extent info) (joliet_root_size info) true (has_joliet info))
            else if joliet then
              volume_loop k' disk_index (lba + 1) saw
                (mk_volume (primary_root_extent info) (primary_root_size info) extent size (has_primary info) true)
            else if b0 =? 255 then Some (if saw then 0 else -1, info)
            else volume_loop k' disk_index (lba + 1) saw info
      end
  end.

Definition iso_find_volume_info (disk_index : Z) h : option (H * Z * iso_volume_info) :=
  let info := mk_volume 0 0 0 0 false false in
  '(h, desc) ← km ISO_BLOCK_SIZE h;
  match desc with
  | None => Some (h, -1, info)
  | Some p => '(ret, info) ← volume_loop 48 disk_index 16 false info; h ← kfr p h; Some (h, ret, info)
  end.

(** ** Nodes *)

Definition iso9660_node_alloc (name : list Z) (is_dir : bool) h : option (H * option iso9660_node) :=
  '(h, p) ← km sizeof_iso_node h;
  Some (h, option_map (λ a, mk_node a (take ISO_NAME_MAX name) 0 0 0 is_dir []) p).

Definition iso9660_node_add_child (parent child : iso9660_node) : iso9660_node :=
  let '(mk_node a name di e s d cs) := parent in mk_node a name di e s d (child :: cs).

Definition set_location (disk_index extent size : Z) n : iso9660_node :=
  let '(mk_node a name _ _ _ d cs) := n in mk_node a name disk_index extent size d cs.

Definition iso9660_copy_file_to_node (disk_index extent size : Z) n : iso9660_node * Z := (set_location disk_index extent size n, 0).

Definition iso9660_node_find_child (parent : iso9660_node) (name : list Z) : option iso9660_node :=
  find (λ c, bool_decide (n_name c = name)) (n_children parent).

Fixpoint iso9660_node_free (n : iso9660_node) (h : H) : option H :=
  match n with
  | mk_node a _ _ _ _ _ cs =>
      h ← (fix free_all (l : list iso9660_node) (h : H) : option H :=
             match l with [] => Some h | c :: l' => h ← iso9660_node_free c h; free_all l' h end) cs h;
      kfr a h
  end.

(** ** The tree *)

(** [k] blocks from [extent + i]. *)
Fixpoint read_blocks (k : nat) (disk_index extent i : Z) : option (list Z) :=
  match k with
  | O => Some []
  | S k' => b ← disk disk_index (u32 (extent + i)); rest ← read_blocks k' disk_index extent (i + 1); Some (b ++ rest)
  end.

(** The loop over the records of a directory; [rec] builds the tree of a child
    directory. *)
Fixpoint dir_loop (rec : Z → Z → iso9660_node → H → option (H * iso9660_node * Z)) (k : nat)
    (data : list Z) (size total_size disk_index : Z) (joliet : bool) (pos : Z) (parent : iso9660_node) h : option (H * iso9660_node * Z) :=
  match k with
  | O => None
  | S k' =>
      it ← dir_item data size total_size joliet pos;
      match it with
      | IDone => Some (h, parent, 0)
      | ISkip pos => dir_loop rec k' data size total_size disk_index joliet pos parent h
      | IRecord name is_dir extent csize pos =>
          if visible name then
            '(h, c) ← iso9660_node_alloc name is_dir h;
            match c with
            | None => Some (h, parent, -1)
            | Some child =>
                let child := set_location disk_index extent csize child in
                if n_is_dir child then
                  '(h, child, ret) ← rec extent csize child h;
                  let parent := iso9660_node_add_child parent child in
                  if ret <? 0 then Some (h, parent, -1)
                  else dir_loop rec k' data size total_size disk_index joliet pos parent h
                else
                  let '(child, ret) := iso9660_copy_file_to_node disk_index extent csize child in
                  let parent := iso9660_node_add_child parent child in
                  if negb (ret =? 0) then Some (h, parent, -1)
                  else dir_loop rec k' data size total_size disk_index joliet pos parent h
            end
          else dir_loop rec k' data size total_size disk_index joliet pos parent h
      end
  end.

(** [fuel] bounds the depth of the recursion. *)
Fixpoint iso9660_build_tree_recursive (fuel : nat) (disk_index : Z) (joliet : bool) (extent size : Z) (parent : iso9660_node) h :
    option (H * iso9660_node * Z) :=
  match fuel with
  | O => None
  | S fuel' =>
      let total_size := u32 (sector_count size * ISO_BLOCK_SIZE) in
      if negb (n_is_dir parent) then Some (h, parent, -1)
      else if 0x10000 <? sector_count size then Some (h, parent, -1)
      else if negb (sector_count size =? 0) && negb (total_size / sector_count size =? ISO_BLOCK_SIZE) then Some (h, parent, -1)
      else
        '(h, sector) ← km ISO_BLOCK_SIZE h;
        match sector with
        | None => Some (h, parent, -1)
        | Some sector =>
            '(h, dir_data) ← km (if total_size =? 0 then ISO_BLOCK_SIZE else total_size) h;
            match dir_data with
            | None => h ← kfr sector h; Some (h, parent, -1)
            | Some dir_data =>
                match read_blocks (Z.to_nat (sector_count size)) disk_index extent 0 with
                | None => h ← kfr sector h; h ← kfr dir_data h; Some (h, parent, -1)
                | Some data =>
                    h ← kfr sector h;
                    '(h, parent, ret) ← dir_loop (iso9660_build_tree_recursive fuel' disk_index joliet) (S (Z.to_nat size)) data size total_size disk_index joliet 0 parent h;
                    h ← kfr dir_data h;
                    Some (h, parent, ret)
                end
            end
        end
  end.

(** ** Mounting *)

Record iso_sb := mk_sb { sb_addr : Z; sb_root_inode : Z; sb_root_dentry : Z; sb_root : iso9660_node }.

(** After [built_tree]. *)
Definition finish_mount (root : iso9660_node) h : option (H * option iso_sb) :=
  '(h, sb) ← km sizeof_super_block h;
  match sb with
  | None => h ← iso9660_node_free root h; Some (h, None)
  | Some sb =>
      '(h, i) ← km sizeof_inode h;
      match i with
      | None => h ← kfr sb h; h ← iso9660_node_free root h; Some (h, None)
      | Some i =>
          '(h, d) ← km sizeof_dentry h;
          match d with
          | None => h ← kfr i h; h ← kfr sb h; h ← iso9660_node_free root h; Some (h, None)
          | Some d => Some (h, Some (mk_sb sb i d root))
          end
      end
  end.

Definition mount_primary (fuel : nat) (disk_index : Z) (info : iso_volume_info) (root : iso9660_node) h : option (H * option iso_sb) :=
  if has_primary info then
    '(h, root, ret) ← iso9660_build_tree_recursive fuel disk_index false (primary_root_extent info) (primary_root_size info) root h;
    if ret =? 0 then finish_mount root h else h ← iso9660_node_free root h; Some (h, None)
  else h ← iso9660_node_free root h; Some (h, None).

Definition new_root (disk_index : Z) h : option (H * option iso9660_node) :=
  '(h, r) ← iso9660_node_alloc [] true h; Some (h, option_map (set_location disk_index 0 0) r).

Definition mount_joliet (fuel : nat) (disk_index : Z) (info : iso_volume_info) (root : iso9660_node) h : option (H * option iso_sb) :=
  '(h, root, ret) ← iso9660_build_tree_recursive fuel disk_index true (joliet_root_extent info) (joliet_root_size info) root h;
  if ret =? 0 then finish_mount root h
  else
    h ← iso9660_node_free root h;
    '(h, r) ← new_root disk_index h;
    match r with None => Some (h, None) | Some root => mount_primary fuel disk_index info root h end.

(** [disk_index] is what storage_get_disk_index_by_location found. *)
Definition iso9660_mount (fuel : nat) (disk_index : Z) h : option (H * option iso_sb) :=
  if disk_index <? 0 then Some (h, None)
  else
    '(h, ret, info) ← iso_find_volume_info disk_index h;
    if negb (ret =? 0) then Some (h, None)
    else
      '(h, r) ← (if has_joliet info then new_root disk_index h else Some (h, None));
      '(h, r) ← (match r with Some root => Some (h, Some root) | None => if has_primary info then new_root disk_index h else Some (h, None) end);
      match r with
      | None => Some (h, None)
      | Some root =>
          if has_joliet info then mount_joliet fuel disk_index info root h else mount_primary fuel disk_index info root h
      end.

Definition iso9660_kill_sb (sb : iso_sb) h : option H :=
  h ← iso9660_node_free (sb_root sb) h; h ← kfr (sb_root_inode sb) h; h ← kfr (sb_root_dentry sb) h; kfr (sb_addr sb) h.

(** ** Files and directories *)

(** [i_private], [i_ino], [i_mode], [i_size]. *)
Definition iso9660_fill_inode n : Z * Z * Z * Z :=
  (n_addr n, if n_extent n =? 0 then 1 else n_extent n, if n_is_dir n then Z.lor S_IFDIR 0x16D else Z.lor S_IFREG 0x124, n_size n).

(** The new inode of the dentry. *)
Definition iso9660_lookup (dir : iso9660_node) (name : list Z) h : option (H * option (Z * (Z * Z * Z * Z))) :=
  match iso9660_node_find_child dir name with
  | None => Some (h, None)
  | Some child => '(h, i) ← km sizeof_inode h; Some (h, option_map (λ i, (i, iso9660_fill_inode child)) i)
  end.

(** The entries given to [filldir]: name, inode number and type. *)
Definition iso9660_readdir n : list (list Z * Z * Z) * Z :=
  if negb (n_is_dir n) then ([], - ENOTDIR)
  else ([([46], 0, 4); ([46; 46], 0, 4)] ++ map (λ c, (n_name c, n_extent c, if n_is_dir c then 4 else 8)) (n_children n), 0).

(** [while (total_read < to_copy)]: the bytes in the buffer and whether all
    blocks could be read. *)
Fixpoint read_loop (k : nat) n (to_copy total_read file_offset : Z) : option (list Z * bool) :=
  if total_read <? to_copy then
    match k with
    | O => None
    | S k' =>
        let block_index := file_offset / ISO_BLOCK_SIZE in
        let block_offset := file_offset `mod` ISO_BLOCK_SIZE in
        let chunk := u32 (to_copy - total_read) in
        let chunk := if ISO_BLOCK_SIZE - block_offset <? chunk then ISO_BLOCK_SIZE - block_offset else chunk in
        match disk (n_disk_index n) (u32 (n_extent n + block_index)) with
        | None => Some ([], false)
        | Some sector =>
            '(rest, ok) ← read_loop k' n to_copy (total_read + chunk) (u32 (file_offset + chunk));
            Some (take (Z.to_nat chunk) (drop (Z.to_nat block_offset) sector) ++ rest, ok)
        end
    end
  else Some ([], true).

(** The bytes read, the new position and the result. *)
Definition iso9660_read n (count pos : Z) h : option (H * list Z * Z * Z) :=
  if n_is_dir n then Some (h, [], pos, - EISDIR)
  else if pos <? 0 then Some (h, [], pos, - EINVAL)
  else if n_size n =? 0 then Some (h, [], pos, 0)
  else if n_disk_index n <? 0 then Some (h, [], pos, - EIO)
  else if n_size n <=? u32 pos then Some (h, [], pos, 0)
  else
    let available := n_size n - u32 pos in
    let to_copy := if count <? available then count else available in
    '(h, sector) ← km ISO_BLOCK_SIZE h;
    match sector with
    | None => Some (h, [], pos, - ENOMEM)
    | Some p =>
        '(bytes, ok) ← read_loop (Z.to_nat to_copy) n to_copy 0 (u32 pos);
        h ← kfr p h;
        if (ok : bool) then Some (h, bytes, pos + to_copy, to_copy)
        else Some (h, bytes, pos, if (0 <? length bytes)%nat then Z.of_nat (length bytes) else - EIO)
    end.
End Mount.

(** ** Reading files *)

Section Read.
Context {H : Type} `{!KernelHeap H}.
Variable disk : Z → Z → option (list Z).

(** What storage_read_block promises: a block is 2048 bytes. *)
Definition block_device : Prop := ∀ i lba b, disk i lba = Some b → length b = 2048%nat ∧ Forall is_byte b.
Hypothesis Hdisk : block_device.
Implicit Types (h : H) (n : iso9660_node).

Lemma read_blocks_length k di e i data : read_blocks disk k di e i = Some data → length data = (2048 * k)%nat.
Proof.
  revert i data. induction k as [|k IH]; intros i data; cbn [read_blocks]; [intros [= <-]; done|].
  destruct (disk di (u32 (e + i))) as [b|] eqn:Eb; cbn [mbind option_bind]; [|done].
  destruct (read_blocks disk k di e (i + 1)) as [rest|] eqn:Er; cbn [mbind option_bind]; [|done]. intros [= <-].
  rewrite length_app, (IH _ _ Er). destruct (Hdisk _ _ _ Eb). lia.
Qed.

Lemma read_blocks_bytes k di e i data : read_blocks disk k di e i = Some data → Forall is_byte data.
Proof.
  revert i data. induction k as [|k IH]; intros i data; cbn [read_blocks]; [intros [= <-]; constructor|].
  destruct (disk di (u32 (e + i))) as [b|] eqn:Eb; cbn [mbind option_bind]; [|done].
  destruct (read_blocks disk k di e (i + 1)) as [rest|] eqn:Er; cbn [mbind option_bind]; [|done]. intros [= <-].
  apply Forall_app. split; [by eapply Hdisk|by eapply IH].
Qed.

Lemma read_blocks_block k di e i data j :
  read_blocks disk k di e i = Some data → (j < k)%nat → disk di (u32 (e + i + Z.of_nat j)) = Some (take 2048 (drop (2048 * j) data)).
Proof.
  revert i data j. induction k as [|k IH]; intros i data j; cbn [read_blocks]; [lia|].
  destruct (disk di (u32 (e + i))) as [b|] eqn:Eb; cbn [mbind option_bind]; [|done].
  destruct (read_blocks disk k di e (i + 1)) as [rest|] eqn:Er; cbn [mbind option_bind]; [|done]. intros [= <-] Hj.
  destruct (Hdisk _ _ _ Eb) as [Hb _]. destruct j as [|j].
  - rewrite Z.add_0_r, Eb, Nat.mul_0_r, drop_0, take_app_le, take_ge by lia. done.
  - replace (e + i + Z.of_nat (S j)) with (e + (i + 1) + Z.of_nat j) by lia. rewrite (IH _ _ j Er) by lia.
    rewrite drop_app_ge by lia. do 3 f_equal. lia.
Qed.

(** A piece within one block. *)
Lemma sub_block (data : list Z) (j o c : nat) :
  (o + c ≤ 2048)%nat → take c (drop o (take 2048 (drop (2048 * j) data))) = take c (drop (2048 * j + o) data).
Proof. intros Hc. rewrite skipn_firstn_comm, take_take, Nat.min_l, drop_drop by lia. done. Qed.

Lemma read_loop_ok n k data to_copy t off fuel :
  read_blocks disk k (n_disk_index n) (n_extent n) 0 = Some data → 0 ≤ t → 0 ≤ off → off + (to_copy - t) ≤ 2048 * Z.of_nat k → off + (to_copy - t) < 2 ^ 32 →
  to_copy - t ≤ Z.of_nat fuel →
  read_loop disk fuel n to_copy t off = Some (take (Z.to_nat (to_copy - t)) (drop (Z.to_nat off) data), true).
Proof.
  intros Hd. pose proof (read_blocks_length _ _ _ _ _ Hd) as Hlen. revert t off.
  induction fuel as [|fuel IH]; intros t off Ht Ho Hfit Hw Hf; cbn [read_loop].
  { destruct (Z.ltb_spec t to_copy); [lia|]. replace (Z.to_nat (to_copy - t)) with 0%nat by lia. done. }
  destruct (Z.ltb_spec t to_copy) as [Hlt|]; [|replace (Z.to_nat (to_copy - t)) with 0%nat by lia; done].
  rewrite (u32_small (to_copy - t)) by lia. unfold ISO_BLOCK_SIZE. set (bo := off `mod` 2048). set (bi := off / 2048).
  assert (off = 2048 * bi + bo ∧ 0 ≤ bo < 2048 ∧ 0 ≤ bi) as (Hoff & Hbo & Hbi).
  { unfold bo, bi. pose proof (Z.div_mod off 2048 ltac:(lia)). pose proof (Z.mod_pos_bound off 2048 ltac:(lia)). pose proof (Z.div_pos off 2048 ltac:(lia) ltac:(lia)). lia. }
  clearbody bo bi. set (chunk := if 2048 - bo <? to_copy - t then 2048 - bo else to_copy - t).
  assert (0 < chunk ≤ to_copy - t ∧ bo + chunk ≤ 2048) as [Hc Hcb] by (unfold chunk; destruct (Z.ltb_spec (2048 - bo) (to_copy - t)); lia). clearbody chunk.
  pose proof (read_blocks_block _ _ _ _ _ (Z.to_nat bi) Hd ltac:(lia)) as Hb. rewrite Z.add_0_r, Z2Nat.id in Hb by lia. rewrite Hb.
  rewrite (u32_small (off + chunk)), IH by lia. cbn [mbind option_bind]. do 2 f_equal. rewrite sub_block by lia.
  replace (2048 * Z.to_nat bi + Z.to_nat bo)%nat with (Z.to_nat off) by lia.
  replace (Z.to_nat (to_copy - t)) with (Z.to_nat chunk + Z.to_nat (to_copy - (t + chunk)))%nat by lia.
  rewrite <- take_take_drop, drop_drop. do 3 f_equal. lia.
Qed.

(** The contents of a file: the first [size] bytes of its blocks. *)
Definition file_data n : option (list Z) :=
  data ← read_blocks disk (Z.to_nat (sector_count (n_size n))) (n_disk_index n) (n_extent n) 0; Some (take (Z.to_nat (n_size n)) data).

Lemma sector_count_ok size :
  0 ≤ size ≤ 2 ^ 32 - 2048 → 0 ≤ sector_count size ∧ size ≤ 2048 * sector_count size < size + 2048.
Proof.
  intros Hs. unfold sector_count, ISO_BLOCK_SIZE. rewrite u32_small by lia. pose proof (Z.div_mod (size + 2048 - 1) 2048 ltac:(lia)).
  pose proof (Z.mod_pos_bound (size + 2048 - 1) 2048 ltac:(lia)). lia.
Qed.

(** Reading a file of a mounted disc gives exactly the bytes of its extent
    from the position on, across block boundaries and never beyond its size,
    advances the position by their number and gives the sector buffer back; the
    only failure is -ENOMEM. *)
Theorem iso9660_read_correct n count pos h M data :
  kh_inv h M → n_is_dir n = false → 0 ≤ n_disk_index n → 0 ≤ n_size n ≤ 2 ^ 32 - 2048 → file_data n = Some data → 0 ≤ count → 0 ≤ pos < 2 ^ 32 →
  let bytes := take (Z.to_nat count) (drop (Z.to_nat pos) data) in
  ∃ h', kh_inv h' M ∧
    (iso9660_read disk n count pos h = Some (h', bytes, pos + Z.of_nat (length bytes), Z.of_nat (length bytes)) ∨
     (iso9660_read disk n count pos h = Some (h', [], pos, - ENOMEM) ∧ pos < n_size n)).
Proof.
  intros Hh Hd Hdi Hs Hdata Hc Hp bytes. unfold file_data in Hdata.
  destruct (read_blocks disk _ _ _ _) as [blocks|] eqn:Eb; cbn [mbind option_bind] in Hdata; [|done]. injection Hdata as <-.
  pose proof (read_blocks_length _ _ _ _ _ Eb) as Hlen. destruct (sector_count_ok _ Hs) as [Hsc0 Hsc].
  set (size := n_size n) in *. assert (size ≤ Z.of_nat (length blocks)) as Hle by lia.
  unfold iso9660_read. rewrite Hd. fold size. destruct (Z.ltb_spec pos 0); [lia|]. rewrite (u32_small pos) by lia.
  assert (size ≤ pos → bytes = []) as Hend.
  { intros Hge. unfold bytes. rewrite drop_ge by (rewrite length_take; lia). by rewrite take_nil. }
  destruct (Z.eqb_spec size 0) as [Hz|_]; [exists h; split; [done|left]; rewrite Hend, Z.add_0_r by lia; done|].
  destruct (Z.ltb_spec (n_disk_index n) 0); [lia|].
  destruct (Z.leb_spec size pos) as [Hge|Hlt]; [exists h; split; [done|left]; rewrite Hend, Z.add_0_r by done; done|].
  set (to_copy := if count <? size - pos then count else size - pos).
  assert (bytes = take (Z.to_nat to_copy) (drop (Z.to_nat pos) blocks) ∧ Z.of_nat (length bytes) = to_copy ∧ 0 ≤ to_copy ≤ size - pos) as (-> & Hl & Hto).
  { unfold bytes. rewrite skipn_firstn_comm, take_take. replace (Nat.min (Z.to_nat count) (Z.to_nat size - Z.to_nat pos)) with (Z.to_nat to_copy)
      by (unfold to_copy; destruct (Z.ltb_spec count (size - pos)); lia).
    split; [done|]. rewrite length_take, length_drop. unfold to_copy. destruct (Z.ltb_spec count (size - pos)); lia. }
  destruct (kh_alloc_ok h M ISO_BLOCK_SIZE GFP_KERNEL Hh ltac:(done)) as (h1 & r & E & Hr). unfold km. rewrite E. cbn [mbind option_bind].
  destruct r as [p|]; [|exists h1; split; [done|by right]]. destruct Hr as (_ & _ & HM & Hi1).
  rewrite (read_loop_ok _ _ blocks to_copy 0 pos (Z.to_nat to_copy) Eb) by lia. cbn [mbind option_bind].
  destruct (kh_free_ok h1 _ p ISO_BLOCK_SIZE Hi1 (lookup_insert_eq _ _ _)) as (h2 & E2 & Hi2). unfold kfr. rewrite E2. cbn [mbind option_bind].
  rewrite delete_insert_id in Hi2 by done. exists h2. split; [done|left]. rewrite Z.sub_0_r, Hl. done.
Qed.
End Read.

(** ** The records of a directory *)

Record entry := mk_ent { en_name : list Z; en_dir : bool; en_extent : Z; en_size : Z }.

(** The visible entries, in the order of the records. *)
Fixpoint entries (k : nat) (data : list Z) (size total : Z) (joliet : bool) (pos : Z) : option (list entry) :=
  match k with
  | O => None
  | S k' =>
      it ← dir_item data size total joliet pos;
      match it with
      | IDone => Some []
      | ISkip pos => entries k' data size total joliet pos
      | IRecord name isdir extent csize pos =>
          es ← entries k' data size total joliet pos;
          Some (if visible name then mk_ent name isdir extent csize :: es else es)
      end
  end.

Lemma byte_at_some d off : 0 ≤ off < Z.of_nat (length d) → is_Some (byte_at d off).
Proof. intros Ho. unfold byte_at. destruct (Z.leb_spec 0 off); [|lia]. apply lookup_lt_is_Some_2. lia. Qed.

Lemma le32_some d off : 0 ≤ off → off + 4 ≤ Z.of_nat (length d) → is_Some (iso_le32 d off).
Proof.
  intros H0 H1. unfold iso_le32. destruct (byte_at_some d off) as [b0 ->]; [lia|]. destruct (byte_at_some d (off + 1)) as [b1 ->]; [lia|].
  destruct (byte_at_some d (off + 2)) as [b2 ->]; [lia|]. destruct (byte_at_some d (off + 3)) as [b3 ->]; [lia|]. by eexists.
Qed.

(** A directory as it is read from the disk. *)
Record dir_data_ok (data : list Z) (size total : Z) : Prop := {
  dd_len : Z.of_nat (length data) = total;
  dd_size : 0 ≤ size ≤ total;
  dd_max : total ≤ 2 ^ 28;
  dd_blocks : (2048 | total);
  dd_bytes : Forall is_byte data
}.

Lemma byte_at_bound d off b : Forall is_byte d → byte_at d off = Some b → 0 ≤ b < 256 ∧ 0 ≤ off < Z.of_nat (length d).
Proof.
  intros Hd. unfold byte_at. destruct (Z.leb_spec 0 off); [|done]. intros Hb. rewrite Forall_lookup in Hd. split; [by eapply (Hd _ _ Hb)|].
  apply lookup_lt_Some in Hb. lia.
Qed.

(** A round reads inside the data and moves forward. *)
Lemma dir_item_ok data size total joliet pos :
  dir_data_ok data size total → 0 ≤ pos →
  ∃ it, dir_item data size total joliet pos = Some it ∧ match it with IDone => True | ISkip p | IRecord _ _ _ _ p => pos < p ∧ pos < size end.
Proof.
  intros [Hlen Hsz Hmax Hdiv Hb] Hpos. unfold dir_item. destruct (Z.ltb_spec pos size) as [Hlt|]; [|by eexists].
  assert (pos < next_block pos) as Hnext.
  { unfold next_block, ISO_BLOCK_SIZE. pose proof (Z.div_mod pos 2048 ltac:(lia)). pose proof (Z.mod_pos_bound pos 2048 ltac:(lia)).
    assert (pos / 2048 < 2 ^ 17) by (apply Z.div_lt_upper_bound; lia). pose proof (Z.div_pos pos 2048 ltac:(lia) ltac:(lia)). rewrite u32_small; lia. }
  destruct (byte_at_some data pos) as [rl Erl]; [lia|]. pose proof (byte_at_bound _ _ _ Hb Erl) as [Hrl _]. rewrite Erl. cbn [mbind option_bind].
  destruct (rl =? 0); [by eexists|]. destruct (Z.ltb_spec rl 34); [by eexists|]. rewrite u32_small by lia.
  destruct (Z.ltb_spec total (pos + rl)) as [|Hend]; [by eexists|].
  destruct (byte_at_some data (pos + 32)) as [nl Enl]; [lia|]. pose proof (byte_at_bound _ _ _ Hb Enl) as [Hnl _]. rewrite Enl. cbn [mbind option_bind].
  destruct (Z.ltb_spec rl (33 + nl)); [by eexists|].
  destruct (le32_some data (pos + 2)) as [e ->]; [lia|lia|]. destruct (le32_some data (pos + 10)) as [z ->]; [lia|lia|].
  destruct (byte_at_some data (pos + 25)) as [fl ->]; [lia|]. cbn [mbind option_bind]. eexists. split; [done|]. cbn. lia.
Qed.

Lemma entries_S k data size total joliet pos :
  entries (S k) data size total joliet pos =
    it ← dir_item data size total joliet pos;
    match it with
    | IDone => Some []
    | ISkip pos => entries k data size total joliet pos
    | IRecord name isdir extent csize pos =>
        es ← entries k data size total joliet pos; Some (if visible name then mk_ent name isdir extent csize :: es else es)
    end.
Proof. reflexivity. Qed.

(** The loop ends, and never reads outside. *)
Lemma entries_total data size total joliet k pos :
  dir_data_ok data size total → 0 ≤ pos → size - pos ≤ Z.of_nat k → is_Some (entries (S k) data size total joliet pos).
Proof.
  intros Hd. revert pos. induction k as [|k IH]; intros pos Hp Hk; rewrite entries_S;
    destruct (dir_item_ok data size total joliet pos Hd Hp) as (it & E & Hit); rewrite E; cbn [mbind option_bind];
    (destruct it as [|p|nm d e z p]; [by eexists|..]); try lia.
  - apply IH; lia.
  - destruct (IH p) as [es ->]; [lia|lia|]. by eexists.
Qed.

Lemma entries_mono data size total joliet k j pos es :
  entries k data size total joliet pos = Some es → entries (k + j) data size total joliet pos = Some es.
Proof.
  revert pos es. induction k as [|k IH]; intros pos es; cbn [entries Nat.add]; [done|].
  destruct (dir_item data size total joliet pos) as [[|p|nm d e z p]|]; cbn [mbind option_bind]; [done|apply IH| |done].
  destruct (entries k data size total joliet p) as [es'|] eqn:E; cbn [mbind option_bind]; [|done]. by rewrite (IH _ _ E).
Qed.

Lemma entries_det data size total joliet k k' pos es es' :
  entries k data size total joliet pos = Some es → entries k' data size total joliet pos = Some es' → es = es'.
Proof.
  intros E E'. apply (entries_mono _ _ _ _ _ k') in E. apply (entries_mono _ _ _ _ _ k) in E'. rewrite Nat.add_comm in E'. congruence.
Qed.

(** ** Well-formed directories *)

(** A directory record: extent and size, both also with the other byte order
    ([dr_be1], [dr_be2]), date, flags, volume, name and padding. *)
Record drec := mk_drec { dr_attr : Z; dr_extent : Z; dr_be1 : list Z; dr_size : Z; dr_be2 : list Z; dr_date : list Z; dr_flags : Z; dr_volume : list Z; dr_name : list Z; dr_pad : list Z }.
Definition le32_bytes (x : Z) : list Z := [x `mod` 256; (x / 2 ^ 8) `mod` 256; (x / 2 ^ 16) `mod` 256; (x / 2 ^ 24) `mod` 256].
Definition drec_len (r : drec) : nat := 33 + length (dr_name r) + length (dr_pad r).
Record drec_ok (r : drec) : Prop := {
  ro_extent : 0 ≤ dr_extent r < 2 ^ 32;
  ro_size : 0 ≤ dr_size r < 2 ^ 32;
  ro_be1 : length (dr_be1 r) = 4%nat;
  ro_be2 : length (dr_be2 r) = 4%nat;
  ro_date : length (dr_date r) = 7%nat;
  ro_volume : length (dr_volume r) = 6%nat;
  ro_name : (0 < length (dr_name r))%nat;
  ro_len : (drec_len r < 256)%nat
}.
Definition drec_bytes (r : drec) : list Z :=
  Z.of_nat (drec_len r) :: dr_attr r :: le32_bytes (dr_extent r) ++ dr_be1 r ++ le32_bytes (dr_size r) ++ dr_be2 r ++ dr_date r ++
  dr_flags r :: dr_volume r ++ Z.of_nat (length (dr_name r)) :: dr_name r ++ dr_pad r.
Definition drec_entry (joliet : bool) (r : drec) : entry :=
  mk_ent (iso_trim_name (dr_name r) joliet) (negb (Z.land (dr_flags r) 2 =? 0)) (dr_extent r) (dr_size r).

Lemma drec_bytes_length r : drec_ok r → length (drec_bytes r) = drec_len r.
Proof.
  intros [? ? H1 H2 H3 H4 ? ?]. unfold drec_bytes, drec_len. cbn [length]. rewrite !length_app. cbn [length]. rewrite !length_app. cbn [length]. rewrite !length_app, H1, H2, H3, H4. cbn. lia.
Qed.

(** A byte of a record inside the directory. *)
Lemma byte_at_app pre l post i pos : Z.of_nat (length pre) = pos → (i < length l)%nat → byte_at (pre ++ l ++ post) (pos + Z.of_nat i) = l !! i.
Proof.
  intros <- Hi. unfold byte_at. destruct (Z.leb_spec 0 (Z.of_nat (length pre) + Z.of_nat i)); [|lia].
  replace (Z.to_nat (Z.of_nat (length pre) + Z.of_nat i)) with (length pre + i)%nat by lia.
  rewrite lookup_app_r by lia. replace (length pre + i - length pre)%nat with i by lia. by rewrite lookup_app_l.
Qed.

Lemma le32_join x : 0 ≤ x < 2 ^ 32 →
  Z.lor (Z.lor (Z.lor (x `mod` 256) (Z.shiftl ((x / 2 ^ 8) `mod` 256) 8)) (Z.shiftl ((x / 2 ^ 16) `mod` 256) 16)) (Z.shiftl ((x / 2 ^ 24) `mod` 256) 24) = x.
Proof.
  intros Hx. assert (∀ y, 0 ≤ y `mod` 256 < 256) as Hm by (intros y; apply Z.mod_pos_bound; lia).
  pose proof (Hm x). pose proof (Hm (x / 2 ^ 8)). pose proof (Hm (x / 2 ^ 16)). pose proof (Hm (x / 2 ^ 24)).
  rewrite (lor_shiftl (x `mod` 256) _ 8) by lia. rewrite (lor_shiftl _ _ 16) by lia. rewrite (lor_shiftl _ _ 24) by lia. Z.to_euclidean_division_equations. lia.
Qed.

Lemma le32_at pre l post i pos x :
  Z.of_nat (length pre) = pos → take 4 (drop i l) = le32_bytes x → (i + 4 ≤ length l)%nat → 0 ≤ x < 2 ^ 32 → iso_le32 (pre ++ l ++ post) (pos + Z.of_nat i) = Some x.
Proof.
  intros Hpos Hl Hi Hx. unfold iso_le32. assert (∀ j, (j < 4)%nat → byte_at (pre ++ l ++ post) (pos + Z.of_nat i + Z.of_nat j) = le32_bytes x !! j) as Hb.
  { intros j Hj. rewrite <- Hl, lookup_take_lt, lookup_drop by done. rewrite <- Z.add_assoc, <- Nat2Z.inj_add. apply byte_at_app; [done|lia]. }
  pose proof (Hb 0%nat ltac:(lia)) as H0. pose proof (Hb 1%nat ltac:(lia)) as H1. pose proof (Hb 2%nat ltac:(lia)) as H2. pose proof (Hb 3%nat ltac:(lia)) as H3.
  rewrite Z.add_0_r in H0. change (Z.of_nat 1) with 1 in H1. change (Z.of_nat 2) with 2 in H2. change (Z.of_nat 3) with 3 in H3. rewrite H0, H1, H2, H3.
  cbn [le32_bytes lookup list_lookup mbind option_bind]. by rewrite le32_join.
Qed.

Lemma drec_fields r :
  drec_ok r →
  drec_bytes r !! 0%nat = Some (Z.of_nat (drec_len r)) ∧ take 4 (drop 2 (drec_bytes r)) = le32_bytes (dr_extent r) ∧
  take 4 (drop 10 (drec_bytes r)) = le32_bytes (dr_size r) ∧ drec_bytes r !! 25%nat = Some (dr_flags r) ∧
  drec_bytes r !! 32%nat = Some (Z.of_nat (length (dr_name r))) ∧ drop 33 (drec_bytes r) = dr_name r ++ dr_pad r.
Proof.
  intros [_ _ H1 H2 H3 H4 _ _]. destruct r as [at' e be1 z be2 date fl vol nm pad]. cbn [dr_be1 dr_be2 dr_date dr_volume] in *. unfold drec_bytes. cbn [dr_attr dr_extent dr_be1 dr_size dr_be2 dr_date dr_flags dr_volume dr_name dr_pad].
  destruct be1 as [|? [|? [|? [|? [|]]]]]; try discriminate. destruct be2 as [|? [|? [|? [|? [|]]]]]; try discriminate.
  destruct date as [|? [|? [|? [|? [|? [|? [|? [|]]]]]]]]; try discriminate. destruct vol as [|? [|? [|? [|? [|? [|? [|]]]]]]]; try discriminate. done.
Qed.

Lemma dir_item_record pre r post size total joliet :
  drec_ok r → let pos := Z.of_nat (length pre) in pos < size → pos + Z.of_nat (drec_len r) ≤ total → total ≤ 2 ^ 28 →
  let e := drec_entry joliet r in
  dir_item (pre ++ drec_bytes r ++ post) size total joliet pos = Some (IRecord (en_name e) (en_dir e) (en_extent e) (en_size e) (pos + Z.of_nat (drec_len r))).
Proof.
  intros Hr pos Hlt Hend Hmax e. pose proof (drec_bytes_length r Hr) as Hlen. destruct (drec_fields r Hr) as (F0 & F2 & F10 & F25 & F32 & F33).
  pose proof Hr as [? ? _ _ _ _ Hn Hl]. unfold dir_item. destruct (Z.ltb_spec pos size); [|lia].
  assert (∀ i, (i < drec_len r)%nat → byte_at (pre ++ drec_bytes r ++ post) (pos + Z.of_nat i) = drec_bytes r !! i) as Hb.
  { intros i Hi. apply byte_at_app; [done|lia]. }
  assert (34 ≤ drec_len r)%nat as H34 by (unfold drec_len in *; lia).
  pose proof (Hb 0%nat ltac:(lia)) as B0. rewrite Z.add_0_r, F0 in B0. rewrite B0. cbn [mbind option_bind].
  destruct (Z.eqb_spec (Z.of_nat (drec_len r)) 0); [lia|]. destruct (Z.ltb_spec (Z.of_nat (drec_len r)) 34); [lia|]. rewrite u32_small by lia.
  destruct (Z.ltb_spec total (pos + Z.of_nat (drec_len r))); [lia|].
  pose proof (Hb 32%nat ltac:(lia)) as B32. rewrite F32 in B32. change (Z.of_nat 32) with 32 in B32. rewrite B32. cbn [mbind option_bind].
  destruct (Z.ltb_spec (Z.of_nat (drec_len r)) (33 + Z.of_nat (length (dr_name r)))); [unfold drec_len in *; lia|].
  pose proof (le32_at pre _ post 2 pos _ eq_refl F2 ltac:(lia) ltac:(done)) as B2. change (Z.of_nat 2) with 2 in B2. rewrite B2.
  pose proof (le32_at pre _ post 10 pos _ eq_refl F10 ltac:(lia) ltac:(done)) as B10. change (Z.of_nat 10) with 10 in B10. rewrite B10.
  pose proof (Hb 25%nat ltac:(lia)) as B25. rewrite F25 in B25. change (Z.of_nat 25) with 25 in B25. rewrite B25. cbn [mbind option_bind].
  do 2 f_equal. unfold e, drec_entry. cbn [en_name]. f_equal. rewrite Nat2Z.id. replace (Z.to_nat (pos + 33)) with (length pre + 33)%nat by lia.
  rewrite <- drop_drop, drop_app_length, drop_app_le, F33, <- app_assoc, take_app_length by lia. done.
Qed.

(** Records do not cross blocks; the rest of a block is zero. *)
Definition recs_bytes (rs : list drec) : list Z := concat (map drec_bytes rs).
Definition block_bytes (rs : list drec) : list Z := recs_bytes rs ++ replicate (2048 - length (recs_bytes rs)) 0.
Record block_ok (rs : list drec) : Prop := {
  bo_recs : Forall drec_ok rs;
  bo_fit : (length (recs_bytes rs) ≤ 2048)%nat
}.
Definition shown (l : list entry) : list entry := filter (λ e, visible (en_name e) = true) l.

Lemma block_entries joliet rs pre z post size q k es :
  Forall drec_ok rs → let pos := Z.of_nat (length pre) in pos + Z.of_nat (length (recs_bytes rs)) + Z.of_nat z = 2048 * q → 2048 * (q - 1) ≤ pos → 2048 * q ≤ size ≤ 2 ^ 28 →
  let data := pre ++ recs_bytes rs ++ replicate z 0 ++ post in
  entries k data size size joliet (2048 * q) = Some es →
  ∃ k', entries k' data size size joliet pos = Some (shown (drec_entry joliet <$> rs) ++ es).
Proof.
  intros Hrs. revert pre. induction Hrs as [|r rs Hr Hrs IH]; intros pre pos Hq Hlow Hsize data Hes.
  - cbn in Hq. destruct z as [|z].
    + exists k. replace pos with (2048 * q) by lia. done.
    + exists (S k). rewrite entries_S. assert (dir_item data size size joliet pos = Some (ISkip (2048 * q))) as ->; [|done].
      unfold dir_item. destruct (Z.ltb_spec pos size); [|lia].
      pose proof (byte_at_app pre (0 :: replicate z 0) post 0 pos eq_refl) as Hb. rewrite Z.add_0_r in Hb.
      assert (byte_at data pos = Some 0) as -> by (apply Hb; cbn; lia). cbn [mbind option_bind Z.eqb].
      do 2 f_equal. unfold next_block, ISO_BLOCK_SIZE. assert (pos / 2048 = q - 1) as -> by (symmetry; apply (Z.div_unique pos 2048 (q - 1) (pos - 2048 * (q - 1))); lia).
      rewrite u32_small by lia. lia.
  - cbn [recs_bytes map concat] in Hq. fold (recs_bytes rs) in Hq. rewrite length_app in Hq. pose proof (drec_bytes_length r Hr) as Hlen.
    destruct (IH (pre ++ drec_bytes r)) as [k' Hk'].
    { rewrite length_app. lia. } { rewrite length_app. lia. } { done. }
    { unfold data in Hes. cbn [recs_bytes map concat] in Hes. fold (recs_bytes rs) in Hes. rewrite <- !app_assoc in Hes. rewrite <- app_assoc. exact Hes. }
    assert (0 < drec_len r)%nat as Hpos0 by (unfold drec_len; lia). exists (S k'). rewrite entries_S. unfold data, pos. cbn [recs_bytes map concat]. fold (recs_bytes rs). rewrite <- (app_assoc (drec_bytes r)).
    rewrite (dir_item_record pre r (recs_bytes rs ++ replicate z 0 ++ post) size size joliet) by (done || lia). cbn [mbind option_bind].
    rewrite length_app, Nat2Z.inj_add, Hlen, <- app_assoc in Hk'. rewrite Hk'. cbn [mbind option_bind fmap list_fmap].
    unfold shown. rewrite filter_cons. fold (shown (drec_entry joliet <$> rs)). cbn [en_name drec_entry].
    destruct (visible (iso_trim_name (dr_name r) joliet)) eqn:Ev; [rewrite decide_True by done|rewrite decide_False by done]; done.
Qed.

Lemma block_bytes_length rs : block_ok rs → length (block_bytes rs) = 2048%nat.
Proof. intros [_ Hfit]. unfold block_bytes. rewrite length_app, length_replicate. lia. Qed.

Lemma blocks_entries joliet bss pre size q :
  Forall block_ok bss → Z.of_nat (length pre) = 2048 * q → size = 2048 * (q + Z.of_nat (length bss)) → size ≤ 2 ^ 28 → 0 ≤ q →
  ∃ k, entries k (pre ++ concat (map block_bytes bss)) size size joliet (2048 * q) = Some (shown (drec_entry joliet <$> concat bss)).
Proof.
  intros Hb. revert pre q. induction Hb as [|rs bss Hrs Hb IH]; intros pre q Hpre Hsize Hmax Hq.
  - exists 1%nat. rewrite entries_S. unfold dir_item. cbn in Hsize. destruct (Z.ltb_spec (2048 * q) size); [lia|]. done.
  - cbn [length] in Hsize. pose proof (block_bytes_length rs Hrs) as Hlen. pose proof Hrs as [Hok Hfit]. destruct (IH (pre ++ block_bytes rs) (q + 1)) as [k Hk].
    { rewrite length_app. lia. } { lia. } { done. } { lia. }
    cbn [map concat]. rewrite <- app_assoc in Hk. unfold block_bytes in Hk at 1. rewrite <- app_assoc in Hk.
    destruct (block_entries joliet rs pre (2048 - length (recs_bytes rs)) _ size (q + 1) k _ Hok ltac:(rewrite Hpre; lia) ltac:(lia) ltac:(lia) Hk) as [k' Hk'].
    exists k'. unfold block_bytes at 1. rewrite <- app_assoc. rewrite <- Hpre, Hk'. f_equal. unfold shown. by rewrite fmap_app, filter_app.
Qed.

(** A directory whose blocks hold well-formed records, none across a block
    boundary and the rest zero, is read back record for record: extent, size,
    kind and trimmed name of every visible entry, in order, without a read
    outside the directory. *)
Theorem iso_directory_roundtrip joliet bss :
  Forall block_ok bss → let data := concat (map block_bytes bss) in let size := Z.of_nat (length data) in
  Forall is_byte data → size ≤ 2 ^ 28 →
  entries (S (Z.to_nat size)) data size size joliet 0 = Some (shown (drec_entry joliet <$> concat bss)).
Proof.
  intros Hb data size Hbytes Hmax.
  assert (size = 2048 * Z.of_nat (length bss)) as Hsize.
  { unfold size, data. clear -Hb. induction Hb as [|rs bss Hrs Hb IH]; [done|]. cbn [map concat length]. rewrite length_app, (block_bytes_length _ Hrs). lia. }
  destruct (blocks_entries joliet bss [] size 0 Hb ltac:(done) ltac:(lia) Hmax ltac:(lia)) as [k Hk]. change ([] ++ concat (map block_bytes bss)) with data in Hk.
  assert (dir_data_ok data size size) as Hd by (split; [done|lia|done|by exists (Z.of_nat (length bss)); lia|done]).
  destruct (entries_total data size size joliet (Z.to_nat size) 0 Hd) as [es Hes]; [lia|lia|]. rewrite Hes. f_equal. by eapply entries_det.
Qed.

(** ** The tree *)

(** The tree on the disc. *)
Inductive itree := IT (name : list Z) (is_dir : bool) (extent size : Z) (children : list itree).

(** [Some None]: the disc cannot be read; [None]: deeper than the fuel, or a
    read outside a directory. *)
Fixpoint tree_entries (rec : Z → Z → option (option (list itree))) (es : list entry) : option (option (list itree)) :=
  match es with
  | [] => Some (Some [])
  | e :: es' =>
      cs ← (if en_dir e then rec (en_extent e) (en_size e) else Some (Some []));
      match cs with
      | None => Some None
      | Some cs => r ← tree_entries rec es'; Some (option_map (cons (IT (en_name e) (en_dir e) (en_extent e) (en_size e) cs)) r)
      end
  end.
Fixpoint tree_of (disk : Z → Z → option (list Z)) (fuel : nat) (di : Z) (joliet : bool) (extent size : Z) : option (option (list itree)) :=
  match fuel with
  | O => None
  | S fuel' =>
      if 0x10000 <? sector_count size then Some None
      else
        match read_blocks disk (Z.to_nat (sector_count size)) di extent 0 with
        | None => Some None
        | Some data =>
            es ← entries (S (Z.to_nat size)) data size (u32 (sector_count size * ISO_BLOCK_SIZE)) joliet 0;
            tree_entries (tree_of disk fuel' di joliet) es
        end
  end.

Section Tree.
Context {H : Type} `{!KernelHeap H}.
Implicit Types (h : H) (n : iso9660_node) (M : gmap Z Z) (l : list Z).

(** What the nodes describe; the children are linked in reverse order. *)
Fixpoint shape n : itree :=
  match n with mk_node _ name _ extent size d cs => IT name d extent size (rev (map shape cs)) end.

(** ** Ownership of the nodes *)

(** The addresses in the order in which iso9660_node_free visits them. *)
Fixpoint addrs n : list Z :=
  match n with mk_node a _ _ _ _ _ cs => concat (map addrs cs) ++ [a] end.

Fixpoint put l M : gmap Z Z :=
  match l with [] => M | a :: l' => <[a := sizeof_iso_node]> (put l' M) end.
Fixpoint fresh l M : Prop :=
  match l with [] => True | a :: l' => put l' M !! a = None ∧ fresh l' M end.
Definition own h M l : Prop := fresh l M ∧ kh_inv h (put l M).

Lemma puts_app l1 l2 M : put (l1 ++ l2) M = put l1 (put l2 M).
Proof. induction l1 as [|a l1 IH]; cbn; [done|]. by rewrite IH. Qed.

Lemma fresh_app l1 l2 M : fresh (l1 ++ l2) M ↔ fresh l1 (put l2 M) ∧ fresh l2 M.
Proof. induction l1 as [|a l1 IH]; cbn; [tauto|]. rewrite puts_app, IH. tauto. Qed.

Lemma own_app h M l1 l2 : own h M (l1 ++ l2) ↔ own h (put l2 M) l1 ∧ fresh l2 M.
Proof. unfold own. rewrite fresh_app, puts_app. tauto. Qed.

Lemma own_free h M a l : own h M (a :: l) → ∃ h', kfr a h = Some h' ∧ own h' M l.
Proof.
  intros [[Ha Hf] Hi]. destruct (kh_free_ok h _ a sizeof_iso_node Hi) as (h' & E & Hi'); [cbn; by rewrite lookup_insert_eq|].
  exists h'. split; [done|]. split; [done|]. cbn in Hi'. by rewrite delete_insert_id in Hi'.
Qed.

(** Another block, below the nodes. *)
Lemma put_insert l M d z : put l M !! d = None → put l (<[d := z]> M) = <[d := z]> (put l M) ∧ (fresh l M → fresh l (<[d := z]> M)).
Proof.
  induction l as [|a l IH]; cbn; [done|]. intros Hd. assert (a ≠ d) as Hne by (intros ->; by rewrite lookup_insert_eq in Hd).
  rewrite lookup_insert_ne in Hd by done. destruct (IH Hd) as [-> Hf]. split; [by apply insert_insert_ne|]. intros [H1 H2]. split; [|by apply Hf].
  by rewrite lookup_insert_ne.
Qed.

Lemma put_none l M d : put l M !! d = None → M !! d = None.
Proof. induction l as [|a l IH]; [done|]. intros Hd. apply IH. cbn in Hd. by apply lookup_insert_None in Hd as [Hd _]. Qed.

Lemma own_alloc h M l size :
  own h M l → 0 ≤ size →
  ∃ h' r, km size h = Some (h', r) ∧ match r with None => own h' M l | Some d => M !! d = None ∧ own h' (<[d := size]> M) l end.
Proof.
  intros [Hf Hi] Hs. destruct (kh_alloc_ok h _ size GFP_KERNEL Hi Hs) as (h' & r & E & Hr). exists h', r. split; [done|]. destruct r as [d|]; [|done].
  destruct Hr as (_ & _ & Hd & Hi'). destruct (put_insert l M d size Hd) as [Ep Hf']. split; [|split; [by apply Hf'|by rewrite Ep]].
  by eapply put_none.
Qed.

Lemma own_release h M l d z :
  own h (<[d := z]> M) l → M !! d = None → ∃ h', kfr d h = Some h' ∧ own h' M l.
Proof.
  intros [Hf Hi] Hd. assert (∀ l, fresh l (<[d := z]> M) → put l M !! d = None ∧ put l (<[d := z]> M) = <[d := z]> (put l M) ∧ fresh l M) as Hl.
  { clear l Hf Hi. intros l. induction l as [|a l IH]; cbn; [done|]. intros [Ha Hf]. destruct (IH Hf) as (Hn & Ep & Hf'). rewrite Ep in *.
    apply lookup_insert_None in Ha as [Ha Hne]. split; [by rewrite lookup_insert_ne|]. split; [by rewrite insert_insert_ne|done]. }
  destruct (Hl l Hf) as (Hn & Ep & Hf'). rewrite Ep in Hi. destruct (kh_free_ok h _ d z Hi (lookup_insert_eq _ _ _)) as (h' & E & Hi').
  exists h'. split; [done|]. split; [done|]. by rewrite delete_insert_id in Hi'.
Qed.

Lemma node_ind' (P : iso9660_node → Prop) :
  (∀ a nm di e z d cs, Forall P cs → P (mk_node a nm di e z d cs)) → ∀ n, P n.
Proof.
  intros HP. fix IH 1. intros [a nm di e z d cs]. apply HP. induction cs as [|c cs IHcs]; constructor; [apply IH|apply IHcs].
Qed.

(** Freeing a tree gives back its nodes and nothing else. *)
Lemma node_free_ok n h M : own h M (addrs n) → ∃ h', iso9660_node_free n h = Some h' ∧ kh_inv h' M.
Proof.
  revert h M. induction n as [a nm di e z d cs IH] using node_ind'; intros h M Hown. cbn [addrs] in Hown. apply own_app in Hown as [Hcs Ha]. cbn [iso9660_node_free].
  set (free_all := fix free_all (l : list iso9660_node) (h : H) : option H := _).
  assert (∃ h1, free_all cs h = Some h1 ∧ kh_inv h1 (put [a] M)) as (h1 & -> & Hi1).
  { clear Ha. revert h Hcs. generalize (put [a] M) as M'. induction IH as [|c cs Hc Hcs' IHcs]; intros M' h Hcs; cbn [map concat] in Hcs.
    - exists h. split; [done|]. by destruct Hcs.
    - apply own_app in Hcs as [Hown1 Hf]. destruct (Hc _ _ Hown1) as (h2 & E & Hi). cbn. rewrite E. cbn [mbind option_bind]. apply IHcs. by split. }
  cbn [mbind option_bind]. destruct (own_free h1 M a []) as (h2 & E & [_ Hi2]); [by split|]. by exists h2.
Qed.
End Tree.

Section Build.
Context {H : Type} `{!KernelHeap H}.
Variable disk : Z → Z → option (list Z).
Implicit Types (h : H) (n : iso9660_node) (M : gmap Z Z).

(** The names of entries fit in a node. *)
Lemma trim_length src joliet : (length (iso_trim_name src joliet) ≤ ISO_NAME_MAX)%nat.
Proof.
  assert (∀ l, (length (cstr l) ≤ length l)%nat) as Hc by (intros l; induction l as [|c l IH]; cbn; [lia|destruct (c =? 0); cbn; lia]).
  assert (∀ l, (length (drop_dot l) ≤ length l)%nat) as Hd.
  { intros l. unfold drop_dot. destruct (last l) as [c|]; [|lia]. destruct (c =? 46); [rewrite length_take|]; lia. }
  assert (∀ room l, (length (trim_joliet room l) ≤ room)%nat) as Hj.
  { intros room. induction room as [|room IH]; intros [|hi [|lo l]]; cbn; try lia. specialize (IH l). repeat case_match; cbn; lia. }
  assert (∀ room l, (length (trim_plain room l) ≤ room)%nat) as Hp.
  { intros room. induction room as [|room IH]; intros [|c l]; cbn; try lia. specialize (IH l). repeat case_match; cbn; lia. }
  assert (length (cstr (drop_dot (if joliet then trim_joliet ISO_NAME_MAX src else trim_plain ISO_NAME_MAX src))) ≤ ISO_NAME_MAX)%nat as Hall.
  { etransitivity; [apply Hc|]. etransitivity; [apply Hd|]. destruct joliet; [apply Hj|apply Hp]. }
  unfold iso_trim_name. destruct src as [|[|[| |]|] [|]]; try exact Hall; unfold ISO_NAME_MAX; cbn; lia.
Qed.

Lemma entries_names k data size total joliet pos es :
  entries k data size total joliet pos = Some es → Forall (λ e, (length (en_name e) ≤ ISO_NAME_MAX)%nat) es.
Proof.
  revert pos es. induction k as [|k IH]; intros pos es; [done|]. rewrite entries_S.
  destruct (dir_item data size total joliet pos) as [it|] eqn:E; cbn [mbind option_bind]; [|done].
  destruct it as [|p|nm d e z p]; [intros [= <-]; constructor|apply IH|].
  destruct (entries k data size total joliet p) as [es'|] eqn:Ee; cbn [mbind option_bind]; [|done].
  assert (length nm ≤ ISO_NAME_MAX)%nat as Hnm.
  { unfold dir_item in E. repeat (case_match; try done); cbn [mbind option_bind] in E; try done. all: revert E; repeat (match goal with |- (?x ≫= _) = _ → _ => destruct x; cbn [mbind option_bind]; [|done] | |- (if ?b then _ else _) = _ → _ => destruct b; [done|] end); intros [= <- _ _ _ _]; apply trim_length. }
  intros [= <-]. destruct (visible nm); [constructor; [done|]|]; by eapply IH.
Qed.

(** The records one by one, without the parsing. *)
Fixpoint add_entries (rec : Z → Z → iso9660_node → H → option (H * iso9660_node * Z)) (di : Z) (es : list entry) (parent : iso9660_node) h :
    option (H * iso9660_node * Z) :=
  match es with
  | [] => Some (h, parent, 0)
  | e :: es' =>
      '(h, c) ← iso9660_node_alloc (en_name e) (en_dir e) h;
      match c with
      | None => Some (h, parent, -1)
      | Some child =>
          let child := set_location di (en_extent e) (en_size e) child in
          if en_dir e then
            '(h, child, ret) ← rec (en_extent e) (en_size e) child h;
            if ret <? 0 then Some (h, iso9660_node_add_child parent child, -1) else add_entries rec di es' (iso9660_node_add_child parent child) h
          else add_entries rec di es' (iso9660_node_add_child parent child) h
      end
  end.

Lemma dir_loop_entries rec k data size total di joliet pos parent h es :
  entries k data size total joliet pos = Some es → dir_loop rec k data size total di joliet pos parent h = add_entries rec di es parent h.
Proof.
  revert pos parent h es. induction k as [|k IH]; intros pos parent h es; [done|]. rewrite entries_S. cbn [dir_loop].
  destruct (dir_item data size total joliet pos) as [[|p|nm d e z p]|]; cbn [mbind option_bind]; [by intros [= <-]|by apply IH| |done].
  destruct (entries k data size total joliet p) as [es'|] eqn:Ee; cbn [mbind option_bind]; [|done]. intros [= <-].
  destruct (visible nm); [|by apply IH]. cbn [add_entries en_name en_dir en_extent en_size]. unfold iso9660_node_alloc.
  destruct (km sizeof_iso_node h) as [[h1 [a|]]|]; cbn [mbind option_bind option_map]; [|done|done].
  cbn [set_location n_is_dir]. destruct d.
  - destruct (rec e z _ h1) as [[[h2 child] ret]|]; cbn [mbind option_bind]; [|done]. destruct (ret <? 0); [done|]. by apply IH.
  - cbn [iso9660_copy_file_to_node set_location Z.eqb negb]. by apply IH.
Qed.

(** Everything of a node but its children. *)
Definition same_head n n' : Prop :=
  n_addr n' = n_addr n ∧ n_name n' = n_name n ∧ n_disk_index n' = n_disk_index n ∧ n_extent n' = n_extent n ∧ n_size n' = n_size n ∧ n_is_dir n' = n_is_dir n.

Definition built (o : option (list itree)) n n' (ret : Z) : Prop :=
  same_head n n' ∧
  ((ret = 0 ∧ ∃ ts, o = Some ts ∧ map shape (n_children n') = rev ts ++ map shape (n_children n)) ∨ ret = -1).

Lemma add_child_addrs n c : addrs (iso9660_node_add_child n c) = addrs c ++ addrs n.
Proof. destruct n. cbn. by rewrite app_assoc. Qed.

Lemma own_child h M n c : fresh (addrs n) M → own h (put (addrs n) M) (addrs c) → own h M (addrs (iso9660_node_add_child n c)).
Proof. intros Hf Hc. rewrite add_child_addrs. by rewrite own_app. Qed.

Lemma add_entries_ok rec tr di es parent h M o :
  (∀ e z n h M o, tr e z = Some o → n_is_dir n = true → own h M (addrs n) →
     ∃ h' n' ret, rec e z n h = Some (h', n', ret) ∧ own h' M (addrs n') ∧ built o n n' ret) →
  Forall (λ e, (length (en_name e) ≤ ISO_NAME_MAX)%nat) es → tree_entries tr es = Some o → own h M (addrs parent) →
  ∃ h' parent' ret, add_entries rec di es parent h = Some (h', parent', ret) ∧ own h' M (addrs parent') ∧ built o parent parent' ret.
Proof.
  intros Hrec Hn. revert parent h o. induction Hn as [|e es Hlen Hn IH]; intros parent h o Ho Hown; cbn [tree_entries add_entries] in *.
  { injection Ho as <-. exists h, parent, 0. split; [done|]. split; [done|]. split; [done|]. left. split; [done|]. by exists []. }
  unfold iso9660_node_alloc. pose proof Hown as [Hf Hi]. destruct (kh_alloc_ok h _ sizeof_iso_node GFP_KERNEL Hi ltac:(done)) as (h1 & r & E & Hr).
  change (km sizeof_iso_node h = Some (h1, r)) in E. rewrite E. cbn [mbind option_bind]. destruct r as [a|]; cbn [option_map].
  2:{ exists h1, parent, (-1). split; [done|]. split; [by split|]. split; [done|by right]. }
  destruct Hr as (_ & _ & Ha & Hi1). rewrite take_ge by done. cbn [set_location]. set (child := mk_node a (en_name e) di (en_extent e) (en_size e) (en_dir e) []).
  assert (own h1 (put (addrs parent) M) (addrs child)) as Hownc by (split; [by split|done]).
  assert (∀ child' h2 cs, own h2 (put (addrs parent) M) (addrs child') → shape child' = IT (en_name e) (en_dir e) (en_extent e) (en_size e) cs →
    (r ← tree_entries tr es; Some (option_map (cons (IT (en_name e) (en_dir e) (en_extent e) (en_size e) cs)) r)) = Some o →
    ∃ h' parent' ret, add_entries rec di es (iso9660_node_add_child parent child') h2 = Some (h', parent', ret) ∧ own h' M (addrs parent') ∧ built o parent parent' ret) as Hgo.
  { intros child' h2 cs Ho2 Hsh Hr. destruct (tree_entries tr es) as [r|] eqn:Er; cbn [mbind option_bind] in Hr; [|done]. injection Hr as <-.
    destruct (IH (iso9660_node_add_child parent child') h2 r eq_refl) as (h' & parent' & ret & E' & Hown' & Hhead & Hcase).
    { by apply own_child. }
    exists h', parent', ret. split; [done|]. split; [done|]. split; [by destruct parent|]. destruct Hcase as [(-> & ts & -> & Hts)|]; [left|by right].
    split; [done|]. eexists. split; [done|]. rewrite Hts. destruct parent. cbn. by rewrite Hsh, <- app_assoc. }
  destruct (en_dir e) eqn:Ed.
  - destruct (tr (en_extent e) (en_size e)) as [oc|] eqn:Etr; cbn [mbind option_bind] in Ho; [|done].
    destruct (Hrec _ _ child h1 _ oc Etr ltac:(done) Hownc) as (h2 & child' & ret & -> & Hown2 & Hhead & Hcase). cbn [mbind option_bind].
    destruct Hcase as [(-> & ts & -> & Hts)| ->]; cbn [Z.ltb Z.compare].
    + apply (Hgo child' h2 ts); [done| |done]. destruct child' as [? ? ? ? ? ? cs']. destruct Hhead as (_ & E2 & _ & E3 & E4 & E5). cbn in E2, E3, E4, E5, Hts |- *. subst.
      rewrite Hts. cbn. by rewrite app_nil_r, rev_involutive.
    + exists h2, (iso9660_node_add_child parent child'), (-1). split; [done|]. split; [by apply own_child|].
      split; [by destruct parent|by right].
  - cbn [mbind option_bind] in Ho. by apply (Hgo child h1 []).
Qed.

Lemma total_size_ok size : sector_count size ≤ 0x10000 → u32 (sector_count size * ISO_BLOCK_SIZE) = sector_count size * 2048 ∧ 0 ≤ sector_count size.
Proof.
  intros Hc. assert (0 ≤ sector_count size) as H0.
  { unfold sector_count, u32, ISO_BLOCK_SIZE. apply Z.div_pos; [apply Z.mod_pos_bound; lia|lia]. }
  unfold ISO_BLOCK_SIZE. rewrite u32_small by lia. done.
Qed.

Lemma build_ok fuel di joliet extent size n h M o :
  tree_of disk fuel di joliet extent size = Some o → n_is_dir n = true → own h M (addrs n) →
  ∃ h' n' ret, iso9660_build_tree_recursive disk fuel di joliet extent size n h = Some (h', n', ret) ∧ own h' M (addrs n') ∧ built o n n' ret.
Proof.
  revert extent size n h M o. induction fuel as [|fuel IH]; intros extent size n h M o Ht Hd Hown; [done|].
  cbn [tree_of iso9660_build_tree_recursive] in *. rewrite Hd. cbn [negb].
  assert (∀ h', own h' M (addrs n) → ∃ h0 n' ret, Some (h', n, -1) = Some (h0, n', ret) ∧ own h0 M (addrs n') ∧ built o n n' ret) as Hfail.
  { intros h' Ho'. exists h', n, (-1). split; [done|]. split; [done|]. split; [done|by right]. }
  destruct (Z.ltb_spec 0x10000 (sector_count size)) as [|Hsc]; [by apply Hfail|]. destruct (total_size_ok size Hsc) as [Etot H0]. rewrite Etot in *.
  assert (negb (sector_count size =? 0) && negb (sector_count size * 2048 / sector_count size =? ISO_BLOCK_SIZE) = false) as ->.
  { destruct (Z.eqb_spec (sector_count size) 0); [done|]. rewrite Z.mul_comm, Z.div_mul by done. done. }
  destruct (own_alloc h M _ ISO_BLOCK_SIZE Hown ltac:(done)) as (h1 & r1 & -> & Hr1). cbn [mbind option_bind]. destruct r1 as [sec|]; [|by apply Hfail].
  destruct Hr1 as [HMs Hown1]. set (dsz := if sector_count size * 2048 =? 0 then ISO_BLOCK_SIZE else sector_count size * 2048).
  destruct (own_alloc h1 _ _ dsz Hown1) as (h2 & r2 & -> & Hr2); [unfold dsz; destruct (_ =? 0); [done|lia]|]. cbn [mbind option_bind].
  destruct r2 as [dd|].
  2:{ destruct (own_release h2 M _ sec _ Hr2 HMs) as (h3 & -> & Hown3). cbn [mbind option_bind]. by apply Hfail. }
  destruct Hr2 as [HMd Hown2]. apply lookup_insert_None in HMd as [HMd Hne]. rewrite insert_insert_ne in Hown2 by done.
  destruct (own_release h2 (<[dd := dsz]> M) _ sec _ Hown2) as (h3 & E3 & Hown3); [by rewrite lookup_insert_ne|].
  destruct (read_blocks disk _ di extent 0) as [data|].
  2:{ rewrite E3. cbn [mbind option_bind]. destruct (own_release h3 M _ dd _ Hown3 HMd) as (h4 & -> & Hown4). cbn [mbind option_bind]. by apply Hfail. }
  rewrite E3. cbn [mbind option_bind]. destruct (entries _ data size _ joliet 0) as [es|] eqn:Ees; cbn [mbind option_bind] in Ht; [|done].
  rewrite (dir_loop_entries _ _ _ _ _ _ _ _ _ _ es Ees).
  destruct (add_entries_ok (iso9660_build_tree_recursive disk fuel di joliet) (tree_of disk fuel di joliet) di es n h3 (<[dd := dsz]> M) o) as (h4 & n' & ret & -> & Hown4 & Hb); try done.
  { by eapply entries_names. }
  cbn [mbind option_bind]. destruct (own_release h4 M _ dd _ Hown4 HMd) as (h5 & -> & Hown5). cbn [mbind option_bind]. exists h5, n', ret. done.
Qed.

(** ** Mounting *)

(** All that a mounted disc holds: its nodes, and the super block, the root
    inode and the root dentry. *)
Definition mounted_sb (sb : iso_sb) h M : Prop :=
  ∃ M1 M2, M !! sb_addr sb = None ∧ M1 = <[sb_addr sb := sizeof_super_block]> M ∧ M1 !! sb_root_inode sb = None ∧
    M2 = <[sb_root_inode sb := sizeof_inode]> M1 ∧ M2 !! sb_root_dentry sb = None ∧ own h (<[sb_root_dentry sb := sizeof_dentry]> M2) (addrs (sb_root sb)).

Lemma finish_mount_ok root h M :
  own h M (addrs root) →
  ∃ h' r, finish_mount root h = Some (h', r) ∧ match r with None => kh_inv h' M | Some sb => sb_root sb = root ∧ mounted_sb sb h' M end.
Proof.
  intros Hown. unfold finish_mount.
  assert (∀ h, own h M (addrs root) → ∃ h' r, (h ← iso9660_node_free root h; Some (h, None)) = Some (h', r) ∧
    match r with None => kh_inv h' M | Some sb => sb_root sb = root ∧ mounted_sb sb h' M end) as Hdrop.
  { intros h0 Ho. destruct (node_free_ok root h0 M Ho) as (h' & -> & Hi). cbn [mbind option_bind]. by exists h', None. }
  destruct (own_alloc h M _ sizeof_super_block Hown ltac:(done)) as (h1 & r1 & -> & Hr1). cbn [mbind option_bind]. destruct r1 as [sb|]; [|by apply Hdrop].
  destruct Hr1 as [Hsb Ho1]. destruct (own_alloc h1 _ _ sizeof_inode Ho1 ltac:(done)) as (h2 & r2 & -> & Hr2). cbn [mbind option_bind]. destruct r2 as [i|].
  2:{ destruct (own_release _ _ _ _ _ Hr2 Hsb) as (h3 & -> & Ho3). cbn [mbind option_bind]. by apply Hdrop. }
  destruct Hr2 as [Hi Ho2]. destruct (own_alloc h2 _ _ sizeof_dentry Ho2 ltac:(done)) as (h3 & r3 & -> & Hr3). cbn [mbind option_bind]. destruct r3 as [d|].
  2:{ destruct (own_release _ _ _ _ _ Hr3 Hi) as (h4 & -> & Ho4). cbn [mbind option_bind]. destruct (own_release _ _ _ _ _ Ho4 Hsb) as (h5 & -> & Ho5).
      cbn [mbind option_bind]. by apply Hdrop. }
  destruct Hr3 as [Hd Ho3]. eexists _, _. split; [done|]. split; [done|]. eexists _, _. repeat split; try done; apply Ho3.
Qed.

(** Unmounting gives everything back. *)
Lemma kill_sb_ok sb h M : mounted_sb sb h M → ∃ h', iso9660_kill_sb sb h = Some h' ∧ kh_inv h' M.
Proof.
  intros (M1 & M2 & Hsb & -> & Hi & -> & Hd & Hown). unfold iso9660_kill_sb. destruct (node_free_ok _ _ _ Hown) as (h1 & -> & Hi1). cbn [mbind option_bind].
  apply lookup_insert_None in Hd as [Hd Hne]. rewrite insert_insert_ne in Hi1 by done.
  destruct (own_release h1 _ [] _ _ (conj I Hi1)) as (h2 & -> & [_ Hi2]); [by rewrite lookup_insert_ne|]. cbn [mbind option_bind].
  destruct (own_release h2 _ [] _ _ (conj I Hi2) Hd) as (h3 & -> & [_ Hi3]). cbn [mbind option_bind].
  destruct (own_release h3 _ [] _ _ (conj I Hi3) Hsb) as (h4 & -> & [_ Hi4]). by exists h4.
Qed.

Lemma new_root_ok di h M :
  kh_inv h M →
  ∃ h' r, new_root di h = Some (h', r) ∧
    match r with None => kh_inv h' M | Some root => n_is_dir root = true ∧ n_children root = [] ∧ own h' M (addrs root) end.
Proof.
  intros Hi. unfold new_root, iso9660_node_alloc. destruct (own_alloc h M [] sizeof_iso_node (conj I Hi) ltac:(done)) as (h1 & r & -> & Hr). cbn [mbind option_bind].
  exists h1. eexists. split; [done|]. destruct r as [a|]; cbn; [|by destruct Hr]. destruct Hr as [Ha [_ Hi1]]. split; [done|]. split; [done|]. by split.
Qed.

(** The tree a successful mount shows: that of the Joliet catalogue if it can
    be read, else the primary one. *)
Definition catalogue (fuel : nat) (di : Z) (joliet : bool) (info : iso_volume_info) : option (option (list itree)) :=
  if joliet then tree_of disk fuel di true (joliet_root_extent info) (joliet_root_size info)
  else tree_of disk fuel di false (primary_root_extent info) (primary_root_size info).

Definition mount_spec (fuel : nat) (di : Z) (info : iso_volume_info) h' M (r : option iso_sb) : Prop :=
  match r with
  | None => kh_inv h' M
  | Some sb =>
      mounted_sb sb h' M ∧
      ∃ joliet ts, (if joliet : bool then has_joliet info else has_primary info) = true ∧ catalogue fuel di joliet info = Some (Some ts) ∧
        map shape (n_children (sb_root sb)) = rev ts
  end.

Lemma built_mount fuel di joliet info root h M o :
  (if joliet : bool then has_joliet info else has_primary info) = true → catalogue fuel di joliet info = Some o →
  n_is_dir root = true → n_children root = [] → own h M (addrs root) →
  ∃ h1 root1 ret, (if joliet then iso9660_build_tree_recursive disk fuel di true (joliet_root_extent info) (joliet_root_size info) root h
       else iso9660_build_tree_recursive disk fuel di false (primary_root_extent info) (primary_root_size info) root h) = Some (h1, root1, ret) ∧
    own h1 M (addrs root1) ∧
    ((ret = 0 ∧ ∃ h' r, finish_mount root1 h1 = Some (h', r) ∧ mount_spec fuel di info h' M r) ∨
     (ret = -1 ∧ ∃ h', iso9660_node_free root1 h1 = Some h' ∧ kh_inv h' M)).
Proof.
  intros Hhas Ho Hd Hc Hown. unfold catalogue in Ho.
  assert (∃ h1 root1 ret, (if joliet then iso9660_build_tree_recursive disk fuel di true (joliet_root_extent info) (joliet_root_size info) root h
       else iso9660_build_tree_recursive disk fuel di false (primary_root_extent info) (primary_root_size info) root h) = Some (h1, root1, ret) ∧
    own h1 M (addrs root1) ∧ built o root root1 ret) as (h1 & root1 & ret & E & Hown1 & _ & Hcase) by (destruct joliet; by apply build_ok).
  exists h1, root1, ret. split; [done|]. split; [done|]. destruct Hcase as [(-> & ts & -> & Hts)| ->]; [left|right]; (split; [done|]); [|by apply node_free_ok].
  destruct (finish_mount_ok root1 h1 M Hown1) as (h' & r & E' & Hr). exists h', r. split; [done|]. destruct r as [sb|]; [|done].
  destruct Hr as [Eroot Hm]. split; [done|]. exists joliet, ts. split; [done|]. split; [done|]. by rewrite Eroot, Hts, Hc, app_nil_r.
Qed.

(** What the volume descriptors say. *)
Definition volume (di : Z) : option (Z * iso_volume_info) := volume_loop disk 48 di 16 false (mk_volume 0 0 0 0 false false).

Lemma volume_total k di lba saw info : block_device disk → is_Some (volume_loop disk k di lba saw info).
Proof.
  intros Hdisk. revert lba saw info. induction k as [|k IH]; intros lba saw info; cbn [volume_loop]; [by eexists|].
  destruct (disk di lba) as [b|] eqn:Eb; [|by eexists]. destruct (Hdisk _ _ _ Eb) as [Hlen _].
  destruct (byte_at_some b 0) as [b0 E0]; [lia|]. rewrite E0. cbn [mbind option_bind]. destruct (negb _); [by eexists|].
  destruct (le32_some b 158) as [e ->]; [lia|lia|]. destruct (le32_some b 166) as [z ->]; [lia|lia|]. cbn [mbind option_bind].
  unfold iso_is_joliet_descriptor. rewrite E0. destruct (byte_at_some b 88) as [b88 ->]; [lia|]. destruct (byte_at_some b 89) as [b89 ->]; [lia|].
  destruct (byte_at_some b 90) as [b90 ->]; [lia|]. cbn [mbind option_bind].
  destruct ((b0 =? 1) && negb saw); [apply IH|]. destruct (_ && _); [apply IH|]. destruct (b0 =? 255); [by eexists|apply IH].
Qed.

Lemma find_volume_ok di h M :
  block_device disk → kh_inv h M →
  ∃ h' ret info, iso_find_volume_info disk di h = Some (h', ret, info) ∧ kh_inv h' M ∧ (ret = 0 → volume di = Some (0, info)).
Proof.
  intros Hdisk Hi. unfold iso_find_volume_info. destruct (own_alloc h M [] ISO_BLOCK_SIZE (conj I Hi) ltac:(done)) as (h1 & r & -> & Hr). cbn [mbind option_bind].
  destruct r as [p|]; [|exists h1, (-1); eexists; split; [done|]; by destruct Hr]. destruct Hr as [HM Ho1].
  destruct (volume_total 48 di 16 false (mk_volume 0 0 0 0 false false) Hdisk) as [[ret info] Ev]. rewrite Ev. cbn [mbind option_bind].
  destruct (own_release h1 M [] p _ Ho1 HM) as (h2 & -> & [_ Hi2]). cbn [mbind option_bind]. exists h2, ret, info. split; [done|]. split; [done|].
  intros ->. exact Ev.
Qed.

Lemma mount_primary_ok fuel di info root h M :
  (has_primary info = true → is_Some (catalogue fuel di false info)) → n_is_dir root = true → n_children root = [] → own h M (addrs root) →
  ∃ h' r, mount_primary disk fuel di info root h = Some (h', r) ∧ mount_spec fuel di info h' M r.
Proof.
  intros Hcat Hd Hc Hown. unfold mount_primary. destruct (has_primary info) eqn:Ep.
  - destruct (Hcat eq_refl) as [o Ho]. destruct (built_mount fuel di false info root h M o Ep Ho Hd Hc Hown) as (h1 & root1 & ret & -> & Ho1 & Hcase).
    cbn [mbind option_bind]. destruct Hcase as [(-> & Hfin)|(-> & h2 & -> & Hi2)]; [done|]. by exists h2, None.
  - destruct (node_free_ok root h M Hown) as (h1 & -> & Hi1). by exists h1, None.
Qed.

Lemma mount_joliet_ok fuel di info root h M :
  has_joliet info = true → is_Some (catalogue fuel di true info) → (has_primary info = true → is_Some (catalogue fuel di false info)) →
  n_is_dir root = true → n_children root = [] → own h M (addrs root) →
  ∃ h' r, mount_joliet disk fuel di info root h = Some (h', r) ∧ mount_spec fuel di info h' M r.
Proof.
  intros Ej [o Ho] Hcat Hd Hc Hown. unfold mount_joliet.
  destruct (built_mount fuel di true info root h M o Ej Ho Hd Hc Hown) as (h3 & root1 & ret & -> & Ho1 & Hcase). cbn [mbind option_bind].
  destruct Hcase as [(-> & Hfin)|(-> & h4 & E4 & Hi4)]; cbn [Z.eqb]; [done|].
  rewrite E4. cbn [mbind option_bind]. destruct (new_root_ok di h4 M Hi4) as (h5 & r5 & -> & Hr5). cbn [mbind option_bind].
  destruct r5 as [root5|]; [|by exists h5, None]. destruct Hr5 as (? & ? & ?). by apply mount_primary_ok.
Qed.

Definition mount_outcome (fuel : nat) (di : Z) h' M (r : option iso_sb) : Prop :=
  match r with
  | None => kh_inv h' M
  | Some sb => ∃ info, volume di = Some (0, info) ∧ mount_spec fuel di info h' M (Some sb) ∧ ∃ h'', iso9660_kill_sb sb h' = Some h'' ∧ kh_inv h'' M
  end.

(** C24: mounting a disc returns, whatever is on it, provided that the
    catalogues its volume descriptors announce can be walked ([catalogue] is
    defined for the fuel): their directories are not nested deeper than the
    fuel, and no directory has a size that wraps when it is rounded up to
    sectors (without this the code recurses without end or reads outside its
    buffer, [cyclic_directory] and [directory_size_wraps]).  Either the mount
    fails and every block that was allocated on the way is freed again; or the
    nodes describe exactly the tree of the Joliet catalogue, or else of the
    primary one, in reverse order of the records, and kill_sb frees all of it. *)
Theorem iso9660_mount_correct fuel di h M :
  block_device disk → kh_inv h M → 0 ≤ di →
  (∀ info joliet, volume di = Some (0, info) → (if joliet : bool then has_joliet info else has_primary info) = true → is_Some (catalogue fuel di joliet info)) →
  ∃ h' r, iso9660_mount disk fuel di h = Some (h', r) ∧ mount_outcome fuel di h' M r.
Proof.
  intros Hdisk Hi Hdi Hcat. unfold iso9660_mount. destruct (Z.ltb_spec di 0); [lia|].
  destruct (find_volume_ok di h M Hdisk Hi) as (h1 & ret & info & -> & Hi1 & Hvol). cbn [mbind option_bind].
  destruct (Z.eqb_spec ret 0) as [->|]; cbn [negb]; [|by exists h1, None]. specialize (Hvol eq_refl).
  pose proof (Hcat info true Hvol) as Hcj. pose proof (Hcat info false Hvol) as Hcp. cbv iota in Hcj, Hcp. set (outcome h' r := mount_outcome fuel di h' M r).
  assert (∀ x, (∃ h' r, x = Some (h', r) ∧ mount_spec fuel di info h' M r) → ∃ h' r, x = Some (h', r) ∧ outcome h' r) as Hdone.
  { intros x (h' & r & -> & Hm). exists h', r. split; [done|]. destruct r as [sb|]; [|done]. exists info. split; [done|]. split; [done|]. apply kill_sb_ok, Hm. }
  assert (∀ root h2, n_is_dir root = true → n_children root = [] → own h2 M (addrs root) →
    ∃ h' r, (if has_joliet info then mount_joliet disk fuel di info root h2 else mount_primary disk fuel di info root h2) = Some (h', r) ∧ outcome h' r) as Hbuild.
  { intros root h2 Hd Hc Ho. apply Hdone. destruct (has_joliet info) eqn:Ej; [by apply mount_joliet_ok; auto|by apply mount_primary_ok]. }
  assert (∀ h2, kh_inv h2 M → ∃ h' r, ('(h, r) ← (if has_primary info then new_root di h2 else Some (h2, None));
    match r with None => Some (h, None) | Some root => if has_joliet info then mount_joliet disk fuel di info root h else mount_primary disk fuel di info root h end) = Some (h', r) ∧ outcome h' r) as Hprim.
  { intros h2 Hi2. destruct (has_primary info); cbn [mbind option_bind]; [|by exists h2, None].
    destruct (new_root_ok di h2 M Hi2) as (h3 & [root|] & -> & Hr); cbn [mbind option_bind]; [destruct Hr as (? & ? & ?); by apply Hbuild|by exists h3, None]. }
  destruct (has_joliet info) eqn:Ej; cbn [mbind option_bind]; [|by apply Hprim].
  destruct (new_root_ok di h1 M Hi1) as (h2 & [root|] & -> & Hr); cbn [mbind option_bind]; [destruct Hr as (? & ? & ?); by apply Hbuild|by apply Hprim].
Qed.
End Build.

(** A directory whose size does not wrap is parsed without a read outside. *)
Lemma dir_parses disk di extent size data joliet :
  block_device disk → 0 ≤ size ≤ 2 ^ 32 - 2048 → sector_count size ≤ 0x10000 → read_blocks disk (Z.to_nat (sector_count size)) di extent 0 = Some data →
  is_Some (entries (S (Z.to_nat size)) data size (u32 (sector_count size * ISO_BLOCK_SIZE)) joliet 0).
Proof.
  intros Hdisk Hs Hc Hr. destruct (total_size_ok size Hc) as [-> H0]. destruct (sector_count_ok size Hs) as [_ Hsc].
  apply entries_total; [|lia|lia]. pose proof (read_blocks_length _ Hdisk _ _ _ _ _ Hr) as Hlen.
  split; [lia|lia|lia|by exists (sector_count size)|by eapply read_blocks_bytes].
Qed.

(** A size just below 2^32 rounds to no sector at all, and the loop reads the
    uninitialised buffer. *)
Lemma directory_size_wraps : sector_count (2 ^ 32 - 1) = 0 ∧ dir_item [] (2 ^ 32 - 1) 0 false 0 = None.
Proof. split; reflexivity. Qed.

(** ** A concrete disc *)

Definition demo_drec (name : list Z) (flags extent size : Z) : drec :=
  mk_drec 0 extent (replicate 4 0) size (replicate 4 0) (replicate 7 0) flags (replicate 6 0) name (if Nat.even (length name) then [0] else []).
Definition hello : list Z := bytes_of_string "HELLO.TXT;1"%string.
Definition demo_root : list drec := [demo_drec [0] 2 20 2048; demo_drec [1] 2 20 2048; demo_drec hello 0 21 5].
Definition demo_descriptor (type : Z) : list Z :=
  [type; 67; 68; 48; 48; 49] ++ replicate 152 0 ++ le32_bytes 20 ++ replicate 4 0 ++ le32_bytes 2048 ++ replicate 1878 0.
Definition demo_disk (i lba : Z) : option (list Z) :=
  if lba =? 16 then Some (demo_descriptor 1)
  else if lba =? 17 then Some (demo_descriptor 255)
  else if lba =? 20 then Some (block_bytes demo_root)
  else if lba =? 21 then Some (bytes_of_string "hello"%string ++ replicate 2043 0)
  else None.

Lemma demo_block_device : block_device demo_disk.
Proof.
  assert (∀ b : list Z, bool_decide (length b = 2048%nat ∧ Forall is_byte b) = true → length b = 2048%nat ∧ Forall is_byte b) as Hb
    by (intros b Hb; by apply bool_decide_eq_true in Hb).
  intros i lba b. unfold demo_disk. repeat (destruct (_ =? _); [intros [= <-]; apply Hb; vm_compute; reflexivity|]). discriminate.
Qed.

Lemma iso_directory_roundtrip_witness :
  entries 2049 (concat (map block_bytes [demo_root])) 2048 2048 false 0 = Some [mk_ent (bytes_of_string "HELLO.TXT"%string) false 21 5].
Proof.
  refine (eq_trans (iso_directory_roundtrip false [demo_root] _ _ _) _).
  - constructor; [|constructor]. split; [|vm_compute; lia]. repeat constructor; cbn; try lia; vm_compute; discriminate.
  - apply (bool_decide_unpack _). vm_compute. exact I.
  - vm_compute. discriminate.
  - vm_compute. reflexivity.
Defined.

Lemma iso9660_read_correct_witness :
  ∃ h', iso9660_read demo_disk (mk_node 1 hello 0 21 5 false []) 100 1 boot_heap = Some (h', bytes_of_string "ello"%string, 5, 4).
Proof.
  destruct (iso9660_read_correct demo_disk demo_block_device (mk_node 1 hello 0 21 5 false []) 100 1 boot_heap ∅ (bytes_of_string "hello"%string)) as (h' & _ & [E|[E _]]).
  - by apply heap_owns_init.
  - reflexivity.
  - cbn. lia.
  - cbn. lia.
  - vm_compute. reflexivity.
  - lia.
  - lia.
  - exists h'. exact E.
  - assert (snd <$> iso9660_read demo_disk (mk_node 1 hello 0 21 5 false []) 100 1 boot_heap = Some 4) as E' by (vm_compute; reflexivity).
    rewrite E in E'. discriminate E'.
Defined.

Lemma iso9660_mount_correct_witness :
  ∃ h' sb, iso9660_mount demo_disk 3 0 boot_heap = Some (h', Some sb) ∧
    map shape (n_children (sb_root sb)) = [IT (bytes_of_string "HELLO.TXT"%string) false 21 5 []] ∧
    ∃ h'', iso9660_kill_sb sb h' = Some h'' ∧ kh_inv h'' ∅.
Proof.
  assert (volume demo_disk 0 = Some (0, mk_volume 20 2048 0 0 true false)) as Ev by (vm_compute; reflexivity).
  destruct (iso9660_mount_correct demo_disk 3 0 boot_heap ∅ demo_block_device) as (h' & r & E & Hr).
  - by apply heap_owns_init.
  - lia.
  - intros info joliet Hv. rewrite Ev in Hv. injection Hv as <-. destruct joliet; [discriminate|]. intros _. apply (bool_decide_unpack _). vm_compute. exact I.
  - destruct r as [sb|].
    + destruct Hr as (info & Hv & (_ & joliet & ts & Hj & Hc & Hs) & Hk). exists h', sb. split; [exact E|]. split; [|exact Hk].
      rewrite Ev in Hv. injection Hv as <-. destruct joliet; [discriminate Hj|].
      assert (catalogue demo_disk 3 0 false (mk_volume 20 2048 0 0 true false) = Some (Some [IT (bytes_of_string "HELLO.TXT"%string) false 21 5 []])) as Ec
        by (vm_compute; reflexivity).
      rewrite Ec in Hc. injection Hc as <-. exact Hs.
    + assert ((λ r, bool_decide (is_Some (option_map n_addr (option_map sb_root (snd r))))) <$> iso9660_mount demo_disk 3 0 boot_heap = Some true) as E' by (vm_compute; reflexivity).
      rewrite E in E'. discriminate E'.
Defined.

(** A directory that contains itself is descended into without end. *)
Definition cyclic_disk (i lba : Z) : option (list Z) := Some (block_bytes [demo_drec [65] 2 20 2048]).

Lemma cyclic_directory fuel : tree_of cyclic_disk fuel 0 false 20 2048 = None.
Proof.
  induction fuel as [|fuel IH]; [done|]. cbn [tree_of]. change (0x10000 <? sector_count 2048) with false. cbv iota.
  assert (read_blocks cyclic_disk (Z.to_nat (sector_count 2048)) 0 20 0 = Some (block_bytes [demo_drec [65] 2 20 2048])) as -> by (vm_compute; reflexivity).
  assert (entries (S (Z.to_nat 2048)) (block_bytes [demo_drec [65] 2 20 2048]) 2048 (u32 (sector_count 2048 * ISO_BLOCK_SIZE)) false 0 =
    Some [mk_ent [65] true 20 2048]) as -> by (vm_compute; reflexivity).
  cbn [mbind option_bind tree_entries en_dir en_extent en_size]. by rewrite IH.
Qed.

(** The position is cut to 32 bits: far beyond the end of a file its beginning
    is read. *)
Lemma read_position_wraps :
  option_map (λ r, snd (fst (fst r))) (iso9660_read demo_disk (mk_node 1 hello 0 21 5 false []) 100 (2 ^ 32) boot_heap) = Some (bytes_of_string "hello"%string).
Proof. vm_compute. reflexivity. Qed.
