(* ===== verification/Vfs.v ===== *)
(** * kernel/fs/vfs.c and fs/fat32.c

    The virtual file system over the three file system types that are
    registered with it: the RAM file system of [Ramfs]; fat32.c, whose
    operations are stubs (a lookup finds nothing, a read returns 0, nothing can
    be created); and the discs of [Iso9660].  The function pointers of an inode
    are its tables of operations ([i_op], [i_fop]), those of an open file its
    table ([f_op]).

    The storage driver is part of the state and never changes: the number of
    the disk at a location and the blocks it delivers.  An inode of a disc holds
    the address of its node; the nodes live from the mount on, since nothing
    tears the superblock down.

    A dentry or an open file is its heap address, the key of [dentries] or
    [files]; the heap is the one of the RAM file system.  The static root
    dentry of ramfs.c is [ROOT_DENTRY].  [mounts[i]] is null or points to
    [mount_pool[i]], so the two arrays are one list.  Paths and names are the
    characters before the terminating zero.  Superblocks carry nothing but
    their root here ([s_disk_index] only informs the storage driver).

    [None] is an access through a null or dangling pointer. *)

From S2P Require Import Prelude KHeap Kmalloc Ramfs Iso9660.

Definition NAME_MAX : nat := 255.
Definition PATH_MAX : Z := 4096.
Definition MAX_MOUNTS : nat := 64.
Definition O_WRONLY : Z := 0x1.
Definition O_CREAT : Z := 0x40.
Definition O_TRUNC : Z := 0x200.
Definition O_APPEND : Z := 0x400.
Definition VFS_SAVE_CREATE_PARENTS : Z := 1.
Definition VFS_SAVE_APPEND : Z := 2.
Definition EPERM : Z := 1.
Definition EBADF : Z := 9.
Definition EFAULT : Z := 14.
Definition EBUSY : Z := 16.
Definition ENODEV : Z := 19.
Definition EFBIG : Z := 27.
Definition ENOSYS : Z := 38.
Definition S_ISREG (m : Z) : bool := Z.land m S_IFMT =? S_IFREG.
Definition sizeof_file : Z := 48.
Definition sizeof_fat32_sb_info : Z := 24.
Definition ROOT_DENTRY : Z := -2.

Definition has (x m : Z) : bool := negb (Z.land x m =? 0).

(** The registered file system types. *)
Inductive fstype := RAMFS | FAT32 | ISO9660.
#[export] Instance fstype_eq_dec : EqDecision fstype.
Proof. solve_decision. Defined.

Definition fst_name (t : fstype) : list Z :=
  match t with
  | RAMFS => bytes_of_string "ramfs"%string
  | FAT32 => bytes_of_string "fat32"%string
  | ISO9660 => bytes_of_string "iso9660"%string
  end.

(** The tables of inode operations; a file of a disc has none ([NoOps] is the
    null pointer). *)
Inductive iops := RamOps | FatOps | IsoDirOps | NoOps.
#[export] Instance iops_eq_dec : EqDecision iops.
Proof. solve_decision. Defined.

(** The entries of [struct inode_operations] that the VFS calls. *)
Inductive iop := OpLookup | OpCreate | OpMkdir | OpRmdir | OpUnlink | OpRename.
Definition has_op (t : iops) (o : iop) : bool :=
  match t, o with
  | RamOps, _ => true
  | FatOps, OpLookup | IsoDirOps, OpLookup => true
  | FatOps, _ | IsoDirOps, _ => false
  | NoOps, _ => false
  end.

(** The tables of file operations. *)
Inductive fops := RamFile | RamDir | FatFile | IsoFile | IsoDir.
#[export] Instance fops_eq_dec : EqDecision fops.
Proof. solve_decision. Defined.

Record dentry := mk_dentry { d_name : list Z; d_inode : option Z; d_parent : option Z }.

Record file := mk_file {
  f_dentry : option Z;
  f_op : option fops;
  f_pos : Z;
  f_flags : Z;
  f_mode : Z;
  f_count : Z;
  f_private : option Z
}.

Record vfsmount := mk_mount { mnt_root : option Z; mnt_devname : list Z; mnt_target : list Z; mnt_fstype : list Z }.

(** drivers/storage.c, as the file systems see it:
    [storage_get_disk_index_by_location] and [storage_read_block]. *)
Record storage := mk_storage { sto_index : list Z → Z; sto_block : Z → Z → option (list Z) }.

Record vfs (H : Type) := mk_vfs {
  v_fs : ramfs H;
  v_storage : storage;
  fat_inodes : gset Z;
  iso_inodes : gmap Z Z;
  iso_nodes : gmap Z iso9660_node;
  dentries : gmap Z dentry;
  files : gmap Z file;
  file_systems : list fstype;
  mounts : list (option vfsmount);
  mount_slot_used : list bool;
  mount_count : Z;
  root_mount : option nat;
  root_dentry : option Z
}.
Arguments mk_vfs {H}.
Arguments v_fs {H}.
Arguments v_storage {H}.
Arguments fat_inodes {H}.
Arguments iso_inodes {H}.
Arguments iso_nodes {H}.
Arguments dentries {H}.
Arguments files {H}.
Arguments file_systems {H}.
Arguments mounts {H}.
Arguments mount_slot_used {H}.
Arguments mount_count {H}.
Arguments root_mount {H}.
Arguments root_dentry {H}.

(** ** Paths *)

(** [while (len > 1 && a[len - 1] == '/') len--;], on the reversed string. *)
Fixpoint strip_rev (l : list Z) : list Z :=
  match l with
  | c :: ((_ :: _) as l') => if c =? SLASH then strip_rev l' else l
  | _ => l
  end.
Definition strip_slashes (l : list Z) : list Z := rev (strip_rev (rev l)).

Fixpoint char_compare (a b : list Z) : Z :=
  match a, b with
  | [], [] => 0
  | x :: _, [] => x
  | [], y :: _ => 0 - y
  | x :: a', y :: b' => if x =? y then char_compare a' b' else x - y
  end.
Definition path_compare (a b : list Z) : Z := char_compare (strip_slashes a) (strip_slashes b).

Definition path_copy (src : list Z) (max : nat) : list Z := take (max - 1) src.

(** The length of the common prefix. *)
Fixpoint common (a b : list Z) : nat :=
  match a, b with
  | x :: a', y :: b' => if x =? y then S (common a' b') else 0
  | _, _ => 0
  end.

(** The matched length, if [path] is at or below [target]. *)
Definition path_has_mount_prefix (path target : list Z) : option nat :=
  let i := common target path in
  match drop i target with
  | _ :: _ => None
  | [] =>
      if bool_decide (i = 1%nat) && bool_decide (head target = Some SLASH) then Some 1%nat
      else
        match drop i path with
        | [] => Some i
        | c :: _ => if c =? SLASH then Some i else None
        end
  end.

(** One component: the first [NAME_MAX] characters of it, and what follows
    the whole component. *)
Fixpoint span_component (p : list Z) : list Z * list Z :=
  match p with
  | c :: p' => if c =? SLASH then ([], p) else let '(comp, rest) := span_component p' in (c :: comp, rest)
  | [] => ([], [])
  end.
Definition next_component (p : list Z) : list Z * list Z :=
  let '(comp, rest) := span_component p in (take NAME_MAX comp, rest).

Section Ops.
Context {H : Type} `{!KernelHeap H}.
Implicit Types s : vfs H.

Definition with_fs (f : ramfs H) s : vfs H :=
  mk_vfs f (v_storage s) (fat_inodes s) (iso_inodes s) (iso_nodes s) (dentries s) (files s) (file_systems s) (mounts s)
    (mount_slot_used s) (mount_count s) (root_mount s) (root_dentry s).
Definition with_dentries (d : gmap Z dentry) s : vfs H :=
  mk_vfs (v_fs s) (v_storage s) (fat_inodes s) (iso_inodes s) (iso_nodes s) d (files s) (file_systems s) (mounts s)
    (mount_slot_used s) (mount_count s) (root_mount s) (root_dentry s).
Definition with_files (f : gmap Z file) s : vfs H :=
  mk_vfs (v_fs s) (v_storage s) (fat_inodes s) (iso_inodes s) (iso_nodes s) (dentries s) f (file_systems s) (mounts s)
    (mount_slot_used s) (mount_count s) (root_mount s) (root_dentry s).
Definition with_fat (i : gset Z) s : vfs H :=
  mk_vfs (v_fs s) (v_storage s) i (iso_inodes s) (iso_nodes s) (dentries s) (files s) (file_systems s) (mounts s)
    (mount_slot_used s) (mount_count s) (root_mount s) (root_dentry s).
Definition with_iso (i : gmap Z Z) (n : gmap Z iso9660_node) s : vfs H :=
  mk_vfs (v_fs s) (v_storage s) (fat_inodes s) i n (dentries s) (files s) (file_systems s) (mounts s)
    (mount_slot_used s) (mount_count s) (root_mount s) (root_dentry s).
Definition with_types (l : list fstype) s : vfs H :=
  mk_vfs (v_fs s) (v_storage s) (fat_inodes s) (iso_inodes s) (iso_nodes s) (dentries s) (files s) l (mounts s)
    (mount_slot_used s) (mount_count s) (root_mount s) (root_dentry s).
Definition with_mounts (m : list (option vfsmount)) (u : list bool) (n : Z) s : vfs H :=
  mk_vfs (v_fs s) (v_storage s) (fat_inodes s) (iso_inodes s) (iso_nodes s) (dentries s) (files s) (file_systems s) m u n
    (root_mount s) (root_dentry s).
Definition with_root (m : option nat) (d : option Z) s : vfs H :=
  mk_vfs (v_fs s) (v_storage s) (fat_inodes s) (iso_inodes s) (iso_nodes s) (dentries s) (files s) (file_systems s) (mounts s)
    (mount_slot_used s) (mount_count s) m d.
Definition with_vheap (h : H) s : vfs H := with_fs (with_heap h (v_fs s)) s.

Definition kz (size : Z) s : option (vfs H * option Z) :=
  '(h, p) ← kh_alloc size GFP_ZERO (fs_heap (v_fs s)); Some (with_fs (with_heap h (v_fs s)) s, p).
Definition kf (p : Z) s : option (vfs H) :=
  h ← kh_free (Some p) (fs_heap (v_fs s)); Some (with_fs (with_heap h (v_fs s)) s).

(** ** Inodes *)

(** The node of an inode of a disc. *)
Definition iso_node (v : Z) s : option iso9660_node := a ← iso_inodes s !! v; iso_nodes s !! a.

Definition i_op (v : Z) s : option iops :=
  match vinodes (v_fs s) !! v with
  | Some _ => Some RamOps
  | None =>
      if bool_decide (v ∈ fat_inodes s) then Some FatOps
      else n ← iso_node v s; Some (if n_is_dir n then IsoDirOps else NoOps)
  end.
Definition i_fop (v : Z) s : option fops :=
  match vinodes (v_fs s) !! v with
  | Some i => Some (if v_dir i then RamDir else RamFile)
  | None =>
      if bool_decide (v ∈ fat_inodes s) then Some FatFile
      else n ← iso_node v s; Some (if n_is_dir n then IsoDir else IsoFile)
  end.
Definition i_mode (v : Z) s : option Z :=
  match vinodes (v_fs s) !! v with
  | Some i => Some (v_mode i)
  | None =>
      if bool_decide (v ∈ fat_inodes s) then Some (Z.lor S_IFDIR 0x1ED)
      else n ← iso_node v s; Some (let '(_, _, mode, _) := iso9660_fill_inode n in mode)
  end.
Definition i_size (v : Z) s : option Z :=
  match vinodes (v_fs s) !! v with
  | Some i => Some (v_size i)
  | None =>
      if bool_decide (v ∈ fat_inodes s) then Some 0
      else n ← iso_node v s; Some (let '(_, _, _, size) := iso9660_fill_inode n in size)
  end.
Definition i_private (v : Z) s : option (option Z) :=
  match vinodes (v_fs s) !! v with
  | Some i => Some (v_private i)
  | None =>
      if bool_decide (v ∈ fat_inodes s) then Some None
      else n ← iso_node v s; Some (let '(private, _, _, _) := iso9660_fill_inode n in Some private)
  end.
Definition set_i_size (v n : Z) s : vfs H :=
  with_fs (with_vinodes (alter (λ i, mk_inode (v_ino i) (v_mode i) n (v_dir i) (v_private i)) v (vinodes (v_fs s))) (v_fs s)) s.

(** Does the inode of the dentry have the operation?  A null inode has none. *)
Definition can (o : option Z) (op : iop) s : option bool :=
  match o with None => Some false | Some v => t ← i_op v s; Some (has_op t op) end.

(** ** Dentries *)

Definition set_inode (p : Z) (o : option Z) s : vfs H :=
  match o with
  | Some v => with_dentries (alter (λ d, mk_dentry (d_name d) (Some v) (d_parent d)) p (dentries s)) s
  | None => s
  end.
Definition set_parent (p : Z) (o : option Z) s : vfs H :=
  with_dentries (alter (λ d, mk_dentry (d_name d) (d_inode d) o) p (dentries s)) s.

(** [kzalloc(sizeof(struct dentry))], the name and the parent set. *)
Definition new_dentry (name : list Z) (parent : option Z) s : option (vfs H * option Z) :=
  '(s, r) ← kz sizeof_dentry s;
  match r with
  | None => Some (s, None)
  | Some p => Some (with_dentries (<[p := mk_dentry (take NAME_MAX name) None parent]> (dentries s)) s, Some p)
  end.

(** [dir->i_op->lookup(dir, dentry)] *)
Definition i_lookup (dir p : Z) s : option (vfs H) :=
  d ← dentries s !! p;
  t ← i_op dir s;
  match t with
  | RamOps => '(f, o) ← ramfs_lookup dir (d_name d) (v_fs s); Some (set_inode p o (with_fs f s))
  | FatOps => Some s
  | IsoDirOps =>
      n ← iso_node dir s;
      '(h, r) ← iso9660_lookup n (d_name d) (fs_heap (v_fs s));
      let s := with_vheap h s in
      Some (match r with
            | None => s
            | Some (i, (private, _, _, _)) => set_inode p (Some i) (with_iso (<[i := private]> (iso_inodes s)) (iso_nodes s) s)
            end)
  | NoOps => None
  end.

(** [dir->i_op->create] and [mkdir]; only the RAM file system has them. *)
Definition i_make (isdir : bool) (dir p mode : Z) s : option (vfs H * Z) :=
  d ← dentries s !! p;
  '(f, ret, o) ← (if isdir then ramfs_mkdir else ramfs_create) dir (d_name d) mode (v_fs s);
  Some (set_inode p o (with_fs f s), ret).
Definition i_remove (isdir : bool) (dir p : Z) s : option (vfs H * Z) :=
  d ← dentries s !! p;
  '(f, ret) ← (if isdir then ramfs_rmdir else ramfs_unlink) dir (d_name d) (v_fs s);
  Some (with_fs f s, ret).
Definition i_rename (old_dir old_p new_dir new_p : Z) s : option (vfs H * Z) :=
  od ← dentries s !! old_p; nd ← dentries s !! new_p; oi ← d_inode od;
  '(f, ret) ← ramfs_rename old_dir oi new_dir (d_name nd) (v_fs s);
  Some (with_fs f s, ret).

Definition dentry_is_mount_root (p : Z) s : bool :=
  existsb (λ m, match m with Some x => bool_decide (mnt_root x = Some p) | None => false end) (mounts s).

Definition pinned (p : Z) s : bool := bool_decide (root_dentry s = Some p) || dentry_is_mount_root p s.

Fixpoint free_chain (fuel : nat) (p : Z) s : option (vfs H) :=
  if pinned p s then Some s
  else
    match fuel with
    | O => None
    | S fuel' =>
        d ← dentries s !! p;
        s ← kf p s;
        let s := with_dentries (delete p (dentries s)) s in
        match d_parent d with
        | None => Some s
        | Some q => if q =? p then Some s else free_chain fuel' q s
        end
    end.

Definition vfs_free_dentry_chain (p : Z) s : option (vfs H) := free_chain (S (size (dentries s))) p s.

(** ** Mount points *)

Definition find_mount_for_path (path : list Z) s : option (vfsmount * nat) :=
  foldl (λ best m,
    match m with
    | Some x =>
        match mnt_root x, path_has_mount_prefix path (mnt_target x) with
        | Some _, Some len =>
            match best with
            | Some (_, best_len) => if (best_len <=? len)%nat then Some (x, len) else best
            | None => Some (x, len)
            end
        | _, _ => best
        end
    | None => best
    end) None (mounts s).

(** The dentry to start from and the rest of the path. *)
Definition resolve_path_root (path : list Z) s : option Z * list Z :=
  match find_mount_for_path path s with
  | Some (x, len) => match mnt_root x with Some d => (Some d, skip_slashes (drop len path)) | None => (root_dentry s, path) end
  | None => (root_dentry s, path)
  end.

Definition find_mount_by_target (target : list Z) s : option vfsmount :=
  match find (λ m, match m with Some x => path_compare (mnt_target x) target =? 0 | None => false end) (mounts s) with
  | Some m => m
  | None => None
  end.

(** ** Path lookup *)

Fixpoint parent_loop (fuel : nat) (curr : Z) (p : list Z) s : option (vfs H * option (Z * list Z)) :=
  match fuel with
  | O => None
  | S fuel' =>
      let '(name, rest) := next_component p in
      match skip_slashes rest with
      | [] => Some (s, Some (curr, name))
      | rest =>
          d ← dentries s !! curr;
          ok ← can (d_inode d) OpLookup s;
          if negb ok then s ← vfs_free_dentry_chain curr s; Some (s, None)
          else
            dir ← d_inode d;
            '(s, r) ← new_dentry name None s;
            match r with
            | None => s ← vfs_free_dentry_chain curr s; Some (s, None)
            | Some child =>
                s ← i_lookup dir child s;
                c ← dentries s !! child;
                match d_inode c with
                | None => s ← vfs_free_dentry_chain child s; Some (s, None)
                | Some _ => parent_loop fuel' child rest s
                end
            end
      end
  end.

Definition vfs_lookup_parent (path : list Z) s : option (vfs H * option (Z * list Z)) :=
  match root_dentry s with
  | None => Some (s, None)
  | Some _ =>
      match resolve_path_root path s with
      | (None, _) => Some (s, None)
      | (Some curr, rest) =>
          match skip_slashes rest with
          | [] => Some (s, None)
          | p => parent_loop (length p) curr p s
          end
      end
  end.

(** ** Files *)

(** The fields of a fresh [struct file] for the dentry [dp]. *)
Definition fill_file (f dp flags mode : Z) s : option (vfs H) :=
  d ← dentries s !! dp;
  v ← d_inode d;
  op ← i_fop v s;
  priv ← i_private v s;
  Some (with_files (<[f := mk_file (Some dp) (Some op) 0 flags mode 1 priv]> (files s)) s).

Definition upd_file (f : Z) (g : file → file) s : vfs H := with_files (alter g f (files s)) s.
Definition set_pos (n : Z) (x : file) : file :=
  mk_file (f_dentry x) (f_op x) n (f_flags x) (f_mode x) (f_count x) (f_private x).
Definition set_private (o : option Z) (x : file) : file :=
  mk_file (f_dentry x) (f_op x) (f_pos x) (f_flags x) (f_mode x) (f_count x) o.
Definition set_count (n : Z) (x : file) : file :=
  mk_file (f_dentry x) (f_op x) (f_pos x) (f_flags x) (f_mode x) n (f_private x).

(** Releasing the parent of a failed call. *)
Definition drop_parent (parent : option Z) s : option (vfs H) :=
  match parent with None => Some s | Some p => vfs_free_dentry_chain p s end.

(** The special case of "/". *)
Definition open_root (flags mode : Z) s : option (vfs H * option Z) :=
  '(s, r) ← kz sizeof_file s;
  match root_dentry s with
  | None => match r with Some f => s ← kf f s; Some (s, None) | None => Some (s, None) end
  | Some rd =>
      d ← dentries s !! rd;
      match d_inode d with
      | None => match r with Some f => s ← kf f s; Some (s, None) | None => Some (s, None) end
      | Some _ => f ← r; s ← fill_file f rd flags mode s; Some (s, Some f)
      end
  end.

(** The parent and the name to open when the lookup of the parent has failed;
    [None] is a path of more than one component. *)
Definition open_fallback (path : list Z) s : option (option Z * list Z) :=
  let '(name, rest) := next_component (skip_slashes path) in
  match rest with [] => Some (root_dentry s, name) | _ => None end.

(** O_TRUNC and O_APPEND of a regular file, and the open operation of the
    file system. *)
Definition open_flags (f v flags : Z) s : option (vfs H) :=
  mode ← i_mode v s;
  x ← files s !! f;
  s ← (if has flags O_TRUNC && S_ISREG mode
       then '(fs, _) ← ramfs_truncate_file (f_private x) (v_fs (set_i_size v 0 s)); Some (with_fs fs (set_i_size v 0 s))
       else Some s);
  size ← i_size v s;
  let s := if has flags O_APPEND && S_ISREG mode then upd_file f (set_pos size) s else s in
  match f_op x with
  | Some (RamFile | RamDir) => priv ← i_private v s; Some (upd_file f (set_private priv) s)
  | _ => Some s
  end.

(** From the parent dentry on: look the name up, create it if asked to. *)
Definition find_or_create (parent child flags mode : Z) s : option (vfs H * bool) :=
  pd ← dentries s !! parent;
  ok ← can (d_inode pd) OpLookup s;
  s ← (if (ok : bool) then v ← d_inode pd; i_lookup v child s else Some s);
  c ← dentries s !! child;
  match d_inode c with
  | Some _ => Some (s, true)
  | None =>
      if has flags O_CREAT then
        v ← d_inode pd; t ← i_op v s;
        if has_op t OpCreate then '(s, ret) ← i_make false v child mode s; Some (s, ret =? 0)
        else Some (s, false)
      else Some (s, false)
  end.

Definition open_in (parent child flags mode : Z) s : option (vfs H * option Z) :=
  '(s, found) ← find_or_create parent child flags mode s;
  if negb found then s ← vfs_free_dentry_chain child s; Some (s, None)
  else
    '(s, r) ← kz sizeof_file s;
    match r with
    | None => s ← vfs_free_dentry_chain child s; Some (s, None)
    | Some f =>
        s ← fill_file f child flags mode s;
        c ← dentries s !! child; v ← d_inode c;
        s ← open_flags f v flags s;
        if pinned parent s then Some (s, Some f)
        else s ← vfs_free_dentry_chain parent (set_parent child (root_dentry s) s); Some (s, Some f)
    end.

Definition vfs_open (path : option (list Z)) (flags mode : Z) s : option (vfs H * option Z) :=
  match path with
  | None | Some [] => Some (s, None)
  | Some path =>
      if bool_decide (path = [SLASH]) then open_root flags mode s
      else
        match find_mount_by_target path s with
        | Some (mk_mount (Some rd) _ _ _) =>
            '(s, r) ← kz sizeof_file s;
            match r with
            | None => Some (s, None)
            | Some f => s ← fill_file f rd flags mode s; Some (s, Some f)
            end
        | _ =>
            '(s, r) ← vfs_lookup_parent path s;
            match (match r with Some (p, name) => Some (Some p, name) | None => open_fallback path s end) with
            | None => Some (s, None)
            | Some (parent, name) =>
                '(s, r) ← new_dentry name None s;
                match r with
                | None => s ← drop_parent parent s; Some (s, None)
                | Some child =>
                    match name with
                    | [] => s ← drop_parent parent s; s ← kf child s;
                            Some (with_dentries (delete child (dentries s)) s, None)
                    | _ => p ← parent; open_in p child flags mode (set_parent child (Some p) s)
                    end
                end
            end
        end
  end.

(** vfs_create and vfs_mkdir. *)
Definition vfs_make (isdir : bool) (path : list Z) (mode : Z) s : option (vfs H * Z) :=
  '(s, r) ← vfs_lookup_parent path s;
  match r with
  | None => Some (s, - ENOENT)
  | Some (parent, []) => s ← vfs_free_dentry_chain parent s; Some (s, - EINVAL)
  | Some (parent, name) =>
      '(s, r) ← new_dentry name (Some parent) s;
      match r with
      | None => s ← vfs_free_dentry_chain parent s; Some (s, - ENOMEM)
      | Some child =>
          pd ← dentries s !! parent;
          ok ← can (d_inode pd) (if isdir then OpMkdir else OpCreate) s;
          if negb ok then s ← vfs_free_dentry_chain child s; Some (s, - EPERM)
          else
            v ← d_inode pd;
            '(s, ret) ← i_make isdir v child mode s;
            s ← vfs_free_dentry_chain child s;
            Some (s, ret)
      end
  end.
Definition vfs_create (path : list Z) (mode : Z) s := vfs_make false path mode s.
Definition vfs_mkdir (path : list Z) (mode : Z) s := vfs_make true path mode s.

(** The entries listed and the result. *)
Definition vfs_readdir (file : option Z) s : option (list (list Z * Z * Z) * Z) :=
  match file with
  | None => Some ([], - EINVAL)
  | Some f =>
      x ← files s !! f;
      match f_op x with
      | Some RamDir => ramfs_readdir (f_private x) (v_fs s)
      | Some IsoDir =>
          match f_private x with
          | None => Some ([], - ENOTDIR)
          | Some a => n ← iso_nodes s !! a; Some (iso9660_readdir n)
          end
      | _ => Some ([], - EINVAL)
      end
  end.

Definition vfs_close (file : option Z) s : option (vfs H * Z) :=
  match file with
  | None => Some (s, - EBADF)
  | Some f =>
      x ← files s !! f;
      s ← (match f_op x, f_dentry x with
           | Some (RamFile | RamDir), Some dp => d ← dentries s !! dp; Some (upd_file f (set_private None) s)
           | _, _ => Some s
           end);
      let count := f_count x - 1 in
      let s := upd_file f (set_count count) s in
      if count <=? 0 then
        s ← (match f_dentry x with Some dp => vfs_free_dentry_chain dp s | None => Some s end);
        s ← kf f s;
        Some (with_files (delete f (files s)) s, 0)
      else Some (s, 0)
  end.

(** The bytes read and the result; [buf] says whether the buffer is not null. *)
Definition vfs_read (file : option Z) (buf : bool) (count : Z) s : option (vfs H * list Z * Z) :=
  match file with
  | None => Some (s, [], - EBADF)
  | Some f =>
      if negb buf then Some (s, [], - EFAULT)
      else
        x ← files s !! f;
        match f_op x with
        | Some RamFile =>
            '(bytes, pos, ret) ← ramfs_read (f_private x) count (f_pos x) (v_fs s);
            Some (upd_file f (set_pos pos) s, bytes, ret)
        | Some FatFile => Some (s, [], 0)
        | Some IsoFile =>
            match f_private x with
            | None => Some (s, [], - EISDIR)
            | Some a =>
                n ← iso_nodes s !! a;
                '(h, bytes, pos, ret) ← iso9660_read (sto_block (v_storage s)) n count (f_pos x) (fs_heap (v_fs s));
                Some (upd_file f (set_pos pos) (with_vheap h s), bytes, ret)
            end
        | _ => Some (s, [], - EINVAL)
        end
  end.

Definition vfs_write (file : option Z) (buf : option (list Z)) s : option (vfs H * Z) :=
  match file with
  | None => Some (s, - EBADF)
  | Some f =>
      match buf with
      | None => Some (s, - EFAULT)
      | Some data =>
          x ← files s !! f;
          match f_op x with
          | Some RamFile =>
              vino ← (match f_dentry x with None => Some None | Some dp => d ← dentries s !! dp; Some (d_inode d) end);
              '(fs, pos, ret) ← ramfs_write (f_private x) vino data (f_pos x) (v_fs s);
              Some (upd_file f (set_pos pos) (with_fs fs s), ret)
          | _ => Some (s, - EINVAL)
          end
      end
  end.

(** [while (total < size)]; the data still to write is the argument. *)
Fixpoint save_loop (fuel : nat) (f : Z) (data : list Z) (total : Z) s : option (vfs H * Z) :=
  match data with
  | [] => '(s, _) ← vfs_close (Some f) s; Some (s, i32 total)
  | _ =>
      match fuel with
      | O => None
      | S fuel' =>
          '(s, written) ← vfs_write (Some f) (Some data) s;
          if written <=? 0 then '(s, _) ← vfs_close (Some f) s; Some (s, - EIO)
          else save_loop fuel' f (drop (Z.to_nat written) data) (total + written) s
      end
  end.

(** The positions of the slashes between 1 and the last one. *)
Definition slash_at (path : list Z) (i : nat) : bool := bool_decide (path !! i = Some SLASH).
Definition slashes (path : list Z) : list nat := filter (λ i, slash_at path i) (seq 1 (length path - 1)).

(** [vfs_mkdir] of each proper prefix; the results are ignored. *)
Fixpoint mkdir_prefixes (path : list Z) (l : list nat) s : option (vfs H) :=
  match l with
  | [] => Some s
  | i :: l' => s ← (if (1 <? i)%nat then '(s, _) ← vfs_mkdir (take i path) 0x1ED s; Some s else Some s); mkdir_prefixes path l' s
  end.

Definition vfs_ensure_parent_dirs (path : list Z) s : option (vfs H * Z) :=
  if negb (bool_decide (head path = Some SLASH)) then Some (s, - EINVAL)
  else if PATH_MAX <=? Z.of_nat (length path) then Some (s, - EINVAL)
  else s ← mkdir_prefixes path (slashes path) s; Some (s, 0).

(** After the argument checks. *)
Definition save (path data : list Z) (flags : Z) s : option (vfs H * Z) :=
  if 0x7fffffff <? Z.of_nat (length data) then Some (s, - EFBIG)
  else
    s ← (if has flags VFS_SAVE_CREATE_PARENTS then '(s, _) ← vfs_ensure_parent_dirs path s; Some s else Some s);
    let fl := Z.lor (Z.lor O_WRONLY O_CREAT) (if has flags VFS_SAVE_APPEND then O_APPEND else O_TRUNC) in
    '(s, r) ← vfs_open (Some path) fl 0x1A4 s;
    match r with
    | None => Some (s, - ENOENT)
    | Some f => save_loop (length data) f data 0 s
    end.

(** A null data pointer is allowed when the size is 0. *)
Definition vfs_save_file (path : option (list Z)) (data : option (list Z)) (size flags : Z) s : option (vfs H * Z) :=
  match path, data with
  | None, _ | Some [], _ => Some (s, - EINVAL)
  | Some p, None => if 0 <? size then Some (s, - EINVAL) else save p [] flags s
  | Some p, Some data => save p data flags s
  end.

Definition SEEK_SET : Z := 0.
Definition SEEK_CUR : Z := 1.
Definition SEEK_END : Z := 2.

Definition vfs_lseek (file : option Z) (offset whence : Z) s : option (vfs H * Z) :=
  match file with
  | None => Some (s, - EBADF)
  | Some f =>
      x ← files s !! f;
      inode ← (match f_dentry x with None => Some None | Some dp => d ← dentries s !! dp; Some (d_inode d) end);
      new_pos ←
        (if whence =? SEEK_SET then Some (Some offset)
         else if whence =? SEEK_CUR then Some (Some (i64 (f_pos x + offset)))
         else if whence =? SEEK_END then
           match inode with None => Some None | Some v => size ← i_size v s; Some (Some (i64 (size + offset))) end
         else Some None : option (option Z));
      match new_pos with
      | None => Some (s, - EINVAL)
      | Some n => if n <? 0 then Some (s, - EINVAL) else Some (upd_file f (set_pos n) s, n)
      end
  end.

(** vfs_rmdir and vfs_unlink.  The child is not linked to its parent. *)
Definition vfs_remove (isdir : bool) (path : list Z) s : option (vfs H * Z) :=
  '(s, r) ← vfs_lookup_parent path s;
  match r with
  | None => Some (s, - ENOENT)
  | Some (parent, name) =>
      '(s, r) ← new_dentry name None s;
      match r with
      | None => s ← vfs_free_dentry_chain parent s; Some (s, - ENOMEM)
      | Some child =>
          pd ← dentries s !! parent; v ← d_inode pd; t ← i_op v s;
          s ← (if has_op t OpLookup then i_lookup v child s else Some s);
          c ← dentries s !! child;
          match d_inode c with
          | None => s ← vfs_free_dentry_chain child s; Some (s, - ENOENT)
          | Some ci =>
              mode ← i_mode ci s;
              if negb (Bool.eqb (S_ISDIR mode) isdir) then
                s ← vfs_free_dentry_chain child s; Some (s, if isdir then - ENOTDIR else - EISDIR)
              else if negb (has_op t (if isdir then OpRmdir else OpUnlink)) then
                s ← vfs_free_dentry_chain child s; Some (s, - EPERM)
              else
                '(s, ret) ← i_remove isdir v child s;
                s ← vfs_free_dentry_chain child s;
                Some (s, ret)
          end
      end
  end.
Definition vfs_rmdir (path : list Z) s := vfs_remove true path s.
Definition vfs_unlink (path : list Z) s := vfs_remove false path s.

Definition vfs_rename (old new : list Z) s : option (vfs H * Z) :=
  '(s, r) ← vfs_lookup_parent old s;
  match r with
  | None => Some (s, - ENOENT)
  | Some (old_parent, old_name) =>
      '(s, r) ← vfs_lookup_parent new s;
      match r with
      | None => s ← vfs_free_dentry_chain old_parent s; Some (s, - ENOENT)
      | Some (new_parent, new_name) =>
          '(s, r) ← new_dentry old_name (Some old_parent) s;
          match r with
          | None => s ← vfs_free_dentry_chain old_parent s; s ← vfs_free_dentry_chain new_parent s; Some (s, - ENOMEM)
          | Some old_child =>
              od ← dentries s !! old_parent; ov ← d_inode od; t ← i_op ov s;
              s ← (if has_op t OpLookup then i_lookup ov old_child s else Some s);
              c ← dentries s !! old_child;
              match d_inode c with
              | None => s ← vfs_free_dentry_chain old_child s; Some (s, - ENOENT)
              | Some _ =>
                  '(s, r) ← new_dentry new_name (Some new_parent) s;
                  match r with
                  | None => s ← vfs_free_dentry_chain old_child s; s ← vfs_free_dentry_chain new_parent s; Some (s, - ENOMEM)
                  | Some new_child =>
                      if negb (has_op t OpRename) then
                        s ← vfs_free_dentry_chain old_child s; s ← vfs_free_dentry_chain new_child s; Some (s, - EPERM)
                      else
                        nd ← dentries s !! new_parent; nv ← d_inode nd;
                        '(s, ret) ← i_rename ov old_child nv new_child s;
                        s ← vfs_free_dentry_chain old_child s;
                        s ← vfs_free_dentry_chain new_child s;
                        Some (s, ret)
                  end
              end
          end
      end
  end.

(** ** Registration and mounting *)

Definition find_filesystem (name : list Z) s : option fstype := find (λ t, name_eq (fst_name t) name) (file_systems s).

Definition register_filesystem (t : fstype) s : vfs H * Z :=
  match find_filesystem (fst_name t) s with
  | Some _ => (s, - EBUSY)
  | None => (with_types (t :: file_systems s) s, 0)
  end.

Definition vfs_init s : vfs H :=
  fst (register_filesystem FAT32 (with_mounts (replicate MAX_MOUNTS None) (replicate MAX_MOUNTS false) (mount_count s) s)).

Definition fat32_mount s : option (vfs H * option Z) :=
  '(s, sb) ← kz sizeof_super_block s;
  match sb with
  | None => Some (s, None)
  | Some sb =>
      '(s, sbi) ← kz sizeof_fat32_sb_info s;
      match sbi with
      | None => s ← kf sb s; Some (s, None)
      | Some _ =>
          '(s, bpb) ← kz 512 s;
          '(s, root) ← kz sizeof_inode s;
          root ← root;
          '(s, rd) ← kz sizeof_dentry s;
          rd ← rd;
          let s := with_fat ({[root]} ∪ fat_inodes s) s in
          let s := with_dentries (<[rd := mk_dentry [] (Some root) None]> (dentries s)) s in
          s ← (match bpb with Some b => kf b s | None => Some s end);
          Some (s, Some rd)
      end
  end.

(** The nodes of a tree by their addresses. *)
Fixpoint nodes_of (n : iso9660_node) : list (Z * iso9660_node) :=
  match n with mk_node a _ _ _ _ _ cs => (a, n) :: flat_map nodes_of cs end.

(** The levels of directories of a disc that a mount follows; ISO 9660 allows
    eight. *)
Definition ISO_DEPTH : nat := 64.

(** [iso9660_mount(fs_type, flags, dev_name, data)] *)
Definition iso_mount (dev_name : list Z) s : option (vfs H * option Z) :=
  match dev_name with
  | [] => Some (s, None)
  | _ =>
      '(h, r) ← iso9660_mount (sto_block (v_storage s)) ISO_DEPTH (sto_index (v_storage s) dev_name) (fs_heap (v_fs s));
      let s := with_vheap h s in
      match r with
      | None => Some (s, None)
      | Some sb =>
          let root := sb_root_dentry sb in
          let s := with_iso (<[sb_root_inode sb := n_addr (sb_root sb)]> (iso_inodes s))
                     (list_to_map (nodes_of (sb_root sb)) ∪ iso_nodes s) s in
          Some (with_dentries (<[root := mk_dentry [SLASH] (Some (sb_root_inode sb)) (Some root)]> (dentries s)) s, Some root)
      end
  end.

(** [fs->mount]: the root dentry of the superblock. *)
Definition fs_mount (t : fstype) (source : list Z) s : option (vfs H * option Z) :=
  match t with
  | RAMFS =>
      '(f, ok) ← ramfs_mount (v_fs s);
      let s := with_fs f s in
      Some (if (ok : bool)
            then (with_dentries (<[ROOT_DENTRY := mk_dentry [SLASH] (Some ROOT_VINODE) (Some ROOT_DENTRY)]> (dentries s)) s, Some ROOT_DENTRY)
            else (s, None))
  | FAT32 => fat32_mount s
  | ISO9660 => iso_mount source s
  end.

Fixpoint first_free (i : nat) (l : list bool) : option nat :=
  match l with
  | [] => None
  | u :: l' => if u then first_free (S i) l' else Some i
  end.

Definition vfs_mount (source target type : list Z) s : option (vfs H * Z) :=
  match find_filesystem type s with
  | None => Some (s, - ENODEV)
  | Some t =>
      match find_mount_by_target target s with
      | Some m =>
          Some (s, if (path_compare (mnt_devname m) source =? 0) && (path_compare (mnt_fstype m) type =? 0) then 0 else - EBUSY)
      | None =>
          if Z.of_nat MAX_MOUNTS <=? mount_count s then Some (s, - ENOMEM)
          else
            '(s, r) ← fs_mount t source s;
            match r with
            | None => Some (s, - EIO)
            | Some root =>
                match first_free 0 (mount_slot_used s) with
                | None => Some (s, - ENOMEM)
                | Some slot =>
                    let m := mk_mount (Some root) (path_copy source 64) (path_copy target 64) (path_copy type 32) in
                    let s := with_mounts (<[slot := Some m]> (mounts s)) (<[slot := true]> (mount_slot_used s)) (mount_count s + 1) s in
                    Some (if path_compare target [SLASH] =? 0 then with_root (Some slot) (Some root) s else s, 0)
                end
            end
      end
  end.

Fixpoint find_mounted (i : nat) (l : list (option vfsmount)) (target : list Z) : option nat :=
  match l with
  | [] => None
  | m :: l' =>
      if match m with
         | Some x => bool_decide (is_Some (mnt_root x)) && (path_compare (mnt_target x) target =? 0)
         | None => false
         end
      then Some i else find_mounted (S i) l' target
  end.

Definition vfs_umount (target : list Z) s : vfs H * Z :=
  match find_mounted 0 (mounts s) target with
  | None => (s, - ENOSYS)
  | Some i =>
      let s := if bool_decide (root_mount s = Some i) then with_root None None s else s in
      (with_mounts (<[i := None]> (mounts s)) (<[i := false]> (mount_slot_used s))
         (if 0 <? mount_count s then mount_count s - 1 else mount_count s) s, 0)
  end.
End Ops.

(** ** The mount point of a path *)

(** [path] is [target] or lies below it, component by component. *)
Definition below (target path : list Z) : Prop :=
  ∃ rest, path = target ++ rest ∧ (rest = [] ∨ target = [SLASH] ∨ head rest = Some SLASH).

Lemma common_app a b : drop (common a b) a = [] ↔ ∃ rest, b = a ++ rest.
Proof.
  revert b. induction a as [|x a IH]; intros b; cbn [common]; [split; [by exists b|done]|].
  destruct b as [|y b]; [split; [done|by intros [? [=]]]|]. destruct (Z.eqb_spec x y) as [->|Hne]; cbn [drop].
  - rewrite IH. split; intros [rest E]; exists rest; [by rewrite E|by injection E].
  - split; [done|]. intros [rest [= ? _]]. congruence.
Qed.

Lemma common_length a rest : common a (a ++ rest) = length a.
Proof. induction a as [|x a IH]; [by destruct rest|]. cbn. by rewrite Z.eqb_refl, IH. Qed.

Lemma prefix_spec path target len :
  path_has_mount_prefix path target = Some len ↔ below target path ∧ len = length target.
Proof.
  unfold path_has_mount_prefix, below. destruct (drop (common target path) target) as [|c l] eqn:Ed.
  - apply common_app in Ed as [rest ->]. rewrite common_length, drop_app_length.
    assert (∀ r, target ++ rest = target ++ r → r = rest) as Hinj by (intros r E; by apply app_inv_head in E).
    destruct (bool_decide (length target = 1%nat) && bool_decide (head target = Some SLASH)) eqn:E1.
    + apply andb_true_iff in E1 as [E1%bool_decide_eq_true E2%bool_decide_eq_true].
      destruct target as [|c [|? ?]]; try done. injection E2 as ->. split; [intros [= <-]|intros [_ ->]; done].
      split; [|done]. exists rest. auto.
    + destruct rest as [|c r]; [split; [intros [= <-]; split; [exists []; auto|done]|by intros [_ ->]]|].
      destruct (Z.eqb_spec c SLASH) as [->|Hc].
      * split; [intros [= <-]; split; [exists (SLASH :: r); auto|done]|by intros [_ ->]].
      * split; [done|]. intros [(r' & Er%Hinj & Hr) _]. subst r'. destruct Hr as [|[->|[=]]]; done.
  - split; [done|]. intros [(rest & -> & _) _]. rewrite common_length, drop_all in Ed. done.
Qed.

Section Mounts.
Context {H : Type}.
Implicit Types s : vfs H.

(** A live mount of the table. *)
Definition mounted s (m : vfsmount) : Prop := Some m ∈ mounts s ∧ is_Some (mnt_root m).

(** The best of the mounts seen so far. *)
Definition best_of (path : list Z) (l : list (option vfsmount)) (best : option (vfsmount * nat)) : Prop :=
  match best with
  | None => ∀ m, Some m ∈ l → is_Some (mnt_root m) → ¬ below (mnt_target m) path
  | Some (m, len) => Some m ∈ l ∧ is_Some (mnt_root m) ∧ below (mnt_target m) path ∧ len = length (mnt_target m) ∧
      ∀ m', Some m' ∈ l → is_Some (mnt_root m') → below (mnt_target m') path → (length (mnt_target m') ≤ len)%nat
  end.

Lemma best_of_skip path l o best :
  best_of path l best → (∀ m, o = Some m → is_Some (mnt_root m) → ¬ below (mnt_target m) path) → best_of path (l ++ [o]) best.
Proof.
  intros Hb Ho. assert (∀ m, Some m ∈ l ++ [o] → Some m ∈ l ∨ o = Some m) as Hin.
  { intros m. rewrite elem_of_app, list_elem_of_singleton. naive_solver. }
  destruct best as [[m len]|].
  - destruct Hb as (H1 & H2 & H3 & H4 & H5). split; [apply elem_of_app; by left|]. split; [done|]. split; [done|]. split; [done|].
    intros m' Hm' Hr Hbel. destruct (Hin m' Hm') as [|E]; [by apply H5|]. by destruct (Ho m' E Hr).
  - intros m Hm Hr. destruct (Hin m Hm) as [|E]; [by apply Hb|by apply Ho].
Qed.

Lemma best_of_take path l m best :
  best_of path l best → is_Some (mnt_root m) → below (mnt_target m) path →
  (∀ m' len, best = Some (m', len) → (len ≤ length (mnt_target m))%nat) → best_of path (l ++ [Some m]) (Some (m, length (mnt_target m))).
Proof.
  intros Hb Hr Hbel Hle. split; [apply elem_of_app; right; by apply list_elem_of_singleton|]. split; [done|]. split; [done|]. split; [done|].
  intros m' Hm' Hr' Hbel'. apply elem_of_app in Hm' as [Hm'|Hm']; [|apply list_elem_of_singleton in Hm'; by injection Hm' as ->].
  destruct best as [[m0 len]|]; [|by destruct (Hb m' Hm' Hr')]. destruct Hb as (_ & _ & _ & _ & H5).
  specialize (H5 m' Hm' Hr' Hbel'). specialize (Hle m0 len eq_refl). lia.
Qed.

Lemma find_mount_best path s : best_of path (mounts s) (find_mount_for_path path s).
Proof.
  unfold find_mount_for_path. set (g := λ (best : option (vfsmount * nat)) (m : option vfsmount), _).
  assert (∀ l1 l2 best, best_of path l1 best → best_of path (l1 ++ l2) (foldl g best l2)) as Hfold.
  2:{ apply (Hfold [] (mounts s) None). intros m Hm. by apply elem_of_nil in Hm. }
  intros l1 l2. revert l1. induction l2 as [|o l2 IH]; intros l1 best Hb; cbn [foldl]; [by rewrite app_nil_r|].
  rewrite cons_middle, app_assoc. apply IH. unfold g. destruct o as [m|]; [|by apply best_of_skip].
  destruct (mnt_root m) as [rd|] eqn:Er; [|apply best_of_skip; [done|intros m' [= <-]; by rewrite Er; intros []]].
  destruct (path_has_mount_prefix path (mnt_target m)) as [len|] eqn:Ep.
  2:{ apply best_of_skip; [done|]. intros m' [= <-] _ Hbel.
      assert (path_has_mount_prefix path (mnt_target m) = Some (length (mnt_target m))) by (by apply prefix_spec). congruence. }
  apply prefix_spec in Ep as [Hbel ->]. assert (is_Some (mnt_root m)) as Hr by eauto. destruct best as [[m0 len0]|].
  - destruct (Nat.leb_spec len0 (length (mnt_target m))) as [Hle|Hlt].
    + apply (best_of_take path l1 m (Some (m0, len0))); [done|done|done|]. by intros ? ? [= _ <-].
    + destruct Hb as (H1 & H2 & H3 & H4 & H5). split; [apply elem_of_app; by left|]. split; [done|]. split; [done|]. split; [done|].
      intros m' Hm' Hr' Hbel'. apply elem_of_app in Hm' as [Hm'|Hm']; [by apply H5|].
      apply list_elem_of_singleton in Hm'. injection Hm' as ->. lia.
  - by apply (best_of_take path l1 m None).
Qed.

(** A path belongs to the file system mounted at its longest ancestor:
    find_mount_for_path returns a live mount whose target is the path or one
    of its ancestors, component by component, and no live mount has a longer
    such target; it returns nothing only if there is no such mount. *)
Theorem find_mount_longest path s :
  match find_mount_for_path path s with
  | None => ∀ m, mounted s m → ¬ below (mnt_target m) path
  | Some (m, len) => mounted s m ∧ below (mnt_target m) path ∧ len = length (mnt_target m) ∧
      ∀ m', mounted s m' → below (mnt_target m') path → (length (mnt_target m') ≤ length (mnt_target m))%nat
  end.
Proof.
  pose proof (find_mount_best path s) as Hb. destruct (find_mount_for_path path s) as [[m len]|].
  - destruct Hb as (H1 & H2 & H3 & -> & H5). split; [done|]. split; [done|]. split; [done|]. intros m' [? ?]. by apply H5.
  - intros m [? ?]. by apply Hb.
Qed.
End Mounts.

(** ** The mount table *)

Lemma char_compare_refl a : char_compare a a = 0.
Proof. induction a as [|x a IH]; [done|]. cbn. by rewrite Z.eqb_refl. Qed.

Lemma char_compare_antisym a b : char_compare b a = - char_compare a b.
Proof.
  revert b. induction a as [|x a IH]; intros [|y b]; cbn [char_compare]; try lia.
  rewrite (Z.eqb_sym y x). destruct (Z.eqb_spec x y); [apply IH|lia].
Qed.

Lemma path_compare_refl a : path_compare a a = 0.
Proof. apply char_compare_refl. Qed.

Lemma path_compare_sym a b : path_compare a b = 0 → path_compare b a = 0.
Proof. unfold path_compare. rewrite char_compare_antisym. lia. Qed.

(** Strings hold no zero. *)
Definition c_str (l : list Z) : Prop := Forall (λ c, c ≠ 0) l.

Lemma char_compare_eq a b : c_str a → c_str b → char_compare a b = 0 → a = b.
Proof.
  intros Ha. revert b. induction Ha as [|x a Hx Ha IH]; intros b Hb; destruct Hb as [|y b Hy Hb]; cbn [char_compare]; try (lia || done).
  destruct (Z.eqb_spec x y) as [->|]; [|lia]. intros E. by rewrite (IH b Hb E).
Qed.

Lemma strip_rev_str l : c_str l → c_str (strip_rev l).
Proof.
  intros Hl. induction Hl as [|c l Hc Hl IH]; [constructor|]. cbn [strip_rev]. destruct l as [|c' l']; [by constructor|].
  destruct (c =? SLASH); [done|by constructor].
Qed.

Lemma strip_slashes_str l : c_str l → c_str (strip_slashes l).
Proof. intros Hl. apply Forall_rev, strip_rev_str. by apply Forall_rev. Qed.

Lemma path_compare_trans a b c : c_str a → c_str b → path_compare a b = 0 → path_compare b c = 0 → path_compare a c = 0.
Proof.
  intros Ha Hb E1 E2. unfold path_compare in *. apply char_compare_eq in E1; [by rewrite E1|by apply strip_slashes_str..].
Qed.

(** The number of mounts. *)
Definition live_mounts (l : list (option vfsmount)) : Z := Z.of_nat (length (omap id l)).

Lemma live_mounts_set l i (m : vfsmount) : l !! i = Some None → live_mounts (<[i := Some m]> l) = live_mounts l + 1.
Proof.
  intros Hi. apply take_drop_middle in Hi as Hl. rewrite <- Hl at 2. apply lookup_lt_Some in Hi.
  rewrite insert_take_drop by done. unfold live_mounts. rewrite !omap_app. cbn. rewrite !length_app. cbn. lia.
Qed.

Lemma live_mounts_clear l i (m : vfsmount) : l !! i = Some (Some m) → live_mounts (<[i := None]> l) = live_mounts l - 1.
Proof.
  intros Hi. apply take_drop_middle in Hi as Hl. rewrite <- Hl at 2. apply lookup_lt_Some in Hi.
  rewrite insert_take_drop by done. unfold live_mounts. rewrite !omap_app. cbn. rewrite !length_app. cbn. lia.
Qed.

Section Table.
Context {H : Type} `{!KernelHeap H}.
Implicit Types s : vfs H.

Record mounts_wf s : Prop := {
  mw_length : length (mounts s) = MAX_MOUNTS;
  mw_used : mount_slot_used s = (λ m, bool_decide (is_Some m)) <$> mounts s;
  mw_count : mount_count s = live_mounts (mounts s);
  mw_live i m : mounts s !! i = Some (Some m) → is_Some (mnt_root m) ∧ c_str (mnt_target m);
  mw_distinct i j m m' : mounts s !! i = Some (Some m) → mounts s !! j = Some (Some m') →
    path_compare (mnt_target m) (mnt_target m') = 0 → i = j;
  mw_root : match root_mount s with
            | None => root_dentry s = None ∧ ∀ i m, mounts s !! i = Some (Some m) → path_compare (mnt_target m) [SLASH] ≠ 0
            | Some i => ∃ m, mounts s !! i = Some (Some m) ∧ root_dentry s = mnt_root m ∧ path_compare (mnt_target m) [SLASH] = 0
            end
}.

Lemma first_free_spec k l j : first_free k l = Some j → (k ≤ j)%nat ∧ l !! (j - k)%nat = Some false.
Proof.
  revert k. induction l as [|u l IH]; intros k; cbn [first_free]; [done|]. destruct u.
  - intros Hj. destruct (IH _ Hj) as [Hle Hl]. split; [lia|]. replace (j - k)%nat with (S (j - S k)) by lia. done.
  - intros [= <-]. by rewrite Nat.sub_diag.
Qed.

Lemma find_by_target_none target s i m :
  find_mount_by_target target s = None → mounts s !! i = Some (Some m) → path_compare (mnt_target m) target ≠ 0.
Proof.
  unfold find_mount_by_target. destruct (find _ _) as [m0|] eqn:Ef.
  - apply find_some in Ef as [_ Ef]. by destruct m0.
  - intros _ Hi. apply list_elem_of_lookup_2, list_elem_of_In in Hi. pose proof (find_none _ _ Ef _ Hi) as Hn. cbn in Hn. by apply Z.eqb_neq.
Qed.

Lemma find_by_target_some target s m :
  find_mount_by_target target s = Some m → path_compare (mnt_target m) target = 0 ∧ ∃ i, mounts s !! i = Some (Some m).
Proof.
  unfold find_mount_by_target. destruct (find _ _) as [m0|] eqn:Ef; [|done]. intros ->. apply find_some in Ef as [Hin Ef]. apply Z.eqb_eq in Ef.
  split; [done|]. by apply list_elem_of_lookup_1, list_elem_of_In.
Qed.

(** Mounting a file system touches no table but the dentries and the heap. *)
Lemma fs_mount_tables t source s s' r :
  fs_mount t source s = Some (s', r) →
  mounts s' = mounts s ∧ mount_slot_used s' = mount_slot_used s ∧ mount_count s' = mount_count s ∧ root_mount s' = root_mount s ∧
  root_dentry s' = root_dentry s ∧ file_systems s' = file_systems s.
Proof.
  assert (∀ n s s' p, kz n s = Some (s', p) → ∃ f, s' = with_fs f s) as Hkz.
  { intros n s0 s1 p. unfold kz. destruct (kh_alloc _ _ _) as [[h q]|]; [|done]. cbn [mbind option_bind]. intros [= <- _]. eauto. }
  assert (∀ p s s', kf p s = Some s' → ∃ f, s' = with_fs f s) as Hkf.
  { intros p s0 s1. unfold kf. destruct (kh_free _ _) as [h|]; [|done]. cbn [mbind option_bind]. intros [= <-]. eauto. }
  destruct t; cbn [fs_mount].
  - destruct (ramfs_mount (v_fs s)) as [[f ok]|]; [|done]. cbn [mbind option_bind]. destruct ok; by intros [= <- _].
  - unfold fat32_mount. destruct (kz _ s) as [[s1 sb]|] eqn:E1; [|done]. apply Hkz in E1 as [f1 ->]. cbn [mbind option_bind].
    destruct sb as [sb|]; [|by intros [= <- _]]. destruct (kz _ _) as [[s2 sbi]|] eqn:E2; [|done]. apply Hkz in E2 as [f2 ->]. cbn [mbind option_bind].
    destruct sbi as [sbi|].
    2:{ destruct (kf _ _) as [s3|] eqn:E3; [|done]. apply Hkf in E3 as [f3 ->]. cbn [mbind option_bind]. by intros [= <- _]. }
    destruct (kz 512 _) as [[s3 bpb]|] eqn:E3; [|done]. apply Hkz in E3 as [f3 ->]. cbn [mbind option_bind].
    destruct (kz sizeof_inode _) as [[s4 root]|] eqn:E4; [|done]. apply Hkz in E4 as [f4 ->]. cbn [mbind option_bind]. destruct root as [root|]; [|done].
    cbn [mbind option_bind]. destruct (kz sizeof_dentry _) as [[s5 rd]|] eqn:E5; [|done]. apply Hkz in E5 as [f5 ->]. cbn [mbind option_bind].
    destruct rd as [rd|]; [|done]. cbn [mbind option_bind]. destruct bpb as [b|].
    + destruct (kf b _) as [s6|] eqn:E6; [|done]. apply Hkf in E6 as [f6 ->]. cbn [mbind option_bind]. by intros [= <- _].
    + cbn [mbind option_bind]. by intros [= <- _].
  - unfold iso_mount. destruct source as [|c source]; [by intros [= <- _]|]. destruct (iso9660_mount _ _ _ _) as [[h [sb|]]|]; [..|done]; cbn [mbind option_bind]; by intros [= <- _].
Qed.

(** What a successful mount does to the tables. *)
Lemma mount_cases source target type s s' r :
  mounts_wf s → vfs_mount source target type s = Some (s', r) →
  (mounts s' = mounts s ∧ mount_slot_used s' = mount_slot_used s ∧ mount_count s' = mount_count s ∧ root_mount s' = root_mount s ∧
   root_dentry s' = root_dentry s ∧ (find_mount_by_target target s = None → r ≠ 0)) ∨
  (r = 0 ∧ find_mount_by_target target s = None ∧ ∃ slot root,
     let m := mk_mount (Some root) (path_copy source 64) (path_copy target 64) (path_copy type 32) in
     mounts s !! slot = Some None ∧ mounts s' = <[slot := Some m]> (mounts s) ∧
     mount_slot_used s' = <[slot := true]> (mount_slot_used s) ∧ mount_count s' = mount_count s + 1 ∧
     if path_compare target [SLASH] =? 0 then root_mount s' = Some slot ∧ root_dentry s' = Some root
     else root_mount s' = root_mount s ∧ root_dentry s' = root_dentry s).
Proof.
  intros Hwf. unfold vfs_mount. destruct (find_filesystem type s) as [t|]; [|intros [= <- <-]; by left].
  destruct (find_mount_by_target target s) as [m|] eqn:Et; [intros [= <- <-]; by left|].
  destruct (_ <=? mount_count s); [intros [= <- <-]; by left|]. destruct (fs_mount t source s) as [[s1 o]|] eqn:Em; [|done]. cbn [mbind option_bind].
  destruct (fs_mount_tables t source s s1 o Em) as (E1 & E2 & E3 & E4 & E5 & _). destruct o as [root|]; [|intros [= <- <-]; by left].
  destruct (first_free 0 (mount_slot_used s1)) as [slot|] eqn:Ef; [|intros [= <- <-]; by left].
  intros [= <- <-]. right. split; [done|]. split; [done|]. exists slot, root. cbn zeta.
  apply first_free_spec in Ef as [_ Ef]. rewrite Nat.sub_0_r, E2, (mw_used _ Hwf), list_lookup_fmap in Ef.
  split.
  { destruct (mounts s !! slot) as [[m|]|]; cbn in Ef; [|done|done]. by injection Ef as Ef. }
  destruct (path_compare target [SLASH] =? 0); cbn; rewrite E1, E2, E3; done.
Qed.

Lemma mount_wf source target type s s' r :
  mounts_wf s → (length target < 64)%nat → c_str target → vfs_mount source target type s = Some (s', r) → mounts_wf s'.
Proof.
  intros Hwf Hlen Hstr Hm. pose proof Hwf as [H1 H2 H3 H4 H5 H6].
  destruct (mount_cases source target type s s' r Hwf Hm) as [(E1 & E2 & E3 & E4 & E5 & _)|(-> & Hnone & slot & root & Hs & E1 & E2 & E3 & E4)].
  { split; rewrite ?E1, ?E2, ?E3, ?E4, ?E5; done. }
  set (m := mk_mount (Some root) _ _ _) in *. assert (mnt_target m = target) as Et by (cbn; unfold path_copy; apply take_ge; lia).
  assert (∀ i m', mounts s !! i = Some (Some m') → path_compare (mnt_target m') target ≠ 0) as Hdiff by (intros i m'; by apply find_by_target_none).
  pose proof (lookup_lt_Some _ _ _ Hs) as Hlt. split.
  - by rewrite E1, length_insert.
  - rewrite E2, H2, E1, list_fmap_insert. done.
  - rewrite E3, H3, E1, live_mounts_set; done.
  - intros i m' Hi. rewrite E1 in Hi. apply list_lookup_insert_Some in Hi as [(<- & [= <-] & _)|[_ Hi]]; [by rewrite Et|by eapply H4].
  - intros i j m1 m2 Hi Hj Hcmp. rewrite E1 in Hi, Hj.
    apply list_lookup_insert_Some in Hi as [(<- & [= <-] & _)|[Hni Hi]]; apply list_lookup_insert_Some in Hj as [(<- & [= <-] & _)|[Hnj Hj]]; try done.
    + exfalso. rewrite Et in Hcmp. by apply (Hdiff j m2), path_compare_sym.
    + exfalso. rewrite Et in Hcmp. by apply (Hdiff i m1).
    + by eapply H5.
  - destruct (Z.eqb_spec (path_compare target [SLASH]) 0) as [Hr|Hr]; destruct E4 as [-> ->].
    + exists m. rewrite E1, list_lookup_insert_eq by done. split; [done|]. split; [done|]. by rewrite Et.
    + destruct (root_mount s) as [i|].
      * destruct H6 as (m' & Hi & Hd & Hc). exists m'. rewrite E1, list_lookup_insert_ne by congruence. done.
      * destruct H6 as [Hd Hall]. split; [done|]. intros i m' Hi. rewrite E1 in Hi.
        apply list_lookup_insert_Some in Hi as [(<- & [= <-] & _)|[_ Hi]]; [by rewrite Et|by eapply Hall].
Qed.

Lemma find_mounted_spec k l target :
  match find_mounted k l target with
  | Some j => (k ≤ j)%nat ∧ ∃ m, l !! (j - k)%nat = Some (Some m) ∧ is_Some (mnt_root m) ∧ path_compare (mnt_target m) target = 0
  | None => ∀ i m, l !! i = Some (Some m) → is_Some (mnt_root m) → path_compare (mnt_target m) target ≠ 0
  end.
Proof.
  revert k. induction l as [|o l IH]; intros k; cbn [find_mounted]; [done|].
  destruct (match o with Some x => bool_decide (is_Some (mnt_root x)) && (path_compare (mnt_target x) target =? 0) | None => false end) eqn:E.
  - destruct o as [m|]; [|done]. apply andb_true_iff in E as [E1%bool_decide_eq_true E2%Z.eqb_eq]. split; [done|]. exists m. by rewrite Nat.sub_diag.
  - specialize (IH (S k)). destruct (find_mounted (S k) l target) as [j|].
    + destruct IH as (Hle & m & Hm & ?). split; [lia|]. exists m. replace (j - k)%nat with (S (j - S k)) by lia. done.
    + intros [|i] m; cbn; [|by apply IH]. intros [= ->] Hr Hc. rewrite bool_decide_true, Hc in E by done. done.
Qed.

Lemma umount_wf target s : mounts_wf s → mounts_wf (fst (vfs_umount target s)).
Proof.
  intros Hwf. pose proof Hwf as [H1 H2 H3 H4 H5 H6]. unfold vfs_umount. pose proof (find_mounted_spec 0 (mounts s) target) as Hf.
  destruct (find_mounted 0 (mounts s) target) as [i|]; [|done]. destruct Hf as (_ & m & Hi & Hr & Hc). rewrite Nat.sub_0_r in Hi.
  pose proof (lookup_lt_Some _ _ _ Hi) as Hlt.
  set (s0 := if bool_decide (root_mount s = Some i) then with_root None None s else s).
  assert (mounts s0 = mounts s ∧ mount_slot_used s0 = mount_slot_used s ∧ mount_count s0 = mount_count s) as (E1 & E2 & E3) by (unfold s0; by case_bool_decide).
  assert (0 < mount_count s) as Hpos.
  { rewrite H3. pose proof (live_mounts_clear _ _ _ Hi) as Hl. unfold live_mounts in *. lia. }
  cbn [fst]. split; cbn [mounts mount_slot_used mount_count root_mount root_dentry with_mounts]; rewrite ?E1, ?E2, ?E3.
  - by rewrite length_insert.
  - by rewrite H2, list_fmap_insert.
  - destruct (Z.ltb_spec 0 (mount_count s)); [|lia]. by rewrite H3, (live_mounts_clear _ _ m).
  - intros j m' Hj. apply list_lookup_insert_Some in Hj as [(_ & [=] & _)|[_ Hj]]. by eapply H4.
  - intros j k m1 m2 Hj Hk. apply list_lookup_insert_Some in Hj as [(_ & [=] & _)|[_ Hj]]. apply list_lookup_insert_Some in Hk as [(_ & [=] & _)|[_ Hk]].
    by eapply H5.
  - unfold s0. case_bool_decide as Hroot.
    + cbn. split; [done|]. intros j m' Hj Hc'. apply list_lookup_insert_Some in Hj as [(_ & [=] & _)|[Hne Hj]].
      rewrite Hroot in H6. destruct H6 as (m0 & Hm0 & _ & Hc0). apply Hne. eapply (H5 i j m0 m'); [done|done|].
      apply (path_compare_trans _ [SLASH]); [by apply (H4 i m0)|by repeat constructor|done|by apply path_compare_sym].
    + destruct (root_mount s) as [j|].
      * destruct H6 as (m0 & Hm0 & Hd & Hc0). exists m0. rewrite list_lookup_insert_ne by congruence. done.
      * destruct H6 as [Hd Hall]. split; [done|]. intros j m' Hj. apply list_lookup_insert_Some in Hj as [(_ & [=] & _)|[_ Hj]]. by eapply Hall.
Qed.

Inductive mount_op := MMount (source target type : list Z) | MUmount (target : list Z).

Definition mount_step (op : mount_op) s : option (vfs H) :=
  match op with
  | MMount source target type => '(s, _) ← vfs_mount source target type s; Some s
  | MUmount target => Some (fst (vfs_umount target s))
  end.
Fixpoint mount_run (ops : list mount_op) s : option (vfs H) :=
  match ops with [] => Some s | op :: ops' => s ← mount_step op s; mount_run ops' s end.

(** Targets are strings that fit the field of the mount structure. *)
Definition mount_op_ok (op : mount_op) : Prop :=
  match op with MMount _ target _ => (length target < 64)%nat ∧ c_str target | MUmount _ => True end.

Lemma vfs_init_mounts s : root_mount s = None → root_dentry s = None → mount_count s = 0 → mounts_wf (vfs_init s).
Proof.
  intros Hr Hd Hc. set (s1 := with_mounts (replicate MAX_MOUNTS None) (replicate MAX_MOUNTS false) (mount_count s) s).
  assert (mounts (vfs_init s) = replicate MAX_MOUNTS None ∧ mount_slot_used (vfs_init s) = replicate MAX_MOUNTS false ∧
    mount_count (vfs_init s) = 0 ∧ root_mount (vfs_init s) = None ∧ root_dentry (vfs_init s) = None) as (E1 & E2 & E3 & E4 & E5).
  { unfold vfs_init. fold s1. unfold register_filesystem. destruct (find_filesystem _ s1); unfold s1; cbn; rewrite Hc, Hr, Hd; done. }
  assert (∀ i m, mounts (vfs_init s) !! i ≠ Some (Some m)) as Hno.
  { intros i m. rewrite E1. intros Hi. apply lookup_replicate in Hi as [[=] _]. }
  split; rewrite ?E3, ?E4; try (intros i ** ; by destruct (Hno i _ ltac:(eassumption))).
  - rewrite E1. apply length_replicate.
  - rewrite E1, E2, fmap_replicate. done.
  - by rewrite E1.
  - split; [done|]. intros i m Hi. by destruct (Hno i m).
Qed.

(** C36: from vfs_init on, any sequence of mounts and unmounts of the three
    registered file system types that runs without a fault keeps the mount
    table consistent, as long as every target is shorter than the 64 characters
    of its field: the slot flags and the counter agree with the entries, no two
    live mounts have the same target (up to trailing slashes), and the root
    dentry is the root of the mount at "/", if there is one.  A longer target is
    cut and can be mounted twice. *)
Theorem mount_table_invariant s0 ops s :
  root_mount s0 = None → root_dentry s0 = None → mount_count s0 = 0 → Forall mount_op_ok ops →
  mount_run ops (vfs_init s0) = Some s → mounts_wf s.
Proof.
  intros H1 H2 H3 Hops. pose proof (vfs_init_mounts s0 H1 H2 H3) as Hwf. revert Hwf. generalize (vfs_init s0).
  induction Hops as [|op ops Hop Hops IH]; intros s1 Hwf; cbn [mount_run]; [by intros [= <-]|].
  destruct op as [source target type|target]; cbn [mount_step].
  - destruct (vfs_mount source target type s1) as [[s2 r]|] eqn:E; [|done]. cbn [mbind option_bind]. apply IH. destruct Hop. by eapply mount_wf.
  - cbn [mbind option_bind]. apply IH. by apply umount_wf.
Qed.

(** A mount is found under its target, and unmounting it restores the
    mount table, its counter and the root. *)
Theorem mount_umount_roundtrip source target type s s1 :
  mounts_wf s → (length target < 64)%nat → c_str target → find_mount_by_target target s = None →
  vfs_mount source target type s = Some (s1, 0) →
  (∃ m, find_mount_by_target target s1 = Some m ∧ is_Some (mnt_root m) ∧ mnt_target m = target) ∧
  ∃ s2, vfs_umount target s1 = (s2, 0) ∧ mounts s2 = mounts s ∧ mount_slot_used s2 = mount_slot_used s ∧
    mount_count s2 = mount_count s ∧ root_mount s2 = root_mount s ∧ root_dentry s2 = root_dentry s.
Proof.
  intros Hwf Hlen Hstr Hnone Hm. pose proof (mount_wf source target type s s1 0 Hwf Hlen Hstr Hm) as Hwf1.
  destruct (mount_cases source target type s s1 0 Hwf Hm) as [(_ & _ & _ & _ & _ & Hne)|(_ & _ & slot & root & Hs & E1 & E2 & E3 & E4)]; [by destruct (Hne Hnone)|].
  set (m := mk_mount (Some root) _ _ _) in *. assert (mnt_target m = target) as Et by (cbn; unfold path_copy; apply take_ge; lia).
  pose proof (lookup_lt_Some _ _ _ Hs) as Hlt. assert (mounts s1 !! slot = Some (Some m)) as Hslot by (by rewrite E1, list_lookup_insert_eq).
  assert (∀ i m', mounts s1 !! i = Some (Some m') → path_compare (mnt_target m') target = 0 → i = slot ∧ m' = m) as Huniq.
  { intros i m' Hi Hc. assert (i = slot) as -> by (eapply (mw_distinct _ Hwf1); [done|done|by rewrite Et]). split; [done|congruence]. }
  split.
  { destruct (find_mount_by_target target s1) as [m'|] eqn:Ef.
    - apply find_by_target_some in Ef as [Hc [i Hi]]. destruct (Huniq i m' Hi Hc) as [_ ->]. exists m. split; [done|]. by split; [eexists|].
    - exfalso. apply (find_by_target_none target s1 slot m Ef Hslot). rewrite Et. apply path_compare_refl. }
  unfold vfs_umount. pose proof (find_mounted_spec 0 (mounts s1) target) as Hf. destruct (find_mounted 0 (mounts s1) target) as [i|].
  2:{ exfalso. apply (Hf slot m Hslot); [by eexists|]. rewrite Et. apply path_compare_refl. }
  destruct Hf as (_ & m' & Hi & _ & Hc). rewrite Nat.sub_0_r in Hi. destruct (Huniq i m' Hi Hc) as [-> ->].
  assert (mount_slot_used s !! slot = Some false) as Hu by (rewrite (mw_used _ Hwf), list_lookup_fmap, Hs; done).
  assert (0 ≤ mount_count s) as Hpos by (rewrite (mw_count _ Hwf); unfold live_mounts; lia).
  assert (∀ s0 : vfs H, mounts s0 = mounts s1 → mount_slot_used s0 = mount_slot_used s1 → mount_count s0 = mount_count s1 →
    <[slot := None]> (mounts s0) = mounts s ∧ <[slot := false]> (mount_slot_used s0) = mount_slot_used s ∧
    (if 0 <? mount_count s0 then mount_count s0 - 1 else mount_count s0) = mount_count s) as Hback.
  { intros s0 -> -> ->. rewrite E1, E2, E3, !list_insert_insert_eq, !list_insert_id by done. split; [done|]. split; [done|].
    destruct (Z.ltb_spec 0 (mount_count s + 1)); lia. }
  case_bool_decide as Hroot; eexists; (split; [reflexivity|]); cbn.
  - destruct (Hback s1) as (-> & -> & ->); [done..|]. do 3 (split; [done|]).
    assert (path_compare target [SLASH] = 0) as Hcr.
    { pose proof (mw_root _ Hwf1) as Hr. rewrite Hroot in Hr. destruct Hr as (m0 & Hm0 & _ & Hc0). rewrite Hslot in Hm0. injection Hm0 as <-. by rewrite Et in Hc0. }
    pose proof (mw_root _ Hwf) as Hr. destruct (root_mount s) as [j|]; [|destruct Hr as [-> _]; done].
    destruct Hr as (m0 & Hm0 & _ & Hc0). exfalso. apply (find_by_target_none target s j m0 Hnone Hm0).
    apply (path_compare_trans _ [SLASH]); [by apply (mw_live _ Hwf j m0)|by repeat constructor|done|by apply path_compare_sym].
  - destruct (Hback s1) as (-> & -> & ->); [done..|]. do 3 (split; [done|]).
    destruct (path_compare target [SLASH] =? 0); [destruct E4; congruence|done].
Qed.
End Table.

(** ** A concrete mount table *)

Definition no_disks : storage := mk_storage (λ _, -1) (λ _ _, None).

(** A CD in the drive "cd0". *)
Definition demo_cd : list Z := bytes_of_string "cd0"%string.
Definition demo_storage : storage := mk_storage (λ l, if bool_decide (l = demo_cd) then 0 else -1) demo_disk.
Definition demo_table : vfs heap :=
  mk_vfs (mk_fs None 0 0 ∅ ∅ ∅ boot_heap) demo_storage ∅ ∅ ∅ ∅ ∅ [ISO9660; RAMFS] [] [] 0 None None.
Definition demo_mnt : list Z := bytes_of_string "/mnt"%string.
Definition demo_ops : list mount_op :=
  [MMount (fst_name RAMFS) [SLASH] (fst_name RAMFS); MMount (fst_name FAT32) demo_mnt (fst_name FAT32);
   MMount (fst_name FAT32) (demo_mnt ++ [SLASH]) (fst_name RAMFS); MUmount demo_mnt;
   MMount demo_cd demo_mnt (fst_name ISO9660)].

Lemma demo_mnt_str : c_str demo_mnt.
Proof. apply (bool_decide_unpack _). vm_compute. exact I. Qed.

Lemma mount_table_invariant_witness :
  ∃ s, mount_run demo_ops (vfs_init demo_table) = Some s ∧ mounts_wf s ∧ mount_count s = 2.
Proof.
  assert (bool_decide (is_Some (mount_run demo_ops (vfs_init demo_table))) = true) as Hs by (vm_compute; reflexivity).
  destruct (mount_run demo_ops (vfs_init demo_table)) as [s|] eqn:E; [|discriminate Hs].
  assert (mount_count <$> mount_run demo_ops (vfs_init demo_table) = Some 2) as Hc by (vm_compute; reflexivity). rewrite E in Hc. injection Hc as Hc.
  exists s. split; [reflexivity|]. split; [|exact Hc]. apply (mount_table_invariant demo_table demo_ops s); [reflexivity|reflexivity|reflexivity| |exact E].
  repeat constructor; try (apply (bool_decide_unpack _); vm_compute; exact I).
Defined.

(** After these calls the file of the disc is read through the VFS, and nothing
    can be created beside it. *)
Definition demo_hello : list Z := demo_mnt ++ bytes_of_string "/HELLO.TXT"%string.
Lemma disc_file_read :
  (s ← mount_run demo_ops (vfs_init demo_table);
   '(s, f) ← vfs_open (Some demo_hello) 0 0 s;
   '(s, bytes, n) ← vfs_read f true 100 s;
   '(s, ret) ← vfs_create (demo_mnt ++ bytes_of_string "/new"%string) 0x1A4 s;
   Some (bytes, n, ret)) = Some (bytes_of_string "hello"%string, 5, - EPERM).
Proof. vm_compute. reflexivity. Qed.

(** O_TRUNC on a file of a disc hands its node to ramfs_truncate_file, which
    takes it for an inode of the RAM file system. *)
Lemma truncate_disc_file :
  (s ← mount_run demo_ops (vfs_init demo_table); vfs_open (Some demo_hello) O_TRUNC 0 s) = None.
Proof. vm_compute. reflexivity. Qed.

Lemma mount_umount_roundtrip_witness :
  ∃ s1 s2, vfs_mount (fst_name FAT32) demo_mnt (fst_name FAT32) (vfs_init demo_table) = Some (s1, 0) ∧ vfs_umount demo_mnt s1 = (s2, 0) ∧
    mounts s2 = mounts (vfs_init demo_table).
Proof.
  assert (snd <$> vfs_mount (fst_name FAT32) demo_mnt (fst_name FAT32) (vfs_init demo_table) = Some 0) as Hs by (vm_compute; reflexivity).
  destruct (vfs_mount (fst_name FAT32) demo_mnt (fst_name FAT32) (vfs_init demo_table)) as [[s1 r]|] eqn:E; [|discriminate Hs].
  assert (r = 0) as -> by (by apply (inj Some) in Hs).
  destruct (mount_umount_roundtrip (fst_name FAT32) demo_mnt (fst_name FAT32) (vfs_init demo_table) s1) as (_ & s2 & Hu & Hm & _);
    [apply vfs_init_mounts; reflexivity|vm_compute; lia|exact demo_mnt_str|vm_compute; reflexivity|exact E|].
  exists s1, s2. split; [reflexivity|]. split; [exact Hu|exact Hm].
Defined.

(** A mount whose target ends in a slash is the mount of its directory for
    [find_mount_by_target], but no path below it is resolved to it. *)
Lemma trailing_slash_unreachable :
  path_compare (demo_mnt ++ [SLASH]) demo_mnt = 0 ∧
  path_has_mount_prefix (demo_mnt ++ bytes_of_string "/a"%string) (demo_mnt ++ [SLASH]) = None.
Proof. split; vm_compute; reflexivity. Qed.

(** A target longer than the field of the mount structure is cut, and the
    check for an existing mount no longer finds it. *)
Lemma long_target_mounted_twice :
  let target := SLASH :: replicate 70 97 in
  (r1 ← vfs_mount (fst_name FAT32) target (fst_name FAT32) (vfs_init demo_table);
   r2 ← vfs_mount (fst_name RAMFS) target (fst_name RAMFS) (fst r1);
   Some (snd r1, snd r2, find_mount_by_target target (fst r2))) = Some (0, 0, None).
Proof. vm_compute. reflexivity. Qed.

(** Opening "/" without memory for the file writes through a null pointer. *)
Lemma open_root_out_of_memory {H : Type} `{!KernelHeap H} flags mode (s : vfs H) h rd d v :
  kh_alloc sizeof_file GFP_ZERO (fs_heap (v_fs s)) = Some (h, None) → root_dentry s = Some rd → dentries s !! rd = Some d → d_inode d = Some v →
  vfs_open (Some [SLASH]) flags mode s = None.
Proof.
  intros Ea Er Ed Ei. unfold vfs_open. rewrite bool_decide_eq_true_2 by done. unfold open_root, kz. rewrite Ea. cbn [mbind option_bind root_dentry with_fs].
  rewrite Er. cbn [mbind option_bind dentries with_fs]. rewrite Ed. cbn [mbind option_bind]. by rewrite Ei.
Qed.
