(* ===== verification/VfsFiles.v ===== *)
(** * Files through the virtual file system

    Opening, creating, saving, reading and removing files by path, over the
    RAM file system mounted at "/": the calls of [Vfs] implement the map from
    paths to files ([file_at]) that [Ramfs] implements underneath.  The VFS and
    the file system share the heap; [K] are the allocations of the VFS
    (dentries, open files, inodes), [M] those of the file system, which is
    verified once for any heap and used here on the framed one. *)

From S2P Require Import Prelude KHeap Kmalloc Ramfs Vfs.

(** ** The inode operations of the RAM file system *)

Section Node.
Context {H : Type} `{!KernelHeap H}.
Implicit Types f : ramfs H.

(** The same tree, under a heap that may have changed and more VFS inodes. *)
Definition same_nodes f f' : Prop := fs_root f' = fs_root f ∧ inodes f' = inodes f ∧ bufs f' = bufs f.

Lemma same_nodes_file f f' ms : same_nodes f f' → file_at f' ms = file_at f ms.
Proof.
  intros (Er & Ei & Eb). unfold file_at.
  assert (ramfs_lookup_path_info (path_of ms) f' = ramfs_lookup_path_info (path_of ms) f) as ->.
  { unfold ramfs_lookup_path_info. rewrite Er. destruct (fs_root f) as [r|]; [|done].
    assert (∀ fuel p l, walk_path fuel p l f' = walk_path fuel p l f) as Hw.
    { assert (∀ fuel o n, find_child fuel o n f' = find_child fuel o n f) as Hf.
      { induction fuel as [|fuel IH]; intros o n; [done|]. cbn [find_child]. rewrite Ei. destruct o as [c|]; [|done].
        destruct (inodes f !! c); [|done]. cbn [mbind option_bind]. by rewrite IH. }
      induction fuel as [|fuel IH]; intros p l; [done|]. cbn [walk_path]. destruct l as [|c l]; [done|].
      destruct (take_component _ _) as [n rest]. unfold ramfs_lookup_child, fuel_of. rewrite Ei.
      destruct (inodes f !! p) as [x|]; [|done]. cbn [mbind option_bind]. rewrite Hf.
      destruct (if negb (S_ISDIR (r_mode x)) then Some None else _) as [[q|]|]; [|done|done]. cbn [mbind option_bind]. apply IH. }
    destruct (match path_of ms with [] => [] | c :: p => if c =? SLASH then p else path_of ms end) as [|c l]; [done|].
    rewrite Hw, Ei. done. }
  unfold contents. rewrite Ei, Eb. done.
Qed.

Lemma same_nodes_resolve f f' p ns : same_nodes f f' → resolve f' p ns = resolve f p ns.
Proof.
  intros (_ & Ei & _). induction ns as [|n ns IH] using rev_ind; [done|]. rewrite !resolve_snoc, IH.
  destruct (resolve f p ns) as [q|]; [|done]. cbn. by apply look_same_inodes.
Qed.

Lemma same_nodes_wf f f' C M M' :
  fs_wf f C M → same_nodes f f' → kh_inv (fs_heap f') M' → (∀ p n, M !! p = Some n → M' !! p = Some n) → fs_wf f' C M'.
Proof.
  intros [H1 H2 H3 H4 H5 H6 H7 H8 H9] (Er & Ei & Eb) Hh Hm. split; rewrite ?Er, ?Ei, ?Eb; try done.
  intros p x Hx. destruct (H7 p x Hx) as [Hp Hd]. split; [by apply Hm|]. unfold data_ok in *.
  destruct (r_data x) as [d|]; [|done]. destruct Hd as (l & ? & ? & ? & ? & Hdm). exists l. eauto 10.
Qed.

(** The VFS inode of the node [p]. *)
Definition vinode_of f (v p : Z) : Prop := ∃ i, vinodes f !! v = Some i ∧ v_private i = Some p ∧ is_Some (inodes f !! p).

(** Every path leads where it led before, to a node of the same mode. *)
Definition keeps_nodes f f' : Prop := ∀ r ms c x, fs_root f = Some r → resolve f r ms = Some c → inodes f !! c = Some x →
  fs_root f' = Some r ∧ resolve f' r ms = Some c ∧ ∃ x', inodes f' !! c = Some x' ∧ r_mode x' = r_mode x.

Lemma keeps_nodes_trans f1 f2 f3 : keeps_nodes f1 f2 → keeps_nodes f2 f3 → keeps_nodes f1 f3.
Proof.
  intros A B r ms c x Hr Hc Hx. destruct (A r ms c x Hr Hc Hx) as (Hr2 & Hc2 & x2 & Hx2 & Hm2).
  destruct (B r ms c x2 Hr2 Hc2 Hx2) as (Hr3 & Hc3 & x3 & Hx3 & Hm3). split; [done|]. split; [done|]. exists x3. split; [done|congruence].
Qed.

Lemma same_nodes_keep f f' : same_nodes f f' → keeps_nodes f f'.
Proof. intros Hs r ms c x Hr Hc Hx. rewrite (same_nodes_resolve f f') by done. destruct Hs as (-> & -> & _). eauto. Qed.

(** Moreover the VFS inodes stand for the same nodes. *)
Record keeps f f' : Prop := {
  kp_nodes : keeps_nodes f f';
  kp_vinode v i : vinodes f !! v = Some i → ∃ i', vinodes f' !! v = Some i' ∧ v_private i' = v_private i
}.

Lemma keeps_refl f : keeps f f.
Proof. split; [by apply same_nodes_keep|eauto]. Qed.

Lemma keeps_trans f1 f2 f3 : keeps f1 f2 → keeps f2 f3 → keeps f1 f3.
Proof.
  intros [A1 A2] [B1 B2]. split; [by eapply keeps_nodes_trans|].
  intros v i Hi. destruct (A2 v i Hi) as (i2 & Hi2 & Hp2). destruct (B2 v i2 Hi2) as (i3 & Hi3 & Hp3). exists i3. split; [done|congruence].
Qed.

Lemma keeps_more f f' : keeps_nodes f f' → vinodes f ⊆ vinodes f' → keeps f f'.
Proof. intros Hn Hv. split; [done|]. intros v i Hi. exists i. split; [by eapply lookup_weaken|done]. Qed.

(** [w] is not a node of the file system, nor its data. *)
Definition not_node f (w : Z) : Prop := inodes f !! w = None ∧ ∀ q x, inodes f !! q = Some x → r_data x ≠ Some w.

Lemma new_inode_ok f C M p x size :
  fs_wf f C M → inodes f !! p = Some x →
  ∃ f' o, new_inode x p size (S_ISDIR (r_mode x)) f = Some (f', o) ∧ same_nodes f f' ∧
    match o with
    | None => vinodes f' = vinodes f ∧ fs_wf f' C M
    | Some v => 0 < v ∧ M !! v = None ∧ not_node f' v ∧ fs_wf f' C (<[v := sizeof_inode]> M) ∧
        vinodes f' = <[v := mk_inode (r_ino x) (r_mode x) size (S_ISDIR (r_mode x)) (Some p)]> (vinodes f) ∧ vinode_of f' v p
    end.
Proof.
  intros Hwf Hx. unfold new_inode. destruct (kh_alloc_ok (fs_heap f) M sizeof_inode GFP_ZERO (wf_heap _ _ _ Hwf)) as (h & o & -> & Ho); [done|].
  cbn [mbind option_bind]. destruct o as [v|]; do 2 eexists; (split; [reflexivity|]); (split; [done|]).
  - destruct Ho as (_ & Hp & HM & Hh). split; [done|]. split; [done|]. split; [exact (fresh_pointer _ _ _ _ Hwf HM)|]. split.
    { eapply same_nodes_wf; [exact Hwf|done|done|]. intros q n Hq. rewrite lookup_insert_ne by congruence. done. }
    split; [done|]. eexists. split; [apply lookup_insert_eq|]. split; [done|]. cbn. eauto.
  - split; [done|]. by apply wf_with_heap.
Qed.

Lemma lookup_ok f C M dir v d n :
  fs_wf f C M → vinodes f !! dir = Some v → v_private v = Some d → is_Some (inodes f !! d) →
  ∃ f' o, ramfs_lookup dir n f = Some (f', o) ∧ same_nodes f f' ∧
    match o with
    | None => vinodes f' = vinodes f ∧ fs_wf f' C M
    | Some w => ∃ c x, look f d n = Some c ∧ inodes f !! c = Some x ∧ 0 < w ∧ M !! w = None ∧ not_node f' w ∧ fs_wf f' C (<[w := sizeof_inode]> M) ∧
        vinodes f' = <[w := mk_inode (r_ino x) (r_mode x) (r_size x) (S_ISDIR (r_mode x)) (Some c)]> (vinodes f) ∧ vinode_of f' w c
    end.
Proof.
  intros Hwf Hv Hp Hd. unfold ramfs_lookup. rewrite Hv. cbn [mbind option_bind]. rewrite Hp. cbn [mbind option_bind].
  destruct (lookup_child_spec f C M d n Hwf Hd) as [-> _]. cbn [mbind option_bind]. destruct (look f d n) as [c|] eqn:El.
  2:{ exists f, None. done. }
  destruct (look_in _ _ _ _ _ _ Hwf El) as [_ [x Hx]]. rewrite Hx. cbn [mbind option_bind].
  destruct (new_inode_ok f C M c x (r_size x) Hwf Hx) as (f' & o & -> & Hs & Ho). exists f', o. split; [done|]. split; [done|].
  destruct o as [w|]; [|done]. exists c, x. split; [done|]. split; [done|]. exact Ho.
Qed.

(** A fresh node linked into the directory [d]. *)
Lemma link_node_ok f C M type mode r ns d xd n :
  fs_wf f C M → fs_root f = Some r → resolve f r ns = Some d → inodes f !! d = Some xd → S_ISDIR (r_mode xd) = true →
  Forall name_ok ns → name_ok n → look f d n = None →
  ∃ f1 o, ramfs_alloc_inode (Z.lor type mode) n f = Some (f1, o) ∧ vinodes f1 = vinodes f ∧
    match o with
    | None => same_nodes f f1 ∧ fs_wf f1 C M
    | Some p => ∃ f2 C' M' x, ramfs_add_child d p f1 = Some (f2, 0) ∧ fs_wf f2 C' M' ∧ vinodes f2 = vinodes f ∧
        fs_root f2 = Some r ∧ resolve f2 r (ns ++ [n]) = Some p ∧ inodes f2 !! p = Some x ∧ r_mode x = Z.lor type mode ∧ r_size x = 0 ∧ keeps_nodes f f2 ∧
        ∀ ms, Forall name_ok ms →
          file_at f2 ms = if decide (ms = ns ++ [n]) then Some (S_ISDIR (Z.lor type mode), []) else file_at f ms
    end.
Proof.
  intros Hwf Hr Hd Hxd Hdir Hns Hn El.
  destruct (alloc_inode_ok f C M (Z.lor type mode) n Hwf) as (f1 & o & E & Hr1 & Hb1 & Hv1 & H1). exists f1, o.
  split; [done|]. split; [done|]. destruct o as [p|]; [|destruct H1; split; [split; [done|split; congruence]|done]].
  cbn zeta in H1. destruct H1 as (HM & Hp & Hin1 & Hwf1 & Horph).
  assert (take (Z.to_nat RAMFS_MAX_NAME) n = n) as Etake.
  { destruct Hn as (_ & _ & Hl). unfold RAMFS_MAX_NAME in *. apply take_ge. lia. }
  rewrite Etake in Hin1. set (xp := mk_ram _ _ _ _ _ _ _ _ n) in *.
  assert (inodes f1 !! p = Some xp) as Hp1 by (rewrite Hin1; apply lookup_insert_eq).
  assert (∀ c, is_Some (inodes f !! c) → c ≠ p ∧ is_Some (inodes f1 !! c)) as Hold.
  { intros c [x Hx]. split; [congruence|]. rewrite Hin1, lookup_insert_ne by congruence. eauto. }
  assert (∀ q m, is_Some (inodes f !! q) → look f1 q m = look f q m) as Hlook1.
  { intros q m Hq. eapply look_ext; [exact Hwf1|exact Hwf|by apply Hold|done|]. intros c. unfold child_of.
    split; intros (Hc & x & Hx & Hm); (split; [done|]); exists x; (split; [|done]).
    - rewrite Hin1, lookup_insert_ne in Hx; [done|]. intros <-. by apply (proj1 (proj2 Horph) q).
    - rewrite Hin1, lookup_insert_ne; [done|]. congruence. }
  assert (d ≠ p) as Hdp by (apply Hold; eauto).
  assert (inodes f1 !! d = Some xd) as Hd1 by (rewrite Hin1, lookup_insert_ne; done).
  destruct (add_child_ok f1 C _ d p xd xp Hwf1 Hd1 Hdir Horph Hp1) as (f2 & E2 & Hwf2 & Hrel & Hlook2); [done|done|by rewrite Hlook1 by eauto|].
  destruct Hrel as (Hr2 & Hb2 & Hv2 & Hh2 & Hf2 & Hg2). assert (relinked f1 f2) as Hrel by done.
  destruct (relinked_keeps f1 f2 p Hrel xp Hp1) as (x2 & Hx2 & Hm2 & _ & Hc2).
  destruct (Hf2 p xp Hp1) as (x2' & Hx2' & _ & Hsz & _). assert (x2' = x2) as -> by congruence.
  assert (∀ q m, is_Some (inodes f !! q) → look f2 q m = if decide (q = d ∧ m = n) then Some p else look f q m) as Hl.
  { intros q m Hq. rewrite Hlook2 by by apply Hold. cbn. case_decide; [done|]. by apply Hlook1. }
  assert (∀ m, look f2 p m = None) as Hlp.
  { intros m. rewrite Hlook2 by eauto. rewrite decide_False by (intros [? _]; congruence).
    destruct (look f1 p m) as [c|] eqn:Elp; [|done].
    apply (proj2 (lookup_child_spec f1 C _ p m Hwf1 ltac:(eauto)) c) in Elp as [Hc _].
    destruct Horph as (_ & _ & _ & HC). rewrite HC in Hc. by apply elem_of_nil in Hc. }
  pose proof (resolve_insert f f2 C M r d p n ns Hwf Hr Hd El Hl Hlp) as Hres.
  eexists f2, _, _, x2. split; [done|]. split; [exact Hwf2|]. split; [congruence|]. split; [congruence|].
  assert (∀ q, q ≠ p → keeps_file f f2 q) as Hkeep.
  { intros q Hq. eapply keeps_file_trans; [by eapply keeps_file_insert|]. by apply relinked_keeps. }
  split; [by rewrite Hres, decide_True|]. split; [done|]. split; [done|]. split; [cbn in Hsz; congruence|]. split.
  { intros r' ms c x Hr' Hc Hx. assert (r' = r) as -> by congruence.
    rewrite Hres, decide_False. 2:{ intros ->. rewrite resolve_snoc, Hd in Hc. cbn in Hc. congruence. }
    destruct (Hkeep c ltac:(apply Hold; eauto) x Hx) as (x' & ? & ? & _). split; [congruence|]. eauto. }
  intros ms Hms. specialize (Hres ms). assert (fs_root f2 = Some r) as Hr2' by congruence. case_decide as Hms'.
  - subst ms. rewrite (file_at_resolve f2 _ _ r), Hres by (done || by destruct ns). cbn. rewrite Hx2. cbn. by rewrite Hm2, Hc2.
  - eapply (file_at_ext f f2 C _ M _ r); try done. intros q Hq. eapply keeps_file_trans; [by eapply keeps_file_insert|].
    by apply relinked_keeps.
Qed.

Lemma make_node_ok f C M type mode isdir dir v r ns d xd n :
  fs_wf f C M → vinodes f !! dir = Some v → v_private v = Some d → fs_root f = Some r → resolve f r ns = Some d →
  inodes f !! d = Some xd → S_ISDIR (r_mode xd) = true → Forall name_ok ns → name_ok n → S_ISDIR (Z.lor type mode) = isdir →
  ∃ f' ret o, make_node type mode isdir dir n f = Some (f', ret, o) ∧
    match look f d n with
    | Some _ => ret = - EEXIST ∧ o = None ∧ f' = f
    | None =>
        (ret = - ENOMEM ∧ o = None ∧ same_nodes f f' ∧ vinodes f' = vinodes f ∧ fs_wf f' C M) ∨
        ∃ C' M' p x, fs_root f' = Some r ∧ resolve f' r (ns ++ [n]) = Some p ∧ inodes f' !! p = Some x ∧
          r_mode x = Z.lor type mode ∧ r_size x = 0 ∧ keeps_nodes f f' ∧
          (∀ ms, Forall name_ok ms → file_at f' ms = if decide (ms = ns ++ [n]) then Some (isdir, []) else file_at f ms) ∧
          match o with
          | None => ret = - ENOMEM ∧ vinodes f' = vinodes f ∧ fs_wf f' C' M'
          | Some w => ret = 0 ∧ 0 < w ∧ M' !! w = None ∧ not_node f' w ∧ fs_wf f' C' (<[w := sizeof_inode]> M') ∧
              vinodes f' = <[w := mk_inode (r_ino x) (r_mode x) 0 isdir (Some p)]> (vinodes f)
          end
    end.
Proof.
  intros Hwf Hv Hpr Hr Hd Hxd Hdir Hns Hn Ht. unfold make_node. rewrite Hv. cbn [mbind option_bind]. rewrite Hpr.
  destruct n as [|c0 n0]; [by destruct Hn|]. set (n := c0 :: n0) in *.
  destruct (lookup_child_spec f C M d n Hwf ltac:(eauto)) as [-> _]. cbn [mbind option_bind].
  destruct (look f d n) as [e|] eqn:El; [exists f, (- EEXIST), None; done|].
  destruct (link_node_ok f C M type mode r ns d xd n Hwf Hr Hd Hxd Hdir Hns Hn El) as (f1 & o & -> & Hv1 & H1). cbn [mbind option_bind].
  destruct o as [p|].
  2:{ exists f1, (- ENOMEM), None. split; [done|]. left. destruct H1. done. }
  destruct H1 as (f2 & C' & M' & x & -> & Hwf2 & Hv2 & Hr2 & Hres2 & Hx & Hm & Hsz & Hkp2 & Hfile). cbn [mbind option_bind Z.eqb negb]. rewrite Hx.
  cbn [mbind option_bind]. rewrite <- Ht, <- Hm.
  destruct (new_inode_ok f2 C' M' p x 0 Hwf2 Hx) as (f3 & o3 & -> & Hs & Ho). cbn [mbind option_bind].
  pose proof Hs as (Er3 & Ei3 & _).
  assert (∀ ms, Forall name_ok ms → file_at f3 ms = if decide (ms = ns ++ [n]) then Some (S_ISDIR (r_mode x), []) else file_at f ms) as Hf3.
  { intros ms Hms. rewrite (same_nodes_file f2 f3 ms Hs), Hm. by apply Hfile. }
  destruct o3 as [w|].
  - exists f3, 0, (Some w). split; [done|]. right. destruct Ho as (Hw & HMw & Hnn & Hwf3 & Hv3 & _). exists C', M', p, x.
    split; [congruence|]. split; [by rewrite (same_nodes_resolve f2 f3)|]. split; [congruence|]. split; [done|]. split; [done|].
    split; [eapply keeps_nodes_trans; [exact Hkp2|by apply same_nodes_keep]|]. do 6 (split; [done|]). congruence.
  - exists f3, (- ENOMEM), None. split; [done|]. right. destruct Ho as (Hv3 & Hwf3). exists C', M', p, x.
    split; [congruence|]. split; [by rewrite (same_nodes_resolve f2 f3)|]. split; [congruence|]. split; [done|]. split; [done|].
    split; [eapply keeps_nodes_trans; [exact Hkp2|by apply same_nodes_keep]|]. split; [done|]. split; [done|]. split; [congruence|done].
Qed.

(** What a change of the contents of the one node [p] does to the map. *)
Lemma rewritten_file f f' C M M' r ns p x x' :
  fs_wf f C M → fs_wf f' C M' → fs_root f = Some r → fs_root f' = Some r → Forall name_ok ns → ns ≠ [] → resolve f r ns = Some p →
  inodes f !! p = Some x → inodes f' !! p = Some x' → r_mode x' = r_mode x →
  (∀ q m, is_Some (inodes f !! q) → look f' q m = look f q m) → (∀ q, q ≠ p → keeps_file f f' q) →
  resolve f' r ns = Some p ∧ keeps_nodes f f' ∧
  ∀ ms, Forall name_ok ms → file_at f' ms = if decide (ms = ns) then Some (S_ISDIR (r_mode x), contents f' x') else file_at f ms.
Proof.
  intros Hwf Hwf' Hr Hr' Hns Hne Hp Hx Hx' Hm Hl Hk. pose proof (λ ms, resolve_same f f' C M r ms Hwf Hr Hl) as Hres.
  split; [by rewrite Hres|]. split.
  { intros r' ms c y Hr0 Hc Hy. assert (r' = r) as -> by congruence. rewrite Hres. split; [done|]. split; [done|]. destruct (decide (c = p)) as [->|Hcp].
    - exists x'. split; [done|congruence].
    - destruct (Hk c Hcp y Hy) as (y' & ? & ? & _). eauto. }
  intros ms Hms. case_decide as Hd.
  - subst ms. rewrite (file_at_resolve f' C M' r ns) by done. rewrite Hres, Hp. cbn. rewrite Hx'. cbn. by rewrite Hm.
  - apply (file_at_ext f f' C C M M' r); try done. intros c Hc. apply Hk. intros ->. apply Hd.
    exact (resolve_inj f C M r ms ns p Hwf Hr Hc Hp).
Qed.

Lemma truncate_ok f C M r ns p x :
  fs_wf f C M → fs_root f = Some r → Forall name_ok ns → ns ≠ [] → resolve f r ns = Some p → inodes f !! p = Some x → S_ISDIR (r_mode x) = false →
  ∃ f' x', ramfs_truncate_file (Some p) f = Some (f', 0) ∧ fs_wf f' C M ∧ fs_root f' = Some r ∧ vinodes f' = vinodes f ∧
    inodes f' !! p = Some x' ∧ r_mode x' = r_mode x ∧ r_size x' = 0 ∧ resolve f' r ns = Some p ∧ keeps_nodes f f' ∧
    ∀ ms, Forall name_ok ms → file_at f' ms = if decide (ms = ns) then Some (false, []) else file_at f ms.
Proof.
  intros Hwf Hr Hns Hne Hp Hx Hdir. unfold ramfs_truncate_file. rewrite Hx. cbn [mbind option_bind]. rewrite Hdir.
  set (f' := upd p (set_data 0 (r_data x) (r_capacity x)) f). set (x' := set_data 0 (r_data x) (r_capacity x) x).
  assert (inodes f' = <[p := x']> (inodes f)) as Ei.
  { unfold f', upd. cbn. apply map_eq. intros q. destruct (decide (q = p)) as [->|Hq].
    - by rewrite lookup_alter_eq, Hx, lookup_insert_eq.
    - by rewrite lookup_alter_ne, lookup_insert_ne. }
  assert (inodes f' !! p = Some x') as Hx' by (rewrite Ei; apply lookup_insert_eq).
  assert (fs_wf f' C M ∧ ∀ q n, is_Some (inodes f !! q) → look f' q n = look f q n) as [Hwf' Hl].
  { eapply (wf_set_data f f' C M M p x); try done.
    - apply Hwf.
    - intros q y Hy. by apply (wf_inode _ _ _ Hwf q y).
    - intros q y _ Hy. by apply (wf_inode _ _ _ Hwf q y).
    - destruct (wf_inode _ _ _ Hwf p x Hx) as [_ Hd]. unfold data_ok in *. cbn. destruct (r_data x) as [d|]; [|by destruct Hd].
      destruct Hd as (l & ? & ? & ? & ? & ?). exists l. split; [done|]. split; [done|]. split; [lia|]. done.
    - intros e He. split; [by apply (wf_data _ _ _ Hwf p p x x e)|]. intros q y Hq Hy Hye. apply Hq. symmetry.
      by apply (wf_data _ _ _ Hwf p q x y e). }
  destruct (rewritten_file f f' C M M r ns p x x' Hwf Hwf' Hr Hr Hns Hne Hp Hx Hx' eq_refl Hl) as (Hres & Hkp & Hfile).
  { intros q Hq y Hy. exists y. split; [by rewrite Ei, lookup_insert_ne|]. done. }
  exists f', x'. do 9 (split; [done|]). intros ms Hms. rewrite Hfile, Hdir by done. case_decide; [|done].
  do 2 f_equal. unfold contents. cbn. by destruct (r_data x).
Qed.

(** ramfs_write keeps the VFS inodes but for a size. *)
Lemma write_vinodes f q vino buf pos f' pos' ret v :
  ramfs_write (Some q) vino buf pos f = Some (f', pos', ret) →
  match vinodes f !! v with
  | None => vinodes f' !! v = None
  | Some i => ∃ i', vinodes f' !! v = Some i' ∧ v_private i' = v_private i
  end.
Proof.
  assert (∀ (g : ramfs H), vinodes g = vinodes f →
    match vinodes f !! v with None => vinodes g !! v = None | Some i => ∃ i', vinodes g !! v = Some i' ∧ v_private i' = v_private i end) as Hsame.
  { intros g ->. destruct (vinodes f !! v); eauto. }
  unfold ramfs_write. destruct (inodes f !! q) as [x|]; [|done]. cbn [mbind option_bind].
  set (n := u64 (pos + Z.of_nat (length buf))).
  assert (∀ f1 r, (if r_capacity x <? n then grow q x n f else Some (f, Some x)) = Some (f1, r) → vinodes f1 = vinodes f) as Hg.
  { intros f1 r. destruct (r_capacity x <? n); [|by intros [= <- _]]. unfold grow.
    destruct (kh_alloc _ _ _) as [[h [d|]]|]; cbn [mbind option_bind]; [|by intros [= <- _]|done]. intros Hgr.
    match goal with H : (?m ≫= _) = _ |- _ => destruct m as [[[old h2] b]|]; [|done] end. cbn [mbind option_bind] in Hgr.
    destruct (_ <? r_size x); [done|]. by injection Hgr as <- _. }
  destruct (if r_capacity x <? n then grow q x n f else Some (f, Some x)) as [[f1 r]|] eqn:Eg; [|done].
  specialize (Hg f1 r eq_refl). cbn [mbind option_bind]. destruct r as [x1|]; [|intros [= <- _ _]; by apply Hsame].
  intros Hw. repeat match goal with H : context [mbind _ ?o] |- _ => destruct o eqn:?; cbn [mbind option_bind] in H; [|done] end.
  injection Hw as <- _ _. destruct vino as [w|]; [|apply Hsame; by destruct (r_data x1)].
  destruct (decide (w = v)) as [->|Hne].
  - destruct (r_data x1); cbn; rewrite lookup_alter_eq, Hg; destruct (vinodes f !! v) as [i|]; cbn; try done; by eexists.
  - specialize (Hsame f1 Hg). destruct (r_data x1); cbn; rewrite lookup_alter_ne by done; exact Hsame.
Qed.

Lemma write_file_ok f C M r ns p x vino buf pos :
  fs_wf f C M → fs_root f = Some r → Forall name_ok ns → ns ≠ [] → resolve f r ns = Some p → inodes f !! p = Some x → S_ISDIR (r_mode x) = false →
  0 ≤ pos → pos + Z.of_nat (length buf) < 2 ^ 61 →
  ∃ f' pos' ret M' x', ramfs_write (Some p) vino buf pos f = Some (f', pos', ret) ∧ fs_wf f' C M' ∧ fs_root f' = Some r ∧
    resolve f' r ns = Some p ∧ inodes f' !! p = Some x' ∧ r_mode x' = r_mode x ∧ keeps_nodes f f' ∧
    ((ret = - ENOMEM ∧ pos' = pos ∧ ∀ ms, Forall name_ok ms → file_at f' ms = file_at f ms) ∨
     (ret = Z.of_nat (length buf) ∧ pos' = pos + ret ∧
      ∀ ms, Forall name_ok ms → file_at f' ms = if decide (ms = ns) then Some (false, splice pos buf (contents f x)) else file_at f ms)).
Proof.
  intros Hwf Hr Hns Hne Hp Hx Hdir Hpos Hend.
  destruct (write_ok f C M p x vino buf pos Hwf Hx Hpos Hend) as (f' & pos' & ret & E & [M' Hwf'] & Hr' & Hl & Hk & Hcase).
  rewrite Hr in Hr'. pose proof (λ ms, resolve_same f f' C M r ms Hwf Hr Hl) as Hres.
  destruct Hcase as [(-> & -> & Hkp)|(-> & -> & x' & Hx' & Hm & Hc)].
  - destruct (Hkp x Hx) as (x' & Hx' & Hm & _). exists f', pos, (- ENOMEM), M', x'. do 3 (split; [done|]). split; [by rewrite Hres|].
    split; [done|]. split; [done|]. destruct (rewritten_file f f' C M M' r ns p x x' Hwf Hwf' Hr Hr' Hns Hne Hp Hx Hx' Hm Hl Hk) as (_ & Hkn & _).
    split; [done|]. left. do 2 (split; [done|]). intros ms Hms. apply (file_at_ext f f' C C M M' r); try done. intros c _. destruct (decide (c = p)) as [->|]; [done|]. by apply Hk.
  - eexists f', _, _, M', x'. split; [exact E|]. do 2 (split; [done|]). split; [by rewrite Hres|]. split; [done|]. split; [done|].
    destruct (rewritten_file f f' C M M' r ns p x x' Hwf Hwf' Hr Hr' Hns Hne Hp Hx Hx' Hm Hl Hk) as (_ & Hkn & Hfile).
    split; [done|]. right. do 2 (split; [done|]). intros ms Hms.
    rewrite Hfile, Hdir, Hc by done. done.
Qed.

(** The size kept in a node is that of its contents. *)
Lemma node_contents_length f C M p x : fs_wf f C M → inodes f !! p = Some x → Z.of_nat (length (contents f x)) = r_size x ∧ r_size x < 2 ^ 62.
Proof.
  intros Hwf Hx. destruct (wf_inode _ _ _ Hwf p x Hx) as [_ Hd]. unfold data_ok, contents in *.
  destruct (r_data x) as [d|]; [|cbn; lia]. destruct Hd as (l & Hl & Hlen & Hsz & Hcap & _). rewrite Hl. change (default [] (Some l)) with l. rewrite length_take. lia.
Qed.

(** ramfs_unlink and ramfs_rmdir of a child [t] of the directory [d] of the
    kind they remove. *)
Lemma remove_node_ok f C M (isdir : bool) dir v r ns d n t x :
  fs_wf f C M → vinodes f !! dir = Some v → v_private v = Some d → fs_root f = Some r → resolve f r ns = Some d → Forall name_ok ns → name_ok n →
  look f d n = Some t → inodes f !! t = Some x → S_ISDIR (r_mode x) = isdir →
  ∃ f' ret, (if isdir then ramfs_rmdir else ramfs_unlink) dir n f = Some (f', ret) ∧
    ((ret = 0 ∧ vinodes f' = vinodes f ∧ fs_root f' = Some r ∧ (∃ C' M', fs_wf f' C' M') ∧
        ∀ ms, Forall name_ok ms → file_at f' ms = if decide (ms = ns ++ [n]) then None else file_at f ms) ∨
     (isdir = true ∧ ret = - ENOTEMPTY ∧ f' = f ∧ ∃ m, name_ok m ∧ file_at f (ns ++ [n; m]) ≠ None)).
Proof.
  intros Hwf Hv Hpr Hr Hd Hns Hn El Hx Hdir.
  assert (is_Some (inodes f !! d)) as Hdin by (by apply (look_in _ _ _ _ _ _ Hwf El)).
  assert (C t = [] → ∃ f', (f1 ← unlink_child d t f; ramfs_free_inode (Some t) f1) = Some f' ∧ vinodes f' = vinodes f ∧ fs_root f' = Some r ∧
    (∃ C' M', fs_wf f' C' M') ∧ ∀ ms, Forall name_ok ms → file_at f' ms = if decide (ms = ns ++ [n]) then None else file_at f ms) as Hrem.
  { intros HC. destruct (remove_leaf_ok f C M r ns n d t x Hwf Hr Hns Hn Hd El Hx HC) as (f' & C' & E & Hwf' & Hf).
    exists f'. split; [done|]. destruct (unlink_child d t f) as [f1|] eqn:Eu; [|done]. cbn [mbind option_bind] in E.
    assert (vinodes f1 = vinodes f ∧ fs_root f1 = fs_root f) as [Hv1 Hr1].
    { unfold unlink_child in Eu. destruct (inodes f !! d) as [xd|]; [|done]. cbn [mbind option_bind] in Eu. rewrite Hx in Eu. cbn [mbind option_bind] in Eu.
      case_bool_decide; [by injection Eu as <-|]. destruct (find_prev _ _ _ _) as [[c|]|]; [| |done]; by injection Eu as <-. }
    assert (vinodes f' = vinodes f1 ∧ fs_root f' = fs_root f1) as [Hv2 Hr2].
    { unfold ramfs_free_inode in E. destruct (inodes f1 !! t) as [y|]; [|done]. cbn [mbind option_bind] in E.
      repeat match goal with H : context [mbind _ ?o] |- _ => destruct o eqn:?; cbn [mbind option_bind] in H; [|done] end. by injection E as <-. }
    split; [congruence|]. split; [congruence|]. split; [eauto|done]. }
  assert (∀ g : ramfs H → option (ramfs H * Z), C t = [] →
    (∀ f0, g f0 = (f1 ← unlink_child d t f0; f2 ← ramfs_free_inode (Some t) f1; Some (f2, 0))) → ∃ f' ret, g f = Some (f', ret) ∧
      ((ret = 0 ∧ vinodes f' = vinodes f ∧ fs_root f' = Some r ∧ (∃ C' M', fs_wf f' C' M') ∧
        ∀ ms, Forall name_ok ms → file_at f' ms = if decide (ms = ns ++ [n]) then None else file_at f ms) ∨
       (isdir = true ∧ ret = - ENOTEMPTY ∧ f' = f ∧ ∃ m, name_ok m ∧ file_at f (ns ++ [n; m]) ≠ None))) as Hgo.
  { intros g HC Hg. destruct (Hrem HC) as (f' & E & Hrest). exists f', 0. rewrite Hg. destruct (unlink_child d t f) as [f1|]; [|done].
    cbn [mbind option_bind] in *. rewrite E. split; [done|]. by left. }
  unfold ramfs_rmdir, ramfs_unlink. destruct isdir; rewrite Hv; cbn [mbind option_bind]; rewrite Hpr; cbn [mbind option_bind];
    destruct (lookup_child_spec f C M d n Hwf Hdin) as [-> _]; rewrite El; cbn [mbind option_bind]; rewrite Hx; cbn [mbind option_bind]; rewrite Hdir; cbn [negb].
  2:{ apply (Hgo (λ f0, f1 ← unlink_child d t f0; f2 ← ramfs_free_inode (Some t) f1; Some (f2, 0))); [by eapply wf_leaf|done]. }
  pose proof (wf_chain _ _ _ Hwf t x Hx) as Hch. destruct (C t) as [|c' l'] eqn:EC.
  { rewrite Hch, bool_decide_false by (intros H0; by apply H0).
    by apply (Hgo (λ f0, f1 ← unlink_child d t f0; f2 ← ramfs_free_inode (Some t) f1; Some (f2, 0))). }
  destruct Hch as (Hc & y & Hy & _). rewrite bool_decide_true by congruence.
  exists f, (- ENOTEMPTY). split; [done|]. right. split; [done|]. split; [done|]. split; [done|].
  assert (c' ∈ C t) as Hc' by (rewrite EC; by apply elem_of_cons; left).
  destruct (wf_child _ _ _ Hwf t c' Hc') as (_ & y' & Hy' & _ & Hok). rewrite Hy in Hy'. injection Hy' as <-.
  exists (r_name y). split; [done|]. change [n; r_name y] with ([n] ++ [r_name y]). rewrite app_assoc.
  rewrite (file_at_look f C M r (ns ++ [n]) (r_name y) t); try done; [|apply Forall_app; split; [done|by constructor]|by rewrite resolve_snoc, Hd].
  assert (look f t (r_name y) = Some c') as ->.
  { apply (proj2 (lookup_child_spec f C M t (r_name y) Hwf ltac:(eauto)) c'). split; [done|]. eauto. }
  cbn. by rewrite Hy.
Qed.
End Node.

(** ** The state of the VFS *)

Section Vfs.
Context {H : Type} `{!KernelHeap H}.
Implicit Types (f : ramfs H) (s : vfs H).

(** The file system is well formed next to the allocations [K]. *)
Definition fs_wfK (K : gmap Z Z) f (C : Z → list Z) (M : gmap Z Z) : Prop := @fs_wf H (framed K) f C M.

Record vfs_wf s (C : Z → list Z) (K M : gmap Z Z) : Prop := {
  vw_fs : fs_wfK K (v_fs s) C M;
  vw_vinode v i : vinodes (v_fs s) !! v = Some i → v = ROOT_VINODE ∨ K !! v = Some sizeof_inode;
  vw_dentry p d : dentries s !! p = Some d → p = ROOT_DENTRY ∨ K !! p = Some sizeof_dentry;
  vw_file p x : files s !! p = Some x → K !! p = Some sizeof_file;
  vw_root : root_dentry s = Some ROOT_DENTRY;
  vw_rd : dentries s !! ROOT_DENTRY = Some (mk_dentry [SLASH] (Some ROOT_VINODE) (Some ROOT_DENTRY));
  vw_rv : ∃ r, fs_root (v_fs s) = Some r ∧ vinode_of (v_fs s) ROOT_VINODE r;
  vw_mount i m rd : mounts s !! i = Some (Some m) → mnt_root m = Some rd → is_Some (dentries s !! rd)
}.

Lemma fs_wf_move K f C M w n :
  fs_wfK K f C (<[w := n]> M) → M !! w = None → not_node f w → fs_wfK (<[w := n]> K) f C M.
Proof.
  intros [H1 H2 H3 H4 H5 H6 H7 H8 [Hd Hh]] Hw [Hni Hnd]. split; try done.
  - intros p x Hx. destruct (H7 p x Hx) as [Hp Hdat]. split; [by rewrite lookup_insert_ne in Hp by congruence|].
    unfold data_ok in *. destruct (r_data x) as [d|] eqn:Ed; [|done]. destruct Hdat as (l & ? & ? & ? & ? & HM). exists l.
    rewrite lookup_insert_ne in HM; [done|]. intros <-. by eapply Hnd.
  - apply map_disjoint_insert_r in Hd as [HKw Hd]. split; [by apply map_disjoint_insert_l|].
    by rewrite <- insert_union_l, insert_union_r.
Qed.

Lemma fs_wfK_heap K K' f C M h :
  fs_wfK K f C M → K' ##ₘ M → kh_inv h (K' ∪ M) → fs_wfK K' (with_heap h f) C M.
Proof. intros [H1 H2 H3 H4 H5 H6 H7 H8 H9] Hd Hh. by split. Qed.

Lemma heap_alloc_ok size flags s C K M :
  fs_wfK K (v_fs s) C M → 0 ≤ size →
  ∃ h r, kh_alloc size flags (fs_heap (v_fs s)) = Some (h, r) ∧
    match r with
    | None => fs_wfK K (with_heap h (v_fs s)) C M
    | Some p => 0 < p ∧ K !! p = None ∧ M !! p = None ∧ fs_wfK (<[p := size]> K) (with_heap h (v_fs s)) C M
    end.
Proof.
  intros Hwf Hs. destruct (wf_heap _ _ _ Hwf) as [Hd Hh].
  destruct (kh_alloc_ok (fs_heap (v_fs s)) (K ∪ M) size flags Hh Hs) as (h & r & E & Hr). exists h, r.
  split; [done|]. destruct r as [p|].
  - destruct Hr as (_ & Hp & HKM & Hh'). apply lookup_union_None in HKM as [HK HM]. split; [done|]. split; [done|]. split; [done|].
    apply (fs_wfK_heap K); [done|by apply map_disjoint_insert_l|]. by rewrite <- insert_union_l.
  - by apply (fs_wfK_heap K).
Qed.

Lemma kz_ok size s C K M :
  fs_wfK K (v_fs s) C M → 0 ≤ size →
  ∃ h r, kz size s = Some (with_fs (with_heap h (v_fs s)) s, r) ∧
    match r with
    | None => fs_wfK K (with_heap h (v_fs s)) C M
    | Some p => 0 < p ∧ K !! p = None ∧ M !! p = None ∧ fs_wfK (<[p := size]> K) (with_heap h (v_fs s)) C M
    end.
Proof.
  intros Hwf Hs. destruct (heap_alloc_ok size GFP_ZERO s C K M Hwf Hs) as (h & r & E & Hr). exists h, r. unfold kz. by rewrite E.
Qed.

Lemma kf_ok p n s C K M :
  fs_wfK K (v_fs s) C M → K !! p = Some n →
  ∃ h, kf p s = Some (with_fs (with_heap h (v_fs s)) s) ∧ fs_wfK (delete p K) (with_heap h (v_fs s)) C M.
Proof.
  intros Hwf HK. destruct (wf_heap _ _ _ Hwf) as [Hd Hh].
  destruct (kh_free_ok (fs_heap (v_fs s)) (K ∪ M) p n Hh) as (h & E & Hh'); [by apply lookup_union_Some_l|]. exists h.
  unfold kf. rewrite E. split; [done|]. apply (fs_wfK_heap K); [done|by apply map_disjoint_delete_l|].
  assert (M !! p = None) as HM by (by eapply map_disjoint_Some_l). by rewrite delete_union, (delete_id M) in Hh'.
Qed.

(** The tree, the mounts and everything that was allocated before are as they
    were. *)
Record ext s s' : Prop := {
  e_nodes : same_nodes (v_fs s) (v_fs s');
  e_mounts : mounts s' = mounts s;
  e_root : root_dentry s' = root_dentry s;
  e_files : files s' = files s;
  e_vinodes : vinodes (v_fs s) ⊆ vinodes (v_fs s');
  e_dentries : dentries s ⊆ dentries s'
}.

Lemma ext_refl s : ext s s.
Proof. by split. Qed.

Lemma ext_trans s1 s2 s3 : ext s1 s2 → ext s2 s3 → ext s1 s3.
Proof.
  intros [(A1 & A2 & A3) B C D E F] [(A1' & A2' & A3') B' C' D' E' F'].
  split; [split; [congruence|split; congruence]|congruence|congruence|congruence|by etransitivity|by etransitivity].
Qed.

Lemma ext_vinode s s' v p : ext s s' → vinode_of (v_fs s) v p → vinode_of (v_fs s') v p.
Proof.
  intros [(_ & Ei & _) _ _ _ Ev _] (i & Hi & Hp & Hx). exists i. split; [by eapply lookup_weaken|]. rewrite Ei. done.
Qed.

Lemma ext_file s s' ms : ext s s' → file_at (v_fs s') ms = file_at (v_fs s) ms.
Proof. intros He. apply same_nodes_file, He. Qed.

Lemma pinned_ext s s' p : mounts s' = mounts s → root_dentry s' = root_dentry s → pinned p s' = pinned p s.
Proof. intros Em Er. unfold pinned, dentry_is_mount_root. by rewrite Em, Er. Qed.

(** A dentry that is not in the table yet is not a mount root. *)
Lemma pinned_in p s C K M : vfs_wf s C K M → pinned p s = true → is_Some (dentries s !! p).
Proof.
  intros Hwf Hp. unfold pinned in Hp. apply orb_true_iff in Hp as [Hp|Hp].
  - apply bool_decide_eq_true in Hp. rewrite (vw_root _ _ _ _ Hwf) in Hp. injection Hp as <-. by rewrite (vw_rd _ _ _ _ Hwf).
  - unfold dentry_is_mount_root in Hp. apply existsb_exists in Hp as ([m|] & Hin & Hm); [|done]. apply bool_decide_eq_true in Hm.
    apply list_elem_of_In, list_elem_of_lookup in Hin as [i Hi]. by eapply (vw_mount _ _ _ _ Hwf).
Qed.

Lemma wf_heap_step s C K K' M h :
  vfs_wf s C K M → fs_wfK K' (with_heap h (v_fs s)) C M → (∀ p n, K !! p = Some n → K' !! p = Some n) →
  vfs_wf (with_fs (with_heap h (v_fs s)) s) C K' M.
Proof.
  intros [H1 H2 H3 H4 H5 H6 H7 H8] Hwf HK. split; try done.
  - intros v i Hi. destruct (H2 v i Hi); auto.
  - intros p d Hd. destruct (H3 p d Hd); auto.
  - intros p x Hx. eauto.
Qed.

Lemma new_dentry_ok name parent s C K M :
  vfs_wf s C K M →
  ∃ s' r, new_dentry name parent s = Some (s', r) ∧ ext s s' ∧
    match r with
    | None => vfs_wf s' C K M
    | Some p => 0 < p ∧ dentries s !! p = None ∧ K !! p = None ∧ vinodes (v_fs s') = vinodes (v_fs s) ∧
        dentries s' = <[p := mk_dentry (take NAME_MAX name) None parent]> (dentries s) ∧ vfs_wf s' C (<[p := sizeof_dentry]> K) M
    end.
Proof.
  intros Hwf. destruct (kz_ok sizeof_dentry s C K M (vw_fs _ _ _ _ Hwf)) as (h & r & E & Hr); [done|].
  unfold new_dentry. rewrite E. cbn [mbind option_bind]. destruct r as [p|].
  2:{ do 2 eexists. split; [reflexivity|]. split; [done|]. by apply (wf_heap_step s C K). }
  destruct Hr as (Hp & HK & HM & Hwf'). do 2 eexists. split; [reflexivity|].
  assert (dentries s !! p = None) as Hd.
  { destruct (dentries s !! p) as [d|] eqn:Ed; [|done]. destruct (vw_dentry _ _ _ _ Hwf p d Ed); [unfold ROOT_DENTRY in *; lia|congruence]. }
  split; [split; try done; by apply insert_subseteq|]. split; [done|]. split; [done|]. split; [done|]. split; [done|]. split; [done|].
  destruct (wf_heap_step s C K (<[p := sizeof_dentry]> K) M h Hwf Hwf') as [H1 H2 H3 H4 H5 H6 H7 H8].
  { intros q n Hq. rewrite lookup_insert_ne by congruence. done. }
  split; try done; cbn [dentries with_dentries].
  - intros q d Hq. destruct (decide (q = p)) as [->|Hne]; [right; by rewrite lookup_insert_eq|].
    rewrite lookup_insert_ne in Hq by done. by apply H3 in Hq.
  - rewrite lookup_insert_ne by (unfold ROOT_DENTRY in *; lia). done.
  - intros i m rd Hm Hrd. apply lookup_insert_is_Some. destruct (decide (p = rd)); [by left|right]. split; [done|]. by eapply H8.
Qed.

Lemma vinode_op s v p op : vinode_of (v_fs s) v p → i_op v s = Some RamOps ∧ can (Some v) op s = Some true.
Proof. intros (i & Hi & _). unfold can, i_op. rewrite Hi. done. Qed.

(** New VFS inodes are added next to the dentries. *)
Lemma wf_vinode s C K M f' w i :
  vfs_wf s C K M → same_nodes (v_fs s) f' → fs_wfK K f' C (<[w := sizeof_inode]> M) → not_node f' w → M !! w = None → 0 < w →
  vinodes f' = <[w := i]> (vinodes (v_fs s)) →
  K ⊆ <[w := sizeof_inode]> K ∧ vinodes (v_fs s) ⊆ vinodes f' ∧ vfs_wf (with_fs f' s) C (<[w := sizeof_inode]> K) M.
Proof.
  intros Hwf (Er & Ei & Eb) Hwf' Hnn HM Hw Ev. pose proof (wf_heap _ _ _ Hwf') as [Hdis _]. apply map_disjoint_insert_r in Hdis as [HKw _].
  assert (K ⊆ <[w := sizeof_inode]> K) as HK by by apply insert_subseteq. split; [done|].
  assert (vinodes (v_fs s) !! w = None) as Hvw.
  { destruct (vinodes (v_fs s) !! w) as [j|] eqn:Ej; [|done]. destruct (vw_vinode _ _ _ _ Hwf w j Ej); [unfold ROOT_VINODE in *; lia|congruence]. }
  split; [rewrite Ev; by apply insert_subseteq|]. destruct Hwf as [H1 H2 H3 H4 H5 H6 (r & Hr & j & Hj & Hx) H8]. split; try done.
  - by apply fs_wf_move.
  - cbn. rewrite Ev. intros v j' Hj'. destruct (decide (v = w)) as [->|Hne]; [right; by rewrite lookup_insert_eq|].
    rewrite lookup_insert_ne in Hj' by done. destruct (H2 v j' Hj') as [|Hk]; [by left|right]. by eapply lookup_weaken.
  - intros p d Hd. destruct (H3 p d Hd) as [|Hk]; [by left|right]. by eapply lookup_weaken.
  - intros p y Hy. eapply lookup_weaken; eauto.
  - cbn. exists r. split; [congruence|]. exists j. rewrite Ev, Ei, lookup_insert_ne by congruence. done.
Qed.

(** A change of one dentry that keeps the static root. *)
Lemma wf_dentry s C K M p d :
  vfs_wf s C K M → p ≠ ROOT_DENTRY → is_Some (dentries s !! p) → vfs_wf (with_dentries (<[p := d]> (dentries s)) s) C K M.
Proof.
  intros [H1 H2 H3 H4 H5 H6 H7 H8] Hp [d0 Hd0]. split; try done; cbn.
  - intros q e Hq. destruct (decide (q = p)) as [->|Hne]; [by apply (H3 p d0)|]. rewrite lookup_insert_ne in Hq by done. by eapply H3.
  - by rewrite lookup_insert_ne by done.
  - intros i m rd Hm Hrd. apply lookup_insert_is_Some. destruct (decide (p = rd)); [by left|right]. split; [done|]. by eapply H8.
Qed.

Lemma i_lookup_ok v q p d s C K M :
  vfs_wf s C K M → vinode_of (v_fs s) v q → dentries s !! p = Some d → d_inode d = None → p ≠ ROOT_DENTRY →
  ∃ s' o K', i_lookup v p s = Some s' ∧ vfs_wf s' C K' M ∧ K ⊆ K' ∧ same_nodes (v_fs s) (v_fs s') ∧ mounts s' = mounts s ∧
    root_dentry s' = root_dentry s ∧ files s' = files s ∧ vinodes (v_fs s) ⊆ vinodes (v_fs s') ∧
    dentries s' = <[p := mk_dentry (d_name d) o (d_parent d)]> (dentries s) ∧
    (o = None ∨ ∃ w c x, o = Some w ∧ look (v_fs s) q (d_name d) = Some c ∧ inodes (v_fs s) !! c = Some x ∧
       vinodes (v_fs s') !! w = Some (mk_inode (r_ino x) (r_mode x) (r_size x) (S_ISDIR (r_mode x)) (Some c))).
Proof.
  intros Hwf Hv Hd Hdi Hp. destruct (vinode_op s v q OpLookup Hv) as [Eop _]. destruct Hv as (i & Hi & Hpr & Hy).
  unfold i_lookup. rewrite Hd. cbn [mbind option_bind]. rewrite Eop. cbn [mbind option_bind].
  destruct (@lookup_ok H (framed K) (v_fs s) C M v i q (d_name d) (vw_fs _ _ _ _ Hwf) Hi Hpr Hy) as (f' & o & E & Hs & Ho).
  change (ramfs_lookup v (d_name d) (v_fs s) = Some (f', o)) in E. rewrite E. cbn [mbind option_bind].
  assert (p ≠ ROOT_DENTRY → dentries s = <[p := mk_dentry (d_name d) None (d_parent d)]> (dentries s)) as Eid.
  { intros _. symmetry. apply insert_id. rewrite Hd. f_equal. destruct d; cbn in *; congruence. }
  destruct o as [w|].
  - destruct Ho as (c & x & El & Hx & Hw & HM & Hnn & Hwf' & Ev & _).
    destruct (wf_vinode s C K M f' w _ Hwf Hs Hwf' Hnn HM Hw Ev) as (HK & Hvs & W).
    exists (set_inode p (Some w) (with_fs f' s)), (Some w), (<[w := sizeof_inode]> K). split; [done|].
    assert (alter (λ d0, mk_dentry (d_name d0) (Some w) (d_parent d0)) p (dentries s) = <[p := mk_dentry (d_name d) (Some w) (d_parent d)]> (dentries s)) as Ea.
    { apply map_eq. intros k. destruct (decide (k = p)) as [->|Hk]; [by rewrite lookup_alter_eq, Hd, lookup_insert_eq|by rewrite lookup_alter_ne, lookup_insert_ne]. }
    split. { unfold set_inode. cbn. rewrite Ea. apply (wf_dentry (with_fs f' s)); [done|done|cbn; eauto]. }
    split; [done|]. split; [done|]. do 3 (split; [done|]). split; [done|]. split; [cbn; by rewrite Ea|].
    right. exists w, c, x. split; [done|]. split; [done|]. split; [done|]. cbn. by rewrite Ev, lookup_insert_eq.
  - destruct Ho as (Ev & Hwf'). exists (with_fs f' s), None, K. split; [done|]. split.
    { destruct Hwf as [H1 H2 H3 H4 H5 H6 (r & Hr & j & Hj & Hx) H8]. destruct Hs as (Er & Ei & Eb). split; try done; cbn.
      - rewrite Ev. done.
      - exists r. split; [congruence|]. exists j. by rewrite Ev, Ei. }
    split; [done|]. split; [done|]. do 3 (split; [done|]). split; [cbn; by rewrite Ev|]. split; [by apply Eid|]. by left.
Qed.

(** ** Freeing dentries *)

Lemma free_one p d s C K M :
  vfs_wf s C K M → pinned p s = false → dentries s !! p = Some d → p ≠ ROOT_DENTRY →
  ∃ h, kf p s = Some (with_fs (with_heap h (v_fs s)) s) ∧
    vfs_wf (with_dentries (delete p (dentries s)) (with_fs (with_heap h (v_fs s)) s)) C (delete p K) M.
Proof.
  intros Hwf Hpin Hd Hp. destruct (vw_dentry _ _ _ _ Hwf p d Hd) as [|HK]; [done|].
  destruct (kf_ok p _ s C K M (vw_fs _ _ _ _ Hwf) HK) as (h & E & Hwf'). exists h. split; [done|].
  destruct Hwf as [H1 H2 H3 H4 H5 H6 H7 H8]. split; try done; cbn.
  - intros v i Hi. destruct (H2 v i Hi) as [|Hk]; [by left|right]. rewrite lookup_delete_ne; [done|]. intros ->. rewrite HK in Hk. done.
  - intros q e Hq. apply lookup_delete_Some in Hq as [Hne Hq]. destruct (H3 q e Hq); [by left|right]. by rewrite lookup_delete_ne.
  - intros q x Hq. rewrite lookup_delete_ne; [by eapply H4|]. intros ->. rewrite (H4 q x Hq) in HK. done.
  - by rewrite lookup_delete_ne by done.
  - intros i m rd Hm Hrd. destruct (decide (rd = p)) as [->|Hne]; [|rewrite lookup_delete_ne by done; by eapply H8].
    exfalso. apply not_true_iff_false in Hpin. apply Hpin. unfold pinned, dentry_is_mount_root. apply orb_true_iff. right.
    apply existsb_exists. exists (Some m). split; [apply list_elem_of_In, list_elem_of_lookup; eauto|by apply bool_decide_eq_true].
Qed.

(** The states that differ in the heap and the dentries only. *)
Definition only_dentries s s' (D : gmap Z dentry) : Prop := ∃ h, s' = with_dentries D (with_fs (with_heap h (v_fs s)) s).

Lemma free_leaf_ok p d s C K M :
  vfs_wf s C K M → dentries s !! p = Some d → d_parent d = None → p ≠ ROOT_DENTRY → pinned p s = false →
  ∃ s', vfs_free_dentry_chain p s = Some s' ∧ only_dentries s s' (delete p (dentries s)) ∧ vfs_wf s' C (delete p K) M.
Proof.
  intros Hwf Hd Hpar Hp Hpin. destruct (free_one p d s C K M Hwf Hpin Hd Hp) as (h & E & W).
  unfold vfs_free_dentry_chain. cbn [free_chain]. rewrite Hpin, Hd. cbn [mbind option_bind]. rewrite E. cbn [mbind option_bind]. rewrite Hpar.
  eexists. split; [reflexivity|]. split; [by exists h|done].
Qed.

(** A child and its parent, which is pinned or was allocated for this call. *)
Lemma free_child_ok p d q s C K M :
  vfs_wf s C K M → dentries s !! p = Some d → d_parent d = Some q → p ≠ q → p ≠ ROOT_DENTRY → pinned p s = false →
  (pinned q s = false → q ≠ ROOT_DENTRY ∧ ∃ e, dentries s !! q = Some e ∧ d_parent e = None) →
  ∃ s' K', vfs_free_dentry_chain p s = Some s' ∧
    only_dentries s s' (if pinned q s then delete p (dentries s) else delete q (delete p (dentries s))) ∧ vfs_wf s' C K' M ∧
    (pinned q s = true → K' = delete p K).
Proof.
  intros Hwf Hd Hpar Hpq Hp Hpin Hq. destruct (free_one p d s C K M Hwf Hpin Hd Hp) as (h & E & W).
  unfold vfs_free_dentry_chain. cbn [free_chain]. rewrite Hpin, Hd. cbn [mbind option_bind]. rewrite E. cbn [mbind option_bind]. rewrite Hpar.
  destruct (Z.eqb_spec q p); [congruence|]. set (s1 := with_dentries _ _) in *.
  assert (∀ fuel, free_chain (S fuel) q s1 = if pinned q s then Some s1 else free_chain (S fuel) q s1) as Hstep.
  { intros fuel. destruct (pinned q s) eqn:Eq; [|done]. cbn [free_chain]. by rewrite (pinned_ext s s1) by done; rewrite Eq. }
  assert (∃ k, size (dentries s) = S k) as [k ->].
  { destruct (size (dentries s)) as [|k] eqn:Es; [|eauto]. apply map_size_empty_inv in Es. rewrite Es, lookup_empty in Hd. done. }
  rewrite Hstep. destruct (pinned q s) eqn:Epq.
  { exists s1, (delete p K). split; [done|]. split; [by exists h|]. by split. }
  destruct (Hq eq_refl) as (Hqr & e & He & Hep).
  assert (dentries s1 !! q = Some e) as He1 by (cbn; by rewrite lookup_delete_ne).
  assert (pinned q s1 = false) as Epq1 by (by rewrite (pinned_ext s s1)).
  destruct (free_one q e s1 C (delete p K) M W Epq1 He1 Hqr) as (h2 & E2 & W2).
  cbn [free_chain]. rewrite Epq1, He1. cbn [mbind option_bind]. rewrite E2. cbn [mbind option_bind]. rewrite Hep.
  eexists _, _. split; [reflexivity|]. split; [by exists h2|]. by split.
Qed.

(** ** Walking to the parent *)

Lemma span_component_ok n rest :
  Forall (λ c, c ≠ SLASH) n → rest = [] ∨ (∃ r, rest = SLASH :: r) → span_component (n ++ rest) = (n, rest).
Proof.
  intros Hn Hr. induction Hn as [|c n Hc Hn IH]; cbn [app span_component].
  - destruct Hr as [->|[r ->]]; [done|]. cbn. done.
  - destruct (Z.eqb_spec c SLASH); [done|]. by rewrite IH.
Qed.

Lemma next_component_join n ms :
  name_ok n → Forall name_ok ms → ∃ rest, next_component (join (n :: ms)) = (n, rest) ∧ skip_slashes rest = join ms.
Proof.
  intros (Hne & Hs & Hl) Hms. unfold next_component. assert (take NAME_MAX n = n) as Et by (unfold NAME_MAX, RAMFS_MAX_NAME in *; apply take_ge; lia).
  cbn [join]. destruct ms as [|m ms].
  - exists []. rewrite span_component_ok by auto. by rewrite Et.
  - exists (SLASH :: join (m :: ms)). rewrite span_component_ok by eauto. rewrite Et. split; [done|].
    cbn [skip_slashes]. rewrite Z.eqb_refl. by apply skip_join_all.
Qed.

(** A dentry the call owns, or one it must not free. *)
Definition local s0 (p : Z) (d : dentry) s : Prop :=
  pinned p s = true ∨ (pinned p s = false ∧ p ≠ ROOT_DENTRY ∧ dentries s0 !! p = None ∧ d_parent d = None).

Lemma local_ext s0 p d s s' : local s0 p d s → mounts s' = mounts s → root_dentry s' = root_dentry s → local s0 p d s'.
Proof. intros Hl Em Er. unfold local. by rewrite (pinned_ext s s'). Qed.

Lemma ext_delete s0 s s' p : ext s0 s → dentries s0 !! p = None → only_dentries s s' (delete p (dentries s)) → ext s0 s'.
Proof. intros [A B C D E F] Hp [h ->]. split; try done. cbn. rewrite <- (delete_id (dentries s0) p) by done. by apply delete_mono. Qed.

Lemma ext_insert s0 s s' p d :
  ext s0 s → dentries s0 !! p = None → same_nodes (v_fs s) (v_fs s') → mounts s' = mounts s → root_dentry s' = root_dentry s →
  files s' = files s → vinodes (v_fs s) ⊆ vinodes (v_fs s') → dentries s' = <[p := d]> (dentries s) → ext s0 s'.
Proof.
  intros [(A1 & A2 & A3) B C D E F] Hp (A1' & A2' & A3') Em Er Ef Ev Ed. split.
  - split; [congruence|split; congruence].
  - congruence.
  - congruence.
  - congruence.
  - by etransitivity.
  - rewrite Ed. by apply insert_subseteq_r.
Qed.

Lemma free_local_ok s0 p d s C K M :
  vfs_wf s C K M → ext s0 s → dentries s !! p = Some d → local s0 p d s →
  ∃ s' K', vfs_free_dentry_chain p s = Some s' ∧ ext s0 s' ∧ vfs_wf s' C K' M.
Proof.
  intros Hwf He Hd [Hpin|(Hpin & Hp & H0 & Hpar)].
  - exists s, K. unfold vfs_free_dentry_chain. cbn [free_chain]. rewrite Hpin. done.
  - destruct (free_leaf_ok p d s C K M Hwf Hd Hpar Hp Hpin) as (s' & E & Ho & W). exists s', (delete p K).
    split; [done|]. split; [by eapply ext_delete|done].
Qed.

Lemma not_pinned_fresh s s' C K M p : vfs_wf s C K M → dentries s !! p = None → mounts s' = mounts s → root_dentry s' = root_dentry s → pinned p s' = false.
Proof.
  intros Hwf Hp Em Er. rewrite (pinned_ext s s') by done. destruct (pinned p s) eqn:E; [|done].
  destruct (pinned_in p s C K M Hwf E) as [d Hd]. congruence.
Qed.

Lemma parent_loop_ok s0 C M n : name_ok n → ∀ ns fuel curr d v q s K,
  Forall name_ok ns → (length ns < fuel)%nat → vfs_wf s C K M → ext s0 s → dentries s !! curr = Some d → d_inode d = Some v →
  vinode_of (v_fs s) v q → local s0 curr d s →
  ∃ s' r K', parent_loop fuel curr (join (ns ++ [n])) s = Some (s', r) ∧ ext s0 s' ∧ vfs_wf s' C K' M ∧
    match r with
    | None => True
    | Some (p, name) => name = n ∧ ∃ d' v' q', dentries s' !! p = Some d' ∧ d_inode d' = Some v' ∧ vinode_of (v_fs s') v' q' ∧
        local s0 p d' s' ∧ resolve (v_fs s0) q ns = Some q'
    end.
Proof.
  intros Hn. induction ns as [|m ns IH]; intros fuel curr d v q s K Hns Hf Hwf He Hd Hdi Hv Hloc; (destruct fuel as [|fuel]; [lia|]); cbn [parent_loop].
  { destruct (next_component_join n [] Hn ltac:(constructor)) as (rest & Enc & Hskip). change (join ([] ++ [n])) with (join [n]). rewrite Enc, Hskip. cbn [join].
    exists s, (Some (curr, n)), K. split; [done|]. split; [done|]. split; [done|]. split; [done|]. exists d, v, q. done. }
  inversion_clear Hns as [|? ? Hm Hns']. assert (Forall name_ok (ns ++ [n])) as Hnn by (apply Forall_app; split; [done|by constructor]).
  destruct (next_component_join m (ns ++ [n]) Hm Hnn) as (rest & Enc & Hskip). cbn [app]. rewrite Enc, Hskip.
  assert (∃ c0 l0, join (ns ++ [n]) = c0 :: l0) as (c0 & l0 & Ej).
  { destruct ns as [|a ns2]; [by apply join_cons_ne|]. inversion_clear Hns'. by apply join_cons_ne. }
  rewrite Ej, <- Ej, Hd. cbn [mbind option_bind]. rewrite Hdi. destruct (vinode_op s v q OpLookup Hv) as [_ ->]. cbn [mbind option_bind negb].
  destruct (new_dentry_ok m None s C K M Hwf) as (s1 & r & -> & He1 & Hr). cbn [mbind option_bind].
  pose proof (ext_trans _ _ _ He He1) as He01. destruct r as [child|].
  2:{ assert (dentries s1 !! curr = Some d) as Hd1 by (eapply lookup_weaken; [done|apply He1]).
      destruct (free_local_ok s0 curr d s1 C K M Hr He01 Hd1) as (s' & K' & -> & He' & W'); [eapply local_ext; [done|apply He1..]|].
      exists s', None, K'. done. }
  destruct Hr as (Hc & Hdc & HKc & Ev1 & Ed1 & W1). assert (take NAME_MAX m = m) as Et.
  { destruct Hm as (_ & _ & Hl). unfold NAME_MAX, RAMFS_MAX_NAME in *. apply take_ge. lia. }
  rewrite Et in Ed1. assert (child ≠ ROOT_DENTRY) as Hcr by (unfold ROOT_DENTRY; lia).
  assert (dentries s0 !! child = None) as H0c.
  { destruct (dentries s0 !! child) eqn:E0; [|done]. by rewrite (lookup_weaken _ _ _ _ E0 (e_dentries _ _ He)) in Hdc. }
  destruct (i_lookup_ok v q child (mk_dentry m None None) s1 C _ M W1 (ext_vinode _ _ _ _ He1 Hv)) as (s2 & o & K2 & -> & W2 & HK2 & Hs2 & Em2 & Er2 & Ef2 & Ev2 & Ed2 & Ho);
    [rewrite Ed1; apply lookup_insert_eq|done|done|]. cbn [mbind option_bind d_name d_parent] in *.
  assert (ext s0 s2) as He2 by (by eapply ext_insert).
  assert (pinned child s2 = false) as Hpin2 by (eapply not_pinned_fresh; [exact Hwf|done|rewrite Em2; apply He1|rewrite Er2; apply He1]).
  assert (∀ o', local s0 child (mk_dentry m o' None) s2) as Hlc by (intros o'; right; done).
  assert (dentries s2 !! child = Some (mk_dentry m o None)) as Hdc2 by (rewrite Ed2; apply lookup_insert_eq). rewrite Hdc2. cbn [mbind option_bind d_inode].
  destruct o as [w|].
  2:{ destruct (free_local_ok s0 child _ s2 C K2 M W2 He2 Hdc2 (Hlc None)) as (s' & K' & -> & He' & W'). exists s', None, K'. done. }
  destruct Ho as [|(w' & c & x & [= <-] & El & Hx & Hvi)]; [done|].
  assert (vinode_of (v_fs s2) w c) as Hvc.
  { destruct Hs2 as (_ & Ei2 & _). eexists. rewrite Ei2. split; [exact Hvi|]. split; [done|]. eauto. }
  destruct (IH fuel child (mk_dentry m (Some w) None) w c s2 K2) as (s' & r & K' & E & He' & W' & Hr); try done; [cbn in Hf; lia|].
  exists s', r, K'. split; [done|]. split; [done|]. split; [done|]. destruct r as [[p name]|]; [|done].
  destruct Hr as (-> & d' & v' & q' & ? & ? & ? & ? & Hres). split; [done|]. exists d', v', q'. do 4 (split; [done|]).
  rewrite resolve_cons. assert (look (v_fs s0) q m = Some c) as ->; [|done].
  rewrite <- El. symmetry. apply look_same_inodes. by destruct (e_nodes _ _ He01) as (_ & ? & _).
Qed.

(** No other file system is mounted on the way to [path]. *)
Definition plain (path : list Z) s : Prop :=
  ∀ m, mounted s m → below (mnt_target m) path → mnt_root m = Some ROOT_DENTRY ∧ mnt_target m = [SLASH].

Lemma plain_root ms s :
  Forall name_ok ms → root_dentry s = Some ROOT_DENTRY → plain (path_of ms) s →
  ∃ rest, resolve_path_root (path_of ms) s = (Some ROOT_DENTRY, rest) ∧ skip_slashes rest = join ms.
Proof.
  intros Hms Hr Hpl. assert (skip_slashes (path_of ms) = join ms) as Hsk.
  { unfold path_of. cbn [skip_slashes]. rewrite Z.eqb_refl. by apply skip_join_all. }
  unfold resolve_path_root. pose proof (find_mount_best (path_of ms) s) as Hb.
  destruct (find_mount_for_path (path_of ms) s) as [[m len]|]; [|by exists (path_of ms); rewrite Hr].
  destruct Hb as (Hin & Hroot & Hbel & -> & _). destruct (Hpl m ltac:(done) Hbel) as [Hmr ->]. rewrite Hmr.
  eexists. split; [reflexivity|]. unfold path_of. change (drop (length [SLASH]) (SLASH :: join ms)) with (join ms). by rewrite !skip_join_all.
Qed.

Lemma root_vinode s C K M : vfs_wf s C K M → ∃ r, fs_root (v_fs s) = Some r ∧ vinode_of (v_fs s) ROOT_VINODE r.
Proof. intros Hwf. apply Hwf. Qed.

Lemma lookup_parent_ok s C K M r ns n :
  vfs_wf s C K M → fs_root (v_fs s) = Some r → Forall name_ok ns → name_ok n → plain (path_of (ns ++ [n])) s →
  ∃ s' o K', vfs_lookup_parent (path_of (ns ++ [n])) s = Some (s', o) ∧ ext s s' ∧ vfs_wf s' C K' M ∧
    match o with
    | None => True
    | Some (p, name) => name = n ∧ ∃ d v q, dentries s' !! p = Some d ∧ d_inode d = Some v ∧ vinode_of (v_fs s') v q ∧
        local s p d s' ∧ resolve (v_fs s) r ns = Some q
    end.
Proof.
  intros Hwf Hr Hns Hn Hpl. assert (Forall name_ok (ns ++ [n])) as Hnn by (apply Forall_app; split; [done|by constructor]).
  unfold vfs_lookup_parent. rewrite (vw_root _ _ _ _ Hwf).
  destruct (plain_root (ns ++ [n]) s Hnn (vw_root _ _ _ _ Hwf) Hpl) as (rest & -> & Hsk). rewrite Hsk.
  assert (∃ c0 l0, join (ns ++ [n]) = c0 :: l0) as (c0 & l0 & Ej).
  { destruct ns as [|a ns2]; [by apply join_cons_ne|]. inversion_clear Hns. by apply join_cons_ne. }
  rewrite Ej, <- Ej. destruct (vw_rv _ _ _ _ Hwf) as (r' & Hr' & Hv). assert (r' = r) as -> by congruence.
  apply (parent_loop_ok s C M n Hn ns _ ROOT_DENTRY (mk_dentry [SLASH] (Some ROOT_VINODE) (Some ROOT_DENTRY)) ROOT_VINODE r s K Hns); try done.
  - pose proof (join_length (ns ++ [n]) Hnn) as Hl. rewrite length_app in Hl. cbn in Hl. lia.
  - apply (vw_rd _ _ _ _ Hwf).
  - left. unfold pinned. rewrite (vw_root _ _ _ _ Hwf), bool_decide_eq_true_2 by done. done.
Qed.

(** ** Creating *)

(** The map from paths to files is as before; as before but at one path. *)
Definition unchanged s s' : Prop := ∀ ms, Forall name_ok ms → file_at (v_fs s') ms = file_at (v_fs s) ms.
Definition updated s s' (path : list (list Z)) (x : option (bool * list Z)) : Prop :=
  ∀ ms, Forall name_ok ms → file_at (v_fs s') ms = if decide (ms = path) then x else file_at (v_fs s) ms.

Lemma ext_unchanged s s' : ext s s' → unchanged s s'.
Proof. intros He ms _. by apply ext_file. Qed.

Lemma updated_pre s s1 s2 path x : unchanged s s1 → updated s1 s2 path x → updated s s2 path x.
Proof. intros H1 H2 ms Hms. rewrite H2 by done. case_decide; [done|]. by apply H1. Qed.

Lemma unchanged_trans s s1 s2 : unchanged s s1 → unchanged s1 s2 → unchanged s s2.
Proof. intros H1 H2 ms Hms. rewrite H2 by done. by apply H1. Qed.

Lemma updated_post s s1 s2 path x : updated s s1 path x → unchanged s1 s2 → updated s s2 path x.
Proof. intros H1 H2 ms Hms. rewrite H2 by done. by apply H1. Qed.

Lemma only_dentries_unchanged s s' D : only_dentries s s' D → unchanged s s'.
Proof. intros [h ->] ms _. apply same_nodes_file. done. Qed.

(** The file system below is replaced; the VFS inodes grow. *)
Lemma wf_new_fs s C K M f' C' K' M' r :
  vfs_wf s C K M → fs_root (v_fs s) = Some r → fs_root f' = Some r → fs_wfK K' f' C' M' → K ⊆ K' → vinodes (v_fs s) ⊆ vinodes f' →
  (∀ v i, vinodes f' !! v = Some i → v = ROOT_VINODE ∨ K' !! v = Some sizeof_inode) → vfs_wf (with_fs f' s) C' K' M'.
Proof.
  intros [H1 H2 H3 H4 H5 H6 (r' & Hr' & j & Hj & Hp & Hx) H8] Hr Hrf Hwf HK Hv Hvk. assert (r' = r) as -> by congruence. split; try done; cbn.
  - intros p d Hd. destruct (H3 p d Hd); [by left|right]. by eapply lookup_weaken.
  - intros p x Hf. eapply lookup_weaken; eauto.
  - exists r. split; [done|]. exists j. split; [by eapply lookup_weaken|]. split; [done|].
    destruct (root_in _ _ _ _ Hwf Hrf) as (x & Hx' & _). eauto.
Qed.

(** The directory [d] that the names [ns] lead to. *)
Record is_parent f (r : Z) (ns : list (list Z)) (d : Z) (xd : ramfs_inode) : Prop := {
  ip_root : fs_root f = Some r;
  ip_path : resolve f r ns = Some d;
  ip_node : inodes f !! d = Some xd;
  ip_dir : S_ISDIR (r_mode xd) = true;
  ip_names : Forall name_ok ns
}.

Lemma parent_of s C K M ns c :
  vfs_wf s C K M → Forall name_ok ns → file_at (v_fs s) ns = Some (true, c) → ∃ r d xd, is_parent (v_fs s) r ns d xd.
Proof.
  intros Hwf Hns Hf. destruct (vw_rv _ _ _ _ Hwf) as (r & Hr & _).
  destruct (file_at_dir _ _ _ _ _ _ (vw_fs _ _ _ _ Hwf) Hr Hns Hf) as (d & xd & ? & ? & ?). by exists r, d, xd.
Qed.

Lemma parent_ext s s' r ns d xd : same_nodes (v_fs s) (v_fs s') → is_parent (v_fs s) r ns d xd → is_parent (v_fs s') r ns d xd.
Proof.
  intros Hs [H1 H2 H3 H4 H5]. pose proof Hs as (Er & Ei & _). split; try done; [congruence| |congruence]. by rewrite (same_nodes_resolve (v_fs s)).
Qed.

Lemma file_at_child s C K M r ns d xd n :
  vfs_wf s C K M → is_parent (v_fs s) r ns d xd → name_ok n →
  file_at (v_fs s) (ns ++ [n]) = look (v_fs s) d n ≫= λ c, x ← inodes (v_fs s) !! c; Some (S_ISDIR (r_mode x), contents (v_fs s) x).
Proof. intros Hwf [H1 H2 H3 H4 H5] Hn. by apply (file_at_look _ C M r ns n d (vw_fs _ _ _ _ Hwf)). Qed.

Lemma i_make_ok (isdir : bool) v p d0 mode s C K M r ns d xd n :
  vfs_wf s C K M → vinode_of (v_fs s) v d → is_parent (v_fs s) r ns d xd → name_ok n → 0 ≤ mode < 4096 →
  dentries s !! p = Some d0 → d_name d0 = n → d_inode d0 = None → p ≠ ROOT_DENTRY →
  ∃ s' ret o C' K' M', i_make isdir v p mode s = Some (s', ret) ∧ vfs_wf s' C' K' M' ∧ mounts s' = mounts s ∧ root_dentry s' = root_dentry s ∧
    files s' = files s ∧ dentries s' = <[p := mk_dentry n o (d_parent d0)]> (dentries s) ∧ keeps (v_fs s) (v_fs s') ∧
    match file_at (v_fs s) (ns ++ [n]) with
    | Some _ => ret = - EEXIST ∧ o = None ∧ unchanged s s'
    | None =>
        (ret = - ENOMEM ∧ o = None ∧ (unchanged s s' ∨ updated s s' (ns ++ [n]) (Some (isdir, [])))) ∨
        (ret = 0 ∧ updated s s' (ns ++ [n]) (Some (isdir, [])) ∧ ∃ w c x, o = Some w ∧ fs_root (v_fs s') = Some r ∧ resolve (v_fs s') r (ns ++ [n]) = Some c ∧
           inodes (v_fs s') !! c = Some x ∧ r_mode x = Z.lor (if isdir then S_IFDIR else S_IFREG) mode ∧ r_size x = 0 ∧
           vinodes (v_fs s') !! w = Some (mk_inode (r_ino x) (r_mode x) 0 isdir (Some c)))
    end.
Proof.
  intros Hwf (i & Hi & Hpr & Hin) Hpar Hn Hmode Hd <- Hdi Hp. pose proof Hpar as [Hr Hres Hxd Hdir Hns]. set (n := d_name d0) in *.
  set (type := if isdir then S_IFDIR else S_IFREG).
  assert (S_ISDIR (Z.lor type mode) = isdir) as Ht by (unfold type; destruct isdir; [by apply dir_is_dir|by apply reg_not_dir]).
  destruct (@make_node_ok H (framed K) (v_fs s) C M type mode isdir v i r ns d xd n (vw_fs _ _ _ _ Hwf) Hi Hpr Hr Hres Hxd Hdir Hns Hn Ht)
    as (f' & ret & o & E & Hcase).
  assert ((if isdir then ramfs_mkdir else ramfs_create) v n mode (v_fs s) = Some (f', ret, o)) as E' by (destruct isdir; exact E).
  unfold i_make. rewrite Hd. cbn [mbind option_bind]. fold n. rewrite E'. cbn [mbind option_bind].
  rewrite (file_at_child s C K M r ns d xd n Hwf Hpar Hn).
  assert (∀ f1 o1, v_fs (set_inode p o1 (with_fs f1 s)) = f1 ∧ mounts (set_inode p o1 (with_fs f1 s)) = mounts s ∧
    root_dentry (set_inode p o1 (with_fs f1 s)) = root_dentry s ∧ files (set_inode p o1 (with_fs f1 s)) = files s ∧
    dentries (set_inode p o1 (with_fs f1 s)) = <[p := mk_dentry n o1 (d_parent d0)]> (dentries s)) as Hset.
  { intros f1 [w|]; cbn; (do 4 (split; [done|])).
    - apply map_eq. intros k. destruct (decide (k = p)) as [->|Hk]; [by rewrite lookup_alter_eq, Hd, lookup_insert_eq|by rewrite lookup_alter_ne, lookup_insert_ne].
    - symmetry. apply insert_id. rewrite Hd. f_equal. unfold n. destruct d0; cbn in *; congruence. }
  assert (∀ f1 o1 C1 K1 M1, vfs_wf (with_fs f1 s) C1 K1 M1 → vfs_wf (set_inode p o1 (with_fs f1 s)) C1 K1 M1) as Hsetwf.
  { intros f1 [w|] C1 K1 M1 W; [|done]. destruct (Hset f1 (Some w)) as (_ & _ & _ & _ & Ed). unfold set_inode in *. cbn in Ed |- *. rewrite Ed.
    apply (wf_dentry (with_fs f1 s)); [done|done|cbn; eauto]. }
  destruct (Hset f' o) as (Ef & Em & Er & Efl & Ed).
  assert (∃ C' K' M', vfs_wf (with_fs f' s) C' K' M' ∧ keeps (v_fs s) f') as (C' & K' & M' & W & Hkp).
  { destruct (look (v_fs s) d n) as [e|]; [destruct Hcase as (_ & _ & ->); exists C, K, M; split; [by destruct s|apply keeps_refl]|].
    destruct Hcase as [(_ & _ & Hs & Ev & Hwf')|(C' & M' & q & x & Hr' & _ & _ & _ & _ & Hkn & _ & Ho)].
    { exists C, K, M. split; [|apply keeps_more; [by apply same_nodes_keep|by rewrite Ev]]. destruct Hs as (Er' & _). apply (wf_new_fs s C K M f' C K M r); try done; [congruence|by rewrite Ev|rewrite Ev; apply Hwf]. }
    destruct o as [w|].
    - destruct Ho as (_ & Hw & HM & Hnn & Hwf' & Ev). pose proof (wf_heap _ _ _ Hwf') as [Hdis _]. apply map_disjoint_insert_r in Hdis as [HKw _].
      assert (vinodes (v_fs s) !! w = None) as Hvw.
      { destruct (vinodes (v_fs s) !! w) as [j|] eqn:Ej; [|done]. destruct (vw_vinode _ _ _ _ Hwf w j Ej); [unfold ROOT_VINODE in *; lia|congruence]. }
      exists C', (<[w := sizeof_inode]> K), M'. assert (vinodes (v_fs s) ⊆ vinodes f') as Hvs by (rewrite Ev; by apply insert_subseteq).
      split; [|by apply keeps_more]. apply (wf_new_fs s C K M f' C' _ M' r); try done.
      + by apply fs_wf_move.
      + by apply insert_subseteq.
      + rewrite Ev. intros k j Hk. destruct (decide (k = w)) as [->|Hne]; [right; by rewrite lookup_insert_eq|].
        rewrite lookup_insert_ne in Hk by done. destruct (vw_vinode _ _ _ _ Hwf k j Hk); [by left|right]. by rewrite lookup_insert_ne.
    - destruct Ho as (_ & Ev & Hwf'). exists C', K, M'. split; [|apply keeps_more; [done|by rewrite Ev]].
      apply (wf_new_fs s C K M f' C' K M' r); try done; [by rewrite Ev|rewrite Ev; apply Hwf]. }
  exists (set_inode p o (with_fs f' s)), ret, o, C', K', M'. split; [done|]. split; [by apply Hsetwf|]. do 4 (split; [done|]). split; [by rewrite Ef|].
  unfold unchanged, updated. rewrite Ef. destruct (look (v_fs s) d n) as [e|] eqn:El.
  { destruct (look_in _ _ _ _ _ _ (vw_fs _ _ _ _ Hwf) El) as [_ [y Hy]]. cbn [mbind option_bind]. rewrite Hy. cbn [mbind option_bind].
    destruct Hcase as (-> & -> & ->). done. }
  cbn [mbind option_bind].
  destruct Hcase as [(-> & -> & Hs & _)|(C1 & M1 & q & x & Hr' & Hres' & Hx & Hm & Hsz & _ & Hfile & Ho)].
  { left. split; [done|]. split; [done|]. left. intros ms _. by apply same_nodes_file. }
  destruct o as [w|].
  - destruct Ho as (-> & _ & _ & _ & _ & Ev). right. split; [done|]. split; [done|]. exists w, q, x. do 6 (split; [done|]).
    by rewrite Ev, lookup_insert_eq.
  - destruct Ho as (-> & _). left. split; [done|]. split; [done|]. by right.
Qed.

(** The child dentry of a call, and its release together with the parent. *)
Lemma free_pair_ok s0 p dp child dc s C K M :
  vfs_wf s C K M → dentries s0 !! child = None → pinned child s = false → child ≠ ROOT_DENTRY → child ≠ p →
  dentries s !! child = Some dc → d_parent dc = Some p → dentries s !! p = Some dp → local s0 p dp s →
  ∃ s' K', vfs_free_dentry_chain child s = Some s' ∧ unchanged s s' ∧ mounts s' = mounts s ∧ root_dentry s' = root_dentry s ∧ files s' = files s ∧ vfs_wf s' C K' M.
Proof.
  intros Hwf H0 Hpin Hr Hne Hc Hpar Hp Hloc.
  destruct (free_child_ok child dc p s C K M Hwf Hc Hpar Hne Hr Hpin) as (s' & K' & E & Ho & W & _).
  { intros Hpp. destruct Hloc as [|(_ & ? & _ & ?)]; [congruence|]. eauto. }
  exists s', K'. split; [done|]. split; [by eapply only_dentries_unchanged|]. destruct Ho as [h ->]. done.
Qed.

(** What creating a file or a directory at the path [ns ++ [n]] does. *)
Definition make_spec (isdir : bool) (path : list (list Z)) s s' (ret : Z) : Prop :=
  (ret = 0 ∧ file_at (v_fs s) path = None ∧ updated s s' path (Some (isdir, []))) ∨
  (ret ≠ 0 ∧ unchanged s s' ∧ (ret = - EEXIST → file_at (v_fs s) path ≠ None)) ∨
  (ret = - ENOMEM ∧ file_at (v_fs s) path = None ∧ updated s s' path (Some (isdir, []))).

Lemma make_ok isdir s C K M ns n mode c :
  vfs_wf s C K M → Forall name_ok ns → name_ok n → plain (path_of (ns ++ [n])) s → file_at (v_fs s) ns = Some (true, c) → 0 ≤ mode < 4096 →
  ∃ s' ret C' K' M', vfs_make isdir (path_of (ns ++ [n])) mode s = Some (s', ret) ∧ vfs_wf s' C' K' M' ∧ mounts s' = mounts s ∧ files s' = files s ∧
    make_spec isdir (ns ++ [n]) s s' ret.
Proof.
  intros Hwf Hns Hn Hpl Hdir Hmode. destruct (parent_of s C K M ns c Hwf Hns Hdir) as (r & d & xd & Hpar).
  destruct (lookup_parent_ok s C K M r ns n Hwf (ip_root _ _ _ _ _ Hpar) Hns Hn Hpl) as (s1 & o & K1 & E1 & He1 & W1 & Ho).
  unfold vfs_make. rewrite E1. cbn [mbind option_bind]. destruct o as [[p name]|].
  2:{ exists s1, (- ENOENT), C, K1, M. split; [done|]. split; [done|]. split; [apply He1|]. split; [apply He1|]. right. left. split; [done|]. split; [by apply ext_unchanged|done]. }
  destruct Ho as (-> & dp & v & q & Hdp & Hdi & Hv & Hloc & Hq). assert (q = d) as -> by (pose proof (ip_path _ _ _ _ _ Hpar); congruence).
  destruct n as [|n0 nt] eqn:En; [by destruct Hn|]. rewrite <- En in *. clear En n0 nt.
  destruct (new_dentry_ok n (Some p) s1 C K1 M W1) as (s2 & o & -> & He2 & Ho). cbn [mbind option_bind].
  pose proof (ext_trans _ _ _ He1 He2) as He02. assert (dentries s2 !! p = Some dp) as Hdp2 by (eapply lookup_weaken; [done|apply He2]).
  assert (local s p dp s2) as Hloc2 by (eapply local_ext; [done|apply He2..]). destruct o as [child|].
  2:{ destruct (free_local_ok s p dp s2 C K1 M Ho He02 Hdp2 Hloc2) as (s3 & K3 & -> & He3 & W3). cbn [mbind option_bind].
      exists s3, (- ENOMEM), C, K3, M. split; [done|]. split; [done|]. split; [apply He3|]. split; [apply He3|]. right. left. split; [done|]. split; [by apply ext_unchanged|done]. }
  destruct Ho as (Hc0 & Hcn & _ & _ & Ed2 & W2). rewrite Hdp2. cbn [mbind option_bind]. rewrite Hdi.
  destruct (vinode_op s2 v d (if isdir then OpMkdir else OpCreate) (ext_vinode _ _ _ _ He2 Hv)) as [_ ->]. cbn [mbind option_bind negb].
  assert (take NAME_MAX n = n) as Et by (destruct Hn as (_ & _ & Hl); unfold NAME_MAX, RAMFS_MAX_NAME in *; apply take_ge; lia). rewrite Et in Ed2.
  assert (child ≠ ROOT_DENTRY) as Hcr by (unfold ROOT_DENTRY; lia). assert (child ≠ p) as Hcp by congruence.
  assert (dentries s !! child = None) as Hc.
  { destruct (dentries s !! child) eqn:E0; [|done]. by rewrite (lookup_weaken _ _ _ _ E0 (e_dentries _ _ He1)) in Hcn. }
  destruct (i_make_ok isdir v child (mk_dentry n None (Some p)) mode s2 C _ M r ns d xd n W2 (ext_vinode _ _ _ _ He2 Hv) (parent_ext s s2 _ _ _ _ (e_nodes _ _ He02) Hpar) Hn Hmode)
    as (s3 & ret & o3 & C3 & K3 & M3 & -> & W3 & Em3 & Er3 & Ef3 & Ed3 & _ & Hcase); [rewrite Ed2; apply lookup_insert_eq|done|done|done|]. cbn [mbind option_bind d_parent] in *.
  destruct (free_pair_ok s p dp child (mk_dentry n o3 (Some p)) s3 C3 K3 M3 W3 Hc) as (s4 & K4 & -> & Hun & Em4 & Er4 & Ef4 & W4); try done.
  { eapply not_pinned_fresh; [exact Hwf|done|rewrite Em3; apply He02|rewrite Er3; apply He02]. }
  { rewrite Ed3. apply lookup_insert_eq. }
  { rewrite Ed3, lookup_insert_ne by done. done. }
  { eapply local_ext; [exact Hloc2|done|done]. }
  cbn [mbind option_bind]. exists s4, ret, C3, K4, M3. split; [done|]. split; [done|]. split; [rewrite Em4, Em3; apply He02|]. split; [rewrite Ef4, Ef3; apply He02|].
  pose proof (ext_unchanged _ _ He02) as Hu02. rewrite (ext_file s s2 (ns ++ [n]) He02) in Hcase. unfold make_spec.
  destruct (file_at (v_fs s) (ns ++ [n])) as [e|] eqn:Efile.
  - destruct Hcase as (-> & _ & Hu). right. left. split; [done|]. split; [|done]. eapply unchanged_trans; [done|]. by eapply unchanged_trans.
  - destruct Hcase as [(-> & _ & [Hu|Hu])|(-> & Hu & _)].
    + right. left. split; [done|]. split; [|done]. eapply unchanged_trans; [done|]. by eapply unchanged_trans.
    + right. right. split; [done|]. split; [done|]. eapply updated_pre; [done|]. by eapply updated_post.
    + left. split; [done|]. split; [done|]. eapply updated_pre; [done|]. by eapply updated_post.
Qed.

(** ** Removing *)

Definition remove_spec (isdir : bool) (path : list (list Z)) s s' (ret : Z) : Prop :=
  (ret = 0 ∧ (∃ l, file_at (v_fs s) path = Some (isdir, l)) ∧ updated s s' path None) ∨
  (ret < 0 ∧ unchanged s s' ∧
   (ret = (if isdir then - ENOTDIR else - EISDIR) → ∃ l, file_at (v_fs s) path = Some (negb isdir, l)) ∧
   (ret = - ENOTEMPTY → isdir = true ∧ ∃ m, name_ok m ∧ file_at (v_fs s) (path ++ [m]) ≠ None)).

Lemma remove_failed isdir path s s' ret : ret = - ENOENT ∨ ret = - ENOMEM → unchanged s s' → remove_spec isdir path s s' ret.
Proof. intros Hr Hu. right. destruct Hr as [-> | ->]; (split; [done|]); (split; [done|]); split; [by destruct isdir|done|by destruct isdir|done]. Qed.

Lemma remove_ok isdir s C K M ns n c :
  vfs_wf s C K M → Forall name_ok ns → name_ok n → plain (path_of (ns ++ [n])) s → file_at (v_fs s) ns = Some (true, c) →
  ∃ s' ret C' K' M', vfs_remove isdir (path_of (ns ++ [n])) s = Some (s', ret) ∧ vfs_wf s' C' K' M' ∧ mounts s' = mounts s ∧ files s' = files s ∧
    remove_spec isdir (ns ++ [n]) s s' ret.
Proof.
  intros Hwf Hns Hn Hpl Hdir. destruct (parent_of s C K M ns c Hwf Hns Hdir) as (r & d & xd & Hpar).
  destruct (lookup_parent_ok s C K M r ns n Hwf (ip_root _ _ _ _ _ Hpar) Hns Hn Hpl) as (s1 & o & K1 & E1 & He1 & W1 & Ho).
  unfold vfs_remove. rewrite E1. cbn [mbind option_bind]. destruct o as [[p name]|].
  2:{ exists s1, (- ENOENT), C, K1, M. do 2 (split; [done|]). do 2 (split; [apply He1|]). apply remove_failed; [auto|by apply ext_unchanged]. }
  destruct Ho as (-> & dp & v & q & Hdp & Hdi & Hv & Hloc & Hq). assert (q = d) as -> by (pose proof (ip_path _ _ _ _ _ Hpar); congruence).
  destruct (new_dentry_ok n None s1 C K1 M W1) as (s2 & o & -> & He2 & Ho). cbn [mbind option_bind].
  pose proof (ext_trans _ _ _ He1 He2) as He02. assert (dentries s2 !! p = Some dp) as Hdp2 by (eapply lookup_weaken; [done|apply He2]).
  destruct o as [child|].
  2:{ destruct (free_local_ok s p dp s2 C K1 M Ho He02 Hdp2) as (s3 & K3 & -> & He3 & W3); [eapply local_ext; [done|apply He2..]|]. cbn [mbind option_bind].
      exists s3, (- ENOMEM), C, K3, M. do 2 (split; [done|]). do 2 (split; [apply He3|]). apply remove_failed; [auto|by apply ext_unchanged]. }
  destruct Ho as (Hc0 & Hcn & _ & _ & Ed2 & W2). rewrite Hdp2. cbn [mbind option_bind]. rewrite Hdi. cbn [mbind option_bind].
  pose proof (ext_vinode _ _ _ _ He2 Hv) as Hv2. destruct (vinode_op s2 v d OpLookup Hv2) as [-> _]. cbn [mbind option_bind has_op].
  assert (take NAME_MAX n = n) as Et by (destruct Hn as (_ & _ & Hl); unfold NAME_MAX, RAMFS_MAX_NAME in *; apply take_ge; lia). rewrite Et in Ed2.
  assert (child ≠ ROOT_DENTRY) as Hcr by (unfold ROOT_DENTRY; lia).
  assert (dentries s !! child = None) as Hc.
  { destruct (dentries s !! child) eqn:E0; [|done]. by rewrite (lookup_weaken _ _ _ _ E0 (e_dentries _ _ He1)) in Hcn. }
  destruct (i_lookup_ok v d child (mk_dentry n None None) s2 C _ M W2 Hv2) as (s3 & o & K3 & -> & W3 & HK3 & Hs3 & Em3 & Er3 & Ef3 & Ev3 & Ed3 & Ho);
    [rewrite Ed2; apply lookup_insert_eq|done|done|]. cbn [mbind option_bind d_name d_parent] in *.
  assert (ext s s3) as He3 by (by eapply ext_insert). assert (dentries s3 !! child = Some (mk_dentry n o None)) as Hc3 by (rewrite Ed3; apply lookup_insert_eq).
  assert (pinned child s3 = false) as Hpin3 by (eapply not_pinned_fresh; [exact Hwf|done|apply He3|apply He3]).
  rewrite Hc3. cbn [mbind option_bind d_inode]. pose proof (ext_unchanged _ _ He3) as Hu3.
  assert (∀ s4 C4 K4 M4, vfs_wf s4 C4 K4 M4 → dentries s4 = dentries s3 → mounts s4 = mounts s3 → root_dentry s4 = root_dentry s3 → files s4 = files s3 →
    ∃ s5 K5, vfs_free_dentry_chain child s4 = Some s5 ∧ unchanged s4 s5 ∧ mounts s5 = mounts s ∧ files s5 = files s ∧ vfs_wf s5 C4 K5 M4) as Hfree.
  { intros s4 C4 K4 M4 W4 Ed4 Em4 Er4 Ef4. destruct (free_leaf_ok child (mk_dentry n o None) s4 C4 K4 M4 W4) as (s5 & E5 & Ho5 & W5); try done; [by rewrite Ed4|by rewrite (pinned_ext s3)|].
    exists s5, (delete child K4). split; [done|]. split; [by eapply only_dentries_unchanged|]. destruct Ho5 as [h ->]. cbn. rewrite Em4, Ef4.
    split; [apply He3|]. split; [apply He3|done]. }
  destruct o as [w|].
  2:{ destruct (Hfree s3 C K3 M W3) as (s5 & K5 & -> & Hu5 & Em5 & Ef5 & W5); try done. cbn [mbind option_bind].
      exists s5, (- ENOENT), C, K5, M. do 4 (split; [done|]). apply remove_failed; [auto|by eapply unchanged_trans]. }
  destruct Ho as [|(w' & t & x & [= <-] & El & Hx & Hvi)]; [done|]. unfold i_mode. rewrite Hvi. cbn [mbind option_bind v_mode].
  pose proof (parent_ext s s3 _ _ _ _ (e_nodes _ _ He3) Hpar) as Hpar3. pose proof Hs3 as (_ & Ei3 & _).
  assert (look (v_fs s3) d n = Some t) as El3 by (rewrite <- El; by apply look_same_inodes).
  assert (inodes (v_fs s3) !! t = Some x) as Hx3 by congruence.
  assert (file_at (v_fs s) (ns ++ [n]) = Some (S_ISDIR (r_mode x), contents (v_fs s3) x)) as Hfile.
  { rewrite <- (ext_file s s3 _ He3), (file_at_child s3 C K3 M r ns d xd n W3 Hpar3 Hn), El3. cbn [mbind option_bind]. by rewrite Hx3. }
  destruct (bool_decide_reflect (S_ISDIR (r_mode x) = isdir)) as [Hkind|Hkind].
  2:{ rewrite (proj2 (eqb_false_iff _ _) Hkind). cbn [negb]. destruct (Hfree s3 C K3 M W3) as (s5 & K5 & -> & Hu5 & Em5 & Ef5 & W5); try done. cbn [mbind option_bind].
      eexists s5, _, C, K5, M. do 4 (split; [done|]). right. split; [by destruct isdir|]. split; [by eapply unchanged_trans|]. split; [|by destruct isdir].
      intros _. rewrite Hfile. eexists. do 2 f_equal. by destruct (S_ISDIR (r_mode x)), isdir. }
  rewrite (proj2 (eqb_true_iff _ _) Hkind). cbn [negb].
  pose proof (ext_vinode s2 s3 v d) as Hvx. destruct Hv2 as (i & Hi & Hpr & Hin).
  assert (vinodes (v_fs s3) !! v = Some i) as Hi3 by (by eapply lookup_weaken).
  destruct (@remove_node_ok H (framed K3) (v_fs s3) C M isdir v i r ns d n t x (vw_fs _ _ _ _ W3) Hi3 Hpr (ip_root _ _ _ _ _ Hpar3) (ip_path _ _ _ _ _ Hpar3) Hns Hn El3 Hx3 Hkind)
    as (f' & ret & E & Hcase).
  assert ((if isdir then ramfs_rmdir else ramfs_unlink) v n (v_fs s3) = Some (f', ret)) as E' by (destruct isdir; exact E).
  unfold i_remove. rewrite Hc3. cbn [mbind option_bind d_name]. rewrite E'. cbn [mbind option_bind].
  destruct Hcase as [(-> & Ev & Er & (C' & M' & Hwf') & Hf)|(-> & -> & -> & m & Hm & Hsub)].
  - assert (vfs_wf (with_fs f' s3) C' K3 M') as W4.
    { apply (wf_new_fs s3 C K3 M f' C' K3 M' r); try done; [apply Hpar3|by rewrite Ev|rewrite Ev; apply W3]. }
    destruct (Hfree (with_fs f' s3) C' K3 M' W4) as (s5 & K5 & -> & Hu5 & Em5 & Ef5 & W5); try done. cbn [mbind option_bind].
    exists s5, 0, C', K5, M'. do 4 (split; [done|]). left. split; [done|]. rewrite Hfile, Hkind. split; [eauto|].
    eapply updated_post; [|exact Hu5]. eapply updated_pre; [exact Hu3|]. exact Hf.
  - assert (with_fs (v_fs s3) s3 = s3) as Eid by (by destruct s3). rewrite Eid.
    destruct (Hfree s3 C K3 M W3) as (s5 & K5 & -> & Hu5 & Em5 & Ef5 & W5); try done. cbn [mbind option_bind].
    exists s5, (- ENOTEMPTY), C, K5, M. do 4 (split; [done|]). right. split; [done|]. split; [by eapply unchanged_trans|]. split; [done|]. intros _. split; [done|].
    exists m. split; [done|]. by rewrite <- app_assoc, <- (ext_file s s3 _ He3).
Qed.

(** ** Opening *)

(** The node [c] at [path] and the VFS inode [w] made for it. *)
Record found_at s (r : Z) (path : list (list Z)) (w c : Z) (x : ramfs_inode) : Prop := {
  fa_root : fs_root (v_fs s) = Some r;
  fa_path : resolve (v_fs s) r path = Some c;
  fa_node : inodes (v_fs s) !! c = Some x;
  fa_vinode : vinodes (v_fs s) !! w = Some (mk_inode (r_ino x) (r_mode x) (r_size x) (S_ISDIR (r_mode x)) (Some c))
}.

Lemma found_file s C K M r path w c x :
  vfs_wf s C K M → found_at s r path w c x → Forall name_ok path → path ≠ [] →
  file_at (v_fs s) path = Some (S_ISDIR (r_mode x), contents (v_fs s) x).
Proof.
  intros Hwf [H1 H2 H3 H4] Hn Hne. rewrite (file_at_resolve _ _ _ r _ (vw_fs _ _ _ _ Hwf)) by done. rewrite H2. cbn. by rewrite H3.
Qed.

Lemma find_or_create_ok p dp v child flags mode s C K M r ns d xd n :
  vfs_wf s C K M → is_parent (v_fs s) r ns d xd → name_ok n → 0 ≤ mode < 4096 → dentries s !! p = Some dp → d_inode dp = Some v → vinode_of (v_fs s) v d →
  dentries s !! child = Some (mk_dentry n None (Some p)) → child ≠ ROOT_DENTRY → child ≠ p →
  ∃ s' (found : bool) C' K' M' o, find_or_create p child flags mode s = Some (s', found) ∧ vfs_wf s' C' K' M' ∧ mounts s' = mounts s ∧
    root_dentry s' = root_dentry s ∧ files s' = files s ∧ dentries s' = <[child := mk_dentry n o (Some p)]> (dentries s) ∧ keeps (v_fs s) (v_fs s') ∧
    if found then
      (∃ w c x, o = Some w ∧ found_at s' r (ns ++ [n]) w c x ∧
         (S_ISREG (r_mode x) = true ∨ (resolve (v_fs s) r (ns ++ [n]) = Some c ∧ inodes (v_fs s) !! c = Some x))) ∧
      updated s s' (ns ++ [n]) (Some (default (false, []) (file_at (v_fs s) (ns ++ [n])))) ∧ (file_at (v_fs s) (ns ++ [n]) = None → has flags O_CREAT = true)
    else unchanged s s' ∨ (has flags O_CREAT = true ∧ file_at (v_fs s) (ns ++ [n]) = None ∧ updated s s' (ns ++ [n]) (Some (false, []))).
Proof.
  intros Hwf Hpar Hn Hmode Hdp Hdi Hv Hc Hcr Hcp. unfold find_or_create. rewrite Hdp. cbn [mbind option_bind]. rewrite Hdi.
  destruct (vinode_op s v d OpLookup Hv) as [_ ->]. cbn [mbind option_bind].
  destruct (i_lookup_ok v d child _ s C K M Hwf Hv Hc eq_refl Hcr) as (s1 & o & K1 & -> & W1 & HK1 & Hs1 & Em1 & Er1 & Ef1 & Ev1 & Ed1 & Ho). cbn [mbind option_bind d_name d_parent] in *.
  assert (dentries s1 !! child = Some (mk_dentry n o (Some p))) as Hc1 by (rewrite Ed1; apply lookup_insert_eq). rewrite Hc1. cbn [mbind option_bind d_inode].
  assert (unchanged s s1) as Hu1 by (intros ms _; by apply same_nodes_file).
  assert (keeps (v_fs s) (v_fs s1)) as Hkp1 by (apply keeps_more; [by apply same_nodes_keep|done]).
  pose proof (parent_ext s s1 _ _ _ _ Hs1 Hpar) as Hpar1. destruct o as [w|].
  - destruct Ho as [|(w' & c & x & [= <-] & El & Hx & Hvi)]; [done|]. pose proof Hs1 as (_ & Ei1 & _).
    assert (found_at s1 r (ns ++ [n]) w c x) as Hfa.
    { split; [apply Hpar1| |congruence|done]. rewrite resolve_snoc, (ip_path _ _ _ _ _ Hpar1). cbn. rewrite <- El. by apply look_same_inodes. }
    assert (file_at (v_fs s) (ns ++ [n]) = Some (S_ISDIR (r_mode x), contents (v_fs s1) x)) as Hfile.
    { rewrite <- Hu1 by (apply Forall_app; split; [apply Hpar|by constructor]).
      apply (found_file s1 C K1 M r _ w c x W1 Hfa); [apply Forall_app; split; [apply Hpar|by constructor]|by destruct ns]. }
    exists s1, true, C, K1, M, (Some w). split; [done|]. do 6 (split; [done|]). rewrite Hfile. split.
    { exists w, c, x. do 2 (split; [done|]). right. split; [|done]. by rewrite resolve_snoc, (ip_path _ _ _ _ _ Hpar). }
    split; [|done].
    intros ms Hms. rewrite Hu1 by done. case_decide; [by subst ms|done].
  - destruct (has flags O_CREAT) eqn:Ecreat.
    2:{ exists s1, false, C, K1, M, None. split; [done|]. do 6 (split; [done|]). by left. }
    pose proof Hv as (i & Hi & Hpr & Hin). assert (vinode_of (v_fs s1) v d) as Hv1.
    { exists i. split; [by eapply lookup_weaken|]. split; [done|]. pose proof Hs1 as (_ & -> & _). done. }
    destruct (vinode_op s1 v d OpCreate Hv1) as [-> _]. cbn [mbind option_bind has_op].
    destruct (i_make_ok false v child _ mode s1 C K1 M r ns d xd n W1 Hv1 Hpar1 Hn Hmode Hc1 eq_refl eq_refl Hcr)
      as (s2 & ret & o2 & C2 & K2 & M2 & -> & W2 & Em2 & Er2 & Ef2 & Ed2 & Hkp2 & Hcase). cbn [mbind option_bind d_parent] in *.
    assert (file_at (v_fs s1) (ns ++ [n]) = file_at (v_fs s) (ns ++ [n])) as Efile by (apply Hu1, Forall_app; split; [apply Hpar|by constructor]).
    rewrite Efile in Hcase. exists s2, (ret =? 0), C2, K2, M2, o2. split; [done|]. split; [done|]. split; [congruence|]. split; [congruence|]. split; [congruence|].
    split; [by rewrite Ed2, Ed1, insert_insert_eq|]. split; [by eapply keeps_trans|]. destruct (file_at (v_fs s) (ns ++ [n])) as [e|].
    + destruct Hcase as (-> & _ & Hu2). left. by eapply unchanged_trans.
    + destruct Hcase as [(-> & -> & [Hu2|Hu2])|(-> & Hu2 & w & c & x & -> & Hr2 & Hres & Hx & Hm & Hsz & Hvi)]; cbn [Z.eqb].
      * left. by eapply unchanged_trans.
      * right. split; [done|]. split; [done|]. by eapply updated_pre.
      * split.
        { exists w, c, x. split; [done|].
          assert (S_ISDIR (r_mode x) = false) as Hd by (rewrite Hm; by apply reg_not_dir).
          split; [|left; rewrite Hm; unfold S_ISREG; rewrite Z.land_lor_distr_l, (type_bits mode) by done; done].
          split; [done|done|done|rewrite Hsz, Hd; done]. }
        split; [by eapply updated_pre|done].
Qed.
End Vfs.
