(* ===== verification/VfsSave.v ===== *)
(** * Open files of the virtual file system

    Opening, writing, reading and closing a file of the RAM file system by
    path, and vfs_save_file, on top of [VfsFiles]. *)

From S2P Require Import Prelude KHeap Kmalloc Ramfs Vfs VfsFiles.

Section Open.
Context {H : Type} `{!KernelHeap H}.
Implicit Types (f : ramfs H) (s : vfs H).

Lemma wf_file s C K M fd x :
  vfs_wf s C K M → K !! fd = Some sizeof_file → vfs_wf (with_files (<[fd := x]> (files s)) s) C K M.
Proof.
  intros [H1 H2 H3 H4 H5 H6 H7 H8] HK. split; try done. cbn. intros p y Hy.
  destruct (decide (p = fd)) as [->|Hne]; [done|]. rewrite lookup_insert_ne in Hy by done. by eapply H4.
Qed.

(** A fresh [struct file]. *)
Lemma new_file_ok s C K M :
  vfs_wf s C K M →
  ∃ h r, kz sizeof_file s = Some (with_fs (with_heap h (v_fs s)) s, r) ∧
    match r with
    | None => vfs_wf (with_fs (with_heap h (v_fs s)) s) C K M
    | Some fd => files s !! fd = None ∧ vfs_wf (with_fs (with_heap h (v_fs s)) s) C (<[fd := sizeof_file]> K) M
    end.
Proof.
  intros Hwf. destruct (kz_ok sizeof_file s C K M (vw_fs _ _ _ _ Hwf)) as (h & r & E & Hr); [done|]. exists h, r. split; [done|].
  destruct r as [fd|]; [|by apply (wf_heap_step s C K)]. destruct Hr as (_ & HK & _ & Hr). split.
  - destruct (files s !! fd) as [x|] eqn:Ex; [|done]. apply (vw_file _ _ _ _ Hwf) in Ex. congruence.
  - apply (wf_heap_step s C K); [done|done|]. intros p n Hp. rewrite lookup_insert_ne; [done|congruence].
Qed.

Lemma reg_not_directory m : S_ISREG m = true → S_ISDIR m = false.
Proof. unfold S_ISREG, S_ISDIR. intros ->%Z.eqb_eq. done. Qed.

(** The file system below is replaced by one with the same VFS inodes but for
    their sizes. *)
Definition same_private f f' : Prop := ∀ v,
  match vinodes f !! v with
  | None => vinodes f' !! v = None
  | Some i => ∃ i', vinodes f' !! v = Some i' ∧ v_private i' = v_private i
  end.

Lemma same_private_vinode f f' v c : same_private f f' → vinode_of f v c → is_Some (inodes f' !! c) → vinode_of f' v c.
Proof. intros Hs (i & Hi & Hp & _) Hc. specialize (Hs v). rewrite Hi in Hs. destruct Hs as (i' & ? & ?). exists i'. split; [done|]. split; [congruence|done]. Qed.

Lemma wf_same_private s C K M f' M' r :
  vfs_wf s C K M → same_private (v_fs s) f' → fs_root (v_fs s) = Some r → fs_root f' = Some r → fs_wfK K f' C M' → vfs_wf (with_fs f' s) C K M'.
Proof.
  intros [H1 H2 H3 H4 H5 H6 (r' & Hr' & Hv) H8] Hs Hr Hrf Hwf. assert (r' = r) as -> by congruence. split; try done; cbn.
  - intros v i Hi. specialize (Hs v). destruct (vinodes (v_fs s) !! v) as [j|] eqn:Ej; [by eapply H2|congruence].
  - exists r. split; [done|]. eapply same_private_vinode; [done|done|]. destruct (root_in _ _ _ _ Hwf Hrf) as (x & Hx & _). eauto.
Qed.

(** [fd] is an open regular file: its dentry, VFS inode and node are those of
    [path], and closing it releases its dentry only. *)
Record open_file s (path : list (list Z)) (fd child w c : Z) (x : ramfs_inode) (pos : Z) : Prop := {
  of_path : ∃ r, fs_root (v_fs s) = Some r ∧ resolve (v_fs s) r path = Some c;
  of_node : inodes (v_fs s) !! c = Some x;
  of_kind : S_ISREG (r_mode x) = true;
  of_vinode : vinode_of (v_fs s) w c;
  of_file : ∃ fl md, files s !! fd = Some (mk_file (Some child) (Some RamFile) pos fl md 1 (Some c));
  of_dentry : ∃ n q, dentries s !! child = Some (mk_dentry n (Some w) (Some q)) ∧ pinned q s = true;
  of_child : child ≠ ROOT_DENTRY ∧ pinned child s = false
}.
Definition opened s path fd pos : Prop := ∃ child w c x, open_file s path fd child w c x pos.

(** ** vfs_open *)

(** O_TRUNC empties the file, O_APPEND moves to its end. *)
Lemma open_flags_ok s C K M r path w c x fd child fl md flags :
  vfs_wf s C K M → found_at s r path w c x → S_ISREG (r_mode x) = true → Forall name_ok path → path ≠ [] →
  files s !! fd = Some (mk_file (Some child) (Some RamFile) 0 fl md 1 (Some c)) →
  let l := if has flags O_TRUNC then [] else contents (v_fs s) x in
  ∃ s' x', open_flags fd w flags s = Some s' ∧ vfs_wf s' C K M ∧ mounts s' = mounts s ∧ root_dentry s' = root_dentry s ∧ dentries s' = dentries s ∧
    files s' = <[fd := mk_file (Some child) (Some RamFile) (if has flags O_APPEND then Z.of_nat (length l) else 0) fl md 1 (Some c)]> (files s) ∧
    fs_root (v_fs s') = Some r ∧ resolve (v_fs s') r path = Some c ∧ inodes (v_fs s') !! c = Some x' ∧ S_ISREG (r_mode x') = true ∧
    vinode_of (v_fs s') w c ∧ i_size w s' = Some (Z.of_nat (length l)) ∧ keeps (v_fs s) (v_fs s') ∧ updated s s' path (Some (false, l)).
Proof.
  intros Hwf Hfa Hreg Hpath Hne Hfd l. pose proof (reg_not_directory _ Hreg) as Hdir. pose proof Hfa as [Hr Hres Hx Hvi].
  unfold open_flags, i_mode at 1. rewrite Hvi. cbn [mbind option_bind v_mode]. rewrite Hfd. cbn [mbind option_bind f_private f_op].
  set (m := r_mode x) in *.
  assert (K !! fd = Some sizeof_file) as HK by (by eapply (vw_file _ _ _ _ Hwf)).
  assert (∃ s1 x1 n, (if has flags O_TRUNC && S_ISREG m
       then '(fs, _) ← ramfs_truncate_file (Some c) (v_fs (set_i_size w 0 s)); Some (with_fs fs (set_i_size w 0 s)) else Some s) = Some s1 ∧
    vfs_wf s1 C K M ∧ mounts s1 = mounts s ∧ root_dentry s1 = root_dentry s ∧ dentries s1 = dentries s ∧ files s1 = files s ∧
    fs_root (v_fs s1) = Some r ∧ resolve (v_fs s1) r path = Some c ∧ inodes (v_fs s1) !! c = Some x1 ∧ S_ISREG (r_mode x1) = true ∧
    vinodes (v_fs s1) !! w = Some (mk_inode n m (Z.of_nat (length l)) false (Some c)) ∧ keeps (v_fs s) (v_fs s1) ∧ updated s s1 path (Some (false, l)))
    as (s1 & x1 & ino & -> & W1 & Em1 & Er1 & Ed1 & Ef1 & Hr1 & Hres1 & Hx1 & Hk1 & Hv1 & Hkp1 & Hu1).
  { rewrite Hreg, andb_true_r. unfold l. destruct (has flags O_TRUNC).
    - set (s0 := set_i_size w 0 s). assert (same_private (v_fs s) (v_fs s0)) as Hsp.
      { intros v. cbn. destruct (decide (w = v)) as [->|Hwv]; [rewrite lookup_alter_eq, Hvi; cbn; by eexists|].
        rewrite lookup_alter_ne by done. destruct (vinodes (v_fs s) !! v); eauto. }
      assert (same_nodes (v_fs s) (v_fs s0)) as Hsn by done.
      assert (fs_wfK K (v_fs s0) C M) as Hwf0 by (eapply (@same_nodes_wf H (framed K)); [apply Hwf|done|apply (wf_heap _ _ _ (vw_fs _ _ _ _ Hwf))|done]).
      destruct (@truncate_ok H (framed K) (v_fs s0) C M r path c x Hwf0 Hr Hpath Hne) as (f' & x' & E & Hwf' & Hr' & Ev & Hx' & Hm' & _ & Hres' & Hkn & Hf'); try done.
      { by rewrite (same_nodes_resolve (v_fs s)). }
      change (ramfs_truncate_file (Some c) (v_fs s0) = Some (f', 0)) in E. rewrite E. cbn [mbind option_bind].
      exists (with_fs f' s0), x', (r_ino x). split; [done|]. split.
      { apply (wf_same_private s C K M f' M r); try done. intros v. specialize (Hsp v). by rewrite Ev. }
      do 7 (split; [done|]). split; [by rewrite Hm'|]. split.
      { cbn. rewrite Ev. cbn. rewrite lookup_alter_eq, Hvi. cbn. by rewrite Hdir. }
      split.
      { split; [eapply keeps_nodes_trans; [by apply same_nodes_keep|exact Hkn]|]. intros v j Hj. specialize (Hsp v). rewrite Hj in Hsp. cbn. by rewrite Ev. }
      intros ms Hms. cbn. rewrite Hf' by done. case_decide; [done|]. by apply same_nodes_file.
    - exists s, x, (r_ino x). split; [done|]. split; [done|]. do 7 (split; [done|]). split; [done|]. split.
      { rewrite Hvi. destruct (node_contents_length _ _ _ _ _ (vw_fs _ _ _ _ Hwf) Hx) as [-> _]. by rewrite Hdir. }
      split; [apply keeps_refl|]. intros ms Hms. case_decide; [subst ms|done]. rewrite (found_file s C K M r path w c x) by done. fold m; by rewrite Hdir. }
  cbn [mbind option_bind]. unfold i_size, i_private. rewrite Hv1. cbn [mbind option_bind v_size v_private]. rewrite Hreg, andb_true_r.
  set (s2 := if has flags O_APPEND then upd_file fd (set_pos (Z.of_nat (length l))) s1 else s1).
  assert (v_fs s2 = v_fs s1) as E2 by (unfold s2; by destruct (has flags O_APPEND)). rewrite E2, Hv1. cbn [mbind option_bind v_private].
  set (x2 := mk_file (Some child) (Some RamFile) (if has flags O_APPEND then Z.of_nat (length l) else 0) fl md 1 (Some c)).
  assert (upd_file fd (set_private (Some c)) s2 = with_files (<[fd := x2]> (files s1)) s1) as ->.
  { unfold s2, upd_file, x2. destruct (has flags O_APPEND); cbn; unfold with_files; cbn; f_equal; apply map_eq; intros p;
      (destruct (decide (p = fd)) as [->|Hp]; [by rewrite !lookup_alter_eq, Ef1, Hfd, lookup_insert_eq|by rewrite !lookup_alter_ne, lookup_insert_ne by done]). }
  exists (with_files (<[fd := x2]> (files s1)) s1), x1. split; [done|]. split; [by apply wf_file|]. cbn. rewrite Ef1. do 8 (split; [done|]).
  split; [eexists; split; [exact Hv1|]; split; [done|eauto]|]. split; [unfold i_size; cbn; by rewrite Hv1|done].
Qed.

(** What is at [path], if anything, is a regular file. *)
Definition regular s (path : list (list Z)) : Prop := ∀ r c x,
  fs_root (v_fs s) = Some r → resolve (v_fs s) r path = Some c → inodes (v_fs s) !! c = Some x → S_ISREG (r_mode x) = true.

(** [fresh] are the dentries that the call may have made. *)
Definition open_spec (fresh : Z → Prop) (flags : Z) (path : list (list Z)) s s' (o : option Z) : Prop :=
  match o with
  | None => files s' = files s ∧
      (unchanged s s' ∨ (has flags O_CREAT = true ∧ file_at (v_fs s) path = None ∧ updated s s' path (Some (false, []))))
  | Some fd =>
      let l := if has flags O_TRUNC then [] else snd (default (false, []) (file_at (v_fs s) path)) in
      files s !! fd = None ∧ delete fd (files s') = files s ∧ (file_at (v_fs s) path = None → has flags O_CREAT = true) ∧
      (∃ child w c x, fresh child ∧ open_file s' path fd child w c x (if has flags O_APPEND then Z.of_nat (length l) else 0) ∧
        i_size w s' = Some (Z.of_nat (length l))) ∧
      updated s s' path (Some (false, l))
  end.

(** The file system below is the same but for its heap. *)
Definition same_tree s s' : Prop := v_fs s' = with_heap (fs_heap (v_fs s')) (v_fs s).

Lemma same_tree_keeps s s' : same_tree s s' → keeps (v_fs s) (v_fs s').
Proof. intros E. apply keeps_more; [apply same_nodes_keep|]; rewrite E; done. Qed.

(** All dentries but the new ones are as they were. *)
Definition others_kept (p child : Z) s s' : Prop :=
  ∀ q e, q ≠ child → (q = p → pinned p s = true) → dentries s !! q = Some e → dentries s' !! q = Some e.

(** Giving up: the new dentry is released, with a parent that was made for
    this call. *)
Lemma drop_child_ok p dp child n o s s2 C K M :
  vfs_wf s2 C K M → dentries s !! p = Some dp → child ≠ ROOT_DENTRY → child ≠ p → pinned child s = false →
  (pinned p s = false → p ≠ ROOT_DENTRY ∧ d_parent dp = None) → dentries s2 = <[child := mk_dentry n o (Some p)]> (dentries s) →
  mounts s2 = mounts s → root_dentry s2 = root_dentry s → files s2 = files s →
  ∃ s3 K3, vfs_free_dentry_chain child s2 = Some s3 ∧ vfs_wf s3 C K3 M ∧ unchanged s2 s3 ∧ mounts s3 = mounts s ∧ root_dentry s3 = root_dentry s ∧ files s3 = files s ∧
    same_tree s2 s3 ∧ others_kept p child s s3.
Proof.
  intros W2 Hdp Hcr Hcp Hpin Hloc Ed2 Em2 Er2 Ef2. assert (∀ q, pinned q s2 = pinned q s) as Hpe by (intros q; by apply pinned_ext).
  destruct (free_child_ok child (mk_dentry n o (Some p)) p s2 C K M W2) as (s3 & K3 & E3 & Ho3 & W3 & _); try done.
  { rewrite Ed2. apply lookup_insert_eq. }
  { by rewrite Hpe. }
  { rewrite Hpe. intros Hp. destruct (Hloc Hp) as [Hpr Hdn]. split; [done|]. exists dp. split; [|done]. by rewrite Ed2, lookup_insert_ne by done. }
  exists s3, K3. do 2 (split; [done|]). split; [by eapply only_dentries_unchanged|]. destruct Ho3 as [h ->]. do 3 (split; [done|]).
  split; [done|]. intros q e Hqc Hqp Hq. cbn. rewrite Hpe, Ed2. destruct (pinned p s) eqn:Ep.
  - by rewrite lookup_delete_ne, lookup_insert_ne by done.
  - rewrite !lookup_delete_ne, lookup_insert_ne by (done || (intros ->; by specialize (Hqp eq_refl))). done.
Qed.

(** At the end, a parent that was made for this call is released, and the
    root takes its place. *)
Lemma release_parent_ok p dp child n w (fd : Z) s C K M :
  vfs_wf s C K M → dentries s !! child = Some (mk_dentry n (Some w) (Some p)) → dentries s !! p = Some dp → child ≠ p → child ≠ ROOT_DENTRY →
  (pinned p s = false → p ≠ ROOT_DENTRY ∧ d_parent dp = None) →
  ∃ s' K', (if pinned p s then Some (s, Some fd)
            else s ← vfs_free_dentry_chain p (set_parent child (root_dentry s) s); Some (s, Some fd)) = Some (s', Some fd) ∧
    vfs_wf s' C K' M ∧ same_tree s s' ∧ mounts s' = mounts s ∧ root_dentry s' = root_dentry s ∧ files s' = files s ∧ others_kept p child s s' ∧
    ∃ q, dentries s' !! child = Some (mk_dentry n (Some w) (Some q)) ∧ pinned q s = true.
Proof.
  intros Hwf Hc Hdp Hcp Hcr Hloc. destruct (pinned p s) eqn:Epp.
  { exists s, K. do 2 (split; [done|]). split; [unfold same_tree; by destruct (v_fs s)|]. do 3 (split; [done|]). split; [by intros q e _ _ Hq|]. by exists p. }
  destruct (Hloc eq_refl) as [Hpr Hdn]. pose proof (vw_root _ _ _ _ Hwf) as Erd. set (d1 := mk_dentry n (Some w) (Some ROOT_DENTRY)).
  assert (set_parent child (root_dentry s) s = with_dentries (<[child := d1]> (dentries s)) s) as ->.
  { unfold set_parent. f_equal. apply map_eq. intros q. rewrite Erd. destruct (decide (q = child)) as [->|Hq];
      [by rewrite lookup_alter_eq, Hc, lookup_insert_eq|by rewrite lookup_alter_ne, lookup_insert_ne by done]. }
  set (s1 := with_dentries _ s). assert (vfs_wf s1 C K M) as W1 by (apply wf_dentry; [done|done|eauto]).
  destruct (free_leaf_ok p dp s1 C K M W1) as (s2 & -> & [h ->] & W2); try done.
  { cbn. by rewrite lookup_insert_ne. }
  cbn [mbind option_bind]. eexists _, (delete p K). split; [reflexivity|]. split; [done|]. do 4 (split; [done|]). split.
  { intros q e Hqc Hqp Hq. cbn. rewrite lookup_delete_ne, lookup_insert_ne; [done|done|]. intros ->. specialize (Hqp eq_refl). congruence. }
  exists ROOT_DENTRY. split.
  - cbn. by rewrite lookup_delete_ne, lookup_insert_eq.
  - unfold pinned. by rewrite Erd, bool_decide_eq_true_2.
Qed.

Lemma open_in_ok p dp v child flags mode s C K M r ns d xd n :
  vfs_wf s C K M → is_parent (v_fs s) r ns d xd → name_ok n → 0 ≤ mode < 4096 → dentries s !! p = Some dp → d_inode dp = Some v → vinode_of (v_fs s) v d →
  dentries s !! child = Some (mk_dentry n None (Some p)) → child ≠ ROOT_DENTRY → child ≠ p → pinned child s = false →
  (pinned p s = false → p ≠ ROOT_DENTRY ∧ d_parent dp = None) → regular s (ns ++ [n]) →
  ∃ s' o C' K' M', open_in p child flags mode s = Some (s', o) ∧ vfs_wf s' C' K' M' ∧ mounts s' = mounts s ∧ root_dentry s' = root_dentry s ∧
    keeps (v_fs s) (v_fs s') ∧ others_kept p child s s' ∧ open_spec (λ q, q = child) flags (ns ++ [n]) s s' o.
Proof.
  intros Hwf Hpar Hn Hmode Hdp Hdi Hv Hc Hcr Hcp Hpin Hloc Hreg. set (path := ns ++ [n]) in *.
  assert (Forall name_ok path) as Hpath by (apply Forall_app; split; [apply Hpar|by constructor]). assert (path ≠ []) as Hne by (unfold path; by destruct ns).
  destruct (find_or_create_ok p dp v child flags mode s C K M r ns d xd n Hwf Hpar Hn Hmode Hdp Hdi Hv Hc Hcr Hcp)
    as (s1 & found & C1 & K1 & M1 & o & E1 & W1 & Em1 & Er1 & Ef1 & Ed1 & Hkp1 & Hcase). fold path in Hcase.
  unfold open_in. rewrite E1. cbn [mbind option_bind].
  assert (∀ s2 K2, vfs_wf s2 C1 K2 M1 → dentries s2 = dentries s1 → mounts s2 = mounts s1 → root_dentry s2 = root_dentry s1 → files s2 = files s1 →
    ∃ s3 K3, vfs_free_dentry_chain child s2 = Some s3 ∧ vfs_wf s3 C1 K3 M1 ∧ unchanged s2 s3 ∧ mounts s3 = mounts s ∧ root_dentry s3 = root_dentry s ∧ files s3 = files s ∧
      same_tree s2 s3 ∧ others_kept p child s s3) as Hfree.
  { intros s2 K2 W2 Ed2 Em2 Er2 Ef2. eapply (drop_child_ok p dp child n o s s2); try done; congruence. }
  destruct found; cbn [negb].
  2:{ destruct (Hfree s1 K1 W1) as (s3 & K3 & -> & W3 & Hu3 & Em3 & Er3 & Ef3 & Hst3 & Hok3); try done. cbn [mbind option_bind].
      exists s3, None, C1, K3, M1. do 4 (split; [done|]). split; [eapply keeps_trans; [exact Hkp1|by apply same_tree_keeps]|]. split; [done|]. split; [done|].
      destruct Hcase as [Hu|(Hcr' & Hno & Hu)]; [left; by eapply unchanged_trans|right]. do 2 (split; [done|]). by eapply updated_post. }
  destruct Hcase as ((w & c & x & -> & Hfa & Hx) & Hu1 & Hcreat).
  destruct (new_file_ok s1 C1 K1 M1 W1) as (h & fdo & -> & Hfd). cbn [mbind option_bind]. destruct fdo as [fd|].
  2:{ destruct (Hfree _ K1 Hfd) as (s3 & K3 & -> & W3 & Hu3 & Em3 & Er3 & Ef3 & Hst3 & Hok3); try done. cbn [mbind option_bind].
      exists s3, None, C1, K3, M1. do 4 (split; [done|]). split; [eapply keeps_trans; [exact Hkp1|]; eapply keeps_trans; [|by apply same_tree_keeps]; by apply same_tree_keeps|].
      split; [done|]. split; [done|].
      assert (unchanged s1 s3) as Hu13 by (eapply unchanged_trans; [|exact Hu3]; intros ms _; by apply same_nodes_file).
      destruct (file_at (v_fs s) path) as [e|] eqn:Efile; cbn [default] in Hu1.
      - left. intros ms Hms. rewrite Hu13, Hu1 by done. by case_decide; [subst ms|].
      - right. split; [auto|]. split; [done|]. by eapply updated_post. }
  destruct Hfd as [Hnew W2]. set (s2 := with_fs (with_heap h (v_fs s1)) s1) in *.
  assert (S_ISREG (r_mode x) = true) as Hrx by (destruct Hx as [|[Hrs Hxs]]; [done|]; eapply Hreg; [apply Hpar|done|done]).
  pose proof (reg_not_directory _ Hrx) as Hdx. pose proof Hfa as [Hr1 Hres1 Hx1 Hvi1].
  assert (dentries s2 !! child = Some (mk_dentry n (Some w) (Some p))) as Hc2 by (cbn; rewrite Ed1; apply lookup_insert_eq).
  set (s3 := with_files (<[fd := mk_file (Some child) (Some RamFile) 0 flags mode 1 (Some c)]> (files s2)) s2).
  assert (fill_file fd child flags mode s2 = Some s3) as ->.
  { unfold fill_file. rewrite Hc2. cbn [mbind option_bind d_inode]. unfold i_fop, i_private. change (vinodes (v_fs s2)) with (vinodes (v_fs s1)). rewrite Hvi1.
    cbn [mbind option_bind v_dir v_private]. by rewrite Hdx. }
  cbn [mbind option_bind]. change (dentries s3) with (dentries s2). rewrite Hc2. cbn [mbind option_bind d_inode].
  assert (same_nodes (v_fs s1) (v_fs s3)) as Hsn by done.
  assert (found_at s3 r path w c x) as Hfa3 by (split; [done|by rewrite (same_nodes_resolve (v_fs s1))|done|done]).
  destruct (open_flags_ok s3 C1 (<[fd := sizeof_file]> K1) M1 r path w c x fd child flags mode flags) as (s4 & x4 & E4 & W4 & Em4 & Er4 & Ed4 & Ef4 & Hr4 & Hres4 & Hx4 & Hk4 & Hv4 & Hsz4 & Hkp4 & Hu4); try done.
  { apply wf_file; [exact W2|apply lookup_insert_eq]. }
  { apply lookup_insert_eq. }
  change (contents (v_fs s3) x) with (contents (v_fs s1) x) in *.
  assert (snd (default (false, []) (file_at (v_fs s) path)) = contents (v_fs s1) x) as El.
  { pose proof (Hu1 path Hpath) as Hf1. rewrite decide_True in Hf1 by done. rewrite (found_file s1 C1 K1 M1 r path w c x) in Hf1 by done.
    by injection Hf1 as <-. }
  set (l := if has flags O_TRUNC then [] else contents (v_fs s1) x) in *. rewrite E4. cbn [mbind option_bind].
  assert (∀ q, pinned q s4 = pinned q s) as Hpe by (intros q; apply pinned_ext; [rewrite Em4|rewrite Er4]; done).
  destruct (release_parent_ok p dp child n w fd s4 C1 (<[fd := sizeof_file]> K1) M1 W4) as (s5 & K5 & -> & W5 & Efs & Em5 & Er5 & Ef5 & Hok5 & q & Hc5 & Hq); try done.
  { by rewrite Ed4. } { rewrite Ed4. cbn. by rewrite Ed1, lookup_insert_ne. } { by rewrite Hpe. }
  assert (same_nodes (v_fs s4) (v_fs s5)) as Hs5 by (rewrite Efs; done).
  assert (∀ q, pinned q s5 = pinned q s) as Hpe5 by (intros q'; rewrite <- Hpe; by apply pinned_ext). rewrite Hpe in Hq.
  exists s5, (Some fd), C1, K5, M1. split; [done|]. split; [done|]. split; [by rewrite Em5, Em4|]. split; [by rewrite Er5, Er4|].
  split.
  { eapply keeps_trans; [exact Hkp1|]. eapply keeps_trans; [|by apply same_tree_keeps]. eapply keeps_trans; [|exact Hkp4]. by apply keeps_more; [apply same_nodes_keep|]. }
  split.
  { intros q' e Hqc Hqp Hq'. apply Hok5; [done|by rewrite Hpe|]. rewrite Ed4. cbn. by rewrite Ed1, lookup_insert_ne. }
  unfold open_spec. rewrite El. fold l. split; [congruence|]. split.
  { rewrite Ef5, Ef4. cbn. rewrite insert_insert_eq, delete_insert_id; [done|congruence]. }
  split; [done|]. split.
  - exists child, w, c, x4. split; [done|]. split; [|destruct Hv4 as (i & Hi & _); unfold i_size in *; rewrite Efs; cbn; by rewrite Hi in *]. split; try done.
    + exists r. rewrite (same_nodes_resolve (v_fs s4)) by done. by rewrite Efs.
    + by rewrite Efs.
    + rewrite Efs. destruct Hv4 as (i & ? & ? & ?). exists i. done.
    + exists flags, mode. rewrite Ef5, Ef4. apply lookup_insert_eq.
    + exists n, q. by rewrite Hpe5.
    + by rewrite Hpe5.
  - intros ms Hms. rewrite (same_nodes_file (v_fs s4)) by done. rewrite Hu4 by done. case_decide; [done|].
    transitivity (file_at (v_fs s1) ms); [by apply same_nodes_file|]. rewrite Hu1 by done. by rewrite decide_False.
Qed.

(** The directory that vfs_open works in, when the lookup of the parent
    succeeds or the path has a single component. *)
Lemma open_parent_ok s C K M r ns n d xd :
  vfs_wf s C K M → is_parent (v_fs s) r ns d xd → name_ok n → plain (path_of (ns ++ [n])) s →
  ∃ s1 o K1, vfs_lookup_parent (path_of (ns ++ [n])) s = Some (s1, o) ∧ ext s s1 ∧ vfs_wf s1 C K1 M ∧
    match (match o with Some (p, name) => Some (Some p, name) | None => open_fallback (path_of (ns ++ [n])) s1 end) with
    | None => True
    | Some (po, name) => name = n ∧ ∃ p dp v, po = Some p ∧ dentries s1 !! p = Some dp ∧ d_inode dp = Some v ∧ vinode_of (v_fs s1) v d ∧ local s p dp s1
    end.
Proof.
  intros Hwf Hpar Hn Hpl. pose proof Hpar as [Hr Hd _ _ Hns].
  destruct (lookup_parent_ok s C K M r ns n Hwf Hr Hns Hn Hpl) as (s1 & o & K1 & E1 & He1 & W1 & Ho).
  exists s1, o, K1. split; [done|]. split; [done|]. split; [done|]. destruct o as [[p name]|].
  { destruct Ho as (-> & dp & v & q & ? & ? & Hv & ? & Hq). split; [done|]. exists p, dp, v. assert (q = d) as -> by congruence. done. }
  unfold open_fallback. assert (skip_slashes (path_of (ns ++ [n])) = join (ns ++ [n])) as ->.
  { unfold path_of. cbn [skip_slashes]. rewrite Z.eqb_refl. apply skip_join_all, Forall_app. split; [done|by constructor]. }
  destruct ns as [|m ns].
  - destruct (next_component_join n [] Hn ltac:(constructor)) as (rest & Enc & Hskip). change (join ([] ++ [n])) with (join [n]). rewrite Enc.
    destruct rest as [|c rest]; [|done]. split; [done|]. injection Hd as <-. exists ROOT_DENTRY; eexists _, ROOT_VINODE.
    split; [apply (vw_root _ _ _ _ W1)|]. split; [apply (vw_rd _ _ _ _ W1)|]. split; [done|]. split.
    + destruct (vw_rv _ _ _ _ W1) as (r' & Hr' & Hv). destruct (e_nodes _ _ He1) as (Er & _). assert (r' = r) as -> by congruence. done.
    + left. unfold pinned. by rewrite (vw_root _ _ _ _ W1), bool_decide_eq_true_2.
  - inversion_clear Hns as [|? ? Hm Hns']. assert (Forall name_ok (ns ++ [n])) as Hnn by (apply Forall_app; split; [done|by constructor]).
    destruct (next_component_join m (ns ++ [n]) Hm Hnn) as (rest & Enc & Hskip). cbn [app]. rewrite Enc. destruct rest as [|c rest]; [|done].
    exfalso. cbn in Hskip. assert (∃ c0 l0, join (ns ++ [n]) = c0 :: l0) as (c0 & l0 & Ej); [|congruence].
    destruct ns as [|a ns2]; [by apply join_cons_ne|]. inversion_clear Hns'. by apply join_cons_ne.
Qed.

Lemma open_spec_pre (P Q : Z → Prop) flags path s s1 s' o :
  ext s s1 → (∀ c, P c → Q c) → open_spec P flags path s1 s' o → open_spec Q flags path s s' o.
Proof.
  intros He HPQ. pose proof (ext_unchanged _ _ He) as Hu. pose proof (ext_file s s1 path He) as Ef. pose proof (e_files _ _ He) as Efl.
  unfold open_spec. rewrite Ef, Efl. destruct o as [fd|].
  - intros (H1 & H2 & H3 & (child & w & c & x & Hp & H4 & Hsz) & H5). do 3 (split; [done|]). split; [exists child, w, c, x; split; [by apply HPQ|done]|]. by eapply updated_pre.
  - intros (H1 & [H2|(H2 & H3 & H4)]); (split; [done|]); [left; by eapply unchanged_trans|right]. do 2 (split; [done|]). by eapply updated_pre.
Qed.

Lemma open_failed P flags path s s' : ext s s' → open_spec P flags path s s' None.
Proof. intros He. split; [apply He|left]. by apply ext_unchanged. Qed.

Lemma ext_keeps s s' : ext s s' → keeps (v_fs s) (v_fs s').
Proof. intros He. apply keeps_more; [apply same_nodes_keep|]; apply He. Qed.

Lemma open_ok s C K M ns n flags mode c :
  vfs_wf s C K M → Forall name_ok ns → name_ok n → plain (path_of (ns ++ [n])) s → find_mount_by_target (path_of (ns ++ [n])) s = None →
  file_at (v_fs s) ns = Some (true, c) → 0 ≤ mode < 4096 → regular s (ns ++ [n]) →
  ∃ s' o C' K' M', vfs_open (Some (path_of (ns ++ [n]))) flags mode s = Some (s', o) ∧ vfs_wf s' C' K' M' ∧ mounts s' = mounts s ∧
    keeps (v_fs s) (v_fs s') ∧ dentries s ⊆ dentries s' ∧ open_spec (λ q, dentries s !! q = None) flags (ns ++ [n]) s s' o.
Proof.
  intros Hwf Hns Hn Hpl Hnm Hdir Hmode Hreg. destruct (parent_of s C K M ns c Hwf Hns Hdir) as (r & d & xd & Hpar).
  assert (Forall name_ok (ns ++ [n])) as Hpath by (apply Forall_app; split; [done|by constructor]).
  assert (∃ c0 l0, join (ns ++ [n]) = c0 :: l0) as (c0 & l0 & Ej).
  { destruct ns as [|a ns2]; [by apply join_cons_ne|]. inversion_clear Hns. by apply join_cons_ne. }
  unfold vfs_open. assert (path_of (ns ++ [n]) = SLASH :: c0 :: l0) as Ep by (unfold path_of; by rewrite Ej). rewrite Ep, <- Ep.
  rewrite bool_decide_eq_false_2 by (rewrite Ep; done). rewrite Hnm.
  destruct (open_parent_ok s C K M r ns n d xd Hwf Hpar Hn Hpl) as (s1 & o & K1 & -> & He1 & W1 & Ho). cbn [mbind option_bind].
  destruct (match o with Some (p, name) => Some (Some p, name) | None => open_fallback (path_of (ns ++ [n])) s1 end) as [[po name]|].
  2:{ exists s1, None, C, K1, M. do 2 (split; [done|]). split; [apply He1|]. split; [by apply ext_keeps|]. split; [apply He1|]. by apply open_failed. }
  destruct Ho as (-> & p & dp & v & -> & Hdp & Hdi & Hv & Hloc).
  destruct (new_dentry_ok n None s1 C K1 M W1) as (s2 & o2 & -> & He2 & Ho). cbn [mbind option_bind].
  pose proof (ext_trans _ _ _ He1 He2) as He02. assert (dentries s2 !! p = Some dp) as Hdp2 by (eapply lookup_weaken; [done|apply He2]).
  assert (local s p dp s2) as Hloc2 by (eapply local_ext; [done|apply He2..]). destruct o2 as [child|].
  2:{ cbn [drop_parent]. destruct (free_local_ok s p dp s2 C K1 M Ho He02 Hdp2 Hloc2) as (s3 & K3 & -> & He3 & W3). cbn [mbind option_bind].
      exists s3, None, C, K3, M. do 2 (split; [done|]). split; [apply He3|]. split; [by apply ext_keeps|]. split; [apply He3|]. by apply open_failed. }
  destruct Ho as (Hc0 & Hcn & _ & _ & Ed2 & W2).
  assert (take NAME_MAX n = n) as Et by (destruct Hn as (_ & _ & Hl); unfold NAME_MAX, RAMFS_MAX_NAME in *; apply take_ge; lia). rewrite Et in Ed2.
  assert (child ≠ ROOT_DENTRY) as Hcr by (unfold ROOT_DENTRY; lia). assert (child ≠ p) as Hcp by congruence.
  destruct n as [|n0 n'] eqn:En; [by destruct Hn|]. rewrite <- En in *. cbn [mbind option_bind].
  set (d3 := mk_dentry n None (Some p)).
  assert (set_parent child (Some p) s2 = with_dentries (<[child := d3]> (dentries s2)) s2) as ->.
  { unfold set_parent. f_equal. apply map_eq. intros q. destruct (decide (q = child)) as [->|Hq];
      [by rewrite lookup_alter_eq, Ed2, !lookup_insert_eq|by rewrite lookup_alter_ne, lookup_insert_ne by done]. }
  assert (dentries s !! child = None) as Hcs.
  { destruct (dentries s !! child) eqn:E0; [|done]. by rewrite (lookup_weaken _ _ _ _ E0 (e_dentries _ _ He1)) in Hcn. }
  set (s3 := with_dentries _ s2). assert (ext s s3) as He3 by (by eapply (ext_insert s s2 s3 child d3)).
  assert (∀ q, pinned q s3 = pinned q s) as Hpe by (intros q; apply pinned_ext; apply He3).
  destruct (open_in_ok p dp v child flags mode s3 C (<[child := sizeof_dentry]> K1) M r ns d xd n) as (s' & o' & C' & K' & M' & E & W' & Em' & Er' & Hkp & Hok & Hspec); try done.
  - apply wf_dentry; [done|done|]. rewrite Ed2, lookup_insert_eq. eauto.
  - eapply parent_ext; [|exact Hpar]. apply He3.
  - cbn. by rewrite lookup_insert_ne.
  - eapply ext_vinode; [|exact Hv]. eapply ext_insert; [exact He2|exact Hcn|done..].
  - cbn. apply lookup_insert_eq.
  - eapply not_pinned_fresh; [exact W1|done|rewrite (e_mounts _ _ He3); symmetry; apply He1|rewrite (e_root _ _ He3); symmetry; apply He1].
  - intros Hp. destruct Hloc2 as [Hl|(_ & Hl & _ & Hl2)]; [|done]. rewrite (pinned_ext s s2) in Hl by apply He02. rewrite Hpe in Hp. congruence.
  - intros r0 c1 x Hr0 Hc1. destruct (e_nodes _ _ He3) as (Er & Ei & _). rewrite Er in Hr0. rewrite Ei.
    rewrite (same_nodes_resolve (v_fs s)) in Hc1 by apply He3. by eapply Hreg.
  - exists s', o', C', K', M'. split; [exact E|]. split; [done|]. split; [rewrite Em'; apply He3|].
    split; [eapply keeps_trans; [by apply ext_keeps|done]|]. split; [|eapply open_spec_pre; [done| |done]; by intros q ->].
    apply map_subseteq_spec. intros q e Hq. apply Hok; [congruence| |by eapply lookup_weaken; [|apply He3]].
    intros ->. rewrite Hpe. destruct Hloc2 as [Hl|(_ & _ & Hl & _)]; [by rewrite (pinned_ext s s2) in Hl by apply He02|congruence].
Qed.

(** ** Reading, writing and closing *)

Lemma opened_contents s C K M path fd child w c x pos l :
  vfs_wf s C K M → open_file s path fd child w c x pos → Forall name_ok path → path ≠ [] → file_at (v_fs s) path = Some (false, l) → contents (v_fs s) x = l.
Proof.
  intros Hwf [(r & Hr & Hres) Hx _ _ _ _ _] Hn Hne Hf. rewrite (file_at_resolve _ _ _ r _ (vw_fs _ _ _ _ Hwf)), Hres in Hf by done. cbn in Hf. rewrite Hx in Hf. by injection Hf.
Qed.

Lemma upd_file_insert fd g s x : files s !! fd = Some x → upd_file fd g s = with_files (<[fd := g x]> (files s)) s.
Proof.
  intros Hx. unfold upd_file. f_equal. apply map_eq. intros p.
  destruct (decide (p = fd)) as [->|Hp]; [by rewrite lookup_alter_eq, Hx, lookup_insert_eq|by rewrite lookup_alter_ne, lookup_insert_ne].
Qed.

Lemma write_open_ok s C K M path fd child w c x pos data l :
  vfs_wf s C K M → open_file s path fd child w c x pos → Forall name_ok path → path ≠ [] → file_at (v_fs s) path = Some (false, l) →
  0 ≤ pos → pos + Z.of_nat (length data) < 2 ^ 61 →
  ∃ s' ret M' x', vfs_write (Some fd) (Some data) s = Some (s', ret) ∧ vfs_wf s' C K M' ∧ mounts s' = mounts s ∧ delete fd (files s') = delete fd (files s) ∧
    dentries s' = dentries s ∧ keeps (v_fs s) (v_fs s') ∧
    ((ret = - ENOMEM ∧ open_file s' path fd child w c x' pos ∧ unchanged s s') ∨
     (ret = Z.of_nat (length data) ∧ open_file s' path fd child w c x' (pos + ret) ∧ updated s s' path (Some (false, splice pos data l)))).
Proof.
  intros Hwf Hof Hpath Hne Hfile Hpos Hend. pose proof (opened_contents _ _ _ _ _ _ _ _ _ _ _ _ Hwf Hof Hpath Hne Hfile) as Hcon.
  pose proof Hof as [(r & Hr & Hres) Hx Hk Hv (fl & md & Hfd) (n & q & Hd & Hq) Hchild].
  unfold vfs_write. rewrite Hfd. cbn [mbind option_bind f_op f_dentry f_private f_pos]. rewrite Hd. cbn [mbind option_bind d_inode].
  destruct (@write_file_ok H (framed K) (v_fs s) C M r path c x (Some w) data pos (vw_fs _ _ _ _ Hwf) Hr Hpath Hne Hres Hx (reg_not_directory _ Hk) Hpos Hend)
    as (f' & pos' & ret & M' & x' & E & Hwf' & Hr' & Hres' & Hx' & Hk' & Hkn & Hcase).
  change (ramfs_write (Some c) (Some w) data pos (v_fs s) = Some (f', pos', ret)) in E. rewrite E. cbn [mbind option_bind].
  assert (same_private (v_fs s) f') as Hsp by (intros v; by eapply write_vinodes).
  rewrite (upd_file_insert fd _ (with_fs f' s) _ Hfd). set (s' := with_files _ _).
  assert (vfs_wf s' C K M') as W'.
  { apply wf_file; [|by eapply (vw_file _ _ _ _ Hwf)]. by eapply (wf_same_private s C K M f' M' r). }
  assert (open_file s' path fd child w c x' pos') as Hof'.
  { split; [eauto|done|by rewrite Hk'| |exists fl, md; cbn; by rewrite lookup_insert_eq|eauto|done].
    eapply same_private_vinode; [done|done|]. eauto. }
  exists s', ret, M', x'. split; [done|]. split; [done|]. split; [done|]. split; [cbn; by rewrite delete_insert_eq|]. split; [done|]. split.
  { split; [done|]. intros v i Hi. specialize (Hsp v). by rewrite Hi in Hsp. }
  rewrite Hcon in Hcase. destruct Hcase as [(-> & -> & Hu)|(-> & -> & Hu)]; [left|right]; done.
Qed.

Lemma read_open_ok s C K M path fd child w c x pos count l :
  vfs_wf s C K M → open_file s path fd child w c x pos → Forall name_ok path → path ≠ [] → file_at (v_fs s) path = Some (false, l) →
  0 ≤ pos < 2 ^ 62 → 0 ≤ count →
  let bytes := take (Z.to_nat count) (drop (Z.to_nat pos) l) in
  ∃ s', vfs_read (Some fd) true count s = Some (s', bytes, Z.of_nat (length bytes)) ∧ vfs_wf s' C K M ∧ v_fs s' = v_fs s ∧ mounts s' = mounts s ∧
    delete fd (files s') = delete fd (files s) ∧ dentries s' = dentries s ∧ open_file s' path fd child w c x (pos + Z.of_nat (length bytes)).
Proof.
  intros Hwf Hof Hpath Hne Hfile Hpos Hcount bytes. pose proof (opened_contents _ _ _ _ _ _ _ _ _ _ _ _ Hwf Hof Hpath Hne Hfile) as Hcon.
  pose proof Hof as [(r & Hr & Hres) Hx Hk Hv (fl & md & Hfd) (n & q & Hd & Hq) Hchild].
  unfold vfs_read. cbn [negb]. rewrite Hfd. cbn [mbind option_bind f_op f_private f_pos].
  rewrite (@read_contents H (framed K) (v_fs s) C M c x count pos (vw_fs _ _ _ _ Hwf) Hx Hcount Hpos), Hcon. fold bytes. cbn [mbind option_bind].
  rewrite (upd_file_insert fd _ s _ Hfd). set (s' := with_files _ _). exists s'. split; [done|].
  split; [apply wf_file; [done|by eapply (vw_file _ _ _ _ Hwf)]|]. do 2 (split; [done|]). split; [cbn; by rewrite delete_insert_eq|]. split; [done|].
  split; [eauto|done|done|done|exists fl, md; cbn; by rewrite lookup_insert_eq|eauto|done].
Qed.

(** Freeing a [struct file]. *)
Lemma free_file_ok s C K M fd x :
  vfs_wf s C K M → files s !! fd = Some x →
  ∃ h, kf fd s = Some (with_fs (with_heap h (v_fs s)) s) ∧
    vfs_wf (with_files (delete fd (files s)) (with_fs (with_heap h (v_fs s)) s)) C (delete fd K) M.
Proof.
  intros Hwf Hx. pose proof (vw_file _ _ _ _ Hwf fd x Hx) as HK. destruct (kf_ok fd _ s C K M (vw_fs _ _ _ _ Hwf) HK) as (h & E & Hwf').
  exists h. split; [done|]. destruct Hwf as [H1 H2 H3 H4 H5 H6 H7 H8].
  assert (∀ p n, K !! p = Some n → n ≠ sizeof_file → delete fd K !! p = Some n) as Hdel.
  { intros p n Hp Hn. rewrite lookup_delete_ne; [done|]. intros ->. congruence. }
  split; try done; cbn.
  - intros v i Hi. destruct (H2 v i Hi); [by left|right]. by apply Hdel.
  - intros p d Hd. destruct (H3 p d Hd); [by left|right]. by apply Hdel.
  - intros p y Hy. apply lookup_delete_Some in Hy as [Hne Hy]. rewrite lookup_delete_ne by done. by eapply H4.
Qed.

Lemma close_open_ok s C K M path fd child w c x pos :
  vfs_wf s C K M → open_file s path fd child w c x pos →
  ∃ s', vfs_close (Some fd) s = Some (s', 0) ∧ vfs_wf s' C (delete fd (delete child K)) M ∧ same_tree s s' ∧ mounts s' = mounts s ∧ files s' = delete fd (files s) ∧
    dentries s' = delete child (dentries s).
Proof.
  intros Hwf Hof. pose proof Hof as [_ Hx Hk Hv (fl & md & Hfd) (n & q & Hd & Hq) (Hcr & Hcp)].
  unfold vfs_close. rewrite Hfd. cbn [mbind option_bind f_op f_dentry f_count]. rewrite Hd. cbn [mbind option_bind].
  rewrite (upd_file_insert fd _ s _ Hfd). erewrite upd_file_insert by (cbn; apply lookup_insert_eq). cbn [Z.leb Z.sub Z.compare].
  set (s1 := with_files _ _). assert (vfs_wf s1 C K M) as W1 by (unfold s1; repeat (apply wf_file; [|by eapply (vw_file _ _ _ _ Hwf)]); done).
  destruct (free_child_ok child (mk_dentry n (Some w) (Some q)) q s1 C K M W1) as (s2 & K2 & E2 & Ho2 & W2 & EK2); try done.
  { intros ->. congruence. }
  { intros Hf. exfalso. by rewrite (pinned_ext s s1), Hq in Hf. }
  rewrite E2. cbn [mbind option_bind].
  assert (mounts s2 = mounts s ∧ same_tree s s2 ∧ delete fd (files s2) = delete fd (files s) ∧ dentries s2 = delete child (dentries s) ∧ is_Some (files s2 !! fd))
    as (Em2 & Hu2 & Ef2 & Ed2 & y & Hy).
  { split; [by destruct Ho2 as [h ->]|]. split; [by destruct Ho2 as [h ->]|]. destruct Ho2 as [h ->]. cbn.
    assert (pinned q s1 = true) as -> by (by rewrite (pinned_ext s s1)). by rewrite lookup_insert_eq, !delete_insert_eq. }
  destruct (free_file_ok s2 C K2 M fd y W2 Hy) as (h & -> & W3). cbn [mbind option_bind]. eexists. split; [reflexivity|]. split.
  { rewrite EK2 in W3 by (by rewrite (pinned_ext s s1)). exact W3. }
  split; [|done]. unfold same_tree in *. cbn. by rewrite Hu2.
Qed.

Lemma same_tree_nodes s s' : same_tree s s' → same_nodes (v_fs s) (v_fs s').
Proof. intros E. by rewrite E. Qed.

Lemma opened_regular s path fd pos : opened s path fd pos → regular s path.
Proof.
  intros (child & w & c & x & [(r & Hr & Hres) Hx Hk _ _ _ _]) r' c' x' Hr' Hc' Hx'. assert (r' = r) as -> by congruence.
  assert (c' = c) as -> by congruence. congruence.
Qed.

Lemma same_nodes_regular s s' path : same_nodes (v_fs s) (v_fs s') → regular s path → regular s' path.
Proof. intros Hs Hreg r c x. pose proof Hs as (-> & -> & _). rewrite (same_nodes_resolve (v_fs s)) by done. apply Hreg. Qed.

Lemma same_nodes_unchanged s s' : same_nodes (v_fs s) (v_fs s') → unchanged s s'.
Proof. intros Hs ms _. by apply same_nodes_file. Qed.

(** Calls on other files leave an open file open, at the same place. *)
Lemma open_file_frame s s' path fd child w c x pos :
  open_file s path fd child w c x pos → keeps (v_fs s) (v_fs s') → mounts s' = mounts s → root_dentry s' = root_dentry s →
  files s' !! fd = files s !! fd → dentries s' !! child = dentries s !! child → ∃ x', open_file s' path fd child w c x' pos.
Proof.
  intros [(r & Hr & Hres) Hx Hk (i & Hi & Hp & Hin) Hfd (n & q & Hd & Hq) (Hcr & Hcp)] [Hkn Hkv] Em Er Ef Ed.
  assert (∀ q, pinned q s' = pinned q s) as Hpe by (intros q'; by apply pinned_ext).
  destruct (Hkn r path c x Hr Hres Hx) as (Hr' & Hres' & x' & Hx' & Hm). destruct (Hkv w i Hi) as (i' & Hi' & Hp'). exists x'. split.
  - eauto.
  - done.
  - by rewrite Hm.
  - exists i'. split; [done|]. split; [congruence|eauto].
  - by rewrite Ef.
  - exists n, q. by rewrite Ed, Hpe.
  - by rewrite Hpe.
Qed.

(** ** vfs_save_file *)

Lemma splice_nil pos l : 0 ≤ pos ≤ Z.of_nat (length l) → splice pos [] l = l.
Proof.
  intros Hpos. unfold splice. cbn [app length]. rewrite Nat.add_0_r. replace (Z.to_nat pos - length l)%nat with 0%nat by lia. apply take_drop.
Qed.

(** One write takes all of the data, or fails. *)
Lemma save_loop_ok s C K M path fd pos data l :
  vfs_wf s C K M → opened s path fd pos → Forall name_ok path → path ≠ [] → file_at (v_fs s) path = Some (false, l) →
  0 ≤ pos ≤ Z.of_nat (length l) → Z.of_nat (length l) < 2 ^ 60 → Z.of_nat (length data) ≤ 0x7fffffff →
  ∃ s' ret K' M', save_loop (length data) fd data 0 s = Some (s', ret) ∧ vfs_wf s' C K' M' ∧ mounts s' = mounts s ∧ files s' = delete fd (files s) ∧
    regular s' path ∧
    ((ret = Z.of_nat (length data) ∧ updated s s' path (Some (false, splice pos data l))) ∨ (ret = - EIO ∧ unchanged s s')).
Proof.
  intros Hwf Hop Hpath Hne Hfile Hpos Hl Hlen. pose proof Hop as (child & w & c & x & Hof). destruct data as [|b data'] eqn:Edata.
  { cbn [length save_loop]. destruct (close_open_ok _ _ _ _ _ _ _ _ _ _ _ Hwf Hof) as (s' & -> & W' & Hs'%same_tree_nodes & Em & Ef & _). cbn [mbind option_bind].
    eexists s', 0, _, M. do 4 (split; [done|]). split; [eapply same_nodes_regular; [done|by eapply opened_regular]|].
    left. split; [done|]. rewrite splice_nil by done. intros ms Hms. rewrite (same_nodes_file (v_fs s)) by done. by case_decide; [subst ms|]. }
  rewrite <- Edata in *. assert (save_loop (length data) fd data 0 s = '(s1, written) ← vfs_write (Some fd) (Some data) s;
    if written <=? 0 then '(s, _) ← vfs_close (Some fd) s1; Some (s, - EIO) else save_loop (length data') fd (drop (Z.to_nat written) data) (0 + written) s1) as -> by (by rewrite Edata).
  destruct (write_open_ok _ _ _ _ _ _ _ _ _ _ _ data l Hwf Hof Hpath Hne Hfile) as (s1 & ret & M1 & x1 & -> & W1 & Em1 & Ef1 & _ & _ & Hcase); [lia|lia|]. cbn [mbind option_bind].
  assert (∀ pos', open_file s1 path fd child w c x1 pos' → ∃ s' K', vfs_close (Some fd) s1 = Some (s', 0) ∧ vfs_wf s' C K' M1 ∧ mounts s' = mounts s ∧
    files s' = delete fd (files s) ∧ regular s' path ∧ unchanged s1 s') as Hclose.
  { intros pos' Hop1. destruct (close_open_ok _ _ _ _ _ _ _ _ _ _ _ W1 Hop1) as (s' & -> & W' & Hs'%same_tree_nodes & Em & Ef & _). eexists s', _. split; [done|].
    split; [done|]. split; [congruence|]. split; [congruence|]. split; [eapply same_nodes_regular; [done|eapply opened_regular; by exists child, w, c, x1]|by apply same_nodes_unchanged]. }
  destruct Hcase as [(-> & Hop1 & Hu1)|(-> & Hop1 & Hu1)].
  - cbn [Z.leb Z.opp ENOMEM]. destruct (Hclose pos Hop1) as (s' & K' & -> & W' & Em & Ef & Hreg & Hu). cbn.
    exists s', (- EIO), K', M1. do 5 (split; [done|]). right. split; [done|]. by eapply unchanged_trans.
  - destruct (Z.leb_spec (Z.of_nat (length data)) 0) as [Hbad|_]; [exfalso; rewrite Edata in Hbad; cbn in Hbad; lia|].
    rewrite Nat2Z.id, drop_all. destruct (Hclose _ Hop1) as (s' & K' & Ec & W' & Em & Ef & Hreg & Hu).
    assert (save_loop (length data') fd [] (0 + Z.of_nat (length data)) s1 = Some (s', Z.of_nat (length data))) as ->.
    { assert (∀ k total, save_loop k fd [] total s1 = Some (s', i32 total)) as -> by (intros [|k] total; cbn [save_loop]; rewrite Ec; done).
      do 2 f_equal. rewrite Z.add_0_l. apply i32_small. lia. }
    exists s', (Z.of_nat (length data)), K', M1. do 5 (split; [done|]). left. split; [done|]. by eapply updated_post.
Qed.

(** What is at [path] before, and after a successful save. *)
Definition old_data s (path : list (list Z)) : list Z := snd (default (false, []) (file_at (v_fs s) path)).
Definition saved (flags : Z) (data old : list Z) : list Z := if has flags VFS_SAVE_APPEND then old ++ data else data.

(** A failed save may leave the file created and truncated, but nothing else. *)
Definition save_spec (flags : Z) (path : list (list Z)) (data : list Z) s s' (ret : Z) : Prop :=
  (ret = Z.of_nat (length data) ∧ updated s s' path (Some (false, saved flags data (old_data s path)))) ∨
  (ret < 0 ∧ (unchanged s s' ∨ updated s s' path (Some (false, saved flags [] (old_data s path))))).

Lemma save_ok s C K M ns n data flags c :
  vfs_wf s C K M → Forall name_ok ns → name_ok n → plain (path_of (ns ++ [n])) s → find_mount_by_target (path_of (ns ++ [n])) s = None →
  file_at (v_fs s) ns = Some (true, c) → regular s (ns ++ [n]) → Z.of_nat (length (old_data s (ns ++ [n]))) < 2 ^ 60 →
  has flags VFS_SAVE_CREATE_PARENTS = false →
  ∃ s' ret C' K' M', vfs_save_file (Some (path_of (ns ++ [n]))) (Some data) (Z.of_nat (length data)) flags s = Some (s', ret) ∧ vfs_wf s' C' K' M' ∧
    mounts s' = mounts s ∧ files s' = files s ∧ (0 ≤ ret → regular s' (ns ++ [n])) ∧ save_spec flags (ns ++ [n]) data s s' ret.
Proof.
  intros Hwf Hns Hn Hpl Hnm Hdir Hreg Hold Hflags. set (path := ns ++ [n]) in *.
  assert (Forall name_ok path) as Hpath by (apply Forall_app; split; [done|by constructor]). assert (path ≠ []) as Hne by (unfold path; by destruct ns).
  unfold vfs_save_file. change (path_of path) with (SLASH :: join path). change (SLASH :: join path) with (path_of path).
  unfold save. destruct (Z.ltb_spec 0x7fffffff (Z.of_nat (length data))) as [Hbig|Hlen].
  { exists s, (- EFBIG), C, K, M. do 4 (split; [done|]). split; [done|]. right. split; [done|]. by left. }
  rewrite Hflags. cbn [mbind option_bind]. set (ap := has flags VFS_SAVE_APPEND).
  set (fl := Z.lor (Z.lor O_WRONLY O_CREAT) (if ap then O_APPEND else O_TRUNC)).
  assert (has fl O_TRUNC = negb ap ∧ has fl O_APPEND = ap ∧ has fl O_CREAT = true) as (Ht & Ha & Hcr) by (unfold fl; by destruct ap).
  destruct (open_ok s C K M ns n fl 0x1A4 c Hwf Hns Hn Hpl Hnm Hdir) as (s1 & o & C1 & K1 & M1 & E1 & W1 & Em1 & _ & _ & Hspec); [done|done|]. fold path in E1, Hspec.
  rewrite E1. cbn [mbind option_bind]. unfold save_spec, saved. fold ap. rewrite app_nil_r. destruct o as [fd|].
  - unfold open_spec in Hspec. rewrite Ht, Ha in Hspec. fold (old_data s path) in Hspec. destruct Hspec as (Hf0 & Ef1 & _ & (child & w & ci & x & _ & Hof & _) & Hu1).
    set (l := if negb ap then [] else old_data s path) in *.
    assert (file_at (v_fs s1) path = Some (false, l)) as Hfile by (rewrite Hu1, decide_True by done; done).
    destruct (save_loop_ok s1 C1 K1 M1 path fd _ data l W1 ltac:(by exists child, w, ci, x) Hpath Hne Hfile) as (s' & ret & K' & M' & -> & W' & Em' & Ef' & Hreg' & Hcase).
    { destruct ap; lia. } { unfold l. destruct ap; [done|cbn; lia]. } { done. }
    assert (splice (if ap then Z.of_nat (length l) else 0) data l = if ap then old_data s path ++ data else data) as Esp.
    { unfold splice, l. destruct ap; cbn [negb].
      - rewrite Nat2Z.id, Nat.sub_diag, take_ge, drop_ge by lia. cbn. by rewrite app_nil_r.
      - cbn [length]. rewrite drop_nil. cbn. by rewrite app_nil_r. }
    exists s', ret, C1, K', M'. split; [done|]. split; [done|]. split; [congruence|]. split; [congruence|]. split; [done|].
    destruct Hcase as [(-> & Hu)|(-> & Hu)]; [left|right]; (split; [done|]).
    + rewrite Esp in Hu. intros ms Hms. rewrite Hu by done. case_decide; [done|]. rewrite Hu1 by done. by rewrite decide_False.
    + right. unfold l in Hu1. destruct ap; by eapply updated_post.
  - destruct Hspec as (Ef1 & Hcase). exists s1, (- ENOENT), C1, K1, M1. do 4 (split; [done|]). split; [done|]. right. split; [done|].
    destruct Hcase as [Hu|(_ & Hno & Hu)]; [by left|right]. unfold old_data. rewrite Hno. by destruct ap.
Qed.

(** ** The root file system at boot *)

Definition RAMFS_NAME : list Z := bytes_of_string "ramfs"%string.
Definition fresh_vfs (d : storage) (h : H) : vfs H := mk_vfs (mk_fs None 0 0 ∅ ∅ ∅ h) d ∅ ∅ ∅ ∅ ∅ [] [] [] 0 None None.
(** vfs_init, ramfs_init and iso9660_init. *)
Definition registered_vfs (d : storage) (h : H) : vfs H :=
  fst (register_filesystem ISO9660 (fst (register_filesystem RAMFS (vfs_init (fresh_vfs d h))))).
Definition boot_vfs (d : storage) (h : H) : option (vfs H * Z) := vfs_mount RAMFS_NAME [SLASH] RAMFS_NAME (registered_vfs d h).

Lemma boot_ok d h M :
  kh_inv h M →
  ∃ s r, boot_vfs d h = Some (s, r) ∧
    (r = 0 → files s = ∅ ∧ mounts s = Some (mk_mount (Some ROOT_DENTRY) RAMFS_NAME [SLASH] RAMFS_NAME) :: replicate 63 None ∧
       ∃ M', vfs_wf s (λ _, []) ∅ M') ∧ (r ≠ 0 → r = - EIO).
Proof.
  intros Hh. destruct (@mount_ok H (framed ∅) h M) as (f & ok & E & Hok); [split; [apply map_disjoint_empty_l|by rewrite (left_id_L ∅ (∪))]|].
  change (ramfs_mount (mk_fs None 0 0 ∅ ∅ ∅ h) = Some (f, ok)) in E.
  unfold boot_vfs. set (s0 := registered_vfs d h).
  assert (s0 = mk_vfs (mk_fs None 0 0 ∅ ∅ ∅ h) d ∅ ∅ ∅ ∅ ∅ [ISO9660; RAMFS; FAT32] (replicate 64 None) (replicate 64 false) 0 None None) as Es0 by reflexivity.
  unfold vfs_mount. assert (find_filesystem RAMFS_NAME s0 = Some RAMFS) as -> by (rewrite Es0; reflexivity).
  assert (find_mount_by_target [SLASH] s0 = None) as -> by (rewrite Es0; reflexivity). assert (mount_count s0 = 0) as -> by (rewrite Es0; reflexivity).
  cbn [Z.leb Z.compare MAX_MOUNTS Z.of_nat]. assert (v_fs s0 = mk_fs None 0 0 ∅ ∅ ∅ h) as Ef by (rewrite Es0; reflexivity).
  unfold fs_mount. rewrite Ef, E. cbn [mbind option_bind]. destruct ok.
  2:{ eexists _, _. split; [reflexivity|]. done. }
  eexists _, _. rewrite Es0. split; [reflexivity|]. split; [|done]. intros _. split; [reflexivity|]. split; [reflexivity|].
  destruct Hok as (p & Hwf & Hr & Hv). exists (<[p := sizeof_ramfs_inode]> M).
  split; try done; cbn -[replicate ROOT_DENTRY].
  - intros v i. rewrite Hv. intros [-> _]%lookup_singleton_Some. by left.
  - intros q de. intros [-> _]%lookup_singleton_Some. by left.
  - exists p. split; [done|]. eexists. rewrite Hv, lookup_singleton_eq. split; [done|]. split; [done|].
    destruct (root_in _ _ _ _ Hwf Hr) as (x & Hx & _). eauto.
  - intros i m rd Hm. apply list_lookup_insert_Some in Hm as [(_ & [= <-] & _)|[_ Hm]].
    + intros [= <-]. by eexists.
    + apply lookup_replicate in Hm as [[=] _].
Qed.

(** ** The calls implement the map from paths to files *)

(** C34: vfs_create and vfs_mkdir of a path whose parent is a directory of the
    root file system return without a fault, keep the VFS well formed with its
    mounts and open files, and either add an empty file or directory at that
    path and nothing else, or fail; a failure changes no path, but for -ENOMEM
    after the node was linked, which leaves the new empty node behind. *)
Theorem vfs_make_refines (isdir : bool) s C K M ns n mode c :
  vfs_wf s C K M → Forall name_ok ns → name_ok n → plain (path_of (ns ++ [n])) s → file_at (v_fs s) ns = Some (true, c) → 0 ≤ mode < 4096 →
  ∃ s' ret, (if isdir then vfs_mkdir else vfs_create) (path_of (ns ++ [n])) mode s = Some (s', ret) ∧ (∃ C' K' M', vfs_wf s' C' K' M') ∧
    mounts s' = mounts s ∧ files s' = files s ∧ make_spec isdir (ns ++ [n]) s s' ret.
Proof.
  intros Hwf Hns Hn Hpl Hdir Hmode. destruct (make_ok isdir s C K M ns n mode c) as (s' & ret & C' & K' & M' & E & W & Hrest); try done.
  exists s', ret. split; [by destruct isdir|]. split; [eauto|done].
Qed.

(** C35: vfs_unlink and vfs_rmdir remove exactly the file or the directory at
    the path, or fail and change no path; -EISDIR and -ENOTDIR are returned
    only for the other kind, -ENOTEMPTY only for a directory with entries. *)
Theorem vfs_remove_refines (isdir : bool) s C K M ns n c :
  vfs_wf s C K M → Forall name_ok ns → name_ok n → plain (path_of (ns ++ [n])) s → file_at (v_fs s) ns = Some (true, c) →
  ∃ s' ret, (if isdir then vfs_rmdir else vfs_unlink) (path_of (ns ++ [n])) s = Some (s', ret) ∧ (∃ C' K' M', vfs_wf s' C' K' M') ∧
    mounts s' = mounts s ∧ files s' = files s ∧ remove_spec isdir (ns ++ [n]) s s' ret.
Proof.
  intros Hwf Hns Hn Hpl Hdir. destruct (remove_ok isdir s C K M ns n c) as (s' & ret & C' & K' & M' & E & W & Hrest); try done.
  exists s', ret. split; [by destruct isdir|]. split; [eauto|done].
Qed.

(** C3: vfs_save_file without VFS_SAVE_CREATE_PARENTS, on a plain path into an
    existing directory that names a regular file (of less than 2^60 bytes) or
    nothing, returns.  Either the result is the number of bytes that were to be
    written, and these replace the contents of the file or, with
    VFS_SAVE_APPEND, are appended to them; or the result is an error, and at
    most the file has been created or, without VFS_SAVE_APPEND, truncated.  No
    other path changes, the mounts stay, and no file is left open. *)
Theorem vfs_save_file_refines s C K M ns n data flags c :
  vfs_wf s C K M → Forall name_ok ns → name_ok n → plain (path_of (ns ++ [n])) s → find_mount_by_target (path_of (ns ++ [n])) s = None →
  file_at (v_fs s) ns = Some (true, c) → regular s (ns ++ [n]) → Z.of_nat (length (old_data s (ns ++ [n]))) < 2 ^ 60 →
  has flags VFS_SAVE_CREATE_PARENTS = false →
  ∃ s' ret, vfs_save_file (Some (path_of (ns ++ [n]))) (Some data) (Z.of_nat (length data)) flags s = Some (s', ret) ∧
    (∃ C' K' M', vfs_wf s' C' K' M') ∧ mounts s' = mounts s ∧ files s' = files s ∧ save_spec flags (ns ++ [n]) data s s' ret.
Proof.
  intros Hwf Hns Hn Hpl Hnm Hdir Hreg Hold Hfl.
  destruct (save_ok s C K M ns n data flags c) as (s' & ret & C' & K' & M' & E & W & Em & Ef & _ & Hspec); try done.
  exists s', ret. split; [done|]. split; [eauto|done].
Qed.

Lemma plain_mounts path s s' : mounts s' = mounts s → plain path s → plain path s'.
Proof. intros Em Hpl m [Hin Hr]. apply Hpl. split; [by rewrite <- Em|done]. Qed.

(** C4: what vfs_save_file has written, a later open, read and close give
    back, from the first byte on; the close releases the file and no path has
    changed. The open can fail for lack of memory only. *)
Theorem vfs_save_read_roundtrip s C K M ns n data flags c s1 ret count :
  vfs_wf s C K M → Forall name_ok ns → name_ok n → plain (path_of (ns ++ [n])) s → find_mount_by_target (path_of (ns ++ [n])) s = None →
  file_at (v_fs s) ns = Some (true, c) → regular s (ns ++ [n]) → Z.of_nat (length (old_data s (ns ++ [n]))) < 2 ^ 60 →
  has flags VFS_SAVE_CREATE_PARENTS = false → 0 ≤ count →
  vfs_save_file (Some (path_of (ns ++ [n]))) (Some data) (Z.of_nat (length data)) flags s = Some (s1, ret) → 0 ≤ ret →
  let bytes := take (Z.to_nat count) (saved flags data (old_data s (ns ++ [n]))) in
  ∃ s2 o, vfs_open (Some (path_of (ns ++ [n]))) 0 0 s1 = Some (s2, o) ∧
    match o with
    | None => unchanged s1 s2
    | Some fd => ∃ s3 s4, vfs_read (Some fd) true count s2 = Some (s3, bytes, Z.of_nat (length bytes)) ∧
        vfs_close (Some fd) s3 = Some (s4, 0) ∧ unchanged s1 s4 ∧ files s4 = files s
    end.
Proof.
  intros Hwf Hns Hn Hpl Hnm Hdir Hreg Hold Hfl Hcount Hsave Hret bytes. set (path := ns ++ [n]) in *.
  assert (Forall name_ok path) as Hpath by (apply Forall_app; split; [done|by constructor]). assert (path ≠ []) as Hne by (unfold path; by destruct ns).
  destruct (save_ok s C K M ns n data flags c) as (s1' & ret' & C1 & K1 & M1 & E & W1 & Em1 & Ef1 & Hreg1 & Hspec); try done.
  fold path in E, Hreg1, Hspec. rewrite Hsave in E. injection E as <- <-. destruct Hspec as [[-> Hu]|[Hneg _]]; [|lia].
  set (l := saved flags data (old_data s path)) in *.
  assert (file_at (v_fs s1) path = Some (false, l)) as Hfile by (rewrite Hu, decide_True by done; done).
  assert (file_at (v_fs s1) ns = Some (true, c)) as Hdir1.
  { rewrite Hu by done. rewrite decide_False; [done|]. unfold path. intros Heq. apply (f_equal length) in Heq. rewrite length_app in Heq. cbn in Heq. lia. }
  destruct (open_ok s1 C1 K1 M1 ns n 0 0 c W1 Hns Hn) as (s2 & o & C2 & K2 & M2 & E2 & W2 & Em2 & _ & _ & Ho); try done.
  { by eapply plain_mounts. } { unfold find_mount_by_target in *. by rewrite Em1. } { by apply Hreg1. }
  fold path in E2, Ho. exists s2, o. split; [done|]. destruct o as [fd|]; [|by destruct Ho as [_ [Ho|[[=] _]]]].
  destruct Ho as (Hnew & Ef2 & _ & (child & w & ci & x & _ & Hop & _) & Hu2). change (has 0 O_TRUNC) with false in *. change (has 0 O_APPEND) with false in *. cbv iota in Hop, Hu2.
  rewrite Hfile in Hu2. change (snd (default (false, []) (Some (false, l)))) with l in Hu2.
  assert (unchanged s1 s2) as Hu12 by (intros ms Hms; rewrite Hu2 by done; case_decide; [by subst ms|done]).
  assert (file_at (v_fs s2) path = Some (false, l)) as Hfile2 by (by rewrite Hu12).
  destruct (read_open_ok _ _ _ _ _ _ _ _ _ _ _ count l W2 Hop Hpath Hne Hfile2) as (s3 & E3 & W3 & Efs3 & Em3 & Ef3 & _ & Hop3); [done|done|].
  destruct (close_open_ok _ _ _ _ _ _ _ _ _ _ _ W3 Hop3) as (s4 & E4 & W4 & Hs4%same_tree_nodes & Em4 & Ef4 & _).
  assert (unchanged s2 s3) as Hu3 by (intros ms _; by rewrite Efs3).
  exists s3, s4. split; [exact E3|]. split; [exact E4|]. split; [|congruence].
  eapply unchanged_trans; [exact Hu12|]. eapply unchanged_trans; [exact Hu3|]. by apply same_nodes_unchanged.
Qed.
End Open.

(** ** A concrete run over the kernel heap *)

Definition demo_vfs : vfs heap := fst (default (fresh_vfs no_disks boot_heap, 0) (boot_vfs no_disks boot_heap)).

Lemma demo_vfs_wf : ∃ M, vfs_wf demo_vfs (λ _, []) ∅ M.
Proof.
  destruct (boot_ok no_disks boot_heap ∅) as (s & r & E & H & _); [by apply heap_owns_init|].
  assert (r = 0) as ->.
  { assert (snd <$> boot_vfs no_disks boot_heap = Some 0) as E' by (vm_compute; reflexivity). rewrite E in E'. by apply (inj Some) in E'. }
  destruct (H eq_refl) as (_ & _ & M' & W). exists M'. unfold demo_vfs. rewrite E. exact W.
Qed.

Lemma demo_mounts : mounts demo_vfs = Some (mk_mount (Some ROOT_DENTRY) RAMFS_NAME [SLASH] RAMFS_NAME) :: replicate 63 None.
Proof. vm_compute. reflexivity. Qed.

Lemma demo_plain path : plain path demo_vfs.
Proof.
  intros m [Hin _] _. rewrite demo_mounts in Hin. apply elem_of_cons in Hin as [[= ->]|Hin]; [done|]. by apply elem_of_replicate in Hin as [[=] _].
Qed.

Lemma demo_root_dir : file_at (v_fs demo_vfs) [] = Some (true, []).
Proof. vm_compute. reflexivity. Qed.

Lemma demo_absent : file_at (v_fs demo_vfs) [demo_name] = None.
Proof. vm_compute. reflexivity. Qed.

Lemma demo_regular : regular demo_vfs [demo_name].
Proof.
  intros r c x Hr Hc Hx. destruct demo_vfs_wf as [M W].
  pose proof demo_absent as Ha. rewrite (file_at_resolve _ _ _ r _ (vw_fs _ _ _ _ W)), Hc in Ha by (done || exact demo_names_ok).
  cbn [mbind option_bind] in Ha. rewrite Hx in Ha. done.
Qed.

Lemma vfs_make_refines_witness :
  ∃ s', vfs_mkdir (path_of [demo_name]) 0x1ED demo_vfs = Some (s', 0) ∧ file_at (v_fs s') [demo_name] = Some (true, []).
Proof.
  destruct demo_vfs_wf as [M W].
  destruct (vfs_make_refines true demo_vfs (λ _, []) ∅ M [] demo_name 0x1ED [] W) as (s' & ret & E & _ & _ & _ & Hspec);
    [constructor|exact demo_name_ok|apply demo_plain|exact demo_root_dir|lia|].
  change ([] ++ [demo_name]) with [demo_name] in *. cbv iota in E. exists s'.
  assert (ret = 0) as ->.
  { assert (snd <$> vfs_mkdir (path_of [demo_name]) 0x1ED demo_vfs = Some 0) as E' by (vm_compute; reflexivity). rewrite E in E'. by apply (inj Some) in E'. }
  split; [exact E|]. destruct Hspec as [(_ & _ & Hu)|[(Hne & _)|(Hno & _)]]; [|by destruct Hne|discriminate Hno].
  rewrite Hu by exact demo_names_ok. by rewrite decide_True.
Defined.

Lemma vfs_save_file_refines_witness :
  ∃ s', vfs_save_file (Some (path_of [demo_name])) (Some demo_content) 5 0 demo_vfs = Some (s', 5) ∧
    file_at (v_fs s') [demo_name] = Some (false, demo_content).
Proof.
  destruct demo_vfs_wf as [M W].
  destruct (vfs_save_file_refines demo_vfs (λ _, []) ∅ M [] demo_name demo_content 0 [] W) as (s' & ret & E & _ & _ & _ & Hspec);
    [constructor|exact demo_name_ok|apply demo_plain|vm_compute; reflexivity|exact demo_root_dir|exact demo_regular|vm_compute; reflexivity|reflexivity|].
  change ([] ++ [demo_name]) with [demo_name] in *. change (Z.of_nat (length demo_content)) with 5 in *. exists s'.
  assert (ret = 5) as ->.
  { assert (snd <$> vfs_save_file (Some (path_of [demo_name])) (Some demo_content) 5 0 demo_vfs = Some 5) as E' by (vm_compute; reflexivity).
    rewrite E in E'. by apply (inj Some) in E'. }
  split; [exact E|]. destruct Hspec as [(_ & Hu)|(Hneg & _)]; [|discriminate Hneg]. rewrite Hu by exact demo_names_ok. by rewrite decide_True.
Defined.

Definition demo_save : option (vfs heap * Z) :=
  vfs_save_file (Some (path_of ([] ++ [demo_name]))) (Some demo_content) (Z.of_nat (length demo_content)) 0 demo_vfs.

Lemma demo_save_ok :
  ∃ s C K M, demo_save = Some (s, 5) ∧ vfs_wf s C K M ∧ mounts s = mounts demo_vfs ∧ file_at (v_fs s) [] = Some (true, []).
Proof.
  destruct demo_vfs_wf as [M W].
  destruct (save_ok demo_vfs (λ _, []) ∅ M [] demo_name demo_content 0 [] W) as (s' & ret & C' & K' & M' & E & W' & Em & _ & _ & Hspec);
    [constructor|exact demo_name_ok|apply demo_plain|vm_compute; reflexivity|exact demo_root_dir|exact demo_regular|vm_compute; reflexivity|reflexivity|].
  fold demo_save in E. assert (ret = 5) as ->.
  { assert (snd <$> demo_save = Some 5) as E' by (vm_compute; reflexivity). rewrite E in E'. by apply (inj Some) in E'. }
  exists s', C', K', M'. split; [exact E|]. split; [exact W'|]. split; [exact Em|].
  destruct Hspec as [(_ & Hu)|(Hneg & _)]; [|discriminate Hneg]. rewrite Hu by constructor. rewrite decide_False by discriminate. exact demo_root_dir.
Qed.

Lemma vfs_save_read_roundtrip_witness :
  ∃ s1 s2 fd s3, demo_save = Some (s1, 5) ∧ vfs_open (Some (path_of ([] ++ [demo_name]))) 0 0 s1 = Some (s2, Some fd) ∧
    vfs_read (Some fd) true 100 s2 = Some (s3, demo_content, 5).
Proof.
  destruct demo_vfs_wf as [M W]. destruct demo_save_ok as (s1 & _ & _ & _ & Es & _).
  destruct (vfs_save_read_roundtrip demo_vfs (λ _, []) ∅ M [] demo_name demo_content 0 [] s1 5 100 W) as (s2 & o & E & Ho);
    [constructor|exact demo_name_ok|apply demo_plain|vm_compute; reflexivity|exact demo_root_dir|exact demo_regular|vm_compute; reflexivity|reflexivity|lia|exact Es|lia|].
  destruct o as [fd|].
  - destruct Ho as (s3 & s4 & E3 & _). exists s1, s2, fd, s3. split; [exact Es|]. split; [exact E|exact E3].
  - assert ((λ r, bool_decide (is_Some (snd r))) <$> (r ← demo_save; vfs_open (Some (path_of ([] ++ [demo_name]))) 0 0 (fst r)) = Some true) as E'
      by (vm_compute; reflexivity).
    rewrite Es in E'. cbn [mbind option_bind fst] in E'. rewrite E in E'. discriminate E'.
Defined.

(** The saved file removed again. *)
Lemma vfs_remove_refines_witness :
  ∃ s1 s', demo_save = Some (s1, 5) ∧ vfs_unlink (path_of ([] ++ [demo_name])) s1 = Some (s', 0) ∧ file_at (v_fs s') [demo_name] = None.
Proof.
  destruct demo_save_ok as (s1 & C & K & M & Es & W & Em & Hdir).
  destruct (vfs_remove_refines false s1 C K M [] demo_name [] W) as (s' & ret & E & _ & _ & _ & Hspec);
    [constructor|exact demo_name_ok|eapply plain_mounts; [exact Em|apply demo_plain]|exact Hdir|].
  cbv iota in E. exists s1, s'. split; [exact Es|]. assert (ret = 0) as ->.
  { assert (snd <$> (r ← demo_save; vfs_unlink (path_of ([] ++ [demo_name])) (fst r)) = Some 0) as E' by (vm_compute; reflexivity).
    rewrite Es in E'. cbn [mbind option_bind fst] in E'. rewrite E in E'. by apply (inj Some) in E'. }
  split; [exact E|]. destruct Hspec as [(_ & _ & Hu)|(Hneg & _)]; [|discriminate Hneg]. rewrite Hu by exact demo_names_ok. by rewrite decide_True.
Defined.

(** The dentries of intermediate directories are not released: saving into
    "/motd/motd/motd" leaves one behind. *)
Lemma lookup_parent_leaks :
  (r1 ← vfs_mkdir (path_of [demo_name]) 0x1ED demo_vfs;
   r2 ← vfs_mkdir (path_of [demo_name; demo_name]) 0x1ED (fst r1);
   r3 ← vfs_create (path_of [demo_name; demo_name; demo_name]) 0x1A4 (fst r2);
   Some (snd r3, size (dentries (fst r2)), size (dentries (fst r3)))) = Some (0, 1%nat, 2%nat).
Proof. vm_compute. reflexivity. Qed.

(** vfs_unlink does not release the dentry of the parent either. *)
Lemma unlink_leaks :
  (r1 ← vfs_mkdir (path_of [demo_name]) 0x1ED demo_vfs;
   r2 ← vfs_create (path_of [demo_name; demo_name]) 0x1A4 (fst r1);
   r3 ← vfs_unlink (path_of [demo_name; demo_name]) (fst r2);
   Some (snd r3, size (dentries (fst r2)), size (dentries (fst r3)))) = Some (0, 1%nat, 2%nat).
Proof. vm_compute. reflexivity. Qed.
