(* ===== verification/Dns.v ===== *)
(** * kernel/net/dns.c

    The DNS resolver: names as labels, queries, responses and the cache.
    Packets are lists of bytes, C strings the characters before the
    terminating zero.  [None] is an access outside a buffer or, for
    [decode_loop], no more fuel. *)

From S2P Require Import Prelude.

Definition DNS_MAX_NAME_LEN : Z := 255.
Definition DNS_HEADER_SIZE : nat := 12.
Definition DNS_TYPE_A : Z := 1.
Definition DNS_FLAG_QR : Z := 0x8000.
Definition DNS_FLAG_RD : Z := 0x0100.
Definition DNS_RCODE_MASK : Z := 0x000F.
Definition DNS_CACHE_SIZE : nat := 64.
Definition DOT : Z := 46.

Record dns_cache_entry := mk_entry { e_name : list Z; e_ip : Z; e_ttl : Z; e_timestamp : Z; e_valid : bool }.

Record dns := mk_dns {
  dns_cache : list dns_cache_entry;
  dns_servers : list Z;
  num_dns_servers : Z;
  dns_query_id : Z
}.

Definition with_cache (c : list dns_cache_entry) (s : dns) : dns := mk_dns c (dns_servers s) (num_dns_servers s) (dns_query_id s).

(** The initial values of the static variables. *)
Definition dns_static : dns := mk_dns (replicate DNS_CACHE_SIZE (mk_entry [] 0 0 0 false)) [0x08080808; 0x08080404; 0; 0] 2 1.

Definition htons (x : Z) : Z := Z.lor (Z.shiftl (Z.land x 0xFF) 8) (Z.land (Z.shiftr x 8) 0xFF).
Definition ntohs (x : Z) : Z := htons x.

(** A 16-bit load on a little-endian machine. *)
Definition le16 (l : list Z) (off : nat) : option Z := a ← l !! off; b ← l !! S off; Some (a + 256 * b).

(** [buf[off + i] = src[i]] *)
Definition put (off : nat) (src buf : list Z) : option (list Z) :=
  if (off + length src <=? length buf)%nat then Some (take off buf ++ src ++ drop (off + length src) buf) else None.
Definition put16 (off : nat) (v : Z) (buf : list Z) : option (list Z) := put off [v `mod` 256; v / 256] buf.

(** ** Names *)

(** One label with its length byte; [inl] is the buffer when it does not fit. *)
Definition emit (label : list Z) (pos : nat) (buf : list Z) : option (list Z + nat * list Z) :=
  if (length buf <=? pos + 1 + length label)%nat then Some (inl buf)
  else buf ← put pos (u8 (Z.of_nat (length label)) :: label) buf; Some (inr ((pos + 1 + length label)%nat, buf)).

(** [label] is what follows [label_start] in the name. *)
Fixpoint encode_loop (name label : list Z) (pos : nat) (buf : list Z) : option (list Z + nat * list Z) :=
  match name with
  | [] => match label with [] => Some (inr (pos, buf)) | _ => emit label pos buf end
  | c :: name' =>
      if c =? DOT then
        r ← emit label pos buf;
        match r with inl buf => Some (inl buf) | inr (pos, buf) => encode_loop name' [] pos buf end
      else encode_loop name' (label ++ [c]) pos buf
  end.

(** The result and the buffer. *)
Definition dns_encode_name (name buf : list Z) : option (Z * list Z) :=
  r ← encode_loop name [] 0 buf;
  match r with
  | inl buf => Some (-1, buf)
  | inr (pos, buf) => buf ← put pos [0] buf; Some (Z.of_nat (S pos), buf)
  end.

(** [if (pos < name_len - 1) name[pos++] = c;], the subtraction in 64 bits. *)
Definition push (name_len c : Z) (name : list Z) : option (list Z) :=
  if Z.of_nat (length name) <? u64 (name_len - 1) then
    if Z.of_nat (length name) <? name_len then Some (name ++ [c]) else None
  else Some name.
Fixpoint push_all (name_len : Z) (l name : list Z) : option (list Z) :=
  match l with [] => Some name | c :: l' => name ← push name_len c name; push_all name_len l' name end.

(** One round of the loop from [offset]: the offset of the next round, the
    characters to add and how far the round read. [None] ends the loop. *)
Inductive round := REnd | RBad | RJump (ptr : nat) | RLabel (chunk : list Z) (next : nat) (len : Z).

Definition decode_round (r : list Z) (offset : nat) : round :=
  match r !! offset with
  | None => REnd
  | Some len =>
      if len =? 0 then REnd
      else if Z.land len 0xC0 =? 0xC0 then
        match r !! S offset with
        | None => RBad
        | Some b => RJump (Z.to_nat (Z.lor (Z.shiftl (Z.land len 0x3F) 8) b))
        end
      else
        let chunk := take (Z.to_nat len) (drop (S offset) r) in
        RLabel chunk (S offset + length chunk) len
  end.

Fixpoint decode_loop (fuel : nat) (r : list Z) (name_len : Z) (offset : nat) (name : list Z) (read_len : Z) (jumped : bool) :
    option (option (list Z * Z)) :=
  match decode_round r offset with
  | REnd =>
      (* a zero byte is counted, the end of the response is not *)
      Some (Some (name, if bool_decide (is_Some (r !! offset)) && negb jumped then read_len + 1 else read_len))
  | RBad => Some None
  | RJump ptr =>
      match fuel with O => None | S fuel' => decode_loop fuel' r name_len ptr name (if jumped then read_len else read_len + 2) true end
  | RLabel chunk next len =>
      match fuel with
      | O => None
      | S fuel' =>
          name ← (match name with [] => Some [] | _ => push name_len DOT name end);
          name ← push_all name_len chunk name;
          decode_loop fuel' r name_len next name (if jumped then read_len else read_len + 1 + len) jumped
      end
  end.

(** The characters of the name and the result; [name[pos] = 0] needs room. *)
Definition dns_decode_name (fuel : nat) (r : list Z) (offset : nat) (name_len : Z) : option (list Z * Z) :=
  res ← decode_loop fuel r name_len offset [] 0 false;
  match res with
  | None => Some ([], -1)
  | Some (name, read_len) => if Z.of_nat (length name) <? name_len then Some (name, read_len) else None
  end.

(** ** Queries *)

Definition dns_build_query (name : list Z) (type : Z) (buf : list Z) (s : dns) : option (dns * Z * list Z) :=
  if Z.of_nat (length buf) <? Z.of_nat DNS_HEADER_SIZE + DNS_MAX_NAME_LEN + 4 then Some (s, -1, buf)
  else
    let id := dns_query_id s in
    let s := mk_dns (dns_cache s) (dns_servers s) (num_dns_servers s) (u16 (id + 1)) in
    buf ← put16 0 (htons id) buf;
    buf ← put16 2 (htons DNS_FLAG_RD) buf;
    buf ← put16 4 (htons 1) buf;
    buf ← put16 6 0 buf;
    buf ← put16 8 0 buf;
    buf ← put16 10 0 buf;
    '(name_len, rest) ← dns_encode_name name (drop DNS_HEADER_SIZE buf);
    let buf := take DNS_HEADER_SIZE buf ++ rest in
    if name_len <? 0 then Some (s, -1, buf)
    else
      let pos := (DNS_HEADER_SIZE + Z.to_nat name_len)%nat in
      buf ← put pos [Z.land (Z.shiftr type 8) 0xFF; Z.land type 0xFF; 0; 1] buf;
      Some (s, Z.of_nat (pos + 4), buf).

(** ** Responses *)

(** [while (pos < len && response[pos] != 0)]; the flag is set when the loop
    is left at a compression pointer. *)
Fixpoint skip_name (fuel : nat) (r : list Z) (pos : nat) : option (nat * bool) :=
  match r !! pos with
  | None => Some (pos, false)
  | Some b =>
      if b =? 0 then Some (pos, false)
      else if Z.land b 0xC0 =? 0xC0 then Some ((pos + 2)%nat, true)
      else match fuel with O => None | S fuel' => skip_name fuel' r (pos + 1 + Z.to_nat b) end
  end.

(** [if (response[pos] == 0) pos++;] *)
Definition skip_zero (r : list Z) (pos : nat) : option nat := b ← r !! pos; Some (if b =? 0 then S pos else pos).

Fixpoint skip_questions (n : nat) (r : list Z) (pos : nat) : option nat :=
  match n with
  | O => Some pos
  | S n' => '(pos, _) ← skip_name (length r) r pos; pos ← skip_zero r pos; skip_questions n' r (pos + 4)
  end.

Definition be16 (r : list Z) (pos : nat) : option Z := a ← r !! pos; b ← r !! S pos; Some (Z.lor (Z.shiftl a 8) b).

(** The address of the first A record, [None] inside when there is none. *)
Fixpoint parse_answers (n : nat) (r : list Z) (pos : nat) : option (option Z) :=
  match n with
  | O => Some None
  | S n' =>
      if (pos <? length r)%nat then
        '(pos, ptr) ← skip_name (length r) r pos;
        pos ← (if (ptr : bool) then Some pos else skip_zero r pos);
        if (length r <? pos + 10)%nat then Some None
        else
          type ← be16 r pos;
          rdlength ← be16 r (pos + 8);
          let pos := (pos + 10)%nat in
          if (type =? DNS_TYPE_A) && (rdlength =? 4) then
            a ← r !! pos; b ← r !! (pos + 1)%nat; c ← r !! (pos + 2)%nat; d ← r !! (pos + 3)%nat;
            Some (Some (u32 (Z.lor (Z.lor (Z.lor (Z.shiftl a 24) (Z.shiftl b 16)) (Z.shiftl c 8)) d)))
          else parse_answers n' r (pos + Z.to_nat rdlength)
      else Some None
  end.

(** The result and the address written. *)
Definition dns_parse_response (r : list Z) : option (Z * option Z) :=
  if (length r <? DNS_HEADER_SIZE)%nat then Some (-1, None)
  else
    flags ← le16 r 2; let flags := ntohs flags in
    if Z.land flags DNS_FLAG_QR =? 0 then Some (-1, None)
    else if negb (Z.land flags DNS_RCODE_MASK =? 0) then Some (-1, None)
    else
      qdcount ← le16 r 4; ancount ← le16 r 6;
      let qdcount := ntohs qdcount in let ancount := ntohs ancount in
      if ancount =? 0 then Some (-1, None)
      else
        pos ← skip_questions (Z.to_nat qdcount) r DNS_HEADER_SIZE;
        ip ← parse_answers (Z.to_nat ancount) r pos;
        Some (match ip with Some ip => (0, Some ip) | None => (-1, None) end).

(** ** Cache *)

Definition str_eq (a b : list Z) : bool := bool_decide (a = b).

Definition dns_cache_lookup (name : list Z) (s : dns) : option dns_cache_entry :=
  find (λ e, e_valid e && str_eq name (e_name e)) (dns_cache s).

Fixpoint first_invalid (i : nat) (l : list dns_cache_entry) : option nat :=
  match l with [] => None | e :: l' => if e_valid e then first_invalid (S i) l' else Some i end.

(** The copy loop does not run for an empty name. *)
Definition dns_cache_add (name : list Z) (ip ttl : Z) (s : dns) : dns :=
  let slot := default 0%nat (first_invalid 0 (dns_cache s)) in
  with_cache (alter (λ e, mk_entry (match name with [] => e_name e | _ => take (Z.to_nat (DNS_MAX_NAME_LEN - 1)) name end) ip ttl 0 true)
    slot (dns_cache s)) s.

(** ** Interface *)

(** The result and the address written. *)
Definition dns_resolve (hostname : list Z) (s : dns) : option (dns * Z * option Z) :=
  match dns_cache_lookup hostname s with
  | Some e => Some (s, 0, Some (e_ip e))
  | None => '(s, _, _) ← dns_build_query hostname DNS_TYPE_A (replicate 512 0) s; Some (s, -1, None)
  end.

Definition dns_set_server (index ip : Z) (s : dns) : dns * Z :=
  if (index <? 0) || (4 <=? index) then (s, -1)
  else
    (mk_dns (dns_cache s) (<[Z.to_nat index := ip]> (dns_servers s))
       (if num_dns_servers s <=? index then index + 1 else num_dns_servers s) (dns_query_id s), 0).

Definition dns_init (s : dns) : dns :=
  with_cache ((λ e, mk_entry (e_name e) (e_ip e) (e_ttl e) (e_timestamp e) false) <$> dns_cache s) s.

(** ** Bytes *)

Lemma length_put off src buf buf' : put off src buf = Some buf' → length buf' = length buf.
Proof.
  unfold put. destruct (Nat.leb_spec (off + length src) (length buf)); [|done]. intros [= <-].
  rewrite !length_app, length_take, length_drop. lia.
Qed.

(** Writing behind what has been written. *)
Lemma put_app l src tl : (length src ≤ length tl)%nat → put (length l) src (l ++ tl) = Some (l ++ src ++ drop (length src) tl).
Proof.
  intros Hl. unfold put. rewrite length_app. destruct (Nat.leb_spec (length l + length src) (length l + length tl)); [|lia].
  rewrite take_app_length, drop_app_add. done.
Qed.

(** ** The encoding of names *)

(** A label has 1 to 63 characters, none of them a dot. *)
Definition label_ok (l : list Z) : Prop := (0 < length l < 64)%nat ∧ Forall (λ c, 0 < c < 256 ∧ c ≠ DOT) l.

Fixpoint dotted (ls : list (list Z)) : list Z :=
  match ls with [] => [] | [l] => l | l :: ls' => l ++ DOT :: dotted ls' end.

(** The bytes of the labels, without the end mark. *)
Definition wire (ls : list (list Z)) : list Z := concat (map (λ l, Z.of_nat (length l) :: l) ls).

Lemma dotted_cons l l2 ls : dotted (l :: l2 :: ls) = l ++ DOT :: dotted (l2 :: ls).
Proof. done. Qed.

Lemma length_wire ls : Forall label_ok ls → ls ≠ [] → length (wire ls) = S (length (dotted ls)).
Proof.
  intros Hls Hne. induction Hls as [|l ls Hl Hls IH]; [done|]. destruct ls as [|l2 ls].
  - unfold wire. cbn. by rewrite app_nil_r.
  - rewrite dotted_cons, length_app. change (wire (l :: l2 :: ls)) with ((Z.of_nat (length l) :: l) ++ wire (l2 :: ls)).
    rewrite length_app, IH by done. cbn. lia.
Qed.

Lemma emit_ok label out tl :
  emit label (length out) (out ++ tl) =
  if (length tl <=? 1 + length label)%nat then Some (inl (out ++ tl))
  else Some (inr (length (out ++ u8 (Z.of_nat (length label)) :: label), (out ++ u8 (Z.of_nat (length label)) :: label) ++ drop (1 + length label) tl)).
Proof.
  unfold emit. rewrite length_app. destruct (Nat.leb_spec (length out + length tl) (length out + 1 + length label)), (Nat.leb_spec (length tl) (1 + length label)); try lia; [done|].
  rewrite put_app by (cbn; lia). cbn [mbind option_bind]. rewrite length_app. cbn [length]. rewrite <- app_assoc. do 3 f_equal. lia.
Qed.

Lemma encode_chars l rest label pos buf :
  Forall (λ c, 0 < c < 256 ∧ c ≠ DOT) l → encode_loop (l ++ rest) label pos buf = encode_loop rest (label ++ l) pos buf.
Proof.
  intros Hl. revert label. induction Hl as [|c l [_ Hc] Hl IH]; intros label; [by rewrite app_nil_r|].
  cbn [app encode_loop]. destruct (Z.eqb_spec c DOT); [done|]. by rewrite IH, <- app_assoc.
Qed.

Lemma encode_loop_ok ls : Forall label_ok ls → ls ≠ [] → ∀ out tl, (length (wire ls) < length tl)%nat →
  encode_loop (dotted ls) [] (length out) (out ++ tl) = Some (inr (length (out ++ wire ls), (out ++ wire ls) ++ drop (length (wire ls)) tl)).
Proof.
  intros Hls Hne. induction Hls as [|l ls Hl Hls IH]; [done|]. intros out tl Htl. pose proof Hl as [Hlen Hchars].
  assert (u8 (Z.of_nat (length l)) = Z.of_nat (length l)) as Hu by (apply u8_small; lia).
  destruct ls as [|l2 ls].
  - change (dotted [l]) with l. rewrite <- (app_nil_r l) at 1. rewrite encode_chars by done. cbn [encode_loop app].
    destruct l as [|c l'] eqn:El; [cbn in Hlen; lia|]. rewrite <- El in *. unfold wire in *. cbn [map concat] in *. rewrite app_nil_r in *. cbn [length] in Htl.
    rewrite emit_ok, Hu. destruct (Nat.leb_spec (length tl) (1 + length l)); [lia|]. done.
  - rewrite dotted_cons, encode_chars by done. cbn [encode_loop app]. rewrite Z.eqb_refl.
    change (wire (l :: l2 :: ls)) with ((Z.of_nat (length l) :: l) ++ wire (l2 :: ls)) in *. rewrite length_app in Htl. cbn [length] in Htl.
    rewrite emit_ok, Hu. destruct (Nat.leb_spec (length tl) (1 + length l)); [lia|]. cbn [mbind option_bind].
    rewrite IH; [|done|rewrite length_drop; lia]. rewrite <- app_assoc, drop_drop, length_app. do 4 f_equal. by rewrite length_app.
Qed.

(** The name, the end mark and the rest of the buffer. *)
Lemma encode_ok ls buf : Forall label_ok ls → ls ≠ [] → (S (length (wire ls)) ≤ length buf)%nat →
  dns_encode_name (dotted ls) buf = Some (Z.of_nat (S (length (wire ls))), wire ls ++ 0 :: drop (S (length (wire ls))) buf).
Proof.
  intros Hls Hne Hlen. unfold dns_encode_name. pose proof (encode_loop_ok ls Hls Hne [] buf ltac:(lia)) as E. cbn [app length] in E.
  rewrite E. cbn [mbind option_bind]. rewrite put_app by (rewrite length_drop; cbn; lia). cbn [mbind option_bind]. rewrite drop_drop. cbn [length app].
  by rewrite Nat.add_1_r.
Qed.

(** Whatever the name, nothing is written outside the buffer. *)
Lemma emit_safe label pos buf : (pos < length buf)%nat →
  ∃ r, emit label pos buf = Some r ∧
    match r with inl buf' => length buf' = length buf | inr (pos', buf') => length buf' = length buf ∧ (pos' < length buf)%nat end.
Proof.
  intros Hp. unfold emit. destruct (Nat.leb_spec (length buf) (pos + 1 + length label)); [by eexists|].
  unfold put at 1. cbn [length]. destruct (Nat.leb_spec (pos + S (length label)) (length buf)); [|lia]. cbn [mbind option_bind].
  eexists. split; [reflexivity|]. split; [|lia]. rewrite !length_app, length_take, length_drop. cbn [length]. lia.
Qed.

Lemma encode_loop_safe name : ∀ label pos buf, (pos < length buf)%nat →
  ∃ r, encode_loop name label pos buf = Some r ∧
    match r with inl buf' => length buf' = length buf | inr (pos', buf') => length buf' = length buf ∧ (pos' < length buf)%nat end.
Proof.
  induction name as [|c name IH]; intros label pos buf Hp; cbn [encode_loop].
  - destruct label; [by eexists|]. by apply emit_safe.
  - destruct (c =? DOT); [|by apply IH]. destruct (emit_safe label pos buf Hp) as ([b|[p b]] & -> & Hr); cbn [mbind option_bind]; [by eexists|].
    destruct Hr as [Hb Hp']. rewrite <- Hb. apply IH. lia.
Qed.

Lemma encode_safe name buf : buf ≠ [] →
  ∃ ret buf', dns_encode_name name buf = Some (ret, buf') ∧ length buf' = length buf ∧ (ret = -1 ∨ 0 < ret ≤ Z.of_nat (length buf)).
Proof.
  intros Hb. assert (0 < length buf)%nat as Hp by (destruct buf; [done|cbn; lia]). unfold dns_encode_name.
  destruct (encode_loop_safe name [] 0 buf Hp) as ([b|[p b]] & -> & Hr); cbn [mbind option_bind]; [eexists _, _; split; [reflexivity|]; auto|].
  destruct Hr as [Hlb Hpb]. unfold put. cbn [length]. destruct (Nat.leb_spec (p + 1) (length b)); [|lia]. cbn [mbind option_bind].
  eexists _, _. split; [reflexivity|]. split; [|right; lia]. rewrite !length_app, length_take, length_drop. cbn. lia.
Qed.

(** ** The decoding of names *)

Lemma push_some name_len c name : 1 ≤ name_len < 2 ^ 64 →
  push name_len c name = Some (if Z.of_nat (length name) <? name_len - 1 then name ++ [c] else name).
Proof.
  intros Hn. unfold push. rewrite u64_small by lia. destruct (Z.ltb_spec (Z.of_nat (length name)) (name_len - 1)); [|done].
  by destruct (Z.ltb_spec (Z.of_nat (length name)) name_len); [|lia].
Qed.

Lemma push_all_safe name_len l : 1 ≤ name_len < 2 ^ 64 → ∀ name, Z.of_nat (length name) < name_len →
  ∃ name', push_all name_len l name = Some name' ∧ Z.of_nat (length name') < name_len.
Proof.
  intros Hn. induction l as [|c l IH]; intros name Hname; cbn [push_all]; [eauto|]. rewrite push_some by done. cbn [mbind option_bind]. apply IH.
  destruct (Z.ltb_spec (Z.of_nat (length name)) (name_len - 1)); [rewrite length_app; cbn; lia|done].
Qed.

Lemma push_all_fits name_len l : 1 ≤ name_len < 2 ^ 64 → ∀ name, Z.of_nat (length name + length l) < name_len → push_all name_len l name = Some (name ++ l).
Proof.
  intros Hn. induction l as [|c l IH]; intros name Hfit; cbn [push_all length] in *; [by rewrite app_nil_r|].
  rewrite push_some by done. cbn [mbind option_bind]. destruct (Z.ltb_spec (Z.of_nat (length name)) (name_len - 1)); [|lia].
  rewrite IH by (rewrite length_app; cbn; lia). by rewrite <- app_assoc.
Qed.

(** The separator and the characters of one round. *)
Definition add_label (name_len : Z) (chunk name : list Z) : option (list Z) :=
  name ← (match name with [] => Some [] | _ => push name_len DOT name end); push_all name_len chunk name.

Lemma add_label_safe name_len chunk name : 1 ≤ name_len < 2 ^ 64 → Z.of_nat (length name) < name_len →
  ∃ name', add_label name_len chunk name = Some name' ∧ Z.of_nat (length name') < name_len.
Proof.
  intros Hn Hname. unfold add_label.
  assert (∃ n1, (match name with [] => Some [] | _ => push name_len DOT name end) = Some n1 ∧ Z.of_nat (length n1) < name_len) as (n1 & -> & H1).
  { destruct name as [|c n] eqn:En; [eauto|]. rewrite <- En in *. rewrite push_some by done. eexists. split; [reflexivity|].
    destruct (Z.ltb_spec (Z.of_nat (length name)) (name_len - 1)); [rewrite length_app; cbn; lia|done]. }
  cbn [mbind option_bind]. by apply push_all_safe.
Qed.

Lemma decode_label fuel r name_len offset name read_len jumped chunk next len :
  decode_round r offset = RLabel chunk next len →
  decode_loop (S fuel) r name_len offset name read_len jumped =
    name ← add_label name_len chunk name; decode_loop fuel r name_len next name (if jumped then read_len else read_len + 1 + len) jumped.
Proof. intros E. cbn [decode_loop]. rewrite E. unfold add_label. by destruct (match name with [] => Some [] | _ => push name_len DOT name end). Qed.

(** The control flow depends on the offset only. *)
Definition next (r : list Z) (o : nat) : option nat :=
  match decode_round r o with RJump p => Some p | RLabel _ n _ => Some n | _ => None end.
Fixpoint iter_next (r : list Z) (k o : nat) : option nat :=
  match k with O => Some o | S k' => o' ← next r o; iter_next r k' o' end.

Lemma next_lt r o o' : next r o = Some o' → (o < length r)%nat.
Proof. unfold next, decode_round. destruct (r !! o) as [b|] eqn:E; [|done]. intros _. by apply lookup_lt_Some in E. Qed.

Lemma iter_next_add r i j o : iter_next r (i + j) o = o' ← iter_next r i o; iter_next r j o'.
Proof. revert o. induction i as [|i IH]; intros o; [done|]. cbn. destruct (next r o) as [o'|]; [|done]. cbn. apply IH. Qed.

Lemma iter_next_le r i j o : (i ≤ j)%nat → iter_next r i o = None → iter_next r j o = None.
Proof. intros Hij Hi. replace j with (i + (j - i))%nat by lia. by rewrite iter_next_add, Hi. Qed.

Lemma decode_none r name_len : 1 ≤ name_len < 2 ^ 64 → ∀ fuel o name read_len jumped, Z.of_nat (length name) < name_len →
  decode_loop fuel r name_len o name read_len jumped = None ↔ is_Some (iter_next r (S fuel) o).
Proof.
  intros Hn. induction fuel as [|fuel IH]; intros o name read_len jumped Hname.
  - cbn [decode_loop iter_next]. unfold next. destruct (decode_round r o); cbn; split; try done; try (by intros [? ?]); by eexists.
  - change (iter_next r (S (S fuel)) o) with (o' ← next r o; iter_next r (S fuel) o'). unfold next.
    destruct (decode_round r o) as [| |ptr|chunk nx len] eqn:E.
    + cbn [decode_loop]. rewrite E. split; [done|by intros [? ?]].
    + cbn [decode_loop]. rewrite E. split; [done|by intros [? ?]].
    + cbn [decode_loop]. rewrite E. cbn [mbind option_bind]. by apply IH.
    + rewrite (decode_label fuel r name_len o name read_len jumped chunk nx len E). destruct (add_label_safe name_len chunk name Hn Hname) as (n' & -> & Hn').
      cbn [mbind option_bind]. by apply IH.
Qed.

(** A walk that ends, ends within as many rounds as there are offsets. *)
Lemma iter_next_bound r o k : iter_next r k o = None → iter_next r (S (length r)) o = None.
Proof.
  induction k as [k IH] using lt_wf_ind. intros Hk. destruct k as [|k]; [done|].
  destruct (iter_next r k o) as [ok|] eqn:Ek; [|by apply (IH k); [lia|]].
  set (l := (λ i, default 0%nat (iter_next r i o)) <$> seq 0 k).
  assert (∀ i, (i ≤ k)%nat → is_Some (iter_next r i o)) as Hsome.
  { intros i Hi. destruct (iter_next r i o) eqn:Ei; [by eexists|]. by rewrite (iter_next_le r i k o Hi Ei) in Ek. }
  assert (∀ i j, (i < j ≤ k)%nat → iter_next r i o = iter_next r j o → iter_next r (S (length r)) o = None) as Hrep.
  { intros i j Hij Heq. apply (IH (i + (S k - j))%nat); [lia|]. rewrite iter_next_add, Heq, <- iter_next_add. by replace (j + (S k - j))%nat with (S k) by lia. }
  destruct (iter_next r (S (length r)) o) as [oL|] eqn:EL; [exfalso|done].
  assert (NoDup l) as Hnd.
  { apply NoDup_fmap_2_strong; [|apply NoDup_seq]. intros i j Hi Hj Heq. apply elem_of_seq in Hi, Hj.
    destruct (Hsome i ltac:(lia)) as [x Hx], (Hsome j ltac:(lia)) as [y Hy]. rewrite Hx, Hy in Heq. cbn in Heq. subst y.
    destruct (Nat.lt_trichotomy i j) as [Hlt|[Heq|Hlt]]; [|done|].
    - by specialize (Hrep i j ltac:(lia) ltac:(congruence)).
    - by specialize (Hrep j i ltac:(lia) ltac:(congruence)). }
  assert (length l ≤ length (seq 0 (length r)))%nat as Hlen.
  { apply submseteq_length, NoDup_submseteq; [done|]. intros x Hx. apply list_elem_of_fmap in Hx as (i & -> & Hi). apply elem_of_seq in Hi. apply elem_of_seq.
    destruct (Hsome (i + 1)%nat ltac:(lia)) as [y Hy]. rewrite iter_next_add in Hy. destruct (iter_next r i o) as [oi|]; [|done]. cbn in Hy |- *.
    destruct (next r oi) eqn:En; [|done]. apply next_lt in En. lia. }
  unfold l in Hlen. rewrite length_fmap, !length_seq in Hlen. by rewrite (iter_next_le r (S k) (S (length r)) o ltac:(lia) Hk) in EL.
Qed.

Lemma decode_loop_mono r name_len : ∀ fuel fuel' o name read_len jumped x, (fuel ≤ fuel')%nat →
  decode_loop fuel r name_len o name read_len jumped = Some x → decode_loop fuel' r name_len o name read_len jumped = Some x.
Proof.
  induction fuel as [|fuel IH]; intros [|fuel'] o name read_len jumped x Hle; try lia; [done| |].
  - cbn [decode_loop]. destruct (decode_round r o); done.
  - destruct (decode_round r o) as [| |ptr|chunk nx len] eqn:E; [cbn [decode_loop]; by rewrite E..| |].
    + cbn [decode_loop]. rewrite E. apply IH. lia.
    + rewrite !(decode_label _ r name_len o name read_len jumped chunk nx len E). destruct (add_label name_len chunk name) as [n'|]; [|done].
      cbn [mbind option_bind]. apply IH. lia.
Qed.

(** [length r] rounds decide the loop. *)
Lemma decode_loop_decided r name_len fuel o x : 1 ≤ name_len < 2 ^ 64 →
  decode_loop fuel r name_len o [] 0 false = Some x → decode_loop (length r) r name_len o [] 0 false = Some x.
Proof.
  intros Hn Hx. destruct (decode_loop (length r) r name_len o [] 0 false) as [y|] eqn:Ey.
  - assert (decode_loop (length r + fuel) r name_len o [] 0 false = Some y) as E1 by (eapply decode_loop_mono; [|done]; lia).
    assert (decode_loop (length r + fuel) r name_len o [] 0 false = Some x) as E2 by (eapply decode_loop_mono; [|done]; lia). congruence.
  - exfalso. apply decode_none in Ey as [oL HL]; [|done|cbn; lia].
    assert (iter_next r (S fuel) o = None) as Hf.
    { destruct (iter_next r (S fuel) o) eqn:E; [|done]. assert (decode_loop fuel r name_len o [] 0 false = None) by (apply decode_none; [done|cbn; lia|by eexists]). congruence. }
    by rewrite (iter_next_bound r o _ Hf) in HL.
Qed.

(** The name at [o] of the message, and the number of bytes it takes there:
    labels, an end mark, or a pointer to the rest of the name (RFC 1035). *)
Inductive name_at (r : list Z) : nat → list (list Z) → Z → Prop :=
| na_end o : r !! o = Some 0 → name_at r o [] 1
| na_label o l ls n :
    r !! o = Some (Z.of_nat (length l)) → (0 < length l < 64)%nat → take (length l) (drop (S o) r) = l → name_at r (S o + length l) ls n →
    name_at r o (l :: ls) (1 + Z.of_nat (length l) + n)
| na_pointer o a b ls n :
    r !! o = Some a → Z.land a 0xC0 = 0xC0 → r !! S o = Some b → name_at r (Z.to_nat (Z.lor (Z.shiftl (Z.land a 0x3F) 8) b)) ls n →
    name_at r o ls 2.

Lemma label_bits n : (n < 64)%nat → Z.land (Z.of_nat n) 0xC0 = 0.
Proof.
  intros Hn. assert (forallb (λ n, Z.land (Z.of_nat n) 0xC0 =? 0) (seq 0 64) = true) as Hall by reflexivity.
  rewrite forallb_forall in Hall. apply Z.eqb_eq, Hall, in_seq. lia.
Qed.

Definition joined (name : list Z) (ls : list (list Z)) : list Z := match name with [] => dotted ls | _ => dotted (name :: ls) end.

Lemma joined_label name l ls : l ≠ [] →
  joined (match name with [] => l | _ => name ++ DOT :: l end) ls = joined name (l :: ls) ∧
  (length (match name with [] => l | _ => name ++ DOT :: l end) ≤ length (joined name (l :: ls)))%nat.
Proof.
  intros Hl. destruct l as [|c l]; [done|]. destruct name as [|d name], ls as [|l2 ls]; cbn [joined app]; rewrite ?dotted_cons; cbn [dotted app length];
    rewrite ?length_app; cbn [length]; rewrite <- ?app_assoc; split; try done; rewrite ?length_app; lia.
Qed.

Lemma add_label_fits name_len l name : 1 ≤ name_len < 2 ^ 64 → l ≠ [] →
  Z.of_nat (length (match name with [] => l | _ => name ++ DOT :: l end)) < name_len →
  add_label name_len l name = Some (match name with [] => l | _ => name ++ DOT :: l end).
Proof.
  intros Hn Hl Hfit. unfold add_label. destruct name as [|c name0] eqn:En.
  - cbn [mbind option_bind]. rewrite push_all_fits; [done|done|cbn in Hfit |- *; lia].
  - rewrite <- En in *. rewrite length_app in Hfit. cbn in Hfit. rewrite push_some by done. destruct (Z.ltb_spec (Z.of_nat (length name)) (name_len - 1)); [|lia].
    cbn [mbind option_bind]. rewrite push_all_fits by (rewrite ?length_app; cbn; lia). by rewrite <- app_assoc.
Qed.

Lemma decode_at r name_len o ls n : 1 ≤ name_len < 2 ^ 64 → name_at r o ls n → ∀ name read_len jumped,
  Z.of_nat (length (joined name ls)) < name_len →
  ∃ fuel, decode_loop fuel r name_len o name read_len jumped = Some (Some (joined name ls, if (jumped : bool) then read_len else read_len + n)).
Proof.
  intros Hn Hat. induction Hat as [o Ho|o l ls n Ho Hl Htake Hat IH|o a b ls n Ho Ha Hb Hat IH]; intros name read_len jumped Hfit.
  - exists 0%nat. cbn [decode_loop]. unfold decode_round. rewrite Ho. cbn [Z.eqb]. rewrite bool_decide_eq_true_2 by (by eexists).
    assert (joined name [] = name) as -> by (by destruct name). by destruct jumped.
  - assert (l ≠ []) as Hne by (intros ->; cbn in Hl; lia). destruct (joined_label name l ls Hne) as [Ej Hlen].
    assert (decode_round r o = RLabel l (S o + length l) (Z.of_nat (length l))) as Er.
    { unfold decode_round. rewrite Ho. destruct (Z.eqb_spec (Z.of_nat (length l)) 0); [lia|]. rewrite label_bits by lia. cbn [Z.eqb]. by rewrite Nat2Z.id, Htake. }
    rewrite <- Ej in Hfit.
    destruct (IH (match name with [] => l | _ => name ++ DOT :: l end) (if jumped then read_len else read_len + 1 + Z.of_nat (length l)) jumped Hfit) as [fuel E].
    exists (S fuel). rewrite (decode_label _ _ _ _ _ _ _ _ _ _ Er), add_label_fits; [|done|done|rewrite Ej in Hfit; lia]. cbn [mbind option_bind].
    rewrite E, Ej. destruct jumped; [done|]. do 3 f_equal. lia.
  - destruct (IH name (if jumped then read_len else read_len + 2) true Hfit) as [fuel E]. exists (S fuel). cbn [decode_loop]. unfold decode_round. rewrite Ho.
    destruct (Z.eqb_spec a 0) as [->|_]; [done|]. rewrite Ha. cbn [Z.eqb Pos.eqb]. rewrite Hb, E. done.
Qed.

Lemma decode_ok r name_len o ls n : 1 ≤ name_len < 2 ^ 64 → name_at r o ls n → Z.of_nat (length (dotted ls)) < name_len →
  dns_decode_name (length r) r o name_len = Some (dotted ls, n).
Proof.
  intros Hn Hat Hfit. destruct (decode_at r name_len o ls n Hn Hat [] 0 false Hfit) as [fuel E]. unfold dns_decode_name.
  rewrite (decode_loop_decided _ _ _ _ _ Hn E). cbn [mbind option_bind joined]. destruct (Z.ltb_spec (Z.of_nat (length (dotted ls))) name_len); [done|lia].
Qed.

(** The bytes that the encoder writes are such a name. *)
Lemma wire_at ls pre tl : Forall label_ok ls → name_at (pre ++ wire ls ++ 0 :: tl) (length pre) ls (Z.of_nat (S (length (wire ls)))).
Proof.
  intros Hls. revert pre. induction Hls as [|l ls [Hl _] Hls IH]; intros pre.
  - apply na_end. by apply list_lookup_middle.
  - change (wire (l :: ls)) with ((Z.of_nat (length l) :: l) ++ wire ls). rewrite <- app_assoc. cbn [app].
    replace (Z.of_nat (S (length (Z.of_nat (length l) :: l ++ wire ls)))) with (1 + Z.of_nat (length l) + Z.of_nat (S (length (wire ls)))) by (cbn [length]; rewrite length_app; lia).
    apply na_label; [by apply list_lookup_middle|done| |].
    + rewrite <- (Nat.add_1_r (length pre)), drop_app_add. cbn [drop]. by rewrite drop_0, take_app_length.
    + specialize (IH (pre ++ Z.of_nat (length l) :: l)). rewrite <- (app_assoc pre) in IH. cbn [app] in IH.
      replace (S (length pre) + length l)%nat with (length (pre ++ Z.of_nat (length l) :: l)) by (rewrite length_app; cbn; lia). exact IH.
Qed.

(** ** Responses on the wire *)

Lemma swap_bytes a b : is_byte a → is_byte b → ntohs (a + 256 * b) = 256 * a + b.
Proof.
  unfold is_byte. intros Ha Hb. unfold ntohs, htons. rewrite !land_byte, Z.shiftr_div_pow2 by lia. change (2 ^ 8) with 256.
  rewrite Z.lor_comm, lor_shiftl by (try lia; apply Z.mod_pos_bound; lia).
  replace ((a + 256 * b) / 256) with b by (apply (Z.div_unique_pos _ 256 _ a); lia).
  replace ((a + 256 * b) `mod` 256) with a by (apply (Z.mod_unique_pos _ 256 b); lia). rewrite Z.mod_small by lia. lia.
Qed.

Lemma be16_ok a b : is_byte a → is_byte b → Z.lor (Z.shiftl a 8) b = 256 * a + b.
Proof. unfold is_byte. intros Ha Hb. rewrite Z.lor_comm, lor_shiftl by lia. change (2 ^ 8) with 256. lia. Qed.

Lemma ip_bytes a b c d : is_byte a → is_byte b → is_byte c → is_byte d →
  u32 (Z.lor (Z.lor (Z.lor (Z.shiftl a 24) (Z.shiftl b 16)) (Z.shiftl c 8)) d) = a * 2 ^ 24 + b * 2 ^ 16 + c * 2 ^ 8 + d.
Proof.
  unfold is_byte. intros Ha Hb Hc Hd. assert (∀ x y k, 0 ≤ k → 0 ≤ x → 0 ≤ y < 2 ^ k → Z.lor (Z.shiftl x k) y = x * 2 ^ k + y) as Hl.
  { intros x y k Hk Hx Hy. rewrite Z.lor_comm, lor_shiftl by lia. lia. }
  assert (∀ x k j, 0 ≤ j ≤ k → Z.shiftl x k = Z.shiftl (Z.shiftl x (k - j)) j) as Hs by (intros x k j Hj; rewrite Z.shiftl_shiftl by lia; f_equal; lia).
  rewrite (Hs a 24 16), <- Z.shiftl_lor, (Hs _ 16 8), <- Z.shiftl_lor by lia. change (24 - 16) with 8. change (16 - 8) with 8. rewrite (Hl a b), (Hl _ c), (Hl _ d) by lia. rewrite u32_small; lia.
Qed.

Lemma lookup_mid (l : list Z) x tl n : n = length l → (l ++ x :: tl) !! n = Some x.
Proof. intros ->. by apply list_lookup_middle. Qed.

(** A name in an answer: labels, then the end mark or a pointer. *)
Definition name_end (ptr : option (Z * Z)) : list Z := match ptr with None => [0] | Some (a, b) => [a; b] end.
Definition name_bytes (ls : list (list Z)) (ptr : option (Z * Z)) : list Z := wire ls ++ name_end ptr.
Definition ptr_ok (ptr : option (Z * Z)) : Prop := match ptr with None => True | Some (a, b) => Z.land a 0xC0 = 0xC0 ∧ is_byte a ∧ is_byte b end.

Lemma wire_length_le ls : (length ls ≤ length (wire ls))%nat.
Proof. induction ls as [|l ls IH]; [done|]. change (wire (l :: ls)) with ((Z.of_nat (length l) :: l) ++ wire ls). rewrite length_app. cbn. lia. Qed.

Lemma skip_name_ok ls ptr : Forall label_ok ls → ptr_ok ptr → ∀ fuel pre tl pos, (length ls ≤ fuel)%nat → pos = length pre →
  skip_name fuel (pre ++ name_bytes ls ptr ++ tl) pos =
  Some (match ptr with None => ((pos + length (wire ls))%nat, false) | Some _ => ((pos + length (name_bytes ls ptr))%nat, true) end).
Proof.
  intros Hls Hptr. induction Hls as [|l ls [Hl _] Hls IH]; intros fuel pre tl pos Hf ->.
  - unfold name_bytes, wire. cbn [map concat app length]. rewrite Nat.add_0_r. destruct ptr as [[a b]|].
    + destruct Hptr as (Ha & _). cbn [name_end app length]. destruct fuel; cbn [skip_name]; rewrite list_lookup_middle by done;
        (destruct (Z.eqb_spec a 0) as [->|_]; [done|]); by rewrite Ha, Z.eqb_refl.
    + cbn [name_end app]. destruct fuel; cbn [skip_name]; by rewrite list_lookup_middle.
  - destruct fuel as [|fuel]; [cbn in Hf; lia|]. unfold name_bytes. change (wire (l :: ls)) with ((Z.of_nat (length l) :: l) ++ wire ls).
    rewrite <- !app_assoc. cbn [app skip_name]. rewrite list_lookup_middle by done. destruct (Z.eqb_spec (Z.of_nat (length l)) 0); [lia|].
    rewrite label_bits by lia. cbn [Z.eqb]. rewrite Nat2Z.id. specialize (IH fuel (pre ++ Z.of_nat (length l) :: l) tl (length pre + 1 + length l)%nat).
    rewrite <- app_assoc in IH. cbn [app] in IH. unfold name_bytes in IH. rewrite <- app_assoc in IH.
    rewrite IH by (try (rewrite length_app; cbn); cbn in Hf; lia). destruct ptr; rewrite ?length_app; cbn [length]; rewrite ?length_app; do 2 f_equal; lia.
Qed.

Record question := mk_question { q_labels : list (list Z); q_fixed : list Z }.
Definition question_ok (q : question) : Prop := Forall label_ok (q_labels q) ∧ length (q_fixed q) = 4%nat.
Definition question_bytes (q : question) : list Z := name_bytes (q_labels q) None ++ q_fixed q.

(** [an_fixed] are the class and the time to live. *)
Record answer := mk_answer { an_labels : list (list Z); an_ptr : option (Z * Z); an_type : Z; an_fixed : list Z; an_data : list Z }.
Definition answer_ok (a : answer) : Prop :=
  Forall label_ok (an_labels a) ∧ ptr_ok (an_ptr a) ∧ 0 ≤ an_type a < 65536 ∧ length (an_fixed a) = 6%nat ∧
  Z.of_nat (length (an_data a)) < 65536 ∧ Forall is_byte (an_data a).
Definition word (v : Z) : list Z := [v / 256; v `mod` 256].
Definition answer_bytes (a : answer) : list Z :=
  name_bytes (an_labels a) (an_ptr a) ++ word (an_type a) ++ an_fixed a ++ word (Z.of_nat (length (an_data a))) ++ an_data a.

(** The address of an A record of the right size. *)
Definition address (a : answer) : option Z :=
  if an_type a =? DNS_TYPE_A then match an_data a with [a; b; c; d] => Some (a * 2 ^ 24 + b * 2 ^ 16 + c * 2 ^ 8 + d) | _ => None end else None.
Fixpoint first_address (l : list answer) : option Z :=
  match l with [] => None | a :: l' => match address a with Some ip => Some ip | None => first_address l' end end.

Lemma word_bytes v : 0 ≤ v < 65536 → is_byte (v / 256) ∧ is_byte (v `mod` 256) ∧ 256 * (v / 256) + v `mod` 256 = v.
Proof.
  intros Hv. unfold is_byte. pose proof (Z.mod_pos_bound v 256 ltac:(lia)). pose proof (Z.div_mod v 256 ltac:(lia)).
  split; [|split]; [|lia|lia]. split; [apply Z.div_pos; lia|apply Z.div_lt_upper_bound; lia].
Qed.

Lemma be16_word pre v tl pos : 0 ≤ v < 65536 → pos = length pre → be16 (pre ++ word v ++ tl) pos = Some v.
Proof.
  intros Hv ->. unfold be16, word. cbn [app]. rewrite (lookup_mid pre _ _ (length pre)) by done. cbn [mbind option_bind].
  rewrite (cons_middle (v / 256)), app_assoc. rewrite lookup_mid by (rewrite length_app; cbn; lia). cbn [mbind option_bind].
  destruct (word_bytes v Hv) as (H1 & H2 & H3). by rewrite be16_ok, H3.
Qed.

(** Skipping a name of the message [r]. *)
Lemma skip_name_full ls ptr pre tl r : Forall label_ok ls → ptr_ok ptr → r = pre ++ name_bytes ls ptr ++ tl →
  ∃ pos, skip_name (length r) r (length pre) = Some (pos, bool_decide (is_Some ptr)) ∧
    (if bool_decide (is_Some ptr) then Some pos else skip_zero r pos) = Some (length pre + length (name_bytes ls ptr))%nat.
Proof.
  intros Hls Hptr ->. rewrite skip_name_ok; [|done|done| |done].
  2:{ rewrite !length_app. unfold name_bytes. rewrite length_app. pose proof (wire_length_le ls). lia. }
  destruct ptr as [[a b]|]; (eexists; split; [reflexivity|]); [done|]. unfold skip_zero, name_bytes. cbn [name_end bool_decide].
  rewrite <- app_assoc. cbn [app]. rewrite app_assoc. rewrite lookup_mid by (by rewrite length_app). cbn [mbind option_bind Z.eqb]. rewrite length_app. cbn. f_equal. lia.
Qed.

Lemma skip_questions_ok qs : Forall question_ok qs → ∀ pre tl,
  skip_questions (length qs) (pre ++ concat (map question_bytes qs) ++ tl) (length pre) = Some (length (pre ++ concat (map question_bytes qs))).
Proof.
  intros Hqs. induction Hqs as [|q qs [Hq Hf] Hqs IH]; intros pre tl; [cbn; by rewrite app_nil_r|]. cbn [length skip_questions map concat].
  specialize (IH (pre ++ question_bytes q) tl). rewrite <- !app_assoc in IH. rewrite <- app_assoc.
  set (r := pre ++ question_bytes q ++ concat (map question_bytes qs) ++ tl) in *.
  assert (r = pre ++ name_bytes (q_labels q) None ++ q_fixed q ++ concat (map question_bytes qs) ++ tl) as Er by (unfold r, question_bytes; by rewrite <- !app_assoc).
  destruct (skip_name_full (q_labels q) None pre _ r Hq I Er) as (pos & E & E2). change (bool_decide (is_Some (@None (Z * Z)))) with false in *. rewrite E. cbn [mbind option_bind]. cbv iota in E2.
  rewrite E2. cbn [mbind option_bind].
  replace (length pre + length (name_bytes (q_labels q) None) + 4)%nat with (length (pre ++ question_bytes q)) by (unfold question_bytes; rewrite !length_app; lia).
  exact IH.
Qed.

Lemma parse_one a pre tl r : answer_ok a → r = pre ++ answer_bytes a ++ tl → ∀ n,
  parse_answers (S n) r (length pre) = match address a with Some ip => Some (Some ip) | None => parse_answers n r (length (pre ++ answer_bytes a)) end.
Proof.
  intros (Hls & Hptr & Htype & Hfix & Hlen & Hdata) Er n. set (nb := name_bytes (an_labels a) (an_ptr a)). set (dl := Z.of_nat (length (an_data a))) in *.
  assert (r = pre ++ nb ++ word (an_type a) ++ an_fixed a ++ word dl ++ an_data a ++ tl) as E0 by (rewrite Er; unfold answer_bytes; by rewrite <- !app_assoc).
  assert (length (nb ++ word (an_type a) ++ an_fixed a ++ word dl ++ an_data a) = length nb + 10 + length (an_data a))%nat as El by (rewrite !length_app; cbn; lia).
  assert (length r = length pre + length nb + 10 + length (an_data a) + length tl)%nat as Elr by (rewrite E0, !length_app; cbn; lia).
  cbn [parse_answers]. destruct (Nat.ltb_spec (length pre) (length r)); [|lia].
  destruct (skip_name_full _ _ pre _ r Hls Hptr E0) as (pos & E & E2). fold nb in E2. rewrite E. cbn [mbind option_bind]. rewrite E2. cbn [mbind option_bind].
  destruct (Nat.ltb_spec (length r) (length pre + length nb + 10)); [lia|].
  assert (be16 r (length pre + length nb) = Some (an_type a)) as ->.
  { rewrite E0, app_assoc. apply be16_word; [done|by rewrite length_app]. }
  cbn [mbind option_bind]. assert (be16 r (length pre + length nb + 8) = Some dl) as ->.
  { rewrite E0. rewrite 3!app_assoc. apply be16_word; [lia|rewrite !length_app; cbn; lia]. }
  cbn [mbind option_bind]. unfold address.
  assert ((length pre + length nb + 10 + Z.to_nat dl)%nat = length (pre ++ answer_bytes a)) as -> by (rewrite length_app; change (answer_bytes a) with (nb ++ word (an_type a) ++ an_fixed a ++ word dl ++ an_data a); rewrite El; unfold dl; lia).
  destruct (Z.eqb_spec (an_type a) DNS_TYPE_A) as [Ht|Ht]; cbn [andb]; [|done].
  assert (∀ x y z w, an_data a = [x; y; z; w] → ∃ pre', r = pre' ++ [x; y; z; w] ++ tl ∧ length pre' = (length pre + length nb + 10)%nat) as Hpre.
  { intros x y z w Ed. exists (pre ++ nb ++ word (an_type a) ++ an_fixed a ++ word dl). rewrite E0, Ed, <- !app_assoc. split; [done|]. rewrite !length_app. cbn. lia. }
  destruct (Z.eqb_spec dl 4) as [Hd|Hd].
  - destruct (an_data a) as [|x [|y [|z [|w [|? ?]]]]] eqn:Ed; try (unfold dl in Hd; cbn in Hd; lia).
    destruct (Hpre x y z w eq_refl) as (pre' & Er' & <-). rewrite Er'. inversion_clear Hdata as [|? ? Hx H1]. inversion_clear H1 as [|? ? Hy H2].
    inversion_clear H2 as [|? ? Hz H3]. inversion_clear H3 as [|? ? Hw _].
    assert (∀ i, (pre' ++ [x; y; z; w] ++ tl) !! (length pre' + i)%nat = ([x; y; z; w] ++ tl) !! i) as Hi by (intros i; by rewrite lookup_app_r, Nat.add_comm, Nat.add_sub by lia).
    rewrite <- (Nat.add_0_r (length pre')) at 1. rewrite !Hi. cbn [app lookup list_lookup mbind option_bind]. by rewrite ip_bytes.
  - destruct (an_data a) as [|x [|y [|z [|w [|? ?]]]]] eqn:Ed; try done.
Qed.

Lemma parse_answers_ok l : Forall answer_ok l → ∀ pre tl,
  parse_answers (length l) (pre ++ concat (map answer_bytes l) ++ tl) (length pre) = Some (first_address l).
Proof.
  intros Hl. induction Hl as [|a l Ha Hl IH]; intros pre tl; [done|]. cbn [length map concat first_address]. rewrite <- app_assoc.
  rewrite (parse_one a pre (concat (map answer_bytes l) ++ tl)) by done. destruct (address a); [done|]. rewrite app_assoc. apply IH.
Qed.

(** A message with its header; the identifier and the last two counts are not
    looked at. *)
Definition message (id flags : Z) (qs : list question) (l : list answer) (rest tl : list Z) : list Z :=
  (word id ++ word flags ++ word (Z.of_nat (length qs)) ++ word (Z.of_nat (length l)) ++ rest) ++
  concat (map question_bytes qs) ++ concat (map answer_bytes l) ++ tl.

Lemma le16_word pre v tl pos : 0 ≤ v < 65536 → pos = length pre → ∃ x, le16 (pre ++ word v ++ tl) pos = Some x ∧ ntohs x = v.
Proof.
  intros Hv ->. destruct (word_bytes v Hv) as (H1 & H2 & H3). exists (v / 256 + 256 * (v `mod` 256)). split; [|by rewrite swap_bytes].
  unfold le16, word. cbn [app]. rewrite (lookup_mid pre _ _ (length pre)) by done. cbn [mbind option_bind].
  rewrite (cons_middle (v / 256)), app_assoc. by rewrite lookup_mid by (rewrite length_app; cbn; lia).
Qed.

(** Parsing a well-formed response without error gives the address of its
    first A record, whatever other records come before it and whether or not
    their names are compressed; a response with an error code or with no
    address gives -1. *)
Theorem dns_parse_response_correct id flags qs l rest tl :
  0 ≤ flags < 65536 → Z.of_nat (length qs) < 65536 → 0 < Z.of_nat (length l) < 65536 → length rest = 4%nat →
  Forall question_ok qs → Forall answer_ok l →
  dns_parse_response (message id flags qs l rest tl) =
  Some (if negb (Z.land flags DNS_FLAG_QR =? 0) && (Z.land flags DNS_RCODE_MASK =? 0) then
          match first_address l with Some ip => (0, Some ip) | None => (-1, None) end
        else (-1, None)).
Proof.
  intros Hfl Hq Hl Hrest Hqs Hls. unfold dns_parse_response. set (hdr := word id ++ word flags ++ word (Z.of_nat (length qs)) ++ word (Z.of_nat (length l)) ++ rest).
  assert (length hdr = 12%nat) as Hhdr by (unfold hdr; rewrite !length_app; cbn; lia).
  assert (message id flags qs l rest tl = hdr ++ concat (map question_bytes qs) ++ concat (map answer_bytes l) ++ tl) as Em by done.
  destruct (Nat.ltb_spec (length (message id flags qs l rest tl)) DNS_HEADER_SIZE) as [Hs|_]; [rewrite Em, length_app in Hs; unfold DNS_HEADER_SIZE in Hs; lia|].
  set (body := concat (map question_bytes qs) ++ concat (map answer_bytes l) ++ tl) in *.
  destruct (le16_word (word id) flags (word (Z.of_nat (length qs)) ++ word (Z.of_nat (length l)) ++ rest ++ body) 2 Hfl eq_refl) as (x1 & E1 & N1).
  destruct (le16_word (word id ++ word flags) (Z.of_nat (length qs)) (word (Z.of_nat (length l)) ++ rest ++ body) 4 ltac:(lia) eq_refl) as (x2 & E2 & N2).
  destruct (le16_word (word id ++ word flags ++ word (Z.of_nat (length qs))) (Z.of_nat (length l)) (rest ++ body) 6 ltac:(lia) eq_refl) as (x3 & E3 & N3).
  assert (∀ a, (word id ++ a) ++ body = word id ++ a ++ body) as Ha by (intros a; by rewrite app_assoc).
  assert (message id flags qs l rest tl = word id ++ word flags ++ word (Z.of_nat (length qs)) ++ word (Z.of_nat (length l)) ++ rest ++ body) as Em2
    by (rewrite Em; unfold hdr; by rewrite <- !app_assoc).
  rewrite <- Em2 in E1. repeat rewrite <- app_assoc in E2. repeat rewrite <- app_assoc in E3. rewrite <- Em2 in E2, E3. rewrite E1. cbn [mbind option_bind]. rewrite N1.
  destruct (Z.eqb_spec (Z.land flags DNS_FLAG_QR) 0); cbn [negb andb]; [done|]. destruct (Z.eqb_spec (Z.land flags DNS_RCODE_MASK) 0); cbn [negb]; [|done].
  rewrite E2. cbn [mbind option_bind]. rewrite E3. cbn [mbind option_bind]. rewrite N2, N3. destruct (Z.eqb_spec (Z.of_nat (length l)) 0); [lia|].
  rewrite !Nat2Z.id, Em. unfold DNS_HEADER_SIZE. rewrite <- Hhdr. unfold body. rewrite skip_questions_ok by done. cbn [mbind option_bind].
  rewrite app_assoc, parse_answers_ok by done. cbn [mbind option_bind]. done.
Qed.

(** ** Names *)

(** A name that is encoded is decoded again, wherever the encoded bytes
    are in a message; both calls return the number of bytes it takes. *)
Theorem dns_name_roundtrip ls buf name_len :
  Forall label_ok ls → ls ≠ [] → (length (dotted ls) + 2 ≤ length buf)%nat → Z.of_nat (length (dotted ls)) < name_len < 2 ^ 64 →
  ∃ buf', dns_encode_name (dotted ls) buf = Some (Z.of_nat (length (dotted ls) + 2), buf') ∧ length buf' = length buf ∧
    ∀ pre tl, let r := pre ++ buf' ++ tl in
      dns_decode_name (length r) r (length pre) name_len = Some (dotted ls, Z.of_nat (length (dotted ls) + 2)).
Proof.
  intros Hls Hne Hbuf Hn. pose proof (length_wire ls Hls Hne) as Hw. assert (S (length (wire ls)) = length (dotted ls) + 2)%nat as Hlen by lia.
  eexists. split; [rewrite encode_ok by (done || lia); by rewrite Hlen|]. split; [rewrite length_app; cbn [length]; rewrite length_drop; lia|].
  intros pre tl r. apply decode_ok; [lia| |lia]. rewrite <- Hlen. unfold r. rewrite <- app_assoc. cbn [app]. by apply wire_at.
Qed.

(** On any message, from any offset, decoding stays inside the message and
    the name buffer, and a loop that has not ended after as many rounds as the
    message has bytes never ends. *)
Theorem dns_decode_decided r offset name_len fuel :
  1 ≤ name_len < 2 ^ 64 → dns_decode_name (length r) r offset name_len = None → dns_decode_name fuel r offset name_len = None.
Proof.
  intros Hn. unfold dns_decode_name.
  assert (∀ k name, decode_loop k r name_len offset [] 0 false = Some (Some name) → Z.of_nat (length (fst name)) < name_len) as Hlen.
  { assert (∀ k o nm rl j name, Z.of_nat (length nm) < name_len → decode_loop k r name_len o nm rl j = Some (Some name) → Z.of_nat (length (fst name)) < name_len) as Hgen.
    { induction k as [|k IH]; intros o nm rl j name Hnm.
      - cbn [decode_loop]. destruct (decode_round r o); try done. by intros [= <-].
      - destruct (decode_round r o) as [| |ptr|chunk nx len] eqn:E; [cbn [decode_loop]; rewrite E..|].
        + by intros [= <-].
        + done.
        + by apply IH.
        + rewrite (decode_label _ _ _ _ _ _ _ _ _ _ E). destruct (add_label_safe name_len chunk nm Hn Hnm) as (n' & -> & Hn'). by apply IH. }
    intros k name. apply Hgen. cbn. lia. }
  destruct (decode_loop fuel r name_len offset [] 0 false) as [x|] eqn:E; [|done]. rewrite (decode_loop_decided r name_len fuel offset x Hn E).
  cbn [mbind option_bind]. destruct x as [[nm rl]|]; [|done]. apply Hlen in E. cbn in E. by destruct (Z.ltb_spec (Z.of_nat (length nm)) name_len); [|lia].
Qed.

(** C18: a name of the message in the sense of RFC 1035, compressed or not, is
    decoded to its dotted form, with the number of bytes that it takes at its
    place. *)
Theorem dns_decode_correct r offset name_len ls n :
  1 ≤ name_len < 2 ^ 64 → name_at r offset ls n → Z.of_nat (length (dotted ls)) < name_len →
  dns_decode_name (length r) r offset name_len = Some (dotted ls, n).
Proof. apply decode_ok. Qed.

(** ** Queries *)

Lemma htons_word v : 0 ≤ v < 65536 → [htons v `mod` 256; htons v / 256] = word v.
Proof.
  intros Hv. destruct (word_bytes v Hv) as (H1 & H2 & H3). unfold word. set (a := v / 256) in *. set (b := v `mod` 256) in *. unfold is_byte in *.
  assert (htons v = 256 * b + a) as ->. { rewrite <- H3, Z.add_comm. by rewrite <- (swap_bytes b a). }
  f_equal; [symmetry; apply (Z.mod_unique_pos _ 256 b); lia|]. f_equal. symmetry. apply (Z.div_unique_pos _ 256 _ a); lia.
Qed.

Lemma put16_ok l v tl : 0 ≤ v < 65536 → (2 ≤ length tl)%nat → put16 (length l) (htons v) (l ++ tl) = Some ((l ++ word v) ++ drop 2 tl).
Proof. intros Hv Htl. unfold put16. rewrite htons_word, put_app by done. by rewrite <- app_assoc. Qed.

Definition query_header (id : Z) : list Z := word id ++ word DNS_FLAG_RD ++ word 1 ++ word 0 ++ word 0 ++ word 0.

(** The six stores into the header. *)
Lemma put_header id buf : 0 ≤ id < 65536 → (12 ≤ length buf)%nat →
  (b ← put16 0 (htons id) buf; b ← put16 2 (htons DNS_FLAG_RD) b; b ← put16 4 (htons 1) b; b ← put16 6 0 b; b ← put16 8 0 b; put16 10 0 b) =
  Some (query_header id ++ drop 12 buf).
Proof.
  intros Hid Hb. assert (∀ l v tl k, k = length l → 0 ≤ v < 65536 → (2 ≤ length tl)%nat → put16 k (htons v) (l ++ tl) = Some ((l ++ word v) ++ drop 2 tl)) as Hp
    by (intros l v tl k -> Hv Htl; by apply put16_ok).
  assert (∀ l tl k, k = length l → (2 ≤ length tl)%nat → put16 k 0 (l ++ tl) = Some ((l ++ word 0) ++ drop 2 tl)) as Hp0 by (intros l tl k Hk Htl; by apply (Hp l 0)).
  pose proof (Hp [] id buf 0%nat eq_refl Hid ltac:(lia)) as E1. cbn [app] in E1. rewrite E1. cbn [mbind option_bind].
  rewrite (Hp (word id) DNS_FLAG_RD) by (rewrite ?length_drop; unfold DNS_FLAG_RD; cbn; lia). cbn [mbind option_bind].
  rewrite (Hp _ 1) by (rewrite ?length_app, ?length_drop; cbn; lia). cbn [mbind option_bind].
  rewrite Hp0 by (rewrite ?length_app, ?length_drop; cbn; lia). cbn [mbind option_bind].
  rewrite Hp0 by (rewrite ?length_app, ?length_drop; cbn; lia). cbn [mbind option_bind].
  rewrite Hp0 by (rewrite ?length_app, ?length_drop; cbn; lia). unfold query_header. rewrite <- !app_assoc, !drop_drop. done.
Qed.

(** The query for a name of at most 253 characters is a header with a
    fresh identifier and one question that decodes to the name, its type and
    the class; it fits the buffer, and the next identifier is prepared. *)
Theorem dns_build_query_correct ls type buf s :
  Forall label_ok ls → ls ≠ [] → (length (dotted ls) ≤ 253)%nat → 0 ≤ type < 65536 → (271 ≤ length buf)%nat → 0 ≤ dns_query_id s < 65536 →
  ∃ s' r, dns_build_query (dotted ls) type buf s = Some (s', Z.of_nat (length (dotted ls) + 18), r) ∧
    (∃ tl, r = query_header (dns_query_id s) ++ question_bytes (mk_question ls (word type ++ word 1)) ++ tl) ∧ length r = length buf ∧
    dns_decode_name (length r) r 12 256 = Some (dotted ls, Z.of_nat (length (dotted ls) + 2)) ∧
    dns_query_id s' = u16 (dns_query_id s + 1) ∧ dns_cache s' = dns_cache s.
Proof.
  intros Hls Hne Hlen Hty Hbuf Hid. pose proof (length_wire ls Hls Hne) as Hw. unfold dns_build_query.
  destruct (Z.ltb_spec (Z.of_nat (length buf)) (Z.of_nat DNS_HEADER_SIZE + DNS_MAX_NAME_LEN + 4)); [unfold DNS_HEADER_SIZE, DNS_MAX_NAME_LEN in *; lia|].
  pose proof (put_header (dns_query_id s) buf Hid ltac:(lia)) as Hh. set (id := dns_query_id s) in *.
  revert Hh. repeat match goal with |- context [put16 ?k ?v ?b] => destruct (put16 k v b) as [?|]; cbn [mbind option_bind]; [|done] end. intros Hh.
  apply (inj Some) in Hh. rewrite Hh. clear Hh. assert (length (query_header id) = DNS_HEADER_SIZE) as Hq by done. rewrite <- Hq, drop_app_length, take_app_length, Hq.
  rewrite encode_ok by (rewrite ?length_drop; done || lia). cbn [mbind option_bind]. destruct (Z.ltb_spec (Z.of_nat (S (length (wire ls)))) 0); [lia|].
  rewrite Nat2Z.id. set (rest := drop _ (drop 12 buf)).
  assert (length rest = length buf - 12 - S (length (wire ls)))%nat as Hrest by (unfold rest; rewrite !length_drop; lia).
  assert ((DNS_HEADER_SIZE + S (length (wire ls)))%nat = length (query_header id ++ wire ls ++ [0])) as -> by (rewrite !length_app, Hq; cbn; lia).
  assert (query_header id ++ wire ls ++ 0 :: rest = (query_header id ++ wire ls ++ [0]) ++ rest) as -> by (by rewrite <- !app_assoc).
  destruct (word_bytes type Hty) as (Hb1 & Hb2 & _). unfold is_byte in *.
  assert ([Z.land (Z.shiftr type 8) 0xFF; Z.land type 0xFF; 0; 1] = word type ++ word 1) as ->.
  { rewrite !land_byte, Z.shiftr_div_pow2 by lia. change (2 ^ 8) with 256. unfold word. cbn. by rewrite (Z.mod_small (type / 256)). }
  rewrite put_app by (rewrite length_app; cbn; lia). cbn [mbind option_bind].
  set (r := (query_header id ++ wire ls ++ [0]) ++ (word type ++ word 1) ++ drop (length (word type ++ word 1)) rest).
  assert (r = query_header id ++ wire ls ++ 0 :: (word type ++ word 1) ++ drop (length (word type ++ word 1)) rest) as Er by (unfold r; by rewrite <- !app_assoc).
  assert ((length (query_header id ++ wire ls ++ [0%Z]) + 4)%nat = (length (dotted ls) + 18)%nat) as -> by (rewrite !length_app, Hq; cbn; unfold DNS_HEADER_SIZE; lia).
  eexists _, r. split; [reflexivity|]. split.
  { exists (drop (length (word type ++ word 1)) rest). rewrite Er. unfold question_bytes, name_bytes. cbn [q_labels q_fixed name_end]. by rewrite <- !app_assoc. }
  split; [unfold r; rewrite ?length_app, ?length_drop, ?length_app, Hq; cbn; unfold DNS_HEADER_SIZE; lia|]. split; [|done].
  change 12%nat with (length (query_header id)). apply decode_ok; [lia| |lia]. replace (length (dotted ls) + 2)%nat with (S (length (wire ls))) by lia.
  rewrite Er. by apply wire_at.
Qed.

(** ** The cache *)

Lemma first_invalid_spec k l i : first_invalid k l = Some i → (k ≤ i)%nat ∧ ∃ e, l !! (i - k)%nat = Some e ∧ e_valid e = false.
Proof.
  revert k. induction l as [|e l IH]; intros k; cbn [first_invalid]; [done|]. destruct (e_valid e) eqn:Ev.
  - intros Hi. apply IH in Hi as [Hle (e' & He & Hv)]. split; [lia|]. exists e'. replace (i - k)%nat with (S (i - S k)) by lia. done.
  - intros [= <-]. split; [done|]. exists e. by rewrite Nat.sub_diag.
Qed.

Definition matches (name : list Z) (e : dns_cache_entry) : bool := e_valid e && str_eq name (e_name e).

(** Replacing an entry that does not match leaves the search as it is, if the
    new entry does not match either; otherwise it is found, if nothing matched
    before. *)
Lemma find_replace name i (l : list dns_cache_entry) e e' : l !! i = Some e →
  (matches name e = false → matches name e' = false → find (matches name) (<[i := e']> l) = find (matches name) l) ∧
  (find (matches name) l = None → matches name e' = true → find (matches name) (<[i := e']> l) = Some e').
Proof.
  revert i. induction l as [|x l IH]; intros [|i] Hi; cbn in *; try done.
  - injection Hi as ->. split; [by intros -> ->|]. by intros _ ->.
  - destruct (IH i Hi) as [IH1 IH2]. split; intros H1 H2; destruct (matches name x); by auto.
Qed.

(** An address added under a name that is not cached is what the resolver
    then returns for it; the other names keep their entries, but for the one
    in the first slot when the cache was full. *)
Theorem dns_cache_correct name ip ttl s :
  name ≠ [] → (length name ≤ 254)%nat → dns_cache_lookup name s = None → dns_cache s ≠ [] →
  let s' := dns_cache_add name ip ttl s in
  dns_resolve name s' = Some (s', 0, Some ip) ∧ length (dns_cache s') = length (dns_cache s) ∧
  ∀ other, other ≠ name → (first_invalid 0 (dns_cache s) = None → ∀ e, head (dns_cache s) = Some e → e_name e ≠ other) →
    dns_cache_lookup other s' = dns_cache_lookup other s.
Proof.
  intros Hne Hlen Hno Hcache s'. set (i := default 0%nat (first_invalid 0 (dns_cache s))).
  assert (∃ e, dns_cache s !! i = Some e ∧ (e_valid e = false ∨ (first_invalid 0 (dns_cache s) = None ∧ head (dns_cache s) = Some e))) as (e & He & Hev).
  { unfold i. destruct (first_invalid 0 (dns_cache s)) as [j|] eqn:Ef.
    - apply first_invalid_spec in Ef as [_ (e & He & Hv)]. rewrite Nat.sub_0_r in He. eauto.
    - destruct (dns_cache s) as [|e l]; [done|]. exists e. auto. }
  set (e' := mk_entry name ip ttl 0 true). assert (dns_cache s' = <[i := e']> (dns_cache s)) as Es'.
  { unfold s', dns_cache_add. cbn [with_cache dns_cache]. fold i. destruct name as [|c n] eqn:En; [done|]. rewrite <- En in *.
    apply list_eq. intros j. destruct (decide (j = i)) as [->|Hj]; [|by rewrite list_lookup_alter_ne, list_lookup_insert_ne by done].
    rewrite list_lookup_alter_eq, He, list_lookup_insert_eq by (by eapply lookup_lt_Some). cbn. rewrite take_ge by (unfold DNS_MAX_NAME_LEN; cbn; lia). by rewrite En. }
  split; [|split].
  - unfold dns_resolve, dns_cache_lookup. rewrite Es'. fold (matches name).
    destruct (find_replace name i (dns_cache s) e e' He) as [_ ->]; [done|done|]. unfold matches, str_eq. cbn. by rewrite bool_decide_eq_true_2.
  - rewrite Es'. apply length_insert.
  - intros other Ho Hslot. unfold dns_cache_lookup. rewrite Es'. fold (matches other). apply (find_replace other i (dns_cache s) e e' He).
    + unfold matches. destruct Hev as [->|[Hf Hh]]; [done|]. unfold str_eq. rewrite bool_decide_eq_false_2; [apply andb_false_r|]. intros ->. by apply (Hslot Hf e Hh).
    + unfold matches, str_eq. cbn. by rewrite bool_decide_eq_false_2.
Qed.

Lemma set_server_ok index ip s : length (dns_servers s) = 4%nat → 0 ≤ num_dns_servers s ≤ 4 →
  let '(s', ret) := dns_set_server index ip s in
  length (dns_servers s') = 4%nat ∧ num_dns_servers s ≤ num_dns_servers s' ≤ 4 ∧
  (ret = 0 → dns_servers s' !! Z.to_nat index = Some ip ∧ index < num_dns_servers s') ∧ (ret ≠ 0 → s' = s ∧ (index < 0 ∨ 4 ≤ index)).
Proof.
  intros Hl Hn. unfold dns_set_server. destruct (Z.ltb_spec index 0), (Z.leb_spec 4 index); cbn [orb]; try (split; [done|split; [lia|split; [done|auto]]]).
  cbn [dns_servers num_dns_servers]. rewrite length_insert, list_lookup_insert_eq by lia. destruct (Z.leb_spec (num_dns_servers s) index); (split; [done|]; split; [lia|]; split; [intros _; split; [done|lia]|done]).
Qed.

(** ** Concrete runs *)

Definition demo_labels : list (list Z) := [bytes_of_string "www"%string; bytes_of_string "example"%string; bytes_of_string "org"%string].
Definition demo_host : list Z := bytes_of_string "www.example.org"%string.

Lemma label_ok_dec l : ((0 <? length l) && (length l <? 64))%nat && forallb (λ c, (0 <? c) && (c <? 256) && negb (c =? DOT)) l = true → label_ok l.
Proof.
  intros [Hl Hc]%andb_true_iff. apply andb_true_iff in Hl as [H1%Nat.ltb_lt H2%Nat.ltb_lt]. split; [done|]. rewrite forallb_forall in Hc.
  apply Forall_forall. intros c Hin%list_elem_of_In. specialize (Hc c Hin). apply andb_true_iff in Hc as [Hc Hd%negb_true_iff%Z.eqb_neq].
  apply andb_true_iff in Hc as [?%Z.ltb_lt ?%Z.ltb_lt]. done.
Qed.

Lemma demo_labels_ok : Forall label_ok demo_labels.
Proof. do 3 (constructor; [apply label_ok_dec; reflexivity|]). constructor. Qed.

Lemma dns_name_roundtrip_witness :
  ∃ buf', dns_encode_name demo_host (replicate 32 0) = Some (17, buf') ∧
    dns_decode_name (length (buf' ++ [])) (buf' ++ []) 0 100 = Some (demo_host, 17).
Proof.
  destruct (dns_name_roundtrip demo_labels (replicate 32 0) 100 demo_labels_ok) as (buf' & E & _ & Hd); [done|vm_compute; lia|vm_compute; done|].
  exists buf'. split; [exact E|exact (Hd [] [])].
Defined.

(** A message that points to itself. *)
Lemma dns_decode_decided_witness : dns_decode_name 2 [0xC0; 0] 0 100 = None ∧ ∀ fuel, dns_decode_name fuel [0xC0; 0] 0 100 = None.
Proof. split; [reflexivity|]. intros fuel. apply (dns_decode_decided [0xC0; 0] 0 100 fuel); [lia|reflexivity]. Defined.

Lemma dns_decode_correct_witness :
  dns_decode_name (length (3 :: bytes_of_string "org"%string ++ [0; 0xC0; 0])) (3 :: bytes_of_string "org"%string ++ [0; 0xC0; 0]) 5 100 =
  Some (bytes_of_string "org"%string, 2).
Proof.
  apply (dns_decode_correct (3 :: bytes_of_string "org"%string ++ [0; 0xC0; 0]) 5 100 [bytes_of_string "org"%string] 2); [lia| |vm_compute; reflexivity].
  apply (na_pointer _ 5 0xC0 0 _ 5); [reflexivity..|]. apply (na_label _ 0 (bytes_of_string "org"%string) [] 1); [reflexivity|vm_compute; lia|reflexivity|].
  apply na_end. reflexivity.
Defined.

Lemma dns_build_query_correct_witness :
  ∃ s' r, dns_build_query demo_host DNS_TYPE_A (replicate 512 0) dns_static = Some (s', 33, r) ∧ dns_query_id s' = 2.
Proof.
  destruct (dns_build_query_correct demo_labels DNS_TYPE_A (replicate 512 0) dns_static demo_labels_ok) as (s' & r & E & _ & _ & _ & Hid & _);
    [done|vm_compute; lia|unfold DNS_TYPE_A; lia|rewrite length_replicate; lia|cbn; lia|]. exists s', r. split; [exact E|exact Hid].
Defined.

(** A CNAME record and the A record it leads to. *)
Definition demo_answers : list answer :=
  [mk_answer [] (Some (0xC0, 12)) 5 [0; 1; 0; 0; 0; 60] [1; 97; 0]; mk_answer demo_labels None 1 [0; 1; 0; 0; 0; 60] [192; 168; 1; 10]].

Lemma demo_answers_ok : Forall answer_ok demo_answers.
Proof.
  constructor; [|constructor; [|constructor]]; (split; [try exact demo_labels_ok; constructor|]); (split; [done|]); (split; [cbn; lia|]); (split; [done|]);
    (split; [cbn; lia|]); apply Forall_forall; intros x Hx; unfold is_byte; cbn in Hx; repeat (apply elem_of_cons in Hx as [->|Hx]; [lia|]); by apply elem_of_nil in Hx.
Qed.

Lemma dns_parse_response_correct_witness :
  dns_parse_response (message 1 0x8180 [mk_question demo_labels [0; 1; 0; 1]] demo_answers [0; 0; 0; 0] []) = Some (0, Some 0xC0A8010A).
Proof.
  rewrite (dns_parse_response_correct 1 0x8180 [mk_question demo_labels [0; 1; 0; 1]] demo_answers [0; 0; 0; 0] []);
    [reflexivity|lia|cbn; lia|cbn; lia|done| |exact demo_answers_ok].
  constructor; [split; [exact demo_labels_ok|done]|constructor].
Defined.

Lemma dns_cache_correct_witness :
  dns_resolve demo_host (dns_cache_add demo_host 42 60 (dns_init dns_static)) = Some (dns_cache_add demo_host 42 60 (dns_init dns_static), 0, Some 42).
Proof. apply (dns_cache_correct demo_host 42 60 (dns_init dns_static)); [done|vm_compute; lia|reflexivity|done]. Defined.

(** A long name passes the check of dns_encode_name against the end of the
    buffer, and the type and class are written behind the buffer. *)
Lemma query_overflow : dns_build_query (replicate 498 97) DNS_TYPE_A (replicate 512 0) dns_static = None.
Proof. vm_compute. reflexivity. Qed.

(** A response that ends inside its question is read past its end, and so is
    one that ends inside the address. *)
Lemma parse_reads_outside :
  dns_parse_response [0; 1; 0x81; 0x80; 0; 1; 0; 1; 0; 0; 0; 0; 3; 97] = None ∧
  dns_parse_response [0; 1; 0x81; 0x80; 0; 0; 0; 1; 0; 0; 0; 0; 0; 0; 1; 0; 1; 0; 0; 0; 0; 0; 4; 10] = None.
Proof. split; vm_compute; reflexivity. Qed.

(** An entry with an empty name keeps the name of the slot, and a second entry
    for a name is not found. *)
Lemma cache_add_flaws :
  (dns_cache_lookup [] (dns_cache_add [] 42 60 (with_cache [mk_entry demo_host 1 60 0 true] dns_static)) = None ∧
   (e_ip <$> dns_cache_lookup demo_host (dns_cache_add [] 42 60 (with_cache [mk_entry demo_host 1 60 0 true] dns_static))) = Some 42) ∧
  (e_ip <$> dns_cache_lookup demo_host (dns_cache_add demo_host 2 60 (dns_cache_add demo_host 1 60 dns_static))) = Some 1.
Proof. split; [split|]; vm_compute; reflexivity. Qed.
