(* ===== verification/Syscall.v ===== *)
(** * kernel/syscall/syscall.c

    The system call table, the file descriptors, the user heap and the calls,
    over the VFS ([Vfs]), the scheduler ([Sched]) and the ELF loader ([Elf]).

    User memory is the flat memory of [Elf]: an address that was never written
    reads as zero.  Nothing keeps a program from passing addresses of the
    kernel (is_valid_user_ptr accepts a part of them, most calls check
    nothing); a call that would read or write the memory in which the kernel
    keeps its own data, that is the heap and the ranges [k_image], has no
    outcome here ([None]).  [k_in] are the results that [api->getc] will give, a
    negative one when no key is pressed; the wait for the next one is the end
    of a call that returns [Blocked].  Console output is appended to [k_out].
    process_yield is only the place where the next result is waited for.
    sys_exit does not return ([Exited]): the task is switched away from.

    sys_sound_play is in no table and handle_sync_exception ends in a panic. *)

From S2P Require Import Prelude KHeap Kmalloc PageAlloc Pmm Vmm Sched Elf Ramfs Vfs VfsFiles VfsSave.

Definition MAX_FDS : nat := 256.
Definition EMFILE : Z := 24.
Definition ENOEXEC : Z := 8.
Definition KERNEL_START : Z := 0x40000000.
Definition KERNEL_END : Z := 0x50000000.
Definition USER_HEAP_START : Z := 0x10000000.
Definition USER_HEAP_SIZE : Z := 0x04000000.
Definition USER_CODE_BASE : Z := 0x400000.
Definition MAP_ANONYMOUS : Z := 0x20.
Definition PF_USER : Z := 8.
Definition NR_syscalls : nat := 512.

Record fd_entry := mk_fd { fe_file : option Z; fe_flags : Z; fe_in_use : bool }.

Inductive result := Ret (v : Z) | Blocked | Exited.

(** The registered functions. *)
Inductive sysfn :=
| Sys_read | Sys_write | Sys_openat | Sys_close | Sys_lseek | Sys_exit | Sys_exit_group | Sys_getpid | Sys_getppid | Sys_getuid | Sys_getgid
| Sys_gettid | Sys_brk | Sys_mmap | Sys_munmap | Sys_clone | Sys_execve | Sys_uname | Sys_sched_yield | Sys_nanosleep | Sys_not_implemented.

Record sys (H : Type) := mk_sys {
  k_vfs : vfs H;
  fd_table : list fd_entry;
  fd_table_initialized : bool;
  k_mem : mem;
  k_sched : sched;
  user_brk_current : Z;
  user_mmap_current : Z;
  k_in : list Z;
  k_out : list Z;
  syscall_table : list (option sysfn);
  k_image : list (Z * Z)
}.
Arguments mk_sys {H}.
Arguments k_vfs {H}.
Arguments fd_table {H}.
Arguments fd_table_initialized {H}.
Arguments k_mem {H}.
Arguments k_sched {H}.
Arguments user_brk_current {H}.
Arguments user_mmap_current {H}.
Arguments k_in {H}.
Arguments k_out {H}.
Arguments syscall_table {H}.
Arguments k_image {H}.

(** ** User memory *)

Definition bytes_at (m : mem) (a : Z) (n : nat) : list Z := map (λ i, peek m (u64 (a + Z.of_nat i))) (seq 0 n).

(** The characters up to the first zero. *)
Fixpoint read_str (fuel : nat) (m : mem) (a : Z) : list Z :=
  match fuel with
  | O => []
  | S fuel' => if peek m a =? 0 then [] else peek m a :: read_str fuel' m (u64 (a + 1))
  end.
Definition user_str (m : mem) (a : Z) : option (list Z) := if a =? 0 then None else Some (read_str (S (size m)) m a).

(** The string and its end lie outside the ranges [K]; nothing is read at NULL. *)
Definition str_apart (K : list (Z * Z)) (m : mem) (a : Z) : bool :=
  match user_str m a with None => true | Some l => apart K a (Z.of_nat (length l) + 1) end.

(** The check of a user buffer. *)
Definition is_valid_user_ptr (ptr len : Z) : bool :=
  if ptr =? 0 then false
  else if (0 <? len) && (2 ^ 64 - 1 - len <? ptr) then false
  else
    let e := u64 (ptr + len) in
    if (0x10000000 <=? ptr) && (e <=? 0x14000000) then true
    else if (0x44000000 <=? ptr) && (e <? 0x50000000) then true
    else if (KERNEL_START <=? ptr) && (ptr <? KERNEL_END) then false
    else true.

Section Ops.
Context {H : Type} `{!KernelHeap H}.
Implicit Types s : sys H.

Definition with_vfs (v : vfs H) s : sys H :=
  mk_sys v (fd_table s) (fd_table_initialized s) (k_mem s) (k_sched s) (user_brk_current s) (user_mmap_current s) (k_in s) (k_out s) (syscall_table s) (k_image s).
Definition with_fds (t : list fd_entry) (i : bool) s : sys H :=
  mk_sys (k_vfs s) t i (k_mem s) (k_sched s) (user_brk_current s) (user_mmap_current s) (k_in s) (k_out s) (syscall_table s) (k_image s).
Definition with_mem (m : mem) s : sys H :=
  mk_sys (k_vfs s) (fd_table s) (fd_table_initialized s) m (k_sched s) (user_brk_current s) (user_mmap_current s) (k_in s) (k_out s) (syscall_table s) (k_image s).
Definition with_sched (x : sched) s : sys H :=
  mk_sys (k_vfs s) (fd_table s) (fd_table_initialized s) (k_mem s) x (user_brk_current s) (user_mmap_current s) (k_in s) (k_out s) (syscall_table s) (k_image s).
Definition with_heap_ends (b m : Z) s : sys H :=
  mk_sys (k_vfs s) (fd_table s) (fd_table_initialized s) (k_mem s) (k_sched s) b m (k_in s) (k_out s) (syscall_table s) (k_image s).
Definition with_io (i o : list Z) s : sys H :=
  mk_sys (k_vfs s) (fd_table s) (fd_table_initialized s) (k_mem s) (k_sched s) (user_brk_current s) (user_mmap_current s) i o (syscall_table s) (k_image s).
Definition with_table (t : list (option sysfn)) s : sys H :=
  mk_sys (k_vfs s) (fd_table s) (fd_table_initialized s) (k_mem s) (k_sched s) (user_brk_current s) (user_mmap_current s) (k_in s) (k_out s) t (k_image s).

(** Where the kernel keeps its own data; the region of the heap does not change
    while the heap is used. *)
Definition kernel_memory s : list (Z * Z) := kh_region (fs_heap (v_fs (k_vfs s))) :: k_image s.

(** ** File descriptors *)

Definition free_entry : fd_entry := mk_fd None 0 false.

Definition init_fd_table s : sys H :=
  if fd_table_initialized s then s
  else with_fds (replicate 3 (mk_fd None 0 true) ++ replicate (MAX_FDS - 3) free_entry) true s.

Fixpoint first_free_fd (i : nat) (l : list fd_entry) : option nat :=
  match l with [] => None | e :: l' => if fe_in_use e then first_free_fd (S i) l' else Some i end.

Definition alloc_fd s : sys H * Z :=
  let s := init_fd_table s in
  match first_free_fd 3 (drop 3 (fd_table s)) with
  | None => (s, -1)
  | Some i => (with_fds (alter (λ e, mk_fd (fe_file e) (fe_flags e) true) i (fd_table s)) (fd_table_initialized s) s, Z.of_nat i)
  end.

Definition free_fd (fd : Z) s : sys H :=
  if (0 <=? fd) && (fd <? Z.of_nat MAX_FDS) then with_fds (<[Z.to_nat fd := free_entry]> (fd_table s)) (fd_table_initialized s) s else s.

Definition get_file (fd : Z) s : option Z :=
  if (fd <? 0) || (Z.of_nat MAX_FDS <=? fd) then None
  else match fd_table s !! Z.to_nat fd with
       | Some e => if fe_in_use e then fe_file e else None
       | None => None
       end.

(** ** Files *)

(** [while (n < count)]; a carriage return is stored as a newline. *)
Fixpoint stdin_loop (K : list (Z * Z)) (inp : list Z) (buf count n : Z) (m : mem) : option (mem * list Z * result) :=
  if n <? count then
    match inp with
    | [] => Some (m, [], Blocked)
    | c :: inp' =>
        if 0 <=? c then
          if negb (apart K (u64 (buf + n)) 1) then None
          else
            let m := <[u64 (buf + n) := if c =? 13 then 10 else u8 c]> m in
            if (c =? 10) || (c =? 13) then Some (m, inp', Ret (n + 1)) else stdin_loop K inp' buf count (n + 1) m
        else if 0 <? n then Some (m, inp', Ret n)
        else stdin_loop K inp' buf count n m
    end
  else Some (m, inp, Ret n).

Definition sys_read (fd buf count : Z) s : option (sys H * result) :=
  let s := init_fd_table s in
  if negb (is_valid_user_ptr buf count) then Some (s, Ret (- EFAULT))
  else if fd =? 0 then
    '(m, inp, r) ← stdin_loop (kernel_memory s) (k_in s) buf count 0 (k_mem s);
    Some (with_io inp (k_out s) (with_mem m s), r)
  else
    match get_file (i32 fd) s with
    | None => Some (s, Ret (- EBADF))
    | Some f =>
        '(v, bytes, ret) ← vfs_read (Some f) (negb (buf =? 0)) count (k_vfs s);
        if negb (apart (kernel_memory s) buf (Z.of_nat (length bytes))) then None
        else Some (with_mem (elf_memcpy buf bytes (k_mem s)) (with_vfs v s), Ret ret)
    end.

Definition sys_write (fd buf count : Z) s : option (sys H * result) :=
  let s := init_fd_table s in
  if (fd =? 1) || (fd =? 2) then
    if negb (apart (kernel_memory s) buf count) then None
    else Some (with_io (k_in s) (k_out s ++ bytes_at (k_mem s) buf (Z.to_nat count)) s, Ret (i64 count))
  else
    match get_file (i32 fd) s with
    | None => Some (s, Ret (- EBADF))
    | Some f =>
        if negb (buf =? 0) && negb (apart (kernel_memory s) buf count) then None
        else
          '(v, ret) ← vfs_write (Some f) (if buf =? 0 then None else Some (bytes_at (k_mem s) buf (Z.to_nat count))) (k_vfs s);
          Some (with_vfs v s, Ret ret)
    end.

Definition sys_openat (pathname flags mode : Z) s : option (sys H * result) :=
  let s := init_fd_table s in
  let path := user_str (k_mem s) pathname in
  let '(s, fd) := alloc_fd s in
  if fd <? 0 then Some (s, Ret (- EMFILE))
  else if negb (str_apart (kernel_memory s) (k_mem s) pathname) then None
  else
    '(v, r) ← vfs_open path (i32 flags) (u32 mode) (k_vfs s);
    let s := with_vfs v s in
    match r with
    | None => Some (free_fd fd s, Ret (- ENOENT))
    | Some f =>
        Some (with_fds (alter (λ e, mk_fd (Some f) (i32 flags) (fe_in_use e)) (Z.to_nat fd) (fd_table s)) (fd_table_initialized s) s, Ret fd)
    end.

Definition sys_close (fd : Z) s : option (sys H * result) :=
  let s := init_fd_table s in
  if fd <? 3 then Some (s, Ret 0)
  else
    match get_file (i32 fd) s with
    | None => Some (s, Ret (- EBADF))
    | Some f => '(v, _) ← vfs_close (Some f) (k_vfs s); Some (free_fd (i32 fd) (with_vfs v s), Ret 0)
    end.

Definition sys_lseek (fd offset whence : Z) s : option (sys H * result) :=
  let s := init_fd_table s in
  match get_file (i32 fd) s with
  | None => Some (s, Ret (- EBADF))
  | Some f => '(v, ret) ← vfs_lseek (Some f) (i64 offset) (i32 whence) (k_vfs s); Some (with_vfs v s, Ret ret)
  end.

(** ** Tasks *)

Definition sys_exit (error_code : Z) s : option (sys H * result) :=
  x ← exit_task (i32 error_code) (k_sched s); Some (with_sched x s, Exited).
Definition sys_exit_group (error_code : Z) s : option (sys H * result) := sys_exit error_code s.
Definition sys_getpid s : option (sys H * result) := Some (s, Ret (t_pid (task_at (k_sched s) (get_current (k_sched s))))).
Definition sys_getppid s : option (sys H * result) :=
  Some (s, Ret (match ti_parent (t_info (task_at (k_sched s) (get_current (k_sched s)))) with
                | Some p => t_pid (task_at (k_sched s) p)
                | None => 0
                end)).
Definition sys_getuid s : option (sys H * result) := Some (s, Ret (ti_uid (t_info (task_at (k_sched s) (get_current (k_sched s)))))).
Definition sys_getgid s : option (sys H * result) := Some (s, Ret (ti_gid (t_info (task_at (k_sched s) (get_current (k_sched s)))))).
Definition sys_gettid s : option (sys H * result) := Some (s, Ret (t_pid (task_at (k_sched s) (get_current (k_sched s))))).
Definition sys_sched_yield s : option (sys H * result) := x ← schedule (k_sched s); Some (with_sched x s, Ret 0).

(** ** The user heap *)

Definition sys_brk (brk : Z) s : option (sys H * result) :=
  if (brk =? 0) || (brk <? USER_HEAP_START) then Some (s, Ret (i64 (user_brk_current s)))
  else if USER_HEAP_START + USER_HEAP_SIZE / 2 <? brk then Some (s, Ret (i64 (user_brk_current s)))
  else Some (with_heap_ends brk (user_mmap_current s) s, Ret (i64 brk)).

Definition page_align (len : Z) : Z := Z.land (u64 (len + 4096 - 1)) (Z.lnot 4095).

Definition sys_mmap (len flags fd : Z) s : option (sys H * result) :=
  if (Z.land flags MAP_ANONYMOUS =? 0) || negb (i64 fd =? -1) then Some (s, Ret (- ENOSYS))
  else
    let len := page_align len in
    if USER_HEAP_START + USER_HEAP_SIZE <? u64 (user_mmap_current s + len) then Some (s, Ret (- ENOMEM))
    else
      let a := user_mmap_current s in
      let s := with_heap_ends (user_brk_current s) (u64 (a + len)) s in
      if negb (apart (kernel_memory s) a len) then None
      else Some (with_mem (elf_memset (Z.to_nat len) a 0 (k_mem s)) s, Ret (i64 a)).

(** ** Stubs *)

Definition sys_munmap s : option (sys H * result) := Some (s, Ret 0).
Definition sys_clone s : option (sys H * result) := Some (s, Ret (- ENOSYS)).
Definition sys_nanosleep s : option (sys H * result) := Some (s, Ret 0).
Definition sys_not_implemented s : option (sys H * result) := Some (s, Ret (- ENOSYS)).

(** ** Programs *)

Definition path_name (path : list Z) (i : task_info) : task_info :=
  Sched.mk_info (ti_prio i) (ti_static_prio i) (ti_nice i) (ti_pid i) (ti_tgid i) (ti_uid i) (ti_gid i)
    (take (Z.to_nat (TASK_COMM_LEN - 1)) path) (ti_cpu_context i) (ti_stack i) (ti_stack_size i) (ti_parent i).

(** The current task becomes a user task named after the file. *)
Definition become (path : list Z) (x : sched) : sched :=
  Sched.upd (get_current x) (λ t, set_info (path_name path (t_info t))
    (set_flags (t_pending_signals t) (Z.ldiff (Z.lor (t_flags t) PF_USER) PF_KTHREAD) t)) x.

(** What follows once the file is in a buffer: the new memory and the entry
    point. *)
Definition load_image (fuel : nat) (data : list Z) (m : mem) : option (mem * option Z) :=
  valid ← elf_validate data (Z.of_nat (length data));
  if negb (valid =? 0) then Some (m, None)
  else
    mem_size ← elf_calc_size data (Z.of_nat (length data));
    if mem_size =? 0 then Some (m, None)
    else
      r ← elf_load_at fuel data (Z.of_nat (length data)) USER_CODE_BASE m;
      let '(m, info) := (r : mem * option elf_load_info) in Some (m, option_map info_entry info).

Definition file_size (f : Z) (v : vfs H) : option Z :=
  x ← files v !! f;
  match f_dentry x with
  | None => Some 0
  | Some dp => d ← dentries v !! dp; match d_inode d with None => Some 0 | Some w => i_size w v end
  end.

Definition sys_execve (fuel : nat) (filename : Z) s : option (sys H * result) :=
  let path := user_str (k_mem s) filename in
  let K := kernel_memory s in
  if negb (str_apart K (k_mem s) filename) then None
  else
  '(v, r) ← vfs_open path 0 0 (k_vfs s);
  match r with
  | None => Some (with_vfs v s, Ret (- ENOENT))
  | Some f =>
      size ← file_size f v;
      if (size =? 0) || (64 * 1024 * 1024 <? size) then '(v, _) ← vfs_close (Some f) v; Some (with_vfs v s, Ret (- ENOEXEC))
      else
        '(h, buf) ← kh_alloc size GFP_KERNEL (fs_heap (v_fs v));
        let v := with_fs (with_heap h (v_fs v)) v in
        match buf with
        | None => '(v, _) ← vfs_close (Some f) v; Some (with_vfs v s, Ret (- ENOMEM))
        | Some b =>
            '(v, data, bytes_read) ← vfs_read (Some f) true size v;
            '(v, _) ← vfs_close (Some f) v;
            if negb (bytes_read =? size) then v ← kf b v; Some (with_vfs v s, Ret (- EIO))
            else
              '(m, entry) ← load_image fuel data (k_mem s);
              if negb (image_apart K (k_mem s) m) then None else
              v ← kf b v;
              let s := with_mem m (with_vfs v s) in
              match entry with
              | None => Some (s, Ret (- ENOEXEC))
              | Some e => p ← path; Some (with_sched (become p (k_sched s)) s, Ret (i64 e))
              end
        end
  end.

(** The strings are copied without their end; only the last byte of each field
    is cleared. *)
Definition uts_field (buf : Z) (i : nat) (str : list Z) (m : mem) : mem :=
  let a := u64 (buf + 65 * Z.of_nat i) in <[u64 (a + 64) := 0]> (elf_memcpy a (take 64 str) m).
Definition uts_strings : list (list Z) :=
  [bytes_of_string "OS8"%string; bytes_of_string "localhost"%string; bytes_of_string "0.1.0"%string; bytes_of_string "0.1.0-arm64"%string;
   bytes_of_string "aarch64"%string; []].
Definition sys_uname (buf : Z) s : option (sys H * result) :=
  if negb (apart (kernel_memory s) buf (65 * Z.of_nat (length uts_strings))) then None
  else Some (with_mem (foldl (λ m '(i, str), uts_field buf i str m) (k_mem s) (imap pair uts_strings)) s, Ret 0).

(** ** Dispatch *)

Definition run (fuel : nat) (fn : sysfn) (a : list Z) s : option (sys H * result) :=
  let arg i := default 0 (a !! i) in
  match fn with
  | Sys_read => sys_read (arg 0%nat) (arg 1%nat) (arg 2%nat) s
  | Sys_write => sys_write (arg 0%nat) (arg 1%nat) (arg 2%nat) s
  | Sys_openat => sys_openat (arg 1%nat) (arg 2%nat) (arg 3%nat) s
  | Sys_close => sys_close (arg 0%nat) s
  | Sys_lseek => sys_lseek (arg 0%nat) (arg 1%nat) (arg 2%nat) s
  | Sys_exit => sys_exit (arg 0%nat) s
  | Sys_exit_group => sys_exit_group (arg 0%nat) s
  | Sys_getpid => sys_getpid s
  | Sys_gettid => sys_gettid s
  | Sys_getppid => sys_getppid s
  | Sys_getuid => sys_getuid s
  | Sys_getgid => sys_getgid s
  | Sys_brk => sys_brk (arg 0%nat) s
  | Sys_mmap => sys_mmap (arg 1%nat) (arg 3%nat) (arg 4%nat) s
  | Sys_munmap => sys_munmap s
  | Sys_nanosleep => sys_nanosleep s
  | Sys_clone => sys_clone s
  | Sys_not_implemented => sys_not_implemented s
  | Sys_execve => sys_execve fuel (arg 0%nat) s
  | Sys_uname => sys_uname (arg 0%nat) s
  | Sys_sched_yield => sys_sched_yield s
  end.

Definition registered : list (nat * sysfn) :=
  [(63, Sys_read); (64, Sys_write); (56, Sys_openat); (57, Sys_close); (62, Sys_lseek); (93, Sys_exit); (94, Sys_exit_group); (172, Sys_getpid);
   (173, Sys_getppid); (174, Sys_getuid); (175, Sys_getuid); (176, Sys_getgid); (177, Sys_getgid); (178, Sys_gettid); (214, Sys_brk);
   (222, Sys_mmap); (215, Sys_munmap); (220, Sys_clone); (221, Sys_execve); (160, Sys_uname); (124, Sys_sched_yield); (101, Sys_nanosleep)]%nat.

Definition syscall_init s : sys H :=
  with_table (foldl (λ t '(nr, fn), <[nr := Some fn]> t) (replicate NR_syscalls (Some Sys_not_implemented)) registered) s.

(** [regs] are x0 to x8; an entry of the table that was never set is a null
    pointer. *)
Definition handle_syscall (fuel : nat) (regs : list Z) s : option (sys H * result) :=
  let nr := default 0 (regs !! 8%nat) in
  if Z.of_nat NR_syscalls <=? nr then Some (s, Ret (- ENOSYS))
  else o ← syscall_table s !! Z.to_nat nr; fn ← o; run fuel fn (take 6 regs) s.

(** The static initial values. *)
Definition boot_sys (v : vfs H) (m : mem) (x : sched) (image : list (Z * Z)) : sys H :=
  mk_sys v (replicate MAX_FDS free_entry) false m x USER_HEAP_START (USER_HEAP_START + USER_HEAP_SIZE / 2) [] [] (replicate NR_syscalls None) image.
End Ops.

(** ** Strings and buffers in user memory *)

Lemma read_str_stored fuel m a l :
  (length l < fuel)%nat → 0 ≤ a → a + Z.of_nat (length l) < 2 ^ 64 → Forall (λ c, c ≠ 0) l →
  (∀ i c, l !! i = Some c → peek m (a + Z.of_nat i) = c) → peek m (a + Z.of_nat (length l)) = 0 → read_str fuel m a = l.
Proof.
  revert a l. induction fuel as [|fuel IH]; intros a l Hf Ha Hend Hnz Hl H0; [lia|]. cbn [read_str]. destruct l as [|c l].
  { cbn in H0. rewrite Z.add_0_r in H0. by rewrite H0. }
  inversion_clear Hnz as [|? ? Hc Hnz']. cbn [length] in *. pose proof (Hl 0%nat c eq_refl) as Hp. rewrite Z.add_0_r in Hp. rewrite Hp.
  destruct (Z.eqb_spec c 0); [done|]. rewrite u64_small by lia. f_equal. apply IH; [lia|lia|lia|done| |by rewrite <- H0; f_equal; lia].
  intros i x Hx. rewrite <- (Hl (S i) x Hx). f_equal. lia.
Qed.

(** The characters before the end of a string are distinct addresses that are
    mapped: the memory has as many. *)
Lemma stored_size m a l : Forall (λ c, c ≠ 0) l → (∀ i c, l !! i = Some c → peek m (a + Z.of_nat i) = c) → (length l ≤ size m)%nat.
Proof.
  intros Hnz Hl. set (ks := (λ i, a + Z.of_nat i) <$> seq 0 (length l)). assert (NoDup ks) as Hnd.
  { apply NoDup_fmap; [intros i j; lia|apply NoDup_seq]. }
  assert (length l = length ks) as -> by (unfold ks; by rewrite length_fmap, length_seq).
  rewrite <- size_dom, <- (size_list_to_set (C := gset Z) ks Hnd). apply subseteq_size. intros k Hk.
  apply elem_of_list_to_set, list_elem_of_fmap in Hk as (i & -> & Hi). apply elem_of_seq in Hi. destruct (lookup_lt_is_Some_2 l i) as [c Hc]; [lia|].
  apply elem_of_dom. pose proof (Hl i c Hc) as Hp. rewrite Forall_lookup in Hnz. specialize (Hnz i c Hc). unfold peek in Hp.
  destruct (m !! (a + Z.of_nat i)); [by eexists|]. cbn in Hp. congruence.
Qed.

(** The fuel of [user_str] is enough for any string in memory. *)
Lemma user_str_stored m a l :
  0 < a → a + Z.of_nat (length l) < 2 ^ 64 → Forall (λ c, c ≠ 0) l → (∀ i c, l !! i = Some c → peek m (a + Z.of_nat i) = c) →
  peek m (a + Z.of_nat (length l)) = 0 → user_str m a = Some l.
Proof.
  intros Ha Hend Hnz Hl H0. unfold user_str. destruct (Z.eqb_spec a 0); [lia|]. f_equal.
  apply read_str_stored; try done; [|lia]. pose proof (stored_size m a l Hnz Hl). lia.
Qed.

(** The start of the "program load region" of the check. *)
Definition PROGRAM_WINDOW : Z := 0x44000000.

(** What an accepted buffer is: it does not wrap around and does not start in
    the kernel image.  It may reach into it, and the program window of the check
    lies in the kernel's heap (below). *)
Lemma valid_ptr_start ptr len : 0 ≤ ptr < 2 ^ 64 → 0 ≤ len < 2 ^ 64 → is_valid_user_ptr ptr len = true →
  ptr ≠ 0 ∧ ptr + len < 2 ^ 64 ∧ ¬ (KERNEL_START ≤ ptr < 0x44000000).
Proof.
  unfold is_valid_user_ptr, KERNEL_START, KERNEL_END, u64. intros Hp Hl. destruct (Z.eqb_spec ptr 0); [done|].
  destruct (Z.ltb_spec 0 len), (Z.ltb_spec (2 ^ 64 - 1 - len) ptr); cbn [andb]; try done; intros Hv; (split; [done|]; split; [lia|]);
    rewrite Z.mod_small in Hv by lia; intros Hr; revert Hv; repeat (case_match; try done); lia.
Qed.

Lemma user_ptr_reaches_kernel :
  is_valid_user_ptr (KERNEL_START - 1) 0x1000 = true ∧ is_valid_user_ptr PROGRAM_WINDOW 0x1000 = true ∧
  HEAP_BASE ≤ PROGRAM_WINDOW ∧ PROGRAM_WINDOW + 0x1000 ≤ HEAP_BASE + HEAP_SIZE.
Proof. repeat split; vm_compute; reflexivity || discriminate. Qed.

(** ** The user heap *)

Section Heap.
Context {H : Type} `{!KernelHeap H}.
Implicit Types s : sys H.

Definition HEAP_MID : Z := USER_HEAP_START + USER_HEAP_SIZE / 2.
Definition HEAP_END : Z := USER_HEAP_START + USER_HEAP_SIZE.

Record heap_inv s : Prop := {
  hi_brk : USER_HEAP_START ≤ user_brk_current s ≤ HEAP_MID;
  hi_mmap : HEAP_MID ≤ user_mmap_current s ≤ HEAP_END;
  hi_page : (4096 | user_mmap_current s)
}.

Lemma page_align_spec len : 0 ≤ len ≤ 2 ^ 62 → (4096 | page_align len) ∧ len ≤ page_align len < len + 4096.
Proof.
  intros Hl. unfold page_align. rewrite u64_small by lia. change 4095 with (Z.ones 12). rewrite <- Z.ldiff_land, Z.ldiff_ones_r by lia.
  rewrite Z.shiftl_mul_pow2, Z.shiftr_div_pow2 by lia. change (2 ^ 12) with 4096. split; [by apply Z.divide_factor_r|].
  pose proof (Z.div_mod (len + 4096 - 1) 4096 ltac:(lia)). pose proof (Z.mod_pos_bound (len + 4096 - 1) 4096 ltac:(lia)). lia.
Qed.

Definition anonymous (flags fd : Z) : bool := negb (Z.land flags MAP_ANONYMOUS =? 0) && (i64 fd =? -1).

(** The user heap is no memory of the kernel. *)
Definition heap_apart s : Prop := apart (kernel_memory s) USER_HEAP_START USER_HEAP_SIZE = true.

Lemma heap_apart_sub s a n : heap_apart s → USER_HEAP_START ≤ a → a + n ≤ HEAP_END → apart (kernel_memory s) a n = true.
Proof.
  unfold heap_apart, apart, HEAP_END. intros Hap Ha Hn. destruct (Z.leb_spec n 0) as [|Hpos]; [done|]. cbn [orb].
  destruct (Z.leb_spec USER_HEAP_SIZE 0) as [|_]; [unfold USER_HEAP_SIZE in *; lia|]. cbn [orb] in Hap.
  apply andb_true_iff in Hap as [_ Hall]. apply andb_true_iff. split; [unfold USER_HEAP_START, USER_HEAP_SIZE in *; lia|].
  rewrite forallb_forall in Hall |- *. intros [lo hi] Hin. specialize (Hall _ Hin). cbn in Hall |- *. lia.
Qed.

(** A mapping is given exactly when there is room for it; it is the next pages
    of the region, cleared. *)
Lemma mmap_ok s len flags fd :
  heap_inv s → heap_apart s → 0 ≤ len ≤ 2 ^ 62 →
  let a := user_mmap_current s in let n := page_align len in
  ∃ s' ret, sys_mmap len flags fd s = Some (s', Ret ret) ∧ heap_inv s' ∧ kernel_memory s' = kernel_memory s ∧ user_brk_current s' = user_brk_current s ∧
    if negb (anonymous flags fd) then s' = s ∧ ret = - ENOSYS
    else if HEAP_END <? a + n then s' = s ∧ ret = - ENOMEM
    else ret = a ∧ user_mmap_current s' = a + n ∧ ∀ b, peek (k_mem s') b = if decide (a ≤ b < a + n) then 0 else peek (k_mem s) b.
Proof.
  intros Hinv Hap Hlen a n. pose proof (heap_apart_sub s a n Hap) as Hsub. pose proof Hinv as [Hb Hm Hp]. destruct (page_align_spec len Hlen) as [Hd Hn]. fold n in Hd, Hn.
  unfold HEAP_END, HEAP_MID, USER_HEAP_START, USER_HEAP_SIZE in *. cbn in Hb, Hm. unfold sys_mmap, anonymous. rewrite negb_andb, negb_involutive.
  destruct ((Z.land flags MAP_ANONYMOUS =? 0) || negb (i64 fd =? -1)); [exists s, (- ENOSYS); done|]. fold n a. rewrite u64_small by (unfold a; lia).
  unfold USER_HEAP_START, USER_HEAP_SIZE. destruct (Z.ltb_spec (0x10000000 + 0x04000000) (a + n)) as [|Hfit]; [exists s, (- ENOMEM); done|].
  assert (apart (kernel_memory s) a n = true) as Hok by (apply Hsub; unfold a in *; lia).
  change (kernel_memory (with_heap_ends (user_brk_current s) (a + n) s)) with (kernel_memory s). rewrite Hok. cbn [negb].
  eexists _, _. split; [reflexivity|]. split.
  { split; cbn; [done| |by apply Z.divide_add_r]. unfold HEAP_END, HEAP_MID, USER_HEAP_START, USER_HEAP_SIZE. cbn. unfold a in *. lia. }
  split; [done|]. split; [done|]. split; [apply i64_small; unfold a in *; lia|]. split; [done|]. intros b. cbn [k_mem with_mem with_heap_ends].
  rewrite peek_memset by (unfold a in *; lia). by rewrite Z2Nat.id by lia.
Qed.

Lemma brk_ok s brk :
  heap_inv s → 0 ≤ brk →
  ∃ s', sys_brk brk s = Some (s', Ret (user_brk_current s')) ∧ heap_inv s' ∧ kernel_memory s' = kernel_memory s ∧ user_mmap_current s' = user_mmap_current s ∧ k_mem s' = k_mem s ∧
    user_brk_current s' = if (USER_HEAP_START <=? brk) && (brk <=? HEAP_MID) then brk else user_brk_current s.
Proof.
  intros Hinv Hbrk. pose proof Hinv as [Hb Hm Hp]. unfold sys_brk. fold HEAP_MID.
  assert (USER_HEAP_START = 0x10000000 ∧ HEAP_MID = 0x12000000) as [Hs He] by done.
  assert (i64 (user_brk_current s) = user_brk_current s) as Ei by (apply i64_small; lia).
  destruct (Z.eqb_spec brk 0), (Z.ltb_spec brk USER_HEAP_START), (Z.leb_spec USER_HEAP_START brk); try lia; cbn [orb andb];
    try (exists s; rewrite Ei; done).
  destruct (Z.ltb_spec HEAP_MID brk), (Z.leb_spec brk HEAP_MID); try lia; [exists s; rewrite Ei; done|].
  exists (with_heap_ends brk (user_mmap_current s) s). split; [by rewrite i64_small by lia|]. split; [by split|done].
Qed.

(** A run of calls, with the mappings it was given. *)
Inductive heap_op := OpBrk (brk : Z) | OpMmap (len flags fd : Z).
Definition heap_op_ok (o : heap_op) : Prop := match o with OpBrk brk => 0 ≤ brk | OpMmap len _ _ => 0 ≤ len ≤ 2 ^ 62 end.

Fixpoint heap_calls (ops : list heap_op) s : option (sys H * list (Z * Z)) :=
  match ops with
  | [] => Some (s, [])
  | o :: ops' =>
      '(s1, r) ← (match o with OpBrk brk => sys_brk brk s | OpMmap len flags fd => sys_mmap len flags fd s end);
      '(s2, maps) ← heap_calls ops' s1;
      Some (s2, match o, r with OpMmap len _ _, Ret a => if 0 <=? a then (a, page_align len) :: maps else maps | _, _ => maps end)
  end.

(** C33: whatever the sequence of brk and mmap calls, with lengths of at most
    2^62 bytes and a user heap that is no memory of the kernel, no mapping is
    given twice: the mappings are page aligned, lie in the upper half of the user heap one
    after the other without overlap, are clear when they are given, and the
    break stays in the lower half, so that the two never meet. *)
Theorem user_heap_disjoint ops s :
  heap_inv s → heap_apart s → Forall heap_op_ok ops →
  ∃ s' maps, heap_calls ops s = Some (s', maps) ∧ heap_inv s' ∧ user_mmap_current s ≤ user_mmap_current s' ∧
    (∀ i a n, maps !! i = Some (a, n) → (4096 | a) ∧ user_mmap_current s ≤ a ∧ 0 ≤ n ∧ a + n ≤ user_mmap_current s' ∧
       ∀ b, a ≤ b < a + n → peek (k_mem s') b = 0) ∧
    (∀ i j a n a' n', maps !! i = Some (a, n) → maps !! j = Some (a', n') → (i < j)%nat → a + n ≤ a') ∧
    (∀ b, b < user_mmap_current s → peek (k_mem s') b = peek (k_mem s) b).
Proof.
  intros Hinv Hap Hops. revert s Hinv Hap. induction Hops as [|o ops Ho Hops IH]; intros s Hinv Hap; cbn [heap_calls].
  { exists s, []. split; [done|]. split; [done|]. split; [lia|]. done. }
  destruct o as [brk|len flags fd]; cbn in Ho.
  - destruct (brk_ok s brk Hinv Ho) as (s1 & -> & Hi1 & Ek & Em & Emem & _). cbn [mbind option_bind].
    destruct (IH s1 Hi1 ltac:(unfold heap_apart; by rewrite Ek)) as (s' & maps & -> & IH'). cbn [mbind option_bind]. exists s', maps. split; [done|]. by rewrite Em, Emem in IH'.
  - destruct (mmap_ok s len flags fd Hinv Hap Ho) as (s1 & ret & -> & Hi1 & Ek & _ & Hcase). cbn [mbind option_bind].
    destruct (IH s1 Hi1 ltac:(unfold heap_apart; by rewrite Ek)) as (s' & maps & -> & Hi' & Hmono & Hmaps & Hdis & Hkeep). cbn [mbind option_bind].
    pose proof (page_align_spec len Ho) as [_ Hn].
    destruct (anonymous flags fd); cbn [negb] in Hcase; [|destruct Hcase as [-> ->]; exists s', maps; done].
    destruct (HEAP_END <? _); [destruct Hcase as [-> ->]; exists s', maps; done|]. destruct Hcase as (-> & Ecur & Hz). rewrite Ecur in *.
    pose proof (hi_mmap s Hinv) as Hlow. change HEAP_MID with 0x12000000 in Hlow. destruct (Z.leb_spec 0 (user_mmap_current s)); [|lia].
    eexists s', _. split; [reflexivity|]. split; [done|]. split; [lia|]. split; [|split].
    + intros [|i] a n; cbn; [intros [= <- <-]|intros Hi].
      * split; [apply Hinv|]. do 3 (split; [lia|]). intros b Hb. rewrite Hkeep by lia. rewrite Hz. by rewrite decide_True by lia.
      * destruct (Hmaps i a n Hi) as (? & ? & ?). split; [done|]. split; [lia|done].
    + intros [|i] [|j] a n a' n'; cbn; intros Hi Hj Hlt; try lia; [|by eapply (Hdis i j); [..|lia]].
      injection Hi as <- <-. destruct (Hmaps j a' n' Hj) as (_ & ? & _). lia.
    + intros b Hb. rewrite Hkeep by lia. rewrite Hz. by rewrite decide_False by lia.
Qed.
End Heap.

(** The length is rounded up with wrap-around: a length near 2^64 is taken for
    0, so that the next mapping starts at the same address; one just below it
    passes the check of the region as well, and the code clears all of memory
    from there on, around its end. *)
Lemma mmap_length_wraps {H} `{!KernelHeap H} (s : sys H) :
  user_mmap_current s = HEAP_MID →
  (∃ s', sys_mmap (2 ^ 64 - 1) MAP_ANONYMOUS (2 ^ 64 - 1) s = Some (s', Ret HEAP_MID) ∧ user_mmap_current s' = HEAP_MID) ∧
  u64 (HEAP_MID + page_align (2 ^ 64 - 0x2000)) ≤ HEAP_END ∧ sys_mmap (2 ^ 64 - 0x2000) MAP_ANONYMOUS (2 ^ 64 - 1) s = None.
Proof.
  intros E. unfold sys_mmap. rewrite E.
  change (page_align (2 ^ 64 - 1)) with 0. set (n := page_align (2 ^ 64 - 0x2000)). assert (n = 2 ^ 64 - 0x2000) as Hn by reflexivity.
  split; [eexists; split; reflexivity|].
  assert (u64 (HEAP_MID + n) = HEAP_MID - 0x2000) as Eu by (rewrite Hn; reflexivity).
  assert (∀ K, apart K HEAP_MID n = false) as Hap.
  { intros K. unfold apart. destruct (Z.leb_spec n 0); [lia|]. by destruct (Z.leb_spec (HEAP_MID + n) (2 ^ 64)); [change HEAP_MID with 0x12000000 in *; lia|]. }
  clearbody n. rewrite Eu. split; [vm_compute; discriminate|]. by rewrite Hap.
Qed.

(** ** Dispatch *)

Section Dispatch.
Context {H : Type} `{!KernelHeap H}.
Implicit Types s : sys H.

Lemma syscall_init_table s s' : syscall_table (syscall_init s) = syscall_table (syscall_init s').
Proof. reflexivity. Qed.

Lemma foldl_table_notin (l : list (nat * sysfn)) (t : list (option sysfn)) nr :
  nr ∉ l.*1 → foldl (λ t '(nr, fn), <[nr := Some fn]> t) t l !! nr = t !! nr.
Proof.
  revert t. induction l as [|[k fn] l IH]; intros t Hin; cbn in *; [done|]. apply not_elem_of_cons in Hin as [Hne Hin].
  rewrite IH by done. by rewrite list_lookup_insert_ne.
Qed.

Lemma foldl_table_in (l : list (nat * sysfn)) (t : list (option sysfn)) nr fn :
  NoDup l.*1 → (nr, fn) ∈ l → (nr < length t)%nat → foldl (λ t '(nr, fn), <[nr := Some fn]> t) t l !! nr = Some (Some fn).
Proof.
  revert t. induction l as [|[k g] l IH]; intros t Hnd Hin Hlt; cbn in *; [by apply not_elem_of_nil in Hin|]. apply NoDup_cons in Hnd as [Hk Hnd].
  apply elem_of_cons in Hin as [[= <- <-]|Hin].
  - rewrite foldl_table_notin by done. by apply list_lookup_insert_eq.
  - apply IH; [done|done|]. by rewrite length_insert.
Qed.

(** Once the table is set up, a system call runs exactly the function
    registered under its number, with x0 to x5 as arguments; every other number,
    in the table or beyond it, returns -ENOSYS and changes nothing. *)
Theorem handle_syscall_dispatches fuel regs s nr :
  syscall_table s = syscall_table (syscall_init s) → regs !! 8%nat = Some (Z.of_nat nr) →
  (∀ fn, (nr, fn) ∈ registered → handle_syscall fuel regs s = run fuel fn (take 6 regs) s) ∧
  (nr ∉ registered.*1 → handle_syscall fuel regs s = Some (s, Ret (- ENOSYS))).
Proof.
  intros Ht Hr. unfold handle_syscall. rewrite Hr, Ht. change (default 0 (Some (Z.of_nat nr))) with (Z.of_nat nr). cbv zeta. unfold syscall_init. cbn [syscall_table with_table]. rewrite Nat2Z.id.
  assert (NoDup registered.*1) as Hnd by (apply (bool_decide_unpack _); vm_compute; exact I). split.
  - intros fn Hin. assert (Forall (λ p, (p.1 < NR_syscalls)%nat) registered) as Hall by (apply (bool_decide_unpack _); vm_compute; exact I).
    rewrite Forall_forall in Hall. specialize (Hall _ Hin). cbn [fst] in Hall. destruct (Z.leb_spec (Z.of_nat NR_syscalls) (Z.of_nat nr)); [lia|].
    rewrite (foldl_table_in _ _ _ fn) by (done || rewrite length_replicate; lia). done.
  - intros Hin. destruct (Z.leb_spec (Z.of_nat NR_syscalls) (Z.of_nat nr)); [done|]. rewrite foldl_table_notin by done.
    rewrite lookup_replicate_2 by lia. done.
Qed.
End Dispatch.

(** ** Lines from the console *)

Section Stdin.
Context {H : Type} `{!KernelHeap H}.
Implicit Types s : sys H.

Lemma stdin_waits K k rest buf count n m : n < count → stdin_loop K (replicate k (-1) ++ rest) buf count n m =
  if (0 <? n) && (0 <? k)%nat then Some (m, replicate (pred k) (-1) ++ rest, Ret n) else stdin_loop K rest buf count n m.
Proof.
  intros Hn. destruct (Z.ltb_spec 0 n) as [H0|H0]; cbn [andb].
  - destruct k as [|k]; cbn; [done|]. destruct (Z.ltb_spec n count); [|lia]. by destruct (Z.ltb_spec 0 n); [|lia].
  - induction k as [|k IH]; cbn; [done|]. destruct (Z.ltb_spec n count); [|lia]. destruct (Z.ltb_spec 0 n); [lia|]. done.
Qed.

(** Characters that do not end a line. *)
Definition plain_char (c : Z) : Prop := 0 ≤ c < 256 ∧ c ≠ 10 ∧ c ≠ 13.

Lemma stdin_chars K line rest buf count n m :
  apart K buf count = true → Forall plain_char line → 0 ≤ n → 0 ≤ buf → n + Z.of_nat (length line) ≤ count → buf + count < 2 ^ 64 →
  stdin_loop K (line ++ rest) buf count n m = stdin_loop K rest buf count (n + Z.of_nat (length line)) (elf_memcpy (buf + n) line m).
Proof.
  intros Hap. revert n m. induction line as [|c line IH]; intros n m Hl Hn Hb Hc He; cbn [length app elf_memcpy] in *; [by rewrite Z.add_0_r|].
  inversion_clear Hl as [|? ? (Hc1 & Hc2 & Hc3) Hl']. cbn [stdin_loop]. destruct (Z.ltb_spec n count); [|lia]. destruct (Z.leb_spec 0 c); [|lia].
  rewrite (apart_inside K buf count (u64 (buf + n))) by (done || rewrite u64_small by lia; lia). cbn [negb].
  destruct (Z.eqb_spec c 10); [done|]. destruct (Z.eqb_spec c 13); [done|]. cbn [orb]. rewrite IH by (done || lia).
  assert (u8 c = c) as -> by (unfold u8; rewrite Z.mod_small by lia; done). rewrite !u64_small by lia. f_equal; [lia|]. f_equal. lia.
Qed.

(** A read of the console waits until a key is pressed and then delivers
    the characters up to and including the end of the line, which is stored as
    a newline, and returns their number; a line that is longer than the buffer
    fills it and the rest stays for the next read. *)
Theorem stdin_line s buf count k line eol rest :
  fd_table_initialized s = true → 0 < buf → 0 < count → buf + count < 2 ^ 64 → is_valid_user_ptr buf count = true →
  apart (kernel_memory s) buf count = true → Forall plain_char line → eol = 10 ∨ eol = 13 → k_in s = replicate k (-1) ++ line ++ eol :: rest →
  let got := take (Z.to_nat count) (line ++ [10]) in
  sys_read 0 buf count s =
    Some (with_io (if Z.of_nat (length line) <? count then rest else drop (Z.to_nat count) line ++ eol :: rest) (k_out s)
            (with_mem (elf_memcpy buf got (k_mem s)) s), Ret (Z.of_nat (length got))).
Proof.
  intros Hi Hb Hc He Hv Hap Hl Heol Hin got. unfold sys_read, init_fd_table. rewrite Hi, Hv, Hin. cbn [negb Z.eqb].
  rewrite stdin_waits by done. cbn [andb Z.ltb Z.compare]. destruct (Z.ltb_spec (Z.of_nat (length line)) count) as [Hlt|Hge].
  - rewrite stdin_chars by (done || lia). rewrite !Z.add_0_l, Z.add_0_r.
    assert (got = line ++ [10]) as -> by (apply take_ge; rewrite length_app; cbn; lia).
    assert (∀ m, elf_memcpy buf (line ++ [10]) m = <[u64 (buf + Z.of_nat (length line)) := 10]> (elf_memcpy buf line m)) as Hm.
    { clear -Hb He Hlt. revert buf count Hb He Hlt. induction line as [|c line IH]; intros buf count Hb He Hlt m; cbn [app elf_memcpy length] in *.
      - by rewrite u64_small by lia; rewrite Z.add_0_r.
      - rewrite (u64_small (buf + 1)) by lia. rewrite (IH _ (count - 1)) by lia. do 2 f_equal; lia. }
    cbn [stdin_loop]. destruct (Z.ltb_spec (Z.of_nat (length line)) count); [|lia]. rewrite Hm.
    assert (Z.of_nat (length (line ++ [10])) = Z.of_nat (length line) + 1) as -> by (rewrite length_app; cbn; lia).
    rewrite (apart_inside _ buf count (u64 (buf + Z.of_nat (length line)))) by (done || rewrite u64_small by lia; lia).
    destruct Heol as [-> | ->]; reflexivity.
  - assert (got = take (Z.to_nat count) line) as -> by (apply take_app_le; lia).
    rewrite <- (take_drop (Z.to_nat count) line) at 1. rewrite <- app_assoc, stdin_chars by (done || (by apply Forall_take) || rewrite ?length_take; lia).
    rewrite length_take_le by lia. rewrite Z2Nat.id, Z.add_0_l, Z.add_0_r by lia.
    destruct (drop (Z.to_nat count) line ++ eol :: rest) eqn:Ed; cbn [stdin_loop]; rewrite Z.ltb_irrefl; done.
Qed.
End Stdin.

(** ** A concrete kernel *)

(** The image of the kernel, below its heap. *)
Definition demo_kernel : list (Z * Z) := [(0x40080000, HEAP_BASE)].

(** After boot, with the path of a file at the start of the user heap. *)
Definition demo_mem : mem := elf_memcpy USER_HEAP_START (path_of ([] ++ [demo_name])) ∅.
Definition demo_sys : sys heap := syscall_init (boot_sys demo_vfs demo_mem demo_sched demo_kernel).

Lemma demo_heap_inv : heap_inv demo_sys.
Proof. split; [split; vm_compute; discriminate..|exists 73728; reflexivity]. Qed.

Lemma demo_heap_apart : heap_apart demo_sys.
Proof. vm_compute. reflexivity. Qed.

Lemma user_heap_disjoint_witness :
  ∃ s', heap_calls [OpMmap 5000 MAP_ANONYMOUS (2 ^ 64 - 1); OpBrk 0x10001000; OpMmap 1 MAP_ANONYMOUS (2 ^ 64 - 1)] demo_sys =
    Some (s', [(0x12000000, 0x2000); (0x12002000, 0x1000)]) ∧ peek (k_mem s') 0x12001fff = 0 ∧ heap_inv s'.
Proof.
  destruct (user_heap_disjoint [OpMmap 5000 MAP_ANONYMOUS (2 ^ 64 - 1); OpBrk 0x10001000; OpMmap 1 MAP_ANONYMOUS (2 ^ 64 - 1)] demo_sys demo_heap_inv demo_heap_apart)
    as (s' & maps & E & Hi & _ & Hmaps & _).
  { repeat constructor; cbn; lia. }
  assert (maps = [(0x12000000, 0x2000); (0x12002000, 0x1000)]) as ->.
  { assert (snd <$> heap_calls [OpMmap 5000 MAP_ANONYMOUS (2 ^ 64 - 1); OpBrk 0x10001000; OpMmap 1 MAP_ANONYMOUS (2 ^ 64 - 1)] demo_sys =
      Some [(0x12000000, 0x2000); (0x12002000, 0x1000)]) as E' by (vm_compute; reflexivity). rewrite E in E'. by apply (inj Some) in E'. }
  exists s'. split; [exact E|]. split; [|exact Hi]. destruct (Hmaps 0%nat _ _ eq_refl) as (_ & _ & _ & _ & Hz). apply Hz. lia.
Defined.

Lemma handle_syscall_dispatches_witness :
  handle_syscall 0 [0; 0; 0; 0; 0; 0; 0; 0; 500] demo_sys = Some (demo_sys, Ret (- ENOSYS)).
Proof.
  refine (proj2 (handle_syscall_dispatches 0 [0; 0; 0; 0; 0; 0; 0; 0; 500] demo_sys 500 (syscall_init_table _ _) eq_refl) _).
  apply (bool_decide_unpack _). vm_compute. exact I.
Defined.

(** A line typed after two polls without a key. *)
Definition demo_typing : sys heap := with_io [-1; -1; 104; 105; 13; 120] [] (init_fd_table demo_sys).

Lemma stdin_line_witness :
  ∃ s', sys_read 0 0x10000100 80 demo_typing = Some (s', Ret 3) ∧ k_in s' = [120] ∧ bytes_at (k_mem s') 0x10000100 3 = [104; 105; 10].
Proof.
  eexists. split; [apply (stdin_line demo_typing 0x10000100 80 2 [104; 105] 13 [120]);
    [reflexivity|lia|lia|lia|reflexivity|vm_compute; reflexivity|repeat constructor; lia|by right|reflexivity]|].
  split; vm_compute; reflexivity.
Defined.

(** sys_uname leaves what was in the buffer after the text of each field. *)
Lemma uname_not_terminated :
  option_map (λ r, peek (k_mem (fst r)) (0x10000100 + 3)) (sys_uname 0x10000100 (with_mem {[0x10000103 := 88]} demo_sys)) = Some 88.
Proof. vm_compute. reflexivity. Qed.

(** The code asks no more of a buffer: a read of the console into the program
    window stores the character in the kernel's heap. *)
Lemma read_into_kernel_heap :
  is_valid_user_ptr PROGRAM_WINDOW 80 = true ∧ sys_read 0 PROGRAM_WINDOW 80 demo_typing = None.
Proof. split; vm_compute; reflexivity. Qed.
