(* ===== verification/SyscallFiles.v ===== *)
(** * The file descriptors of the system calls

    openat, read, write, lseek and close, on top of [Syscall] and the open
    files of [VfsSave], implement a machine whose state is the map from paths
    to files and a map from descriptors to a path and a position. *)

From S2P Require Import Prelude KHeap Kmalloc Ramfs Elf Vfs VfsFiles VfsSave Syscall.

Section Descriptors.
Context {H : Type} `{!KernelHeap H}.
Implicit Types (v : vfs H) (s : sys H).

(** ** The descriptor table *)

(** An open descriptor: its path and position, and the [struct file] and the
    dentry that are its own. *)
Record desc := mk_desc { ds_path : list (list Z); ds_pos : Z; ds_file : Z; ds_child : Z }.
Implicit Types (d : desc) (E : gmap nat desc).

Definition held v d : Prop := ∃ w c x, open_file v (ds_path d) (ds_file d) (ds_child d) w c x (ds_pos d).

Record desc_ok v d : Prop := {
  do_held : held v d;
  do_names : Forall name_ok (ds_path d);
  do_ne : ds_path d ≠ [];
  do_pos : 0 ≤ ds_pos d
}.

Definition entry_for (o : option desc) (e : fd_entry) : Prop :=
  match o with
  | None => e = free_entry
  | Some d => fe_file e = Some (ds_file d) ∧ fe_in_use e = true
  end.

Definition distinct d d' : Prop := ds_file d ≠ ds_file d' ∧ ds_child d ≠ ds_child d'.

Record sys_wf s E : Prop := {
  sw_vfs : ∃ C K M, vfs_wf (k_vfs s) C K M;
  sw_table : syscall_table s = syscall_table (syscall_init s);
  sw_init : fd_table_initialized s = true;
  sw_len : length (fd_table s) = MAX_FDS;
  sw_std i : (i < 3)%nat → fd_table s !! i = Some (mk_fd None 0 true);
  sw_entry i : (3 ≤ i < MAX_FDS)%nat → ∃ e, fd_table s !! i = Some e ∧ entry_for (E !! i) e;
  sw_dom i d : E !! i = Some d → (3 ≤ i < MAX_FDS)%nat;
  sw_desc i d : E !! i = Some d → desc_ok (k_vfs s) d;
  sw_distinct i j d d' : E !! i = Some d → E !! j = Some d' → i ≠ j → distinct d d'
}.

Lemma init_fd_table_id s E : sys_wf s E → init_fd_table s = s.
Proof. intros Hwf. unfold init_fd_table. by rewrite (sw_init _ _ Hwf). Qed.

Lemma get_file_ok s E fd : sys_wf s E → 0 ≤ fd → get_file fd s = ds_file <$> E !! Z.to_nat fd.
Proof.
  intros Hwf Hfd. unfold get_file. destruct (Z.ltb_spec fd 0) as [?|_]; [lia|]. cbn [orb].
  destruct (E !! Z.to_nat fd) as [d|] eqn:Ed; cbn.
  - pose proof (sw_dom _ _ Hwf _ _ Ed) as Hd. destruct (Z.leb_spec (Z.of_nat MAX_FDS) fd); [lia|].
    destruct (sw_entry _ _ Hwf _ Hd) as (e & -> & He). rewrite Ed in He. destruct He as [-> ->]. done.
  - destruct (Z.leb_spec (Z.of_nat MAX_FDS) fd); [done|]. destruct (decide (fd < 3)).
    + rewrite (sw_std _ _ Hwf) by lia. done.
    + destruct (sw_entry _ _ Hwf (Z.to_nat fd)) as (e & -> & He); [lia|]. rewrite Ed in He. by rewrite He.
Qed.

Lemma first_free_ok i l :
  match first_free_fd i l with
  | None => Forall (λ e, fe_in_use e = true) l
  | Some j => ∃ k e, j = (i + k)%nat ∧ l !! k = Some e ∧ fe_in_use e = false ∧ Forall (λ e, fe_in_use e = true) (take k l)
  end.
Proof.
  revert i. induction l as [|e l IH]; intros i; cbn; [constructor|]. destruct (fe_in_use e) eqn:Ee.
  - specialize (IH (S i)). destruct (first_free_fd (S i) l) as [j|]; [|by constructor].
    destruct IH as (k & e' & -> & Hk & He & Hl). exists (S k), e'. cbn. split; [lia|]. by repeat constructor.
  - exists 0%nat, e. cbn. split; [lia|]. by repeat constructor.
Qed.

(** The lowest free descriptor. *)
Definition lowest_free {A} (E : gmap nat A) (i : nat) : Prop := (3 ≤ i < MAX_FDS)%nat ∧ E !! i = None ∧ ∀ j, (3 ≤ j < i)%nat → is_Some (E !! j).
Definition all_used {A} (E : gmap nat A) : Prop := ∀ j, (3 ≤ j < MAX_FDS)%nat → is_Some (E !! j).

Lemma in_use_entry s E i e : sys_wf s E → (3 ≤ i)%nat → fd_table s !! i = Some e → fe_in_use e = bool_decide (is_Some (E !! i)).
Proof.
  intros Hwf Hi He. pose proof (lookup_lt_Some _ _ _ He) as Hlt. rewrite (sw_len _ _ Hwf) in Hlt.
  destruct (sw_entry _ _ Hwf i) as (e' & He' & Hfor); [lia|]. assert (e' = e) as -> by congruence.
  destruct (E !! i) as [d|]; cbn in Hfor; [|by subst e]. destruct Hfor as [_ ->]. by rewrite bool_decide_eq_true_2 by eauto.
Qed.

Lemma alloc_fd_ok s E :
  sys_wf s E →
  match alloc_fd s with
  | (s', fd) => (fd = -1 ∧ s' = s ∧ all_used E) ∨
      ∃ i, fd = Z.of_nat i ∧ lowest_free E i ∧ s' = with_fds (<[i := mk_fd None 0 true]> (fd_table s)) true s
  end.
Proof.
  intros Hwf. unfold alloc_fd. rewrite (init_fd_table_id s E Hwf). pose proof (first_free_ok 3 (drop 3 (fd_table s))) as Hff.
  assert (∀ j e, drop 3 (fd_table s) !! j = Some e → fe_in_use e = bool_decide (is_Some (E !! (3 + j)%nat))) as Huse.
  { intros j e He. rewrite lookup_drop in He. eapply in_use_entry; [done|lia|done]. }
  destruct (first_free_fd 3 (drop 3 (fd_table s))) as [i|].
  - destruct Hff as (k & e & -> & Hk & He & Hall). right. exists (3 + k)%nat. split; [done|]. pose proof (Huse _ _ Hk) as Hu. rewrite He in Hu.
    symmetry in Hu. apply bool_decide_eq_false in Hu. apply eq_None_not_Some in Hu. pose proof Hk as Hk'. rewrite lookup_drop in Hk'.
    pose proof (lookup_lt_Some _ _ _ Hk') as Hlt. rewrite (sw_len _ _ Hwf) in Hlt. split.
    { split; [lia|]. split; [done|]. intros j Hj. destruct (lookup_lt_is_Some_2 (drop 3 (fd_table s)) (j - 3)) as [e' He'].
      { apply lookup_lt_Some in Hk. lia. }
      rewrite Forall_forall in Hall. specialize (Hall e'). rewrite (Huse _ _ He') in Hall. replace (3 + (j - 3))%nat with j in Hall by lia.
      eapply bool_decide_eq_true, Hall, list_elem_of_lookup. exists (j - 3)%nat. by rewrite lookup_take_lt by lia. }
    rewrite (sw_init _ _ Hwf). f_equal. destruct (sw_entry _ _ Hwf (3 + k)%nat) as (e' & He' & Hfor); [lia|]. rewrite Hu in Hfor. cbn in Hfor. subst e'.
    apply list_eq. intros j. destruct (decide (j = (3 + k)%nat)) as [->|Hj];
      [by rewrite list_lookup_alter_eq, He', list_lookup_insert_eq by (rewrite (sw_len _ _ Hwf); lia)|by rewrite list_lookup_alter_ne, list_lookup_insert_ne by done].
  - left. split; [done|]. split; [done|]. intros j Hj. destruct (lookup_lt_is_Some_2 (drop 3 (fd_table s)) (j - 3)) as [e' He'].
    { rewrite length_drop, (sw_len _ _ Hwf). lia. }
    rewrite Forall_forall in Hff. specialize (Hff e'). rewrite (Huse _ _ He') in Hff. replace (3 + (j - 3))%nat with j in Hff by lia.
    eapply bool_decide_eq_true, Hff, list_elem_of_lookup. eauto.
Qed.

(** ** One descriptor changes *)

Lemma held_frame v v' d :
  held v d → keeps (v_fs v) (v_fs v') → mounts v' = mounts v → root_dentry v' = root_dentry v →
  files v' !! ds_file d = files v !! ds_file d → dentries v' !! ds_child d = dentries v !! ds_child d → held v' d.
Proof.
  intros (w & c & x & Hof) Hk Em Er Ef Ed. destruct (open_file_frame _ _ _ _ _ _ _ _ _ Hof Hk Em Er Ef Ed) as (x' & Hof'). by exists w, c, x'.
Qed.

Record frame s s' E (i : nat) (o : option desc) : Prop := {
  fr_keeps : keeps (v_fs (k_vfs s)) (v_fs (k_vfs s'));
  fr_mounts : mounts (k_vfs s') = mounts (k_vfs s);
  fr_file j d : j ≠ i → E !! j = Some d → files (k_vfs s') !! ds_file d = files (k_vfs s) !! ds_file d;
  fr_dentry j d : j ≠ i → E !! j = Some d → dentries (k_vfs s') !! ds_child d = dentries (k_vfs s) !! ds_child d;
  fr_distinct j d d' : j ≠ i → E !! j = Some d → o = Some d' → distinct d d'
}.

Lemma sys_wf_set s s' E i o e :
  sys_wf s E → (3 ≤ i < MAX_FDS)%nat → (∃ C K M, vfs_wf (k_vfs s') C K M) → syscall_table s' = syscall_table s → fd_table_initialized s' = true →
  fd_table s' = <[i := e]> (fd_table s) → entry_for o e → frame s s' E i o → (∀ d, o = Some d → desc_ok (k_vfs s') d) →
  sys_wf s' (partial_alter (λ _, o) i E).
Proof.
  intros Hwf Hi Hv Htab Hinit Et He [F1 F2 F3 F4 F5] Ho.
  assert (root_dentry (k_vfs s') = root_dentry (k_vfs s)) as Er.
  { destruct Hv as (C & K & M & W'). destruct (sw_vfs _ _ Hwf) as (C0 & K0 & M0 & W0). by rewrite (vw_root _ _ _ _ W'), (vw_root _ _ _ _ W0). }
  split; try done.
  - rewrite Htab. apply (sw_table _ _ Hwf).
  - by rewrite Et, length_insert, (sw_len _ _ Hwf).
  - intros j Hj. rewrite Et, list_lookup_insert_ne by lia. by apply (sw_std _ _ Hwf).
  - intros j Hj. rewrite Et. destruct (decide (j = i)) as [->|Hne].
    + exists e. rewrite list_lookup_insert_eq by (rewrite (sw_len _ _ Hwf); lia). by rewrite lookup_partial_alter_eq.
    + rewrite list_lookup_insert_ne, lookup_partial_alter_ne by done. by apply (sw_entry _ _ Hwf).
  - intros j d. destruct (decide (j = i)) as [->|Hne]; [done|]. rewrite lookup_partial_alter_ne by done. apply (sw_dom _ _ Hwf).
  - intros j d. destruct (decide (j = i)) as [->|Hne]; [rewrite lookup_partial_alter_eq; apply Ho|]. rewrite lookup_partial_alter_ne by done. intros Hd.
    destruct (sw_desc _ _ Hwf _ _ Hd) as [? ? ? ?]. split; try done. eapply held_frame; eauto.
  - intros j k d d' Hj Hk Hjk. destruct (decide (j = i)) as [->|Hji], (decide (k = i)) as [->|Hki]; [done|..];
      rewrite ?lookup_partial_alter_eq, ?lookup_partial_alter_ne in * by done.
    + destruct (F5 k d' d Hki Hk Hj) as [? ?]. split; congruence.
    + by eapply F5.
    + by eapply (sw_distinct _ _ Hwf j k).
Qed.

(** A call that leaves the table alone: at most the position of [i] moves. *)
Lemma sys_wf_move s s' E i d pos :
  sys_wf s E → E !! i = Some d → (∃ C K M, vfs_wf (k_vfs s') C K M) → syscall_table s' = syscall_table s → fd_table_initialized s' = true →
  fd_table s' = fd_table s → keeps (v_fs (k_vfs s)) (v_fs (k_vfs s')) → mounts (k_vfs s') = mounts (k_vfs s) →
  delete (ds_file d) (files (k_vfs s')) = delete (ds_file d) (files (k_vfs s)) → dentries (k_vfs s') = dentries (k_vfs s) → 0 ≤ pos →
  held (k_vfs s') (mk_desc (ds_path d) pos (ds_file d) (ds_child d)) →
  sys_wf s' (<[i := mk_desc (ds_path d) pos (ds_file d) (ds_child d)]> E).
Proof.
  intros Hwf Hd Hv Htab Hinit Et Hk Em Ef Ed Hpos Hh. pose proof (sw_dom _ _ Hwf _ _ Hd) as Hi. destruct (sw_entry _ _ Hwf i Hi) as (e & He & Hfor).
  rewrite Hd in Hfor. eapply (sys_wf_set s s' E i (Some _) e); try done.
  - by rewrite Et, list_insert_id.
  - split; try done.
    + intros j d' Hj Hd'. destruct (sw_distinct _ _ Hwf _ _ _ _ Hd' Hd Hj) as [Hne _].
      rewrite <- (lookup_delete_ne (files (k_vfs s')) (ds_file d)), Ef, lookup_delete_ne by done. done.
    + intros j d' Hj Hd'. by rewrite Ed.
    + intros j d' d'' Hj Hd' [= <-]. destruct (sw_distinct _ _ Hwf _ _ _ _ Hd' Hd Hj) as [? ?]. done.
  - intros ? [= <-]. destruct (sw_desc _ _ Hwf _ _ Hd) as [? ? ? ?]. by split.
Qed.

(** The file of an open descriptor is there. *)
Lemma held_contents v C K M d : vfs_wf v C K M → desc_ok v d → ∃ l, file_at (v_fs v) (ds_path d) = Some (false, l).
Proof.
  intros Hwf [(w & c & x & [(r & Hr & Hres) Hx Hk _ _ _ _]) Hn Hne _]. rewrite (file_at_resolve _ _ _ r _ (vw_fs _ _ _ _ Hwf)), Hres by done.
  cbn [mbind option_bind]. rewrite Hx. cbn. rewrite (reg_not_directory _ Hk). eauto.
Qed.

(** lseek relative to the start or to the position. *)
Definition seek_target (whence pos offset : Z) : Z := if whence =? SEEK_SET then offset else pos + offset.

Lemma seek_open_ok v C K M path fd child w c x pos offset whence :
  vfs_wf v C K M → open_file v path fd child w c x pos → whence = SEEK_SET ∨ whence = SEEK_CUR →
  - 2 ^ 63 ≤ seek_target whence pos offset < 2 ^ 63 →
  let new := seek_target whence pos offset in
  ∃ v', vfs_lseek (Some fd) offset whence v = Some (v', if new <? 0 then - EINVAL else new) ∧ vfs_wf v' C K M ∧ v_fs v' = v_fs v ∧
    mounts v' = mounts v ∧ delete fd (files v') = delete fd (files v) ∧ dentries v' = dentries v ∧
    open_file v' path fd child w c x (if new <? 0 then pos else new).
Proof.
  intros Hwf Hof Hw Hr new. pose proof Hof as [Hp Hx Hk Hv (fl & md & Hfd) (n & q & Hd & Hq) Hchild].
  unfold vfs_lseek. rewrite Hfd. cbn [mbind option_bind f_dentry f_pos]. rewrite Hd. cbn [mbind option_bind d_inode].
  assert ((if whence =? SEEK_SET then Some (Some offset) else if whence =? SEEK_CUR then Some (Some (i64 (pos + offset)))
    else if whence =? SEEK_END then size ← i_size w v; Some (Some (i64 (size + offset))) else Some None) = Some (Some new)) as ->.
  { unfold new, seek_target in *. destruct Hw as [-> | ->]; [done|]. cbn in *. by rewrite i64_small. }
  cbn [mbind option_bind]. destruct (new <? 0).
  - exists v. done.
  - rewrite (upd_file_insert fd _ v _ Hfd). eexists. split; [reflexivity|].
    split; [apply wf_file; [done|by eapply (vw_file _ _ _ _ Hwf)]|]. do 2 (split; [done|]). split; [cbn; by rewrite delete_insert_eq|]. split; [done|].
    split; [done|done|done|done|exists fl, md; cbn; by rewrite lookup_insert_eq|eauto|done].
Qed.

(** ** The abstract machine *)

Inductive call :=
| Openat (pathname flags mode : Z)
| Read (fd buf count : Z)
| Write (fd buf count : Z)
| Lseek (fd offset whence : Z)
| Close (fd : Z).

(** x0 to x8 of the call. *)
Definition regs_of (c : call) : list Z :=
  match c with
  | Openat pathname flags mode => [-100; pathname; flags; mode; 0; 0; 0; 0; 56]
  | Read fd buf count => [fd; buf; count; 0; 0; 0; 0; 0; 63]
  | Write fd buf count => [fd; buf; count; 0; 0; 0; 0; 0; 64]
  | Lseek fd offset whence => [fd; offset; whence; 0; 0; 0; 0; 0; 62]
  | Close fd => [fd; 0; 0; 0; 0; 0; 0; 0; 57]
  end.

Definition fsmap : Type := list (list Z) → option (bool * list Z).
Definition fs_same (m m' : fsmap) : Prop := ∀ ms, Forall name_ok ms → m' ms = m ms.
Definition fs_upd (path : list (list Z)) (x : option (bool * list Z)) (m m' : fsmap) : Prop :=
  ∀ ms, Forall name_ok ms → m' ms = if decide (ms = path) then x else m ms.

Record astate := mk_a { a_files : fsmap; a_fds : gmap nat (list (list Z) * Z); a_mem : mem }.

Inductive astep (a : astate) : call → Z → astate → Prop :=
| A_open pathname flags mode path i m' :
    let l := if has flags O_TRUNC then [] else snd (default (false, []) (a_files a path)) in
    user_str (a_mem a) pathname = Some (path_of path) → Forall name_ok path → lowest_free (a_fds a) i → (a_files a path = None → has flags O_CREAT = true) →
    fs_upd path (Some (false, l)) (a_files a) m' →
    astep a (Openat pathname flags mode) (Z.of_nat i)
      (mk_a m' (<[i := (path, if has flags O_APPEND then Z.of_nat (length l) else 0)]> (a_fds a)) (a_mem a))
| A_open_fail pathname flags mode path m' :
    user_str (a_mem a) pathname = Some (path_of path) → Forall name_ok path →
    fs_same (a_files a) m' ∨ (has flags O_CREAT = true ∧ a_files a path = None ∧ fs_upd path (Some (false, [])) (a_files a) m') →
    astep a (Openat pathname flags mode) (- ENOENT) (mk_a m' (a_fds a) (a_mem a))
| A_open_full pathname flags mode : all_used (a_fds a) → astep a (Openat pathname flags mode) (- EMFILE) a
| A_read fd buf count path pos l :
    a_fds a !! Z.to_nat fd = Some (path, pos) → a_files a path = Some (false, l) →
    let bytes := take (Z.to_nat count) (drop (Z.to_nat pos) l) in
    astep a (Read fd buf count) (Z.of_nat (length bytes))
      (mk_a (a_files a) (<[Z.to_nat fd := (path, pos + Z.of_nat (length bytes))]> (a_fds a)) (elf_memcpy buf bytes (a_mem a)))
| A_write fd buf count path pos l m' :
    a_fds a !! Z.to_nat fd = Some (path, pos) → a_files a path = Some (false, l) →
    fs_upd path (Some (false, splice pos (bytes_at (a_mem a) buf (Z.to_nat count)) l)) (a_files a) m' →
    astep a (Write fd buf count) count (mk_a m' (<[Z.to_nat fd := (path, pos + count)]> (a_fds a)) (a_mem a))
| A_write_fail fd buf count m' :
    fs_same (a_files a) m' → astep a (Write fd buf count) (- ENOMEM) (mk_a m' (a_fds a) (a_mem a))
| A_seek fd offset whence path pos :
    a_fds a !! Z.to_nat fd = Some (path, pos) → 0 ≤ seek_target whence pos (i64 offset) →
    astep a (Lseek fd offset whence) (seek_target whence pos (i64 offset))
      (mk_a (a_files a) (<[Z.to_nat fd := (path, seek_target whence pos (i64 offset))]> (a_fds a)) (a_mem a))
| A_seek_neg fd offset whence path pos :
    a_fds a !! Z.to_nat fd = Some (path, pos) → seek_target whence pos (i64 offset) < 0 → astep a (Lseek fd offset whence) (- EINVAL) a
| A_close fd path pos m' :
    a_fds a !! Z.to_nat fd = Some (path, pos) → fs_same (a_files a) m' → astep a (Close fd) 0 (mk_a m' (delete (Z.to_nat fd) (a_fds a)) (a_mem a))
| A_close_std fd : fd < 3 → astep a (Close fd) 0 a
| A_bad_read fd buf count : a_fds a !! Z.to_nat fd = None → astep a (Read fd buf count) (- EBADF) a
| A_bad_write fd buf count : a_fds a !! Z.to_nat fd = None → astep a (Write fd buf count) (- EBADF) a
| A_bad_seek fd offset whence : a_fds a !! Z.to_nat fd = None → astep a (Lseek fd offset whence) (- EBADF) a
| A_bad_close fd : 3 ≤ fd → a_fds a !! Z.to_nat fd = None → astep a (Close fd) (- EBADF) a.

Definition view (E : gmap nat desc) : gmap nat (list (list Z) * Z) := (λ d, (ds_path d, ds_pos d)) <$> E.
Definition abs s E : astate := mk_a (file_at (v_fs (k_vfs s))) (view E) (k_mem s).

(** Which calls the machine speaks about: files of the root file system in an
    existing directory, no console, positions below 2^61, no seek relative to
    the end ([seek_end_stale]), and buffers and names that are none of the
    kernel's own memory ([read_into_kernel_heap]). *)
Definition ready s E (c : call) : Prop :=
  match c with
  | Openat pathname flags mode =>
      0 ≤ flags < 2 ^ 31 ∧ 0 ≤ mode < 4096 ∧
      str_apart (kernel_memory s) (k_mem s) pathname = true ∧
      ∃ ns n l, user_str (k_mem s) pathname = Some (path_of (ns ++ [n])) ∧ Forall name_ok ns ∧ name_ok n ∧ plain (path_of (ns ++ [n])) (k_vfs s) ∧
        find_mount_by_target (path_of (ns ++ [n])) (k_vfs s) = None ∧ file_at (v_fs (k_vfs s)) ns = Some (true, l) ∧ regular (k_vfs s) (ns ++ [n])
  | Read fd buf count =>
      3 ≤ fd < 2 ^ 31 ∧ 0 ≤ count ∧ is_valid_user_ptr buf count = true ∧ apart (kernel_memory s) buf count = true ∧
      ∀ d, E !! Z.to_nat fd = Some d → ds_pos d < 2 ^ 62
  | Write fd buf count =>
      3 ≤ fd < 2 ^ 31 ∧ 0 ≤ count ∧ buf ≠ 0 ∧ apart (kernel_memory s) buf count = true ∧
      ∀ d, E !! Z.to_nat fd = Some d → ds_pos d + count < 2 ^ 61
  | Lseek fd offset whence =>
      0 ≤ fd < 2 ^ 31 ∧ (whence = SEEK_SET ∨ whence = SEEK_CUR) ∧
      ∀ d, E !! Z.to_nat fd = Some d → - 2 ^ 63 ≤ seek_target whence (ds_pos d) (i64 offset) < 2 ^ 63
  | Close fd => 0 ≤ fd < 2 ^ 31
  end.

(** What a call does: it returns, and the abstract machine makes a step. *)
Definition implements s E (c : call) (r : option (sys H * result)) : Prop :=
  ∃ s' ret E', r = Some (s', Ret ret) ∧ sys_wf s' E' ∧ astep (abs s E) c ret (abs s' E').

(** ** Each call *)

Lemma view_lookup E i d : E !! i = Some d → view E !! i = Some (ds_path d, ds_pos d).
Proof. intros Hd. unfold view. by rewrite lookup_fmap, Hd. Qed.

Lemma view_none E i : E !! i = None → view E !! i = None.
Proof. intros Hd. unfold view. by rewrite lookup_fmap, Hd. Qed.

Lemma view_insert E i d : view (<[i := d]> E) = <[i := (ds_path d, ds_pos d)]> (view E).
Proof. unfold view. by rewrite fmap_insert. Qed.

Lemma view_used E i : is_Some (view E !! i) ↔ is_Some (E !! i).
Proof. unfold view. rewrite lookup_fmap. apply fmap_is_Some. Qed.

Lemma view_free E i : lowest_free E i → lowest_free (view E) i.
Proof. intros (? & ? & Hj). split; [done|]. split; [by apply view_none|]. intros j Hlt. by apply view_used, Hj. Qed.

Lemma sys_read_ok s E fd buf count : sys_wf s E → ready s E (Read fd buf count) → implements s E (Read fd buf count) (sys_read fd buf count s).
Proof.
  intros Hwf (Hfd & Hcount & Hptr & Hap & Hpos). unfold sys_read. rewrite (init_fd_table_id s E Hwf), Hptr. cbn [negb].
  destruct (Z.eqb_spec fd 0); [lia|]. rewrite i32_small, (get_file_ok s E) by (done || lia).
  destruct (E !! Z.to_nat fd) as [d|] eqn:Ed; cbn [fmap option_fmap option_map].
  2:{ exists s, (- EBADF), E. split; [done|]. split; [done|]. constructor. by apply view_none. }
  destruct (sw_vfs _ _ Hwf) as (C & K & M & W). pose proof (sw_desc _ _ Hwf _ _ Ed) as Hd. destruct (held_contents _ _ _ _ _ W Hd) as [l Hl].
  pose proof Hd as [(w & c & x & Hof) Hn Hne Hp]. specialize (Hpos d eq_refl).
  assert (negb (buf =? 0) = true) as -> by (unfold is_valid_user_ptr in Hptr; by destruct (buf =? 0)).
  destruct (read_open_ok _ _ _ _ _ _ _ _ _ _ _ count l W Hof Hn Hne Hl) as (v' & -> & W' & Efs & Em & Ef & Ede & Hof'); [lia|done|]. cbn [mbind option_bind].
  set (bytes := take _ _) in *. rewrite (apart_le _ _ _ _ Hap) by (unfold bytes; rewrite length_take; lia). cbn [negb]. eexists _, _, _. split; [reflexivity|]. split.
  - eapply (sys_wf_move s _ E _ d (ds_pos d + Z.of_nat (length bytes))); try done; cbn; [eauto|apply (sw_init _ _ Hwf)|rewrite Efs; apply keeps_refl|lia|by exists w, c, x].
  - unfold abs at 2. cbn [k_vfs k_mem with_mem with_vfs]. rewrite Efs, view_insert. apply (A_read (abs s E) fd buf count (ds_path d) (ds_pos d) l); [by apply view_lookup|done].
Qed.

Lemma bytes_at_length m a n : length (bytes_at m a n) = n.
Proof. unfold bytes_at. by rewrite length_map, length_seq. Qed.

Lemma sys_write_ok s E fd buf count : sys_wf s E → ready s E (Write fd buf count) → implements s E (Write fd buf count) (sys_write fd buf count s).
Proof.
  intros Hwf (Hfd & Hcount & Hbuf & Hap & Hpos). unfold sys_write. rewrite (init_fd_table_id s E Hwf).
  destruct (Z.eqb_spec fd 1); [lia|]. destruct (Z.eqb_spec fd 2); [lia|]. cbn [orb]. rewrite i32_small, (get_file_ok s E) by (done || lia).
  destruct (E !! Z.to_nat fd) as [d|] eqn:Ed; cbn [fmap option_fmap option_map].
  2:{ exists s, (- EBADF), E. split; [done|]. split; [done|]. constructor. by apply view_none. }
  destruct (sw_vfs _ _ Hwf) as (C & K & M & W). pose proof (sw_desc _ _ Hwf _ _ Ed) as Hd. destruct (held_contents _ _ _ _ _ W Hd) as [l Hl].
  pose proof Hd as [(w & c & x & Hof) Hn Hne Hp]. specialize (Hpos d eq_refl). destruct (Z.eqb_spec buf 0); [done|]. rewrite Hap. cbn [negb andb].
  set (data := bytes_at _ _ _). assert (Z.of_nat (length data) = count) as Elen by (unfold data; rewrite bytes_at_length; lia).
  destruct (write_open_ok _ _ _ _ _ _ _ _ _ _ _ data l W Hof Hn Hne Hl) as (v' & ret & M' & x' & -> & W' & Em & Ef & Ede & Hkp & Hcase); [done|lia|].
  cbn [mbind option_bind]. set (s' := with_vfs v' s).
  assert (∀ pos, 0 ≤ pos → open_file v' (ds_path d) (ds_file d) (ds_child d) w c x' pos →
    sys_wf s' (<[Z.to_nat fd := mk_desc (ds_path d) pos (ds_file d) (ds_child d)]> E)) as Hmove.
  { intros pos Hpos' Hof'. eapply (sys_wf_move s s' E _ d); try done; cbn; [eauto|apply (sw_init _ _ Hwf)|by exists w, c, x']. }
  exists s', ret. destruct Hcase as [(-> & Hof' & Hu)|(-> & Hof' & Hu)].
  - exists E. split; [done|]. split.
    + specialize (Hmove _ Hp Hof'). rewrite insert_id in Hmove; [done|]. by destruct d.
    + by apply (A_write_fail (abs s E)).
  - rewrite Elen in *. eexists. split; [done|]. split; [apply (Hmove (ds_pos d + count)); [lia|done]|].
    unfold abs at 2. rewrite view_insert. apply (A_write (abs s E) fd buf count (ds_path d) (ds_pos d) l); [by apply view_lookup|done|done].
Qed.

Lemma sys_lseek_ok s E fd offset whence : sys_wf s E → ready s E (Lseek fd offset whence) → implements s E (Lseek fd offset whence) (sys_lseek fd offset whence s).
Proof.
  intros Hwf (Hfd & Hw & Hrange). unfold sys_lseek. rewrite (init_fd_table_id s E Hwf). rewrite (i32_small fd), (get_file_ok s E) by (done || lia).
  destruct (E !! Z.to_nat fd) as [d|] eqn:Ed; cbn [fmap option_fmap option_map].
  2:{ exists s, (- EBADF), E. split; [done|]. split; [done|]. constructor. by apply view_none. }
  destruct (sw_vfs _ _ Hwf) as (C & K & M & W). pose proof (sw_desc _ _ Hwf _ _ Ed) as [(w & c & x & Hof) Hn Hne Hp].
  assert (i32 whence = whence) as -> by (by destruct Hw as [-> | ->]).
  destruct (seek_open_ok _ _ _ _ _ _ _ _ _ _ _ (i64 offset) whence W Hof Hw (Hrange d eq_refl)) as (v' & -> & W' & Efs & Em & Ef & Ede & Hof').
  cbn [mbind option_bind]. set (new := seek_target _ _ _) in *. exists (with_vfs v' s), (if new <? 0 then - EINVAL else new), (<[Z.to_nat fd := mk_desc (ds_path d) (if new <? 0 then ds_pos d else new) (ds_file d) (ds_child d)]> E). split; [reflexivity|]. split.
  - eapply (sys_wf_move s _ E _ d); try done; cbn; [eauto|apply (sw_init _ _ Hwf)|rewrite Efs; apply keeps_refl|destruct (Z.ltb_spec new 0); lia|by exists w, c, x].
  - unfold abs at 2. cbn [k_vfs k_mem with_vfs]. rewrite Efs, view_insert. cbn [ds_path ds_pos]. destruct (Z.ltb_spec new 0).
    + rewrite insert_id by (by apply view_lookup). by apply (A_seek_neg (abs s E) fd offset whence (ds_path d) (ds_pos d)); [apply view_lookup|].
    + by apply (A_seek (abs s E) fd offset whence (ds_path d) (ds_pos d)); [apply view_lookup|].
Qed.

Lemma sys_close_ok s E fd : sys_wf s E → ready s E (Close fd) → implements s E (Close fd) (sys_close fd s).
Proof.
  intros Hwf Hfd. cbn in Hfd. unfold sys_close. rewrite (init_fd_table_id s E Hwf). destruct (Z.ltb_spec fd 3).
  { exists s, 0, E. split; [done|]. split; [done|]. by apply A_close_std. }
  rewrite (i32_small fd), (get_file_ok s E) by (done || lia). destruct (E !! Z.to_nat fd) as [d|] eqn:Ed; cbn [fmap option_fmap option_map].
  2:{ exists s, (- EBADF), E. split; [done|]. split; [done|]. constructor; [done|]. by apply view_none. }
  destruct (sw_vfs _ _ Hwf) as (C & K & M & W). pose proof (sw_desc _ _ Hwf _ _ Ed) as [(w & c & x & Hof) Hn Hne Hp].
  destruct (close_open_ok _ _ _ _ _ _ _ _ _ _ _ W Hof) as (v' & -> & W' & Hs & Em & Ef & Ede). cbn [mbind option_bind].
  pose proof (sw_dom _ _ Hwf _ _ Ed) as Hi. unfold free_fd. destruct (Z.leb_spec 0 fd); [|lia]. destruct (Z.ltb_spec fd (Z.of_nat MAX_FDS)); [|lia]. cbn [andb].
  eexists _, 0, (delete (Z.to_nat fd) E). split; [reflexivity|]. split.
  - eapply (sys_wf_set s _ E _ None free_entry); try done; cbn; [eauto|apply (sw_init _ _ Hwf)|]. split; try done; cbn.
    + by apply same_tree_keeps.
    + intros j d' Hj Hd'. destruct (sw_distinct _ _ Hwf _ _ _ _ Hd' Ed Hj) as [? ?]. by rewrite Ef, lookup_delete_ne.
    + intros j d' Hj Hd'. destruct (sw_distinct _ _ Hwf _ _ _ _ Hd' Ed Hj) as [? ?]. by rewrite Ede, lookup_delete_ne.
  - unfold abs at 2, view. rewrite fmap_delete. eapply (A_close (abs s E)); [by apply view_lookup|]. by apply (same_nodes_unchanged (k_vfs s)), same_tree_nodes.
Qed.

(** The open calls use fresh objects. *)
Lemma held_in v d : held v d → is_Some (files v !! ds_file d) ∧ is_Some (dentries v !! ds_child d).
Proof. intros (w & c & x & [_ _ _ _ (fl & md & ->) (n & q & -> & _) _]). eauto. Qed.

Lemma sys_openat_ok s E pathname flags mode :
  sys_wf s E → ready s E (Openat pathname flags mode) → implements s E (Openat pathname flags mode) (sys_openat pathname flags mode s).
Proof.
  intros Hwf (Hfl & Hmode & Hap & ns & n & l0 & Hstr & Hns & Hn & Hpl & Hnm & Hdir & Hreg). unfold sys_openat. rewrite (init_fd_table_id s E Hwf), Hstr.
  pose proof (alloc_fd_ok s E Hwf) as Ha. destruct (alloc_fd s) as [s1 fd]. destruct Ha as [(-> & -> & Hall)|(i & -> & Hfree & ->)].
  { exists s, (- EMFILE), E. split; [done|]. split; [done|]. constructor. intros j Hj. by apply view_used, Hall. }
  destruct (Z.ltb_spec (Z.of_nat i) 0); [lia|].
  match goal with |- context [str_apart (kernel_memory ?s1) ?m pathname] => change (str_apart (kernel_memory s1) m pathname) with (str_apart (kernel_memory s) (k_mem s) pathname) end.
  rewrite Hap. cbn [negb k_vfs with_fds]. rewrite i32_small, u32_small by lia.
  destruct (sw_vfs _ _ Hwf) as (C & K & M & W).
  destruct (open_ok (k_vfs s) C K M ns n flags mode l0 W Hns Hn Hpl Hnm Hdir Hmode Hreg) as (v' & o & C' & K' & M' & -> & W' & Em & Hkp & Hsub & Hspec).
  cbn [mbind option_bind]. set (path := ns ++ [n]) in *.
  assert (Forall name_ok path) as Hpath by (apply Forall_app; split; [done|by constructor]). pose proof Hfree as (Hi & HE & _). destruct (sw_entry _ _ Hwf i Hi) as (e & He & Hfor).
  rewrite HE in Hfor. cbn in Hfor. subst e. pose proof (sw_len _ _ Hwf) as Hlen.
  assert (∀ j d, E !! j = Some d → dentries v' !! ds_child d = dentries (k_vfs s) !! ds_child d) as Hden.
  { intros j d Hd. destruct (held_in _ _ (do_held _ _ (sw_desc _ _ Hwf _ _ Hd))) as [_ [e He']]. rewrite He'. by eapply lookup_weaken. }
  destruct o as [f|]; cbn [with_vfs with_fds fd_table fd_table_initialized].
  - destruct Hspec as (Hf0 & Ef & Hcr & (child & w & c & x & Hc0 & Hof & _) & Hu). set (l := if has flags O_TRUNC then _ else _) in *.
    set (d := mk_desc path (if has flags O_APPEND then Z.of_nat (length l) else 0) f child). eexists _, _, (<[i := d]> E). split; [reflexivity|]. split.
    + eapply (sys_wf_set s _ E i (Some d) (mk_fd (Some f) flags true)); try done; cbn; [eauto| | |].
      * rewrite Nat2Z.id. apply list_eq. intros j. destruct (decide (j = i)) as [->|Hj].
        -- by rewrite list_lookup_alter_eq, !list_lookup_insert_eq by lia.
        -- by rewrite list_lookup_alter_ne, !list_lookup_insert_ne by done.
      * split; try done; cbn.
        -- intros j d' Hj Hd'. destruct (held_in _ _ (do_held _ _ (sw_desc _ _ Hwf _ _ Hd'))) as [[y Hy] _].
           rewrite <- Ef, lookup_delete_ne; [done|congruence].
        -- intros j d' _ Hd'. by eapply Hden.
        -- intros j d' d'' Hj Hd' [= <-]. destruct (held_in _ _ (do_held _ _ (sw_desc _ _ Hwf _ _ Hd'))) as [[y Hy] [z Hz]]. split; cbn; congruence.
      * intros ? [= <-]. split; cbn; [by exists w, c, x|done|unfold path; by destruct ns|destruct (has flags O_APPEND); lia].
    + unfold abs at 2. rewrite view_insert. eapply (A_open (abs s E)); [done|done|by apply view_free|done|done].
  - destruct Hspec as [Ef Hcase]. eexists _, _, E. split; [reflexivity|]. unfold free_fd. rewrite Nat2Z.id.
    destruct (Z.leb_spec 0 (Z.of_nat i)); [|lia]. destruct (Z.ltb_spec (Z.of_nat i) (Z.of_nat MAX_FDS)); [|lia]. cbn. split.
    + rewrite <- (delete_id E i) by done. eapply (sys_wf_set s _ E i None free_entry); try done; cbn; [eauto|by rewrite list_insert_insert_eq|].
      split; try done; cbn; intros j d; [by rewrite Ef|intros _; by apply Hden].
    + by eapply (A_open_fail (abs s E)).
Qed.

(** ** The dispatcher *)

(** The first call sets the table up. *)
Lemma init_twice s : init_fd_table (init_fd_table s) = init_fd_table s.
Proof. unfold init_fd_table. by destruct (fd_table_initialized s) eqn:E; [rewrite E|]. Qed.

Definition direct (c : call) s : option (sys H * result) :=
  match c with
  | Openat pathname flags mode => sys_openat pathname flags mode s
  | Read fd buf count => sys_read fd buf count s
  | Write fd buf count => sys_write fd buf count s
  | Lseek fd offset whence => sys_lseek fd offset whence s
  | Close fd => sys_close fd s
  end.

Lemma direct_init c s : direct c (init_fd_table s) = direct c s.
Proof. destruct c; cbn [direct]; unfold sys_openat, sys_read, sys_write, sys_lseek, sys_close; by rewrite init_twice. Qed.

Lemma dispatch fuel c s : syscall_table s = syscall_table (syscall_init s) → handle_syscall fuel (regs_of c) s = direct c s.
Proof. intros Ht. destruct c; unfold handle_syscall; rewrite Ht; reflexivity. Qed.

(** Abstract states do not see whether the table is set up. *)
Lemma init_same s :
  k_vfs (init_fd_table s) = k_vfs s ∧ k_mem (init_fd_table s) = k_mem s ∧ syscall_table (init_fd_table s) = syscall_table s ∧
  kernel_memory (init_fd_table s) = kernel_memory s.
Proof. unfold init_fd_table. by destruct (fd_table_initialized s). Qed.

(** C5: openat, read, write, lseek with SEEK_SET or SEEK_CUR, and close,
    entered through the dispatcher under the conditions of [ready]: descriptors
    from 3 on for read and write (below them is the console), positions below
    2^61, a name that is a plain path into an existing directory of the root
    file system to a regular file or nothing, and buffers and names outside the
    kernel's own memory.  Each call returns without a fault and implements the
    machine [astep] over the map from paths to files, the open descriptors with
    their positions and the user memory: openat gives the lowest free
    descriptor, reads and writes go through the descriptor's own position to
    the one file it was opened on, every other descriptor keeps its path and
    position, and the errors are -ENOENT, -EMFILE, -EBADF, -EINVAL and -ENOMEM
    as the rules say.  The descriptor table stays well formed: no two
    descriptors share a file or a dentry.  SEEK_END is left out because the
    size it uses can be stale ([seek_end_stale]); a buffer in the kernel's
    memory is accepted by the code and is left out because the call overwrites
    the kernel ([read_into_kernel_heap]). *)
Theorem syscall_files_refine fuel s E c :
  sys_wf (init_fd_table s) E → ready s E c →
  ∃ s' ret E', handle_syscall fuel (regs_of c) s = Some (s', Ret ret) ∧ sys_wf s' E' ∧ astep (abs s E) c ret (abs s' E').
Proof.
  intros Hwf Hr. destruct (init_same s) as (Ev & Em & Et & Ek). set (s0 := init_fd_table s) in *.
  assert (ready s0 E c) as Hr0 by (destruct c; cbn -[kernel_memory] in *; rewrite ?Ek, ?Ev, ?Em; done).
  assert (abs s E = abs s0 E) as -> by (unfold abs; by rewrite Ev, Em).
  rewrite dispatch, <- direct_init by (rewrite <- Et; apply (sw_table _ _ Hwf)). fold s0.
  destruct c; cbn [direct]; [by apply sys_openat_ok|by apply sys_read_ok|by apply sys_write_ok|by apply sys_lseek_ok|by apply sys_close_ok].
Qed.

(** At boot no descriptor is open. *)
Lemma boot_sys_wf s :
  (∃ C K M, vfs_wf (k_vfs s) C K M) → fd_table_initialized s = false → syscall_table s = syscall_table (syscall_init s) → sys_wf (init_fd_table s) ∅.
Proof.
  intros Hv Hi Ht. unfold init_fd_table. rewrite Hi. split; try done; cbn -[replicate MAX_FDS].
  - intros i Hlt. rewrite lookup_app_l by (rewrite length_replicate; lia). by apply lookup_replicate_2.
  - intros i Hlt. exists free_entry. rewrite lookup_app_r, length_replicate by (rewrite length_replicate; lia).
    split; [apply lookup_replicate_2; lia|by rewrite lookup_empty].
Qed.
End Descriptors.

(** ** A concrete run *)

Lemma demo_sys_wf : sys_wf (init_fd_table demo_sys) ∅.
Proof. apply boot_sys_wf; [destruct demo_vfs_wf as [M W]; exists (λ _, []), ∅, M; exact W|reflexivity|exact (syscall_init_table _ _)]. Qed.

(** Successful calls, read off the machine. *)
Lemma open_step_inv a pathname flags mode ret a' :
  astep a (Openat pathname flags mode) ret a' → 0 ≤ ret → has flags O_APPEND = false →
  ∃ path l, user_str (a_mem a) pathname = Some (path_of path) ∧ a_fds a' !! Z.to_nat ret = Some (path, 0) ∧ a_files a' path = Some (false, l) ∧
    Forall name_ok path ∧ a_mem a' = a_mem a.
Proof.
  intros Hs Hret Hap. inversion Hs as [? ? ? path i m' l Hstr Hn Hfree Hcr Hu| |?|?|?|?|?|?|?|?|?|?|?|?]; subst; try (exfalso; unfold ENOENT, EMFILE in *; lia).
  exists path, l. split; [done|]. cbn. rewrite Nat2Z.id, lookup_insert_eq, Hap. split; [done|]. by rewrite Hu, decide_True by done.
Qed.

Lemma write_step_inv a fd buf count ret a' path pos l :
  astep a (Write fd buf count) ret a' → 0 ≤ ret → Forall name_ok path → a_fds a !! Z.to_nat fd = Some (path, pos) → a_files a path = Some (false, l) →
  a_fds a' !! Z.to_nat fd = Some (path, pos + count) ∧ a_mem a' = a_mem a ∧
  a_files a' path = Some (false, splice pos (bytes_at (a_mem a) buf (Z.to_nat count)) l).
Proof.
  intros Hs Hret Hn Hfd Hl. inversion Hs as [| | | |? ? ? path' pos' l' m' Hfd' Hl' Hu| | | | | | | | |]; subst; try (exfalso; unfold ENOMEM, EBADF in *; lia).
  simplify_eq. cbn. rewrite lookup_insert_eq, Hu, decide_True by done. done.
Qed.

Lemma seek_step_inv a fd offset whence ret a' path pos :
  astep a (Lseek fd offset whence) ret a' → 0 ≤ ret → a_fds a !! Z.to_nat fd = Some (path, pos) →
  a_fds a' !! Z.to_nat fd = Some (path, ret) ∧ a_files a' = a_files a ∧ a_mem a' = a_mem a.
Proof.
  intros Hs Hret Hfd. inversion Hs as [| | | | | |? ? ? path' pos' Hfd'| | | | | | |]; subst; try (exfalso; unfold EINVAL, EBADF in *; lia).
  simplify_eq. cbn. by rewrite lookup_insert_eq.
Qed.

Lemma read_step_inv a fd buf count ret a' path pos l :
  astep a (Read fd buf count) ret a' → 0 ≤ ret → a_fds a !! Z.to_nat fd = Some (path, pos) → a_files a path = Some (false, l) →
  a_mem a' = elf_memcpy buf (take (Z.to_nat count) (drop (Z.to_nat pos) l)) (a_mem a) ∧ a_fds a' !! Z.to_nat fd = Some (path, pos + ret).
Proof.
  intros Hs Hret Hfd Hl. inversion Hs as [| | |? ? ? path' pos' l' Hfd' Hl'| | | | | | | | | |]; subst; try (exfalso; unfold EBADF in *; lia).
  simplify_eq. cbn. by rewrite lookup_insert_eq.
Qed.

Lemma splice_start buf l : splice 0 buf l = buf ++ drop (length buf) l.
Proof. reflexivity. Qed.

(** The positions of the descriptors of the implementation. *)
Lemma view_pos E i d path pos : view E !! i = Some (path, pos) → E !! i = Some d → ds_pos d = pos.
Proof. intros Hv Hd. apply view_lookup in Hd. congruence. Qed.

Definition O_RDWR_CREAT : Z := Z.lor 2 O_CREAT.

(** The results of a sequence of calls, with the kernel's memory after each. *)
Fixpoint trace (cs : list call) (s : sys heap) : list (result * list (Z * Z)) :=
  match cs with
  | [] => []
  | c :: cs' => match handle_syscall 0 (regs_of c) s with Some (s', r) => (r, kernel_memory s') :: trace cs' s' | None => [] end
  end.
Definition results (cs : list call) (s : sys heap) : list result := (trace cs s).*1.

Lemma trace_cons c cs s s' r ret K rest :
  handle_syscall 0 (regs_of c) s = Some (s', Ret r) → trace (c :: cs) s = (Ret ret, K) :: rest → r = ret ∧ kernel_memory s' = K ∧ trace cs s' = rest.
Proof. intros E. cbn [trace]. rewrite E. by intros [= -> -> ->]. Qed.

Lemma after_wf {H} `{!KernelHeap H} (s : sys H) E : sys_wf s E → sys_wf (init_fd_table s) E.
Proof. intros Hwf. by rewrite (init_fd_table_id s E Hwf). Qed.

(** A file is created, written, read back from its start and closed. *)
Definition demo_K : list (Z * Z) := (HEAP_BASE, HEAP_BASE + HEAP_SIZE) :: demo_kernel.
Definition demo_buf : Z := 0x10000100.
Definition demo_calls : list call :=
  [Openat USER_HEAP_START O_RDWR_CREAT 0x1A4; Write 3 USER_HEAP_START 5; Lseek 3 0 SEEK_SET; Read 3 demo_buf 5; Close 3].

Lemma demo_trace : trace demo_calls demo_sys = (λ r, (Ret r, demo_K)) <$> [3; 5; 0; 5; 0].
Proof. vm_compute. reflexivity. Qed.

Lemma demo_open_ready : ready demo_sys ∅ (Openat USER_HEAP_START O_RDWR_CREAT 0x1A4).
Proof.
  split; [vm_compute; split; [discriminate|reflexivity]|]. split; [lia|]. split; [vm_compute; reflexivity|].
  exists [], demo_name, []. split; [vm_compute; reflexivity|]. split; [constructor|]. split; [exact demo_name_ok|].
  split; [apply demo_plain|]. split; [vm_compute; reflexivity|]. split; [exact demo_root_dir|exact demo_regular].
Qed.

Lemma syscall_files_refine_witness :
  ∃ s4 s5 E5, results demo_calls demo_sys = Ret <$> [3; 5; 0; 5; 0] ∧
    bytes_at (k_mem s4) demo_buf 5 = bytes_at demo_mem USER_HEAP_START 5 ∧
    handle_syscall 0 (regs_of (Close 3)) s4 = Some (s5, Ret 0) ∧ sys_wf s5 E5.
Proof.
  pose proof demo_trace as T.
  destruct (syscall_files_refine 0 demo_sys ∅ (Openat USER_HEAP_START O_RDWR_CREAT 0x1A4) demo_sys_wf demo_open_ready) as (s1 & r1 & E1 & H1 & W1 & A1).
  destruct (trace_cons _ _ _ _ _ _ _ _ H1 T) as (-> & K1 & T1).
  destruct (open_step_inv _ _ _ _ _ _ A1) as (path & l & _ & F1 & L1 & Hn & M1); [lia|reflexivity|].
  destruct (syscall_files_refine 0 s1 E1 (Write 3 USER_HEAP_START 5) (after_wf _ _ W1)) as (s2 & r2 & E2 & H2 & W2 & A2).
  { split; [lia|]. split; [lia|]. split; [discriminate|]. rewrite K1. split; [vm_compute; reflexivity|].
    intros d Hd. rewrite (view_pos _ _ _ _ _ F1 Hd). lia. }
  destruct (trace_cons _ _ _ _ _ _ _ _ H2 T1) as (-> & K2 & T2).
  destruct (write_step_inv _ _ _ _ _ _ _ _ _ A2 ltac:(lia) Hn F1 L1) as (F2 & M2 & L2).
  destruct (syscall_files_refine 0 s2 E2 (Lseek 3 0 SEEK_SET) (after_wf _ _ W2)) as (s3 & r3 & E3 & H3 & W3 & A3).
  { split; [lia|]. split; [by left|]. intros d Hd. unfold seek_target. cbn. vm_compute. split; [discriminate|reflexivity]. }
  destruct (trace_cons _ _ _ _ _ _ _ _ H3 T2) as (-> & K3 & T3).
  destruct (seek_step_inv _ _ _ _ _ _ _ _ A3 ltac:(lia) F2) as (F3 & L3 & M3). rewrite <- L3 in L2.
  destruct (syscall_files_refine 0 s3 E3 (Read 3 demo_buf 5) (after_wf _ _ W3)) as (s4 & r4 & E4 & H4 & W4 & A4).
  { split; [lia|]. split; [lia|]. split; [reflexivity|]. rewrite K3. split; [vm_compute; reflexivity|].
    intros d Hd. rewrite (view_pos _ _ _ _ _ F3 Hd). lia. }
  destruct (trace_cons _ _ _ _ _ _ _ _ H4 T3) as (-> & K4 & T4).
  destruct (read_step_inv _ _ _ _ _ _ _ _ _ A4 ltac:(lia) F3 L2) as (M4 & _).
  destruct (syscall_files_refine 0 s4 E4 (Close 3) (after_wf _ _ W4)) as (s5 & r5 & E5 & H5 & W5 & _); [cbn; lia|].
  destruct (trace_cons _ _ _ _ _ _ _ _ H5 T4) as (-> & _ & _).
  exists s4, s5, E5. split; [unfold results; rewrite T; reflexivity|]. split; [|split; [exact H5|exact W5]].
  change (k_mem s4) with (a_mem (abs s4 E4)). rewrite M4, M3, M2, M1. change (a_mem (abs demo_sys ∅)) with demo_mem.
  change (Z.to_nat 0) with 0%nat. rewrite drop_0. set (b := bytes_at demo_mem USER_HEAP_START 5).
  assert (take (Z.to_nat 5) (splice 0 (bytes_at demo_mem USER_HEAP_START (Z.to_nat 5)) l) = b) as ->
    by (rewrite splice_start; apply take_app_length'; vm_compute; reflexivity).
  vm_compute. reflexivity.
Defined.

(** Each open of a file has a VFS inode of its own, and a write updates the size
    in that of its own descriptor only: after five bytes were written through
    descriptor 3, lseek to the end of descriptor 4 goes to 0, although a read
    through it finds the five bytes. *)
Lemma seek_end_stale :
  results [Openat USER_HEAP_START O_RDWR_CREAT 0x1A4; Openat USER_HEAP_START 2 0; Write 3 USER_HEAP_START 5; Lseek 4 0 SEEK_END;
           Read 4 0x10000100 80] demo_sys = [Ret 3; Ret 4; Ret 5; Ret 0; Ret 5].
Proof. vm_compute. reflexivity. Qed.
