(* ===== verification/SyscallExec.v ===== *)
(** * execve

    sys_execve reads a program through the VFS into a kernel buffer and hands
    it to the ELF loader: the file that is opened is closed again, the buffer
    is freed and no path changes, on every branch. *)

From S2P Require Import Prelude KHeap Kmalloc Sched Elf Ramfs Vfs VfsFiles VfsSave Syscall SyscallFiles.

(** ** Files the loader is defined on *)

Lemma calc_bounds_some data phoff phentsize n i lo hi :
  Z.of_nat (length data) < 2 ^ 30 → 0 ≤ phoff → 56 ≤ phentsize → 0 ≤ i → phoff + (i + Z.of_nat n) * phentsize ≤ Z.of_nat (length data) →
  is_Some (calc_bounds n i phoff phentsize data lo hi).
Proof.
  intros Hs Ho He. revert i lo hi. induction n as [|n IH]; intros i lo hi Hi Hin; cbn [calc_bounds]; [by eexists|].
  assert (0 ≤ i * phentsize ∧ (i + Z.of_nat (S n)) * phentsize = i * phentsize + phentsize + Z.of_nat n * phentsize ∧ 0 ≤ Z.of_nat n * phentsize) as (H1 & H2 & H3) by nia.
  unfold phdr_off. rewrite (i32_product _ _ (Z.of_nat (length data))), u64_small by lia. unfold p_type, p_vaddr, p_memsz. rewrite !rd_some by lia. cbn [mbind option_bind].
  assert (phoff + (i + 1 + Z.of_nat n) * phentsize ≤ Z.of_nat (length data)) by lia. destruct (negb _); apply IH; lia.
Qed.

(** A file below 2^30 bytes that elf_validate refuses, or whose program headers
    lie in the file and that is no position-independent image, has a loader run,
    whatever else it holds and without fuel for relocations. *)
Lemma load_image_defined fuel data m :
  Forall is_byte data → Z.of_nat (length data) < 2 ^ 30 →
  (elf_validate data (Z.of_nat (length data)) = Some 0 → ∃ phoff phnum phentsize, e_phoff data = Some phoff ∧ e_phnum data = Some phnum ∧ e_phentsize data = Some phentsize ∧
     56 ≤ phentsize ∧ phoff + phnum * phentsize ≤ Z.of_nat (length data) ∧ e_type data ≠ Some ET_DYN) →
  is_Some (load_image fuel data m).
Proof.
  intros Hb Hs Hok. unfold load_image. destruct (validate_some data) as [v Ev]. rewrite Ev. cbn [mbind option_bind].
  destruct (Z.eqb_spec v 0) as [->|]; cbn [negb]; [|by eexists]. destruct (Hok Ev) as (po & pn & ps & Epo & Epn & Eps & Hps & Hin & Hdyn).
  pose proof (rd_bound _ _ _ _ Hb Epo). pose proof (rd_bound _ _ _ _ Hb Epn). assert (0 ≤ pn * ps) by nia.
  unfold elf_calc_size. rewrite Ev, Epo, Epn, Eps. cbn [mbind option_bind Z.eqb negb].
  destruct (calc_bounds_some data po ps (Z.to_nat pn) 0 (2 ^ 64 - 1) 0) as [[lo hi] ->]; [lia|lia|lia|lia|rewrite Z2Nat.id; lia|].
  cbn [mbind option_bind]. destruct (if hi <=? lo then Some 0 else Some (hi - lo)) as [sz|] eqn:Esz; [|by destruct (hi <=? lo)].
  cbn [mbind option_bind]. destruct (sz =? 0); [by eexists|].
  destruct (elf_load_at_in_bounds fuel data USER_CODE_BASE m Hb Hs) as [[[m' info] ->]|[Hd _]]; [intros x; rewrite Epo; intros [= <-]; lia|intros x; rewrite Eps; by intros [= <-]|by eexists|done].
Qed.

Section Exec.
Context {H : Type} `{!KernelHeap H}.
Implicit Types (v : vfs H) (s : sys H).

(** A buffer that is no object of the VFS. *)
Definition not_object v (b : Z) : Prop := vinodes (v_fs v) !! b = None ∧ dentries v !! b = None ∧ files v !! b = None.

Lemma fresh_not_object v C K M b : vfs_wf v C K M → K !! b = None → b ≠ ROOT_VINODE → b ≠ ROOT_DENTRY → not_object v b.
Proof.
  intros Hwf HK Hv Hd. split; [|split].
  - destruct (vinodes (v_fs v) !! b) as [i|] eqn:E; [|done]. by destruct (vw_vinode _ _ _ _ Hwf _ _ E); [|congruence].
  - destruct (dentries v !! b) as [d|] eqn:E; [|done]. by destruct (vw_dentry _ _ _ _ Hwf _ _ E); [|congruence].
  - destruct (files v !! b) as [x|] eqn:E; [|done]. pose proof (vw_file _ _ _ _ Hwf _ _ E). congruence.
Qed.

Lemma free_extra_ok v C K M b n :
  vfs_wf v C K M → K !! b = Some n → not_object v b →
  ∃ h, kf b v = Some (with_fs (with_heap h (v_fs v)) v) ∧ vfs_wf (with_fs (with_heap h (v_fs v)) v) C (delete b K) M.
Proof.
  intros Hwf HK (Nv & Nd & Nf). destruct (kf_ok b n v C K M (vw_fs _ _ _ _ Hwf) HK) as (h & E & Hwf'). exists h. split; [done|].
  destruct Hwf as [H1 H2 H3 H4 H5 H6 H7 H8]. split; try done; cbn.
  - intros w i Hi. destruct (H2 w i Hi); [by left|right]. rewrite lookup_delete_ne; [done|congruence].
  - intros p d Hd. destruct (H3 p d Hd); [by left|right]. rewrite lookup_delete_ne; [done|congruence].
  - intros p x Hx. rewrite lookup_delete_ne; [by eapply H4|congruence].
Qed.

Lemma opened_size v path f child w c x pos n : open_file v path f child w c x pos → i_size w v = Some n → file_size f v = Some n.
Proof. intros [_ _ _ _ (fl & md & Hf) (nm & q & Hd & _) _] Hs. unfold file_size. rewrite Hf. cbn. by rewrite Hd. Qed.

(** The result of a call that does not touch the memory or the task. *)
Definition failed s s' (ret err : Z) : Prop := ret = - err ∧ k_mem s' = k_mem s ∧ k_sched s' = k_sched s.

(** -ENOENT comes from vfs_open alone, -ENOMEM from the allocation of the
    buffer alone. *)
Definition exec_spec (path data : list Z) (m : mem) (entry : option Z) s s' (ret : Z) : Prop :=
  (failed s s' ret ENOENT ∧ ∃ v, vfs_open (Some path) 0 0 (k_vfs s) = Some (v, None)) ∨
  (failed s s' ret ENOEXEC ∧ (data = [] ∨ 64 * 1024 * 1024 < Z.of_nat (length data))) ∨
  (failed s s' ret ENOMEM ∧ ∃ v f h, vfs_open (Some path) 0 0 (k_vfs s) = Some (v, Some f) ∧
     kh_alloc (Z.of_nat (length data)) GFP_KERNEL (fs_heap (v_fs v)) = Some (h, None)) ∨
  (0 < Z.of_nat (length data) ≤ 64 * 1024 * 1024 ∧ k_mem s' = m ∧
   match entry with
   | None => ret = - ENOEXEC ∧ k_sched s' = k_sched s
   | Some e => ret = i64 e ∧ k_sched s' = become path (k_sched s)
   end).

(** What every branch keeps. *)
Record exec_frame s s' : Prop := {
  ef_vfs : ∃ C K M, vfs_wf (k_vfs s') C K M;
  ef_paths : unchanged (k_vfs s) (k_vfs s');
  ef_mounts : mounts (k_vfs s') = mounts (k_vfs s);
  ef_files : files (k_vfs s') = files (k_vfs s);
  ef_fds : fd_table s' = fd_table s
}.

(** The buffer allocated while a file is open. *)
Lemma alloc_buffer_ok v C K M path f child w c x pos size :
  vfs_wf v C K M → open_file v path f child w c x pos → 0 ≤ size →
  ∃ h r, kh_alloc size GFP_KERNEL (fs_heap (v_fs v)) = Some (h, r) ∧
    let v' := with_fs (with_heap h (v_fs v)) v in
    (∃ x', open_file v' path f child w c x' pos) ∧
    match r with
    | None => vfs_wf v' C K M
    | Some b => vfs_wf v' C (<[b := size]> K) M ∧ b ≠ f ∧ b ≠ child ∧ not_object v' b
    end.
Proof.
  intros Hwf Hof Hs. destruct (heap_alloc_ok size GFP_KERNEL v C K M (vw_fs _ _ _ _ Hwf) Hs) as (h & r & E & Hr). exists h, r. split; [done|].
  intros v'. split.
  { eapply open_file_frame; try done. apply (same_tree_keeps v v'). by destruct v. }
  pose proof Hof as [_ _ _ _ (fl & md & Hf) (n & q & Hd & _) [Hcr _]]. pose proof (vw_file _ _ _ _ Hwf _ _ Hf) as HKf.
  destruct (vw_dentry _ _ _ _ Hwf _ _ Hd) as [|HKc]; [done|]. destruct r as [b|].
  - destruct Hr as (Hb & HK & _ & Hr). split; [|split; [congruence|split; [congruence|]]].
    + eapply wf_heap_step; [done|done|]. intros p k Hp. rewrite lookup_insert_ne; [done|congruence].
    + apply (fresh_not_object v C K M); [done|done|unfold ROOT_VINODE; lia|unfold ROOT_DENTRY; lia].
  - by eapply wf_heap_step.
Qed.

(** Reading the whole file, closing it, and freeing the buffer. *)
Lemma read_close_ok v C K M path f child w c x data b n :
  vfs_wf v C K M → K !! b = Some n → b ≠ f → b ≠ child → not_object v b → open_file v path f child w c x 0 →
  Forall name_ok path → path ≠ [] → file_at (v_fs v) path = Some (false, data) →
  ∃ v1 v2 v3, vfs_read (Some f) true (Z.of_nat (length data)) v = Some (v1, data, Z.of_nat (length data)) ∧ vfs_close (Some f) v1 = Some (v2, 0) ∧
    kf b v2 = Some v3 ∧ (∃ K', vfs_wf v3 C K' M) ∧ unchanged v v3 ∧ mounts v3 = mounts v ∧ files v3 = delete f (files v).
Proof.
  intros W HK Hbf Hbc (Nv & Nd & Nf) Hof Hn Hne Hfile. destruct (read_open_ok _ _ _ _ _ _ _ _ _ _ _ (Z.of_nat (length data)) data W Hof Hn Hne Hfile)
    as (v1 & E1 & W1 & Efs1 & Em1 & Ef1 & Ed1 & Hof1); [lia|lia|]. rewrite drop_0, Nat2Z.id, firstn_all in E1, Hof1.
  destruct (close_open_ok _ _ _ _ _ _ _ _ _ _ _ W1 Hof1) as (v2 & E2 & W2 & Hs2 & Em2 & Ef2 & Ed2). rewrite Ef1 in Ef2.
  destruct (free_extra_ok v2 C _ M b n W2) as (h & E3 & W3).
  { by rewrite !lookup_delete_ne. }
  { split; [|split].
    - rewrite Hs2. cbn. by rewrite Efs1.
    - by rewrite Ed2, Ed1, lookup_delete_ne.
    - by rewrite Ef2, lookup_delete_ne. }
  eexists v1, v2, _. split; [exact E1|]. split; [exact E2|]. split; [exact E3|]. split; [eauto|]. split; [|split; [cbn; congruence|done]].
  eapply (unchanged_trans _ v1); [intros ms _; by rewrite Efs1|]. eapply (unchanged_trans _ v2); [by apply same_nodes_unchanged, same_tree_nodes|].
  by apply same_nodes_unchanged.
Qed.

End Exec.

(** ** A concrete program *)

Definition demo_elf_save : option (vfs heap * Z) :=
  vfs_save_file (Some (path_of ([] ++ [demo_name]))) (Some demo_elf) (Z.of_nat (length demo_elf)) 0 demo_vfs.
Definition demo_exec_sys (v : vfs heap) : sys heap := syscall_init (boot_sys v demo_mem demo_sched demo_kernel).

Lemma demo_elf_save_ok :
  ∃ v C K M, demo_elf_save = Some (v, 124) ∧ vfs_wf v C K M ∧ mounts v = mounts demo_vfs ∧ regular v ([] ++ [demo_name]) ∧
    file_at (v_fs v) [] = Some (true, []) ∧ file_at (v_fs v) ([] ++ [demo_name]) = Some (false, demo_elf).
Proof.
  destruct demo_vfs_wf as [M W].
  destruct (save_ok demo_vfs (λ _, []) ∅ M [] demo_name demo_elf 0 [] W) as (s' & ret & C' & K' & M' & E & W' & Em & _ & Hreg & Hspec);
    [constructor|exact demo_name_ok|apply demo_plain|vm_compute; reflexivity|exact demo_root_dir|exact demo_regular|vm_compute; reflexivity|reflexivity|].
  fold demo_elf_save in E. assert (ret = 124) as ->.
  { assert (snd <$> demo_elf_save = Some 124) as E' by (vm_compute; reflexivity). rewrite E in E'. by apply (inj Some) in E'. }
  exists s', C', K', M'. split; [exact E|]. split; [exact W'|]. split; [exact Em|]. split; [apply Hreg; lia|].
  destruct Hspec as [(_ & Hu)|(Hneg & _)]; [|discriminate Hneg]. split.
  - rewrite Hu by constructor. rewrite decide_False by discriminate. exact demo_root_dir.
  - rewrite Hu by exact demo_names_ok. rewrite decide_True by reflexivity. reflexivity.
Qed.

Lemma demo_elf_region v n : demo_elf_save = Some (v, n) → kh_region (fs_heap (v_fs v)) = (HEAP_BASE, HEAP_BASE + HEAP_SIZE).
Proof.
  intros E. assert ((λ r, kh_region (fs_heap (v_fs (fst r)))) <$> demo_elf_save = Some (HEAP_BASE, HEAP_BASE + HEAP_SIZE)) as E2
    by (vm_compute; reflexivity).
  rewrite E in E2. by apply (inj Some) in E2.
Qed.

Lemma demo_exec_memory v n : demo_elf_save = Some (v, n) → kernel_memory (demo_exec_sys v) = (HEAP_BASE, HEAP_BASE + HEAP_SIZE) :: demo_kernel.
Proof.
  intros E. unfold kernel_memory. change (k_vfs (demo_exec_sys v)) with v. by rewrite (demo_elf_region v n E).
Qed.

