(* ===== verification/Exec.v ===== *)
(** * The exec half of kernel/sched/fork.c

    load_elf_binary, setup_user_stack and do_execve, over the VFS, the page
    allocator, the page tables and the task table.

    Memory is seen through the kernel's own mapping, by virtual address; an
    access to an address that is not mapped is not told apart.  The code writes
    the segments and the stack where the file says, without a check: a write to
    the memory in which the kernel keeps its own data, that is the heap of the
    VFS and the ranges [image] (the kernel's image, its page tables and
    stacks), has no outcome here ([None]).  [argc] is the number of arguments;
    argv and envp are not used otherwise. *)

From S2P Require Import Prelude KHeap Kmalloc PageAlloc Pmm Vmm Sched Elf Ramfs Vfs VfsFiles VfsSave Syscall SyscallExec.

Definition EXEC_MAGIC : Z := 0x464C457F.
Definition USER_STACK_TOP : Z := 0x7FFFFFFFE000.
Definition USER_STACK_SIZE : Z := 1024 * 1024.

Record exec (H : Type) := mk_exec { x_vfs : vfs H; x_sched : sched; x_mem : mem }.
Arguments mk_exec {H}.
Arguments x_vfs {H}.
Arguments x_sched {H}.
Arguments x_mem {H}.

(** The fields of [struct elf64_phdr] that are used. *)
Record elf64_phdr := mk_ph { p_type : Z; p_flags : Z; p_offset : Z; p_vaddr : Z; p_filesz : Z; p_memsz : Z }.

Definition read_ph (b : list Z) : option elf64_phdr :=
  ty ← rd 4 0 b; fl ← rd 4 4 b; off ← rd 8 8 b; va ← rd 8 16 b; fsz ← rd 8 32 b; msz ← rd 8 40 b;
  Some (mk_ph ty fl off va fsz msz).

(** [PAGE_ALIGN(p_memsz + (p_vaddr - vaddr))] in pages. *)
Definition page_down (a : Z) : Z := Z.land a (Z.lnot 4095).
Definition seg_pages (h : elf64_phdr) : Z :=
  Z.land (u64 (u64 (p_memsz h + (p_vaddr h - page_down (p_vaddr h))) + 4095)) (Z.lnot 4095) / 4096.
Definition seg_flags (h : elf64_phdr) : Z :=
  let f := Z.lor VM_READ VM_USER in
  let f := if Z.testbit (p_flags h) 0 then Z.lor f VM_EXEC else f in
  if Z.testbit (p_flags h) 1 then Z.lor f VM_WRITE else f.

(** ** What the image says *)

Record elf64_hdr := mk_ehdr { eh_phoff : Z; eh_phentsize : Z; eh_phnum : Z; eh_entry : Z }.

(** The header of an acceptable image. *)
Definition exec_header (data : list Z) : option elf64_hdr :=
  if Z.of_nat (length data) <? 64 then None
  else
    magic ← rd 4 0 data; machine ← e_machine data;
    if negb (magic =? EXEC_MAGIC) || negb (machine =? EM_AARCH64) then None
    else
      phnum ← e_phnum data; phoff ← e_phoff data; phentsize ← e_phentsize data; entry ← e_entry data;
      Some (mk_ehdr phoff phentsize phnum entry).

Definition exec_phdr (data : list Z) (eh : elf64_hdr) (i : Z) : option elf64_phdr :=
  let b := take 56 (drop (Z.to_nat (eh_phoff eh + i * eh_phentsize eh)) data) in
  if Z.of_nat (length b) <? 56 then None else read_ph b.

(** The segment copied to its place. *)
Definition exec_segment (data : list Z) (h : elf64_phdr) (m : mem) : mem :=
  if (p_type h =? PT_LOAD) && (0 <? p_filesz h)
  then elf_memcpy (p_vaddr h) (take (Z.to_nat (p_filesz h)) (drop (Z.to_nat (p_offset h)) data)) m else m.

(** The [k] segments from the [i]-th on. *)
Fixpoint exec_segments (data : list Z) (eh : elf64_hdr) (k : nat) (i : Z) (m : mem) : mem :=
  match k with
  | O => m
  | S k' => exec_segments data eh k' (i + 1) (match exec_phdr data eh i with Some h => exec_segment data h m | None => m end)
  end.

(** The offsets in the image fit [loff_t], and [i * e_phentsize] an [int]. *)
Definition offsets_ok (data : list Z) : Prop :=
  ∀ eh, exec_header data = Some eh → eh_phoff eh < 2 ^ 61 ∧ eh_phnum eh * eh_phentsize eh < 2 ^ 31 ∧
    ∀ i h, 0 ≤ i < eh_phnum eh → exec_phdr data eh i = Some h → p_offset h < 2 ^ 62.

(** The memory that loading [data] writes to is none of the ranges [K]. *)
Definition segments_apart (K : list (Z * Z)) (data : list Z) : Prop :=
  ∀ eh i h, exec_header data = Some eh → 0 ≤ i < eh_phnum eh → exec_phdr data eh i = Some h → p_type h = PT_LOAD →
    apart K (p_vaddr h) (p_filesz h) = true.

Lemma rd_take n off k data :
  0 ≤ off → off + Z.of_nat n ≤ Z.of_nat k → (k ≤ length data)%nat → rd n off (take k data) = rd n off data.
Proof.
  intros Ho Hk Hl. rewrite !rd_some by (rewrite ?length_take; lia). do 2 f_equal. rewrite !take_drop_commute, take_take. do 2 f_equal. lia.
Qed.

Lemma read_ph_ok b : Forall is_byte b → length b = 56%nat → ∃ h, read_ph b = Some h ∧ 0 ≤ p_offset h ∧ 0 ≤ p_filesz h.
Proof.
  intros Hb Hl. assert (∀ n off, 0 ≤ off → off + Z.of_nat n ≤ 56 → ∃ v, rd n off b = Some v ∧ 0 ≤ v) as Hrd.
  { intros n off H1 H2. rewrite rd_some by lia. eexists. split; [done|]. by apply le_bound, Forall_take, Forall_drop. }
  destruct (Hrd 4%nat 0) as (? & E1 & _), (Hrd 4%nat 4) as (? & E2 & _), (Hrd 8%nat 8) as (? & E3 & ?),
    (Hrd 8%nat 16) as (? & E4 & _), (Hrd 8%nat 32) as (? & E5 & ?), (Hrd 8%nat 40) as (? & E6 & _); try lia.
  eexists. unfold read_ph. rewrite E1. cbn. rewrite E2. cbn. rewrite E3. cbn. rewrite E4. cbn. rewrite E5. cbn. rewrite E6. cbn. done.
Qed.

Lemma exec_header_bounds data eh :
  Forall is_byte data → exec_header data = Some eh → 0 ≤ eh_phoff eh ∧ 0 ≤ eh_phentsize eh ∧ 0 ≤ eh_phnum eh.
Proof.
  intros Hb. unfold exec_header. destruct (_ <? _); [done|]. intros (m & _ & E)%bind_Some. apply bind_Some in E as (mc & _ & E). destruct (_ || _); [done|].
  apply bind_Some in E as (pn & E1%rd_bound & E); [|done]. apply bind_Some in E as (po & E2%rd_bound & E); [|done].
  apply bind_Some in E as (pe & E3%rd_bound & E); [|done]. apply bind_Some in E as (en & _ & [= <-]). cbn. lia.
Qed.

(** The fields of the header, read from its copy. *)
Lemma exec_header_reads data :
  (64 ≤ length data)%nat →
  ∃ magic machine phnum phoff phentsize entry, let hdr := take 64 data in
    rd 4 0 hdr = Some magic ∧ e_machine hdr = Some machine ∧ e_phnum hdr = Some phnum ∧ e_phoff hdr = Some phoff ∧
    e_phentsize hdr = Some phentsize ∧ e_entry hdr = Some entry ∧
    exec_header data = if negb (magic =? EXEC_MAGIC) || negb (machine =? EM_AARCH64) then None else Some (mk_ehdr phoff phentsize phnum entry).
Proof.
  intros Hl. unfold exec_header, e_machine, e_phnum, e_phoff, e_phentsize, e_entry. destruct (Z.ltb_spec (Z.of_nat (length data)) 64); [lia|].
  cbn zeta. rewrite !rd_take, !rd_some by lia. do 6 eexists. repeat (split; [reflexivity|]). reflexivity.
Qed.

Section Exec.
Context {H : Type} `{!KernelHeap H}.
Variable kernel_pgd early_tables : Z.
Variable image : list (Z * Z).
Implicit Types (x : exec H) (v : vmm pmm).

Definition with_x_vfs (s : vfs H) x : exec H := mk_exec s (x_sched x) (x_mem x).
Definition with_x_vm v x : exec H := mk_exec (x_vfs x) (with_vm v (x_sched x)) (x_mem x).
Definition with_x_mem (m : mem) x : exec H := mk_exec (x_vfs x) (x_sched x) m.

(** Where the kernel keeps its own data; the region of the heap does not change
    while the heap is used. *)
Definition kernel_memory x : list (Z * Z) := kh_region (fs_heap (v_fs (x_vfs x))) :: image.

(** [k] pages from [va]; whether all pages could be allocated.  The result of
    vmm_map_page is not looked at. *)
Fixpoint map_pages (k : nat) (va flags : Z) v : option (vmm pmm * bool) :=
  match k with
  | O => Some (v, true)
  | S k' =>
      '(ps, paddr) ← pa_alloc (pages v);
      let v := with_pages ps v in
      if paddr =? 0 then Some (v, false)
      else '(v, _) ← vmm_map_page kernel_pgd early_tables va paddr flags v; map_pages k' (u64 (va + 4096)) flags v
  end.

(** The stack: a page that cannot be allocated is left out. *)
Fixpoint map_stack (k : nat) (va : Z) v : option (vmm pmm) :=
  match k with
  | O => Some v
  | S k' =>
      '(ps, paddr) ← pa_alloc (pages v);
      let v := with_pages ps v in
      if paddr =? 0 then map_stack k' (u64 (va + 4096)) v
      else '(v, _) ← vmm_map_page kernel_pgd early_tables va paddr (Z.lor (Z.lor VM_READ VM_WRITE) VM_USER) v; map_stack k' (u64 (va + 4096)) v
  end.

(** [file->f_pos = pos; vfs_read(file, ...)] *)
Definition read_at (f pos count : Z) (s : vfs H) : option (vfs H * list Z * Z) :=
  _ ← files s !! f; vfs_read (Some f) true count (upd_file f (set_pos (i64 pos)) s).

(** The program headers from [i] on; whether the loop ran to its end.  [K] is
    the memory of the kernel. *)
Fixpoint load_phdrs (K : list (Z * Z)) (k : nat) (i f e_phoff e_phentsize : Z) x : option (exec H * bool) :=
  match k with
  | O => Some (x, true)
  | S k' =>
      '(s, b, n) ← read_at f (e_phoff + i32 (i * e_phentsize)) 56 (x_vfs x);
      let x := with_x_vfs s x in
      if n <? 56 then load_phdrs K k' (i + 1) f e_phoff e_phentsize x
      else
        h ← read_ph b;
        if negb (p_type h =? PT_LOAD) then load_phdrs K k' (i + 1) f e_phoff e_phentsize x
        else
          '(v, ok) ← map_pages (Z.to_nat (seg_pages h)) (page_down (p_vaddr h)) (seg_flags h) (vm (x_sched x));
          let x := with_x_vm v x in
          if negb ok then Some (x, false)
          else if 0 <? p_filesz h then
            '(s, b, _) ← read_at f (p_offset h) (p_filesz h) (x_vfs x);
            if negb (apart K (p_vaddr h) (Z.of_nat (length b))) then None
            else load_phdrs K k' (i + 1) f e_phoff e_phentsize (with_x_mem (elf_memcpy (p_vaddr h) b (x_mem x)) (with_x_vfs s x))
          else load_phdrs K k' (i + 1) f e_phoff e_phentsize x
  end.

Definition close_with (f : Z) (ret : Z) (entry : option Z) x : option (exec H * Z * option Z) :=
  '(s, _) ← vfs_close (Some f) (x_vfs x); Some (with_x_vfs s x, ret, entry).

(** The result and, when it is 0, the entry point. *)
Definition load_elf_binary (K : list (Z * Z)) (path : list Z) x : option (exec H * Z * option Z) :=
  '(s, r) ← vfs_open (Some path) 0 0 (x_vfs x);
  let x := with_x_vfs s x in
  match r with
  | None => Some (x, -1, None)
  | Some f =>
      '(s, hdr, n) ← vfs_read (Some f) true 64 (x_vfs x);
      let x := with_x_vfs s x in
      if n <? 64 then close_with f (-1) None x
      else
        magic ← rd 4 0 hdr; machine ← e_machine hdr;
        if negb (magic =? EXEC_MAGIC) || negb (machine =? EM_AARCH64) then close_with f (-1) None x
        else
          phnum ← e_phnum hdr; phoff ← e_phoff hdr; phentsize ← e_phentsize hdr; entry ← e_entry hdr;
          '(x, ok) ← load_phdrs K (Z.to_nat phnum) 0 f phoff phentsize x;
          if (ok : bool) then close_with f 0 (Some entry) x else close_with f (-1) None x
  end.

Definition setup_user_stack (K : list (Z * Z)) (argc : Z) x : option (exec H * Z) :=
  v ← map_stack (Z.to_nat (USER_STACK_SIZE / 4096)) (USER_STACK_TOP - USER_STACK_SIZE) (vm (x_sched x));
  let sp := USER_STACK_TOP - 16 in
  if negb (apart K sp 8) then None
  else Some (with_x_mem (poke64 sp argc (x_mem x)) (with_x_vm v x), sp).

(** What follows the last slash. *)
Fixpoint base_name (path name : list Z) : list Z :=
  match path with [] => name | c :: path' => base_name path' (if c =? SLASH then path' else name) end.

(** The name is written over the old one, without an end. *)
Definition exec_task (name : list Z) (entry sp : Z) (t : task) : task :=
  let i := t_info t in
  let n := take (Z.to_nat (TASK_COMM_LEN - 1)) name in
  set_info (Sched.mk_info (ti_prio i) (ti_static_prio i) (ti_nice i) (ti_pid i) (ti_tgid i) (ti_uid i) (ti_gid i)
    (n ++ drop (length n) (ti_comm i)) (mk_ctx (ctx_x19 (ti_cpu_context i)) sp entry) (ti_stack i) (ti_stack_size i) (ti_parent i)) t.

(** [if (!current_task->mm)]: a new address space, and whether there is one. *)
Definition exec_mm x : option (exec H * bool) :=
  let cur := get_current (x_sched x) in
  match t_mm (task_at (x_sched x) cur) with
  | Some _ => Some (x, true)
  | None =>
      '(v, m) ← vmm_create_address_space kernel_pgd early_tables (vm (x_sched x));
      let s := with_vm v (x_sched x) in
      Some (match m with
            | None => (mk_exec (x_vfs x) s (x_mem x), false)
            | Some m => (mk_exec (x_vfs x) (Sched.upd cur (set_mm (Some m) (Some m)) s) (x_mem x), true)
            end)
  end.

(** What follows a load: the stack, the name and the context. *)
Definition exec_start (K : list (Z * Z)) (filename : list Z) (argc cur e : Z) x : option (exec H * Z) :=
  '(x, sp) ← setup_user_stack K argc x;
  Some (mk_exec (x_vfs x) (Sched.upd cur (exec_task (base_name filename filename) e sp) (x_sched x)) (x_mem x), 0).

Definition do_execve (filename : list Z) (argc : Z) x : option (exec H * Z) :=
  let cur := get_current (x_sched x) in
  let K := kernel_memory x in
  '(x, ok) ← exec_mm x;
  if negb (ok : bool) then Some (x, -1)
  else
    '(x, ret, entry) ← load_elf_binary K filename x;
    if ret <? 0 then Some (x, -1)
    else e ← entry; exec_start K filename argc cur e x.

(** ** The page tables *)

(** What mapping pages keeps: the address spaces, the user half of every one of
    them, and the translations that the kernel table already has. *)
Record vm_frame v v' (roots : gset Z) : Prop := {
  vf_inv : ∃ P, vmm_inv kernel_pgd early_tables v' P roots;
  vf_spaces : same_spaces v v';
  vf_user : user_same kernel_pgd v v' roots;
  vf_kernel va e : pte_of (tables v) kernel_pgd va = Some e → pte_of (tables v') kernel_pgd va = Some e
}.

Lemma vm_frame_refl v P roots : vmm_inv kernel_pgd early_tables v P roots → vm_frame v v roots.
Proof. intros Hv. split; [eauto|done..]. Qed.

Lemma vm_frame_trans v1 v2 v3 roots : vm_frame v1 v2 roots → vm_frame v2 v3 roots → vm_frame v1 v3 roots.
Proof.
  intros [_ (S1 & S2 & S3 & S4) U1 K1] [I2 (T1 & T2 & T3 & T4) U2 K2].
  split; [done|repeat split; congruence|by eapply user_same_trans|auto].
Qed.

Lemma map_page_spaces va pa fl v P roots v' r :
  vmm_inv kernel_pgd early_tables v P roots → vmm_map_page kernel_pgd early_tables va pa fl v = Some (v', r) → same_spaces v v'.
Proof.
  intros (role & Hinv & _) E. pose proof (tr_root _ _ _ _ (ti_tree _ _ _ _ _ _ Hinv) _ (ti_kernel _ _ _ _ _ _ Hinv)) as Hk.
  destruct (walk_loop_alloc kernel_pgd early_tables 3 v P roots role kernel_pgd _ _ va Hinv Hk eq_refl) as (s1 & o & E1 & Hs & _).
  unfold vmm_map_page, walk_page_table in E. change (Z.of_nat (length (@nil Z))) with 0 in E1. rewrite E1 in E. cbn [mbind option_bind] in E.
  destruct o as [l3|]; [|by injection E as <- _]. destruct (pte_is_valid _); by injection E as <- _.
Qed.

(** One page: allocated, and mapped unless the table already has it. *)
Lemma page_ok va fl v P roots :
  vmm_inv kernel_pgd early_tables v P roots →
  ∃ ps p, pa_alloc (pages v) = Some (ps, p) ∧
    if p =? 0 then vm_frame v (with_pages ps v) roots
    else ∃ v' r, vmm_map_page kernel_pgd early_tables va p fl (with_pages ps v) = Some (v', r) ∧ vm_frame v v' roots.
Proof.
  intros Hinv. pose proof Hinv as (role & Ht & _). destruct (pa_alloc_ok (pages v) P (ti_pages _ _ _ _ _ _ Ht)) as (ps & p & E & Hp).
  exists ps, p. split; [done|]. destruct Hp as [(-> & Hp)|(Hp0 & _ & _ & Hp)].
  { cbn [Z.eqb]. split; [exists P; by eapply vmm_inv_pages|done..]. }
  destruct (Z.eqb_spec p 0); [lia|]. pose proof (vmm_inv_pages _ _ v P ({[p]} ∪ P) roots ps Hinv Hp ltac:(apply union_subseteq_r)) as Hinv1.
  destruct (map_page_ok kernel_pgd early_tables (with_pages ps v) _ roots va p fl Hinv1) as (v' & r & P' & E1 & Hinv' & _ & Hor).
  exists v', r. split; [done|]. pose proof (map_page_spaces _ _ _ _ _ _ _ _ Hinv1 E1) as Hs.
  split; [eauto|done| |].
  - destruct Hor as [(_ & _ & Hset)|(_ & Hsame)].
    + intros r0 va' Hr Hk Hi. by apply (pte_set_user _ _ _ _ _ _ _ _ Hinv1 Hset).
    + intros r0 va' Hr _ _. by apply Hsame.
  - intros va' e He. pose proof (ti_kernel _ _ _ _ _ _ Ht) as Hkr. destruct Hor as [(_ & Hnone & _ & Hother)|(_ & Hsame)]; [|by rewrite Hsame].
    rewrite Hother; [done|done|]. left. intros Hsp. rewrite (pte_of_same _ _ _ _ Hsp) in He. cbn [tables with_pages] in Hnone. congruence.
Qed.

Lemma map_pages_ok k va fl v P roots :
  vmm_inv kernel_pgd early_tables v P roots → ∃ v' ok, map_pages k va fl v = Some (v', ok) ∧ vm_frame v v' roots.
Proof.
  revert va v P. induction k as [|k IH]; intros va v P Hinv; cbn [map_pages]; [eauto using vm_frame_refl|].
  destruct (page_ok va fl v P roots Hinv) as (ps & p & -> & Hp). cbn [mbind option_bind]. destruct (p =? 0); [eauto|].
  destruct Hp as (v1 & r & -> & Hf). cbn [mbind option_bind]. destruct (vf_inv _ _ _ Hf) as [P1 Hinv1].
  destruct (IH (u64 (va + 4096)) v1 P1 Hinv1) as (v' & ok & -> & Hf'). eauto using vm_frame_trans.
Qed.

Lemma map_stack_ok k va v P roots :
  vmm_inv kernel_pgd early_tables v P roots → ∃ v', map_stack k va v = Some v' ∧ vm_frame v v' roots.
Proof.
  revert va v P. induction k as [|k IH]; intros va v P Hinv; cbn [map_stack]; [eauto using vm_frame_refl|].
  destruct (page_ok va (Z.lor (Z.lor VM_READ VM_WRITE) VM_USER) v P roots Hinv) as (ps & p & -> & Hp). cbn [mbind option_bind].
  assert (∀ v1, vm_frame v v1 roots → ∃ v', map_stack k (u64 (va + 4096)) v1 = Some v' ∧ vm_frame v v' roots) as Hrest.
  { intros v1 Hf. destruct (vf_inv _ _ _ Hf) as [P1 Hinv1]. destruct (IH (u64 (va + 4096)) v1 P1 Hinv1) as (v' & -> & Hf'). eauto using vm_frame_trans. }
  destruct (p =? 0); [by apply Hrest|]. destruct Hp as (v1 & r & -> & Hf). cbn [mbind option_bind]. by apply Hrest.
Qed.

(** ** The file while it is read *)

(** What the call leaves of the VFS. *)
Record vfs_frame (s s' : vfs H) : Prop := {
  xf_wf : ∃ C K M, vfs_wf s' C K M;
  xf_paths : unchanged s s';
  xf_mounts : mounts s' = mounts s;
  xf_files : files s' = files s
}.

(** [s] is [s0] with the file [f] open besides, at [pos]. *)
Record reading (path : list (list Z)) (f : Z) (s0 s : vfs H) (pos : Z) : Prop := {
  rg_open : ∃ C K M child w c y, vfs_wf s C K M ∧ open_file s path f child w c y pos;
  rg_paths : unchanged s0 s;
  rg_mounts : mounts s = mounts s0;
  rg_files : delete f (files s) = files s0
}.

Lemma reading_read path f s0 s pos data count :
  reading path f s0 s pos → Forall name_ok path → path ≠ [] → file_at (v_fs s0) path = Some (false, data) → 0 ≤ pos < 2 ^ 62 → 0 ≤ count →
  let b := take (Z.to_nat count) (drop (Z.to_nat pos) data) in
  ∃ s', vfs_read (Some f) true count s = Some (s', b, Z.of_nat (length b)) ∧ reading path f s0 s' (pos + Z.of_nat (length b)).
Proof.
  intros [(C & K & M & child & w & c & y & W & Hof) Hu Hm Hf] Hpath Hne Hdata Hpos Hcount b.
  destruct (read_open_ok s C K M path f child w c y pos count data W Hof Hpath Hne) as (s' & E & W' & Ev & Em & Ef & _ & Hof'); [by rewrite Hu|done|done|].
  exists s'. split; [done|]. split; [eauto 10| |congruence..]. intros ms Hms. rewrite Ev. by apply Hu.
Qed.

Lemma reading_seek path f s0 s pos p : reading path f s0 s pos → is_Some (files s !! f) ∧ reading path f s0 (upd_file f (set_pos p) s) p.
Proof.
  intros [(C & K & M & child & w & c & y & W & [O1 O2 O3 O4 (fl & md & Hfd) O6 O7]) Hu Hm Hf]. split; [by eexists|]. rewrite (upd_file_insert _ _ _ _ Hfd).
  split; [|done|done|cbn; by rewrite delete_insert_eq].
  exists C, K, M, child, w, c, y. split; [apply wf_file; [done|by eapply (vw_file _ _ _ _ W)]|]. split; try done. exists fl, md. cbn. by rewrite lookup_insert_eq.
Qed.

Lemma read_at_ok path f s0 s pos data p count :
  reading path f s0 s pos → Forall name_ok path → path ≠ [] → file_at (v_fs s0) path = Some (false, data) → 0 ≤ p < 2 ^ 62 → 0 ≤ count →
  let b := take (Z.to_nat count) (drop (Z.to_nat p) data) in
  ∃ s' pos', read_at f p count s = Some (s', b, Z.of_nat (length b)) ∧ reading path f s0 s' pos'.
Proof.
  intros Hr Hpath Hne Hdata Hp Hcount b. unfold read_at. rewrite (i64_small p) by lia. destruct (reading_seek _ _ _ _ _ p Hr) as [[y ->] Hr1]. cbn [mbind option_bind].
  destruct (reading_read _ _ _ _ _ data count Hr1) as (s' & E & Hr'); try done. eauto.
Qed.

Lemma reading_close path f s0 s pos : reading path f s0 s pos → ∃ s', vfs_close (Some f) s = Some (s', 0) ∧ vfs_frame s0 s'.
Proof.
  intros [(C & K & M & child & w & c & y & W & Hof) Hu Hm Hf]. destruct (close_open_ok _ _ _ _ _ _ _ _ _ _ _ W Hof) as (s' & E & W' & Hs & Em & Ef & _).
  exists s'. split; [done|]. split; [eauto| |congruence..]. eapply unchanged_trans; [exact Hu|]. by apply same_nodes_unchanged, same_tree_nodes.
Qed.

(** Opening gives such a state, or fails for lack of memory. *)
Lemma reading_open s C K M ns n l data :
  vfs_wf s C K M → Forall name_ok ns → name_ok n → plain (path_of (ns ++ [n])) s → find_mount_by_target (path_of (ns ++ [n])) s = None →
  file_at (v_fs s) ns = Some (true, l) → regular s (ns ++ [n]) → file_at (v_fs s) (ns ++ [n]) = Some (false, data) →
  ∃ s' o, vfs_open (Some (path_of (ns ++ [n]))) 0 0 s = Some (s', o) ∧
    match o with Some f => reading (ns ++ [n]) f s s' 0 | None => vfs_frame s s' end.
Proof.
  intros Hwf Hns Hn Hpl Hnm Hdir Hreg Hdata. destruct (open_ok s C K M ns n 0 0 l) as (s' & o & C1 & K1 & M1 & E & W & Em & _ & _ & Hspec); try done.
  exists s', o. split; [done|]. destruct o as [f|].
  - destruct Hspec as (_ & Ef & _ & (child & w & c & y & _ & Hof & _) & Hu). rewrite Hdata in Hu. split; [eauto 10| |done..].
    intros ms Hms. rewrite Hu by done. by case_decide; [subst ms|].
  - destruct Hspec as [Ef [Hu|[[=] _]]]. split; eauto.
Qed.

(** ** The program headers *)

(** What a part of the call keeps of the tasks: all but the page tables. *)
Definition maps_only (roots : gset Z) x x' : Prop :=
  ∃ v, x_sched x' = with_vm v (x_sched x) ∧ vm_frame (vm (x_sched x)) v roots.

Lemma maps_only_refl roots P x x' : vmm_inv kernel_pgd early_tables (vm (x_sched x)) P roots → x_sched x' = x_sched x → maps_only roots x x'.
Proof. intros Hv E. unfold maps_only. rewrite E. exists (vm (x_sched x)). split; [by destruct (x_sched x)|by eapply vm_frame_refl]. Qed.

Lemma maps_only_trans roots x1 x2 x3 : maps_only roots x1 x2 → maps_only roots x2 x3 → maps_only roots x1 x3.
Proof.
  intros (v & E & F) (v' & E' & F'). exists v'. rewrite E in E', F'. split; [by rewrite E'|by eapply vm_frame_trans].
Qed.

Lemma load_phdrs_ok K path f s0 data eh roots k i x pos P :
  segments_apart K data →
  reading path f s0 (x_vfs x) pos → Forall name_ok path → path ≠ [] → file_at (v_fs s0) path = Some (false, data) →
  Forall is_byte data → offsets_ok data → exec_header data = Some eh → 0 ≤ i → i + Z.of_nat k = eh_phnum eh →
  vmm_inv kernel_pgd early_tables (vm (x_sched x)) P roots →
  ∃ x' ok pos', load_phdrs K k i f (eh_phoff eh) (eh_phentsize eh) x = Some (x', ok) ∧ reading path f s0 (x_vfs x') pos' ∧ maps_only roots x x' ∧
    ∃ j, (j ≤ k)%nat ∧ (ok = true → j = k) ∧ x_mem x' = exec_segments data eh j i (x_mem x).
Proof.
  intros Hap Hr Hpath Hne Hdata Hbytes Hoff Heh. destruct (Hoff eh Heh) as (Ho1 & Ho2 & Ho3). destruct (exec_header_bounds _ _ Hbytes Heh) as (B1 & B2 & B3).
  revert i x pos P Hr. induction k as [|k IH]; intros i x pos P Hr Hi Hk Hv; cbn [load_phdrs].
  { exists x, true, pos. do 2 (split; [done|]). split; [by eapply maps_only_refl|]. exists O. done. }
  assert (0 ≤ i * eh_phentsize eh < 2 ^ 31) as Hie by nia. rewrite (i32_small (i * _)) by lia.
  destruct (read_at_ok path f s0 (x_vfs x) pos data (eh_phoff eh + i * eh_phentsize eh) 56) as (s1 & pos1 & -> & Hr1); try done; [lia|]. cbn [mbind option_bind].
  change (Z.to_nat 56) with 56%nat in *. set (b := take 56 _) in *.
  assert (∀ x1 pos1 m, reading path f s0 (x_vfs x1) pos1 → maps_only roots x x1 → x_mem x1 = m →
    m = match exec_phdr data eh i with Some h => exec_segment data h (x_mem x) | None => x_mem x end →
    ∃ x' ok pos', load_phdrs K k (i + 1) f (eh_phoff eh) (eh_phentsize eh) x1 = Some (x', ok) ∧ reading path f s0 (x_vfs x') pos' ∧ maps_only roots x x' ∧
      ∃ j, (j ≤ S k)%nat ∧ (ok = true → j = S k) ∧ x_mem x' = exec_segments data eh j i (x_mem x)) as Hnext.
  { intros x1 p1 m R1 Hm1 Em Hm. pose proof Hm1 as (v1 & E1 & F1). destruct (vf_inv _ _ _ F1) as [P1 I1].
    destruct (IH (i + 1) x1 p1 P1 R1) as (x' & ok & pos' & -> & R' & Hm' & j & Hj & Hjk & Ej); [lia|lia|by rewrite E1|].
    exists x', ok, pos'. do 2 (split; [done|]). split; [by eapply maps_only_trans|]. exists (S j). split; [lia|]. split; [intros Hok; by rewrite Hjk|].
    cbn [exec_segments]. by rewrite Ej, Em, Hm. }
  destruct (Z.ltb_spec (Z.of_nat (length b)) 56) as [Hlt|Hge].
  { eapply Hnext; [done|by eapply (maps_only_refl _ P)|done|]. unfold exec_phdr. fold b. by destruct (Z.ltb_spec (Z.of_nat (length b)) 56); [|lia]. }
  assert (Forall is_byte b) as Hbb by by apply Forall_take, Forall_drop.
  destruct (read_ph_ok b) as (h & Eh & Hoff0 & Hfs0); [done|unfold b in *; rewrite length_take in *; lia|].
  assert (exec_phdr data eh i = Some h) as Eph by (unfold exec_phdr; fold b; by destruct (Z.ltb_spec (Z.of_nat (length b)) 56); [lia|]).
  rewrite Eh. cbn [mbind option_bind]. rewrite Eph in Hnext.
  destruct (Z.eqb_spec (p_type h) PT_LOAD) as [Ety|Ety]; cbn [negb].
  2:{ eapply Hnext; [done|by eapply (maps_only_refl _ P)|done|]. unfold exec_segment. by destruct (Z.eqb_spec (p_type h) PT_LOAD). }
  destruct (map_pages_ok (Z.to_nat (seg_pages h)) (page_down (p_vaddr h)) (seg_flags h) (vm (x_sched x)) P roots Hv) as (v1 & ok & E1 & F1).
  cbn [x_sched with_x_vfs]. rewrite E1. cbn [mbind option_bind]. set (x1 := with_x_vm v1 _). assert (maps_only roots x x1) as Hm1 by (by exists v1).
  destruct ok; cbn [negb].
  2:{ exists x1, false, pos1. do 3 (split; [done|]). exists O. split; [lia|]. done. }
  destruct (Z.ltb_spec 0 (p_filesz h)) as [Hfs|Hfs].
  - destruct (read_at_ok path f s0 s1 pos1 data (p_offset h) (p_filesz h)) as (s2 & pos2 & E2 & Hr2); try done. { split; [done|]. apply (Ho3 i); [lia|done]. }
    change (x_vfs x1) with s1. rewrite E2. cbn [mbind option_bind].
    rewrite (apart_le _ _ _ _ (Hap eh i h Heh ltac:(lia) Eph Ety)) by (rewrite length_take; lia). cbn [negb]. eapply Hnext; [exact Hr2|by exists v1|done|].
    unfold exec_segment. rewrite Ety, Z.eqb_refl. by destruct (Z.ltb_spec 0 (p_filesz h)); [|lia].
  - eapply Hnext; [exact Hr1|done|done|]. unfold exec_segment. by destruct (Z.ltb_spec 0 (p_filesz h)); [lia|rewrite andb_false_r].
Qed.

(** The memory after a load that gave up: the header was no good and nothing
    was written, or some segments were. *)
Definition partly_loaded (data : list Z) (m m' : mem) : Prop :=
  match exec_header data with
  | None => m' = m
  | Some eh => ∃ j, (j ≤ Z.to_nat (eh_phnum eh))%nat ∧ m' = exec_segments data eh j 0 m
  end.

Lemma partly_loaded_none data m : partly_loaded data m m.
Proof. unfold partly_loaded. destruct (exec_header data); [|done]. exists O. split; [lia|done]. Qed.

Lemma close_with_ok path f s0 pos ret entry x :
  reading path f s0 (x_vfs x) pos → ∃ s', close_with f ret entry x = Some (with_x_vfs s' x, ret, entry) ∧ vfs_frame s0 s'.
Proof. intros (s' & E & Hf)%reading_close. unfold close_with. rewrite E. cbn. eauto. Qed.

(** The outcome of loading [data]. *)
Record load_spec (data : list Z) (roots : gset Z) x x' (ret : Z) (entry : option Z) : Prop := {
  ls_vfs : vfs_frame (x_vfs x) (x_vfs x');
  ls_maps : maps_only roots x x';
  ls_result :
    (ret = -1 ∧ entry = None ∧ partly_loaded data (x_mem x) (x_mem x')) ∨
    (ret = 0 ∧ ∃ eh, exec_header data = Some eh ∧ entry = Some (eh_entry eh) ∧
       x_mem x' = exec_segments data eh (Z.to_nat (eh_phnum eh)) 0 (x_mem x))
}.

(** Giving up after the file is open. *)
Lemma load_fails path f data roots pos x x1 :
  reading path f (x_vfs x) (x_vfs x1) pos → maps_only roots x x1 → partly_loaded data (x_mem x) (x_mem x1) →
  ∃ x' ret entry, close_with f (-1) None x1 = Some (x', ret, entry) ∧ load_spec data roots x x' ret entry.
Proof.
  intros Hr Hm Hp. destruct (close_with_ok _ f _ _ (-1) None x1 Hr) as (s & -> & Hf).
  exists (with_x_vfs s x1), (-1), None. split; [done|]. split; [done|done|]. by left.
Qed.

Lemma load_elf_ok A x C K M ns n l data P roots :
  segments_apart A data →
  vfs_wf (x_vfs x) C K M → Forall name_ok ns → name_ok n → plain (path_of (ns ++ [n])) (x_vfs x) → find_mount_by_target (path_of (ns ++ [n])) (x_vfs x) = None →
  file_at (v_fs (x_vfs x)) ns = Some (true, l) → regular (x_vfs x) (ns ++ [n]) → file_at (v_fs (x_vfs x)) (ns ++ [n]) = Some (false, data) →
  Forall is_byte data → offsets_ok data → vmm_inv kernel_pgd early_tables (vm (x_sched x)) P roots →
  ∃ x' ret entry, load_elf_binary A (path_of (ns ++ [n])) x = Some (x', ret, entry) ∧ load_spec data roots x x' ret entry.
Proof.
  intros Hap Hwf Hns Hn Hpl Hnm Hdir Hreg Hdata Hbytes Hoff Hv. unfold load_elf_binary.
  assert (Forall name_ok (ns ++ [n])) as Hpath by (apply Forall_app; split; [done|by constructor]). assert (ns ++ [n] ≠ []) as Hne by (by destruct ns).
  destruct (reading_open (x_vfs x) C K M ns n l data) as (s1 & o & -> & Ho); try done. cbn [mbind option_bind]. destruct o as [f|].
  2:{ do 3 eexists. split; [done|]. split; [done|by eapply maps_only_refl|]. left. eauto using partly_loaded_none. }
  destruct (reading_read _ _ _ _ _ data 64 Ho) as (s2 & E2 & Hr2); try done. cbn [x_vfs with_x_vfs]. rewrite E2. cbn [mbind option_bind].
  change (Z.to_nat 0) with O in *. change (Z.to_nat 64) with 64%nat in *. rewrite drop_0 in *.
  set (x2 := with_x_vfs s2 (with_x_vfs s1 x)). assert (maps_only roots x x2) as Hm2 by (by eapply maps_only_refl).
  pose proof (load_fails _ f data roots _ x x2 Hr2 Hm2 (partly_loaded_none _ _)) as Hbad.
  destruct (Z.ltb_spec (Z.of_nat (length (take 64 data))) 64) as [_|Hge]; [done|]. rewrite length_take in Hge.
  destruct (exec_header_reads data) as (mg & mc & pn & po & pe & en & E3 & E4 & E5 & E6 & E7 & E8 & Eh); [lia|]. rewrite E3. cbn [mbind option_bind]. rewrite E4. cbn [mbind option_bind].
  destruct (_ || _); [done|]. rewrite E5. cbn [mbind option_bind]. rewrite E6. cbn [mbind option_bind]. rewrite E7. cbn [mbind option_bind]. rewrite E8. cbn [mbind option_bind].
  pose proof (exec_header_bounds _ _ Hbytes Eh) as (_ & _ & Hpn). cbn [eh_phnum] in Hpn.
  destruct (load_phdrs_ok A _ f (x_vfs x) data (mk_ehdr po pe pn en) roots (Z.to_nat pn) 0 x2 _ P Hap Hr2) as (x3 & ok & pos & E9 & Hr3 & Hm3 & j & Hj & Hjk & Ej); try done; [cbn; lia|].
  cbn [eh_phoff eh_phentsize] in E9. rewrite E9. cbn [mbind option_bind]. pose proof (maps_only_trans _ _ _ _ Hm2 Hm3) as Hm. destruct ok.
  - destruct (close_with_ok _ f _ _ 0 (Some en) x3 Hr3) as (s4 & -> & Hf). do 3 eexists. split; [done|]. split; [done|done|]. right. split; [done|].
    exists (mk_ehdr po pe pn en). do 2 (split; [done|]). cbn [eh_phnum x_mem with_x_vfs]. rewrite Ej, Hjk by done. done.
  - eapply load_fails; [done|done|]. unfold partly_loaded. rewrite Eh. exists j. split; [done|exact Ej].
Qed.

Lemma setup_user_stack_ok A argc x P roots :
  apart A (USER_STACK_TOP - 16) 8 = true →
  vmm_inv kernel_pgd early_tables (vm (x_sched x)) P roots →
  ∃ x', setup_user_stack A argc x = Some (x', USER_STACK_TOP - 16) ∧ x_vfs x' = x_vfs x ∧ maps_only roots x x' ∧
    x_mem x' = poke64 (USER_STACK_TOP - 16) argc (x_mem x).
Proof.
  intros Hap Hv. unfold setup_user_stack. destruct (map_stack_ok (Z.to_nat (USER_STACK_SIZE / 4096)) (USER_STACK_TOP - USER_STACK_SIZE) _ P roots Hv) as (v & -> & Hf).
  cbn [mbind option_bind]. rewrite Hap. eexists. split; [done|]. split; [done|]. split; [by exists v|done].
Qed.

(** ** The address space and the task *)

(** What the call keeps of the tasks and of the page tables: the scheduler's
    invariant, every other task, the user half of every address space there
    was, and the kernel's translations. *)
Record tasks_kept (q : list Z) (roots : gset Z) x x' : Prop := {
  tk_inv : sched_inv kernel_pgd early_tables (x_sched x') q;
  tk_current : get_current (x_sched x') = get_current (x_sched x);
  tk_others t : t ≠ get_current (x_sched x) → task_at (x_sched x') t = task_at (x_sched x) t;
  tk_user : user_same kernel_pgd (vm (x_sched x)) (vm (x_sched x')) roots;
  tk_kernel va e : pte_of (tables (vm (x_sched x))) kernel_pgd va = Some e → pte_of (tables (vm (x_sched x'))) kernel_pgd va = Some e
}.

Lemma tasks_kept_trans q roots roots' x1 x2 x3 :
  roots ⊆ roots' → tasks_kept q roots x1 x2 → tasks_kept q roots' x2 x3 → tasks_kept q roots x1 x3.
Proof.
  intros Hsub [_ C1 O1 U1 K1] [I2 C2 O2 U2 K2]. split; [done|congruence| | |auto].
  - intros t Ht. rewrite O2 by congruence. by apply O1.
  - intros r va Hr Hk Hi. rewrite U2 by (done || by apply Hsub). by apply U1.
Qed.

Lemma maps_only_kept q roots x x' :
  sched_inv kernel_pgd early_tables (x_sched x) q → maps_only roots x x' → tasks_kept q roots x x'.
Proof.
  intros Hinv (v & E & [(P & HI) (Hs & _) Hu Hk]). split; rewrite ?E; try done.
  apply inv_vm; [done|cbn; intros m; by rewrite Hs|eauto].
Qed.

(** The address space of [m] translates no user address. *)
Definition space_empty v (roots : gset Z) (m : Z) : Prop :=
  ∃ a pgd, mm_pool v !! m = Some a ∧ mm_pgd a = Some pgd ∧ pgd ∈ roots ∧ pgd ≠ kernel_pgd ∧
    ∀ va, pte_index va 0 < 256 → pte_of (tables v) pgd va = None.

Lemma space_empty_kept v v' roots m : vm_frame v v' roots → space_empty v roots m → space_empty v' roots m.
Proof.
  intros [_ (Hs & _) Hu _] (a & pgd & Ha & Hp & Hr & Hk & He). exists a, pgd. rewrite Hs. do 4 (split; [done|]).
  intros va Hva. rewrite Hu by done. by apply He.
Qed.

Lemma exec_mm_ok x q P roots :
  sched_inv kernel_pgd early_tables (x_sched x) q → vmm_inv kernel_pgd early_tables (vm (x_sched x)) P roots →
  let cur := get_current (x_sched x) in
  ∃ x' ok P' roots', exec_mm x = Some (x', ok) ∧ x_vfs x' = x_vfs x ∧ x_mem x' = x_mem x ∧
    tasks_kept q roots x x' ∧ roots ⊆ roots' ∧ vmm_inv kernel_pgd early_tables (vm (x_sched x')) P' roots' ∧
    t_info (task_at (x_sched x') cur) = t_info (task_at (x_sched x) cur) ∧
    (ok = true → ∃ m, t_mm (task_at (x_sched x') cur) = Some m ∧
       (t_mm (task_at (x_sched x) cur) = Some m ∨ space_empty (vm (x_sched x')) roots' m)).
Proof.
  intros Hinv Hv cur. unfold exec_mm. fold cur. destruct (t_mm (task_at (x_sched x) cur)) as [m|] eqn:Em.
  { exists x, true, P, roots. do 3 (split; [done|]). split; [by split|]. do 3 (split; [done|]). intros _. exists m. by split; [|left]. }
  destruct (create_address_space_ok kernel_pgd early_tables _ P roots Hv) as (v & r & P' & E & _ & Hsame & Hr). rewrite E. cbn [mbind option_bind].
  assert (∀ va e, pte_of (tables (vm (x_sched x))) kernel_pgd va = Some e → pte_of (tables v) kernel_pgd va = Some e) as Hk.
  { intros va e He. rewrite Hsame; [done|]. destruct Hv as (role & Ht & _). apply Ht. }
  assert ((∃ P roots, vmm_inv kernel_pgd early_tables v P roots) → sched_inv kernel_pgd early_tables (with_vm v (x_sched x)) q) as Hi.
  { intros HI. apply inv_vm; [done| |done]. intros y. by apply (create_pool_grows _ _ _ _ _ _ E). }
  destruct r as [m|].
  - destruct Hr as (a & pgd & Ha & _ & Hpgd & Hnew & HI & He). set (s' := Sched.upd cur _ _).
    assert (sched_inv kernel_pgd early_tables s' q) as Hs'. { apply inv_upd; [by eauto|]. cbn zeta. do 4 (split; [done|]). split; [|done]. intros y [= <-]. cbn. by eexists. }
    assert (task_at s' cur = set_mm (Some m) (Some m) (task_at (x_sched x) cur)) as Ec by (unfold s'; rewrite task_at_upd, decide_True by done; done).
    exists (mk_exec (x_vfs x) s' (x_mem x)), true, P', ({[pgd]} ∪ roots). do 3 (split; [done|]). split; [|split; [apply union_subseteq_r|]].
    { split; try done; [|by apply same_ptes_user]. intros t Ht. cbn [x_sched]. unfold s'. by rewrite task_at_upd, decide_False. }
    split; [exact HI|]. cbn [x_sched]. rewrite Ec. split; [done|]. intros _. exists m. split; [done|]. right.
    assert (pgd ≠ kernel_pgd) as Hpk by (intros ->; apply Hnew; destruct Hv as (role & Ht & _); apply Ht).
    exists a, pgd. do 2 (split; [done|]). split; [apply elem_of_union; left; by apply elem_of_singleton|]. split; [done|].
    intros va Hva. cbn. rewrite He. by destruct (Z.ltb_spec (pte_index va 0) 256); [|lia].
  - exists (mk_exec (x_vfs x) (with_vm v (x_sched x)) (x_mem x)), false, P', roots. do 3 (split; [done|]). split; [|done].
    split; try done; [by eauto|by apply same_ptes_user].
Qed.

Lemma base_name_app a n d : Forall (λ c, c ≠ SLASH) n → base_name (a ++ SLASH :: n) d = n.
Proof.
  intros Hn. revert d. induction a as [|c a IH]; intros d; cbn [app base_name].
  - rewrite Z.eqb_refl. enough (∀ l e, Forall (λ c, c ≠ SLASH) l → base_name l e = e) as -> by done. clear.
    intros l e. induction 1 as [|c l Hc _ IH]; cbn [base_name]; [done|]. by destruct (Z.eqb_spec c SLASH).
  - apply IH.
Qed.

(** The name is the last component of the path. *)
Lemma base_name_path ns n d : name_ok n → base_name (path_of (ns ++ [n])) d = n.
Proof.
  intros (_ & Hn & _). unfold path_of. destruct ns as [|m ns].
  - cbn [app join]. rewrite app_nil_r. by apply (base_name_app []).
  - rewrite join_snoc by done. by apply (base_name_app (SLASH :: _)).
Qed.

(** The outcome of a call for the program [data] named [name]. *)
Definition execve_result (data name : list Z) (argc : Z) x x' (ret : Z) : Prop :=
  let cur := get_current (x_sched x) in
  let i := t_info (task_at (x_sched x) cur) in
  let i' := t_info (task_at (x_sched x') cur) in
  (ret = -1 ∧ partly_loaded data (x_mem x) (x_mem x') ∧ i' = i) ∨
  (ret = 0 ∧ ∃ eh, exec_header data = Some eh ∧
     x_mem x' = poke64 (USER_STACK_TOP - 16) argc (exec_segments data eh (Z.to_nat (eh_phnum eh)) 0 (x_mem x)) ∧
     ctx_pc (ti_cpu_context i') = eh_entry eh ∧ ctx_sp (ti_cpu_context i') = USER_STACK_TOP - 16 ∧
     take 15 name `prefix_of` ti_comm i' ∧ ti_pid i' = ti_pid i ∧ ti_parent i' = ti_parent i ∧
     t_mm (task_at (x_sched x') cur) ≠ None).

Lemma exec_task_kept q roots x name e sp :
  sched_inv kernel_pgd early_tables (x_sched x) q →
  tasks_kept q roots x (mk_exec (x_vfs x) (Sched.upd (get_current (x_sched x)) (exec_task name e sp) (x_sched x)) (x_mem x)).
Proof.
  intros Hinv. split; cbn [x_sched]; try done.
  - apply inv_upd; [done|]. cbn zeta. do 4 (split; [done|]). split; [|done]. intros m. apply (sc_mm _ _ _ _ Hinv).
  - intros t Ht. by rewrite task_at_upd, decide_False.
Qed.

Lemma exec_start_ok A q roots P ns n argc e x :
  apart A (USER_STACK_TOP - 16) 8 = true →
  name_ok n → sched_inv kernel_pgd early_tables (x_sched x) q → vmm_inv kernel_pgd early_tables (vm (x_sched x)) P roots →
  let cur := get_current (x_sched x) in
  ∃ x', exec_start A (path_of (ns ++ [n])) argc cur e x = Some (x', 0) ∧ x_vfs x' = x_vfs x ∧ tasks_kept q roots x x' ∧
    x_mem x' = poke64 (USER_STACK_TOP - 16) argc (x_mem x) ∧ vm_frame (vm (x_sched x)) (vm (x_sched x')) roots ∧
    task_at (x_sched x') cur = exec_task n e (USER_STACK_TOP - 16) (task_at (x_sched x) cur).
Proof.
  intros Hap Hn Hs Hv cur. unfold exec_start. destruct (setup_user_stack_ok A argc x P roots Hap Hv) as (x1 & -> & Ev & Hm & Em). cbn [mbind option_bind].
  rewrite base_name_path by done. pose proof (maps_only_kept _ _ _ _ Hs Hm) as T1. destruct Hm as (v & Es & Fv).
  pose proof (exec_task_kept q roots x1 n e (USER_STACK_TOP - 16) (tk_inv _ _ _ _ T1)) as T2. rewrite (tk_current _ _ _ _ T1) in T2. fold cur in T2.
  eexists. split; [reflexivity|]. split; [done|]. split; [eapply tasks_kept_trans; [reflexivity|exact T1|exact T2]|]. split; [done|].
  cbn [x_sched]. rewrite Es. split; [done|]. by rewrite task_at_upd, decide_True.
Qed.

Section Execve.
Context x (C : Z → list Z) (K M : gmap Z Z) (ns : list (list Z)) (n l data : list Z) (P roots : gset Z) (q : list Z).
Hypothesis Hwf : vfs_wf (x_vfs x) C K M.
Hypothesis Hns : Forall name_ok ns.
Hypothesis Hn : name_ok n.
Hypothesis Hplain : plain (path_of (ns ++ [n])) (x_vfs x).
Hypothesis Hmount : find_mount_by_target (path_of (ns ++ [n])) (x_vfs x) = None.
Hypothesis Hdir : file_at (v_fs (x_vfs x)) ns = Some (true, l).
Hypothesis Hreg : regular (x_vfs x) (ns ++ [n]).
Hypothesis Hdata : file_at (v_fs (x_vfs x)) (ns ++ [n]) = Some (false, data).
Hypothesis Hbytes : Forall is_byte data.
Hypothesis Hoff : offsets_ok data.
Hypothesis Hsegs : segments_apart (kernel_memory x) data.
Hypothesis Hstack : apart (kernel_memory x) (USER_STACK_TOP - 16) 8 = true.
Hypothesis Hsched : sched_inv kernel_pgd early_tables (x_sched x) q.
Hypothesis Hvm : vmm_inv kernel_pgd early_tables (vm (x_sched x)) P roots.

Lemma execve_ok argc :
  let cur := get_current (x_sched x) in
  ∃ x' ret, do_execve (path_of (ns ++ [n])) argc x = Some (x', ret) ∧ vfs_frame (x_vfs x) (x_vfs x') ∧ tasks_kept q roots x x' ∧
    execve_result data n argc x x' ret ∧
    (ret = 0 → ∃ m roots', t_mm (task_at (x_sched x') cur) = Some m ∧
       (t_mm (task_at (x_sched x) cur) = Some m ∨ space_empty (vm (x_sched x')) roots' m)).
Proof.
  cbn zeta. unfold do_execve. destruct (exec_mm_ok x q P roots Hsched Hvm) as (x1 & ok & P1 & roots1 & -> & Ev1 & Em1 & T1 & Hsub & V1 & I1 & Hmm). cbn [mbind option_bind].
  destruct ok; cbn [negb].
  2:{ exists x1, (-1). split; [done|]. rewrite Ev1. split; [split; [eauto|done..]|]. split; [done|]. split; [|done]. left. rewrite Em1. split; [done|].
      split; [apply partly_loaded_none|done]. }
  destruct (Hmm eq_refl) as (m & Hm & Hm0). rewrite <- Ev1 in Hwf, Hplain, Hmount, Hdir, Hreg, Hdata.
  destruct (load_elf_ok (kernel_memory x) x1 C K M ns n l data P1 roots1) as (x2 & ret & en & -> & [F2 M2 R2]); try done. cbn [mbind option_bind]. rewrite Ev1 in F2.
  pose proof (tasks_kept_trans _ _ _ _ _ _ Hsub T1 (maps_only_kept _ _ _ _ (tk_inv _ _ _ _ T1) M2)) as T2.
  destruct R2 as [(-> & -> & Hp)|(-> & eh & Eh & -> & Emem)].
  { exists x2, (-1). split; [done|]. split; [done|]. split; [done|]. split; [|done]. left. rewrite Em1 in Hp. do 2 (split; [done|]).
    destruct M2 as (v2 & -> & _). exact I1. }
  change (0 <? 0) with false. cbv iota. cbn [mbind option_bind]. pose proof M2 as (v2 & Es2 & Fv2). destruct (vf_inv _ _ _ Fv2) as [P2 V2].
  assert (vmm_inv kernel_pgd early_tables (vm (x_sched x2)) P2 roots1) as V2' by (by rewrite Es2).
  destruct (exec_start_ok (kernel_memory x) q roots1 P2 ns n argc (eh_entry eh) x2 Hstack Hn (tk_inv _ _ _ _ T2) V2') as (x3 & E3 & Ev3 & T3 & Em3 & Fv3 & Et).
  rewrite (tk_current _ _ _ _ T2) in E3, Et. exists x3, 0. split; [exact E3|]. split; [by rewrite Ev3|]. split; [eapply tasks_kept_trans; [exact Hsub|exact T2|exact T3]|].
  assert (task_at (x_sched x2) (get_current (x_sched x)) = task_at (x_sched x1) (get_current (x_sched x))) as Et2 by (by rewrite Es2). rewrite Et2 in Et. split.
  - right. split; [done|]. exists eh. split; [done|]. split; [by rewrite Em3, Emem, Em1|]. rewrite Et.
    unfold exec_task. cbn [t_info set_info ti_cpu_context ctx_pc ctx_sp ti_comm ti_pid ti_parent t_mm]. rewrite I1, Hm. do 2 (split; [reflexivity|]). split; [by eexists|done].
  - intros _. exists m, roots1. rewrite Et. split; [done|]. destruct Hm0 as [?|Hm0]; [by left|right]. eapply space_empty_kept; [|done].
    eapply vm_frame_trans; [exact Fv2|]. by rewrite Es2 in Fv3.
Qed.


(** The pages of the program are mapped by vmm_map_page, that is in the
    kernel's own table: a task that had no address space gets a new one, in
    which no user address is mapped, its entry point and stack included. *)
Theorem execve_space_stays_empty argc x' :
  t_mm (task_at (x_sched x) (get_current (x_sched x))) = None → do_execve (path_of (ns ++ [n])) argc x = Some (x', 0) →
  ∃ m a pgd, t_mm (task_at (x_sched x') (get_current (x_sched x))) = Some m ∧ mm_pool (vm (x_sched x')) !! m = Some a ∧ mm_pgd a = Some pgd ∧
    ∀ va, pte_index va 0 < 256 → pte_of (tables (vm (x_sched x'))) pgd va = None.
Proof.
  intros Hnone E. destruct (execve_ok argc) as (x2 & ret & E2 & _ & _ & _ & Hm). rewrite E in E2. injection E2 as <- <-.
  destruct (Hm eq_refl) as (m & roots' & Em & [?|(a & pgd & Ha & Hp & _ & _ & He)]); [congruence|]. exists m, a, pgd. done.
Qed.
End Execve.
End Exec.

(** ** A concrete program, run by the boot task *)


Definition demo_boot_exec (v : vfs heap) : exec heap := mk_exec v (sched_boot demo_vmm) demo_mem.

Lemma demo_offsets_ok : offsets_ok demo_elf.
Proof.
  assert (exec_header demo_elf = Some (mk_ehdr 64 56 1 0x10000)) as E by (vm_compute; reflexivity).
  assert (exec_phdr demo_elf (mk_ehdr 64 56 1 0x10000) 0 = Some (mk_ph 1 5 120 0x10000 4 8)) as Ep by (vm_compute; reflexivity).
  intros eh Heh. rewrite E in Heh. injection Heh as <-. cbn [eh_phoff eh_phentsize eh_phnum]. split; [lia|]. split; [lia|].
  intros i h Hi Eh. replace i with 0 in Eh by lia. rewrite Ep in Eh. injection Eh as <-. cbn [p_offset]. lia.
Qed.

Lemma demo_segments_apart v n : demo_elf_save = Some (v, n) → segments_apart (kernel_memory demo_kernel (demo_boot_exec v)) demo_elf.
Proof.
  intros Es eh i h Heh Hi Eh Hty. unfold kernel_memory. cbn [x_vfs demo_boot_exec]. rewrite (demo_elf_region v n Es).
  assert (exec_header demo_elf = Some (mk_ehdr 64 56 1 0x10000)) as E by (vm_compute; reflexivity).
  assert (exec_phdr demo_elf (mk_ehdr 64 56 1 0x10000) 0 = Some (mk_ph 1 5 120 0x10000 4 8)) as Ep by (vm_compute; reflexivity).
  rewrite E in Heh. injection Heh as <-. cbn [eh_phnum] in Hi. replace i with 0 in Eh by lia. rewrite Ep in Eh. injection Eh as <-.
  vm_compute. reflexivity.
Qed.


(** The name is copied without its end: what the old name has beyond it stays. *)
Example execve_name_keeps_tail :
  ti_comm (t_info (exec_task (bytes_of_string "sh"%string) 0x10000 0 init_task)) = bytes_of_string "shapper"%string.
Proof. vm_compute. reflexivity. Qed.

(** The address of a segment is not checked: with a kernel whose image lies at
    the address the program asks for, the call goes on to write over it. *)
Example execve_segment_over_kernel :
  option_map snd (r ← demo_elf_save; do_execve demo_pgd demo_early demo_kernel (path_of ([] ++ [demo_name])) 1 (demo_boot_exec (fst r))) = Some 0 ∧
  (r ← demo_elf_save; do_execve demo_pgd demo_early [(0x10000, 0x20000)] (path_of ([] ++ [demo_name])) 1 (demo_boot_exec (fst r))) = None.
Proof. split; vm_compute; reflexivity. Qed.
