(* ===== verification/Printk.v ===== *)
(** * kernel/core/printk.c: formatted kernel messages and the kernel log

    A format is a C string; the arguments of a variadic call are a list of
    values, numbers as the 64-bit slots that they are passed in.  What the
    calls hand to the serial port is collected in [console]: uart_puts belongs
    to the driver.  [numbuf] is a list that may not grow beyond its 32 bytes;
    the message buffer is the list of the characters written so far. *)

From Stdlib Require Import Ascii.
From S2P Require Import Prelude.

(** ** Characters and arguments *)

Definition ch (c : ascii) : Z := Z.of_N (N_of_ascii c).

Definition is_digit (c : Z) : bool := (ch "0" <=? c) && (c <=? ch "9").

Inductive va := VNum (v : Z) | VStr (s : option (list Z)).

Definition va_num (args : list va) : option (Z * list va) := match args with VNum v :: args => Some (v, args) | _ => None end.
Definition va_str (args : list va) : option (option (list Z) * list va) := match args with VStr s :: args => Some (s, args) | _ => None end.

(** ** Numbers *)

(** [str[i]] and [str[j]] exchanged, inwards. *)
Fixpoint reverse_loop (fuel : nat) (i j : Z) (str : list Z) : option (list Z) :=
  match fuel with
  | O => None
  | S fuel' =>
      if i <? j then
        ci ← str !! Z.to_nat i; cj ← str !! Z.to_nat j;
        reverse_loop fuel' (i + 1) (j - 1) (<[Z.to_nat j := ci]> (<[Z.to_nat i := cj]> str))
      else Some str
  end.
Definition reverse (str : list Z) : option (list Z) := reverse_loop (S (length str)) 0 (Z.of_nat (length str) - 1) str.

Definition digits_lower : list Z := bytes_of_string "0123456789abcdef".
Definition digits_upper : list Z := bytes_of_string "0123456789ABCDEF".

(** [while (uval != 0)] *)
Fixpoint itoa_digits (fuel : nat) (digits : list Z) (base uval : Z) (buf : list Z) : option (list Z) :=
  match fuel with
  | O => None
  | S fuel' =>
      if uval =? 0 then Some buf
      else c ← digits !! Z.to_nat (uval `mod` base); itoa_digits fuel' digits base (uval / base) (buf ++ [c])
  end.

Definition NUMBUF : nat := 32.

(** The text; its length is the result. *)
Definition itoa (val base : Z) (is_signed uppercase : bool) : option (list Z) :=
  let digits := if uppercase then digits_upper else digits_lower in
  let negative := is_signed && (val <? 0) in
  let uval := if negative then u64 (- val) else u64 val in
  let buf := if uval =? 0 then [ch "0"] else [] in
  buf ← itoa_digits 65 digits base uval buf;
  let buf := if negative then buf ++ [ch "-"] else buf in
  if (length buf <? NUMBUF)%nat then reverse buf else None.

Definition utoa (val base : Z) (uppercase : bool) : option (list Z) := itoa val base false uppercase.

(** ** Conversion specifications *)

(** [while ( *fmt == '0')] *)
Fixpoint skip_zeros (zero_pad : bool) (fmt : list Z) : bool * list Z :=
  match fmt with
  | c :: fmt' => if c =? ch "0" then skip_zeros true fmt' else (zero_pad, fmt)
  | [] => (zero_pad, [])
  end.

Fixpoint read_width (width : Z) (fmt : list Z) : Z * list Z :=
  match fmt with
  | c :: fmt' => if is_digit c then read_width (i32 (i32 (width * 10) + (c - ch "0"))) fmt' else (width, fmt)
  | [] => (width, [])
  end.

(** is_long, is_long_long and what follows. *)
Definition length_modifier (fmt : list Z) : bool * bool * list Z :=
  match fmt with
  | c :: fmt' =>
      if c =? ch "l" then
        match fmt' with
        | c' :: fmt'' => if c' =? ch "l" then (true, true, fmt'') else (true, false, fmt')
        | [] => (true, false, [])
        end
      else if c =? ch "z" then (true, false, fmt')
      else (false, false, fmt)
  | [] => (false, false, [])
  end.

(** [va_arg] of the three signed and of the three unsigned types. *)
Definition signed_arg (is_long is_long_long : bool) (v : Z) : Z := if is_long_long then i64 v else if is_long then i64 v else i32 v.
Definition unsigned_arg (is_long is_long_long : bool) (v : Z) : Z := if is_long_long then u64 v else if is_long then u64 v else u32 v.

(** ** The message buffer *)

(** [if (p < end) *p++ = c], with [end_] the index of the last byte. *)
Definition putc (end_ : nat) (c : Z) (out : list Z) : list Z := if (length out <? end_)%nat then out ++ [c] else out.

(** [for (i = len; i < width; i++)] *)
Fixpoint pad (n : nat) (end_ : nat) (c : Z) (out : list Z) : list Z :=
  match n with O => out | S n' => pad n' end_ c (putc end_ c out) end.

(** A copy that stops at the end of the buffer. *)
Fixpoint put_text (end_ : nat) (l out : list Z) : list Z :=
  match l with
  | c :: l' => if (length out <? end_)%nat then put_text end_ l' (out ++ [c]) else out
  | [] => out
  end.

Definition put_num (end_ : nat) (zero_pad : bool) (width : Z) (text out : list Z) : list Z :=
  put_text end_ text (pad (Z.to_nat (width - Z.of_nat (length text))) end_ (if zero_pad then ch "0" else ch " ") out).

(** The switch on the conversion character. *)
Definition conversion (end_ : nat) (c : Z) (zero_pad : bool) (width : Z) (l ll : bool) (args : list va) (out : list Z) : option (list Z * list va) :=
  if (c =? ch "d") || (c =? ch "i") then
    '(v, args) ← va_num args; text ← itoa (signed_arg l ll v) 10 true false; Some (put_num end_ zero_pad width text out, args)
  else if c =? ch "u" then
    '(v, args) ← va_num args; text ← utoa (unsigned_arg l ll v) 10 false; Some (put_num end_ zero_pad width text out, args)
  else if (c =? ch "x") || (c =? ch "X") then
    '(v, args) ← va_num args; text ← utoa (unsigned_arg l ll v) 16 (c =? ch "X"); Some (put_num end_ zero_pad width text out, args)
  else if c =? ch "p" then
    '(v, args) ← va_num args; text ← utoa (u64 v) 16 false;
    let out := putc end_ (ch "x") (putc end_ (ch "0") out) in
    Some (put_text end_ text (pad (Z.to_nat (16 - Z.of_nat (length text))) end_ (ch "0") out), args)
  else if c =? ch "s" then
    '(s, args) ← va_str args; Some (put_text end_ (default (bytes_of_string "(null)") s) out, args)
  else if c =? ch "c" then
    '(v, args) ← va_num args; Some (putc end_ (u8 v) out, args)
  else if c =? ch "%" then Some (putc end_ (ch "%") out, args)
  else Some (putc end_ c (putc end_ (ch "%") out), args).

(** A format that ends within a specification is read beyond its end. *)
Fixpoint kv_loop (fuel : nat) (end_ : nat) (fmt : list Z) (args : list va) (out : list Z) : option (list Z) :=
  match fuel with
  | O => None
  | S fuel' =>
      match fmt with
      | [] => Some out
      | c :: fmt =>
          if negb (length out <? end_)%nat then Some out
          else if negb (c =? ch "%") then kv_loop fuel' end_ fmt args (out ++ [c])
          else
            let '(zero_pad, fmt) := skip_zeros false fmt in
            let '(width, fmt) := read_width 0 fmt in
            let '(l, ll, fmt) := length_modifier fmt in
            '(out, args) ← conversion end_ (hd 0 fmt) zero_pad width l ll args out;
            match fmt with [] => None | _ :: fmt => kv_loop fuel' end_ fmt args out end
      end
  end.

(** The text before the final NUL, which needs a byte too. *)
Definition kvsnprintf (size : Z) (fmt : list Z) (args : list va) : option (list Z) :=
  if size <=? 0 then None else kv_loop (S (length fmt)) (Z.to_nat (size - 1)) fmt args [].

(** ** The log *)

Definition PRINTK_BUFFER_SIZE : Z := 1024.
Definition PRINTK_LOG_BUFFER_SIZE : Z := 65536.

Record klog := mk_klog { printk_log_buffer : gmap Z Z; printk_log_start : Z; printk_log_count : Z; console : list Z }.

Definition klog_boot : klog := mk_klog ∅ 0 0 [].

Definition log_byte (s : klog) (pos : Z) : Z := default 0 (printk_log_buffer s !! pos).

Definition append_byte (c : Z) (s : klog) : klog :=
  let pos := (printk_log_start s + printk_log_count s) `mod` PRINTK_LOG_BUFFER_SIZE in
  let b := <[pos := c]> (printk_log_buffer s) in
  if printk_log_count s <? PRINTK_LOG_BUFFER_SIZE then mk_klog b (printk_log_start s) (printk_log_count s + 1) (console s)
  else mk_klog b ((printk_log_start s + 1) `mod` PRINTK_LOG_BUFFER_SIZE) (printk_log_count s) (console s).

Fixpoint printk_log_append (buf : list Z) (s : klog) : klog :=
  match buf with [] => s | c :: buf' => printk_log_append buf' (append_byte c s) end.

(** uart_puts stops at the first NUL. *)
Fixpoint until_nul (l : list Z) : list Z :=
  match l with [] => [] | c :: l' => if c =? 0 then [] else c :: until_nul l' end.
Definition uart_puts (l : list Z) (s : klog) : klog :=
  mk_klog (printk_log_buffer s) (printk_log_start s) (printk_log_count s) (console s ++ until_nul l).

(** The log level in front of a format. *)
Definition skip_level (fmt : list Z) : list Z :=
  match fmt with
  | a :: b :: c :: fmt' => if (a =? ch "<") && (ch "0" <=? b) && (b <=? ch "7") && (c =? ch ">") then fmt' else fmt
  | _ => fmt
  end.

Definition vprintk (fmt : list Z) (args : list va) (s : klog) : option (klog * Z) :=
  text ← kvsnprintf PRINTK_BUFFER_SIZE (skip_level fmt) args;
  Some (uart_puts text (printk_log_append text s), Z.of_nat (length text)).

Definition printk : list Z → list va → klog → option (klog * Z) := vprintk.

Definition early_printk (fmt : list Z) (args : list va) (s : klog) : option (klog * Z) :=
  text ← kvsnprintf PRINTK_BUFFER_SIZE fmt args;
  Some (uart_puts text (printk_log_append text s), Z.of_nat (length text)).

Definition printk_log_size (s : klog) : Z := printk_log_count s.

(** The bytes stored in [buf]; their number is the result. *)
Definition printk_log_read (buf : bool) (offset size : Z) (s : klog) : list Z :=
  if negb buf || (size =? 0) || (printk_log_count s <=? offset) then []
  else
    let available := printk_log_count s - offset in
    let size := if available <? size then available else size in
    (λ i, log_byte s ((printk_log_start s + offset + i) `mod` PRINTK_LOG_BUFFER_SIZE)) <$> seqZ 0 size.

Example printk_example :
  kvsnprintf 64 (bytes_of_string "pid %d at %p: %5u%% '%s' %04X%c"%string)
    [VNum (-7); VNum 0x4008; VNum 42; VStr None; VNum 255; VNum 33]
  = Some (bytes_of_string "pid -7 at 0x0000000000004008:    42% '(null)' 00FF!"%string).
Proof. vm_compute. reflexivity. Qed.

(** ** Numbers are printed in positional notation *)

Definition digit_val (c : Z) : Z :=
  if is_digit c then c - ch "0"
  else if (ch "a" <=? c) && (c <=? ch "f") then c - ch "a" + 10
  else if (ch "A" <=? c) && (c <=? ch "F") then c - ch "A" + 10
  else -1.
Definition num_value (base : Z) (l : list Z) : Z := foldr (λ c a, digit_val c + base * a) 0 (rev l).

(** A digit string of [base] without a leading zero. *)
Record numeral (base n : Z) (l : list Z) : Prop := {
  nm_value : num_value base l = n;
  nm_digits : Forall (λ c, 0 ≤ digit_val c < base) l;
  nm_lead : l = [ch "0"] ∨ ∃ c l', l = c :: l' ∧ digit_val c ≠ 0
}.

Lemma digits_table (upper : bool) d : 0 ≤ d < 16 → ∃ c, (if upper then digits_upper else digits_lower) !! Z.to_nat d = Some c ∧ digit_val c = d.
Proof.
  intros Hd. assert (forallb (λ d, match (if upper then digits_upper else digits_lower) !! Z.to_nat d with Some c => digit_val c =? d | None => false end) (seqZ 0 16) = true) as Hall
    by (destruct upper; vm_compute; reflexivity).
  rewrite forallb_forall in Hall. specialize (Hall d). rewrite <- list_elem_of_In, elem_of_seqZ in Hall. specialize (Hall ltac:(lia)).
  destruct (_ !! _) as [c|]; [|done]. exists c. split; [done|by apply Z.eqb_eq].
Qed.

Lemma itoa_digits_ok fuel (upper : bool) base uval buf :
  10 ≤ base ≤ 16 → 0 ≤ uval < 2 ^ Z.of_nat fuel →
  ∃ l, itoa_digits (S fuel) (if upper then digits_upper else digits_lower) base uval buf = Some (buf ++ l) ∧
    foldr (λ c a, digit_val c + base * a) 0 l = uval ∧ Forall (λ c, 0 ≤ digit_val c < base) l ∧
    (uval = 0 → l = []) ∧ (0 < uval → 10 ^ (Z.of_nat (length l) - 1) ≤ uval ∧ ∃ l' c, l = l' ++ [c] ∧ digit_val c ≠ 0).
Proof.
  intros Hb. revert uval buf. induction fuel as [|fuel IH]; intros uval buf Hu.
  { exists []. rewrite app_nil_r. cbn in Hu. replace uval with 0 by lia. cbn. repeat split; [constructor|lia..]. }
  remember (S fuel) as fuel' eqn:Ef. cbn [itoa_digits]. destruct (Z.eqb_spec uval 0) as [->|Hne].
  { exists []. rewrite app_nil_r. cbn. repeat split; [constructor|lia..]. }
  pose proof (Z.mod_pos_bound uval base ltac:(lia)) as Hm. destruct (digits_table upper (uval `mod` base)) as (c & Hc & Hd); [lia|]. rewrite Hc. cbn [mbind option_bind].
  rewrite Ef, Nat2Z.inj_succ, Z.pow_succ_r in Hu by lia. pose proof (Z.div_mod uval base ltac:(lia)) as Hdm.
  assert (0 ≤ uval / base < 2 ^ Z.of_nat fuel) as Hq. { split; [apply Z.div_pos; lia|]. apply Z.div_lt_upper_bound; nia. }
  destruct (IH (uval / base) (buf ++ [c]) Hq) as (l & -> & Hv & Hf & H0 & H1). exists (c :: l). rewrite <- app_assoc. split; [done|]. cbn [foldr]. rewrite Hv, Hd.
  split; [lia|]. split; [constructor; [lia|done]|]. split; [lia|]. intros _. destruct (decide (uval / base = 0)) as [Hz|Hz].
  - rewrite (H0 Hz). cbn. split; [lia|]. exists [], c. split; [done|]. rewrite Hd, Hz in *. lia.
  - destruct H1 as (H1 & l' & c' & -> & Hc'); [lia|]. split; [|exists (c :: l'), c'; done]. cbn [length]. rewrite length_app in *. cbn [length] in *.
    replace (Z.of_nat (S (length l' + 1)) - 1) with (Z.succ (Z.of_nat (length l' + 1) - 1)) by lia. rewrite Z.pow_succ_r by lia. nia.
Qed.

Lemma reverse_loop_ok fuel a m b :
  (length m ≤ fuel)%nat →
  reverse_loop (S fuel) (Z.of_nat (length a)) (Z.of_nat (length a) + Z.of_nat (length m) - 1) (a ++ m ++ b) = Some (a ++ rev m ++ b).
Proof.
  revert a m b. induction fuel as [|fuel IH]; intros a m b Hl.
  { destruct m; [|cbn in Hl; lia]. cbn [reverse_loop]. by destruct (Z.ltb_spec (Z.of_nat (length a)) (Z.of_nat (length a) + Z.of_nat (length (@nil Z)) - 1)); [cbn in *; lia|]. }
  remember (S fuel) as fuel' eqn:Ef. cbn [reverse_loop]. destruct m as [|x m].
  { cbn [length]. by destruct (Z.ltb_spec (Z.of_nat (length a)) (Z.of_nat (length a) + Z.of_nat 0 - 1)); [lia|]. }
  destruct m as [|y m _] using rev_ind.
  { cbn [length]. by destruct (Z.ltb_spec (Z.of_nat (length a)) (Z.of_nat (length a) + Z.of_nat 1 - 1)); [lia|]. }
  cbn [length] in *. rewrite length_app in *. cbn [length] in *.
  destruct (Z.ltb_spec (Z.of_nat (length a)) (Z.of_nat (length a) + Z.of_nat (S (length m + 1)) - 1)); [|lia].
  rewrite Nat2Z.id. replace (Z.to_nat (Z.of_nat (length a) + Z.of_nat (S (length m + 1)) - 1)) with (length (a ++ x :: m)) by (rewrite length_app; cbn; lia).
  replace (a ++ (x :: m ++ [y]) ++ b) with ((a ++ x :: m) ++ y :: b) by (by rewrite <- !app_assoc; cbn; rewrite <- app_assoc).
  rewrite (list_lookup_middle (a ++ x :: m) b y) by done. rewrite <- app_assoc, <- app_comm_cons. rewrite (list_lookup_middle a _ x) by done. cbn [mbind option_bind].
  rewrite insert_app_r_alt, Nat.sub_diag by done. cbn [insert list_insert].
  replace (a ++ y :: m ++ y :: b) with ((a ++ y :: m) ++ y :: b) by (by rewrite <- app_assoc).
  replace (length (a ++ x :: m)) with (length (a ++ y :: m)) by (by rewrite !length_app). rewrite insert_app_r_alt, Nat.sub_diag by done. cbn [insert list_insert].
  subst fuel'. replace ((a ++ y :: m) ++ x :: b) with ((a ++ [y]) ++ m ++ x :: b) by (by rewrite <- !app_assoc).
  replace (Z.of_nat (length a) + 1) with (Z.of_nat (length (a ++ [y]))) by (rewrite length_app; cbn; lia).
  replace (Z.of_nat (length a) + Z.of_nat (S (length m + 1)) - 1 - 1) with (Z.of_nat (length (a ++ [y])) + Z.of_nat (length m) - 1) by (rewrite length_app; cbn; lia).
  rewrite IH by lia. f_equal. cbn [rev]. rewrite rev_app_distr. cbn. by rewrite <- !app_assoc.
Qed.

(** reverse is the in-place reversal. *)
Lemma reverse_ok str : reverse str = Some (rev str).
Proof.
  unfold reverse. pose proof (reverse_loop_ok (length str) [] str [] (Nat.le_refl _)) as E. cbn [length app] in E. rewrite !app_nil_r in E. exact E.
Qed.

(** The number of which [itoa] prints the digits. *)
Definition magnitude (val : Z) (is_signed : bool) : Z := if is_signed && (val <? 0) then u64 (- val) else u64 val.

Lemma itoa_ok val base (is_signed upper : bool) :
  10 ≤ base ≤ 16 →
  ∃ l, itoa val base is_signed upper = Some (if is_signed && (val <? 0) then ch "-" :: l else l) ∧ numeral base (magnitude val is_signed) l ∧ (length l ≤ 20)%nat.
Proof.
  intros Hb. unfold itoa, magnitude. set (neg := is_signed && (val <? 0)). set (u := if neg then u64 (- val) else u64 val).
  assert (0 ≤ u < 2 ^ Z.of_nat 64) as Hu by (unfold u; destruct neg; apply u64_bound).
  destruct (itoa_digits_ok 64 upper base u (if u =? 0 then [ch "0"] else []) Hb Hu) as (l & -> & Hv & Hf & H0 & H1). cbn [mbind option_bind].
  set (d := (if u =? 0 then [ch "0"] else []) ++ l).
  assert (numeral base u (rev d) ∧ (length d ≤ 20)%nat) as [Hn Hl].
  { unfold d. destruct (Z.eqb_spec u 0) as [Hz|Hz].
    - rewrite (H0 Hz). split; [|cbn; lia]. split; [rewrite Hz; unfold num_value; cbn; change (digit_val (ch "0")) with 0; lia|repeat constructor; change (digit_val (ch "0")) with 0; lia|by left].
    - destruct H1 as (Hp & l' & c & El & Hc); [lia|]. cbn [app]. split.
      + split; [unfold num_value; by rewrite rev_involutive|by apply Forall_rev|]. right. exists c, (rev l'). split; [|done]. rewrite El, rev_app_distr. done.
      + destruct (decide (length l ≤ 20)%nat) as [|Hgt]; [done|exfalso]. assert (10 ^ 20 ≤ 10 ^ (Z.of_nat (length l) - 1)) by (apply Z.pow_le_mono_r; lia).
        change (2 ^ Z.of_nat 64) with 18446744073709551616 in Hu. change (10 ^ 20) with 100000000000000000000 in *. lia. }
  exists (rev d). rewrite length_rev. split; [|done].
  assert ((length (if neg then d ++ [ch "-"] else d) <? NUMBUF)%nat = true) as ->.
  { apply Nat.ltb_lt. unfold NUMBUF. destruct neg; rewrite ?length_app; cbn; lia. }
  rewrite reverse_ok. destruct neg; [by rewrite rev_app_distr|done].
Qed.

(** Itoa writes the decimal or hexadecimal numeral of its argument, most
    significant digit first, without leading zeros and with a minus sign where
    the argument is negative; it never writes beyond its buffer of 32 bytes.
    Every 64-bit value included, the least one too. *)
Theorem itoa_correct val base (is_signed upper : bool) :
  10 ≤ base ≤ 16 → (if is_signed then - 2 ^ 63 ≤ val < 2 ^ 63 else 0 ≤ val < 2 ^ 64) →
  ∃ l, itoa val base is_signed upper = Some (if is_signed && (val <? 0) then ch "-" :: l else l) ∧ numeral base (Z.abs val) l ∧ (length l < 31)%nat.
Proof.
  intros Hb Hval. destruct (itoa_ok val base is_signed upper Hb) as (l & E & Hn & Hl). exists l. split; [done|]. split; [|lia].
  assert (magnitude val is_signed = Z.abs val) as <-; [|done]. unfold magnitude. destruct is_signed; cbn [andb]; [destruct (Z.ltb_spec val 0)|]; rewrite u64_small; lia.
Qed.

(** ** Formatting is rendering, cut to the size of the buffer *)

Inductive directive := Lit (c : Z) | Conv (c : Z) (zero_pad : bool) (width : Z) (l ll : bool).

Fixpoint parse_format (fuel : nat) (fmt : list Z) : option (list directive) :=
  match fuel, fmt with
  | O, _ => None
  | _, [] => Some []
  | S fuel, c :: fmt =>
      if negb (c =? ch "%") then cons (Lit c) <$> parse_format fuel fmt
      else
        let '(zero_pad, fmt) := skip_zeros false fmt in
        let '(width, fmt) := read_width 0 fmt in
        let '(l, ll, fmt) := length_modifier fmt in
        match fmt with
        | [] => None
        | c :: fmt => cons (Conv c zero_pad width l ll) <$> parse_format fuel fmt
        end
  end.

(** Filled up to [width] on the left. *)
Definition padded (c width : Z) (text : list Z) : list Z := replicate (Z.to_nat (width - Z.of_nat (length text))) c ++ text.

Definition directive_text (d : directive) (args : list va) : option (list Z * list va) :=
  match d with
  | Lit c => Some ([c], args)
  | Conv c z w l ll =>
      let num text := padded (if z then ch "0" else ch " ") w text in
      if (c =? ch "d") || (c =? ch "i") then '(v, args) ← va_num args; text ← itoa (signed_arg l ll v) 10 true false; Some (num text, args)
      else if c =? ch "u" then '(v, args) ← va_num args; text ← utoa (unsigned_arg l ll v) 10 false; Some (num text, args)
      else if (c =? ch "x") || (c =? ch "X") then '(v, args) ← va_num args; text ← utoa (unsigned_arg l ll v) 16 (c =? ch "X"); Some (num text, args)
      else if c =? ch "p" then '(v, args) ← va_num args; text ← utoa (u64 v) 16 false; Some (bytes_of_string "0x" ++ padded (ch "0") 16 text, args)
      else if c =? ch "s" then '(s, args) ← va_str args; Some (default (bytes_of_string "(null)") s, args)
      else if c =? ch "c" then '(v, args) ← va_num args; Some ([u8 v], args)
      else if c =? ch "%" then Some ([c], args)
      else Some ([ch "%"; c], args)
  end.

Fixpoint render (ds : list directive) (args : list va) : option (list Z) :=
  match ds with
  | [] => Some []
  | d :: ds' => '(text, args) ← directive_text d args; rest ← render ds' args; Some (text ++ rest)
  end.

(** Every way of writing to the buffer appends and cuts. *)
Lemma putc_take end_ c out : (length out ≤ end_)%nat → putc end_ c out = take end_ (out ++ [c]).
Proof.
  intros Hl. unfold putc. destruct (Nat.ltb_spec (length out) end_).
  - rewrite take_ge; [done|]. rewrite length_app. cbn. lia.
  - rewrite take_app_le by lia. by rewrite take_ge by lia.
Qed.

Lemma take_take_app {A} n (a b : list A) : take n (take n a ++ b) = take n (a ++ b).
Proof.
  destruct (decide (length a ≤ n)%nat) as [Hle|Hgt]; [by rewrite (take_ge a) by lia|].
  rewrite !take_app_le by (rewrite ?length_take; lia). rewrite take_take. f_equal. lia.
Qed.

Lemma put_text_take end_ l out : (length out ≤ end_)%nat → put_text end_ l out = take end_ (out ++ l).
Proof.
  revert out. induction l as [|c l IH]; intros out Hl; cbn [put_text]; [by rewrite app_nil_r, take_ge|].
  destruct (Nat.ltb_spec (length out) end_).
  - rewrite IH by (rewrite length_app; cbn; lia). by rewrite <- app_assoc.
  - rewrite take_app_le by lia. by rewrite take_ge.
Qed.

Lemma pad_take n end_ c out : (length out ≤ end_)%nat → pad n end_ c out = take end_ (out ++ replicate n c).
Proof.
  revert out. induction n as [|n IH]; intros out Hl; cbn [pad replicate]; [by rewrite app_nil_r, take_ge|].
  rewrite putc_take by done. rewrite IH by (rewrite length_take; lia). rewrite take_take_app, <- app_assoc. done.
Qed.

Lemma put_num_take end_ z w text out :
  (length out ≤ end_)%nat → put_num end_ z w text out = take end_ (out ++ padded (if z then ch "0" else ch " ") w text).
Proof.
  intros Hl. unfold put_num, padded. rewrite pad_take by done. rewrite put_text_take by (rewrite length_take; lia). by rewrite take_take_app, <- app_assoc.
Qed.

Lemma conversion_ok end_ c z w l ll args out text args' :
  (length out ≤ end_)%nat → directive_text (Conv c z w l ll) args = Some (text, args') →
  conversion end_ c z w l ll args out = Some (take end_ (out ++ text), args').
Proof.
  intros Hl. unfold conversion. cbn [directive_text].
  assert (∀ o : option (Z * list va), ∀ f : Z → option (list Z), (('(v, a) ← o; t ← f v; Some (padded (if z then ch "0" else ch " ") w t, a)) = Some (text, args')) →
    ('(v, a) ← o; t ← f v; Some (put_num end_ z w t out, a)) = Some (take end_ (out ++ text), args')) as Hnum.
  { intros o f ([v a] & -> & E)%bind_Some. apply bind_Some in E as (t & E & [= <- <-]). cbn [mbind option_bind]. rewrite E. cbn. by rewrite put_num_take. }
  destruct (_ || _); [apply Hnum|]. destruct (c =? ch "u"); [apply Hnum|]. destruct (_ || _); [apply Hnum|]. clear Hnum.
  destruct (c =? ch "p").
  { intros ([v a] & -> & E)%bind_Some. apply bind_Some in E as (t & E & [= <- <-]). cbn [mbind option_bind]. rewrite E. cbn [mbind option_bind].
    rewrite (putc_take end_ (ch "0")) by done. rewrite putc_take, take_take_app by (rewrite length_take; lia). rewrite pad_take, take_take_app by (rewrite length_take; lia).
    rewrite put_text_take, take_take_app by (rewrite length_take; lia). unfold padded. by rewrite <- !app_assoc. }
  destruct (c =? ch "s"). { intros ([v a] & -> & [= <- <-])%bind_Some. cbn [mbind option_bind]. by rewrite put_text_take. }
  destruct (c =? ch "c"). { intros ([v a] & -> & [= <- <-])%bind_Some. cbn [mbind option_bind]. by rewrite putc_take. }
  destruct (Z.eqb_spec c (ch "%")) as [->|]; intros [= <- <-]; [by rewrite putc_take|].
  rewrite (putc_take end_ (ch "%")) by done. rewrite putc_take, take_take_app by (rewrite length_take; lia). by rewrite <- app_assoc.
Qed.

Lemma kv_loop_ok fuel end_ fmt args out ds text :
  (length out ≤ end_)%nat → parse_format fuel fmt = Some ds → render ds args = Some text → kv_loop fuel end_ fmt args out = Some (take end_ (out ++ text)).
Proof.
  revert fmt args out ds text. induction fuel as [|fuel IH]; intros fmt args out ds text Hl Hp Hr; [done|]. cbn [parse_format kv_loop] in *.
  destruct fmt as [|c fmt]; [injection Hp as <-; injection Hr as <-; by rewrite app_nil_r, take_ge|].
  destruct (Nat.ltb_spec (length out) end_) as [Hlt|Hge]; cbn [negb].
  2:{ rewrite take_app_le by lia. by rewrite take_ge by lia. }
  destruct (negb (c =? ch "%")).
  { apply fmap_Some in Hp as (ds' & Hp & ->). apply bind_Some in Hr as ([t a] & [= <- <-] & Hr). apply bind_Some in Hr as (rest & Hr & [= <-]).
    erewrite IH; [|rewrite length_app; cbn; lia|done|done]. by rewrite <- app_assoc. }
  destruct (skip_zeros false fmt) as [z f1]. destruct (read_width 0 f1) as [w f2]. destruct (length_modifier f2) as [[l ll] f3].
  destruct f3 as [|d f3]; [done|]. apply fmap_Some in Hp as (ds' & Hp & ->). apply bind_Some in Hr as ([t a] & Ht & Hr). apply bind_Some in Hr as (rest & Hr & [= <-]).
  cbn [hd]. rewrite (conversion_ok _ _ _ _ _ _ _ _ _ _ Hl Ht). cbn [mbind option_bind].
  erewrite IH; [|rewrite length_take; lia|done|done]. by rewrite take_take_app, <- app_assoc.
Qed.

(** C27: kvsnprintf writes exactly the rendering of the format and its
    arguments, cut to the [size - 1] bytes before the final NUL: at no size
    does it write beyond the buffer, and what is cut is the end. *)
Theorem kvsnprintf_correct size fmt args ds text :
  0 < size → parse_format (S (length fmt)) fmt = Some ds → render ds args = Some text →
  kvsnprintf size fmt args = Some (take (Z.to_nat (size - 1)) text).
Proof.
  intros Hs Hp Hr. unfold kvsnprintf. destruct (Z.leb_spec size 0); [lia|]. by rewrite (kv_loop_ok _ _ _ _ [] ds text); [|cbn; lia|..].
Qed.

(** ** The log holds the end of everything printed *)

Definition lastn {A} (n : nat) (l : list A) : list A := drop (length l - n) l.

Lemma lastn_app {A} n (a b : list A) : lastn n (lastn n a ++ b) = lastn n (a ++ b).
Proof.
  unfold lastn. rewrite !length_app, length_drop. destruct (decide (length a ≤ n)%nat).
  - replace (length a - n)%nat with O by lia. rewrite drop_0. f_equal. lia.
  - rewrite <- (drop_app_le a b (length a - n)) by lia. rewrite drop_drop. f_equal. lia.
Qed.

Definition log_view (s : klog) : list Z :=
  (λ i, log_byte s ((printk_log_start s + i) `mod` PRINTK_LOG_BUFFER_SIZE)) <$> seqZ 0 (printk_log_count s).

Definition log_inv (s : klog) : Prop :=
  0 ≤ printk_log_start s < PRINTK_LOG_BUFFER_SIZE ∧ 0 ≤ printk_log_count s ≤ PRINTK_LOG_BUFFER_SIZE.

Lemma log_view_length s : log_inv s → Z.of_nat (length (log_view s)) = printk_log_count s.
Proof. intros [_ ?]. unfold log_view. rewrite length_fmap, length_seqZ. lia. Qed.

Lemma log_view_lookup s i : log_inv s → 0 ≤ i < printk_log_count s →
  log_view s !! Z.to_nat i = Some (log_byte s ((printk_log_start s + i) `mod` PRINTK_LOG_BUFFER_SIZE)).
Proof. intros _ Hi. unfold log_view. rewrite list_lookup_fmap, lookup_seqZ_lt by lia. cbn. do 3 f_equal. lia. Qed.

Lemma append_byte_ok c s : log_inv s → log_inv (append_byte c s) ∧ log_view (append_byte c s) = lastn (Z.to_nat PRINTK_LOG_BUFFER_SIZE) (log_view s ++ [c]).
Proof.
  intros Hi. pose proof Hi as [Hs Hc]. unfold PRINTK_LOG_BUFFER_SIZE in Hs, Hc.
  assert (log_inv (append_byte c s)) as Hi'.
  { unfold append_byte, log_inv, PRINTK_LOG_BUFFER_SIZE in *. destruct (Z.ltb_spec (printk_log_count s) 65536); cbn; [lia|].
    pose proof (Z.mod_pos_bound (printk_log_start s + 1) 65536 ltac:(lia)). lia. }
  split; [done|]. pose proof (log_view_length s Hi) as HL. pose proof (log_view_length _ Hi') as HL'.
  set (d := if printk_log_count s <? PRINTK_LOG_BUFFER_SIZE then 0 else 1).
  assert (lastn (Z.to_nat PRINTK_LOG_BUFFER_SIZE) (log_view s ++ [c]) = drop (Z.to_nat d) (log_view s ++ [c])) as ->.
  { unfold lastn. rewrite length_app. cbn [length]. f_equal. unfold d, PRINTK_LOG_BUFFER_SIZE. destruct (Z.ltb_spec (printk_log_count s) 65536); lia. }
  assert (printk_log_count (append_byte c s) = printk_log_count s + 1 - d ∧ printk_log_start (append_byte c s) = (printk_log_start s + d) `mod` 65536) as [Ec Es].
  { unfold append_byte, d, PRINTK_LOG_BUFFER_SIZE. destruct (Z.ltb_spec (printk_log_count s) 65536); cbn; [|lia]. rewrite Z.add_0_r, Z.mod_small; lia. }
  assert (0 ≤ d ≤ 1 ∧ (d = 0 → printk_log_count s < 65536) ∧ (d = 1 → printk_log_count s = 65536)) as (Hd & Hd0 & Hd1).
  { unfold d, PRINTK_LOG_BUFFER_SIZE. destruct (Z.ltb_spec (printk_log_count s) 65536); lia. }
  apply list_eq_same_length with (n := Z.to_nat (printk_log_count (append_byte c s))); [rewrite length_drop, length_app; cbn [length]; lia|lia|].
  intros i x y Hlt Hx Hy. rewrite lookup_drop in Hy. replace i with (Z.to_nat (Z.of_nat i)) in Hx by lia. rewrite log_view_lookup in Hx by (done || lia). injection Hx as <-.
  rewrite Es. unfold PRINTK_LOG_BUFFER_SIZE. rewrite Z.add_mod_idemp_l by lia.
  assert (∀ p, log_byte (append_byte c s) p = if decide (p = (printk_log_start s + printk_log_count s) `mod` 65536) then c else log_byte s p) as Hb.
  { intros p. unfold append_byte, log_byte, PRINTK_LOG_BUFFER_SIZE. destruct (_ <? _); cbn; rewrite lookup_insert; repeat case_decide; congruence || done. }
  rewrite Hb. destruct (decide (Z.of_nat i + d = printk_log_count s)) as [Heq|Hne].
  - rewrite decide_True by (f_equal; lia). replace (Z.to_nat d + i)%nat with (length (log_view s) + 0)%nat in Hy by lia. rewrite lookup_app_r in Hy by lia.
    replace (_ + 0 - _)%nat with O in Hy by lia. by injection Hy.
  - rewrite decide_False.
    + rewrite lookup_app_l in Hy by lia. replace (Z.to_nat d + i)%nat with (Z.to_nat (d + Z.of_nat i)) in Hy by lia. rewrite log_view_lookup in Hy by (done || lia).
      injection Hy as <-. unfold PRINTK_LOG_BUFFER_SIZE. f_equal. f_equal. lia.
    + intros Hm. assert (0 ≤ d + Z.of_nat i < printk_log_count s) as Hr by lia. clearbody d. clear - Hm Hr Hs Hc Hd Hd0 Hd1. lia_mod.
Qed.

Lemma log_append_ok buf s :
  log_inv s → log_inv (printk_log_append buf s) ∧ log_view (printk_log_append buf s) = lastn (Z.to_nat PRINTK_LOG_BUFFER_SIZE) (log_view s ++ buf).
Proof.
  revert s. induction buf as [|c buf IH]; intros s Hi; cbn [printk_log_append].
  - split; [done|]. rewrite app_nil_r. unfold lastn. replace (_ - _)%nat with O; [done|]. pose proof (log_view_length s Hi). destruct Hi as [_ ?]. lia.
  - destruct (append_byte_ok c s Hi) as [Hi' Hv]. destruct (IH _ Hi') as [Hi2 ->]. split; [done|]. by rewrite Hv, lastn_app, <- app_assoc.
Qed.

Lemma log_read_view s offset size :
  log_inv s → 0 ≤ offset → 0 ≤ size → printk_log_read true offset size s = take (Z.to_nat size) (drop (Z.to_nat offset) (log_view s)).
Proof.
  intros Hi Ho Hz. pose proof (log_view_length s Hi) as HL. unfold printk_log_read. cbn [negb orb].
  destruct (Z.eqb_spec size 0) as [->|Hz0]; [done|]. destruct (Z.leb_spec (printk_log_count s) offset); cbn [orb]; [by rewrite drop_ge, take_nil by lia|].
  set (n := if printk_log_count s - offset <? size then printk_log_count s - offset else size). assert (0 ≤ n ≤ size ∧ n ≤ printk_log_count s - offset ∧ (n < size → n = printk_log_count s - offset)) as (Hn1 & Hn2 & Hn3)
    by (unfold n; destruct (Z.ltb_spec (printk_log_count s - offset) size); lia). clearbody n.
  apply list_eq_same_length with (n := Z.to_nat n); [rewrite length_take, length_drop; lia|by rewrite length_fmap, length_seqZ|].
  intros i x y Hlt Hx Hy. rewrite list_lookup_fmap, lookup_seqZ_lt in Hx by lia. cbn in Hx. injection Hx as <-.
  rewrite lookup_take_lt, lookup_drop in Hy by lia. replace (Z.to_nat offset + i)%nat with (Z.to_nat (offset + Z.of_nat i)) in Hy by lia.
  rewrite log_view_lookup in Hy by (done || lia). injection Hy as <-. do 2 f_equal. lia.
Qed.

(** The states after any number of messages, with everything printed. *)
Inductive klog_run : klog → list Z → Prop :=
  | run_boot : klog_run klog_boot []
  | run_printk s all fmt args s' text : klog_run s all → kvsnprintf PRINTK_BUFFER_SIZE (skip_level fmt) args = Some text →
      printk fmt args s = Some (s', Z.of_nat (length text)) → klog_run s' (all ++ text)
  | run_early s all fmt args s' text : klog_run s all → kvsnprintf PRINTK_BUFFER_SIZE fmt args = Some text →
      early_printk fmt args s = Some (s', Z.of_nat (length text)) → klog_run s' (all ++ text).

Lemma klog_run_ok s all : klog_run s all → log_inv s ∧ log_view s = lastn (Z.to_nat PRINTK_LOG_BUFFER_SIZE) all.
Proof.
  assert (∀ s s' all text, s' = uart_puts text (printk_log_append text s) → log_inv s ∧ log_view s = lastn (Z.to_nat PRINTK_LOG_BUFFER_SIZE) all →
    log_inv s' ∧ log_view s' = lastn (Z.to_nat PRINTK_LOG_BUFFER_SIZE) (all ++ text)) as Hstep.
  { intros s0 s1 all0 text -> [Hi Hv]. destruct (log_append_ok text s0 Hi) as [Hi' Hv']. split; [exact Hi'|]. change (log_view (uart_puts _ ?x)) with (log_view x). by rewrite Hv', Hv, lastn_app. }
  induction 1 as [|s all fmt args s' text _ IH E Ep|s all fmt args s' text _ IH E Ep]; [done|..]; apply (Hstep s); try done.
  - unfold printk, vprintk in Ep. rewrite E in Ep. by injection Ep.
  - unfold early_printk in Ep. rewrite E in Ep. by injection Ep.
Qed.

(** C26: after any sequence of messages the kernel log holds the last 65536
    bytes of everything printed, in order, and printk_log_read gives the part
    of them that it is asked for. *)
Theorem printk_log_correct s all offset size :
  klog_run s all → 0 ≤ offset → 0 ≤ size →
  let log := lastn (Z.to_nat PRINTK_LOG_BUFFER_SIZE) all in
  printk_log_size s = Z.of_nat (length log) ∧ printk_log_read true offset size s = take (Z.to_nat size) (drop (Z.to_nat offset) log).
Proof.
  intros Hr Ho Hz log. destruct (klog_run_ok s all Hr) as [Hi Hv]. unfold log. rewrite <- Hv. split; [symmetry; by apply log_view_length|by apply log_read_view].
Qed.

(** ** Concrete runs *)

Definition demo_fmt : list Z := bytes_of_string "<6>boot %s: %5u pages, %d"%string.
Definition demo_args : list va := [VStr (Some (bytes_of_string "pmm"%string)); VNum 512; VNum (-1)].
Definition demo_text : list Z := bytes_of_string "boot pmm:   512 pages, -1"%string.
Definition demo_klog : klog := fst (default (klog_boot, 0) (printk demo_fmt demo_args klog_boot)).

Lemma demo_klog_run : klog_run demo_klog demo_text.
Proof. apply (run_printk klog_boot [] demo_fmt demo_args demo_klog demo_text run_boot); vm_compute; reflexivity. Qed.

Lemma printk_log_correct_witness :
  printk_log_size demo_klog = 25 ∧ printk_log_read true 5 3 demo_klog = bytes_of_string "pmm"%string.
Proof.
  destruct (printk_log_correct demo_klog demo_text 5 3 demo_klog_run) as [H1 H2]; [lia|lia|]. split.
  - rewrite H1. vm_compute. reflexivity.
  - rewrite H2. vm_compute. reflexivity.
Defined.

Lemma kvsnprintf_correct_witness : kvsnprintf 9 (skip_level demo_fmt) demo_args = Some (bytes_of_string "boot pmm"%string).
Proof.
  rewrite (kvsnprintf_correct 9 (skip_level demo_fmt) demo_args
    (default [] (parse_format (S (length (skip_level demo_fmt))) (skip_level demo_fmt))) demo_text); [vm_compute; reflexivity|lia|vm_compute; reflexivity..].
Defined.

Lemma itoa_correct_witness : ∃ l, itoa (- 2 ^ 63) 10 true false = Some (ch "-" :: l) ∧ num_value 10 l = 2 ^ 63.
Proof.
  destruct (itoa_correct (- 2 ^ 63) 10 true false) as (l & E & [Hv _ _] & _); [lia|cbv iota; lia|]. exists l. split; [exact E|exact Hv].
Defined.

(** A format that ends after a percent sign is read beyond its end. *)
Example trailing_percent_overruns : kvsnprintf 64 (bytes_of_string "100%"%string) [] = None.
Proof. vm_compute. reflexivity. Qed.

(** Zeros are put in front of the sign. *)
Example zeros_before_sign : kvsnprintf 64 (bytes_of_string "%05d"%string) [VNum (-7)] = Some (bytes_of_string "000-7"%string).
Proof. vm_compute. reflexivity. Qed.
