(* ===== verification/Spinlock.v ===== *)
(** * kernel/sync/spinlock.c: spinlocks on several processors

    One lock, any number of processors, each at an instruction of one of the
    lock routines ([pc]); a step is one instruction of one processor, with the
    meaning that the architecture gives to it.  On ARM64 a load-exclusive marks
    the processor in the exclusive monitor; any store to the lock clears the
    monitor, which can also be lost at any time ([Lose]), and a
    store-exclusive writes only while the mark is there.  The accesses are to
    one word and are taken in a single order; what the acquire and release
    orderings do for other words is not modelled.

    The fallback calls the compiler's __sync_lock_test_and_set.  The compiler
    documents it as an atomic exchange; the source says of the fallback that it
    is not safe for several processors.  Both are modelled: [Fallback true] has
    the atomic exchange, [Fallback false] a load and a store, between which
    other processors run. *)

From S2P Require Import Prelude.

(** The four variants of the source; the fallback with an atomic exchange or
    with one made of a load and a store. *)
Inductive arch := ARM64 | X86_64 | X86 | Fallback (atomic : bool).

(** spin_lock, or spin_lock_irqsave with the flags it has saved. *)
Inductive kind := Plain | Irq (saved : Z).

Inductive pc :=
  | Idle
  (* ARM64 spin_lock: labels 1 and 2, the tests, and the store *)
  | Wfe (k : kind) | Ldaxr (k : kind) | Loaded (k : kind) (tmp : Z) | Stxr (k : kind) | Stored (k : kind) (tmp : Z)
  (* ARM64 spin_trylock *)
  | TryLdaxr | TryLoaded (tmp : Z) | TryStxr | TryStored (tmp : Z)
  (* x86: the inner loop, the exchange, the test *)
  | Spin (k : kind) | Exchange (k : kind) | Exchanged (k : kind) (old : Z)
  | TryExchange | TryExchanged (old : Z)
  (* between the calls, and in spin_unlock *)
  | Held (k : kind) | Release (k : kind) | Restore (saved : Z)
  (* the fallback between the load and the store of the exchange *)
  | HalfExchange (k : kind) (old : Z) | TryHalfExchange (old : Z).

Record smp := mk_smp { lock : Z; monitor : gset Z; pcs : gmap Z pc; irq_flags : gmap Z Z }.

Definition pc_at (s : smp) (c : Z) : pc := default Idle (pcs s !! c).
Definition flags_at (s : smp) (c : Z) : Z := default 0 (irq_flags s !! c).

Definition goto (c : Z) (p : pc) (s : smp) : smp := mk_smp (lock s) (monitor s) (<[c := p]> (pcs s)) (irq_flags s).
Definition set_flags (c f : Z) (s : smp) : smp := mk_smp (lock s) (monitor s) (pcs s) (<[c := f]> (irq_flags s)).
Definition mark (c : Z) (s : smp) : smp := mk_smp (lock s) ({[c]} ∪ monitor s) (pcs s) (irq_flags s).
Definition unmark (c : Z) (s : smp) : smp := mk_smp (lock s) (monitor s ∖ {[c]}) (pcs s) (irq_flags s).
(** A store to the lock word. *)
Definition store_lock (v : Z) (s : smp) : smp := mk_smp v ∅ (pcs s) (irq_flags s).

Definition spin_lock_init (s : smp) : smp := store_lock 0 s.

(** arch_irq_save_local: what "msr daifset, #0xf" and "cli" leave in the flags. *)
Definition DAIF : Z := 0x3C0.
Definition IF : Z := 0x200.
Definition irq_disable (a : arch) (f : Z) : Z :=
  match a with ARM64 => Z.lor f DAIF | X86_64 | X86 => Z.ldiff f IF | Fallback _ => f end.
(** The value read: the fallback returns 0. *)
Definition irq_save (a : arch) (f : Z) : Z := match a with Fallback _ => 0 | _ => f end.
Definition irq_restore (a : arch) (saved f : Z) : Z := match a with Fallback _ => f | _ => saved end.
Definition irq_enabled (a : arch) (f : Z) : bool :=
  match a with ARM64 => negb (Z.testbit f 7) | X86_64 | X86 => Z.testbit f 9 | Fallback _ => true end.

(** The first instruction of spin_lock and of spin_trylock; "sevl" lets the
    first "wfe" pass. *)
Definition lock_entry (a : arch) (k : kind) : pc := match a with ARM64 => Wfe k | X86_64 | X86 => Spin k | Fallback _ => Exchange k end.
Definition try_entry (a : arch) : pc := match a with ARM64 => TryLdaxr | _ => TryExchange end.

(** The instruction at [pc_at s c]. *)
Definition instruction (a : arch) (c : Z) (s : smp) : option smp :=
  match pc_at s c with
  | Wfe k => Some (goto c (Ldaxr k) s)
  | Ldaxr k => Some (goto c (Loaded k (lock s)) (mark c s))
  | Loaded k tmp => Some (goto c (if negb (tmp =? 0) then Wfe k else Stxr k) s)
  | Stxr k => Some (if decide (c ∈ monitor s) then goto c (Stored k 0) (store_lock 1 s) else goto c (Stored k 1) s)
  | Stored k tmp => Some (goto c (if negb (tmp =? 0) then Ldaxr k else Held k) s)
  | TryLdaxr => Some (goto c (TryLoaded (lock s)) (mark c s))
  | TryLoaded tmp => Some (goto c (if negb (tmp =? 0) then Idle else TryStxr) s)
  | TryStxr => Some (if decide (c ∈ monitor s) then goto c (TryStored 0) (store_lock 1 s) else goto c (TryStored 1) s)
  | TryStored tmp => Some (goto c (if tmp =? 0 then Held Plain else Idle) s)
  | Spin k => Some (goto c (if negb (lock s =? 0) then Spin k else Exchange k) s)
  | Exchange k =>
      Some match a with
           | X86_64 => goto c (Exchanged k (lock s)) (if lock s =? 0 then store_lock 1 s else s)
           | Fallback false => goto c (HalfExchange k (lock s)) s
           | _ => goto c (Exchanged k (lock s)) (store_lock 1 s)
           end
  | Exchanged k old => Some (goto c (if old =? 0 then Held k else lock_entry a k) s)
  | TryExchange =>
      Some match a with
           | Fallback false => goto c (TryHalfExchange (lock s)) s
           | _ => goto c (TryExchanged (lock s)) (store_lock 1 s)
           end
  | TryExchanged old => Some (goto c (if old =? 0 then Held Plain else Idle) s)
  | Release k => Some (goto c (match k with Plain => Idle | Irq f => Restore f end) (store_lock 0 s))
  | Restore f => Some (goto c Idle (set_flags c (irq_restore a f (flags_at s c)) s))
  | HalfExchange k old => match a with Fallback false => Some (goto c (Exchanged k old) (store_lock 1 s)) | _ => None end
  | TryHalfExchange old => match a with Fallback false => Some (goto c (TryExchanged old) (store_lock 1 s)) | _ => None end
  | Idle | Held _ => None
  end.

(** A processor calls a routine, runs an instruction, or loses its mark;
    spin_unlock and spin_unlock_irqrestore are called by the holder.  Outside
    the routines it may change its flags, except where it holds the lock with
    interrupts saved. *)
Inductive event := Call_lock | Call_lock_irqsave | Call_trylock | Call_unlock | Run | Lose | Set_flags (f : Z).

Definition step (a : arch) (c : Z) (e : event) (s : smp) : option smp :=
  match e, pc_at s c with
  | Call_lock, Idle => Some (goto c (lock_entry a Plain) s)
  | Call_lock_irqsave, Idle =>
      Some (goto c (lock_entry a (Irq (irq_save a (flags_at s c)))) (set_flags c (irq_disable a (flags_at s c)) s))
  | Call_trylock, Idle => Some (goto c (try_entry a) s)
  | Call_unlock, Held k => Some (goto c (Release k) s)
  | Run, _ => instruction a c s
  | Lose, _ => Some (unmark c s)
  | Set_flags f, Idle => Some (set_flags c f s)
  | Set_flags f, Held Plain => Some (set_flags c f s)
  | _, _ => None
  end.

Definition smp_boot (flags : gmap Z Z) : smp := spin_lock_init (mk_smp 0 ∅ ∅ flags).

Inductive reach (a : arch) : smp → Prop :=
  | reach_boot flags : reach a (smp_boot flags)
  | reach_step c e s s' : reach a s → step a c e s = Some s' → reach a s'.

(** ** Mutual exclusion *)

(** The exchange is one step. *)
Definition atomic_exchange (a : arch) : bool := match a with Fallback false => false | _ => true end.

(** The processor has taken the lock and not released it. *)
Definition owns (p : pc) : bool :=
  match p with
  | Stored _ tmp | TryStored tmp => tmp =? 0
  | Exchanged _ old | TryExchanged old => old =? 0
  | Held _ | Release _ => true
  | _ => false
  end.

(** What a processor knows of the lock while its mark is there. *)
Definition marked_ok (l : Z) (p : pc) : Prop :=
  match p with
  | Loaded _ tmp | TryLoaded tmp => tmp = l
  | Stxr _ | TryStxr => l = 0
  | _ => True
  end.

Record lock_inv (s : smp) : Prop := {
  li_owned : lock s ≠ 0 → ∃ c, owns (pc_at s c) = true;
  li_free c : lock s = 0 → owns (pc_at s c) = false;
  li_unique c d : owns (pc_at s c) = true → owns (pc_at s d) = true → c = d;
  li_marked c : c ∈ monitor s → marked_ok (lock s) (pc_at s c)
}.

Lemma pc_at_goto c p s d : pc_at (goto c p s) d = if decide (d = c) then p else pc_at s d.
Proof. unfold pc_at, goto. cbn. rewrite lookup_insert. repeat case_decide; congruence || done. Qed.

Lemma flags_at_set c f s d : flags_at (set_flags c f s) d = if decide (d = c) then f else flags_at s d.
Proof. unfold flags_at, set_flags. cbn. rewrite lookup_insert. repeat case_decide; congruence || done. Qed.

(** A step that does not write the lock and neither gains nor loses it. *)
Lemma inv_goto c p s m :
  lock_inv s → owns p = owns (pc_at s c) → m ⊆ {[c]} ∪ monitor s → (c ∈ m → marked_ok (lock s) p) →
  lock_inv (goto c p (mk_smp (lock s) m (pcs s) (irq_flags s))).
Proof.
  intros [H1 H2 H3 H4] Ho Hm Hp. assert (∀ d, owns (pc_at (goto c p (mk_smp (lock s) m (pcs s) (irq_flags s))) d) = owns (pc_at s d)) as E.
  { intros d. rewrite pc_at_goto. case_decide; [by subst|done]. }
  split; cbn [lock monitor goto].
  - intros Hl. destruct (H1 Hl) as [d Hd]. exists d. by rewrite E.
  - intros d Hl. rewrite E. by apply H2.
  - intros d d'. rewrite !E. apply H3.
  - intros d Hd. rewrite pc_at_goto. case_decide; [subst; by apply Hp|]. apply Hm in Hd. apply elem_of_union in Hd as [Hd%elem_of_singleton|Hd]; [done|]. by apply H4.
Qed.

(** Taking a free lock. *)
Lemma inv_take c p s : lock_inv s → lock s = 0 → owns p = true → lock_inv (goto c p (store_lock 1 s)).
Proof.
  intros [H1 H2 H3 H4] Hl Hp. assert (∀ d, owns (pc_at (goto c p (store_lock 1 s)) d) = true → d = c) as E.
  { intros d. rewrite pc_at_goto. case_decide; [done|]. change (pc_at (store_lock 1 s) d) with (pc_at s d). by rewrite (H2 d Hl). }
  split; cbn [lock monitor goto store_lock]; try done.
  - intros _. exists c. by rewrite pc_at_goto, decide_True.
  - intros d d' Hd Hd'. apply E in Hd, Hd'. congruence.
Qed.

(** Writing 1 to a lock that is taken. *)
Lemma inv_again c p s : lock_inv s → lock s ≠ 0 → owns p = false → owns (pc_at s c) = false → lock_inv (goto c p (store_lock 1 s)).
Proof.
  intros [H1 H2 H3 H4] Hl Hp Hc. assert (∀ d, owns (pc_at (goto c p (store_lock 1 s)) d) = owns (pc_at s d)) as E.
  { intros d. rewrite pc_at_goto. case_decide; [subst; congruence|done]. }
  split; cbn [lock monitor goto store_lock]; try done.
  - intros _. destruct (H1 Hl) as [d Hd]. exists d. by rewrite E.
  - intros d d'. rewrite !E. apply H3.
Qed.

Lemma inv_release c p s : lock_inv s → owns (pc_at s c) = true → owns p = false → lock_inv (goto c p (store_lock 0 s)).
Proof.
  intros [H1 H2 H3 H4] Hc Hp. assert (∀ d, owns (pc_at (goto c p (store_lock 0 s)) d) = false) as E.
  { intros d. rewrite pc_at_goto. case_decide; [done|]. change (pc_at (store_lock 0 s) d) with (pc_at s d).
    destruct (owns (pc_at s d)) eqn:Hd; [|done]. by rewrite (H3 d c Hd Hc) in *. }
  split; cbn [lock monitor goto store_lock]; try done. intros d d' Hd. by rewrite E in Hd.
Qed.

(** Reading the lock word or writing 1 to it, the old value kept. *)
Lemma inv_exchange c p s : lock_inv s → owns (pc_at s c) = false → owns p = (lock s =? 0) → lock_inv (goto c p (store_lock 1 s)).
Proof. intros Hi Hc Hp. destruct (Z.eqb_spec (lock s) 0); [by apply inv_take|by apply inv_again]. Qed.

Lemma instruction_inv a c s s' : atomic_exchange a = true → lock_inv s → instruction a c s = Some s' → lock_inv s'.
Proof.
  intros Ha Hi. unfold instruction. pose proof (li_marked s Hi c) as Hm.
  assert (∀ p m, owns p = owns (pc_at s c) → m ⊆ {[c]} ∪ monitor s → (c ∈ m → marked_ok (lock s) p) → lock_inv (goto c p (mk_smp (lock s) m (pcs s) (irq_flags s)))) as Hgo
    by (intros; by apply inv_goto).
  assert (∀ p, owns p = owns (pc_at s c) → (c ∈ monitor s → marked_ok (lock s) p) → lock_inv (goto c p s)) as Hjump.
  { intros p H1 H2. destruct s. apply (Hgo p); [done|apply union_subseteq_r|done]. }
  destruct (pc_at s c) as [|k|k|k tmp|k|k tmp| |tmp| |tmp|k|k|k old| |old|k|k|f|k old|old] eqn:Ep; try done; cbn [marked_ok] in Hm;
    [intros [= <-]..|by destruct a as [| | |[]]|by destruct a as [| | |[]]].
  - by apply Hjump.
  - apply (Hgo (Loaded k (lock s))); [done|done|done].
  - destruct (Z.eqb_spec tmp 0) as [->|]; cbn [negb]; apply Hjump; try done. intros Hc. cbn. by rewrite <- Hm.
  - case_decide as Hc; [apply inv_take; [done|by apply Hm|done]|by apply Hjump].
  - destruct (Z.eqb_spec tmp 0) as [->|]; cbn [negb]; apply Hjump; try done. cbn. by destruct (Z.eqb_spec tmp 0).
  - apply (Hgo (TryLoaded (lock s))); [done|done|done].
  - destruct (Z.eqb_spec tmp 0) as [->|]; cbn [negb]; apply Hjump; try done. intros Hc. cbn. by rewrite <- Hm.
  - case_decide as Hc; [apply inv_take; [done|by apply Hm|done]|by apply Hjump].
  - destruct (Z.eqb_spec tmp 0) as [->|]; apply Hjump; try done. cbn. by destruct (Z.eqb_spec tmp 0).
  - destruct (Z.eqb_spec (lock s) 0); by apply Hjump.
  - assert (lock_inv (goto c (Exchanged k (lock s)) (store_lock 1 s))) as Hx by (apply inv_exchange; [done|by rewrite Ep|done]).
    destruct a as [| | |[]]; try done. destruct (Z.eqb_spec (lock s) 0) as [|Hl]; [exact Hx|]. apply Hjump; [|done]. cbn. by apply Z.eqb_neq.
  - destruct (Z.eqb_spec old 0) as [->|]; apply Hjump; try done; [|by destruct a]. cbn. destruct (Z.eqb_spec old 0); [done|]. by destruct a.
  - destruct a as [| | |[]]; try done; apply inv_exchange; by rewrite ?Ep.
  - destruct (Z.eqb_spec old 0) as [->|]; apply Hjump; try done. cbn. by destruct (Z.eqb_spec old 0).
  - apply inv_release; [done|by rewrite Ep|by destruct k].
  - assert (lock_inv (goto c Idle s)) as [H1 H2 H3 H4] by (by apply Hjump). by split.
Qed.

Lemma step_inv a c e s s' : atomic_exchange a = true → lock_inv s → step a c e s = Some s' → lock_inv s'.
Proof.
  intros Ha Hi. assert (∀ p, owns p = owns (pc_at s c) → marked_ok (lock s) p → lock_inv (goto c p s)) as Hjump.
  { intros p H1 H2. destruct s. apply (inv_goto c p _ monitor0 Hi); [done|apply union_subseteq_r|done]. }
  destruct e; cbn [step].
  - destruct (pc_at s c) eqn:Ep; try done. intros [= <-]. apply Hjump; by destruct a.
  - destruct (pc_at s c) eqn:Ep; try done. intros [= <-].
    assert (lock_inv (goto c (lock_entry a (Irq (irq_save a (flags_at s c)))) s)) as [H1 H2 H3 H4] by (apply Hjump; by destruct a). by split.
  - destruct (pc_at s c) eqn:Ep; try done. intros [= <-]. apply Hjump; by destruct a.
  - destruct (pc_at s c) eqn:Ep; try done. intros [= <-]. by apply Hjump.
  - by apply instruction_inv.
  - intros [= <-]. destruct Hi as [H1 H2 H3 H4]. split; try done. intros d [Hd _]%elem_of_difference. by apply H4.
  - destruct (pc_at s c) as [| | | | | | | | | | | | | | |k|k| | |] eqn:Ep; try done; [|destruct k; [|done]]; intros [= <-]; destruct Hi as [H1 H2 H3 H4]; by split.
Qed.

Lemma reach_inv a s : atomic_exchange a = true → reach a s → lock_inv s.
Proof. intros Ha. induction 1 as [flags|c e s s' _ IH E]; [|by eapply step_inv]. split; cbn; try done; intros; unfold pc_at in *; cbn in *; rewrite lookup_empty in *; done. Qed.

(** C25: at any moment at most one processor has the lock, however the
    instructions of the processors interleave and the exclusive monitors are
    lost: in the ARM64, x86-64 and x86 implementations, and in the fallback
    where the compiler's exchange is atomic; the lock word is 0 exactly when no
    processor has taken it.  ([split_exchange_not_exclusive] shows what the
    fallback does where the exchange is a load and a store.) *)
Theorem spin_mutual_exclusion a s :
  atomic_exchange a = true → reach a s →
  (∀ c d k k', pc_at s c = Held k → pc_at s d = Held k' → c = d) ∧ (lock s = 0 ↔ ∀ c, owns (pc_at s c) = false).
Proof.
  intros Ha [H1 H2 H3 _]%reach_inv; [|done]. split.
  - intros c d k k' Hc Hd. apply H3; [by rewrite Hc|by rewrite Hd].
  - split; [intros Hl c; by apply H2|]. intros Hno. destruct (Z.eq_dec (lock s) 0) as [|Hl]; [done|]. destruct (H1 Hl) as [c Hc]. by rewrite Hno in Hc.
Qed.

(** ** Progress *)

(** [n] instructions of one processor. *)
Fixpoint run_alone (n : nat) (a : arch) (c : Z) (s : smp) : option smp :=
  match n with O => Some s | S n' => s' ← step a c Run s; run_alone n' a c s' end.

(** In spin_lock, without having taken the lock. *)
Definition waiting (k : kind) (p : pc) : Prop :=
  match p with
  | Wfe k' | Ldaxr k' | Loaded k' _ | Stxr k' | Spin k' | Exchange k' => k' = k
  | Stored k' tmp => k' = k ∧ tmp ≠ 0
  | Exchanged k' old => k' = k ∧ old ≠ 0
  | _ => False
  end.

Section Progress.
Variables (a : arch) (c : Z) (k : kind).

Definition acquires (n : nat) (s : smp) : Prop := ∃ m s', (m ≤ n)%nat ∧ run_alone m a c s = Some s' ∧ pc_at s' c = Held k.

Lemma acquires_step n s s' : instruction a c s = Some s' → acquires n s' → acquires (S n) s.
Proof.
  intros E (m & s2 & Hm & Er & Hh). exists (S m), s2. split; [lia|]. split; [|done]. cbn [run_alone]. assert (step a c Run s = Some s') as -> by (cbn; by destruct (pc_at s c)). done.
Qed.

Lemma acquires_goto n s p s' : instruction a c s = Some (goto c p s') → (∀ s2, pc_at s2 c = p → lock s2 = lock s' → monitor s2 = monitor s' → acquires n s2) → acquires (S n) s.
Proof. intros E Hn. eapply acquires_step; [exact E|]. apply Hn; [by rewrite pc_at_goto, decide_True|done|done]. Qed.

Lemma acquires_le n m s : (n ≤ m)%nat → acquires n s → acquires m s.
Proof. intros Hnm (x & s' & Hx & H). exists x, s'. split; [lia|done]. Qed.

Lemma acq_held n s : pc_at s c = Held k → acquires n s.
Proof. intros E. exists O, s. split; [lia|done]. Qed.

Lemma acq_taken s : pc_at s c = Stored k 0 ∨ pc_at s c = Exchanged k 0 → acquires 1 s.
Proof. intros [E|E]; (eapply acquires_goto; [unfold instruction; rewrite E; reflexivity|]); intros s2 E2 _ _; by apply acq_held. Qed.

Lemma acq_stxr s : pc_at s c = Stxr k → c ∈ monitor s → acquires 2 s.
Proof.
  intros E Hm. eapply acquires_goto; [unfold instruction; rewrite E, decide_True by done; reflexivity|]. intros s2 E2 _ _. apply acq_taken. by left.
Qed.

Lemma acq_ldaxr s : pc_at s c = Ldaxr k → lock s = 0 → acquires 4 s.
Proof.
  intros E Hl. eapply acquires_goto; [unfold instruction; rewrite E; reflexivity|]. intros s2 E2 _ Hm2. rewrite Hl in E2.
  eapply acquires_goto; [unfold instruction; rewrite E2; reflexivity|]. intros s3 E3 _ Hm3. apply acq_stxr; [done|]. rewrite Hm3, Hm2. cbn. apply elem_of_union. left. by apply elem_of_singleton.
Qed.

Lemma acq_wfe s : pc_at s c = Wfe k → lock s = 0 → acquires 5 s.
Proof. intros E Hl. eapply acquires_goto; [unfold instruction; rewrite E; reflexivity|]. intros s2 E2 Hl2 _. apply acq_ldaxr; [done|congruence]. Qed.

Lemma acq_stored s tmp : pc_at s c = Stored k tmp → tmp ≠ 0 → lock s = 0 → acquires 5 s.
Proof.
  intros E Ht Hl. eapply acquires_goto; [unfold instruction; rewrite E, (proj2 (Z.eqb_neq _ _) Ht); reflexivity|]. intros s2 E2 Hl2 _. apply acq_ldaxr; [done|congruence].
Qed.

Lemma acq_stxr_any s : pc_at s c = Stxr k → lock s = 0 → acquires 6 s.
Proof.
  intros E Hl. destruct (decide (c ∈ monitor s)) as [Hm|Hm]; [eapply acquires_le; [|by apply acq_stxr]; lia|].
  eapply acquires_goto; [unfold instruction; rewrite E, decide_False by done; reflexivity|]. intros s2 E2 Hl2 _. apply (acq_stored s2 1); [done|lia|congruence].
Qed.

Lemma acq_exchange s : pc_at s c = Exchange k → lock s = 0 → acquires 3 s.
Proof. 
  intros E Hl. assert (∀ s s', pc_at s c = Exchange k ∨ (∃ old, pc_at s c = HalfExchange k old) →
    instruction a c s = Some (goto c (Exchanged k 0) s') → acquires 2 s) as Htake.
  { intros s1 s' _ E'. eapply acquires_goto; [exact E'|]. intros s2 E2 _ _. apply acq_taken. by right. }
  unfold instruction in Htake. destruct a as [| | |[]] eqn:Ea.
  1-4: eapply acquires_le; [|eapply (Htake s); [by left|rewrite E, Hl; reflexivity]]; lia.
  eapply acquires_goto; [unfold instruction; rewrite E, Ea; reflexivity|]. intros s2 E2 _ _. rewrite Hl in E2.
  eapply (Htake s2); [by right; eauto|rewrite E2; reflexivity].
Qed.

Lemma acq_entry s : pc_at s c = lock_entry a k ∨ pc_at s c = Spin k → lock s = 0 → acquires 5 s.
Proof.
  assert (pc_at s c = Spin k → lock s = 0 → acquires 4 s) as Hspin.
  { intros E Hl. eapply acquires_goto; [unfold instruction; rewrite E, Hl; reflexivity|]. intros s2 E2 Hl2 _. apply acq_exchange; [done|congruence]. }
  intros [E|E] Hl; [|eapply acquires_le; [|by apply Hspin]; lia]. destruct a; cbn in E; [by apply acq_wfe|eapply acquires_le; [|by apply Hspin]; lia..|].
  eapply acquires_le; [|by apply acq_exchange]. lia.
Qed.
End Progress.

(** A processor that waits for a lock that is free takes it within eight
    of its own instructions, as long as no other processor interferes and its
    monitor is not lost: no state of the routine is a dead end, one left by a
    failed store or by a stale load included. *)
Theorem spin_lock_acquires a s c k :
  waiting k (pc_at s c) → lock s = 0 →
  ∃ n s', (n ≤ 8)%nat ∧ run_alone n a c s = Some s' ∧ pc_at s' c = Held k.
Proof.
  intros Hw Hl. assert (∃ n, (n ≤ 8)%nat ∧ acquires a c k n s) as (n & Hn & m & s' & Hm & H); [|exists m, s'; split; [lia|done]].
  destruct (pc_at s c) as [|k'|k'|k' tmp|k'|k' tmp| |tmp| |tmp|k'|k'|k' old| |old|k'|k'|f|k' old|old] eqn:E; cbn in Hw; try done.
  - subst. exists 5%nat. split; [lia|]. by apply acq_wfe.
  - subst. exists 4%nat. split; [lia|]. by apply acq_ldaxr.
  - subst. exists 7%nat. split; [lia|]. eapply acquires_goto; [unfold instruction; rewrite E; reflexivity|]. intros s2 E2 Hl2 _. rewrite Hl in Hl2.
    destruct (Z.eqb_spec tmp 0); cbn [negb] in E2; [by apply acq_stxr_any|]. eapply acquires_le; [|by apply acq_wfe]. lia.
  - subst. exists 6%nat. split; [lia|]. by apply acq_stxr_any.
  - destruct Hw as [-> Ht]. exists 5%nat. split; [lia|]. by eapply acq_stored.
  - subst. exists 5%nat. split; [lia|]. apply acq_entry; [by right|done].
  - subst. exists 3%nat. split; [lia|]. by apply acq_exchange.
  - destruct Hw as [-> Ht]. exists 6%nat. split; [lia|]. eapply acquires_goto; [unfold instruction; rewrite E, (proj2 (Z.eqb_neq _ _) Ht); reflexivity|].
    intros s2 E2 Hl2 _. apply acq_entry; [by left|congruence].
Qed.

(** ** Interrupts *)

(** The call of spin_lock_irqsave that saved [f] is not over. *)
Definition carries (f : Z) (p : pc) : Prop :=
  match p with
  | Wfe k | Ldaxr k | Loaded k _ | Stxr k | Stored k _ | Spin k | Exchange k | Exchanged k _ | Held k | Release k | HalfExchange k _ => k = Irq f
  | Restore f' => f' = f
  | _ => False
  end.

(** From a call of spin_lock_irqsave by [c] with the flags [f] to the end of
    the matching spin_unlock_irqrestore, all processors running. *)
Inductive irq_section (a : arch) (c f : Z) : smp → Prop :=
  | section_call s s' : flags_at s c = f → step a c Call_lock_irqsave s = Some s' → irq_section a c f s'
  | section_step d e s s' : irq_section a c f s → pc_at s c ≠ Idle → step a d e s = Some s' → irq_section a c f s'.

(** The fallback has no interrupts to disable. *)
Definition has_irqs (a : arch) : bool := match a with Fallback _ => false | _ => true end.

Lemma irq_disabled a f : has_irqs a = true → irq_enabled a (irq_disable a f) = false.
Proof.
  intros Ha. destruct a; cbn [irq_enabled irq_disable]; try done.
  - rewrite Z.lor_spec. change (Z.testbit DAIF 7) with true. by rewrite orb_true_r.
  - rewrite Z.ldiff_spec. change (Z.testbit IF 9) with true. by rewrite andb_false_r.
  - rewrite Z.ldiff_spec. change (Z.testbit IF 9) with true. by rewrite andb_false_r.
Qed.

Lemma instruction_other a c d s s' : d ≠ c → instruction a d s = Some s' → pc_at s' c = pc_at s c ∧ flags_at s' c = flags_at s c.
Proof.
  intros Hne. unfold instruction.
  destruct (pc_at s d); try done; intros E; try injection E as <-; try case_decide; try (rewrite pc_at_goto, decide_False by done; try done).
  - destruct a as [| | |[]]; rewrite pc_at_goto, decide_False by done; try done. by destruct (lock s =? 0).
  - destruct a as [| | |[]]; by rewrite pc_at_goto, decide_False.
  - split; [done|]. change (flags_at (set_flags d (irq_restore a saved (flags_at s d)) s) c = flags_at s c). by rewrite flags_at_set, decide_False.
  - destruct a as [| | |[]]; try done. injection E as <-. by rewrite pc_at_goto, decide_False.
  - destruct a as [| | |[]]; try done. injection E as <-. by rewrite pc_at_goto, decide_False.
Qed.

Lemma step_other a c d e s s' : d ≠ c → step a d e s = Some s' → pc_at s' c = pc_at s c ∧ flags_at s' c = flags_at s c.
Proof.
  intros Hne. assert (∀ p, pc_at (goto d p s) c = pc_at s c ∧ flags_at (goto d p s) c = flags_at s c) as Hgo by (intros p; rewrite pc_at_goto, decide_False by done; done).
  assert (∀ f, flags_at (set_flags d f s) c = flags_at s c) as Hf by (intros f; by rewrite flags_at_set, decide_False).
  destruct e; cbn [step]; [| | | |by apply instruction_other|by intros [= <-]|].
  1-4: destruct (pc_at s d); try done; intros [= <-]; try apply Hgo. { rewrite pc_at_goto, decide_False by done. split; [done|apply Hf]. }
  destruct (pc_at s d) as [| | | | | | | | | | | | | | |k|k| | |]; try done; [|destruct k; [|done]]; intros [= <-]; (split; [done|apply Hf]).
Qed.

(** Within the section the processor keeps what it has saved. *)
Lemma instruction_carries a c f s s' :
  carries f (pc_at s c) → instruction a c s = Some s' →
  (carries f (pc_at s' c) ∧ flags_at s' c = flags_at s c) ∨ (pc_at s' c = Idle ∧ flags_at s' c = irq_restore a f (flags_at s c)).
Proof.
  unfold instruction. destruct (pc_at s c) as [|k|k|k tmp|k|k tmp| |tmp| |tmp|k|k|k old| |old|k|k|f'|k old|old] eqn:E; cbn [carries]; try done; intros -> E'; try injection E' as <-.
  - left. by rewrite pc_at_goto, decide_True.
  - left. by rewrite pc_at_goto, decide_True.
  - left. rewrite pc_at_goto, decide_True by done. by destruct (negb _).
  - left. case_decide; by rewrite pc_at_goto, decide_True.
  - left. rewrite pc_at_goto, decide_True by done. by destruct (negb _).
  - left. rewrite pc_at_goto, decide_True by done. by destruct (negb _).
  - left. destruct a as [| | |[]]; rewrite pc_at_goto, decide_True by done; try done. by destruct (lock s =? 0).
  - left. rewrite pc_at_goto, decide_True by done. destruct (old =? 0); [done|]. by destruct a.
  - left. by rewrite pc_at_goto, decide_True.
  - right. rewrite pc_at_goto, decide_True by done. split; [done|].
    change (flags_at (set_flags c (irq_restore a f (flags_at s c)) s) c = irq_restore a f (flags_at s c)). by rewrite flags_at_set, decide_True.
  - left. destruct a as [| | |[]]; try done. injection E' as <-. by rewrite pc_at_goto, decide_True.
Qed.

Lemma step_carries a c f e s s' :
  carries f (pc_at s c) → step a c e s = Some s' →
  (carries f (pc_at s' c) ∧ flags_at s' c = flags_at s c) ∨ (pc_at s' c = Idle ∧ flags_at s' c = irq_restore a f (flags_at s c)).
Proof.
  intros Hc. destruct e; cbn [step].
  1-3: destruct (pc_at s c); done.
  - destruct (pc_at s c) eqn:E; try done. intros [= <-]. left. by rewrite pc_at_goto, decide_True.
  - intros E. by eapply instruction_carries.
  - intros [= <-]. by left.
  - destruct (pc_at s c) as [| | | | | | | | | | | | | | |k|k| | |] eqn:E; try done. by destruct k.
Qed.

(** From the call of spin_lock_irqsave to the end of the matching
    spin_unlock_irqrestore interrupts are off on the processor, while it
    waits, holds and releases the lock, whatever the others do; when the
    section ends the processor has the flags it had before, also when
    interrupts were off already. *)
Theorem irqsave_section a c f s :
  has_irqs a = true → irq_section a c f s →
  (pc_at s c ≠ Idle → irq_enabled a (flags_at s c) = false) ∧ (pc_at s c = Idle → flags_at s c = f).
Proof.
  intros Ha Hs. assert ((carries f (pc_at s c) ∧ irq_enabled a (flags_at s c) = false) ∨ (pc_at s c = Idle ∧ flags_at s c = f)) as Hor.
  2:{ destruct Hor as [[Hc Hd]|[Hc Hf]]; [|by rewrite Hc]. split; [done|]. intros Hi. by rewrite Hi in Hc. }
  induction Hs as [s s' Hf E|d e s s' _ IH Hidle E].
  - cbn [step] in E. destruct (pc_at s c); try done. injection E as <-. left. rewrite pc_at_goto, decide_True by done.
    split; [destruct a; cbn; by rewrite ?Hf|]. change (irq_enabled a (flags_at (set_flags c (irq_disable a (flags_at s c)) s) c) = false).
    rewrite flags_at_set, decide_True by done. by apply irq_disabled.
  - destruct IH as [[Hc Hd]|[Hc _]]; [|done]. destruct (decide (d = c)) as [->|Hne].
    + destruct (step_carries a c f e s s' Hc E) as [[Hc' Hf']|[Hi Hf']]; [left; by rewrite Hf'|right]. split; [done|]. rewrite Hf'. by destruct a.
    + destruct (step_other a c d e s s' Hne E) as [-> ->]. by left.
Qed.

(** ** A concrete run: two processors compete *)

(** A list of events, in order. *)
Fixpoint play (a : arch) (l : list (Z * event)) (s : smp) : option smp :=
  match l with [] => Some s | (c, e) :: l' => s' ← step a c e s; play a l' s' end.

Lemma play_reach a l s s' : reach a s → play a l s = Some s' → reach a s'.
Proof.
  revert s. induction l as [|[c e] l IH]; intros s Hr E; cbn [play] in E; [by injection E as <-|].
  apply bind_Some in E as (s1 & E1 & E). eapply IH; [|exact E]. by eapply reach_step.
Qed.

(** Both load the free lock; processor 0 stores first. *)
Definition demo_race : list (Z * event) :=
  [(0, Call_lock_irqsave); (1, Call_lock); (0, Run); (1, Run); (0, Run); (1, Run); (0, Run); (1, Run); (0, Run); (0, Run); (1, Run)].
Definition demo_smp : smp := default (smp_boot ∅) (play ARM64 demo_race (smp_boot ∅)).

Lemma demo_race_eq : play ARM64 demo_race (smp_boot ∅) = Some demo_smp.
Proof. vm_compute. reflexivity. Qed.
Lemma demo_smp_reach : reach ARM64 demo_smp.
Proof. exact (play_reach ARM64 demo_race _ _ (reach_boot ARM64 ∅) demo_race_eq). Qed.

Lemma spin_mutual_exclusion_witness : pc_at demo_smp 0 = Held (Irq 0) ∧ pc_at demo_smp 1 = Stored Plain 1 ∧ lock demo_smp = 1 ∧ (∀ c k, pc_at demo_smp c = Held k → c = 0).
Proof.
  assert (pc_at demo_smp 0 = Held (Irq 0)) as H0 by (vm_compute; reflexivity).
  split; [exact H0|]. split; [vm_compute; reflexivity|]. split; [vm_compute; reflexivity|].
  intros c k Hc. exact (proj1 (spin_mutual_exclusion ARM64 demo_smp eq_refl demo_smp_reach) c 0 k (Irq 0) Hc H0).
Defined.

Definition demo_free : smp := default demo_smp (play ARM64 [(0, Call_unlock); (0, Run); (0, Run)] demo_smp).

Lemma spin_lock_acquires_witness : ∃ n s', (n ≤ 8)%nat ∧ run_alone n ARM64 1 demo_free = Some s' ∧ pc_at s' 1 = Held Plain.
Proof.
  apply (spin_lock_acquires ARM64 demo_free 1 Plain); [|vm_compute; reflexivity].
  assert (pc_at demo_free 1 = Stored Plain 1) as -> by (vm_compute; reflexivity). cbn. split; [reflexivity|lia].
Defined.

Lemma irqsave_section_witness : irq_enabled ARM64 (flags_at (default (smp_boot ∅) (step ARM64 0 Call_lock_irqsave (smp_boot ∅))) 0) = false.
Proof.
  apply (irqsave_section ARM64 0 0 (default (smp_boot ∅) (step ARM64 0 Call_lock_irqsave (smp_boot ∅)))).
  - reflexivity.
  - apply (section_call ARM64 0 0 (smp_boot ∅)); vm_compute; reflexivity.
  - vm_compute. discriminate.
Defined.

(** Where the exchange of the fallback is a load and a store, two processors
    that load the free lock both take it. *)
Definition split_race : list (Z * event) :=
  [(0, Call_lock); (1, Call_lock); (0, Run); (1, Run); (0, Run); (1, Run); (0, Run); (1, Run)].
Definition split_smp : smp := default (smp_boot ∅) (play (Fallback false) split_race (smp_boot ∅)).

Lemma split_exchange_not_exclusive :
  reach (Fallback false) split_smp ∧ pc_at split_smp 0 = Held Plain ∧ pc_at split_smp 1 = Held Plain.
Proof.
  split; [|split; vm_compute; reflexivity].
  apply (play_reach (Fallback false) split_race _ _ (reach_boot _ ∅)). vm_compute. reflexivity.
Qed.
