(* ===== verification/Libc.v ===== *)
(** * libc/src/string.c, stdlib.c and signal.c: the C library of user programs

    Strings are NUL-terminated bytes in memory, as in [CString]; loops that
    stop at a NUL take fuel, and the theorems give the fuel that is enough.
    memcpy, memmove, memset, memcmp, strlen, strlcpy and strcmp have the same
    bodies as the kernel's, modelled in [CString], and are used from there.
    The allocator hands out parts of one static array; pointers are offsets in
    it, and the headers in front of the blocks are kept apart from the bytes. *)

From Stdlib Require Import Ascii.
From S2P Require Import Prelude CString Printk.


(** ** string.c *)

Fixpoint memchr_loop (n : nat) (m : gmap Z Z) (p c : Z) : option Z :=
  match n with
  | O => None
  | S n' => if load m p =? u8 c then Some p else memchr_loop n' m (p + 1) c
  end.
Definition memchr (m : gmap Z Z) (s c n : Z) : option Z := memchr_loop (Z.to_nat n) m s c.

Fixpoint strnlen_loop (n : nat) (m : gmap Z Z) (s len : Z) : Z :=
  match n with
  | O => len
  | S n' => if load m (s + len) =? 0 then len else strnlen_loop n' m s (len + 1)
  end.
Definition strnlen (m : gmap Z Z) (s maxlen : Z) : Z := strnlen_loop (Z.to_nat maxlen) m s 0.

(** [while ( *d) d++] *)
Fixpoint to_end (fuel : nat) (m : gmap Z Z) (d : Z) : option Z :=
  match fuel with
  | O => None
  | S fuel' => if load m d =? 0 then Some d else to_end fuel' m (d + 1)
  end.

(** [while (( *d++ = *src++))] *)
Fixpoint copy_str (fuel : nat) (m : gmap Z Z) (d src : Z) : option (gmap Z Z) :=
  match fuel with
  | O => None
  | S fuel' =>
      let c := load m src in
      let m := <[d := c]> m in
      if c =? 0 then Some m else copy_str fuel' m (d + 1) (src + 1)
  end.
Definition strcat (fuel : nat) (m : gmap Z Z) (dest src : Z) : option (gmap Z Z) := d ← to_end fuel m dest; copy_str fuel m d src.

(** [while (n-- && ( *d++ = *src++))], with the NUL after the last byte. *)
Fixpoint copy_strn (n : nat) (m : gmap Z Z) (d src : Z) : gmap Z Z :=
  match n with
  | O => m
  | S n' =>
      let c := load m src in
      let m := <[d := c]> m in
      if c =? 0 then m
      else
        let m := match n' with O => <[d + 1 := 0]> m | _ => m end in
        copy_strn n' m (d + 1) (src + 1)
  end.
Definition strncat (fuel : nat) (m : gmap Z Z) (dest src n : Z) : option (gmap Z Z) :=
  d ← to_end fuel m dest; Some (copy_strn (Z.to_nat n) m d src).

(** [while (--n && *s1 && *s1 == *s2)] *)
Fixpoint strncmp_loop (n : nat) (m : gmap Z Z) (s1 s2 : Z) : Z :=
  match n with
  | S (S _ as n') => if negb (load m s1 =? 0) && (load m s1 =? load m s2) then strncmp_loop n' m (s1 + 1) (s2 + 1) else load m s1 - load m s2
  | _ => load m s1 - load m s2
  end.
Definition strncmp (m : gmap Z Z) (s1 s2 n : Z) : Z := if n =? 0 then 0 else strncmp_loop (Z.to_nat n) m s1 s2.

Definition tolower (c : Z) : Z := if (ch "A" <=? c) && (c <=? ch "Z") then c + (ch "a" - ch "A") else c.

Fixpoint strcasecmp (fuel : nat) (m : gmap Z Z) (s1 s2 : Z) : option Z :=
  match fuel with
  | O => None
  | S fuel' =>
      if negb (load m s1 =? 0) && (tolower (load m s1) =? tolower (load m s2)) then strcasecmp fuel' m (s1 + 1) (s2 + 1)
      else Some (tolower (load m s1) - tolower (load m s2))
  end.

Fixpoint strncasecmp_loop (n : nat) (m : gmap Z Z) (s1 s2 : Z) : Z :=
  match n with
  | S (S _ as n') =>
      if negb (load m s1 =? 0) && (tolower (load m s1) =? tolower (load m s2)) then strncasecmp_loop n' m (s1 + 1) (s2 + 1)
      else tolower (load m s1) - tolower (load m s2)
  | _ => tolower (load m s1) - tolower (load m s2)
  end.
Definition strncasecmp (m : gmap Z Z) (s1 s2 n : Z) : Z := if n =? 0 then 0 else strncasecmp_loop (Z.to_nat n) m s1 s2.

Fixpoint strchr (fuel : nat) (m : gmap Z Z) (s c : Z) : option (option Z) :=
  match fuel with
  | O => None
  | S fuel' =>
      if load m s =? 0 then Some (if c =? 0 then Some s else None)
      else if load m s =? u8 c then Some (Some s) else strchr fuel' m (s + 1) c
  end.

Fixpoint strrchr_loop (fuel : nat) (m : gmap Z Z) (s c : Z) (last : option Z) : option (option Z) :=
  match fuel with
  | O => None
  | S fuel' =>
      if load m s =? 0 then Some (if c =? 0 then Some s else last)
      else strrchr_loop fuel' m (s + 1) c (if load m s =? u8 c then Some s else last)
  end.
Definition strrchr (fuel : nat) (m : gmap Z Z) (s c : Z) : option (option Z) := strrchr_loop fuel m s c None.

Fixpoint strstr_loop (fuel : nat) (m : gmap Z Z) (haystack needle needle_len : Z) : option (option Z) :=
  match fuel with
  | O => None
  | S fuel' =>
      if load m haystack =? 0 then Some None
      else if strncmp m haystack needle needle_len =? 0 then Some (Some haystack)
      else strstr_loop fuel' m (haystack + 1) needle needle_len
  end.
Definition strstr (fuel : nat) (m : gmap Z Z) (haystack needle : Z) : option (option Z) :=
  needle_len ← strlen fuel m needle;
  if needle_len =? 0 then Some (Some haystack) else strstr_loop fuel m haystack needle needle_len.

(** *** strerror *)

Definition error_strings : list (list Z) :=
  bytes_of_string <$> ["Success"; "Operation not permitted"; "No such file or directory"; "No such process"; "Interrupted system call"; "I/O error";
    "No such device or address"; "Argument list too long"; "Exec format error"; "Bad file number"; "No child processes"; "Try again"; "Out of memory";
    "Permission denied"]%string.

(** [do ... while (errnum > 0)], the division of C. *)
Fixpoint errnum_digits (fuel : nat) (errnum : Z) (num : list Z) : option (list Z) :=
  match fuel with
  | O => None
  | S fuel' =>
      let num := num ++ [u8 (ch "0" + Z.rem errnum 10)] in
      let errnum := Z.quot errnum 10 in
      if 0 <? errnum then errnum_digits fuel' errnum num else Some num
  end.

(** The text; [num] has 16 bytes and [buf] 64. *)
Definition strerror (errnum : Z) : option (list Z) :=
  if (0 <=? errnum) && (errnum <? Z.of_nat (length error_strings)) then error_strings !! Z.to_nat errnum
  else
    let '(sign, errnum) := if errnum <? 0 then ([ch "-"], i32 (- errnum)) else ([], errnum) in
    num ← errnum_digits 16 errnum [];
    Some (bytes_of_string "Unknown error "%string ++ sign ++ rev num).

(** ** stdlib.c: the allocator *)

Definition HEAP_SIZE : Z := 16 * 1024 * 1024.
Definition SIZEOF_HEADER : Z := 16.
Definition ALIGN16 (x : Z) : Z := Z.land (u64 (x + 15)) (Z.lnot 15).

Record malloc_header := mk_mh { mh_size : Z; mh_used : bool }.
(** Headers by the offset that they start at. *)
Record uheap := mk_uheap { heap_mem : gmap Z Z; heap_used : Z; headers : gmap Z malloc_header }.

Definition malloc (size : Z) (s : uheap) : uheap * option Z :=
  if size =? 0 then (s, None)
  else
    let total := ALIGN16 (u64 (SIZEOF_HEADER + size)) in
    if HEAP_SIZE <? u64 (heap_used s + total) then (s, None)
    else
      (mk_uheap (heap_mem s) (u64 (heap_used s + total)) (<[heap_used s := mk_mh size true]> (headers s)), Some (heap_used s + SIZEOF_HEADER)).

Definition calloc (nmemb size : Z) (s : uheap) : uheap * option Z :=
  let total := u64 (nmemb * size) in
  match malloc total s with
  | (s, Some ptr) => (mk_uheap (memset (heap_mem s) ptr 0 total) (heap_used s) (headers s), Some ptr)
  | r => r
  end.

(** [None]: the pointer has no header in front of it. *)
Definition free (ptr : option Z) (s : uheap) : option uheap :=
  match ptr with
  | None => Some s
  | Some p =>
      h ← headers s !! (p - SIZEOF_HEADER);
      Some (mk_uheap (heap_mem s) (heap_used s) (<[p - SIZEOF_HEADER := mk_mh (mh_size h) false]> (headers s)))
  end.

Definition realloc (ptr : option Z) (size : Z) (s : uheap) : option (uheap * option Z) :=
  match ptr with
  | None => Some (malloc size s)
  | Some p =>
      if size =? 0 then s ← free ptr s; Some (s, None)
      else
        h ← headers s !! (p - SIZEOF_HEADER);
        if size <=? mh_size h then Some (s, ptr)
        else
          match malloc size s with
          | (s, None) => Some (s, None)
          | (s, Some new) =>
              s ← free ptr (mk_uheap (memcpy (heap_mem s) new p (mh_size h)) (heap_used s) (headers s)); Some (s, Some new)
          end
  end.

(** ** stdlib.c: exit handlers

    A handler is known by what it registers with atexit when it is called. *)

Definition ATEXIT_MAX : nat := 32.

Definition atexit (f : Z) (funcs : list Z) : list Z * Z := if (ATEXIT_MAX <=? length funcs)%nat then (funcs, -1) else (funcs ++ [f], 0).

Fixpoint atexit_all (fs funcs : list Z) : list Z := match fs with [] => funcs | f :: fs' => atexit_all fs' (fst (atexit f funcs)) end.

(** The handlers in the order of their calls. *)
Fixpoint exit_loop (fuel : nat) (registers : Z → list Z) (funcs : list Z) : option (list Z) :=
  match fuel with
  | O => None
  | S fuel' =>
      match last funcs with
      | None => Some []
      | Some f => cons f <$> exit_loop fuel' registers (atexit_all (registers f) (take (length funcs - 1) funcs))
      end
  end.

(** ** stdlib.c: numbers

    Strings as lists: [*p] is [hd 0 p] and [p++] is [tl p]. *)

Fixpoint skip_space (spaces : list Z) (p : list Z) : list Z :=
  match p with
  | c :: p' => if existsb (Z.eqb c) spaces then skip_space spaces p' else p
  | [] => []
  end.

Definition read_sign (p : list Z) : Z * list Z :=
  match p with
  | c :: p' => if c =? ch "-" then (-1, p') else if c =? ch "+" then (1, p') else (1, p)
  | [] => (1, [])
  end.

Fixpoint atol_digits (result : Z) (p : list Z) : Z :=
  match p with
  | c :: p' => if is_digit c then atol_digits (i64 (i64 (result * 10) + (c - ch "0"))) p' else result
  | [] => result
  end.
Definition atol (nptr : list Z) : Z :=
  let '(sign, p) := read_sign (skip_space [ch " "; 9; 10] nptr) in i64 (atol_digits 0 p * sign).
Definition atoi (nptr : list Z) : Z := i32 (atol nptr).
Definition atoll (nptr : list Z) : Z := atol nptr.

(** The base that is used, and the string after the prefix. *)
Definition read_prefix (base : Z) (p : list Z) : Z * list Z :=
  let x c := (c =? ch "x") || (c =? ch "X") in
  if base =? 0 then
    match p with
    | c :: p' =>
        if c =? ch "0" then if x (hd 0 p') then (16, tl p') else (8, p')
        else (10, p)
    | [] => (10, [])
    end
  else
    match p with
    | c :: p' => if (base =? 16) && (c =? ch "0") && x (hd 0 p') then (base, tl p') else (base, p)
    | [] => (base, [])
    end.

Definition digit_of (c : Z) : option Z :=
  if is_digit c then Some (c - ch "0")
  else if (ch "a" <=? c) && (c <=? ch "z") then Some (c - ch "a" + 10)
  else if (ch "A" <=? c) && (c <=? ch "Z") then Some (c - ch "A" + 10)
  else None.

(** The value and the rest of the string. *)
Fixpoint strtol_digits (base result : Z) (p : list Z) : Z * list Z :=
  match p with
  | [] => (result, [])
  | c :: p' =>
      match digit_of c with
      | None => (result, p)
      | Some digit => if base <=? digit then (result, p) else strtol_digits base (i64 (i64 (result * base) + digit)) p'
      end
  end.

Definition strtol (nptr : list Z) (base : Z) : Z * list Z :=
  let '(sign, p) := read_sign (skip_space [ch " "; 9] nptr) in
  let '(base, p) := read_prefix base p in
  let '(result, p) := strtol_digits base 0 p in
  (i64 (result * sign), p).
Definition strtoul (nptr : list Z) (base : Z) : Z * list Z := let '(v, p) := strtol nptr base in (u64 v, p).

(** [rand_seed] and the result. *)
Definition RAND_MAX : Z := 2147483647.
Definition rand (rand_seed : Z) : Z * Z :=
  let rand_seed := u32 (rand_seed * 1103515245 + 12345) in (rand_seed, Z.land (Z.shiftr rand_seed 16) RAND_MAX).
Definition srand (seed : Z) : Z := u32 seed.

Definition abs (j : Z) : Z := if j <? 0 then i32 (- j) else j.
Definition labs (j : Z) : Z := if j <? 0 then i64 (- j) else j.

(** Quotient and remainder; a division by zero traps. *)
Definition div (numer denom : Z) : option (Z * Z) := if denom =? 0 then None else Some (i32 (Z.quot numer denom), Z.rem numer denom).
Definition ldiv (numer denom : Z) : option (Z * Z) := if denom =? 0 then None else Some (i64 (Z.quot numer denom), Z.rem numer denom).

(** ** signal.c: sets of signals; [None] for a NULL set *)

Definition sigemptyset (set : option Z) : option Z * Z := match set with None => (None, -1) | Some _ => (Some 0, 0) end.
Definition sigfillset (set : option Z) : option Z * Z := match set with None => (None, -1) | Some _ => (Some (2 ^ 64 - 1), 0) end.
Definition sigaddset (set : option Z) (sig : Z) : option Z * Z :=
  match set with
  | Some m => if (sig <? 1) || (64 <? sig) then (set, -1) else (Some (Z.lor m (Z.shiftl 1 (sig - 1))), 0)
  | None => (None, -1)
  end.
Definition sigdelset (set : option Z) (sig : Z) : option Z * Z :=
  match set with
  | Some m => if (sig <? 1) || (64 <? sig) then (set, -1) else (Some (Z.land m (Z.lnot (Z.shiftl 1 (sig - 1)))), 0)
  | None => (None, -1)
  end.
Definition sigismember (set : option Z) (sig : Z) : Z :=
  match set with
  | Some m => if (sig <? 1) || (64 <? sig) then -1 else if Z.land m (Z.shiftl 1 (sig - 1)) =? 0 then 0 else 1
  | None => -1
  end.

(** ** Strings: searching and joining *)

Lemma libc_strncmp_loop_spec n s1 s2 m a1 a2 :
  cstr_at m a1 s1 → cstr_at m a2 s2 → strncmp_loop (S n) m a1 a2 = 0 ↔ take (S n) s1 = take (S n) s2.
Proof.
  revert s1 s2 a1 a2. induction n as [|n IH]; intros s1 s2 a1 a2 H1 H2; pose proof (proj2 H1) as N1; pose proof (proj2 H2) as N2.
  - cbn [strncmp_loop]. rewrite (cstr_at_head _ _ _ H1), (cstr_at_head _ _ _ H2).
    destruct s1 as [|c1 s1], s2 as [|c2 s2]; cbn [hd take]; rewrite ?take_0; inversion N1; inversion N2; subst; (split; intros Heq; simplify_eq/=); lia || done || (f_equal; lia).
  - assert (strncmp_loop (S (S n)) m a1 a2 = if negb (load m a1 =? 0) && (load m a1 =? load m a2) then strncmp_loop (S n) m (a1 + 1) (a2 + 1) else load m a1 - load m a2) as -> by done.
    rewrite (cstr_at_head _ _ _ H1), (cstr_at_head _ _ _ H2). remember (S n) as k eqn:Ek. cbn [take].
    destruct s1 as [|c1 s1], s2 as [|c2 s2]; cbn [hd take].
    + done.
    + inversion N2; subst. cbn. split; [lia|done].
    + inversion N1; subst. zcase; [done|]. cbn. split; [lia|done].
    + inversion N1; inversion N2; subst. zcase; [done|]. cbn [negb andb]. zcase.
      * subst. rewrite (IH s1 s2) by (by eapply cstr_at_tail). split; [by intros ->|by intros [= ->]].
      * split; [lia|]. intros [= ? ?]. lia.
Qed.

Lemma strncmp_prefix m a1 a2 s1 s2 :
  cstr_at m a1 s1 → cstr_at m a2 s2 → s2 ≠ [] → (strncmp m a1 a2 (Z.of_nat (length s2)) =? 0) = true ↔ s2 `prefix_of` s1.
Proof.
  intros H1 H2 Hne. rewrite Z.eqb_eq. unfold strncmp. destruct (Z.eqb_spec (Z.of_nat (length s2)) 0) as [E|_]; [destruct s2; [done|cbn in E; lia]|].
  rewrite Nat2Z.id. destruct s2 as [|c s2]; [done|]. cbn [length]. rewrite (libc_strncmp_loop_spec _ _ _ _ _ _ H1 H2). rewrite (take_ge (c :: s2)) by (cbn; lia). split.
  - intros <-. apply prefix_take.
  - intros [r ->]. by rewrite take_app_length' by done.
Qed.

Lemma strstr_loop_spec s ns m h a fuel :
  cstr_at m h s → cstr_at m a ns → ns ≠ [] → (length s < fuel)%nat →
  ∃ r, strstr_loop fuel m h a (Z.of_nat (length ns)) = Some r ∧
    match r with
    | Some p => ∃ pre post, s = pre ++ ns ++ post ∧ p = h + Z.of_nat (length pre) ∧ ∀ pre' post', s = pre' ++ ns ++ post' → (length pre ≤ length pre')%nat
    | None => ∀ pre post, s ≠ pre ++ ns ++ post
    end.
Proof.
  intros Hs Ha Hne. revert h fuel Hs. induction s as [|c s IH]; intros h fuel Hs Hf; (destruct fuel as [|fuel]; [cbn in Hf; lia|]); cbn [strstr_loop];
    rewrite (cstr_at_head _ _ _ Hs); cbn [hd].
  { exists None. split; [done|]. intros pre post E. symmetry in E. apply app_eq_nil in E as [_ E]. by apply app_eq_nil in E as [E _]. }
  assert (c ≠ 0) as Hc by (destruct Hs as [_ Hn]; by inversion Hn). destruct (Z.eqb_spec c 0); [done|].
  pose proof (strncmp_prefix _ _ _ _ _ Hs Ha Hne) as Hp. destruct (strncmp m h a (Z.of_nat (length ns)) =? 0).
  { destruct (proj1 Hp eq_refl) as [post E]. exists (Some h). split; [done|]. exists [], post. split; [done|]. split; [cbn; lia|]. intros; cbn; lia. }
  destruct (IH (h + 1) fuel) as (r & -> & Hr); [by eapply cstr_at_tail|cbn in Hf; lia|]. exists r. split; [done|].
  assert (∀ post, c :: s ≠ ns ++ post) as Hno by (intros post E; discriminate (proj2 Hp (ex_intro _ post E))). destruct r as [p|].
  - destruct Hr as (pre & post & -> & -> & Hmin). exists (c :: pre), post. split; [done|]. split; [cbn [length]; lia|].
    intros [|c' pre'] post' E; [by destruct (Hno post')|]. injection E as _ E. cbn [length]. apply le_n_S. by apply (Hmin _ post').
  - intros [|c' pre] post E; [by destruct (Hno post)|]. injection E as _ E. by apply (Hr pre post).
Qed.

(** Strstr returns the first occurrence of the needle, and NULL exactly
    when there is none; the empty needle is found at the start. *)
Theorem strstr_first (m : gmap Z Z) (h a : Z) (s ns : list Z) (fuel : nat) :
  cstr_at m h s → cstr_at m a ns → (length s < fuel)%nat → (length ns < fuel)%nat →
  ∃ r, strstr fuel m h a = Some r ∧
    match r with
    | Some p => ∃ pre post, s = pre ++ ns ++ post ∧ p = h + Z.of_nat (length pre) ∧ ∀ pre' post', s = pre' ++ ns ++ post' → (length pre ≤ length pre')%nat
    | None => ∀ pre post, s ≠ pre ++ ns ++ post
    end.
Proof.
  intros Hs Ha Hf Hg. unfold strstr. rewrite (strlen_spec ns) by done. cbn [mbind option_bind]. destruct (Z.eqb_spec (Z.of_nat (length ns)) 0) as [E|E].
  - destruct ns; [|cbn in E; lia]. exists (Some h). split; [done|]. exists [], s. split; [done|]. split; [cbn; lia|]. intros; cbn; lia.
  - apply strstr_loop_spec; try done. by intros ->.
Qed.

Lemma to_end_spec s m a fuel : cstr_at m a s → (length s < fuel)%nat → to_end fuel m a = Some (a + Z.of_nat (length s)).
Proof.
  revert a fuel. induction s as [|c s IH]; intros a fuel Hs Hf; (destruct fuel as [|fuel]; [cbn in Hf; lia|]); cbn [to_end length]; rewrite (cstr_at_head _ _ _ Hs); cbn [hd].
  - f_equal. lia.
  - assert (c ≠ 0) by (destruct Hs as [_ Hn]; by inversion Hn). zcase; [done|]. rewrite (IH (a + 1)); [f_equal; lia|by eapply cstr_at_tail|cbn in Hf; lia].
Qed.

(** Writing outside a string leaves it. *)
Lemma cstr_insert m a s x v : cstr_at m a s → (x < a ∨ a + Z.of_nat (length s) < x) → cstr_at (<[x := v]> m) a s.
Proof.
  intros [Hb Hn] Hx. split; [|done]. intros i y Hi. pose proof (lookup_lt_Some _ _ _ Hi) as Hl. rewrite length_app in Hl. cbn in Hl.
  rewrite load_insert. destruct (Z.eqb_spec x (a + Z.of_nat i)); [lia|]. by apply Hb.
Qed.

(** [m'] is [m] with [t] and a NUL written at [d]. *)
Definition written (m m' : gmap Z Z) (d : Z) (t : list Z) : Prop :=
  cstr_at m' d t ∧ ∀ a, (a < d ∨ d + Z.of_nat (length t) < a) → load m' a = load m a.

Lemma written_nil m d : written m (<[d := 0]> m) d [].
Proof.
  split; [split; [|constructor]|].
  - intros i x Hi. apply list_lookup_singleton_Some in Hi as [-> <-]. rewrite load_insert. by destruct (Z.eqb_spec d (d + Z.of_nat 0)); [|lia].
  - intros a Ha. cbn in Ha. rewrite load_insert. by destruct (Z.eqb_spec d a); [lia|].
Qed.

Lemma written_cons m m' d c t : c ≠ 0 → written (<[d := c]> m) m' (d + 1) t → written m m' d (c :: t).
Proof.
  intros Hc [[Hb Hn] Hf]. split; [split; [|by constructor]|].
  - intros [|i] x Hi; cbn in Hi.
    + injection Hi as <-. rewrite Hf by lia. rewrite load_insert. by destruct (Z.eqb_spec d (d + Z.of_nat 0)); [|lia].
    + rewrite <- (Hb i x Hi). f_equal. lia.
  - intros a Ha. cbn [length] in Ha. rewrite Hf by lia. rewrite load_insert. by destruct (Z.eqb_spec d a); [lia|].
Qed.

Lemma copy_str_spec s m d src fuel :
  cstr_at m src s → (length s < fuel)%nat → (d + Z.of_nat (length s) < src ∨ src + Z.of_nat (length s) < d) →
  ∃ m', copy_str fuel m d src = Some m' ∧ written m m' d s.
Proof.
  revert m d src fuel. induction s as [|c s IH]; intros m d src fuel Hs Hf Hd; (destruct fuel as [|fuel]; [cbn in Hf; lia|]); cbn [copy_str]; rewrite (cstr_at_head _ _ _ Hs); cbn [hd].
  - exists (<[d := 0]> m). split; [done|apply written_nil].
  - assert (c ≠ 0) as Hc by (destruct Hs as [_ Hn]; by inversion Hn). destruct (Z.eqb_spec c 0); [done|]. cbn [length] in Hd, Hf.
    destruct (IH (<[d := c]> m) (d + 1) (src + 1) fuel) as (m' & -> & Hw); [|lia|lia|exists m'; split; [done|by apply written_cons]].
    apply cstr_insert; [by eapply cstr_at_tail|lia].
Qed.

Lemma copy_strn_spec n s m d src :
  cstr_at m src s → (0 < n)%nat → (d + Z.of_nat (length s) < src ∨ src + Z.of_nat (length s) < d) → written m (copy_strn n m d src) d (take n s).
Proof.
  revert m d src s. induction n as [|n IH]; intros m d src s Hs Hn Hd; [lia|]. cbn [copy_strn]. rewrite (cstr_at_head _ _ _ Hs). destruct s as [|c s]; cbn [hd take].
  - apply written_nil.
  - assert (c ≠ 0) as Hc by (destruct Hs as [_ Hn']; by inversion Hn'). destruct (Z.eqb_spec c 0); [done|]. apply written_cons; [done|]. cbn [length] in Hd.
    destruct n as [|n]; [cbn [copy_strn]; rewrite take_0; apply written_nil|]. apply IH; [|lia|lia]. apply cstr_insert; [by eapply cstr_at_tail|lia].
Qed.

Lemma written_append m m' dest ds t :
  cstr_at m dest ds → written m m' (dest + Z.of_nat (length ds)) t → written m m' dest (ds ++ t).
Proof.
  revert dest. induction ds as [|c ds IH]; intros dest Hds Hw; cbn [app length] in *; [by rewrite Z.add_0_r in Hw|].
  assert (written m m' (dest + 1) (ds ++ t)) as [Hc Hf]. { apply IH; [by eapply cstr_at_tail|]. by replace (dest + 1 + Z.of_nat (length ds)) with (dest + Z.of_nat (S (length ds))) by lia. }
  destruct Hds as [Hb Hn]. inversion Hn as [|? ? Hc0 Hn']; subst. split.
  - split; [|constructor; [done|apply Hc]]. intros [|i] x Hi; cbn in Hi.
    + injection Hi as <-. rewrite Hf by lia. by apply (Hb 0%nat).
    + rewrite <- (proj1 Hc i x Hi). f_equal. lia.
  - intros a Ha. cbn [length] in Ha. apply Hf. lia.
Qed.

(** strcat and strncat leave the joined string at [dest], the second cut to
    [n] bytes of the source, and change no byte behind its NUL. *)
Theorem strcat_correct (m : gmap Z Z) (dest src n : Z) (ds s : list Z) (fuel : nat) :
  cstr_at m dest ds → cstr_at m src s → (length ds < fuel)%nat → (length s < fuel)%nat → 0 < n →
  (dest + Z.of_nat (length ds) + Z.of_nat (length s) < src ∨ src + Z.of_nat (length s) < dest) →
  (∃ m', strcat fuel m dest src = Some m' ∧ written m m' dest (ds ++ s)) ∧
  (∃ m', strncat fuel m dest src n = Some m' ∧ written m m' dest (ds ++ take (Z.to_nat n) s)).
Proof.
  intros Hd Hs Hfd Hfs Hn Hdisj. unfold strcat, strncat. rewrite (to_end_spec ds) by done. cbn [mbind option_bind]. split.
  - destruct (copy_str_spec s m (dest + Z.of_nat (length ds)) src fuel Hs) as (m' & E & Hw); [lia|lia|]. exists m'. split; [done|by apply written_append].
  - eexists. split; [done|]. apply written_append; [done|]. apply copy_strn_spec; [done|lia|lia].
Qed.

(** ** The allocator never hands out a byte twice *)

(** A block is known by its header at [o]; it has [mh_size h] bytes after it. *)
Record uheap_inv (s : uheap) : Prop := {
  uh_used : 0 ≤ heap_used s ≤ HEAP_SIZE ∧ heap_used s `mod` 16 = 0;
  uh_block o h : headers s !! o = Some h → 0 ≤ o ∧ o `mod` 16 = 0 ∧ 0 < mh_size h ∧ o + SIZEOF_HEADER + mh_size h ≤ heap_used s;
  uh_disjoint o o' h : headers s !! o = Some h → is_Some (headers s !! o') → o < o' → o + SIZEOF_HEADER + mh_size h ≤ o'
}.

Definition uheap_boot (m : gmap Z Z) : uheap := mk_uheap m 0 ∅.

Lemma ALIGN16_spec x : 0 ≤ x < 2 ^ 64 - 15 → x ≤ ALIGN16 x < x + 16 ∧ ALIGN16 x `mod` 16 = 0.
Proof.
  intros Hx. unfold ALIGN16. rewrite u64_small by lia. change (Z.lnot 15) with (Z.lnot (Z.ones 4)). rewrite land_lnot_ones by lia. change (2 ^ 4) with 16. lia_mod.
Qed.

(** Headers that come and go are marked; sizes stay. *)
Lemma uheap_inv_same s s' :
  uheap_inv s → heap_used s' = heap_used s → (∀ o, mh_size <$> headers s' !! o = mh_size <$> headers s !! o) → uheap_inv s'.
Proof.
  intros [H1 H2 H3] Eu Eh. assert (∀ o h, headers s' !! o = Some h → ∃ h', headers s !! o = Some h' ∧ mh_size h' = mh_size h) as Hh.
  { intros o h Ho. specialize (Eh o). rewrite Ho in Eh. cbn in Eh. symmetry in Eh. apply fmap_Some in Eh as (h' & ? & ?). eauto. }
  split; rewrite ?Eu; [done| |].
  - intros o h Ho. destruct (Hh o h Ho) as (h' & Ho' & <-). by apply H2.
  - intros o o' h Ho [h2 Ho'] Hlt. destruct (Hh o h Ho) as (h' & Hoo & <-). destruct (Hh o' h2 Ho') as (h3 & Ho3 & _). eapply H3; eauto.
Qed.

Definition fits (size : Z) (s : uheap) : Prop := heap_used s + ALIGN16 (SIZEOF_HEADER + size) ≤ HEAP_SIZE.

Lemma umalloc_ok size s :
  uheap_inv s → 0 ≤ size < 2 ^ 63 →
  ∃ s' r, malloc size s = (s', r) ∧ uheap_inv s' ∧
    match r with
    | None => s' = s ∧ (size = 0 ∨ ¬ fits size s)
    | Some p => size ≠ 0 ∧ p = heap_used s + SIZEOF_HEADER ∧ headers s !! (p - SIZEOF_HEADER) = None ∧
        headers s' = <[p - SIZEOF_HEADER := mk_mh size true]> (headers s) ∧ heap_mem s' = heap_mem s
    end.
Proof.
  intros Hi Hs. pose proof Hi as [(Hu & Hm) H2 H3]. unfold malloc, fits, HEAP_SIZE, SIZEOF_HEADER in *. destruct (Z.eqb_spec size 0) as [->|Hne].
  { exists s, None. split; [done|]. split; [done|]. split; [done|]. by left. }
  rewrite (u64_small (16 + size)) by lia. destruct (ALIGN16_spec (16 + size)) as [Ha Hm16]; [lia|]. rewrite u64_small by lia.
  destruct (Z.ltb_spec (16 * 1024 * 1024) (heap_used s + ALIGN16 (16 + size))).
  { exists s, None. split; [done|]. split; [done|]. split; [done|]. right. lia. }
  set (s' := mk_uheap _ _ _). exists s', (Some (heap_used s + 16)). split; [done|].
  assert (headers s !! heap_used s = None) as Hnew. { destruct (headers s !! heap_used s) as [h|] eqn:E; [|done]. destruct (H2 _ _ E) as (? & ? & ? & ?). lia. }
  replace (heap_used s + 16 - 16) with (heap_used s) by lia. split; [|done]. split; cbn [heap_used s' headers].
  - unfold HEAP_SIZE. split; [lia|]. by apply mod_add_0.
  - intros o h. unfold SIZEOF_HEADER. rewrite lookup_insert. case_decide as Hd; [|intros Ho; destruct (H2 _ _ Ho) as (? & ? & ? & ?); lia]. intros [= <-]. subst o. cbn [mh_size]. lia.
  - intros o o' h Ho [h' Ho'] Hlt. unfold SIZEOF_HEADER. rewrite lookup_insert in Ho, Ho'. repeat case_decide; simplify_eq; try lia;
      try (destruct (H2 _ _ Ho) as (? & ? & ? & ?); lia); try (destruct (H2 _ _ Ho') as (? & ? & ? & ?); lia). unfold SIZEOF_HEADER in H3. by eapply H3.
Qed.

Lemma ufree_ok p h s : uheap_inv s → headers s !! (p - SIZEOF_HEADER) = Some h →
  ∃ s', free (Some p) s = Some s' ∧ uheap_inv s' ∧ heap_mem s' = heap_mem s ∧ ∀ o, mh_size <$> headers s' !! o = mh_size <$> headers s !! o.
Proof.
  intros Hi Hh. unfold free. rewrite Hh. cbn [mbind option_bind]. eexists. split; [done|].
  assert (∀ o, mh_size <$> <[p - SIZEOF_HEADER := mk_mh (mh_size h) false]> (headers s) !! o = mh_size <$> headers s !! o) as E.
  { intros o. rewrite lookup_insert. case_decide; [subst; by rewrite Hh|done]. }
  split; [by apply (uheap_inv_same s)|done].
Qed.

(** The calls of a program: any sizes below 2^63, any block that was handed
    out may be freed or reallocated.  The program writes inside its blocks. *)
Inductive uheap_call : uheap → uheap → Prop :=
  | call_malloc size s s' r : 0 ≤ size < 2 ^ 63 → malloc size s = (s', r) → uheap_call s s'
  | call_calloc nmemb size s s' r : 0 ≤ nmemb → 0 ≤ size → nmemb * size < 2 ^ 63 → calloc nmemb size s = (s', r) → uheap_call s s'
  | call_free p h s s' : headers s !! (p - SIZEOF_HEADER) = Some h → free (Some p) s = Some s' → uheap_call s s'
  | call_realloc p h size s s' r : headers s !! (p - SIZEOF_HEADER) = Some h → 0 ≤ size < 2 ^ 63 → realloc (Some p) size s = Some (s', r) → uheap_call s s'
  | call_write o h a v s : headers s !! o = Some h → o + SIZEOF_HEADER ≤ a < o + SIZEOF_HEADER + mh_size h →
      uheap_call s (mk_uheap (<[a := v]> (heap_mem s)) (heap_used s) (headers s)).

(** The blocks that there were are still there. *)
Definition blocks_kept (s s' : uheap) : Prop := ∀ o h, headers s !! o = Some h → ∃ h', headers s' !! o = Some h' ∧ mh_size h' = mh_size h.

Lemma same_sizes_kept s s' : (∀ o, mh_size <$> headers s' !! o = mh_size <$> headers s !! o) → blocks_kept s s'.
Proof. intros E o h Ho. specialize (E o). rewrite Ho in E. apply fmap_Some in E as (h' & ? & ?). eauto. Qed.

Lemma malloc_kept size s s' r : uheap_inv s → 0 ≤ size < 2 ^ 63 → malloc size s = (s', r) → uheap_inv s' ∧ blocks_kept s s'.
Proof.
  intros Hi Hs E. destruct (umalloc_ok size s Hi Hs) as (s1 & r1 & E1 & Hi1 & Hr). rewrite E in E1. injection E1 as <- <-. split; [done|].
  destruct r as [p|]; [|destruct Hr as [-> _]; intros o h Ho; eauto]. destruct Hr as (_ & _ & Hnew & Eh & _). intros o h Ho. exists h.
  rewrite Eh, lookup_insert_ne; [done|congruence].
Qed.

Lemma realloc_ok p h size s :
  uheap_inv s → headers s !! (p - SIZEOF_HEADER) = Some h → 0 ≤ size < 2 ^ 63 →
  ∃ s' r, realloc (Some p) size s = Some (s', r) ∧ uheap_inv s' ∧ blocks_kept s s' ∧
    match r with
    | None => heap_mem s' = heap_mem s
    | Some q => ∃ h', headers s' !! (q - SIZEOF_HEADER) = Some h' ∧ size ≤ mh_size h' ∧ ∀ i, 0 ≤ i < mh_size h → load (heap_mem s') (q + i) = load (heap_mem s) (p + i)
    end.
Proof.
  intros Hi Hh Hs. unfold realloc. destruct (Z.eqb_spec size 0) as [->|Hne].
  { destruct (ufree_ok p h s Hi Hh) as (s' & -> & Hi' & Em & Es). cbn [mbind option_bind]. exists s', None. split; [done|]. split; [done|]. split; [by apply same_sizes_kept|done]. }
  rewrite Hh. cbn [mbind option_bind]. destruct (Z.leb_spec size (mh_size h)).
  { exists s, (Some p). split; [done|]. split; [done|]. split; [intros o h' Ho; eauto|]. exists h. done. }
  destruct (umalloc_ok size s Hi Hs) as (s1 & r & E & Hi1 & Hr). pose proof (malloc_kept _ _ _ _ Hi Hs E) as [_ Hk]. rewrite E. destruct r as [q|].
  2:{ exists s1, None. destruct Hr as [-> _]. done. }
  destruct Hr as (_ & -> & Hnew & Eh & Em). set (q := heap_used s + SIZEOF_HEADER) in *. set (s2 := mk_uheap _ _ _).
  assert (p - SIZEOF_HEADER ≠ q - SIZEOF_HEADER) as Hpq by congruence.
  assert (headers s1 !! (p - SIZEOF_HEADER) = Some h) as Hh1 by (by rewrite Eh, lookup_insert_ne).
  destruct (ufree_ok p h s2) as (s3 & -> & Hi3 & Em3 & Es3); [by apply (uheap_inv_same s1)|done|]. cbn [mbind option_bind].
  exists s3, (Some q). split; [done|]. split; [done|]. split; [intros o h' Ho; destruct (Hk o h' Ho) as (h2 & Ho2 & <-); by apply (same_sizes_kept s2)|].
  assert (headers s2 !! (q - SIZEOF_HEADER) = Some (mk_mh size true)) as Hq by (unfold s2; cbn; by rewrite Eh, lookup_insert_eq).
  destruct (same_sizes_kept s2 s3 Es3 _ _ Hq) as (h' & Hh' & Eh'). exists h'. split; [done|]. cbn in Eh'. split; [lia|].
  intros i Hri. rewrite Em3. unfold s2. cbn [heap_mem]. rewrite Em. destruct (uh_block _ Hi _ _ Hh) as (Hp0 & _ & Hsz & Hpe). unfold q, SIZEOF_HEADER in *.
  rewrite memcpy_load by lia. destruct (Z.leb_spec (heap_used s + 16) (heap_used s + 16 + i)), (Z.ltb_spec (heap_used s + 16 + i) (heap_used s + 16 + mh_size h)); try lia. cbn [andb].
  f_equal. lia.
Qed.

Lemma calloc_ok nmemb size s :
  uheap_inv s → 0 ≤ nmemb → 0 ≤ size → nmemb * size < 2 ^ 63 →
  ∃ s' r, calloc nmemb size s = (s', r) ∧ uheap_inv s' ∧ blocks_kept s s' ∧
    match r with
    | None => nmemb * size = 0 ∨ ¬ fits (nmemb * size) s
    | Some p => headers s' !! (p - SIZEOF_HEADER) = Some (mk_mh (nmemb * size) true) ∧ headers s !! (p - SIZEOF_HEADER) = None ∧
        ∀ i, 0 ≤ i < nmemb * size → load (heap_mem s') (p + i) = 0
    end.
Proof.
  intros Hi Hn Hz Hs. unfold calloc. rewrite u64_small by nia. destruct (umalloc_ok (nmemb * size) s Hi) as (s1 & r & E & Hi1 & Hr); [nia|].
  pose proof (malloc_kept (nmemb * size) s s1 r Hi ltac:(nia) E) as [_ Hk]. rewrite E. destruct r as [p|]; [|exists s1, None; destruct Hr as [-> Hr]; done].
  destruct Hr as (_ & _ & Hnew & Eh & _). eexists _, _. split; [done|]. split; [by apply (uheap_inv_same s1)|]. split; [exact Hk|]. cbn [headers heap_mem].
  rewrite Eh, lookup_insert_eq. split; [done|]. split; [done|]. intros i Hri. unfold memset. rewrite set_fwd_spec.
  rewrite Z2Nat.id by lia. destruct (Z.leb_spec p (p + i)), (Z.ltb_spec (p + i) (p + nmemb * size)); cbn [andb]; done || lia.
Qed.

Lemma call_ok s s' : uheap_inv s → uheap_call s s' → uheap_inv s' ∧ blocks_kept s s'.
Proof.
  intros Hi Hc. destruct Hc as [size s s' r Hs E|nmemb size s s' r Hn Hz Hs E|p h s s' Hh E|p h size s s' r Hh Hs E|o h a v s _ _].
  - by eapply malloc_kept.
  - destruct (calloc_ok nmemb size s Hi Hn Hz Hs) as (s1 & r1 & E1 & Hi1 & Hk & _). rewrite E in E1. injection E1 as <- <-. done.
  - destruct (ufree_ok p h s Hi Hh) as (s1 & E1 & Hi1 & _ & Es). rewrite E in E1. injection E1 as <-. split; [done|by apply same_sizes_kept].
  - destruct (realloc_ok p h size s Hi Hh Hs) as (s1 & r1 & E1 & Hi1 & Hk & _). rewrite E in E1. injection E1 as <- <-. done.
  - split; [by apply (uheap_inv_same s)|intros o' h' Ho; eauto].
Qed.

Inductive uheap_run : uheap → Prop :=
  | urun_boot m : uheap_run (uheap_boot m)
  | urun_call s s' : uheap_run s → uheap_call s s' → uheap_run s'.

Lemma urun_inv s : uheap_run s → uheap_inv s.
Proof. induction 1 as [m|s s' _ IH Hc]; [|by eapply call_ok]. split; [done|intros o h; cbn; by rewrite lookup_empty|intros o o' h; cbn; by rewrite lookup_empty]. Qed.

(** The bytes of a block, its header included. *)
Definition in_block (o : Z) (h : malloc_header) (x : Z) : Prop := o ≤ x < o + SIZEOF_HEADER + mh_size h.

(** What malloc promises, and calloc for the product of its arguments. *)
Definition alloc_spec (size : Z) (s s' : uheap) (r : option Z) : Prop :=
  match r with
  | None => size = 0 ∨ ¬ fits size s
  | Some p => headers s' !! (p - SIZEOF_HEADER) = Some (mk_mh size true) ∧ headers s !! (p - SIZEOF_HEADER) = None
  end.


(** ** Numbers *)

Lemma digit_of_val c d : digit_val c = d → 0 ≤ d → digit_of c = Some d.
Proof.
  unfold digit_val, digit_of. intros <-. destruct (is_digit c); [done|]. assert (ch "a" = 97 ∧ ch "f" = 102 ∧ ch "z" = 122 ∧ ch "A" = 65 ∧ ch "F" = 70 ∧ ch "Z" = 90) as (-> & -> & -> & -> & -> & ->) by done.
  repeat (zcase; cbn [andb]); try lia; done.
Qed.

(** The digits read so far, most significant first. *)
Lemma num_value_snoc base l c : num_value base (l ++ [c]) = num_value base l * base + digit_val c.
Proof. unfold num_value. rewrite rev_app_distr. cbn. lia. Qed.

Lemma num_value_app base l l' : num_value base (l ++ l') = num_value base l * base ^ Z.of_nat (length l') + num_value base l'.
Proof.
  induction l' as [|c l' IH] using rev_ind; [rewrite app_nil_r; unfold num_value at 3; cbn; lia|].
  rewrite app_assoc, !num_value_snoc, IH, length_app. cbn [length]. replace (Z.of_nat (length l' + 1)) with (Z.succ (Z.of_nat (length l'))) by lia. rewrite Z.pow_succ_r by lia. lia.
Qed.

Lemma num_value_nonneg base l : 0 ≤ base → Forall (λ c, 0 ≤ digit_val c < base) l → 0 ≤ num_value base l.
Proof.
  intros Hb Hf. induction l as [|c l IH] using rev_ind; [done|]. apply Forall_app in Hf as [Hf Hc]. inversion Hc; subst. rewrite num_value_snoc. specialize (IH Hf). nia.
Qed.

(** No digit of [base] at the front. *)
Definition no_digit (base : Z) (p : list Z) : Prop := match p with [] => True | c :: _ => match digit_of c with Some d => base ≤ d | None => True end end.

Lemma strtol_digits_spec base pre l rest :
  2 ≤ base ≤ 16 → Forall (λ c, 0 ≤ digit_val c < base) pre → Forall (λ c, 0 ≤ digit_val c < base) l → no_digit base rest → num_value base (pre ++ l) < 2 ^ 63 →
  strtol_digits base (num_value base pre) (l ++ rest) = (num_value base (pre ++ l), rest).
Proof.
  intros Hb. revert pre. induction l as [|c l IH]; intros pre Hpre Hl Hrest Hv; cbn [app strtol_digits].
  - rewrite app_nil_r in *. destruct rest as [|c rest]; [done|]. cbn [strtol_digits no_digit] in *. destruct (digit_of c) as [d|]; [|done]. by destruct (Z.leb_spec base d); [|lia].
  - inversion Hl as [|? ? Hc Hl']; subst. rewrite (digit_of_val c _ eq_refl) by lia. destruct (Z.leb_spec base (digit_val c)); [lia|].
    pose proof (num_value_nonneg base pre ltac:(lia) Hpre). pose proof (num_value_nonneg base l ltac:(lia) Hl').
    assert (num_value base (pre ++ [c]) ≤ num_value base (pre ++ c :: l)) as Hle.
    { replace (pre ++ c :: l) with ((pre ++ [c]) ++ l) by (by rewrite <- app_assoc). rewrite (num_value_app base (pre ++ [c]) l).
      assert (0 < base ^ Z.of_nat (length l)) by (apply Z.pow_pos_nonneg; lia). rewrite num_value_snoc in *. nia. }
    rewrite num_value_snoc in Hle. rewrite (i64_small (_ * _)) by lia. rewrite i64_small by lia. rewrite <- num_value_snoc.
    rewrite IH; [by rewrite <- app_assoc|apply Forall_app; split; [done|by constructor]|done|done|]. by rewrite <- app_assoc.
Qed.

Lemma digit_char c : 0 ≤ digit_val c → c ≠ ch "-" ∧ c ≠ ch "+" ∧ c ≠ ch " " ∧ c ≠ 9 ∧ c ≠ 10 ∧ c ≠ ch "x" ∧ c ≠ ch "X".
Proof. intros H. repeat split; intros ->; vm_compute in H; by apply H. Qed.

Lemma skip_space_app spaces ws p : Forall (λ c, c ∈ spaces) ws → match p with [] => True | c :: _ => c ∉ spaces end → skip_space spaces (ws ++ p) = p.
Proof.
  intros Hws Hp. assert (∀ c, existsb (Z.eqb c) spaces = true ↔ c ∈ spaces) as Hin.
  { intros c. rewrite existsb_exists. setoid_rewrite Z.eqb_eq. split; [intros (x & Hx & ->); by apply list_elem_of_In|intros Hc; exists c; split; [by apply list_elem_of_In|done]]. }
  induction Hws as [|c ws Hc _ IH]; cbn [app skip_space].
  - destruct p as [|c p]; [done|]. cbn [skip_space]. destruct (existsb (Z.eqb c) spaces) eqn:E; [|done]. by apply Hin in E.
  - by rewrite (proj2 (Hin c) Hc).
Qed.

(** The sign in front of a number. *)
Inductive sign_text : Z → list Z → Prop :=
  | sign_none : sign_text 1 []
  | sign_plus : sign_text 1 [ch "+"]
  | sign_minus : sign_text (-1) [ch "-"].

Lemma read_sign_app s t p : sign_text s t → match p with c :: _ => 0 ≤ digit_val c | [] => False end → read_sign (t ++ p) = (s, p).
Proof.
  intros Hs Hp. destruct p as [|c p]; [done|]. destruct (digit_char c Hp) as (Hm & Hpl & _). destruct Hs; cbn [app read_sign]; try done.
  by destruct (Z.eqb_spec c (ch "-")), (Z.eqb_spec c (ch "+")).
Qed.

(** What the base argument and the prefix make of the digits [l]. *)
Inductive radix : Z → list Z → list Z → Z → Prop :=
  | radix_given base l : 2 ≤ base ≤ 16 → radix base [] l base
  | radix_16 x l : x = ch "x" ∨ x = ch "X" → radix 16 [ch "0"; x] l 16
  | radix_auto_16 x l : x = ch "x" ∨ x = ch "X" → radix 0 [ch "0"; x] l 16
  | radix_auto_8 l : radix 0 [ch "0"] l 8
  | radix_auto_10 c l : c ≠ ch "0" → radix 0 [] (c :: l) 10.

Lemma radix_range base pfx l b : radix base pfx l b → 2 ≤ b ≤ 16.
Proof. destruct 1; lia. Qed.

Lemma read_prefix_app base pfx l b rest :
  radix base pfx l b → l ≠ [] → Forall (λ c, 0 ≤ digit_val c < b) l → hd 0 rest ≠ ch "x" → hd 0 rest ≠ ch "X" → read_prefix base (pfx ++ l ++ rest) = (b, l ++ rest).
Proof.
  intros Hr Hne Hf Hx HX. assert (∀ x, x = ch "x" ∨ x = ch "X" → (x =? ch "x") || (x =? ch "X") = true) as Hxx by (intros x [->| ->]; done).
  assert (∀ l' : list Z, Forall (λ c, 0 ≤ digit_val c < b) l' → (hd 0 (l' ++ rest) =? ch "x") || (hd 0 (l' ++ rest) =? ch "X") = false) as Hnx.
  { intros [|c l'] Hl'; cbn [app hd]; [by destruct (Z.eqb_spec (hd 0 rest) (ch "x")), (Z.eqb_spec (hd 0 rest) (ch "X"))|]. inversion Hl' as [|? ? Hc _]; subst.
    destruct (digit_char c) as (_ & _ & _ & _ & _ & H1 & H2); [lia|]. by destruct (Z.eqb_spec c (ch "x")), (Z.eqb_spec c (ch "X")). }
  unfold read_prefix. destruct Hr as [base l Hb|x l Hxc|x l Hxc|l|c l Hc].
  - destruct (Z.eqb_spec base 0); [lia|]. destruct l as [|c l]; [done|]. cbn [app]. inversion Hf; subst. rewrite (Hnx l) by done. by rewrite andb_false_r.
  - cbn [Z.eqb app hd tl]. by rewrite Hxx.
  - cbn [Z.eqb app hd tl]. by rewrite Hxx.
  - cbn [Z.eqb app]. by rewrite (Hnx l).
  - cbn [Z.eqb app]. by destruct (Z.eqb_spec c (ch "0")).
Qed.

(** Strtol reads blanks, a sign, the prefix that the base asks for and the
    longest string of digits of that base, gives the signed value of the
    digits and the rest of the string; without a base the prefix decides it. *)
Theorem strtol_correct ws s st base pfx l b rest :
  Forall (λ c, c ∈ [ch " "; 9]) ws → sign_text s st → radix base pfx l b → l ≠ [] → Forall (λ c, 0 ≤ digit_val c < b) l →
  no_digit b rest → hd 0 rest ≠ ch "x" → hd 0 rest ≠ ch "X" → num_value b l < 2 ^ 63 →
  strtol (ws ++ st ++ pfx ++ l ++ rest) base = (s * num_value b l, rest).
Proof.
  intros Hws Hs Hr Hne Hf Hrest Hx HX Hv. pose proof (radix_range _ _ _ _ Hr) as Hb. pose proof (num_value_nonneg b l ltac:(lia) Hf) as Hv0.
  assert (match pfx ++ l ++ rest with c :: _ => 0 ≤ digit_val c | [] => False end) as Hhd.
  { destruct l as [|c l]; [done|]. inversion Hf as [|? ? Hc _]; subst. inversion Hr; subst; cbn [app]; first [lia|by vm_compute]. }
  unfold strtol. rewrite skip_space_app; [|done|].
  2:{ destruct (pfx ++ l ++ rest) as [|c p]; [done|]. destruct (digit_char c Hhd) as (? & ? & ? & ? & _).
      destruct Hs; cbn [app]; rewrite !not_elem_of_cons; (split; [done|split; [done|apply not_elem_of_nil]]). }
  rewrite (read_sign_app s) by done. rewrite (read_prefix_app _ _ _ b) by done. 
  pose proof (strtol_digits_spec b [] l rest) as E. change (num_value b []) with 0 in E. rewrite E by (done || constructor). cbn [app].
  f_equal. rewrite Z.mul_comm. apply i64_small. destruct Hs; lia.
Qed.

(** exit calls the handlers in the reverse order of their registration, each
    once, when they do not register others. *)
Theorem exit_reverse_order registers funcs :
  (∀ f, f ∈ funcs → registers f = []) → exit_loop (S (length funcs)) registers funcs = Some (rev funcs).
Proof.
  induction funcs as [|f funcs IH] using rev_ind; intros Hreg; [done|]. rewrite length_app, Nat.add_comm. cbn [length Nat.add]. remember (S (length funcs)) as n eqn:En. cbn [exit_loop].
  rewrite last_snoc, length_app. cbn [length]. rewrite Hreg by (apply elem_of_app; right; by apply list_elem_of_singleton). cbn [atexit_all]. rewrite Nat.add_sub, take_app_length.
  rewrite IH by (intros g Hg; apply Hreg, elem_of_app; by left). cbn. by rewrite rev_app_distr.
Qed.

(** rand stays within 16 bits, far below RAND_MAX. *)
Theorem rand_range seed : 0 ≤ snd (rand seed) < 65536.
Proof.
  unfold rand. cbn [snd]. set (x := u32 _). assert (0 ≤ x < 2 ^ 32) as Hx by (apply Z.mod_pos_bound; lia). change RAND_MAX with (Z.ones 31). rewrite Z.land_ones by lia.
  rewrite Z.shiftr_div_pow2 by lia. assert (0 ≤ x / 2 ^ 16 < 65536) as Hd by (split; [apply Z.div_pos; lia|apply Z.div_lt_upper_bound; lia]). rewrite Z.mod_small by lia. lia.
Qed.

(** ** Sets of signals *)

Lemma land_bit m k : 0 ≤ k → (Z.land m (Z.shiftl 1 k) =? 0) = negb (Z.testbit m k).
Proof.
  intros Hk. assert (∀ i, 0 ≤ i → Z.testbit (Z.land m (Z.shiftl 1 k)) i = Z.testbit m i && (i =? k)) as Hb.
  { intros i Hi. rewrite Z.land_spec, Z.shiftl_1_l. rewrite (Z.pow2_bits_eqb k i) by lia. by rewrite Z.eqb_sym. }
  destruct (Z.testbit m k) eqn:E; cbn [negb].
  - apply Z.eqb_neq. intros H0. specialize (Hb k Hk). by rewrite H0, Z.bits_0, E, Z.eqb_refl in Hb.
  - apply Z.eqb_eq. apply Z.bits_inj'. intros i Hi. rewrite Hb, Z.bits_0 by done. destruct (Z.eqb_spec i k) as [->|]; [by rewrite E|by rewrite andb_false_r].
Qed.

(** After sigaddset a signal is a member, after sigdelset it is not, and no
    other signal is affected; signals outside 1 to 64 are refused. *)
Theorem sigset_correct m sig sig' :
  1 ≤ sig' ≤ 64 →
  (1 ≤ sig ≤ 64 →
   sigismember (sigaddset (Some m) sig).1 sig' = (if sig' =? sig then 1 else sigismember (Some m) sig') ∧
   sigismember (sigdelset (Some m) sig).1 sig' = (if sig' =? sig then 0 else sigismember (Some m) sig')) ∧
  (sig < 1 ∨ 64 < sig → sigaddset (Some m) sig = (Some m, -1) ∧ sigdelset (Some m) sig = (Some m, -1) ∧ sigismember (Some m) sig = -1).
Proof.
  intros Hs'. split; intros Hs; unfold sigaddset, sigdelset, sigismember.
  - destruct (Z.ltb_spec sig 1), (Z.ltb_spec 64 sig), (Z.ltb_spec sig' 1), (Z.ltb_spec 64 sig'); try lia. cbn [orb fst]. rewrite !land_bit by lia. rewrite Z.lor_spec, Z.land_spec, Z.lnot_spec by lia.
    rewrite Z.shiftl_1_l, Z.pow2_bits_eqb by lia. destruct (Z.eqb_spec (sig - 1) (sig' - 1)), (Z.eqb_spec sig' sig); try lia; cbn [negb]; rewrite ?orb_true_r, ?orb_false_r, ?andb_false_r, ?andb_true_r; done.
  - destruct (Z.ltb_spec sig 1), (Z.ltb_spec 64 sig); try lia; done.
Qed.

(** ** Concrete runs *)

Fixpoint lay_bytes (a : Z) (l : list Z) (m : gmap Z Z) : gmap Z Z := match l with [] => m | c :: l' => lay_bytes (a + 1) l' (<[a := c]> m) end.

Lemma cstr_at_check m a s :
  (λ i, load m (a + Z.of_nat i)) <$> seq 0 (S (length s)) = s ++ [0] → nul_free s → cstr_at m a s.
Proof.
  intros E Hn. split; [|done]. intros i x Hi. rewrite <- E, list_lookup_fmap in Hi. apply fmap_Some in Hi as (j & Hj & ->). apply lookup_seq in Hj as [-> _]. done.
Qed.

Definition demo_words : gmap Z Z := lay_bytes 10 (bytes_of_string "the theme"%string) (lay_bytes 40 (bytes_of_string "them"%string) ∅).

Lemma demo_hay : cstr_at demo_words 10 (bytes_of_string "the theme"%string).
Proof. apply cstr_at_check; [vm_compute; reflexivity|apply (bool_decide_unpack _); vm_compute; exact I]. Qed.
Lemma demo_needle : cstr_at demo_words 40 (bytes_of_string "them"%string).
Proof. apply cstr_at_check; [vm_compute; reflexivity|apply (bool_decide_unpack _); vm_compute; exact I]. Qed.

Lemma strstr_first_witness : ∃ r, strstr 20 demo_words 10 40 = Some r ∧ r = Some 14.
Proof.
  destruct (strstr_first demo_words 10 40 _ _ 20 demo_hay demo_needle) as (r & E & _); [cbn; lia|cbn; lia|]. exists r. split; [exact E|].
  assert (strstr 20 demo_words 10 40 = Some (Some 14)) as E' by (vm_compute; reflexivity). rewrite E' in E. injection E as <-. reflexivity.
Defined.

Lemma demo_uheap_run : uheap_run (fst (malloc 24 (uheap_boot ∅))).
Proof. eapply urun_call; [apply urun_boot|]. apply (call_malloc 24 _ _ (snd (malloc 24 (uheap_boot ∅)))); [lia|]. apply surjective_pairing. Qed.


Lemma strtol_correct_witness : strtol (bytes_of_string "  -0x1fZ"%string) 0 = (-31, bytes_of_string "Z"%string).
Proof.
  apply (strtol_correct [ch " "; ch " "] (-1) [ch "-"] 0 [ch "0"; ch "x"] (bytes_of_string "1f"%string) 16 (bytes_of_string "Z"%string)).
  - apply (bool_decide_unpack _). vm_compute. exact I.
  - constructor.
  - constructor. by left.
  - discriminate.
  - apply (bool_decide_unpack _). vm_compute. exact I.
  - vm_compute. discriminate.
  - vm_compute. discriminate.
  - vm_compute. discriminate.
  - vm_compute. reflexivity.
Defined.

(** The size of a request wraps: two blocks at the same place. *)
Example malloc_size_wraps :
  let '(s, p) := malloc (2 ^ 64 - 20) (uheap_boot ∅) in p = Some 16 ∧ snd (malloc 8 s) = Some 16.
Proof. vm_compute. done. Qed.

(** So does the product in calloc: 2^61 + 1 elements of 8 bytes get 8. *)
Example calloc_size_wraps : headers (fst (calloc (2 ^ 61 + 1) 8 (uheap_boot ∅))) !! 0 = Some (mk_mh 8 true).
Proof. vm_compute. reflexivity. Qed.

(** The least int has no negation: its last digit is printed below '0'. *)
Example strerror_least_int : strerror (- 2 ^ 31) = Some (bytes_of_string "Unknown error -("%string).
Proof. vm_compute. reflexivity. Qed.

(** Where no digits follow, the end pointer is after the blanks and the sign,
    not at the start of the string. *)
Example strtol_no_digits : strtol (bytes_of_string " -x"%string) 10 = (0, bytes_of_string "x"%string).
Proof. vm_compute. reflexivity. Qed.
