(* ===== verification/Stdio.v ===== *)
(** * libc/src/stdio.c: formatted output and input

    vsnprintf and vsscanf.  A conversion specification is read by the same
    code as in the kernel's kvsnprintf, so [skip_zeros], [read_width] and
    [length_modifier] of [Printk] are used for it.  The buffer is the list of
    the characters written so far; [str] is its address, which matters since
    the end of the buffer is computed from it.  vsscanf gives the list of what
    it stores through its pointer arguments. *)

From Stdlib Require Import Ascii.
From S2P Require Import Prelude CString Printk Libc.

(** ** vsnprintf *)

(** [do { numbuf[i++] = '0' + (val % 10); val /= 10; } while (val > 0)], with
    the division of C on a long. *)
Fixpoint long_digits (fuel : nat) (val : Z) (numbuf : list Z) : option (list Z) :=
  match fuel with
  | O => None
  | S fuel' =>
      let numbuf := numbuf ++ [u8 (ch "0" + Z.rem val 10)] in
      let val := Z.quot val 10 in
      if 0 <? val then long_digits fuel' val numbuf else Some numbuf
  end.

(** The same loop on an unsigned long. *)
Fixpoint ulong_digits (fuel : nat) (val : Z) (numbuf : list Z) : option (list Z) :=
  match fuel with
  | O => None
  | S fuel' =>
      let numbuf := numbuf ++ [ch "0" + val `mod` 10] in
      let val := val / 10 in
      if 0 <? val then ulong_digits fuel' val numbuf else Some numbuf
  end.

(** [numbuf[i++] = digits[val & 0xf]; val >>= 4] *)
Fixpoint hex_digits (fuel : nat) (digits : list Z) (val : Z) (numbuf : list Z) : option (list Z) :=
  match fuel with
  | O => None
  | S fuel' =>
      c ← digits !! Z.to_nat (Z.land val 0xf);
      let numbuf := numbuf ++ [c] in
      let val := Z.shiftr val 4 in
      if 0 <? val then hex_digits fuel' digits val numbuf else Some numbuf
  end.

(** Sixteen digits for a pointer. *)
Fixpoint ptr_digits (n : nat) (val : Z) (numbuf : list Z) : option (list Z) :=
  match n with
  | O => Some numbuf
  | S n' => c ← digits_lower !! Z.to_nat (Z.land val 0xf); ptr_digits n' (Z.shiftr val 4) (numbuf ++ [c])
  end.

(** [while (i < width && p < end && zero_pad)]: the index [i] goes down only
    for a negative number. *)
Fixpoint pad_signed (fuel : nat) (end_ : nat) (neg : bool) (width i : Z) (out : list Z) : option (list Z * Z) :=
  match fuel with
  | O => None
  | S fuel' =>
      if (i <? width) && (length out <? end_)%nat then
        if neg then pad_signed fuel' end_ neg width (i - 1) (out ++ [if i - 1 =? 0 then ch "-" else ch "0"])
        else pad_signed fuel' end_ neg width i (out ++ [ch "0"])
      else Some (out, i)
  end.

(** [while (i < width && p < end)]: nothing in the loop changes [i]. *)
Fixpoint pad_unsigned (fuel : nat) (end_ : nat) (c width i : Z) (out : list Z) : option (list Z) :=
  match fuel with
  | O => None
  | S fuel' => if (i <? width) && (length out <? end_)%nat then pad_unsigned fuel' end_ c width i (out ++ [c]) else Some out
  end.

(** [while (i > 0 && p < end) *p++ = numbuf[--i]] *)
Fixpoint put_back (i : nat) (end_ : nat) (numbuf out : list Z) : option (list Z) :=
  match i with
  | O => Some out
  | S i' => if (length out <? end_)%nat then c ← numbuf !! i'; put_back i' end_ numbuf (out ++ [c]) else Some out
  end.

Definition room (end_ : nat) (out : list Z) : nat := S (end_ - length out).

Definition put_signed (end_ : nat) (zero_pad : bool) (width val : Z) (out : list Z) : option (list Z) :=
  let neg := val <? 0 in
  let val := if neg then i64 (- val) else val in
  numbuf ← long_digits 20 val [];
  let numbuf := if neg then numbuf ++ [ch "-"] else numbuf in
  let i := Z.of_nat (length numbuf) in
  '(out, i) ← (if zero_pad then pad_signed (room end_ out) end_ neg width i out else Some (out, i));
  put_back (Z.to_nat i) end_ numbuf out.

Definition put_unsigned (end_ : nat) (zero_pad : bool) (width : Z) (numbuf out : list Z) : option (list Z) :=
  out ← pad_unsigned (room end_ out) end_ (if zero_pad then ch "0" else ch " ") width (Z.of_nat (length numbuf)) out;
  put_back (length numbuf) end_ numbuf out.

(** The switch on the conversion character. *)
Definition format_one (end_ : nat) (c : Z) (zero_pad : bool) (width : Z) (is_long : bool) (args : list va) (out : list Z) : option (list Z * list va) :=
  if (c =? ch "d") || (c =? ch "i") then
    '(v, args) ← va_num args; out ← put_signed end_ zero_pad width (if is_long then i64 v else i32 v) out; Some (out, args)
  else if c =? ch "u" then
    '(v, args) ← va_num args; numbuf ← ulong_digits 20 (if is_long then u64 v else u32 v) []; out ← put_unsigned end_ zero_pad width numbuf out; Some (out, args)
  else if (c =? ch "x") || (c =? ch "X") then
    '(v, args) ← va_num args;
    numbuf ← hex_digits 16 (if c =? ch "X" then digits_upper else digits_lower) (if is_long then u64 v else u32 v) [];
    out ← put_unsigned end_ zero_pad width numbuf out; Some (out, args)
  else if c =? ch "p" then
    '(v, args) ← va_num args;
    let out := putc end_ (ch "x") (putc end_ (ch "0") out) in
    numbuf ← ptr_digits 16 (u64 v) []; out ← put_back 16 end_ numbuf out; Some (out, args)
  else if c =? ch "s" then
    '(s, args) ← va_str args; Some (put_text end_ (default (bytes_of_string "(null)") s) out, args)
  else if c =? ch "c" then
    (* the argument is taken only when there is room *)
    if (length out <? end_)%nat then '(v, args) ← va_num args; Some (out ++ [u8 v], args) else Some (out, args)
  else if c =? ch "%" then Some (putc end_ (ch "%") out, args)
  else Some (putc end_ c (putc end_ (ch "%") out), args).

(** As in kvsnprintf, a format that ends within a specification is read
    beyond its end. *)
Fixpoint format_loop (fuel : nat) (end_ : nat) (format : list Z) (args : list va) (out : list Z) : option (list Z) :=
  match fuel with
  | O => None
  | S fuel' =>
      match format with
      | [] => Some out
      | c :: format =>
          if negb (length out <? end_)%nat then Some out
          else if negb (c =? ch "%") then format_loop fuel' end_ format args (out ++ [c])
          else
            let '(zero_pad, format) := skip_zeros false format in
            let '(width, format) := read_width 0 format in
            let '(is_long, _, format) := length_modifier format in
            '(out, args) ← format_one end_ (hd 0 format) zero_pad width is_long args out;
            match format with [] => None | _ :: format => format_loop fuel' end_ format args out end
      end
  end.

(** The text before the NUL, which is written unless [size] is 0; the result
    is its length. *)
Definition vsnprintf (str size : Z) (format : list Z) (args : list va) : option (list Z) :=
  let end_ := if 0 <? size then u64 (str + size - 1) else str in
  format_loop (S (length format)) (Z.to_nat (end_ - str)) format args [].

Definition SIZE_MAX : Z := 2 ^ 64 - 1.
Definition vsprintf (str : Z) (format : list Z) (args : list va) : option (list Z) := vsnprintf str SIZE_MAX format args.
Definition snprintf : Z → Z → list Z → list va → option (list Z) := vsnprintf.
Definition sprintf : Z → list Z → list va → option (list Z) := vsprintf.

Example snprintf_example :
  snprintf 0x1000 64 (bytes_of_string "%d of %lu (%x) %s%%"%string) [VNum (-3); VNum (2 ^ 40); VNum 255; VStr (Some (bytes_of_string "ok"%string))]
  = Some (bytes_of_string "-3 of 1099511627776 (ff) ok%"%string).
Proof. vm_compute. reflexivity. Qed.

(** ** vsscanf *)

Definition white : list Z := [ch " "; 9; 10; 13; 12; 11].
Definition isspace (c : Z) : bool := existsb (Z.eqb c) white.

(** What is stored through a pointer argument. *)
Inductive stored := SLong (v : Z) | SInt (v : Z) | SULong (v : Z) | SUInt (v : Z) | SStr (s : list Z) | SChar (c : Z) | SPos (n : Z).

Fixpoint skip_digits (format : list Z) : list Z :=
  match format with c :: format' => if is_digit c then skip_digits format' else format | [] => [] end.

(** is_long and what follows. *)
Definition scan_modifier (format : list Z) : bool * list Z :=
  match format with
  | c :: f =>
      let second x := match f with c' :: f' => if c' =? x then f' else f | [] => [] end in
      if c =? ch "l" then (true, second (ch "l")) else if c =? ch "h" then (false, second (ch "h")) else (false, format)
  | [] => (false, [])
  end.

(** [while (_isdigit( *s))], on a long and on an unsigned long. *)
Fixpoint scan_long (val : Z) (s : list Z) : Z * list Z :=
  match s with c :: s' => if is_digit c then scan_long (i64 (i64 (val * 10) + (c - ch "0"))) s' else (val, s) | [] => (val, []) end.
Fixpoint scan_ulong (val : Z) (s : list Z) : Z * list Z :=
  match s with c :: s' => if is_digit c then scan_ulong (u64 (val * 10 + (c - ch "0"))) s' else (val, s) | [] => (val, []) end.
Fixpoint scan_hex (val : Z) (s : list Z) : Z * list Z :=
  match s with
  | c :: s' =>
      if is_digit c then scan_hex (u64 (val * 16 + (c - ch "0"))) s'
      else if (ch "a" <=? c) && (c <=? ch "f") then scan_hex (u64 (val * 16 + (c - ch "a" + 10))) s'
      else if (ch "A" <=? c) && (c <=? ch "F") then scan_hex (u64 (val * 16 + (c - ch "A" + 10))) s'
      else (val, s)
  | [] => (val, [])
  end.

(** A word: up to a white character. *)
Fixpoint scan_word (s : list Z) : list Z * list Z :=
  match s with
  | c :: s' => if isspace c then ([], s) else let '(w, r) := scan_word s' in (c :: w, r)
  | [] => ([], [])
  end.

(** The switch: [None] for [goto done]; what is stored, whether it counts, and
    the rest of the string.  [pos] is the position in the string. *)
Definition scan_one (c : Z) (is_long : bool) (pos : Z) (s : list Z) : option (option stored * bool * list Z) :=
  if (c =? ch "d") || (c =? ch "i") then
    let '(sign, s) := read_sign (skip_space white s) in
    if negb (is_digit (hd 0 s)) then None
    else
      let '(val, s) := scan_long 0 s in
      let val := i64 (val * sign) in
      Some (Some (if is_long then SLong val else SInt (i32 val)), true, s)
  else if c =? ch "u" then
    let s := skip_space white s in
    if negb (is_digit (hd 0 s)) then None
    else let '(val, s) := scan_ulong 0 s in Some (Some (if is_long then SULong val else SUInt (u32 val)), true, s)
  else if (c =? ch "x") || (c =? ch "X") then
    let s := skip_space white s in
    let s := if (hd 0 s =? ch "0") && ((hd 0 (tl s) =? ch "x") || (hd 0 (tl s) =? ch "X")) then tl (tl s) else s in
    let '(val, s) := scan_hex 0 s in
    Some (Some (if is_long then SULong val else SUInt (u32 val)), true, s)
  else if c =? ch "s" then let '(w, s) := scan_word (skip_space white s) in Some (Some (SStr w), true, s)
  else if c =? ch "c" then Some (Some (SChar (hd 0 s)), true, tl s)
  else if c =? ch "%" then if hd 0 s =? ch "%" then Some (None, false, tl s) else None
  else if c =? ch "n" then Some (Some (SPos (i32 pos)), false, s)
  else None.

(** The number of conversions and what they stored. *)
Fixpoint scan_loop (fuel : nat) (len : Z) (s format : list Z) (count : Z) (acc : list stored) : option (Z * list stored) :=
  match fuel with
  | O => None
  | S fuel' =>
      match format, s with
      | [], _ | _, [] => Some (count, acc)
      | f :: format', c :: s' =>
          if isspace f then scan_loop fuel' len (skip_space white s) format' count acc
          else if negb (f =? ch "%") then if f =? c then scan_loop fuel' len s' format' count acc else Some (count, acc)
          else
            let '(is_long, format') := scan_modifier (skip_digits format') in
            match scan_one (hd 0 format') is_long (len - Z.of_nat (length s)) s with
            | None => Some (count, acc)
            | Some (st, counts, s) =>
                scan_loop fuel' len s (tl format') (if counts : bool then count + 1 else count) (match st with Some x => acc ++ [x] | None => acc end)
            end
      end
  end.

Definition vsscanf (str format : list Z) : option (Z * list stored) := scan_loop (S (length format)) (Z.of_nat (length str)) str format 0 [].
Definition sscanf : list Z → list Z → option (Z * list stored) := vsscanf.

Example sscanf_example :
  sscanf (bytes_of_string "add -12, 0xFF name"%string) (bytes_of_string "add %d, %x %s"%string) = Some (3, [SInt (-12); SUInt 255; SStr (bytes_of_string "name"%string)]).
Proof. vm_compute. reflexivity. Qed.

(** ** Output agrees with the kernel's formatting *)

Lemma put_back_take i end_ nb out : (i ≤ length nb)%nat → (length out ≤ end_)%nat → put_back i end_ nb out = Some (take end_ (out ++ rev (take i nb))).
Proof.
  revert out. induction i as [|i IH]; intros out Hi Hl; cbn [put_back]; [rewrite take_0; cbn; by rewrite app_nil_r, take_ge|].
  destruct (lookup_lt_is_Some_2 nb i) as [c Hc]; [lia|]. rewrite (take_S_r _ _ _ Hc), rev_app_distr. cbn [rev app]. destruct (Nat.ltb_spec (length out) end_).
  - rewrite Hc. cbn [mbind option_bind]. rewrite IH by (rewrite ?length_app; cbn; lia). by rewrite <- app_assoc.
  - rewrite take_app_le by lia. by rewrite take_ge by lia.
Qed.

Lemma put_all_back end_ nb out : (length out ≤ end_)%nat → put_back (length nb) end_ nb out = Some (take end_ (out ++ rev nb)).
Proof. intros Hl. rewrite put_back_take by done. by rewrite firstn_all. Qed.

(** The digits are those of the kernel's itoa. *)
Lemma ulong_itoa fuel k val buf l :
  0 < val < 10 ^ Z.of_nat fuel → itoa_digits k digits_lower 10 val buf = Some l → ulong_digits fuel val buf = Some l.
Proof.
  revert k val buf. induction fuel as [|fuel IH]; intros k val buf Hv E; [cbn in Hv; lia|]. destruct k as [|k]; [done|]. cbn [itoa_digits ulong_digits] in *.
  destruct (Z.eqb_spec val 0); [lia|]. pose proof (Z.mod_pos_bound val 10 ltac:(lia)) as Hm.
  assert (digits_lower !! Z.to_nat (val `mod` 10) = Some (ch "0" + val `mod` 10)) as Hd.
  { assert (forallb (λ d, bool_decide (digits_lower !! Z.to_nat d = Some (ch "0" + d))) (seqZ 0 10) = true) as Hall by (vm_compute; reflexivity).
    rewrite forallb_forall in Hall. apply (bool_decide_unpack _). apply Is_true_true. apply Hall. apply list_elem_of_In, elem_of_seqZ. lia. }
  rewrite Hd in E. cbn [mbind option_bind] in E. rewrite Nat2Z.inj_succ, Z.pow_succ_r in Hv by lia. destruct (Z.ltb_spec 0 (val / 10)) as [Hpos|Hz].
  - eapply IH; [|exact E]. split; [done|]. apply Z.div_lt_upper_bound; lia.
  - assert (val / 10 = 0) as Hz0 by (pose proof (Z.div_pos val 10); lia). rewrite Hz0 in E. by destruct k; [|injection E as <-].
Qed.

Lemma long_ulong fuel val buf : 0 ≤ val → long_digits fuel val buf = ulong_digits fuel val buf.
Proof.
  revert val buf. induction fuel as [|fuel IH]; intros val buf Hv; [done|]. cbn [long_digits ulong_digits]. rewrite Z.rem_mod_nonneg, Z.quot_div_nonneg by lia.
  pose proof (Z.mod_pos_bound val 10 ltac:(lia)) as Hm. rewrite u8_small by (change (ch "0") with 48; lia). rewrite IH by (apply Z.div_pos; lia). done.
Qed.

Lemma hex_itoa fuel k (upper : bool) val buf l :
  0 < val < 16 ^ Z.of_nat fuel → itoa_digits k (if upper then digits_upper else digits_lower) 16 val buf = Some l →
  hex_digits fuel (if upper then digits_upper else digits_lower) val buf = Some l.
Proof.
  revert k val buf. induction fuel as [|fuel IH]; intros k val buf Hv E; [cbn in Hv; lia|]. destruct k as [|k]; [done|]. cbn [itoa_digits hex_digits] in *.
  destruct (Z.eqb_spec val 0); [lia|]. change 15 with (Z.ones 4). rewrite Z.land_ones, Z.shiftr_div_pow2 by lia. change (2 ^ 4) with 16.
  apply bind_Some in E as (c & -> & E). cbn [mbind option_bind]. rewrite Nat2Z.inj_succ, Z.pow_succ_r in Hv by lia. destruct (Z.ltb_spec 0 (val / 16)) as [Hpos|Hz].
  - eapply IH; [|exact E]. split; [done|]. apply Z.div_lt_upper_bound; lia.
  - assert (val / 16 = 0) as Hz0 by (pose proof (Z.div_pos val 16); lia). rewrite Hz0 in E. by destruct k; [|injection E as <-].
Qed.

(** What itoa has in its buffer before the reversal. *)
Lemma itoa_inv val base is_signed upper text :
  itoa val base is_signed upper = Some text →
  ∃ nb, itoa_digits 65 (if upper then digits_upper else digits_lower) base (magnitude val is_signed) (if magnitude val is_signed =? 0 then [ch "0"] else []) = Some nb ∧
    text = rev (if is_signed && (val <? 0) then nb ++ [ch "-"] else nb).
Proof.
  unfold itoa, magnitude. intros (nb & E & E2)%bind_Some. exists nb. split; [done|]. destruct (_ <? _)%nat; [|done]. rewrite reverse_ok in E2. by injection E2.
Qed.

Lemma utoa_ulong val text : 0 ≤ val < 2 ^ 64 → utoa val 10 false = Some text → ∃ nb, ulong_digits 20 val [] = Some nb ∧ text = rev nb.
Proof.
  intros Hv (nb & E & ->)%itoa_inv. unfold magnitude in E. cbn [andb] in *. rewrite u64_small in E by done. exists nb. split; [|done].
  destruct (Z.eqb_spec val 0) as [->|]; [by injection E as <-|]. eapply ulong_itoa; [|exact E]. change (10 ^ Z.of_nat 20) with 100000000000000000000. lia.
Qed.

Lemma utoa_hex upper val text : 0 ≤ val < 2 ^ 64 → utoa val 16 upper = Some text → ∃ nb, hex_digits 16 (if upper then digits_upper else digits_lower) val [] = Some nb ∧ text = rev nb.
Proof.
  intros Hv (nb & E & ->)%itoa_inv. unfold magnitude in E. cbn [andb] in *. rewrite u64_small in E by done. exists nb. split; [|done].
  destruct (Z.eqb_spec val 0) as [->|]; [destruct upper; by injection E as <-|]. eapply hex_itoa; [|exact E]. change (16 ^ Z.of_nat 16) with (2 ^ 64). lia.
Qed.

Lemma itoa_long val text :
  - 2 ^ 63 < val < 2 ^ 63 → itoa val 10 true false = Some text →
  ∃ nb, long_digits 20 (Z.abs val) [] = Some nb ∧ text = rev (if val <? 0 then nb ++ [ch "-"] else nb).
Proof.
  intros Hv (nb & E & ->)%itoa_inv. assert (magnitude val true = Z.abs val) as Hm.
  { unfold magnitude. cbn [andb]. destruct (Z.ltb_spec val 0); rewrite u64_small; lia. }
  rewrite Hm in E. exists nb. split; [|done]. rewrite long_ulong by lia. destruct (Z.eqb_spec (Z.abs val) 0) as [Hz|Hz]; [rewrite Hz in *; by injection E as <-|].
  eapply ulong_itoa; [|exact E]. change (10 ^ Z.of_nat 20) with 100000000000000000000. lia.
Qed.

Lemma ptr_zero n buf : ptr_digits n 0 buf = Some (buf ++ replicate n (ch "0")).
Proof.
  revert buf. induction n as [|n IH]; intros buf; cbn [ptr_digits replicate]; [by rewrite app_nil_r|]. change (digits_lower !! Z.to_nat (Z.land 0 15)) with (Some (ch "0")).
  cbn [mbind option_bind]. change (Z.shiftr 0 4) with 0. rewrite IH. by rewrite <- app_assoc.
Qed.

Lemma itoa_digits_acc k digits base val buf : itoa_digits k digits base val buf = app buf <$> itoa_digits k digits base val [].
Proof.
  revert val buf. induction k as [|k IH]; intros val buf; [done|]. cbn [itoa_digits]. destruct (val =? 0); [cbn; by rewrite app_nil_r|].
  destruct (digits !! _) as [c|]; [|done]. cbn [mbind option_bind app]. rewrite (IH _ (buf ++ [c])), (IH _ [c]). destruct (itoa_digits k _ _ _ []); cbn; [by rewrite <- app_assoc|done].
Qed.

(** Sixteen digits are the digits with zeros up to sixteen. *)
Lemma ptr_itoa n k val buf l :
  0 ≤ val < 16 ^ Z.of_nat n → itoa_digits k digits_lower 16 val [] = Some l → ptr_digits n val buf = Some (buf ++ l ++ replicate (n - length l) (ch "0")) ∧ (length l ≤ n)%nat.
Proof.
  revert k val buf l. induction n as [|n IH]; intros k val buf l Hv E.
  { cbn in Hv. replace val with 0 in * by lia. destruct k; [done|]. injection E as <-. cbn. by rewrite app_nil_r. }
  destruct (decide (val = 0)) as [->|Hne]; [destruct k; [done|]; injection E as <-; cbn [length app]; rewrite Nat.sub_0_r; split; [apply ptr_zero|lia]|].
  destruct k as [|k]; [done|]. cbn [itoa_digits] in E. destruct (Z.eqb_spec val 0); [done|]. cbn [ptr_digits].
  change 15 with (Z.ones 4). rewrite Z.land_ones, Z.shiftr_div_pow2 by lia. change (2 ^ 4) with 16. apply bind_Some in E as (c & -> & E). cbn [mbind option_bind app] in *.
  rewrite itoa_digits_acc in E. apply fmap_Some in E as (l' & E & ->).
  rewrite Nat2Z.inj_succ, Z.pow_succ_r in Hv by lia. assert (0 ≤ val / 16 < 16 ^ Z.of_nat n) as Hq by (split; [apply Z.div_pos; lia|apply Z.div_lt_upper_bound; lia]).
  destruct (IH k (val / 16) (buf ++ [c]) l' Hq E) as [-> Hl]. cbn [length app Nat.sub]. split; [by rewrite <- app_assoc|lia].
Qed.

Lemma rev_replicate {A} n (c : A) : rev (replicate n c) = replicate n c.
Proof. induction n as [|n IH]; [done|]. cbn [replicate rev]. rewrite IH. symmetry. apply (replicate_S_end n c). Qed.

Lemma utoa_ptr val text : 0 ≤ val < 2 ^ 64 → utoa val 16 false = Some text → ∃ nb, ptr_digits 16 val [] = Some nb ∧ length nb = 16%nat ∧ padded (ch "0") 16 text = rev nb.
Proof.
  intros Hv (nb & E & ->)%itoa_inv. unfold magnitude in E. cbn [andb] in *. rewrite u64_small in E by done. unfold padded. rewrite length_rev.
  destruct (Z.eqb_spec val 0) as [->|].
  { injection E as <-. exists (replicate 16 (ch "0")). rewrite ptr_zero. done. }
  destruct (ptr_itoa 16 65 val [] nb) as [-> Hl]; [change (16 ^ Z.of_nat 16) with (2 ^ 64); lia|done|]. eexists. split; [done|]. cbn [app]. rewrite length_app, length_replicate.
  split; [lia|]. rewrite rev_app_distr. f_equal. replace (Z.to_nat (16 - Z.of_nat (length nb))) with (16 - length nb)%nat by lia. symmetry. apply rev_replicate.
Qed.

(** An argument that is not the least long, which has no negation. *)
Definition arg_ok (a : va) : Prop := match a with VNum v => i64 v ≠ - 2 ^ 63 | VStr _ => True end.

Lemma i64_range x : - 2 ^ 63 ≤ i64 x < 2 ^ 63.
Proof. unfold i64. pose proof (Z.mod_pos_bound (x + 2 ^ 63) (2 ^ 64) ltac:(lia)). lia. Qed.
Lemma i32_range x : - 2 ^ 31 ≤ i32 x < 2 ^ 31.
Proof. unfold i32. pose proof (Z.mod_pos_bound (x + 2 ^ 31) (2 ^ 32) ltac:(lia)). lia. Qed.

Lemma put_signed_ok end_ z val text out :
  (length out ≤ end_)%nat → - 2 ^ 63 < val < 2 ^ 63 → itoa val 10 true false = Some text → put_signed end_ z 0 val out = Some (take end_ (out ++ text)).
Proof.
  intros Hl Hv (nb & E & ->)%itoa_long; [|done]. unfold put_signed. assert ((if val <? 0 then i64 (- val) else val) = Z.abs val) as ->.
  { destruct (Z.ltb_spec val 0); [rewrite i64_small; lia|lia]. }
  rewrite E. cbn [mbind option_bind]. set (n := if val <? 0 then _ else nb).
  assert ((if z then pad_signed (room end_ out) end_ (val <? 0) 0 (Z.of_nat (length n)) out else Some (out, Z.of_nat (length n))) = Some (out, Z.of_nat (length n))) as ->.
  { destruct z; [|done]. unfold room. cbn [pad_signed]. by destruct (Z.ltb_spec (Z.of_nat (length n)) 0); [lia|]. }
  cbn [mbind option_bind]. rewrite Nat2Z.id. by apply put_all_back.
Qed.

Lemma put_unsigned_ok end_ z nb out : (length out ≤ end_)%nat → put_unsigned end_ z 0 nb out = Some (take end_ (out ++ rev nb)).
Proof.
  intros Hl. unfold put_unsigned, room. cbn [pad_unsigned]. destruct (Z.ltb_spec (Z.of_nat (length nb)) 0); [lia|]. cbn [andb mbind option_bind]. by apply put_all_back.
Qed.

Lemma padded_0 c text : padded c 0 text = text.
Proof. unfold padded. by replace (Z.to_nat (0 - Z.of_nat (length text))) with O by lia. Qed.

(** No width, and "ll" implies "l". *)
Definition plain_directive (d : directive) : Prop := match d with Lit _ => True | Conv _ _ w l ll => w = 0 ∧ (ll = true → l = true) end.

Lemma va_num_tail args v args' : va_num args = Some (v, args') → Forall arg_ok args → arg_ok (VNum v) ∧ Forall arg_ok args'.
Proof. destruct args as [|[x|s] args]; cbn; try done. intros [= <- <-] Hf. by inversion Hf. Qed.

Lemma va_str_tail args s args' : va_str args = Some (s, args') → Forall arg_ok args → Forall arg_ok args'.
Proof. destruct args as [|[x|t] args]; cbn; try done. intros [= <- <-] Hf. by inversion Hf. Qed.

Lemma format_one_ok end_ c z l ll args out text args' :
  (length out < end_)%nat → (ll = true → l = true) → Forall arg_ok args → directive_text (Conv c z 0 l ll) args = Some (text, args') →
  format_one end_ c z 0 l args out = Some (take end_ (out ++ text), args') ∧ Forall arg_ok args'.
Proof.
  intros Hl Hll Hargs. unfold format_one. cbn [directive_text].
  assert (∀ v, signed_arg l ll v = if l then i64 v else i32 v) as Hs by (intros v; unfold signed_arg; destruct ll; [by rewrite Hll|done]).
  assert (∀ v, unsigned_arg l ll v = if l then u64 v else u32 v) as Hu by (intros v; unfold unsigned_arg; destruct ll; [by rewrite Hll|done]).
  assert (∀ v, 0 ≤ (if l then u64 v else u32 v) < 2 ^ 64) as Hur by (intros v; destruct l; [apply u64_bound|unfold u32; pose proof (Z.mod_pos_bound v (2 ^ 32) ltac:(lia)); lia]).
  destruct (_ || _).
  { intros ([v a] & Ev & E)%bind_Some. rewrite Ev. apply bind_Some in E as (t & E & [= <- <-]). destruct (va_num_tail _ _ _ Ev Hargs) as [Ha Hargs']. split; [|done]. cbn [mbind option_bind].
    rewrite Hs in E. rewrite padded_0. erewrite put_signed_ok; [done|lia| |exact E]. cbn in Ha. pose proof (i64_range v). pose proof (i32_range v). destruct l; lia. }
  destruct (c =? ch "u").
  { intros ([v a] & Ev & E)%bind_Some. rewrite Ev. apply bind_Some in E as (t & E & [= <- <-]). split; [|by eapply va_num_tail]. cbn [mbind option_bind].
    rewrite Hu in E. apply utoa_ulong in E as (nb & -> & ->); [|apply Hur]. cbn [mbind option_bind]. by rewrite put_unsigned_ok, padded_0 by lia. }
  destruct (_ || _).
  { intros ([v a] & Ev & E)%bind_Some. rewrite Ev. apply bind_Some in E as (t & E & [= <- <-]). split; [|by eapply va_num_tail]. cbn [mbind option_bind].
    rewrite Hu in E. apply utoa_hex in E as (nb & -> & ->); [|apply Hur]. cbn [mbind option_bind]. by rewrite put_unsigned_ok, padded_0 by lia. }
  destruct (c =? ch "p").
  { intros ([v a] & Ev & E)%bind_Some. rewrite Ev. apply bind_Some in E as (t & E & [= <- <-]). split; [|by eapply va_num_tail]. cbn [mbind option_bind].
    apply utoa_ptr in E as (nb & -> & Hnb & Ep); [|apply u64_bound]. cbn [mbind option_bind]. rewrite <- Hnb, (putc_take end_ (ch "0")) by lia.
    rewrite putc_take, take_take_app by (rewrite length_take; lia). rewrite put_all_back by (rewrite length_take; lia). cbn [mbind option_bind]. rewrite take_take_app, <- Ep, <- !app_assoc. done. }
  destruct (c =? ch "s").
  { intros ([v a] & Ev & [= <- <-])%bind_Some. rewrite Ev. split; [|by eapply va_str_tail]. cbn [mbind option_bind]. by rewrite put_text_take by lia. }
  destruct (c =? ch "c").
  { intros ([v a] & Ev & [= <- <-])%bind_Some. rewrite Ev. split; [|by eapply va_num_tail]. destruct (Nat.ltb_spec (length out) end_); [|lia]. cbn [mbind option_bind].
    rewrite take_ge; [done|]. rewrite length_app. cbn. lia. }
  destruct (Z.eqb_spec c (ch "%")) as [->|]; intros [= <- <-]; (split; [|done]); [by rewrite putc_take by lia|].
  rewrite (putc_take end_ (ch "%")) by lia. rewrite putc_take, take_take_app by (rewrite length_take; lia). by rewrite <- app_assoc.
Qed.

Lemma format_loop_ok fuel end_ fmt args out ds text :
  (length out ≤ end_)%nat → parse_format fuel fmt = Some ds → Forall plain_directive ds → Forall arg_ok args → render ds args = Some text →
  format_loop fuel end_ fmt args out = Some (take end_ (out ++ text)).
Proof.
  revert fmt args out ds text. induction fuel as [|fuel IH]; intros fmt args out ds text Hl Hp Hd Ha Hr; [done|]. cbn [parse_format format_loop] in *.
  destruct fmt as [|c fmt]; [injection Hp as <-; injection Hr as <-; by rewrite app_nil_r, take_ge|].
  destruct (Nat.ltb_spec (length out) end_) as [Hlt|Hge]; cbn [negb].
  2:{ rewrite take_app_le by lia. by rewrite take_ge by lia. }
  destruct (negb (c =? ch "%")).
  { apply fmap_Some in Hp as (ds' & Hp & ->). apply bind_Some in Hr as ([t a] & [= <- <-] & Hr). apply bind_Some in Hr as (rest & Hr & [= <-]). inversion Hd; subst.
    erewrite IH; [|rewrite length_app; cbn; lia|done|done|done|done]. by rewrite <- app_assoc. }
  destruct (skip_zeros false fmt) as [z f1]. destruct (read_width 0 f1) as [w f2]. destruct (length_modifier f2) as [[l ll] f3].
  destruct f3 as [|d f3]; [done|]. apply fmap_Some in Hp as (ds' & Hp & ->). apply bind_Some in Hr as ([t a] & Ht & Hr). apply bind_Some in Hr as (rest & Hr & [= <-]).
  inversion Hd as [|? ? Hpd Hd']; subst. cbn in Hpd. destruct Hpd as [-> Hll]. cbn [hd]. destruct (format_one_ok end_ d z l ll args out t a Hlt Hll Ha Ht) as [-> Ha']. cbn [mbind option_bind].
  erewrite IH; [|rewrite length_take; lia|done|done|done|done]. by rewrite take_take_app, <- app_assoc.
Qed.

(** C29: for formats without a field width and arguments none of which is the
    least long (which the C library prints wrongly, [least_long_garbled]), the
    vsnprintf of the C library writes what the kernel's kvsnprintf writes, the
    rendering of the format and its arguments cut to [size - 1] bytes, wherever
    the buffer lies in the address space and however small it is. *)
Theorem vsnprintf_correct str size fmt args ds text :
  0 ≤ str → 0 < size → str + size ≤ 2 ^ 64 → parse_format (S (length fmt)) fmt = Some ds → Forall plain_directive ds → Forall arg_ok args → render ds args = Some text →
  vsnprintf str size fmt args = Some (take (Z.to_nat (size - 1)) text) ∧ vsnprintf str size fmt args = kvsnprintf size fmt args.
Proof.
  intros Hstr Hs Hend Hp Hd Ha Hr. assert (vsnprintf str size fmt args = Some (take (Z.to_nat (size - 1)) text)) as E.
  { unfold vsnprintf. destruct (Z.ltb_spec 0 size); [|lia]. rewrite u64_small by lia. replace (str + size - 1 - str) with (size - 1) by lia.
    by rewrite (format_loop_ok _ _ _ _ [] ds text); [|cbn; lia|..]. }
  split; [done|]. rewrite E. symmetry. unfold kvsnprintf. destruct (Z.leb_spec size 0); [lia|]. by rewrite (kv_loop_ok _ _ _ _ [] ds text); [|cbn; lia|..].
Qed.

(** ** Printed numbers are read back *)

Lemma scan_long_strtol val s : scan_long val s = strtol_digits 10 val s.
Proof.
  revert val. induction s as [|c s IH]; intros val; [done|]. cbn [scan_long strtol_digits]. unfold digit_of. destruct (is_digit c) eqn:E.
  - unfold is_digit in E. zbool. change (ch "0") with 48 in *. change (ch "9") with 57 in *. destruct (Z.leb_spec 10 (c - 48)); [lia|]. apply IH.
  - change (ch "a") with 97. change (ch "z") with 122. change (ch "A") with 65. change (ch "Z") with 90.
    repeat (zcase; cbn [andb]); try done; lia.
Qed.

(** The decimal text of a long. *)
Definition dec (v : Z) : list Z := default [] (itoa v 10 true false).

Lemma dec_ok v :
  - 2 ^ 63 < v < 2 ^ 63 → itoa v 10 true false = Some (dec v) ∧ (length (dec v) ≤ 21)%nat ∧
  ∃ s st l, sign_text s st ∧ dec v = st ++ l ∧ l ≠ [] ∧ Forall (λ c, 0 ≤ digit_val c < 10) l ∧ s * num_value 10 l = v ∧ num_value 10 l < 2 ^ 63.
Proof.
  intros Hv. unfold dec. destruct (itoa_ok v 10 true false) as (l & E & [Hval Hd Hlead] & Hl); [lia|]. rewrite E. cbn [default]. unfold id. split; [done|].
  assert (magnitude v true = Z.abs v) as Hm by (unfold magnitude; cbn [andb]; destruct (Z.ltb_spec v 0); rewrite u64_small; lia). rewrite Hm in Hval.
  assert (l ≠ []) as Hne by (destruct Hlead as [->|(c & l' & -> & _)]; done). cbn [andb]. destruct (Z.ltb_spec v 0).
  - split; [cbn [length]; lia|]. exists (-1), [ch "-"], l. split; [constructor|]. split; [done|]. split; [done|]. split; [done|]. lia.
  - split; [lia|]. exists 1, [], l. split; [constructor|]. split; [done|]. split; [done|]. split; [done|]. lia.
Qed.

Lemma digit_not_white c : 0 ≤ digit_val c → c ∉ white.
Proof. intros H Hc. unfold white in Hc. repeat (apply elem_of_cons in Hc as [->|Hc]; [vm_compute in H; by apply H|]). by apply elem_of_nil in Hc. Qed.

Lemma scan_dec v pos rest :
  - 2 ^ 63 < v < 2 ^ 63 → no_digit 10 rest → scan_one (ch "d") true pos (dec v ++ rest) = Some (Some (SLong v), true, rest).
Proof.
  intros Hv Hrest. destruct (dec_ok v Hv) as (_ & _ & s & st & l & Hs & -> & Hne & Hd & Hval & Hlt). unfold scan_one. cbn [orb Z.eqb Pos.eqb].
  assert (match l ++ rest with c :: _ => 0 ≤ digit_val c | [] => False end) as Hhd by (destruct l; [done|]; inversion Hd; subst; cbn; lia).
  rewrite <- app_assoc. assert (skip_space white (st ++ l ++ rest) = st ++ l ++ rest) as ->.
  { apply (skip_space_app white [] (st ++ l ++ rest)); [constructor|]. destruct (l ++ rest) as [|c p]; [done|].
    destruct Hs; cbn [app]; [by apply digit_not_white|apply (bool_decide_unpack _); vm_compute; exact I..]. }
  rewrite (read_sign_app s) by done. assert (is_digit (hd 0 (l ++ rest)) = true) as ->.
  { destruct l as [|c l]; [done|]. cbn [app hd]. inversion Hd as [|? ? Hc _]; subst. destruct (is_digit c) eqn:E; [done|]. unfold digit_val in Hc. rewrite E in Hc.
    change (ch "a") with 97 in Hc. change (ch "f") with 102 in Hc. change (ch "A") with 65 in Hc. change (ch "F") with 70 in Hc.
    destruct ((97 <=? c) && (c <=? 102)) eqn:E1; [zbool; lia|]. destruct ((65 <=? c) && (c <=? 70)) eqn:E2; [zbool; lia|lia]. }
  cbn [negb]. rewrite scan_long_strtol. pose proof (strtol_digits_spec 10 [] l rest) as Ed. change (num_value 10 []) with 0 in Ed. rewrite Ed by (done || lia || constructor). cbn [app].
  rewrite Z.mul_comm, Hval, i64_small by lia. done.
Qed.

(** "%ld %ld ... %ld", and the text for it. *)
Fixpoint fmt_longs (n : nat) : list Z :=
  match n with O => [] | S n' => bytes_of_string "%ld" ++ match n' with O => [] | _ => ch " " :: fmt_longs n' end end.
Fixpoint text_longs (vs : list Z) : list Z :=
  match vs with [] => [] | v :: vs' => dec v ++ match vs' with [] => [] | _ => ch " " :: text_longs vs' end end.
Fixpoint dirs_longs (n : nat) : list directive :=
  match n with O => [] | S n' => Conv (ch "d") false 0 true false :: match n' with O => [] | _ => Lit (ch " ") :: dirs_longs n' end end.

Lemma parse_longs n fuel : (length (fmt_longs n) < fuel)%nat → parse_format fuel (fmt_longs n) = Some (dirs_longs n).
Proof.
  revert fuel. induction n as [|n IH]; intros fuel Hf; [by destruct fuel; [cbn in Hf; lia|]|]. cbn [fmt_longs dirs_longs] in *. destruct n as [|n].
  - destruct fuel as [|fuel]; [cbn in Hf; lia|]. destruct fuel as [|fuel]; [cbn in Hf; lia|]. done.
  - remember (S n) as m eqn:Em. rewrite length_app in Hf. cbn [length bytes_of_string] in Hf. destruct fuel as [|[|fuel]]; [lia|lia|].
    assert (parse_format fuel (fmt_longs m) = Some (dirs_longs m)) as E by (apply IH; lia).
    change (parse_format (S (S fuel)) (bytes_of_string "%ld" ++ ch " " :: fmt_longs m)) with
      (cons (Conv (ch "d") false 0 true false) <$> (cons (Lit (ch " ")) <$> parse_format fuel (fmt_longs m))). by rewrite E.
Qed.

Lemma render_longs vs : Forall (λ v, - 2 ^ 63 < v < 2 ^ 63) vs → render (dirs_longs (length vs)) (VNum <$> vs) = Some (text_longs vs).
Proof.
  induction 1 as [|v vs Hv Hvs IH]; [done|]. cbn [length dirs_longs render fmap list_fmap text_longs].
  assert (directive_text (Conv (ch "d") false 0 true false) (VNum v :: (VNum <$> vs)) = Some (dec v, VNum <$> vs)) as ->.
  { cbn [directive_text va_num mbind option_bind orb Z.eqb Pos.eqb]. unfold signed_arg. rewrite i64_small by lia. destruct (dec_ok v Hv) as (-> & _). cbn [mbind option_bind]. by rewrite padded_0. }
  cbn [mbind option_bind]. destruct vs as [|w vs]; cbn [length] in *; [cbn; by rewrite app_nil_r|]. remember (dirs_longs (S (length vs))) as ds eqn:Eds. cbn [render directive_text mbind option_bind].
  change (@list_fmap Z va VNum (w :: vs)) with (VNum <$> (w :: vs)). rewrite IH. done.
Qed.

Lemma scan_loop_conv fuel len c s f count acc :
  scan_loop (S fuel) len (c :: s) (ch "%" :: f) count acc =
    let '(is_long, f) := scan_modifier (skip_digits f) in
    match scan_one (hd 0 f) is_long (len - Z.of_nat (length (c :: s))) (c :: s) with
    | None => Some (count, acc)
    | Some (st, counts, s) => scan_loop fuel len s (tl f) (if counts : bool then count + 1 else count) (match st with Some x => acc ++ [x] | None => acc end)
    end.
Proof. reflexivity. Qed.

Lemma scan_loop_longs fuel len vs count acc :
  Forall (λ v, - 2 ^ 63 < v < 2 ^ 63) vs → (length (fmt_longs (length vs)) < fuel)%nat →
  scan_loop fuel len (text_longs vs) (fmt_longs (length vs)) count acc = Some (count + Z.of_nat (length vs), acc ++ (SLong <$> vs)).
Proof.
  intros Hvs. revert fuel count acc. induction Hvs as [|v vs Hv Hvs IH]; intros fuel count acc Hf.
  { destruct fuel; [cbn in Hf; lia|]. cbn. by rewrite Z.add_0_r, app_nil_r. }
  cbn [length text_longs fmt_longs] in *. destruct fuel as [|fuel]; [lia|].
  set (rest := match vs with [] => [] | _ => ch " " :: text_longs vs end). set (frest := match length vs with O => [] | _ => ch " " :: fmt_longs (length vs) end) in *.
  assert (∃ c s', dec v ++ rest = c :: s') as (c & s' & Es).
  { destruct (dec_ok v Hv) as (_ & _ & s & st & l & _ & -> & Hne & _). destruct st, l; cbn; eauto; done. }
  assert (scan_loop (S fuel) len (dec v ++ rest) (bytes_of_string "%ld" ++ frest) count acc = scan_loop fuel len rest frest (count + 1) (acc ++ [SLong v])) as ->.
  { rewrite Es. change (bytes_of_string "%ld" ++ frest) with (ch "%" :: ch "l" :: ch "d" :: frest).
    assert (scan_one (ch "d") true (len - Z.of_nat (length (c :: s'))) (c :: s') = Some (Some (SLong v), true, rest)) as E.
    { rewrite <- Es. apply scan_dec; [done|]. unfold rest. by destruct vs. }
    rewrite scan_loop_conv. change (scan_modifier (skip_digits (ch "l" :: ch "d" :: frest))) with (true, ch "d" :: frest). cbn [hd tl]. by rewrite E. }
  cbn [length bytes_of_string] in Hf. rewrite length_app in Hf. cbn [length bytes_of_string] in Hf. unfold rest, frest in *. destruct vs as [|w vs].
  { destruct fuel; [lia|]. done. }
  cbn [length] in *. destruct fuel as [|fuel]; [lia|].
  assert (∀ k a, scan_loop (S fuel) len (ch " " :: text_longs (w :: vs)) (ch " " :: fmt_longs (S (length vs))) k a = scan_loop fuel len (text_longs (w :: vs)) (fmt_longs (S (length vs))) k a) as ->.
  { intros k a. remember (text_longs (w :: vs)) as t eqn:Et. cbn [scan_loop]. change (isspace (ch " ")) with true. cbn iota. f_equal.
    apply (skip_space_app white [ch " "] t); [constructor; [apply (bool_decide_unpack _); vm_compute; exact I|constructor]|].
    inversion Hvs as [|? ? Hw _]; subst. destruct (dec_ok w Hw) as (_ & _ & s & st & l & Hs & Ew & Hne & Hd & _). cbn [text_longs]. rewrite Ew.
    destruct Hs; cbn [app]; [|apply (bool_decide_unpack _); vm_compute; exact I..]. destruct l as [|x l]; [done|]. cbn. inversion Hd; subst. apply digit_not_white. lia. }
  rewrite IH by lia. cbn [length fmap list_fmap]. f_equal. f_equal; [lia|]. by rewrite <- app_assoc.
Qed.

Lemma text_longs_length vs : Forall (λ v, - 2 ^ 63 < v < 2 ^ 63) vs → (length (text_longs vs) ≤ 22 * length vs)%nat.
Proof.
  induction 1 as [|v vs Hv _ IH]; [done|]. cbn [text_longs length]. rewrite length_app. destruct (dec_ok v Hv) as (_ & Hl & _). destruct vs; cbn [length] in *; lia.
Qed.

Lemma dirs_longs_plain n : Forall plain_directive (dirs_longs n).
Proof. induction n as [|n IH]; [constructor|]. cbn [dirs_longs]. constructor; [done|]. destruct n; [constructor|]. by constructor. Qed.

(** C30: a list of n longs, none of them the least one, printed by vsnprintf
    with n fields "%ld" separated by blanks into a buffer of more than 22 n
    bytes, is read back by vsscanf with the same format: every field is
    converted, to the same numbers. *)
Theorem printf_scanf_roundtrip str size vs :
  0 ≤ str → str + size ≤ 2 ^ 64 → 22 * Z.of_nat (length vs) < size → Forall (λ v, - 2 ^ 63 < v < 2 ^ 63) vs →
  ∃ text, vsnprintf str size (fmt_longs (length vs)) (VNum <$> vs) = Some text ∧
    vsscanf text (fmt_longs (length vs)) = Some (Z.of_nat (length vs), SLong <$> vs).
Proof.
  intros Hstr Hend Hsize Hvs. exists (text_longs vs). pose proof (text_longs_length vs Hvs) as Hl. split.
  - destruct (vsnprintf_correct str size (fmt_longs (length vs)) (VNum <$> vs) (dirs_longs (length vs)) (text_longs vs)) as [-> _]; [done|lia|done| | | | |].
    + apply parse_longs. lia.
    + apply dirs_longs_plain.
    + apply Forall_fmap. eapply Forall_impl; [exact Hvs|]. intros v Hv. cbn in *. rewrite i64_small; lia.
    + by apply render_longs.
    + by rewrite take_ge by lia.
  - unfold vsscanf. rewrite scan_loop_longs by (done || lia). done.
Qed.

(** ** Concrete runs *)

Lemma vsnprintf_correct_witness :
  vsnprintf 0x1000 8 (bytes_of_string "%s=%d;"%string) [VStr (Some (bytes_of_string "pid"%string)); VNum 123456] = Some (bytes_of_string "pid=123"%string).
Proof.
  destruct (vsnprintf_correct 0x1000 8 (bytes_of_string "%s=%d;"%string) [VStr (Some (bytes_of_string "pid"%string)); VNum 123456]
    [Conv (ch "s") false 0 false false; Lit (ch "="); Conv (ch "d") false 0 false false; Lit (ch ";")] (bytes_of_string "pid=123456;"%string)) as [E _].
  - lia.
  - lia.
  - lia.
  - vm_compute. reflexivity.
  - repeat constructor; discriminate.
  - repeat constructor; vm_compute; discriminate.
  - vm_compute. reflexivity.
  - rewrite E. vm_compute. reflexivity.
Defined.

Lemma printf_scanf_roundtrip_witness :
  ∃ text, vsnprintf 0x1000 100 (fmt_longs 2) [VNum (-5); VNum 70] = Some text ∧ vsscanf text (fmt_longs 2) = Some (2, [SLong (-5); SLong 70]).
Proof. apply (printf_scanf_roundtrip 0x1000 100 [-5; 70]); [lia|lia|cbn; lia|repeat constructor; lia]. Defined.

(** A field width fills the buffer: nothing in the loop counts. *)
Example width_fills_buffer : snprintf 0x1000 16 (bytes_of_string "%5u|"%string) [VNum 42] = Some (replicate 15 (ch " ")).
Proof. vm_compute. reflexivity. Qed.
Example zero_width_fills_buffer : snprintf 0x1000 8 (bytes_of_string "%02d:%02d"%string) [VNum 7; VNum 5] = Some (replicate 7 (ch "0")).
Proof. vm_compute. reflexivity. Qed.

(** A width without zeros has no effect on a signed number. *)
Example signed_width_ignored : snprintf 0x1000 16 (bytes_of_string "%5d|"%string) [VNum 42] = Some (bytes_of_string "42|"%string).
Proof. vm_compute. reflexivity. Qed.

(** The end of the buffer of sprintf wraps around: it writes nothing. *)
Theorem sprintf_writes_nothing str format args : 2 ≤ str < 2 ^ 64 → sprintf str format args = Some [].
Proof.
  intros Hs. unfold sprintf, vsprintf, vsnprintf, SIZE_MAX. destruct (Z.ltb_spec 0 (2 ^ 64 - 1)); [|lia]. replace (u64 (str + (2 ^ 64 - 1) - 1)) with (str - 2).
  2:{ unfold u64. replace (str + (2 ^ 64 - 1) - 1) with (str - 2 + 1 * 2 ^ 64) by lia. rewrite Z.mod_add by lia. rewrite Z.mod_small; lia. }
  replace (Z.to_nat (str - 2 - str)) with O by lia. by destruct format.
Qed.

(** The least long is printed with a character below '0'. *)
Example least_long_garbled : snprintf 0x1000 32 (bytes_of_string "%ld"%string) [VNum (- 2 ^ 63)] = Some (bytes_of_string "-("%string).
Proof. vm_compute. reflexivity. Qed.
