(* ===== verification/Streams.v ===== *)
(** * libc/src/stdio.c: streams

    A stream is one of the three standard ones or a slot of the pool of 16.
    The system calls that the streams are made of are an interface: the class
    [PosixIO] has the calls, and [PosixLaws] states what the kernel promises
    for them.  Buffering is not implemented in the code: the fields for it are
    left out.  A stream is given by [None] for NULL. *)

From Stdlib Require Import Ascii.
From S2P Require Import Prelude CString Printk Libc Stdio.

(** ** The system calls *)

(** read gives the bytes that it stores, and its result. *)
Class PosixIO (S : Type) := {
  io_open : list Z → Z → S → S * Z;
  io_close : Z → S → S * Z;
  io_read : Z → Z → S → S * (list Z * Z);
  io_write : Z → list Z → S → S * Z;
  io_lseek : Z → Z → Z → S → S * Z
}.

(** open gives a descriptor that was not open; close closes an open one; the
    other calls open and close nothing.  read of one byte from a descriptor
    with input takes the first byte, and gives 0 at its end. *)
Class PosixLaws (S : Type) `{PosixIO S} := {
  io_fds : S → gset Z;
  io_input : S → Z → list Z;
  open_law path flags s : match io_open path flags s with (s', r) => (r < 0 ∧ io_fds s' = io_fds s) ∨ (0 ≤ r ∧ (r ∉ io_fds s) ∧ io_fds s' = {[r]} ∪ io_fds s) end;
  close_law fd s : fd ∈ io_fds s → io_fds (io_close fd s).1 = io_fds s ∖ {[fd]};
  read_law fd n s : io_fds (io_read fd n s).1 = io_fds s;
  read_one_law fd s : fd ∈ io_fds s → ∃ s', io_read fd 1 s = (s', (take 1 (io_input s fd), Z.of_nat (length (take 1 (io_input s fd))))) ∧ io_input s' fd = drop 1 (io_input s fd);
  write_law fd l s : io_fds (io_write fd l s).1 = io_fds s;
  lseek_law fd o w s : io_fds (io_lseek fd o w s).1 = io_fds s
}.

(** ** Streams *)

Definition EOF : Z := -1.
Definition FILE_READ : Z := 1.
Definition FILE_WRITE : Z := 2.
Definition FILE_APPEND : Z := 4.
Definition FILE_POOL_SIZE : nat := 16.
Definition IOFBF : Z := 0.
Definition IOLBF : Z := 1.
Definition IONBF : Z := 2.

(** open(2), as fcntl.h of the library numbers the flags. *)
Definition LO_RDONLY : Z := 0.
Definition LO_WRONLY : Z := 1.
Definition LO_RDWR : Z := 2.
Definition LO_CREAT : Z := 64.
Definition LO_TRUNC : Z := 512.
Definition LO_APPEND : Z := 1024.
Definition SEEK_SET : Z := 0.
Definition SEEK_CUR : Z := 1.

Record FILE := mk_FILE { fp_fd : Z; fp_flags : Z; fp_error : bool; fp_eof : bool; fp_buf_mode : Z; fp_ungetc_char : Z; fp_has_ungetc : bool; fp_in_use : bool }.

Definition zero_FILE : FILE := mk_FILE 0 0 false false 0 0 false false.

Inductive stream := Std (i : nat) | Pool (i : nat).
#[export] Instance stream_eq_dec : EqDecision stream.
Proof. solve_decision. Defined.

Definition STDIN : stream := Std 0.
Definition STDOUT : stream := Std 1.
Definition STDERR : stream := Std 2.

Record stdio (S : Type) := mk_stdio { file_pool : list FILE; standard : list FILE; sys_io : S }.
Arguments mk_stdio {S}.
Arguments file_pool {S}.
Arguments standard {S}.
Arguments sys_io {S}.

Section Streams.
Context {S : Type} `{!PosixIO S}.
Implicit Types (st : stdio S) (f : stream).

Definition stdio_boot (s : S) : stdio S :=
  mk_stdio (replicate FILE_POOL_SIZE zero_FILE)
    [mk_FILE 0 FILE_READ false false IOLBF 0 false true; mk_FILE 1 FILE_WRITE false false IOLBF 0 false true; mk_FILE 2 FILE_WRITE false false IONBF 0 false true] s.

(** [*stream] *)
Definition file_of f st : option FILE := match f with Std i => standard st !! i | Pool i => file_pool st !! i end.
Definition set_file f (x : FILE) st : stdio S :=
  match f with
  | Std i => mk_stdio (file_pool st) (<[i := x]> (standard st)) (sys_io st)
  | Pool i => mk_stdio (<[i := x]> (file_pool st)) (standard st) (sys_io st)
  end.
Definition with_io (s : S) st : stdio S := mk_stdio (file_pool st) (standard st) s.

Definition set_status (error eof : bool) (x : FILE) : FILE :=
  mk_FILE (fp_fd x) (fp_flags x) error eof (fp_buf_mode x) (fp_ungetc_char x) (fp_has_ungetc x) (fp_in_use x).
Definition set_ungetc (c : Z) (has : bool) (x : FILE) : FILE :=
  mk_FILE (fp_fd x) (fp_flags x) (fp_error x) (fp_eof x) (fp_buf_mode x) c has (fp_in_use x).

(** The first slot that is free, cleared and taken. *)
Fixpoint free_slot (i : nat) (pool : list FILE) : option nat :=
  match pool with [] => None | x :: pool' => if negb (fp_in_use x) then Some i else free_slot (Datatypes.S i) pool' end.
Definition alloc_file st : stdio S * option stream :=
  match free_slot 0 (file_pool st) with
  | Some i => (set_file (Pool i) (mk_FILE 0 0 false false 0 0 false true) st, Some (Pool i))
  | None => (st, None)
  end.

(** The flags for a mode; [plus] is whether "+" is looked at. *)
Definition mode_flags (plus : bool) (mode : list Z) : option (Z * Z) :=
  let p := plus && (hd 0 (tl mode) =? ch "+") in
  let c := hd 0 mode in
  if c =? ch "r" then Some (if p then (Z.lor FILE_READ FILE_WRITE, LO_RDWR) else (FILE_READ, LO_RDONLY))
  else if c =? ch "w" then
    Some (if p then (Z.lor FILE_WRITE FILE_READ, Z.lor (Z.lor LO_RDWR LO_CREAT) LO_TRUNC) else (FILE_WRITE, Z.lor (Z.lor LO_WRONLY LO_CREAT) LO_TRUNC))
  else if c =? ch "a" then
    Some (if p then (Z.lor (Z.lor FILE_WRITE FILE_APPEND) FILE_READ, Z.lor (Z.lor LO_RDWR LO_CREAT) LO_APPEND)
          else (Z.lor FILE_WRITE FILE_APPEND, Z.lor (Z.lor LO_WRONLY LO_CREAT) LO_APPEND))
  else None.

Definition fopen (pathname mode : option (list Z)) st : option (stdio S * option stream) :=
  match pathname, mode with
  | Some path, Some m =>
      match mode_flags true m with
      | None => Some (st, None)
      | Some (flags, oflags) =>
          let '(s, fd) := io_open path oflags (sys_io st) in
          let st := with_io s st in
          if fd <? 0 then Some (st, None)
          else
            match alloc_file st with
            | (st, None) => Some (with_io (io_close fd (sys_io st)).1 st, None)
            | (st, Some f) => x ← file_of f st; Some (set_file f (mk_FILE fd flags (fp_error x) (fp_eof x) IOFBF (fp_ungetc_char x) (fp_has_ungetc x) (fp_in_use x)) st, Some f)
            end
      end
  | _, _ => Some (st, None)
  end.

Definition fflush (f : option stream) st : stdio S * Z := (st, 0).

Definition fclose (f : option stream) st : option (stdio S * Z) :=
  match f with
  | None => Some (st, EOF)
  | Some (Std _) => Some (st, 0)
  | Some f =>
      x ← file_of f st;
      let '(s, ret) := io_close (fp_fd x) (sys_io st) in
      Some (set_file f (mk_FILE (fp_fd x) (fp_flags x) (fp_error x) (fp_eof x) (fp_buf_mode x) (fp_ungetc_char x) (fp_has_ungetc x) false) (with_io s st), if ret <? 0 then EOF else 0)
  end.

Definition freopen (pathname : option (list Z)) (mode : list Z) (f : option stream) st : option (stdio S * option stream) :=
  match f with
  | None => Some (st, None)
  | Some f =>
      x ← file_of f st;
      let st := with_io (io_close (fp_fd x) (sys_io st)).1 st in
      match pathname with
      | None => Some (st, None)
      | Some path =>
          match mode_flags false mode with
          | None => Some (st, None)
          | Some (flags, oflags) =>
              let '(s, fd) := io_open path oflags (sys_io st) in
              let st := with_io s st in
              if fd <? 0 then Some (st, None)
              else Some (set_file f (mk_FILE fd flags false false (fp_buf_mode x) (fp_ungetc_char x) false (fp_in_use x)) st, Some f)
          end
      end
  end.

(** ** Characters and lines *)

Definition fgetc (f : option stream) st : option (stdio S * Z) :=
  match f with
  | None => Some (st, EOF)
  | Some f =>
      x ← file_of f st;
      if fp_has_ungetc x then Some (set_file f (set_ungetc (fp_ungetc_char x) false x) st, fp_ungetc_char x)
      else
        let '(s, (bytes, n)) := io_read (fp_fd x) 1 (sys_io st) in
        let st := with_io s st in
        if n <=? 0 then Some (set_file f (if n =? 0 then set_status (fp_error x) true x else set_status true (fp_eof x) x) st, EOF)
        else Some (st, hd 0 bytes)
  end.

(** [while (i < size - 1)]: [None] inside when NULL is returned. *)
Fixpoint fgets_loop (k : nat) f (s : list Z) st : option (stdio S * option (list Z)) :=
  match k with
  | O => Some (st, Some s)
  | Datatypes.S k' =>
      '(st, c) ← fgetc (Some f) st;
      if c =? EOF then Some (st, match s with [] => None | _ => Some s end)
      else
        let s := s ++ [u8 c] in
        if c =? 10 then Some (st, Some s) else fgets_loop k' f s st
  end.
Definition fgets (buf : bool) (size : Z) (f : option stream) st : option (stdio S * option (list Z)) :=
  match f with
  | Some f => if negb buf || (size <=? 0) then Some (st, None) else fgets_loop (Z.to_nat (size - 1)) f [] st
  | None => Some (st, None)
  end.

Definition fputc (c : Z) (f : option stream) st : option (stdio S * Z) :=
  match f with
  | None => Some (st, EOF)
  | Some f =>
      x ← file_of f st;
      let '(s, n) := io_write (fp_fd x) [u8 c] (sys_io st) in
      let st := with_io s st in
      if negb (n =? 1) then Some (set_file f (set_status true (fp_eof x) x) st, EOF) else Some (st, u8 c)
  end.

Definition fputs (s : option (list Z)) (f : option stream) st : option (stdio S * Z) :=
  match s, f with
  | Some s, Some f =>
      x ← file_of f st;
      let '(io, n) := io_write (fp_fd x) s (sys_io st) in
      let st := with_io io st in
      if negb (n =? Z.of_nat (length s)) then Some (set_file f (set_status true (fp_eof x) x) st, EOF) else Some (st, 0)
  | _, _ => Some (st, EOF)
  end.

Definition puts (s : option (list Z)) st : option (stdio S * Z) :=
  '(st, r) ← fputs s (Some STDOUT) st;
  if r =? EOF then Some (st, EOF)
  else '(st, r) ← fputc 10 (Some STDOUT) st; Some (st, if r =? EOF then EOF else 0).

Definition ungetc (c : Z) (f : option stream) st : option (stdio S * Z) :=
  match f with
  | None => Some (st, EOF)
  | Some f =>
      if c =? EOF then Some (st, EOF)
      else x ← file_of f st; Some (set_file f (set_status (fp_error x) false (set_ungetc c true x)) st, c)
  end.

(** ** Blocks, positions, status *)

Definition fread (ptr : bool) (size nmemb : Z) (f : option stream) st : option (stdio S * (list Z * Z)) :=
  match f with
  | None => Some (st, ([], 0))
  | Some f =>
      if negb ptr || (size =? 0) || (nmemb =? 0) then Some (st, ([], 0))
      else
        x ← file_of f st;
        let '(s, (bytes, n)) := io_read (fp_fd x) (u64 (size * nmemb)) (sys_io st) in
        let st := with_io s st in
        if n <=? 0 then Some (set_file f (if n =? 0 then set_status (fp_error x) true x else set_status true (fp_eof x) x) st, (bytes, 0))
        else Some (st, (bytes, n / size))
  end.

(** [ptr] is what the [size * nmemb] bytes hold. *)
Definition fwrite (ptr : option (list Z)) (size nmemb : Z) (f : option stream) st : option (stdio S * Z) :=
  match ptr, f with
  | Some bytes, Some f =>
      if (size =? 0) || (nmemb =? 0) then Some (st, 0)
      else
        x ← file_of f st;
        let '(s, n) := io_write (fp_fd x) (take (Z.to_nat (u64 (size * nmemb))) bytes) (sys_io st) in
        let st := with_io s st in
        if n <? 0 then Some (set_file f (set_status true (fp_eof x) x) st, 0) else Some (st, n / size)
  | _, _ => Some (st, 0)
  end.

Definition fseek (f : option stream) (offset whence : Z) st : option (stdio S * Z) :=
  match f with
  | None => Some (st, -1)
  | Some f =>
      x ← file_of f st;
      let '(s, r) := io_lseek (fp_fd x) offset whence (sys_io st) in
      let st := with_io s st in
      if r <? 0 then Some (st, -1) else Some (set_file f (set_status (fp_error x) false (set_ungetc (fp_ungetc_char x) false x)) st, 0)
  end.

Definition ftell (f : option stream) st : option (stdio S * Z) :=
  match f with
  | None => Some (st, -1)
  | Some f => x ← file_of f st; let '(s, r) := io_lseek (fp_fd x) 0 SEEK_CUR (sys_io st) in Some (with_io s st, r)
  end.

Definition rewind (f : option stream) st : option (stdio S) :=
  match f with
  | None => Some st
  | Some f0 => '(st, _) ← fseek f 0 SEEK_SET st; x ← file_of f0 st; Some (set_file f0 (set_status false (fp_eof x) x) st)
  end.

Definition feof (f : option stream) st : option bool := match f with None => Some false | Some f => fp_eof <$> file_of f st end.
Definition ferror (f : option stream) st : option bool := match f with None => Some false | Some f => fp_error <$> file_of f st end.
Definition clearerr (f : option stream) st : option (stdio S) :=
  match f with None => Some st | Some f => x ← file_of f st; Some (set_file f (set_status false false x) st) end.
Definition fileno (f : option stream) st : option Z := match f with None => Some (-1) | Some f => fp_fd <$> file_of f st end.

(** ** Formatted output and input on streams; [buf] is the address of the
    array of 1024 bytes on the stack. *)

Definition vfprintf (buf : Z) f (format : list Z) (args : list va) st : option (stdio S * Z) :=
  text ← vsnprintf buf 1024 format args;
  let len := Z.of_nat (length text) in
  if 0 <? len then x ← file_of f st; Some (with_io (io_write (fp_fd x) text (sys_io st)).1 st, len)
  else Some (st, len).
Definition vprintf (buf : Z) : list Z → list va → stdio S → option (stdio S * Z) := vfprintf buf STDOUT.

Definition perror (s : option (list Z)) st : option (stdio S) :=
  st ← (match s with
        | Some (_ :: _) => '(st, _) ← fputs s (Some STDERR) st; '(st, _) ← fputs (Some (bytes_of_string ": "%string)) (Some STDERR) st; Some st
        | _ => Some st
        end);
  '(st, _) ← fputs (Some (bytes_of_string "Error"%string ++ [10])) (Some STDERR) st; Some st.

(** [while (i < 1023 && (c = fgetc(stream)) != EOF && c != '\n')] *)
Fixpoint scan_line (k : nat) f (buf : list Z) st : option (stdio S * list Z) :=
  match k with
  | O => Some (st, buf)
  | Datatypes.S k' => '(st, c) ← fgetc (Some f) st; if (c =? EOF) || (c =? 10) then Some (st, buf) else scan_line k' f (buf ++ [u8 c]) st
  end.
Definition vfscanf f (format : list Z) st : option (stdio S * (Z * list stored)) :=
  '(st, line) ← scan_line 1023 f [] st; r ← vsscanf (until_nul line) format; Some (st, r).

(** ** Lines *)

(** The line at the front of [input], at most [k] bytes of it. *)
Fixpoint line_of (k : nat) (input : list Z) : list Z :=
  match k, input with
  | Datatypes.S k', c :: input' => c :: if c =? 10 then [] else line_of k' input'
  | _, _ => []
  end.

Context `{!PosixLaws S}.

(** [f] reads from the descriptor [fd], of which [input] is left. *)
Record reads f st (fd : Z) (input : list Z) : Prop := {
  rd_file : ∃ x, file_of f st = Some x ∧ fp_fd x = fd ∧ fp_has_ungetc x = false;
  rd_open : fd ∈ io_fds (sys_io st);
  rd_input : io_input (sys_io st) fd = input
}.

Lemma file_of_set f x st : is_Some (file_of f st) → file_of f (set_file f x st) = Some x.
Proof. destruct f as [i|i]; cbn; intros [y Hy]; apply list_lookup_insert_eq; by eapply lookup_lt_Some. Qed.

Lemma fgetc_reads f st fd c input :
  reads f st fd (c :: input) → ∃ st', fgetc (Some f) st = Some (st', c) ∧ reads f st' fd input.
Proof.
  intros [(x & Hx & <- & Hu) Ho Hi]. unfold fgetc. rewrite Hx. cbn [mbind option_bind]. rewrite Hu.
  destruct (read_one_law (fp_fd x) (sys_io st) Ho) as (s & E & Ei). pose proof (read_law (fp_fd x) 1 (sys_io st)) as El. rewrite E in El |- *. rewrite Hi in *.
  cbn [take length hd Z.of_nat Pos.of_succ_nat Z.leb Z.compare] in *. eexists. split; [done|]. split; [exists x; by destruct f|cbn in *; by rewrite El|cbn; by rewrite Ei].
Qed.

Lemma fgetc_end f st fd : reads f st fd [] → ∃ st', fgetc (Some f) st = Some (st', EOF) ∧ reads f st' fd [] ∧ feof (Some f) st' = Some true.
Proof.
  intros [(x & Hx & <- & Hu) Ho Hi]. unfold fgetc. rewrite Hx. cbn [mbind option_bind]. rewrite Hu.
  destruct (read_one_law (fp_fd x) (sys_io st) Ho) as (s & E & Ei). pose proof (read_law (fp_fd x) 1 (sys_io st)) as El. rewrite E in El |- *. rewrite Hi in *.
  cbn [take length Z.of_nat Z.leb Z.eqb Z.compare] in *. assert (is_Some (file_of f (with_io s st))) as Hs by (exists x; by destruct f).
  eexists. split; [done|]. rewrite <- (drop_nil 1). split.
  - split; [eexists; split; [by apply file_of_set|done]|destruct f; cbn in *; by rewrite El|destruct f; cbn; by rewrite Ei].
  - unfold feof. by rewrite file_of_set.
Qed.

Lemma fgets_loop_ok k f s st fd input :
  reads f st fd input → Forall is_byte input →
  ∃ st', fgets_loop k f s st = Some (st', match k, s, line_of k input with Datatypes.S _, [], [] => None | _, _, _ => Some (s ++ line_of k input) end) ∧
    reads f st' fd (drop (length (line_of k input)) input).
Proof.
  revert s st input. induction k as [|k IH]; intros s st input Hr Hb; [exists st; cbn; by rewrite app_nil_r|]. cbn [fgets_loop line_of]. destruct input as [|c input].
  - destruct (fgetc_end f st fd Hr) as (st' & -> & Hr' & _). cbn [mbind option_bind]. change (EOF =? EOF) with true. cbn iota. exists st'. rewrite app_nil_r. by destruct s.
  - destruct (fgetc_reads f st fd c input Hr) as (st' & -> & Hr'). cbn [mbind option_bind]. inversion Hb as [|? ? Hc Hb']; subst. unfold is_byte in Hc.
    destruct (Z.eqb_spec c EOF) as [->|_]; [unfold EOF in Hc; lia|]. rewrite u8_small by lia. destruct (c =? 10).
    + exists st'. cbn. by destruct s.
    + destruct (IH (s ++ [c]) st' input Hr' Hb') as (st2 & -> & Hr2). exists st2. cbn [length drop]. split; [|done]. f_equal. f_equal.
      destruct k; [destruct s; cbn; rewrite ?app_nil_r; done|]. by destruct s as [|? ?]; cbn [app]; destruct (line_of _ _); cbn; rewrite <- ?app_assoc, ?app_nil_r.
Qed.

(** Fgets gives the next line of the input, its newline included, cut to
    [size - 1] bytes, and leaves the stream after it; at the end of the input
    it gives NULL, and a buffer of one byte gets the empty string without a
    read. *)
Theorem fgets_correct f st fd input size :
  reads f st fd input → Forall is_byte input → 0 < size →
  let line := line_of (Z.to_nat (size - 1)) input in
  ∃ st', fgets true size (Some f) st = Some (st', if decide (input = [] ∧ 1 < size) then None else Some line) ∧
    reads f st' fd (drop (length line) input).
Proof.
  intros Hr Hb Hs line. unfold fgets. cbn [negb orb]. destruct (Z.leb_spec size 0); [lia|].
  destruct (fgets_loop_ok (Z.to_nat (size - 1)) f [] st fd input Hr Hb) as (st' & -> & Hr'). exists st'. split; [|done]. f_equal. f_equal. unfold line. clear Hr' line.
  destruct (Z.to_nat (size - 1)) as [|k] eqn:Ek; [rewrite decide_False by lia; done|]. destruct input as [|c input]; [rewrite decide_True by (split; [done|lia]); done|].
  rewrite decide_False by (intros [? _]; done). done.
Qed.

(** ** Descriptors *)

(** Slot [i] of the pool is an open stream on [fd]. *)
Definition slot_fd st (i : nat) (fd : Z) : Prop := ∃ x, file_pool st !! i = Some x ∧ fp_in_use x = true ∧ fp_fd x = fd.

(** Every open descriptor is one of [B], which the program had otherwise, or
    belongs to exactly one stream of the pool. *)
Record stdio_inv (B : gset Z) st : Prop := {
  si_len : length (file_pool st) = FILE_POOL_SIZE;
  si_fd i fd : slot_fd st i fd → fd ∈ io_fds (sys_io st) ∧ fd ∉ B;
  si_inj i j fd : slot_fd st i fd → slot_fd st j fd → i = j;
  si_owner fd : fd ∈ io_fds (sys_io st) → fd ∈ B ∨ ∃ i, slot_fd st i fd;
  si_base : B ⊆ io_fds (sys_io st)
}.

Lemma inv_keep B st st' :
  stdio_inv B st → length (file_pool st') = length (file_pool st) → (∀ i fd, slot_fd st' i fd ↔ slot_fd st i fd) → io_fds (sys_io st') = io_fds (sys_io st) → stdio_inv B st'.
Proof.
  intros [H1 H2 H3 H4 H5] El Es Ei. split; rewrite ?El, ?Ei; [done| | | |done].
  - intros i fd Hi. rewrite Es in Hi. by eapply H2.
  - intros i j fd Hi Hj. rewrite Es in Hi, Hj. by eapply H3.
  - intros fd Hfd. destruct (H4 fd Hfd) as [|[i Hi]]; [by left|]. right. exists i. by apply Es.
Qed.

(** Changing the status of a stream. *)
Lemma inv_set B f x y st : stdio_inv B st → file_of f st = Some x → fp_fd y = fp_fd x → fp_in_use y = fp_in_use x → stdio_inv B (set_file f y st).
Proof.
  intros Hi Hx Hfd Hu. destruct f as [i|i]; cbn in *; [by eapply inv_keep|]. apply (inv_keep B st); [done|cbn; by rewrite length_insert| |done].
  intros j fd. unfold slot_fd. cbn. destruct (decide (j = i)) as [->|Hne]; [|by rewrite list_lookup_insert_ne by done].
  rewrite list_lookup_insert_eq by (by eapply lookup_lt_Some). rewrite Hx. split; [intros (z & [= <-] & ? & ?)|intros (z & [= <-] & ? & ?)]; eexists; split; [done|split; congruence|done|split; congruence].
Qed.

Lemma inv_io B s st : stdio_inv B st → io_fds s = io_fds (sys_io st) → stdio_inv B (with_io s st).
Proof. intros Hi E. by apply (inv_keep B st). Qed.

Lemma file_of_io f s st : file_of f (with_io s st) = file_of f st.
Proof. by destruct f. Qed.

Lemma free_slot_spec k pool i : free_slot k pool = Some i → ∃ j x, i = (k + j)%nat ∧ pool !! j = Some x ∧ fp_in_use x = false.
Proof.
  revert k. induction pool as [|x pool IH]; intros k E; [done|]. cbn [free_slot] in E. destruct (fp_in_use x) eqn:Ex; cbn [negb] in E.
  - destruct (IH _ E) as (j & y & -> & Hy & Hu). exists (Datatypes.S j), y. split; [lia|done].
  - injection E as <-. exists O, x. split; [lia|done].
Qed.

(** Taking a free slot for a new descriptor. *)
Lemma stream_inv_take B i x y fd s st :
  stdio_inv B st → file_pool st !! i = Some x → fp_in_use x = false → fp_in_use y = true → fp_fd y = fd → fd ∉ io_fds (sys_io st) → io_fds s = {[fd]} ∪ io_fds (sys_io st) →
  stdio_inv B (set_file (Pool i) y (with_io s st)).
Proof.
  intros [H1 H2 H3 H4 H5] Hx Hux Huy Hfd Hnew Es. assert (i < length (file_pool st))%nat as Hlt by (by eapply lookup_lt_Some).
  assert (∀ j fd', slot_fd (set_file (Pool i) y (with_io s st)) j fd' ↔ (j = i ∧ fd' = fd) ∨ slot_fd st j fd') as Hsl.
  { intros j fd'. unfold slot_fd. cbn. destruct (decide (j = i)) as [->|Hne].
    - rewrite list_lookup_insert_eq by done. split; [intros (z & [= <-] & _ & <-); by left|]. intros [[_ ->]|(z & Hz & Hu & _)]; [by eexists|congruence].
    - rewrite list_lookup_insert_ne by done. split; [by right|]. by intros [[? _]|?]. }
  split; cbn [file_pool sys_io set_file with_io].
  - by rewrite length_insert.
  - intros j fd' [[-> ->]|Hj]%Hsl; rewrite Es; [split; [set_solver|]|destruct (H2 _ _ Hj); set_solver]. intros HB. by apply Hnew, H5.
  - intros j k fd' Hj Hk. apply Hsl in Hj, Hk. destruct Hj as [[-> ->]|Hj], Hk as [[-> E]|Hk]; [done|by destruct (H2 _ _ Hk)|rewrite E in Hj; by destruct (H2 _ _ Hj)|by eapply H3].
  - intros fd' Hin. rewrite Es in Hin. apply elem_of_union in Hin as [->%elem_of_singleton|Hin]; [right; exists i; apply Hsl; by left|].
    destruct (H4 fd' Hin) as [|[j Hj]]; [by left|]. right. exists j. apply Hsl. by right.
  - rewrite Es. set_solver.
Qed.

(** Releasing a slot with its descriptor. *)
Lemma inv_drop B i x y s st :
  stdio_inv B st → file_pool st !! i = Some x → fp_in_use x = true → fp_in_use y = false → io_fds s = io_fds (sys_io st) ∖ {[fp_fd x]} →
  stdio_inv B (set_file (Pool i) y (with_io s st)).
Proof.
  intros [H1 H2 H3 H4 H5] Hx Hux Huy Es. assert (i < length (file_pool st))%nat as Hlt by (by eapply lookup_lt_Some). assert (slot_fd st i (fp_fd x)) as Hsi by (by exists x).
  assert (∀ j fd', slot_fd (set_file (Pool i) y (with_io s st)) j fd' ↔ j ≠ i ∧ slot_fd st j fd') as Hsl.
  { intros j fd'. unfold slot_fd. cbn. destruct (decide (j = i)) as [->|Hne].
    - rewrite list_lookup_insert_eq by done. split; [intros (z & [= <-] & ? & _); congruence|by intros [? _]].
    - rewrite list_lookup_insert_ne by done. split; [done|by intros [_ ?]]. }
  split; cbn [file_pool sys_io set_file with_io].
  - by rewrite length_insert.
  - intros j fd' [Hne Hj]%Hsl. destruct (H2 _ _ Hj) as [Ho HB]. split; [|done]. rewrite Es. apply elem_of_difference. split; [done|]. intros ->%elem_of_singleton. apply Hne. by eapply H3.
  - intros j k fd' [_ Hj]%Hsl [_ Hk]%Hsl. by eapply H3.
  - intros fd' Hin. rewrite Es in Hin. apply elem_of_difference in Hin as [Hin Hne%not_elem_of_singleton]. destruct (H4 fd' Hin) as [|[j Hj]]; [by left|]. right. exists j. apply Hsl. split; [|done].
    intros ->. apply Hne. destruct Hj as (z & Hz & _ & <-). congruence.
  - rewrite Es. intros b Hb. apply elem_of_difference. split; [by apply H5|]. intros ->%elem_of_singleton. by destruct (H2 _ _ Hsi).
Qed.

Lemma set_file_twice i y z st : set_file (Pool i) y (set_file (Pool i) z st) = set_file (Pool i) y st.
Proof. cbn. by rewrite list_insert_insert_eq. Qed.

(** fopen gives a stream that was not open, on a descriptor of its own, or
    leaves no descriptor open. *)
Lemma fopen_ok B path mode st :
  stdio_inv B st → ∃ st' r, fopen path mode st = Some (st', r) ∧ stdio_inv B st' ∧
    match r with
    | None => io_fds (sys_io st') = io_fds (sys_io st)
    | Some f => ∃ i fd, f = Pool i ∧ (∀ fd', ¬ slot_fd st i fd') ∧ slot_fd st' i fd ∧ fd ∉ io_fds (sys_io st)
    end.
Proof.
  intros Hi. unfold fopen. destruct path as [path|], mode as [mode|]; [|exists st, None; done..]. destruct (mode_flags true mode) as [[flags oflags]|]; [|exists st, None; done].
  pose proof (open_law path oflags (sys_io st)) as Hl. destruct (io_open path oflags (sys_io st)) as [s fd]. destruct Hl as [[Hneg Es]|(Hpos & Hnew & Es)].
  { destruct (Z.ltb_spec fd 0); [|lia]. exists (with_io s st), None. split; [done|]. split; [by apply inv_io|done]. }
  destruct (Z.ltb_spec fd 0); [lia|]. unfold alloc_file. cbn [file_pool with_io]. destruct (free_slot 0 (file_pool st)) as [i|] eqn:Ef.
  - destruct (free_slot_spec _ _ _ Ef) as (j & x & -> & Hx & Hu). cbn [Nat.add]. change (mk_stdio (file_pool st) (standard st) s) with (with_io s st).
    rewrite file_of_set by (exists x; done). cbn [mbind option_bind]. rewrite set_file_twice. eexists _, _. split; [done|]. split; [by eapply stream_inv_take|].
    exists j, fd. split; [done|]. split; [intros fd' (y & Hy & Huy & _); congruence|]. split; [|done]. eexists. split; [cbn; by rewrite list_lookup_insert_eq by (by eapply lookup_lt_Some)|done].
  - eexists _, None. split; [done|]. cbn [sys_io with_io]. assert (io_fds (io_close fd s).1 = io_fds (sys_io st)) as E by (rewrite close_law by set_solver; set_solver).
    split; [by apply (inv_io B _ st)|done].
Qed.

Lemma fclose_ok B i fd st :
  stdio_inv B st → slot_fd st i fd → ∃ st' r, fclose (Some (Pool i)) st = Some (st', r) ∧ stdio_inv B st' ∧ (fd ∉ io_fds (sys_io st')) ∧ ∀ fd', ¬ slot_fd st' i fd'.
Proof.
  intros Hi Hs. pose proof Hs as (x & Hx & Hu & <-). destruct (si_fd _ _ Hi _ _ Hs) as [Ho _]. unfold fclose. cbn [file_of]. rewrite Hx. cbn [mbind option_bind].
  pose proof (close_law (fp_fd x) (sys_io st) Ho) as Es. destruct (io_close (fp_fd x) (sys_io st)) as [s ret]. cbn [fst] in Es. eexists _, _. split; [done|].
  split; [by eapply inv_drop|]. split; [cbn; rewrite Es; set_solver|]. intros fd' (y & Hy & Huy & _). cbn in Hy. rewrite list_lookup_insert_eq in Hy by (by eapply lookup_lt_Some).
  injection Hy as <-. done.
Qed.

(** The calls on a stream that is there. *)
Inductive stream_call : stdio S → stdio S → Prop :=
  | call_fopen path mode st st' r : fopen path mode st = Some (st', r) → stream_call st st'
  | call_fclose i fd st st' r : slot_fd st i fd → fclose (Some (Pool i)) st = Some (st', r) → stream_call st st'
  | call_fgetc (f : option stream) st st' r : fgetc f st = Some (st', r) → stream_call st st'
  | call_fputc c (f : option stream) st st' r : fputc c f st = Some (st', r) → stream_call st st'
  | call_fputs s (f : option stream) st st' r : fputs s f st = Some (st', r) → stream_call st st'
  | call_ungetc c (f : option stream) st st' r : ungetc c f st = Some (st', r) → stream_call st st'
  | call_fread p size n (f : option stream) st st' r : fread p size n f st = Some (st', r) → stream_call st st'
  | call_fwrite p size n (f : option stream) st st' r : fwrite p size n f st = Some (st', r) → stream_call st st'
  | call_fseek (f : option stream) o w st st' r : fseek f o w st = Some (st', r) → stream_call st st'
  | call_ftell (f : option stream) st st' r : ftell f st = Some (st', r) → stream_call st st'
  | call_clearerr (f : option stream) st st' : clearerr f st = Some st' → stream_call st st'
  | call_vfprintf buf f fmt args st st' r : vfprintf buf f fmt args st = Some (st', r) → stream_call st st'.

Lemma inv_set_io B f x y s st :
  stdio_inv B st → file_of f st = Some x → io_fds s = io_fds (sys_io st) → fp_fd y = fp_fd x → fp_in_use y = fp_in_use x → stdio_inv B (set_file f y (with_io s st)).
Proof. intros Hi Hx Es H1 H2. eapply inv_set; [by apply inv_io|rewrite file_of_io; exact Hx|done|done]. Qed.

(** One call on a stream: looks the stream up, does one system call. *)
Local Ltac one_call E :=
  let x := fresh "x" in let Hx := fresh "Hx" in
  apply bind_Some in E as (x & Hx & E);
  repeat match type of E with
    | context [io_read ?fd ?n ?s] => pose proof (read_law fd n s); destruct (io_read fd n s) as [? [? ?]]; cbn [fst] in *
    | context [io_write ?fd ?l ?s] => pose proof (write_law fd l s); destruct (io_write fd l s) as [? ?]; cbn [fst] in *
    | context [io_lseek ?fd ?o ?w ?s] => pose proof (lseek_law fd o w s); destruct (io_lseek fd o w s) as [? ?]; cbn [fst] in *
    | context [if ?b then _ else _] => destruct b
    end;
  simplify_eq; first [done|by apply inv_io|by eapply inv_set|by eapply inv_set_io].

Lemma stream_call_inv B st st' : stdio_inv B st → stream_call st st' → stdio_inv B st'.
Proof.
  intros Hi Hc. destruct Hc as [path mode st st' r E|i fd st st' r Hs E|f st st' r E|c f st st' r E|s f st st' r E|c f st st' r E|p size n f st st' r E|p size n f st st' r E|f o w st st' r E|f st st' r E|f st st' E|buf f fmt args st st' r E].
  - destruct (fopen_ok B path mode st Hi) as (st1 & r1 & E1 & Hi1 & _). congruence.
  - destruct (fclose_ok B i fd st Hi Hs) as (st1 & r1 & E1 & Hi1 & _). congruence.
  - destruct f as [f|]; cbn [fgetc] in E; [one_call E|by simplify_eq].
  - destruct f as [f|]; cbn [fputc] in E; [one_call E|by simplify_eq].
  - destruct s as [s|], f as [f|]; cbn [fputs] in E; [one_call E|by simplify_eq..].
  - destruct f as [f|]; cbn [ungetc] in E; [|by simplify_eq]. destruct (c =? EOF); [by simplify_eq|one_call E].
  - destruct f as [f|]; cbn [fread] in E; [|by simplify_eq]. destruct (_ || _); [by simplify_eq|one_call E].
  - destruct p as [p|], f as [f|]; cbn [fwrite] in E; [|by simplify_eq..]. destruct (_ || _); [by simplify_eq|one_call E].
  - destruct f as [f|]; cbn [fseek] in E; [one_call E|by simplify_eq].
  - destruct f as [f|]; cbn [ftell] in E; [one_call E|by simplify_eq].
  - destruct f as [f|]; cbn [clearerr] in E; [one_call E|by simplify_eq].
  - unfold vfprintf in E. apply bind_Some in E as (t & _ & E). destruct (_ <? _); [one_call E|by simplify_eq].
Qed.

Inductive stream_run (B : gset Z) : stdio S → Prop :=
  | srun_boot s : io_fds s = B → stream_run B (stdio_boot s)
  | srun_call st st' : stream_run B st → stream_call st st' → stream_run B st'.

Lemma boot_no_slot s i fd : ¬ slot_fd (stdio_boot s) i fd.
Proof. intros (x & Hx & Hu & _). cbn [stdio_boot file_pool] in Hx. by apply lookup_replicate_1 in Hx as [-> _]. Qed.

Lemma stream_run_inv B st : stream_run B st → stdio_inv B st.
Proof.
  induction 1 as [s E|st st' _ IH Hc]; [|by eapply stream_call_inv]. split; [done|intros i fd Hs; by apply boot_no_slot in Hs|intros i j fd Hs; by apply boot_no_slot in Hs| |].
  - intros fd Hfd. left. cbn in Hfd. by rewrite <- E.
  - cbn. by rewrite E.
Qed.

(** C28: after any sequence of the calls of [stream_call] (fopen, fclose,
    fgetc, fputc, fputs, ungetc, fread, fwrite, fseek, ftell, clearerr and
    vfprintf; not freopen, which leaves a stream with a closed descriptor when
    it fails, [freopen_leaves_closed]), every open descriptor is one the
    program had from the start or is the descriptor of exactly one stream of
    the pool: fopen leaks none, also when the pool is full, no two streams
    share one, and fclose closes it and frees the slot. *)
Theorem streams_own_descriptors B st :
  stream_run B st →
  (∀ fd, fd ∈ io_fds (sys_io st) → fd ∈ B ∨ ∃ i, slot_fd st i fd) ∧ (∀ i j fd, slot_fd st i fd → slot_fd st j fd → i = j) ∧
  (∀ path mode, ∃ st' r, fopen path mode st = Some (st', r) ∧
     match r with
     | None => io_fds (sys_io st') = io_fds (sys_io st)
     | Some f => ∃ i fd, f = Pool i ∧ (∀ fd', ¬ slot_fd st i fd') ∧ slot_fd st' i fd ∧ fd ∉ io_fds (sys_io st)
     end) ∧
  (∀ i fd, slot_fd st i fd → ∃ st' r, fclose (Some (Pool i)) st = Some (st', r) ∧ (fd ∉ io_fds (sys_io st')) ∧ ∀ fd', ¬ slot_fd st' i fd').
Proof.
  intros Hi%stream_run_inv. split; [apply Hi|]. split; [apply Hi|]. split.
  - intros path mode. destruct (fopen_ok B path mode st Hi) as (st' & r & E & _ & Hr). eauto.
  - intros i fd Hs. destruct (fclose_ok B i fd st Hi Hs) as (st' & r & E & _ & H1 & H2). eauto.
Qed.
End Streams.

(** ** A concrete system: files in memory *)

(** Descriptor 3 onwards are readers of one text; 0, 1 and 2 are open. *)
Record mem_io := mk_mio { mio_open : gset Z; mio_pos : gmap Z nat; mio_next : Z }.
Definition mem_text : list Z := bytes_of_string "ab"%string ++ [10] ++ bytes_of_string "c"%string.
Definition mio_input (s : mem_io) (fd : Z) : list Z := drop (default O (mio_pos s !! fd)) mem_text.

#[export] Instance mem_posix : PosixIO mem_io := {
  io_open _ _ s := if decide (mio_next s ∈ mio_open s ∨ mio_next s < 0) then (s, -1) else (mk_mio ({[mio_next s]} ∪ mio_open s) (mio_pos s) (mio_next s + 1), mio_next s);
  io_close fd s := (mk_mio (mio_open s ∖ {[fd]}) (mio_pos s) (mio_next s), 0);
  io_read fd n s :=
    let b := take (Z.to_nat n) (mio_input s fd) in
    (mk_mio (mio_open s) (<[fd := (default O (mio_pos s !! fd) + length b)%nat]> (mio_pos s)) (mio_next s), (b, Z.of_nat (length b)));
  io_write _ l s := (s, Z.of_nat (length l));
  io_lseek _ _ _ s := (s, 0)
}.

#[export] Instance mem_laws : PosixLaws mem_io.
Proof.
  refine {| io_fds := mio_open; io_input := mio_input |}; cbn [io_open io_close io_read io_write io_lseek mem_posix fst]; try done.
  - intros path flags s. case_decide as Hd; [by left|]. right. cbn. split; [lia|]. split; [tauto|done].
  - intros fd s _. eexists. split; [reflexivity|]. unfold mio_input at 1. cbn [mio_pos]. rewrite lookup_insert_eq. cbn [default]. unfold mio_input.
    rewrite drop_drop. unfold id. generalize (from_option (λ x : nat, x) O (mio_pos s !! fd)). intros n. set (t := mem_text). rewrite length_take, length_drop. change (Z.to_nat 1) with 1%nat.
    destruct (decide (n < length t)%nat) as [Hlt|Hge]; [f_equal; lia|]. rewrite !drop_ge by lia. done.
Defined.

Definition demo_io : mem_io := mk_mio {[0; 1; 2]} ∅ 3.
Definition demo_open : stdio mem_io * option stream :=
  default (stdio_boot demo_io, None) (fopen (Some (bytes_of_string "f"%string)) (Some (bytes_of_string "r"%string)) (stdio_boot demo_io)).

Lemma demo_open_eq : fopen (Some (bytes_of_string "f"%string)) (Some (bytes_of_string "r"%string)) (stdio_boot demo_io) = Some (demo_open.1, demo_open.2).
Proof. vm_compute. reflexivity. Qed.

Lemma demo_open_run : stream_run {[0; 1; 2]} demo_open.1.
Proof. eapply srun_call; [by apply (srun_boot _ demo_io)|]. eapply call_fopen. exact demo_open_eq. Qed.

Lemma streams_own_descriptors_witness : ∃ i, slot_fd demo_open.1 i 3.
Proof.
  destruct (streams_own_descriptors {[0; 1; 2]} demo_open.1 demo_open_run) as (Hown & _).
  destruct (Hown 3) as [Hin|Hs]; [apply (bool_decide_unpack _); vm_compute; exact I| |exact Hs].
  exfalso. revert Hin. apply (bool_decide_unpack _). vm_compute. exact I.
Defined.

Lemma fgets_correct_witness :
  ∃ st', fgets true 80 (Some (Pool 0)) demo_open.1 = Some (st', Some (bytes_of_string "ab"%string ++ [10])) ∧ reads (Pool 0) st' 3 (bytes_of_string "c"%string).
Proof.
  apply (fgets_correct (Pool 0) demo_open.1 3 mem_text 80).
  - split; [|apply (bool_decide_unpack _); vm_compute; exact I|vm_compute; reflexivity]. eexists. split; [vm_compute; reflexivity|split; reflexivity].
  - unfold is_byte. apply (bool_decide_unpack _). vm_compute. exact I.
  - lia.
Defined.

(** freopen closes the descriptor first: when it then fails, the stream stays
    in use with a descriptor that is closed. *)
Example freopen_leaves_closed :
  match freopen (Some (bytes_of_string "f"%string)) (bytes_of_string "x"%string) (Some (Pool 0)) demo_open.1 with
  | Some (st, None) => (bool_decide (3 ∈ mio_open (sys_io st)), (λ x, (fp_fd x, fp_in_use x)) <$> file_pool st !! 0%nat)
  | _ => (true, None)
  end = (false, Some (3, true)).
Proof. vm_compute. reflexivity. Qed.

(** fread does not see a character that was pushed back. *)
Example fread_skips_ungetc :
  (r ← ungetc (ch "z") (Some (Pool 0)) demo_open.1; r ← fread true 1 1 (Some (Pool 0)) r.1; Some r.2) = Some ([ch "a"], 1).
Proof. vm_compute. reflexivity. Qed.
