(* ===== verification/Ext4.v ===== *)
(** * kernel/fs/ext4.c

    The ext4 driver: block and inode bitmaps, inodes, the block map of a file,
    reading and writing files, directory entries, creation, mounting.

    The block device is the class [BlockDevice], since ext4_mount takes its
    read and write functions as arguments.  A packed struct is the list of its
    bytes, a field its offset and width.  A buffer from kmalloc is a local list
    beside its address in the heap.  The functions are in a state monad [M];
    [None] is an access outside a buffer or a division by zero.  [e_faults] is
    not in the code: it counts the calls of kmalloc, read and write that
    failed, so that theorems can say what holds when none did. *)

From S2P Require Import Prelude KHeap Kmalloc.

(** ** Packed structs *)

Fixpoint le_get (l : list Z) : Z := match l with [] => 0 | b :: l' => b + 256 * le_get l' end.
Fixpoint le_put (n : nat) (v : Z) : list Z := match n with O => [] | S n' => v `mod` 256 :: le_put n' (v / 256) end.

Record field := F { f_off : Z; f_width : nat }.

(** The bytes [off, off + n) of a buffer; [None] if they are not all in it. *)
Definition get_bytes (off : Z) (n : nat) (l : list Z) : option (list Z) :=
  if (0 <=? off) && (off + Z.of_nat n <=? Z.of_nat (length l)) then Some (take n (drop (Z.to_nat off) l)) else None.
Definition set_bytes (off : Z) (src l : list Z) : option (list Z) :=
  if (0 <=? off) && (off + Z.of_nat (length src) <=? Z.of_nat (length l)) then Some (list_inserts (Z.to_nat off) src l) else None.
Definition getf (base : Z) (f : field) (l : list Z) : option Z := le_get <$> get_bytes (base + f_off f) (f_width f) l.
Definition setf (base : Z) (f : field) (v : Z) (l : list Z) : option (list Z) := set_bytes (base + f_off f) (le_put (f_width f) v) l.

(** A field of a struct that is in a variable of its own. *)
Definition fld (f : field) (s : list Z) : Z := le_get (take (f_width f) (drop (Z.to_nat (f_off f)) s)).
Definition upd (f : field) (v : Z) (s : list Z) : list Z := list_inserts (Z.to_nat (f_off f)) (le_put (f_width f) v) s.

(** struct ext4_superblock *)
Definition s_blocks_count_lo := F 4 4.
Definition s_free_blocks_count_lo := F 12 4.
Definition s_free_inodes_count := F 16 4.
Definition s_first_data_block := F 20 4.
Definition s_log_block_size := F 24 4.
Definition s_blocks_per_group := F 32 4.
Definition s_inodes_per_group := F 40 4.
Definition s_magic := F 56 2.
Definition s_rev_level := F 76 4.
Definition s_inode_size := F 88 2.
Definition s_feature_incompat := F 96 4.
Definition s_desc_size := F 254 2.
Definition s_blocks_count_hi := F 336 4.
Definition sizeof_superblock : nat := 384.

(** struct ext4_group_desc *)
Definition bg_block_bitmap_lo := F 0 4.
Definition bg_inode_bitmap_lo := F 4 4.
Definition bg_inode_table_lo := F 8 4.
Definition bg_free_blocks_count_lo := F 12 2.
Definition bg_free_inodes_count_lo := F 14 2.
Definition bg_block_bitmap_hi := F 32 4.
Definition bg_inode_bitmap_hi := F 36 4.
Definition bg_inode_table_hi := F 40 4.
Definition bg_free_blocks_count_hi := F 44 2.
Definition bg_free_inodes_count_hi := F 46 2.
Definition sizeof_group_desc : Z := 64.

(** struct ext4_inode *)
Definition i_mode := F 0 2.
Definition i_uid := F 2 2.
Definition i_size_lo := F 4 4.
Definition i_mtime := F 16 4.
Definition i_gid := F 24 2.
Definition i_links_count := F 26 2.
Definition i_blocks_lo := F 28 4.
Definition i_block (k : Z) := F (40 + 4 * k) 4.
Definition i_size_hi := F 108 4.
Definition sizeof_inode : nat := 116.

(** struct ext4_dir_entry *)
Definition de_inode := F 0 4.
Definition de_rec_len := F 4 2.
Definition de_name_len := F 6 1.
Definition de_file_type := F 7 1.

Definition EXT4_SUPER_MAGIC : Z := 0xEF53.
Definition EXT4_DYNAMIC_REV : Z := 1.
Definition EXT4_FEATURE_INCOMPAT_64BIT : Z := 0x80.
Definition EXT4_S_IFDIR : Z := 0x4000.
Definition EXT4_NDIR_BLOCKS : Z := 12.
Definition EXT4_IND_BLOCK : Z := 12.
Definition EXT4_DIND_BLOCK : Z := 13.

(** [group_descs] is the pointer and [gd_mem] the bytes it points at. *)
Record ext4_fs := mk_fs {
  f_addr : Z;
  sb : list Z;
  block_size : Z;
  blocks_per_group : Z;
  inodes_per_group : Z;
  inode_size : Z;
  group_count : Z;
  desc_size : Z;
  group_descs : Z;
  gd_mem : list Z
}.
Definition sizeof_fs : Z := 440.

Definition with_sb (f : ext4_fs) x := mk_fs (f_addr f) x (block_size f) (blocks_per_group f) (inodes_per_group f) (inode_size f) (group_count f)
  (desc_size f) (group_descs f) (gd_mem f).
Definition with_gd (f : ext4_fs) x := mk_fs (f_addr f) (sb f) (block_size f) (blocks_per_group f) (inodes_per_group f) (inode_size f) (group_count f)
  (desc_size f) (group_descs f) x.

Definition with_descs (f : ext4_fs) p x := mk_fs (f_addr f) (sb f) (block_size f) (blocks_per_group f) (inodes_per_group f) (inode_size f) (group_count f)
  (desc_size f) p x.

(** ** Devices

    [dev_read b d] is the buffer after read_block, [None] if it returned a
    negative number; a device without a write function has [dev_write = None]. *)
Class BlockDevice (D : Type) := {
  dev_read : Z → D → D * option (list Z);
  dev_write : option (Z → list Z → D → D * Z)
}.

(** What the driver relies on: a read delivers the last contents of the block
    and changes none, a write changes that block only, and not if it fails. *)
Class BlockLaws (D : Type) `{BlockDevice D} := {
  dev_blocks : D → Z → list Z;
  dev_block_size : Z;
  dev_blocks_length d b : Z.of_nat (length (dev_blocks d b)) = dev_block_size;
  dev_blocks_bytes d b : Forall is_byte (dev_blocks d b);
  dev_read_ok b d d' r : dev_read b d = (d', r) →
    (∀ b', dev_blocks d' b' = dev_blocks d b') ∧ match r with Some l => l = dev_blocks d b | None => True end;
  dev_write_ok w b l d d' ret : dev_write = Some w → w b l d = (d', ret) →
    Z.of_nat (length l) = dev_block_size → Forall is_byte l →
    ∀ b', dev_blocks d' b' = if bool_decide (b' = b ∧ 0 ≤ ret) then l else dev_blocks d b'
}.

(** ** State and monad *)

Record ext4_state (H D : Type) := mk_est { e_heap : H; e_dev : D; e_fs : ext4_fs; e_faults : nat }.
Arguments mk_est {H D}. Arguments e_heap {H D}. Arguments e_dev {H D}. Arguments e_fs {H D}. Arguments e_faults {H D}.

Section Ext4.
Context {H D : Type} `{!KernelHeap H} `{!BlockDevice D}.
#[local] Abbreviation est := (ext4_state H D).
Implicit Types (s : est).

Definition M (A : Type) : Type := est → option (est * A).
Definition ret {A} (x : A) : M A := λ s, Some (s, x).
Definition bind {A B} (m : M A) (k : A → M B) : M B := λ s, '(s', x) ← m s; k x s'.
Definition fail {A} : M A := λ _, None.
Definition lift {A} (o : option A) : M A := λ s, x ← o; Some (s, x).
Definition the_fs : M ext4_fs := λ s, Some (s, e_fs s).
Definition set_fs (f : ext4_fs) : M unit := λ s, Some (mk_est (e_heap s) (e_dev s) f (e_faults s), tt).
Definition fault_if (b : bool) s : est := if b then mk_est (e_heap s) (e_dev s) (e_fs s) (S (e_faults s)) else s.

#[local] Notation "x <- m ;; k" := (bind m (λ x, k)) (at level 100, m at next level, right associativity).
#[local] Notation "m ;; k" := (bind m (λ _, k)) (at level 100, right associativity).

Definition kmalloc (size : Z) : M (option Z) := λ s,
  '(h, r) ← kh_alloc size GFP_KERNEL (e_heap s);
  Some (fault_if (bool_decide (r = None)) (mk_est h (e_dev s) (e_fs s) (e_faults s)), r).
Definition kfree (p : Z) : M unit := λ s,
  h ← kh_free (Some p) (e_heap s); Some (mk_est h (e_dev s) (e_fs s) (e_faults s), tt).

Definition udiv (a b : Z) : M Z := if b =? 0 then fail else ret (a / b).
Definition umod (a b : Z) : M Z := if b =? 0 then fail else ret (a `mod` b).

(** ** Block I/O

    The buffers have [block_size] bytes; a device that delivers more writes
    outside them. *)

Definition ext4_read_block (block : Z) : M (option (list Z)) := λ s,
  let '(d, r) := dev_read block (e_dev s) in
  let s' := fault_if (bool_decide (r = None)) (mk_est (e_heap s) d (e_fs s) (e_faults s)) in
  match r with
  | Some l => if Z.of_nat (length l) =? block_size (e_fs s) then Some (s', r) else None
  | None => Some (s', None)
  end.

Definition ext4_write_block_raw (block : Z) (buf : list Z) : M Z := λ s,
  match dev_write with
  | Some w => let '(d, r) := w block buf (e_dev s) in Some (fault_if (r <? 0) (mk_est (e_heap s) d (e_fs s) (e_faults s)), r)
  | None => Some (fault_if true s, -1)
  end.

(** ** Bitmaps *)

Definition gd_get (g : Z) (f : field) : M Z := fs <- the_fs;; lift (getf (g * sizeof_group_desc) f (gd_mem fs)).
Definition gd_set (g : Z) (f : field) (v : Z) : M unit :=
  fs <- the_fs;; m <- lift (setf (g * sizeof_group_desc) f v (gd_mem fs));; set_fs (with_gd fs m).

(** A 64-bit field in two halves, the second only in large descriptors. *)
Definition gd_wide (g : Z) (lo hi : field) : M Z :=
  fs <- the_fs;; x <- gd_get g lo;;
  if 64 <=? desc_size fs then y <- gd_get g hi;; ret (Z.lor x (Z.shiftl y (8 * Z.of_nat (f_width lo)))) else ret x.

(** The code for blocks and for inodes differs in these. *)
Record pool := mk_pool {
  p_bitmap_lo : field;
  p_bitmap_hi : field;
  p_free_lo : field;
  p_free_hi : field;
  p_count : field;
  p_per_group : ext4_fs → Z;
  p_bytes : ext4_fs → Z;
  p_number : ext4_fs → Z → Z → Z
}.
Definition block_pool : pool := mk_pool bg_block_bitmap_lo bg_block_bitmap_hi bg_free_blocks_count_lo bg_free_blocks_count_hi s_free_blocks_count_lo
  blocks_per_group block_size (λ fs group i, i32 (u32 (fld s_first_data_block (sb fs) + group * blocks_per_group fs + i))).
Definition inode_pool : pool := mk_pool bg_inode_bitmap_lo bg_inode_bitmap_hi bg_free_inodes_count_lo bg_free_inodes_count_hi s_free_inodes_count
  inodes_per_group (λ fs, inodes_per_group fs / 8) (λ fs group i, i32 (u32 (group * inodes_per_group fs + i + 1))).

Definition get_bitmap (P : pool) (group : Z) : M Z :=
  fs <- the_fs;; if group_count fs <=? group then ret 0 else gd_wide group (p_bitmap_lo P) (p_bitmap_hi P).
Definition ext4_get_block_bitmap : Z → M Z := get_bitmap block_pool.
Definition ext4_get_inode_bitmap : Z → M Z := get_bitmap inode_pool.

(** [for (bit = 0; bit < 8; bit++)] from [8 - k]. *)
Fixpoint find_bit (k : nat) (v byte lim : Z) : option Z :=
  match k with
  | O => None
  | S k' =>
      let bit := 8 - Z.of_nat k in
      if Z.land v (Z.shiftl 1 bit) =? 0 then
        let i := byte * 8 + bit in if lim <=? i then None else Some i
      else find_bit k' v byte lim
  end.

(** The loop over the next [k] bytes of the bitmap. *)
Fixpoint find_free (k : nat) (bitmap : list Z) (byte lim : Z) : option (option Z) :=
  match k with
  | O => Some None
  | S k' =>
      v ← getf 0 (F byte 1) bitmap;
      if v =? 0xFF then find_free k' bitmap (byte + 1) lim
      else match find_bit 8 v byte lim with
           | Some i => Some (Some i)
           | None => find_free k' bitmap (byte + 1) lim
           end
  end.

Definition set_bit (i : Z) (bitmap : list Z) : option (list Z) :=
  v ← getf 0 (F (i / 8) 1) bitmap; setf 0 (F (i / 8) 1) (Z.lor v (Z.shiftl 1 (i `mod` 8))) bitmap.
Definition clear_bit (i : Z) (bitmap : list Z) : option (list Z) :=
  v ← getf 0 (F (i / 8) 1) bitmap; setf 0 (F (i / 8) 1) (Z.land v (Z.lnot (Z.shiftl 1 (i `mod` 8)))) bitmap.

Definition count_free (P : pool) (group delta : Z) : M unit :=
  x <- gd_get group (p_free_lo P);; gd_set group (p_free_lo P) (x + delta);;
  fs <- the_fs;; set_fs (with_sb fs (upd (p_count P) (fld (p_count P) (sb fs) + delta) (sb fs))).

(** The loop over the last [k] groups; [bitmap] is the buffer. *)
Fixpoint alloc_groups (P : pool) (bitmap : Z) (k : nat) (preferred : Z) : M Z :=
  match k with
  | O => kfree bitmap;; ret (-1)
  | S k' =>
      fs <- the_fs;;
      let g := group_count fs - Z.of_nat k in
      let group := u32 (preferred + g) `mod` group_count fs in
      n <- gd_wide group (p_free_lo P) (p_free_hi P);;
      if n =? 0 then alloc_groups P bitmap k' preferred
      else
        b <- get_bitmap P group;;
        r <- ext4_read_block b;;
        match r with
        | None => alloc_groups P bitmap k' preferred
        | Some buf =>
            x <- lift (find_free (Z.to_nat (p_bytes P fs)) buf 0 (p_per_group P fs));;
            match x with
            | None => alloc_groups P bitmap k' preferred
            | Some i =>
                buf' <- lift (set_bit i buf);;
                w <- ext4_write_block_raw b buf';;
                if w <? 0 then kfree bitmap;; ret (-1)
                else
                  count_free P group (-1);;
                  kfree bitmap;;
                  ret (p_number P fs group i)
            end
        end
  end.

Definition alloc_bit (P : pool) (preferred : Z) : M Z :=
  fs <- the_fs;; r <- kmalloc (block_size fs);;
  match r with None => ret (-1) | Some bitmap => alloc_groups P bitmap (Z.to_nat (group_count fs)) preferred end.
Definition ext4_alloc_block : Z → M Z := alloc_bit block_pool.
Definition ext4_alloc_inode : Z → M Z := alloc_bit inode_pool.

Definition free_bit (P : pool) (group index : Z) : M Z :=
  fs <- the_fs;;
  if group_count fs <=? group then ret (-1)
  else
    r <- kmalloc (block_size fs);;
    match r with
    | None => ret (-1)
    | Some bitmap =>
        b <- get_bitmap P group;;
        r <- ext4_read_block b;;
        match r with
        | None => kfree bitmap;; ret (-1)
        | Some buf =>
            buf' <- lift (clear_bit index buf);;
            w <- ext4_write_block_raw b buf';;
            if w <? 0 then kfree bitmap;; ret (-1)
            else count_free P group 1;; kfree bitmap;; ret 0
        end
    end.

Definition ext4_free_block (block : Z) : M Z :=
  fs <- the_fs;;
  let first := fld s_first_data_block (sb fs) in
  if block <? first then ret (-1)
  else
    q <- udiv (block - first) (blocks_per_group fs);;
    i <- umod (block - first) (blocks_per_group fs);;
    free_bit block_pool (u32 q) i.

Definition ext4_free_inode (ino : Z) : M Z :=
  fs <- the_fs;;
  if ino =? 0 then ret (-1)
  else
    group <- udiv (ino - 1) (inodes_per_group fs);;
    index <- umod (ino - 1) (inodes_per_group fs);;
    free_bit inode_pool group index.

(** ** Inodes *)

(** The block of the inode table and the offset in it. *)
Definition inode_place (ino : Z) : M (option (Z * Z)) :=
  fs <- the_fs;;
  if ino =? 0 then ret None
  else
    group <- udiv (ino - 1) (inodes_per_group fs);;
    index <- umod (ino - 1) (inodes_per_group fs);;
    if group_count fs <=? group then ret None
    else
      table <- gd_wide group bg_inode_table_lo bg_inode_table_hi;;
      block_offset <- udiv (u32 (index * inode_size fs)) (block_size fs);;
      offset_in_block <- umod (u32 (index * inode_size fs)) (block_size fs);;
      ret (Some (u64 (table + block_offset), offset_in_block)).

Definition ext4_read_inode (ino : Z) : M (option (list Z)) :=
  fs <- the_fs;; p <- inode_place ino;;
  match p with
  | None => ret None
  | Some (block, off) =>
      r <- kmalloc (block_size fs);;
      match r with
      | None => ret None
      | Some buf =>
          r <- ext4_read_block block;;
          match r with
          | None => kfree buf;; ret None
          | Some data => inode <- lift (get_bytes off sizeof_inode data);; kfree buf;; ret (Some inode)
          end
      end
  end.

Definition ext4_write_inode (ino : Z) (inode : list Z) : M Z :=
  fs <- the_fs;; p <- inode_place ino;;
  match p with
  | None => ret (-1)
  | Some (block, off) =>
      r <- kmalloc (block_size fs);;
      match r with
      | None => ret (-1)
      | Some buf =>
          r <- ext4_read_block block;;
          match r with
          | None => kfree buf;; ret (-1)
          | Some data =>
              data' <- lift (set_bytes off inode data);;
              w <- ext4_write_block_raw block data';;
              kfree buf;; ret w
          end
      end
  end.

(** ** Block map *)

Definition word_at (i : Z) : field := F (4 * i) 4.

(** [uint32_t *t = kmalloc(...)], read the block into it and take [t[i]];
    [None] if there is no memory or the read fails. *)
Definition read_pointer (block i : Z) : M (option Z) :=
  fs <- the_fs;; r <- kmalloc (block_size fs);;
  match r with
  | None => ret None
  | Some t =>
      r <- ext4_read_block block;;
      match r with
      | None => kfree t;; ret None
      | Some data => x <- lift (getf 0 (word_at i) data);; kfree t;; ret (Some x)
      end
  end.

Definition ext4_get_file_block (inode : list Z) (file_block : Z) : M Z :=
  fs <- the_fs;;
  if file_block <? EXT4_NDIR_BLOCKS then ret (fld (i_block file_block) inode)
  else
    let fb := file_block - EXT4_NDIR_BLOCKS in
    let ptrs := block_size fs / 4 in
    if fb <? ptrs then
      if fld (i_block EXT4_IND_BLOCK) inode =? 0 then ret 0
      else r <- read_pointer (fld (i_block EXT4_IND_BLOCK) inode) fb;; ret (default 0 r)
    else
      let fb := fb - ptrs in
      if fb <? u32 (ptrs * ptrs) then
        if fld (i_block EXT4_DIND_BLOCK) inode =? 0 then ret 0
        else
          r <- kmalloc (block_size fs);;
          match r with
          | None => ret 0
          | Some dind =>
              r <- ext4_read_block (fld (i_block EXT4_DIND_BLOCK) inode);;
              match r with
              | None => kfree dind;; ret 0
              | Some data =>
                  x <- lift (getf 0 (word_at (fb / ptrs)) data);;
                  if x =? 0 then kfree dind;; ret 0
                  else
                    r <- kmalloc (block_size fs);;
                    match r with
                    | None => kfree dind;; ret 0
                    | Some ind =>
                        r <- ext4_read_block x;;
                        match r with
                        | None => kfree dind;; kfree ind;; ret 0
                        | Some data2 => y <- lift (getf 0 (word_at (fb `mod` ptrs)) data2);; kfree dind;; kfree ind;; ret y
                        end
                    end
              end
          end
      else ret 0.

(** Clearing a new block on the disk, if there is memory for the zeros. *)
Definition zero_block (block : Z) : M unit :=
  fs <- the_fs;; r <- kmalloc (block_size fs);;
  match r with
  | None => ret tt
  | Some zero => ext4_write_block_raw block (replicate (Z.to_nat (block_size fs)) 0);; kfree zero
  end.

(** The write of [disk_block] into word [fb] of the indirect block. *)
Definition write_pointer (inode : list Z) (fb disk_block : Z) : M (Z * list Z) :=
  fs <- the_fs;; r <- kmalloc (block_size fs);;
  match r with
  | None => ret (-1, inode)
  | Some indirect =>
      let b := fld (i_block EXT4_IND_BLOCK) inode in
      r <- ext4_read_block b;;
      match r with
      | None => kfree indirect;; ret (-1, inode)
      | Some data =>
          data' <- lift (setf 0 (word_at fb) disk_block data);;
          w <- ext4_write_block_raw b data';;
          kfree indirect;; ret (w, inode)
      end
  end.

(** The indirect block, which is allocated and cleared if there is none yet. *)
Definition indirect_block (inode : list Z) (group : Z) : M (option (list Z)) :=
  if fld (i_block EXT4_IND_BLOCK) inode =? 0 then
    new_block <- ext4_alloc_block group;;
    if new_block <? 0 then ret None
    else zero_block new_block;; ret (Some (upd (i_block EXT4_IND_BLOCK) new_block inode))
  else ret (Some inode).

(** The result and the inode, which the function changes through its pointer. *)
Definition ext4_set_file_block (inode : list Z) (file_block disk_block ino : Z) : M (Z * list Z) :=
  fs <- the_fs;; group <- udiv (u32 (ino - 1)) (inodes_per_group fs);;
  if file_block <? EXT4_NDIR_BLOCKS then ret (0, upd (i_block file_block) disk_block inode)
  else
    let fb := file_block - EXT4_NDIR_BLOCKS in
    let ptrs := block_size fs / 4 in
    if fb <? ptrs then
      p <- indirect_block inode group;;
      match p with
      | None => ret (-1, inode)
      | Some inode => write_pointer inode fb disk_block
      end
    else ret (-1, inode).

(** ** Directories *)

Definition entry_size (name_len : Z) : Z := Z.land (u16 (8 + name_len) + 3) (Z.lnot 3).

Definition put_entry (off ino rec_len : Z) (name : list Z) (file_type : Z) (buf : list Z) : option (list Z) :=
  b ← setf off de_inode ino buf; b ← setf off de_rec_len rec_len b; b ← setf off de_name_len (Z.of_nat (length name)) b;
  b ← setf off de_file_type file_type b; set_bytes (off + 8) name b.

(** [while (offset < block_size)]: the buffer with the new entry, if there is
    room after one of the entries. *)
Fixpoint scan_entries (k : nat) (bs : Z) (buf : list Z) (offset : Z) (name : list Z) (ino file_type : Z) : option (option (list Z)) :=
  match k with
  | O => None
  | S k' =>
      if offset <? bs then
        rec_len ← getf offset de_rec_len buf;
        if rec_len =? 0 then Some None
        else
          name_len ← getf offset de_name_len buf;
          let actual := entry_size name_len in
          if (actual <? rec_len) && (entry_size (Z.of_nat (length name)) <=? rec_len - actual) then
            b ← setf offset de_rec_len actual buf;
            b ← put_entry (offset + actual) ino (rec_len - actual) name file_type b;
            Some (Some b)
          else scan_entries k' bs buf (u32 (offset + rec_len)) name ino file_type
      else Some None
  end.

(** The loop over the last [k] of [num_blocks] blocks: the result of the write
    if an entry was placed. *)
Fixpoint scan_blocks (k : nat) (num_blocks : Z) (inode name : list Z) (ino file_type : Z) : M (option Z) :=
  match k with
  | O => ret None
  | S k' =>
      fs <- the_fs;;
      disk_block <- ext4_get_file_block inode (num_blocks - Z.of_nat k);;
      if disk_block =? 0 then scan_blocks k' num_blocks inode name ino file_type
      else
        r <- ext4_read_block disk_block;;
        match r with
        | None => scan_blocks k' num_blocks inode name ino file_type
        | Some buf =>
            r <- lift (scan_entries (S (Z.to_nat (block_size fs))) (block_size fs) buf 0 name ino file_type);;
            match r with
            | None => scan_blocks k' num_blocks inode name ino file_type
            | Some buf' => w <- ext4_write_block_raw disk_block buf';; ret (Some w)
            end
        end
  end.

(** The entry in a new block at the end of the directory; frees [block_buf]. *)
Definition append_block (dir_ino : Z) (dir_inode : list Z) (num_blocks block_buf : Z) (name : list Z) (ino file_type : Z) : M Z :=
  fs <- the_fs;;
  group <- udiv (u32 (dir_ino - 1)) (inodes_per_group fs);;
  new_block <- ext4_alloc_block group;;
  if new_block <? 0 then kfree block_buf;; ret (-1)
  else
    buf <- lift (put_entry 0 ino (block_size fs) name file_type (replicate (Z.to_nat (block_size fs)) 0));;
    w <- ext4_write_block_raw new_block buf;;
    if w <? 0 then ext4_free_block new_block;; kfree block_buf;; ret (-1)
    else
      r <- ext4_set_file_block dir_inode num_blocks new_block dir_ino;;
      let '(w, dir_inode) := r in
      if w <? 0 then ext4_free_block new_block;; kfree block_buf;; ret (-1)
      else
        let dir_inode := upd i_size_lo (fld i_size_lo dir_inode + block_size fs) dir_inode in
        let dir_inode := upd i_blocks_lo (fld i_blocks_lo dir_inode + block_size fs / 512) dir_inode in
        w <- ext4_write_inode dir_ino dir_inode;;
        kfree block_buf;; ret w.

(** [name] is the string without its NUL; at most 255 characters count. *)
Definition ext4_add_dir_entry (dir_ino : Z) (name : list Z) (ino file_type : Z) : M Z :=
  fs <- the_fs;; r <- ext4_read_inode dir_ino;;
  match r with
  | None => ret (-1)
  | Some dir_inode =>
      let name := take 255 name in
      r <- kmalloc (block_size fs);;
      match r with
      | None => ret (-1)
      | Some block_buf =>
          num_blocks <- udiv (fld i_size_lo dir_inode + block_size fs - 1) (block_size fs);;
          r <- scan_blocks (Z.to_nat num_blocks) num_blocks dir_inode name ino file_type;;
          match r with
          | Some w => kfree block_buf;; ret w
          | None => append_block dir_ino dir_inode num_blocks block_buf name ino file_type
          end
      end
  end.

(** ** Files *)

(** One block of a write: the buffer the block is written from, the disk block
    and the inode, or [None] where the loop is left. *)
Definition block_for_write (inode : list Z) (file_block group ino : Z) : M (list Z * option (Z * list Z)) :=
  fs <- the_fs;;
  disk_block <- ext4_get_file_block inode file_block;;
  if disk_block =? 0 then
    new_block <- ext4_alloc_block group;;
    if new_block <? 0 then ret (inode, None)
    else
      r <- ext4_set_file_block inode file_block new_block ino;;
      let '(w, inode) := r in
      if w <? 0 then ext4_free_block new_block;; ret (inode, None)
      else
        ret (upd i_blocks_lo (fld i_blocks_lo inode + block_size fs / 512) inode, Some (new_block, replicate (Z.to_nat (block_size fs)) 0))
  else
    r <- ext4_read_block disk_block;;
    match r with None => ret (inode, None) | Some data => ret (inode, Some (disk_block, data)) end.

(** [while (bytes_written < len)]: the inode and the number of bytes. *)
Fixpoint write_loop (k : nat) (inode : list Z) (group ino : Z) (src : list Z) (offset done : Z) : M (list Z * Z) :=
  match k with
  | O => fail
  | S k' =>
      if done <? Z.of_nat (length src) then
        fs <- the_fs;;
        file_block <- udiv (u64 (offset + done)) (block_size fs);;
        block_offset <- umod (u64 (offset + done)) (block_size fs);;
        r <- block_for_write inode file_block group ino;;
        match r with
        | (inode, None) => ret (inode, done)
        | (inode, Some (disk_block, data)) =>
            let to_write := Z.min (block_size fs - block_offset) (Z.of_nat (length src) - done) in
            data' <- lift (set_bytes block_offset (take (Z.to_nat to_write) (drop (Z.to_nat done) src)) data);;
            w <- ext4_write_block_raw disk_block data';;
            if w <? 0 then ret (inode, done)
            else write_loop k' inode group ino src offset (done + to_write)
        end
      else ret (inode, done)
  end.

Definition ext4_write_file (ino : Z) (src : list Z) (offset : Z) : M Z :=
  fs <- the_fs;; r <- ext4_read_inode ino;;
  match r with
  | None => ret (-1)
  | Some inode =>
      r <- kmalloc (block_size fs);;
      match r with
      | None => ret (-1)
      | Some block_buf =>
          group <- udiv (u32 (ino - 1)) (inodes_per_group fs);;
          r <- write_loop (S (length src)) inode group ino src offset 0;;
          let '(inode, done) := r in
          let inode := if fld i_size_lo inode <? u64 (offset + done) then upd i_size_lo (u64 (offset + done)) inode else inode in
          ext4_write_inode ino (upd i_mtime 0 inode);;
          kfree block_buf;; ret (i32 done)
      end
  end.

(** [while (bytes_read < len)]: the bytes that were copied. *)
Fixpoint read_loop (k : nat) (inode : list Z) (offset len done : Z) : M (list Z) :=
  match k with
  | O => fail
  | S k' =>
      if done <? len then
        fs <- the_fs;;
        file_block <- udiv (u64 (offset + done)) (block_size fs);;
        block_offset <- umod (u64 (offset + done)) (block_size fs);;
        disk_block <- ext4_get_file_block inode file_block;;
        if disk_block =? 0 then ret []
        else
          r <- ext4_read_block disk_block;;
          match r with
          | None => ret []
          | Some data =>
              let to_copy := Z.min (block_size fs - block_offset) (len - done) in
              part <- lift (get_bytes block_offset (Z.to_nat to_copy) data);;
              rest <- read_loop k' inode offset len (done + to_copy);;
              ret (part ++ rest)
          end
      else ret []
  end.

(** The result and the bytes put into the buffer. *)
Definition ext4_read_file (ino offset len : Z) : M (Z * list Z) :=
  fs <- the_fs;; r <- ext4_read_inode ino;;
  match r with
  | None => ret (-1, [])
  | Some inode =>
      let file_size := fld i_size_lo inode in
      if file_size <=? offset then ret (0, [])
      else
        let len := if file_size <? u64 (offset + len) then file_size - offset else len in
        r <- kmalloc (block_size fs);;
        match r with
        | None => ret (-1, [])
        | Some block_buf =>
            out <- read_loop (S (Z.to_nat len)) inode offset len 0;;
            kfree block_buf;; ret (i32 (Z.of_nat (length out)), out)
        end
  end.

(** ** Creation *)

Definition dot : list Z := [46].
Definition dotdot : list Z := [46; 46].
Definition is_dir_mode (mode : Z) : bool := negb (Z.land mode EXT4_S_IFDIR =? 0).

Definition ext4_create_file (parent_ino : Z) (name : list Z) (mode : Z) : M Z :=
  fs <- the_fs;; parent_group <- udiv (u32 (parent_ino - 1)) (inodes_per_group fs);;
  new_ino <- ext4_alloc_inode parent_group;;
  if new_ino <? 0 then ret (-1)
  else
    let inode := upd i_gid 0 (upd i_uid 0 (upd i_links_count 1 (upd i_mode mode (replicate sizeof_inode 0)))) in
    w <- ext4_write_inode new_ino inode;;
    if w <? 0 then ext4_free_inode new_ino;; ret (-1)
    else
      w <- ext4_add_dir_entry parent_ino name new_ino (if is_dir_mode mode then 2 else 1);;
      if w <? 0 then ext4_free_inode new_ino;; ret (-1)
      else if is_dir_mode mode then
        ext4_add_dir_entry new_ino dot new_ino 2;;
        ext4_add_dir_entry new_ino dotdot parent_ino 2;;
        r <- ext4_read_inode parent_ino;;
        match r with
        | None => ret new_ino
        | Some parent =>
            ext4_write_inode parent_ino (upd i_links_count (fld i_links_count parent + 1) parent);;
            ret new_ino
        end
      else ret new_ino.

(** ** Superblock *)

Definition ext4_sync_superblock : M Z :=
  fs <- the_fs;; r <- kmalloc (block_size fs);;
  match r with
  | None => ret (-1)
  | Some buf =>
      let sb_block := if block_size fs =? 1024 then 1 else 0 in
      r <- ext4_read_block sb_block;;
      match r with
      | None => kfree buf;; ret (-1)
      | Some data =>
          data' <- lift (set_bytes (if block_size fs =? 1024 then 0 else 1024) (sb fs) data);;
          w <- ext4_write_block_raw sb_block data';;
          kfree buf;; ret w
      end
  end.

(** ** Mounting

    [stale a] is the byte that the memory at [a] held before kmalloc gave it
    out. *)

Definition copy_desc (desc_size g abs_g : Z) (buf mem : list Z) : option (list Z) :=
  l ← get_bytes (g * desc_size) (Z.to_nat (Z.min desc_size sizeof_group_desc)) buf; set_bytes (abs_g * sizeof_group_desc) l mem.
Fixpoint copy_descs (k : nat) (desc_size g abs_g : Z) (buf mem : list Z) : option (list Z) :=
  match k with
  | O => Some mem
  | S k' => mem' ← copy_desc desc_size g abs_g buf mem; copy_descs k' desc_size (g + 1) (abs_g + 1) buf mem'
  end.

(** The loop over the last [k] of [n] blocks of descriptors; false if a block
    cannot be read. *)
Fixpoint read_descs (k : nat) (n gd_block per_block : Z) : M bool :=
  match k with
  | O => ret true
  | S k' =>
      fs <- the_fs;;
      let b := n - Z.of_nat k in
      r <- ext4_read_block (gd_block + b);;
      match r with
      | None => ret false
      | Some buf =>
          let count := if b =? n - 1 then u32 (group_count fs - b * per_block) else per_block in
          mem <- lift (copy_descs (Z.to_nat count) (desc_size fs) 0 (b * per_block) buf (gd_mem fs));;
          set_fs (with_gd fs mem);;
          read_descs k' n gd_block per_block
      end
  end.

Definition wide_groups (sb : list Z) : bool := negb (Z.land (fld s_feature_incompat sb) EXT4_FEATURE_INCOMPAT_64BIT =? 0).

(** The part of ext4_mount that reads the group descriptors; [fs] has every
    other field. *)
Definition load_descs (stale : Z → Z) (fs : ext4_fs) : M Z :=
  let gd_size := u32 (group_count fs * desc_size fs) in
  r <- kmalloc gd_size;;
  match r with
  | None => kfree (f_addr fs);; ret (-1)
  | Some g =>
      let fs := with_descs fs g ((λ i, stale (g + i)) <$> seqZ 0 gd_size) in
      set_fs fs;;
      r <- kmalloc (block_size fs);;
      match r with
      | None => kfree g;; kfree (f_addr fs);; ret (-1)
      | Some gd_buf =>
          per_block <- udiv (block_size fs) (desc_size fs);;
          n <- udiv (u32 (group_count fs + per_block - 1)) per_block;;
          ok <- read_descs (Z.to_nat n) n (if block_size fs =? 1024 then 2 else 1) per_block;;
          if ok : bool then kfree gd_buf;; ret 0
          else kfree gd_buf;; kfree g;; kfree (f_addr fs);; ret (-1)
      end
  end.

(** What ext4_mount does after it has allocated the struct at [p]; 1024 bytes
    of the first block read go to the stack.  A shift of an [int] out of its
    range is not defined. *)
Definition mount_body (stale : Z → Z) (p : Z) : M Z :=
  s0 <- (λ s, Some (s, s));;
  let '(d, r) := dev_read 1 (e_dev s0) in
  (λ s, Some (fault_if (bool_decide (r = None)) (mk_est (e_heap s) d (e_fs s) (e_faults s)), tt));;
  match r with
  | None => kfree p;; ret (-1)
  | Some sb_buf =>
      if 1024 <? Z.of_nat (length sb_buf) then fail
      else
        sb <- lift (get_bytes 0 sizeof_superblock sb_buf);;
        if negb (fld s_magic sb =? EXT4_SUPER_MAGIC) then kfree p;; ret (-1)
        else if 20 <? fld s_log_block_size sb then fail
        else
          let bpg := fld s_blocks_per_group sb in
          let isize := if EXT4_DYNAMIC_REV <=? fld s_rev_level sb then fld s_inode_size sb else 128 in
          let total := if wide_groups sb then Z.lor (fld s_blocks_count_lo sb) (Z.shiftl (fld s_blocks_count_hi sb) 32) else fld s_blocks_count_lo sb in
          gc <- udiv (u64 (total + bpg - 1)) bpg;;
          let dsize := if wide_groups sb then fld s_desc_size sb else 32 in
          load_descs stale (mk_fs p sb (Z.shiftl 1024 (fld s_log_block_size sb)) bpg (fld s_inodes_per_group sb) isize (u32 gc) dsize 0 [])
  end.

(** The state of the driver: [p_root] is what root_ext4 points at. *)
Record ext4_driver := mk_driver { p_heap : H; p_dev : D; p_root : option ext4_fs; p_faults : nat }.

Definition no_fs : ext4_fs := mk_fs 0 [] 0 0 0 0 0 0 0 [].

Definition ext4_mount (stale : Z → Z) (t : ext4_driver) : option (ext4_driver * Z) :=
  '(s, r) ← kmalloc sizeof_fs (mk_est (p_heap t) (p_dev t) no_fs (p_faults t));
  '(s', x) ← (match r with None => ret (-1) | Some p => mount_body stale p end) s;
  Some (mk_driver (e_heap s') (e_dev s') (if x =? 0 then Some (e_fs s') else p_root t) (e_faults s'), x).

(** [group_descs] is not NULL in a mounted struct. *)
Definition ext4_unmount (t : ext4_driver) : option (ext4_driver * Z) :=
  match p_root t with
  | None => Some (t, 0)
  | Some fs =>
      '(s', _) ← (ext4_sync_superblock;; kfree (group_descs fs);; kfree (f_addr fs)) (mk_est (p_heap t) (p_dev t) fs (p_faults t));
      Some (mk_driver (e_heap s') (e_dev s') None (e_faults s'), 0)
  end.

(** ** The calls *)

Definition on_root {A} (e : A) (m : M A) (t : ext4_driver) : option (ext4_driver * A) :=
  match p_root t with
  | None => Some (t, e)
  | Some fs =>
      '(s', x) ← m (mk_est (p_heap t) (p_dev t) fs (p_faults t));
      Some (mk_driver (e_heap s') (e_dev s') (Some (e_fs s')) (e_faults s'), x)
  end.

Definition ext4_vfs_read (ino offset len : Z) := on_root (-1, []) (ext4_read_file ino offset len).
Definition ext4_vfs_write (ino : Z) (src : list Z) (offset : Z) := on_root (-1) (ext4_write_file ino src offset).
Definition ext4_vfs_create (parent_ino : Z) (name : list Z) (mode : Z) := on_root (-1) (ext4_create_file parent_ino name mode).
Definition ext4_vfs_mkdir (parent_ino : Z) (name : list Z) (mode : Z) := on_root (-1) (ext4_create_file parent_ino name (Z.lor mode EXT4_S_IFDIR)).
Definition ext4_vfs_unlink (parent_ino : Z) (name : list Z) := on_root (-1) (ret (-1)).
Definition ext4_vfs_sync := on_root (-1) ext4_sync_superblock.

(** The loop over the last [k] blocks before [old_blocks]. *)
Fixpoint free_blocks (k : nat) (old_blocks : Z) (inode : list Z) : M unit :=
  match k with
  | O => ret tt
  | S k' =>
      b <- ext4_get_file_block inode (old_blocks - Z.of_nat k);;
      if b =? 0 then free_blocks k' old_blocks inode else ext4_free_block b;; free_blocks k' old_blocks inode
  end.

Definition truncate_body (ino size : Z) : M Z :=
  fs <- the_fs;; r <- ext4_read_inode ino;;
  match r with
  | None => ret (-1)
  | Some inode =>
      let old_size := fld i_size_lo inode in
      (if size <? old_size then
         new_blocks <- udiv (u64 (size + block_size fs - 1)) (block_size fs);;
         old_blocks <- udiv (u64 (old_size + block_size fs - 1)) (block_size fs);;
         free_blocks (Z.to_nat (old_blocks - new_blocks)) old_blocks inode
       else ret tt);;
      ext4_write_inode ino (upd i_size_hi (Z.shiftr size 32) (upd i_size_lo size inode))
  end.
Definition ext4_vfs_truncate (ino size : Z) := on_root (-1) (truncate_body ino size).

(** The result and, if it is 0, size, mode and links. *)
Definition stat_body (ino : Z) : M (Z * (Z * Z * Z)) :=
  r <- ext4_read_inode ino;;
  match r with
  | None => ret (-1, (0, 0, 0))
  | Some inode =>
      ret (0, (Z.lor (fld i_size_lo inode) (Z.shiftl (fld i_size_hi inode) 32), fld i_mode inode, fld i_links_count inode))
  end.
Definition ext4_vfs_stat (ino : Z) := on_root (-1, (0, 0, 0)) (stat_body ino).
End Ext4.
