(* ===== verification/Ext4Alloc.v ===== *)
(** * ext4: packed structs, blocks and bitmaps

    The lemmas on packed fields and on the monad of [Ext4], the geometry that
    the driver relies on ([geo]), and the correctness of the allocation and the
    release of blocks and inodes in the bitmaps. *)

From S2P Require Import Prelude KHeap Kmalloc Ext4.

(** ** Bytes and fields *)

Lemma length_le_put n v : length (le_put n v) = n.
Proof. revert v. induction n as [|n IH]; intros v; [done|]. cbn. by rewrite IH. Qed.

Lemma le_put_bytes n v : Forall is_byte (le_put n v).
Proof. revert v. induction n as [|n IH]; intros v; constructor; [unfold is_byte; lia_mod|apply IH]. Qed.

Lemma le_get_bound l : Forall is_byte l → 0 ≤ le_get l < 256 ^ Z.of_nat (length l).
Proof.
  induction 1 as [|b l Hb _ IH]; [done|]. cbn [le_get length]. rewrite Nat2Z.inj_succ, Z.pow_succ_r by lia. unfold is_byte in Hb. lia.
Qed.

Lemma le_get_put n v : le_get (le_put n v) = v `mod` 256 ^ Z.of_nat n.
Proof.
  revert v. induction n as [|n IH]; intros v; [by rewrite Z.mod_1_r|]. cbn [le_get le_put]. rewrite IH, Nat2Z.inj_succ, Z.pow_succ_r by lia.
  by rewrite Z.rem_mul_r by lia.
Qed.

Lemma slice_inserts_same (o : nat) (k l : list Z) : (o + length k ≤ length l)%nat → take (length k) (drop o (list_inserts o k l)) = k.
Proof.
  intros Hl. apply list_eq. intros i. destruct (decide (i < length k)%nat) as [Hi|Hi].
  - rewrite lookup_take_lt, lookup_drop, list_lookup_inserts by lia. f_equal. lia.
  - rewrite lookup_take_ge by lia. symmetry. apply lookup_ge_None. lia.
Qed.

Lemma slice_inserts_other (o n p : nat) (k l : list Z) : (o + n ≤ p)%nat ∨ (p + length k ≤ o)%nat →
  take n (drop o (list_inserts p k l)) = take n (drop o l).
Proof.
  intros Hd. apply list_eq. intros i. destruct (decide (i < n)%nat) as [Hi|Hi]; [|by rewrite !lookup_take_ge by lia].
  rewrite !lookup_take_lt, !lookup_drop by lia. destruct Hd; [apply list_lookup_inserts_lt|apply list_lookup_inserts_ge]; lia.
Qed.

Lemma inserts_bytes o k l : Forall is_byte k → Forall is_byte l → Forall is_byte (list_inserts o k l).
Proof.
  intros Hk Hl. revert o. induction Hk as [|x k Hx Hk IH]; intros o; [done|]. cbn. by apply Forall_insert.
Qed.

Lemma fld_bound f l : Forall is_byte l → 0 ≤ fld f l < 256 ^ Z.of_nat (f_width f).
Proof.
  intros Hl. unfold fld. set (t := take _ _). assert (Forall is_byte t) as Ht by (by apply Forall_take, Forall_drop).
  pose proof (le_get_bound t Ht). assert (length t ≤ f_width f)%nat by (subst t; rewrite length_take; lia).
  assert (256 ^ Z.of_nat (length t) ≤ 256 ^ Z.of_nat (f_width f)) by (apply Z.pow_le_mono_r; lia). lia.
Qed.

Definition within (f : field) (l : list Z) : Prop := 0 ≤ f_off f ∧ f_off f + Z.of_nat (f_width f) ≤ Z.of_nat (length l).
Definition apart (f g : field) : Prop := f_off f + Z.of_nat (f_width f) ≤ f_off g ∨ f_off g + Z.of_nat (f_width g) ≤ f_off f.

Lemma length_upd f v l : length (upd f v l) = length l.
Proof. apply length_inserts. Qed.

Lemma upd_bytes f v l : Forall is_byte l → Forall is_byte (upd f v l).
Proof. apply inserts_bytes, le_put_bytes. Qed.

Lemma fld_upd_same f v l : within f l → fld f (upd f v l) = v `mod` 256 ^ Z.of_nat (f_width f).
Proof.
  intros [Ho Hl]. unfold fld, upd. rewrite <- (length_le_put (f_width f) v) at 1. rewrite slice_inserts_same; [apply le_get_put|].
  rewrite length_le_put. lia.
Qed.

Lemma fld_upd_other f g v l : 0 ≤ f_off f → 0 ≤ f_off g → apart f g → fld f (upd g v l) = fld f l.
Proof. intros Hf Hg Ha. unfold fld, upd. rewrite slice_inserts_other; [done|]. rewrite length_le_put. unfold apart in Ha. lia. Qed.

(** A field at a base address is a field at its absolute offset. *)
Definition at_base (base : Z) (f : field) : field := F (base + f_off f) (f_width f).

Lemma getf_fld base f l : within (at_base base f) l → getf base f l = Some (fld (at_base base f) l).
Proof.
  intros [Ho Hl]. cbn in *. unfold getf, get_bytes, fld. cbn [f_off f_width at_base].
  by rewrite (proj2 (Z.leb_le _ _)), (proj2 (Z.leb_le _ _)) by lia.
Qed.

Lemma setf_upd base f v l : within (at_base base f) l → setf base f v l = Some (upd (at_base base f) v l).
Proof.
  intros [Ho Hl]. cbn in *. unfold setf, set_bytes, upd. rewrite length_le_put. cbn [f_off f_width at_base].
  by rewrite (proj2 (Z.leb_le _ _)), (proj2 (Z.leb_le _ _)) by lia.
Qed.

Lemma get_bytes_ok off n l : 0 ≤ off → off + Z.of_nat n ≤ Z.of_nat (length l) → get_bytes off n l = Some (take n (drop (Z.to_nat off) l)).
Proof. intros. unfold get_bytes. by rewrite (proj2 (Z.leb_le _ _)), (proj2 (Z.leb_le _ _)) by lia. Qed.

Lemma set_bytes_ok off k l : 0 ≤ off → off + Z.of_nat (length k) ≤ Z.of_nat (length l) → set_bytes off k l = Some (list_inserts (Z.to_nat off) k l).
Proof. intros. unfold set_bytes. by rewrite (proj2 (Z.leb_le _ _)), (proj2 (Z.leb_le _ _)) by lia. Qed.

(** ** Bits *)

Definition bit (l : list Z) (i : Z) : bool := Z.testbit (fld (F (i / 8) 1) l) (i `mod` 8).

Lemma byte_testbit_high x n : is_byte x → 8 ≤ n → Z.testbit x n = false.
Proof.
  intros Hx Hn. unfold is_byte in Hx. destruct (Z.eq_dec x 0) as [->|]; [apply Z.bits_0|].
  apply Z.bits_above_log2; [lia|]. apply Z.lt_le_trans with 8; [apply Z.log2_lt_pow2; lia|done].
Qed.

Lemma testbit_one_shift b n : 0 ≤ b → Z.testbit (Z.shiftl 1 b) n = (n =? b).
Proof.
  intros Hb. rewrite Z.shiftl_mul_pow2, Z.mul_1_l by lia. destruct (Z.eqb_spec n b) as [->|Hn]; [by apply Z.pow2_bits_true|].
  apply Z.pow2_bits_false. lia.
Qed.

Lemma land_one_bit v b : 0 ≤ b → (Z.land v (Z.shiftl 1 b) =? 0) = negb (Z.testbit v b).
Proof.
  intros Hb. destruct (Z.testbit v b) eqn:E; cbn.
  - apply Z.eqb_neq. intros E0. assert (Z.testbit (Z.land v (Z.shiftl 1 b)) b = false) as Hc by (by rewrite E0, Z.bits_0).
    rewrite Z.land_spec, E, testbit_one_shift, Z.eqb_refl in Hc by lia. done.
  - apply Z.eqb_eq, Z.bits_inj'. intros n Hn. rewrite Z.land_spec, testbit_one_shift, Z.bits_0 by lia.
    destruct (Z.eqb_spec n b) as [->|]; [by rewrite E|by rewrite andb_false_r].
Qed.

Lemma bounded_byte x : 0 ≤ x → (∀ n, 8 ≤ n → Z.testbit x n = false) → is_byte x.
Proof.
  intros Hx Hb. split; [done|]. destruct (Z.ltb_spec x 256); [done|]. exfalso. assert (8 ≤ Z.log2 x) as Hl by (apply (Z.log2_le_mono 256); lia).
  assert (Z.testbit x (Z.log2 x) = true) by (apply Z.bit_log2; lia). rewrite Hb in *; done.
Qed.

Definition change_bit (i : Z) (v : bool) (l : list Z) : option (list Z) := if v then set_bit i l else clear_bit i l.

Lemma new_byte_testbit x b (v : bool) n : 0 ≤ b → 0 ≤ n →
  Z.testbit (if v then Z.lor x (Z.shiftl 1 b) else Z.land x (Z.lnot (Z.shiftl 1 b))) n = if n =? b then v else Z.testbit x n.
Proof.
  intros Hb Hn. destruct v.
  - rewrite Z.lor_spec, testbit_one_shift by lia. destruct (n =? b); [apply orb_true_r|apply orb_false_r].
  - rewrite Z.land_spec, Z.lnot_spec, testbit_one_shift by lia. destruct (n =? b); [apply andb_false_r|apply andb_true_r].
Qed.

Lemma new_byte x b (v : bool) : is_byte x → 0 ≤ b < 8 → is_byte (if v then Z.lor x (Z.shiftl 1 b) else Z.land x (Z.lnot (Z.shiftl 1 b))).
Proof.
  intros Hx Hb. apply bounded_byte.
  - unfold is_byte in Hx. destruct v; [apply Z.lor_nonneg; split; [lia|apply Z.shiftl_nonneg; lia]|apply Z.land_nonneg; lia].
  - intros n Hn. rewrite new_byte_testbit by lia. destruct (Z.eqb_spec n b); [lia|]. by apply byte_testbit_high.
Qed.

(** Setting and clearing change one bit. *)
Lemma change_bit_ok i v l : 0 ≤ i < 8 * Z.of_nat (length l) → Forall is_byte l →
  ∃ l', change_bit i v l = Some l' ∧ length l' = length l ∧ Forall is_byte l' ∧
    ∀ j, 0 ≤ j → bit l' j = if j =? i then v else bit l j.
Proof.
  intros Hi Hl. set (f := F (i / 8) 1). assert (within f l) as Hw by (split; cbn; lia_mod).
  set (x := fld f l). set (b := i `mod` 8). assert (0 ≤ b < 8) as Hb by (subst b; lia_mod).
  set (y := if v then Z.lor x (Z.shiftl 1 b) else Z.land x (Z.lnot (Z.shiftl 1 b))).
  assert (is_byte x) as Hx by (exact (fld_bound f l Hl)).
  assert (is_byte y) as Hy by (by apply new_byte).
  exists (upd f y l). split; [|split; [apply length_upd|split; [by apply upd_bytes|]]].
  - unfold change_bit, set_bit, clear_bit. rewrite (getf_fld 0 (F (i / 8) 1)) by exact Hw. cbn [mbind option_bind].
    destruct v; rewrite setf_upd by exact Hw; reflexivity.
  - intros j Hj. unfold bit. destruct (Z.eqb_spec (j / 8) (i / 8)) as [E|E].
    + rewrite E. change (F (i / 8) 1) with f. rewrite fld_upd_same by done. change (256 ^ Z.of_nat (f_width f)) with 256. rewrite Z.mod_small by exact Hy.
      subst y. rewrite new_byte_testbit by lia_mod. destruct (Z.eqb_spec (j `mod` 8) b) as [E'|E']; destruct (Z.eqb_spec j i) as [E2|E2]; subst b; try done; lia_mod.
    + rewrite fld_upd_other by (cbn; try unfold apart; cbn; lia_mod). destruct (Z.eqb_spec j i); [subst; done|done].
Qed.

(** The search finds the first clear bit below the limit. *)
Lemma find_bit_ok k v byte lim : (k ≤ 8)%nat →
  match find_bit k v byte lim with
  | Some i => 8 - Z.of_nat k ≤ i - byte * 8 < 8 ∧ i < lim ∧ Z.testbit v (i - byte * 8) = false ∧
      ∀ j, byte * 8 + (8 - Z.of_nat k) ≤ j < i → Z.testbit v (j - byte * 8) = true
  | None => ∀ j, byte * 8 + (8 - Z.of_nat k) ≤ j < byte * 8 + 8 → j < lim → Z.testbit v (j - byte * 8) = true
  end.
Proof.
  induction k as [|k IH]; intros Hk; [cbn; intros; lia|]. cbn [find_bit]. set (b := 8 - Z.of_nat (S k)). rewrite land_one_bit by lia.
  specialize (IH ltac:(lia)). destruct (Z.testbit v b) eqn:E; cbn [negb].
  - assert (∀ j, byte * 8 + b ≤ j → j - byte * 8 ≠ b → byte * 8 + (8 - Z.of_nat k) ≤ j) as Hn by (intros; lia).
    destruct (find_bit k v byte lim) as [i|].
    + destruct IH as (H1 & H2 & H3 & H4). split; [lia|]. split; [done|]. split; [done|]. intros j Hj.
      destruct (Z.eq_dec (j - byte * 8) b) as [->|Hne]; [done|]. apply H4. lia.
    + intros j Hj Hlim. destruct (Z.eq_dec (j - byte * 8) b) as [->|Hne]; [done|]. apply IH; lia.
  - destruct (Z.leb_spec lim (byte * 8 + b)); [intros; lia|]. replace (byte * 8 + b - byte * 8) with b by lia.
    split; [lia|]. split; [lia|]. split; [done|]. intros; lia.
Qed.

Lemma bit_of_byte l byte j : 0 ≤ byte → byte * 8 ≤ j < byte * 8 + 8 → bit l j = Z.testbit (fld (F byte 1) l) (j - byte * 8).
Proof. intros Hb Hj. unfold bit. replace (j / 8) with byte by lia_mod. f_equal. lia_mod. Qed.

Lemma find_free_ok k l byte lim : 0 ≤ byte → byte + Z.of_nat k ≤ Z.of_nat (length l) →
  ∃ r, find_free k l byte lim = Some r ∧
    match r with
    | Some i => byte * 8 ≤ i < (byte + Z.of_nat k) * 8 ∧ i < lim ∧ bit l i = false ∧ ∀ j, byte * 8 ≤ j < i → bit l j = true
    | None => ∀ j, byte * 8 ≤ j < (byte + Z.of_nat k) * 8 → j < lim → bit l j = true
    end.
Proof.
  revert byte. induction k as [|k IH]; intros byte Hb Hl; [exists None; split; [done|]; intros; lia|].
  cbn [find_free]. rewrite getf_fld by (split; cbn; lia). cbn [mbind option_bind]. change (at_base 0 (F byte 1)) with (F byte 1).
  set (v := fld (F byte 1) l). destruct (IH (byte + 1)) as (r & E & Hr); [lia..|].
  assert ((∀ j, byte * 8 ≤ j < byte * 8 + 8 → j < lim → bit l j = true) → ∃ r, find_free k l (byte + 1) lim = Some r ∧
    match r with
    | Some i => byte * 8 ≤ i < (byte + Z.of_nat (S k)) * 8 ∧ i < lim ∧ bit l i = false ∧ ∀ j, byte * 8 ≤ j < i → bit l j = true
    | None => ∀ j, byte * 8 ≤ j < (byte + Z.of_nat (S k)) * 8 → j < lim → bit l j = true
    end) as Hskip.
  { intros Hone. exists r. split; [done|]. destruct r as [i|].
    - destruct Hr as (H1 & H2 & H3 & H4). split; [lia|]. split; [done|]. split; [done|]. intros j Hj.
      destruct (Z.ltb_spec j (byte * 8 + 8)); [apply Hone; lia|apply H4; lia].
    - intros j Hj Hlim. destruct (Z.ltb_spec j (byte * 8 + 8)); [apply Hone; lia|apply Hr; lia]. }
  destruct (Z.eqb_spec v 0xFF) as [Ev|_].
  - apply Hskip. intros j Hj _. rewrite (bit_of_byte l byte) by lia. fold v. rewrite Ev. change 0xFF with (Z.ones 8).
    apply Z.ones_spec_low. lia.
  - pose proof (find_bit_ok 8 v byte lim ltac:(done)) as Hf. destruct (find_bit 8 v byte lim) as [i|].
    + destruct Hf as (H1 & H2 & H3 & H4). exists (Some i). split; [done|]. split; [lia|]. split; [done|].
      split; [by rewrite (bit_of_byte l byte) by lia|]. intros j Hj. rewrite (bit_of_byte l byte) by lia. apply H4. lia.
    + apply Hskip. intros j Hj Hlim. rewrite (bit_of_byte l byte) by lia. apply Hf; lia.
Qed.

(** ** The monad *)

Section Wp.
Context {H D : Type} `{!KernelHeap H} `{!BlockDevice D} `{!BlockLaws D}.
#[local] Abbreviation est := (ext4_state H D).
Implicit Types (s : est).

(** [m] returns from [s], and [Q] holds of the result. *)
Definition wp {A} (m : M A) s (Q : est → A → Prop) : Prop := ∃ s' x, m s = Some (s', x) ∧ Q s' x.

Lemma wp_bind {A B} (m : M A) (k : A → M B) s Q : wp m s (λ s' x, wp (k x) s' Q) → wp (bind m k) s Q.
Proof. intros (s' & x & E & s'' & y & E' & HQ). exists s'', y. split; [|done]. unfold bind. by rewrite E. Qed.

Lemma wp_mono {A} (m : M A) s (P Q : est → A → Prop) : wp m s P → (∀ s' x, P s' x → Q s' x) → wp m s Q.
Proof. intros (s' & x & E & HP) HPQ. exists s', x. auto. Qed.

Lemma wp_ret {A} (x : A) s (Q : est → A → Prop) : Q s x → wp (ret x) s Q.
Proof. intros HQ. by exists s, x. Qed.

Lemma wp_lift {A} (o : option A) x s (Q : est → A → Prop) : o = Some x → Q s x → wp (lift o) s Q.
Proof. intros -> HQ. by exists s, x. Qed.

Lemma wp_the_fs s (Q : est → ext4_fs → Prop) : Q s (e_fs s) → wp the_fs s Q.
Proof. intros HQ. by exists s, (e_fs s). Qed.

Lemma wp_udiv a b s (Q : est → Z → Prop) : b ≠ 0 → Q s (a / b) → wp (udiv a b) s Q.
Proof. intros Hb HQ. unfold udiv. rewrite (proj2 (Z.eqb_neq _ _) Hb). by apply wp_ret. Qed.

Lemma wp_umod a b s (Q : est → Z → Prop) : b ≠ 0 → Q s (a `mod` b) → wp (umod a b) s Q.
Proof. intros Hb HQ. unfold umod. rewrite (proj2 (Z.eqb_neq _ _) Hb). by apply wp_ret. Qed.

(** ** What the driver relies on *)

Definition wide fs (g : Z) (lo hi : field) : Z :=
  let x := fld (at_base (g * sizeof_group_desc) lo) (gd_mem fs) in
  if 64 <=? desc_size fs then Z.lor x (Z.shiftl (fld (at_base (g * sizeof_group_desc) hi) (gd_mem fs)) (8 * Z.of_nat (f_width lo))) else x.
Definition bitmap_block (P : pool) fs (g : Z) : Z := wide fs g (p_bitmap_lo P) (p_bitmap_hi P).
Definition table_block fs (g : Z) : Z := wide fs g bg_inode_table_lo bg_inode_table_hi.
Definition first_block fs : Z := fld s_first_data_block (sb fs).

Record geo fs : Prop := {
  geo_bs : block_size fs = dev_block_size;
  geo_bs_range : 1024 ≤ block_size fs ≤ 65536;
  geo_bs4 : block_size fs `mod` 4 = 0;
  geo_bpg : 0 < blocks_per_group fs ≤ 8 * block_size fs;
  geo_ipg : 0 < inodes_per_group fs ≤ 8 * block_size fs;
  geo_isize : Z.of_nat sizeof_inode ≤ inode_size fs;
  geo_isize_div : block_size fs `mod` inode_size fs = 0;
  geo_itable : inodes_per_group fs * inode_size fs < 2 ^ 32;
  geo_gc : 0 < group_count fs;
  geo_desc : 32 ≤ desc_size fs;
  geo_mem g : 0 ≤ g < group_count fs → g * sizeof_group_desc + Z.min (desc_size fs) sizeof_group_desc ≤ Z.of_nat (length (gd_mem fs));
  geo_mem_bytes : Forall is_byte (gd_mem fs);
  geo_sb : length (sb fs) = sizeof_superblock;
  geo_sb_bytes : Forall is_byte (sb fs);
  geo_blocks : first_block fs + group_count fs * blocks_per_group fs < 2 ^ 31;
  geo_inodes : group_count fs * inodes_per_group fs < 2 ^ 31
}.

(** The counters of free blocks and inodes apart, the struct does not change. *)
Record same_geo fs fs' : Prop := {
  sg_addr : f_addr fs' = f_addr fs;
  sg_bs : block_size fs' = block_size fs;
  sg_bpg : blocks_per_group fs' = blocks_per_group fs;
  sg_ipg : inodes_per_group fs' = inodes_per_group fs;
  sg_isize : inode_size fs' = inode_size fs;
  sg_gc : group_count fs' = group_count fs;
  sg_descs : group_descs fs' = group_descs fs;
  sg_first : first_block fs' = first_block fs;
  sg_blocks g : 0 ≤ g < group_count fs → bitmap_block block_pool fs' g = bitmap_block block_pool fs g;
  sg_inodes g : 0 ≤ g < group_count fs → bitmap_block inode_pool fs' g = bitmap_block inode_pool fs g;
  sg_table g : 0 ≤ g < group_count fs → table_block fs' g = table_block fs g
}.

Lemma same_geo_refl fs : same_geo fs fs.
Proof. by constructor. Qed.

Lemma same_geo_trans fs1 fs2 fs3 : same_geo fs1 fs2 → same_geo fs2 fs3 → same_geo fs1 fs3.
Proof.
  intros A B. assert (∀ g, 0 ≤ g < group_count fs1 → 0 ≤ g < group_count fs2) as Hg by (intros g; by rewrite (sg_gc _ _ A)).
  destruct A, B. constructor; try congruence; intros g Hr.
  - etransitivity; [by apply sg_blocks1, Hg|by apply sg_blocks0].
  - etransitivity; [by apply sg_inodes1, Hg|by apply sg_inodes0].
  - etransitivity; [by apply sg_table1, Hg|by apply sg_table0].
Qed.

(** The contents of the disk. *)
Definition blocks s : Z → list Z := dev_blocks (e_dev s).

(** The heap holds the allocations [K] and the geometry is right. *)
Definition ok (K : gmap Z Z) s : Prop := kh_inv (e_heap s) K ∧ geo (e_fs s).

(** Nothing but the heap changed, and [n] calls failed. *)
Record quiet (n : nat) s s' : Prop := {
  q_fs : e_fs s' = e_fs s;
  q_blocks b : blocks s' b = blocks s b;
  q_faults : e_faults s' = (n + e_faults s)%nat
}.

Lemma quiet_same s : quiet 0 s s.
Proof. by constructor. Qed.

Lemma quiet_trans n m s1 s2 s3 : quiet n s1 s2 → quiet m s2 s3 → quiet (m + n) s1 s3.
Proof. intros [A1 A2 A3] [B1 B2 B3]. constructor; [congruence| |lia]. intros b. by rewrite B2. Qed.

Lemma ok_quiet K n s s' : geo (e_fs s) → kh_inv (e_heap s') K → quiet n s s' → ok K s'.
Proof. intros Hg Hh Hq. split; [done|]. by rewrite (q_fs _ _ _ Hq). Qed.

(** The calls when only the heap is known to be right, as it is in ext4_mount. *)
Lemma wp_kmalloc_heap K n s (Q : est → option Z → Prop) : kh_inv (e_heap s) K → 0 ≤ n →
  (∀ s' p, K !! p = None → kh_inv (e_heap s') (<[p := n]> K) → quiet 0 s s' → Q s' (Some p)) → (∀ s', kh_inv (e_heap s') K → quiet 1 s s' → Q s' None) → wp (kmalloc n) s Q.
Proof.
  intros Hh Hn HS HN. destruct (kh_alloc_ok (e_heap s) K n GFP_KERNEL Hh Hn) as (h & r & E & Hr). unfold wp, kmalloc. rewrite E. cbn [mbind option_bind].
  eexists _, _. split; [done|]. destruct r as [p|]; cbn [fault_if bool_decide].
  - destruct Hr as (_ & _ & Hp & Hi). by apply HS.
  - by apply HN.
Qed.

Lemma wp_kfree_heap K p n s (Q : est → unit → Prop) : kh_inv (e_heap s) (<[p := n]> K) → K !! p = None → (∀ s', kh_inv (e_heap s') K → quiet 0 s s' → Q s' tt) → wp (kfree p) s Q.
Proof.
  intros Hh Hp HS. destruct (kh_free_ok (e_heap s) _ p n Hh) as (h & E & Hi); [apply lookup_insert_eq|]. unfold wp, kfree. rewrite E. cbn [mbind option_bind].
  eexists _, _. split; [done|]. apply HS; [|done]. by rewrite delete_insert_id in Hi.
Qed.

Lemma wp_read_heap K b s (Q : est → option (list Z) → Prop) : kh_inv (e_heap s) K → block_size (e_fs s) = dev_block_size →
  (∀ s', kh_inv (e_heap s') K → quiet 0 s s' → Q s' (Some (blocks s b))) → (∀ s', kh_inv (e_heap s') K → quiet 1 s s' → Q s' None) → wp (ext4_read_block b) s Q.
Proof.
  intros Hh Hg HS HN. unfold wp, ext4_read_block. destruct (dev_read b (e_dev s)) as [d r] eqn:E.
  destruct (dev_read_ok _ _ _ _ E) as [Hb Hr]. destruct r as [l|]; cbn.
  - subst l. rewrite (proj2 (Z.eqb_eq _ _)) by (rewrite Hg; apply dev_blocks_length). eexists _, _. split; [done|]. by apply HS.
  - eexists _, _. split; [done|]. by apply HN.
Qed.

Lemma wp_kmalloc K n s (Q : est → option Z → Prop) : ok K s → 0 ≤ n →
  (∀ s' p, K !! p = None → ok (<[p := n]> K) s' → quiet 0 s s' → Q s' (Some p)) → (∀ s', ok K s' → quiet 1 s s' → Q s' None) → wp (kmalloc n) s Q.
Proof. intros [Hh Hg] Hn HS HN. apply (wp_kmalloc_heap K); [done..| |]; intros; [apply HS|apply HN]; try done; by eapply ok_quiet. Qed.

Lemma wp_kfree K p n s (Q : est → unit → Prop) : ok (<[p := n]> K) s → K !! p = None → (∀ s', ok K s' → quiet 0 s s' → Q s' tt) → wp (kfree p) s Q.
Proof. intros [Hh Hg] Hp HS. eapply wp_kfree_heap; [done..|]. intros s' Hk Hq. apply HS; [by eapply ok_quiet|done]. Qed.

Lemma wp_read K b s (Q : est → option (list Z) → Prop) : ok K s →
  (∀ s', ok K s' → quiet 0 s s' → Q s' (Some (blocks s b))) → (∀ s', ok K s' → quiet 1 s s' → Q s' None) → wp (ext4_read_block b) s Q.
Proof. intros [Hh Hg] HS HN. apply (wp_read_heap K); [done|apply Hg| |]; intros; [apply HS|apply HN]; try done; by eapply ok_quiet. Qed.

(** A write that succeeds changes one block. *)
Record wrote (b : Z) (l : list Z) s s' : Prop := {
  w_fs : e_fs s' = e_fs s;
  w_blocks b' : blocks s' b' = if bool_decide (b' = b) then l else blocks s b';
  w_faults : e_faults s' = e_faults s
}.

Lemma wp_write_heap K b l s (Q : est → Z → Prop) : kh_inv (e_heap s) K → Z.of_nat (length l) = dev_block_size → Forall is_byte l →
  (∀ s' w, kh_inv (e_heap s') K → 0 ≤ w → wrote b l s s' → Q s' w) → (∀ s' w, kh_inv (e_heap s') K → w < 0 → quiet 1 s s' → Q s' w) → wp (ext4_write_block_raw b l) s Q.
Proof.
  intros Hh Hl Hbytes HS HN. unfold wp, ext4_write_block_raw. destruct dev_write as [w|] eqn:Ew; [|by eexists _, _; split; [done|]; apply HN].
  destruct (w b l (e_dev s)) as [d r] eqn:E. pose proof (dev_write_ok _ _ _ _ _ _ Ew E Hl Hbytes) as Hb.
  eexists _, _. split; [done|]. destruct (Z.ltb_spec r 0) as [Hr|Hr]; cbn [fault_if].
  - apply HN; [done|lia|]. constructor; [done| |done]. intros b'. unfold blocks. cbn. rewrite Hb, bool_decide_eq_false_2; [done|lia].
  - apply HS; [done|lia|]. constructor; [done| |done]. intros b'. unfold blocks. cbn. rewrite Hb. destruct (decide (b' = b)).
    + by rewrite !bool_decide_eq_true_2.
    + rewrite !bool_decide_eq_false_2; [done..|]. by intros [].
Qed.

Lemma wp_write K b l s (Q : est → Z → Prop) : ok K s → Z.of_nat (length l) = block_size (e_fs s) → Forall is_byte l →
  (∀ s' w, ok K s' → 0 ≤ w → wrote b l s s' → Q s' w) → (∀ s' w, ok K s' → w < 0 → quiet 1 s s' → Q s' w) → wp (ext4_write_block_raw b l) s Q.
Proof.
  intros [Hh Hg] Hl Hb HS HN. rewrite (geo_bs _ Hg) in Hl. eapply wp_write_heap; [done..| |]; intros s' w Hk Hw Hq; [apply HS|apply HN]; try done; split; try done.
  - by rewrite (w_fs _ _ _ _ Hq).
  - by rewrite (q_fs _ _ _ Hq).
Qed.

(** ** Group descriptors *)

Definition low (f : field) : Prop := 0 ≤ f_off f ∧ f_off f + Z.of_nat (f_width f) ≤ 32.
Definition high (f : field) : Prop := 0 ≤ f_off f ∧ f_off f + Z.of_nat (f_width f) ≤ 64.

Lemma within_low fs g f : geo fs → 0 ≤ g < group_count fs → low f → within (at_base (g * sizeof_group_desc) f) (gd_mem fs).
Proof.
  intros Hg Hr [H1 H2]. pose proof (geo_mem _ Hg g Hr) as Hm. pose proof (geo_desc _ Hg). unfold sizeof_group_desc in *. split; cbn; [lia|].
  destruct (Z.le_gt_cases 64 (desc_size fs)); lia.
Qed.

Lemma within_high fs g f : geo fs → 0 ≤ g < group_count fs → 64 ≤ desc_size fs → high f → within (at_base (g * sizeof_group_desc) f) (gd_mem fs).
Proof. intros Hg Hr Hd [H1 H2]. pose proof (geo_mem _ Hg g Hr) as Hm. unfold sizeof_group_desc in *. split; cbn; lia. Qed.

Lemma wp_gd_wide g lo hi s (Q : est → Z → Prop) : geo (e_fs s) → 0 ≤ g < group_count (e_fs s) → low lo → high hi →
  Q s (wide (e_fs s) g lo hi) → wp (gd_wide g lo hi) s Q.
Proof.
  intros Hg Hr Hlo Hhi HQ. unfold wide in HQ. apply wp_bind, wp_the_fs. apply wp_bind, wp_bind, wp_the_fs. eapply wp_lift; [by apply getf_fld, within_low|].
  destruct (Z.leb_spec 64 (desc_size (e_fs s))); [|by apply wp_ret].
  apply wp_bind, wp_bind, wp_the_fs. eapply wp_lift; [by apply getf_fld, within_high|]. by apply wp_ret.
Qed.

(** ** Pools *)

Definition is_pool (P : pool) : Prop := P = block_pool ∨ P = inode_pool.

Lemma pool_fields P : is_pool P → low (p_bitmap_lo P) ∧ high (p_bitmap_hi P) ∧ low (p_free_lo P) ∧ high (p_free_hi P).
Proof. intros [->| ->]; unfold low, high; cbn; lia. Qed.

Lemma wp_get_bitmap P g s (Q : est → Z → Prop) : is_pool P → geo (e_fs s) → 0 ≤ g < group_count (e_fs s) →
  Q s (bitmap_block P (e_fs s) g) → wp (get_bitmap P g) s Q.
Proof.
  intros HP Hg Hr HQ. apply wp_bind, wp_the_fs. destruct (Z.leb_spec (group_count (e_fs s)) g); [lia|].
  destruct (pool_fields P HP) as (H1 & H2 & _). by apply wp_gd_wide.
Qed.

(** The fields that count free blocks and inodes are at 12 to 16. *)
Definition stable (f : field) : Prop := 0 ≤ f_off f ∧ (f_off f + Z.of_nat (f_width f) ≤ 12 ∨ 16 ≤ f_off f ∧ f_off f + Z.of_nat (f_width f) ≤ 64).

Lemma stable_apart f g h c : is_pool g → stable f → 0 ≤ h → 0 ≤ c →
  apart (at_base (h * sizeof_group_desc) f) (at_base (c * sizeof_group_desc) (p_free_lo g)).
Proof.
  intros HP [H1 H2] Hh Hc. unfold apart, sizeof_group_desc. destruct HP as [->| ->]; cbn in *; destruct (Z.lt_trichotomy h c) as [?|[?|?]]; lia.
Qed.

Lemma wide_stable P fs g c v lo hi : is_pool P → 0 ≤ g → 0 ≤ c → stable lo → stable hi →
  wide (with_gd fs (upd (at_base (c * sizeof_group_desc) (p_free_lo P)) v (gd_mem fs))) g lo hi = wide fs g lo hi.
Proof.
  intros HP Hg Hc Hlo Hhi. unfold wide. cbn [desc_size gd_mem with_gd].
  assert (0 ≤ f_off (p_free_lo P)) by (destruct HP as [->| ->]; cbn; lia). pose proof (proj1 Hlo). pose proof (proj1 Hhi).
  unfold sizeof_group_desc in *. rewrite !fld_upd_other by (first [by apply stable_apart | cbn; lia]). done.
Qed.

(** The struct with the counters of group [g] and of the disk changed. *)
Definition counted_fs (P : pool) (g delta : Z) fs : ext4_fs :=
  with_sb (with_gd fs (upd (at_base (g * sizeof_group_desc) (p_free_lo P)) (fld (at_base (g * sizeof_group_desc) (p_free_lo P)) (gd_mem fs) + delta) (gd_mem fs)))
    (upd (p_count P) (fld (p_count P) (sb fs) + delta) (sb fs)).

Lemma count_free_same P fs c delta : is_pool P → 0 ≤ c → geo fs → same_geo fs (counted_fs P c delta fs) ∧ geo (counted_fs P c delta fs).
Proof.
  intros HP Hc Hg. set (fs' := counted_fs P c delta fs). assert (first_block fs' = first_block fs) as Ef.
  { unfold first_block, fs', counted_fs. cbn [sb with_sb]. apply fld_upd_other; [done|by destruct HP as [->| ->]|]. unfold apart. destruct HP as [->| ->]; cbn; lia. }
  assert (∀ g lo hi, 0 ≤ g → stable lo → stable hi → wide fs' g lo hi = wide fs g lo hi) as Ew by (intros; by apply wide_stable).
  split.
  - constructor; try done; intros g Hr; apply Ew; unfold stable; cbn; lia.
  - destruct Hg. constructor; try done; unfold fs', counted_fs; cbn [gd_mem sb with_gd with_sb].
    + intros g. rewrite length_upd. apply geo_mem0.
    + by apply upd_bytes.
    + by rewrite length_upd.
    + by apply upd_bytes.
    + rewrite <- Ef in geo_blocks0. exact geo_blocks0.
Qed.

(** Only the counters changed. *)
Record counted (P : pool) (g delta : Z) s s' : Prop := {
  ct_blocks b : blocks s' b = blocks s b;
  ct_fs : e_fs s' = counted_fs P g delta (e_fs s);
  ct_faults : e_faults s' = e_faults s
}.

Lemma wp_count_free P K g delta s (Q : est → unit → Prop) : is_pool P → ok K s → 0 ≤ g < group_count (e_fs s) →
  (∀ s', ok K s' → counted P g delta s s' → Q s' tt) → wp (count_free P g delta) s Q.
Proof.
  intros HP [Hh Hg] Hr HQ. assert (low (p_free_lo P)) as Hl by (by apply pool_fields).
  assert (within (at_base (g * sizeof_group_desc) (p_free_lo P)) (gd_mem (e_fs s))) as Hw by (by apply within_low).
  unfold count_free. apply wp_bind, wp_bind, wp_the_fs. eapply wp_lift; [by apply getf_fld|].
  apply wp_bind, wp_bind, wp_the_fs. apply wp_bind. eapply wp_lift; [by apply setf_upd|]. eexists _, _. split; [done|].
  apply wp_bind, wp_the_fs. eexists _, _. split; [done|]. destruct (count_free_same P (e_fs s) g delta HP ltac:(lia) Hg) as [Hs Hg'].
  by apply HQ.
Qed.

(** ** Allocation *)

(** One bit of the bitmap of group [g] has changed to [v]. *)
Record bit_changed (P : pool) (g i : Z) (v : bool) s s' : Prop := {
  bc_fs : e_fs s' = counted_fs P g (if v then -1 else 1) (e_fs s);
  bc_other b : b ≠ bitmap_block P (e_fs s) g → blocks s' b = blocks s b;
  bc_bits j : 0 ≤ j → bit (blocks s' (bitmap_block P (e_fs s) g)) j = if j =? i then v else bit (blocks s (bitmap_block P (e_fs s) g)) j
}.

Definition in_group (P : pool) fs (g i : Z) : Prop := 0 ≤ g < group_count fs ∧ 0 ≤ i < p_per_group P fs.

Lemma bc_geo P g i v s s' : is_pool P → geo (e_fs s) → 0 ≤ g → bit_changed P g i v s s' → same_geo (e_fs s) (e_fs s').
Proof. intros HP Hg Hr Hc. rewrite (bc_fs _ _ _ _ _ _ Hc). by apply count_free_same. Qed.

(** Every bit of the group that the search looks at is set. *)
Definition full (P : pool) s (g : Z) : Prop :=
  wide (e_fs s) g (p_free_lo P) (p_free_hi P) ≠ 0 →
  ∀ i, 0 ≤ i < 8 * p_bytes P (e_fs s) → i < p_per_group P (e_fs s) → bit (blocks s (bitmap_block P (e_fs s) g)) i = true.

Definition alloc_spec (P : pool) (groups : Z → Prop) s s' (r : Z) : Prop :=
  (e_faults s ≤ e_faults s')%nat ∧
  (r = -1 ∧ e_fs s' = e_fs s ∧ (∀ b, blocks s' b = blocks s b) ∧ (e_faults s' = e_faults s → ∀ g, groups g → full P s g) ∨
   ∃ g i, in_group P (e_fs s) g i ∧ r = p_number P (e_fs s) g i ∧ bit (blocks s (bitmap_block P (e_fs s) g)) i = false ∧ bit_changed P g i true s s').

Lemma blocks_length s b : geo (e_fs s) → Z.of_nat (length (blocks s b)) = block_size (e_fs s).
Proof. intros Hg. rewrite (geo_bs _ Hg). apply dev_blocks_length. Qed.

Lemma pool_bytes P fs : is_pool P → geo fs → 0 ≤ p_bytes P fs ≤ block_size fs.
Proof. intros [->| ->] Hg; cbn; pose proof (geo_bs_range _ Hg); pose proof (geo_ipg _ Hg); [lia|lia_mod]. Qed.

Lemma full_quiet P n s s1 g : quiet n s s1 → full P s1 g → full P s g.
Proof. intros [E1 E2 _] Hf Hn i Hi Hl. unfold full in Hf. rewrite E1, E2 in Hf. by apply Hf. Qed.

(** The rest of the search, after [n] failures and a group without room. *)
Lemma alloc_spec_later P (G G' : Z → Prop) n s s1 s' r : quiet n s s1 → (∀ g, G' g → G g ∨ (n = 0%nat → full P s g)) →
  alloc_spec P G s1 s' r → alloc_spec P G' s s' r.
Proof.
  intros Hq HG [Hf Hs]. pose proof Hq as [E1 E2 E3]. split; [lia|]. destruct Hs as [(-> & Ef & Eb & Hall)|(g & i & Hin & -> & Hbit & Hc)].
  - left. split; [done|]. split; [congruence|]. split; [intros b; by rewrite Eb|]. intros En g Hg.
    destruct (HG g Hg) as [Hg'|Hfull]; [|apply Hfull; lia]. eapply full_quiet; [done|]. apply Hall; [lia|done].
  - right. exists g, i. rewrite E1 in *. rewrite E2 in Hbit. split; [done|]. split; [done|]. split; [done|]. destruct Hc as [C1 C2 C3]. rewrite E1 in *. constructor; [done| |].
    + intros b Hb. by rewrite C2.
    + intros j Hj. by rewrite C3, E2.
Qed.

Definition visited (k : nat) (preferred gc g : Z) : Prop := ∃ j, gc - Z.of_nat k ≤ j < gc ∧ g = u32 (preferred + j) `mod` gc.

Lemma visited_S k pref gc g : visited (S k) pref gc g → visited k pref gc g ∨ g = u32 (pref + (gc - Z.of_nat (S k))) `mod` gc.
Proof.
  intros (j & Hj & ->). destruct (Z.eq_dec j (gc - Z.of_nat (S k))) as [->|]; [by right|]. left. exists j. split; [lia|done].
Qed.

Lemma alloc_groups_ok P K p n k pref s : is_pool P → ok (<[p := n]> K) s → K !! p = None → Z.of_nat k ≤ group_count (e_fs s) →
  wp (alloc_groups P p k pref) s (λ s' r, ok K s' ∧ alloc_spec P (visited k pref (group_count (e_fs s))) s s' r).
Proof.
  intros HP. revert s. induction k as [|k IH]; intros s Hok Hp Hk; cbn [alloc_groups].
  { apply wp_bind. eapply wp_kfree; [done..|]. intros s1 Hok1 [E1 E2 E3]. apply wp_ret. split; [done|]. split; [lia|]. left.
    split; [done|]. split; [done|]. split; [done|]. intros _ g (j & Hj & _). lia. }
  pose proof (proj2 Hok) as Hg. pose proof (geo_gc _ Hg) as Hgc. apply wp_bind, wp_the_fs. cbv beta zeta.
  set (g := u32 (pref + (group_count (e_fs s) - Z.of_nat (S k))) `mod` group_count (e_fs s)).
  assert (0 ≤ g < group_count (e_fs s)) as Hr by (apply Z.mod_pos_bound; lia).
  assert (∀ m s1, quiet m s s1 → ok (<[p := n]> K) s1 → (m = 0%nat → full P s g) →
    wp (alloc_groups P p k pref) s1 (λ s' r, ok K s' ∧ alloc_spec P (visited (S k) pref (group_count (e_fs s))) s s' r)) as Hnext.
  { intros m s1 Hq Hok1 Hfull. eapply wp_mono; [apply IH; [done..|rewrite (q_fs _ _ _ Hq); lia]|]. intros s' r [Hok' Hs]. split; [done|].
    eapply alloc_spec_later; [done| |done]. rewrite (q_fs _ _ _ Hq). intros g' [Hv|Hv]%visited_S; [by left|]. right. intros Hm. rewrite Hv. by apply Hfull. }
  destruct (pool_fields P HP) as (_ & _ & Hlo & Hhi). apply wp_bind. apply wp_gd_wide; [done..|].
  destruct (Z.eqb_spec (wide (e_fs s) g (p_free_lo P) (p_free_hi P)) 0) as [E0|E0].
  { apply (Hnext 0%nat); [apply quiet_same|done|]. intros _ Hne. done. }
  apply wp_bind. apply wp_get_bitmap; [done..|]. set (b := bitmap_block P (e_fs s) g). apply wp_bind. eapply wp_read; [done| |].
  2: { intros s1 Hok1 Hq1. apply (Hnext 1%nat); [done..|discriminate]. }
  intros s1 Hok1 Hq1. pose proof (pool_bytes P _ HP Hg) as Hbytes. pose proof (blocks_length s b Hg) as Hlen.
  destruct (find_free_ok (Z.to_nat (p_bytes P (e_fs s))) (blocks s b) 0 (p_per_group P (e_fs s))) as (x & Ex & Hx); [lia..|].
  apply wp_bind. eapply wp_lift; [done|]. destruct x as [i|].
  2: { apply (Hnext 0%nat); [done..|]. intros _ _ i Hi Hl. apply Hx; lia. }
  destruct Hx as (Hi & Hil & Hbit & _). destruct (change_bit_ok i true (blocks s b)) as (l' & El & Hl' & Hb' & Hbits); [lia|apply dev_blocks_bytes|].
  apply wp_bind. eapply wp_lift; [exact El|]. pose proof (q_fs _ _ _ Hq1) as Ef1. apply wp_bind. eapply wp_write; [done|rewrite Ef1; lia|done| |].
  2: { intros s2 w Hok2 Hw Hq2. rewrite (proj2 (Z.ltb_lt _ _)) by done. apply wp_bind. eapply wp_kfree; [done..|]. intros s3 Hok3 Hq3. apply wp_ret. split; [done|].
    pose proof (quiet_trans _ _ _ _ _ Hq1 (quiet_trans _ _ _ _ _ Hq2 Hq3)) as [Q1 Q2 Q3]. cbn in Q3. split; [lia|]. left. split; [done|]. split; [done|]. split; [done|]. lia. }
  intros s2 w Hok2 Hw [W1 W2 W3]. rewrite (proj2 (Z.ltb_ge _ _)) by done. assert (e_fs s2 = e_fs s) as Ef2 by congruence. apply wp_bind.
  eapply wp_count_free; [done..|rewrite Ef2; lia|]. intros s3 Hok3 [C1 C2 C3]. apply wp_bind. eapply wp_kfree; [done..|]. intros s4 Hok4 [D1 D2 D3]. apply wp_ret. split; [done|].
  pose proof (q_faults _ _ _ Hq1) as Eq1. cbn in *. split; [lia|]. right. exists g, i. split; [split; [done|lia]|]. split; [done|]. split; [done|]. rewrite Ef2 in C2. constructor.
  - by rewrite D1.
  - intros b' Hne. rewrite D2, C1, W2, bool_decide_eq_false_2 by done. apply Hq1.
  - intros j Hj. rewrite D2, C1, W2, bool_decide_eq_true_2 by done. by apply Hbits.
Qed.

Lemma alloc_bit_ok P K pref s : is_pool P → ok K s →
  wp (alloc_bit P pref) s (λ s' r, ok K s' ∧ alloc_spec P (λ g, 0 ≤ pref ∧ pref + group_count (e_fs s) ≤ 2 ^ 32 ∧ 0 ≤ g < group_count (e_fs s)) s s' r).
Proof.
  intros HP Hok. pose proof (proj2 Hok) as Hg. pose proof (geo_bs_range _ Hg). pose proof (geo_gc _ Hg). apply wp_bind, wp_the_fs, wp_bind. eapply wp_kmalloc; [done|lia| |].
  - intros s1 p Hp Hok1 Hq1. pose proof (q_fs _ _ _ Hq1) as Ef. eapply wp_mono; [eapply alloc_groups_ok; [done..|rewrite Ef; lia]|]. intros s' r [Hok' Hs]. split; [done|].
    eapply alloc_spec_later; [done| |done]. intros g (Hp0 & Hp1 & Hr). left. rewrite Ef. exists ((g - pref) `mod` group_count (e_fs s)).
    pose proof (Z.mod_pos_bound (g - pref) (group_count (e_fs s)) ltac:(lia)). split; [lia|]. unfold u32. rewrite (Z.mod_small (_ + _)) by lia.
    rewrite Zplus_mod_idemp_r. replace (pref + (g - pref)) with g by lia. by rewrite Z.mod_small.
  - intros s1 Hok1 [E1 E2 E3]. apply wp_ret. split; [done|]. split; [lia|]. left. split; [done|]. split; [done|]. split; [done|]. lia.
Qed.

(** ** Release *)

Lemma per_group_bits P fs : is_pool P → geo fs → 0 < p_per_group P fs ≤ 8 * block_size fs.
Proof. intros [->| ->] Hg; cbn; apply Hg. Qed.

Definition free_spec (P : pool) (g i : Z) s s' (r : Z) : Prop :=
  r = -1 ∧ e_fs s' = e_fs s ∧ (∀ b, blocks s' b = blocks s b) ∧ (e_faults s < e_faults s')%nat ∨
  r = 0 ∧ e_faults s' = e_faults s ∧ bit_changed P g i false s s'.

Lemma free_bit_ok P K g i s : is_pool P → ok K s → in_group P (e_fs s) g i → wp (free_bit P g i) s (λ s' r, ok K s' ∧ free_spec P g i s s' r).
Proof.
  intros HP Hok [Hr Hi]. pose proof (proj2 Hok) as Hg. pose proof (geo_bs_range _ Hg). pose proof (per_group_bits P _ HP Hg) as Hpg.
  apply wp_bind, wp_the_fs. destruct (Z.leb_spec (group_count (e_fs s)) g); [lia|]. apply wp_bind. eapply wp_kmalloc; [done|lia| |].
  2: { intros s1 Hok1 [E1 E2 E3]. apply wp_ret. split; [done|]. left. split; [done|]. split; [done|]. split; [done|]. lia. }
  intros s1 p Hp Hok1 Hq1. pose proof (q_fs _ _ _ Hq1) as Ef1. apply wp_bind. apply wp_get_bitmap; [done|apply Hok1|by rewrite Ef1|]. rewrite Ef1.
  set (b := bitmap_block P (e_fs s) g). apply wp_bind. eapply wp_read; [done| |].
  2: { intros s2 Hok2 Hq2. apply wp_bind. eapply wp_kfree; [done..|]. intros s3 Hok3 Hq3. apply wp_ret. split; [done|]. left.
    pose proof (quiet_trans _ _ _ _ _ Hq1 (quiet_trans _ _ _ _ _ Hq2 Hq3)) as [Q1 Q2 Q3]. split; [done|]. split; [done|]. split; [done|]. lia. }
  intros s2 Hok2 Hq2. pose proof (quiet_trans _ _ _ _ _ Hq1 Hq2) as [Q1 Q2 Q3]. rewrite (q_blocks _ _ _ Hq1).
  destruct (change_bit_ok i false (blocks s b)) as (l' & El & Hl' & Hb' & Hbits); [rewrite (blocks_length s b Hg); lia|apply dev_blocks_bytes|].
  apply wp_bind. eapply wp_lift; [exact El|]. apply wp_bind. eapply wp_write; [done|rewrite Q1, Hl'; by apply blocks_length|done| |].
  2: { intros s3 w Hok3 Hw [W1 W2 W3]. rewrite (proj2 (Z.ltb_lt _ _)) by done. apply wp_bind. eapply wp_kfree; [done..|]. intros s4 Hok4 [D1 D2 D3]. apply wp_ret.
    split; [done|]. left. split; [done|]. split; [congruence|]. split; [intros b'; by rewrite D2, W2|]. lia. }
  intros s3 w Hok3 Hw [W1 W2 W3]. rewrite (proj2 (Z.ltb_ge _ _)) by done. assert (e_fs s3 = e_fs s) as Ef3 by congruence. apply wp_bind.
  eapply wp_count_free; [done..|by rewrite Ef3|]. intros s4 Hok4 [C1 C2 C3]. apply wp_bind. eapply wp_kfree; [done..|]. intros s5 Hok5 [D1 D2 D3]. apply wp_ret. split; [done|].
  right. cbn in *. split; [done|]. split; [lia|]. rewrite Ef3 in C2. constructor.
  - by rewrite D1.
  - intros b' Hne. by rewrite D2, C1, W2, bool_decide_eq_false_2.
  - intros j Hj. rewrite D2, C1, W2, bool_decide_eq_true_2 by done. by apply Hbits.
Qed.

(** The number of block [i] of group [g], as the driver computes it. *)
Definition block_number fs (g i : Z) : Z := first_block fs + g * blocks_per_group fs + i.

Lemma first_block_nonneg fs : geo fs → 0 ≤ first_block fs.
Proof. intros Hg. apply (fld_bound s_first_data_block), Hg. Qed.

Lemma block_number_range fs g i : geo fs → in_group block_pool fs g i →
  first_block fs ≤ block_number fs g i < 2 ^ 31 ∧ (block_number fs g i - first_block fs) / blocks_per_group fs = g ∧
  (block_number fs g i - first_block fs) `mod` blocks_per_group fs = i.
Proof.
  intros Hg [Hr Hi]. cbn in Hi. pose proof (geo_blocks _ Hg). pose proof (first_block_nonneg _ Hg). unfold block_number. split; [nia|].
  replace (first_block fs + g * blocks_per_group fs + i - first_block fs) with (i + g * blocks_per_group fs) by lia.
  split; [rewrite Z.div_add, Z.div_small by lia; lia|]. rewrite Z.mod_add by lia. by apply Z.mod_small.
Qed.

Lemma block_pool_number fs g i : geo fs → in_group block_pool fs g i → p_number block_pool fs g i = block_number fs g i.
Proof.
  intros Hg Hin. destruct (block_number_range fs g i Hg Hin) as [Hb _]. pose proof (first_block_nonneg _ Hg). 
  change (i32 (u32 (block_number fs g i)) = block_number fs g i). rewrite u32_small, i32_small by lia. done.
Qed.

Lemma ext4_free_block_ok K g i s : ok K s → in_group block_pool (e_fs s) g i →
  wp (ext4_free_block (block_number (e_fs s) g i)) s (λ s' r, ok K s' ∧ free_spec block_pool g i s s' r).
Proof.
  intros Hok Hin. pose proof (proj2 Hok) as Hg. destruct (block_number_range _ g i Hg Hin) as (Hb & Ed & Em). pose proof (geo_bpg _ Hg). pose proof (geo_inodes _ Hg).
  pose proof (geo_ipg _ Hg). apply wp_bind, wp_the_fs. cbv zeta. fold (first_block (e_fs s)). destruct (Z.ltb_spec (block_number (e_fs s) g i) (first_block (e_fs s))); [lia|].
  apply wp_bind, wp_udiv; [lia|]. apply wp_bind, wp_umod; [lia|]. rewrite Ed, Em. destruct Hin as [Hr Hi]. rewrite u32_small by (pose proof (geo_gc _ Hg); nia). by apply free_bit_ok; [left|..].
Qed.

(** Lists of bytes with the same bits are the same. *)
Lemma bits_inj l1 l2 : Forall is_byte l1 → Forall is_byte l2 → length l1 = length l2 →
  (∀ j, 0 ≤ j → bit l1 j = bit l2 j) → l1 = l2.
Proof.
  intros H1 H2 Hl Hb. apply list_eq_same_length with (length l1); [done|done|]. intros k x y Hk Ex Ey.
  apply (Forall_lookup_1 _ _ _ _ H1) in Ex as Hx. apply (Forall_lookup_1 _ _ _ _ H2) in Ey as Hy.
  assert (∀ l z, l !! k = Some z → fld (F (Z.of_nat k) 1) l = z) as Hf.
  { intros l z Ez. unfold fld. cbn [f_off f_width]. rewrite Nat2Z.id, (drop_S _ _ _ Ez). cbn [take le_get]. rewrite firstn_O. cbn [le_get]. lia. }
  apply Z.bits_inj'. intros n Hn. destruct (Z.ltb_spec n 8) as [H8|H8]; [|by rewrite !byte_testbit_high].
  specialize (Hb (Z.of_nat k * 8 + n) ltac:(lia)). rewrite !(bit_of_byte _ (Z.of_nat k)), (Hf _ _ Ex), (Hf _ _ Ey) in Hb by lia.
  by replace (Z.of_nat k * 8 + n - Z.of_nat k * 8) with n in Hb by lia.
Qed.

(** ** The counters of free blocks *)

Lemma filter_ext_elem {A} (P1 P2 : A → Prop) `{!∀ x, Decision (P1 x)} `{!∀ x, Decision (P2 x)} (l : list A) :
  (∀ x, x ∈ l → P1 x ↔ P2 x) → filter P1 l = filter P2 l.
Proof.
  induction l as [|a l IH]; intros Hl; [done|]. rewrite !filter_cons, IH by (intros; apply Hl; by right).
  specialize (Hl a (list_elem_of_here _ _)). repeat case_decide; tauto.
Qed.

Definition nclear (l : list Z) (lim : Z) : Z := Z.of_nat (length (filter (λ i, bit l i = false) (seqZ 0 lim))).

Lemma nclear_change l l' i v lim : 0 ≤ i < lim → bit l i = negb v → (∀ j, 0 ≤ j → bit l' j = if j =? i then v else bit l j) →
  nclear l' lim = nclear l lim + (if v then -1 else 1).
Proof.
  intros Hi Hb Hbits. unfold nclear. replace lim with (i + (lim - i)) by lia. rewrite (seqZ_app 0 i (lim - i)), Z.add_0_l, (seqZ_cons i (lim - i)) by lia.
  assert (∀ a b, (∀ j, a ≤ j < a + b → 0 ≤ j ∧ j ≠ i) → filter (λ j, bit l' j = false) (seqZ a b) = filter (λ j, bit l j = false) (seqZ a b)) as Hf.
  { intros a b Hab. apply filter_ext_elem. intros j Hj%elem_of_seqZ. destruct (Hab j Hj) as [H0 Hne]. rewrite Hbits by done. by rewrite (proj2 (Z.eqb_neq _ _) Hne). }
  rewrite !filter_app, !filter_cons, !length_app. rewrite (Hf 0 i), (Hf (Z.succ i)) by lia. rewrite Hb, Hbits, Z.eqb_refl by lia.
  destruct v; cbn [negb decide bool_eq_dec]; repeat case_decide; try done; cbn [length]; lia.
Qed.

Lemma nclear_range l lim : 0 ≤ lim → 0 ≤ nclear l lim ≤ lim.
Proof.
  intros Hl. unfold nclear. pose proof (length_filter (λ i, bit l i = false) (seqZ 0 lim)) as Hf. rewrite length_seqZ in Hf. lia.
Qed.

Definition count_of fs (g : Z) : Z := wide fs g bg_free_blocks_count_lo bg_free_blocks_count_hi.

(** The counter of every group is the number of its clear bits; it fits into
    the low half of the counter. *)
Definition counts fs (B : Z → list Z) : Prop :=
  blocks_per_group fs < 65536 ∧ ∀ g, 0 ≤ g < group_count fs → count_of fs g = nclear (B (bitmap_block block_pool fs g)) (blocks_per_group fs).

Lemma count_of_other fs g g' delta : 0 ≤ g → 0 ≤ g' → g ≠ g' → count_of (counted_fs block_pool g delta fs) g' = count_of fs g'.
Proof.
  intros Hg Hg' Hne. unfold count_of, wide, counted_fs. cbn [desc_size gd_mem with_gd with_sb]. unfold sizeof_group_desc.
  rewrite !fld_upd_other by (unfold apart; cbn; lia). done.
Qed.

Lemma count_of_same fs g delta : geo fs → 0 ≤ g < group_count fs → 0 ≤ count_of fs g < 65536 → 0 ≤ count_of fs g + delta < 65536 →
  count_of (counted_fs block_pool g delta fs) g = count_of fs g + delta.
Proof.
  intros Hg Hr Hc Hd. unfold count_of, wide, counted_fs in *. cbn [desc_size gd_mem with_gd with_sb p_free_lo block_pool f_width bg_free_blocks_count_lo] in *.
  set (lo := at_base (g * sizeof_group_desc) (F 12 2)) in *. set (hi := at_base (g * sizeof_group_desc) bg_free_blocks_count_hi) in *.
  change (at_base (g * sizeof_group_desc) bg_free_blocks_count_lo) with lo in *.
  assert (within lo (gd_mem fs)) as Hw by (apply within_low; [done|done|unfold low; cbn; lia]).
  pose proof (fld_bound lo (gd_mem fs) (geo_mem_bytes _ Hg)) as Bl. pose proof (fld_bound hi (gd_mem fs) (geo_mem_bytes _ Hg)) as Bh.
  change (256 ^ Z.of_nat (f_width lo)) with 65536 in Bl. rewrite fld_upd_same by done. change (256 ^ Z.of_nat (f_width lo)) with 65536.
  rewrite fld_upd_other by (unfold apart; cbn; unfold sizeof_group_desc; lia). change (8 * Z.of_nat 2) with 16 in *. destruct (64 <=? desc_size fs); [|apply Z.mod_small; lia].
  rewrite lor_shiftl in Hc, Hd by lia. change (2 ^ 16) with 65536 in *. assert (fld hi (gd_mem fs) = 0) as -> by lia.
  rewrite Z.mod_small by lia. by rewrite !Z.lor_0_r.
Qed.

Lemma counts_change g i v s s' : geo (e_fs s) → (∀ g', 0 ≤ g' < group_count (e_fs s) → bitmap_block block_pool (e_fs s) g' = bitmap_block block_pool (e_fs s) g → g' = g) →
  in_group block_pool (e_fs s) g i → bit (blocks s (bitmap_block block_pool (e_fs s) g)) i = negb v → bit_changed block_pool g i v s s' →
  counts (e_fs s) (blocks s) → counts (e_fs s') (blocks s').
Proof.
  intros Hg Hinj Hin Hbit Hc [Hlt Hall]. pose proof Hin as [Hgr Hi]. cbn in Hi. pose proof (bc_geo _ _ _ _ _ _ (or_introl eq_refl) Hg (proj1 Hgr) Hc) as Hs. destruct Hc as [Ef Ho Hb].
  split; [by rewrite (sg_bpg _ _ Hs)|]. intros g' Hg'. rewrite (sg_gc _ _ Hs) in Hg'. rewrite (sg_blocks _ _ Hs), (sg_bpg _ _ Hs), Ef by done.
  destruct (decide (g' = g)) as [->|Hne].
  - pose proof (nclear_change _ _ i v _ Hi Hbit Hb) as En. rewrite En. pose proof (nclear_range (blocks s (bitmap_block block_pool (e_fs s) g)) (blocks_per_group (e_fs s)) ltac:(lia)) as R1.
    pose proof (nclear_range (blocks s' (bitmap_block block_pool (e_fs s) g)) (blocks_per_group (e_fs s)) ltac:(lia)) as R2. rewrite <- (Hall g Hg') in *.
    apply count_of_same; [done|done|lia|lia].
  - rewrite count_of_other by lia. rewrite Hall by done. f_equal. symmetry. apply Ho. intros E. by apply Hne, Hinj.
Qed.

Lemma nclear_zero l lim i : nclear l lim = 0 → 0 ≤ i < lim → bit l i = true.
Proof.
  intros Hn Hi. unfold nclear in Hn. destruct (bit l i) eqn:E; [done|]. exfalso.
  assert (i ∈ filter (λ i, bit l i = false) (seqZ 0 lim)) as Hm by (apply list_elem_of_filter; split; [done|apply elem_of_seqZ; lia]).
  destruct (filter (λ i, bit l i = false) (seqZ 0 lim)); [by apply not_elem_of_nil in Hm|]. cbn in Hn. lia.
Qed.
End Wp.
