(* ===== verification/Ext4Files.v ===== *)
(** * ext4: inodes, block maps and files

    The on-disk invariant [fs_inv]: metadata blocks are where the group
    descriptors say and never free, and no block is used twice.  Under it
    reading and writing files implement files as maps from positions to bytes,
    and a write touches no other file. *)

From stdpp Require Import functions.
From S2P Require Import Prelude KHeap Kmalloc Ext4 Ext4Alloc.

Section Files.
Context {H D : Type} `{!KernelHeap H} `{!BlockDevice D} `{!BlockLaws D}.
#[local] Abbreviation est := (ext4_state H D).
Implicit Types (s : est) (B : Z → list Z) (n : list Z) (fs : ext4_fs).

(** ** Metadata *)

Inductive meta_id := MBlocks (g : Z) | MInodes (g : Z) | MTable (g k : Z).

Definition table_size fs : Z := (inodes_per_group fs * inode_size fs - 1) / block_size fs + 1.
Definition meta_valid fs (m : meta_id) : Prop :=
  match m with MBlocks g | MInodes g => 0 ≤ g < group_count fs | MTable g k => 0 ≤ g < group_count fs ∧ 0 ≤ k < table_size fs end.
Definition meta_at fs (m : meta_id) : Z :=
  match m with MBlocks g => bitmap_block block_pool fs g | MInodes g => bitmap_block inode_pool fs g | MTable g k => table_block fs g + k end.
Definition meta fs (b : Z) : Prop := ∃ m, meta_valid fs m ∧ meta_at fs m = b.

Record layout fs : Prop := {
  ly_inj m1 m2 : meta_valid fs m1 → meta_valid fs m2 → meta_at fs m1 = meta_at fs m2 → m1 = m2;
  ly_table g : 0 ≤ g < group_count fs → 0 ≤ table_block fs g ∧ table_block fs g + table_size fs ≤ 2 ^ 64
}.

Lemma same_geo_valid fs fs' m : same_geo fs fs' → meta_valid fs' m ↔ meta_valid fs m.
Proof. intros [] . unfold meta_valid, table_size. by rewrite sg_gc, sg_ipg, sg_isize, sg_bs. Qed.

Lemma same_geo_at fs fs' m : same_geo fs fs' → meta_valid fs m → meta_at fs' m = meta_at fs m.
Proof. intros [] Hv. destruct m as [g|g|g k]; cbn in *; [by apply sg_blocks|by apply sg_inodes|]. f_equal. apply sg_table, Hv. Qed.

Lemma same_geo_meta fs fs' b : same_geo fs fs' → meta fs' b ↔ meta fs b.
Proof.
  intros Hs. split; intros (m & Hv & <-); exists m.
  - apply (same_geo_valid _ _ _ Hs) in Hv. split; [done|]. symmetry. by apply same_geo_at.
  - split; [by apply (same_geo_valid _ _ _ Hs)|]. by apply same_geo_at.
Qed.

Lemma same_geo_layout fs fs' : same_geo fs fs' → layout fs → layout fs'.
Proof.
  intros Hs [L1 L2]. constructor.
  - intros m1 m2 V1%(same_geo_valid _ _ _ Hs) V2%(same_geo_valid _ _ _ Hs) E. rewrite !(same_geo_at _ _ _ Hs) in E by done. by apply L1.
  - intros g. rewrite (sg_gc _ _ Hs). intros Hg. rewrite (sg_table _ _ Hs) by done. unfold table_size. rewrite (sg_ipg _ _ Hs), (sg_isize _ _ Hs), (sg_bs _ _ Hs).
    by apply L2.
Qed.

(** ** Inodes *)

Definition valid_ino fs (ino : Z) : Prop := 1 ≤ ino ≤ group_count fs * inodes_per_group fs.
Definition ino_group fs (ino : Z) : Z := (ino - 1) / inodes_per_group fs.
Definition ino_index fs (ino : Z) : Z := (ino - 1) `mod` inodes_per_group fs.
Definition ino_block fs (ino : Z) : Z := table_block fs (ino_group fs ino) + (ino_index fs ino * inode_size fs) / block_size fs.
Definition ino_offset fs (ino : Z) : Z := (ino_index fs ino * inode_size fs) `mod` block_size fs.
Definition disk_inode fs B (ino : Z) : list Z := take sizeof_inode (drop (Z.to_nat (ino_offset fs ino)) (B (ino_block fs ino))).

Lemma ino_range fs ino : geo fs → valid_ino fs ino →
  0 ≤ ino_group fs ino < group_count fs ∧ 0 ≤ ino_index fs ino < inodes_per_group fs ∧
  0 ≤ (ino_index fs ino * inode_size fs) / block_size fs < table_size fs ∧ 0 ≤ ino_index fs ino * inode_size fs < 2 ^ 32 ∧
  0 ≤ ino_offset fs ino ∧ ino_offset fs ino + Z.of_nat sizeof_inode ≤ block_size fs.
Proof.
  intros Hg [H1 H2]. pose proof (geo_ipg _ Hg) as Hi. pose proof (geo_isize _ Hg) as Hs. pose proof (geo_bs_range _ Hg) as Hb. pose proof (geo_itable _ Hg) as Ht.
  pose proof (geo_isize_div _ Hg) as Hd. unfold ino_offset, ino_group, ino_index, table_size.
  assert (0 ≤ (ino - 1) / inodes_per_group fs < group_count fs) as Hq by (split; [apply Z.div_pos; lia|apply Z.div_lt_upper_bound; lia]).
  pose proof (Z.mod_pos_bound (ino - 1) (inodes_per_group fs) ltac:(lia)) as Hm. set (i := (ino - 1) `mod` inodes_per_group fs) in *. change (Z.of_nat sizeof_inode) with 116 in *.
  split; [done|]. split; [done|]. assert (0 ≤ i * inode_size fs ≤ inodes_per_group fs * inode_size fs - 1) as Hx.
  { split; [apply Z.mul_nonneg_nonneg; lia|]. assert (i * inode_size fs ≤ (inodes_per_group fs - 1) * inode_size fs) by (apply Z.mul_le_mono_nonneg_r; lia). lia. }
  split; [split; [apply Z.div_pos; lia|apply Z.lt_succ_r, Z.div_le_mono; lia]|]. split; [lia|].
  pose proof (Z.mod_pos_bound (i * inode_size fs) (block_size fs) ltac:(lia)) as Ho. split; [lia|].
  apply Z.mod_divide in Hd as [q Eq]; [|lia]. assert (((i * inode_size fs) `mod` block_size fs) `mod` inode_size fs = 0) as Hz.
  { assert (q ≠ 0) by (intros ->; lia). rewrite Eq, Z.mul_mod_distr_r by lia. apply Z.mod_mul. lia. }
  apply Z.mod_divide in Hz as [r Er]; [|lia]. rewrite Er in *. clear Er. subst. assert (r < q) by (apply (Zmult_gt_0_lt_reg_r _ _ (inode_size fs)); lia).
  assert ((r + 1) * inode_size fs ≤ q * inode_size fs) by (apply Z.mul_le_mono_nonneg_r; lia). lia.
Qed.

Lemma wp_inode_place ino s (Q : est → option (Z * Z) → Prop) : geo (e_fs s) → layout (e_fs s) → valid_ino (e_fs s) ino →
  Q s (Some (ino_block (e_fs s) ino, ino_offset (e_fs s) ino)) → wp (inode_place ino) s Q.
Proof.
  intros Hg Hl Hv HQ. destruct (ino_range _ _ Hg Hv) as (H1 & H2 & H3 & H4 & _). pose proof (geo_ipg _ Hg). pose proof (geo_bs_range _ Hg).
  destruct (ly_table _ Hl _ H1) as [T1 T2]. destruct Hv as [Hv _].
  apply wp_bind, wp_the_fs. destruct (Z.eqb_spec ino 0); [lia|]. apply wp_bind, wp_udiv; [lia|]. apply wp_bind, wp_umod; [lia|].
  fold (ino_group (e_fs s) ino). fold (ino_index (e_fs s) ino). destruct (Z.leb_spec (group_count (e_fs s)) (ino_group (e_fs s) ino)); [lia|].
  apply wp_bind. apply wp_gd_wide; [done..|unfold low; cbn; lia|unfold high; cbn; lia|]. fold (table_block (e_fs s) (ino_group (e_fs s) ino)).
  rewrite u32_small by lia. apply wp_bind, wp_udiv; [lia|]. apply wp_bind, wp_umod; [lia|]. apply wp_ret.
  rewrite u64_small by lia. done.
Qed.

Definition failed s s' : Prop := ∃ k, quiet (S k) s s'.

Lemma read_inode_ok K ino s : ok K s → layout (e_fs s) → valid_ino (e_fs s) ino →
  wp (ext4_read_inode ino) s (λ s' r, ok K s' ∧ (r = Some (disk_inode (e_fs s) (blocks s) ino) ∧ quiet 0 s s' ∨ r = None ∧ failed s s')).
Proof.
  intros Hok Hl Hv. pose proof (proj2 Hok) as Hg. pose proof (geo_bs_range _ Hg). apply wp_bind, wp_the_fs, wp_bind, wp_inode_place; [done..|].
  apply wp_bind. eapply wp_kmalloc; [done|lia| |].
  2: { intros s1 Hok1 Hq. apply wp_ret. split; [done|]. right. split; [done|]. by exists 0%nat. }
  intros s1 p Hp Hok1 Hq1. apply wp_bind. eapply wp_read; [done| |].
  2: { intros s2 Hok2 Hq2. apply wp_bind. eapply wp_kfree; [done..|]. intros s3 Hok3 Hq3. apply wp_ret. split; [done|]. right. split; [done|]. exists 0%nat.
    exact (quiet_trans _ _ _ _ _ Hq1 (quiet_trans _ _ _ _ _ Hq2 Hq3)). }
  intros s2 Hok2 Hq2. destruct (ino_range _ _ Hg Hv) as (_ & _ & _ & _ & H5 & H6). rewrite (q_blocks _ _ _ Hq1).
  apply wp_bind. eapply wp_lift; [apply get_bytes_ok; [done|by rewrite blocks_length]|]. apply wp_bind. eapply wp_kfree; [done..|]. intros s3 Hok3 Hq3. apply wp_ret.
  split; [done|]. left. split; [done|]. exact (quiet_trans _ _ _ _ _ Hq1 (quiet_trans _ _ _ _ _ Hq2 Hq3)).
Qed.

Definition good_inode n : Prop := length n = sizeof_inode ∧ Forall is_byte n.

Lemma write_inode_ok K ino n s : ok K s → layout (e_fs s) → valid_ino (e_fs s) ino → good_inode n →
  wp (ext4_write_inode ino n) s (λ s' w, ok K s' ∧
    (0 ≤ w ∧ wrote (ino_block (e_fs s) ino) (list_inserts (Z.to_nat (ino_offset (e_fs s) ino)) n (blocks s (ino_block (e_fs s) ino))) s s' ∨ w < 0 ∧ failed s s')).
Proof.
  intros Hok Hl Hv [Hn1 Hn2]. pose proof (proj2 Hok) as Hg. pose proof (geo_bs_range _ Hg). apply wp_bind, wp_the_fs, wp_bind, wp_inode_place; [done..|].
  apply wp_bind. eapply wp_kmalloc; [done|lia| |].
  2: { intros s1 Hok1 Hq. apply wp_ret. split; [done|]. right. split; [done|]. by exists 0%nat. }
  intros s1 p Hp Hok1 Hq1. apply wp_bind. eapply wp_read; [done| |].
  2: { intros s2 Hok2 Hq2. apply wp_bind. eapply wp_kfree; [done..|]. intros s3 Hok3 Hq3. apply wp_ret. split; [done|]. right. split; [done|]. exists 0%nat.
    exact (quiet_trans _ _ _ _ _ Hq1 (quiet_trans _ _ _ _ _ Hq2 Hq3)). }
  intros s2 Hok2 Hq2. destruct (ino_range _ _ Hg Hv) as (_ & _ & _ & _ & H5 & H6). rewrite (q_blocks _ _ _ Hq1). pose proof (quiet_trans _ _ _ _ _ Hq1 Hq2) as Hq12.
  apply wp_bind. eapply wp_lift; [apply set_bytes_ok; [done|by rewrite blocks_length, Hn1]|]. apply wp_bind. eapply wp_write; [done| | | |].
  - rewrite length_inserts, (q_fs _ _ _ Hq12). by apply blocks_length.
  - apply inserts_bytes; [done|apply dev_blocks_bytes].
  - intros s3 w Hok3 Hw [W1 W2 W3]. apply wp_bind. eapply wp_kfree; [done..|]. intros s4 Hok4 [D1 D2 D3]. apply wp_ret. split; [done|]. left. split; [done|].
    destruct Hq12 as [Q1 Q2 Q3]. constructor; [congruence| |lia]. intros b. rewrite D2, W2. by rewrite Q2.
  - intros s3 w Hok3 Hw Hq3. apply wp_bind. eapply wp_kfree; [done..|]. intros s4 Hok4 Hq4. apply wp_ret. split; [done|]. right. split; [done|]. exists 0%nat.
    exact (quiet_trans _ _ _ _ _ Hq12 (quiet_trans _ _ _ _ _ Hq3 Hq4)).
Qed.

(** ** Block maps

    A slot is a place of an inode or of one of its indirect blocks that holds a
    block number; [ptr] is the number, 0 if there is none. *)

Inductive slot := SDir (k : Z) | SInd | SIndP (k : Z) | SDind | SDindP (k : Z) | SDindPP (k l : Z).

#[local] Instance slot_eq_dec : EqDecision slot.
Proof. solve_decision. Defined.

Definition ptrs fs : Z := block_size fs / 4.
Definition slot_valid fs (x : slot) : Prop :=
  match x with
  | SDir k => 0 ≤ k < EXT4_NDIR_BLOCKS
  | SInd | SDind => True
  | SIndP k | SDindP k => 0 ≤ k < ptrs fs
  | SDindPP k l => 0 ≤ k < ptrs fs ∧ 0 ≤ l < ptrs fs
  end.
Definition data_slot (x : slot) : Prop := match x with SDir _ | SIndP _ | SDindPP _ _ => True | _ => False end.

Definition word B (b i : Z) : Z := if b =? 0 then 0 else fld (word_at i) (B b).
Definition ptr B n (x : slot) : Z :=
  match x with
  | SDir k => fld (i_block k) n
  | SInd => fld (i_block EXT4_IND_BLOCK) n
  | SIndP k => word B (fld (i_block EXT4_IND_BLOCK) n) k
  | SDind => fld (i_block EXT4_DIND_BLOCK) n
  | SDindP k => word B (fld (i_block EXT4_DIND_BLOCK) n) k
  | SDindPP k l => word B (word B (fld (i_block EXT4_DIND_BLOCK) n) k) l
  end.

(** The slot of a block of the file. *)
Definition slot_of fs (fb : Z) : option slot :=
  if fb <? EXT4_NDIR_BLOCKS then Some (SDir fb)
  else
    let fb := fb - EXT4_NDIR_BLOCKS in
    if fb <? ptrs fs then Some (SIndP fb)
    else
      let fb := fb - ptrs fs in
      if fb <? ptrs fs * ptrs fs then Some (SDindPP (fb / ptrs fs) (fb `mod` ptrs fs)) else None.
Definition file_block fs B n (fb : Z) : Z := from_option (ptr B n) 0 (slot_of fs fb).

Lemma ptrs_range fs : geo fs → 256 ≤ ptrs fs ≤ 16384 ∧ block_size fs = 4 * ptrs fs.
Proof. intros Hg. pose proof (geo_bs_range _ Hg). pose proof (geo_bs4 _ Hg). unfold ptrs. lia_mod. Qed.

Lemma slot_of_valid fs fb x : geo fs → 0 ≤ fb → slot_of fs fb = Some x → slot_valid fs x ∧ data_slot x.
Proof.
  intros Hg Hf E. pose proof (ptrs_range _ Hg) as [Hp _]. unfold slot_of in E. cbv zeta in E. unfold EXT4_NDIR_BLOCKS in *. repeat case_match; zbool; try done; injection E as <-; (split; [|done]); cbn; unfold EXT4_NDIR_BLOCKS; try lia.
  split; [split; [apply Z.div_pos; lia|apply Z.div_lt_upper_bound; lia]|apply Z.mod_pos_bound; lia].
Qed.

Lemma slot_of_inj fs f1 f2 x : geo fs → 0 ≤ f1 → 0 ≤ f2 → slot_of fs f1 = Some x → slot_of fs f2 = Some x → f1 = f2.
Proof.
  intros Hg H1 H2 E1 E2. pose proof (ptrs_range _ Hg) as [Hp _]. unfold slot_of in *. cbv zeta in *. unfold EXT4_NDIR_BLOCKS in *.
  repeat case_match; zbool; simplify_eq; try lia.
  pose proof (Z.div_mod (f1 - 12 - ptrs fs) (ptrs fs) ltac:(lia)). pose proof (Z.div_mod (f2 - 12 - ptrs fs) (ptrs fs) ltac:(lia)). congruence || nia.
Qed.

(** Reading one pointer of a block. *)
Lemma wp_lift_word i b s (Q : est → Z → Prop) B : geo (e_fs s) → 0 ≤ i < ptrs (e_fs s) → length (B b) = Z.to_nat (block_size (e_fs s)) →
  Q s (fld (word_at i) (B b)) → wp (lift (getf 0 (word_at i) (B b))) s Q.
Proof.
  intros Hg Hi Hl HQ. pose proof (ptrs_range _ Hg) as [_ Eb]. eapply wp_lift; [apply getf_fld|exact HQ]. split; cbn; lia.
Qed.

Lemma blocks_nat s b : geo (e_fs s) → length (blocks s b) = Z.to_nat (block_size (e_fs s)).
Proof. intros Hg. pose proof (blocks_length s b Hg). lia. Qed.

Lemma quiet_geo k s s' : quiet k s s' → geo (e_fs s) → geo (e_fs s').
Proof. intros Hq. by rewrite (q_fs _ _ _ Hq). Qed.

Lemma failed_trans s1 s2 s3 k : quiet k s1 s2 → failed s2 s3 → failed s1 s3.
Proof. intros Hq [m Hm]. exists (m + k)%nat. exact (quiet_trans _ _ _ _ _ Hq Hm). Qed.

Lemma failed_after s1 s2 s3 k : failed s1 s2 → quiet k s2 s3 → failed s1 s3.
Proof. intros [m Hm] Hq. exists (k + m)%nat. pose proof (quiet_trans _ _ _ _ _ Hm Hq) as Ht. by rewrite Nat.add_succ_r in Ht. Qed.

Lemma quiet_failed k s s' : quiet (S k) s s' → failed s s'.
Proof. by exists k. Qed.

Lemma read_pointer_ok K b i s : ok K s → 0 ≤ i < ptrs (e_fs s) →
  wp (read_pointer b i) s (λ s' r, ok K s' ∧ (r = Some (fld (word_at i) (blocks s b)) ∧ quiet 0 s s' ∨ r = None ∧ failed s s')).
Proof.
  intros Hok Hi. pose proof (proj2 Hok) as Hg. pose proof (geo_bs_range _ Hg). apply wp_bind, wp_the_fs, wp_bind. eapply wp_kmalloc; [done|lia| |].
  2: { intros s1 Hok1 Hq. apply wp_ret. split; [done|]. right. split; [done|]. by apply quiet_failed in Hq. }
  intros s1 p Hp Hok1 Hq1. apply wp_bind. eapply wp_read; [done| |].
  2: { intros s2 Hok2 Hq2. apply wp_bind. eapply wp_kfree; [done..|]. intros s3 Hok3 Hq3. apply wp_ret. split; [done|]. right. split; [done|].
    eapply failed_trans, failed_after; [done|by apply quiet_failed in Hq2|done]. }
  intros s2 Hok2 Hq2. rewrite (q_blocks _ _ _ Hq1). pose proof (quiet_trans _ _ _ _ _ Hq1 Hq2) as Hq. apply wp_bind. apply wp_lift_word; rewrite ?(q_fs _ _ _ Hq); [done..|by apply blocks_nat|].
  apply wp_bind. eapply wp_kfree; [done..|]. intros s3 Hok3 Hq3. apply wp_ret. split; [done|]. left. split; [done|]. exact (quiet_trans _ _ _ _ _ Hq Hq3).
Qed.

Lemma wp_kfree2 {A} K p1 p2 (k1 k2 : Z) (m : M A) s (Q : est → A → Prop) : ok (<[p2 := k2]> (<[p1 := k1]> K)) s → K !! p1 = None → <[p1 := k1]> K !! p2 = None →
  (∀ s', ok K s' → quiet 0 s s' → wp m s' Q) → wp (bind (kfree p1) (λ _, bind (kfree p2) (λ _, m))) s Q.
Proof.
  intros Hok H1 [H2 H12]%lookup_insert_None HQ. rewrite insert_insert_ne in Hok by done. apply wp_bind. eapply wp_kfree; [exact Hok|by apply lookup_insert_None|].
  intros s1 Hok1 Hq1. apply wp_bind. eapply wp_kfree; [done..|]. intros s2 Hok2 Hq2. apply HQ; [done|]. exact (quiet_trans _ _ _ _ _ Hq1 Hq2).
Qed.

(** ext4_get_file_block gives the block of the file, but 0 if it fails. *)
Lemma get_file_block_ok K n fb s : ok K s → 0 ≤ fb →
  wp (ext4_get_file_block n fb) s (λ s' x, ok K s' ∧
    (x = file_block (e_fs s) (blocks s) n fb ∧ quiet 0 s s' ∨ x = 0 ∧ EXT4_NDIR_BLOCKS ≤ fb ∧ failed s s')).
Proof.
  intros Hok Hf. pose proof (proj2 Hok) as Hg. pose proof (geo_bs_range _ Hg). pose proof (ptrs_range _ Hg) as [Hp Eb]. unfold file_block, slot_of. cbv zeta. apply wp_bind, wp_the_fs.
  destruct (Z.ltb_spec fb EXT4_NDIR_BLOCKS) as [|Hn]; [apply wp_ret; split; [done|]; left; split; [done|apply quiet_same]|]. cbv zeta. fold (ptrs (e_fs s)).
  destruct (Z.ltb_spec (fb - EXT4_NDIR_BLOCKS) (ptrs (e_fs s))) as [H1|H1].
  { cbn [from_option ptr]. unfold word. destruct (Z.eqb_spec (fld (i_block EXT4_IND_BLOCK) n) 0).
    - apply wp_ret. split; [done|]. left. split; [done|apply quiet_same].
    - apply wp_bind. eapply wp_mono; [apply read_pointer_ok; [done|lia]|]. intros s1 r [Hok1 [[-> Hq]|[-> Hfl]]]; apply wp_ret; (split; [done|]); [by left|by right]. }
  rewrite u32_small by nia. set (k := fb - EXT4_NDIR_BLOCKS - ptrs (e_fs s)). destruct (Z.ltb_spec k (ptrs (e_fs s) * ptrs (e_fs s))) as [H2|H2].
  2: { apply wp_ret. split; [done|]. left. split; [done|apply quiet_same]. }
  assert (0 ≤ k / ptrs (e_fs s) < ptrs (e_fs s)) as Hk1 by (split; [apply Z.div_pos; lia|apply Z.div_lt_upper_bound; lia]).
  assert (0 ≤ k `mod` ptrs (e_fs s) < ptrs (e_fs s)) as Hk2 by (apply Z.mod_pos_bound; lia). cbn [from_option ptr]. unfold word at 2.
  destruct (Z.eqb_spec (fld (i_block EXT4_DIND_BLOCK) n) 0) as [Ez|Ez]; [apply wp_ret; split; [done|]; left; split; [done|apply quiet_same]|].
  apply wp_bind. eapply wp_kmalloc; [done|lia| |].
  2: { intros s1 Hok1 Hq. apply wp_ret. split; [done|]. right. split; [done|]. split; [done|]. by apply quiet_failed in Hq. }
  intros s1 p1 Hp1 Hok1 Hq1. apply wp_bind. eapply wp_read; [done| |].
  2: { intros s2 Hok2 Hq2. apply wp_bind. eapply wp_kfree; [done..|]. intros s3 Hok3 Hq3. apply wp_ret. split; [done|]. right. split; [done|]. split; [done|].
    eapply failed_trans, failed_after; [done|by apply quiet_failed in Hq2|done]. }
  intros s2 Hok2 Hq2. rewrite (q_blocks _ _ _ Hq1). pose proof (quiet_trans _ _ _ _ _ Hq1 Hq2) as Hq12.
  apply wp_bind. apply wp_lift_word; rewrite ?(q_fs _ _ _ Hq12); [done..|by apply blocks_nat|]. set (x := fld _ (blocks s _)). unfold word.
  destruct (Z.eqb_spec x 0).
  { apply wp_bind. eapply wp_kfree; [done..|]. intros s3 Hok3 Hq3. apply wp_ret. split; [done|]. left. split; [done|]. exact (quiet_trans _ _ _ _ _ Hq12 Hq3). }
  apply wp_bind. eapply wp_kmalloc; [done|lia| |].
  2: { intros s3 Hok3 Hq3. apply wp_bind. eapply wp_kfree; [done..|]. intros s4 Hok4 Hq4. apply wp_ret. split; [done|]. right. split; [done|]. split; [done|].
    eapply failed_trans, failed_after; [done|by apply quiet_failed in Hq3|done]. }
  intros s3 p2 Hp2 Hok3 Hq3. pose proof (quiet_trans _ _ _ _ _ Hq12 Hq3) as Hq13. apply wp_bind. eapply wp_read; [done| |].
  2: { intros s4 Hok4 Hq4. eapply wp_kfree2; [done..|]. intros s5 Hok5 Hq5. apply wp_ret. split; [done|]. right. split; [done|]. split; [done|].
    eapply failed_trans, failed_after; [exact Hq13|by apply quiet_failed in Hq4|done]. }
  intros s4 Hok4 Hq4. rewrite (q_blocks _ _ _ Hq13). pose proof (quiet_trans _ _ _ _ _ Hq13 Hq4) as Hq14.
  apply wp_bind. apply wp_lift_word; rewrite ?(q_fs _ _ _ Hq14); [done..|by apply blocks_nat|]. eapply wp_kfree2; [done..|]. intros s5 Hok5 Hq5. apply wp_ret.
  split; [done|]. left. split; [done|]. exact (quiet_trans _ _ _ _ _ Hq14 Hq5).
Qed.

(** ** The invariant *)

Definition free fs B (b : Z) : Prop :=
  ∃ g i, in_group block_pool fs g i ∧ b = block_number fs g i ∧ bit (B (bitmap_block block_pool fs g)) i = false.

(** [IM] gives the inodes in use.  No block is used twice, and none that is
    used is free or holds metadata. *)
Record tree fs B (IM : Z → option (list Z)) : Prop := {
  t_good i n : IM i = Some n → good_inode n;
  t_inj i1 n1 x1 i2 n2 x2 : IM i1 = Some n1 → IM i2 = Some n2 → slot_valid fs x1 → slot_valid fs x2 →
    ptr B n1 x1 ≠ 0 → ptr B n1 x1 = ptr B n2 x2 → i1 = i2 ∧ x1 = x2;
  t_used i n x : IM i = Some n → slot_valid fs x → ptr B n x ≠ 0 → ¬ free fs B (ptr B n x) ∧ ¬ meta fs (ptr B n x);
  t_meta b : meta fs b → ¬ free fs B b;
  t_zero : ¬ free fs B 0;
  t_counts : counts fs B
}.

(** A block that is allocated and not used yet. *)
Record fresh fs B (IM : Z → option (list Z)) (b : Z) : Prop := {
  fr_range : 0 < b < 2 ^ 31;
  fr_meta : ¬ meta fs b;
  fr_unused i n x : IM i = Some n → slot_valid fs x → ptr B n x ≠ b
}.

Lemma slot_valid_same fs fs' x : same_geo fs fs' → slot_valid fs' x ↔ slot_valid fs x.
Proof. intros Hs. unfold slot_valid, ptrs. by rewrite (sg_bs _ _ Hs). Qed.

(** Pointers depend on the inode and the indirect blocks only. *)
Lemma ptr_ext fs B B' n : (∀ x, slot_valid fs x → ¬ data_slot x → ptr B n x ≠ 0 → B' (ptr B n x) = B (ptr B n x)) →
  ∀ x, slot_valid fs x → ptr B' n x = ptr B n x.
Proof.
  intros Hb x Hx.
  assert (∀ b i, (b ≠ 0 → B' b = B b) → word B' b i = word B b i) as Hw.
  { intros b i Hbb. unfold word. destruct (Z.eqb_spec b 0); [done|]. by rewrite Hbb. }
  destruct x as [k| |k| |k|k l]; cbn [ptr]; try done.
  - apply Hw. exact (Hb SInd I (λ x, x)).
  - apply Hw. exact (Hb SDind I (λ x, x)).
  - destruct Hx as [Hk Hl]. assert (word B' (fld (i_block EXT4_DIND_BLOCK) n) k = word B (fld (i_block EXT4_DIND_BLOCK) n) k) as E by (apply Hw; exact (Hb SDind I (λ x, x))).
    rewrite E. apply Hw. exact (Hb (SDindP k) Hk (λ x, x)).
Qed.

Lemma disk_tree_ext fs fs' B B' IM : same_geo fs fs' → tree fs B IM →
  (∀ i n x, IM i = Some n → slot_valid fs x → ¬ data_slot x → ptr B n x ≠ 0 → B' (ptr B n x) = B (ptr B n x)) →
  (∀ b, free fs' B' b → free fs B b ∨ fresh fs B IM b) → (counts fs B → counts fs' B') → tree fs' B' IM.
Proof.
  intros Hs Ht Hb Hf Hc.
  assert (∀ i n x, IM i = Some n → slot_valid fs' x → ptr B' n x = ptr B n x) as Hp.
  { intros i n x Hi Hx. apply (ptr_ext fs); [|by apply (slot_valid_same _ _ _ Hs)]. intros y. by apply Hb with i. }
  assert (∀ b, free fs' B' b → ¬ free fs B b → fresh fs B IM b) as Hf' by (intros b Hb'; destruct (Hf b Hb'); done).
  constructor.
  - apply Ht.
  - intros i1 n1 x1 i2 n2 x2 H1 H2 V1 V2. rewrite (Hp i1), (Hp i2) by done. apply (t_inj _ _ _ Ht); [done..|by apply (slot_valid_same _ _ _ Hs)|by apply (slot_valid_same _ _ _ Hs)].
  - intros i n x Hi Hx. rewrite (Hp i) by done. intros Hne. apply (slot_valid_same _ _ _ Hs) in Hx. destruct (t_used _ _ _ Ht i n x Hi Hx Hne) as [U1 U2].
    split; [|by rewrite (same_geo_meta _ _ _ Hs)]. intros Hfr. by apply (fr_unused _ _ _ _ (Hf' _ Hfr U1) i n x).
  - intros b Hm Hfr. apply (same_geo_meta _ _ _ Hs) in Hm. pose proof (t_meta _ _ _ Ht b Hm) as Hn. by apply (fr_meta _ _ _ _ (Hf' _ Hfr Hn)).
  - intros Hfr. pose proof (fr_range _ _ _ _ (Hf' _ Hfr (t_zero _ _ _ Ht))). lia.
  - apply Hc, Ht.
Qed.

Lemma tree_proper fs B IM IM' : (∀ i, IM' i = IM i) → tree fs B IM → tree fs B IM'.
Proof.
  intros E [T1 T2 T3 T4 T5 T6]. constructor; [..|done|done|done].
  - intros i n. rewrite E. apply T1.
  - intros i1 n1 x1 i2 n2 x2. rewrite !E. apply T2.
  - intros i n x. rewrite E. apply T3.
Qed.

(** A fresh block put into an empty slot. *)
Lemma tree_grow fs B B' IM ino n n' x0 b : tree fs B (<[ino := Some n]> IM) → fresh fs B (<[ino := Some n]> IM) b → ¬ free fs B b → good_inode n' →
  (∀ i m x, i ≠ ino → IM i = Some m → slot_valid fs x → ptr B' m x = ptr B m x) →
  (∀ x, slot_valid fs x → x ≠ x0 → ptr B' n' x = ptr B n x) → ptr B' n' x0 = b →
  (∀ c, free fs B' c → free fs B c) → (counts fs B → counts fs B') → tree fs B' (<[ino := Some n']> IM).
Proof.
  intros Ht Hfr Hnf Hg Ho Hx Hx0 Hf Hcn. pose proof (fr_range _ _ _ _ Hfr) as Hb.
  (* a used slot afterwards is the new one or was used before *)
  assert (∀ i m x, <[ino := Some n']> IM i = Some m → slot_valid fs x → i = ino ∧ x = x0 ∧ ptr B' m x = b ∨
    ∃ m0, <[ino := Some n]> IM i = Some m0 ∧ ptr B' m x = ptr B m0 x) as Hcase.
  { intros i m x Hi Hv. destruct (decide (i = ino)) as [->|Hne].
    - rewrite fn_lookup_insert in Hi. injection Hi as <-. destruct (decide (ptr B' n' x = ptr B n x)) as [E|E].
      + right. exists n. by rewrite fn_lookup_insert.
      + left. split; [done|]. destruct (decide (x = x0)) as [->|Hxx]; [done|]. by destruct E; apply Hx.
    - rewrite fn_lookup_insert_ne in Hi by done. right. exists m. rewrite fn_lookup_insert_ne by done. split; [done|]. by apply Ho with i. }
  constructor.
  - intros i m Hi. destruct (decide (i = ino)) as [->|Hne]; [rewrite fn_lookup_insert in Hi; by injection Hi as <-|].
    rewrite fn_lookup_insert_ne in Hi by done. apply (t_good _ _ _ Ht i). by rewrite fn_lookup_insert_ne.
  - intros i1 m1 x1 i2 m2 x2 H1 H2 V1 V2 Hne E.
    destruct (Hcase _ _ _ H1 V1) as [(-> & -> & E1)|(k1 & K1 & E1)], (Hcase _ _ _ H2 V2) as [(-> & -> & E2)|(k2 & K2 & E2)]; [done|..].
    + exfalso. apply (fr_unused _ _ _ _ Hfr i2 k2 x2 K2 V2). congruence.
    + exfalso. apply (fr_unused _ _ _ _ Hfr i1 k1 x1 K1 V1). congruence.
    + apply (t_inj _ _ _ Ht i1 k1 x1 i2 k2 x2); congruence.
  - intros i m x Hi Hv Hne. destruct (Hcase _ _ _ Hi Hv) as [(-> & -> & E)|(k & Hk & E)]; rewrite E.
    + split; [by intros ?%Hf|apply Hfr].
    + destruct (t_used _ _ _ Ht i k x Hk Hv) as [U1 U2]; [congruence|]. split; [by intros ?%Hf|done].
  - intros c Hm Hc. by apply (t_meta _ _ _ Ht c), Hf.
  - intros Hc. by apply (t_zero _ _ _ Ht), Hf.
  - apply Hcn, Ht.
Qed.

(** The counters stay right when the bitmaps stay. *)
Lemma counts_kept fs B B' : (∀ g, 0 ≤ g < group_count fs → B' (bitmap_block block_pool fs g) = B (bitmap_block block_pool fs g)) → counts fs B → counts fs B'.
Proof. intros Hb [H1 H2]. split; [done|]. intros g Hg. by rewrite Hb, H2. Qed.

(** ** Allocation under the invariant *)

Definition sane (K : gmap Z Z) s : Prop := ok K s ∧ layout (e_fs s).
Definition after s s' : Prop := same_geo (e_fs s) (e_fs s') ∧ (e_faults s ≤ e_faults s')%nat.

Lemma after_refl s : after s s.
Proof. split; [apply same_geo_refl|done]. Qed.

Lemma after_trans s1 s2 s3 : after s1 s2 → after s2 s3 → after s1 s3.
Proof. intros [A1 A2] [B1 B2]. split; [by eapply same_geo_trans|lia]. Qed.

Lemma after_quiet k s s' : quiet k s s' → after s s'.
Proof. intros [E1 E2 E3]. split; [rewrite E1; apply same_geo_refl|lia]. Qed.

Lemma after_failed s s' : failed s s' → after s s'.
Proof. intros [k Hq]. by apply after_quiet in Hq. Qed.

Lemma after_wrote b l s s' : wrote b l s s' → after s s'.
Proof. intros [E1 E2 E3]. split; [rewrite E1; apply same_geo_refl|lia]. Qed.

Lemma sane_after K s s' : ok K s' → after s s' → layout (e_fs s) → sane K s'.
Proof. intros Hok [Hs _] Hl. split; [done|]. by eapply same_geo_layout. Qed.

Lemma in_group_same P fs fs' g i : is_pool P → same_geo fs fs' → in_group P fs' g i ↔ in_group P fs g i.
Proof. intros HP Hs. unfold in_group. rewrite (sg_gc _ _ Hs). destruct HP as [->| ->]; cbn; by rewrite ?(sg_bpg _ _ Hs), ?(sg_ipg _ _ Hs). Qed.

Lemma block_number_same fs fs' g i : same_geo fs fs' → block_number fs' g i = block_number fs g i.
Proof. intros Hs. unfold block_number. by rewrite (sg_first _ _ Hs), (sg_bpg _ _ Hs). Qed.

Lemma block_number_inj fs g i g' i' : geo fs → in_group block_pool fs g i → in_group block_pool fs g' i' →
  block_number fs g i = block_number fs g' i' → g = g' ∧ i = i'.
Proof.
  intros Hg H1 H2 E. destruct (block_number_range fs g i Hg H1) as (_ & A1 & A2). destruct (block_number_range fs g' i' Hg H2) as (_ & B1 & B2).
  rewrite E in A1, A2. split; congruence.
Qed.

(** A change of one bit frees or takes one block. *)
Lemma free_changed g i v s s' c : geo (e_fs s) → layout (e_fs s) → in_group block_pool (e_fs s) g i → bit_changed block_pool g i v s s' →
  free (e_fs s') (blocks s') c ↔ (c = block_number (e_fs s) g i ∧ v = false ∨ c ≠ block_number (e_fs s) g i ∧ free (e_fs s) (blocks s) c).
Proof.
  intros Hg Hl Hin Hc. assert (is_pool block_pool) as HP by (by left). pose proof (bc_geo _ _ _ _ _ _ HP Hg (proj1 (proj1 Hin)) Hc) as Hs. destruct Hc as [_ Ho Hb].
  assert (∀ g' i', in_group block_pool (e_fs s) g' i' → bitmap_block block_pool (e_fs s') g' = bitmap_block block_pool (e_fs s) g' ∧
    bit (blocks s' (bitmap_block block_pool (e_fs s) g')) i' = if bool_decide (g' = g ∧ i' = i) then v else bit (blocks s (bitmap_block block_pool (e_fs s) g')) i') as Hbit.
  { intros g' i' [Hg' Hi']. split; [by apply (sg_blocks _ _ Hs)|]. destruct (decide (g' = g)) as [->|Hne].
    - rewrite Hb by lia. destruct (Z.eqb_spec i' i); [by rewrite bool_decide_eq_true_2|rewrite bool_decide_eq_false_2; [done|naive_solver]].
    - rewrite bool_decide_eq_false_2 by naive_solver. rewrite Ho; [done|]. intros E. destruct Hin as [Hgr _].
      pose proof (ly_inj _ Hl (MBlocks g') (MBlocks g) Hg' Hgr E). congruence. }
  split.
  - intros (g' & i' & Hin'%(in_group_same _ _ _ _ _ HP Hs) & -> & Hf). rewrite (block_number_same _ _ _ _ Hs). destruct (Hbit g' i' Hin') as [E1 E2].
    rewrite E1, E2 in Hf. case_bool_decide as Hc; [left; by destruct Hc as [-> ->]|]. right. split; [|by exists g', i'].
    intros E. by apply Hc, (block_number_inj (e_fs s)).
  - intros [[-> ->]|[Hne (g' & i' & Hin' & -> & Hf)]].
    + exists g, i. destruct (Hbit g i Hin) as [E1 E2]. rewrite E1, E2, bool_decide_eq_true_2 by done. rewrite (block_number_same _ _ _ _ Hs).
      split; [by apply (in_group_same _ _ _ _ _ HP Hs)|done].
    + exists g', i'. destruct (Hbit g' i' Hin') as [E1 E2]. rewrite E1, E2, bool_decide_eq_false_2 by naive_solver. rewrite (block_number_same _ _ _ _ Hs).
      split; [by apply (in_group_same _ _ _ _ _ HP Hs)|done].
Qed.

Definition bitmap fs (b : Z) : Prop := ∃ g, 0 ≤ g < group_count fs ∧ b = bitmap_block block_pool fs g.

Lemma bitmap_meta fs b : bitmap fs b → meta fs b.
Proof. intros (g & Hg & ->). by exists (MBlocks g). Qed.

(** What an allocation or a release of a block leaves alone. *)
Definition bits_only s s' : Prop := ∀ b, ¬ bitmap (e_fs s) b → blocks s' b = blocks s b.

Lemma used_kept fs B IM i n x b : tree fs B IM → IM i = Some n → slot_valid fs x → ptr B n x ≠ 0 → bitmap fs b → ptr B n x ≠ b.
Proof. intros Ht Hi Hv Hne Hb E. apply (t_used _ _ _ Ht i n x Hi Hv Hne). rewrite E. by apply bitmap_meta. Qed.

Lemma bits_only_ptr IM s s' i n x : tree (e_fs s) (blocks s) IM → bits_only s s' → IM i = Some n → slot_valid (e_fs s) x →
  ptr (blocks s') n x = ptr (blocks s) n x.
Proof.
  intros Ht Hb Hi. apply ptr_ext. intros y Hy _ Hne. apply Hb. intros Hm. by apply (used_kept _ _ _ i n y _ Ht Hi Hy Hne Hm).
Qed.

Lemma bitmap_inj fs g g' : layout fs → 0 ≤ g < group_count fs → 0 ≤ g' < group_count fs → bitmap_block block_pool fs g' = bitmap_block block_pool fs g → g' = g.
Proof. intros Hl Hg Hg' E. pose proof (ly_inj _ Hl (MBlocks g') (MBlocks g) Hg' Hg E). congruence. Qed.

(** When no group with a positive counter has a clear bit, no block is free. *)
Lemma not_free_full s c : geo (e_fs s) → counts (e_fs s) (blocks s) → (∀ g, 0 ≤ g < group_count (e_fs s) → full block_pool s g) → ¬ free (e_fs s) (blocks s) c.
Proof.
  intros Hg [_ Hc] Hfull (g & i & [Hr Hi] & -> & Hbit). cbn in Hi. pose proof (geo_bpg _ Hg). specialize (Hc g Hr).
  destruct (Z.eq_dec (count_of (e_fs s) g) 0) as [E0|E0].
  - rewrite (nclear_zero _ (blocks_per_group (e_fs s)) i) in Hbit; [done|congruence|lia].
  - rewrite (Hfull g Hr E0 i) in Hbit; [done|cbn; lia|cbn; lia].
Qed.

Lemma alloc_block_tree K pref s : sane K s →
  wp (ext4_alloc_block pref) s (λ s' r, sane K s' ∧ after s s' ∧ bits_only s s' ∧
    (∀ c, free (e_fs s') (blocks s') c → free (e_fs s) (blocks s) c) ∧ (0 ≤ r → ∃ g i, in_group block_pool (e_fs s) g i ∧ r = block_number (e_fs s) g i) ∧
    ∀ IM, tree (e_fs s) (blocks s) IM → tree (e_fs s') (blocks s') IM ∧
    (r < 0 ∧ (e_faults s' = e_faults s → 0 ≤ pref → pref + group_count (e_fs s) ≤ 2 ^ 32 → ∀ c, ¬ free (e_fs s) (blocks s) c) ∨
     fresh (e_fs s') (blocks s') IM r ∧ ¬ free (e_fs s') (blocks s') r ∧ free (e_fs s) (blocks s) r)).
Proof.
  intros [Hok Hl]. pose proof (proj2 Hok) as Hg. eapply wp_mono; [apply alloc_bit_ok; [by left|done]|]. intros s' r [Hok' [Hf Hs]].
  destruct Hs as [(-> & Ef & Eb & Hfull)|(g & i & Hin & -> & Hbit & Hc)].
  - assert (after s s') as Ha by (split; [rewrite Ef; apply same_geo_refl|done]). split; [by eapply sane_after|]. split; [done|]. split; [intros b _; apply Eb|].
    assert (∀ c, free (e_fs s') (blocks s') c → free (e_fs s) (blocks s) c) as Hsub by (rewrite Ef; intros c (g & i & Hin & -> & Hbit); exists g, i; by rewrite Eb in Hbit).
    split; [done|]. split; [lia|]. intros IM Ht. split.
    + eapply disk_tree_ext; [apply Ha|done|intros; apply Eb|intros b Hb; left; by apply Hsub|]. rewrite Ef. apply counts_kept. intros; apply Eb.
    + left. split; [done|]. intros En Hp1 Hp2 c Hc. apply (not_free_full s c Hg (t_counts _ _ _ Ht)); [|done]. intros g Hgr. by apply Hfull.
  - assert (after s s') as Ha by (split; [exact (bc_geo _ _ _ _ _ _ (or_introl eq_refl) Hg (proj1 (proj1 Hin)) Hc)|done]). split; [by eapply sane_after|]. split; [done|].
    assert (bits_only s s') as Hb by (intros b Hb; apply (bc_other _ _ _ _ _ _ Hc); intros ->; apply Hb; exists g; split; [apply Hin|done]).
    split; [done|]. rewrite (block_pool_number _ _ _ Hg Hin). pose proof (block_number_range _ _ _ Hg Hin) as [Hr _].
    pose proof (first_block_nonneg _ Hg). assert (free (e_fs s) (blocks s) (block_number (e_fs s) g i)) as Hfree by (by exists g, i).
    assert (∀ c, free (e_fs s') (blocks s') c → free (e_fs s) (blocks s) c) as Hsub.
    { intros c Hfc. apply (free_changed g i true s s' c Hg Hl Hin Hc) in Hfc as [[_ ?]|[_ ?]]; done. }
    split; [done|]. split; [intros _; by exists g, i|]. intros IM Ht. assert (tree (e_fs s') (blocks s') IM) as Ht'.
    { eapply disk_tree_ext; [apply Ha|done| |intros b Hfb; left; by apply Hsub|apply (counts_change g i true); [done|intros g' Hg' E; exact (bitmap_inj _ g g' Hl (proj1 Hin) Hg' E)|exact Hin|exact Hbit|exact Hc]]. intros j n x Hj Hx _ Hne. apply Hb. intros Hm. by apply (used_kept _ _ _ j n x _ Ht Hj Hx Hne Hm). }
    split; [done|]. right. split; [|split; [|done]].
    + constructor.
      * destruct (Z.eq_dec (block_number (e_fs s) g i) 0) as [E|]; [|lia]. exfalso. apply (t_zero _ _ _ Ht). by rewrite <- E.
      * rewrite (same_geo_meta _ _ _ (proj1 Ha)). intros Hm. by apply (t_meta _ _ _ Ht _ Hm).
      * intros j n x Hj Hx E. apply (slot_valid_same _ _ _ (proj1 Ha)) in Hx. rewrite (bits_only_ptr IM s s' j) in E by done.
        destruct (t_used _ _ _ Ht j n x Hj Hx) as [U _]; [|rewrite E in U; done]. rewrite E. intros E0. apply (t_zero _ _ _ Ht). by rewrite <- E0.
    + rewrite (free_changed g i true s s' _ Hg Hl Hin Hc). naive_solver.
Qed.

(** The release of a fresh block. *)
Lemma free_block_tree K g i s : sane K s → in_group block_pool (e_fs s) g i →
  wp (ext4_free_block (block_number (e_fs s) g i)) s (λ s' _, sane K s' ∧ after s s' ∧ bits_only s s' ∧
    (∀ c, free (e_fs s') (blocks s') c → free (e_fs s) (blocks s) c ∨ c = block_number (e_fs s) g i) ∧
    ∀ IM, tree (e_fs s) (blocks s) IM → fresh (e_fs s) (blocks s) IM (block_number (e_fs s) g i) →
      ¬ free (e_fs s) (blocks s) (block_number (e_fs s) g i) → tree (e_fs s') (blocks s') IM).
Proof.
  intros [Hok Hl] Hin. pose proof (proj2 Hok) as Hg. eapply wp_mono; [by apply ext4_free_block_ok|]. intros s' r [Hok' [(-> & Ef & Eb & Hlt)|(-> & Ef & Hc)]].
  - assert (after s s') as Ha by (split; [rewrite Ef; apply same_geo_refl|lia]). split; [by eapply sane_after|]. split; [done|]. split; [intros b _; apply Eb|].
    split; [rewrite Ef; intros c (g' & i' & Hin' & -> & Hbit); left; exists g', i'; by rewrite Eb in Hbit|]. intros IM Ht _ _. eapply disk_tree_ext; [apply Ha|done|intros; apply Eb| |rewrite Ef; apply counts_kept; intros; apply Eb].
    rewrite Ef. intros b (g' & i' & Hin' & -> & Hbit). left. exists g', i'. rewrite Eb in Hbit. done.
  - assert (after s s') as Ha by (split; [exact (bc_geo _ _ _ _ _ _ (or_introl eq_refl) Hg (proj1 (proj1 Hin)) Hc)|lia]). split; [by eapply sane_after|]. split; [done|].
    assert (bits_only s s') as Hb by (intros b Hb; apply (bc_other _ _ _ _ _ _ Hc); intros ->; apply Hb; exists g; split; [apply Hin|done]).
    split; [done|]. split; [intros c Hfc; apply (free_changed g i false s s' c Hg Hl Hin Hc) in Hfc as [[-> _]|[_ ?]]; [by right|by left]|].
    intros IM Ht Hfr Hnf. eapply disk_tree_ext; [apply Ha|done| | |].
    + intros j n x Hj Hx _ Hne. apply Hb. intros Hm. by apply (used_kept _ _ _ j n x _ Ht Hj Hx Hne Hm).
    + intros c Hfc. apply (free_changed g i false s s' c Hg Hl Hin Hc) in Hfc as [[-> _]|[_ ?]]; [by right|by left].
    + apply (counts_change g i false); [done|intros g' Hg' E; exact (bitmap_inj _ g g' Hl (proj1 Hin) Hg' E)|done| |done].
      destruct (bit _ i) eqn:E; [done|]. destruct Hnf. by exists g, i.
Qed.

(** ** Files as maps from positions to bytes *)

Definition byte_of fs B n (k : Z) : option Z :=
  let b := file_block fs B n (k / block_size fs) in if b =? 0 then None else B b !! Z.to_nat (k `mod` block_size fs).

(** The fields of an inode that a write does not touch. *)
Definition kept (f : field) : Prop :=
  0 ≤ f_off f ∧ (f_off f + Z.of_nat (f_width f) ≤ 28 ∨ 32 ≤ f_off f ∧ f_off f + Z.of_nat (f_width f) ≤ 40 ∨ 100 ≤ f_off f).

(** A step of a write to file [ino], whose inode in memory goes from [n] to
    [n']: it only adds blocks to the file, changes bytes in [R] only, and
    leaves other files and the inodes on the disk alone. *)
Record moved (IM : Z → option (list Z)) (ino : Z) (R : Z → Prop) s n s' n' : Prop := {
  mv_tree : tree (e_fs s') (blocks s') (<[ino := Some n']> IM);
  mv_meta b : meta (e_fs s) b → ¬ bitmap (e_fs s) b → blocks s' b = blocks s b;
  mv_others i m x : i ≠ ino → IM i = Some m → slot_valid (e_fs s) x → ptr (blocks s) m x ≠ 0 →
    blocks s' (ptr (blocks s) m x) = blocks s (ptr (blocks s) m x);
  mv_grow x : slot_valid (e_fs s) x → ptr (blocks s) n x ≠ 0 → ptr (blocks s') n' x = ptr (blocks s) n x;
  mv_bytes k v : 0 ≤ k → ¬ R k → byte_of (e_fs s) (blocks s) n k = Some v → byte_of (e_fs s') (blocks s') n' k = Some v;
  mv_fields f : kept f → fld f n' = fld f n
}.

Lemma slot_of_same fs fs' fb : same_geo fs fs' → slot_of fs' fb = slot_of fs fb.
Proof. intros Hs. unfold slot_of, ptrs. by rewrite (sg_bs _ _ Hs). Qed.

Lemma bitmap_same fs fs' b : same_geo fs fs' → bitmap fs' b ↔ bitmap fs b.
Proof.
  intros Hs. unfold bitmap. rewrite (sg_gc _ _ Hs). split; intros (g & Hg & ->); exists g; (split; [done|]); [by apply (sg_blocks _ _ Hs)|symmetry; by apply (sg_blocks _ _ Hs)].
Qed.

Lemma moved_others_ptr IM ino R s n s' n' i m x : moved IM ino R s n s' n' → i ≠ ino → IM i = Some m → slot_valid (e_fs s) x →
  ptr (blocks s') m x = ptr (blocks s) m x.
Proof. intros Hm Hne Hi. apply ptr_ext. intros y Hy _. by apply (mv_others _ _ _ _ _ _ _ Hm i). Qed.

Lemma moved_trans IM ino R s1 n1 s2 n2 s3 n3 : same_geo (e_fs s1) (e_fs s2) → moved IM ino R s1 n1 s2 n2 → moved IM ino R s2 n2 s3 n3 → moved IM ino R s1 n1 s3 n3.
Proof.
  intros Hs M1 M2. constructor.
  - apply M2.
  - intros b Hm Hb. rewrite (mv_meta _ _ _ _ _ _ _ M2); [by apply (mv_meta _ _ _ _ _ _ _ M1)|by apply (same_geo_meta _ _ _ Hs)|by rewrite (bitmap_same _ _ _ Hs)].
  - intros i m x Hne Hi Hx Hp. pose proof (moved_others_ptr _ _ _ _ _ _ _ i m x M1 Hne Hi Hx) as E. rewrite <- E at 1.
    rewrite (mv_others _ _ _ _ _ _ _ M2 i m x); [|done|done|by apply (slot_valid_same _ _ _ Hs)|by rewrite E]. rewrite E. by apply (mv_others _ _ _ _ _ _ _ M1 i).
  - intros x Hx Hp. pose proof (mv_grow _ _ _ _ _ _ _ M1 x Hx Hp) as E. rewrite (mv_grow _ _ _ _ _ _ _ M2 x); [done|by apply (slot_valid_same _ _ _ Hs)|by rewrite E].
  - intros k v Hk Hr Hv. apply (mv_bytes _ _ _ _ _ _ _ M2); [done|done|]. by apply (mv_bytes _ _ _ _ _ _ _ M1).
  - intros f Hf. rewrite (mv_fields _ _ _ _ _ _ _ M2) by done. by apply (mv_fields _ _ _ _ _ _ _ M1).
Qed.

(** Bytes are kept when pointers only grow and the data blocks stay. *)
Lemma bytes_kept fs fs' B B' n n' (R : Z → Prop) : geo fs → same_geo fs fs' →
  (∀ x, slot_valid fs x → ptr B n x ≠ 0 → ptr B' n' x = ptr B n x) →
  (∀ x, slot_valid fs x → data_slot x → ptr B n x ≠ 0 → B' (ptr B n x) = B (ptr B n x)) →
  ∀ k v, 0 ≤ k → ¬ R k → byte_of fs B n k = Some v → byte_of fs' B' n' k = Some v.
Proof.
  intros Hg Hs Hgrow Hdata k v Hk _. unfold byte_of, file_block. rewrite (sg_bs _ _ Hs), (slot_of_same _ _ _ Hs). destruct (slot_of fs (k / block_size fs)) as [x|] eqn:E; [|done].
  pose proof (geo_bs_range _ Hg). destruct (slot_of_valid fs (k / block_size fs) x Hg ltac:(apply Z.div_pos; lia) E) as [Hx Hd]. cbn [from_option].
  destruct (Z.eqb_spec (ptr B n x) 0); [done|]. rewrite Hgrow by done. rewrite (proj2 (Z.eqb_neq _ _)) by done. by rewrite Hdata.
Qed.

Lemma moved_refl IM ino R s n : tree (e_fs s) (blocks s) (<[ino := Some n]> IM) → moved IM ino R s n s n.
Proof. by constructor. Qed.

(** Steps that change bitmaps only. *)
Lemma moved_bits IM ino R s n s' : geo (e_fs s) → after s s' → bits_only s s' → tree (e_fs s) (blocks s) (<[ino := Some n]> IM) →
  tree (e_fs s') (blocks s') (<[ino := Some n]> IM) → moved IM ino R s n s' n.
Proof.
  intros Hg [Hs _] Hb Ht Ht'. assert (<[ino := Some n]> IM ino = Some n) as Hn by apply fn_lookup_insert.
  assert (∀ i m x, <[ino := Some n]> IM i = Some m → slot_valid (e_fs s) x → ptr (blocks s) m x ≠ 0 → blocks s' (ptr (blocks s) m x) = blocks s (ptr (blocks s) m x)) as Hk.
  { intros i m x Hi Hx Hne. apply Hb. intros Hm. by apply (used_kept _ _ _ i m x _ Ht Hi Hx Hne Hm). }
  assert (∀ x, slot_valid (e_fs s) x → ptr (blocks s') n x = ptr (blocks s) n x) as Hp by (intros x; by apply (bits_only_ptr _ s s' ino n x Ht Hb)).
  constructor; [done|by intros b _ Hnb; apply Hb| |by intros; apply Hp| |done].
  - intros i m x Hne Hi. apply Hk with i. by rewrite fn_lookup_insert_ne.
  - apply bytes_kept; [done|done|by intros; apply Hp|]. intros x Hx _. by apply (Hk ino n x).
Qed.

Lemma tree_quiet k s s' IM : quiet k s s' → tree (e_fs s) (blocks s) IM → tree (e_fs s') (blocks s') IM.
Proof.
  intros [E1 E2 _] Ht. rewrite E1. eapply disk_tree_ext; [apply same_geo_refl|done|by intros; apply E2| |apply counts_kept; by intros; apply E2]. intros b (g & i & Hin & -> & Hbit). left. exists g, i. by rewrite E2 in Hbit.
Qed.

Lemma moved_quiet IM ino R k s n s' : geo (e_fs s) → quiet k s s' → tree (e_fs s) (blocks s) (<[ino := Some n]> IM) → moved IM ino R s n s' n.
Proof. intros Hg Hq Ht. apply moved_bits; [done|by apply after_quiet in Hq|intros b _; apply Hq|done|by eapply tree_quiet]. Qed.

(** ** Writes *)

(** Writing block [c], which belongs to file [ino] alone and is no data block
    of it yet or is the block written. *)
Definition private IM (ino : Z) s (c : Z) : Prop :=
  ¬ meta (e_fs s) c ∧ ∀ i m x, i ≠ ino → IM i = Some m → slot_valid (e_fs s) x → ptr (blocks s) m x ≠ c.
Definition only_at (c : Z) s s' : Prop := e_fs s' = e_fs s ∧ ∀ d, d ≠ c → blocks s' d = blocks s d.

Lemma only_at_free IM ino c s s' d : private IM ino s c → only_at c s s' → free (e_fs s') (blocks s') d ↔ free (e_fs s) (blocks s) d.
Proof.
  intros [Hm _] [Ef Eb]. rewrite Ef. unfold free.
  assert (∀ g i, in_group block_pool (e_fs s) g i → blocks s' (bitmap_block block_pool (e_fs s) g) = blocks s (bitmap_block block_pool (e_fs s) g)) as Hb.
  { intros g i [Hg _]. apply Eb. intros <-. apply Hm. by exists (MBlocks g). }
  split; intros (g & i & Hin & -> & Hbit); exists g, i; (split; [done|split; [done|]]); [by rewrite <- (Hb g i)|by rewrite (Hb g i)].
Qed.

Lemma only_at_counts IM ino c s s' : private IM ino s c → only_at c s s' → counts (e_fs s) (blocks s) → counts (e_fs s) (blocks s').
Proof. intros [Hm _] [_ Eb]. apply counts_kept. intros g Hg. apply Eb. intros <-. apply Hm. by exists (MBlocks g). Qed.

Lemma only_at_others IM ino c s s' i m x : private IM ino s c → only_at c s s' → i ≠ ino → IM i = Some m → slot_valid (e_fs s) x → ptr (blocks s') m x = ptr (blocks s) m x.
Proof. intros [_ Hp] [_ Eb] Hne Hi. apply ptr_ext. intros y Hy _ _. by apply Eb, (Hp i). Qed.

(** A fresh block becomes the pointer in slot [x0]. *)
Lemma moved_point IM ino R s n s' n' c x0 b : geo (e_fs s) → tree (e_fs s) (blocks s) (<[ino := Some n]> IM) →
  fresh (e_fs s) (blocks s) (<[ino := Some n]> IM) b → ¬ free (e_fs s) (blocks s) b →
  private IM ino s c → only_at c s s' → (∀ x, slot_valid (e_fs s) x → data_slot x → ptr (blocks s) n x ≠ 0 → ptr (blocks s) n x ≠ c) →
  good_inode n' → (∀ x, slot_valid (e_fs s) x → x ≠ x0 → ptr (blocks s') n' x = ptr (blocks s) n x) → ptr (blocks s) n x0 = 0 → ptr (blocks s') n' x0 = b →
  (∀ f, kept f → fld f n' = fld f n) → moved IM ino R s n s' n'.
Proof.
  intros Hg Ht Hfr Hnf Hpr Hon Hdata Hgood Hx Hx0 Hb Hk. pose proof Hon as [Ef Eb].
  assert (∀ x, slot_valid (e_fs s) x → ptr (blocks s) n x ≠ 0 → ptr (blocks s') n' x = ptr (blocks s) n x) as Hgrow.
  { intros x Hv Hne. destruct (decide (x = x0)) as [->|]; [done|by apply Hx]. }
  constructor; [|intros d Hm _; apply Eb; intros ->; by apply Hpr| |done| |done].
  - rewrite Ef. apply (tree_grow (e_fs s) (blocks s) (blocks s') IM ino n n' x0 b Ht Hfr Hnf Hgood); [|done|done| |].
    + intros i m x Hne Hi Hv. by eapply only_at_others.
    + intros d Hd. rewrite <- Ef in Hd. exact (proj1 (only_at_free IM ino c s s' d Hpr Hon) Hd).
    + by apply (only_at_counts IM ino c s s' Hpr Hon).
  - intros i m x Hne Hi Hv Hp. apply Eb. by apply (proj2 Hpr i).
  - rewrite Ef. apply bytes_kept; [done|apply same_geo_refl|done|]. intros x Hv Hd Hne. by apply Eb, Hdata.
Qed.

Lemma fresh_private IM ino s n b : fresh (e_fs s) (blocks s) (<[ino := Some n]> IM) b → private IM ino s b.
Proof. intros Hf. split; [apply Hf|]. intros i m x Hne Hi. apply (fr_unused _ _ _ _ Hf i). by rewrite fn_lookup_insert_ne. Qed.

Lemma fresh_own IM ino s n b x : fresh (e_fs s) (blocks s) (<[ino := Some n]> IM) b → slot_valid (e_fs s) x → ptr (blocks s) n x ≠ b.
Proof. intros Hf. apply (fr_unused _ _ _ _ Hf ino). apply fn_lookup_insert. Qed.

Lemma own_private IM ino s n x : tree (e_fs s) (blocks s) (<[ino := Some n]> IM) → slot_valid (e_fs s) x → ptr (blocks s) n x ≠ 0 → private IM ino s (ptr (blocks s) n x).
Proof.
  intros Ht Hx Hne. assert (<[ino := Some n]> IM ino = Some n) as Hn by apply fn_lookup_insert. split; [by apply (t_used _ _ _ Ht ino n x)|].
  intros i m y Hi Hm Hy E. destruct (t_inj _ _ _ Ht ino n x i m y) as [Ei _]; [done|by rewrite fn_lookup_insert_ne|done..|]. congruence.
Qed.

Lemma own_inj IM ino s n x y : tree (e_fs s) (blocks s) (<[ino := Some n]> IM) → slot_valid (e_fs s) x → slot_valid (e_fs s) y →
  ptr (blocks s) n x ≠ 0 → ptr (blocks s) n x = ptr (blocks s) n y → x = y.
Proof. intros Ht Hx Hy Hne E. by apply (t_inj _ _ _ Ht ino n x ino n y); [apply fn_lookup_insert|apply fn_lookup_insert|..]. Qed.

(** A data block of the file is overwritten. *)
Lemma moved_data IM ino (R : Z → Prop) s n s' fb x l : geo (e_fs s) → tree (e_fs s) (blocks s) (<[ino := Some n]> IM) → 0 ≤ fb →
  slot_of (e_fs s) fb = Some x → ptr (blocks s) n x ≠ 0 → wrote (ptr (blocks s) n x) l s s' →
  (∀ k, 0 ≤ k → k / block_size (e_fs s) = fb → ¬ R k → l !! Z.to_nat (k `mod` block_size (e_fs s)) = blocks s (ptr (blocks s) n x) !! Z.to_nat (k `mod` block_size (e_fs s))) →
  moved IM ino R s n s' n ∧ (∀ k, 0 ≤ k → k / block_size (e_fs s) = fb → byte_of (e_fs s') (blocks s') n k = l !! Z.to_nat (k `mod` block_size (e_fs s))).
Proof.
  intros Hg Ht Hf Ex Hne [Ef Eb _] Hl. set (c := ptr (blocks s) n x) in *. destruct (slot_of_valid _ _ _ Hg Hf Ex) as [Hx Hd].
  pose proof (own_private _ _ _ _ _ Ht Hx Hne) as Hpr. fold c in Hpr.
  assert (only_at c s s') as Hon by (split; [done|]; intros d Hdc; by rewrite Eb, bool_decide_eq_false_2).
  assert (∀ y, slot_valid (e_fs s) y → ptr (blocks s') n y = ptr (blocks s) n y) as Hp.
  { apply ptr_ext. intros y Hy Hyd Hyn. apply Hon. intros E. assert (y = x) as -> by (by eapply own_inj). done. }
  assert (∀ i m y, <[ino := Some n]> IM i = Some m → slot_valid (e_fs s) y → ¬ data_slot y → ptr (blocks s) m y ≠ 0 → blocks s' (ptr (blocks s) m y) = blocks s (ptr (blocks s) m y)) as Hkeep.
  { intros i m y Hi Hy Hyd Hyn. apply Hon. intros E. destruct (t_inj _ _ _ Ht i m y ino n x) as [_ ->]; [done|apply fn_lookup_insert|done..]. }
  split.
  - constructor; [|intros d Hm _; apply Hon; intros ->; by apply Hpr| |by intros; apply Hp| |done].
    + rewrite Ef. eapply disk_tree_ext; [apply same_geo_refl|done|done| |by apply (only_at_counts IM ino c s s' Hpr Hon)]. intros d Hfd. left. apply (proj1 (only_at_free IM ino c s s' d Hpr Hon)). by rewrite Ef.
    + intros i m y Hi Hm Hy Hyn. apply Hon. by apply (proj2 Hpr i).
    + intros k v Hk HR. unfold byte_of, file_block. rewrite Ef. pose proof (geo_bs_range _ Hg). destruct (slot_of (e_fs s) (k / block_size (e_fs s))) as [y|] eqn:Ey; [|done].
      destruct (slot_of_valid (e_fs s) (k / block_size (e_fs s)) y Hg ltac:(apply Z.div_pos; lia) Ey) as [Hy _]. cbn [from_option]. rewrite Hp by done.
      destruct (Z.eqb_spec (ptr (blocks s) n y) 0) as [|Hyn]; [done|]. rewrite Eb. case_bool_decide as Ec; [|done].
      assert (y = x) as -> by (by eapply own_inj). assert (k / block_size (e_fs s) = fb) as Ek by (eapply slot_of_inj; [done|apply Z.div_pos; lia|done..]).
      fold c. by rewrite Hl.
  - intros k Hk Ek. unfold byte_of, file_block. rewrite Ef, Ek, Ex. cbn [from_option]. rewrite Hp by done. fold c. rewrite (proj2 (Z.eqb_neq _ _)) by done.
    by rewrite Eb, bool_decide_eq_true_2.
Qed.

(** ** Changes of the inode *)

Definition off_map (f : field) : Prop := 0 ≤ f_off f ∧ (f_off f + Z.of_nat (f_width f) ≤ 40 ∨ 100 ≤ f_off f).

Lemma block_field_other f v n k : off_map f → 0 ≤ k < 15 → fld (i_block k) (upd f v n) = fld (i_block k) n.
Proof. intros [H1 H2] Hk. apply fld_upd_other; [cbn; lia|done|]. unfold apart. cbn. lia. Qed.

Lemma block_field_same k v n : good_inode n → 0 ≤ k < 15 → 0 ≤ v < 2 ^ 32 → fld (i_block k) (upd (i_block k) v n) = v.
Proof. intros [Hl _] Hk Hv. rewrite fld_upd_same; [by apply Z.mod_small|]. split; cbn [f_off f_width i_block]; [lia|]. rewrite Hl. change (Z.of_nat sizeof_inode) with 116. lia. Qed.

Lemma block_field_ne k j v n : 0 ≤ k < 15 → 0 ≤ j < 15 → k ≠ j → fld (i_block j) (upd (i_block k) v n) = fld (i_block j) n.
Proof. intros Hk Hj Hne. apply fld_upd_other; [cbn; lia|cbn; lia|]. unfold apart. cbn. lia. Qed.

Lemma good_upd f v n : good_inode n → good_inode (upd f v n).
Proof. intros [H1 H2]. split; [by rewrite length_upd|by apply upd_bytes]. Qed.

Lemma ptr_upd_other fs B f v n x : off_map f → slot_valid fs x → ptr B (upd f v n) x = ptr B n x.
Proof.
  intros Hf Hx. unfold EXT4_NDIR_BLOCKS in *. destruct x; cbn [ptr]; rewrite !block_field_other; try done; unfold EXT4_IND_BLOCK, EXT4_DIND_BLOCK; try lia.
  cbn in Hx. unfold EXT4_NDIR_BLOCKS in Hx. lia.
Qed.

Lemma kept_blocks f v n k : kept f → 0 ≤ k < 15 → fld f (upd (i_block k) v n) = fld f n.
Proof. intros [H1 H2] Hk. apply fld_upd_other; [done|cbn; lia|]. unfold apart. cbn. lia. Qed.

Lemma ptr_upd_dir fs B k v n x : slot_valid fs x → 0 ≤ k < 12 → x ≠ SDir k → ptr B (upd (i_block k) v n) x = ptr B n x.
Proof.
  intros Hx Hk Hne. destruct x as [j| |j| |j|j l]; cbn [ptr]; rewrite !block_field_ne; try done; unfold EXT4_IND_BLOCK, EXT4_DIND_BLOCK; try lia; cbn in Hx; unfold EXT4_NDIR_BLOCKS in Hx; try lia.
  intros ->. done.
Qed.

(** A fresh block stays fresh when no slot gets it. *)
Lemma fresh_move fs fs' B B' IM ino n n' b : same_geo fs fs' → fresh fs B (<[ino := Some n]> IM) b →
  (∀ i m x, i ≠ ino → IM i = Some m → slot_valid fs x → ptr B' m x = ptr B m x) →
  (∀ x, slot_valid fs x → ptr B' n' x = ptr B n x ∨ ptr B' n' x ≠ b) → fresh fs' B' (<[ino := Some n']> IM) b.
Proof.
  intros Hs [F1 F2 F3] Ho Hn. constructor; [done|by rewrite (same_geo_meta _ _ _ Hs)|]. intros i m x Hi Hx. apply (slot_valid_same _ _ _ Hs) in Hx.
  destruct (decide (i = ino)) as [->|Hne].
  - rewrite fn_lookup_insert in Hi. injection Hi as <-. destruct (Hn x Hx) as [->|]; [|done]. apply (F3 ino); [apply fn_lookup_insert|done].
  - rewrite fn_lookup_insert_ne in Hi by done. rewrite (Ho i) by done. apply (F3 i); [by rewrite fn_lookup_insert_ne|done].
Qed.

Lemma moved_fresh IM ino R s n s' n' b : after s s' → moved IM ino R s n s' n' → fresh (e_fs s) (blocks s) (<[ino := Some n]> IM) b →
  (∀ x, slot_valid (e_fs s) x → ptr (blocks s') n' x = ptr (blocks s) n x ∨ ptr (blocks s') n' x ≠ b) → fresh (e_fs s') (blocks s') (<[ino := Some n']> IM) b.
Proof. intros Ha Hm Hf Hx. eapply fresh_move; [apply Ha|done| |done]. intros i m x. by apply (moved_others_ptr _ _ _ _ _ _ _ i m x Hm). Qed.

Lemma zero_block_ok K b s : sane K s →
  wp (zero_block b) s (λ s' _, sane K s' ∧ after s s' ∧ (e_faults s' = e_faults s → wrote b (replicate (Z.to_nat (block_size (e_fs s))) 0) s s')).
Proof.
  intros [Hok Hl]. pose proof (proj2 Hok) as Hg. pose proof (geo_bs_range _ Hg). apply wp_bind, wp_the_fs, wp_bind. eapply wp_kmalloc; [done|lia| |].
  2: { intros s1 Hok1 Hq1. apply wp_ret. pose proof (after_quiet _ _ _ Hq1). split; [by eapply sane_after|]. split; [done|]. rewrite (q_faults _ _ _ Hq1). lia. }
  intros s1 p Hp Hok1 Hq1. pose proof (q_fs _ _ _ Hq1) as Ef. apply wp_bind. eapply wp_write; [done|rewrite length_replicate, Ef; lia|apply Forall_replicate; split; lia| |].
  - intros s2 w Hok2 Hw Hw2. eapply wp_kfree; [done..|]. intros s3 Hok3 Hq3. assert (after s s3) as Ha.
    { eapply after_trans; [by eapply after_quiet|]. eapply after_trans; [by eapply after_wrote|by eapply after_quiet]. }
    split; [by eapply sane_after|]. split; [done|]. intros _. destruct Hq1 as [A1 A2 A3], Hw2 as [W1 W2 W3], Hq3 as [C1 C2 C3]. constructor; [congruence| |lia].
    intros b'. by rewrite C2, W2, A2.
  - intros s2 w Hok2 Hw Hq2. eapply wp_kfree; [done..|]. intros s3 Hok3 Hq3. pose proof (quiet_trans _ _ _ _ _ Hq1 (quiet_trans _ _ _ _ _ Hq2 Hq3)) as Hq.
    pose proof (after_quiet _ _ _ Hq). split; [by eapply sane_after|]. split; [done|]. rewrite (q_faults _ _ _ Hq). lia.
Qed.

(** ** ext4_set_file_block *)

Lemma fld_zeros f k : fld f (replicate k 0) = 0.
Proof.
  unfold fld. rewrite drop_replicate, take_replicate. set (m := (_ `min` _)%nat). clearbody m. induction m as [|m IH]; [done|]. cbn [replicate le_get]. by rewrite IH.
Qed.

Lemma point_direct IM ino R s n fb b : geo (e_fs s) → tree (e_fs s) (blocks s) (<[ino := Some n]> IM) → fresh (e_fs s) (blocks s) (<[ino := Some n]> IM) b →
  ¬ free (e_fs s) (blocks s) b → 0 ≤ fb < 12 → ptr (blocks s) n (SDir fb) = 0 →
  moved IM ino R s n s (upd (i_block fb) b n) ∧ ptr (blocks s) (upd (i_block fb) b n) (SDir fb) = b.
Proof.
  intros Hg Ht Hfr Hnf Hfb H0. assert (good_inode n) as Hgood by (apply (t_good _ _ _ Ht ino), fn_lookup_insert). pose proof (fr_range _ _ _ _ Hfr).
  assert (ptr (blocks s) (upd (i_block fb) b n) (SDir fb) = b) as Eb by (apply block_field_same; [done|lia|lia]). split; [|done].
  apply (moved_point IM ino R s n s _ b (SDir fb) b Hg Ht Hfr Hnf); try done.
  - by eapply fresh_private.
  - intros x Hx _ _. by eapply fresh_own.
  - by apply good_upd.
  - intros x Hx Hne. by eapply ptr_upd_dir.
  - intros f Hf. apply kept_blocks; [done|lia].
Qed.

Lemma point_indirect_block IM ino R s n s' c : geo (e_fs s) → tree (e_fs s) (blocks s) (<[ino := Some n]> IM) → fresh (e_fs s) (blocks s) (<[ino := Some n]> IM) c →
  ¬ free (e_fs s) (blocks s) c → ptr (blocks s) n SInd = 0 → wrote c (replicate (Z.to_nat (block_size (e_fs s))) 0) s s' →
  moved IM ino R s n s' (upd (i_block EXT4_IND_BLOCK) c n) ∧
  (∀ x, slot_valid (e_fs s) x → x ≠ SInd → ptr (blocks s') (upd (i_block EXT4_IND_BLOCK) c n) x = ptr (blocks s) n x) ∧
  ptr (blocks s') (upd (i_block EXT4_IND_BLOCK) c n) SInd = c.
Proof.
  intros Hg Ht Hfr Hnf H0 [Ef Eb _]. assert (good_inode n) as Hgood by (apply (t_good _ _ _ Ht ino), fn_lookup_insert). pose proof (fr_range _ _ _ _ Hfr) as Hc.
  unfold EXT4_IND_BLOCK. set (n' := upd (i_block 12) c n). assert (fld (i_block 12) n' = c) as Ei by (apply block_field_same; [done|lia|lia]).
  assert (∀ j, 0 ≤ j < 15 → j ≠ 12 → fld (i_block j) n' = fld (i_block j) n) as Ej by (intros; apply block_field_ne; lia).
  assert (only_at c s s') as Hon by (split; [done|]; intros d Hd; by rewrite Eb, bool_decide_eq_false_2).
  assert (∀ x, slot_valid (e_fs s) x → ptr (blocks s') n x = ptr (blocks s) n x) as Hsame.
  { apply ptr_ext. intros x Hx _ _. apply Hon. by eapply fresh_own. }
  assert (∀ x, slot_valid (e_fs s) x → x ≠ SInd → ptr (blocks s') n' x = ptr (blocks s) n x) as Hx.
  { intros x Hx Hne. rewrite <- (Hsame x Hx). destruct x as [k| |k| |k|k l]; cbn [ptr]; unfold EXT4_IND_BLOCK, EXT4_DIND_BLOCK; try done.
    - apply Ej; cbn in Hx; unfold EXT4_NDIR_BLOCKS in Hx; lia.
    - change (fld (i_block 12) n = 0) in H0. rewrite Ei, H0. unfold word. rewrite Z.eqb_refl. rewrite (proj2 (Z.eqb_neq _ _)) by lia. by rewrite Eb, bool_decide_eq_true_2, fld_zeros.
    - apply Ej; lia.
    - by rewrite Ej by lia.
    - by rewrite Ej by lia. }
  split; [|split; [done|by cbn [ptr]]].
  apply (moved_point IM ino R s n s' n' c SInd c Hg Ht Hfr Hnf); try done.
  - by eapply fresh_private.
  - intros x Hv _ _. by eapply fresh_own.
  - by apply good_upd.
  - intros f Hf. apply kept_blocks; [done|lia].
Qed.

Lemma point_indirect IM ino R s n s' k b : geo (e_fs s) → tree (e_fs s) (blocks s) (<[ino := Some n]> IM) → fresh (e_fs s) (blocks s) (<[ino := Some n]> IM) b →
  ¬ free (e_fs s) (blocks s) b → 0 ≤ k < ptrs (e_fs s) → ptr (blocks s) n SInd ≠ 0 → ptr (blocks s) n (SIndP k) = 0 →
  wrote (ptr (blocks s) n SInd) (upd (word_at k) b (blocks s (ptr (blocks s) n SInd))) s s' →
  moved IM ino R s n s' n ∧ ptr (blocks s') n (SIndP k) = b ∧ ∀ x, slot_valid (e_fs s) x → x ≠ SIndP k → ptr (blocks s') n x = ptr (blocks s) n x.
Proof.
  intros Hg Ht Hfr Hnf Hk Hi H0 [Ef Eb _]. assert (good_inode n) as Hgood by (apply (t_good _ _ _ Ht ino), fn_lookup_insert). pose proof (fr_range _ _ _ _ Hfr) as Hc.
  set (c := ptr (blocks s) n SInd) in *. pose proof (ptrs_range _ Hg) as [Hp Ebs]. pose proof (blocks_length s c Hg) as Hlen.
  assert (only_at c s s') as Hon by (split; [done|]; intros d Hd; by rewrite Eb, bool_decide_eq_false_2).
  assert (∀ x, slot_valid (e_fs s) x → x ≠ SInd → ptr (blocks s) n x ≠ 0 → ptr (blocks s) n x ≠ c) as Hnc.
  { intros x Hx Hne Hn E. apply Hne. by eapply (own_inj IM ino s n x SInd). }
  assert (∀ d j, (d ≠ 0 → d ≠ c) → word (blocks s') d j = word (blocks s) d j) as Hw.
  { intros d j Hd. unfold word. destruct (Z.eqb_spec d 0); [done|]. rewrite (proj2 Hon) by auto. done. }
  assert (∀ j, 0 ≤ j < ptrs (e_fs s) → word (blocks s') c j = if j =? k then b else word (blocks s) c j) as Hci.
  { intros j Hj. unfold word. rewrite (proj2 (Z.eqb_neq _ _)) by done. rewrite Eb, bool_decide_eq_true_2 by done. destruct (Z.eqb_spec j k) as [->|Hjk].
    - rewrite fld_upd_same; [apply Z.mod_small; change (256 ^ Z.of_nat (f_width (word_at k))) with (2 ^ 32); lia|]. unfold within. cbn [f_off f_width word_at]. lia.
    - apply fld_upd_other; unfold apart; cbn [f_off f_width word_at]; lia. }
  assert (ptr (blocks s') n (SIndP k) = b) as Hb by (cbn [ptr]; fold c; change (fld (i_block EXT4_IND_BLOCK) n) with c; rewrite Hci, Z.eqb_refl by done; done).
  assert (∀ x, slot_valid (e_fs s) x → x ≠ SIndP k → ptr (blocks s') n x = ptr (blocks s) n x) as Hother.
  { intros x Hx Hne. destruct x as [j| |j| |j|j l]; cbn [ptr]; try done.
    - change (fld (i_block EXT4_IND_BLOCK) n) with c. rewrite Hci by done. destruct (Z.eqb_spec j k); [congruence|done].
    - apply Hw. by apply (Hnc SDind).
    - destruct Hx as [Hj Hl]. rewrite (Hw _ j); [|by apply (Hnc SDind)]. apply Hw. by apply (Hnc (SDindP j)). }
  split; [|by split]. apply (moved_point IM ino R s n s' n c (SIndP k) b Hg Ht Hfr Hnf); try done.
  - by eapply own_private.
  - intros x Hx Hd Hn. apply Hnc; [done| |done]. by intros ->.
Qed.

Definition nowhere : Z → Prop := λ _, False.
Definition no_space s : Prop := ∀ c, ¬ free (e_fs s) (blocks s) c.

(** Only the slot of block [fb] and the indirect block get a pointer, and only
    bitmaps, the indirect block and blocks that were free are written. *)
Definition set_only (fb : Z) s n s' n' : Prop :=
  (∀ x, slot_valid (e_fs s) x → x ≠ SInd → slot_of (e_fs s) fb ≠ Some x → ptr (blocks s') n' x = ptr (blocks s) n x) ∧
  ∀ c, ¬ bitmap (e_fs s) c → ¬ free (e_fs s) (blocks s) c → c ≠ ptr (blocks s) n SInd → blocks s' c = blocks s c.

(** What setting a block of the file does. *)
Definition set_spec IM (ino fb b : Z) s n s' (w : Z) n' : Prop :=
  w < 0 ∧ n' = n ∧ moved IM ino nowhere s n s' n ∧ fresh (e_fs s') (blocks s') (<[ino := Some n]> IM) b ∧ ¬ free (e_fs s') (blocks s') b ∧
    (EXT4_NDIR_BLOCKS + ptrs (e_fs s) ≤ fb ∨ no_space s') ∧ bits_only s s' ∨
  0 ≤ w ∧ moved IM ino nowhere s n s' n' ∧ file_block (e_fs s') (blocks s') n' fb = b ∧ set_only fb s n s' n'.

Lemma group_bounds fs ino : geo fs → valid_ino fs ino →
  u32 (ino - 1) / inodes_per_group fs = ino_group fs ino ∧ 0 ≤ ino_group fs ino ∧ ino_group fs ino + group_count fs ≤ 2 ^ 32.
Proof.
  intros Hg Hv. destruct (ino_range _ _ Hg Hv) as (H1 & _). pose proof (geo_ipg _ Hg). pose proof (geo_inodes _ Hg). pose proof (geo_gc _ Hg). destruct Hv as [V1 V2].
  assert (group_count fs ≤ group_count fs * inodes_per_group fs) by nia. rewrite u32_small by lia. split; [done|lia].
Qed.

Lemma moved_nowhere IM ino R s n s' n' : moved IM ino nowhere s n s' n' → moved IM ino R s n s' n'.
Proof. intros [M1 M2 M3 M4 M5 M6]. constructor; [done..| |done]. intros k v Hk _. apply M5; [done|exact (λ x, x)]. Qed.

(** The write of a pointer into the indirect block of [n]. *)
Lemma write_pointer_ok K n k b s : sane K s → 0 ≤ k < ptrs (e_fs s) →
  wp (write_pointer n k b) s (λ s' r, sane K s' ∧ after s s' ∧ r.2 = n ∧
        (e_faults s' = e_faults s → 0 ≤ r.1 ∧ wrote (ptr (blocks s) n SInd) (upd (word_at k) b (blocks s (ptr (blocks s) n SInd))) s s')).
Proof.
  intros [Hok Hl] Hk. pose proof (proj2 Hok) as Hg. pose proof (geo_bs_range _ Hg). pose proof (ptrs_range _ Hg) as [Hp Ebs].
  assert (∀ s', ok K s' → failed s s' → sane K s' ∧ after s s' ∧ (e_faults s' = e_faults s → False)) as Hfail.
  { intros s' Hok' Hf. pose proof (after_failed _ _ Hf). split; [by eapply sane_after|]. split; [done|]. destruct Hf as [j Hq]. rewrite (q_faults _ _ _ Hq). lia. }
  apply wp_bind, wp_the_fs, wp_bind. eapply wp_kmalloc; [done|lia| |].
  2: { intros s1 Hok1 Hq1. apply wp_ret. destruct (Hfail s1 Hok1) as (F1 & F2 & F3); [by apply quiet_failed in Hq1|]. naive_solver. }
  intros s1 p Hp1 Hok1 Hq1. cbv zeta. change (fld (i_block EXT4_IND_BLOCK) n) with (ptr (blocks s) n SInd). set (c := ptr (blocks s) n SInd). apply wp_bind. eapply wp_read; [done| |].
  2: { intros s2 Hok2 Hq2. apply wp_bind. eapply wp_kfree; [done..|]. intros s3 Hok3 Hq3. apply wp_ret.
    destruct (Hfail s3 Hok3) as (F1 & F2 & F3); [eapply failed_trans, failed_after; [done|by apply quiet_failed in Hq2|done]|]. naive_solver. }
  intros s2 Hok2 Hq2. pose proof (quiet_trans _ _ _ _ _ Hq1 Hq2) as Hq. rewrite (q_blocks _ _ _ Hq1). pose proof (blocks_length s c Hg) as Hlen.
  apply wp_bind. eapply wp_lift; [apply setf_upd; unfold within; cbn [f_off f_width at_base word_at]; lia|]. change (at_base 0 (word_at k)) with (word_at k).
  apply wp_bind. eapply wp_write; [done|by rewrite length_upd, (q_fs _ _ _ Hq)|apply upd_bytes, dev_blocks_bytes| |].
  - intros s3 w Hok3 Hw Hw3. apply wp_bind. eapply wp_kfree; [done..|]. intros s4 Hok4 Hq4. apply wp_ret.
    assert (after s s4) as Ha by (eapply after_trans; [by eapply after_quiet|]; eapply after_trans; [by eapply after_wrote|by eapply after_quiet]).
    split; [by eapply sane_after|]. split; [done|]. split; [done|]. intros _. split; [done|]. destruct Hq as [A1 A2 A3], Hw3 as [W1 W2 W3], Hq4 as [C1 C2 C3].
    constructor; [congruence| |lia]. intros b'. by rewrite C2, W2, A2.
  - intros s3 w Hok3 Hw Hq3. apply wp_bind. eapply wp_kfree; [done..|]. intros s4 Hok4 Hq4. apply wp_ret.
    destruct (Hfail s4 Hok4) as (F1 & F2 & F3); [eapply failed_trans, failed_after; [exact Hq|by apply quiet_failed in Hq3|done]|]. naive_solver.
Qed.

Lemma indirect_block_ok K n g s : sane K s → good_inode n →
  wp (indirect_block n g) s (λ s' r, sane K s' ∧ after s s' ∧ (∀ n', r = Some n' → good_inode n') ∧ (e_faults s' = e_faults s → 0 ≤ g → g + group_count (e_fs s) ≤ 2 ^ 32 →
    ∀ IM ino b, tree (e_fs s) (blocks s) (<[ino := Some n]> IM) → fresh (e_fs s) (blocks s) (<[ino := Some n]> IM) b → ¬ free (e_fs s) (blocks s) b →
    ∃ n', moved IM ino nowhere s n s' n' ∧ fresh (e_fs s') (blocks s') (<[ino := Some n']> IM) b ∧ ¬ free (e_fs s') (blocks s') b ∧
      (r = None ∧ n' = n ∧ no_space s' ∧ bits_only s s' ∨
       r = Some n' ∧ ptr (blocks s') n' SInd ≠ 0 ∧ (∀ x, slot_valid (e_fs s) x → x ≠ SInd → ptr (blocks s') n' x = ptr (blocks s) n x) ∧
       (ptr (blocks s') n' SInd = ptr (blocks s) n SInd ∨ free (e_fs s) (blocks s) (ptr (blocks s') n' SInd)) ∧
       ∀ d, ¬ bitmap (e_fs s) d → ¬ free (e_fs s) (blocks s) d → blocks s' d = blocks s d))).
Proof.
  intros Hsane Hgood. pose proof (proj2 (proj1 Hsane)) as Hg. unfold indirect_block. destruct (Z.eqb_spec (fld (i_block EXT4_IND_BLOCK) n) 0) as [E0|E0].
  2: { apply wp_ret. split; [done|]. split; [apply after_refl|]. split; [by intros n' [= <-]|]. intros _ _ _ IM ino b Ht Hf Hnf. exists n. split; [by apply moved_refl|]. split; [done|]. split; [done|]. right. split; [done|]. split; [done|]. split; [done|]. split; [by left|done]. }
  apply wp_bind. eapply wp_mono; [by apply alloc_block_tree|]. intros s1 c (Hs1 & Ha1 & Hb1 & Hsub & _ & Htree). pose proof (proj2 (proj1 Hs1)) as Hg1.
  assert (∀ IM ino b, tree (e_fs s) (blocks s) (<[ino := Some n]> IM) → fresh (e_fs s) (blocks s) (<[ino := Some n]> IM) b →
    moved IM ino nowhere s n s1 n ∧ fresh (e_fs s1) (blocks s1) (<[ino := Some n]> IM) b) as Hm1.
  { intros IM ino b Ht Hf. assert (moved IM ino nowhere s n s1 n) as Hm by (apply moved_bits; try done; by apply Htree). split; [done|].
    eapply moved_fresh; [done..|]. intros x Hx. left. by apply (bits_only_ptr (<[ino := Some n]> IM) s s1 ino n x Ht Hb1); [apply fn_lookup_insert|]. }
  destruct (Z.ltb_spec c 0) as [Hc|Hc].
  { apply wp_ret. split; [done|]. split; [done|]. split; [done|]. intros En Hp1 Hp2 IM ino b Ht Hf Hnf. destruct (Hm1 IM ino b Ht Hf) as [M1 F1]. exists n. split; [done|]. split; [done|].
    split; [by intros ?%Hsub|]. left. split; [done|]. split; [done|]. destruct (Htree _ Ht) as [_ [[_ Hfull]|[Hfr _]]]; [split; [intros c' Hc'%Hsub; exact (Hfull En Hp1 Hp2 _ Hc')|done]|]. pose proof (fr_range _ _ _ _ Hfr). lia. }
  apply wp_bind. eapply wp_mono; [by apply zero_block_ok|]. intros s2 _ (Hs2 & Ha2 & Hz). apply wp_ret. split; [done|]. split; [by eapply after_trans|]. split; [intros n' [= <-]; by apply good_upd|].
  intros En Hp1 Hp2 IM ino b Ht Hf Hnf. destruct (Hm1 IM ino b Ht Hf) as [M1 F1]. destruct (Htree _ Ht) as [Ht1 [[Hneg _]|(Hfr & Hnfc & Hcf)]]; [lia|].
  assert (e_faults s2 = e_faults s1) as En2 by (destruct Ha1, Ha2; lia). specialize (Hz En2).
  destruct (point_indirect_block IM ino nowhere s1 n s2 c Hg1 Ht1 Hfr Hnfc E0 Hz) as (M2 & Hx & Hi).
  assert (b ≠ c) as Hbc by (by intros ->). assert (private IM ino s1 c) as Hpr by (by eapply fresh_private).
  assert (only_at c s1 s2) as Hon by (destruct Hz as [Z1 Z2 _]; split; [done|]; intros d Hd; by rewrite Z2, bool_decide_eq_false_2).
  exists (upd (i_block EXT4_IND_BLOCK) c n). split; [eapply moved_trans; [apply Ha1|done|done]|]. split.
  { eapply moved_fresh; [exact Ha2|exact M2|done|]. intros x Hx1. destruct (decide (x = SInd)) as [->|Hne]; [right; congruence|left; by apply Hx]. }
  split; [rewrite (only_at_free IM ino c s1 s2 b Hpr Hon); by intros ?%Hsub|]. right. split; [done|]. split; [rewrite Hi; pose proof (fr_range _ _ _ _ Hfr); lia|].
  split; [|split; [right; by rewrite Hi|intros d Hd1 Hd2; rewrite (proj2 Hon); [by apply Hb1|by intros ->]]].
  intros x Hv Hne. rewrite Hx; [|by apply (slot_valid_same _ _ _ (proj1 Ha1))|done]. by apply (bits_only_ptr (<[ino := Some n]> IM) s s1 ino n x Ht Hb1); [apply fn_lookup_insert|].
Qed.

Lemma file_block_dir fs B n fb : 0 ≤ fb < EXT4_NDIR_BLOCKS → file_block fs B n fb = ptr B n (SDir fb).
Proof. intros Hf. unfold file_block, slot_of. by rewrite (proj2 (Z.ltb_lt _ _)) by lia. Qed.

Lemma file_block_ind fs B n fb : EXT4_NDIR_BLOCKS ≤ fb → fb - EXT4_NDIR_BLOCKS < ptrs fs → file_block fs B n fb = ptr B n (SIndP (fb - EXT4_NDIR_BLOCKS)).
Proof. intros H1 H2. unfold file_block, slot_of. cbv zeta. rewrite (proj2 (Z.ltb_ge _ _)) by lia. by rewrite (proj2 (Z.ltb_lt _ _)) by lia. Qed.

Lemma set_file_block_ok K n fb b ino s : sane K s → 0 ≤ fb → valid_ino (e_fs s) ino → good_inode n →
  wp (ext4_set_file_block n fb b ino) s (λ s' r, sane K s' ∧ after s s' ∧ good_inode r.2 ∧ ∀ IM, fb < EXT4_NDIR_BLOCKS ∨ e_faults s' = e_faults s →
    tree (e_fs s) (blocks s) (<[ino := Some n]> IM) → fresh (e_fs s) (blocks s) (<[ino := Some n]> IM) b → ¬ free (e_fs s) (blocks s) b →
    file_block (e_fs s) (blocks s) n fb = 0 → set_spec IM ino fb b s n s' r.1 r.2).
Proof.
  intros Hsane Hfb Hv Hgood. pose proof (proj2 (proj1 Hsane)) as Hg. pose proof (geo_ipg _ Hg) as Hipg. pose proof (ptrs_range _ Hg) as [Hp _]. destruct (group_bounds _ _ Hg Hv) as (Eg & Hg1 & Hg2).
  apply wp_bind, wp_the_fs, wp_bind, wp_udiv; [lia|]. rewrite Eg. destruct (Z.ltb_spec fb EXT4_NDIR_BLOCKS) as [Hd|Hd].
  { apply wp_ret. split; [done|]. split; [apply after_refl|]. split; [by apply good_upd|]. intros IM _ Ht Hf Hnf H0. rewrite file_block_dir in H0 by lia. unfold EXT4_NDIR_BLOCKS in Hd.
    destruct (point_direct IM ino nowhere s n fb b Hg Ht Hf Hnf ltac:(lia) H0) as [M1 E1]. right. cbn [fst snd]. split; [done|]. split; [done|].
    split; [by rewrite file_block_dir by (unfold EXT4_NDIR_BLOCKS; lia)|]. split; [|done]. intros x Hx _ Hne. apply (ptr_upd_dir (e_fs s)); [done|lia|]. intros ->. apply Hne. unfold slot_of. by rewrite (proj2 (Z.ltb_lt _ _)). }
  cbv zeta. fold (ptrs (e_fs s)). destruct (Z.ltb_spec (fb - EXT4_NDIR_BLOCKS) (ptrs (e_fs s))) as [H1|H1].
  2: { apply wp_ret. split; [done|]. split; [apply after_refl|]. split; [done|]. intros IM _ Ht Hf Hnf H0. left. cbn. split; [lia|]. split; [done|]. split; [by apply moved_refl|].
    split; [done|]. split; [done|]. split; [left; lia|done]. }
  apply wp_bind. eapply wp_mono; [by apply indirect_block_ok|]. intros s1 r (Hs1 & Ha1 & Hg1' & Hi1). pose proof (proj2 (proj1 Hs1)) as Hgeo1. destruct r as [n1|].
  2: { apply wp_ret. split; [done|]. split; [done|]. split; [done|]. intros IM [Hlow|En] Ht Hf Hnf H0; [lia|]. destruct (Hi1 En Hg1 Hg2 IM ino b Ht Hf Hnf) as (n' & M1 & F1 & N1 & [(_ & -> & Hfull & Hbo)|[? _]]); [|done].
    left. cbn. split; [lia|]. split; [done|]. split; [done|]. split; [done|]. split; [done|]. split; [by right|done]. }
  pose proof (same_geo_layout _ _ (proj1 Ha1) (proj2 Hsane)) as Hl1. assert (ptrs (e_fs s1) = ptrs (e_fs s)) as Ep by (unfold ptrs; by rewrite (sg_bs _ _ (proj1 Ha1))).
  eapply wp_mono; [apply write_pointer_ok; [done|rewrite Ep; lia]|]. intros s2 r (Hs2 & Ha2 & Er & Hw). split; [done|]. split; [by eapply after_trans|]. split; [rewrite Er; by apply Hg1'|].
  intros IM [Hlow|En] Ht Hf Hnf H0; [lia|]. assert (e_faults s1 = e_faults s ∧ e_faults s2 = e_faults s1) as [En1 En2] by (destruct Ha1, Ha2; lia).
  destruct (Hi1 En1 Hg1 Hg2 IM ino b Ht Hf Hnf) as (n' & M1 & F1 & N1 & [(? & _)|(E1 & Hi & Hx & Hic & Hfr)]); [done|]. injection E1 as <-. destruct (Hw En2) as [Hw0 Hw2].
  rewrite file_block_ind in H0 by lia. destruct (point_indirect IM ino nowhere s1 n1 s2 (fb - EXT4_NDIR_BLOCKS) b Hgeo1 (mv_tree _ _ _ _ _ _ _ M1) F1 N1) as (M2 & E2 & X2); [rewrite Ep; lia|done| |done|].
  { rewrite Hx; [done|cbn; lia|done]. }
  right. rewrite Er. split; [done|]. split; [eapply moved_trans; [apply Ha1|done|done]|]. split.
  { rewrite file_block_ind; [done|done|]. unfold ptrs. rewrite (sg_bs _ _ (proj1 Ha2)). fold (ptrs (e_fs s1)). lia. }
  split.
  - intros x Hv' Hne Hns. rewrite X2; [by apply Hx|by apply (slot_valid_same _ _ _ (proj1 Ha1))|]. intros ->. apply Hns. unfold slot_of. rewrite (proj2 (Z.ltb_ge _ _)), (proj2 (Z.ltb_lt _ _)) by lia. done.
  - intros c Hc1 Hc2 Hc3. destruct Hw2 as [_ W2 _]. rewrite W2, bool_decide_eq_false_2; [by apply Hfr|]. destruct Hic as [->|Hic]; [done|]. by intros ->.
Qed.

(** ** Writing a file *)

(** An inode with some of the pointers of another. *)
Lemma tree_shrink fs B IM ino n n' : tree fs B (<[ino := Some n]> IM) → good_inode n' → (∀ x, slot_valid fs x → ptr B n' x ≠ 0 → ptr B n' x = ptr B n x) →
  tree fs B (<[ino := Some n']> IM).
Proof.
  intros Ht Hg Hx.
  assert (∀ i m x, <[ino := Some n']> IM i = Some m → slot_valid fs x → ptr B m x ≠ 0 → ∃ m0, <[ino := Some n]> IM i = Some m0 ∧ ptr B m x = ptr B m0 x) as Hc.
  { intros i m x Hi Hv Hne. destruct (decide (i = ino)) as [->|Hni].
    - rewrite fn_lookup_insert in Hi. injection Hi as <-. exists n. rewrite fn_lookup_insert. auto.
    - rewrite fn_lookup_insert_ne in Hi by done. exists m. by rewrite fn_lookup_insert_ne. }
  constructor; [..|exact (t_meta _ _ _ Ht)|exact (t_zero _ _ _ Ht)|exact (t_counts _ _ _ Ht)].
  - intros i m Hi. destruct (decide (i = ino)) as [->|Hni]; [rewrite fn_lookup_insert in Hi; by injection Hi as <-|]. rewrite fn_lookup_insert_ne in Hi by done.
    apply (t_good _ _ _ Ht i). by rewrite fn_lookup_insert_ne.
  - intros i1 m1 x1 i2 m2 x2 H1 H2 V1 V2 Hne E. destruct (Hc _ _ _ H1 V1 Hne) as (k1 & K1 & E1), (Hc _ _ _ H2 V2) as (k2 & K2 & E2); [congruence|].
    apply (t_inj _ _ _ Ht i1 k1 x1 i2 k2 x2); congruence.
  - intros i m x Hi Hv Hne. destruct (Hc _ _ _ Hi Hv Hne) as (k & Hk & E). rewrite E. apply (t_used _ _ _ Ht i k x); congruence.
Qed.

Lemma moved_upd IM ino R s n f v : geo (e_fs s) → tree (e_fs s) (blocks s) (<[ino := Some n]> IM) → off_map f → (∀ g, kept g → apart g f) → moved IM ino R s n s (upd f v n).
Proof.
  intros Hg Ht Hf Hk. assert (∀ x, slot_valid (e_fs s) x → ptr (blocks s) (upd f v n) x = ptr (blocks s) n x) as Hp by (intros; by eapply ptr_upd_other).
  constructor; try done.
  - apply tree_shrink with n; [done|apply good_upd, (t_good _ _ _ Ht ino), fn_lookup_insert|]. auto.
  - auto.
  - apply bytes_kept; [done|apply same_geo_refl|auto|done].
  - intros g Hkg. apply fld_upd_other; [apply Hkg|apply Hf|by apply Hk].
Qed.

Definition one_left s : Prop := ∀ b1 b2, free (e_fs s) (blocks s) b1 → free (e_fs s) (blocks s) b2 → b1 = b2.
Definition whole s (data : list Z) : Prop := Z.of_nat (length data) = block_size (e_fs s) ∧ Forall is_byte data.

Definition block_spec IM (ino fb : Z) s n s' (r : list Z * option (Z * list Z)) : Prop :=
  moved IM ino nowhere s n s' r.1 ∧
  match r.2 with
  | None => e_faults s' = e_faults s → file_block (e_fs s) (blocks s) n fb = 0 ∧ (EXT4_NDIR_BLOCKS + ptrs (e_fs s) ≤ fb ∨ one_left s')
  | Some (x, data) => x ≠ 0 ∧ file_block (e_fs s') (blocks s') r.1 fb = x ∧
      (data = blocks s' x ∨ file_block (e_fs s) (blocks s) n fb = 0 ∧ data = replicate (Z.to_nat (block_size (e_fs s))) 0)
  end.

Lemma file_block_ext fs fs' B B' n fb : geo fs → same_geo fs fs' → 0 ≤ fb → (∀ x, slot_valid fs x → ptr B' n x = ptr B n x) →
  file_block fs' B' n fb = file_block fs B n fb.
Proof.
  intros Hg Hs Hfb Hp. unfold file_block. rewrite (slot_of_same _ _ _ Hs). destruct (slot_of fs fb) as [x|] eqn:E; [|done]. cbn [from_option].
  by apply Hp, (slot_of_valid _ _ _ Hg Hfb E).
Qed.

Lemma quiet_ptr k s s' n x : quiet k s s' → slot_valid (e_fs s) x → ptr (blocks s') n x = ptr (blocks s) n x.
Proof. intros Hq. apply ptr_ext. intros. apply Hq. Qed.

Lemma block_for_write_ok K n fb ino s : sane K s → 0 ≤ fb → valid_ino (e_fs s) ino → good_inode n →
  wp (block_for_write n fb (ino_group (e_fs s) ino) ino) s (λ s' r, sane K s' ∧ after s s' ∧ good_inode r.1 ∧ match r.2 with Some (_, data) => whole s data | None => True end ∧
    ∀ IM, fb < EXT4_NDIR_BLOCKS ∨ e_faults s' = e_faults s → tree (e_fs s) (blocks s) (<[ino := Some n]> IM) → block_spec IM ino fb s n s' r).
Proof.
  intros Hsane Hfb Hv Hgood. pose proof (proj2 (proj1 Hsane)) as Hg. pose proof (geo_bs_range _ Hg) as Hbs. destruct (group_bounds _ _ Hg Hv) as (_ & Hg1 & Hg2). pose proof Hsane as [Hok Hl].
  apply wp_bind, wp_the_fs, wp_bind. eapply wp_mono; [by apply get_file_block_ok|]. intros s1 x [Hok1 Hx]. assert (after s s1) as Ha1 by (destruct Hx as [[_ Hq]|(_ & _ & Hf)]; [by eapply after_quiet|by apply after_failed]).
  assert (sane K s1) as Hs1 by (by eapply sane_after). pose proof (proj2 Hok1) as Hgeo1. pose proof (proj1 Ha1) as Hsg1.
  (* under the hypotheses of the strong part the block is the right one *)
  assert (∀ t, after s1 t → fb < EXT4_NDIR_BLOCKS ∨ e_faults t = e_faults s → x = file_block (e_fs s) (blocks s) n fb ∧ quiet 0 s s1) as Hright.
  { intros t Ht Hor. destruct Hx as [Hx|(-> & Hd & [k Hq])]; [done|]. destruct Hor as [|En]; [lia|]. destruct Ht as [_ Ht]. rewrite (q_faults _ _ _ Hq) in Ht. lia. }
  destruct (Z.eqb_spec x 0) as [->|Hne].
  2: { apply wp_bind. eapply wp_read; [done| |].
    - intros s2 Hok2 Hq2. apply wp_ret. assert (after s s2) as Ha2 by (eapply after_trans; [done|by eapply after_quiet]). split; [by eapply sane_after|]. split; [done|]. cbn [snd fst]. split; [done|].
      split; [split; [rewrite blocks_length by done; apply (sg_bs _ _ Hsg1)|apply dev_blocks_bytes]|]. intros IM Hor Ht. destruct (Hright s2) as [Ex Hq1]; [by eapply after_quiet|done|].
      pose proof (quiet_trans _ _ _ _ _ Hq1 Hq2) as Hq. split; [by eapply moved_quiet|]. split; [done|]. split; [|left; by rewrite (q_blocks _ _ _ Hq2)].
      cbn [fst]. rewrite Ex. apply file_block_ext; [done|by eapply after_quiet|done|]. intros y. by apply quiet_ptr with 0%nat.
    - intros s2 Hok2 Hq2. apply wp_ret. assert (after s s2) as Ha2 by (eapply after_trans; [done|by eapply after_quiet]). split; [by eapply sane_after|]. split; [done|]. split; [done|]. split; [done|].
      intros IM Hor Ht. destruct (Hright s2) as [Ex Hq1]; [by eapply after_quiet|done|]. pose proof (quiet_trans _ _ _ _ _ Hq1 Hq2) as Hq. split; [by eapply moved_quiet|].
      cbn [snd]. intros En. rewrite (q_faults _ _ _ Hq) in En. lia. }
  assert (ino_group (e_fs s) ino + group_count (e_fs s1) ≤ 2 ^ 32) as Hg2' by (by rewrite (sg_gc _ _ Hsg1)).
  assert (∀ t, after s1 t → fb < EXT4_NDIR_BLOCKS ∨ e_faults t = e_faults s → ∀ IM, tree (e_fs s) (blocks s) (<[ino := Some n]> IM) →
    file_block (e_fs s) (blocks s) n fb = 0 ∧ e_faults s1 = e_faults s ∧ moved IM ino nowhere s n s1 n ∧ file_block (e_fs s1) (blocks s1) n fb = 0) as Hstart.
  { intros t Hat Hor IM Ht. destruct (Hright t Hat Hor) as [E0 Hq]. split; [done|]. split; [apply Hq|]. split; [by eapply moved_quiet|].
    rewrite E0. apply file_block_ext; [done|done|done|]. intros y. by apply quiet_ptr with 0%nat. }
  apply wp_bind. eapply wp_mono; [by apply alloc_block_tree|]. intros s2 c (Hs2 & Ha2 & Hb2 & Hsub2 & Hc2 & Htree2). pose proof (proj2 (proj1 Hs2)) as Hgeo2.
  destruct (Z.ltb_spec c 0) as [Hc|Hc].
  { apply wp_ret. split; [done|]. split; [by eapply after_trans|]. split; [done|]. split; [done|]. intros IM Hor Ht. destruct (Hstart s2 Ha2 Hor IM Ht) as (E0 & En1 & M1 & _).
    pose proof (mv_tree _ _ _ _ _ _ _ M1) as Ht1. destruct (Htree2 _ Ht1) as [Ht2 Hcase]. split; [eapply moved_trans; [exact Hsg1|exact M1|by apply moved_bits]|]. cbn [snd].
    intros En. split; [done|]. right. destruct Hcase as [[_ Hfull]|[Hfr _]]; [|pose proof (fr_range _ _ _ _ Hfr); lia]. intros b1 b2 Hb1%Hsub2.
    destruct (Hfull ltac:(lia) Hg1 Hg2' _ Hb1). }
  destruct (Hc2 Hc) as (g & i & Hin & Ec). assert (after s s2) as Ha02 by (by eapply after_trans).
  assert (valid_ino (e_fs s2) ino) as Hv2 by (unfold valid_ino; by rewrite (sg_gc _ _ (proj1 Ha02)), (sg_ipg _ _ (proj1 Ha02))).
  assert (∀ IM, tree (e_fs s1) (blocks s1) (<[ino := Some n]> IM) → file_block (e_fs s1) (blocks s1) n fb = 0 → moved IM ino nowhere s1 n s2 n ∧
    fresh (e_fs s2) (blocks s2) (<[ino := Some n]> IM) c ∧ ¬ free (e_fs s2) (blocks s2) c ∧ file_block (e_fs s2) (blocks s2) n fb = 0) as Hmid.
  { intros IM Ht1 E0. destruct (Htree2 _ Ht1) as [Ht2 [[? _]|(Hfr & Hnf & _)]]; [lia|]. split; [by apply moved_bits|]. split; [done|]. split; [done|]. rewrite <- E0.
    apply file_block_ext; [done|apply Ha2|done|]. intros y. by apply (bits_only_ptr (<[ino := Some n]> IM) s1 s2 ino n y Ht1 Hb2), fn_lookup_insert. }
  apply wp_bind. eapply wp_mono; [by apply set_file_block_ok|]. intros s3 [w n1] (Hs3 & Ha3 & Hgood1 & Hset). cbn [fst snd] in Hset, Hgood1. pose proof (proj2 (proj1 Hs3)) as Hgeo3.
  assert (after s1 s3) as Ha13 by (by eapply after_trans). pose proof (same_geo_trans _ _ _ (proj1 Ha02) (proj1 Ha3)) as Hsg03.
  destruct (Z.ltb_spec w 0) as [Hw|Hw].
  - assert (c = block_number (e_fs s3) g i) as Ec3 by (rewrite (block_number_same _ _ _ _ (proj1 Ha13)); done).
    rewrite Ec3. apply wp_bind. eapply wp_mono; [apply free_block_tree; [done|by apply (in_group_same _ _ _ _ _ (or_introl eq_refl) (proj1 Ha13))]|]. rewrite <- Ec3.
    intros s4 _ (Hs4 & Ha4 & Hb4 & Hsub4 & Htree4). apply wp_ret. assert (after s1 s4) as Ha14 by exact (after_trans _ _ _ Ha13 Ha4). split; [done|]. split; [exact (after_trans _ _ _ Ha1 Ha14)|]. split; [done|]. split; [done|].
    intros IM Hor Ht. destruct (Hstart s4 Ha14 Hor IM Ht) as (E0 & En1 & M1 & E1). destruct (Hmid IM (mv_tree _ _ _ _ _ _ _ M1) E1) as (M2 & Hfr2 & Hnf2 & E2).
    assert (fb < EXT4_NDIR_BLOCKS ∨ e_faults s3 = e_faults s2) as Hor3 by (destruct Hor as [|En]; [by left|right; destruct Ha2, Ha3, Ha4; lia]).
    destruct (Hset IM Hor3 (mv_tree _ _ _ _ _ _ _ M2) Hfr2 Hnf2 E2) as [(_ & -> & M3 & Hfr3 & Hnf3 & Hwhy & _)|[? _]]; [|lia]. cbn [fst snd]. split.
    + eapply moved_trans; [exact Hsg1|exact M1|]. eapply moved_trans; [exact (proj1 Ha2)|exact M2|]. eapply moved_trans; [exact (proj1 Ha3)|exact M3|]. apply moved_bits; [done|done|done|apply M3|].
      apply Htree4; [apply M3|done|done].
    + intros _. split; [done|]. destruct Hwhy as [Hlim|Hno]; [left; unfold ptrs in *; rewrite <- (sg_bs _ _ (proj1 Ha02)); done|]. right.
      intros b1 b2 [F1| ->]%Hsub4 [F2| ->]%Hsub4; try done; by destruct (Hno _ ltac:(eassumption)).
  - apply wp_ret. split; [done|]. split; [exact (after_trans _ _ _ Ha1 Ha13)|]. cbn [fst snd]. split; [by apply good_upd|]. split; [split; [rewrite length_replicate; lia|apply Forall_replicate; split; lia]|].
    intros IM Hor Ht. destruct (Hstart s3 Ha13 Hor IM Ht) as (E0 & En1 & M1 & E1). destruct (Hmid IM (mv_tree _ _ _ _ _ _ _ M1) E1) as (M2 & Hfr2 & Hnf2 & E2).
    assert (fb < EXT4_NDIR_BLOCKS ∨ e_faults s3 = e_faults s2) as Hor3 by (destruct Hor as [|En]; [by left|right; destruct Ha2, Ha3; lia]).
    destruct (Hset IM Hor3 (mv_tree _ _ _ _ _ _ _ M2) Hfr2 Hnf2 E2) as [[? _]|(_ & M3 & E3 & _)]; [lia|]. split; [|split; [|split]]; cbn [fst snd].
    + eapply moved_trans; [exact Hsg1|exact M1|]. eapply moved_trans; [exact (proj1 Ha2)|exact M2|]. eapply moved_trans; [exact (proj1 Ha3)|exact M3|].
      apply moved_upd; [done|apply M3|unfold off_map; cbn; lia|]. intros f [F1 F2]. unfold apart. cbn. lia.
    + pose proof (fr_range _ _ _ _ Hfr2). lia.
    + rewrite <- E3. unfold file_block. destruct (slot_of (e_fs s3) fb) as [y|] eqn:Ey; [|done]. cbn [from_option]. destruct (slot_of_valid _ _ _ Hgeo3 Hfb Ey) as [Hy _].
      eapply ptr_upd_other; [unfold off_map; cbn; lia|done].
    + right. by split.
Qed.

Lemma moved_trans_gen IM ino (R1 R2 R : Z → Prop) s1 n1 s2 n2 s3 n3 : same_geo (e_fs s1) (e_fs s2) → moved IM ino R1 s1 n1 s2 n2 → moved IM ino R2 s2 n2 s3 n3 →
  (∀ k v, 0 ≤ k → ¬ R k → byte_of (e_fs s1) (blocks s1) n1 k = Some v → ¬ R1 k ∧ ¬ R2 k) → moved IM ino R s1 n1 s3 n3.
Proof.
  intros Hs M1 M2 HR. assert (∀ R1 s n s' n', moved IM ino R1 s n s' n' → moved IM ino (λ _, True) s n s' n') as Hall.
  { intros ????? [A1 A2 A3 A4 A5 A6]. by constructor. }
  pose proof (moved_trans _ _ _ _ _ _ _ _ _ Hs (Hall _ _ _ _ _ M1) (Hall _ _ _ _ _ M2)) as [A1 A2 A3 A4 _ A6]. constructor; try done.
  intros k v Hk Hnr Hv. destruct (HR k v Hk Hnr Hv). apply (mv_bytes _ _ _ _ _ _ _ M2); [done|done|]. by apply (mv_bytes _ _ _ _ _ _ _ M1).
Qed.

(** One block of the write loop, from position [pos] on. *)
Lemma write_step IM ino s n s1 n1 x data s2 pos new : geo (e_fs s) → same_geo (e_fs s) (e_fs s1) → geo (e_fs s1) → 0 ≤ pos → whole s data → Forall is_byte new →
  pos `mod` block_size (e_fs s) + Z.of_nat (length new) ≤ block_size (e_fs s) →
  block_spec IM ino (pos / block_size (e_fs s)) s n s1 (n1, Some (x, data)) →
  wrote x (list_inserts (Z.to_nat (pos `mod` block_size (e_fs s))) new data) s1 s2 →
  moved IM ino (λ k, pos ≤ k < pos + Z.of_nat (length new)) s n s2 n1 ∧
  ∀ j, 0 ≤ j < Z.of_nat (length new) → byte_of (e_fs s2) (blocks s2) n1 (pos + j) = new !! Z.to_nat j.
Proof.
  intros Hg Hs Hg1 Hpos [Hlen Hbytes] Hnew Hfit (M1 & Hx & Efb & Hdata) Hw. cbn [fst] in *. pose proof (geo_bs_range _ Hg) as Hbs. set (bs := block_size (e_fs s)) in *.
  assert (block_size (e_fs s1) = bs) as Ebs by apply Hs. set (fb := pos / bs) in *. assert (0 ≤ fb) as Hfb by (apply Z.div_pos; lia).
  pose proof (Z.mod_pos_bound pos bs ltac:(lia)) as Hm. pose proof (Z.div_mod pos bs ltac:(lia)) as Hdm. fold fb in Hdm.
  assert (∃ y, slot_of (e_fs s1) fb = Some y ∧ ptr (blocks s1) n1 y = x) as (y & Ey & Ep).
  { unfold file_block in Efb. destruct (slot_of (e_fs s1) fb) as [y|]; [by exists y|]. cbn in Efb. congruence. }
  set (R2 k := pos ≤ k < pos + Z.of_nat (length new) ∨ file_block (e_fs s) (blocks s) n fb = 0 ∧ k / bs = fb).
  assert (∀ k, 0 ≤ k → k / bs = fb → k = bs * fb + k `mod` bs ∧ 0 ≤ k `mod` bs < bs) as Hk.
  { intros k Hk0 Ek. pose proof (Z.div_mod k bs ltac:(lia)). pose proof (Z.mod_pos_bound k bs ltac:(lia)). rewrite Ek in *. lia. }
  destruct (moved_data IM ino R2 s1 n1 s2 fb y (list_inserts (Z.to_nat (pos `mod` bs)) new data) Hg1 (mv_tree _ _ _ _ _ _ _ M1) Hfb Ey) as [M2 Hb]; [by rewrite Ep|by rewrite Ep| |].
  { rewrite Ep, Ebs. intros k Hk0 Ek HR. destruct (Hk k Hk0 Ek) as [Ekk Hkm]. destruct Hdata as [->|[E0 _]]; [|destruct HR; by right].
    assert (¬ (pos ≤ k < pos + Z.of_nat (length new))) as Hout by (intros Hin; apply HR; by left).
    destruct (Z.ltb_spec k pos); [rewrite list_lookup_inserts_lt by lia|rewrite list_lookup_inserts_ge by lia]; done. }
  split.
  - eapply moved_trans_gen; [exact Hs|exact M1|exact M2|]. intros k v Hk0 Hnr Hv. split; [exact (λ x, x)|]. intros [?|[E0 Ek]]; [done|].
    unfold byte_of in Hv. fold bs in Hv. rewrite Ek, E0, Z.eqb_refl in Hv. done.
  - intros j Hj. assert ((pos + j) / bs = fb) as Ej by (symmetry; apply (Z.div_unique_pos _ _ _ (pos `mod` bs + j)); lia).
    assert ((pos + j) `mod` bs = pos `mod` bs + j) as Ejm by (symmetry; apply (Z.mod_unique_pos _ _ fb); lia).
    rewrite Hb by (rewrite ?Ebs; lia). rewrite Ebs, Ejm. rewrite list_lookup_inserts by lia. f_equal. lia.
Qed.

Lemma valid_ino_after s s' ino : after s s' → valid_ino (e_fs s) ino → valid_ino (e_fs s') ino ∧ ino_group (e_fs s') ino = ino_group (e_fs s) ino.
Proof. intros [Hs _]. unfold valid_ino, ino_group. by rewrite (sg_gc _ _ Hs), (sg_ipg _ _ Hs). Qed.

(** What the loop does from byte [done] of [src] on. *)
Definition loop_spec IM (ino : Z) (src : list Z) (offset done : Z) s n s' (r : list Z * Z) : Prop :=
  moved IM ino (λ k, offset + done ≤ k < offset + r.2) s n s' r.1 ∧
  (∀ j, done ≤ j < r.2 → byte_of (e_fs s') (blocks s') r.1 (offset + j) = src !! Z.to_nat j) ∧
  (e_faults s' = e_faults s → r.2 = Z.of_nat (length src) ∨ EXT4_NDIR_BLOCKS + ptrs (e_fs s) ≤ (offset + r.2) / block_size (e_fs s) ∨ one_left s').

Lemma write_loop_ok K ino src offset k n done s : Forall is_byte src → 0 ≤ offset → offset + Z.of_nat (length src) < 2 ^ 64 → 0 ≤ done ≤ Z.of_nat (length src) →
  Z.of_nat (length src) - done < Z.of_nat k → sane K s → valid_ino (e_fs s) ino → good_inode n →
  wp (write_loop k n (ino_group (e_fs s) ino) ino src offset done) s (λ s' r, sane K s' ∧ after s s' ∧ good_inode r.1 ∧ done ≤ r.2 ≤ Z.of_nat (length src) ∧
    ∀ IM, offset + Z.of_nat (length src) ≤ EXT4_NDIR_BLOCKS * block_size (e_fs s) ∨ e_faults s' = e_faults s →
      tree (e_fs s) (blocks s) (<[ino := Some n]> IM) → loop_spec IM ino src offset done s n s' r).
Proof.
  intros Hsrc Hoff Hmax. revert n done s. induction k as [|k IH]; intros n done s Hdone Hk Hsane Hv Hgood; [lia|]. cbn [write_loop].
  destruct (Z.ltb_spec done (Z.of_nat (length src))) as [Hlt|Hge].
  2: { apply wp_ret. split; [done|]. split; [apply after_refl|]. split; [done|]. cbn [fst snd]. split; [lia|]. intros IM _ Ht. split; [by apply moved_refl|].
    split; [cbn; lia|]. intros _. left. cbn. lia. }
  pose proof (proj2 (proj1 Hsane)) as Hg. pose proof (geo_bs_range _ Hg) as Hbs. set (bs := block_size (e_fs s)) in *. set (pos := offset + done).
  apply wp_bind, wp_the_fs. apply wp_bind, wp_udiv; [fold bs; lia|]. apply wp_bind, wp_umod; [fold bs; lia|]. fold pos. rewrite u64_small by lia. fold bs.
  assert (0 ≤ pos / bs) as Hfb by (apply Z.div_pos; lia). pose proof (Z.mod_pos_bound pos bs ltac:(lia)) as Hm.
  assert (∀ f0 f1 : nat, offset + Z.of_nat (length src) ≤ EXT4_NDIR_BLOCKS * bs ∨ f1 = f0 → pos / bs < EXT4_NDIR_BLOCKS ∨ f1 = f0) as Hdir.
  { intros f0 f1 [Hd|]; [left; apply Z.div_lt_upper_bound; lia|by right]. }
  apply wp_bind. eapply wp_mono; [by apply block_for_write_ok|]. intros s1 [n1 o] (Hs1 & Ha1 & Hgood1 & Hwhole & Hspec). cbn [fst snd] in *. pose proof (proj2 (proj1 Hs1)) as Hg1. destruct o as [[x data]|].
  2: { apply wp_ret. split; [done|]. split; [done|]. split; [done|]. cbn [fst snd]. split; [lia|]. intros IM Hor Ht. destruct (Hspec IM (Hdir _ _ Hor) Ht) as [M1 Hwhy].
    split; [by apply moved_nowhere|]. split; [cbn; lia|]. intros En. right. by apply Hwhy. }
  set (tw := Z.min (bs - pos `mod` bs) (Z.of_nat (length src) - done)). set (new := take (Z.to_nat tw) (drop (Z.to_nat done) src)).
  assert (Z.of_nat (length new) = tw) as Hnew by (unfold new; rewrite length_take, length_drop; lia). assert (Forall is_byte new) as Hnb by (by apply Forall_take, Forall_drop).
  destruct Hwhole as [Hd1 Hd2]. fold bs in Hd1. assert (block_size (e_fs s1) = bs) as Ebs1 by apply Ha1.
  apply wp_bind. eapply wp_lift; [apply set_bytes_ok; lia|]. apply wp_bind. eapply wp_write; [apply Hs1|rewrite length_inserts; lia|by apply inserts_bytes| |].
  2: { intros s2 w Hok2 Hw Hq2. rewrite (proj2 (Z.ltb_lt _ _)) by done. apply wp_ret. assert (after s s2) as Ha2 by (eapply after_trans; [done|by eapply after_quiet]).
    split; [by eapply sane_after, Hsane|]. split; [done|]. split; [done|]. cbn [fst snd]. split; [lia|]. intros IM Hor Ht.
    assert (pos / bs < EXT4_NDIR_BLOCKS ∨ e_faults s1 = e_faults s) as Hor1 by (destruct (Hdir _ _ Hor) as [|En]; [by left|right; destruct Ha1; rewrite (q_faults _ _ _ Hq2) in En; lia]).
    destruct (Hspec IM Hor1 Ht) as [M1 _]. split; [apply moved_nowhere; eapply moved_trans; [apply Ha1|done|]; eapply moved_quiet; [done|done|apply M1]|]. split; [cbn; lia|].
    intros En. exfalso. rewrite (q_faults _ _ _ Hq2) in En. destruct Ha1. lia. }
  intros s2 w Hok2 Hw Hw2. rewrite (proj2 (Z.ltb_ge _ _)) by done. assert (after s s2) as Ha2 by (eapply after_trans; [done|by eapply after_wrote]).
  destruct (valid_ino_after _ _ _ Ha2 Hv) as [Hv2 Eg2]. rewrite <- Eg2. assert (sane K s2) as Hs2 by (by eapply sane_after, Hsane).
  eapply wp_mono; [apply IH; [lia|lia|done..]|]. intros s3 [n3 fin] (Hs3 & Ha3 & Hgood3 & Hfin & Hrest). cbn [fst snd] in *. split; [done|]. split; [by eapply after_trans|]. split; [done|]. split; [lia|].
  intros IM Hor Ht. assert (pos / bs < EXT4_NDIR_BLOCKS ∨ e_faults s1 = e_faults s) as Hor1.
  { destruct (Hdir _ _ Hor) as [|En]; [by left|]. right. destruct Ha1, Ha3. rewrite (w_faults _ _ _ _ Hw2) in *. lia. }
  assert (offset + Z.of_nat (length src) ≤ EXT4_NDIR_BLOCKS * block_size (e_fs s2) ∨ e_faults s3 = e_faults s2) as Hor2.
  { rewrite (sg_bs _ _ (proj1 Ha2)). destruct Hor as [|En]; [by left|]. right. destruct Ha2, Ha3. lia. }
  destruct (write_step IM ino s n s1 n1 x data s2 pos new Hg (proj1 Ha1) Hg1) as [M2 B2]; try done; fold bs; [lia|lia|by apply Hspec|].
  destruct (Hrest IM Hor2 (mv_tree _ _ _ _ _ _ _ M2)) as (M3 & B3 & W3). cbn [fst snd] in *.
  split; [|split]; cbn [fst snd].
  - eapply moved_trans_gen; [apply Ha2|exact M2|exact M3|]. intros j v Hj Hnr _. unfold pos in *. lia.
  - intros j Hj. destruct (Z.ltb_spec j (done + tw)) as [Hj1|Hj1]; [|apply B3; lia].
    assert (src !! Z.to_nat j = new !! Z.to_nat (j - done)) as Enew by (unfold new; rewrite lookup_take_lt, lookup_drop by lia; f_equal; lia).
    destruct (lookup_lt_is_Some_2 new (Z.to_nat (j - done))) as [v Ev]; [lia|]. rewrite Enew, Ev. apply (mv_bytes _ _ _ _ _ _ _ M3); [lia|lia|].
    replace (offset + j) with (pos + (j - done)) by (unfold pos; lia). rewrite B2 by lia. done.
  - intros En. assert (e_faults s3 = e_faults s2) as En2 by (destruct Ha2, Ha3; lia). destruct (W3 En2) as [W|[W|W]]; [by left| |by right; right]. right. left.
    unfold ptrs in *. by rewrite (sg_bs _ _ (proj1 Ha2)) in W.
Qed.

(** ** The file system on the disk *)

(** An inode is in use when its bit is set. *)
Definition live fs B (ino : Z) : bool :=
  (1 <=? ino) && (ino <=? group_count fs * inodes_per_group fs) && bit (B (bitmap_block inode_pool fs (ino_group fs ino))) (ino_index fs ino).
Definition inodes fs B (ino : Z) : option (list Z) := if live fs B ino then Some (disk_inode fs B ino) else None.

Definition fs_inv (K : gmap Z Z) s : Prop := sane K s ∧ tree (e_fs s) (blocks s) (inodes (e_fs s) (blocks s)).

Lemma live_valid fs B ino : live fs B ino = true → valid_ino fs ino.
Proof. unfold live. intros Hl. zbool. by split. Qed.

Lemma ino_block_meta fs ino : geo fs → valid_ino fs ino → ∃ g k, meta_valid fs (MTable g k) ∧ ino_block fs ino = meta_at fs (MTable g k).
Proof. intros Hg Hv. destruct (ino_range _ _ Hg Hv) as (H1 & _ & H3 & _). by exists (ino_group fs ino), ((ino_index fs ino * inode_size fs) / block_size fs). Qed.

Lemma table_not_bitmap fs b m : layout fs → meta_valid fs m → b = meta_at fs m → (∀ g, m ≠ MBlocks g) → ¬ bitmap fs b.
Proof. intros Hl Hm -> Hne (g & Hg & E). by apply (Hne g), (ly_inj _ Hl m (MBlocks g)). Qed.

(** Inodes depend on the metadata only. *)
Lemma inodes_same s s' i : geo (e_fs s) → layout (e_fs s) → after s s' → (∀ b, meta (e_fs s) b → ¬ bitmap (e_fs s) b → blocks s' b = blocks s b) →
  inodes (e_fs s') (blocks s') i = inodes (e_fs s) (blocks s) i.
Proof.
  intros Hg Hl [Hs _] Hb.
  assert (ino_group (e_fs s') i = ino_group (e_fs s) i) as E1 by (unfold ino_group; by rewrite (sg_ipg _ _ Hs)).
  assert (ino_index (e_fs s') i = ino_index (e_fs s) i) as E2 by (unfold ino_index; by rewrite (sg_ipg _ _ Hs)).
  unfold inodes, live. rewrite (sg_gc _ _ Hs), (sg_ipg _ _ Hs), E1, E2.
  destruct ((1 <=? i) && (i <=? group_count (e_fs s) * inodes_per_group (e_fs s))) eqn:Ev; [|done]. zbool. assert (valid_ino (e_fs s) i) as Hv by done.
  destruct (ino_range _ _ Hg Hv) as (G1 & _ & G3 & _). rewrite (sg_inodes _ _ Hs) by done.
  rewrite (Hb (bitmap_block inode_pool (e_fs s) (ino_group (e_fs s) i))); [|by exists (MInodes (ino_group (e_fs s) i))|by eapply (table_not_bitmap _ _ (MInodes (ino_group (e_fs s) i)))].
  cbn [andb]. destruct (bit _ _); [|done]. f_equal. unfold disk_inode, ino_offset, ino_block. rewrite E1, E2, (sg_isize _ _ Hs), (sg_bs _ _ Hs), (sg_table _ _ Hs) by done.
  f_equal. f_equal. apply Hb; [exists (MTable (ino_group (e_fs s) i) ((ino_index (e_fs s) i * inode_size (e_fs s)) / block_size (e_fs s))); done|].
  by eapply (table_not_bitmap _ _ (MTable (ino_group (e_fs s) i) ((ino_index (e_fs s) i * inode_size (e_fs s)) / block_size (e_fs s)))).
Qed.

(** Different inodes are in different places. *)
Lemma ino_places fs i j : geo fs → layout fs → valid_ino fs i → valid_ino fs j → i ≠ j → ino_block fs i = ino_block fs j →
  ino_offset fs i + Z.of_nat sizeof_inode ≤ ino_offset fs j ∨ ino_offset fs j + Z.of_nat sizeof_inode ≤ ino_offset fs i.
Proof.
  intros Hg Hl Hi Hj Hne E. destruct (ino_range _ _ Hg Hi) as (I1 & I2 & I3 & _), (ino_range _ _ Hg Hj) as (J1 & J2 & J3 & _).
  pose proof (ly_inj _ Hl (MTable (ino_group fs i) ((ino_index fs i * inode_size fs) / block_size fs)) (MTable (ino_group fs j) ((ino_index fs j * inode_size fs) / block_size fs))
    (conj I1 I3) (conj J1 J3) E) as Em. injection Em as Eg Eq. pose proof (geo_ipg _ Hg). pose proof (geo_isize _ Hg) as Hs. pose proof (geo_bs_range _ Hg).
  change (Z.of_nat sizeof_inode) with 116 in *. unfold ino_group in Eg.
  assert (ino_index fs i ≠ ino_index fs j) as Hni.
  { unfold ino_index. intros Ei. apply Hne. pose proof (Z.div_mod (i - 1) (inodes_per_group fs) ltac:(lia)). pose proof (Z.div_mod (j - 1) (inodes_per_group fs) ltac:(lia)). rewrite Eg, Ei in *. lia. }
  unfold ino_offset. pose proof (Z.div_mod (ino_index fs i * inode_size fs) (block_size fs) ltac:(lia)) as Di. pose proof (Z.div_mod (ino_index fs j * inode_size fs) (block_size fs) ltac:(lia)) as Dj.
  rewrite Eq in Di. destruct (Z.lt_trichotomy (ino_index fs i) (ino_index fs j)) as [Hlt|[?|Hlt]]; [left|lia|right].
  - assert ((ino_index fs i + 1) * inode_size fs ≤ ino_index fs j * inode_size fs) by (apply Z.mul_le_mono_nonneg_r; lia). lia.
  - assert ((ino_index fs j + 1) * inode_size fs ≤ ino_index fs i * inode_size fs) by (apply Z.mul_le_mono_nonneg_r; lia). lia.
Qed.

(** After ext4_write_inode the disk has the new inode, and the others as before. *)
Lemma inodes_written s s' ino n i : geo (e_fs s) → layout (e_fs s) → live (e_fs s) (blocks s) ino = true → good_inode n →
  wrote (ino_block (e_fs s) ino) (list_inserts (Z.to_nat (ino_offset (e_fs s) ino)) n (blocks s (ino_block (e_fs s) ino))) s s' →
  inodes (e_fs s') (blocks s') i = (<[ino := Some n]> (inodes (e_fs s) (blocks s))) i.
Proof.
  intros Hg Hl Hlive [Hn _] [Ef Eb _]. pose proof (live_valid _ _ _ Hlive) as Hv. destruct (ino_range _ _ Hg Hv) as (_ & _ & _ & _ & O1 & O2).
  assert (∀ j, valid_ino (e_fs s) j → live (e_fs s) (blocks s') j = live (e_fs s) (blocks s) j) as Elive.
  { intros j Hj. destruct (ino_range _ _ Hg Hj) as (J1 & _). unfold live. rewrite Eb, bool_decide_eq_false_2; [done|]. intros E. destruct (ino_block_meta _ _ Hg Hv) as (g & k & Hm & Em).
    rewrite Em in E. by pose proof (ly_inj _ Hl (MInodes (ino_group (e_fs s) j)) (MTable g k) J1 Hm E). }
  rewrite Ef. destruct (decide (i = ino)) as [->|Hne].
  - rewrite fn_lookup_insert. unfold inodes. rewrite Elive, Hlive by done. f_equal. unfold disk_inode. rewrite Eb, bool_decide_eq_true_2 by done. rewrite <- Hn.
    apply slice_inserts_same. pose proof (blocks_length s (ino_block (e_fs s) ino) Hg). lia.
  - rewrite fn_lookup_insert_ne by done. unfold inodes. destruct (live (e_fs s) (blocks s) i) eqn:Ei.
    + pose proof (live_valid _ _ _ Ei) as Hvi. rewrite Elive, Ei by done. f_equal. unfold disk_inode. rewrite Eb. case_bool_decide as Eblk; [|done]. rewrite Eblk.
      destruct (ino_range _ _ Hg Hvi) as (_ & _ & _ & _ & P1 & P2). apply slice_inserts_other. destruct (ino_places _ _ _ Hg Hl Hvi Hv Hne Eblk); lia.
    + destruct ((1 <=? i) && (i <=? group_count (e_fs s) * inodes_per_group (e_fs s))) eqn:Ev; [|unfold live; by rewrite Ev].
      zbool. by rewrite Elive, Ei.
Qed.
End Files.
