(* ===== verification/Ext4Correct.v ===== *)
(** * ext4: what the driver does to files

    The theorems on reading and writing files and on the allocation of blocks,
    with their witnesses on a small disk in memory, and the runs in which the
    code does not do what it means to. *)

From stdpp Require Import functions.
From S2P Require Import Prelude KHeap Kmalloc Ext4 Ext4Alloc Ext4Files.

Section Correct.
Context {H D : Type} `{!KernelHeap H} `{!BlockDevice D} `{!BlockLaws D}.
#[local] Abbreviation est := (ext4_state H D).
Implicit Types (s : est) (n : list Z).

(** ** Writing *)

Lemma byte_of_ext fs fs' B B' n n' k : geo fs → same_geo fs fs' → 0 ≤ k → (∀ x, slot_valid fs x → ptr B' n' x = ptr B n x) →
  (∀ x, slot_valid fs x → ptr B n x ≠ 0 → B' (ptr B n x) = B (ptr B n x)) → byte_of fs' B' n' k = byte_of fs B n k.
Proof.
  intros Hg Hs Hk Hp Hb. unfold byte_of, file_block. pose proof (geo_bs_range _ Hg). rewrite (sg_bs _ _ Hs), (slot_of_same _ _ _ Hs).
  destruct (slot_of fs (k / block_size fs)) as [x|] eqn:E; [|done]. cbn [from_option]. destruct (slot_of_valid fs (k / block_size fs) x Hg) as [Hx _]; [apply Z.div_pos; lia|done|].
  rewrite Hp by done. destruct (Z.eqb_spec (ptr B n x) 0); [done|]. by rewrite Hb.
Qed.

(** The write of a metadata block that is no block bitmap. *)
Lemma meta_write IM c l s s' : geo (e_fs s) → meta (e_fs s) c → ¬ bitmap (e_fs s) c → wrote c l s s' → tree (e_fs s) (blocks s) IM →
  tree (e_fs s') (blocks s') IM ∧ (∀ b, free (e_fs s') (blocks s') b → free (e_fs s) (blocks s) b) ∧ ∀ i m k, IM i = Some m → 0 ≤ k → byte_of (e_fs s') (blocks s') m k = byte_of (e_fs s) (blocks s) m k.
Proof.
  intros Hg Hm Hnb [Ef Eb _] Ht.
  assert (∀ i m x, IM i = Some m → slot_valid (e_fs s) x → ptr (blocks s) m x ≠ 0 → blocks s' (ptr (blocks s) m x) = blocks s (ptr (blocks s) m x)) as Hk.
  { intros i m x Hi Hx Hne. rewrite Eb, bool_decide_eq_false_2; [done|]. intros E. apply (t_used _ _ _ Ht i m x Hi Hx Hne). by rewrite E. }
  assert (∀ g, 0 ≤ g < group_count (e_fs s) → blocks s' (bitmap_block block_pool (e_fs s) g) = blocks s (bitmap_block block_pool (e_fs s) g)) as Hbm.
  { intros g Hgr. rewrite Eb, bool_decide_eq_false_2; [done|]. intros E. apply Hnb. by exists g. }
  assert (∀ b, free (e_fs s') (blocks s') b → free (e_fs s) (blocks s) b) as Hfree.
  { rewrite Ef. intros b (g & i & Hin & -> & Hbit). exists g, i. rewrite Hbm in Hbit by apply Hin. done. }
  split; [|split; [done|]].
  - rewrite Ef in *. eapply disk_tree_ext; [apply same_geo_refl|done|intros i m x Hi Hx _; by apply (Hk i)|intros b Hb; left; by apply Hfree|by apply counts_kept].
  - intros i m k Hi Hk0. rewrite Ef. apply byte_of_ext; [done|apply same_geo_refl|done| |intros x Hx; by apply (Hk i)]. apply ptr_ext. intros x Hx _. by apply (Hk i).
Qed.

(** Old pointers are still there when the map of a file has grown. *)
Lemma ptr_old fs B B' n n' : (∀ x, slot_valid fs x → ptr B n x ≠ 0 → ptr B' n' x = ptr B n x) → ∀ x, slot_valid fs x → ptr B n x ≠ 0 → ptr B' n x = ptr B n x.
Proof.
  intros Hgrow x Hx Hne. assert (∀ b i, word B b i ≠ 0 → b ≠ 0) as Hw by (intros b i Hwd ->; done). destruct x as [k| |k| |k|k l]; try done.
  - pose proof (Hgrow SInd I) as G1. pose proof (Hgrow (SIndP k) Hx Hne) as G2. cbn [ptr] in *. rewrite G1 in G2 by (by eapply Hw). done.
  - pose proof (Hgrow SDind I) as G1. pose proof (Hgrow (SDindP k) Hx Hne) as G2. cbn [ptr] in *. rewrite G1 in G2 by (by eapply Hw). done.
  - pose proof (Hgrow SDind I) as G1. destruct Hx as [Hk Hl]. pose proof (Hgrow (SDindP k) Hk) as G2. pose proof (Hgrow (SDindPP k l) (conj Hk Hl) Hne) as G3. cbn [ptr] in *.
    assert (word B (fld (i_block EXT4_DIND_BLOCK) n) k ≠ 0) as Hn1 by (by eapply Hw). assert (fld (i_block EXT4_DIND_BLOCK) n ≠ 0) as Hn2 by (by eapply Hw).
    specialize (G1 Hn2). specialize (G2 Hn1). rewrite G1 in *. by rewrite G2 in *.
Qed.

(** The pointers of the old inode are pointers of the new one. *)
Lemma ptr_new fs B B' n n' : (∀ x, slot_valid fs x → ptr B n x ≠ 0 → ptr B' n' x = ptr B n x) → ∀ x, slot_valid fs x → ptr B' n x ≠ 0 → ptr B' n x = ptr B' n' x.
Proof.
  intros Hgrow x Hx Hne. assert (∀ b i, word B' b i ≠ 0 → b ≠ 0) as Hw by (intros b i Hwd ->; done).
  pose proof (Hgrow SInd I) as G1. pose proof (Hgrow SDind I) as G2. cbn [ptr] in G1, G2. destruct x as [k| |k| |k|k l]; cbn [ptr] in *.
  - symmetry. by apply (Hgrow (SDir k)).
  - symmetry. by apply G1.
  - by rewrite G1 by (by eapply Hw).
  - symmetry. by apply G2.
  - by rewrite G2 by (by eapply Hw).
  - assert (word B' (fld (i_block EXT4_DIND_BLOCK) n) k ≠ 0) as Hn1 by (by eapply Hw). by rewrite G2 by (by eapply Hw).
Qed.

Definition size_of n : Z := fld i_size_lo n.

(** The other files are as they were. *)
Definition others_same (ino : Z) s s' : Prop := ∀ j, j ≠ ino → inodes (e_fs s') (blocks s') j = inodes (e_fs s) (blocks s) j ∧
  ∀ m k, inodes (e_fs s) (blocks s) j = Some m → 0 ≤ k → byte_of (e_fs s') (blocks s') m k = byte_of (e_fs s) (blocks s) m k.

(** What a write does to the file: in any case a byte is as before or the new
    one; without failures it writes [r] bytes, all unless the file gets too
    large or at most one block is left. *)
Definition file_written (src : list Z) (offset : Z) s n s' n' (r : Z) : Prop :=
  (∀ k v, 0 ≤ k → byte_of (e_fs s) (blocks s) n k = Some v →
     byte_of (e_fs s') (blocks s') n' k = Some v ∨
     offset ≤ k < offset + Z.of_nat (length src) ∧ byte_of (e_fs s') (blocks s') n' k = src !! Z.to_nat (k - offset)) ∧
  (e_faults s' = e_faults s →
     0 ≤ r ≤ Z.of_nat (length src) ∧
     (∀ j, 0 ≤ j < r → byte_of (e_fs s') (blocks s') n' (offset + j) = src !! Z.to_nat j) ∧
     (∀ k v, 0 ≤ k → ¬ (offset ≤ k < offset + r) → byte_of (e_fs s) (blocks s) n k = Some v → byte_of (e_fs s') (blocks s') n' k = Some v) ∧
     size_of n' = Z.max (size_of n) (offset + r) ∧
     (r = Z.of_nat (length src) ∨ EXT4_NDIR_BLOCKS + ptrs (e_fs s) ≤ (offset + r) / block_size (e_fs s) ∨ one_left s')).

Definition write_spec (K : gmap Z Z) (ino : Z) (src : list Z) (offset : Z) s s' (r : Z) : Prop :=
  fs_inv K s' ∧ others_same ino s s' ∧
  ∃ n n', inodes (e_fs s) (blocks s) ino = Some n ∧ inodes (e_fs s') (blocks s') ino = Some n' ∧ file_written src offset s n s' n' r.

Lemma inodes_quiet k s s' i : quiet k s s' → inodes (e_fs s') (blocks s') i = inodes (e_fs s) (blocks s) i.
Proof. intros [E1 E2 _]. rewrite E1. unfold inodes, live, disk_inode. by rewrite !E2. Qed.

Lemma byte_of_quiet k s s' n j : geo (e_fs s) → quiet k s s' → 0 ≤ j → byte_of (e_fs s') (blocks s') n j = byte_of (e_fs s) (blocks s) n j.
Proof. intros Hg Hq Hj. apply byte_of_ext; [done|by eapply after_quiet|done|intros x; by eapply quiet_ptr|intros; apply Hq]. Qed.

Lemma tree_inodes s ino n : inodes (e_fs s) (blocks s) ino = Some n → tree (e_fs s) (blocks s) (inodes (e_fs s) (blocks s)) →
  tree (e_fs s) (blocks s) (<[ino := Some n]> (inodes (e_fs s) (blocks s))).
Proof.
  intros Hi. apply tree_proper. intros j. destruct (decide (j = ino)) as [->|]; [by rewrite fn_lookup_insert|by rewrite fn_lookup_insert_ne].
Qed.

Lemma write_failed K ino src offset s s' n : fs_inv K s → inodes (e_fs s) (blocks s) ino = Some n → sane K s' → failed s s' → write_spec K ino src offset s s' (-1).
Proof.
  intros [[[Hh Hg] Hl] Ht] Hn Hs [k Hq]. split; [split; [done|]|split].
  - eapply tree_proper; [intros i; by eapply inodes_quiet|]. by eapply tree_quiet.
  - intros j _. split; [by eapply inodes_quiet|]. intros m i _ Hi. by eapply byte_of_quiet.
  - exists n, n. split; [done|]. split; [by rewrite (inodes_quiet _ _ _ _ Hq)|]. split.
    + intros i v Hi Hv. left. by rewrite (byte_of_quiet _ _ _ _ _ Hg Hq Hi).
    + rewrite (q_faults _ _ _ Hq). lia.
Qed.

Lemma others_moved R s n s' n' ino : geo (e_fs s) → layout (e_fs s) → after s s' → moved (inodes (e_fs s) (blocks s)) ino R s n s' n' → others_same ino s s'.
Proof.
  intros Hg Hl Ha Hm j Hj. split; [apply inodes_same; [done..|apply Hm]|]. intros m k Hi Hk. apply byte_of_ext; [done|apply Ha|done| |].
  - intros x. by apply (moved_others_ptr _ _ _ _ _ _ _ j m x Hm).
  - intros x. by apply (mv_others _ _ _ _ _ _ _ Hm j).
Qed.

Lemma other_files_trans ino s1 s2 s3 : others_same ino s1 s2 → others_same ino s2 s3 → others_same ino s1 s3.
Proof. intros O1 O2 j Hj. destruct (O1 j Hj) as [I1 B1], (O2 j Hj) as [I2 B2]. split; [congruence|]. intros m k Hi Hk. rewrite B2 by congruence. by apply B1. Qed.

Definition final_inode n (offset fin : Z) : list Z :=
  upd i_mtime 0 (if fld i_size_lo n <? u64 (offset + fin) then upd i_size_lo (u64 (offset + fin)) n else n).

Lemma final_good n offset fin : good_inode n → good_inode (final_inode n offset fin).
Proof. intros Hn. unfold final_inode. case_match; by repeat apply good_upd. Qed.

Lemma final_ptr fs B n offset fin x : slot_valid fs x → ptr B (final_inode n offset fin) x = ptr B n x.
Proof. intros Hx. unfold final_inode. case_match; rewrite !(ptr_upd_other fs); try done; unfold off_map; cbn; lia. Qed.

Lemma final_size n offset fin : good_inode n → 0 ≤ offset + fin < 2 ^ 32 → size_of (final_inode n offset fin) = Z.max (size_of n) (offset + fin).
Proof.
  intros [Hn _] Hf. unfold size_of, final_inode. rewrite fld_upd_other by (unfold apart; cbn; lia). rewrite u64_small by lia. destruct (Z.ltb_spec (fld i_size_lo n) (offset + fin)); [|lia].
  rewrite fld_upd_same; [rewrite Z.mod_small; [lia|]; change (256 ^ Z.of_nat (f_width i_size_lo)) with (2 ^ 32); lia|]. split; cbn [f_off f_width i_size_lo]; [lia|].
  rewrite Hn. change (Z.of_nat sizeof_inode) with 116. lia.
Qed.

(** A step of a file after which its inode is written, with the same pointers. *)
Lemma inode_written K ino R s n s3 n1 n2 s4 : fs_inv K s → inodes (e_fs s) (blocks s) ino = Some n → sane K s3 → after s s3 → moved (inodes (e_fs s) (blocks s)) ino R s n s3 n1 →
  good_inode n2 → (∀ x, slot_valid (e_fs s3) x → ptr (blocks s3) n2 x = ptr (blocks s3) n1 x) → sane K s4 →
  wrote (ino_block (e_fs s3) ino) (list_inserts (Z.to_nat (ino_offset (e_fs s3) ino)) n2 (blocks s3 (ino_block (e_fs s3) ino))) s3 s4 →
  fs_inv K s4 ∧ others_same ino s s4 ∧ inodes (e_fs s4) (blocks s4) ino = Some n2 ∧ (∀ k, 0 ≤ k → byte_of (e_fs s4) (blocks s4) n2 k = byte_of (e_fs s3) (blocks s3) n1 k) ∧
    ∀ b, free (e_fs s4) (blocks s4) b → free (e_fs s3) (blocks s3) b.
Proof.
  intros [[[Hh Hg] Hl] Ht] Hn [[Hh3 Hg3] Hl3] Ha3 M Hg2 Hp2 Hs4 Hw. set (IM := inodes (e_fs s) (blocks s)) in *.
  assert (∀ i, inodes (e_fs s3) (blocks s3) i = IM i) as EI3 by (intros i; apply inodes_same; [done..|apply M]).
  pose proof (mv_tree _ _ _ _ _ _ _ M) as Ht3.
  assert (live (e_fs s3) (blocks s3) ino = true) as Hlive by (pose proof (EI3 ino) as E; unfold inodes at 1 in E; destruct (live _ _ ino); [done|congruence]).
  pose proof (live_valid _ _ _ Hlive) as Hv3. destruct (ino_block_meta _ _ Hg3 Hv3) as (g & k & Hm & Em).
  assert (tree (e_fs s3) (blocks s3) (<[ino := Some n2]> IM)) as Ht3' by (apply tree_shrink with n1; auto).
  destruct (meta_write (<[ino := Some n2]> IM) _ _ _ _ Hg3 ltac:(by exists (MTable g k)) ltac:(by eapply (table_not_bitmap _ _ (MTable g k))) Hw Ht3') as (Ht4 & Hf4 & Hb4).
  assert (∀ i, inodes (e_fs s4) (blocks s4) i = (<[ino := Some n2]> IM) i) as EI4.
  { intros i. rewrite (inodes_written s3 s4 ino n2 i Hg3 Hl3 Hlive Hg2 Hw). destruct (decide (i = ino)) as [->|]; [by rewrite !fn_lookup_insert|by rewrite !fn_lookup_insert_ne]. }
  split; [split; [done|]; by eapply tree_proper|]. split.
  { apply other_files_trans with s3; [by eapply others_moved|]. intros j Hj. rewrite EI4, EI3, fn_lookup_insert_ne by done. split; [done|]. intros m i Hi Hi0. apply (Hb4 j); [|done]. by rewrite fn_lookup_insert_ne. }
  split; [by rewrite EI4, fn_lookup_insert|]. split; [|done].
  intros j Hj. rewrite (Hb4 ino n2 j) by (try apply fn_lookup_insert; done). apply byte_of_ext; [done|apply same_geo_refl|done|done|done].
Qed.

(** The state after the loop, with the new inode written. *)
Lemma written_inode K ino src offset s n s3 n1 fin s4 : fs_inv K s → inodes (e_fs s) (blocks s) ino = Some n → 0 ≤ offset → offset + Z.of_nat (length src) < 2 ^ 32 → 0 ≤ fin ≤ Z.of_nat (length src) →
  sane K s3 → after s s3 → loop_spec (inodes (e_fs s) (blocks s)) ino src offset 0 s n s3 (n1, fin) → sane K s4 →
  wrote (ino_block (e_fs s3) ino) (list_inserts (Z.to_nat (ino_offset (e_fs s3) ino)) (final_inode n1 offset fin) (blocks s3 (ino_block (e_fs s3) ino))) s3 s4 →
  write_spec K ino src offset s s4 fin.
Proof.
  intros Hinv Hn Hoff Hmax Hfin Hs3 Ha3 (M & B & W) Hs4 Hw. cbn [fst snd] in *. set (n2 := final_inode n1 offset fin) in *.
  assert (good_inode n1) as Hg1 by (apply (t_good _ _ _ (mv_tree _ _ _ _ _ _ _ M) ino), fn_lookup_insert).
  destruct (inode_written K ino _ s n s3 n1 n2 s4 Hinv Hn Hs3 Ha3 M (final_good _ _ _ Hg1) ltac:(intros; by apply final_ptr with (e_fs s3)) Hs4 Hw) as (Hinv4 & Ho4 & Hn4 & Eb4 & Hf4).
  split; [done|]. split; [done|]. exists n, n2. split; [done|]. split; [done|]. split.
  - intros i v Hi Hv. rewrite Eb4 by done. destruct (decide (offset ≤ i < offset + fin)) as [Hr|Hr].
    + right. split; [lia|]. replace i with (offset + (i - offset)) at 1 by lia. apply B. lia.
    + left. apply (mv_bytes _ _ _ _ _ _ _ M); [done|lia|done].
  - intros En. assert (e_faults s3 = e_faults s) as En3 by (destruct Ha3; rewrite (w_faults _ _ _ _ Hw) in En; lia). split; [done|].
    split; [intros j Hj; rewrite Eb4 by lia; by apply B|]. split; [intros i v Hi Hr Hv; rewrite Eb4 by done; apply (mv_bytes _ _ _ _ _ _ _ M); [done|lia|done]|].
    split; [unfold n2; rewrite final_size by (done || lia); unfold size_of; rewrite (mv_fields _ _ _ _ _ _ _ M); [done|unfold kept; cbn; lia]|].
    destruct (W En3) as [W1|[W1|W1]]; [by left|by right; left|]. right. right. intros b1 b2 F1%Hf4 F2%Hf4. by apply W1.
Qed.

Lemma byte_old fs fs' B B' n n' k v : geo fs → same_geo fs fs' → 0 ≤ k → (∀ x, slot_valid fs x → ptr B n x ≠ 0 → ptr B' n' x = ptr B n x) →
  byte_of fs B n k = Some v → byte_of fs' B' n k = byte_of fs' B' n' k.
Proof.
  intros Hg Hs Hk Hgrow Hv. unfold byte_of, file_block in *. pose proof (geo_bs_range _ Hg). rewrite (sg_bs _ _ Hs), (slot_of_same _ _ _ Hs).
  destruct (slot_of fs (k / block_size fs)) as [x|] eqn:E; [|done]. cbn [from_option] in *. destruct (slot_of_valid fs (k / block_size fs) x Hg) as [Hx _]; [apply Z.div_pos; lia|done|].
  destruct (Z.eqb_spec (ptr B n x) 0) as [|Hne]; [done|]. by rewrite (ptr_old fs B B' n n' Hgrow x Hx Hne), Hgrow.
Qed.

(** The state after the loop, if the inode could not be written. *)
Lemma unwritten_inode K ino src offset s n s3 n1 fin s4 : fs_inv K s → inodes (e_fs s) (blocks s) ino = Some n → 0 ≤ offset → 0 ≤ fin ≤ Z.of_nat (length src) →
  sane K s3 → after s s3 → loop_spec (inodes (e_fs s) (blocks s)) ino src offset 0 s n s3 (n1, fin) → sane K s4 → failed s3 s4 → write_spec K ino src offset s s4 fin.
Proof.
  intros [[[Hh Hg] Hl] Ht] Hn Hoff Hfin [[Hh3 Hg3] Hl3] Ha3 (M & B & W) Hs4 [k Hq]. cbn [fst snd] in *. set (IM := inodes (e_fs s) (blocks s)) in *.
  assert (∀ i, inodes (e_fs s3) (blocks s3) i = IM i) as EI3 by (intros i; apply inodes_same; [done..|apply M]).
  assert (∀ i, inodes (e_fs s4) (blocks s4) i = IM i) as EI4 by (intros i; by rewrite (inodes_quiet _ _ _ _ Hq)).
  assert (tree (e_fs s3) (blocks s3) (<[ino := Some n]> IM)) as Ht3.
  { eapply tree_shrink; [apply M|by apply (t_good _ _ _ Ht ino)|]. intros x Hx%(slot_valid_same _ _ _ (proj1 Ha3)). apply (ptr_new (e_fs s) (blocks s)); [apply M|done]. }
  split; [split; [done|]|split].
  - eapply tree_proper; [|by eapply tree_quiet]. intros i. rewrite EI4. destruct (decide (i = ino)) as [->|]; [by rewrite fn_lookup_insert|by rewrite fn_lookup_insert_ne].
  - apply other_files_trans with s3; [by eapply others_moved|]. intros j _. rewrite EI3, EI4. split; [done|]. intros m i _ Hi. by eapply byte_of_quiet.
  - exists n, n. split; [done|]. split; [by rewrite EI4|]. split; [|intros En; rewrite (q_faults _ _ _ Hq) in En; destruct Ha3; lia].
    intros i v Hi Hv. rewrite (byte_of_quiet _ _ _ _ _ Hg3 Hq Hi). rewrite (byte_old (e_fs s) (e_fs s3) (blocks s) (blocks s3) n n1 i v Hg (proj1 Ha3) Hi (mv_grow _ _ _ _ _ _ _ M) Hv).
    destruct (decide (offset ≤ i < offset + fin)) as [Hr|Hr].
    + right. split; [lia|]. replace i with (offset + (i - offset)) at 1 by lia. apply B. lia.
    + left. apply (mv_bytes _ _ _ _ _ _ _ M); [done|lia|done].
Qed.

(** Steps that do not touch the disk, before and after. *)
Lemma write_spec_quiet K K' ino src offset s0 s s1 s2 r : 0 ≤ offset → geo (e_fs s0) → geo (e_fs s1) → quiet 0 s0 s → quiet 0 s1 s2 → sane K s2 →
  write_spec K' ino src offset s s1 r → write_spec K ino src offset s0 s2 r.
Proof.
  intros Hoff Hg0 Hg Hq0 Hq Hs2 ([_ Ht] & Ho & n & n' & Hn & Hn' & B1 & B2).
  assert (∀ j, inodes (e_fs s2) (blocks s2) j = inodes (e_fs s1) (blocks s1) j) as EI by (intros j; by eapply inodes_quiet).
  assert (∀ j, inodes (e_fs s) (blocks s) j = inodes (e_fs s0) (blocks s0) j) as EI0 by (intros j; by eapply inodes_quiet).
  assert (∀ m k, 0 ≤ k → byte_of (e_fs s2) (blocks s2) m k = byte_of (e_fs s1) (blocks s1) m k) as EB by (intros; by eapply byte_of_quiet).
  assert (∀ m k, 0 ≤ k → byte_of (e_fs s) (blocks s) m k = byte_of (e_fs s0) (blocks s0) m k) as EB0 by (intros; by eapply byte_of_quiet).
  split; [split; [done|]; eapply tree_proper; [done|by eapply tree_quiet]|]. split.
  - intros j Hj. destruct (Ho j Hj) as [I1 J1]. rewrite EI, I1, EI0. split; [done|]. intros m k Hm Hk. rewrite EB, J1, EB0 by (done || by rewrite EI0). done.
  - exists n, n'. rewrite EI, <- EI0. split; [done|]. split; [done|]. split; [intros k v Hk Hv; rewrite EB by done; apply B1; [done|by rewrite EB0]|].
    rewrite (q_faults _ _ _ Hq). intros En. pose proof (q_faults _ _ _ Hq0) as Ef0. destruct (B2 ltac:(lia)) as (C1 & C2 & C3 & C4 & C5). rewrite (q_fs _ _ _ Hq0) in C5.
    split; [done|]. split; [intros; rewrite EB by lia; by apply C2|]. split; [intros; rewrite EB by done; apply C3; [done|done|by rewrite EB0]|]. split; [done|].
    destruct C5 as [|[|C5]]; [by left|by right; left|]. right. right. intros b1 b2. unfold free. rewrite (q_fs _ _ _ Hq).
    intros (g1 & i1 & N1 & -> & D1) (g2 & i2 & N2 & -> & D2). rewrite (q_blocks _ _ _ Hq) in D1, D2. apply C5; [by exists g1, i1|by exists g2, i2].
Qed.

Lemma ext4_write_file_ok K ino src offset s : fs_inv K s → live (e_fs s) (blocks s) ino = true → Forall is_byte src → 0 ≤ offset → offset + Z.of_nat (length src) < 2 ^ 32 → Z.of_nat (length src) < 2 ^ 31 →
  wp (ext4_write_file ino src offset) s (λ s' r, sane K s' ∧ after s s' ∧ (r = -1 ∨ 0 ≤ r ≤ Z.of_nat (length src)) ∧
    (offset + Z.of_nat (length src) ≤ EXT4_NDIR_BLOCKS * block_size (e_fs s) ∨ e_faults s' = e_faults s → write_spec K ino src offset s s' r)).
Proof.
  intros Hinv Hlive Hsrc Hoff Hmax Hlen. pose proof Hinv as [Hsane Ht]. pose proof Hsane as [Hok Hl]. pose proof (proj2 Hok) as Hg. pose proof (live_valid _ _ _ Hlive) as Hv. pose proof (geo_bs_range _ Hg) as Hbs.
  pose proof (geo_ipg _ Hg) as Hipg. assert (inodes (e_fs s) (blocks s) ino = Some (disk_inode (e_fs s) (blocks s) ino)) as Hn by (unfold inodes; by rewrite Hlive). set (n := disk_inode (e_fs s) (blocks s) ino) in *.
  apply wp_bind, wp_the_fs, wp_bind. eapply wp_mono; [by apply read_inode_ok|]. intros s1 r1 [Hok1 [[-> Hq1]|[-> Hf1]]].
  2: { apply wp_ret. pose proof (after_failed _ _ Hf1). assert (sane K s1) by (by eapply sane_after). split; [done|]. split; [done|]. split; [by left|]. intros _. by eapply write_failed. }
  apply wp_bind. eapply wp_kmalloc; [done|lia| |].
  2: { intros s2 Hok2 Hq2. apply wp_ret. assert (failed s s2) as Hf by (eapply failed_trans; [done|by apply quiet_failed in Hq2]). pose proof (after_failed _ _ Hf).
    assert (sane K s2) by (by eapply sane_after). split; [done|]. split; [done|]. split; [by left|]. intros _. by eapply write_failed. }
  intros s2 p Hp Hok2 Hq2. pose proof (quiet_trans _ _ _ _ _ Hq1 Hq2) as Hq. cbn in Hq. pose proof (q_fs _ _ _ Hq) as Ef. pose proof (after_quiet _ _ _ Hq) as Ha2.
  apply wp_bind, wp_udiv; [lia|]. destruct (group_bounds _ _ Hg Hv) as (Eg & _). rewrite Eg. replace (ino_group (e_fs s) ino) with (ino_group (e_fs s2) ino) by (by rewrite Ef). fold n. apply wp_bind.
  assert (good_inode n) as Hgood by (by apply (t_good _ _ _ Ht ino)).
  eapply wp_mono; [apply (write_loop_ok (<[p := block_size (e_fs s)]> K)); [done|done|lia|lia|lia|by eapply sane_after|by rewrite Ef|done]|].
  intros s3 [n1 fin] (Hs3 & Ha23 & Hgood1 & Hfin & Hloop). cbn [fst snd] in *. assert (after s s3) as Ha3 by exact (after_trans _ _ _ Ha2 Ha23).
  fold (final_inode n1 offset fin). destruct (valid_ino_after _ _ _ Ha3 Hv) as [Hv3 _]. rewrite i32_small by lia.
  apply wp_bind. eapply wp_mono; [apply write_inode_ok; [apply Hs3|apply Hs3|done|by apply final_good]|]. intros s4 w [Hok4 Hw]. apply wp_bind. eapply wp_kfree; [done..|]. intros s5 Hok5 Hq5. apply wp_ret.
  assert (after s3 s4) as Ha34 by (destruct Hw as [[_ Hw]|[_ Hf]]; [by eapply after_wrote|by apply after_failed]). assert (after s s4) as Ha4 by exact (after_trans _ _ _ Ha3 Ha34).
  assert (after s s5) as Ha5 by exact (after_trans _ _ _ Ha4 (after_quiet _ _ _ Hq5)). split; [by eapply sane_after|]. split; [done|]. split; [by right|]. intros Hor.
  (* the heap differs from that of [s] by the buffer only *)
  pose proof (geo_bs_range _ Hg). assert (fs_inv (<[p := block_size (e_fs s)]> K) s2) as Hinv2.
  { split; [by eapply sane_after|]. eapply tree_proper; [intros i; by eapply inodes_quiet|]. by eapply tree_quiet. }
  assert (inodes (e_fs s2) (blocks s2) ino = Some n) as Hn2 by (by rewrite (inodes_quiet _ _ _ _ Hq)).
  assert (offset + Z.of_nat (length src) ≤ EXT4_NDIR_BLOCKS * block_size (e_fs s2) ∨ e_faults s3 = e_faults s2) as Hor2.
  { rewrite Ef. destruct Hor as [|En]; [by left|]. right. rewrite (q_faults _ _ _ Hq5) in En. pose proof (q_faults _ _ _ Hq). destruct Ha23, Ha34. lia. }
  pose proof (Hloop _ Hor2 (tree_inodes _ _ _ Hn2 (proj2 Hinv2))) as Hspec.
  apply (write_spec_quiet K (<[p := block_size (e_fs s)]> K) ino src offset s s2 s4 s5 fin Hoff Hg (proj2 Hok4) Hq Hq5); [by eapply sane_after|].
  assert (sane (<[p := block_size (e_fs s)]> K) s4) as Hs4 by (by eapply sane_after, Hs3).
  destruct Hw as [[_ Hw]|[_ Hf]].
  - exact (written_inode _ _ _ _ _ _ _ _ _ _ Hinv2 Hn2 Hoff Hmax Hfin Hs3 Ha23 Hspec Hs4 Hw).
  - exact (unwritten_inode _ _ _ _ _ _ _ _ _ _ Hinv2 Hn2 Hoff Hfin Hs3 Ha23 Hspec Hs4 Hf).
Qed.

(** ** Reading *)

Definition unchanged s s' : Prop := ∃ k, quiet k s s'.

Lemma byte_in_block fs B n pos j : geo fs → 0 ≤ pos → 0 ≤ j → pos `mod` block_size fs + j < block_size fs →
  byte_of fs B n (pos + j) = if file_block fs B n (pos / block_size fs) =? 0 then None else B (file_block fs B n (pos / block_size fs)) !! Z.to_nat (pos `mod` block_size fs + j).
Proof.
  intros Hg Hp Hj Hlt. pose proof (geo_bs_range _ Hg). set (bs := block_size fs) in *. pose proof (Z.div_mod pos bs ltac:(lia)). pose proof (Z.mod_pos_bound pos bs ltac:(lia)).
  unfold byte_of. fold bs. replace ((pos + j) / bs) with (pos / bs) by (apply (Z.div_unique_pos _ _ _ (pos `mod` bs + j)); lia).
  replace ((pos + j) `mod` bs) with (pos `mod` bs + j) by (apply (Z.mod_unique_pos _ _ (pos / bs)); lia). done.
Qed.

Definition read_spec (start len : Z) s n s' (out : list Z) : Prop :=
  Z.of_nat (length out) ≤ len ∧ (∀ j, 0 ≤ j < Z.of_nat (length out) → byte_of (e_fs s) (blocks s) n (start + j) = out !! Z.to_nat j) ∧
  (e_faults s' = e_faults s → Z.of_nat (length out) = len ∨ byte_of (e_fs s) (blocks s) n (start + Z.of_nat (length out)) = None).

Lemma disk_unchanged_trans s1 s2 s3 : unchanged s1 s2 → unchanged s2 s3 → unchanged s1 s3.
Proof. intros [k1 Q1] [k2 Q2]. exists (k2 + k1)%nat. exact (quiet_trans _ _ _ _ _ Q1 Q2). Qed.

Lemma file_read_loop_ok K n offset len k done s : ok K s → 0 ≤ offset → offset + len < 2 ^ 64 → 0 ≤ done ≤ len → len - done < Z.of_nat k →
  wp (read_loop k n offset len done) s (λ s' out, ok K s' ∧ unchanged s s' ∧ read_spec (offset + done) (len - done) s n s' out).
Proof.
  intros Hok Hoff Hmax. revert done s Hok. induction k as [|k IH]; intros done s Hok Hdone Hk; [lia|]. cbn [read_loop].
  assert (∀ s' m, quiet m s s' → (e_faults s' = e_faults s → len = done ∨ byte_of (e_fs s) (blocks s) n (offset + done) = None) → read_spec (offset + done) (len - done) s n s' []) as Hstop.
  { intros s' m Hq Hw. split; [cbn; lia|]. split; [cbn; lia|]. intros En. cbn. rewrite Z.add_0_r. destruct (Hw En); [left; lia|by right]. }
  destruct (Z.ltb_spec done len) as [Hlt|Hge].
  2: { apply wp_ret. split; [done|]. split; [exists 0%nat; apply quiet_same|]. apply (Hstop _ 0%nat); [apply quiet_same|]. intros _. left. lia. }
  pose proof (proj2 Hok) as Hg. pose proof (geo_bs_range _ Hg) as Hbs. set (pos := offset + done) in *.
  apply wp_bind, wp_the_fs. apply wp_bind, wp_udiv; [lia|]. apply wp_bind, wp_umod; [lia|]. rewrite u64_small by lia. fold pos.
  pose proof (Z.mod_pos_bound pos (block_size (e_fs s)) ltac:(lia)) as Hm. set (bs := block_size (e_fs s)) in *.
  assert (0 ≤ pos / bs) as Hfb by (apply Z.div_pos; lia). apply wp_bind. eapply wp_mono; [by apply get_file_block_ok|]. intros s1 x [Hok1 Hx].
  assert (unchanged s s1) as U1 by (destruct Hx as [[_ Hq]|(_ & _ & [m Hq])]; eexists; exact Hq).
  destruct (Z.eqb_spec x 0) as [->|Hne].
  { apply wp_ret. split; [done|]. split; [done|]. destruct U1 as [m U1]. apply (Hstop _ m U1). intros En. right. replace pos with (pos + 0) by lia. rewrite byte_in_block by (fold bs; lia || done).
    fold bs. destruct Hx as [[<- _]|(_ & _ & [j Hq])]; [done|]. rewrite (q_faults _ _ _ Hq) in En. lia. }
  destruct Hx as [[Ex Hq1]|[-> _]]; [|done]. apply wp_bind. eapply wp_read; [done| |].
  2: { intros s2 Hok2 Hq2. apply wp_ret. pose proof (quiet_trans _ _ _ _ _ Hq1 Hq2) as Hq. split; [done|]. split; [by eexists|]. apply (Hstop _ _ Hq). rewrite (q_faults _ _ _ Hq). lia. }
  intros s2 Hok2 Hq2. pose proof (quiet_trans _ _ _ _ _ Hq1 Hq2) as Hq. rewrite (q_blocks _ _ _ Hq1). set (tc := Z.min (bs - pos `mod` bs) (len - done)).
  pose proof (blocks_length s x Hg) as Hlen. fold bs in Hlen. apply wp_bind. eapply wp_lift; [apply get_bytes_ok; lia|]. set (part := take _ _).
  assert (Z.of_nat (length part) = tc) as Hpart by (unfold part; rewrite length_take, length_drop; lia).
  apply wp_bind. eapply wp_mono; [apply IH; [done|lia|lia]|]. intros s3 rest (Hok3 & [m U3] & R1 & R2 & R3). apply wp_ret. split; [done|]. split; [eapply disk_unchanged_trans; by eexists|].
  assert (∀ j, 0 ≤ j → byte_of (e_fs s2) (blocks s2) n j = byte_of (e_fs s) (blocks s) n j) as EB by (intros; by eapply byte_of_quiet).
  split; [rewrite length_app; lia|]. split.
  - intros j Hj. rewrite length_app in Hj. destruct (Z.ltb_spec j tc) as [Hj1|Hj1].
    + rewrite byte_in_block by (fold bs; lia || done). fold bs. rewrite <- Ex, (proj2 (Z.eqb_neq _ _)) by done. rewrite lookup_app_l by lia. unfold part. rewrite lookup_take_lt, lookup_drop by lia. f_equal. lia.
    + rewrite lookup_app_r by lia. replace (pos + j) with (offset + (done + tc) + (j - tc)) by (unfold pos; lia). rewrite <- EB by lia. rewrite R2 by lia. f_equal. lia.
  - intros En. rewrite length_app. rewrite (q_faults _ _ _ U3), (q_faults _ _ _ Hq) in En. destruct R3 as [R3|R3]; [rewrite (q_faults _ _ _ U3); lia|left; lia|].
    right. rewrite EB in R3 by lia. replace (pos + Z.of_nat (length part + length rest)) with (offset + (done + tc) + Z.of_nat (length rest)) by (unfold pos; lia). done.
Qed.

(** The number of bytes of the file that a read of [len] bytes can give. *)
Definition readable n (offset len : Z) : Z := Z.max 0 (Z.min len (size_of n - offset)).

Lemma disk_inode_good s ino : geo (e_fs s) → valid_ino (e_fs s) ino → good_inode (disk_inode (e_fs s) (blocks s) ino).
Proof.
  intros Hg Hv. destruct (ino_range _ _ Hg Hv) as (_ & _ & _ & _ & O1 & O2). pose proof (blocks_length s (ino_block (e_fs s) ino) Hg).
  split; [unfold disk_inode; rewrite length_take, length_drop; lia|apply Forall_take, Forall_drop, dev_blocks_bytes].
Qed.

Lemma read_file_ok K ino offset len s n : sane K s → valid_ino (e_fs s) ino → n = disk_inode (e_fs s) (blocks s) ino → 0 ≤ offset → 0 ≤ len < 2 ^ 31 → offset + len < 2 ^ 64 →
  wp (ext4_read_file ino offset len) s (λ s' r, sane K s' ∧ unchanged s s' ∧
    (r.1 = Z.of_nat (length r.2) ∨ r = (-1, []) ∧ (e_faults s < e_faults s')%nat) ∧ read_spec offset (readable n offset len) s n s' r.2).
Proof.
  intros Hsane Hv En Hoff Hlen Hmax. pose proof Hsane as [Hok Hl]. pose proof (proj2 Hok) as Hg. pose proof (geo_bs_range _ Hg) as Hbs.
  assert (∀ K' s', ok K' s' → unchanged s s' → sane K' s') as Hsn by (intros K' s' Hok' [k Hq]; by eapply sane_after; [|eapply after_quiet|]).
  assert (good_inode n) as Hgood by (rewrite En; by apply disk_inode_good). pose proof (fld_bound i_size_lo n (proj2 Hgood)) as Hsz. change (256 ^ Z.of_nat (f_width i_size_lo)) with (2 ^ 32) in Hsz. fold (size_of n) in Hsz.
  assert (∀ s' : est, (e_faults s < e_faults s')%nat → read_spec offset (readable n offset len) s n s' []) as Hnone.
  { intros s' Hf. split; [cbn; unfold readable; lia|]. split; [cbn; lia|]. lia. }
  assert (∀ s' : est, failed s s' → unchanged s s' ∧ (e_faults s < e_faults s')%nat) as Hfl by (intros s' [k Hq]; split; [by eexists|rewrite (q_faults _ _ _ Hq); lia]).
  apply wp_bind, wp_the_fs, wp_bind. eapply wp_mono; [by apply read_inode_ok|]. intros s1 r1 [Hok1 [[-> Hq1]|[-> Hf1]]].
  2: { apply wp_ret. destruct (Hfl _ Hf1) as [U1 F1]. split; [by apply Hsn|]. split; [done|]. split; [by right|]. by apply Hnone. }
  rewrite <- En. cbv zeta. fold (size_of n). destruct (Z.leb_spec (size_of n) offset) as [Hle|Hgt].
  { apply wp_ret. assert (unchanged s s1) as U1 by (by eexists). split; [by apply Hsn|]. split; [done|]. split; [by left|]. split; [cbn; unfold readable; lia|]. split; [cbn; lia|].
    intros _. left. cbn. unfold readable. lia. }
  rewrite u64_small by lia. set (len' := if size_of n <? offset + len then size_of n - offset else len).
  assert (len' = readable n offset len) as El by (unfold len', readable; destruct (Z.ltb_spec (size_of n) (offset + len)); lia).
  apply wp_bind. eapply wp_kmalloc; [done|lia| |].
  2: { intros s2 Hok2 Hq2. apply wp_ret. destruct (Hfl s2) as [U2 F2]; [eapply failed_trans; [done|by apply quiet_failed in Hq2]|]. split; [by apply Hsn|]. split; [done|]. split; [by right|]. by apply Hnone. }
  intros s2 p Hp Hok2 Hq2. pose proof (quiet_trans _ _ _ _ _ Hq1 Hq2) as Hq. cbn in Hq. rewrite El. assert (0 ≤ readable n offset len ≤ len) as Hr by (unfold readable; lia).
  apply wp_bind. eapply wp_mono; [apply file_read_loop_ok; [done|done|lia|lia|lia]|]. intros s3 out (Hok3 & U3 & R1 & R2 & R3). apply wp_bind. eapply wp_kfree; [done..|]. intros s4 Hok4 Hq4. apply wp_ret.
  assert (unchanged s s4) as U4 by (eapply disk_unchanged_trans; [by eexists|]; eapply disk_unchanged_trans; [done|by eexists]). split; [by apply Hsn|]. split; [done|].
  rewrite Z.add_0_r, Z.sub_0_r in *. cbn [fst snd]. split; [left; apply i32_small; lia|]. split; [done|].
  assert (∀ j, 0 ≤ j → byte_of (e_fs s2) (blocks s2) n j = byte_of (e_fs s) (blocks s) n j) as EB by (intros; by eapply byte_of_quiet).
  split; [intros j Hj; rewrite <- EB by lia; by apply R2|]. intros Ef. rewrite <- EB by lia. apply R3. rewrite (q_faults _ _ _ Hq4) in Ef. pose proof (q_faults _ _ _ Hq). destruct U3 as [m U3]. rewrite (q_faults _ _ _ U3) in *. lia.
Qed.

(** ** Theorems *)

(** C14: ext4_alloc_block returns a block whose bit was clear and sets that bit
    and its counters only, or fails and changes nothing on the disk; without a
    failure of memory or disk it fails only when no group that claims free
    blocks has one.  Giving the block back restores the disk byte for byte. *)
Theorem ext4_alloc_free_block K pref s : ok K s → 0 ≤ pref < group_count (e_fs s) →
  ∃ s1 r, ext4_alloc_block pref s = Some (s1, r) ∧ ok K s1 ∧
    alloc_spec block_pool (λ g, 0 ≤ g < group_count (e_fs s)) s s1 r ∧
    (0 ≤ r → ∃ s2 r2, ext4_free_block r s1 = Some (s2, r2) ∧ ok K s2 ∧
       (r2 = 0 ∧ (∀ b, blocks s2 b = blocks s b) ∨ r2 = -1 ∧ (∀ b, blocks s2 b = blocks s1 b) ∧ (e_faults s1 < e_faults s2)%nat)).
Proof.
  intros Hok Hp. pose proof (proj2 Hok) as Hg. pose proof (geo_inodes _ Hg) as Hi. pose proof (geo_ipg _ Hg) as Hipg. assert (group_count (e_fs s) < 2 ^ 31) by nia.
  destruct (alloc_bit_ok block_pool K pref s (or_introl eq_refl) Hok) as (s1 & r & E & Hok1 & Hs). exists s1, r. split; [done|]. split; [done|]. split.
  { eapply alloc_spec_later; [apply quiet_same| |exact Hs]. intros g Hgr. left. lia. }
  intros Hr. destruct Hs as [_ [[-> _]|(g & i & Hin & -> & Hbit & Hc)]]; [lia|]. rewrite (block_pool_number _ _ _ Hg Hin) in *.
  pose proof (bc_geo _ _ _ _ _ _ (or_introl eq_refl) Hg (proj1 (proj1 Hin)) Hc) as Hsg. rewrite <- (block_number_same _ _ _ _ Hsg).
  destruct (ext4_free_block_ok K g i s1 Hok1) as (s2 & r2 & E2 & Hok2 & Hf); [by apply (in_group_same _ _ _ _ _ (or_introl eq_refl) Hsg)|]. exists s2, r2. split; [done|]. split; [done|].
  destruct Hf as [(-> & _ & Eb & Hlt)|(-> & _ & Hc2)]; [by right|]. left. split; [done|]. intros b. set (bm := bitmap_block block_pool (e_fs s) g).
  assert (bitmap_block block_pool (e_fs s1) g = bm) as Ebm by (apply (sg_blocks _ _ Hsg), Hin). destruct (decide (b = bm)) as [->|Hne].
  - apply bits_inj; [apply dev_blocks_bytes|apply dev_blocks_bytes| |].
    + assert (Z.of_nat (length (blocks s2 bm)) = Z.of_nat (length (blocks s bm))) as El by (unfold blocks; by rewrite !dev_blocks_length). lia.
    + intros j Hj. rewrite <- Ebm at 1. rewrite (bc_bits _ _ _ _ _ _ Hc2) by done. rewrite Ebm, (bc_bits _ _ _ _ _ _ Hc) by done. destruct (Z.eqb_spec j i) as [->|]; [|done]. by fold bm in Hbit.
  - rewrite (bc_other _ _ _ _ _ _ Hc2) by congruence. by apply (bc_other _ _ _ _ _ _ Hc).
Qed.

(** C10: writing to a file through the block map.  On a consistent disk, for a
    live inode and a range below 2^32, ext4_write_file returns and leaves the
    heap as it was, whatever memory and disk do.  Only if the range ends within
    the direct blocks, or if nothing fails, more is claimed: the disk stays
    consistent (no block used twice, counters right), every other file keeps
    its inode and its bytes, and every byte of the file is kept or, inside the
    range, replaced by the new one; and if nothing fails, exactly the first r
    bytes are written and all others kept, the size grows to their end, and r
    is the whole length unless the file gets too large for the single indirect
    block or at most one block is free.  For a range that reaches the indirect
    block the contents are not claimed once a call has failed. *)
Theorem ext4_write_file_correct K ino src offset s : fs_inv K s → live (e_fs s) (blocks s) ino = true → Forall is_byte src →
  0 ≤ offset → offset + Z.of_nat (length src) < 2 ^ 32 → Z.of_nat (length src) < 2 ^ 31 →
  ∃ s' r, ext4_write_file ino src offset s = Some (s', r) ∧ sane K s' ∧ after s s' ∧ (r = -1 ∨ 0 ≤ r ≤ Z.of_nat (length src)) ∧
    (offset + Z.of_nat (length src) ≤ EXT4_NDIR_BLOCKS * block_size (e_fs s) ∨ e_faults s' = e_faults s → write_spec K ino src offset s s' r).
Proof. intros. by apply ext4_write_file_ok. Qed.

(** A driver with a file system mounted. *)
Definition driver_state fs (t : ext4_driver) : est := mk_est (p_heap t) (p_dev t) fs (p_faults t).
Definition mounted (K : gmap Z Z) fs (t : ext4_driver) : Prop := p_root t = Some fs ∧ fs_inv K (driver_state fs t).

Lemma read_exact (x : Z * list Z) r (src : list Z) : Z.of_nat (length x.2) = r → r ≤ Z.of_nat (length src) → (∀ j, 0 ≤ j < r → x.2 !! Z.to_nat j = src !! Z.to_nat j) →
  x.1 = Z.of_nat (length x.2) → x = (r, take (Z.to_nat r) src).
Proof.
  destruct x as [x1 out]. cbn. intros Hl Hr Hb ->. f_equal; [done|]. apply list_eq. intros i. destruct (decide (i < Z.to_nat r)%nat) as [Hi|Hi].
  - rewrite lookup_take_lt by done. specialize (Hb (Z.of_nat i) ltac:(lia)). by rewrite Nat2Z.id in Hb.
  - rewrite lookup_take_ge, lookup_ge_None_2 by lia. done.
Qed.

(** C11: What ext4_vfs_write wrote, ext4_vfs_read gives back: when neither memory
    nor the disk fails the write returns how many bytes it wrote, and reading
    that many bytes from the same place returns exactly them and leaves the
    disk as it is. *)
Theorem ext4_write_read_roundtrip K fs ino src offset t : mounted K fs t → live fs (dev_blocks (p_dev t)) ino = true → Forall is_byte src →
  0 ≤ offset → offset + Z.of_nat (length src) < 2 ^ 32 → Z.of_nat (length src) < 2 ^ 31 →
  ∃ t1 r t2 x, ext4_vfs_write ino src offset t = Some (t1, r) ∧ ext4_vfs_read ino offset (Z.max 0 r) t1 = Some (t2, x) ∧
    (p_faults t2 = p_faults t → 0 ≤ r ∧ x = (r, take (Z.to_nat r) src) ∧ ∀ b, dev_blocks (p_dev t2) b = dev_blocks (p_dev t1) b).
Proof.
  intros [Hr Hinv] Hlive Hsrc Hoff Hmax Hlen. destruct (ext4_write_file_ok K ino src offset (driver_state fs t) Hinv Hlive Hsrc Hoff Hmax Hlen) as (s1 & r & E1 & Hs1 & Ha1 & Hres & Hw).
  unfold ext4_vfs_write, on_root. rewrite Hr. fold (driver_state fs t). rewrite E1. cbn [mbind option_bind]. eexists _, r.
  assert (0 ≤ Z.max 0 r < 2 ^ 31) as Hr0.
  { split; [lia|]. apply Z.max_lub_lt; [done|]. destruct Hres as [->|Hres]; lia. }
  destruct (valid_ino_after _ _ _ Ha1 (live_valid _ _ _ Hlive)) as [Hv1 _].
  destruct (read_file_ok K ino offset (Z.max 0 r) s1 _ Hs1 Hv1 eq_refl Hoff Hr0 ltac:(lia)) as (s2 & x & E2 & Hs2 & [k U] & Hx & Hspec).
  exists (mk_driver (e_heap s2) (e_dev s2) (Some (e_fs s2)) (e_faults s2)), x. split; [done|]. split.
  { unfold ext4_vfs_read, on_root. cbn [p_root p_heap p_dev p_faults]. replace (mk_est (e_heap s1) (e_dev s1) (e_fs s1) (e_faults s1)) with s1 by (by destruct s1). by rewrite E2. }
  cbn [p_faults p_dev]. intros En. pose proof (q_faults _ _ _ U) as Eu. cbn in En. assert (e_faults s1 = e_faults (driver_state fs t)) as En1 by (cbn; destruct Ha1 as [_ Ha1]; cbn in Ha1; lia).
  destruct (Hw (or_intror En1)) as (_ & _ & n & n' & _ & Hn' & _ & Hex). destruct (Hex En1) as (Hrr & Hb & _ & Hsz & _).
  assert (n' = disk_inode (e_fs s1) (blocks s1) ino) as En' by (unfold inodes in Hn'; destruct (live (e_fs s1) (blocks s1) ino); [by injection Hn' as <-|done]). rewrite <- En' in Hspec.
  split; [lia|]. rewrite (Z.max_r 0 r) in * by lia. destruct Hspec as (L1 & L2 & L3). assert (readable n' offset r = r) as Er by (unfold readable; lia). rewrite Er in *.
  assert (e_faults s2 = e_faults s1) as En2 by (rewrite En, En1; done). assert (Z.of_nat (length x.2) = r) as L.
  { destruct (L3 En2) as [L|L]; [done|]. destruct (Z.eq_dec (Z.of_nat (length x.2)) r) as [|Hne]; [done|]. exfalso. rewrite Hb in L by lia. apply lookup_ge_None in L. lia. }
  split; [|apply U]. apply (read_exact x r src); [done|lia| |by destruct Hx as [|[_ ?]]; [|lia]]. intros j Hj. rewrite <- L2 by lia. by apply Hb.
Qed.
End Correct.

(** ** A disk in memory

    Blocks of 1024 bytes; [d_bad] reads from now one read fails ([0] for none). *)

Record disk := mk_disk { d_blocks : gmap Z (list Z); d_bad : nat }.

Definition image (l : list Z) : list Z := (λ x, x `mod` 256) <$> take 1024 (l ++ replicate 1024 0).
Definition block_at (d : disk) (b : Z) : list Z := image (default [] (d_blocks d !! b)).

#[export] Instance disk_device : BlockDevice disk := {
  dev_read b d := (mk_disk (d_blocks d) (pred (d_bad d)), if bool_decide (d_bad d = 1%nat) then None else Some (block_at d b));
  dev_write := Some (λ b l d, (mk_disk (<[b := l]> (d_blocks d)) (d_bad d), 0))
}.

Lemma image_length l : length (image l) = 1024%nat.
Proof. unfold image. rewrite length_fmap, length_take, length_app, length_replicate. lia. Qed.

Lemma image_bytes l : Forall is_byte (image l).
Proof. apply Forall_fmap, Forall_true. intros x. cbn. split; lia_mod. Qed.

Lemma image_id l : Z.of_nat (length l) = 1024 → Forall is_byte l → image l = l.
Proof.
  intros Hl Hb. unfold image. rewrite take_app_length' by lia. rewrite <- (list_fmap_id l) at 2. apply list_fmap_ext. intros i x Hx. apply (Forall_lookup_1 _ _ _ _ Hb) in Hx. by apply Z.mod_small.
Qed.

#[export] Instance disk_laws : BlockLaws disk.
Proof.
  refine {| dev_blocks := block_at; dev_block_size := 1024 |}.
  - intros d b. unfold block_at. by rewrite image_length.
  - intros d b. apply image_bytes.
  - intros b d d' r [= <- <-]. split; [done|]. by case_bool_decide.
  - intros w b l d d' ret [= <-] [= <- <-] Hl Hb b'. unfold block_at. cbn. destruct (decide (b' = b)) as [->|Hne].
    + rewrite bool_decide_eq_true_2, lookup_insert_eq by (split; [done|lia]). cbn. by apply image_id.
    + rewrite bool_decide_eq_false_2, lookup_insert_ne by (done || naive_solver). done.
Defined.

(** A disk of 64 blocks, one group: superblock 1, descriptors 2, bitmaps 3 and 4, inodes
    5 to 8, the root directory (inode 2) in 9, and the files 11 and 12, of
    which 11 has one block, 10. *)
Definition fill (l : list (field * Z)) (k : nat) : list Z := foldr (λ p l, upd (fst p) (snd p) l) (replicate k 0) l.
Definition demo_sb : list Z := fill [(s_blocks_count_lo, 64); (s_free_blocks_count_lo, 53); (s_free_inodes_count, 20); (s_first_data_block, 1);
  (s_blocks_per_group, 64); (s_inodes_per_group, 32); (s_magic, EXT4_SUPER_MAGIC); (s_rev_level, 1); (s_inode_size, 128)] 384.
Definition demo_gd : list Z := fill [(bg_block_bitmap_lo, 3); (bg_inode_bitmap_lo, 4); (bg_inode_table_lo, 5); (bg_free_blocks_count_lo, 53); (bg_free_inodes_count_lo, 20)] 32.
Definition demo_root : list Z := fill [(i_mode, 0x41ed); (i_size_lo, 1024); (i_links_count, 2); (i_block 0, 9)] 116.
Definition demo_file : list Z := fill [(i_mode, 0x81a4); (i_size_lo, 1000); (i_links_count, 1); (i_block 0, 10)] 116.
Definition demo_inodes : list Z := list_inserts 128 demo_root (replicate 1024 0).
Definition demo_inodes2 : list Z := list_inserts 256 demo_file (replicate 1024 0).
Definition demo_dir : list Z := default [] (put_entry 0 2 1024 dot 2 (replicate 1024 0)).
Definition demo_disk : disk := mk_disk (list_to_map [(1, demo_sb); (2, demo_gd); (3, [255; 3; 0; 0; 0; 0; 0; 128]); (4, [255; 15]); (5, demo_inodes); (6, demo_inodes2); (9, demo_dir); (10, replicate 1000 65)]) 0.
Definition demo_fs : ext4_fs := mk_fs 0 demo_sb 1024 64 32 128 1 32 0 demo_gd.
Definition demo_state : ext4_state heap disk := mk_est boot_heap demo_disk demo_fs 0.

Lemma demo_geo : geo demo_fs.
Proof.
  constructor; try (vm_compute; done || (split; done)).
  - intros g Hg. assert (g = 0) as -> by (cbn in Hg; lia). vm_compute. done.
  - apply (bool_decide_unpack _). vm_compute. exact I.
  - apply (bool_decide_unpack _). vm_compute. exact I.
Qed.

Lemma demo_meta m : meta_valid demo_fs m → meta_at demo_fs m = match m with MBlocks _ => 3 | MInodes _ => 4 | MTable _ k => 5 + k end ∧
  match m with MBlocks g | MInodes g => g = 0 | MTable g k => g = 0 ∧ 0 ≤ k < 4 end.
Proof.
  assert (table_size demo_fs = 4) as Et by (vm_compute; done). destruct m as [g|g|g k]; cbn [meta_valid]; rewrite ?Et; intros Hv; cbn in Hv.
  - assert (g = 0) as -> by lia. split; [vm_compute; done|done].
  - assert (g = 0) as -> by lia. split; [vm_compute; done|done].
  - assert (g = 0) as -> by lia. split; [|split; [done|lia]]. cbn [meta_at]. assert (table_block demo_fs 0 = 5) as -> by (vm_compute; done). done.
Qed.

Lemma demo_layout : layout demo_fs.
Proof.
  constructor.
  - intros m1 m2 H1 H2. destruct (demo_meta m1 H1) as [-> R1], (demo_meta m2 H2) as [-> R2]. intros E. destruct m1, m2; try lia; f_equal; lia.
  - intros g Hg. assert (g = 0) as -> by (cbn in Hg; lia). vm_compute. split; discriminate.
Qed.

Definition one_block (n : list Z) (b : Z) : Prop := Forall (λ k, fld (i_block k) n = if k =? 0 then b else 0) (seqZ 0 15).

Lemma one_block_ptr fs B n b x : one_block n b → slot_valid fs x → ptr B n x ≠ 0 → x = SDir 0 ∧ ptr B n x = b.
Proof.
  intros Hn Hx Hne. assert (∀ k, 0 ≤ k < 15 → fld (i_block k) n = if k =? 0 then b else 0) as Hk.
  { intros k Hk. unfold one_block in Hn. rewrite Forall_forall in Hn. apply Hn, elem_of_seqZ. lia. }
  assert (fld (i_block EXT4_IND_BLOCK) n = 0) as E1 by (by rewrite Hk). assert (fld (i_block EXT4_DIND_BLOCK) n = 0) as E2 by (by rewrite Hk).
  destruct x as [k| |k| |k|k l]; cbn [ptr] in *; rewrite ?E1, ?E2 in Hne; try done. unfold slot_valid, EXT4_NDIR_BLOCKS in Hx. rewrite Hk in * by lia.
  destruct (Z.eqb_spec k 0) as [->|]; done.
Qed.

(** The inodes of the disk in use, with their one block. *)
Definition demo_inode (i : Z) (n : list Z) : Prop := good_inode n ∧ (i = 2 ∧ one_block n 9 ∨ i = 11 ∧ one_block n 10 ∨ one_block n 0).

#[local] Instance demo_inode_dec i n : Decision (demo_inode i n).
Proof. unfold demo_inode, good_inode, is_byte, one_block. apply _. Defined.

Lemma demo_files i n : inodes demo_fs (block_at demo_disk) i = Some n → demo_inode i n.
Proof.
  assert (Forall (λ i, (if inodes demo_fs (block_at demo_disk) i is Some n then bool_decide (demo_inode i n) else true) = true) (seqZ 1 32)) as Hc
    by (apply (bool_decide_unpack _); vm_compute; exact I).
  assert (Forall (λ i, ∀ n, inodes demo_fs (block_at demo_disk) i = Some n → demo_inode i n) (seqZ 1 32)) as Hall.
  { eapply Forall_impl; [exact Hc|]. cbn beta. intros j Hj m Em. rewrite Em in Hj. by apply bool_decide_eq_true in Hj. }
  intros Hn. rewrite Forall_forall in Hall. apply (Hall i); [|done]. assert (live demo_fs (block_at demo_disk) i = true) as Hl by (unfold inodes in Hn; by destruct (live _ _ i)).
  apply live_valid in Hl as [L1 L2]. cbn in L2. apply elem_of_seqZ. lia.
Qed.

(** The blocks 1 to 10 are in use. *)
Lemma demo_free b : free demo_fs (block_at demo_disk) b → 11 ≤ b.
Proof.
  intros (g & i & [Hg Hi] & -> & Hbit). cbn in Hg, Hi. assert (g = 0) as -> by lia. assert (block_number demo_fs 0 i = 1 + i) as -> by (unfold block_number, first_block; change (fld _ _) with 1; cbn; lia).
  destruct (Z.ltb_spec i 10); [|lia]. exfalso. assert (Forall (λ i, bit (block_at demo_disk (bitmap_block block_pool demo_fs 0)) i = true) (seqZ 0 10)) as Hall by (apply (bool_decide_unpack _); vm_compute; exact I).
  rewrite Forall_forall in Hall. rewrite Hall in Hbit; [done|]. apply elem_of_seqZ. lia.
Qed.

Lemma demo_disk_inv : fs_inv ∅ demo_state.
Proof.
  split; [split; [split; [by apply heap_owns_init|exact demo_geo]|exact demo_layout]|]. cbn [e_fs demo_state]. change (blocks demo_state) with (block_at demo_disk).
  constructor.
  - intros i n Hn. apply (demo_files i n Hn).
  - intros i1 n1 x1 i2 n2 x2 H1 H2 V1 V2 Hne E. destruct (demo_files _ _ H1) as [_ F1], (demo_files _ _ H2) as [_ F2].
    clear H1 H2. set (B := block_at demo_disk) in *. clearbody B.
    destruct F1 as [[-> O1]|[[-> O1]|O1]]; destruct (one_block_ptr _ _ _ _ _ O1 V1 Hne) as [-> P1]; rewrite E in Hne, P1;
      destruct F2 as [[-> O2]|[[-> O2]|O2]]; destruct (one_block_ptr _ _ _ _ _ O2 V2 Hne) as [-> P2]; rewrite P2 in P1, Hne; try lia; by split.
  - intros i n x Hi Hx Hne. destruct (demo_files _ _ Hi) as [_ F]. assert (9 ≤ ptr (block_at demo_disk) n x ≤ 10) as Hr.
    { destruct F as [[-> O]|[[-> O]|O]]; destruct (one_block_ptr _ _ _ _ _ O Hx Hne) as [_ P]; lia. }
    split; [intros Hf%demo_free; lia|]. intros (m & Hm & E). destruct (demo_meta m Hm) as [E' R]. rewrite E' in E. destruct m; lia.
  - intros b (m & Hm & E) Hf%demo_free. destruct (demo_meta m Hm) as [E' R]. rewrite E' in E. destruct m; lia.
  - intros Hf%demo_free. lia.
  - split; [done|]. intros g Hg. cbn in Hg. assert (g = 0) as -> by lia. vm_compute. reflexivity.
Qed.

(** ** Witnesses *)

Lemma ext4_alloc_free_block_witness : ∃ s1 s2, ext4_alloc_block 0 demo_state = Some (s1, 11) ∧ ext4_free_block 11 s1 = Some (s2, 0) ∧ ∀ b, blocks s2 b = blocks demo_state b.
Proof.
  destruct (ext4_alloc_free_block ∅ 0 demo_state (proj1 (proj1 demo_disk_inv)) ltac:(split; [discriminate|reflexivity])) as (s1 & r & E & _ & _ & Hf).
  assert (snd <$> ext4_alloc_block 0 demo_state = Some 11) as Er by (vm_compute; reflexivity). rewrite E in Er. injection Er as ->.
  destruct (Hf ltac:(lia)) as (s2 & r2 & E2 & _ & Hr). exists s1, s2. split; [exact E|].
  assert ((x ← ext4_alloc_block 0 demo_state; snd <$> ext4_free_block 11 (fst x)) = Some 0) as Er2 by (vm_compute; reflexivity).
  rewrite E in Er2. cbn [mbind option_bind fst] in Er2. rewrite E2 in Er2. injection Er2 as ->. split; [exact E2|]. destruct Hr as [[_ Hr]|[Hr _]]; [exact Hr|lia].
Defined.

(** Twenty bytes at the end of the one block of inode 11: the file gets a second block. *)
Definition demo_src : list Z := replicate 20 66.

Lemma demo_src_bytes : Forall is_byte demo_src.
Proof. apply Forall_replicate. split; reflexivity || discriminate. Qed.

Lemma ext4_write_file_correct_witness : ∃ s', ext4_write_file 11 demo_src 1010 demo_state = Some (s', 20) ∧ write_spec ∅ 11 demo_src 1010 demo_state s' 20.
Proof.
  destruct (ext4_write_file_correct ∅ 11 demo_src 1010 demo_state demo_disk_inv ltac:(vm_compute; reflexivity) demo_src_bytes ltac:(lia) ltac:(reflexivity) ltac:(reflexivity))
    as (s' & r & E & _ & _ & _ & Hw).
  assert (snd <$> ext4_write_file 11 demo_src 1010 demo_state = Some 20) as Er by (vm_compute; reflexivity). rewrite E in Er. injection Er as ->.
  exists s'. split; [exact E|]. apply Hw. left. vm_compute. discriminate.
Defined.

Definition demo_driver : ext4_driver := mk_driver boot_heap demo_disk (Some demo_fs) 0.

Lemma ext4_write_read_roundtrip_witness : ∃ t1 t2, ext4_vfs_write 11 demo_src 1010 demo_driver = Some (t1, 20) ∧ ext4_vfs_read 11 1010 20 t1 = Some (t2, (20, demo_src)).
Proof.
  destruct (ext4_write_read_roundtrip ∅ demo_fs 11 demo_src 1010 demo_driver (conj eq_refl demo_disk_inv) ltac:(vm_compute; reflexivity) demo_src_bytes ltac:(lia) ltac:(reflexivity) ltac:(reflexivity))
    as (t1 & r & t2 & x & E1 & E2 & Hx).
  assert (snd <$> ext4_vfs_write 11 demo_src 1010 demo_driver = Some 20) as Er by (vm_compute; reflexivity). rewrite E1 in Er. injection Er as ->.
  assert ((y ← ext4_vfs_write 11 demo_src 1010 demo_driver; p_faults ∘ fst <$> ext4_vfs_read 11 1010 20 (fst y)) = Some (p_faults demo_driver)) as Ef by (vm_compute; reflexivity).
  rewrite E1 in Ef. cbn [mbind option_bind fst] in Ef. change (Z.max 0 20) with 20 in E2. rewrite E2 in Ef. injection Ef as Ef.
  destruct (Hx Ef) as (_ & -> & _). exists t1, t2. split; [exact E1|]. exact E2.
Defined.

(** ** Runs in which the code does not do what it means to *)

(** ext4_vfs_truncate frees the blocks and keeps the pointers to them: the next
    file gets the block, and a write to the first file changes the second. *)
Example truncate_shares_block :
  (t ← fst <$> ext4_vfs_truncate 11 0 demo_driver; t ← fst <$> ext4_vfs_write 12 [67] 0 t; t ← fst <$> ext4_vfs_write 11 [68] 0 t; snd <$> ext4_vfs_read 12 0 1 t) = Some (1, [68]).
Proof. vm_compute. reflexivity. Qed.

(** A file of 13 blocks, the last through the indirect block.  When the read of
    the indirect block fails once during a write to block 12, the block counts
    as a hole: it is replaced, and the byte next to the one written is lost. *)
Example failed_read_loses_data :
  (t ← fst <$> ext4_vfs_write 12 (replicate (Z.to_nat (13 * 1024)) 67) 0 demo_driver;
   t ← fst <$> ext4_vfs_write 12 [68] (12 * 1024) (mk_driver (p_heap t) (mk_disk (d_blocks (p_dev t)) 2) (p_root t) 0);
   snd <$> ext4_vfs_read 12 (12 * 1024) 2 t) = Some (2, [68; 0]).
Proof. vm_compute. reflexivity. Qed.

(** A hole reads as the end of the file: of a write beyond the end nothing can
    be read from before it. *)
Example hole_reads_as_end :
  (t ← fst <$> ext4_vfs_write 12 [67] 1024 demo_driver; x ← snd <$> ext4_vfs_stat 12 t; y ← snd <$> ext4_vfs_read 12 0 1025 t; Some (fst (fst (snd x)), fst y)) = Some (1025, 0).
Proof. vm_compute. reflexivity. Qed.

(** A new directory has two entries for itself and the link count 1. *)
Example mkdir_links :
  ('(t, i) ← ext4_vfs_mkdir 2 [100] 0x1ed demo_driver; x ← snd <$> ext4_vfs_stat i t; y ← snd <$> ext4_vfs_stat 2 t; Some (i, snd (snd x), snd (snd y))) = Some (13, 1, 3).
Proof. vm_compute. reflexivity. Qed.

(** The disk mounts, as [demo_fs] apart from the addresses; with a second group
    the descriptors do not fit into the memory allocated for them, since they
    are 32 bytes on the disk and 64 in memory. *)
Definition with_blocks (n : Z) (d : disk) : disk := mk_disk (<[1 := upd s_blocks_count_lo n demo_sb]> (d_blocks d)) (d_bad d).
Definition at_zero (f : ext4_fs) : ext4_fs := mk_fs 0 (sb f) (block_size f) (blocks_per_group f) (inodes_per_group f) (inode_size f) (group_count f) (desc_size f) 0 (gd_mem f).
Example descriptors_overflow :
  (fmap at_zero ∘ p_root ∘ fst <$> ext4_mount (λ _, 0) (mk_driver boot_heap demo_disk None 0)) = Some (Some demo_fs) ∧
  ext4_mount (λ _, 0) (mk_driver boot_heap (with_blocks 65 demo_disk) None 0) = None.
Proof. split; vm_compute; reflexivity. Qed.
