(* ===== verification/Ext4Mount.v ===== *)
(** * ext4: mounting

    ext4_mount reads the superblock and the group descriptors or frees what it
    allocated; ext4_unmount writes the superblock back and frees them. *)

From stdpp Require Import functions.
From S2P Require Import Prelude KHeap Kmalloc Ext4 Ext4Alloc Ext4Files Ext4Correct.

Section Mount.
Context {H D : Type} `{!KernelHeap H} `{!BlockDevice D} `{!BlockLaws D}.
#[local] Abbreviation est := (ext4_state H D).
Implicit Types (s : est).

(** ** Group descriptors *)

(** The bytes of a descriptor that are copied. *)
Definition desc_part (dsize : Z) : Z := Z.min dsize sizeof_group_desc.

Lemma copy_descs_ok k dsize g abs buf mem : 0 < dsize → 0 ≤ g → 0 ≤ abs → (g + Z.of_nat k) * dsize ≤ Z.of_nat (length buf) →
  (k ≠ 0%nat → (abs + Z.of_nat k - 1) * sizeof_group_desc + desc_part dsize ≤ Z.of_nat (length mem)) →
  ∃ mem', copy_descs k dsize g abs buf mem = Some mem' ∧ length mem' = length mem ∧
    (∀ j i, 0 ≤ j < Z.of_nat k → 0 ≤ i < desc_part dsize → mem' !! Z.to_nat ((abs + j) * sizeof_group_desc + i) = buf !! Z.to_nat ((g + j) * dsize + i)) ∧
    ∀ x, (x < Z.to_nat (abs * sizeof_group_desc))%nat → mem' !! x = mem !! x.
Proof.
  revert g abs mem. unfold sizeof_group_desc. induction k as [|k IH]; intros g abs mem Hd Hg Ha Hb Hm; [exists mem; split; [done|]; split; [done|]; split; [lia|done]|].
  assert (0 < desc_part dsize ≤ 64 ∧ desc_part dsize ≤ dsize) as Hp by (unfold desc_part, sizeof_group_desc; lia). specialize (Hm ltac:(done)).
  cbn [copy_descs]. unfold copy_desc. fold (desc_part dsize). rewrite get_bytes_ok by nia. cbn [mbind option_bind]. set (l := take _ _).
  assert (Z.of_nat (length l) = desc_part dsize) as Hl by (unfold l; rewrite length_take, length_drop; nia). unfold sizeof_group_desc.
  rewrite set_bytes_ok by lia. cbn [mbind option_bind]. destruct (IH (g + 1) (abs + 1) (list_inserts (Z.to_nat (abs * 64)) l mem)) as (mem' & E & El & Hc & Hk); [lia..| |].
  { rewrite length_inserts. lia. }
  exists mem'. rewrite length_inserts in El. split; [done|]. split; [done|]. split.
  - intros j i Hj Hi. destruct (decide (j = 0)) as [->|Hne].
    + rewrite Hk by lia. rewrite list_lookup_inserts by lia. unfold l. rewrite lookup_take_lt, lookup_drop by lia. f_equal. nia.
    + specialize (Hc (j - 1) i ltac:(lia) Hi). replace (abs + 1 + (j - 1)) with (abs + j) in Hc by lia. by replace (g + 1 + (j - 1)) with (g + j) in Hc by lia.
  - intros x Hx. rewrite Hk by lia. apply list_lookup_inserts_lt. lia.
Qed.

(** Byte [i] of descriptor [g] on the disk. *)
Definition desc_byte (B : Z → list Z) (first dsize per g i : Z) : option Z := B (first + g / per) !! Z.to_nat (g `mod` per * dsize + i).

(** The descriptors before [n] are in memory. *)
Definition descs_read (B : Z → list Z) (first dsize per n : Z) (mem : list Z) : Prop :=
  ∀ g i, 0 ≤ g < n → 0 ≤ i < desc_part dsize → mem !! Z.to_nat (g * sizeof_group_desc + i) = desc_byte B first dsize per g i.

(** The number of descriptors taken from block [b]. *)
Lemma desc_count gc per b n : 0 < per → 0 ≤ gc < 2 ^ 32 → n = (gc + per - 1) / per → 0 ≤ b < n →
  0 < gc ∧ b * per < gc ∧ (if b =? n - 1 then u32 (gc - b * per) else per) = Z.min gc ((b + 1) * per) - b * per.
Proof.
  intros Hper Hgc En Hb. pose proof (Z.div_mod (gc + per - 1) per ltac:(lia)) as Edm. pose proof (Z.mod_pos_bound (gc + per - 1) per Hper). rewrite <- En in Edm.
  assert (b * per ≤ (n - 1) * per) by nia. assert (b * per < gc) by lia. split; [lia|]. split; [done|]. destruct (Z.eqb_spec b (n - 1)) as [->|Hne].
  - rewrite u32_small by nia. lia.
  - assert ((b + 1) * per ≤ (n - 1) * per) by nia. lia.
Qed.

(** The struct when the descriptors are being read. *)
Record reading fs per n : Prop := {
  rd_bs : block_size fs = dev_block_size;
  rd_desc : 0 < desc_size fs;
  rd_per : per = block_size fs / desc_size fs;
  rd_pos : 0 < per;
  rd_gc : 0 ≤ group_count fs < 2 ^ 32;
  rd_n : n = (group_count fs + per - 1) / per;
  rd_mem : 0 < group_count fs → (group_count fs - 1) * sizeof_group_desc + desc_part (desc_size fs) ≤ Z.of_nat (length (gd_mem fs))
}.

Lemma reading_mem fs per n mem : reading fs per n → length mem = length (gd_mem fs) → reading (with_gd fs mem) per n.
Proof. intros [] El. constructor; cbn; try done. by rewrite El. Qed.

(** One block of descriptors. *)
Lemma block_descs fs per n b B first : reading fs per n → 0 ≤ b < n → (∀ c, Z.of_nat (length (B c)) = dev_block_size) →
  descs_read B first (desc_size fs) per (Z.min (group_count fs) (b * per)) (gd_mem fs) →
  ∃ mem, copy_descs (Z.to_nat (if b =? n - 1 then u32 (group_count fs - b * per) else per)) (desc_size fs) 0 (b * per) (B (first + b)) (gd_mem fs) = Some mem ∧
    length mem = length (gd_mem fs) ∧ descs_read B first (desc_size fs) per (Z.min (group_count fs) ((b + 1) * per)) mem.
Proof.
  intros [Hbs Hd Eper Hper Hgc En Hm] Hb HB Hdr. destruct (desc_count _ _ _ _ Hper Hgc En Hb) as (Hg0 & Hlt & ->). specialize (Hm Hg0). set (c := Z.min _ _ - _).
  assert (0 < c ≤ per ∧ b * per + c ≤ group_count fs) as Hc by (unfold c; lia). assert (per * desc_size fs ≤ dev_block_size) as Hfit by (rewrite Eper, <- Hbs, Z.mul_comm; apply Z.mul_div_le; lia).
  destruct (copy_descs_ok (Z.to_nat c) (desc_size fs) 0 (b * per) (B (first + b)) (gd_mem fs)) as (mem & E & El & Hnew & Hold); [lia|lia|nia|rewrite HB; nia|intros _; unfold sizeof_group_desc in *; lia|].
  exists mem. split; [done|]. split; [done|]. intros g i Hg Hi. destruct (Z.lt_ge_cases g (b * per)) as [Hlo|Hhi].
  - rewrite Hold; [apply Hdr; lia|]. unfold desc_part, sizeof_group_desc in *. lia.
  - specialize (Hnew (g - b * per) i ltac:(lia) Hi). replace (b * per + (g - b * per)) with g in Hnew by lia. rewrite Hnew. unfold desc_byte.
    assert (g / per = b ∧ g `mod` per = g - b * per) as [-> ->] by (split; [symmetry; eapply (Z.div_unique _ _ _ (g - b * per))|symmetry; apply (Z.mod_unique _ _ b)]; lia). done.
Qed.

Lemma read_descs_ok K n first per k s : kh_inv (e_heap s) K → reading (e_fs s) per n → Z.of_nat k ≤ n →
  descs_read (blocks s) first (desc_size (e_fs s)) per (Z.min (group_count (e_fs s)) ((n - Z.of_nat k) * per)) (gd_mem (e_fs s)) →
  wp (read_descs k n first per) s (λ s' ok, kh_inv (e_heap s') K ∧ (∀ b, blocks s' b = blocks s b) ∧
    ∃ mem, e_fs s' = with_gd (e_fs s) mem ∧ length mem = length (gd_mem (e_fs s)) ∧
    if ok then e_faults s' = e_faults s ∧ descs_read (blocks s) first (desc_size (e_fs s)) per (group_count (e_fs s)) mem
    else (e_faults s < e_faults s')%nat).
Proof.
  revert s. induction k as [|k IH]; intros s Hh Hrd Hk Hdr; cbn [read_descs].
  - apply wp_ret. split; [done|]. split; [done|]. exists (gd_mem (e_fs s)). split; [by destruct (e_fs s)|]. split; [done|]. split; [done|].
    destruct Hrd as [_ _ _ Hper Hgc En _]. replace (Z.min _ _) with (group_count (e_fs s)) in Hdr; [done|].
    pose proof (Z.div_mod (group_count (e_fs s) + per - 1) per ltac:(lia)) as Edm. pose proof (Z.mod_pos_bound (group_count (e_fs s) + per - 1) per Hper). rewrite <- En in Edm. lia.
  - apply wp_bind, wp_the_fs, wp_bind. set (b := n - Z.of_nat (S k)) in *. eapply wp_read_heap; [done|apply Hrd| |].
    2: { intros s1 Hh1 Hq. apply wp_ret. split; [done|]. split; [apply Hq|]. exists (gd_mem (e_fs s)). rewrite (q_fs _ _ _ Hq). split; [by destruct (e_fs s)|]. split; [done|]. rewrite (q_faults _ _ _ Hq). lia. }
    intros s1 Hh1 Hq. pose proof Hq as [E1 E2 E3]. destruct (block_descs (e_fs s) per n b (blocks s) first Hrd ltac:(lia) ltac:(intros; apply dev_blocks_length) Hdr) as (mem & E & El & Hdr').
    cbv zeta. apply wp_bind. eapply wp_lift; [exact E|]. apply wp_bind. exists (mk_est (e_heap s1) (e_dev s1) (with_gd (e_fs s) mem) (e_faults s1)), tt. split; [done|].
    eapply wp_mono; [apply (IH _)|]; cbn [e_heap e_fs].
    + done.
    + by apply reading_mem.
    + lia.
    + replace (n - Z.of_nat k) with (b + 1) by lia. cbn. intros g i Hg Hi. rewrite (Hdr' g i Hg Hi). unfold desc_byte. unfold blocks at 2. cbn [e_dev]. fold (blocks s1). by rewrite E2.
    + intros s' ok (Hh' & Eb & mem' & Ef & El' & Hok). split; [done|]. split; [intros c; rewrite Eb; apply E2|]. exists mem'. split; [done|]. split; [cbn in El'; lia|].
      destruct ok; [|cbn in Hok; lia]. destruct Hok as [Hf Hd']. cbn in Hf. split; [lia|]. intros g i Hg Hi. rewrite (Hd' g i Hg Hi). unfold desc_byte. unfold blocks at 1. cbn [e_dev]. fold (blocks s1). by rewrite E2.
Qed.

(** ** The superblock *)

Definition sb_total (sb : list Z) : Z := if wide_groups sb then Z.lor (fld s_blocks_count_lo sb) (Z.shiftl (fld s_blocks_count_hi sb) 32) else fld s_blocks_count_lo sb.
Definition sb_groups (sb : list Z) : Z := (sb_total sb + fld s_blocks_per_group sb - 1) / fld s_blocks_per_group sb.
Definition sb_desc_size (sb : list Z) : Z := if wide_groups sb then fld s_desc_size sb else 32.
Definition sb_inode_size (sb : list Z) : Z := if EXT4_DYNAMIC_REV <=? fld s_rev_level sb then fld s_inode_size sb else 128.

(** The superblock of a disk with blocks of 1024 bytes whose descriptors fit
    into the memory that ext4_mount allocates for them. *)
Record mountable (sb : list Z) : Prop := {
  ms_log : fld s_log_block_size sb = 0;
  ms_bpg : fld s_blocks_per_group sb ≠ 0;
  ms_desc : 0 < sb_desc_size sb ≤ 1024;
  ms_size : sb_groups sb * sb_desc_size sb < 2 ^ 31;
  ms_fit : sb_groups sb ≤ 1 ∨ sizeof_group_desc ≤ sb_desc_size sb
}.

(** What a mounted struct holds of the disk [B]. *)
Record mounted_from (B : Z → list Z) fs : Prop := {
  mf_sb : sb fs = take sizeof_superblock (B 1);
  mf_bs : block_size fs = 1024;
  mf_bpg : blocks_per_group fs = fld s_blocks_per_group (sb fs);
  mf_ipg : inodes_per_group fs = fld s_inodes_per_group (sb fs);
  mf_isize : inode_size fs = sb_inode_size (sb fs);
  mf_gc : group_count fs = sb_groups (sb fs);
  mf_dsize : desc_size fs = sb_desc_size (sb fs);
  mf_descs : descs_read B 2 (desc_size fs) (1024 / desc_size fs) (group_count fs) (gd_mem fs)
}.

Lemma sb_total_bound sb : Forall is_byte sb → 0 ≤ sb_total sb.
Proof.
  intros Hb. pose proof (fld_bound s_blocks_count_lo sb Hb). pose proof (fld_bound s_blocks_count_hi sb Hb). unfold sb_total. destruct (wide_groups sb); [|lia].
  apply Z.lor_nonneg. split; [lia|]. apply Z.shiftl_nonneg. lia.
Qed.

Lemma sb_groups_bound sb : Forall is_byte sb → mountable sb → 0 ≤ sb_groups sb < 2 ^ 31 ∧ u64 (sb_total sb + fld s_blocks_per_group sb - 1) / fld s_blocks_per_group sb = sb_groups sb.
Proof.
  intros Hb [_ Hbpg Hd Hs _]. pose proof (sb_total_bound _ Hb). pose proof (fld_bound s_blocks_per_group sb Hb) as Hp. change (256 ^ Z.of_nat (f_width s_blocks_per_group)) with (2 ^ 32) in Hp.
  assert (0 ≤ sb_groups sb) as Hge by (apply Z.div_pos; lia). assert (sb_groups sb < 2 ^ 31) by nia. split; [lia|]. rewrite u64_small; [done|].
  pose proof (Z.div_mod (sb_total sb + fld s_blocks_per_group sb - 1) (fld s_blocks_per_group sb) Hbpg) as E. fold (sb_groups sb) in E. pose proof (Z.mod_pos_bound (sb_total sb + fld s_blocks_per_group sb - 1) (fld s_blocks_per_group sb) ltac:(lia)). nia.
Qed.

(** ** ext4_mount *)

Definition disk_sb (B : Z → list Z) : list Z := take sizeof_superblock (B 1).
Definition has_magic (B : Z → list Z) : Prop := fld s_magic (disk_sb B) = EXT4_SUPER_MAGIC.

(** What is allocated while [fs] is mounted. *)
Definition with_mounted fs (K : gmap Z Z) : gmap Z Z := <[group_descs fs := group_count fs * desc_size fs]> (<[f_addr fs := sizeof_fs]> K).
Definition new_blocks fs (K : gmap Z Z) : Prop := K !! f_addr fs = None ∧ <[f_addr fs := sizeof_fs]> K !! group_descs fs = None.

Definition mount_spec (K : gmap Z Z) (B : Z → list Z) (faulty : Prop) (h : H) fs (r : Z) : Prop :=
  r = -1 ∧ kh_inv h K ∧ (faulty ∨ ¬ has_magic B) ∨
  r = 0 ∧ has_magic B ∧ kh_inv h (with_mounted fs K) ∧ new_blocks fs K ∧ mounted_from B fs.

Lemma mount_spec_ext K B B' X h fs r : (∀ b, B b = B' b) → mount_spec K B X h fs r → mount_spec K B' X h fs r.
Proof.
  intros E Hs. assert (disk_sb B = disk_sb B') as Esb by (unfold disk_sb; by rewrite E). assert (has_magic B ↔ has_magic B') as Em by (unfold has_magic; by rewrite Esb).
  destruct Hs as [(-> & Hh & Hs)|(-> & Hm & Hh & Hn & [])]; [left; tauto|right]. split; [done|]. split; [tauto|]. split; [done|]. split; [done|].
  constructor; try done; [by rewrite <- E|]. intros g i Hg Hi. rewrite (mf_descs0 g i Hg Hi). unfold desc_byte. by rewrite E.
Qed.

(** The fields of the struct before its descriptors are read. *)
Definition header_of (sb : list Z) (p : Z) : ext4_fs :=
  mk_fs p sb 1024 (fld s_blocks_per_group sb) (fld s_inodes_per_group sb) (sb_inode_size sb) (sb_groups sb) (sb_desc_size sb) 0 [].

Lemma load_descs_ok K stale p s : let sb := disk_sb (blocks s) in dev_block_size = 1024 → kh_inv (e_heap s) (<[p := sizeof_fs]> K) → K !! p = None → has_magic (blocks s) → mountable sb →
  wp (load_descs stale (header_of sb p)) s (λ s' r, (∀ b, blocks s' b = blocks s b) ∧ mount_spec K (blocks s) (e_faults s < e_faults s')%nat (e_heap s') (e_fs s') r).
Proof.
  intros sb Hdev Hh Hp Hmagic Hm. assert (Forall is_byte sb) as Hsb by (apply Forall_take, dev_blocks_bytes). destruct (sb_groups_bound _ Hsb Hm) as [Hgc _]. destruct Hm as [Elog Hbpg Hds Hsize Hfit].
  unfold load_descs. cbn [group_count desc_size f_addr block_size header_of with_descs]. rewrite u32_small by nia. set (n := sb_groups sb * sb_desc_size sb) in *.
  assert (∀ s2 s3 : est, kh_inv (e_heap s3) K → (∀ b, blocks s2 b = blocks s b) → quiet 0 s2 s3 → (e_faults s < e_faults s2)%nat →
    (∀ b, blocks s3 b = blocks s b) ∧ mount_spec K (blocks s) (e_faults s < e_faults s3)%nat (e_heap s3) (e_fs s3) (-1)) as Hfail.
  { intros s2 s3 Hh3 Eb Hq Hf. split; [intros b; rewrite (q_blocks _ _ _ Hq); apply Eb|]. left. split; [done|]. split; [done|]. left. rewrite (q_faults _ _ _ Hq). lia. }
  apply wp_bind. eapply wp_kmalloc_heap; [done|nia| |].
  2: { intros s1 Hh1 Hq1. apply wp_bind. eapply wp_kfree_heap; [done..|]. intros s2 Hh2 Hq2. apply wp_ret. eapply Hfail; [done|apply Hq1|done|rewrite (q_faults _ _ _ Hq1); lia]. }
  intros s1 g Hg Hh1 Hq1. cbv zeta. match goal with |- context [set_fs ?f] => set (fs := f) end. apply wp_bind. eexists _, tt. split; [done|]. set (s1' := mk_est (e_heap s1) (e_dev s1) fs (e_faults s1)).
  apply wp_bind. eapply (wp_kmalloc_heap (<[g := n]> (<[p := sizeof_fs]> K))); [done|lia| |].
  2: { intros s2 Hh2 Hq2. apply wp_bind. eapply wp_kfree_heap; [done..|]. intros s3 Hh3 Hq3. apply wp_bind. eapply wp_kfree_heap; [done..|]. intros s4 Hh4 Hq4. apply wp_ret.
       pose proof (quiet_trans _ _ _ _ _ Hq3 Hq4) as Hq. cbn in Hq. eapply Hfail; [done| |exact Hq|].
       - intros b. rewrite (q_blocks _ _ _ Hq2). apply Hq1.
       - rewrite (q_faults _ _ _ Hq2). cbn. rewrite (q_faults _ _ _ Hq1). lia. }
  intros s2 gb Hgb Hh2 Hq2. apply wp_bind, wp_udiv; [lia|]. set (per := 1024 / sb_desc_size sb). assert (0 < per ≤ 1024) as Hper by (unfold per; split; [apply Z.div_str_pos; lia|apply Z.div_le_upper_bound; nia]).
  apply wp_bind, wp_udiv; [lia|]. rewrite u32_small by lia. change (1024 =? 1024) with true. cbv iota. set (m := (sb_groups sb + per - 1) / per).
  assert (0 ≤ m) as Hm0 by (apply Z.div_pos; lia). assert (e_fs s2 = fs) as Ef2 by (by rewrite (q_fs _ _ _ Hq2)). assert (∀ b, blocks s2 b = blocks s b) as Eb2 by (intros b; rewrite (q_blocks _ _ _ Hq2); apply Hq1).
  assert (e_faults s2 = e_faults s) as Ex2 by (rewrite (q_faults _ _ _ Hq2); cbn; by rewrite (q_faults _ _ _ Hq1)).
  assert (reading (e_fs s2) per m) as Hrd.
  { rewrite Ef2. constructor; try done; unfold fs; cbn [gd_mem with_descs group_count desc_size header_of]; [lia..|]. rewrite length_fmap, length_seqZ. unfold n, desc_part, sizeof_group_desc in *. nia. }
  apply wp_bind. eapply wp_mono; [apply (read_descs_ok _ m 2 per (Z.to_nat m) s2 Hh2 Hrd)|].
  { lia. }
  { rewrite Z2Nat.id, Z.sub_diag by lia. intros g' i Hg'. lia. }
  intros s3 ok (Hh3 & Eb3 & mem & Ef3 & _ & Hok). rewrite Ef2 in *. destruct ok.
  - apply wp_bind. eapply wp_kfree_heap; [done..|]. intros s4 Hh4 Hq4. apply wp_ret. split; [intros b; rewrite (q_blocks _ _ _ Hq4), Eb3; apply Eb2|]. right. rewrite (q_fs _ _ _ Hq4), Ef3.
    split; [done|]. split; [done|]. split; [done|]. split; [done|]. constructor; try done. cbn. destruct Hok as [_ Hd]. intros g' i Hg' Hi. rewrite (Hd g' i Hg' Hi). unfold desc_byte. by rewrite Eb2.
  - apply wp_bind. eapply wp_kfree_heap; [done..|]. intros s4 Hh4 Hq4. apply wp_bind. eapply wp_kfree_heap; [done..|]. intros s5 Hh5 Hq5. apply wp_bind. eapply wp_kfree_heap; [done..|]. intros s6 Hh6 Hq6. apply wp_ret.
    pose proof (quiet_trans _ _ _ _ _ (quiet_trans _ _ _ _ _ Hq4 Hq5) Hq6) as Hq. cbn in Hq. eapply Hfail; [done| |exact Hq|lia]. intros b. rewrite Eb3. apply Eb2.
Qed.

Lemma mount_body_ok K stale p s : dev_block_size = 1024 → kh_inv (e_heap s) (<[p := sizeof_fs]> K) → K !! p = None → (has_magic (blocks s) → mountable (disk_sb (blocks s))) →
  wp (mount_body stale p) s (λ s' r, (∀ b, blocks s' b = blocks s b) ∧ mount_spec K (blocks s) (e_faults s < e_faults s')%nat (e_heap s') (e_fs s') r).
Proof.
  intros Hdev Hh Hp Hmt. unfold mount_body. apply wp_bind. eexists s, s. split; [done|]. destruct (dev_read 1 (e_dev s)) as [d r] eqn:Er. destruct (dev_read_ok _ _ _ _ Er) as [Hd Hr].
  apply wp_bind. eexists _, tt. split; [done|]. set (s1 := fault_if _ _).
  assert (kh_inv (e_heap s1) (<[p := sizeof_fs]> K) ∧ ∀ b, blocks s1 b = blocks s b) as [Hh1 Eb1] by (unfold s1, fault_if; destruct (bool_decide _); split; [done|apply Hd|done|apply Hd]).
  destruct r as [l|].
  2: { apply wp_bind. eapply wp_kfree_heap; [done..|]. intros s2 Hh2 Hq. apply wp_ret. split; [intros b; rewrite (q_blocks _ _ _ Hq); apply Eb1|]. left. split; [done|]. split; [done|]. left.
       rewrite (q_faults _ _ _ Hq). cbn. lia. }
  assert (e_faults s1 = e_faults s) as Ef1 by done. clearbody s1. subst l. pose proof (dev_blocks_length (e_dev s) 1) as Hl. destruct (Z.ltb_spec 1024 (Z.of_nat (length (dev_blocks (e_dev s) 1)))); [lia|].
  apply wp_bind. eapply wp_lift; [apply get_bytes_ok; [lia|unfold sizeof_superblock; lia]|]. rewrite drop_0. fold (blocks s). fold (disk_sb (blocks s)). set (sb := disk_sb (blocks s)) in *.
  assert (Forall is_byte sb) as Hsb by (apply Forall_take, dev_blocks_bytes).
  destruct (Z.eqb_spec (fld s_magic sb) EXT4_SUPER_MAGIC) as [Hmagic|Hmagic]; cbn [negb].
  2: { apply wp_bind. eapply wp_kfree_heap; [done..|]. intros s2 Hh2 Hq. apply wp_ret. split; [intros b; rewrite (q_blocks _ _ _ Hq); apply Eb1|]. left. auto. }
  pose proof (Hmt Hmagic) as Hm. destruct (sb_groups_bound _ Hsb Hm) as [Hgc Egc]. destruct Hm as [Elog Hbpg Hds Hsize Hfit]. rewrite Elog. cbv zeta. change (Z.shiftl 1024 0) with 1024.
  fold (sb_total sb). fold (sb_desc_size sb). fold (sb_inode_size sb). apply wp_bind. apply wp_udiv; [done|]. rewrite Egc. rewrite (u32_small (sb_groups sb)) by lia.
  assert (disk_sb (blocks s1) = sb) as Esb by (unfold sb, disk_sb; by rewrite Eb1).
  assert (has_magic (blocks s1) ∧ mountable (disk_sb (blocks s1))) as [Hmagic1 Hm1] by (split; [unfold has_magic|]; rewrite Esb; [done|by apply Hmt]).
  destruct (load_descs_ok K stale p s1 Hdev Hh1 Hp Hmagic1 Hm1) as (s2 & r & E & Eb2 & Hs). rewrite Esb in E.
  exists s2, r. split; [exact E|]. split; [intros b; rewrite Eb2; apply Eb1|]. rewrite Ef1 in Hs. by eapply mount_spec_ext.
Qed.

(** ** ext4_unmount *)

Lemma inserts_prefix (n : nat) (l : list Z) : list_inserts 0 (take n l) l = l.
Proof.
  apply list_eq. intros i. destruct (decide (i < n)%nat) as [Hi|Hi]; [destruct (decide (i < length l)%nat)|].
  - rewrite list_lookup_inserts by (rewrite ?length_take; lia). rewrite Nat.sub_0_r. by apply lookup_take_lt.
  - rewrite !lookup_ge_None_2; rewrite ?length_inserts; by try lia.
  - apply list_lookup_inserts_ge. rewrite length_take. lia.
Qed.

(** The superblock written over the block it was read from. *)
Lemma sync_ok K s : dev_block_size = 1024 → block_size (e_fs s) = 1024 → kh_inv (e_heap s) K → length (sb (e_fs s)) = sizeof_superblock → Forall is_byte (sb (e_fs s)) →
  wp ext4_sync_superblock s (λ s' _, kh_inv (e_heap s') K ∧ e_fs s' = e_fs s ∧
    ((∀ b, blocks s' b = blocks s b) ∧ (e_faults s < e_faults s')%nat ∨ ∀ b, blocks s' b = if bool_decide (b = 1) then list_inserts 0 (sb (e_fs s)) (blocks s 1) else blocks s b)).
Proof.
  intros Hdev Hbs Hh Hl Hb. assert (∀ n (s1 s2 : est), quiet n s s1 → (n ≠ 0)%nat → quiet 0 s1 s2 → kh_inv (e_heap s2) K → kh_inv (e_heap s2) K ∧ e_fs s2 = e_fs s ∧
    ((∀ b, blocks s2 b = blocks s b) ∧ (e_faults s < e_faults s2)%nat ∨ ∀ b, blocks s2 b = if bool_decide (b = 1) then list_inserts 0 (sb (e_fs s)) (blocks s 1) else blocks s b)) as Hfail.
  { intros n s1 s2 Hq Hn Hq2 Hk. destruct (quiet_trans _ _ _ _ _ Hq Hq2) as [E1 E2 E3]. split; [done|]. split; [done|]. left. split; [done|lia]. }
  apply wp_bind, wp_the_fs, wp_bind. eapply wp_kmalloc_heap; [done|lia| |]. 2: { intros s1 Hh1 Hq1. apply wp_ret. eapply Hfail; [done|done|apply quiet_same|done]. }
  intros s1 p Hp Hh1 Hq1. rewrite Hbs. change (1024 =? 1024) with true. cbv zeta iota. apply wp_bind. eapply wp_read_heap; [done|by rewrite (q_fs _ _ _ Hq1), Hbs| |].
  2: { intros s2 Hh2 Hq2. apply wp_bind. eapply wp_kfree_heap; [done..|]. intros s3 Hh3 Hq3. apply wp_ret. eapply Hfail; [exact (quiet_trans _ _ _ _ _ Hq1 Hq2)|done|done|done]. }
  intros s2 Hh2 Hq2. pose proof (dev_blocks_length (e_dev s1) 1) as Hl1. apply wp_bind. eapply wp_lift; [apply set_bytes_ok; [lia|unfold sizeof_superblock in Hl; unfold blocks; lia]|].
  pose proof (quiet_trans _ _ _ _ _ Hq1 Hq2) as Hq. cbn in Hq. rewrite (q_blocks _ _ _ Hq1). change (Z.to_nat 0) with 0%nat. apply wp_bind. eapply wp_write_heap; [done| | | |].
  - rewrite length_inserts. apply dev_blocks_length.
  - apply inserts_bytes; [done|apply dev_blocks_bytes].
  - intros s3 w Hh3 _ [W1 W2 W3]. apply wp_bind. eapply wp_kfree_heap; [done..|]. intros s4 Hh4 [V1 V2 V3]. apply wp_ret. split; [done|]. destruct Hq as [Q1 Q2 Q3]. split; [congruence|]. right.
    intros b. rewrite V2, W2. by rewrite Q2.
  - intros s3 w Hh3 _ Hq3. apply wp_bind. eapply wp_kfree_heap; [done..|]. intros s4 Hh4 Hq4. apply wp_ret. eapply Hfail; [exact (quiet_trans _ _ _ _ _ Hq Hq3)|done|done|done].
Qed.

Lemma unmount_ok K fs (t : ext4_driver) : dev_block_size = 1024 → p_root t = Some fs → block_size fs = 1024 → length (sb fs) = sizeof_superblock → Forall is_byte (sb fs) →
  kh_inv (p_heap t) (with_mounted fs K) → new_blocks fs K →
  ∃ t', ext4_unmount t = Some (t', 0) ∧ p_root t' = None ∧ kh_inv (p_heap t') K ∧
    ((∀ b, dev_blocks (p_dev t') b = dev_blocks (p_dev t) b) ∧ (p_faults t < p_faults t')%nat ∨
     ∀ b, dev_blocks (p_dev t') b = if bool_decide (b = 1) then list_inserts 0 (sb fs) (dev_blocks (p_dev t) 1) else dev_blocks (p_dev t) b).
Proof.
  intros Hdev Hr Hbs Hl Hb Hh [Hn1 Hn2]. unfold ext4_unmount. rewrite Hr. set (s := mk_est _ _ _ _).
  assert (wp (bind ext4_sync_superblock (λ _, bind (kfree (group_descs fs)) (λ _, kfree (f_addr fs)))) s (λ s' _, kh_inv (e_heap s') K ∧
    ((∀ b, blocks s' b = blocks s b) ∧ (e_faults s < e_faults s')%nat ∨ ∀ b, blocks s' b = if bool_decide (b = 1) then list_inserts 0 (sb fs) (blocks s 1) else blocks s b))) as (s' & x & E & Hh' & Hs).
  { apply wp_bind. eapply wp_mono; [by apply (sync_ok (with_mounted fs K) s)|]. intros s1 w (Hh1 & _ & Hs). apply wp_bind. eapply wp_kfree_heap; [done..|]. intros s2 Hh2 [_ Q2 Q3].
    eapply wp_kfree_heap; [done..|]. intros s3 Hh3 [_ V2 V3]. split; [done|]. destruct Hs as [[Hs Hf]|Hs]; [left|right].
    - split; [intros b; by rewrite V2, Q2|]. rewrite V3, Q3. exact Hf.
    - intros b. rewrite V2, Q2. apply Hs. }
  rewrite E. cbn [mbind option_bind]. eexists. split; [done|]. split; [done|]. by split.
Qed.

(** ** Theorems *)

(** C13: ext4_mount on a device with blocks of 1024 bytes whose superblock, if
    it has the magic number, is [mountable]: blocks of 1024 bytes, groups that
    are not empty, descriptors of 1 to 1024 bytes that take less than 2^31
    together, and either one group at most or descriptors of at least 64 bytes
    (otherwise the descriptor table overruns its buffer,
    [descriptors_overflow]).  It either fails, because a call failed or the
    magic number is wrong, with everything freed that it allocated and the old
    file system still mounted, or it mounts a struct with the parameters of the
    superblock and every group descriptor of the disk.  The disk is not
    changed.  Unmounting right after that mount (nothing is claimed for an
    unmount later on) frees both allocations and leaves the disk as it was,
    superblock included. *)
Theorem ext4_mount_correct K stale (t : ext4_driver) : dev_block_size = 1024 → kh_inv (p_heap t) K →
  (has_magic (dev_blocks (p_dev t)) → mountable (disk_sb (dev_blocks (p_dev t)))) →
  ∃ t' r, ext4_mount stale t = Some (t', r) ∧ (∀ b, dev_blocks (p_dev t') b = dev_blocks (p_dev t) b) ∧
    (r = -1 ∧ p_root t' = p_root t ∧ kh_inv (p_heap t') K ∧ ((p_faults t < p_faults t')%nat ∨ ¬ has_magic (dev_blocks (p_dev t))) ∨
     r = 0 ∧ ∃ fs, p_root t' = Some fs ∧ mounted_from (dev_blocks (p_dev t)) fs ∧ kh_inv (p_heap t') (with_mounted fs K) ∧
       ∃ t'', ext4_unmount t' = Some (t'', 0) ∧ p_root t'' = None ∧ kh_inv (p_heap t'') K ∧ ∀ b, dev_blocks (p_dev t'') b = dev_blocks (p_dev t) b).
Proof.
  intros Hdev Hh Hmt. unfold ext4_mount. set (s := mk_est (p_heap t) (p_dev t) no_fs (p_faults t)).
  assert (wp (kmalloc sizeof_fs) s (λ s' r, wp (match r with None => ret (-1) | Some p => mount_body stale p end) s'
    (λ s'' x, (∀ b, blocks s'' b = blocks s b) ∧ mount_spec K (blocks s) (e_faults s < e_faults s'')%nat (e_heap s'') (e_fs s'') x))) as (s1 & r1 & E1 & s2 & r2 & E2 & Eb & Hs).
  { eapply wp_kmalloc_heap; [done|done| |].
    - intros s1 p Hp Hh1 [_ Q2 Q3]. cbn in Q3. assert (has_magic (blocks s1) → mountable (disk_sb (blocks s1))) as Hmt1 by (unfold has_magic, disk_sb; by rewrite Q2).
      eapply wp_mono; [by apply (mount_body_ok K stale p s1)|]. intros s2 r [Eb Hs]. split; [intros b; by rewrite Eb|]. rewrite Q3 in Hs. by eapply mount_spec_ext.
    - intros s1 Hh1 [_ Q2 Q3]. apply wp_ret. split; [done|]. left. split; [done|]. split; [done|]. left. rewrite Q3. cbn. lia. }
  rewrite E1. cbn [mbind option_bind]. rewrite E2. cbn [mbind option_bind]. eexists _, r2. split; [done|]. split; [exact Eb|]. destruct Hs as [(-> & Hh2 & Hs)|(-> & _ & Hh2 & Hn & Hm)]; [left; by split|].
  right. split; [done|]. exists (e_fs s2). split; [done|]. split; [done|]. split; [done|]. assert (Z.of_nat (length (dev_blocks (p_dev t) 1)) = 1024) as Hl by (by rewrite dev_blocks_length).
  assert (length (sb (e_fs s2)) = sizeof_superblock) as Hlsb by (rewrite (mf_sb _ _ Hm), length_take; change (blocks s 1) with (dev_blocks (p_dev t) 1); unfold sizeof_superblock; lia).
  destruct (unmount_ok K (e_fs s2) (mk_driver (e_heap s2) (e_dev s2) (Some (e_fs s2)) (e_faults s2))) as (t2 & E & Hr & Hh3 & Hd); try done.
  { apply Hm. }
  { rewrite (mf_sb _ _ Hm). apply Forall_take, dev_blocks_bytes. }
  exists t2. split; [exact E|]. split; [done|]. split; [done|]. intros b. destruct Hd as [[Hd _]|Hd]; [rewrite Hd; apply Eb|]. cbn [p_dev] in Hd. rewrite Hd. case_bool_decide as Hb; [|apply Eb].
  subst b. unfold blocks in Eb. rewrite Eb, (mf_sb _ _ Hm). apply inserts_prefix.
Qed.
End Mount.

Lemma demo_mountable : mountable (disk_sb (block_at demo_disk)).
Proof. constructor; vm_compute; try done; by left. Qed.

Lemma ext4_mount_correct_witness : ∃ t' fs t'', ext4_mount (λ _, 0) (mk_driver boot_heap demo_disk None 0) = Some (t', 0) ∧ p_root t' = Some fs ∧ mounted_from (block_at demo_disk) fs ∧
  ext4_unmount t' = Some (t'', 0) ∧ ∀ b, block_at (p_dev t'') b = block_at demo_disk b.
Proof.
  destruct (ext4_mount_correct (BlockLaws0 := disk_laws) ∅ (λ _, 0) (mk_driver boot_heap demo_disk None 0) eq_refl (proj1 (proj1 (proj1 demo_disk_inv))) (λ _, demo_mountable)) as (t' & r & E & _ & Hs).
  assert (snd <$> ext4_mount (λ _, 0) (mk_driver boot_heap demo_disk None 0) = Some 0) as Er by (vm_compute; reflexivity). rewrite E in Er. injection Er as ->.
  destruct Hs as [[Hr _]|(_ & fs & Hf & Hm & _ & t'' & Eu & _ & _ & Hd)]; [lia|]. exists t', fs, t''. split; [exact E|]. split; [exact Hf|]. split; [exact Hm|]. split; [exact Eu|exact Hd].
Defined.
