(* ===== verification/Ext4Dirs.v ===== *)
(** * ext4: directories and creation

    The entries of a directory as a list ([dir_listing]), that
    ext4_add_dir_entry adds one to it, and that ext4_create_file makes an empty
    file under a new name. *)

From stdpp Require Import functions.
From S2P Require Import Prelude KHeap Kmalloc Ext4 Ext4Alloc Ext4Files Ext4Correct.

(** ** The entries of a block *)

Record dirent := mk_dirent { d_ino : Z; d_type : Z; d_name : list Z }.

#[export] Instance dirent_eq_dec : EqDecision dirent.
Proof. solve_decision. Defined.

Definition rec_at (buf : list Z) (o : Z) : Z := fld (at_base o de_rec_len) buf.
Definition nlen_at (buf : list Z) (o : Z) : Z := fld (at_base o de_name_len) buf.
Definition actual_at (buf : list Z) (o : Z) : Z := entry_size (nlen_at buf o).
Definition entry_at (buf : list Z) (o : Z) : dirent :=
  mk_dirent (fld (at_base o de_inode) buf) (fld (at_base o de_file_type) buf) (take (Z.to_nat (nlen_at buf o)) (drop (Z.to_nat (o + 8)) buf)).

(** An entry lies in the block and is large enough for its name. *)
Definition entry_ok (bs : Z) (buf : list Z) (o : Z) : bool := (o + 8 <=? bs) && (actual_at buf o <=? rec_at buf o) && (o + rec_at buf o <=? bs).

(** The places of the entries from [o] on, if they fill the block. *)
Fixpoint offsets (k : nat) (bs : Z) (buf : list Z) (o : Z) : option (list Z) :=
  match k with
  | O => None
  | S k' => if o =? bs then Some [] else if entry_ok bs buf o then (o ::.) <$> offsets k' bs buf (o + rec_at buf o) else None
  end.
Definition listing (bs : Z) (buf : list Z) : option (list dirent) := option_map (map (entry_at buf)) (offsets (S (Z.to_nat bs)) bs buf 0).

(** The same without fuel. *)
Fixpoint chain (bs : Z) (buf : list Z) (o : Z) (l : list Z) : Prop :=
  match l with
  | [] => o = bs
  | x :: l' => x = o ∧ o ≠ bs ∧ entry_ok bs buf o = true ∧ chain bs buf (o + rec_at buf o) l'
  end.

(** The bytes [a, b) of two buffers are the same. *)
Definition same_bytes (a b : Z) (l l' : list Z) : Prop := ∀ i : nat, a ≤ Z.of_nat i < b → l' !! i = l !! i.

Lemma slice_same o n (l l' : list Z) : same_bytes (Z.of_nat o) (Z.of_nat o + Z.of_nat n) l l' → take n (drop o l') = take n (drop o l).
Proof.
  intros Hs. apply list_eq. intros i. destruct (decide (i < n)%nat) as [Hi|Hi]; [|by rewrite !lookup_take_ge by lia].
  rewrite !lookup_take_lt, !lookup_drop by lia. apply Hs. lia.
Qed.

Lemma fld_same f l l' : 0 ≤ f_off f → same_bytes (f_off f) (f_off f + Z.of_nat (f_width f)) l l' → fld f l' = fld f l.
Proof. intros Ho Hs. unfold fld. rewrite (slice_same _ _ l l'); [done|]. by rewrite Z2Nat.id. Qed.

Lemma same_bytes_sub a b a' b' l l' : same_bytes a b l l' → a ≤ a' → b' ≤ b → same_bytes a' b' l l'.
Proof. intros Hs Ha Hb i Hi. apply Hs. lia. Qed.

Lemma same_inserts (o : nat) k l a b : b ≤ Z.of_nat o ∨ Z.of_nat o + Z.of_nat (length k) ≤ a → same_bytes a b l (list_inserts o k l).
Proof. intros Hd i Hi. destruct Hd; [apply list_lookup_inserts_lt|apply list_lookup_inserts_ge]; lia. Qed.

Lemma same_trans a b l1 l2 l3 : same_bytes a b l1 l2 → same_bytes a b l2 l3 → same_bytes a b l1 l3.
Proof. intros H1 H2 i Hi. by rewrite H2, H1. Qed.

Lemma same_upd f v l a b : 0 ≤ f_off f → b ≤ f_off f ∨ f_off f + Z.of_nat (f_width f) ≤ a → same_bytes a b l (upd f v l).
Proof. intros Ho Hd. apply same_inserts. rewrite length_le_put. lia. Qed.

(** The size of an entry: its name and 8 bytes, rounded up to a multiple of 4. *)
Lemma entry_size_spec n : 0 ≤ n ≤ 255 → 8 + n ≤ entry_size n ≤ 8 + n + 3 ∧ entry_size n ≤ 264.
Proof.
  intros Hn. unfold entry_size. change (Z.lnot 3) with (Z.lnot (Z.ones 2)). rewrite land_lnot_ones by lia. unfold u16. rewrite (Z.mod_small (8 + n)) by lia. change (2 ^ 2) with 4. lia_mod.
Qed.

Lemma at_within o f (l : list Z) : 0 ≤ o → 0 ≤ f_off f → o + f_off f + Z.of_nat (f_width f) ≤ Z.of_nat (length l) → within (at_base o f) l.
Proof. intros. split; cbn; lia. Qed.

(** Arithmetic on the places of the fields of an entry. *)
Ltac ent := cbn [f_off f_width at_base de_inode de_rec_len de_name_len de_file_type]; lia.

(** Writing an entry. *)
Lemma put_entry_ok o ino rl name ft buf : 0 ≤ o → o + 8 + Z.of_nat (length name) ≤ Z.of_nat (length buf) → Z.of_nat (length name) ≤ 255 → Forall is_byte buf → Forall is_byte name →
  0 ≤ ino < 2 ^ 32 → 0 ≤ rl < 2 ^ 16 → 0 ≤ ft < 256 →
  ∃ buf', put_entry o ino rl name ft buf = Some buf' ∧ length buf' = length buf ∧ Forall is_byte buf' ∧ rec_at buf' o = rl ∧ nlen_at buf' o = Z.of_nat (length name) ∧
    entry_at buf' o = mk_dirent ino ft name ∧ ∀ a b, b ≤ o ∨ o + 8 + Z.of_nat (length name) ≤ a → same_bytes a b buf buf'.
Proof.
  intros Ho Hl Hn Hb Hname Hino Hrl Hft. unfold put_entry.
  set (b1 := upd (at_base o de_inode) ino buf). set (b2 := upd (at_base o de_rec_len) rl b1). set (b3 := upd (at_base o de_name_len) (Z.of_nat (length name)) b2).
  set (b4 := upd (at_base o de_file_type) ft b3).
  assert (length b1 = length buf ∧ length b2 = length buf ∧ length b3 = length buf ∧ length b4 = length buf) as (L1 & L2 & L3 & L4) by (unfold b4, b3, b2, b1; by rewrite !length_upd).
  rewrite (setf_upd o de_inode) by (apply at_within; ent). cbn [mbind option_bind]. fold b1. rewrite (setf_upd o de_rec_len) by (apply at_within; ent). cbn [mbind option_bind]. fold b2.
  rewrite (setf_upd o de_name_len) by (apply at_within; ent). cbn [mbind option_bind]. fold b3. rewrite (setf_upd o de_file_type) by (apply at_within; ent). cbn [mbind option_bind]. fold b4.
  rewrite set_bytes_ok by lia. set (b5 := list_inserts (Z.to_nat (o + 8)) name b4). exists b5. split; [done|]. assert (length b5 = length buf) as L5 by (unfold b5; by rewrite length_inserts).
  assert (∀ f, 0 ≤ f_off f → f_off f + Z.of_nat (f_width f) ≤ 8 → fld (at_base o f) b5 = fld (at_base o f) b4) as E5.
  { intros f F1 F2. apply fld_same; [ent|]. apply same_inserts. cbn. lia. }
  assert (fld (at_base o de_inode) b5 = ino) as Ei.
  { rewrite E5 by (ent). unfold b4, b3, b2. rewrite !fld_upd_other by (first [unfold apart; ent|ent]). unfold b1. rewrite fld_upd_same by (apply at_within; ent). by apply Z.mod_small. }
  assert (rec_at b5 o = rl) as Er.
  { unfold rec_at. rewrite E5 by (ent). unfold b4, b3. rewrite !fld_upd_other by (first [unfold apart; ent|ent]). unfold b2. rewrite fld_upd_same by (apply at_within; ent). by apply Z.mod_small. }
  assert (nlen_at b5 o = Z.of_nat (length name)) as En.
  { unfold nlen_at. rewrite E5 by (ent). unfold b4. rewrite !fld_upd_other by (first [unfold apart; ent|ent]). unfold b3. rewrite fld_upd_same by (apply at_within; ent). apply Z.mod_small. cbn. lia. }
  assert (fld (at_base o de_file_type) b5 = ft) as Et.
  { rewrite E5 by (ent). unfold b4. rewrite fld_upd_same by (apply at_within; ent). by apply Z.mod_small. }
  split; [done|]. split; [unfold b5, b4, b3, b2, b1; apply inserts_bytes; [done|]; by repeat apply upd_bytes|]. split; [done|]. split; [done|]. split.
  - unfold entry_at. rewrite Ei, En, Et, Nat2Z.id. f_equal. apply slice_inserts_same. lia.
  - intros a b Hd. unfold b5, b4, b3, b2, b1. eapply same_trans; [|apply same_inserts; lia]. repeat (eapply same_trans; [|apply same_upd; ent]). by intros i _.
Qed.

(** ** The scan of a block *)

Lemma nlen_range buf o : Forall is_byte buf → 0 ≤ nlen_at buf o ≤ 255.
Proof. intros Hb. pose proof (fld_bound (at_base o de_name_len) buf Hb) as Hf. change (256 ^ _) with 256 in Hf. unfold nlen_at. lia. Qed.

Lemma rec_range buf o : Forall is_byte buf → 0 ≤ rec_at buf o < 2 ^ 16.
Proof. intros Hb. pose proof (fld_bound (at_base o de_rec_len) buf Hb) as Hf. change (256 ^ _) with (2 ^ 16) in Hf. exact Hf. Qed.

Lemma entry_ok_spec bs buf o : Forall is_byte buf → entry_ok bs buf o = true →
  o + 8 ≤ bs ∧ 8 + nlen_at buf o ≤ actual_at buf o ≤ rec_at buf o ∧ o + rec_at buf o ≤ bs.
Proof.
  intros Hb Hok. unfold entry_ok in Hok. apply andb_prop in Hok as [Hok H3%Z.leb_le]. apply andb_prop in Hok as [H1%Z.leb_le H2%Z.leb_le].
  pose proof (entry_size_spec _ (nlen_range buf o Hb)) as [Hs _]. unfold actual_at in *. lia.
Qed.

(** The header of the entry at [o], and the whole entry, are the same. *)
Definition same_header (o : Z) (l l' : list Z) : Prop := rec_at l' o = rec_at l o ∧ nlen_at l' o = nlen_at l o.

Lemma header_same o l l' : 0 ≤ o → same_bytes o (o + 8) l l' → same_header o l l'.
Proof. intros Ho Hs. split; (apply fld_same; [ent|eapply same_bytes_sub; [done|ent|ent]]). Qed.

Lemma entry_same o l l' : 0 ≤ o → Forall is_byte l → same_bytes o (o + 8 + nlen_at l o) l l' → entry_at l' o = entry_at l o.
Proof.
  intros Ho Hb Hs. pose proof (nlen_range l o Hb). destruct (header_same o l l' Ho) as [_ En]; [eapply same_bytes_sub; [done|lia|lia]|]. unfold entry_at. rewrite En. f_equal.
  - apply fld_same; [ent|]. eapply same_bytes_sub; [done|ent|ent].
  - apply fld_same; [ent|]. eapply same_bytes_sub; [done|ent|ent].
  - apply slice_same. eapply same_bytes_sub; [done|lia|lia].
Qed.

Lemma chain_range bs buf o l x : Forall is_byte buf → chain bs buf o l → x ∈ l → o ≤ x ∧ x + rec_at buf x ≤ bs ∧ entry_ok bs buf x = true.
Proof.
  intros Hb. revert o. induction l as [|y l IH]; intros o Hc Hx; [by apply elem_of_nil in Hx|]. destruct Hc as (-> & Hne & Hok & Hc). destruct (entry_ok_spec _ _ _ Hb Hok) as (_ & Ha & Hr). pose proof (nlen_range buf o Hb).
  apply elem_of_cons in Hx as [->|Hx]; [split; [lia|]; by split|]. destruct (IH _ Hc Hx) as (I1 & I2 & I3). split; [lia|]. by split.
Qed.

Lemma entries_frame bs buf buf' o l : chain bs buf o l → (∀ x, x ∈ l → same_header x buf buf') → chain bs buf' o l.
Proof.
  revert o. induction l as [|y l IH]; intros o Hc Hs; [done|]. destruct Hc as (-> & Hne & Hok & Hc). destruct (Hs o ltac:(apply list_elem_of_here)) as [E1 E2]. cbn [chain]. unfold entry_ok, actual_at in *. rewrite E1, E2.
  split; [done|]. split; [done|]. split; [done|]. apply IH; [done|]. intros x Hx. apply Hs. by apply list_elem_of_further.
Qed.

(** The buffer [buf'] has the entries of [buf], at [l], and one more. *)
Definition added (bs o : Z) (buf : list Z) (l : list Z) (e : dirent) (buf' : list Z) : Prop :=
  length buf' = length buf ∧ Forall is_byte buf' ∧ same_bytes 0 o buf buf' ∧ (∀ x, x ∈ l → entry_at buf' x = entry_at buf x) ∧
  ∃ l1 y l2, l = l1 ++ l2 ∧ chain bs buf' o (l1 ++ y :: l2) ∧ entry_at buf' y = e.

(** The new entry in the slack after the entry at [o]. *)
Lemma add_here bs buf o l name ino ft : Z.of_nat (length buf) = bs → Forall is_byte buf → Forall is_byte name → Z.of_nat (length name) ≤ 255 → 0 ≤ ino < 2 ^ 32 → 0 ≤ ft < 256 →
  0 ≤ o → chain bs buf o (o :: l) → actual_at buf o < rec_at buf o → entry_size (Z.of_nat (length name)) ≤ rec_at buf o - actual_at buf o →
  ∃ b buf', setf o de_rec_len (actual_at buf o) buf = Some b ∧ put_entry (o + actual_at buf o) ino (rec_at buf o - actual_at buf o) name ft b = Some buf' ∧
    added bs o buf (o :: l) (mk_dirent ino ft name) buf'.
Proof.
  intros Hl Hb Hname Hn Hino Hft Ho (_ & Hne & Hok & Hc) Hlt Hroom. destruct (entry_ok_spec _ _ _ Hb Hok) as (H8 & Ha & Hr). pose proof (nlen_range buf o Hb). pose proof (rec_range buf o Hb).
  set (act := actual_at buf o) in *. set (rl := rec_at buf o) in *. destruct (entry_size_spec (Z.of_nat (length name)) ltac:(lia)) as [Hs _].
  rewrite setf_upd by (apply at_within; ent). set (b := upd (at_base o de_rec_len) act buf). assert (length b = length buf) as Lb by apply length_upd. assert (Forall is_byte b) as Bb by (by apply upd_bytes).
  destruct (put_entry_ok (o + act) ino (rl - act) name ft b) as (buf' & Ep & El & Bb' & Er' & En' & Ee' & Hout); [lia|lia|lia|done|done|done|lia|done|]. exists b, buf'. split; [done|]. split; [done|].
  assert (∀ a c, c ≤ o + 4 ∨ o + 6 ≤ a → c ≤ o + act ∨ o + rl ≤ a → same_bytes a c buf buf') as Hsame.
  { intros a c Hd1 Hd2. apply (same_trans _ _ _ b); [apply same_upd; ent|apply Hout; lia]. }
  assert (rec_at buf' o = act) as Er.
  { transitivity (rec_at b o); [apply fld_same; [ent|]; apply Hout; left; ent|]. unfold rec_at, b. rewrite fld_upd_same by (apply at_within; ent). apply Z.mod_small. cbn. lia. }
  assert (nlen_at buf' o = nlen_at buf o) as En by (apply fld_same; [ent|]; apply Hsame; ent).
  split; [by rewrite El|]. split; [done|]. split; [apply Hsame; lia|]. split.
  - intros x [->|Hx]%elem_of_cons.
    + unfold entry_at. rewrite En. f_equal; [apply fld_same; [ent|]; apply Hsame; ent..|]. apply slice_same, Hsame; lia.
    + destruct (chain_range _ _ _ _ _ Hb Hc Hx) as (X1 & X2 & X3). destruct (entry_ok_spec _ _ _ Hb X3) as (_ & X4 & _). apply entry_same; [lia|done|]. apply Hsame; lia.
  - exists [o], (o + act), l. split; [done|]. split; [|done]. cbn [app chain]. split; [done|]. split; [done|]. rewrite Er. unfold entry_ok, actual_at. rewrite Er, En. fold (actual_at buf o). fold act. rewrite !(proj2 (Z.leb_le _ _)) by lia.
    split; [done|]. split; [done|]. split; [lia|]. rewrite Er', En', !(proj2 (Z.leb_le _ _)) by lia. split; [done|]. replace (o + act + (rl - act)) with (o + rl) by lia.
    eapply entries_frame; [done|]. intros x Hx. destruct (chain_range _ _ _ _ _ Hb Hc Hx) as (X1 & X2 & X3). apply header_same; [lia|]. apply Hsame; lia.
Qed.

(** The scan finds room after some entry, or there is none. *)
Lemma scan_entries_ok bs buf name ino ft l k o : Z.of_nat (length buf) = bs → bs < 2 ^ 32 → Forall is_byte buf → Forall is_byte name → Z.of_nat (length name) ≤ 255 → 0 ≤ ino < 2 ^ 32 → 0 ≤ ft < 256 →
  0 ≤ o → chain bs buf o l → (length l < k)%nat →
  ∃ r, scan_entries k bs buf o name ino ft = Some r ∧ match r with None => True | Some buf' => added bs o buf l (mk_dirent ino ft name) buf' end.
Proof.
  intros Hl Hbs Hb Hname Hn Hino Hft. revert k o. induction l as [|y l IH]; intros k o Ho Hc Hk; (destruct k as [|k]; [cbn in Hk; lia|]); cbn [scan_entries].
  - cbn in Hc. subst o. rewrite (proj2 (Z.ltb_ge _ _)) by lia. by exists None.
  - pose proof Hc as (-> & Hne & Hok & Hc'). destruct (entry_ok_spec _ _ _ Hb Hok) as (H8 & Ha & Hr). pose proof (nlen_range buf o Hb).
    rewrite (proj2 (Z.ltb_lt _ _)) by lia. rewrite (getf_fld o de_rec_len) by (apply at_within; ent). cbn [mbind option_bind]. fold (rec_at buf o). rewrite (proj2 (Z.eqb_neq _ _)) by lia.
    rewrite (getf_fld o de_name_len) by (apply at_within; ent). cbn [mbind option_bind]. fold (nlen_at buf o). fold (actual_at buf o). cbv zeta.
    destruct (_ && _) eqn:Eroom.
    + apply andb_prop in Eroom as [R1%Z.ltb_lt R2%Z.leb_le]. destruct (add_here bs buf o l name ino ft Hl Hb Hname Hn Hino Hft Ho Hc R1 R2) as (b & buf' & -> & E2 & Hadd).
      cbn [mbind option_bind]. rewrite E2. by exists (Some buf').
    + rewrite u32_small by lia. destruct (IH k (o + rec_at buf o) ltac:(lia) Hc' ltac:(cbn in Hk; lia)) as (r & -> & Hr'). exists r. split; [done|]. destruct r as [buf'|]; [|done].
      destruct Hr' as (L & B & Hs & He & l1 & z & l2 & -> & Hch & Hnew). split; [done|]. split; [done|]. split; [eapply same_bytes_sub; [done|lia|lia]|].
      assert (same_bytes o (o + rec_at buf o) buf buf') as Hso by (eapply same_bytes_sub; [done|lia|lia]).
      split.
      * intros x [->|Hx]%elem_of_cons; [|by apply He]. apply entry_same; [done|done|]. eapply same_bytes_sub; [done|lia|lia].
      * exists (o :: l1), z, l2. split; [done|]. split; [|done]. destruct (header_same o buf buf' Ho) as [E1 E2]; [eapply same_bytes_sub; [done|lia|lia]|].
        cbn [app chain]. unfold entry_ok, actual_at in *. rewrite E1, E2. done.
Qed.

(** ** Listings *)

Lemma chain_length bs buf o l : Forall is_byte buf → chain bs buf o l → 8 * Z.of_nat (length l) ≤ bs - o.
Proof.
  intros Hb. revert o. induction l as [|y l IH]; intros o Hc; [cbn in *; lia|]. destruct Hc as (-> & Hne & Hok & Hc). destruct (entry_ok_spec _ _ _ Hb Hok) as (_ & Ha & _). pose proof (nlen_range buf o Hb).
  specialize (IH _ Hc). cbn [length]. lia.
Qed.

Lemma chain_offsets bs buf o l k : chain bs buf o l → (length l < k)%nat → offsets k bs buf o = Some l.
Proof.
  revert o k. induction l as [|y l IH]; intros o k Hc Hk; (destruct k as [|k]; [cbn in Hk; lia|]); cbn [offsets].
  - cbn in Hc. by rewrite (proj2 (Z.eqb_eq _ _) Hc).
  - destruct Hc as (-> & Hne & Hok & Hc). rewrite (proj2 (Z.eqb_neq _ _) Hne), Hok. by rewrite (IH _ k) by (done || cbn in Hk; lia).
Qed.

Lemma offsets_chain bs buf k o l : offsets k bs buf o = Some l → chain bs buf o l.
Proof.
  revert o l. induction k as [|k IH]; intros o l E; [done|]. cbn [offsets] in E. destruct (Z.eqb_spec o bs) as [->|Hne]; [by injection E as <-|].
  destruct (entry_ok bs buf o) eqn:Hok; [|done]. apply fmap_Some in E as (l' & E & ->). split; [done|]. split; [done|]. split; [done|]. by apply IH.
Qed.

Lemma listing_chain bs buf es : Forall is_byte buf → 0 ≤ bs → listing bs buf = Some es ↔ ∃ l, chain bs buf 0 l ∧ es = map (entry_at buf) l.
Proof.
  intros Hb Hbs. unfold listing. split.
  - destruct (offsets _ bs buf 0) as [l|] eqn:E; [|done]. intros [= <-]. exists l. split; [by eapply offsets_chain|done].
  - intros (l & Hc & ->). pose proof (chain_length _ _ _ _ Hb Hc). by rewrite (chain_offsets _ _ _ l) by (done || lia).
Qed.

(** The new entry is one more in the listing. *)
Lemma added_listing bs buf l e buf' : 0 ≤ bs → added bs 0 buf l e buf' → ∃ es, listing bs buf' = Some es ∧ es ≡ₚ e :: map (entry_at buf) l.
Proof.
  intros Hbs (_ & Hb & _ & He & l1 & y & l2 & -> & Hc & <-). exists (map (entry_at buf') (l1 ++ y :: l2)). split; [apply listing_chain; [done..|]; by eexists|].
  rewrite map_app. cbn [map]. rewrite <- Permutation_middle, <- map_app. apply perm_skip. erewrite map_ext_in; [reflexivity|]. intros x Hx. apply He. by apply list_elem_of_In.
Qed.

(** Listing of the blocks [b] in [L] of a directory. *)
Definition listings (f : Z → option (list dirent)) (L : list Z) : option (list dirent) := option_map mjoin (mapM f L).

Lemma listings_cons f b L : listings f (b :: L) = (x ← f b; y ← listings f L; Some (x ++ y)).
Proof. unfold listings. cbn. destruct (f b); [|done]. cbn. by destruct (mapM f L). Qed.

Lemma listings_ext f g L : (∀ b, b ∈ L → g b = f b) → listings g L = listings f L.
Proof.
  induction L as [|b L IH]; intros E; [done|]. rewrite !listings_cons, (E b) by apply list_elem_of_here. destruct (f b); [|done]. cbn. rewrite IH; [done|]. intros c Hc. by apply E, list_elem_of_further.
Qed.

Lemma listings_app f L b : listings f (L ++ [b]) = (x ← listings f L; y ← f b; Some (x ++ y)).
Proof.
  induction L as [|c L IH]; cbn [app]; rewrite listings_cons.
  - cbn. destruct (f b) as [y|]; [|done]. cbn. by rewrite app_nil_r.
  - rewrite IH, listings_cons. destruct (f c); [|done]. cbn. destruct (listings f L); [|done]. cbn. destruct (f b); [|done]. cbn. by rewrite app_assoc.
Qed.

Lemma listings_change f g L b e l es es' : NoDup L → b ∈ L → (∀ c, c ∈ L → c ≠ b → g c = f c) → f b = Some es → g b = Some es' → es' ≡ₚ e :: es → listings f L = Some l →
  ∃ l', listings g L = Some l' ∧ l' ≡ₚ e :: l.
Proof.
  revert l. induction L as [|c L IH]; intros l Hnd Hb E Ef Eg Hp Hl; [by apply elem_of_nil in Hb|]. apply NoDup_cons in Hnd as [Hc Hnd]. rewrite listings_cons in Hl |- *.
  destruct (decide (c = b)) as [->|Hne].
  - rewrite Ef in Hl. rewrite Eg. cbn in *. rewrite (listings_ext f g L) by (intros d Hd; apply E; [by apply list_elem_of_further|by intros ->]). destruct (listings f L) as [k|]; [|done]. cbn in *. injection Hl as <-.
    eexists. split; [done|]. by rewrite Hp.
  - rewrite (E c) by (done || apply list_elem_of_here). destruct (f c) as [x|]; [|done]. cbn in *. destruct (listings f L) as [k|] eqn:Ek; [|done]. cbn in *. injection Hl as <-.
    destruct (IH k) as (l' & E' & Hp'); [done|by apply elem_of_cons in Hb as [->|]|intros d Hd; apply E; by apply list_elem_of_further|done..|]. rewrite E'. cbn. eexists. split; [done|].
    rewrite Hp'. by rewrite <- Permutation_middle.
Qed.

Lemma listings_in f L b l : listings f L = Some l → b ∈ L → is_Some (f b).
Proof.
  revert l. induction L as [|c L IH]; intros l Hl Hb; [by apply elem_of_nil in Hb|]. rewrite listings_cons in Hl. destruct (f c) as [x|] eqn:Ec; [|done]. cbn in Hl. destruct (listings f L) as [k|] eqn:Ek; [|done].
  apply elem_of_cons in Hb as [->|Hb]; [by eexists|by eapply IH].
Qed.

Section Dirs.
Context {H D : Type} `{!KernelHeap H} `{!BlockDevice D} `{!BlockLaws D}.
#[local] Abbreviation est := (ext4_state H D).
Implicit Types (s : est) (B : Z → list Z) (n : list Z) (fs : ext4_fs).

(** ** Directories *)

Definition dir_blocks fs n : Z := (size_of n + block_size fs - 1) / block_size fs.
Definition dir_block fs B n (b : Z) : option (list dirent) := let x := file_block fs B n b in if x =? 0 then None else listing (block_size fs) (B x).
Definition dir_listing fs B n : option (list dirent) := listings (dir_block fs B n) (seqZ 0 (dir_blocks fs n)).

(** A directory with the entries [l]: whole blocks, and none after them. *)
Record dir_ok fs B n (l : list dirent) : Prop := {
  do_listing : dir_listing fs B n = Some l;
  do_size : size_of n `mod` block_size fs = 0;
  do_end b : 0 ≤ b → dir_blocks fs n ≤ b → file_block fs B n b = 0
}.

Lemma dir_blocks_size fs n : geo fs → size_of n `mod` block_size fs = 0 → 0 ≤ size_of n → dir_blocks fs n * block_size fs = size_of n ∧ 0 ≤ dir_blocks fs n.
Proof.
  intros Hg Hm Hs. pose proof (geo_bs_range _ Hg). unfold dir_blocks. pose proof (Z.div_mod (size_of n) (block_size fs) ltac:(lia)) as E. rewrite Hm in E.
  replace ((size_of n + block_size fs - 1) / block_size fs) with (size_of n / block_size fs) by (apply (Z.div_unique _ _ _ (block_size fs - 1)); lia). split; [lia|]. by apply Z.div_pos; lia.
Qed.

Lemma dir_block_chain fs B n b : geo fs → (∀ c, Forall is_byte (B c)) → is_Some (dir_block fs B n b) →
  file_block fs B n b ≠ 0 ∧ ∃ l, chain (block_size fs) (B (file_block fs B n b)) 0 l ∧ dir_block fs B n b = Some (map (entry_at (B (file_block fs B n b))) l).
Proof.
  intros Hg HB [es E]. pose proof (geo_bs_range _ Hg). unfold dir_block in *. destruct (Z.eqb_spec (file_block fs B n b) 0) as [|Hne]; [done|]. split; [done|].
  pose proof E as E'. apply listing_chain in E as (l & Hc & ->); [|done|lia]. by exists l.
Qed.

Lemma dir_ok_chain fs B n l b : geo fs → (∀ c, Forall is_byte (B c)) → dir_ok fs B n l → 0 ≤ b < dir_blocks fs n →
  file_block fs B n b ≠ 0 ∧ ∃ k, chain (block_size fs) (B (file_block fs B n b)) 0 k ∧ dir_block fs B n b = Some (map (entry_at (B (file_block fs B n b))) k).
Proof. intros Hg HB Hd Hb. apply dir_block_chain; [done..|]. eapply listings_in; [apply Hd|]. apply elem_of_seqZ. lia. Qed.

(** Steps without effect on the disk. *)
Lemma file_block_quiet k s s' n fb : geo (e_fs s) → quiet k s s' → 0 ≤ fb → file_block (e_fs s') (blocks s') n fb = file_block (e_fs s) (blocks s) n fb.
Proof. intros Hg Hq Hf. apply file_block_ext; [done|by eapply after_quiet|done|]. intros x. by eapply quiet_ptr. Qed.

Lemma quiet_wrote c l s1 s2 s3 : quiet 0 s1 s2 → wrote c l s2 s3 → wrote c l s1 s3.
Proof. intros [Q1 Q2 Q3] [W1 W2 W3]. constructor; [congruence| |cbn in Q3; congruence]. intros b. rewrite W2. by case_bool_decide. Qed.

Definition added_to (n : list Z) (m : Z) (e : dirent) s s' : Prop :=
  ∃ b k buf, 0 ≤ b < m ∧ file_block (e_fs s) (blocks s) n b ≠ 0 ∧ chain (block_size (e_fs s)) (blocks s (file_block (e_fs s) (blocks s) n b)) 0 k ∧
    added (block_size (e_fs s)) 0 (blocks s (file_block (e_fs s) (blocks s) n b)) k e buf ∧ wrote (file_block (e_fs s) (blocks s) n b) buf s s'.

Lemma added_to_quiet n m e s1 s2 s3 : geo (e_fs s1) → quiet 0 s1 s2 → added_to n m e s2 s3 → added_to n m e s1 s3.
Proof.
  intros Hg Hq (b & k & buf & Hb & Hne & Hc & Ha & Hw). pose proof Hq as [Q1 Q2 Q3]. rewrite (file_block_quiet _ _ _ _ _ Hg Hq (proj1 Hb)) in *. rewrite Q1, Q2 in *.
  exists b, k, buf. repeat (split; [done|]). by eapply quiet_wrote.
Qed.

Lemma scan_blocks_ok K m n name ino ft k s : sane K s → Forall is_byte name → Z.of_nat (length name) ≤ 255 → 0 ≤ ino < 2 ^ 32 → 0 ≤ ft < 256 → Z.of_nat k ≤ m →
  (∀ b, 0 ≤ b < m → file_block (e_fs s) (blocks s) n b ≠ 0 → ∃ l, chain (block_size (e_fs s)) (blocks s (file_block (e_fs s) (blocks s) n b)) 0 l) →
  wp (scan_blocks k m n name ino ft) s (λ s' r, sane K s' ∧ after s s' ∧
    match r with None => unchanged s s' | Some w => e_faults s' = e_faults s → 0 ≤ w ∧ added_to n m (mk_dirent ino ft name) s s' end).
Proof.
  intros Hs Hname Hn Hino Hft. revert s Hs. induction k as [|k IH]; intros s Hs Hk Hch; cbn [scan_blocks].
  { apply wp_ret. split; [done|]. split; [apply after_refl|]. exists 0%nat. apply quiet_same. }
  pose proof (proj2 (proj1 Hs)) as Hg. pose proof (geo_bs_range _ Hg) as Hbs. set (b := m - Z.of_nat (S k)).
  assert (∀ j s1, quiet j s s1 → ok K s1 → wp (scan_blocks k m n name ino ft) s1 (λ s' r, sane K s' ∧ after s s' ∧
    match r with None => unchanged s s' | Some w => e_faults s' = e_faults s → 0 ≤ w ∧ added_to n m (mk_dirent ino ft name) s s' end)) as Hnext.
  { intros j s1 Hq Hok1. pose proof (after_quiet _ _ _ Hq) as Ha1. eapply wp_mono; [apply (IH s1)|].
    - by eapply sane_after; [|exact Ha1|apply Hs].
    - lia.
    - intros b' Hb'. rewrite (file_block_quiet _ _ _ _ _ Hg Hq (proj1 Hb')), (q_fs _ _ _ Hq), (q_blocks _ _ _ Hq). by apply Hch.
    - intros s' r (Hs' & Ha' & Hr). split; [done|]. split; [by eapply after_trans|]. destruct r as [w|].
      + intros En. assert (j = 0%nat ∧ e_faults s' = e_faults s1) as [-> En1] by (pose proof (q_faults _ _ _ Hq); destruct Ha'; lia). destruct (Hr En1) as [Hw Had]. split; [done|]. by eapply added_to_quiet.
      + eapply disk_unchanged_trans; [by eexists|done]. }
  apply wp_bind, wp_the_fs, wp_bind. eapply wp_mono; [apply (get_file_block_ok K n b s); [apply Hs|lia]|]. intros s1 x (Hok1 & [[-> Hq1]|(-> & _ & j & Hq1)]); [|by apply (Hnext _ s1 Hq1)].
  destruct (Z.eqb_spec (file_block (e_fs s) (blocks s) n b) 0) as [|Hne]; [by apply (Hnext _ s1 Hq1)|]. set (x := file_block (e_fs s) (blocks s) n b) in *.
  apply wp_bind. eapply wp_read; [done| |]. 2: { intros s2 Hok2 Hq2. apply (Hnext (1 + 0)%nat); [exact (quiet_trans _ _ _ _ _ Hq1 Hq2)|done]. }
  intros s2 Hok2 Hq2. pose proof (quiet_trans _ _ _ _ _ Hq1 Hq2) as Hq. cbn in Hq. rewrite (q_blocks _ _ _ Hq1). destruct (Hch b ltac:(lia) Hne) as [l Hc]. fold x in Hc.
  pose proof (chain_length _ _ _ _ (dev_blocks_bytes (e_dev s) x) Hc) as Hlen. pose proof (blocks_length s x Hg) as Hbl.
  destruct (scan_entries_ok (block_size (e_fs s)) (blocks s x) name ino ft l (S (Z.to_nat (block_size (e_fs s)))) 0) as (r & Er & Hr); [done|lia|apply dev_blocks_bytes|done..|lia|].
  apply wp_bind. eapply wp_lift; [exact Er|]. destruct r as [buf|]; [|by apply (Hnext _ s2 Hq)]. pose proof Hr as (L & Bb & _).
  apply wp_bind. eapply wp_write; [done|rewrite (q_fs _ _ _ Hq); lia|done| |].
  - intros s3 w Hok3 Hw0 Hw. apply wp_ret. assert (after s s3) as Ha3 by (eapply after_trans; [by eapply after_quiet|by eapply after_wrote]). split; [by eapply sane_after; [|exact Ha3|apply Hs]|]. split; [done|].
    intros _. split; [done|]. exists b, l, buf. repeat (split; [done || lia|]). by eapply quiet_wrote.
  - intros s3 w Hok3 Hw0 Hq3. pose proof (quiet_trans _ _ _ _ _ Hq Hq3) as Hq'. apply wp_ret. pose proof (after_quiet _ _ _ Hq') as Ha3. split; [by eapply sane_after; [|exact Ha3|apply Hs]|]. split; [done|].
    rewrite (q_faults _ _ _ Hq'). lia.
Qed.

(** ** An entry in a block with room *)

Definition dir_spec (K : gmap Z Z) (d : Z) (n : list Z) (l : list dirent) (e : dirent) s s' : Prop :=
  fs_inv K s' ∧ others_same d s s' ∧ ∃ n' l', inodes (e_fs s') (blocks s') d = Some n' ∧ dir_ok (e_fs s') (blocks s') n' l' ∧ l' ≡ₚ e :: l ∧ fld i_mode n' = fld i_mode n ∧ fld i_links_count n' = fld i_links_count n.

(** Steps that keep the inode of the file. *)
Lemma inode_kept K R ino s n s' : fs_inv K s → inodes (e_fs s) (blocks s) ino = Some n → sane K s' → after s s' → moved (inodes (e_fs s) (blocks s)) ino R s n s' n →
  fs_inv K s' ∧ others_same ino s s' ∧ inodes (e_fs s') (blocks s') ino = Some n.
Proof.
  intros [[[Hh Hg] Hl] Ht] Hn Hs' Ha M. assert (∀ i, inodes (e_fs s') (blocks s') i = inodes (e_fs s) (blocks s) i) as EI by (intros i; apply inodes_same; [done..|apply M]).
  split; [split; [done|]|split; [by eapply others_moved|by rewrite EI]]. eapply tree_proper; [|apply M]. intros i. rewrite EI. destruct (decide (i = ino)) as [->|]; [by rewrite fn_lookup_insert|by rewrite fn_lookup_insert_ne].
Qed.

Lemma dir_in_place K d n l e s s' : fs_inv K s → inodes (e_fs s) (blocks s) d = Some n → dir_ok (e_fs s) (blocks s) n l → sane K s' → after s s' →
  added_to n (dir_blocks (e_fs s) n) e s s' → dir_spec K d n l e s s'.
Proof.
  intros Hinv Hn Hd Hs' Ha (b & k & buf & Hb & Hne & Hc & Had & Hw). pose proof Hinv as [[[Hh Hg] Hl] Ht]. pose proof (tree_inodes _ _ _ Hn Ht) as Ht'. pose proof (geo_bs_range _ Hg) as Hbs.
  unfold file_block in Hne. destruct (slot_of (e_fs s) b) as [x|] eqn:Ex; [|done]. cbn [from_option] in Hne. assert (file_block (e_fs s) (blocks s) n b = ptr (blocks s) n x) as Eb by (unfold file_block; by rewrite Ex).
  destruct (slot_of_valid _ _ _ Hg (proj1 Hb) Ex) as [Hx Hdx]. rewrite Eb in *. set (c := ptr (blocks s) n x) in *. pose proof Hw as [Ef Ewb _].
  destruct (moved_data (inodes (e_fs s) (blocks s)) d (λ i, i / block_size (e_fs s) = b) s n s' b x buf Hg Ht' (proj1 Hb) Ex Hne Hw ltac:(done)) as [M _].
  destruct (inode_kept K _ d s n s' Hinv Hn Hs' Ha M) as (Hinv' & Ho & Hn'). split; [done|]. split; [done|].
  assert (∀ y, slot_valid (e_fs s) y → ptr (blocks s') n y = ptr (blocks s) n y) as Hp.
  { apply ptr_ext. intros y Hy Hyd Hyn. rewrite Ewb, bool_decide_eq_false_2; [done|]. intros E. assert (y = x) as -> by (by eapply own_inj). done. }
  assert (∀ j, 0 ≤ j → file_block (e_fs s') (blocks s') n j = file_block (e_fs s) (blocks s) n j) as Hfb by (intros j Hj; apply file_block_ext; [done|apply Ha|done..]).
  destruct (added_listing (block_size (e_fs s)) _ _ _ _ ltac:(lia) Had) as (es & Ees & Hperm).
  destruct (listings_change (dir_block (e_fs s) (blocks s) n) (dir_block (e_fs s') (blocks s') n) (seqZ 0 (dir_blocks (e_fs s) n)) b e l (map (entry_at (blocks s c)) k) es) as (l' & El' & Hp').
  - apply NoDup_seqZ.
  - apply elem_of_seqZ. lia.
  - intros j Hj Hjb. apply elem_of_seqZ in Hj. unfold dir_block. rewrite Hfb, Ef by lia. destruct (Z.eqb_spec (file_block (e_fs s) (blocks s) n j) 0) as [|Hjn]; [done|].
    rewrite Ewb, bool_decide_eq_false_2; [done|]. intros E. unfold file_block in E, Hjn. destruct (slot_of (e_fs s) j) as [y|] eqn:Ey; [|done]. cbn [from_option] in E, Hjn. destruct (slot_of_valid _ _ _ Hg (proj1 Hj) Ey) as [Hy _].
    assert (y = x) as -> by (by eapply own_inj). apply Hjb. by eapply slot_of_inj; [done|lia|lia|..].
  - unfold dir_block. rewrite Eb, (proj2 (Z.eqb_neq _ _)) by done. apply listing_chain; [apply dev_blocks_bytes|lia|]. by exists k.
  - unfold dir_block. rewrite Hfb, Eb, Ef, (proj2 (Z.eqb_neq _ _)) by (done || lia). by rewrite Ewb, bool_decide_eq_true_2.
  - done.
  - apply Hd.
  - exists n, l'. split; [done|]. split; [|by repeat split]. constructor.
    + unfold dir_listing, dir_blocks. rewrite Ef in El' |- *. exact El'.
    + rewrite Ef. apply Hd.
    + intros j Hj0 Hj. rewrite Ef in Hj. rewrite Hfb by lia. by apply Hd.
Qed.

(** ** An entry in a new block *)

(** The listing of a block depends on its bytes only. *)
Lemma dir_block_ext fs fs' B B' n n' c : geo fs → same_geo fs fs' → (∀ b, Z.of_nat (length (B b)) = block_size fs) → (∀ b, Z.of_nat (length (B' b)) = block_size fs) → 0 ≤ c →
  (∀ i, 0 ≤ i < block_size fs → byte_of fs' B' n' (c * block_size fs + i) = byte_of fs B n (c * block_size fs + i)) →
  dir_block fs' B' n' c = dir_block fs B n c ∧ (file_block fs' B' n' c = 0 ↔ file_block fs B n c = 0).
Proof.
  intros Hg Hs HB HB' Hc Hby. pose proof (geo_bs_range _ Hg) as Hbs.
  assert (∀ i, 0 ≤ i < block_size fs → byte_of fs B n (c * block_size fs + i) = if file_block fs B n c =? 0 then None else B (file_block fs B n c) !! Z.to_nat i) as E1.
  { intros i Hi. unfold byte_of. rewrite Z.div_add_l, Z.div_small, Z.add_0_r by lia. by rewrite Z.add_comm, Z_mod_plus_full, Z.mod_small. }
  assert (∀ i, 0 ≤ i < block_size fs → byte_of fs' B' n' (c * block_size fs + i) = if file_block fs' B' n' c =? 0 then None else B' (file_block fs' B' n' c) !! Z.to_nat i) as E2.
  { intros i Hi. unfold byte_of. rewrite (sg_bs _ _ Hs), Z.div_add_l, Z.div_small, Z.add_0_r by lia. by rewrite Z.add_comm, Z_mod_plus_full, Z.mod_small. }
  assert (∀ i, 0 ≤ i < block_size fs → (if file_block fs' B' n' c =? 0 then None else B' (file_block fs' B' n' c) !! Z.to_nat i) = if file_block fs B n c =? 0 then None else B (file_block fs B n c) !! Z.to_nat i) as E.
  { intros i Hi. by rewrite <- E1, <- E2, Hby. }
  assert (∀ l : list Z, Z.of_nat (length l) = block_size fs → is_Some (l !! Z.to_nat 0)) as Hsome by (intros l Hl; apply lookup_lt_is_Some; lia).
  pose proof (E 0 ltac:(lia)) as E0. unfold dir_block. rewrite (sg_bs _ _ Hs). destruct (Z.eqb_spec (file_block fs' B' n' c) 0) as [H1|H1], (Z.eqb_spec (file_block fs B n c) 0) as [H2|H2].
  - done.
  - destruct (Hsome _ (HB (file_block fs B n c))). congruence.
  - destruct (Hsome _ (HB' (file_block fs' B' n' c))). congruence.
  - split; [|done]. f_equal. apply list_eq. intros i. pose proof (HB (file_block fs B n c)). pose proof (HB' (file_block fs' B' n' c)). destruct (decide (Z.of_nat i < block_size fs)) as [Hi|Hi].
    + specialize (E (Z.of_nat i) ltac:(lia)). by rewrite Nat2Z.id in E.
    + rewrite !lookup_ge_None_2 by lia. done.
Qed.

(** A write to a fresh block. *)
Lemma write_fresh IM ino R s n s' b l : geo (e_fs s) → tree (e_fs s) (blocks s) (<[ino := Some n]> IM) → fresh (e_fs s) (blocks s) (<[ino := Some n]> IM) b → ¬ free (e_fs s) (blocks s) b → wrote b l s s' →
  moved IM ino R s n s' n ∧ fresh (e_fs s') (blocks s') (<[ino := Some n]> IM) b ∧ ¬ free (e_fs s') (blocks s') b ∧ ∀ x, slot_valid (e_fs s) x → ptr (blocks s') n x = ptr (blocks s) n x.
Proof.
  intros Hg Ht Hf Hnf [Ef Eb _]. pose proof (fresh_private _ _ _ _ _ Hf) as Hpr. assert (only_at b s s') as Hon by (split; [done|]; intros d Hd; by rewrite Eb, bool_decide_eq_false_2).
  assert (∀ i m x, <[ino := Some n]> IM i = Some m → slot_valid (e_fs s) x → blocks s' (ptr (blocks s) m x) = blocks s (ptr (blocks s) m x)) as Hk.
  { intros i m x Hi Hx. apply Hon. by eapply (fr_unused _ _ _ _ Hf). }
  assert (∀ i m, <[ino := Some n]> IM i = Some m → ∀ x, slot_valid (e_fs s) x → ptr (blocks s') m x = ptr (blocks s) m x) as Hp.
  { intros i m Hi. apply ptr_ext. intros x Hx _ _. by eapply Hk. }
  assert (<[ino := Some n]> IM ino = Some n) as Hn by apply fn_lookup_insert.
  assert (tree (e_fs s') (blocks s') (<[ino := Some n]> IM)) as Ht'.
  { rewrite Ef. eapply disk_tree_ext; [apply same_geo_refl|done|intros i m x Hi Hx _ _; by eapply Hk| |by apply (only_at_counts IM ino b s s' Hpr Hon)]. intros d Hfd. left. apply (proj1 (only_at_free IM ino b s s' d Hpr Hon)). by rewrite Ef. }
  split; [|split; [|split; [by rewrite (only_at_free IM ino b s s' b Hpr Hon)|by apply (Hp ino)]]].
  - constructor; [done|intros d Hm _; apply Hon; intros ->; by apply Hpr| |by intros; apply (Hp ino)| |done].
    + intros i m x Hi Hm Hx _. apply (Hk i m x); [by rewrite fn_lookup_insert_ne|done].
    + apply bytes_kept; [done|rewrite Ef; apply same_geo_refl|by intros; apply (Hp ino)|]. intros x Hx _ _. by apply (Hk ino n x).
  - destruct Hf as [F1 F2 F3]. rewrite Ef. constructor; [done|done|]. intros i m x Hi Hx. rewrite (Hp i m Hi x Hx). by apply (F3 i).
Qed.

Definition grown_inode fs n : list Z :=
  let n' := upd i_size_lo (fld i_size_lo n + block_size fs) n in upd i_blocks_lo (fld i_blocks_lo n' + block_size fs / 512) n'.

Lemma grown_ptr fs fs' B n x : slot_valid fs x → ptr B (grown_inode fs' n) x = ptr B n x.
Proof. intros Hx. unfold grown_inode. cbv zeta. rewrite !(ptr_upd_other fs); try done; unfold off_map; cbn; lia. Qed.

Lemma grown_size fs n : good_inode n → 0 ≤ size_of n + block_size fs < 2 ^ 32 → size_of (grown_inode fs n) = size_of n + block_size fs.
Proof.
  intros [Hl _] Hs. unfold grown_inode, size_of in *. cbv zeta. rewrite (fld_upd_other i_size_lo i_blocks_lo) by (unfold apart; cbn; lia). rewrite fld_upd_same by (split; [done|]; rewrite Hl; done). by apply Z.mod_small.
Qed.

Lemma grown_fields fs n f : 0 ≤ f_off f → f_off f + Z.of_nat (f_width f) ≤ 4 ∨ 8 ≤ f_off f ∧ f_off f + Z.of_nat (f_width f) ≤ 28 → fld f (grown_inode fs n) = fld f n.
Proof. intros Ho Hf. unfold grown_inode. cbv zeta. rewrite !fld_upd_other; unfold apart; cbn [f_off f_width i_size_lo i_blocks_lo]; lia. Qed.

Lemma all_blocks_length s : geo (e_fs s) → ∀ b, Z.of_nat (length (blocks s b)) = block_size (e_fs s).
Proof. intros Hg b. by apply blocks_length. Qed.

(** The blocks of the directory after the new block [b], written with [buf], is
    in its map. *)
Lemma grown_blocks IM d n l s s1 b buf s2 s3 n3 w : geo (e_fs s) → geo (e_fs s3) → IM d = Some n → tree (e_fs s) (blocks s) IM → dir_ok (e_fs s) (blocks s) n l → after s s1 → after s1 s2 → after s2 s3 →
  let m := dir_blocks (e_fs s) n in 0 ≤ m → bits_only s s1 → tree (e_fs s1) (blocks s1) (<[d := Some n]> IM) → fresh (e_fs s1) (blocks s1) (<[d := Some n]> IM) b → ¬ free (e_fs s1) (blocks s1) b →
  geo (e_fs s1) → wrote b buf s1 s2 → 0 ≤ w → set_spec IM d m b s2 n s3 w n3 →
  moved IM d nowhere s n s3 n3 ∧ dir_block (e_fs s3) (blocks s3) n3 m = listing (block_size (e_fs s)) buf ∧
  (∀ c, 0 ≤ c < m → dir_block (e_fs s3) (blocks s3) n3 c = dir_block (e_fs s) (blocks s) n c) ∧ ∀ c, m < c → file_block (e_fs s3) (blocks s3) n3 c = 0.
Proof.
  intros Hg Hg3 Hd Ht Hok Ha1 Ha2 Ha3 m Hm Hbo Ht1 Hf1 Hnf1 Hg1 Hw Hw0 Hset.
  assert (tree (e_fs s) (blocks s) (<[d := Some n]> IM)) as Ht0 by (eapply tree_proper; [|exact Ht]; intros i; destruct (decide (i = d)) as [->|]; [by rewrite fn_lookup_insert|by rewrite fn_lookup_insert_ne]).
  pose proof (moved_bits IM d nowhere s n s1 Hg Ha1 Hbo Ht0 Ht1) as M1. destruct (write_fresh IM d nowhere s1 n s2 b buf Hg1 Ht1 Hf1 Hnf1 Hw) as (M2 & F2 & N2 & P2).
  destruct Hset as [[? _]|(_ & M3 & E3 & X3 & C3)]; [lia|].
  assert (moved IM d nowhere s n s3 n3) as M by (eapply moved_trans; [exact (proj1 Ha1)|done|]; eapply moved_trans; [exact (proj1 Ha2)|done|done]).
  assert (same_geo (e_fs s) (e_fs s3)) as Hsg by (eapply same_geo_trans; [apply Ha1|]; eapply same_geo_trans; [apply Ha2|apply Ha3]). pose proof (geo_bs_range _ Hg) as Hbs.
  assert (∀ c, Z.of_nat (length (blocks s3 c)) = block_size (e_fs s)) as HB3 by (intros c; rewrite <- (sg_bs _ _ Hsg); by apply blocks_length).
  split; [done|]. split; [|split].
  - unfold dir_block. rewrite E3, (sg_bs _ _ Hsg). rewrite (proj2 (Z.eqb_neq _ _)) by (pose proof (fr_range _ _ _ _ F2); lia). f_equal. rewrite C3.
    + rewrite (w_blocks _ _ _ _ Hw). by rewrite bool_decide_eq_true_2.
    + intros Hbm. by apply (fr_meta _ _ _ _ F2), bitmap_meta.
    + done.
    + apply not_eq_sym. apply (fr_unused _ _ _ _ F2 d n SInd); [apply fn_lookup_insert|done].
  - intros c Hc. destruct (dir_ok_chain _ _ _ _ c Hg (λ b, dev_blocks_bytes (e_dev s) b) Hok Hc) as [Hne _].
    apply dir_block_ext; [done|done|by apply all_blocks_length|done|lia|]. intros i Hi. assert (is_Some (byte_of (e_fs s) (blocks s) n (c * block_size (e_fs s) + i))) as [v Hv].
    { unfold byte_of. rewrite Z.div_add_l, Z.div_small, Z.add_0_r by lia. rewrite (proj2 (Z.eqb_neq _ _)) by done. apply lookup_lt_is_Some. rewrite Z.add_comm, Z_mod_plus_full, Z.mod_small by lia. pose proof (all_blocks_length s Hg (file_block (e_fs s) (blocks s) n c)). lia. }
    rewrite Hv. apply (mv_bytes _ _ _ _ _ _ _ M); [nia|intros []|done].
  - intros c Hc. pose proof (do_end _ _ _ _ Hok c ltac:(lia) ltac:(lia)) as E0. unfold file_block in *. rewrite (slot_of_same _ _ _ Hsg). destruct (slot_of (e_fs s) c) as [x|] eqn:Ex; [|done]. cbn [from_option] in *.
    destruct (slot_of_valid (e_fs s) c x Hg ltac:(lia) Ex) as [Hx Hdx]. assert (same_geo (e_fs s) (e_fs s2)) as Hsg2 by (eapply same_geo_trans; [apply Ha1|apply Ha2]).
    rewrite X3; [|by apply (slot_valid_same _ _ _ Hsg2)|by intros ->|].
    + rewrite P2 by (by apply (slot_valid_same _ _ _ (proj1 Ha1))). rewrite (bits_only_ptr (<[d := Some n]> IM) s s1 d n x Ht0 Hbo); [done|apply fn_lookup_insert|done].
    + rewrite (slot_of_same _ _ _ Hsg2). intros Em. assert (m = c) by (eapply slot_of_inj; [exact Hg|lia|lia|done..]). lia.
Qed.

Lemma dir_grown K d n l e s s3 n3 s4 : let m := dir_blocks (e_fs s) n in fs_inv K s → inodes (e_fs s) (blocks s) d = Some n → dir_ok (e_fs s) (blocks s) n l → size_of n + block_size (e_fs s) < 2 ^ 32 →
  sane K s3 → after s s3 → moved (inodes (e_fs s) (blocks s)) d nowhere s n s3 n3 → dir_block (e_fs s3) (blocks s3) n3 m = Some [e] →
  (∀ c, 0 ≤ c < m → dir_block (e_fs s3) (blocks s3) n3 c = dir_block (e_fs s) (blocks s) n c) → (∀ c, m < c → file_block (e_fs s3) (blocks s3) n3 c = 0) → good_inode n3 → sane K s4 →
  wrote (ino_block (e_fs s3) d) (list_inserts (Z.to_nat (ino_offset (e_fs s3) d)) (grown_inode (e_fs s) n3) (blocks s3 (ino_block (e_fs s3) d))) s3 s4 → dir_spec K d n l e s s4.
Proof.
  intros m Hinv Hn Hok Hsz Hs3 Ha3 M Hnew Hold Hend Hg3 Hs4 Hw. pose proof Hinv as [[[Hh Hg] Hl] Ht]. pose proof (proj2 (proj1 Hs3)) as Hgeo3. pose proof (geo_bs_range _ Hg) as Hbs.
  destruct (inode_written K d nowhere s n s3 n3 (grown_inode (e_fs s) n3) s4 Hinv Hn Hs3 Ha3 M) as (Hinv4 & Ho4 & Hn4 & Hby & _).
  { unfold grown_inode. by repeat apply good_upd. }
  { intros x Hx. by eapply grown_ptr. }
  { done. }
  { done. }
  split; [done|]. split; [done|]. assert (same_geo (e_fs s3) (e_fs s4)) as Hsg4 by (by eapply after_wrote). assert (same_geo (e_fs s) (e_fs s4)) as Hsg by (eapply same_geo_trans; [apply Ha3|done]).
  assert (good_inode n) as Hgn by (by eapply (t_good _ _ _ Ht)). pose proof (fld_bound i_size_lo n (proj2 Hgn)) as Hb0. fold (size_of n) in Hb0.
  assert (size_of n3 = size_of n) as Esz by (apply (mv_fields _ _ _ _ _ _ _ M); unfold kept; cbn; lia). assert (size_of (grown_inode (e_fs s) n3) = size_of n + block_size (e_fs s)) as Eg by (rewrite grown_size; [by rewrite Esz|done|lia]).
  destruct (dir_blocks_size _ _ Hg (do_size _ _ _ _ Hok) ltac:(lia)) as [Em Hm]. fold m in Em, Hm.
  assert (dir_blocks (e_fs s4) (grown_inode (e_fs s) n3) = m + 1) as Em4.
  { unfold dir_blocks. rewrite (sg_bs _ _ Hsg), Eg. symmetry. apply (Z.div_unique _ _ _ (block_size (e_fs s) - 1)); lia. }
  assert (∀ c, 0 ≤ c → dir_block (e_fs s4) (blocks s4) (grown_inode (e_fs s) n3) c = dir_block (e_fs s3) (blocks s3) n3 c ∧
    (file_block (e_fs s4) (blocks s4) (grown_inode (e_fs s) n3) c = 0 ↔ file_block (e_fs s3) (blocks s3) n3 c = 0)) as E4.
  { intros c Hc. apply dir_block_ext; [done|done|by apply all_blocks_length| |done|].
    - intros b. rewrite <- (sg_bs _ _ Hsg4). apply all_blocks_length, Hs4.
    - intros i Hi. pose proof (geo_bs_range _ Hgeo3). apply Hby. nia. }
  exists (grown_inode (e_fs s) n3), (l ++ [e]). split; [done|]. split; [constructor|].
  - unfold dir_listing. rewrite Em4. rewrite seqZ_app by lia. assert (seqZ (0 + m) 1 = [m]) as -> by (rewrite Z.add_0_l, seqZ_cons by lia; done). rewrite listings_app, (proj1 (E4 m Hm)), Hnew.
    rewrite (listings_ext (dir_block (e_fs s) (blocks s) n)); [|intros c Hc%elem_of_seqZ; rewrite (proj1 (E4 c ltac:(lia))); apply Hold; lia]. pose proof (do_listing _ _ _ _ Hok) as El. unfold dir_listing in El. fold m in El. by rewrite El.
  - rewrite (sg_bs _ _ Hsg), Eg. rewrite <- Em. replace (m * block_size (e_fs s) + block_size (e_fs s)) with ((m + 1) * block_size (e_fs s)) by lia. apply Z.mod_mul. lia.
  - rewrite Em4. intros c _ Hc. apply (proj2 (proj2 (E4 c ltac:(lia)))). apply Hend. lia.
  - split; [by rewrite Permutation_app_comm|]. split; (rewrite grown_fields; [apply (mv_fields _ _ _ _ _ _ _ M); unfold kept; cbn; lia|cbn; lia|cbn; lia]).
Qed.

(** ** ext4_add_dir_entry *)

Lemma others_quiet k ino s s' : geo (e_fs s) → quiet k s s' → others_same ino s s'.
Proof. intros Hg Hq j _. split; [by eapply inodes_quiet|]. intros m i _ Hi. by eapply byte_of_quiet. Qed.

Lemma dir_ok_quiet k s s' n l : geo (e_fs s) → quiet k s s' → dir_ok (e_fs s) (blocks s) n l → dir_ok (e_fs s') (blocks s') n l.
Proof.
  intros Hg Hq [O1 O2 O3]. pose proof Hq as [Q1 Q2 _]. pose proof (geo_bs_range _ Hg).
  constructor.
  - unfold dir_listing in *. rewrite Q1 at 2. rewrite (listings_ext (dir_block (e_fs s) (blocks s) n)); [done|]. intros b Hb%elem_of_seqZ. unfold dir_block. rewrite (file_block_quiet k s s') by (done || lia). by rewrite Q1, Q2.
  - by rewrite Q1.
  - intros b Hb0 Hb. rewrite (file_block_quiet k s s') by done. apply O3; [done|by rewrite <- Q1].
Qed.

(** The map of a file and its blocks are as before. *)
Definition keeps n s s' : Prop :=
  (∀ x, slot_valid (e_fs s) x → ptr (blocks s') n x = ptr (blocks s) n x) ∧
  ∀ x, slot_valid (e_fs s) x → ptr (blocks s) n x ≠ 0 → blocks s' (ptr (blocks s) n x) = blocks s (ptr (blocks s) n x).

Lemma keeps_map_trans n s1 s2 s3 : same_geo (e_fs s1) (e_fs s2) → keeps n s1 s2 → keeps n s2 s3 → keeps n s1 s3.
Proof.
  intros Hs [A1 A2] [B1 B2]. assert (∀ x, slot_valid (e_fs s1) x → slot_valid (e_fs s2) x) as Hv by (intros x; by apply (slot_valid_same _ _ _ Hs)). split; intros x Hx; [rewrite B1 by auto; auto|].
  intros Hne. rewrite <- (A2 x Hx Hne), <- (A1 x Hx). apply B2; [auto|by rewrite A1].
Qed.

Lemma keeps_bits IM d n s s' : tree (e_fs s) (blocks s) IM → IM d = Some n → bits_only s s' → keeps n s s'.
Proof.
  intros Ht Hn Hb. split; intros x Hx; [by eapply bits_only_ptr|]. intros Hne. apply Hb. intros Hm. by apply (used_kept _ _ _ d n x _ Ht Hn Hx Hne Hm).
Qed.

Lemma keeps_fresh IM d n s s' b l : tree (e_fs s) (blocks s) IM → IM d = Some n → fresh (e_fs s) (blocks s) IM b → wrote b l s s' → keeps n s s'.
Proof.
  intros Ht Hn Hf [_ Eb _]. assert (∀ x, slot_valid (e_fs s) x → blocks s' (ptr (blocks s) n x) = blocks s (ptr (blocks s) n x)) as Hk.
  { intros x Hx. rewrite Eb, bool_decide_eq_false_2; [done|]. by eapply (fr_unused _ _ _ _ Hf). }
  split; [|by intros x Hx _; apply Hk]. apply ptr_ext. intros x Hx _ _. by apply Hk.
Qed.

Lemma dir_ok_keeps s s' n l : geo (e_fs s) → same_geo (e_fs s) (e_fs s') → keeps n s s' → dir_ok (e_fs s) (blocks s) n l → dir_ok (e_fs s') (blocks s') n l.
Proof.
  intros Hg Hsg [K1 K2] [O1 O2 O3]. assert (∀ b, 0 ≤ b → file_block (e_fs s') (blocks s') n b = file_block (e_fs s) (blocks s) n b) as Hf by (intros b Hb; by apply file_block_ext).
  assert (dir_blocks (e_fs s') n = dir_blocks (e_fs s) n) as Ed by (unfold dir_blocks; by rewrite (sg_bs _ _ Hsg)). constructor.
  - unfold dir_listing in *. rewrite Ed, (listings_ext (dir_block (e_fs s) (blocks s) n)); [done|]. intros b Hb%elem_of_seqZ. unfold dir_block. rewrite Hf, (sg_bs _ _ Hsg) by lia.
    destruct (Z.eqb_spec (file_block (e_fs s) (blocks s) n b) 0) as [|Hne]; [done|]. unfold file_block in *. destruct (slot_of (e_fs s) b) as [x|] eqn:Ex; [|done]. cbn [from_option] in *.
    destruct (slot_of_valid (e_fs s) b x Hg ltac:(lia) Ex) as [Hx _]. by rewrite K2.
  - by rewrite (sg_bs _ _ Hsg).
  - intros b Hb0. rewrite Ed, Hf by done. by apply O3.
Qed.

Definition add_spec (K : gmap Z Z) (d : Z) n (l : list dirent) (e : dirent) s s' (r : Z) : Prop :=
  0 ≤ r ∧ dir_spec K d n l e s s' ∨
  r < 0 ∧ fs_inv K s' ∧ others_same d s s' ∧ inodes (e_fs s') (blocks s') d = Some n ∧ dir_ok (e_fs s') (blocks s') n l ∧
    (EXT4_NDIR_BLOCKS + ptrs (e_fs s) ≤ dir_blocks (e_fs s) n ∨ one_left s').

Lemma fs_inv_quiet K K' k s s' : quiet k s s' → sane K' s' → fs_inv K s → fs_inv K' s'.
Proof. intros Hq Hs [_ Ht]. split; [done|]. eapply tree_proper; [intros i; by eapply inodes_quiet|]. by eapply tree_quiet. Qed.

Lemma add_spec_quiet K K' d n l e s0 s s1 s2 r : geo (e_fs s0) → geo (e_fs s1) → quiet 0 s0 s → quiet 0 s1 s2 → sane K s2 → add_spec K' d n l e s s1 r → add_spec K d n l e s0 s2 r.
Proof.
  intros Hg0 Hg1 Hq0 Hq1 Hs2 Hsp. assert (∀ i, others_same i s s1 → others_same i s0 s2) as Ho by (intros i Hi; eapply other_files_trans; [by eapply others_quiet|]; eapply other_files_trans; [done|by eapply others_quiet]).
  destruct Hsp as [(Hr & Hinv & Hot & n' & l' & Hn' & Hok & Hp)|(Hr & Hinv & Hot & Hn' & Hok & Hwhy)]; [left|right]; (split; [done|]).
  - split; [by eapply fs_inv_quiet|]. split; [by apply Ho|]. exists n', l'. split; [by rewrite (inodes_quiet _ _ _ _ Hq1)|]. split; [by eapply dir_ok_quiet|done].
  - split; [by eapply fs_inv_quiet|]. split; [by apply Ho|]. split; [by rewrite (inodes_quiet _ _ _ _ Hq1)|]. split; [by eapply dir_ok_quiet|]. rewrite (q_fs _ _ _ Hq0) in Hwhy.
    destruct Hwhy as [|Hone]; [by left|right]. unfold one_left, free in *. rewrite (q_fs _ _ _ Hq1). intros b1 b2 (g1 & i1 & A1 & B1 & C1) (g2 & i2 & A2 & B2 & C2). rewrite (q_blocks _ _ _ Hq1) in C1, C2. apply Hone; [by exists g1, i1|by exists g2, i2].
Qed.

(** The new block holds the new entry only. *)
Lemma new_block_listing bs ino name ft buf : put_entry 0 ino bs name ft (replicate (Z.to_nat bs) 0) = Some buf → 1024 ≤ bs < 65536 → Forall is_byte name → Z.of_nat (length name) ≤ 255 → 0 ≤ ino < 2 ^ 32 → 0 ≤ ft < 256 →
  Z.of_nat (length buf) = bs ∧ Forall is_byte buf ∧ listing bs buf = Some [mk_dirent ino ft name].
Proof.
  intros E Hbs Hname Hn Hino Hft. destruct (put_entry_ok 0 ino bs name ft (replicate (Z.to_nat bs) 0)) as (buf' & E' & L & Hb & Er & En & Ee & _); try done; try lia.
  { rewrite length_replicate. lia. }
  { apply Forall_replicate. split; lia. }
  rewrite E' in E. injection E as ->. rewrite length_replicate in L. split; [lia|]. split; [done|]. apply listing_chain; [done|lia|]. exists [0]. cbn [map]. rewrite Ee. split; [|done].
  cbn [chain]. unfold entry_ok, actual_at. rewrite Er, En. destruct (entry_size_spec (Z.of_nat (length name)) ltac:(lia)). rewrite !(proj2 (Z.leb_le _ _)) by lia. split; [done|]. split; [lia|]. split; [done|lia].
Qed.

Lemma append_block_ok K p d n l name ino ft s : K !! p = None → fs_inv (<[p := block_size (e_fs s)]> K) s → inodes (e_fs s) (blocks s) d = Some n → dir_ok (e_fs s) (blocks s) n l → block_size (e_fs s) < 65536 →
  size_of n + block_size (e_fs s) < 2 ^ 32 → Forall is_byte name → Z.of_nat (length name) ≤ 255 → 0 ≤ ino < 2 ^ 32 → 0 ≤ ft < 256 →
  wp (append_block d n (dir_blocks (e_fs s) n) p name ino ft) s (λ s' r, sane K s' ∧ after s s' ∧ (e_faults s' = e_faults s → add_spec K d n l (mk_dirent ino ft name) s s' r)).
Proof.
  intros Hp Hinv Hd Hok Hbs Hsz Hname Hn Hino Hft. pose proof Hinv as [Hs Ht]. pose proof (proj2 (proj1 Hs)) as Hg. pose proof (geo_bs_range _ Hg) as Hb0. set (IM := inodes (e_fs s) (blocks s)) in *.
  set (m := dir_blocks (e_fs s) n) in *. set (K' := <[p := block_size (e_fs s)]> K) in *. set (e := mk_dirent ino ft name).
  assert (valid_ino (e_fs s) d) as Hv by (unfold IM, inodes in Hd; destruct (live (e_fs s) (blocks s) d) eqn:El; [by eapply live_valid|done]). assert (good_inode n) as Hgn by (by eapply (t_good _ _ _ Ht)).
  pose proof (fld_bound i_size_lo n (proj2 Hgn)) as Hsz0. fold (size_of n) in Hsz0. destruct (dir_blocks_size _ _ Hg (do_size _ _ _ _ Hok) ltac:(lia)) as [_ Hm]. fold m in Hm.
  destruct (group_bounds _ _ Hg Hv) as (Eg & Hg1 & Hg2). pose proof (tree_inodes _ _ _ Hd Ht) as Ht0. fold IM in Ht0.
  assert (∀ s1 s2 : est, after s s1 → ok K s2 → quiet 0 s1 s2 → sane K s2 ∧ after s s2) as Hend.
  { intros s1 s2 Ha Hok2 Hq. assert (after s s2) as Ha2 by (eapply after_trans; [done|by eapply after_quiet]). split; [by eapply sane_after; [|exact Ha2|apply Hs]|done]. }
  apply wp_bind, wp_the_fs, wp_bind, wp_udiv; [pose proof (geo_ipg _ Hg); lia|]. rewrite Eg. apply wp_bind. eapply wp_mono; [by apply (alloc_block_tree K')|].
  intros s1 c (Hs1 & Ha1 & Hbo1 & Hsub1 & Hnum & Htree1). destruct (Htree1 _ Ht0) as [Ht1 Hc]. pose proof (proj2 (proj1 Hs1)) as Hgeo1. pose proof (moved_bits IM d nowhere s n s1 Hg Ha1 Hbo1 Ht0 Ht1) as M1.
  pose proof (keeps_bits _ d n s s1 Ht0 (fn_lookup_insert _ _ _) Hbo1) as K1.
  destruct (Z.ltb_spec c 0) as [Hc0|Hc0].
  { apply wp_bind. eapply (wp_kfree K p (block_size (e_fs s))); [exact (proj1 Hs1)|done|]. intros s2 Hok2 Hq2. apply wp_ret. destruct (Hend s1 s2 Ha1 Hok2 Hq2) as [Hs2 Ha2]. split; [done|]. split; [done|]. intros En.
    eapply (add_spec_quiet K K' _ _ _ _ s s s1 s2); [done|done|apply quiet_same|done|done|]. right. split; [lia|]. destruct (inode_kept K' nowhere d s n s1 Hinv Hd Hs1 Ha1 M1) as (I1 & I2 & I3). split; [done|]. split; [done|]. split; [done|].
    split; [by apply (dir_ok_keeps s s1); [|apply Ha1|..]|]. right. destruct Hc as [[_ Hno]|[Hf _]]; [|pose proof (fr_range _ _ _ _ Hf); lia]. intros b1 b2 F1%Hsub1. exfalso. revert F1. apply Hno; [|done|done]. pose proof (q_faults _ _ _ Hq2). destruct Ha1. lia. }
  destruct Hc as [[? _]|(F1 & N1 & _)]; [lia|]. destruct (Hnum Hc0) as (g & i & Hin & Ec). destruct (put_entry_ok 0 ino (block_size (e_fs s)) name ft (replicate (Z.to_nat (block_size (e_fs s))) 0)) as (buf & Eput & _); try done; try lia.
  { rewrite length_replicate. lia. }
  { apply Forall_replicate. split; lia. }
  destruct (new_block_listing _ _ _ _ _ Eput ltac:(lia) Hname Hn Hino Hft) as (Lbuf & Bbuf & Hlist). apply wp_bind. eapply wp_lift; [exact Eput|].
  (** releasing the block when something went wrong *)
  assert (∀ s2, sane K' s2 → after s s2 → wp (bind (ext4_free_block c) (λ _, bind (kfree p) (λ _, ret (-1)))) s2 (λ s' r, sane K s' ∧ after s s' ∧ r = -1 ∧
    ∃ s3, quiet 0 s3 s' ∧ after s2 s3 ∧ sane K' s3 ∧ bits_only s2 s3 ∧ (∀ b, free (e_fs s3) (blocks s3) b → free (e_fs s2) (blocks s2) b ∨ b = c) ∧
      ∀ IM, tree (e_fs s2) (blocks s2) IM → fresh (e_fs s2) (blocks s2) IM c → ¬ free (e_fs s2) (blocks s2) c → tree (e_fs s3) (blocks s3) IM)) as Hrelease.
  { intros s2 Hs2 Ha2. rewrite Ec, <- (block_number_same _ _ g i (proj1 Ha2)). apply wp_bind. eapply wp_mono; [apply (free_block_tree K' g i s2 Hs2); by apply (in_group_same block_pool _ _ _ _ (or_introl eq_refl) (proj1 Ha2))|].
    intros s3 r3 (Hs3 & Ha3 & Hbo3 & Hsub3 & Htree3). apply wp_bind. eapply (wp_kfree K p (block_size (e_fs s))); [exact (proj1 Hs3)|done|]. intros s4 Hok4 Hq4. apply wp_ret.
    destruct (Hend s3 s4 ltac:(by eapply after_trans) Hok4 Hq4) as [Hs4 Ha4]. split; [done|]. split; [done|]. split; [done|]. exists s3. by repeat (split; [done|]). }
  apply wp_bind. eapply wp_write; [exact (proj1 Hs1)|by rewrite (sg_bs _ _ (proj1 Ha1))|done| |].
  2: { intros s2 w Hok2 Hw Hq2. rewrite (proj2 (Z.ltb_lt _ _)) by done. assert (after s s2) as Ha2 by (eapply after_trans; [done|by eapply after_quiet]). eapply wp_mono; [apply Hrelease; [by eapply sane_after; [|exact Ha2|apply Hs]|done]|].
       intros s4 r (Hs4 & Ha4 & _ & s3 & Hq4 & Ha3 & _). split; [done|]. split; [done|]. intros En. pose proof (q_faults _ _ _ Hq2). pose proof (q_faults _ _ _ Hq4). destruct Ha1, Ha3. lia. }
  intros s2 w Hok2 Hw0 Hw. rewrite (proj2 (Z.ltb_ge _ _)) by lia. pose proof (after_wrote _ _ _ _ Hw) as Ha12. assert (after s s2) as Ha2 by (by eapply after_trans). assert (sane K' s2) as Hs2 by (by eapply sane_after; [|exact Ha2|apply Hs]).
  destruct (write_fresh IM d nowhere s1 n s2 c buf Hgeo1 Ht1 F1 N1 Hw) as (M2 & F2 & N2 & _). pose proof (keeps_fresh _ d n s1 s2 c buf Ht1 (fn_lookup_insert _ _ _) F1 Hw) as K2.
  destruct (valid_ino_after _ _ _ Ha2 Hv) as [Hv2 _]. apply wp_bind. eapply wp_mono; [apply (set_file_block_ok K' n m c d s2); [done|done|done|done]|]. intros s3 [w3 n3] (Hs3 & Ha3 & Hg3 & Hset). cbn [fst snd] in *.
  assert (file_block (e_fs s2) (blocks s2) n m = 0) as E0.
  { transitivity (file_block (e_fs s) (blocks s) n m); [|by apply (do_end _ _ _ _ Hok); lia]. apply file_block_ext; [done|apply Ha2|done|]. intros x Hx. by apply (keeps_map_trans n s s1 s2 (proj1 Ha1) K1 K2). }
  pose proof (after_trans _ _ _ Ha2 Ha3) as Ha03. destruct (Z.ltb_spec w3 0) as [Hw3|Hw3].
  - eapply wp_mono; [apply (Hrelease s3 Hs3 Ha03)|]. intros s5 r (Hs5 & Ha5 & -> & s4 & Hq5 & Ha4 & Hs4 & Hbo4 & Hsub4 & Htree4). split; [done|]. split; [done|]. intros En.
    assert (e_faults s3 = e_faults s2) as En3 by (pose proof (q_faults _ _ _ Hq5); destruct Ha2, Ha3, Ha4; lia).
    destruct (Hset IM (or_intror En3) (mv_tree _ _ _ _ _ _ _ M2) F2 N2 E0) as [(_ & -> & M3 & F3 & N3 & Hwhy & Hbo3)|[? _]]; [|lia].
    pose proof (Htree4 _ (mv_tree _ _ _ _ _ _ _ M3) F3 N3) as Ht4. pose proof (moved_bits IM d nowhere s3 n s4 (proj2 (proj1 Hs3)) Ha4 Hbo4 (mv_tree _ _ _ _ _ _ _ M3) Ht4) as M4.
    assert (moved IM d nowhere s n s4 n) as M by (eapply moved_trans; [exact (proj1 Ha1)|done|]; eapply moved_trans; [exact (proj1 Ha12)|done|]; eapply moved_trans; [exact (proj1 Ha3)|done|done]).
    pose proof (after_trans _ _ _ Ha03 Ha4) as Ha04. eapply (add_spec_quiet K K' _ _ _ _ s s s4 s5); [done|apply Hs4|apply quiet_same|done|done|]. right. split; [lia|].
    destruct (inode_kept K' nowhere d s n s4 Hinv Hd Hs4 Ha04 M) as (I1 & I2 & I3). split; [done|]. split; [done|]. split; [done|]. split.
    + apply (dir_ok_keeps s s4); [done|exact (proj1 Ha04)| |done]. eapply keeps_map_trans; [exact (proj1 Ha1)|done|]. eapply keeps_map_trans; [exact (proj1 Ha12)|done|].
      eapply keeps_map_trans; [exact (proj1 Ha3)|by apply (keeps_bits _ d n s2 s3 (mv_tree _ _ _ _ _ _ _ M2) (fn_lookup_insert _ _ _))|by apply (keeps_bits _ d n s3 s4 (mv_tree _ _ _ _ _ _ _ M3) (fn_lookup_insert _ _ _))].
    + destruct Hwhy as [Hlim|Hno]; [left; unfold ptrs in *; by rewrite <- (sg_bs _ _ (proj1 Ha2))|right]. intros b1 b2 [X1| ->]%Hsub4 [X2| ->]%Hsub4; try done; by destruct (Hno _ ltac:(eassumption)).
  - cbv zeta. fold (grown_inode (e_fs s) n3). destruct (valid_ino_after _ _ _ Ha03 Hv) as [Hv3 _]. apply wp_bind. eapply wp_mono; [apply (write_inode_ok K' d (grown_inode (e_fs s) n3) s3 (proj1 Hs3) (proj2 Hs3) Hv3)|].
    { unfold grown_inode. by repeat apply good_upd. }
    intros s4 w4 (Hok4 & Hw4). assert (after s3 s4) as Ha34 by (destruct Hw4 as [[_ X]|[_ X]]; [by eapply after_wrote|by eapply after_failed]). pose proof (after_trans _ _ _ Ha03 Ha34) as Ha04.
    assert (sane K' s4) as Hs4 by (by eapply sane_after; [|exact Ha04|apply Hs]). apply wp_bind. eapply (wp_kfree K p (block_size (e_fs s))); [exact Hok4|done|]. intros s5 Hok5 Hq5. apply wp_ret.
    destruct (Hend s4 s5 Ha04 Hok5 Hq5) as [Hs5 Ha5]. split; [done|]. split; [done|]. intros En. assert (e_faults s3 = e_faults s2 ∧ e_faults s4 = e_faults s3) as [En3 En4] by (pose proof (q_faults _ _ _ Hq5); destruct Ha2, Ha3, Ha34; lia).
    destruct Hw4 as [[Hw40 Hw4]|[_ [k Hf]]]; [|rewrite (q_faults _ _ _ Hf) in En4; lia]. pose proof (Hset IM (or_intror En3) (mv_tree _ _ _ _ _ _ _ M2) F2 N2 E0) as Hset3.
    destruct (grown_blocks IM d n l s s1 c buf s2 s3 n3 w3 Hg (proj2 (proj1 Hs3)) Hd Ht Hok Ha1 Ha12 Ha3 Hm Hbo1 Ht1 F1 N1 Hgeo1 Hw Hw3 Hset3) as (M & G1 & G2 & G3). rewrite Hlist in G1.
    eapply (add_spec_quiet K K' _ _ _ _ s s s4 s5); [done|apply Hs4|apply quiet_same|done|done|]. left. split; [done|]. by eapply (dir_grown K' d n l e s s3 n3 s4).
Qed.

Lemma inodes_valid s d n : inodes (e_fs s) (blocks s) d = Some n → valid_ino (e_fs s) d ∧ n = disk_inode (e_fs s) (blocks s) d.
Proof. unfold inodes. destruct (live (e_fs s) (blocks s) d) eqn:El; [|done]. intros [= <-]. split; [by eapply live_valid|done]. Qed.

Lemma add_dir_entry_ok K d name ino ft n l s : fs_inv K s → inodes (e_fs s) (blocks s) d = Some n → dir_ok (e_fs s) (blocks s) n l → block_size (e_fs s) < 65536 →
  size_of n + block_size (e_fs s) < 2 ^ 32 → Forall is_byte name → 0 ≤ ino < 2 ^ 32 → 0 ≤ ft < 256 →
  wp (ext4_add_dir_entry d name ino ft) s (λ s' r, sane K s' ∧ after s s' ∧ (e_faults s' = e_faults s → add_spec K d n l (mk_dirent ino ft (take 255 name)) s s' r)).
Proof.
  intros Hinv Hd Hok Hbs Hsz Hname Hino Hft. pose proof Hinv as [Hs Ht]. pose proof (proj2 (proj1 Hs)) as Hg. pose proof (geo_bs_range _ Hg) as Hb0. destruct (inodes_valid _ _ _ Hd) as [Hv En].
  assert (∀ s' : est, ok K s' → failed s s' → ∀ r, sane K s' ∧ after s s' ∧ (e_faults s' = e_faults s → add_spec K d n l (mk_dirent ino ft (take 255 name)) s s' r)) as Hfail.
  { intros s' Hok' Hf r. pose proof (after_failed _ _ Hf) as Ha. split; [by eapply sane_after; [|exact Ha|apply Hs]|]. split; [done|]. destruct Hf as [k Hq]. rewrite (q_faults _ _ _ Hq). lia. }
  apply wp_bind, wp_the_fs, wp_bind. eapply wp_mono; [apply (read_inode_ok K d s); [apply Hs|apply Hs|done]|]. intros s1 r1 [Hok1 [[-> Hq1]|[-> Hf1]]]; [|apply wp_ret; by apply Hfail]. rewrite <- En.
  cbv zeta. apply wp_bind. eapply wp_kmalloc; [exact Hok1|lia| |]. 2: { intros s2 Hok2 Hq2. apply wp_ret. apply Hfail; [done|]. eapply failed_trans; [done|by apply quiet_failed in Hq2]. }
  intros s2 p Hp Hok2 Hq2. pose proof (quiet_trans _ _ _ _ _ Hq1 Hq2) as Hq. cbn in Hq. set (K' := <[p := block_size (e_fs s)]> K) in *. pose proof (after_quiet _ _ _ Hq) as Ha2.
  assert (sane K' s2) as Hs2 by (by eapply sane_after; [|exact Ha2|apply Hs]). pose proof (fs_inv_quiet K K' 0 s s2 Hq Hs2 Hinv) as Hinv2. pose proof (dir_ok_quiet 0 s s2 n l Hg Hq Hok) as Hokd2.
  assert (inodes (e_fs s2) (blocks s2) d = Some n) as Hd2 by (by rewrite (inodes_quiet _ _ _ _ Hq)). pose proof (q_fs _ _ _ Hq) as Ef2.
  apply wp_bind, wp_udiv; [lia|]. fold (size_of n). fold (dir_blocks (e_fs s) n). set (m := dir_blocks (e_fs s) n). assert (good_inode n) as Hgn by (by eapply (t_good _ _ _ Ht)).
  pose proof (fld_bound i_size_lo n (proj2 Hgn)) as Hsz0. fold (size_of n) in Hsz0. destruct (dir_blocks_size _ _ Hg (do_size _ _ _ _ Hok) ltac:(lia)) as [_ Hm]. fold m in Hm.
  assert (Forall is_byte (take 255 name)) as Hnm by (by apply Forall_take). assert (Z.of_nat (length (take 255 name)) ≤ 255) as Hln by (rewrite length_take; lia).
  apply wp_bind. eapply wp_mono; [apply (scan_blocks_ok K' m n (take 255 name) ino ft (Z.to_nat m) s2 Hs2 Hnm Hln Hino Hft)|].
  { lia. }
  { intros b Hb _. rewrite <- Ef2 in Hg. destruct (dir_ok_chain _ _ _ _ b Hg (λ c, dev_blocks_bytes (e_dev s2) c) Hokd2) as [_ (k & Hk & _)]; [by rewrite Ef2|by exists k]. }
  intros s3 r3 (Hs3 & Ha3 & Hr3). pose proof (after_trans _ _ _ Ha2 Ha3) as Ha03. destruct r3 as [w|].
  - apply wp_bind. eapply (wp_kfree K p); [exact (proj1 Hs3)|done|]. intros s4 Hok4 Hq4. apply wp_ret. assert (after s s4) as Ha4 by (eapply after_trans; [exact Ha03|by eapply after_quiet]).
    assert (sane K s4) as Hs4 by (by eapply sane_after; [|exact Ha4|apply Hs]). split; [done|]. split; [done|]. intros Ef. assert (e_faults s3 = e_faults s2) as En3 by (pose proof (q_faults _ _ _ Hq); pose proof (q_faults _ _ _ Hq4); lia).
    destruct (Hr3 En3) as [Hw Had]. eapply (add_spec_quiet K K' _ _ _ _ s s2 s3 s4); [done|apply Hs3|done|done|done|]. left. split; [done|]. apply (dir_in_place K'); try done. by rewrite Ef2.
  - destruct Hr3 as [k Hq3]. pose proof (quiet_trans _ _ _ _ _ Hq Hq3) as Hq03. assert (inodes (e_fs s3) (blocks s3) d = Some n) as Hd3 by (by rewrite (inodes_quiet _ _ _ _ Hq03)). pose proof (q_fs _ _ _ Hq03) as Ef3.
    pose proof (dir_ok_quiet _ s s3 n l Hg Hq03 Hok) as Hokd3. unfold m. rewrite <- Ef3. eapply wp_mono; [apply (append_block_ok K p d n l (take 255 name) ino ft s3)|]; rewrite ?Ef3; try done.
    + by eapply (fs_inv_quiet K _ _ s s3).
    + by rewrite <- Ef3.
    + by rewrite <- Ef3.
    + intros s4 r (Hs4 & Ha4 & Hr). split; [done|]. split; [by eapply after_trans|]. intros En4. assert ((k + 0)%nat = 0%nat) as Ek by (pose proof (q_faults _ _ _ Hq03); destruct Ha4; lia). rewrite Ek in Hq03.
      assert (e_faults s4 = e_faults s3) as En34 by (rewrite (q_faults _ _ _ Hq03); done). specialize (Hr En34). eapply (add_spec_quiet K K _ _ _ _ s s3 s4 s4); [done|apply Hs4|done|apply quiet_same|done|done].
Qed.
End Dirs.
