(* ===== verification/Ext4Create.v ===== *)
(** * ext4: creation of files

    Allocation and release of inodes on a consistent disk, and ext4_create_file
    for files: a new inode without blocks and one more entry in the directory. *)

From stdpp Require Import functions.
From S2P Require Import Prelude KHeap Kmalloc Ext4 Ext4Alloc Ext4Files Ext4Correct Ext4Dirs.

Section Create.
Context {H D : Type} `{!KernelHeap H} `{!BlockDevice D} `{!BlockLaws D}.
#[local] Abbreviation est := (ext4_state H D).
Implicit Types (s : est) (n : list Z) (fs : ext4_fs).

(** ** Inode numbers *)

Definition inode_number fs (g i : Z) : Z := g * inodes_per_group fs + i + 1.

Lemma inode_number_spec fs g i : geo fs → in_group inode_pool fs g i →
  p_number inode_pool fs g i = inode_number fs g i ∧ valid_ino fs (inode_number fs g i) ∧ ino_group fs (inode_number fs g i) = g ∧ ino_index fs (inode_number fs g i) = i ∧ inode_number fs g i < 2 ^ 31.
Proof.
  intros Hg [Hgr Hi]. cbn [p_per_group inode_pool] in Hi. pose proof (geo_inodes _ Hg). pose proof (geo_ipg _ Hg) as Hp. unfold inode_number.
  assert (1 ≤ g * inodes_per_group fs + i + 1 ≤ group_count fs * inodes_per_group fs) as Hr by nia. split; [|split; [done|]].
  - cbn [p_number inode_pool]. rewrite u32_small, i32_small by lia. done.
  - unfold ino_group, ino_index. replace (g * inodes_per_group fs + i + 1 - 1) with (g * inodes_per_group fs + i) by lia.
    rewrite Z.div_add_l, Z.div_small, Z.add_0_r, Z.add_comm, Z_mod_plus_full, Z.mod_small by lia. lia.
Qed.

(** A valid inode number has a place in a bitmap. *)
Lemma ino_in_group fs ino : geo fs → valid_ino fs ino → in_group inode_pool fs (ino_group fs ino) (ino_index fs ino) ∧ inode_number fs (ino_group fs ino) (ino_index fs ino) = ino.
Proof.
  intros Hg Hv. destruct (ino_range _ _ Hg Hv) as (G1 & G2 & _). split; [by split|]. unfold inode_number, ino_group, ino_index. pose proof (geo_ipg _ Hg).
  pose proof (Z.div_mod (ino - 1) (inodes_per_group fs) ltac:(lia)). lia.
Qed.

(** ** A change of one bit in an inode bitmap *)

Lemma inode_counts g delta fs B : 0 ≤ g → counts fs B → geo fs → counts (counted_fs inode_pool g delta fs) B.
Proof.
  intros Hg [C1 C2] Hgeo. destruct (count_free_same inode_pool fs g delta (or_intror eq_refl) Hg Hgeo) as [Hs _]. split; [by rewrite (sg_bpg _ _ Hs)|]. intros g' Hg'. rewrite (sg_gc _ _ Hs) in Hg'. rewrite (sg_bpg _ _ Hs), (sg_blocks _ _ Hs) by done. rewrite <- C2 by done.
  unfold count_of, wide, counted_fs. cbn [desc_size gd_mem with_gd with_sb]. unfold sizeof_group_desc. rewrite !fld_upd_other by (unfold apart; cbn; lia). done.
Qed.

(** Everything but the bit stays as it is. *)
Lemma inode_bit g i v s s' : geo (e_fs s) → layout (e_fs s) → in_group inode_pool (e_fs s) g i → bit_changed inode_pool g i v s s' →
  same_geo (e_fs s) (e_fs s') ∧ (∀ b, ¬ meta (e_fs s) b → blocks s' b = blocks s b) ∧ (∀ b, free (e_fs s') (blocks s') b → free (e_fs s) (blocks s) b) ∧
  (∀ IM, tree (e_fs s) (blocks s) IM → tree (e_fs s') (blocks s') IM) ∧
  ∀ j, inodes (e_fs s') (blocks s') j = (<[inode_number (e_fs s) g i := if v then Some (disk_inode (e_fs s) (blocks s) (inode_number (e_fs s) g i)) else None]> (inodes (e_fs s) (blocks s))) j.
Proof.
  intros Hg Hl Hin Hc. pose proof (bc_geo _ _ _ _ _ _ (or_intror eq_refl) Hg (proj1 (proj1 Hin)) Hc) as Hs. destruct Hc as [Ef Ho Hb]. set (c := bitmap_block inode_pool (e_fs s) g) in *.
  assert (∀ b, ¬ meta (e_fs s) b → blocks s' b = blocks s b) as Hnm by (intros b Hm; apply Ho; intros ->; apply Hm; by exists (MInodes g); destruct Hin).
  assert (∀ g', 0 ≤ g' < group_count (e_fs s) → blocks s' (bitmap_block block_pool (e_fs s) g') = blocks s (bitmap_block block_pool (e_fs s) g')) as Hbm.
  { intros g' Hg'. apply Ho. intros E. destruct Hin as [Hgr _]. by pose proof (ly_inj _ Hl (MBlocks g') (MInodes g) Hg' Hgr E). }
  assert (∀ b, free (e_fs s') (blocks s') b → free (e_fs s) (blocks s) b) as Hfree.
  { intros b (g' & i' & Hin'%(in_group_same _ _ _ _ _ (or_introl eq_refl) Hs) & -> & Hf). rewrite (block_number_same _ _ _ _ Hs). exists g', i'. split; [done|]. split; [done|].
    rewrite (sg_blocks _ _ Hs), Hbm in Hf by apply Hin'. done. }
  split; [done|]. split; [done|]. split; [done|]. split.
  { intros IM Ht. eapply disk_tree_ext; [done|done| |intros b Hf; left; by apply Hfree|].
    - intros j m x Hj Hx _ Hne. apply Hnm. by apply (t_used _ _ _ Ht j m x).
    - intros HC. rewrite Ef. apply inode_counts; [apply Hin| |done]. by eapply counts_kept. }
  intros j. assert (ino_group (e_fs s') j = ino_group (e_fs s) j ∧ ino_index (e_fs s') j = ino_index (e_fs s) j) as [E1 E2] by (unfold ino_group, ino_index; by rewrite (sg_ipg _ _ Hs)).
  assert (valid_ino (e_fs s) j → disk_inode (e_fs s') (blocks s') j = disk_inode (e_fs s) (blocks s) j) as Edisk.
  { intros Hv. destruct (ino_range _ _ Hg Hv) as (G1 & _). unfold disk_inode, ino_offset, ino_block. rewrite E1, E2, (sg_isize _ _ Hs), (sg_bs _ _ Hs), (sg_table _ _ Hs) by done. f_equal. f_equal. apply Ho. intros E.
    destruct (ino_block_meta _ _ Hg Hv) as (g' & k' & Hm & Em). unfold ino_block in Em. rewrite E in Em. destruct Hin as [Hgr _]. by pose proof (ly_inj _ Hl (MInodes g) (MTable g' k') Hgr Hm Em). }
  unfold inodes, live. rewrite (sg_gc _ _ Hs), (sg_ipg _ _ Hs), E1, E2. destruct (inode_number_spec _ _ _ Hg Hin) as (_ & Hvn & Gn & In & _).
  destruct ((1 <=? j) && (j <=? group_count (e_fs s) * inodes_per_group (e_fs s))) eqn:Ev.
  2: { rewrite fn_lookup_insert_ne by (intros <-; destruct Hvn; zbool; lia). by rewrite Ev. }
  zbool. assert (valid_ino (e_fs s) j) as Hv by done. rewrite Edisk by done. destruct (ino_range _ _ Hg Hv) as (G1 & G2 & _). rewrite (sg_inodes _ _ Hs) by done. cbn [andb].
  destruct (decide (j = inode_number (e_fs s) g i)) as [->|Hne].
  - rewrite fn_lookup_insert, Gn, In. fold c. rewrite Hb, Z.eqb_refl by apply Hin. by destruct v.
  - rewrite fn_lookup_insert_ne by done. replace (1 <=? j) with true by (symmetry; apply Z.leb_le; lia). replace (j <=? _) with true by (symmetry; apply Z.leb_le; lia). cbn [andb].
    assert (bit (blocks s' (bitmap_block inode_pool (e_fs s) (ino_group (e_fs s) j))) (ino_index (e_fs s) j) = bit (blocks s (bitmap_block inode_pool (e_fs s) (ino_group (e_fs s) j))) (ino_index (e_fs s) j)) as Ebit.
    { destruct (decide (ino_group (e_fs s) j = g)) as [Egr|Hgn].
      - rewrite Egr. fold c. rewrite Hb by lia. destruct (Z.eqb_spec (ino_index (e_fs s) j) i) as [Ei|]; [|done]. exfalso. apply Hne. destruct (ino_in_group _ _ Hg Hv) as [_ <-]. by rewrite Egr, Ei.
      - rewrite Ho; [done|]. intros E. destruct Hin as [Hgr _]. pose proof (ly_inj _ Hl (MInodes (ino_group (e_fs s) j)) (MInodes g) G1 Hgr E). congruence. }
    by rewrite Ebit.
Qed.

(** ** Inodes added and removed *)

Lemma tree_empty fs B IM ino n : tree fs B IM → good_inode n → (∀ x, slot_valid fs x → ptr B n x = 0) → tree fs B (<[ino := Some n]> IM).
Proof.
  intros Ht Hg H0. assert (∀ i m x, <[ino := Some n]> IM i = Some m → slot_valid fs x → ptr B m x ≠ 0 → IM i = Some m) as Hi.
  { intros i m x Him Hx Hne. destruct (decide (i = ino)) as [->|]; [|by rewrite fn_lookup_insert_ne in Him]. rewrite fn_lookup_insert in Him. injection Him as <-. by rewrite H0 in Hne. }
  constructor; [| | |exact (t_meta _ _ _ Ht)|exact (t_zero _ _ _ Ht)|exact (t_counts _ _ _ Ht)].
  - intros i m Him. destruct (decide (i = ino)) as [->|]; [rewrite fn_lookup_insert in Him; by injection Him as <-|]. rewrite fn_lookup_insert_ne in Him by done. by apply (t_good _ _ _ Ht i).
  - intros i1 n1 x1 i2 n2 x2 E1 E2 V1 V2 Hne E. apply (t_inj _ _ _ Ht i1 n1 x1 i2 n2 x2); try done; [by apply (Hi i1 n1 x1)|]. apply (Hi i2 n2 x2); [done|done|congruence].
  - intros i m x Him Hx Hne. apply (t_used _ _ _ Ht i m x); [by apply (Hi i m x)|done|done].
Qed.

Lemma tree_removed fs B IM ino : tree fs B IM → tree fs B (<[ino := None]> IM).
Proof.
  intros Ht. assert (∀ i m, <[ino := None]> IM i = Some m → IM i = Some m) as Hi by (intros i m; destruct (decide (i = ino)) as [->|]; [by rewrite fn_lookup_insert|by rewrite fn_lookup_insert_ne]).
  constructor; [| | |exact (t_meta _ _ _ Ht)|exact (t_zero _ _ _ Ht)|exact (t_counts _ _ _ Ht)].
  - intros i m Him%Hi. by apply (t_good _ _ _ Ht i).
  - intros i1 n1 x1 i2 n2 x2 E1%Hi E2%Hi. by apply (t_inj _ _ _ Ht).
  - intros i m x Him%Hi. by apply (t_used _ _ _ Ht i).
Qed.

(** Changes of metadata keep the blocks of a file. *)
Lemma keeps_meta IM d n s s' : tree (e_fs s) (blocks s) IM → IM d = Some n → (∀ b, ¬ meta (e_fs s) b → blocks s' b = blocks s b) → keeps n s s'.
Proof.
  intros Ht Hd Hm. assert (∀ x, slot_valid (e_fs s) x → ptr (blocks s) n x ≠ 0 → blocks s' (ptr (blocks s) n x) = blocks s (ptr (blocks s) n x)) as Hk by (intros x Hx Hne; by apply Hm, (t_used _ _ _ Ht d n x)).
  split; [|done]. apply ptr_ext. intros x Hx _. by apply Hk.
Qed.

(** The inode and the bytes of file [j] are as before. *)
Definition file_same (j : Z) s s' : Prop :=
  inodes (e_fs s') (blocks s') j = inodes (e_fs s) (blocks s) j ∧ ∀ m k, inodes (e_fs s) (blocks s) j = Some m → 0 ≤ k → byte_of (e_fs s') (blocks s') m k = byte_of (e_fs s) (blocks s) m k.

Lemma file_same_trans j s1 s2 s3 : file_same j s1 s2 → file_same j s2 s3 → file_same j s1 s3.
Proof. intros [A1 A2] [B1 B2]. split; [congruence|]. intros m k Hm Hk. rewrite B2; [by apply A2|congruence|done]. Qed.

Lemma file_same_meta j s s' : geo (e_fs s) → same_geo (e_fs s) (e_fs s') → tree (e_fs s) (blocks s) (inodes (e_fs s) (blocks s)) → (∀ b, ¬ meta (e_fs s) b → blocks s' b = blocks s b) →
  inodes (e_fs s') (blocks s') j = inodes (e_fs s) (blocks s) j → file_same j s s'.
Proof. intros Hg Hs Ht Hm E. split; [done|]. intros m k Hj Hk. destruct (keeps_meta _ j m s s' Ht Hj Hm) as [K1 K2]. by apply byte_of_ext. Qed.

(** ** ext4_free_inode *)

Lemma ext4_free_inode_ok K g i s : sane K s → in_group inode_pool (e_fs s) g i →
  wp (ext4_free_inode (inode_number (e_fs s) g i)) s (λ s' r, sane K s' ∧ after s s' ∧ (e_faults s' = e_faults s → bit_changed inode_pool g i false s s')).
Proof.
  intros [Hok Hl] Hin. pose proof (proj2 Hok) as Hg. destruct (inode_number_spec _ _ _ Hg Hin) as (_ & Hv & Gn & In & _). pose proof (geo_ipg _ Hg). unfold ino_group in Gn. unfold ino_index in In.
  apply wp_bind, wp_the_fs. destruct (Z.eqb_spec (inode_number (e_fs s) g i) 0) as [E|_]; [destruct Hv; lia|]. apply wp_bind, wp_udiv; [lia|]. apply wp_bind, wp_umod; [lia|]. rewrite Gn, In.
  eapply wp_mono; [apply (free_bit_ok inode_pool K g i s (or_intror eq_refl) Hok Hin)|]. intros s' r [Hok' Hf]. assert (after s s') as Ha.
  { destruct Hf as [(_ & Ef & _ & Hlt)|(_ & Ef & Hc)]; (split; [|lia]); [rewrite Ef; apply same_geo_refl|]. by apply (bc_geo inode_pool g i false s s' (or_intror eq_refl) Hg (proj1 (proj1 Hin))). }
  split; [by eapply sane_after|]. split; [done|]. intros En. destruct Hf as [(_ & _ & _ & Hlt)|(_ & _ & Hc)]; [lia|done].
Qed.

(** ** The new inode *)

Definition blank_inode (mode : Z) : list Z := upd i_gid 0 (upd i_uid 0 (upd i_links_count 1 (upd i_mode mode (replicate sizeof_inode 0)))).

Lemma blank_inode_good mode : good_inode (blank_inode mode).
Proof. unfold blank_inode. repeat apply good_upd. split; [apply length_replicate|apply Forall_replicate; split; lia]. Qed.

Lemma blank_inode_ptr fs B mode x : slot_valid fs x → ptr B (blank_inode mode) x = 0.
Proof.
  intros Hx. unfold blank_inode. rewrite !(ptr_upd_other fs) by (first [done|unfold off_map; cbn; lia]). assert (∀ k, fld (i_block k) (replicate sizeof_inode 0) = 0) as E by (intros k; apply fld_zeros).
  destruct x; cbn [ptr]; rewrite !E; done.
Qed.

Lemma blank_inode_fields mode : 0 ≤ mode < 2 ^ 16 → fld i_mode (blank_inode mode) = mode ∧ fld i_links_count (blank_inode mode) = 1 ∧ size_of (blank_inode mode) = 0.
Proof.
  intros Hm. unfold blank_inode, size_of. rewrite !(fld_upd_other i_mode i_gid), !(fld_upd_other i_mode i_uid), !(fld_upd_other i_mode i_links_count) by (unfold apart; cbn; lia).
  rewrite !(fld_upd_other i_links_count i_gid), !(fld_upd_other i_links_count i_uid) by (unfold apart; cbn; lia).
  rewrite !(fld_upd_other i_size_lo) by (unfold apart; cbn; lia). rewrite fld_zeros, !fld_upd_same by (split; [done|]; rewrite ?length_upd; done). split; [by apply Z.mod_small|done].
Qed.

Lemma inode_created K g i mode s s1 s2 : let new := inode_number (e_fs s) g i in fs_inv K s → in_group inode_pool (e_fs s) g i → bit (blocks s (bitmap_block inode_pool (e_fs s) g)) i = false →
  bit_changed inode_pool g i true s s1 → sane K s1 → wrote (ino_block (e_fs s1) new) (list_inserts (Z.to_nat (ino_offset (e_fs s1) new)) (blank_inode mode) (blocks s1 (ino_block (e_fs s1) new))) s1 s2 → sane K s2 →
  inodes (e_fs s) (blocks s) new = None ∧ fs_inv K s2 ∧ (∀ j, inodes (e_fs s2) (blocks s2) j = (<[new := Some (blank_inode mode)]> (inodes (e_fs s) (blocks s))) j) ∧
  (∀ b, ¬ meta (e_fs s) b → blocks s2 b = blocks s b) ∧ ∀ j, j ≠ new → file_same j s s2.
Proof.
  intros new [[[Hh Hg] Hl] Ht] Hin Hbit Hc Hs1 Hw Hs2. destruct (inode_bit g i true s s1 Hg Hl Hin Hc) as (Hsg & Hm1 & _ & Htree & HI1). fold new in HI1. destruct (inode_number_spec _ _ _ Hg Hin) as (_ & Hv & Gn & In & _). fold new in Hv, Gn, In.
  set (IM := inodes (e_fs s) (blocks s)) in *. pose proof Hs1 as [[_ Hg1] Hl1]. assert (valid_ino (e_fs s1) new) as Hv1 by (unfold valid_ino in *; by rewrite (sg_gc _ _ Hsg), (sg_ipg _ _ Hsg)).
  assert (IM new = None) as Hnone by (unfold IM, inodes, live; rewrite Gn, In, Hbit; by rewrite andb_false_r).
  assert (live (e_fs s1) (blocks s1) new = true) as Hlive by (pose proof (HI1 new) as E; rewrite fn_lookup_insert in E; unfold inodes in E; by destruct (live (e_fs s1) (blocks s1) new)).
  pose proof (Htree _ Ht) as Ht1. assert (tree (e_fs s1) (blocks s1) (<[new := Some (blank_inode mode)]> IM)) as Ht1' by (apply tree_empty; [done|apply blank_inode_good|intros x; apply blank_inode_ptr]).
  destruct (ino_block_meta _ _ Hg1 Hv1) as (g' & k' & Hmv & Em). destruct (meta_write _ _ _ _ _ Hg1 ltac:(by exists (MTable g' k')) ltac:(by eapply (table_not_bitmap _ _ (MTable g' k'))) Hw Ht1') as (Ht2 & _ & _).
  assert (∀ j, inodes (e_fs s2) (blocks s2) j = (<[new := Some (blank_inode mode)]> IM) j) as HI2.
  { intros j. rewrite (inodes_written s1 s2 new (blank_inode mode) j Hg1 Hl1 Hlive (blank_inode_good mode) Hw). destruct (decide (j = new)) as [->|Hne]; [by rewrite !fn_lookup_insert|]. rewrite !fn_lookup_insert_ne by done. by rewrite HI1, fn_lookup_insert_ne. }
  assert (∀ b, ¬ meta (e_fs s) b → blocks s2 b = blocks s b) as Hm2.
  { intros b Hb. rewrite (w_blocks _ _ _ _ Hw), bool_decide_eq_false_2; [by apply Hm1|]. intros ->. apply Hb. apply (same_geo_meta _ _ _ Hsg). by exists (MTable g' k'). }
  split; [done|]. split; [split; [done|]; by eapply tree_proper|]. split; [done|]. split; [done|]. intros j Hj. apply file_same_meta; [done|rewrite (w_fs _ _ _ _ Hw); done|done|done|]. by rewrite HI2, fn_lookup_insert_ne.
Qed.

Lemma inode_dropped K g i s s' : let new := inode_number (e_fs s) g i in fs_inv K s → in_group inode_pool (e_fs s) g i → bit_changed inode_pool g i false s s' → sane K s' →
  fs_inv K s' ∧ (∀ j, inodes (e_fs s') (blocks s') j = (<[new := None]> (inodes (e_fs s) (blocks s))) j) ∧ (∀ b, ¬ meta (e_fs s) b → blocks s' b = blocks s b) ∧
  (∀ b, free (e_fs s') (blocks s') b → free (e_fs s) (blocks s) b) ∧ ∀ j, j ≠ new → file_same j s s'.
Proof.
  intros new [[[Hh Hg] Hl] Ht] Hin Hc Hs'. destruct (inode_bit g i false s s' Hg Hl Hin Hc) as (Hsg & Hm & Hf & Htree & HI). fold new in HI.
  split; [split; [done|]; eapply tree_proper; [done|]; by apply tree_removed, Htree|]. split; [done|]. split; [done|]. split; [done|]. intros j Hj. apply file_same_meta; [done..|]. by rewrite HI, fn_lookup_insert_ne.
Qed.

(** ** ext4_create_file *)

Definition no_inode s : Prop := ∀ g, 0 ≤ g < group_count (e_fs s) → full inode_pool s g.

Definition create_spec (K : gmap Z Z) (parent : Z) n (l : list dirent) (name : list Z) (mode : Z) s s' (r : Z) : Prop :=
  fs_inv K s' ∧
  (0 < r ∧ inodes (e_fs s) (blocks s) r = None ∧ inodes (e_fs s') (blocks s') r = Some (blank_inode mode) ∧
     (∃ n' l', inodes (e_fs s') (blocks s') parent = Some n' ∧ dir_ok (e_fs s') (blocks s') n' l' ∧ l' ≡ₚ mk_dirent r 1 (take 255 name) :: l) ∧
     (∀ j, j ≠ parent → j ≠ r → file_same j s s') ∨
   r = -1 ∧ (∀ j, inodes (e_fs s') (blocks s') j = inodes (e_fs s) (blocks s) j) ∧ (∀ j, j ≠ parent → file_same j s s') ∧ dir_ok (e_fs s') (blocks s') n l ∧
     (no_inode s ∨ EXT4_NDIR_BLOCKS + ptrs (e_fs s) ≤ dir_blocks (e_fs s) n ∨ one_left s')).

(** An entry could not be made, and the inode is given back. *)
Lemma create_undone K parent n l name mode g i s s2 s3 s4 : let new := inode_number (e_fs s) g i in geo (e_fs s) → in_group inode_pool (e_fs s) g i → parent ≠ new → inodes (e_fs s) (blocks s) parent = Some n → inodes (e_fs s) (blocks s) new = None →
  (∀ j, inodes (e_fs s2) (blocks s2) j = (<[new := Some (blank_inode mode)]> (inodes (e_fs s) (blocks s))) j) → (∀ j, j ≠ new → file_same j s s2) → same_geo (e_fs s) (e_fs s2) → same_geo (e_fs s2) (e_fs s3) →
  fs_inv K s3 → others_same parent s2 s3 → inodes (e_fs s3) (blocks s3) parent = Some n → dir_ok (e_fs s3) (blocks s3) n l →
  (EXT4_NDIR_BLOCKS + ptrs (e_fs s2) ≤ dir_blocks (e_fs s2) n ∨ one_left s3) → bit_changed inode_pool g i false s3 s4 → sane K s4 → create_spec K parent n l name mode s s4 (-1).
Proof.
  intros new Hg Hin Hpn Hp Hnone HI2 Hf2 Hsg2 Hsg3 Hinv3 Ho3 Hp3 Hok3 Hwhy Hc Hs4. pose proof (same_geo_trans _ _ _ Hsg2 Hsg3) as Hsg. assert (in_group inode_pool (e_fs s3) g i) as Hin3 by (by apply (in_group_same _ _ _ _ _ (or_intror eq_refl) Hsg)).
  assert (inode_number (e_fs s3) g i = new) as En by (unfold new, inode_number; by rewrite (sg_ipg _ _ Hsg)). destruct (inode_dropped K g i s3 s4 Hinv3 Hin3 Hc Hs4) as (Hinv4 & HI4 & Hm4 & Hfr4 & Hf4). rewrite En in *.
  assert (∀ j, j ≠ parent → j ≠ new → file_same j s s4) as Hfs by (intros j Hj1 Hj2; eapply file_same_trans; [by apply Hf2|]; eapply file_same_trans; [by apply Ho3|by apply Hf4]).
  assert (∀ j, inodes (e_fs s4) (blocks s4) j = inodes (e_fs s) (blocks s) j) as HI.
  { intros j. destruct (decide (j = new)) as [->|Hjn]; [by rewrite HI4, fn_lookup_insert, Hnone|]. rewrite HI4, fn_lookup_insert_ne by done. destruct (decide (j = parent)) as [->|Hjp]; [by rewrite Hp3, Hp|].
    rewrite (proj1 (Ho3 j Hjp)), HI2, fn_lookup_insert_ne by done. done. }
  pose proof Hinv3 as [[[_ Hg3] _] Ht3]. split; [done|]. right. split; [done|]. split; [done|]. split; [|split].
  - intros j Hj. destruct (decide (j = new)) as [->|Hjn]; [|by apply Hfs]. split; [done|]. intros m k Hm. by rewrite Hnone in Hm.
  - apply (dir_ok_keeps s3 s4); [done| |by eapply keeps_meta|done]. by apply (bc_geo _ _ _ _ _ _ (or_intror eq_refl) Hg3 (proj1 (proj1 Hin3)) Hc).
  - right. destruct Hwhy as [Hlim|Hone]; [left|right].
    + unfold ptrs, dir_blocks in *. by rewrite (sg_bs _ _ Hsg2) in Hlim.
    + intros b1 b2 F1%Hfr4 F2%Hfr4. by apply Hone.
Qed.

Lemma ext4_create_file_ok K parent name mode n l s : fs_inv K s → inodes (e_fs s) (blocks s) parent = Some n → dir_ok (e_fs s) (blocks s) n l → block_size (e_fs s) < 65536 →
  size_of n + block_size (e_fs s) < 2 ^ 32 → Forall is_byte name → is_dir_mode mode = false →
  wp (ext4_create_file parent name mode) s (λ s' r, sane K s' ∧ after s s' ∧ (e_faults s' = e_faults s → create_spec K parent n l name mode s s' r)).
Proof.
  intros Hinv Hp Hok Hbs Hsz Hname Hmode. pose proof Hinv as [Hs Ht]. pose proof (proj2 (proj1 Hs)) as Hg. pose proof (proj2 Hs) as Hl. destruct (inodes_valid _ _ _ Hp) as [Hv _]. destruct (group_bounds _ _ Hg Hv) as (Eg & Hg1 & Hg2).
  unfold ext4_create_file. rewrite Hmode. apply wp_bind, wp_the_fs, wp_bind, wp_udiv; [pose proof (geo_ipg _ Hg); lia|]. rewrite Eg. apply wp_bind.
  eapply wp_mono; [apply (alloc_bit_ok inode_pool K (ino_group (e_fs s) parent) s (or_intror eq_refl) (proj1 Hs))|]. intros s1 r (Hok1 & Hf1 & [(-> & Ef1 & Eb1 & Hfull)|(g & i & Hin & -> & Hbit & Hc)]).
  { apply wp_ret. assert (quiet (e_faults s1 - e_faults s) s s1) as Hq by (constructor; [done|done|lia]). pose proof (after_quiet _ _ _ Hq) as Ha. assert (sane K s1) as Hs1 by (by eapply sane_after; [|exact Ha|]).
    split; [done|]. split; [done|]. intros En. split; [by eapply fs_inv_quiet|]. right. split; [done|]. split; [intros j; by rewrite (inodes_quiet _ _ _ _ Hq)|]. split; [intros j Hj; by apply (others_quiet _ parent s s1 Hg Hq)|].
    split; [by eapply dir_ok_quiet|]. left. intros g Hgr. by apply Hfull. }
  destruct (inode_number_spec _ _ _ Hg Hin) as (-> & Hvn & _ & _ & Hlt). set (new := inode_number (e_fs s) g i) in *. rewrite (proj2 (Z.ltb_ge _ _)) by (destruct Hvn; lia). cbv zeta. fold (blank_inode mode).
  destruct (inode_bit g i true s s1 Hg Hl Hin Hc) as (Hsg1 & _). assert (after s s1) as Ha1 by done. assert (sane K s1) as Hs1 by (by eapply sane_after; [|exact Ha1|]). destruct (valid_ino_after _ _ _ Ha1 Hvn) as [Hvn1 _].
  assert (∀ s2, sane K s2 → after s s2 → wp (bind (ext4_free_inode new) (λ _, ret (-1))) s2 (λ s' r, sane K s' ∧ after s s' ∧ r = -1 ∧ (e_faults s2 ≤ e_faults s')%nat ∧ (e_faults s' = e_faults s2 → bit_changed inode_pool g i false s2 s'))) as Hundo.
  { intros s2 Hs2 Ha2. assert (inode_number (e_fs s2) g i = new) as <- by (unfold new, inode_number; by rewrite (sg_ipg _ _ (proj1 Ha2))). apply wp_bind. eapply wp_mono; [apply (ext4_free_inode_ok K g i s2 Hs2); by apply (in_group_same _ _ _ _ _ (or_intror eq_refl) (proj1 Ha2))|].
    intros s3 r (Hs3 & Ha3 & Hb3). apply wp_ret. split; [done|]. split; [exact (after_trans _ _ _ Ha2 Ha3)|]. split; [done|]. split; [apply Ha3|done]. }
  apply wp_bind. eapply wp_mono; [apply (write_inode_ok K new (blank_inode mode) s1 (proj1 Hs1) (proj2 Hs1) Hvn1 (blank_inode_good mode))|]. intros s2 w (Hok2 & [[Hw0 Hw]|[Hw0 Hf2]]).
  2: { rewrite (proj2 (Z.ltb_lt _ _)) by done. pose proof (after_trans _ _ _ Ha1 (after_failed _ _ Hf2)) as Ha2. eapply wp_mono; [apply Hundo; [by eapply sane_after; [|exact Ha2|]|done]|]. intros s3 r (Hs3 & Ha3 & _ & Hle & _). split; [done|]. split; [done|].
       intros En. destruct Hf2 as [k Hq]. pose proof (q_faults _ _ _ Hq). lia. }
  rewrite (proj2 (Z.ltb_ge _ _)) by lia. pose proof (after_trans _ _ _ Ha1 (after_wrote _ _ _ _ Hw)) as Ha2. assert (sane K s2) as Hs2 by (by eapply sane_after; [|exact Ha2|]).
  destruct (inode_created K g i mode s s1 s2 Hinv Hin Hbit Hc Hs1 Hw Hs2) as (Hnone & Hinv2 & HI2 & Hm2 & Hfs2). fold new in Hnone, HI2, Hfs2. assert (parent ≠ new) as Hpn by (intros ->; congruence).
  assert (inodes (e_fs s2) (blocks s2) parent = Some n) as Hp2 by (by rewrite HI2, fn_lookup_insert_ne). assert (dir_ok (e_fs s2) (blocks s2) n l) as Hok2' by (apply (dir_ok_keeps s s2); [done|apply Ha2|by eapply keeps_meta|done]).
  apply wp_bind. eapply wp_mono; [apply (add_dir_entry_ok K parent name new 1 n l s2 Hinv2 Hp2 Hok2')|].
  { by rewrite (sg_bs _ _ (proj1 Ha2)). }
  { by rewrite (sg_bs _ _ (proj1 Ha2)). }
  { done. }
  { destruct Hvn. lia. }
  { lia. }
  intros s3 r (Hs3 & Ha3 & Hadd). pose proof (after_trans _ _ _ Ha2 Ha3) as Ha03. destruct (Z.ltb_spec r 0) as [Hr|Hr].
  - eapply wp_mono; [apply (Hundo s3 Hs3 Ha03)|]. intros s4 r4 (Hs4 & Ha4 & -> & Hle & Hb4). split; [done|]. split; [done|]. intros En. assert (e_faults s3 = e_faults s2 ∧ e_faults s4 = e_faults s3) as [En3 En4] by (destruct Ha2, Ha3; lia).
    destruct (Hadd En3) as [[? _]|(_ & Hinv3 & Ho3 & Hp3 & Hok3 & Hwhy)]; [lia|]. eapply (create_undone K parent n l name mode g i s s2 s3 s4); try done; [apply Ha2|apply Ha3|by apply Hb4].
  - apply wp_ret. split; [done|]. split; [done|]. intros En. assert (e_faults s3 = e_faults s2) as En3 by (destruct Ha2, Ha3; lia). destruct (Hadd En3) as [(_ & Hinv3 & Ho3 & n' & l' & Hp3 & Hok3 & Hperm & _)|[? _]]; [|lia].
    split; [done|]. left. split; [destruct Hvn; lia|]. split; [done|]. split; [rewrite (proj1 (Ho3 new (not_eq_sym Hpn))), HI2; by rewrite fn_lookup_insert|]. split; [by exists n', l'|].
    intros j Hj1 Hj2. eapply file_same_trans; [by apply Hfs2|by apply Ho3].
Qed.

(** C12: Creating a file in a directory of a mounted disk.  ext4_vfs_create
    always returns and leaves the heap as it was.  If moreover no call failed
    for lack of memory or on the disk (the only case in which the disk is
    claimed to be intact), the disk stays consistent, and either the result is
    an inode number that was not in use, whose inode is new, empty and of the
    given mode, the directory lists one more entry, with that number and the
    name, and every other file keeps its inode and its bytes; or the result is
    -1, all inodes and the listing are as before, and there was no inode, no
    room in the directory or at most one block left. *)
Theorem ext4_create_correct K fs parent name mode n l t : mounted K fs t → inodes fs (dev_blocks (p_dev t)) parent = Some n → dir_ok fs (dev_blocks (p_dev t)) n l → block_size fs < 65536 →
  size_of n + block_size fs < 2 ^ 32 → Forall is_byte name → is_dir_mode mode = false →
  ∃ t' fs' r, ext4_vfs_create parent name mode t = Some (t', r) ∧ p_root t' = Some fs' ∧ sane K (driver_state fs' t') ∧
    (p_faults t' = p_faults t → create_spec K parent n l name mode (driver_state fs t) (driver_state fs' t') r).
Proof.
  intros [Hr Hinv] Hp Hok Hbs Hsz Hname Hmode. destruct (ext4_create_file_ok K parent name mode n l (driver_state fs t) Hinv Hp Hok Hbs Hsz Hname Hmode) as (s' & r & E & Hs & _ & Hc).
  unfold ext4_vfs_create, on_root. rewrite Hr. fold (driver_state fs t). rewrite E. cbn [mbind option_bind]. exists (mk_driver (e_heap s') (e_dev s') (Some (e_fs s')) (e_faults s')), (e_fs s'), r. split; [done|]. split; [done|].
  unfold driver_state at 1 3. cbn [p_heap p_dev p_faults]. replace (mk_est (e_heap s') (e_dev s') (e_fs s') (e_faults s')) with s' by (by destruct s'). done.
Qed.
End Create.

(** ** The directory of the demonstration disk *)

Definition demo_root_inode : list Z := disk_inode demo_fs (block_at demo_disk) 2.

Lemma demo_dir_ok : dir_ok demo_fs (block_at demo_disk) demo_root_inode [mk_dirent 2 2 dot].
Proof.
  constructor; [vm_compute; reflexivity|vm_compute; reflexivity|]. intros b Hb0 Hb. assert (dir_blocks demo_fs demo_root_inode = 1) as Em by (vm_compute; reflexivity). rewrite Em in Hb.
  assert (one_block demo_root_inode 9) as Hone by (apply (bool_decide_unpack _); vm_compute; exact I). unfold file_block. destruct (slot_of demo_fs b) as [x|] eqn:Ex; [|reflexivity]. cbn [from_option].
  destruct (slot_of_valid demo_fs b x demo_geo Hb0 Ex) as [Hx _]. destruct (Z.eq_dec (ptr (block_at demo_disk) demo_root_inode x) 0) as [|Hne]; [assumption|]. exfalso. destruct (one_block_ptr demo_fs _ _ 9 x Hone Hx Hne) as [-> _].
  assert (b = 0) by (eapply (slot_of_inj demo_fs b 0 (SDir 0) demo_geo); [assumption|reflexivity|assumption|reflexivity]). lia.
Qed.

Lemma ext4_create_correct_witness : ∃ t' fs', ext4_vfs_create 2 [97] 0x81a4 demo_driver = Some (t', 13) ∧
  create_spec ∅ 2 demo_root_inode [mk_dirent 2 2 dot] [97] 0x81a4 (driver_state demo_fs demo_driver) (driver_state fs' t') 13.
Proof.
  assert (Forall is_byte [97]) as Hn by (apply Forall_singleton; split; reflexivity || discriminate).
  destruct (ext4_create_correct ∅ demo_fs 2 [97] 0x81a4 demo_root_inode [mk_dirent 2 2 dot] demo_driver (conj eq_refl demo_disk_inv) ltac:(vm_compute; reflexivity) demo_dir_ok ltac:(reflexivity) ltac:(vm_compute; reflexivity) Hn ltac:(reflexivity))
    as (t' & fs' & r & E & _ & _ & Hc).
  assert ((λ x, (p_faults (fst x), snd x)) <$> ext4_vfs_create 2 [97] 0x81a4 demo_driver = Some (p_faults demo_driver, 13)) as Er by (vm_compute; reflexivity). rewrite E in Er. injection Er as Ef ->.
  exists t', fs'. split; [exact E|exact (Hc Ef)].
Defined.

(** ext4_create_file does not look whether the name is there: a second file of
    the same name gets an inode and an entry of its own. *)
Example create_twice :
  ('(t, i) ← ext4_vfs_create 2 [97] 0x81a4 demo_driver; '(t, j) ← ext4_vfs_create 2 [97] 0x81a4 t; fs ← p_root t;
   l ← dir_listing fs (block_at (p_dev t)) (disk_inode fs (block_at (p_dev t)) 2); Some (i, j, l)) = Some (13, 14, [mk_dirent 2 2 dot; mk_dirent 13 1 [97]; mk_dirent 14 1 [97]]).
Proof. vm_compute. reflexivity. Qed.
