(* ===== verification/Apfs.v ===== *)
(** * kernel/fs/apfs.c

    The reader for Apple containers: it checks the superblock of the container,
    notes the volumes and reads their names.  The disk is a [BlockDevice] and
    structs are lists of bytes, as in [Ext4]; [stale a] is the byte that the
    memory at [a] held before kmalloc gave it out.  Results [None] are accesses
    outside a buffer. *)

From S2P Require Import Prelude KHeap Kmalloc Ext4 Ext4Alloc.

Definition APFS_CONTAINER_MAGIC : Z := 0x4253584E.
Definition APFS_VOLUME_MAGIC : Z := 0x42535041.
Definition APFS_BLOCK_SIZE : Z := 4096.
Definition APFS_MAX_VOLUMES : nat := 100.

(** struct apfs_nx_superblock *)
Definition nx_magic := F 32 4.
Definition nx_block_size := F 36 4.
Definition nx_block_count := F 40 8.
Definition nx_fs_oid (i : Z) := F (184 + 8 * i) 8.
Definition sizeof_nx : nat := 984.

(** struct apfs_volume_superblock *)
Definition vs_magic := F 32 4.
Definition vs_volume_name (i : Z) := F (292 + i) 1.

Record apfs_volume := mk_volume { v_oid : Z; v_name : list Z }.
Record apfs_fs := mk_apfs {
  a_addr : Z;
  container_sb : option (Z * list Z);
  a_block_size : Z;
  block_count : Z;
  num_volumes : Z;
  volumes : list apfs_volume
}.
Definition sizeof_apfs : Z := 27248.

(** ** apfs_fletcher64 *)

(** [while (len >= 4)] over the words of the data. *)
Fixpoint fletcher_loop (ws : list Z) (sum1 sum2 : Z) : Z * Z :=
  match ws with
  | [] => (sum1, sum2)
  | w :: ws' => let sum1 := u64 (sum1 + w) `mod` 0xFFFFFFFF in let sum2 := u64 (sum2 + sum1) `mod` 0xFFFFFFFF in fletcher_loop ws' sum1 sum2
  end.
Fixpoint words (k : nat) (l : list Z) : list Z := match k with O => [] | S k' => le_get (take 4 l) :: words k' (drop 4 l) end.

(** [len] counts down in a size_t; data shorter than the checksum make it wrap. *)
Definition apfs_fletcher64 (data : list Z) : option Z :=
  if (length data <? 8)%nat then None
  else let '(sum1, sum2) := fletcher_loop (words ((length data - 8) / 4) (drop 8 data)) 0 0 in Some (Z.lor (u64 (Z.shiftl sum2 32)) sum1).

(** ** State *)

Record apfs_state (H D : Type) := mk_as { as_heap : H; as_dev : D; mounted_apfs : option apfs_fs }.
Arguments mk_as {H D}. Arguments as_heap {H D}. Arguments as_dev {H D}. Arguments mounted_apfs {H D}.

Section Apfs.
Context {H D : Type} `{!KernelHeap H} `{!BlockDevice D}.

(** apfs_read_block into a buffer of [size] bytes at [p]. *)
Definition apfs_read_block (stale : Z → Z) (p size block : Z) (d : D) : option (D * option (list Z)) :=
  let '(d', r) := dev_read block d in
  match r with
  | None => Some (d', None)
  | Some l =>
      if size <? Z.of_nat (length l) then None
      else Some (d', Some (l ++ ((λ i, stale (p + i)) <$> seqZ (Z.of_nat (length l)) (size - Z.of_nat (length l)))))
  end.

(** ** The container *)

(** [for (i = 0; i < APFS_MAX_VOLUMES && fs_oid[i] != 0; i++)] from [i] on. *)
Fixpoint count_volumes (k : nat) (i : Z) (sb : list Z) (vs : list apfs_volume) : option (Z * list apfs_volume) :=
  match k with
  | O => Some (i, vs)
  | S k' =>
      oid ← getf 0 (nx_fs_oid i) sb;
      if oid =? 0 then Some (i, vs)
      else count_volumes k' (i + 1) sb (alter (λ v, mk_volume oid (v_name v)) (Z.to_nat i) vs)
  end.

Definition apfs_read_container (stale : Z → Z) (fs : apfs_fs) (h : H) (d : D) : option (H * D * apfs_fs * Z) :=
  '(h, r) ← kh_alloc (a_block_size fs) GFP_KERNEL h;
  match r with
  | None => Some (h, d, fs, -1)
  | Some p =>
      '(d, r) ← apfs_read_block stale p (a_block_size fs) 0 d;
      match r with
      | None => h ← kh_free (Some p) h; Some (h, d, fs, -1)
      | Some sb =>
          magic ← getf 0 nx_magic sb;
          if negb (magic =? APFS_CONTAINER_MAGIC) then h ← kh_free (Some p) h; Some (h, d, fs, -1)
          else
            bs ← getf 0 nx_block_size sb;
            bc ← getf 0 nx_block_count sb;
            '(n, vs) ← count_volumes APFS_MAX_VOLUMES 0 sb (volumes fs);
            '(h, c) ← kh_alloc (Z.of_nat sizeof_nx) GFP_KERNEL h;
            copy ← get_bytes 0 sizeof_nx sb;
            h ← kh_free (Some p) h;
            Some (h, d, mk_apfs (a_addr fs) ((λ c, (c, copy)) <$> c) bs bc n vs, 0)
      end
  end.

(** ** Volumes *)

(** [for (i = 0; i < 255 && volume_name[i]; i++)] from [i] on. *)
Fixpoint copy_name (k : nat) (i : Z) (vsb name : list Z) : option (list Z) :=
  match k with
  | O => Some name
  | S k' =>
      c ← getf 0 (vs_volume_name i) vsb;
      if c =? 0 then Some name else copy_name k' (i + 1) vsb (<[Z.to_nat (i + 1) := 0]> (<[Z.to_nat i := c]> name))
  end.

Definition apfs_read_volume (stale : Z → Z) (fs : apfs_fs) (vol_idx : Z) (h : H) (d : D) : option (H * D * apfs_fs * Z) :=
  if (vol_idx <? 0) || (num_volumes fs <=? vol_idx) then Some (h, d, fs, -1)
  else
    '(h, r) ← kh_alloc (a_block_size fs) GFP_KERNEL h;
    match r with
    | None => Some (h, d, fs, -1)
    | Some p =>
        v ← volumes fs !! Z.to_nat vol_idx;
        '(d, r) ← apfs_read_block stale p (a_block_size fs) (v_oid v) d;
        match r with
        | None => h ← kh_free (Some p) h; Some (h, d, fs, -1)
        | Some vsb =>
            magic ← getf 0 vs_magic vsb;
            if negb (magic =? APFS_VOLUME_MAGIC) then h ← kh_free (Some p) h; Some (h, d, fs, -1)
            else
              name ← copy_name 255 0 vsb (v_name v);
              h ← kh_free (Some p) h;
              Some (h, d, mk_apfs (a_addr fs) (container_sb fs) (a_block_size fs) (block_count fs) (num_volumes fs)
                            (<[Z.to_nat vol_idx := mk_volume (v_oid v) name]> (volumes fs)), 0)
        end
    end.

(** The loop over the last [k] volumes. *)
Fixpoint read_volumes (stale : Z → Z) (k : nat) (fs : apfs_fs) (h : H) (d : D) : option (H * D * apfs_fs) :=
  match k with
  | O => Some (h, d, fs)
  | S k' => '(h, d, fs, _) ← apfs_read_volume stale fs (num_volumes fs - Z.of_nat k) h d; read_volumes stale k' fs h d
  end.

(** ** Calls

    The fields that apfs_read_container sets are 0 before. *)

Definition stale_volumes (stale : Z → Z) (p : Z) : list apfs_volume :=
  (λ i, mk_volume (le_get ((λ j, stale (p + 32 + 272 * i + j)) <$> seqZ 0 8)) ((λ j, stale (p + 48 + 272 * i + j)) <$> seqZ 0 256)) <$> seqZ 0 (Z.of_nat APFS_MAX_VOLUMES).

Definition apfs_mount (stale : Z → Z) (s : apfs_state H D) : option (apfs_state H D * Z) :=
  '(h, r) ← kh_alloc sizeof_apfs GFP_KERNEL (as_heap s);
  match r with
  | None => Some (mk_as h (as_dev s) (mounted_apfs s), -1)
  | Some p =>
      '(h, d, fs, r) ← apfs_read_container stale (mk_apfs p None APFS_BLOCK_SIZE 0 0 (stale_volumes stale p)) h (as_dev s);
      if r <? 0 then h ← kh_free (Some p) h; Some (mk_as h d (mounted_apfs s), -1)
      else
        '(h, d, fs) ← read_volumes stale (Z.to_nat (num_volumes fs)) fs h d;
        Some (mk_as h d (Some fs), 0)
  end.

Definition apfs_unmount (s : apfs_state H D) : option (apfs_state H D * Z) :=
  match mounted_apfs s with
  | None => Some (s, 0)
  | Some fs =>
      h ← match container_sb fs with Some (c, _) => kh_free (Some c) (as_heap s) | None => Some (as_heap s) end;
      h ← kh_free (Some (a_addr fs)) h;
      Some (mk_as h (as_dev s) None, 0)
  end.

(** The result and the first 255 bytes of every row that was written. *)
Definition apfs_list_volumes (max_count : Z) (s : apfs_state H D) : Z * list (list Z) :=
  match mounted_apfs s with
  | None => (0, [])
  | Some fs => let n := Z.max 0 (Z.min (num_volumes fs) max_count) in (n, (λ v, take 255 (v_name v)) <$> take (Z.to_nat n) (volumes fs))
  end.

Definition apfs_read_file (path : list Z) (size offset : Z) (s : apfs_state H D) : Z := -1.

(** ** Theorems *)

Context `{!BlockLaws D}.

(** A read into a buffer of the size of a block or more gives the block. *)
Lemma read_block_ok stale p size b d : dev_block_size ≤ size → ∃ d' r, apfs_read_block stale p size b d = Some (d', r) ∧ (∀ c, dev_blocks d' c = dev_blocks d c) ∧
  match r with Some l => Z.of_nat (length l) = size ∧ take (length (dev_blocks d b)) l = dev_blocks d b | None => True end.
Proof.
  intros Hs. unfold apfs_read_block. destruct (dev_read b d) as [d' r] eqn:E. destruct (dev_read_ok _ _ _ _ E) as [Hd Hr]. destruct r as [l|]; [|by exists d', None]. subst l. pose proof (dev_blocks_length d b) as Hl.
  rewrite (proj2 (Z.ltb_ge _ _)) by lia. eexists d', _. split; [done|]. split; [done|]. cbn. rewrite length_app, length_fmap, length_seqZ, take_app_length. split; [lia|done].
Qed.

(** A field that lies in the block. *)
Lemma field_in_block f (l b : list Z) : take (length b) l = b → 0 ≤ f_off f → f_off f + Z.of_nat (f_width f) ≤ Z.of_nat (length b) → getf 0 f l = Some (fld f b) ∧ fld f l = fld f b.
Proof.
  intros E Ho Hf. assert (length b ≤ length l)%nat as Hl by (rewrite <- E at 1; rewrite length_take; lia). assert (fld f l = fld f b) as Ef.
  { unfold fld. f_equal. apply list_eq. intros i. destruct (decide (i < f_width f)%nat) as [Hi|Hi]; [|by rewrite !lookup_take_ge by lia]. rewrite !lookup_take_lt, !lookup_drop by lia. transitivity (take (length b) l !! (Z.to_nat (f_off f) + i)%nat); [by rewrite lookup_take_lt by lia|by rewrite E]. }
  split; [|done]. rewrite <- Ef. destruct f as [o w]. unfold getf, get_bytes, fld. cbn [f_off f_width] in *. by rewrite (proj2 (Z.leb_le _ _)), (proj2 (Z.leb_le _ _)) by lia.
Qed.

(** The object numbers of the volumes: the numbers before the first 0. *)
Fixpoint oids (k : nat) (i : Z) (sb : list Z) : list Z :=
  match k with O => [] | S k' => let oid := fld (nx_fs_oid i) sb in if oid =? 0 then [] else oid :: oids k' (i + 1) sb end.

Lemma count_volumes_ok k i sb b vs : take (length b) sb = b → Z.of_nat sizeof_nx ≤ Z.of_nat (length b) → 0 ≤ i → i + Z.of_nat k ≤ 100 → length vs = 100%nat →
  ∃ vs', count_volumes k i sb vs = Some (i + Z.of_nat (length (oids k i b)), vs') ∧ length vs' = 100%nat ∧ (∀ j : nat, v_name <$> vs' !! j = v_name <$> vs !! j) ∧ (∀ j : nat, (Z.of_nat j < i) → vs' !! j = vs !! j) ∧
    ∀ j : nat, (j < length (oids k i b))%nat → v_oid <$> vs' !! (Z.to_nat i + j)%nat = oids k i b !! j.
Proof.
  intros E Hb. revert i vs. induction k as [|k IH]; intros i vs Hi Hk Hl; cbn [count_volumes oids].
  { exists vs. rewrite Z.add_0_r. split; [done|]. split; [done|]. split; [done|]. split; [done|]. cbn. lia. }
  unfold sizeof_nx in *. destruct (field_in_block (nx_fs_oid i) sb b E) as [Eg Ef]; [cbn; lia|cbn; lia|]. rewrite Eg. cbn [mbind option_bind]. destruct (Z.eqb_spec (fld (nx_fs_oid i) b) 0) as [E0|E0].
  { exists vs. cbn [length]. rewrite Z.add_0_r. split; [done|]. split; [done|]. split; [done|]. split; [done|]. lia. }
  destruct (IH (i + 1) (alter (λ v, mk_volume (fld (nx_fs_oid i) b) (v_name v)) (Z.to_nat i) vs)) as (vs' & Ec & L & Hn & Ho & Hv); [lia|lia|by rewrite length_alter|].
  exists vs'. rewrite Ec. cbn [length]. split; [f_equal; f_equal; lia|]. split; [done|]. split.
  { intros j. rewrite Hn. destruct (decide (j = Z.to_nat i)) as [->|]; [rewrite list_lookup_alter_eq; by destruct (vs !! Z.to_nat i)|by rewrite list_lookup_alter_ne]. }
  split; [intros j Hj; rewrite Ho by lia; apply list_lookup_alter_ne; lia|]. intros [|j] Hj.
  - rewrite Nat.add_0_r, Ho by lia. rewrite list_lookup_alter_eq. assert (is_Some (vs !! Z.to_nat i)) as [v ->] by (apply lookup_lt_is_Some; lia). done.
  - replace (Z.to_nat i + S j)%nat with (Z.to_nat (i + 1) + j)%nat by lia. apply Hv. lia.
Qed.

(** The name of a volume: the bytes before the first NUL, at most 255. *)
Fixpoint name_bytes (k : nat) (i : Z) (vsb : list Z) : list Z :=
  match k with O => [] | S k' => let c := fld (vs_volume_name i) vsb in if c =? 0 then [] else c :: name_bytes k' (i + 1) vsb end.
Definition named (vsb old new : list Z) : Prop := match name_bytes 255 0 vsb with [] => new = old | n => take (S (length n)) new = n ++ [0] end.

Lemma copy_name_ok k i vsb b name : take (length b) vsb = b → 548 ≤ Z.of_nat (length b) → 0 ≤ i → i + Z.of_nat k ≤ 255 → length name = 256%nat →
  ∃ r, copy_name k i vsb name = Some r ∧ length r = 256%nat ∧ (∀ j : nat, Z.of_nat j < i → r !! j = name !! j) ∧
    match name_bytes k i b with [] => r = name | n => take (S (length n)) (drop (Z.to_nat i) r) = n ++ [0] end.
Proof.
  intros E Hb. revert i name. induction k as [|k IH]; intros i name Hi Hk Hl; cbn [copy_name name_bytes]; [by exists name|].
  destruct (field_in_block (vs_volume_name i) vsb b E) as [Eg _]; [cbn; lia|cbn; lia|]. rewrite Eg. cbn [mbind option_bind]. set (c := fld (vs_volume_name i) b). destruct (Z.eqb_spec c 0) as [E0|E0]; [by exists name|].
  set (name' := <[Z.to_nat (i + 1) := 0]> (<[Z.to_nat i := c]> name)). assert (length name' = 256%nat) as Hl' by (unfold name'; by rewrite !length_insert).
  destruct (IH (i + 1) name') as (r & Ec & L & Hp & Hn); [lia|lia|done|]. exists r. split; [done|]. split; [done|].
  assert (r !! Z.to_nat i = Some c) as Ri by (rewrite Hp by lia; unfold name'; rewrite list_lookup_insert_ne by lia; apply list_lookup_insert_eq; lia).
  split; [intros j Hj; rewrite Hp by lia; unfold name'; by rewrite !list_lookup_insert_ne by lia|]. rewrite (drop_S _ _ _ Ri). replace (S (Z.to_nat i)) with (Z.to_nat (i + 1)) by lia.
  destruct (name_bytes k (i + 1) b) as [|c' l]; cbn [length take app] in *; [|by rewrite Hn]. subst r. assert (name' !! Z.to_nat (i + 1) = Some 0) as R1 by (apply list_lookup_insert_eq; rewrite length_insert; lia). by rewrite (drop_S _ _ _ R1).
Qed.

(** What a mounted struct says about the disk [B]; a volume that could not be
    read, or whose name is empty, keeps what was in the memory before. *)
Record apfs_ok (stale : Z → Z) (B : Z → list Z) (fs : apfs_fs) : Prop := {
  ao_magic : fld nx_magic (B 0) = APFS_CONTAINER_MAGIC;
  ao_bs : a_block_size fs = fld nx_block_size (B 0);
  ao_count : block_count fs = fld nx_block_count (B 0);
  ao_num : num_volumes fs = Z.of_nat (length (oids APFS_MAX_VOLUMES 0 (B 0)));
  ao_vols : length (volumes fs) = 100%nat;
  ao_volume (i : nat) v : Z.of_nat i < num_volumes fs → volumes fs !! i = Some v → oids APFS_MAX_VOLUMES 0 (B 0) !! i = Some (v_oid v) ∧ length (v_name v) = 256%nat ∧
    ∃ old, stale_volumes stale (a_addr fs) !! i = Some old ∧ (v_name v = v_name old ∨ fld vs_magic (B (v_oid v)) = APFS_VOLUME_MAGIC ∧ named (B (v_oid v)) (v_name old) (v_name v))
}.

Lemma apfs_ok_ext stale B B' fs : (∀ b, B' b = B b) → apfs_ok stale B fs → apfs_ok stale B' fs.
Proof.
  intros E [A1 A2 A3 A4 A5 A6]. constructor; rewrite ?E; [exact A1|exact A2|exact A3|exact A4|exact A5|]. intros i v Hi Hv. destruct (A6 i v Hi Hv) as (B1 & B2 & old & B3 & B4). split; [exact B1|]. split; [exact B2|]. exists old.
  rewrite !E. split; [exact B3|exact B4].
Qed.

Lemma stale_volumes_length stale p i v : stale_volumes stale p !! i = Some v → length (v_name v) = 256%nat.
Proof. unfold stale_volumes. intros E. apply list_lookup_fmap_Some in E as (k & -> & _). cbn. by rewrite length_fmap, length_seqZ. Qed.

Lemma oids_length k i b : (length (oids k i b) ≤ k)%nat.
Proof. revert i. induction k as [|k IH]; intros i; cbn [oids]; [done|]. destruct (_ =? 0); cbn [length]; [lia|]. specialize (IH (i + 1)). lia. Qed.

(** One volume: a failure leaves the struct as it is. *)
Lemma read_volume_ok K stale fs i h d : dev_block_size = 4096 → kh_inv h K → apfs_ok stale (dev_blocks d) fs → 4096 ≤ a_block_size fs → 0 ≤ i < num_volumes fs →
  (∀ v, volumes fs !! Z.to_nat i = Some v → ∃ old, stale_volumes stale (a_addr fs) !! Z.to_nat i = Some old ∧ v_name v = v_name old) →
  ∃ h' d' fs' r, apfs_read_volume stale fs i h d = Some (h', d', fs', r) ∧ kh_inv h' K ∧ (∀ b, dev_blocks d' b = dev_blocks d b) ∧ apfs_ok stale (dev_blocks d) fs' ∧
    a_addr fs' = a_addr fs ∧ container_sb fs' = container_sb fs ∧ num_volumes fs' = num_volumes fs ∧ a_block_size fs' = a_block_size fs ∧ ∀ j : nat, Z.of_nat j ≠ i → volumes fs' !! j = volumes fs !! j.
Proof.
  intros Hdev Hh Hok Hbs Hi Hold. unfold apfs_read_volume. rewrite (proj2 (Z.ltb_ge _ _)), (proj2 (Z.leb_gt _ _)) by lia. cbn [orb]. destruct (kh_alloc_ok h K (a_block_size fs) GFP_KERNEL Hh ltac:(lia)) as (h1 & r & -> & Hr). cbn [mbind option_bind].
  destruct r as [p|]; [|by eexists _, _, _, _; repeat (split; [done|])]. destruct Hr as (_ & _ & Hp & Hh1). destruct (kh_free_ok h1 _ p (a_block_size fs) Hh1) as (h2 & Ef & Hh2); [apply lookup_insert_eq|]. rewrite delete_insert_id in Hh2 by done.
  pose proof (oids_length APFS_MAX_VOLUMES 0 (dev_blocks d 0)) as Hol. pose proof (ao_num _ _ _ Hok) as Hnum. pose proof (ao_vols _ _ _ Hok) as Hvl. unfold APFS_MAX_VOLUMES in Hol, Hnum. assert (is_Some (volumes fs !! Z.to_nat i)) as [v Hv] by (apply lookup_lt_is_Some; lia).
  rewrite Hv. cbn [mbind option_bind]. destruct (read_block_ok stale p (a_block_size fs) (v_oid v) d ltac:(lia)) as (d1 & r & -> & Hd1 & Hr). cbn [mbind option_bind]. destruct r as [l|].
  2: { rewrite Ef. cbn [mbind option_bind]. by eexists _, _, _, _; repeat (split; [done|]). }
  destruct Hr as [Hl El]. set (b := dev_blocks d (v_oid v)) in *. pose proof (dev_blocks_length d (v_oid v)) as Hb. fold b in Hb. destruct (field_in_block vs_magic l b El) as [-> _]; [cbn; lia|cbn; lia|]. cbn [mbind option_bind].
  destruct (Z.eqb_spec (fld vs_magic b) APFS_VOLUME_MAGIC) as [Hm|Hm]; cbn [negb]. 2: { rewrite Ef. cbn [mbind option_bind]. by eexists _, _, _, _; repeat (split; [done|]). }
  destruct (ao_volume _ _ _ Hok (Z.to_nat i) v ltac:(lia) Hv) as (Hoid & Hnl & _). destruct (copy_name_ok 255 0 l b (v_name v) El ltac:(lia) ltac:(lia) ltac:(lia) Hnl) as (nm & -> & Ln & _ & Hnm). cbn [mbind option_bind]. rewrite Ef. cbn [mbind option_bind].
  eexists _, _, _, _. split; [done|]. split; [done|]. split; [done|]. split; [|cbn [a_addr container_sb num_volumes a_block_size volumes]; repeat (split; [done|]); intros j Hj; apply list_lookup_insert_ne; lia].
  constructor; cbn [a_addr container_sb num_volumes a_block_size block_count volumes]; [apply Hok..| |].
  - by rewrite length_insert.
  - intros j v' Hj Hv'. destruct (decide (j = Z.to_nat i)) as [->|Hne]; [|rewrite list_lookup_insert_ne in Hv' by done; by apply (ao_volume _ _ _ Hok)]. rewrite list_lookup_insert_eq in Hv' by lia. injection Hv' as <-. cbn [v_oid v_name].
    split; [done|]. split; [done|]. destruct (Hold v Hv) as (old & Eo & En). exists old. split; [done|]. right. split; [done|]. unfold named. fold b. rewrite <- En. destruct (name_bytes 255 0 b); [done|exact Hnm].
Qed.

Lemma read_volumes_ok K stale k fs h d : dev_block_size = 4096 → kh_inv h K → apfs_ok stale (dev_blocks d) fs → 4096 ≤ a_block_size fs → Z.of_nat k ≤ num_volumes fs →
  (∀ (j : nat) v, num_volumes fs - Z.of_nat k ≤ Z.of_nat j → volumes fs !! j = Some v → ∃ old, stale_volumes stale (a_addr fs) !! j = Some old ∧ v_name v = v_name old) →
  ∃ h' d' fs', read_volumes stale k fs h d = Some (h', d', fs') ∧ kh_inv h' K ∧ (∀ b, dev_blocks d' b = dev_blocks d b) ∧ apfs_ok stale (dev_blocks d) fs' ∧ a_addr fs' = a_addr fs ∧ container_sb fs' = container_sb fs.
Proof.
  intros Hdev. revert fs h d. induction k as [|k IH]; intros fs h d Hh Hok Hbs Hk Hold; cbn [read_volumes]; [by exists h, d, fs|].
  destruct (read_volume_ok K stale fs (num_volumes fs - Z.of_nat (S k)) h d Hdev Hh Hok Hbs ltac:(lia)) as (h1 & d1 & fs1 & r & -> & Hh1 & Hd1 & Hok1 & Ea & Ec & En & Eb & Hother); [intros v Hv; by apply Hold; [lia|]|]. cbn [mbind option_bind].
  pose proof (apfs_ok_ext _ _ _ fs1 Hd1 Hok1) as Hok1'.
  destruct (IH fs1 h1 d1 Hh1 Hok1' ltac:(lia) ltac:(lia)) as (h2 & d2 & fs2 & E & Hh2 & Hd2 & Hok2 & Ea2 & Ec2).
  { intros j v Hj Hv. rewrite Hother in Hv by lia. rewrite Ea. apply Hold; [lia|done]. }
  exists h2, d2, fs2. split; [done|]. split; [done|]. split; [intros b; rewrite Hd2; apply Hd1|]. split; [|split; congruence].
  apply (apfs_ok_ext _ (dev_blocks d1)); [intros b; symmetry; apply Hd1|exact Hok2].
Qed.

(** The allocation of the copy of the superblock, if there is one. *)
Definition with_copy (c : option (Z * list Z)) (K : gmap Z Z) : gmap Z Z := match c with Some (c, _) => <[c := Z.of_nat sizeof_nx]> K | None => K end.

Lemma read_container_ok K stale p h d : let fs := mk_apfs p None APFS_BLOCK_SIZE 0 0 (stale_volumes stale p) in dev_block_size = 4096 → kh_inv h K →
  ∃ h' d' fs' r, apfs_read_container stale fs h d = Some (h', d', fs', r) ∧ (∀ b, dev_blocks d' b = dev_blocks d b) ∧
    (r = -1 ∧ kh_inv h' K ∨ r = 0 ∧ kh_inv h' (with_copy (container_sb fs') K) ∧ (∀ c x, container_sb fs' = Some (c, x) → K !! c = None) ∧ a_addr fs' = p ∧ apfs_ok stale (dev_blocks d) fs' ∧
       ∀ (j : nat) v, volumes fs' !! j = Some v → ∃ old, stale_volumes stale p !! j = Some old ∧ v_name v = v_name old).
Proof.
  intros fs Hdev Hh. unfold apfs_read_container. cbn [a_block_size fs]. unfold APFS_BLOCK_SIZE. destruct (kh_alloc_ok h K 4096 GFP_KERNEL Hh ltac:(lia)) as (h1 & r & -> & Hr). cbn [mbind option_bind].
  destruct r as [q|]; [|eexists _, _, _, _; split; [done|]; split; [done|]; by left]. destruct Hr as (_ & _ & Hq & Hh1). destruct (kh_free_ok h1 _ q 4096 Hh1) as (h2 & Ef & Hh2); [apply lookup_insert_eq|]. rewrite delete_insert_id in Hh2 by done.
  destruct (read_block_ok stale q 4096 0 d ltac:(lia)) as (d1 & r & -> & Hd1 & Hr). cbn [mbind option_bind]. destruct r as [l|]. 2: { rewrite Ef. cbn [mbind option_bind]. eexists _, _, _, _. split; [done|]. split; [done|]. by left. }
  destruct Hr as [Hl El]. set (b := dev_blocks d 0) in *. pose proof (dev_blocks_length d 0) as Hb. fold b in Hb. destruct (field_in_block nx_magic l b El) as [-> _]; [cbn; lia|cbn; lia|]. cbn [mbind option_bind].
  destruct (Z.eqb_spec (fld nx_magic b) APFS_CONTAINER_MAGIC) as [Hm|Hm]; cbn [negb]. 2: { rewrite Ef. cbn [mbind option_bind]. eexists _, _, _, _. split; [done|]. split; [done|]. by left. }
  destruct (field_in_block nx_block_size l b El) as [-> _]; [cbn; lia|cbn; lia|]. cbn [mbind option_bind]. destruct (field_in_block nx_block_count l b El) as [-> _]; [cbn; lia|cbn; lia|]. cbn [mbind option_bind].
  assert (length (stale_volumes stale p) = 100%nat) as Lv by (unfold stale_volumes; rewrite length_fmap, length_seqZ; done).
  destruct (count_volumes_ok APFS_MAX_VOLUMES 0 l b (stale_volumes stale p) El) as (vs & Ec & Lvs & Hn & _ & Hv); [unfold sizeof_nx; lia|lia|unfold APFS_MAX_VOLUMES; lia|done|]. change (volumes fs) with (stale_volumes stale p). change (a_addr fs) with p. rewrite Ec. cbn [mbind option_bind]. rewrite Z.add_0_l.
  destruct (kh_alloc_ok h1 _ (Z.of_nat sizeof_nx) GFP_KERNEL Hh1 ltac:(lia)) as (h3 & c & -> & Hc). cbn [mbind option_bind]. rewrite get_bytes_ok by (unfold sizeof_nx; lia). cbn [mbind option_bind].
  set (x := take sizeof_nx (drop (Z.to_nat 0) l)). assert (∃ h4, kh_free (Some q) h3 = Some h4 ∧ kh_inv h4 (with_copy ((λ c, (c, x)) <$> c) K) ∧ ∀ c' x', ((λ c, (c, x)) <$> c) = Some (c', x') → K !! c' = None) as (h4 & -> & Hh4 & Hnew).
  { destruct c as [c|]; cbn [fmap option_fmap option_map with_copy].
    - destruct Hc as (_ & _ & Hc & Hh3). assert (c ≠ q) as Hcq by (intros ->; by rewrite lookup_insert_eq in Hc). rewrite lookup_insert_ne in Hc by done. rewrite insert_insert_ne in Hh3 by done. destruct (kh_free_ok h3 _ q 4096 Hh3) as (h4 & E4 & Hh4); [apply lookup_insert_eq|].
      rewrite delete_insert_id in Hh4 by (by rewrite lookup_insert_ne). exists h4. split; [done|]. split; [done|]. by intros c' x' [= <- _].
    - destruct (kh_free_ok h3 _ q 4096 Hc) as (h4 & E4 & Hh4); [apply lookup_insert_eq|]. rewrite delete_insert_id in Hh4 by done. by exists h4. }
  cbn [mbind option_bind]. eexists _, _, _, _. split; [done|]. split; [done|]. right. cbn [container_sb a_addr volumes]. split; [done|]. split; [done|]. split; [done|]. split; [done|].
  assert (∀ (j : nat) v, vs !! j = Some v → ∃ old, stale_volumes stale p !! j = Some old ∧ v_name v = v_name old) as Hold.
  { intros j v Hj. specialize (Hn j). rewrite Hj in Hn. destruct (stale_volumes stale p !! j) as [old|]; [|done]. injection Hn as Hn. by exists old. }
  split; [|done]. constructor; cbn [a_block_size block_count num_volumes volumes a_addr]; [done|done|done|done|done|]. intros j v Hj Hv'. destruct (Hold j v Hv') as (old & Eo & Ev). specialize (Hv j ltac:(lia)). rewrite Nat.add_0_l, Hv' in Hv. cbn in Hv.
  split; [symmetry; exact Hv|]. split; [rewrite Ev; by eapply stale_volumes_length|]. exists old. split; [done|]. by left.
Qed.

(** apfs_mount on a disk with blocks of 4096 bytes: it fails with everything
    freed and the old container still mounted, or notes exactly the volumes
    before the first 0, with the name of each whose superblock could be read
    and has the magic number.  Unmounting frees what the mount allocated. *)
Theorem apfs_mount_correct K stale (s : apfs_state H D) : let B := dev_blocks (as_dev s) in dev_block_size = 4096 → kh_inv (as_heap s) K → (fld nx_magic (B 0) = APFS_CONTAINER_MAGIC → 4096 ≤ fld nx_block_size (B 0)) →
  ∃ s' r, apfs_mount stale s = Some (s', r) ∧ (∀ b, dev_blocks (as_dev s') b = B b) ∧
    (r = -1 ∧ mounted_apfs s' = mounted_apfs s ∧ kh_inv (as_heap s') K ∨
     r = 0 ∧ ∃ fs, mounted_apfs s' = Some fs ∧ apfs_ok stale B fs ∧ ∃ s'', apfs_unmount s' = Some (s'', 0) ∧ mounted_apfs s'' = None ∧ kh_inv (as_heap s'') K).
Proof.
  intros B Hdev Hh Hbs. unfold apfs_mount. destruct (kh_alloc_ok (as_heap s) K sizeof_apfs GFP_KERNEL Hh ltac:(done)) as (h1 & r & -> & Hr). cbn [mbind option_bind]. destruct r as [p|]; [|eexists _, _; split; [done|]; split; [done|]; by left].
  destruct Hr as (_ & _ & Hp & Hh1). destruct (read_container_ok _ stale p h1 (as_dev s) Hdev Hh1) as (h2 & d2 & fs2 & r & -> & Hd2 & Hr). cbn [mbind option_bind]. destruct Hr as [[-> Hh2]|(-> & Hh2 & Hc & Ea & Hok & Hold)]; cbn [Z.ltb Z.compare].
  { destruct (kh_free_ok h2 _ p sizeof_apfs Hh2) as (h3 & -> & Hh3); [apply lookup_insert_eq|]. rewrite delete_insert_id in Hh3 by done. cbn [mbind option_bind]. eexists _, _. split; [done|]. split; [done|]. by left. }
  assert (4096 ≤ a_block_size fs2) as Hbs2 by (rewrite (ao_bs _ _ _ Hok); apply Hbs; apply Hok). assert (0 ≤ num_volumes fs2) as Hn0 by (rewrite (ao_num _ _ _ Hok); lia).
  destruct (read_volumes_ok _ stale (Z.to_nat (num_volumes fs2)) fs2 h2 d2 Hdev Hh2 (apfs_ok_ext _ _ _ fs2 Hd2 Hok) Hbs2) as (h3 & d3 & fs3 & -> & Hh3 & Hd3 & Hok3 & Ea3 & Ec3); [lia|intros j v _; rewrite Ea; apply Hold|]. cbn [mbind option_bind].
  eexists _, _. split; [done|]. split; [intros b; cbn [as_dev]; rewrite Hd3; apply Hd2|]. right. split; [done|]. exists fs3. split; [done|]. split; [apply (apfs_ok_ext _ (dev_blocks d2)); [intros b; symmetry; apply Hd2|exact Hok3]|].
  unfold apfs_unmount. cbn [mounted_apfs as_heap as_dev]. rewrite Ec3, Ea3, Ea. destruct (container_sb fs2) as [[c x]|] eqn:Esb; cbn [with_copy] in Hh3.
  - specialize (Hc c x eq_refl). destruct (kh_free_ok h3 _ c (Z.of_nat sizeof_nx) Hh3) as (h4 & -> & Hh4); [apply lookup_insert_eq|]. rewrite delete_insert_id in Hh4 by done. cbn [mbind option_bind].
    destruct (kh_free_ok h4 _ p sizeof_apfs Hh4) as (h5 & -> & Hh5); [apply lookup_insert_eq|]. rewrite delete_insert_id in Hh5 by done. cbn [mbind option_bind]. eexists. by repeat split.
  - cbn [mbind option_bind]. destruct (kh_free_ok h3 _ p sizeof_apfs Hh3) as (h5 & -> & Hh5); [apply lookup_insert_eq|]. rewrite delete_insert_id in Hh5 by done. cbn [mbind option_bind]. eexists. by repeat split.
Qed.
End Apfs.

(** ** The checksum *)

Definition total_words (ws : list Z) : Z := foldr Z.add 0 ws.
(** The sum of the sums of all prefixes. *)
Fixpoint sum_prefixes (ws : list Z) : Z := match ws with [] => 0 | w :: ws' => (1 + Z.of_nat (length ws')) * w + sum_prefixes ws' end.

Lemma fletcher_loop_ok ws a b : Forall (λ w, 0 ≤ w < 2 ^ 32) ws → 0 ≤ a < 0xFFFFFFFF → 0 ≤ b < 0xFFFFFFFF →
  fletcher_loop ws a b = ((a + total_words ws) `mod` 0xFFFFFFFF, (b + Z.of_nat (length ws) * a + sum_prefixes ws) `mod` 0xFFFFFFFF).
Proof.
  intros Hws. revert a b. induction Hws as [|w ws Hw _ IH]; intros a b Ha Hb; cbn [fletcher_loop total_words foldr sum_prefixes length].
  { f_equal; symmetry; rewrite Z.mod_small; lia. }
  rewrite (u64_small (a + w)) by lia. set (a' := (a + w) `mod` 0xFFFFFFFF). assert (0 ≤ a' < 0xFFFFFFFF) as Ha' by (unfold a'; lia_mod). rewrite u64_small by lia. set (b' := (b + a') `mod` 0xFFFFFFFF).
  assert (0 ≤ b' < 0xFFFFFFFF) as Hb' by (unfold b'; lia_mod). rewrite IH by done. fold (total_words ws). assert (∃ q, a' = a + w - q * 0xFFFFFFFF) as [q Eq] by (exists ((a + w) / 0xFFFFFFFF); unfold a'; lia_mod).
  assert (∃ r, b' = b + a' - r * 0xFFFFFFFF) as [r Er] by (exists ((b + a') / 0xFFFFFFFF); unfold b'; lia_mod). f_equal.
  - replace (a' + total_words ws) with (a + (w + total_words ws) + (- q) * 0xFFFFFFFF) by lia. apply Z_mod_plus_full.
  - replace (b' + Z.of_nat (length ws) * a' + sum_prefixes ws) with (b + Z.of_nat (S (length ws)) * a + ((1 + Z.of_nat (length ws)) * w + sum_prefixes ws) + (- r - (1 + Z.of_nat (length ws)) * q) * 0xFFFFFFFF) by lia. apply Z_mod_plus_full.
Qed.

Lemma words_range k l : Forall is_byte l → Forall (λ w, 0 ≤ w < 2 ^ 32) (words k l).
Proof.
  revert l. induction k as [|k IH]; intros l Hl; cbn [words]; constructor; [|by apply IH, Forall_drop]. pose proof (le_get_bound (take 4 l) ltac:(by apply Forall_take)) as Hb.
  assert (256 ^ Z.of_nat (length (take 4 l)) ≤ 2 ^ 32); [|lia]. change (2 ^ 32) with (256 ^ 4). apply Z.pow_le_mono_r; [lia|]. rewrite length_take. lia.
Qed.

(** apfs_fletcher64 is the checksum of Fletcher over the 32-bit words after the
    field that holds it: the sum and the sum of the prefix sums, modulo
    2 ^ 32 - 1, in the two halves. *)
Theorem apfs_fletcher64_correct data : Forall is_byte data → (8 ≤ length data)%nat →
  let ws := words ((length data - 8) / 4) (drop 8 data) in
  apfs_fletcher64 data = Some (sum_prefixes ws `mod` (2 ^ 32 - 1) * 2 ^ 32 + total_words ws `mod` (2 ^ 32 - 1)).
Proof.
  intros Hb Hl ws. unfold apfs_fletcher64. rewrite (proj2 (Nat.ltb_ge _ _)) by done. fold ws. rewrite fletcher_loop_ok by (try apply words_range, Forall_drop; done || lia). rewrite Z.mul_0_r, !Z.add_0_l. change 0xFFFFFFFF with (2 ^ 32 - 1).
  set (a := total_words ws `mod` _). set (b := sum_prefixes ws `mod` _). assert (0 ≤ a < 2 ^ 32 - 1) by (unfold a; apply Z.mod_pos_bound; lia). assert (0 ≤ b < 2 ^ 32 - 1) by (unfold b; apply Z.mod_pos_bound; lia).
  f_equal. rewrite u64_small by (rewrite Z.shiftl_mul_pow2 by lia; lia). rewrite Z.lor_comm, lor_shiftl by lia. lia.
Qed.

(** ** A disk with blocks of 4096 bytes *)

Definition pages : Type := gmap Z (list Z).
Definition page_at (d : pages) (b : Z) : list Z := (λ x, x `mod` 256) <$> take 4096 (default [] (d !! b) ++ replicate 4096 0).

#[export] Instance pages_device : BlockDevice pages := { dev_read b d := (d, Some (page_at d b)); dev_write := None }.

#[export] Instance pages_laws : BlockLaws pages.
Proof.
  refine {| dev_blocks := page_at; dev_block_size := 4096 |}.
  - intros d b. unfold page_at. rewrite length_fmap, length_take, length_app, length_replicate. lia.
  - intros d b. apply Forall_fmap, Forall_true. intros x. cbn. split; lia_mod.
  - by intros b d d' r [= <- <-].
  - done.
Defined.

(** One container with two volumes, the second without a name. *)
Definition demo_pages : pages := list_to_map [
  (0, upd nx_magic APFS_CONTAINER_MAGIC (upd nx_block_size 4096 (upd (nx_fs_oid 0) 1 (upd (nx_fs_oid 1) 2 (replicate 984 0)))));
  (1, upd vs_magic APFS_VOLUME_MAGIC (upd (vs_volume_name 0) 65 (replicate 548 0)));
  (2, upd vs_magic APFS_VOLUME_MAGIC (replicate 548 0))].

Lemma apfs_mount_correct_witness : ∃ s' fs, apfs_mount (λ _, 7) (mk_as boot_heap demo_pages None) = Some (s', 0) ∧ mounted_apfs s' = Some fs ∧ apfs_ok (λ _, 7) (page_at demo_pages) fs ∧ num_volumes fs = 2.
Proof.
  assert (kh_inv boot_heap ∅) as Hh by (by apply heap_owns_init).
  destruct (apfs_mount_correct (BlockLaws0 := pages_laws) ∅ (λ _, 7) (mk_as boot_heap demo_pages None) eq_refl Hh ltac:(intros _; vm_compute; discriminate)) as (s' & r & E & _ & Hs).
  assert ((λ x, (num_volumes <$> mounted_apfs (fst x), snd x)) <$> apfs_mount (λ _, 7) (mk_as boot_heap demo_pages None) = Some (Some 2, 0)) as Er by (vm_compute; reflexivity). rewrite E in Er. injection Er as En ->.
  destruct Hs as [[Hr _]|(_ & fs & Hf & Hok & _)]; [lia|]. exists s', fs. rewrite Hf in En. injection En as En. split; [exact E|]. split; [exact Hf|]. split; [exact Hok|exact En].
Defined.

(** The second volume gets no name, and apfs_list_volumes hands out what was in
    the memory before. *)
Example unnamed_volume :
  ('(s, _) ← apfs_mount (λ _, 7) (mk_as boot_heap demo_pages None); Some (fst (apfs_list_volumes 10 s), take 2 <$> snd (apfs_list_volumes 10 s))) = Some (2, [[65; 0]; [7; 7]]).
Proof. vm_compute. reflexivity. Qed.
