(* ===== verification/Sandbox.v ===== *)
(** * kernel/sandbox/sandbox.c

    The life of a sandbox context: its three allocations, their release, and
    what the fault handler records.  sandbox_execute is not here: it depends on
    inline assembly that saves and restores registers, and on where the compiler
    keeps its variables. *)

From S2P Require Import Prelude KHeap Kmalloc.

Record sandbox_ctx := mk_ctx {
  stack : option Z;
  stack_size : Z;
  result_buffer : option Z;
  result_size : Z;
  faulted : Z;
  fault_addr : Z;
  fault_type : Z;
  recovery_state : option Z
}.

Definition SANDBOX_FAULT_NONE : Z := 0.
(** On ARM64: thirteen registers. *)
Definition sizeof_jmpbuf : Z := 104.

Section Sandbox.
Context {H : Type} `{!KernelHeap H}.

(** The last part of sandbox_init: the memory for the registers. *)
Definition init_recovery (ctx : sandbox_ctx) (h : H) : option (H * sandbox_ctx * Z) :=
  '(h, r) ← kh_alloc sizeof_jmpbuf GFP_KERNEL h;
  match r with
  | None =>
      h ← kh_free (stack ctx) h;
      h ← match result_buffer ctx with Some b => kh_free (Some b) h | None => Some h end;
      Some (h, ctx, -1)
  | Some p => Some (h, mk_ctx (stack ctx) (stack_size ctx) (result_buffer ctx) (result_size ctx) 0 0 SANDBOX_FAULT_NONE (Some p), 0)
  end.

(** [ctx] is not NULL; what it held before is overwritten. *)
Definition sandbox_init (stack_size result_size : Z) (h : H) : option (H * sandbox_ctx * Z) :=
  let size := if 0 <? stack_size then stack_size else 64 * 1024 in
  '(h, r) ← kh_alloc size GFP_KERNEL h;
  match r with
  | None => Some (h, mk_ctx None size None 0 0 0 0 None, -1)
  | Some p =>
      if 0 <? result_size then
        '(h, r) ← kh_alloc result_size GFP_KERNEL h;
        match r with
        | None => h ← kh_free (Some p) h; Some (h, mk_ctx None size None 0 0 0 0 None, -1)
        | Some b => init_recovery (mk_ctx (Some p) size (Some b) result_size 0 0 0 None) h
        end
      else init_recovery (mk_ctx (Some p) size None 0 0 0 0 None) h
  end.

Definition free_ptr (p : option Z) (h : H) : option H := match p with Some p => kh_free (Some p) h | None => Some h end.
Definition sandbox_destroy (ctx : sandbox_ctx) (h : H) : option (H * sandbox_ctx) :=
  h ← free_ptr (stack ctx) h;
  h ← free_ptr (result_buffer ctx) h;
  h ← free_ptr (recovery_state ctx) h;
  Some (h, mk_ctx None (stack_size ctx) None (result_size ctx) (faulted ctx) (fault_addr ctx) (fault_type ctx) None).

(** The context that is current and what the fault handler records in it; true
    if it then jumps back to sandbox_execute. *)
Definition sandbox_handle_fault (addr type : Z) (current : option sandbox_ctx) : option sandbox_ctx * bool :=
  match current with
  | None => (None, false)
  | Some c =>
      match recovery_state c with
      | None => (current, false)
      | Some _ => (Some (mk_ctx (stack c) (stack_size c) (result_buffer c) (result_size c) 1 addr type (recovery_state c)), true)
      end
  end.
Definition sandbox_is_active (current : option sandbox_ctx) : Z := match current with Some _ => 1 | None => 0 end.
Definition sandbox_get_current (current : option sandbox_ctx) : option sandbox_ctx := current.

(** ** What a context owns *)

Definition own (p : option Z) (n : Z) (K : gmap Z Z) : gmap Z Z := match p with Some p => <[p := n]> K | None => K end.
Definition new_in (p : option Z) (K : gmap Z Z) : Prop := match p with Some p => K !! p = None | None => True end.

(** The stack, the result buffer and the saved registers are allocated, apart
    from each other and from what was there before. *)
Record owns (K : gmap Z Z) (c : sandbox_ctx) (h : H) : Prop := {
  ow_stack : is_Some (stack c) ∧ is_Some (recovery_state c);
  ow_new : new_in (recovery_state c) K ∧ new_in (result_buffer c) (own (recovery_state c) sizeof_jmpbuf K) ∧
    new_in (stack c) (own (result_buffer c) (result_size c) (own (recovery_state c) sizeof_jmpbuf K));
  ow_heap : kh_inv h (own (stack c) (stack_size c) (own (result_buffer c) (result_size c) (own (recovery_state c) sizeof_jmpbuf K)))
}.

Lemma free_ptr_ok p n K h : kh_inv h (own p n K) → new_in p K → ∃ h', free_ptr p h = Some h' ∧ kh_inv h' K.
Proof.
  destruct p as [p|]; cbn [own new_in free_ptr]; [|by exists h]. intros Hh Hp. destruct (kh_free_ok h _ p n Hh) as (h' & E & Hh'); [apply lookup_insert_eq|]. rewrite delete_insert_id in Hh' by done. by exists h'.
Qed.

(** The pointers [p] and [b] are allocated, and [b] may be NULL. *)
Lemma init_recovery_ok K c p h : stack c = Some p → recovery_state c = None → kh_inv h (own (result_buffer c) (result_size c) (<[p := stack_size c]> K)) → K !! p = None → new_in (result_buffer c) (<[p := stack_size c]> K) →
  ∃ h' c' r, init_recovery c h = Some (h', c', r) ∧ (r = -1 ∧ kh_inv h' K ∨ r = 0 ∧ owns K c' h').
Proof.
  intros Es Er Hh Hp Hb. unfold init_recovery. rewrite Es. destruct (kh_alloc_ok h _ sizeof_jmpbuf GFP_KERNEL Hh ltac:(done)) as (h1 & r & -> & Hr). cbn [mbind option_bind]. destruct r as [q|].
  - destruct Hr as (_ & _ & Hq & Hh1). eexists _, _, _. split; [done|]. right. split; [done|]. unfold sizeof_jmpbuf in *. destruct (result_buffer c) as [b|] eqn:Eb; cbn [own new_in] in *.
    + apply lookup_insert_None in Hq as [Hq N3]. apply lookup_insert_None in Hq as [Hq N2]. apply lookup_insert_None in Hb as [Hb N1].
      constructor; cbn [stack recovery_state result_buffer result_size stack_size own new_in]; [by split; eexists|by rewrite !lookup_insert_ne by done|].
      rewrite (insert_insert_ne _ q b), (insert_insert_ne _ q p), (insert_insert_ne _ b p) in Hh1 by done. done.
    + assert (q ≠ p) as N2 by (intros ->; by rewrite lookup_insert_eq in Hq). rewrite lookup_insert_ne in Hq by done.
      constructor; cbn [stack recovery_state result_buffer result_size stack_size own new_in]; [by split; eexists|by rewrite lookup_insert_ne by done|]. by rewrite insert_insert_ne.
  - assert (∃ h2, kh_free (Some p) h1 = Some h2 ∧ kh_inv h2 (own (result_buffer c) (result_size c) K) ∧ new_in (result_buffer c) K) as (h2 & -> & Hh2 & Hb2).
    { destruct (result_buffer c) as [b|]; cbn [own new_in] in *.
      - assert (b ≠ p) as N by (intros ->; by rewrite lookup_insert_eq in Hb). rewrite lookup_insert_ne in Hb by done. rewrite insert_insert_ne in Hr by done. destruct (kh_free_ok h1 _ p (stack_size c) Hr) as (h2 & E & Hh2); [apply lookup_insert_eq|].
        rewrite delete_insert_id in Hh2 by (by rewrite lookup_insert_ne). by exists h2.
      - destruct (kh_free_ok h1 _ p (stack_size c) Hr) as (h2 & E & Hh2); [apply lookup_insert_eq|]. rewrite delete_insert_id in Hh2 by done. by exists h2. }
    cbn [mbind option_bind]. destruct (free_ptr_ok _ _ _ _ Hh2 Hb2) as (h3 & E3 & Hh3). unfold free_ptr in E3. rewrite E3. cbn [mbind option_bind]. eexists _, _, _. split; [done|]. by left.
Qed.

(** sandbox_init allocates stack, result buffer and register memory, or frees
    what it got and fails; sandbox_destroy gives everything back. *)
Theorem sandbox_init_destroy K ssize rsize h : kh_inv h K → ∃ h' c r, sandbox_init ssize rsize h = Some (h', c, r) ∧
  (r = -1 ∧ kh_inv h' K ∨ r = 0 ∧ owns K c h' ∧ ∃ h'' c', sandbox_destroy c h' = Some (h'', c') ∧ kh_inv h'' K ∧ stack c' = None ∧ result_buffer c' = None ∧ recovery_state c' = None).
Proof.
  intros Hh. assert (∀ c h', owns K c h' → ∃ h'' c', sandbox_destroy c h' = Some (h'', c') ∧ kh_inv h'' K ∧ stack c' = None ∧ result_buffer c' = None ∧ recovery_state c' = None) as Hdestroy.
  { intros c h' [_ (N1 & N2 & N3) Ho]. unfold sandbox_destroy. destruct (free_ptr_ok _ _ _ _ Ho N3) as (h1 & -> & Hh1). cbn [mbind option_bind]. destruct (free_ptr_ok _ _ _ _ Hh1 N2) as (h2 & -> & Hh2). cbn [mbind option_bind].
    destruct (free_ptr_ok _ _ _ _ Hh2 N1) as (h3 & -> & Hh3). cbn [mbind option_bind]. eexists _, _. by repeat split. }
  assert (∀ h1 c p, stack c = Some p → recovery_state c = None → kh_inv h1 (own (result_buffer c) (result_size c) (<[p := stack_size c]> K)) → K !! p = None → new_in (result_buffer c) (<[p := stack_size c]> K) →
    ∃ h' c' r, init_recovery c h1 = Some (h', c', r) ∧ (r = -1 ∧ kh_inv h' K ∨ r = 0 ∧ owns K c' h' ∧ ∃ h'' c'', sandbox_destroy c' h' = Some (h'', c'') ∧ kh_inv h'' K ∧ stack c'' = None ∧ result_buffer c'' = None ∧ recovery_state c'' = None)) as Hlast.
  { intros h1 c p E1 E2 H1 H2 H3. destruct (init_recovery_ok K c p h1 E1 E2 H1 H2 H3) as (h' & c' & r & E & [Hf|[Hr Ho]]); exists h', c', r; (split; [done|]); [by left|right]. split; [done|]. split; [done|]. by apply Hdestroy. }
  unfold sandbox_init. set (size := if 0 <? ssize then ssize else 64 * 1024). assert (0 ≤ size) as Hs by (unfold size; destruct (Z.ltb_spec 0 ssize); lia).
  destruct (kh_alloc_ok h K size GFP_KERNEL Hh Hs) as (h1 & r & -> & Hr). cbn [mbind option_bind]. destruct r as [p|]; [|eexists _, _, _; split; [done|]; by left]. destruct Hr as (_ & _ & Hp & Hh1).
  destruct (Z.ltb_spec 0 rsize) as [Hrs|Hrs]; [|by apply (Hlast h1 _ p)]. destruct (kh_alloc_ok h1 _ rsize GFP_KERNEL Hh1 ltac:(lia)) as (h2 & r & -> & Hr). cbn [mbind option_bind]. destruct r as [b|].
  - destruct Hr as (_ & _ & Hb & Hh2). by apply (Hlast h2 _ p).
  - destruct (kh_free_ok h2 _ p size Hr) as (h3 & -> & Hh3); [apply lookup_insert_eq|]. rewrite delete_insert_id in Hh3 by done. cbn [mbind option_bind]. eexists _, _, _. split; [done|]. by left.
Qed.
End Sandbox.

(** When the register memory cannot be had, the freed stack stays in the
    context.  Its address is given out again, and destroying the context frees
    the block of the new owner: two owners get the same address. *)
Definition full_heap : option heap :=
  '(h, _) ← kh_alloc MAX_ALLOC GFP_KERNEL boot_heap; '(h, _) ← kh_alloc MAX_ALLOC GFP_KERNEL h; '(h, _) ← kh_alloc MAX_ALLOC GFP_KERNEL h; Some h.
Example init_leaves_pointer :
  (h ← full_heap; '(h, c, r) ← sandbox_init (MAX_ALLOC - 256) 0 h; '(h, q) ← kh_alloc 100 GFP_KERNEL h; '(h, _) ← sandbox_destroy c h; '(h, q') ← kh_alloc 100 GFP_KERNEL h;
   Some (r, bool_decide (q = q' ∧ q ≠ None))) = Some (-1, true).
Proof. vm_compute. reflexivity. Qed.
